(* ===== verification/_CoqProject ===== *)
-Q . S2P
Prelude.v
Numerals.v
PyText.v
Ff1.v
Checksums.v
Fpe.v
PyData.v
Namespace.v
Graph.v
PlanTypes.v
Closure.v
CsvFramer.v
CsvFields.v
Sha256.v
Derive.v
CastNumeric.v
CastCobol.v
CastDate.v
CastCatalog.v
Ledger.v
SecretCache.v
Reasons.v
CastLedger.v
CastRun.v
CastEvents.v
CastPartition.v
CastEvidence.v
ReasonsTheory.v
Json.v
PyRepr.v
QuarantineCodec.v
QuarantineStore.v
QuarantineTheory.v
QuarantineReading.v
QuarantineContract.v
Catalog1.v
Catalog2.v
Catalog3.v
Failures.v
Catalog.v
FailuresTheory.v
Progress.v
ProgressTheory.v
Walks.v
WalkGraph.v
WalkCycles.v
WalkDrift.v
WalkInference.v
WalkHazards.v
Phase.v
PhaseTheory.v
PhaseContract.v
Floats.v
Canonicalize.v
SubsetRange.v
SubsetSeed.v
SubsetSeedTheory.v
FileSystem.v
FileAccess.v
FileAccessTheory.v
FilePolicy.v
FileOutput.v
TableSink.v
FileOutputTheory.v
TableSinkTheory.v
When.v
WhenGrammar.v
WhenTheory.v
WhenText.v
WhenGates.v
DpCarriers.v
DpSession.v
DpProvenance.v
DpFit.v
DpCarriersTheory.v
DpSessionTheory.v
DpFitTheory.v
DpVerify.v
DpVerifyTheory.v
