(* ===== verification/Prelude.v ===== *)
(** * decoy-engine: a verification development

    decoy-engine (src/src/decoy_engine) masks, subsets and generates data sets. A
    configuration is compiled into a plan: relationships between tables become a
    graph that fixes the masking order, columns that must agree are put in
    namespaces, and every masked value is derived from a key, the column's
    namespace and the source value. This development translates the parts of the
    engine that carry its guarantees and proves them. Pure functions are
    translated to functions, fallible ones return [result] (an exception is its
    class and code, messages are dropped), loops are structural or carry fuel,
    shared state is passed explicitly or, where threads share it, is a step
    relation. Definitions keep the source's names.

    ** Language layer
    - Prelude: Python data (strings are code points, bytes are octets), the error
      monad, loops that may raise, the hint database [decoy] and shared lemmas.
    - Numerals, PyText, PyData: positional numerals ([int.to_bytes], radix
      strings), digits, padding and case of [str], UTF-8, [sorted], [heapq],
      insertion-ordered dictionaries, parsed configuration values.
    - Sha256: SHA-256 and HMAC of the standard library, executable.
    - Json, PyRepr: [json.dumps] and [json.loads] (text and octets) over an abstract
      type of finite floats, [isoformat], [str] of decimals, [bytes.hex], with the
      round trips of each.

    ** Masking
    - Ff1 (transforms/_ff1.py): the FF1 cipher. AES is the class [AesOps] with its
      laws [AesLaws] (whole blocks in, as many octets out). Encryption and
      decryption are mutually inverse on exactly the standard's domain, everything
      else raises, and [min_domain_length] is the least admissible length.
    - Checksums (checksums.py): NPI and VIN written out; the schemes delegated to
      python-stdnum are the class [StdnumOps] with [StdnumLaws]. Check digits are
      accepted by their validators and single-digit errors are detected.
    - Fpe (transforms/fpe.py, _fpe_checksum.py): values with separators, tweaks,
      Luhn and checksum modes over the two classes above: round trips, when a value
      is refused, checksum validity of the output, injectivity of the tweak frame.
    - Derive (determinism/_hkdf.py, _derive.py): HKDF and the keyed envelope. The
      amortised column context equals the scalar function, the envelope is
      injective, indices stay in their pool, [hkdf_expand] is RFC 5869's.

    ** Planning
    - Namespace (relationships/_namespace.py, profile/_types.py): the registry
      build. A column tuple has at most one namespace, both ends of a relationship
      get the same one, deterministic columns are bound.
    - Graph (relationships/_graph.py): edges, Kahn's order and the orphan-policy
      check. The order is topological and canonical, a cycle is reported exactly
      when there is one, the graph does not depend on the declaration order.
    - PlanTypes (plan/_graph.py, plan/_types.py, subset/_edges.py): plan entries
      and their expansion into edges lose and invent nothing.

    - When (expressions/_when_parser.py, when_grammar.lark, plan/_checks_when.py and the
      other places that ask for the grammar): the predicate that gates a masked column.
      The grammar is a relation, Lark's parser the class [LarkOps] with [LarkLaws];
      WhenGrammar has a recursive descent with these laws and shows the grammar
      unambiguous. WhenTheory: what is accepted is well-formed, within its limits, and
      reads only columns. WhenText: every well-formed predicate within the parser's
      limits has a text that is parsed back to it. WhenGates: the gates agree, cached or not.

    ** Subsetting and files
    - Closure (subset/_closure.py, _policy.py, _types.py): frames are the class
      [PolarsOps] with [PolarsLaws]. The loop ends within its own bound, computes
      the least set of rows closed under the configured directions, leaves no
      dangling key, and the budget and direction checks are exact.
    - Floats: binary floating point as scaled integers, rounding to nearest even,
      [numpy.nextafter] and the loop that looks for the float at a bound's side.
    - Canonicalize (generation/pool/_canonicalize.py): the octets a source value is
      keyed by. NFC is the class [UnicodeForms]; integers are encoded injectively.
    - SubsetRange, SubsetSeed, SubsetSeedTheory (subset/_seed.py, the specifications of
      _types.py, the columns of _keys.py): seed selection. What it asks of polars beyond
      the closure's frames is the class [SeedOps] with [SeedLaws]. Filters of numeric
      orderings are exact whatever the column type can hold (a float literal on a decimal
      column excepted, which polars reads at the column's scale), a sample is the bottom of
      a keyed order, and the closure of the seeds keeps them.
    - CsvFramer, CsvFields (io/csv_framer.py): the block-wise framer refines a
      byte-at-a-time automaton for every block size and loses no byte; header
      fields survive quoting.

    ** Declared casting
    - CastNumeric, CastCobol, CastDate (declared_casting/_types.py, _numeric.py,
      _cobol.py, _date.py, with the validators of contracts/_declared_base.py and
      the date grammar of contracts/_declared_formats.py): the kernels.
    - CastCatalog (declared_casting/_catalog.py): the kernel tables, padding, widths
      and the exact-inverse check. Within the stated limits formatting never trips
      that check, emitted widths are as declared, and parsed values re-format. Three
      lemmas show contract-valid formats outside those limits that always fail.

    - CastLedger (_counts.py, with the name filter of Reasons): the issue ledger and the evidence it is reduced to.
    - CastRun (_boundary.py): casting and formatting of batches, their dispositions,
      quarantine writes, [finish] and [abort]. Arrow tables are the class [ArrowOps]
      with [ArrowLaws], the protected sink is [SinkOps]; both are instantiated by
      lists at the end of CastPartition.
    - CastEvents, CastPartition, CastEvidence: a cast is the list of its cells'
      events, logged. From that: a table cast whole and cast in consecutive batches
      cannot differ; a cast table has its declared types; counters, kept rows and
      quarantined rows are exactly the batch's own.

    - QuarantineCodec, QuarantineStore (_quarantine_codec.py,
      _quarantine_local.py, _quarantine_protocol.py): the encrypted row store. Files
      are a map, every system call may fail and every write may land short
      ([OsFaults]); Fernet is [FernetOps] with [FernetLaws]. QuarantineTheory
      reasons with a weakest precondition over the store's monad, QuarantineReading parses back what was written, QuarantineContract states the
      contract: a session leaves a complete artifact or nothing, succeeds without
      faults, its owner reads the rows back and nobody else does, and purging is
      confined to the owner's expired artifacts.

    ** Reasons, failures and progress
    - Reasons, ReasonsTheory (reasons/_types.py, _registry.py, _record.py): the
      name and reference filters, the registry, contexts and records. Parsing an untrusted payload always gives a
      valid record that says what the registry says; records survive the wire.
    - Catalog1, Catalog2, Catalog3, Catalog (reasons/_catalog.py and
      the sixteen sections under reasons/): the thousand entries as the package
      declares them. The import succeeds, and every other module's reasons are in it.
    - Failures, FailuresTheory (reason_adapter.py): exceptions are their class order,
      code, errno, cause and identity. Code of foreign classes is never trusted, and
      the first failure of a scope stays its failure.
    - Progress, ProgressTheory (_progress_events.py, progress.py): the
      channel over a clock ([Clock], [ClockLaws]) and a sink that may fail
      ([EventSink]). Every run ends once, with the truth, and closes what it opened.

    ** Schemas and phases
    - Walks (walks/): schema models, the relationship graph with its cycle search,
      drift between two schemas, inference from column names, the cross-file walk and
      the hazard report. Unicode case folding is the class [UnicodeOps].
    - WalkGraph, WalkCycles, WalkDrift, WalkInference, WalkHazards: the graph is that of
      the declared keys; the iterative search finds a cycle exactly when there is one and
      reports real cycles; drift is exact and symmetric; the cross-file walk
      says what it should and does not depend on the file order; each hazard is
      reported exactly under its condition.
    - Phase (phase.py): the values the phases report through, their freezing, their
      one serializer and the gate. PhaseTheory: frozen values, and what freezing and
      thawing keep. PhaseContract: freezing is lossless on JSON data, canonical bytes
      identify the evidence, the gate opens exactly for well-formed passed results whose
      payload keeps to the depth limit. The
      order of the floats is the class [FloatOrder]; the reasons are those of any
      well-formed registry, the package's included.

    ** File access and output
    - FileSystem: the system calls on inodes, directories and descriptors that the file
      policy uses. The class [SysEnv] says which calls fail and what other processes do
      between two calls; [rwp] is a weakest precondition over computations that may raise.
    - FileAccess, FileAccessTheory (fileaccess/_rooted.py, _preopened.py, _openat2.py,
      _component.py, _errors.py, _types.py): the deny-by-default policies. Whatever
      happens, only what a granting root leads to is opened; the descriptor walk opens
      what [openat2] opens, and also paths too long for it; a denial's text is bounded and cannot be forged. Which
      characters print is the class [Printable].
    - FilePolicy (fileaccess/_entry.py): which policy is in force, with threads
      interleaving. It is never widened.
    - FileOutput, FileOutputTheory (fileaccess/_output.py): output transactions. A stage
      is the only thing that changes before it is published or discarded.
    - TableSink, TableSinkTheory (execution/_transactional_sink.py,
      _publication_observer.py, fileaccess/adapters/arrow.py, and the frame of
      execution/out_of_core/_runner.py): what Arrow writes is the class [ParquetOps]. A
      run publishes exactly its tables or nothing, and says which.

    ** Private fits
    - DpCarriers (quality/carriers.py, dp_fit_schema.py): what a cell becomes before a
      mechanism sees it, and the declared schema. A cell is anything, and anything it is
      asked may raise: the classes [CellOps] and [CellLaws]. DpCarriersTheory: a
      released text is one that has an encoding and holds no NUL, and a table with one row
      more sanitises to vectors with at most one element more, or is refused alike.
    - DpSession (quality/dp_schedule.py, dp_ledger.py, dp_budget.py, dp_session.py): the
      search for a loss per query, releases and the composed loss. OpenDP is the classes
      [Mechanisms] and [OpenDpOps], dp_accounting is [Accounting]; a computation that
      invokes mechanisms is a tree with a branch for every answer. DpSessionTheory:
      whatever a client asks, each scheduled query is invoked at most once and the
      reported loss is that of what was invoked; the production backend's measurements
      keep to the loss they were calibrated for.
    - DpProvenance (quality/dp_provenance.py): the certified stacks; the host is
      [HostEnv]. A host that may fit records an identity that generation accepts, in
      whatever order its distributions are found.
    - DpFit (quality/dp.py, dp_policy.py, dp_schema.py): a fit of a table of carriers,
      with the example the theorems are tried on. DpFitTheory: fits of tables that differ
      by a row run in lockstep, an artifact is never dearer than the request, and a fit
      whose session is open ends with its artifact.
    - DpVerify (plan/_checks_dp.py, _checks_dp_carrier.py): what a declared budget asks of
      the snapshots a pipeline generates from. DpVerifyTheory: a verified pipeline
      consumes no more than it declares, each release charged once, and the artifact of a
      finished fit verifies.

    ** Run-time state
    - Ledger (generation/_budget_ledger.py): the memory ledger, its reservations as
      shared objects. No sequence of operations exceeds the ceiling or leaks.
    - SecretCache (secret_providers/_cache.py): the threaded cache as a step
      relation. Whatever the interleaving, nothing read before a revocation is
      served after it, the tables stay bounded, loads of a key are exclusive and a
      hit is live, unexpired and owned by the caller's own objects.

    ** Fuel
    Every fuel is proved sufficient where it is used: the digits of [n] need at most
    its bit length; the FF1 block loop as many passes as 16-octet blocks;
    [min_domain_length] stops because powers of two reach the minimum; Kahn's loop
    removes one node per pass; the framer consumes input or leaves a state; the
    field scanners consume a character per pass; eviction shrinks the table. The
    closure's round bound is the code's own, and is proved never to be reached; the
    cycle search takes at most one step per edge and node; the float of a bound's
    side is at most one step from the nearest one, and the loop's two passes reach it.
    The walks over a predicate take a step per node, the lexer a character per step.
    The two bisections of a fit's budget take the code's own forty steps.
    A stage's removal descends at most as deep as there are nodes, and a write loop
    ends within as many passes as there are octets.

    ** Not modelled
    Dataframe execution (execution/) and the materialisation of a subset: orchestration of
    pandas, polars, DuckDB and Arrow. Column statistics and quality measures (profile/,
    profiling/, the rest of quality/), which are computed by NumPy and pandas, the pandas
    adapter of a private fit among them; of a private fit the mechanisms' noise is
    OpenDP's, so the theorems are about what reaches the mechanisms and what is reported,
    not about distributions. Value sources backed by Faker, Mimesis or data files
    (generation/pool, composite, providers_v2, generators), the strategies other than
    format-preserving encryption (transforms/), pool sizing (plan/_pool_size.py), the
    ambient file policy and reading through handles, connections and external secret
    stores, configuration schemas and reporting.
    Buffers of written files are taken to be written through. Float rounding is modelled in
    the fan-out budget, in seed selection, in predicates and in private fits; readings and
    rates of the progress clock are abstract. Threads are modelled for the secret cache and
    the policy in force only: a progress channel and a failure scope are those of one
    thread. *)

From Stdlib Require Export ZArith Lia.
From stdpp Require Export base list gmap strings sorting fin_maps numbers.
#[global] Open Scope Z_scope.

(** ** Python data

    A [str] is its sequence of code points and a [bytes] its sequence of octets,
    both as [list Z]; [py] reads a literal. *)

Abbreviation pystr := (list Z).
Abbreviation bytes := (list Z).

Definition py (s : string) : pystr :=
  (fun c => Z.of_N (Ascii.N_of_ascii c)) <$> String.list_ascii_of_string s.

(** [len(x)] of a sequence, as a Python integer. *)
Definition zlen {A} (l : list A) : Z := Z.of_nat (length l).

(** [x[:k]], [x[k:]] for a non-negative [k]. *)
Definition ztake {A} (k : Z) (l : list A) : list A := take (Z.to_nat k) l.
Definition zdrop {A} (k : Z) (l : list A) : list A := drop (Z.to_nat k) l.

(** ** Exceptions and the error monad

    A raised exception is recorded by its class and, for the engine's coded
    errors, by its registered reason code. Messages are not modelled. *)

Record exn := Exn { exc_class : string; exc_code : string }.

#[global] Instance exn_eq_dec : EqDecision exn.
Proof. solve_decision. Defined.

Inductive result (A : Type) : Type :=
| Ok (a : A)
| Err (e : exn).
Arguments Ok {A} a.
Arguments Err {A} e.

#[global] Instance result_ret : MRet result := @Ok.
#[global] Instance result_bind : MBind result := fun A B f m =>
  match m with Ok a => f a | Err e => Err e end.
#[global] Instance result_fmap : FMap result := fun A B f m =>
  match m with Ok a => Ok (f a) | Err e => Err e end.
#[global] Instance result_eq_dec {A} `{EqDecision A} : EqDecision (result A).
Proof. solve_decision. Defined.

Definition exc (cls : string) : exn := Exn cls "".

(** [if b: raise e] *)
Definition raise_if (b : bool) (e : exn) : result unit := if b then Err e else Ok tt.

(** A [for] loop whose body may raise: state [B], items [l]. *)
Fixpoint for_each {A B} (f : B -> A -> result B) (l : list A) (b : B) : result B :=
  match l with
  | [] => Ok b
  | a :: l' => b' ← f b a; for_each f l' b'
  end.

(** A comprehension whose element expression may raise. *)
Fixpoint map_res {A B} (f : A -> result B) (l : list A) : result (list B) :=
  match l with
  | [] => Ok []
  | a :: l' => b ← f a; bs ← map_res f l'; Ok (b :: bs)
  end.

(** *** Computations on a state

    A computation that may raise keeps what it did before it raised. *)

Definition Cast (S A : Type) : Type := S -> S * result A.

#[global] Instance cast_ret S : MRet (Cast S) := fun A a s => (s, Ok a).
#[global] Instance cast_bind S : MBind (Cast S) := fun A B f m s =>
  match m s with (s', Ok a) => f a s' | (s', Err e) => (s', Err e) end.

Definition lift {S A} (m : result A) : Cast S A := fun s => (s, m).

(** [for x in l: out.append(f(x))] *)
Fixpoint map_cast {S A B} (f : A -> Cast S B) (l : list A) : Cast S (list B) :=
  match l with
  | [] => mret []
  | a :: l' => b ← f a; bs ← map_cast f l'; mret (b :: bs)
  end.

Definition of_option {A} (e : exn) (o : option A) : result A :=
  match o with Some a => Ok a | None => Err e end.

Definition is_ok {A} (m : result A) : bool :=
  match m with Ok _ => true | Err _ => false end.

(** ** Automation *)

(** Turns a successful computation in a hypothesis into the successes of its
    parts, and a boolean guard that let it pass into its proposition. *)
Ltac ok_step :=
  match goal with
  | H : Ok _ = Ok _ |- _ => injection H as H
  | H : Err _ = Ok _ |- _ => discriminate H
  | H : Ok _ = Err _ |- _ => discriminate H
  | H : raise_if ?b _ = Ok _ |- _ =>
      destruct b eqn:?; cbn [raise_if] in H; [discriminate H|]; clear H
  | H : of_option _ ?o = Ok _ |- _ =>
      unfold of_option in H; destruct o eqn:?; [|discriminate H]
  | H : (raise_if ?b _ ≫= _) = Ok _ |- _ =>
      destruct b eqn:?; cbn [raise_if mbind result_bind] in H; [discriminate H|]
  | H : (?m ≫= _) = Ok _ |- _ =>
      let E := fresh "E" in
      destruct m eqn:E; cbn [mbind result_bind] in H; [|discriminate H]
  | H : (_ <$> ?m) = Ok _ |- _ =>
      let E := fresh "E" in
      destruct m eqn:E; cbn [fmap result_fmap] in H; [|discriminate H]
  end.
Ltac ok_inv := repeat ok_step; subst.

(** Reads boolean comparisons as propositions. *)
Ltac bool_prop :=
  repeat match goal with
  | H : (_ && _) = true |- _ => apply andb_true_iff in H; destruct H
  | H : (_ || _) = false |- _ => apply orb_false_iff in H; destruct H
  | H : negb _ = true |- _ => apply negb_true_iff in H
  | H : negb _ = false |- _ => apply negb_false_iff in H
  | H : (_ <? _) = true |- _ => apply Z.ltb_lt in H
  | H : (_ <? _) = false |- _ => apply Z.ltb_ge in H
  | H : (_ <=? _) = true |- _ => apply Z.leb_le in H
  | H : (_ <=? _) = false |- _ => apply Z.leb_gt in H
  | H : (_ =? _) = true |- _ => apply Z.eqb_eq in H
  | H : (_ =? _) = false |- _ => apply Z.eqb_neq in H
  | H : (_ >? _) = true |- _ => rewrite Z.gtb_ltb in H
  | H : (_ >? _) = false |- _ => rewrite Z.gtb_ltb in H
  | H : (_ >=? _) = true |- _ => rewrite Z.geb_leb in H
  | H : (_ >=? _) = false |- _ => rewrite Z.geb_leb in H
  | H : bool_decide _ = true |- _ => apply bool_decide_eq_true in H
  | H : bool_decide _ = false |- _ => apply bool_decide_eq_false in H
  end.

(** Proves a closed decidable proposition by evaluating its decision procedure. *)
Ltac by_decide :=
  match goal with |- ?P => apply (bool_decide_eq_true_1 P); vm_compute; reflexivity end.

Create HintDb decoy discriminated.

(** ** Shared lemmas *)

Lemma raise_if_false e : raise_if false e = Ok tt.
Proof. reflexivity. Qed.

Lemma bind_ok {A B} (a : A) (f : A -> result B) : (Ok a ≫= f) = f a.
Proof. reflexivity. Qed.

Lemma zlen_nonneg {A} (l : list A) : 0 <= zlen l.
Proof. unfold zlen. lia. Qed.

Lemma zlen_app {A} (l k : list A) : zlen (l ++ k) = zlen l + zlen k.
Proof. unfold zlen. rewrite length_app. lia. Qed.

Lemma zlen_cons {A} (a : A) l : zlen (a :: l) = 1 + zlen l.
Proof. unfold zlen. simpl. lia. Qed.

Lemma zlen_replicate {A} n (a : A) : 0 <= n -> zlen (replicate (Z.to_nat n) a) = n.
Proof. unfold zlen. rewrite length_replicate. lia. Qed.

Lemma zlen_ztake {A} k (l : list A) : 0 <= k <= zlen l -> zlen (ztake k l) = k.
Proof. unfold zlen, ztake. rewrite length_take. lia. Qed.

Lemma zlen_zdrop {A} k (l : list A) : 0 <= k <= zlen l -> zlen (zdrop k l) = zlen l - k.
Proof. unfold zlen, zdrop. rewrite length_drop. lia. Qed.

Lemma zlen_zero {A} (l : list A) : zlen l = 0 -> l = [].
Proof. destruct l; [done|]. rewrite zlen_cons. pose proof (zlen_nonneg l). lia. Qed.

Lemma ztake_zdrop {A} k (l : list A) : ztake k l ++ zdrop k l = l.
Proof. apply take_drop. Qed.

Lemma ztake_app {A} k (l m : list A) : zlen l = k -> ztake k (l ++ m) = l.
Proof. intros <-. unfold ztake, zlen. rewrite Nat2Z.id. apply take_app_length. Qed.

Lemma zdrop_app {A} k (l m : list A) : zlen l = k -> zdrop k (l ++ m) = m.
Proof. intros <-. unfold zdrop, zlen. rewrite Nat2Z.id. apply drop_app_length. Qed.

Lemma Forall_ztake {A} (P : A -> Prop) k l : Forall P l -> Forall P (ztake k l).
Proof. apply Forall_take. Qed.

Lemma Forall_zdrop {A} (P : A -> Prop) k l : Forall P l -> Forall P (zdrop k l).
Proof. apply Forall_drop. Qed.

#[export] Hint Resolve zlen_nonneg Forall_ztake Forall_zdrop : decoy.
Create Rewrite HintDb zlen.
#[export] Hint Rewrite @zlen_app @zlen_cons @length_app : zlen.

Lemma for_each_app {A B} (f : B -> A -> result B) l k b :
  for_each f (l ++ k) b = (b' ← for_each f l b; for_each f k b').
Proof.
  revert b. induction l as [|a l IH]; intros b; [done|]. cbn.
  destruct (f b a); [apply IH|done].
Qed.

(** Rule for a loop that never raises while an invariant holds. *)
Lemma for_each_inv {A B} (I : B -> Prop) (f : B -> A -> result B) l b :
  I b ->
  (forall b a, a ∈ l -> I b -> exists b', f b a = Ok b' /\ I b') ->
  exists b', for_each f l b = Ok b' /\ I b'.
Proof.
  revert b. induction l as [|a l IH]; intros b Hb Hstep; cbn; [by exists b|].
  destruct (Hstep b a) as (b' & -> & Hb'); [left|done|]. cbn.
  apply IH; [done|]. intros. apply Hstep; [by right|done].
Qed.

Lemma map_res_length {A B} (f : A -> result B) l bs :
  map_res f l = Ok bs -> length bs = length l.
Proof.
  revert bs. induction l as [|a l IH]; intros bs H; cbn in H; ok_inv; [done|].
  cbn. f_equal. by apply IH.
Qed.

Lemma map_res_total {A B} (f : A -> result B) (g : A -> B) l :
  (forall a, a ∈ l -> f a = Ok (g a)) -> map_res f l = Ok (g <$> l).
Proof.
  induction l as [|a l IH]; intros H; cbn; [done|].
  rewrite (H a) by left. cbn. rewrite IH; [done|]. intros. apply H. by right.
Qed.

(** ** Loops run forward and undone backward

    When every pass of [f] is undone by the pass of [g] with the same index, the
    forward loop over [range(k, k + n)] is undone by the backward loop. *)

Definition irange (k n : nat) : list Z := Z.of_nat <$> seq k n.

Section InverseLoops.
Context {B : Type} (f g : B -> Z -> result B) (I : Z -> B -> Prop).

Lemma for_each_undo k n b :
  (forall i b, Z.of_nat k <= i < Z.of_nat (k + n) -> I i b ->
     exists b', f b i = Ok b' /\ I (i + 1) b' /\ g b' i = Ok b) ->
  I (Z.of_nat k) b ->
  exists b', for_each f (irange k n) b = Ok b' /\ I (Z.of_nat (k + n)) b' /\
             for_each g (rev (irange k n)) b' = Ok b.
Proof.
  revert k b. induction n as [|n IH]; intros k b Hstep Hb.
  - exists b. by rewrite Nat.add_0_r.
  - destruct (Hstep (Z.of_nat k) b) as (b1 & Hf & Hb1 & Hg); [lia|done|].
    destruct (IH (S k) b1) as (b2 & Hf2 & Hb2 & Hg2).
    { intros i b0 Hi. apply Hstep. lia. }
    { by rewrite Nat2Z.inj_succ. }
    exists b2. unfold irange in *. cbn. rewrite Hf. cbn. rewrite Hf2. split; [done|].
    split; [by replace (k + S n)%nat with (S k + n)%nat by lia|].
    rewrite for_each_app, Hg2. cbn. by rewrite Hg.
Qed.

Lemma for_each_redo k n b :
  (forall i b, Z.of_nat k <= i < Z.of_nat (k + n) -> I (i + 1) b ->
     exists b', g b i = Ok b' /\ I i b' /\ f b' i = Ok b) ->
  I (Z.of_nat (k + n)) b ->
  exists b', for_each g (rev (irange k n)) b = Ok b' /\ I (Z.of_nat k) b' /\
             for_each f (irange k n) b' = Ok b.
Proof.
  revert k b. induction n as [|n IH]; intros k b Hstep Hb.
  - exists b. rewrite Nat.add_0_r in Hb. done.
  - destruct (IH (S k) b) as (b1 & Hg & Hb1 & Hf).
    { intros i b0 Hi. apply Hstep. lia. }
    { by replace (S k + n)%nat with (k + S n)%nat by lia. }
    destruct (Hstep (Z.of_nat k) b1) as (b2 & Hg2 & Hb2 & Hf2); [lia| |].
    { by rewrite Nat2Z.inj_succ in Hb1. }
    exists b2. unfold irange in *. cbn. rewrite for_each_app, Hg. cbn. rewrite Hg2.
    split; [done|]. split; [done|]. rewrite Hf2. cbn. done.
Qed.
End InverseLoops.

Lemma elem_of_filter_b {A} (p : A -> bool) l x : x ∈ List.filter p l <-> x ∈ l /\ p x = true.
Proof. rewrite !list_elem_of_In. apply filter_In. Qed.

Lemma map_res_ext {A B} (f g : A -> result B) l : (forall a, a ∈ l -> f a = g a) -> map_res f l = map_res g l.
Proof.
  induction l as [|a l IH]; intros H; [done|]. cbn. rewrite (H a) by by left. rewrite IH; [done|]. intros x Hx. apply H. by right.
Qed.
