(* ===== verification/Numerals.v ===== *)
(** * Positional numerals

    The value of a most-significant-first digit list in a radix and the
    fixed-width digit list of a value: the theory behind [_num_radix] and
    [_str_m_radix] (transforms/_ff1.py) and behind Python's
    [int.to_bytes]/[int.from_bytes] in big-endian order, which are the same two
    functions at radix 256. *)

From S2P Require Import Prelude.

(** [x = 0; for d in l: x = x * r + d] *)
Definition pos_val (r : Z) (l : list Z) : Z := fold_left (fun x d => x * r + d) l 0.

(** The [m] lowest base-[r] digits of [x], most significant first. *)
Fixpoint pos_digits (r : Z) (m : nat) (x : Z) : list Z :=
  match m with
  | O => []
  | S m' => pos_digits r m' (x / r) ++ [x mod r]
  end.

Definition in_radix (r : Z) (d : Z) : Prop := 0 <= d < r.

#[global] Instance in_radix_dec r d : Decision (in_radix r d).
Proof. unfold in_radix. apply _. Defined.

Lemma pos_val_snoc r l d : pos_val r (l ++ [d]) = pos_val r l * r + d.
Proof. unfold pos_val. by rewrite fold_left_app. Qed.

Lemma pos_val_app r l k : pos_val r (l ++ k) = pos_val r l * r ^ zlen k + pos_val r k.
Proof.
  induction k as [|d k IH] using rev_ind.
  - rewrite app_nil_r. unfold zlen. cbn. lia.
  - rewrite app_assoc, !pos_val_snoc, IH. autorewrite with zlen.
    rewrite Z.pow_add_r by (unfold zlen; cbn; lia).
    replace (zlen [d]) with 1 by done. rewrite Z.pow_1_r. ring.
Qed.

Lemma pos_val_bound r l : 2 <= r -> Forall (in_radix r) l -> 0 <= pos_val r l < r ^ zlen l.
Proof.
  intros Hr Hl. induction l as [|d l IH] using rev_ind.
  - unfold zlen, pos_val. cbn. lia.
  - apply Forall_app in Hl as [Hl Hd]. rewrite Forall_singleton in Hd.
    specialize (IH Hl). rewrite pos_val_snoc, zlen_app.
    rewrite Z.pow_add_r by apply zlen_nonneg.
    replace (zlen [d]) with 1 by done. rewrite Z.pow_1_r. unfold in_radix in Hd.
    set (v := pos_val r l) in *. set (p := r ^ zlen l) in *.
    assert ((v + 1) * r <= p * r) by (apply Z.mul_le_mono_nonneg_r; lia).
    assert (0 <= v * r) by (apply Z.mul_nonneg_nonneg; lia). lia.
Qed.

Lemma length_pos_digits r m x : length (pos_digits r m x) = m.
Proof. revert x. induction m; intros x; cbn; [done|]. rewrite length_app, IHm. cbn. lia. Qed.

Lemma zlen_pos_digits r m x : zlen (pos_digits r m x) = Z.of_nat m.
Proof. unfold zlen. by rewrite length_pos_digits. Qed.

Lemma pos_digits_range r m x : 0 < r -> Forall (in_radix r) (pos_digits r m x).
Proof.
  intros Hr. revert x. induction m; intros x; cbn; [constructor|].
  apply Forall_app. split; [apply IHm|]. apply Forall_singleton.
  unfold in_radix. by apply Z.mod_pos_bound.
Qed.

(** The digits of [x] denote [x] modulo the capacity of the field. *)
Lemma pos_val_digits r m x : 0 < r -> pos_val r (pos_digits r m x) = x mod r ^ Z.of_nat m.
Proof.
  intros Hr. revert x. induction m as [|m IH]; intros x.
  - cbn. by rewrite Z.mod_1_r.
  - cbn [pos_digits]. rewrite pos_val_snoc, IH.
    rewrite Nat2Z.inj_succ, Z.pow_succ_r by lia.
    rewrite Z.rem_mul_r by lia. ring.
Qed.

Lemma pos_val_digits_small r m x :
  0 < r -> 0 <= x < r ^ Z.of_nat m -> pos_val r (pos_digits r m x) = x.
Proof. intros Hr Hx. rewrite pos_val_digits by done. by apply Z.mod_small. Qed.

(** Reading a digit list and writing it back at its own width is the identity. *)
Lemma pos_digits_val r l :
  2 <= r -> Forall (in_radix r) l -> pos_digits r (length l) (pos_val r l) = l.
Proof.
  intros Hr Hl. induction l as [|d l IH] using rev_ind; [done|].
  apply Forall_app in Hl as [Hl Hd]. rewrite Forall_singleton in Hd. unfold in_radix in Hd.
  rewrite length_app, Nat.add_comm. cbn. rewrite pos_val_snoc.
  rewrite Z.div_add_l, Z.div_small, Z.add_0_r, IH by (done || lia).
  by rewrite Z.add_comm, Z_mod_plus_full, Z.mod_small.
Qed.

Lemma pos_val_inj r l k :
  2 <= r -> Forall (in_radix r) l -> Forall (in_radix r) k ->
  length l = length k -> pos_val r l = pos_val r k -> l = k.
Proof.
  intros Hr Hl Hk Hlen Hv.
  rewrite <- (pos_digits_val r l), <- (pos_digits_val r k) by done.
  by rewrite Hlen, Hv.
Qed.

(** ** Python's [int.to_bytes(n, "big")] and [int.from_bytes(b, "big")] *)

Definition to_bytes (x : Z) (n : Z) : result bytes :=
  if (0 <=? x) && (x <? 256 ^ n) then Ok (pos_digits 256 (Z.to_nat n) x)
  else Err (exc "OverflowError").

Definition from_bytes (b : bytes) : Z := pos_val 256 b.

(** [bytes([...])] of an octet list. *)
Definition is_byte (b : Z) : Prop := in_radix 256 b.

(** [bytes(n)]: [n] zero octets. *)
Definition zero_bytes (n : Z) : bytes := replicate (Z.to_nat n) 0.

(** [x.bit_length()] *)
Definition bit_length (x : Z) : Z := if x =? 0 then 0 else Z.log2 (Z.abs x) + 1.

Lemma to_bytes_ok x n :
  0 <= n -> 0 <= x < 256 ^ n ->
  exists b, to_bytes x n = Ok b /\ zlen b = n /\ Forall is_byte b /\ from_bytes b = x.
Proof.
  intros Hn Hx. exists (pos_digits 256 (Z.to_nat n) x). unfold to_bytes.
  replace (0 <=? x) with true by lia. replace (x <? 256 ^ n) with true by lia.
  split_and!; [done| | |].
  - rewrite zlen_pos_digits. lia.
  - by apply pos_digits_range.
  - unfold from_bytes. apply pos_val_digits_small; [lia|]. by rewrite Z2Nat.id.
Qed.

Lemma to_bytes_inv x n b :
  0 <= n -> to_bytes x n = Ok b ->
  0 <= x < 256 ^ n /\ zlen b = n /\ Forall is_byte b /\ from_bytes b = x.
Proof.
  unfold to_bytes. intros Hn H.
  destruct ((0 <=? x) && (x <? 256 ^ n)) eqn:E; [|discriminate]. bool_prop.
  destruct (to_bytes_ok x n) as (b' & Hb' & ?); [done|lia|].
  unfold to_bytes in Hb'. rewrite (proj2 (Z.leb_le _ _)), (proj2 (Z.ltb_lt _ _)) in Hb' by lia.
  cbn in Hb'. split; [lia|]. congruence.
Qed.

Lemma from_bytes_bound b : Forall is_byte b -> 0 <= from_bytes b < 256 ^ zlen b.
Proof. intros. by apply pos_val_bound. Qed.

Lemma zlen_zero_bytes n : 0 <= n -> zlen (zero_bytes n) = n.
Proof. apply zlen_replicate. Qed.

Lemma zero_bytes_range n : Forall is_byte (zero_bytes n).
Proof. apply Forall_replicate. unfold is_byte, in_radix. lia. Qed.

(** [bit_length] is the exact width of a non-negative value. *)
Lemma bit_length_spec x : 0 <= x -> 0 <= bit_length x /\ x < 2 ^ bit_length x.
Proof.
  intros Hx. unfold bit_length. destruct (Z.eqb_spec x 0) as [->|Hne]; [cbn; lia|].
  rewrite Z.abs_eq by done. pose proof (Z.log2_nonneg x).
  split; [lia|]. apply Z.log2_spec. lia.
Qed.

#[export] Hint Resolve pos_digits_range zero_bytes_range : decoy.
