(* ===== verification/PyText.v ===== *)
(** * Text operations of the language

    The parts of Python's [str] and [int] the modelled code calls: decimal
    digits, [int(ch)], [str(n)], padding, stripping, upper-casing, lexicographic
    order. Strings are code-point lists. *)

From S2P Require Import Prelude Numerals.

(** ** Digits *)

(** The first code point of every block of ten Unicode decimal digits (category
    Nd); ["\d"] of a [str] pattern and [int(ch)] accept exactly these digits. *)
Definition nd_starts : list Z :=
  [48; 1632; 1776; 1984; 2406; 2534; 2662; 2790; 2918; 3046; 3174; 3302; 3430; 3558; 3664; 3792;
   3872; 4160; 4240; 6112; 6160; 6470; 6608; 6784; 6800; 6992; 7088; 7232; 7248; 42528; 43216;
   43264; 43472; 43504; 43600; 44016; 65296; 66720; 68912; 69734; 69872; 69942; 70096; 70384;
   70736; 70864; 71248; 71360; 71472; 71904; 72016; 72784; 73040; 73120; 92768; 92864; 93008;
   120782; 120792; 120802; 120812; 120822; 123200; 123632; 125264; 130032].

Definition digit_value (c : Z) : option Z :=
  match find (fun s => (s <=? c) && (c <? s + 10)) nd_starts with
  | Some s => Some (c - s)
  | None => None
  end.

(** [int(ch)] of a one-character string. *)
Definition int_char (c : Z) : result Z := of_option (exc "ValueError") (digit_value c).

(** An ASCII decimal digit, ["0"] to ["9"]. *)
Definition ascii_digit (c : Z) : Prop := 48 <= c < 58.

#[global] Instance ascii_digit_dec c : Decision (ascii_digit c).
Proof. unfold ascii_digit. apply _. Defined.

Lemma digit_value_ascii c : ascii_digit c -> digit_value c = Some (c - 48).
Proof.
  unfold ascii_digit, digit_value, nd_starts. intros. cbn [find].
  replace (48 <=? c) with true by lia. by replace (c <? 48 + 10) with true by lia.
Qed.

Lemma int_char_ascii c : ascii_digit c -> int_char c = Ok (c - 48).
Proof. intros. unfold int_char. by rewrite digit_value_ascii. Qed.

(** ** Decimal text of an integer *)

Fixpoint dec_loop (fuel : nat) (x : Z) (acc : list Z) : list Z :=
  match fuel with
  | O => acc
  | S fuel' =>
      let acc' := x mod 10 :: acc in
      if x / 10 =? 0 then acc' else dec_loop fuel' (x / 10) acc'
  end.

(** The decimal digits of a non-negative integer, without leading zeros. *)
Definition dec_digits (x : Z) : list Z := dec_loop (S (Z.to_nat (Z.log2 x))) x [].

Definition digit_chars (l : list Z) : pystr := Z.add 48 <$> l.

(** [str(n)] *)
Definition str_int (n : Z) : pystr :=
  if n <? 0 then 45 :: digit_chars (dec_digits (- n)) else digit_chars (dec_digits n).

(** [int(s)] of a non-empty run of ASCII digits. *)
Definition int_digits (s : pystr) : Z := pos_val 10 ((fun c => c - 48) <$> s).

Definition rjust (s : pystr) (width fill : Z) : pystr :=
  replicate (Z.to_nat (width - zlen s)) fill ++ s.

Definition ljust (s : pystr) (width fill : Z) : pystr :=
  s ++ replicate (Z.to_nat (width - zlen s)) fill.

(** The digit list of [x >= 0] has the value [x], starts with a non-zero digit
    unless it is ["0"], and is the width-minimal one. *)
Record dec_digits_of (x : Z) (l : list Z) : Prop := {
  dd_val : pos_val 10 l = x;
  dd_range : Forall (in_radix 10) l;
  dd_pos : 1 <= zlen l;
  dd_min : zlen l = 1 \/ 10 ^ (zlen l - 1) <= x;
}.

Lemma dec_loop_app fuel x acc : dec_loop fuel x acc = dec_loop fuel x [] ++ acc.
Proof.
  revert x acc. induction fuel as [|fuel IH]; intros x acc; [done|]. cbn.
  destruct (_ =? 0); [done|]. rewrite IH, (IH _ [_]), <- app_assoc. done.
Qed.

Lemma dec_loop_spec fuel x :
  0 <= x < 2 ^ Z.of_nat fuel -> (0 < fuel)%nat -> dec_digits_of x (dec_loop fuel x []).
Proof.
  revert x. induction fuel as [|fuel IH]; intros x Hx Hf; [lia|]. cbn [dec_loop].
  pose proof (Z.mod_pos_bound x 10). pose proof (Z.div_mod x 10).
  destruct (Z.eqb_spec (x / 10) 0) as [Hz|Hz].
  - constructor; [|repeat constructor; lia|done|by left].
    unfold pos_val. cbn. lia.
  - assert (0 <= x / 10) by (apply Z.div_pos; lia).
    assert (x / 10 < 2 ^ Z.of_nat fuel).
    { rewrite Nat2Z.inj_succ, Z.pow_succ_r in Hx by lia. apply Z.div_lt_upper_bound; lia. }
    destruct (IH (x / 10)) as [Hv Hr Hp Hm].
    { lia. }
    { destruct fuel; [cbn in *; lia|lia]. }
    rewrite dec_loop_app. constructor.
    + rewrite pos_val_snoc, Hv. lia.
    + apply Forall_app. split; [done|]. repeat constructor; lia.
    + rewrite zlen_app. pose proof (zlen_nonneg [x mod 10]). lia.
    + right. rewrite zlen_app. replace (zlen [x mod 10]) with 1 by done.
      replace (zlen (dec_loop fuel (x / 10) []) + 1 - 1)
        with (Z.succ (zlen (dec_loop fuel (x / 10) []) - 1)) by lia.
      rewrite Z.pow_succ_r by lia.
      destruct Hm as [->|Hm]; [cbn; lia|lia].
Qed.

Lemma dec_digits_spec x : 0 <= x -> dec_digits_of x (dec_digits x).
Proof.
  intros Hx. apply dec_loop_spec; [|lia]. split; [done|].
  rewrite Nat2Z.inj_succ, Z2Nat.id by apply Z.log2_nonneg.
  destruct (decide (x = 0)) as [->|]; [cbn; lia|]. apply Z.log2_spec. lia.
Qed.

Lemma dec_digits_small d : 0 <= d < 10 -> dec_digits d = [d].
Proof.
  intros Hd. unfold dec_digits. cbn [dec_loop].
  rewrite Z.div_small, Z.mod_small by lia. done.
Qed.

(** [str] of a one-digit number is that digit's character. *)
Lemma str_int_digit d : 0 <= d < 10 -> str_int d = [48 + d].
Proof.
  intros Hd. unfold str_int. replace (d <? 0) with false by lia. by rewrite dec_digits_small.
Qed.

Lemma digit_chars_ascii l : Forall (in_radix 10) l -> Forall ascii_digit (digit_chars l).
Proof.
  intros H. apply Forall_fmap. revert H. apply Forall_impl.
  intros d. unfold in_radix, ascii_digit, compose. lia.
Qed.

Lemma int_digits_chars l : int_digits (digit_chars l) = pos_val 10 l.
Proof.
  unfold int_digits, digit_chars. f_equal. rewrite <- list_fmap_compose.
  etransitivity; [|apply list_fmap_id]. apply list_fmap_ext. intros. unfold compose, id. lia.
Qed.

(** Reading back the decimal text of a natural number. *)
Lemma int_digits_str n : 0 <= n -> int_digits (str_int n) = n.
Proof.
  intros Hn. unfold str_int. replace (n <? 0) with false by lia.
  rewrite int_digits_chars. apply dec_digits_spec. done.
Qed.

Lemma str_int_ascii n : 0 <= n -> Forall ascii_digit (str_int n).
Proof.
  intros Hn. unfold str_int. replace (n <? 0) with false by lia.
  apply digit_chars_ascii. by apply dec_digits_spec.
Qed.

(** ** Stripping and upper-casing *)

(** [str.isspace] code points. *)
Definition py_space (c : Z) : bool :=
  bool_decide (c ∈ [9; 10; 11; 12; 13; 28; 29; 30; 31; 32; 133; 160; 5760; 8192; 8193; 8194; 8195;
    8196; 8197; 8198; 8199; 8200; 8201; 8202; 8232; 8233; 8239; 8287; 12288]).

Fixpoint lstrip (s : pystr) : pystr :=
  match s with
  | c :: s' => if py_space c then lstrip s' else s
  | [] => []
  end.

Definition strip (s : pystr) : pystr := rev (lstrip (rev (lstrip s))).

(** [str.upper], exact on every code point whose upper case is ASCII: the ASCII
    letters and the ten others listed. Any other code point is outside ASCII and
    so is its upper case; it is kept as it is. *)
Definition upper_char (c : Z) : pystr :=
  if (97 <=? c) && (c <=? 122) then [c - 32]
  else match c with
       | 223 => py "SS" | 305 => py "I" | 383 => py "S"
       | 64256 => py "FF" | 64257 => py "FI" | 64258 => py "FL"
       | 64259 => py "FFI" | 64260 => py "FFL" | 64261 => py "ST" | 64262 => py "ST"
       | _ => [c]
       end.

Definition upper (s : pystr) : pystr := s ≫= upper_char.

(** ** UTF-8

    [s.encode("utf-8")] with strict errors: a surrogate code point raises. *)

Definition utf8_char (c : Z) : result bytes :=
  if c <? 128 then Ok [c]
  else if c <? 2048 then Ok [192 + c / 64; 128 + c mod 64]
  else if (55296 <=? c) && (c <? 57344) then Err (exc "UnicodeEncodeError")
  else if c <? 65536 then Ok [224 + c / 4096; 128 + c / 64 mod 64; 128 + c mod 64]
  else Ok [240 + c / 262144; 128 + c / 4096 mod 64; 128 + c / 64 mod 64; 128 + c mod 64].

Definition utf8_encode (s : pystr) : result bytes :=
  bs ← map_res utf8_char s; Ok (concat bs).

(** A code point. *)
Definition code_point (c : Z) : Prop := 0 <= c < 1114112.

#[global] Instance code_point_dec c : Decision (code_point c).
Proof. unfold code_point. apply _. Defined.

(** Reads one character off the front; the left inverse of [utf8_char]. *)
Definition utf8_read (b : bytes) : option (Z * bytes) :=
  match b with
  | b1 :: r1 =>
      if b1 <? 128 then Some (b1, r1) else
      match r1 with
      | b2 :: r2 =>
          if b1 <? 224 then Some ((b1 - 192) * 64 + (b2 - 128), r2) else
          match r2 with
          | b3 :: r3 =>
              if b1 <? 240 then Some ((b1 - 224) * 4096 + (b2 - 128) * 64 + (b3 - 128), r3) else
              match r3 with
              | b4 :: r4 =>
                  Some ((b1 - 240) * 262144 + (b2 - 128) * 4096 + (b3 - 128) * 64 + (b4 - 128), r4)
              | [] => None
              end
          | [] => None
          end
      | [] => None
      end
  | [] => None
  end.

Lemma utf8_char_spec c b rest :
  code_point c -> utf8_char c = Ok b ->
  utf8_read (b ++ rest) = Some (c, rest) /\ Forall is_byte b /\ b <> [].
Proof.
  unfold code_point, utf8_char. intros Hc H.
  assert (Hq : c = 262144 * (c / 262144) + 4096 * (c / 4096 mod 64) + 64 * (c / 64 mod 64) + c mod 64
    /\ 0 <= c / 262144 < 5 /\ 0 <= c / 4096 mod 64 < 64 /\ 0 <= c / 64 mod 64 < 64 /\ 0 <= c mod 64 < 64)
    by (Z.div_mod_to_equations; lia).
  destruct (Z.ltb_spec c 128); [injection H as <-; cbn [app utf8_read]|
  destruct (Z.ltb_spec c 2048); [injection H as <-; cbn [app utf8_read]|
  destruct ((55296 <=? c) && (c <? 57344)); [discriminate|
  destruct (Z.ltb_spec c 65536); injection H as <-; cbn [app utf8_read]]]];
  repeat match goal with |- context [?x <? ?y] =>
    destruct (Z.ltb_spec x y); [|try (exfalso; Z.div_mod_to_equations; lia)];
    try (exfalso; Z.div_mod_to_equations; lia) end;
  (split; [do 2 f_equal; Z.div_mod_to_equations; lia|]); (split; [|discriminate]);
  repeat constructor; unfold is_byte, in_radix; Z.div_mod_to_equations; lia.
Qed.

Lemma utf8_encode_cons c s b :
  utf8_encode (c :: s) = Ok b ->
  exists b1 b2, utf8_char c = Ok b1 /\ utf8_encode s = Ok b2 /\ b = b1 ++ b2.
Proof.
  unfold utf8_encode. cbn [map_res]. destruct (utf8_char c) as [b1|]; [|discriminate].
  destruct (map_res utf8_char s) as [bs|]; [|discriminate]. cbn. intros [= <-].
  by exists b1, (concat bs).
Qed.

Lemma utf8_encode_bytes s b : Forall code_point s -> utf8_encode s = Ok b -> Forall is_byte b.
Proof.
  intros Hs. revert b. induction Hs as [|c s Hc Hs IH]; intros b H.
  - injection H as <-. constructor.
  - apply utf8_encode_cons in H as (b1 & b2 & H1 & H2 & ->).
    apply Forall_app. split; [by apply (utf8_char_spec c b1 [])|by apply IH].
Qed.

(** Two strings with the same encoding are equal. *)
Lemma utf8_encode_inj s t b :
  Forall code_point s -> Forall code_point t ->
  utf8_encode s = Ok b -> utf8_encode t = Ok b -> s = t.
Proof.
  intros Hs. revert t b. induction Hs as [|c s Hc Hs IH]; intros t b Ht H1 H2.
  - injection H1 as <-. destruct t as [|d t]; [done|].
    apply Forall_cons_iff in Ht as [Hd _].
    apply utf8_encode_cons in H2 as (b1 & b2 & H2 & _ & Happ).
    destruct (utf8_char_spec d b1 [] Hd H2) as (_ & _ & Hne).
    by apply (eq_sym) in Happ as [-> _]%app_nil.
  - apply utf8_encode_cons in H1 as (b1 & b2 & H1 & Hb2 & ->).
    destruct (utf8_char_spec c b1 b2 Hc H1) as (Hread & _ & Hne).
    destruct t as [|d t].
    { injection H2 as H2. by apply (eq_sym) in H2 as [-> _]%app_nil. }
    apply Forall_cons_iff in Ht as [Hd Ht].
    apply utf8_encode_cons in H2 as (d1 & d2 & H2 & Hd2 & Happ).
    destruct (utf8_char_spec d d1 d2 Hd H2) as (Hread' & _ & _).
    rewrite Happ, Hread' in Hread. injection Hread as -> ->. f_equal. by apply (IH t b2).
Qed.
