(* ===== verification/Ff1.v ===== *)
(** * FF1 format-preserving encryption (transforms/_ff1.py)

    The raw NIST SP 800-38G primitive over numeral lists. The AES block cipher
    comes from the third-party [cryptography] package and is the parameter
    [AesOps]; what the code relies on (CBC and ECB encryption of whole blocks
    keep the length and produce octets) is the class [AesLaws]. *)

From S2P Require Import Prelude Numerals.

Definition FF1_MIN_RADIX : Z := 2.
Definition FF1_MAX_RADIX : Z := 64.
Definition FF1_MAX_LEN : Z := 256.
Definition FF1_MAX_TWEAK_LEN : Z := 256.
Definition FF1_KEY_BYTES : Z := 32.
Definition FF1_STANDARD_MAX_RADIX : Z := 2 ^ 16.
Definition FF1_MIN_DOMAIN : Z := 1000000.
Definition _ROUNDS : Z := 10.

Definition Ff1Error : exn := exc "Ff1Error".

(** The interface to the [cryptography] package: one-block ECB encryption and
    CBC encryption under an all-zero initialisation vector. *)
Class AesOps := {
  aes_ecb : bytes -> bytes -> bytes;
  aes_cbc0 : bytes -> bytes -> bytes;
}.

Class AesLaws (A : AesOps) : Prop := {
  aes_ecb_block k b :
    Forall is_byte k -> Forall is_byte b -> zlen b = 16 ->
    zlen (aes_ecb k b) = 16 /\ Forall is_byte (aes_ecb k b);
  aes_cbc0_blocks k d :
    Forall is_byte k -> Forall is_byte d -> zlen d mod 16 = 0 ->
    zlen (aes_cbc0 k d) = zlen d /\ Forall is_byte (aes_cbc0 k d);
}.

(** ** Domain floor *)

(** The [while] loop of [min_domain_length], with fuel. *)
Fixpoint min_domain_loop (fuel : nat) (radix length value : Z) : Z :=
  match fuel with
  | O => length
  | S fuel' =>
      if value <? FF1_MIN_DOMAIN
      then min_domain_loop fuel' radix (length + 1) (value * radix)
      else length
  end.

(** Twenty iterations suffice: already [2 ^ 20 >= FF1_MIN_DOMAIN]. *)
Definition min_domain_length (radix : Z) : result Z :=
  _ ← raise_if (radix <? 2) (exc "ValueError");
  Ok (min_domain_loop 20 radix 1 radix).

(** ** Numerals *)

Definition _num_radix (numerals : list Z) (radix : Z) : Z :=
  fold_left (fun x numeral => x * radix + numeral) numerals 0.

(** [for i in range(m - 1, -1, -1): x, digits[i] = divmod(x, radix)]: the
    remaining [x] and the digits written so far, from the last position down. *)
Fixpoint str_loop (m : nat) (radix x : Z) (digits : list Z) : Z * list Z :=
  match m with
  | O => (x, digits)
  | S m' => str_loop m' radix (x / radix) (x mod radix :: digits)
  end.

Definition _str_m_radix (x m radix : Z) : result (list Z) :=
  let '(x', digits) := str_loop (Z.to_nat m) radix x [] in
  if x' =? 0 then Ok digits else Err Ff1Error.

Definition _byte_len_for_radix_power (radix length : Z) : Z :=
  let max_value := radix ^ length - 1 in
  let bits := if max_value >? 0 then bit_length max_value else 0 in
  (bits + 7) / 8.

Definition _build_p (radix u n tweak_len : Z) : result bytes :=
  r3 ← to_bytes radix 3;
  n4 ← to_bytes n 4;
  t4 ← to_bytes tweak_len 4;
  Ok ([1; 2; 1] ++ r3 ++ [_ROUNDS; Z.land u 255] ++ n4 ++ t4).

Definition _validate_common (key tweak : bytes) (radix : Z) (numerals : list Z)
  : result (Z * Z) :=
  _ ← raise_if (negb (bool_decide (zlen key ∈ [16; 24; 32]))) Ff1Error;
  _ ← raise_if (radix <? 2) Ff1Error;
  _ ← raise_if (radix >? FF1_STANDARD_MAX_RADIX) Ff1Error;
  let n := zlen numerals in
  _ ← raise_if (n <? 2) Ff1Error;
  _ ← raise_if (existsb (fun digit => negb ((0 <=? digit) && (digit <? radix))) numerals) Ff1Error;
  _ ← raise_if (zlen tweak >=? 2 ^ 32) Ff1Error;
  Ok (n, zlen tweak).

Section Cipher.
Context `{A : AesOps}.

Definition _ciph (key block : bytes) : bytes := aes_ecb key block.

Definition _prf (key data : bytes) : result bytes :=
  _ ← raise_if (negb (zlen data mod 16 =? 0)) Ff1Error;
  let ciphertext := aes_cbc0 key data in
  Ok (drop (length ciphertext - 16) ciphertext).

(** [while len(s) < d]: each pass appends one cipher block. *)
Fixpoint s_block_loop (fuel : nat) (key r s : bytes) (j d : Z) : result bytes :=
  if zlen s <? d then
    match fuel with
    | O => Err (exc "out_of_fuel")
    | S fuel' =>
        block ← to_bytes (Z.lxor (from_bytes r) j) 16;
        s_block_loop fuel' key r (s ++ _ciph key block) (j + 1) d
    end
  else Ok s.

Definition _s_block (key r : bytes) (d : Z) : result bytes :=
  s ← s_block_loop (Z.to_nat d) key r r 1 d;
  Ok (ztake d s).

(** The part of one round both directions share: the keyed value [y] of the
    half that is left in place. *)
Definition round_value (key tweak p zero_pad : bytes) (radix byte_len d i : Z)
  (half : list Z) : result Z :=
  half_bytes ← to_bytes (_num_radix half radix) byte_len;
  let q := tweak ++ zero_pad ++ [i] ++ half_bytes in
  r ← _prf key (p ++ q);
  s ← _s_block key r d;
  Ok (from_bytes s).

Definition encrypt_round (key tweak p zero_pad : bytes) (radix byte_len d u v : Z)
  (ab : list Z * list Z) (i : Z) : result (list Z * list Z) :=
  let '(a, b) := ab in
  y ← round_value key tweak p zero_pad radix byte_len d i b;
  let m := if i mod 2 =? 0 then u else v in
  let c := (_num_radix a radix + y) mod radix ^ m in
  c_numerals ← _str_m_radix c m radix;
  Ok (b, c_numerals).

Definition decrypt_round (key tweak p zero_pad : bytes) (radix byte_len d u v : Z)
  (ab : list Z * list Z) (i : Z) : result (list Z * list Z) :=
  let '(a, b) := ab in
  y ← round_value key tweak p zero_pad radix byte_len d i a;
  let m := if i mod 2 =? 0 then u else v in
  let c := (_num_radix b radix - y) mod radix ^ m in
  c_numerals ← _str_m_radix c m radix;
  Ok (c_numerals, a).

(** [range(_ROUNDS)] *)
Definition rounds : list Z := irange 0 (Z.to_nat _ROUNDS).

Definition encrypt (key tweak : bytes) (radix : Z) (numerals : list Z) : result (list Z) :=
  '(n, t) ← _validate_common key tweak radix numerals;
  let u := n / 2 in
  let v := n - u in
  let a := ztake u numerals in
  let b := zdrop u numerals in
  let byte_len := _byte_len_for_radix_power radix v in
  let d := 4 * ((byte_len + 3) / 4) + 4 in
  p ← _build_p radix u n t;
  let zero_pad := zero_bytes ((- t - byte_len - 1) mod 16) in
  '(a', b') ← for_each (encrypt_round key tweak p zero_pad radix byte_len d u v) rounds (a, b);
  Ok (a' ++ b').

Definition decrypt (key tweak : bytes) (radix : Z) (numerals : list Z) : result (list Z) :=
  '(n, t) ← _validate_common key tweak radix numerals;
  let u := n / 2 in
  let v := n - u in
  let a := ztake u numerals in
  let b := zdrop u numerals in
  let byte_len := _byte_len_for_radix_power radix v in
  let d := 4 * ((byte_len + 3) / 4) + 4 in
  p ← _build_p radix u n t;
  let zero_pad := zero_bytes ((- t - byte_len - 1) mod 16) in
  '(a', b') ← for_each (decrypt_round key tweak p zero_pad radix byte_len d u v)
                (rev rounds) (a, b);
  Ok (a' ++ b').
End Cipher.

(** ** The domain on which the primitive is defined *)

Record ff1_params (key tweak : bytes) (radix : Z) (numerals : list Z) : Prop := {
  fp_key : zlen key ∈ [16; 24; 32];
  fp_key_bytes : Forall is_byte key;
  fp_radix : 2 <= radix <= FF1_STANDARD_MAX_RADIX;
  fp_len : 2 <= zlen numerals < 2 ^ 32;
  fp_range : Forall (in_radix radix) numerals;
  fp_tweak : zlen tweak < 2 ^ 32;
  fp_tweak_bytes : Forall is_byte tweak;
}.

(** ** Numeral lemmas *)

Lemma str_loop_spec m radix x acc :
  2 <= radix ->
  str_loop m radix x acc = (x / radix ^ Z.of_nat m, pos_digits radix m x ++ acc).
Proof.
  intros Hr. revert x acc. induction m as [|m IH]; intros x acc.
  - cbn. by rewrite Z.div_1_r.
  - cbn [str_loop pos_digits]. rewrite IH, <- app_assoc. f_equal.
    rewrite Nat2Z.inj_succ, Z.pow_succ_r by lia.
    by rewrite Z.div_div by lia.
Qed.

(** A value that fits is written exactly; no digit is lost. *)
Lemma str_m_radix_ok x m radix :
  2 <= radix -> 0 <= m -> 0 <= x < radix ^ m ->
  _str_m_radix x m radix = Ok (pos_digits radix (Z.to_nat m) x).
Proof.
  intros Hr Hm Hx. unfold _str_m_radix. rewrite str_loop_spec by done.
  rewrite Z2Nat.id, Z.div_small by done. cbn. by rewrite app_nil_r.
Qed.

Lemma num_radix_bound radix l :
  2 <= radix -> Forall (in_radix radix) l -> 0 <= _num_radix l radix < radix ^ zlen l.
Proof. apply pos_val_bound. Qed.

Lemma num_radix_digits radix m x :
  2 <= radix -> 0 <= x < radix ^ Z.of_nat m -> _num_radix (pos_digits radix m x) radix = x.
Proof. intros. apply pos_val_digits_small; lia. Qed.

(** [radix ** length] values fit in the computed number of octets. *)
Lemma byte_len_fits radix len :
  2 <= radix -> 1 <= len ->
  0 < _byte_len_for_radix_power radix len /\
  radix ^ len <= 256 ^ _byte_len_for_radix_power radix len.
Proof.
  intros Hr Hl. unfold _byte_len_for_radix_power.
  assert (2 <= radix ^ len).
  { transitivity (radix ^ 1); [lia|]. apply Z.pow_le_mono_r; lia. }
  replace (radix ^ len - 1 >? 0) with true by lia.
  destruct (bit_length_spec (radix ^ len - 1)) as [Hb0 Hb]; [lia|].
  set (w := bit_length (radix ^ len - 1)) in *.
  assert (0 < w) by (destruct (decide (w = 0)) as [e|]; [rewrite e in Hb; cbn in Hb|]; lia).
  split; [apply Z.div_str_pos; lia|].
  assert (2 ^ w <= 256 ^ ((w + 7) / 8)); [|lia].
  change 256 with (2 ^ 8). rewrite <- Z.pow_mul_r by (lia || apply Z.div_pos; lia).
  apply Z.pow_le_mono_r; [lia|]. pose proof (Z.mul_div_le (w + 7) 8). 
  pose proof (Z.mod_pos_bound (w + 7) 8). pose proof (Z.div_mod (w + 7) 8). lia.
Qed.

(** The octet count is at most twice the numeral count at the largest radix. *)
Lemma byte_len_le radix len :
  2 <= radix <= FF1_STANDARD_MAX_RADIX -> 1 <= len ->
  _byte_len_for_radix_power radix len <= 2 * len.
Proof.
  intros Hr Hl. unfold _byte_len_for_radix_power, FF1_STANDARD_MAX_RADIX in *.
  assert (2 <= radix ^ len).
  { transitivity (radix ^ 1); [lia|]. apply Z.pow_le_mono_r; lia. }
  replace (radix ^ len - 1 >? 0) with true by lia.
  unfold bit_length. replace (radix ^ len - 1 =? 0) with false by lia.
  rewrite Z.abs_eq by lia.
  assert (Z.log2 (radix ^ len - 1) < 16 * len).
  { apply Z.log2_lt_pow2; [lia|]. rewrite Z.pow_mul_r by lia.
    assert (radix ^ len <= (2 ^ 16) ^ len) by (apply Z.pow_le_mono_l; lia). lia. }
  apply Z.lt_succ_r, Z.div_lt_upper_bound; lia.
Qed.

Lemma log2_lt_width k a : 0 < k -> 0 <= a < 2 ^ k -> Z.log2 a < k.
Proof.
  intros Hk Ha. destruct (decide (a = 0)) as [->|]; [by rewrite Z.log2_nonpos by lia|].
  apply Z.log2_lt_pow2; lia.
Qed.

Lemma lxor_bound k a b : 0 < k -> 0 <= a < 2 ^ k -> 0 <= b < 2 ^ k -> 0 <= Z.lxor a b < 2 ^ k.
Proof.
  intros Hk Ha Hb. assert (0 <= Z.lxor a b) by (apply Z.lxor_nonneg; lia).
  split; [done|].
  destruct (decide (Z.lxor a b = 0)) as [->|]; [apply Z.pow_pos_nonneg; lia|].
  apply Z.log2_lt_pow2; [lia|].
  eapply Z.le_lt_trans; [apply Z.log2_lxor; lia|].
  apply Z.max_lub_lt; by apply log2_lt_width.
Qed.

(** ** Rounds never raise on the domain *)

Section CipherLemmas.
Context `{A : AesOps} {AL : AesLaws A}.

Lemma prf_ok key data :
  Forall is_byte key -> Forall is_byte data -> 16 <= zlen data -> zlen data mod 16 = 0 ->
  exists r, _prf key data = Ok r /\ zlen r = 16 /\ Forall is_byte r.
Proof.
  intros Hk Hd Hlen Hmod. unfold _prf. rewrite Hmod. cbn.
  destruct (aes_cbc0_blocks key data) as [Hl Hb]; [done..|].
  eexists. split; [done|]. split.
  - unfold zlen in *. rewrite length_drop. lia.
  - by apply Forall_drop.
Qed.

(** The S-block loop reaches [d] octets: it appends 16 per pass. *)
Lemma s_block_loop_ok fuel key r s j d :
  Forall is_byte key -> Forall is_byte r -> zlen r = 16 -> Forall is_byte s ->
  1 <= j -> j + Z.of_nat fuel < 2 ^ 128 -> d <= zlen s + 16 * Z.of_nat fuel ->
  exists s', s_block_loop fuel key r s j d = Ok s' /\ d <= zlen s' /\ Forall is_byte s'.
Proof.
  intros Hk Hr Hr16. revert s j.
  induction fuel as [|fuel IH]; intros s j Hs Hj Hjf Hd; cbn [s_block_loop].
  - replace (zlen s <? d) with false by lia. exists s. split_and!; [done|lia|done].
  - destruct (Z.ltb_spec (zlen s) d); [|exists s; split_and!; [done|lia|done]].
    pose proof (from_bytes_bound r Hr) as Hrb. rewrite Hr16 in Hrb.
    destruct (to_bytes_ok (Z.lxor (from_bytes r) j) 16) as (blk & -> & Hbl & Hbb & _); [lia| |].
    { change (256 ^ 16) with (2 ^ 128) in *. apply lxor_bound; lia. }
    cbn. destruct (aes_ecb_block key blk) as [Hcl Hcb]; [done..|].
    unfold _ciph. apply IH.
    + by apply Forall_app.
    + lia.
    + lia.
    + rewrite zlen_app, Hcl. lia.
Qed.

Lemma s_block_ok key r d :
  Forall is_byte key -> Forall is_byte r -> zlen r = 16 -> 0 <= d < 2 ^ 127 ->
  exists s, _s_block key r d = Ok s /\ zlen s = d /\ Forall is_byte s.
Proof.
  intros Hk Hr Hr16 Hd. unfold _s_block.
  destruct (s_block_loop_ok (Z.to_nat d) key r r 1 d) as (s & -> & Hs & Hb);
    [done|done|done|done|lia|lia|lia|].
  cbn. eexists. split; [done|]. split; [by rewrite zlen_ztake by lia|auto with decoy].
Qed.
End CipherLemmas.

(** ** One Feistel round and its inverse *)

Section Rounds.
Context `{A : AesOps} {AL : AesLaws A}.
Context (key tweak p : bytes) (radix byte_len d u v : Z).
Hypothesis Hkey : Forall is_byte key.
Hypothesis Htweak : Forall is_byte tweak.
Hypothesis Hp : zlen p = 16 /\ Forall is_byte p.
Hypothesis Hradix : 2 <= radix.
Hypothesis Huv : 0 <= u <= v.
Hypothesis Hbl : 0 < byte_len /\ radix ^ v <= 256 ^ byte_len.
Hypothesis Hd : 0 <= d < 2 ^ 127.

Let pad := zero_bytes ((- zlen tweak - byte_len - 1) mod 16).
Let enc := encrypt_round key tweak p pad radix byte_len d u v.
Let dec := decrypt_round key tweak p pad radix byte_len d u v.

Lemma round_value_ok half i :
  Forall (in_radix radix) half -> zlen half <= v -> 0 <= i < 256 ->
  exists y, round_value key tweak p pad radix byte_len d i half = Ok y.
Proof.
  intros Hh Hhl Hi. unfold round_value.
  destruct (to_bytes_ok (_num_radix half radix) byte_len) as (hb & -> & Hhb & Hhbb & _); [lia| |].
  { pose proof (num_radix_bound radix half Hradix Hh).
    assert (radix ^ zlen half <= radix ^ v) by (apply Z.pow_le_mono_r; lia). lia. }
  cbn.
  destruct (prf_ok key (p ++ tweak ++ pad ++ i :: hb)) as (r & -> & Hr & Hrb).
  - done.
  - destruct Hp. repeat (apply Forall_app; split); [done..| |].
    + apply zero_bytes_range.
    + constructor; [unfold is_byte, in_radix; lia|done].
  - destruct Hp as [Hp16 _]. autorewrite with zlen. rewrite Hp16.
    pose proof (zlen_nonneg tweak). pose proof (zlen_nonneg pad). lia.
  - destruct Hp as [Hp16 _]. autorewrite with zlen. unfold pad.
    rewrite zlen_zero_bytes by (apply Z.mod_pos_bound; lia).
    rewrite Hp16, Hhb. Z.div_mod_to_equations. lia.
  - cbn. destruct (s_block_ok key r d) as (s & -> & _); [done..|]. cbn. by eexists.
Qed.

Definition half_len (i : Z) : Z := if i mod 2 =? 0 then u else v.

(** Before round [i] the halves have the lengths round [i] expects. *)
Definition halves_ok (i : Z) (ab : list Z * list Z) : Prop :=
  zlen ab.1 = half_len i /\ zlen ab.2 = half_len (i + 1) /\
  Forall (in_radix radix) ab.1 /\ Forall (in_radix radix) ab.2.

Lemma half_len_bound i : 0 <= half_len i <= v.
Proof. unfold half_len. destruct (_ =? _); lia. Qed.

Lemma half_len_next i : half_len (i + 1 + 1) = half_len i.
Proof.
  unfold half_len. replace (i + 1 + 1) with (i + 1 * 2) by lia. by rewrite Z_mod_plus_full.
Qed.

(** Adding a round value modulo the half's capacity and subtracting it again. *)
Lemma mod_add_sub x y m : 0 <= x < m -> ((x + y) mod m - y) mod m = x.
Proof.
  intros. rewrite Zminus_mod_idemp_l. replace (x + y - y) with x by lia. by apply Z.mod_small.
Qed.

Lemma mod_sub_add x y m : 0 <= x < m -> ((x - y) mod m + y) mod m = x.
Proof.
  intros. rewrite Zplus_mod_idemp_l. replace (x - y + y) with x by lia. by apply Z.mod_small.
Qed.

Lemma half_capacity i : 0 < radix ^ half_len i.
Proof. apply Z.pow_pos_nonneg; [lia|apply half_len_bound]. Qed.

(** The digits of a half written back denote the half again. *)
Lemma half_digits i x :
  0 <= x < radix ^ half_len i ->
  let c := pos_digits radix (Z.to_nat (half_len i)) x in
  _str_m_radix x (half_len i) radix = Ok c /\ zlen c = half_len i /\
  Forall (in_radix radix) c /\ _num_radix c radix = x.
Proof.
  intros Hx c. pose proof (half_len_bound i). split_and!.
  - apply str_m_radix_ok; [done|lia|done].
  - unfold c. rewrite zlen_pos_digits. lia.
  - apply pos_digits_range. lia.
  - apply num_radix_digits; [done|]. by rewrite Z2Nat.id by lia.
Qed.

Lemma half_own_digits i l :
  zlen l = half_len i -> Forall (in_radix radix) l ->
  _str_m_radix (_num_radix l radix) (half_len i) radix = Ok l.
Proof.
  intros Hl Hr. pose proof (num_radix_bound radix l Hradix Hr) as Hb. rewrite Hl in Hb.
  destruct (half_digits i _ Hb) as (-> & _). f_equal. rewrite <- Hl.
  unfold zlen. rewrite Nat2Z.id. by apply pos_digits_val.
Qed.

Lemma encrypt_round_undo i ab :
  0 <= i < 256 -> halves_ok i ab ->
  exists ab', enc ab i = Ok ab' /\ halves_ok (i + 1) ab' /\ dec ab' i = Ok ab.
Proof.
  destruct ab as [a b]. intros Hi (Ha & Hb & Hra & Hrb). cbn in *.
  pose proof (half_len_bound (i + 1)). pose proof (half_capacity i) as Hcap.
  destruct (round_value_ok b i) as [y Hy]; [done|lia|done|].
  pose proof (num_radix_bound radix a Hradix Hra) as HNa. rewrite Ha in HNa.
  unfold enc, dec, encrypt_round, decrypt_round. rewrite Hy. cbn [mbind result_bind].
  fold (half_len i).
  destruct (half_digits i ((_num_radix a radix + y) mod radix ^ half_len i))
    as (-> & Hcl & Hcr & Hcn); [by apply Z.mod_pos_bound|]. cbn [mbind result_bind].
  eexists. split; [done|]. split.
  - unfold halves_ok. cbn. by rewrite half_len_next.
  - rewrite Hy. cbn [mbind result_bind]. rewrite Hcn, mod_add_sub by done.
    fold (half_len i). by rewrite (half_own_digits i a).
Qed.

Lemma decrypt_round_undo i ab :
  0 <= i < 256 -> halves_ok (i + 1) ab ->
  exists ab', dec ab i = Ok ab' /\ halves_ok i ab' /\ enc ab' i = Ok ab.
Proof.
  destruct ab as [a b]. intros Hi (Ha & Hb & Hra & Hrb). cbn in *.
  rewrite half_len_next in Hb.
  pose proof (half_len_bound (i + 1)). pose proof (half_capacity i) as Hcap.
  destruct (round_value_ok a i) as [y Hy]; [done|lia|done|].
  pose proof (num_radix_bound radix b Hradix Hrb) as HNb. rewrite Hb in HNb.
  unfold enc, dec, encrypt_round, decrypt_round. rewrite Hy. cbn [mbind result_bind].
  fold (half_len i).
  destruct (half_digits i ((_num_radix b radix - y) mod radix ^ half_len i))
    as (-> & Hcl & Hcr & Hcn); [by apply Z.mod_pos_bound|]. cbn [mbind result_bind].
  eexists. split; [done|]. split.
  - unfold halves_ok. cbn. done.
  - rewrite Hy. cbn [mbind result_bind]. rewrite Hcn, mod_sub_add by done.
    fold (half_len i). by rewrite (half_own_digits i b).
Qed.
End Rounds.

(** ** The primitive on its domain *)

Section Primitive.
Context `{A : AesOps} {AL : AesLaws A}.

Lemma validate_common_ok key tweak radix x :
  ff1_params key tweak radix x ->
  _validate_common key tweak radix x = Ok (zlen x, zlen tweak).
Proof.
  intros [Hk _ [Hr1 Hr2] [Hl1 Hl2] Hx Ht _]. unfold _validate_common.
  rewrite bool_decide_eq_true_2 by done. cbn [negb raise_if mbind result_bind].
  replace (radix <? 2) with false by lia.
  replace (radix >? FF1_STANDARD_MAX_RADIX) with false by lia.
  replace (zlen x <? 2) with false by lia.
  replace (zlen tweak >=? 2 ^ 32) with false by lia. cbn [raise_if mbind result_bind].
  replace (existsb _ x) with false; [done|]. symmetry. apply not_true_iff_false.
  rewrite existsb_exists. intros (d & Hd & Hbad).
  rewrite Forall_forall in Hx. specialize (Hx d Hd). unfold in_radix in Hx.
  destruct (Z.leb_spec 0 d), (Z.ltb_spec d radix); cbn in Hbad; try discriminate; lia.
Qed.

(** The validation accepts nothing outside the domain. *)
Lemma validate_common_inv key tweak radix x nt :
  _validate_common key tweak radix x = Ok nt ->
  zlen key ∈ [16; 24; 32] /\ 2 <= radix <= FF1_STANDARD_MAX_RADIX /\ 2 <= zlen x /\
  Forall (in_radix radix) x /\ zlen tweak < 2 ^ 32 /\ nt = (zlen x, zlen tweak).
Proof.
  unfold _validate_common. intros H. ok_inv.
  bool_prop. split_and!; [done|lia|lia|lia| |lia|done].
  apply Forall_forall. intros d Hd. destruct (decide (in_radix radix d)) as [|Hbad]; [done|].
  exfalso. apply (not_true_iff_false (existsb
    (fun digit => negb ((0 <=? digit) && (digit <? radix))) x)); [done|].
  apply existsb_exists. exists d. split; [done|]. unfold in_radix in Hbad.
  destruct (Z.leb_spec 0 d), (Z.ltb_spec d radix); cbn; try done; lia.
Qed.

Lemma build_p_ok radix u n t :
  2 <= radix <= FF1_STANDARD_MAX_RADIX -> 0 <= n < 2 ^ 32 -> 0 <= t < 2 ^ 32 ->
  exists p, _build_p radix u n t = Ok p /\ zlen p = 16 /\ Forall is_byte p.
Proof.
  unfold FF1_STANDARD_MAX_RADIX. intros Hr Hn Ht. unfold _build_p.
  destruct (to_bytes_ok radix 3) as (r3 & -> & Hr3 & Hb3 & _); [lia..|]. cbn.
  destruct (to_bytes_ok n 4) as (n4 & -> & Hn4 & Hbn & _); [lia..|]. cbn.
  destruct (to_bytes_ok t 4) as (t4 & -> & Ht4 & Hbt & _); [lia..|]. cbn.
  assert (0 <= Z.land u 255 < 256).
  { change 255 with (Z.ones 8). rewrite Z.land_ones by lia. by apply Z.mod_pos_bound. }
  eexists. split; [done|]. split.
  - autorewrite with zlen. rewrite Hr3, Hn4, Ht4. done.
  - repeat rewrite ?Forall_app, ?Forall_cons_iff.
    unfold is_byte, in_radix, _ROUNDS in *. split_and!; done || lia.
Qed.

(** The round functions [encrypt] and [decrypt] use for messages of [n] numerals. *)
Definition enc_rounds key tweak p radix n : list Z * list Z -> Z -> result (list Z * list Z) :=
  let u := n / 2 in let v := n - u in
  let byte_len := _byte_len_for_radix_power radix v in
  encrypt_round key tweak p (zero_bytes ((- zlen tweak - byte_len - 1) mod 16))
    radix byte_len (4 * ((byte_len + 3) / 4) + 4) u v.

Definition dec_rounds key tweak p radix n : list Z * list Z -> Z -> result (list Z * list Z) :=
  let u := n / 2 in let v := n - u in
  let byte_len := _byte_len_for_radix_power radix v in
  decrypt_round key tweak p (zero_bytes ((- zlen tweak - byte_len - 1) mod 16))
    radix byte_len (4 * ((byte_len + 3) / 4) + 4) u v.

(** On the domain both directions reduce to their round loop, over the same block [p]. *)
Lemma ff1_loops key tweak radix n :
  2 <= radix <= FF1_STANDARD_MAX_RADIX -> 2 <= n < 2 ^ 32 -> zlen tweak < 2 ^ 32 ->
  exists p, zlen p = 16 /\ Forall is_byte p /\
    forall x, ff1_params key tweak radix x -> zlen x = n ->
      encrypt key tweak radix x =
        ('(a, b) ← for_each (enc_rounds key tweak p radix n) rounds (ztake (n / 2) x, zdrop (n / 2) x);
         Ok (a ++ b)) /\
      decrypt key tweak radix x =
        ('(a, b) ← for_each (dec_rounds key tweak p radix n) (rev rounds)
                     (ztake (n / 2) x, zdrop (n / 2) x);
         Ok (a ++ b)).
Proof.
  intros Hr Hn Ht.
  destruct (build_p_ok radix (n / 2) n (zlen tweak)) as (p & Hp & Hp16 & Hpb);
    [done|lia|pose proof (zlen_nonneg tweak); lia|].
  exists p. split; [done|]. split; [done|]. intros x Hx <-.
  unfold encrypt, decrypt. rewrite (validate_common_ok _ _ _ _ Hx). cbn [mbind result_bind].
  rewrite Hp. done.
Qed.

Lemma halves_split radix x :
  Forall (in_radix radix) x -> 2 <= zlen x ->
  halves_ok radix (zlen x / 2) (zlen x - zlen x / 2) 0 (ztake (zlen x / 2) x, zdrop (zlen x / 2) x).
Proof.
  intros Hx Hl. unfold halves_ok, half_len. cbn.
  assert (0 <= zlen x / 2 <= zlen x) by (Z.div_mod_to_equations; lia).
  rewrite zlen_ztake, zlen_zdrop by done. auto with decoy.
Qed.

(** Ten rounds bring the halves back to their initial lengths, so joining
    them and splitting again at [n / 2] is the identity. *)
Lemma halves_join radix n a b i :
  halves_ok radix (n / 2) (n - n / 2) i (a, b) -> i mod 2 = 0 ->
  zlen (a ++ b) = n /\ Forall (in_radix radix) (a ++ b) /\
  ztake (n / 2) (a ++ b) = a /\ zdrop (n / 2) (a ++ b) = b.
Proof.
  unfold halves_ok, half_len. cbn. intros (Ha & Hb & Hra & Hrb) Hi.
  rewrite Hi in Ha. cbn in Ha. replace ((i + 1) mod 2 =? 0) with false in Hb
    by (symmetry; apply Z.eqb_neq; Z.div_mod_to_equations; lia).
  split_and!.
  - rewrite zlen_app. lia.
  - by apply Forall_app.
  - by apply ztake_app.
  - by apply zdrop_app.
Qed.

Lemma ff1_params_same key tweak radix x y :
  ff1_params key tweak radix x -> zlen y = zlen x -> Forall (in_radix radix) y ->
  ff1_params key tweak radix y.
Proof. intros [] Hl Hy. constructor; try done. by rewrite Hl. Qed.
End Primitive.

(** ** Correctness of the primitive *)

Section Undo.
Context `{A : AesOps} {AL : AesLaws A}.

(** Everything the round loops need on the domain: the shared block [p] and
    that each round is undone by its counterpart. *)
Lemma ff1_rounds_undo key tweak radix x :
  ff1_params key tweak radix x ->
  let n := zlen x in
  let I := halves_ok radix (n / 2) (n - n / 2) in
  exists p,
    (forall y, ff1_params key tweak radix y -> zlen y = n ->
      encrypt key tweak radix y =
        ('(a, b) ← for_each (enc_rounds key tweak p radix n) (irange 0 10)
                     (ztake (n / 2) y, zdrop (n / 2) y); Ok (a ++ b)) /\
      decrypt key tweak radix y =
        ('(a, b) ← for_each (dec_rounds key tweak p radix n) (rev (irange 0 10))
                     (ztake (n / 2) y, zdrop (n / 2) y); Ok (a ++ b))) /\
    (forall i ab, 0 <= i < 10 -> I i ab -> exists ab',
       enc_rounds key tweak p radix n ab i = Ok ab' /\ I (i + 1) ab' /\
       dec_rounds key tweak p radix n ab' i = Ok ab) /\
    (forall i ab, 0 <= i < 10 -> I (i + 1) ab -> exists ab',
       dec_rounds key tweak p radix n ab i = Ok ab' /\ I i ab' /\
       enc_rounds key tweak p radix n ab' i = Ok ab).
Proof.
  intros [_ Hkb Hr [Hl1 Hl2] Hxr Ht Htb] n I.
  destruct (ff1_loops key tweak radix n) as (p & Hp16 & Hpb & Hloop); [done..|].
  assert (Huv : 0 <= n / 2 <= n - n / 2) by (Z.div_mod_to_equations; lia).
  assert (1 <= n - n / 2) by (Z.div_mod_to_equations; lia).
  destruct (byte_len_fits radix (n - n / 2)) as [Hb0 Hb1]; [lia..|].
  pose proof (byte_len_le radix (n - n / 2)) as Hb2.
  set (bl := _byte_len_for_radix_power radix (n - n / 2)) in *.
  assert (Hd : 0 <= 4 * ((bl + 3) / 4) + 4 < 2 ^ 127).
  { assert (bl < 2 ^ 40) by (cbn; lia). Z.div_mod_to_equations. lia. }
  exists p. split; [exact Hloop|]. split; intros i ab Hi.
  - apply encrypt_round_undo; try done; lia.
  - apply decrypt_round_undo; try done; lia.
Qed.

Lemma encrypt_then_decrypt key tweak radix x :
  ff1_params key tweak radix x ->
  exists c, encrypt key tweak radix x = Ok c /\ zlen c = zlen x /\
            Forall (in_radix radix) c /\ decrypt key tweak radix c = Ok x.
Proof.
  intros Hx. destruct (ff1_rounds_undo _ _ _ _ Hx) as (p & Hloop & Henc & _).
  set (n := zlen x) in *.
  destruct (for_each_undo _ _ _ 0 10 (ztake (n / 2) x, zdrop (n / 2) x) Henc)
    as ([a b] & He & Hab & Hdec).
  { apply halves_split; apply Hx. }
  destruct (halves_join _ _ _ _ _ Hab) as (Hn & Hr' & Hta & Hdr); [done|].
  exists (a ++ b). destruct (Hloop x Hx eq_refl) as [-> _]. rewrite He. cbn [mbind result_bind].
  split_and!; [done..|].
  destruct (Hloop (a ++ b)) as [_ ->]; [by eapply ff1_params_same|done|].
  rewrite Hta, Hdr, Hdec. cbn. by rewrite ztake_zdrop.
Qed.

Lemma decrypt_then_encrypt key tweak radix x :
  ff1_params key tweak radix x ->
  exists m, decrypt key tweak radix x = Ok m /\ zlen m = zlen x /\
            Forall (in_radix radix) m /\ encrypt key tweak radix m = Ok x.
Proof.
  intros Hx. destruct (ff1_rounds_undo _ _ _ _ Hx) as (p & Hloop & _ & Hdecr).
  set (n := zlen x) in *.
  destruct (for_each_redo _ _ _ 0 10 (ztake (n / 2) x, zdrop (n / 2) x) Hdecr)
    as ([a b] & Hdec & Hab & He).
  { apply (halves_split radix x); apply Hx. }
  destruct (halves_join _ _ _ _ _ Hab) as (Hn & Hr' & Hta & Hdr); [done|].
  exists (a ++ b). destruct (Hloop x Hx eq_refl) as [_ ->]. rewrite Hdec. cbn [mbind result_bind].
  split_and!; [done..|].
  destruct (Hloop (a ++ b)) as [-> _]; [by eapply ff1_params_same|done|].
  rewrite Hta, Hdr, He. cbn. by rewrite ztake_zdrop.
Qed.
End Undo.

(** C1: FF1 is a bijection of the numeral strings of each length: for every valid
    key, tweak and radix, [encrypt] never raises, returns a numeral string of the
    same length and radix which [decrypt] maps back to the input, and
    symmetrically [decrypt] never raises and is undone by [encrypt]. *)
Theorem ff1_bijection `{A : AesOps} `{!AesLaws A} key tweak radix x :
  ff1_params key tweak radix x ->
  (exists c, encrypt key tweak radix x = Ok c /\ zlen c = zlen x /\
             Forall (in_radix radix) c /\ decrypt key tweak radix c = Ok x) /\
  (exists m, decrypt key tweak radix x = Ok m /\ zlen m = zlen x /\
             Forall (in_radix radix) m /\ encrypt key tweak radix m = Ok x).
Proof. intros Hx. split; [by apply encrypt_then_decrypt|by apply decrypt_then_encrypt]. Qed.

(** A byte-mixing cipher that satisfies the interface, for evaluating the model
    on concrete inputs; it chains its state through the data like CBC does. *)
Fixpoint toy_chain (acc : Z) (d : bytes) : bytes :=
  match d with
  | [] => []
  | x :: d' => let acc' := (acc * 5 + x * 3 + 11) mod 256 in acc' :: toy_chain acc' d'
  end.

Definition toy_aes : AesOps := {|
  aes_ecb k b := toy_chain (from_bytes k) b;
  aes_cbc0 k d := toy_chain (from_bytes k + 1) d;
|}.

Lemma toy_chain_block acc d : zlen (toy_chain acc d) = zlen d /\ Forall is_byte (toy_chain acc d).
Proof.
  revert acc. induction d as [|x d IH]; intros acc; [done|]. cbn [toy_chain].
  destruct (IH ((acc * 5 + x * 3 + 11) mod 256)). rewrite !zlen_cons. split; [lia|].
  constructor; [unfold is_byte, in_radix; by apply Z.mod_pos_bound|done].
Qed.

Lemma toy_aes_laws : AesLaws toy_aes.
Proof. constructor; intros; cbn; [pose proof (toy_chain_block (from_bytes k) b)
  | pose proof (toy_chain_block (from_bytes k + 1) d)]; intuition congruence. Qed.

(** Decides the domain predicate on concrete inputs. *)
Definition ff1_paramsb (key tweak : bytes) (radix : Z) (numerals : list Z) : bool :=
  bool_decide (zlen key ∈ [16; 24; 32]) && bool_decide (Forall (in_radix 256) key) &&
  (2 <=? radix) && (radix <=? FF1_STANDARD_MAX_RADIX) &&
  (2 <=? zlen numerals) && (zlen numerals <? 2 ^ 32) &&
  bool_decide (Forall (in_radix radix) numerals) &&
  (zlen tweak <? 2 ^ 32) && bool_decide (Forall (in_radix 256) tweak).

Lemma ff1_paramsb_sound key tweak radix numerals :
  ff1_paramsb key tweak radix numerals = true -> ff1_params key tweak radix numerals.
Proof. unfold ff1_paramsb. intros. bool_prop. constructor; done || lia. Qed.

Lemma ff1_paramsb_complete key tweak radix numerals :
  ff1_params key tweak radix numerals -> ff1_paramsb key tweak radix numerals = true.
Proof.
  intros [? ? [] [] ? ? ?]. unfold ff1_paramsb.
  repeat (apply andb_true_intro; split); try (apply bool_decide_eq_true_2; done); lia.
Qed.

Definition sample_key : bytes := replicate 32 7.

Lemma ff1_bijection_witness :
  ff1_params sample_key [1; 2] 10 [1; 2; 3; 4; 5; 6; 7] /\
  exists c, @encrypt toy_aes sample_key [1; 2] 10 [1; 2; 3; 4; 5; 6; 7] = Ok c /\
            @decrypt toy_aes sample_key [1; 2] 10 c = Ok [1; 2; 3; 4; 5; 6; 7].
Proof.
  assert (H : ff1_params sample_key [1; 2] 10 [1; 2; 3; 4; 5; 6; 7])
    by (apply ff1_paramsb_sound; vm_compute; reflexivity).
  split; [exact H|].
  destruct (@ff1_bijection toy_aes toy_aes_laws _ _ _ _ H) as [(c & He & _ & _ & Hd) _].
  exists c. split; [exact He|exact Hd].
Defined.

(** The checks raise nothing but [Ff1Error]. *)
Lemma validate_common_err key tweak radix x e : _validate_common key tweak radix x = Err e -> e = Ff1Error.
Proof.
  unfold _validate_common. intros H.
  repeat match goal with H : (raise_if ?b _ ≫= _) = Err _ |- _ =>
    destruct b; cbn [raise_if mbind result_bind] in H; [by injection H as <-|] end. discriminate H.
Qed.

(** What calling a direction of the cipher comes to: a text of the same numerals on the
    domain; elsewhere [Ff1Error], or for a text whose length no length field holds the
    overflow of [int.to_bytes]. *)
Definition exactly_on_domain (key tweak : bytes) (radix : Z) (x : list Z) (r : result (list Z)) : Prop :=
  match r with
  | Ok c => ff1_params key tweak radix x /\ zlen c = zlen x /\ Forall (in_radix radix) c
  | Err e => ~ ff1_params key tweak radix x /\ (e = Ff1Error \/ e = exc "OverflowError" /\ 2 ^ 32 <= zlen x)
  end.

(** Outside the domain a direction raises before its first round. *)
Lemma refused_cases key tweak radix x :
  Forall is_byte key -> Forall is_byte tweak -> ~ ff1_params key tweak radix x ->
  _validate_common key tweak radix x = Err Ff1Error \/
  2 ^ 32 <= zlen x /\ _validate_common key tweak radix x = Ok (zlen x, zlen tweak) /\
    forall u, _build_p radix u (zlen x) (zlen tweak) = Err (exc "OverflowError").
Proof.
  intros Hk Ht Hno. destruct (_validate_common key tweak radix x) as [nt|e] eqn:E; [right|left; f_equal; by eapply validate_common_err].
  apply validate_common_inv in E as (Hkey & Hr & Hn & Hx & Htw & ->).
  assert (Hlong : 2 ^ 32 <= zlen x) by (destruct (Z.le_gt_cases (2 ^ 32) (zlen x)); [done|]; exfalso; apply Hno; constructor; done || lia).
  split; [done|]. split; [done|]. intros u. unfold _build_p, FF1_STANDARD_MAX_RADIX in *. destruct (to_bytes_ok radix 3) as (r3 & -> & _); [lia..|]. cbn [mbind result_bind].
  unfold to_bytes. change (256 ^ 4) with (2 ^ 32). replace (zlen x <? 2 ^ 32) with false by lia. by rewrite andb_false_r.
Qed.

(** C2: The primitive accepts exactly its domain, in both directions: on octet keys and
    tweaks [encrypt] and [decrypt] return a text of as many numerals, each within the radix,
    if the key is an AES key, the radix is between 2 and [2 ** 16], the numerals are at
    least two, below [2 ** 32] in number and within the radix, and the tweak length fits a
    uint32; otherwise they raise, and what they raise is [Ff1Error], save that a text of
    [2 ** 32] numerals or more that passes every check ends in [OverflowError]. *)
Theorem ff1_domain_exact `{A : AesOps} `{!AesLaws A} key tweak radix x :
  Forall is_byte key -> Forall is_byte tweak ->
  exactly_on_domain key tweak radix x (encrypt key tweak radix x) /\
  exactly_on_domain key tweak radix x (decrypt key tweak radix x).
Proof.
  intros Hk Ht. destruct (ff1_paramsb key tweak radix x) eqn:Eb.
  - apply ff1_paramsb_sound in Eb. destruct (encrypt_then_decrypt _ _ _ _ Eb) as (c & -> & Hl & Hr & _).
    destruct (decrypt_then_encrypt _ _ _ _ Eb) as (d & -> & Hl' & Hr' & _). done.
  - assert (Hno : ~ ff1_params key tweak radix x) by (intros H; apply ff1_paramsb_complete in H; congruence).
    unfold encrypt, decrypt. destruct (refused_cases _ _ _ _ Hk Ht Hno) as [-> |(Hlong & -> & Hp)]; cbn [mbind result_bind]; [by split; (split; [done|left])|].
    rewrite !Hp. by split; (split; [done|right]).
Qed.

Lemma ff1_domain_exact_witness :
  Forall is_byte sample_key /\ ~ ff1_params sample_key [] 10 [1; 2; 10] /\
  @encrypt toy_aes sample_key [] 10 [1; 2; 10] = Err Ff1Error /\ @decrypt toy_aes sample_key [] 10 [1; 2; 10] = Err Ff1Error.
Proof.
  assert (Hk : Forall is_byte sample_key)
    by (apply Forall_replicate; unfold is_byte, in_radix; lia).
  split; [exact Hk|].
  destruct (@ff1_domain_exact toy_aes toy_aes_laws sample_key [] 10 [1; 2; 10] Hk (Forall_nil _)) as [He _].
  assert (Ee : @encrypt toy_aes sample_key [] 10 [1; 2; 10] = Err Ff1Error) by (vm_compute; reflexivity).
  rewrite Ee in He. split; [exact (proj1 He)|]. split; [exact Ee|vm_compute; reflexivity].
Defined.

(** The loop multiplies [value] by [radix] until the floor is reached. *)
Lemma min_domain_loop_spec fuel radix l :
  2 <= radix -> 1 <= l -> (l = 1 \/ radix ^ (l - 1) < FF1_MIN_DOMAIN) ->
  FF1_MIN_DOMAIN <= 2 ^ (l + Z.of_nat fuel) ->
  let L := min_domain_loop fuel radix l (radix ^ l) in
  1 <= L /\ FF1_MIN_DOMAIN <= radix ^ L /\ (L = 1 \/ radix ^ (L - 1) < FF1_MIN_DOMAIN).
Proof.
  intros Hr. revert l. induction fuel as [|fuel IH]; intros l Hl Hlow Hfuel; cbn [min_domain_loop].
  - rewrite Nat2Z.inj_0, Z.add_0_r in Hfuel.
    assert (2 ^ l <= radix ^ l) by (apply Z.pow_le_mono_l; lia). split_and!; lia || done.
  - destruct (Z.ltb_spec (radix ^ l) FF1_MIN_DOMAIN); [|split_and!; lia || done].
    replace (radix ^ l * radix) with (radix ^ (l + 1)) by (rewrite Z.pow_add_r; lia).
    apply IH; [lia| |].
    + right. by replace (l + 1 - 1) with l by lia.
    + by replace (l + 1 + Z.of_nat fuel) with (l + Z.of_nat (S fuel)) by lia.
Qed.

(** [min_domain_length] returns the exact floor: the smallest length whose
    domain [radix ** length] reaches [FF1_MIN_DOMAIN]. *)
Theorem min_domain_length_exact radix :
  2 <= radix ->
  exists L, min_domain_length radix = Ok L /\ 1 <= L /\
    forall n, 1 <= n -> (L <= n <-> FF1_MIN_DOMAIN <= radix ^ n).
Proof.
  intros Hr. unfold min_domain_length. replace (radix <? 2) with false by lia. cbn [raise_if mbind result_bind].
  destruct (min_domain_loop_spec 20 radix 1) as (HL & Hge & Hlow); [lia|lia|by left|vm_compute; discriminate|].
  rewrite Z.pow_1_r in *. set (L := min_domain_loop 20 radix 1 radix) in *.
  exists L. split; [done|]. split; [done|]. intros n Hn. split; intros H.
  - assert (radix ^ L <= radix ^ n) by (apply Z.pow_le_mono_r; lia). lia.
  - destruct Hlow as [->|Hlow]; [done|]. destruct (Z.le_gt_cases L n) as [|Hlt]; [done|exfalso].
    assert (radix ^ n <= radix ^ (L - 1)) by (apply Z.pow_le_mono_r; lia). lia.
Qed.

Lemma min_domain_length_exact_witness :
  2 <= 10 /\ min_domain_length 10 = Ok 6 /\ exists L, min_domain_length 10 = Ok L /\ 1 <= L.
Proof.
  split; [lia|]. split; [reflexivity|].
  destruct (min_domain_length_exact 10) as (L & HL & H1 & _); [lia|]. exists L. split; assumption.
Defined.
