(* ===== verification/Checksums.v ===== *)
(** * Check-digit registry (checksums.py)

    The hand-rolled NPI and VIN schemes are translated; the schemes delegated to
    the third-party [python-stdnum] package are the parameter [StdnumOps], with
    the documented behaviour the engine relies on in [StdnumLaws]. *)

From S2P Require Import Prelude Numerals PyText.

(** ** The python-stdnum interface *)

Class StdnumOps := {
  luhn_is_valid : pystr -> bool;
  luhn_calc : pystr -> result pystr;
  iban_is_valid : pystr -> bool;
  iban_calc : pystr -> result pystr;
  ean_is_valid : pystr -> bool;
  ean_calc : pystr -> result pystr;
  isbn_is_valid : pystr -> bool;
}.

(** On strings of ASCII digits the calculated check digit is one digit, and a
    string is valid exactly when it ends with the check digit of its body; an
    EAN has 8, 12, 13 or 14 digits; the validity of a 13-digit ISBN follows from
    its EAN validity and its three-digit prefix. *)
Class StdnumLaws (S : StdnumOps) : Prop := {
  luhn_calc_digit b :
    Forall ascii_digit b -> exists d, luhn_calc b = Ok [d] /\ ascii_digit d;
  luhn_valid_iff b c :
    Forall ascii_digit b -> b <> [] -> ascii_digit c ->
    luhn_is_valid (b ++ [c]) = true <-> luhn_calc b = Ok [c];
  ean_calc_digit b :
    Forall ascii_digit b -> exists d, ean_calc b = Ok [d] /\ ascii_digit d;
  ean_valid_iff b c :
    Forall ascii_digit b -> ascii_digit c ->
    ean_is_valid (b ++ [c]) = true <-> zlen b + 1 ∈ [8; 12; 13; 14] /\ ean_calc b = Ok [c];
  isbn_valid_ean s :
    Forall ascii_digit s -> zlen s = 13 -> isbn_is_valid s = true -> ean_is_valid s = true;
  isbn_valid_prefix p x y :
    Forall ascii_digit (p ++ x) -> Forall ascii_digit y -> zlen p = 3 -> zlen x = 10 ->
    zlen y = 10 -> isbn_is_valid (p ++ x) = true -> ean_is_valid (p ++ y) = true ->
    isbn_is_valid (p ++ y) = true;
}.

(** ** Luhn check digit, as hand-rolled for NPI *)

Definition _NPI_PREFIX : pystr := py "80840".

(** One pass of [for i, ch in enumerate(reversed(digits))]. *)
Definition luhn_pass (st : Z * Z) (ch : Z) : result (Z * Z) :=
  let '(i, total) := st in
  n ← int_char ch;
  let n := if i mod 2 =? 0 then (let n2 := n * 2 in if n2 >? 9 then n2 - 9 else n2) else n in
  Ok (i + 1, total + n).

Definition _luhn_cd (digits : pystr) : result pystr :=
  '(_, total) ← for_each luhn_pass (rev digits) (0, 0);
  Ok (str_int ((10 - total mod 10) mod 10)).

(** ** NPI *)

Definition _npi_calc_check_digit (body : pystr) : result pystr := _luhn_cd (_NPI_PREFIX ++ body).

(** [re.compile(r"^\d{10}$").match]: ten Unicode digits, then the end of the
    string or its final newline. *)
Definition _NPI_RE (value : pystr) : bool :=
  forallb (fun c => bool_decide (is_Some (digit_value c))) (take 10 value)
  && (10 <=? zlen value)
  && bool_decide (drop 10 value ∈ [[]; [10]]).

Definition _npi_validate (value : pystr) : result bool :=
  if negb (_NPI_RE value) then Ok false
  else if negb (bool_decide (value !! 0%nat ∈ [Some 49; Some 50])) then Ok false
  else
    check ← _npi_calc_check_digit (take 9 value);
    Ok (bool_decide (option_list (value !! 9%nat) = check)).

(** ** VIN *)

Definition _VIN_TRANS : list (Z * Z) :=
  zip (py "ABCDEFGHJKLMNPRSTUVWXYZ")
      [1; 2; 3; 4; 5; 6; 7; 8; 1; 2; 3; 4; 5; 7; 9; 2; 3; 4; 5; 6; 7; 8; 9]
  ++ ((fun d => (48 + d, d)) <$> irange 0 10).

Definition vin_trans (c : Z) : option Z := snd <$> find (fun kv => kv.1 =? c) _VIN_TRANS.

Definition _VIN_WEIGHTS : list Z := [8; 7; 6; 5; 4; 3; 2; 10; 0; 9; 8; 7; 6; 5; 4; 3; 2].

Definition _VIN_CHARSET : list Z := fst <$> _VIN_TRANS.

Definition in_vin_charset (c : Z) : bool := bool_decide (c ∈ _VIN_CHARSET).

(** [sum(_VIN_TRANS[c] * _VIN_WEIGHTS[i] for i, c in enumerate(vin17))] *)
Definition vin_term (st : nat * Z) (c : Z) : result (nat * Z) :=
  let '(i, total) := st in
  t ← of_option (exc "KeyError") (vin_trans c);
  w ← of_option (exc "IndexError") (_VIN_WEIGHTS !! i);
  Ok (S i, total + t * w).

Definition _vin_check_from_full (vin17 : pystr) : result pystr :=
  '(_, total) ← for_each vin_term vin17 (O, 0);
  let r := total mod 11 in
  Ok (if r =? 10 then py "X" else str_int r).

Definition _vin_calc_check_digit (body : pystr) : result pystr :=
  let full := take 8 body ++ py "0" ++ drop 8 body in
  _vin_check_from_full full.

Definition _vin_validate (value : pystr) : result bool :=
  let v := upper (strip value) in
  if negb (zlen v =? 17) then Ok false
  else if negb (forallb in_vin_charset v) then Ok false
  else
    check ← _vin_check_from_full v;
    Ok (bool_decide (check = option_list (v !! 8%nat))).

(** ** Delegated schemes and dispatch *)

Section Registry.
Context `{S : StdnumOps}.

Definition _luhn_validate (value : pystr) : result bool := Ok (luhn_is_valid value).
Definition _luhn_calc_check_digit (body : pystr) : result pystr := luhn_calc body.
Definition _iban_calc_check_digit (body : pystr) : result pystr :=
  let cc := take 2 body in
  let bban := drop 2 body in
  iban_calc (cc ++ py "xx" ++ bban).
Definition _iban_validate (value : pystr) : result bool := Ok (iban_is_valid value).
Definition _isbn13_calc_check_digit (body : pystr) : result pystr := ean_calc body.
Definition _isbn13_validate (value : pystr) : result bool := Ok (isbn_is_valid value).
Definition _ean13_calc_check_digit (body : pystr) : result pystr := ean_calc body.
Definition _ean13_validate (value : pystr) : result bool := Ok (ean_is_valid value).
Definition _gtin_calc_check_digit (body : pystr) : result pystr := ean_calc body.
Definition _gtin_validate (value : pystr) : result bool := Ok (ean_is_valid value).

Definition _VALIDATORS : list (string * (pystr -> result bool)) :=
  [("luhn", _luhn_validate); ("npi", _npi_validate); ("iban", _iban_validate);
   ("vin", _vin_validate); ("isbn13", _isbn13_validate); ("ean13", _ean13_validate);
   ("gtin", _gtin_validate)]%string.

Definition _CHECK_DIGIT_FUNCS : list (string * (pystr -> result pystr)) :=
  [("luhn", _luhn_calc_check_digit); ("npi", _npi_calc_check_digit);
   ("iban", _iban_calc_check_digit); ("vin", _vin_calc_check_digit);
   ("isbn13", _isbn13_calc_check_digit); ("ean13", _ean13_calc_check_digit);
   ("gtin", _gtin_calc_check_digit)]%string.

Definition _KNOWN_SCHEMES : list string := fst <$> _VALIDATORS.

(** [_VIN_CHARSET] is the key set of [_VIN_TRANS]; the other schemes need the digits. *)
Definition _SCHEME_REQUIRED_CHARSET : list (string * pystr) :=
  [("luhn", py "0123456789"); ("npi", py "0123456789"); ("ean13", py "0123456789");
   ("isbn13", py "0123456789"); ("gtin", py "0123456789"); ("vin", _VIN_CHARSET)]%string.

Definition dict_get {V} (d : list (string * V)) (k : string) : option V :=
  snd <$> find (fun kv => String.eqb kv.1 k) d.

Definition validate (scheme : string) (value : pystr) : result bool :=
  _ ← raise_if (negb (bool_decide (scheme ∈ _KNOWN_SCHEMES))) (exc "ValueError");
  f ← of_option (exc "KeyError") (dict_get _VALIDATORS scheme);
  f value.

Definition calc_check_digit (scheme : string) (body : pystr) : result pystr :=
  _ ← raise_if (negb (bool_decide (scheme ∈ _KNOWN_SCHEMES))) (exc "ValueError");
  f ← of_option (exc "KeyError") (dict_get _CHECK_DIGIT_FUNCS scheme);
  f body.
End Registry.

(** ** Examples *)

Example npi_doc : _npi_calc_check_digit (py "123456789") = Ok (py "3").
Proof. reflexivity. Qed.

Example vin_example : _vin_validate (py "1M8GDM9AXKP042788") = Ok true.
Proof. vm_compute. reflexivity. Qed.

(** ** The Luhn sum

    [luhn_total i ds]: the weighted sum of digits [ds], listed from the right,
    the first of which stands at index [i]. *)

Definition luhn_weight (i d : Z) : Z :=
  if i mod 2 =? 0 then (if d * 2 >? 9 then d * 2 - 9 else d * 2) else d.

Fixpoint luhn_total (i : Z) (ds : list Z) : Z :=
  match ds with
  | [] => 0
  | d :: ds' => luhn_weight i d + luhn_total (i + 1) ds'
  end.

Definition digit_vals (s : pystr) : list Z := (fun c => c - 48) <$> s.

(** The Luhn checksum of a full number: its last digit stands at index [-1],
    so the digit before it is the first one doubled. *)
Definition luhn_checksum (s : pystr) : Z := luhn_total (-1) (digit_vals (rev s)) mod 10.

Lemma luhn_total_app i l k : luhn_total i (l ++ k) = luhn_total i l + luhn_total (i + zlen l) k.
Proof.
  revert i. induction l as [|d l IH]; intros i; cbn [luhn_total app].
  - unfold zlen. cbn. by rewrite Z.add_0_r.
  - rewrite IH, zlen_cons. replace (i + 1 + zlen l) with (i + (1 + zlen l)) by lia. lia.
Qed.

(** The weight permutes the ten digits, so two digits never weigh the same. *)
Lemma luhn_weight_inj i c d :
  0 <= c < 10 -> 0 <= d < 10 -> (luhn_weight i c - luhn_weight i d) mod 10 = 0 -> c = d.
Proof.
  unfold luhn_weight. intros Hc Hd H.
  destruct (i mod 2 =? 0); destruct (Z.gtb_spec (c * 2) 9), (Z.gtb_spec (d * 2) 9);
    Z.div_mod_to_equations; lia.
Qed.

Lemma luhn_pass_total l i t :
  Forall ascii_digit l ->
  for_each luhn_pass l (i, t) = Ok (i + zlen l, t + luhn_total i (digit_vals l)).
Proof.
  intros Hl. revert i t. induction Hl as [|c l Hc Hl IH]; intros i t; cbn [for_each].
  - unfold zlen. cbn. by rewrite !Z.add_0_r.
  - cbn [luhn_pass]. rewrite int_char_ascii by done. cbn [mbind result_bind].
    rewrite IH, zlen_cons. cbn [luhn_total digit_vals fmap list_fmap].
    fold (digit_vals l). unfold luhn_weight at 1. do 2 f_equal; [lia|].
    destruct (_ =? _); [destruct (_ >? _)|]; lia.
Qed.

(** The digit [_luhn_cd] computes, as a number. *)
Definition luhn_digit (s : pystr) : Z := (10 - luhn_total 0 (digit_vals (rev s)) mod 10) mod 10.

Lemma luhn_digit_bound s : 0 <= luhn_digit s < 10.
Proof. by apply Z.mod_pos_bound. Qed.

Lemma luhn_cd_ok s : Forall ascii_digit s -> _luhn_cd s = Ok [48 + luhn_digit s].
Proof.
  intros Hs. unfold _luhn_cd. rewrite luhn_pass_total by by apply Forall_rev.
  cbn [mbind result_bind]. rewrite str_int_digit by apply luhn_digit_bound. done.
Qed.

(** The check digit is the one digit that brings the checksum to zero. *)
Lemma luhn_digit_spec s c :
  ascii_digit c -> 48 + luhn_digit s = c <-> luhn_checksum (s ++ [c]) = 0.
Proof.
  unfold ascii_digit, luhn_checksum, luhn_digit. intros Hc. rewrite rev_app_distr. cbn [rev app].
  unfold digit_vals at 2. cbn [fmap list_fmap luhn_total]. fold (digit_vals (rev s)).
  change (luhn_weight (-1) (c - 48)) with (c - 48). change (-1 + 1) with 0.
  set (t := luhn_total 0 (digit_vals (rev s))). clearbody t.
  split; intros H; Z.div_mod_to_equations; lia.
Qed.

(** Replacing one digit changes the checksum. *)
Lemma luhn_checksum_substitution p s c d :
  ascii_digit c -> ascii_digit d -> c <> d ->
  luhn_checksum (p ++ c :: s) = 0 -> luhn_checksum (p ++ d :: s) <> 0.
Proof.
  unfold ascii_digit, luhn_checksum. intros Hc Hd Hne H1 H2. apply Hne.
  enough (c - 48 = d - 48) by lia.
  set (j := -1 + zlen (digit_vals (rev s))).
  apply (luhn_weight_inj j); [lia..|].
  assert (Hdec : forall x, luhn_total (-1) (digit_vals (rev (p ++ x :: s))) =
    luhn_total (-1) (digit_vals (rev s)) + (luhn_weight j (x - 48) + luhn_total (j + 1) (digit_vals (rev p)))).
  { intros x. rewrite rev_app_distr. cbn [rev]. unfold digit_vals. rewrite !fmap_app, <- app_assoc.
    by rewrite luhn_total_app. }
  rewrite Hdec in H1, H2. Z.div_mod_to_equations. lia.
Qed.

(** ** NPI *)

Lemma npi_re_digits v : Forall ascii_digit v -> zlen v = 10 -> _NPI_RE v = true.
Proof.
  intros Hv Hl. unfold _NPI_RE. assert (length v = 10%nat) by (unfold zlen in Hl; lia).
  rewrite take_ge, drop_ge by lia. rewrite !andb_true_iff. split_and!; [|lia|done].
  apply forallb_forall. intros c Hc. rewrite Forall_forall in Hv.
  rewrite digit_value_ascii by by apply Hv. done.
Qed.

Lemma npi_prefix_ascii : Forall ascii_digit _NPI_PREFIX.
Proof. by_decide. Qed.

(** On ten ASCII digits the validation is the Luhn checksum of ["80840"] plus the
    value, with the NPPES restriction on the first digit. *)
Lemma npi_validate_digits v :
  Forall ascii_digit v -> zlen v = 10 ->
  _npi_validate v =
    Ok (bool_decide (v !! 0%nat ∈ [Some 49; Some 50]) && (luhn_checksum (_NPI_PREFIX ++ v) =? 0)).
Proof.
  intros Hv Hl. unfold _npi_validate. rewrite npi_re_digits by done. cbn [negb].
  destruct (bool_decide (v !! 0%nat ∈ _)) eqn:Hh; [|done]. cbn [negb andb].
  assert (Hlen : length v = 10%nat) by (unfold zlen in Hl; lia).
  destruct (lookup_lt_is_Some_2 v 9) as [c Hc]; [lia|].
  assert (Hsplit : v = take 9 v ++ [c]).
  { rewrite <- (take_ge v 10) at 1 by lia. by apply take_S_r. }
  unfold _npi_calc_check_digit. rewrite luhn_cd_ok.
  2:{ apply Forall_app. split; [apply npi_prefix_ascii|by apply Forall_take]. }
  cbn [mbind result_bind]. do 2 f_equal. rewrite Hc. cbn [option_list].
  replace (_NPI_PREFIX ++ v) with ((_NPI_PREFIX ++ take 9 v) ++ [c])
    by by rewrite <- app_assoc, <- Hsplit.
  assert (ascii_digit c) by (eapply (list.Forall_forall _ v); [done|by eapply list_elem_of_lookup_2]).
  pose proof (luhn_digit_spec (_NPI_PREFIX ++ take 9 v) c) as Hspec.
  apply eq_true_iff_eq. rewrite bool_decide_eq_true, Z.eqb_eq, <- Hspec by done.
  cbn. split; [congruence|by intros ->].
Qed.

(** Appending the computed check digit to a nine-digit body starting with 1 or 2
    gives a valid NPI. *)
Lemma npi_by_construction b :
  Forall ascii_digit b -> zlen b = 9 -> b !! 0%nat ∈ [Some 49; Some 50] ->
  exists c, _npi_calc_check_digit b = Ok [c] /\ ascii_digit c /\ _npi_validate (b ++ [c]) = Ok true.
Proof.
  intros Hb Hl Hh. pose proof (luhn_digit_bound (_NPI_PREFIX ++ b)).
  assert (Hp : Forall ascii_digit (_NPI_PREFIX ++ b)) by (apply Forall_app; auto using npi_prefix_ascii).
  set (c := 48 + luhn_digit (_NPI_PREFIX ++ b)). exists c.
  assert (Hc : ascii_digit c) by (unfold ascii_digit, c; lia).
  split; [by apply luhn_cd_ok|]. split; [done|].
  rewrite npi_validate_digits.
  - rewrite app_assoc. replace (luhn_checksum _) with 0 by (symmetry; by apply luhn_digit_spec).
    rewrite lookup_app_l by (unfold zlen in Hl; lia). by rewrite bool_decide_eq_true_2.
  - apply Forall_app; auto.
  - rewrite zlen_app, Hl. done.
Qed.

(** ** VIN *)

Lemma vin_trans_spec c : c ∈ _VIN_CHARSET -> exists t, vin_trans c = Some t /\ 0 <= t < 10.
Proof.
  revert c. apply list.Forall_forall.
  assert (Hall : Forall (fun c => exists t, vin_trans c = Some t /\ (0 <=? t) && (t <? 10) = true) _VIN_CHARSET).
  { repeat (constructor; [eexists; split; vm_compute; reflexivity|]). constructor. }
  revert Hall. apply Forall_impl. intros c (t & ? & ?). exists t. bool_prop. split; [done|lia].
Qed.

(** The weighted sum of the characters from position [i]. *)
Fixpoint vin_sum (i : nat) (v : pystr) : Z :=
  match v with
  | [] => 0
  | c :: v' => default 0 (vin_trans c) * default 0 (_VIN_WEIGHTS !! i) + vin_sum (S i) v'
  end.

Lemma vin_sum_app i l k : vin_sum i (l ++ k) = vin_sum i l + vin_sum (i + length l) k.
Proof.
  revert i. induction l as [|c l IH]; intros i; cbn [vin_sum app length].
  - by rewrite Nat.add_0_r.
  - rewrite IH. replace (S i + length l)%nat with (i + S (length l))%nat by lia. lia.
Qed.

Lemma vin_terms v i t :
  Forall (fun c => c ∈ _VIN_CHARSET) v -> (i + length v <= 17)%nat ->
  for_each vin_term v (i, t) = Ok ((i + length v)%nat, t + vin_sum i v).
Proof.
  intros Hv. revert i t. induction Hv as [|c v Hc Hv IH]; intros i t Hi; cbn [for_each length vin_sum] in *.
  - by rewrite Nat.add_0_r, Z.add_0_r.
  - destruct (vin_trans_spec c Hc) as (w & Hw & _).
    destruct (lookup_lt_is_Some_2 _VIN_WEIGHTS i) as [x Hx]; [cbn; lia|].
    cbn [vin_term]. rewrite Hw, Hx. cbn [of_option mbind result_bind default from_option id].
    rewrite IH by lia. do 2 f_equal; lia.
Qed.

(** The check character from a weighted sum. *)
Definition vin_check_char (r : Z) : Z := if r =? 10 then 88 else 48 + r.

Lemma vin_check_char_spec r :
  0 <= r < 11 -> (if r =? 10 then py "X" else str_int r) = [vin_check_char r] /\ vin_check_char r ∈ _VIN_CHARSET.
Proof.
  intros Hr. unfold vin_check_char. destruct (Z.eqb_spec r 10); [split; [done|by_decide]|].
  rewrite str_int_digit by lia. split; [done|].
  unfold _VIN_CHARSET, _VIN_TRANS. rewrite fmap_app. apply elem_of_app. right.
  rewrite <- list_fmap_compose. unfold irange. rewrite <- list_fmap_compose.
  apply list_elem_of_fmap. exists (Z.to_nat r). unfold compose. cbn [fst].
  split; [lia|]. apply elem_of_seq. lia.
Qed.

Lemma vin_check_full v :
  Forall (fun c => c ∈ _VIN_CHARSET) v -> length v = 17%nat ->
  _vin_check_from_full v = Ok [vin_check_char (vin_sum 0 v mod 11)].
Proof.
  intros Hv Hl. unfold _vin_check_from_full. rewrite vin_terms by (done || lia).
  cbn [mbind result_bind]. do 2 f_equal. rewrite Z.add_0_l.
  apply vin_check_char_spec, Z.mod_pos_bound. lia.
Qed.

Lemma vin_char_plain c : c ∈ _VIN_CHARSET -> py_space c = false /\ upper_char c = [c].
Proof.
  revert c. apply list.Forall_forall.
  assert (Hall : Forall (fun c => py_space c = false /\ upper_char c = [c]) _VIN_CHARSET); [|done].
  repeat (constructor; [split; vm_compute; reflexivity|]). constructor.
Qed.

(** A string of VIN characters is already stripped and upper-cased. *)
Lemma vin_normal v : Forall (fun c => c ∈ _VIN_CHARSET) v -> upper (strip v) = v.
Proof.
  intros Hv.
  assert (Hl : forall s, Forall (fun c => c ∈ _VIN_CHARSET) s -> lstrip s = s).
  { intros [|c s] Hs; [done|]. cbn. apply Forall_inv in Hs.
    by destruct (vin_char_plain c Hs) as [-> _]. }
  unfold strip. rewrite (Hl v), (Hl (rev v)), rev_involutive by (done || by apply Forall_rev).
  induction Hv as [|c v Hc Hv IH]; [done|]. unfold upper in *. cbn.
  destruct (vin_char_plain c Hc) as [_ ->]. cbn. by f_equal.
Qed.

Lemma vin_validate_plain v :
  Forall (fun c => c ∈ _VIN_CHARSET) v -> length v = 17%nat ->
  _vin_validate v = Ok (bool_decide (v !! 8%nat = Some (vin_check_char (vin_sum 0 v mod 11)))).
Proof.
  intros Hv Hl. unfold _vin_validate. rewrite vin_normal by done.
  replace (zlen v =? 17) with true by (unfold zlen; lia). cbn [negb].
  replace (forallb in_vin_charset v) with true.
  2:{ symmetry. apply forallb_forall. intros c Hc. apply bool_decide_eq_true_2.
      rewrite Forall_forall in Hv. by apply Hv. }
  cbn [negb]. rewrite vin_check_full by done. cbn [mbind result_bind]. f_equal.
  destruct (lookup_lt_is_Some_2 v 8) as [c ->]; [lia|].
  change (option_list (Some c)) with [c]. apply bool_decide_ext. split; congruence.
Qed.

(** The check slot has weight zero. *)
Lemma vin_sum_slot p x y s : length p = 8%nat -> vin_sum 0 (p ++ x :: s) = vin_sum 0 (p ++ y :: s).
Proof. intros Hp. rewrite !vin_sum_app, Hp. cbn. lia. Qed.

(** Inserting the computed check character at position 8 gives a valid VIN. *)
Lemma vin_by_construction b :
  Forall (fun c => c ∈ _VIN_CHARSET) b -> zlen b = 16 ->
  exists c, _vin_calc_check_digit b = Ok [c] /\ c ∈ _VIN_CHARSET /\
            _vin_validate (take 8 b ++ c :: drop 8 b) = Ok true.
Proof.
  intros Hb Hl. assert (Hlen : length b = 16%nat) by (unfold zlen in Hl; lia).
  assert (Hfull : forall x, x ∈ _VIN_CHARSET ->
    Forall (fun c => c ∈ _VIN_CHARSET) (take 8 b ++ x :: drop 8 b) /\
    length (take 8 b ++ x :: drop 8 b) = 17%nat).
  { intros x Hx. split.
    - apply Forall_app. split; [by apply Forall_take|]. constructor; [done|by apply Forall_drop].
    - rewrite length_app, length_cons, length_take, length_drop. lia. }
  unfold _vin_calc_check_digit. change (py "0" ++ drop 8 b) with (48 :: drop 8 b).
  destruct (Hfull 48) as [H48 Hl48]; [by_decide|].
  rewrite vin_check_full by done.
  set (c := vin_check_char (vin_sum 0 (take 8 b ++ 48 :: drop 8 b) mod 11)).
  destruct (vin_check_char_spec (vin_sum 0 (take 8 b ++ 48 :: drop 8 b) mod 11)) as [_ Hc];
    [apply Z.mod_pos_bound; lia|]. fold c in Hc.
  exists c. split; [done|]. split; [done|].
  destruct (Hfull c Hc) as [Hv Hvl]. rewrite vin_validate_plain by done. f_equal.
  apply bool_decide_eq_true_2. rewrite lookup_app_r by (rewrite length_take; lia).
  rewrite length_take. replace (8 - _)%nat with 0%nat by lia. cbn.
  rewrite (vin_sum_slot _ c 48) by (rewrite length_take; lia). done.
Qed.

(** The check character of a valid VIN is the one computed from the rest. *)
Lemma vin_unique p c q :
  Forall (fun c => c ∈ _VIN_CHARSET) (p ++ c :: q) -> length p = 8%nat -> length q = 8%nat ->
  _vin_validate (p ++ c :: q) = Ok true -> _vin_calc_check_digit (p ++ q) = Ok [c].
Proof.
  intros Hv Hp Hq Hok. pose proof Hv as [Hpv [_ Hqv]%Forall_cons_iff]%Forall_app.
  rewrite vin_validate_plain in Hok by (done || rewrite length_app, length_cons, Hp, Hq; done).
  injection Hok as Hok. bool_prop. rewrite lookup_app_r, Hp in Hok by lia. injection Hok as Hc.
  unfold _vin_calc_check_digit. rewrite <- Hp, take_app_length, drop_app_length.
  change (py "0" ++ q) with (48 :: q). rewrite vin_check_full.
  - by rewrite (vin_sum_slot p 48 c), <- Hc.
  - apply Forall_app. split; [done|]. constructor; [by_decide|done].
  - rewrite length_app, length_cons, Hp, Hq. done.
Qed.

(** ** Claims *)

(** The NPI validation detects every single-digit error: if a ten-digit
    string validates, every string that differs from it in exactly one digit is
    rejected. *)
Theorem npi_detects_substitution p s c d :
  Forall ascii_digit (p ++ c :: s) -> ascii_digit d -> zlen (p ++ c :: s) = 10 -> c <> d ->
  _npi_validate (p ++ c :: s) = Ok true -> _npi_validate (p ++ d :: s) = Ok false.
Proof.
  intros Hv Hd Hl Hne. pose proof Hv as [Hp [Hc Hs]%Forall_cons_iff]%Forall_app.
  assert (Hv' : Forall ascii_digit (p ++ d :: s)) by (apply Forall_app; auto).
  rewrite !npi_validate_digits; [|done| |done|done].
  2:{ revert Hl. rewrite !zlen_app, !zlen_cons. done. }
  intros [= Hok]. f_equal. bool_prop. apply andb_false_intro2, Z.eqb_neq.
  rewrite app_assoc in *. by apply (luhn_checksum_substitution _ s c d).
Qed.

Lemma npi_detects_substitution_witness :
  _npi_validate (py "1234567893") = Ok true /\ _npi_validate (py "1234867893") = Ok false.
Proof.
  split; [vm_compute; reflexivity|].
  apply (npi_detects_substitution (py "1234") (py "67893") 53 56); try by_decide; discriminate.
Defined.

(** Check digits are valid by construction for the two hand-rolled schemes:
    appending [calc_check_digit("npi", body)] to a nine-digit body that starts
    with 1 or 2, or inserting [calc_check_digit("vin", body)] at position 8 of 16
    VIN characters, gives a value that [validate] accepts for the scheme. *)
Theorem check_digit_by_construction `{S : StdnumOps} b :
  (Forall ascii_digit b -> zlen b = 9 -> b !! 0%nat ∈ [Some 49; Some 50] ->
   exists c, calc_check_digit "npi" b = Ok [c] /\ validate "npi" (b ++ [c]) = Ok true) /\
  (Forall (fun c => c ∈ _VIN_CHARSET) b -> zlen b = 16 ->
   exists c, calc_check_digit "vin" b = Ok [c] /\
             validate "vin" (take 8 b ++ c :: drop 8 b) = Ok true).
Proof.
  split; intros.
  - destruct (npi_by_construction b) as (c & ? & ? & ?); [done..|]. by exists c.
  - destruct (vin_by_construction b) as (c & ? & ? & ?); [done..|]. by exists c.
Qed.

(** ** A reference implementation of the interface

    The published Luhn and GS1 algorithms on ASCII digits; IBAN is not used by
    any theorem and is left empty. It shows that the laws are consistent and
    lets the model be evaluated. *)

Definition all_digits (s : pystr) : bool := bool_decide (Forall ascii_digit s).

Fixpoint gs1_total (w : Z) (ds : list Z) : Z :=
  match ds with
  | [] => 0
  | d :: ds' => w * d + gs1_total (4 - w) ds'
  end.

Definition gs1_digit (b : pystr) : Z := 48 + (10 - gs1_total 3 (digit_vals (rev b)) mod 10) mod 10.

Definition ref_ean_valid (s : pystr) : bool :=
  all_digits s && bool_decide (zlen s ∈ [8; 12; 13; 14])
  && bool_decide (list.last s = Some (gs1_digit (removelast s))).

Definition ref_stdnum : StdnumOps := {|
  luhn_is_valid s := all_digits s && negb (bool_decide (s = [])) && (luhn_checksum s =? 0);
  luhn_calc b := _luhn_cd b;
  iban_is_valid _ := false;
  iban_calc _ := Err (exc "ValueError");
  ean_is_valid := ref_ean_valid;
  ean_calc b := if all_digits b then Ok [gs1_digit b] else Err (exc "ValueError");
  isbn_is_valid s :=
    bool_decide (zlen s = 13) && ref_ean_valid s &&
    bool_decide (take 3 s ∈ [py "978"; py "979"]);
|}.

Lemma all_digits_true s : Forall ascii_digit s -> all_digits s = true.
Proof. apply bool_decide_eq_true_2. Qed.

Lemma ref_stdnum_laws : StdnumLaws ref_stdnum.
Proof.
  constructor; cbn.
  - intros b Hb. exists (48 + luhn_digit b). split; [by apply luhn_cd_ok|].
    pose proof (luhn_digit_bound b). unfold ascii_digit. lia.
  - intros b c Hb Hne Hc. rewrite all_digits_true by (apply Forall_app; auto).
    rewrite bool_decide_eq_false_2 by (by destruct b). cbn.
    rewrite luhn_cd_ok, Z.eqb_eq, <- luhn_digit_spec by done. split; congruence.
  - intros b Hb. rewrite all_digits_true by done. eexists. split; [done|].
    unfold gs1_digit, ascii_digit. pose proof (Z.mod_pos_bound (10 - gs1_total 3 (digit_vals (rev b)) mod 10) 10). lia.
  - intros b c Hb Hc. unfold ref_ean_valid.
    rewrite !all_digits_true by (done || apply Forall_app; auto). cbn.
    rewrite last_snoc, removelast_last, zlen_app, andb_true_iff, !bool_decide_eq_true.
    replace (zlen [c]) with 1 by done.
    split; intros [? Heq]; (split; [done|congruence]).
  - intros s _ _. rewrite !andb_true_iff. tauto.
  - intros p x y _ _ Hp Hx Hy. rewrite !andb_true_iff, !bool_decide_eq_true, !zlen_app.
    assert (Hl : length p = 3%nat) by (unfold zlen in Hp; lia).
    rewrite <- Hl, !take_app_length. intros [[_ _] H3] He. split_and!; [lia|done|done].
Qed.

Lemma check_digit_by_construction_witness :
  validate (S := ref_stdnum) "npi" (py "1234567893") = Ok true /\
  exists c, calc_check_digit (S := ref_stdnum) "vin" (py "1M8GDM9AKP042788") = Ok [c] /\
    validate (S := ref_stdnum) "vin" (py "1M8GDM9A" ++ c :: py "KP042788") = Ok true.
Proof.
  split; [vm_compute; reflexivity|].
  apply (proj2 (@check_digit_by_construction ref_stdnum (py "1M8GDM9AKP042788"))); by_decide.
Defined.
