(* ===== verification/Fpe.v ===== *)
(** * Format-preserving masking (transforms/fpe.py, transforms/_fpe_checksum.py)

    The deployable-profile wrapper around FF1: charset resolution, the tweak
    frame, the pinned validation order, the checksum schemes and the
    separator-preserving orchestration over one value. *)

From S2P Require Import Prelude Numerals PyText Ff1 Checksums.

(** ** Errors *)

Definition FpeUnencryptableError (code : string) : exn := Exn "FpeUnencryptableError" code.
Definition FpeChecksumError (code : string) : exn := Exn "FpeChecksumError" code.

Definition FPE_UNENCRYPTABLE : string := "fpe.unencryptable".
Definition FPE__UNENCRYPTABLE_DOMAIN : string := "fpe.unencryptable_domain".
Definition FPE__UNENCRYPTABLE_LENGTH : string := "fpe.unencryptable_length".
Definition FPE_CHECKSUM_UNSUPPORTED : string := "fpe.checksum_unsupported".
Definition FPE__CHECKSUM_INVALID_SOURCE : string := "fpe.checksum_invalid_source".

(** ** Charsets *)

Definition _CHARSETS : list (pystr * pystr) :=
  [(py "digits", py "0123456789");
   (py "alpha", py "abcdefghijklmnopqrstuvwxyz");
   (py "ALPHA", py "ABCDEFGHIJKLMNOPQRSTUVWXYZ");
   (py "alphanum", py "0123456789abcdefghijklmnopqrstuvwxyz");
   (py "ALPHANUM", py "0123456789ABCDEFGHIJKLMNOPQRSTUVWXYZabcdefghijklmnopqrstuvwxyz")].

(** [{ch: i for i, ch in enumerate(charset)}]: a repeated symbol keeps its last index. *)
Definition _char_lookup (charset : pystr) : gmap Z Z :=
  fold_left (fun m p => <[p.2 := p.1]> m) (zip (irange 0 (length charset)) charset) ∅.

Definition resolve_fpe_charset (charset_spec : pystr) : pystr :=
  default charset_spec (snd <$> find (fun kv => bool_decide (kv.1 = charset_spec)) _CHARSETS).

(** [len(set(x))] *)
Definition set_len (l : list Z) : Z := Z.of_nat (size (list_to_set l : gset Z)).

Definition check_charset_unique (charset_spec charset : pystr) : result unit :=
  raise_if (negb (set_len charset =? zlen charset)) (FpeUnencryptableError FPE__UNENCRYPTABLE_LENGTH).

Definition _PRINTABLE_ASCII_MIN : Z := 33.
Definition _PRINTABLE_ASCII_MAX : Z := 126.

Definition check_charset_ascii_printable (charset : pystr) : result unit :=
  raise_if
    (existsb (fun ch => negb ((_PRINTABLE_ASCII_MIN <=? ch) && (ch <=? _PRINTABLE_ASCII_MAX))) charset)
    (FpeUnencryptableError FPE__UNENCRYPTABLE_LENGTH).

(** ** The FF1 tweak frame *)

Definition FF1_TWEAK_VERSION : Z := 1.
Definition FF1_TWEAK_SCOPE_COLUMN : Z := 1.
Definition FF1_TWEAK_SCOPE_JOIN_GROUP : Z := 2.
Definition FF1_TWEAK_SCOPE_TEXT_SPAN : Z := 3.

Definition build_ff1_tweak (scope : Z) (identity : pystr) : result bytes :=
  identity_bytes ← utf8_encode identity;
  _ ← raise_if (zlen identity_bytes >? 65535) (FpeUnencryptableError FPE__UNENCRYPTABLE_LENGTH);
  _ ← raise_if (negb ((0 <=? scope) && (scope <? 256))) (exc "ValueError");
  len2 ← to_bytes (zlen identity_bytes) 2;
  let tweak := [FF1_TWEAK_VERSION; scope] ++ len2 ++ identity_bytes in
  _ ← raise_if (zlen tweak >? FF1_MAX_TWEAK_LEN) (FpeUnencryptableError FPE__UNENCRYPTABLE_LENGTH);
  Ok tweak.

(** One pass of [for i, ch in enumerate(reversed(body))] in [_luhn_check_digit]. *)
Definition luhn_check_pass (st : Z * Z) (ch : Z) : result (Z * Z) :=
  let '(i, total) := st in
  n ← int_char ch;
  let n := if i mod 2 =? 0 then (let n2 := n * 2 in if n2 >? 9 then n2 - 9 else n2) else n in
  Ok (i + 1, total + n).

Definition _luhn_check_digit (body : pystr) : result pystr :=
  '(_, total) ← for_each luhn_check_pass (rev body) (0, 0);
  Ok (str_int ((10 - total mod 10) mod 10)).

(** [x[:-1]] *)
Definition init (s : pystr) : pystr := removelast s.

Definition _DIGITS_ONLY : pystr := py "0123456789".

(** ** The leaf permutation *)

Section Fpe.
Context `{A : AesOps} `{S : StdnumOps}.

(** The profile checks of [_permute], in order, on a body of [n] characters. *)
Definition permute_profile (n : Z) (key : bytes) (charset : pystr) (tweak : bytes) : result unit :=
  let radix := zlen charset in
  _ ← raise_if (negb (zlen key =? FF1_KEY_BYTES)) (FpeUnencryptableError FPE__UNENCRYPTABLE_LENGTH);
  _ ← raise_if (negb ((FF1_MIN_RADIX <=? radix) && (radix <=? FF1_MAX_RADIX)))
        (FpeUnencryptableError FPE__UNENCRYPTABLE_LENGTH);
  _ ← raise_if (negb (set_len charset =? radix)) (FpeUnencryptableError FPE__UNENCRYPTABLE_LENGTH);
  _ ← check_charset_ascii_printable charset;
  min_len ← min_domain_length radix;
  _ ← raise_if (n <? min_len) (FpeUnencryptableError FPE__UNENCRYPTABLE_DOMAIN);
  _ ← raise_if (n >? FF1_MAX_LEN) (FpeUnencryptableError FPE__UNENCRYPTABLE_LENGTH);
  raise_if (zlen tweak >? FF1_MAX_TWEAK_LEN) (FpeUnencryptableError FPE__UNENCRYPTABLE_LENGTH).

(** [except _ff1.Ff1Error: raise FpeUnencryptableError] *)
Definition wrap_ff1 (m : result (list Z)) : result (list Z) :=
  match m with
  | Err e => if String.eqb (exc_class e) "Ff1Error"
             then Err (FpeUnencryptableError FPE__UNENCRYPTABLE_LENGTH) else Err e
  | Ok x => Ok x
  end.

Definition _permute (s : pystr) (key : bytes) (charset : pystr) (tweak : bytes) (forward : bool)
  : result pystr :=
  let n := zlen s in
  if n =? 0 then Ok s else
  let radix := zlen charset in
  _ ← permute_profile n key charset tweak;
  let char_to_idx := _char_lookup charset in
  _ ← raise_if (existsb (fun ch => bool_decide (char_to_idx !! ch = None)) s)
        (FpeUnencryptableError FPE__UNENCRYPTABLE_LENGTH);
  numerals ← map_res (fun ch => of_option (exc "KeyError") (char_to_idx !! ch)) s;
  res ← wrap_ff1 (if forward then encrypt key tweak radix numerals
                  else decrypt key tweak radix numerals);
  map_res (fun i => of_option (exc "IndexError") (charset !! Z.to_nat i)) res.

(** ** Checksum schemes (_fpe_checksum.py) *)

Definition _EXACT_LENGTHS (scheme : string) : option (list Z) :=
  dict_get [("npi", [10]); ("isbn13", [13]); ("ean13", [13]); ("vin", [17]);
            ("gtin", [8; 12; 13; 14])]%string scheme.

Definition _MIN_LENGTHS (scheme : string) : option Z := dict_get [("luhn"%string, 2)] scheme.

Definition _validate_scheme_length (scheme : string) (s : pystr) : result unit :=
  _ ← raise_if (match _EXACT_LENGTHS scheme with
                | Some exact => negb (bool_decide (zlen s ∈ exact))
                | None => false
                end) (FpeChecksumError FPE_CHECKSUM_UNSUPPORTED);
  raise_if (match _MIN_LENGTHS scheme with
            | Some minimum => zlen s <? minimum
            | None => false
            end) (FpeChecksumError FPE_CHECKSUM_UNSUPPORTED).

Definition _fpe_checksum_permute (s : pystr) (key : bytes) (charset : pystr) (tweak : bytes)
  (scheme : string) (forward : bool) : result pystr :=
  _ ← raise_if (negb (bool_decide (scheme ∈ _KNOWN_SCHEMES)))
        (FpeChecksumError FPE_CHECKSUM_UNSUPPORTED);
  _ ← raise_if (String.eqb scheme "iban") (FpeChecksumError FPE_CHECKSUM_UNSUPPORTED);
  _ ← _validate_scheme_length scheme s;
  valid ← (if forward then validate scheme s else Ok true);
  _ ← raise_if (negb valid) (FpeChecksumError FPE__CHECKSUM_INVALID_SOURCE);
  if bool_decide (scheme ∈ ["luhn"; "ean13"; "gtin"]%string) then
    body ← _permute (init s) key _DIGITS_ONLY tweak forward;
    check ← calc_check_digit scheme body;
    Ok (body ++ check)
  else if String.eqb scheme "npi" then
    leading ← of_option (exc "IndexError") (s !! 0%nat);
    middle_body ← _permute (take 8 (drop 1 s)) key _DIGITS_ONLY tweak forward;
    let body9 := leading :: middle_body in
    check ← calc_check_digit "npi" body9;
    Ok (body9 ++ check)
  else if String.eqb scheme "isbn13" then
    let prefix := take 3 s in
    inner ← _permute (take 9 (drop 3 s)) key _DIGITS_ONLY tweak forward;
    let body12 := prefix ++ inner in
    check ← calc_check_digit "isbn13" body12;
    Ok (body12 ++ check)
  else if String.eqb scheme "vin" then
    let vin_charset := List.filter in_vin_charset charset in
    let vin_charset := if zlen vin_charset <? 2 then _DIGITS_ONLY else vin_charset in
    let raw_body := take 8 s ++ drop 9 s in
    enc ← _permute raw_body key vin_charset tweak forward;
    check ← calc_check_digit "vin" enc;
    Ok (take 8 enc ++ check ++ drop 8 enc)
  else Err (FpeChecksumError FPE_CHECKSUM_UNSUPPORTED).

(** ** Values *)

Definition _fpe_pure_value (s : pystr) (key : bytes) (charset : pystr) (tweak : bytes)
  (validate_luhn : bool) (forward : bool) (checksum : option string) : result pystr :=
  if bool_decide (s = []) then Ok s else
  match checksum with
  | Some scheme => _fpe_checksum_permute s key charset tweak scheme forward
  | None =>
      if validate_luhn && (2 <=? zlen s) then
        body ← _permute (init s) key charset tweak forward;
        check ← _luhn_check_digit body;
        Ok (body ++ check)
      else _permute s key charset tweak forward
  end.

Definition in_charset (charset : pystr) (ch : Z) : bool := bool_decide (ch ∈ charset).

(** [[i for i, ch in enumerate(val) if ch in charset_set]], counting from [k]. *)
Fixpoint positions_from (k : nat) (charset val : pystr) : list nat :=
  match val with
  | [] => []
  | ch :: val' =>
      let rest := positions_from (1 + k) charset val' in
      if in_charset charset ch then k :: rest else rest
  end.

Definition _fpe_value (val : pystr) (key : bytes) (charset : pystr) (tweak : bytes)
  (preserve_separators validate_luhn : bool) (checksum : option string) (forward : bool)
  : result pystr :=
  _ ← raise_if (bool_decide (val = [])) (FpeUnencryptableError FPE__UNENCRYPTABLE_DOMAIN);
  if preserve_separators then
    let positions := positions_from 0 charset val in
    _ ← raise_if (bool_decide (positions = [])) (FpeUnencryptableError FPE_UNENCRYPTABLE);
    body ← _fpe_pure_value (omap (fun i => val !! i) positions) key charset tweak validate_luhn
             forward checksum;
    _ ← raise_if (negb (bool_decide (length body = length positions)))
          (FpeUnencryptableError FPE_UNENCRYPTABLE);
    Ok (fold_left (fun res p => <[p.1 := p.2]> res) (zip positions body) val)
  else
    _ ← raise_if (negb (forallb (in_charset charset) val)) (FpeUnencryptableError FPE_UNENCRYPTABLE);
    _fpe_pure_value val key charset tweak validate_luhn forward checksum.

Definition fpe_encrypt_value (val : pystr) (key : bytes) (charset : pystr) (tweak : bytes)
  (preserve_separators validate_luhn : bool) (checksum : option string) : result pystr :=
  _fpe_value val key charset tweak preserve_separators validate_luhn checksum true.

Definition fpe_decrypt_value (val : pystr) (key : bytes) (charset : pystr) (tweak : bytes)
  (preserve_separators validate_luhn : bool) (checksum : option string) : result pystr :=
  _fpe_value val key charset tweak preserve_separators validate_luhn checksum false.
End Fpe.

(** ** The symbol table *)

Lemma set_len_cons c l : set_len (c :: l) = (if bool_decide (c ∈ l) then 0 else 1) + set_len l.
Proof.
  unfold set_len. change (list_to_set (c :: l) : gset Z) with ({[c]} ∪ list_to_set l : gset Z).
  case_bool_decide.
  - rewrite subseteq_union_1_L by set_solver. lia.
  - rewrite size_union by set_solver. rewrite size_singleton. lia.
Qed.

Lemma set_len_le l : set_len l <= zlen l.
Proof.
  induction l as [|c l IH]; [done|]. rewrite set_len_cons, zlen_cons. case_bool_decide; lia.
Qed.

(** [len(set(l)) == len(l)] is duplicate-freedom. *)
Lemma set_len_nodup l : set_len l = zlen l <-> NoDup l.
Proof.
  induction l as [|c l IH]; [split; [constructor|reflexivity]|].
  rewrite set_len_cons, zlen_cons, list.NoDup_cons, <- IH.
  pose proof (set_len_le l). case_bool_decide; split.
  - lia.
  - intros [? _]. done.
  - intros. split; [done|lia].
  - intros [_ ->]. lia.
Qed.

Definition lookup_from (k : nat) (charset : pystr) (m : gmap Z Z) : gmap Z Z :=
  fold_left (fun m p => <[p.2 := p.1]> m) (zip (irange k (length charset)) charset) m.

Lemma lookup_from_cons k c cs m :
  lookup_from k (c :: cs) m = lookup_from (S k) cs (<[c := Z.of_nat k]> m).
Proof. reflexivity. Qed.

Lemma lookup_from_out k cs m c : c ∉ cs -> lookup_from k cs m !! c = m !! c.
Proof.
  revert k m. induction cs as [|d cs IH]; intros k m Hc; [done|].
  apply not_elem_of_cons in Hc as [Hne Hc]. rewrite lookup_from_cons, IH by done.
  by rewrite lookup_insert_ne.
Qed.

Lemma lookup_from_in k cs m i c :
  NoDup cs -> cs !! i = Some c -> lookup_from k cs m !! c = Some (Z.of_nat (k + i)).
Proof.
  revert k m i. induction cs as [|d cs IH]; intros k m i Hnd Hi; [done|].
  apply list.NoDup_cons in Hnd as [Hd Hnd]. rewrite lookup_from_cons. destruct i as [|i]; cbn in Hi.
  - injection Hi as ->. rewrite lookup_from_out, lookup_insert_eq by done. by rewrite Nat.add_0_r.
  - rewrite (IH (S k) _ i) by done. do 2 f_equal. lia.
Qed.

(** With a duplicate-free charset the table inverts indexing. *)
Lemma char_lookup_spec charset c j :
  NoDup charset ->
  _char_lookup charset !! c = Some j <-> 0 <= j /\ charset !! Z.to_nat j = Some c.
Proof.
  intros Hnd. change (_char_lookup charset) with (lookup_from 0 charset ∅).
  split.
  - intros H. destruct (decide (c ∈ charset)) as [[i Hi]%list_elem_of_lookup|Hc].
    + rewrite (lookup_from_in 0 charset ∅ i c) in H by done. injection H as <-.
      split; [lia|]. by rewrite Nat2Z.id.
    + by rewrite lookup_from_out in H.
  - intros [Hj Hc]. rewrite (lookup_from_in 0 charset ∅ (Z.to_nat j) c) by done.
    f_equal. lia.
Qed.

Lemma char_lookup_none charset c :
  NoDup charset -> _char_lookup charset !! c = None <-> c ∉ charset.
Proof.
  intros Hnd. rewrite eq_None_not_Some, list_elem_of_lookup. split; intros H Hex; apply H.
  - destruct Hex as [i Hi]. exists (Z.of_nat i). apply char_lookup_spec; [done|].
    split; [lia|]. by rewrite Nat2Z.id.
  - destruct Hex as [j Hj]. apply char_lookup_spec in Hj as [_ Hj]; [|done]. by eexists.
Qed.

(** Encoding a string of charset symbols and decoding it again, both ways. *)
Section Alphabet.
Context (charset : pystr) (Hnd : NoDup charset).
Let enc := map_res (fun ch => of_option (exc "KeyError") (_char_lookup charset !! ch)).
Let dec := map_res (fun i => of_option (exc "IndexError") (charset !! Z.to_nat i)).

Lemma alphabet_encode s :
  Forall (fun c => c ∈ charset) s ->
  exists ns, enc s = Ok ns /\ zlen ns = zlen s /\ Forall (in_radix (zlen charset)) ns /\ dec ns = Ok s.
Proof.
  unfold enc, dec. induction 1 as [|c s Hc Hs (ns & He & Hl & Hr & Hd)]; [by exists []|].
  apply list_elem_of_lookup in Hc as [i Hi]. exists (Z.of_nat i :: ns). cbn.
  rewrite (proj2 (char_lookup_spec charset c (Z.of_nat i) Hnd))
    by (rewrite Nat2Z.id; split; [lia|done]).
  cbn. rewrite He, Nat2Z.id, Hi. cbn. rewrite Hd, !zlen_cons, Hl. split_and!; try done.
  constructor; [|done]. unfold in_radix, zlen. apply lookup_lt_Some in Hi. lia.
Qed.

Lemma alphabet_decode ns :
  Forall (in_radix (zlen charset)) ns ->
  exists s, dec ns = Ok s /\ zlen s = zlen ns /\ Forall (fun c => c ∈ charset) s /\ enc s = Ok ns.
Proof.
  unfold enc, dec. induction 1 as [|j ns Hj Hns (s & Hd & Hl & Hr & He)]; [by exists []|].
  unfold in_radix, zlen in Hj.
  destruct (lookup_lt_is_Some_2 charset (Z.to_nat j)) as [c Hc]; [lia|].
  exists (c :: s). cbn. rewrite Hc. cbn. rewrite Hd.
  rewrite (proj2 (char_lookup_spec charset c j Hnd)) by (split; [lia|done]). cbn.
  rewrite He, !zlen_cons, Hl. split_and!; try done.
  constructor; [|done]. by eapply list_elem_of_lookup_2.
Qed.
End Alphabet.

(** ** The leaf permutation is a bijection on its profile *)

(** The profile of [_permute] as a proposition. *)
Record profile (n : Z) (key : bytes) (charset : pystr) (tweak : bytes) : Prop := {
  pr_key : zlen key = FF1_KEY_BYTES;
  pr_radix : FF1_MIN_RADIX <= zlen charset <= FF1_MAX_RADIX;
  pr_nodup : NoDup charset;
  pr_ascii : Forall (fun ch => _PRINTABLE_ASCII_MIN <= ch <= _PRINTABLE_ASCII_MAX) charset;
  pr_floor : FF1_MIN_DOMAIN <= zlen charset ^ n;
  pr_len : n <= FF1_MAX_LEN;
  pr_tweak : zlen tweak <= FF1_MAX_TWEAK_LEN;
}.

(** Octet-valued keys and tweaks, which Python's [bytes] guarantees. *)
Definition octets (key tweak : bytes) : Prop := Forall is_byte key /\ Forall is_byte tweak.

Lemma check_ascii_spec charset :
  is_ok (check_charset_ascii_printable charset) = true <->
  Forall (fun ch => _PRINTABLE_ASCII_MIN <= ch <= _PRINTABLE_ASCII_MAX) charset.
Proof.
  unfold check_charset_ascii_printable, _PRINTABLE_ASCII_MIN, _PRINTABLE_ASCII_MAX, raise_if.
  induction charset as [|c cs IH]; [done|]. cbn [existsb]. rewrite Forall_cons_iff, <- IH.
  destruct (Z.leb_spec 33 c), (Z.leb_spec c 126); cbn [negb andb orb];
    destruct (existsb _ cs); cbn; intuition (discriminate || lia).
Qed.

(** The domain floor the loop computes, as an inequality on the domain size. *)
Lemma min_domain_floor radix n :
  2 <= radix -> 1 <= n ->
  exists L, min_domain_length radix = Ok L /\ (n <? L) = (radix ^ n <? FF1_MIN_DOMAIN).
Proof.
  intros Hr Hn. unfold min_domain_length. replace (radix <? 2) with false by lia.
  cbn [raise_if mbind result_bind]. eexists. split; [done|].
  destruct (min_domain_loop_spec 20 radix 1) as (HL & Hge & Hlow);
    [lia|lia|by left|vm_compute; discriminate|].
  rewrite Z.pow_1_r in *. set (L := min_domain_loop 20 radix 1 radix) in *. clearbody L.
  destruct (Z.ltb_spec n L); symmetry.
  - destruct Hlow as [->|Hlow]; [lia|]. apply Z.ltb_lt.
    assert (radix ^ n <= radix ^ (L - 1)) by (apply Z.pow_le_mono_r; lia). lia.
  - apply Z.ltb_ge. assert (radix ^ L <= radix ^ n) by (apply Z.pow_le_mono_r; lia). lia.
Qed.

Lemma permute_profile_spec n key charset tweak :
  1 <= n ->
  permute_profile n key charset tweak = Ok tt <-> profile n key charset tweak.
Proof.
  intros Hn. unfold permute_profile. split.
  - intros H. ok_inv. bool_prop. unfold FF1_MIN_RADIX in *.
    destruct (min_domain_floor (zlen charset) n) as (L & HL & Hfl); [lia..|].
    match goal with E : min_domain_length _ = Ok _ |- _ => rewrite HL in E; injection E as <- end.
    constructor; [done|unfold FF1_MIN_RADIX; lia|by apply set_len_nodup| | |lia|lia].
    + apply check_ascii_spec. by destruct (check_charset_ascii_printable charset).
    + apply Z.ltb_ge. rewrite <- Hfl. by apply Z.ltb_ge.
  - intros [Hk Hr Hnd Ha Hf Hl Ht]. unfold FF1_MIN_RADIX in *.
    destruct (min_domain_floor (zlen charset) n) as (L & HL & Hfl); [lia..|].
    apply set_len_nodup in Hnd. rewrite Hnd.
    replace (zlen key =? FF1_KEY_BYTES) with true by lia. rewrite Z.eqb_refl.
    replace ((2 <=? zlen charset) && (zlen charset <=? FF1_MAX_RADIX)) with true
      by (symmetry; apply andb_true_intro; lia).
    cbn [negb raise_if mbind result_bind].
    apply check_ascii_spec in Ha. destruct (check_charset_ascii_printable charset); [|discriminate].
    cbn [mbind result_bind]. rewrite HL. cbn [mbind result_bind]. rewrite Hfl.
    replace (zlen charset ^ n <? FF1_MIN_DOMAIN) with false by lia.
    replace (n >? FF1_MAX_LEN) with false by lia.
    by replace (zlen tweak >? FF1_MAX_TWEAK_LEN) with false by lia.
Qed.

Section Permute.
Context `{A : AesOps} {AL : AesLaws A}.

(** FF1 in one direction; the other undoes it. *)
Lemma ff1_dir fwd key tweak radix x :
  ff1_params key tweak radix x ->
  exists c, (if fwd : bool then encrypt key tweak radix x else decrypt key tweak radix x) = Ok c /\
    zlen c = zlen x /\ Forall (in_radix radix) c /\
    (if negb fwd then encrypt key tweak radix c else decrypt key tweak radix c) = Ok x.
Proof. destruct fwd; [apply encrypt_then_decrypt|apply decrypt_then_encrypt]. Qed.

Lemma profile_len n key charset tweak : profile n key charset tweak -> 0 <= n -> 2 <= n.
Proof.
  intros [_ Hr _ _ Hf _ _] Hn. unfold FF1_MIN_DOMAIN, FF1_MAX_RADIX, FF1_MIN_RADIX in *.
  destruct (decide (n = 0)) as [->|]; [lia|]. destruct (decide (n = 1)) as [->|]; [lia|]. lia.
Qed.

Lemma profile_params key charset tweak ns :
  octets key tweak -> profile (zlen ns) key charset tweak ->
  Forall (in_radix (zlen charset)) ns -> ff1_params key tweak (zlen charset) ns.
Proof.
  intros [Hk Ht] Hpr Hns. pose proof (profile_len _ _ _ _ Hpr (zlen_nonneg ns)).
  destruct Hpr as [Hkey Hr _ _ _ Hl Htw].
  unfold FF1_KEY_BYTES, FF1_MIN_RADIX, FF1_MAX_RADIX, FF1_MAX_LEN, FF1_MAX_TWEAK_LEN in *.
  constructor; try done; unfold FF1_STANDARD_MAX_RADIX; try lia.
  rewrite Hkey. by_decide.
Qed.

(** On a body of charset symbols within the profile, [_permute] returns a body
    of the same length over the same charset, and its other direction undoes it. *)
Lemma permute_ok s key charset tweak fwd :
  octets key tweak -> profile (zlen s) key charset tweak -> Forall (fun c => c ∈ charset) s ->
  exists out, _permute s key charset tweak fwd = Ok out /\ zlen out = zlen s /\
    Forall (fun c => c ∈ charset) out /\ _permute out key charset tweak (negb fwd) = Ok s.
Proof.
  intros Hoct Hpr Hs. pose proof (profile_len _ _ _ _ Hpr (zlen_nonneg s)) as Hn.
  pose proof (pr_nodup _ _ _ _ Hpr) as Hnd.
  assert (Hguard : forall t, Forall (fun c => c ∈ charset) t ->
    existsb (fun ch => bool_decide (_char_lookup charset !! ch = None)) t = false).
  { intros t Ht. apply not_true_iff_false. rewrite existsb_exists. intros (c & Hc & Hnone).
    bool_prop. apply char_lookup_none in Hnone; [|done]. rewrite Forall_forall in Ht. by apply Hnone, Ht. }
  destruct (alphabet_encode charset Hnd s Hs) as (ns & Henc & Hnl & Hnr & Hdec).
  destruct (ff1_dir fwd key tweak (zlen charset) ns) as (cs & Hc & Hcl & Hcr & Hinv).
  { apply profile_params; [done|by rewrite Hnl|done]. }
  destruct (alphabet_decode charset Hnd cs Hcr) as (out & Hout & Hol & Hor & Hoe).
  exists out. assert (Hlen : zlen out = zlen s) by lia.
  assert (Hp : permute_profile (zlen s) key charset tweak = Ok tt) by (apply permute_profile_spec; [lia|done]).
  unfold _permute. rewrite Hlen. replace (zlen s =? 0) with false by lia.
  rewrite Hp, !Hguard by done. cbn [raise_if mbind result_bind].
  rewrite Henc, Hoe. cbn [mbind result_bind]. rewrite Hc, Hinv. cbn [wrap_ff1 mbind result_bind].
  rewrite Hout, Hdec. done.
Qed.

(** [_permute] succeeds on nothing else, except that it returns the empty body. *)
Lemma permute_inv s key charset tweak fwd out :
  _permute s key charset tweak fwd = Ok out -> s <> [] ->
  profile (zlen s) key charset tweak /\ Forall (fun c => c ∈ charset) s.
Proof.
  unfold _permute. intros H Hne.
  assert (Hz : (zlen s =? 0) = false) by (destruct s; [done|rewrite zlen_cons; pose proof (zlen_nonneg s); lia]).
  rewrite Hz in H. ok_inv. destruct a.
  assert (Hpr : profile (zlen s) key charset tweak).
  { apply permute_profile_spec; [pose proof (zlen_nonneg s); bool_prop; lia|done]. }
  split; [done|]. apply Forall_forall. intros c Hc.
  destruct (decide (c ∈ charset)) as [|Hout]; [done|exfalso].
  apply (not_true_iff_false (existsb (fun ch => bool_decide (_char_lookup charset !! ch = None)) s)); [done|].
  apply existsb_exists. exists c. split; [done|]. apply bool_decide_eq_true_2.
  apply char_lookup_none; [apply Hpr|done].
Qed.

(** A successful permutation keeps length and charset and is undone by the other direction. *)
Lemma permute_undo s key charset tweak fwd out :
  octets key tweak -> _permute s key charset tweak fwd = Ok out ->
  zlen out = zlen s /\ (s = [] \/ Forall (fun c => c ∈ charset) s) /\
  (s = [] \/ Forall (fun c => c ∈ charset) out) /\ _permute out key charset tweak (negb fwd) = Ok s.
Proof.
  intros Hoct H. destruct (decide (s = [])) as [->|Hne].
  { injection H as <-. split_and!; auto. }
  destruct (permute_inv _ _ _ _ _ _ H Hne) as [Hpr Hs].
  destruct (permute_ok s key charset tweak fwd) as (out' & H' & Hl & Ho & Hu); [done..|].
  rewrite H in H'. injection H' as <-. split_and!; auto.
Qed.
End Permute.

(** ** Extraction and reinsertion of the in-charset characters *)

(** [fill p val body]: [val] with its [p]-characters replaced, in order, by [body]. *)
Fixpoint fill (p : Z -> bool) (val body : pystr) : pystr :=
  match val with
  | [] => []
  | c :: val' =>
      if p c then match body with b :: body' => b :: fill p val' body' | [] => c :: val' end
      else c :: fill p val' body
  end.

Section Fill.
Context (charset : pystr).
Let p := in_charset charset.

Lemma positions_length k val : length (positions_from k charset val) = length (List.filter p val).
Proof.
  revert k. induction val as [|c val IH]; intros k; [done|]. cbn. unfold p at 1.
  destruct (in_charset charset c); cbn; by rewrite IH.
Qed.

Lemma positions_chars pre val :
  omap (fun i => (pre ++ val) !! i) (positions_from (length pre) charset val) = List.filter p val.
Proof.
  revert pre. induction val as [|c val IH]; intros pre; [done|]. cbn [positions_from List.filter].
  specialize (IH (pre ++ [c])). rewrite length_app, Nat.add_comm, <- app_assoc in IH. cbn [length Nat.add app] in IH.
  unfold p at 1. destruct (in_charset charset c); [|exact IH].
  cbn [omap list_omap]. rewrite lookup_app_r, Nat.sub_diag by lia. cbn [lookup list_lookup]. by f_equal.
Qed.

(** Writing the body at the recorded positions is [fill]. *)
Lemma reinsert_fill pre val body :
  length body = length (List.filter p val) ->
  fold_left (fun res q => <[q.1 := q.2]> res)
    (zip (positions_from (length pre) charset val) body) (pre ++ val) = pre ++ fill p val body.
Proof.
  revert pre body. induction val as [|c val IH]; intros pre body Hl; [done|].
  cbn [positions_from List.filter fill] in *.
  pose proof (fun b => IH (pre ++ [b])) as IH'. setoid_rewrite length_app in IH'.
  setoid_rewrite Nat.add_comm in IH'. setoid_rewrite <- app_assoc in IH'. cbn [length Nat.add app] in IH'.
  unfold p in *. destruct (in_charset charset c); cbn [zip zip_with fold_left].
  - destruct body as [|b body]; [done|]. cbn [zip zip_with fold_left fst snd].
    rewrite insert_app_r_alt, Nat.sub_diag by lia. cbn [insert list_insert].
    apply IH'. by injection Hl.
  - by apply IH'.
Qed.

Lemma length_fill val body : length (fill p val body) = length val.
Proof.
  revert body. induction val as [|c val IH]; intros body; [done|]. cbn.
  destruct (p c); [destruct body|]; cbn; by rewrite ?IH.
Qed.

(** The in-charset characters of the filled value are the body. *)
Lemma filter_fill val body :
  length body = length (List.filter p val) -> Forall (fun c => c ∈ charset) body ->
  List.filter p (fill p val body) = body.
Proof.
  revert body. induction val as [|c val IH]; intros body Hl Hb; cbn [fill List.filter] in *.
  - by destruct body.
  - destruct (p c) eqn:Hc; cbn [List.filter].
    + destruct body as [|b body]; [done|]. apply Forall_cons_iff in Hb as [Hb Hbs].
      cbn [List.filter]. unfold p at 1, in_charset. rewrite bool_decide_eq_true_2 by done.
      f_equal. apply IH; [by injection Hl|done].
    + rewrite Hc. by apply IH.
Qed.

(** Filling again replaces the earlier filling. *)
Lemma fill_fill val body body' :
  length body = length (List.filter p val) -> Forall (fun c => c ∈ charset) body ->
  length body' = length body -> fill p (fill p val body) body' = fill p val body'.
Proof.
  revert body body'. induction val as [|c val IH]; intros body body' Hl Hb Hl'; [done|].
  cbn [fill List.filter] in *. destruct (p c) eqn:Hc.
  - destruct body as [|b body]; [done|]. destruct body' as [|b' body']; [done|].
    apply Forall_cons_iff in Hb as [Hb Hbs]. cbn [fill].
    replace (p b) with true by (symmetry; by apply bool_decide_eq_true_2).
    f_equal. apply IH; [by injection Hl|done|by injection Hl'].
  - cbn [fill]. rewrite Hc. f_equal. by apply IH.
Qed.

Lemma fill_self val : fill p val (List.filter p val) = val.
Proof.
  induction val as [|c val IH]; [done|]. cbn [List.filter fill].
  destruct (p c) eqn:Hc; by rewrite IH.
Qed.

(** Characters outside the charset keep their place. *)
Lemma fill_outside val body i c :
  val !! i = Some c -> c ∉ charset -> fill p val body !! i = Some c.
Proof.
  revert body i. induction val as [|d val IH]; intros body i Hi Hc; [done|]. cbn [fill].
  destruct i as [|i]; cbn in Hi.
  - injection Hi as ->. unfold p at 1, in_charset. by rewrite bool_decide_eq_false_2.
  - destruct (p d); [destruct body|]; cbn; auto.
Qed.

Lemma fill_inside val body i c :
  length body = length (List.filter p val) -> Forall (fun c => c ∈ charset) body ->
  val !! i = Some c -> c ∈ charset -> exists c', fill p val body !! i = Some c' /\ c' ∈ charset.
Proof.
  revert body i. induction val as [|d val IH]; intros body i Hl Hb Hi Hc; [done|].
  cbn [fill List.filter] in *. destruct (p d) eqn:Hd.
  - destruct body as [|b body]; [done|]. apply Forall_cons_iff in Hb as [Hb Hbs].
    destruct i as [|i]; cbn in *; [by exists b|]. apply IH; [by injection Hl|done..].
  - destruct i as [|i]; cbn in *; [|by apply IH].
    injection Hi as ->. unfold p, in_charset in Hd. bool_prop. done.
Qed.

Lemma filter_charset val : Forall (fun c => c ∈ charset) (List.filter p val).
Proof.
  apply Forall_forall. intros c [_ Hc]%filter_In. unfold p, in_charset in Hc. by bool_prop.
Qed.

Lemma filter_all val : forallb p val = true -> List.filter p val = val.
Proof.
  induction val as [|c val IH]; [done|]. cbn. intros [-> H]%andb_true_iff. by rewrite IH.
Qed.
End Fill.

(** ** Values: from the extracted body to the whole value *)

(** What masking may do to a value: same length, characters outside the charset
    untouched, characters of the charset replaced by characters of the charset. *)
Definition same_format (charset val out : pystr) : Prop :=
  length out = length val /\
  (forall i c, val !! i = Some c -> c ∉ charset -> out !! i = Some c) /\
  (forall i c, val !! i = Some c -> c ∈ charset -> exists c', out !! i = Some c' /\ c' ∈ charset).

Section Value.
Context `{A : AesOps} `{S : StdnumOps}.
Context (key : bytes) (charset : pystr) (tweak : bytes) (ps vl : bool) (ck : option string).
#[local] Abbreviation p := (in_charset charset).
Let pure fwd s := _fpe_pure_value s key charset tweak vl fwd ck.
Let value fwd val := _fpe_value val key charset tweak ps vl ck fwd.

Lemma fpe_value_inv val fwd out :
  value fwd val = Ok out ->
  List.filter p val <> [] /\ (ps = false -> forallb p val = true) /\
  exists body, pure fwd (List.filter p val) = Ok body /\
    (ps = true -> length body = length (List.filter p val)) /\
    out = if ps then fill p val body else body.
Proof.
  unfold value, _fpe_value. intros H. ok_step. bool_prop. destruct ps.
  - ok_step. bool_prop.
    pose proof (positions_chars charset [] val) as Hch. cbn [length app] in Hch. rewrite Hch in H.
    pose proof (positions_length charset 0 val) as Hpl.
    ok_step. ok_step. ok_step. bool_prop.
    split; [intros He; apply Heqb0, nil_length_inv; by rewrite Hpl, He|].
    split; [done|]. exists a. split; [done|]. split; [intros _; by rewrite Heqb1|].
    rewrite <- H. apply (reinsert_fill charset [] val). by rewrite Heqb1.
  - ok_step. bool_prop.  rewrite (filter_all charset val Heqb0).
    split; [done|]. split; [done|]. by exists out.
Qed.

Lemma fpe_value_intro val fwd body :
  List.filter p val <> [] -> (ps = false -> forallb p val = true) ->
  pure fwd (List.filter p val) = Ok body -> length body = length (List.filter p val) ->
  value fwd val = Ok (if ps then fill p val body else body).
Proof.
  intros Hne Hall Hpure Hl. unfold value, _fpe_value.
  rewrite (bool_decide_eq_false_2 (val = [])) by (intros ->; done). cbn [raise_if mbind result_bind].
  destruct ps.
  - pose proof (positions_length charset 0 val) as Hpl.
    rewrite bool_decide_eq_false_2.
    2:{ intros He. apply Hne, nil_length_inv. rewrite <- Hpl. by apply (f_equal length) in He. }
    cbn [raise_if mbind result_bind].
    pose proof (positions_chars charset [] val) as Hch. cbn [length app] in Hch. rewrite Hch.
    unfold pure in Hpure. rewrite Hpure. cbn [mbind result_bind].
    rewrite bool_decide_eq_true_2 by by rewrite Hpl. cbn [negb raise_if mbind result_bind].
    f_equal. by apply (reinsert_fill charset [] val).
  - specialize (Hall eq_refl). rewrite Hall. cbn [negb raise_if mbind result_bind].
    unfold pure in Hpure. by rewrite (filter_all charset val Hall) in Hpure.
Qed.

(** If the body transformation keeps length and charset, the whole value keeps
    its format and its charset characters are the transformed body. *)
Lemma fpe_value_body val fwd out :
  (forall body, pure fwd (List.filter p val) = Ok body ->
     length body = length (List.filter p val) /\ Forall (fun c => c ∈ charset) body) ->
  value fwd val = Ok out ->
  pure fwd (List.filter p val) = Ok (List.filter p out) /\ same_format charset val out /\
  out = fill p val (List.filter p out).
Proof.
  intros Hkeep H. destruct (fpe_value_inv _ _ _ H) as (Hne & Hall & body & Hpure & _ & Hout).
  destruct (Hkeep body Hpure) as (Hl & Hb).
  assert (Hfill : out = fill p val body).
  { subst out. destruct ps; [done|]. specialize (Hall eq_refl).
    clear - Hl Hall. rewrite (filter_all charset val Hall) in Hl. revert body Hl.
    induction val as [|c val IH]; intros [|b body] Hl; try done. cbn in *.
    apply andb_true_iff in Hall as [-> Hall]. f_equal. apply IH; [done|by injection Hl]. }
  assert (Hf : List.filter p out = body) by (rewrite Hfill; by apply filter_fill).
  rewrite Hf. split; [done|]. split; [|done]. rewrite Hfill. split_and!.
  - apply length_fill.
  - intros. by apply fill_outside.
  - intros i c Hi Hc. by eapply fill_inside.
Qed.

(** If moreover the other direction undoes it on the body, it does on the value. *)
Lemma fpe_value_undo val fwd out :
  (forall body, pure fwd (List.filter p val) = Ok body ->
     length body = length (List.filter p val) /\ Forall (fun c => c ∈ charset) body /\
     pure (negb fwd) body = Ok (List.filter p val)) ->
  value fwd val = Ok out ->
  value (negb fwd) out = Ok val /\ same_format charset val out /\
  pure fwd (List.filter p val) = Ok (List.filter p out).
Proof.
  intros Hundo H. destruct (fpe_value_inv _ _ _ H) as (Hne & Hall & _).
  destruct (fpe_value_body val fwd out) as (Hpure & Hfmt & Hfill); [|done|].
  { intros body Hb. destruct (Hundo body Hb) as (? & ? & _). done. }
  destruct (Hundo _ Hpure) as (Hl & Hb & Hback). split; [|done].
  rewrite (fpe_value_intro out (negb fwd) (List.filter p val)).
  - destruct ps; [|specialize (Hall eq_refl); by rewrite (filter_all charset val Hall)].
    f_equal. rewrite Hfill, (fill_fill charset) by done. apply fill_self.
  - intros He. rewrite He in Hl. by destruct (List.filter p val).
  - intros Hps. specialize (Hall Hps).
    pose proof (filter_all charset val Hall) as Hfv.
    rewrite Hfill. apply forallb_forall. intros c Hc.
    apply list_elem_of_In, list_elem_of_lookup in Hc as [i Hc]. rewrite <- Hfill in Hc.
    destruct Hfmt as (Hlen & _ & Hin). destruct (lookup_lt_is_Some_2 val i) as [d Hd].
    { apply lookup_lt_Some in Hc. lia. }
    destruct (Hin i d Hd) as (c' & Hc' & Hin').
    { rewrite forallb_forall in Hall. assert (Hd' : in_charset charset d = true).
      { apply Hall. apply list_elem_of_In. by eapply list_elem_of_lookup_2. }
      unfold in_charset in Hd'. by bool_prop. }
    apply bool_decide_eq_true_2. congruence.
  - done.
  - done.
Qed.
End Value.

(** ** Checksum schemes over digits

    Luhn, EAN-13, GTIN, NPI and ISBN-13 share one shape: a pinned prefix, a
    middle permuted over the digits, a recomputed last character. *)

Definition pinned (scheme : string) : option nat :=
  dict_get [("luhn", 0%nat); ("ean13", 0%nat); ("gtin", 0%nat); ("npi", 1%nat); ("isbn13", 3%nat)]%string
    scheme.

Lemma digits_only_iff c : c ∈ _DIGITS_ONLY <-> ascii_digit c.
Proof.
  unfold ascii_digit. split.
  - revert c. apply list.Forall_forall. assert (H : Forall ascii_digit _DIGITS_ONLY) by by_decide. done.
  - intros Hc. assert (Hex : c ∈ Z.add 48 <$> irange 0 10); [|done].
    unfold irange. rewrite <- list_fmap_compose. apply list_elem_of_fmap.
    exists (Z.to_nat (c - 48)). unfold compose. split; [lia|]. apply elem_of_seq. lia.
Qed.

Lemma digits_only_all s : Forall (fun c => c ∈ _DIGITS_ONLY) s <-> Forall ascii_digit s.
Proof. split; apply Forall_impl; intros; by apply digits_only_iff. Qed.

(** The five digit schemes. *)
Lemma pinned_cases (P : string -> nat -> Prop) :
  P "luhn"%string 0%nat -> P "ean13"%string 0%nat -> P "gtin"%string 0%nat ->
  P "npi"%string 1%nat -> P "isbn13"%string 3%nat ->
  forall scheme k, pinned scheme = Some k -> P scheme k.
Proof.
  intros H1 H2 H3 H4 H5 scheme k. unfold pinned, dict_get. cbn [find fst].
  repeat match goal with |- context [String.eqb ?x scheme] =>
    destruct (String.eqb_spec x scheme) as [<-|]; [by intros [= <-]|] end.
  discriminate.
Qed.

(** The length each digit scheme requires. *)
Definition scheme_length_ok (scheme : string) (n : Z) : Prop :=
  match _EXACT_LENGTHS scheme with Some l => n ∈ l | None => True end /\
  match _MIN_LENGTHS scheme with Some m => m <= n | None => True end.

Lemma validate_length_spec scheme s :
  _validate_scheme_length scheme s = Ok tt <-> scheme_length_ok scheme (zlen s).
Proof.
  unfold _validate_scheme_length, scheme_length_ok.
  destruct (_EXACT_LENGTHS scheme) as [l|], (_MIN_LENGTHS scheme) as [m|]; cbn [raise_if];
    try destruct (bool_decide (zlen s ∈ l)) eqn:E1; try destruct (zlen s <? m) eqn:E2; cbn;
    bool_prop; intuition (done || lia).
Qed.

Lemma exact_length scheme n m : _EXACT_LENGTHS scheme = Some [n] -> scheme_length_ok scheme m -> m = n.
Proof. intros H [Hm _]. rewrite H in Hm. by apply list_elem_of_singleton in Hm. Qed.

Lemma removelast_take {A} (l : list A) : removelast l = take (pred (length l)) l.
Proof. apply removelast_firstn_len. Qed.

(** The permuted middle of a value whose first [k] characters are pinned. *)
Definition mid (k : nat) (s : pystr) : pystr := init (drop k s).

Lemma mid_parts p m c : take (length p) ((p ++ m) ++ [c]) = p /\ mid (length p) ((p ++ m) ++ [c]) = m.
Proof.
  rewrite <- app_assoc. rewrite take_app_length. split; [done|].
  unfold mid, init. rewrite drop_app_length. apply removelast_last.
Qed.

(** A value longer than its pinned prefix is prefix, middle and check digit. *)
Lemma mid_split k (s : pystr) :
  (k < length s)%nat -> exists c, s = (take k s ++ mid k s) ++ [c] /\ length (take k s) = k.
Proof.
  intros Hk. destruct (exists_last (l := drop k s)) as (m & c & Hm).
  { intros He. apply (f_equal length) in He. rewrite length_drop in He. cbn in He. lia. }
  exists c. unfold mid, init. rewrite Hm, removelast_last, <- app_assoc, <- Hm, take_drop.
  split; [done|]. rewrite length_take. lia.
Qed.

Lemma scheme_length_pos scheme k n :
  pinned scheme = Some k -> scheme_length_ok scheme n -> Z.of_nat k + 2 <= n.
Proof.
  intros Hk. revert scheme k Hk. unfold scheme_length_ok.
  apply (pinned_cases (fun scheme k => _ -> Z.of_nat k + 2 <= n)); 
    intros [He Hm]; [exact Hm|..]; 
    destruct (_EXACT_LENGTHS _) eqn:El; vm_compute in El; try discriminate El; injection El as <-;
    repeat (apply elem_of_cons in He as [->|He]; [lia|]); by apply elem_of_nil in He.
Qed.

Section DigitSchemes.
Context `{A : AesOps} {AL : AesLaws A} `{S : StdnumOps} {SL : StdnumLaws S}.

Lemma checksum_shape scheme k s key charset tweak fwd :
  pinned scheme = Some k -> scheme_length_ok scheme (zlen s) ->
  _fpe_checksum_permute s key charset tweak scheme fwd =
    (valid ← (if fwd : bool then validate scheme s else Ok true);
     _ ← raise_if (negb valid) (FpeChecksumError FPE__CHECKSUM_INVALID_SOURCE);
     m ← _permute (mid k s) key _DIGITS_ONLY tweak fwd;
     check ← calc_check_digit scheme (take k s ++ m);
     Ok ((take k s ++ m) ++ check)).
Proof.
  intros Hk Hl. pose proof (proj2 (validate_length_spec scheme s) Hl) as Hv.
  revert scheme k Hk Hl Hv.
  apply (pinned_cases (fun scheme k => scheme_length_ok scheme _ -> _validate_scheme_length _ _ = _ -> _));
    intros Hl Hv; unfold _fpe_checksum_permute, mid, init; rewrite Hv.
  1,2,3: by rewrite drop_0.
  - pose proof (exact_length "npi" 10 _ eq_refl Hl) as Hlen.
    destruct s as [|l s]; [discriminate|]. rewrite zlen_cons in Hlen.
    change (drop 1 (l :: s)) with s. rewrite (removelast_take s).
    replace (pred (length s)) with 8%nat by (unfold zlen in Hlen; lia). reflexivity.
  - pose proof (exact_length "isbn13" 13 _ eq_refl Hl) as Hlen. unfold zlen in Hlen.
    rewrite (removelast_take (drop 3 s)), length_drop. replace (pred (length s - 3)) with 9%nat by lia. reflexivity.
Qed.

(** What the registry promises about a digit scheme: the check digit of a body
    of digits is a digit; it is the only one that validates; and it keeps
    validating when the middle of a valid value is replaced. *)
Lemma scheme_calc scheme k b :
  pinned scheme = Some k -> Forall ascii_digit b ->
  exists d, calc_check_digit scheme b = Ok [d] /\ ascii_digit d.
Proof.
  intros Hk Hb. revert scheme k Hk.
  apply (pinned_cases (fun scheme _ => exists d, calc_check_digit scheme b = Ok [d] /\ ascii_digit d)).
  1: by apply luhn_calc_digit. 1,2,4: by apply ean_calc_digit.
  exists (48 + luhn_digit (_NPI_PREFIX ++ b)). split.
  - apply (luhn_cd_ok (_NPI_PREFIX ++ b)), Forall_app. auto using npi_prefix_ascii.
  - pose proof (luhn_digit_bound (_NPI_PREFIX ++ b)). unfold ascii_digit. lia.
Qed.

Lemma scheme_unique scheme k b c :
  pinned scheme = Some k -> Forall ascii_digit b -> ascii_digit c ->
  scheme_length_ok scheme (zlen (b ++ [c])) -> validate scheme (b ++ [c]) = Ok true ->
  calc_check_digit scheme b = Ok [c].
Proof.
  intros Hk Hb Hc. assert (Hbc : Forall ascii_digit (b ++ [c])) by (apply Forall_app; auto).
  revert scheme k Hk.
  apply (pinned_cases (fun scheme _ => scheme_length_ok scheme _ -> validate scheme _ = _ ->
                                       calc_check_digit scheme b = Ok [c])); intros Hl Hv.
  - apply luhn_valid_iff; [done| |done|by injection Hv]. intros ->.
    destruct Hl as [_ Hl]. vm_compute in Hl. done.
  - apply ean_valid_iff; [done..|by injection Hv].
  - apply ean_valid_iff; [done..|by injection Hv].
  - change (_npi_validate (b ++ [c]) = Ok true) in Hv.
    rewrite npi_validate_digits in Hv by (done || by apply (exact_length "npi")).
    injection Hv as Hv. bool_prop.
    assert (Hp : Forall ascii_digit (_NPI_PREFIX ++ b)) by (apply Forall_app; auto using npi_prefix_ascii).
    change (_luhn_cd (_NPI_PREFIX ++ b) = Ok [c]). rewrite luhn_cd_ok by done.
    do 2 f_equal. apply luhn_digit_spec; [done|]. by rewrite <- app_assoc.
  - pose proof (exact_length "isbn13" 13 _ eq_refl Hl) as Hlen.
    apply ean_valid_iff; [done..|]. apply isbn_valid_ean; [done..|by injection Hv].
Qed.

Lemma ean_revalid b b' c c' :
  Forall ascii_digit b -> Forall ascii_digit b' -> ascii_digit c -> ascii_digit c' ->
  zlen (b' ++ [c']) = zlen (b ++ [c]) -> ean_is_valid (b ++ [c]) = true ->
  ean_calc b' = Ok [c'] -> ean_is_valid (b' ++ [c']) = true.
Proof.
  intros Hb Hb' Hc Hc' Hl Hv Hcalc. apply ean_valid_iff; [done..|]. split; [|done].
  apply ean_valid_iff in Hv as [Hv _]; [|done..].
  rewrite !zlen_app in Hl. change (zlen [c]) with 1 in Hl. change (zlen [c']) with 1 in Hl.
  by rewrite Hl.
Qed.

Lemma scheme_revalid scheme k p m m' c c' :
  pinned scheme = Some k -> length p = k -> Forall ascii_digit (p ++ m) -> Forall ascii_digit m' ->
  ascii_digit c -> ascii_digit c' -> length m' = length m ->
  scheme_length_ok scheme (zlen ((p ++ m) ++ [c])) -> validate scheme ((p ++ m) ++ [c]) = Ok true ->
  calc_check_digit scheme (p ++ m') = Ok [c'] -> validate scheme ((p ++ m') ++ [c']) = Ok true.
Proof.
  intros Hk Hp Hpm Hm' Hc Hc' Hlm Hl Hv Hcalc.
  pose proof (proj1 (proj1 (Forall_app _ p m) Hpm)) as Hpd.
  assert (Hpm' : Forall ascii_digit (p ++ m')) by (apply Forall_app; auto).
  assert (Hlen : zlen ((p ++ m') ++ [c']) = zlen ((p ++ m) ++ [c])).
  { unfold zlen. rewrite !length_app. cbn. lia. }
  revert scheme k Hk Hp Hl Hv Hcalc.
  apply (pinned_cases (fun scheme k => length p = k -> scheme_length_ok scheme _ -> validate scheme _ = _ ->
     calc_check_digit scheme _ = _ -> validate scheme ((p ++ m') ++ [c']) = Ok true));
    intros Hp Hl Hv Hcalc.
  - change (Ok (luhn_is_valid ((p ++ m') ++ [c'])) = Ok true). f_equal. apply luhn_valid_iff; try done.
    intros He. destruct Hl as [_ Hl]. rewrite <- Hlen, He in Hl. vm_compute in Hl. done.
  - change (Ok (ean_is_valid ((p ++ m') ++ [c'])) = Ok true). injection Hv as Hv.
    f_equal. by apply (ean_revalid (p ++ m) _ c).
  - change (Ok (ean_is_valid ((p ++ m') ++ [c'])) = Ok true). injection Hv as Hv.
    f_equal. by apply (ean_revalid (p ++ m) _ c).
  - destruct (npi_by_construction (p ++ m')) as (x & Hx & _ & Hok); [done| | |].
    + pose proof (exact_length "npi" 10 _ eq_refl Hl) as H10. rewrite <- Hlen, zlen_app in H10.
      change (zlen [c']) with 1 in H10. lia.
    + change (_npi_validate ((p ++ m) ++ [c]) = Ok true) in Hv.
      rewrite npi_validate_digits in Hv;
        [|apply Forall_app; auto|by apply (exact_length "npi")].
      injection Hv as Hv. bool_prop. destruct p as [|x [|? ?]]; done.
    + assert (x = c') as -> by (change (_npi_calc_check_digit (p ++ m') = Ok [c']) in Hcalc; congruence).
      done.
  - change (Ok (isbn_is_valid ((p ++ m') ++ [c'])) = Ok true). injection Hv as Hv. f_equal.
    pose proof (exact_length "isbn13" 13 _ eq_refl Hl) as H13.
    pose proof (isbn_valid_ean _ (proj2 (Forall_app _ _ _) (conj Hpm (Forall_cons _ _ _ Hc (Forall_nil _))))
                  H13 Hv) as Hev.
    pose proof (ean_revalid _ _ _ _ Hpm Hpm' Hc Hc' Hlen Hev Hcalc) as Hev'.
    rewrite <- !app_assoc in *. rewrite !zlen_app in *. change (zlen [c]) with 1 in *.
    change (zlen [c']) with 1 in *. assert (Hp3 : zlen p = 3) by (unfold zlen; lia).
    apply (isbn_valid_prefix p (m ++ [c])); try done; rewrite ?zlen_app; try (change (zlen [c]) with 1);
      try (change (zlen [c']) with 1); try lia.
    + rewrite app_assoc. apply Forall_app; auto.
    + apply Forall_app; auto.
Qed.

Lemma checksum_length s key charset tweak scheme fwd out :
  _fpe_checksum_permute s key charset tweak scheme fwd = Ok out -> scheme_length_ok scheme (zlen s).
Proof.
  unfold _fpe_checksum_permute. intros H. do 3 ok_step. destruct a. by apply validate_length_spec.
Qed.

(** Masking a digit value with a checksum scheme keeps its length, its digits
    and its validity, and unmasking returns it. *)
Lemma digit_scheme_undo scheme k s key charset tweak out :
  octets key tweak -> pinned scheme = Some k -> Forall ascii_digit s ->
  _fpe_checksum_permute s key charset tweak scheme true = Ok out ->
  length out = length s /\ Forall ascii_digit out /\ validate scheme out = Ok true /\
  _fpe_checksum_permute out key charset tweak scheme false = Ok s.
Proof.
  intros Hoct Hk Hs H. pose proof (checksum_length _ _ _ _ _ _ _ H) as Hl.
  pose proof (scheme_length_pos _ _ _ Hk Hl) as Hpos.
  destruct (mid_split k s) as (c & Hsplit & Htk); [unfold zlen in Hpos; lia|].
  rewrite (checksum_shape scheme k) in H by done. cbn [negb] in H.
  ok_step. ok_step. bool_prop. subst a. ok_step. ok_step. ok_step.
  rename a into m, a0 into chk. set (p := take k s) in *. set (md := mid k s) in *.
  rewrite Hsplit in Hs. apply Forall_app in Hs as [Hpm [Hc _]%Forall_cons_iff].
  destruct (permute_undo _ _ _ _ _ _ Hoct E0) as (Hlm & _ & Hm & Hback).
  assert (Hmd : md <> []).
  { intros He. apply (f_equal zlen) in Hsplit. rewrite !zlen_app, He in Hsplit.
    change (zlen [c]) with 1 in Hsplit. unfold zlen in *. cbn in *. lia. }
  destruct Hm as [|Hm]; [done|]. apply digits_only_all in Hm.
  pose proof Hpm as [Hp _]%Forall_app.
  destruct (scheme_calc scheme k (p ++ m)) as (c' & Hcalc & Hc'); [done|apply Forall_app; auto|].
  rewrite Hcalc in E1. injection E1 as <-. subst out.
  destruct (mid_parts p m c') as [Ht Hmid]. rewrite Htk in Ht, Hmid.
  assert (Hlen : length ((p ++ m) ++ [c']) = length s).
  { rewrite Hsplit, !length_app. unfold zlen in Hlm. cbn. lia. }
  split; [done|]. split; [apply Forall_app; split; [apply Forall_app|]; auto|]. split.
  - eapply (scheme_revalid scheme k p md m c c'); try done;
      [unfold zlen in Hlm; lia|by rewrite <- Hsplit..].
  - rewrite (checksum_shape scheme k) by (unfold zlen in *; rewrite ?Hlen; done).
    cbn [negb raise_if mbind result_bind]. rewrite Ht, Hmid. cbn [negb] in Hback. rewrite Hback. cbn [mbind result_bind].
    rewrite Hsplit in E, Hl |- *. rewrite (scheme_unique scheme k (p ++ md) c) by done. done.
Qed.
End DigitSchemes.

(** ** VIN *)

Section Vin.
Context `{A : AesOps} {AL : AesLaws A} `{S : StdnumOps}.

(** The alphabet the VIN body is permuted over. *)
Definition vin_alphabet (charset : pystr) : pystr :=
  let vin_charset := List.filter in_vin_charset charset in
  if zlen vin_charset <? 2 then _DIGITS_ONLY else vin_charset.

Lemma vin_alphabet_sub charset c : c ∈ vin_alphabet charset -> c ∈ _VIN_CHARSET.
Proof.
  unfold vin_alphabet. destruct (_ <? 2).
  - revert c. apply list.Forall_forall. by_decide.
  - intros Hc. apply list_elem_of_In, filter_In in Hc as [_ Hc]. unfold in_vin_charset in Hc. by bool_prop.
Qed.

Lemma vin_shape s key charset tweak fwd :
  zlen s = 17 ->
  _fpe_checksum_permute s key charset tweak "vin" fwd =
    (valid ← (if fwd : bool then _vin_validate s else Ok true);
     _ ← raise_if (negb valid) (FpeChecksumError FPE__CHECKSUM_INVALID_SOURCE);
     enc ← _permute (take 8 s ++ drop 9 s) key (vin_alphabet charset) tweak fwd;
     check ← _vin_calc_check_digit enc;
     Ok (take 8 enc ++ check ++ drop 8 enc)).
Proof.
  intros Hl. assert (Hv : _validate_scheme_length "vin" s = Ok tt).
  { apply validate_length_spec. rewrite Hl. split; by_decide. }
  unfold _fpe_checksum_permute. rewrite Hv. reflexivity.
Qed.

Lemma vin_scheme_undo s key charset tweak out :
  octets key tweak -> Forall (fun c => c ∈ _VIN_CHARSET) s ->
  _fpe_checksum_permute s key charset tweak "vin" true = Ok out ->
  length out = length s /\ Forall (fun c => c ∈ _VIN_CHARSET) out /\ _vin_validate out = Ok true /\
  _fpe_checksum_permute out key charset tweak "vin" false = Ok s.
Proof.
  intros Hoct Hs H.
  pose proof (exact_length "vin" 17 _ eq_refl (checksum_length _ _ _ _ _ _ _ H)) as Hl.
  rewrite vin_shape in H by done. cbn [negb] in H. ok_step. ok_step. bool_prop. subst a. ok_step. ok_step. ok_step.
  rename a into enc, a0 into chk. assert (Hlen : length s = 17%nat) by (unfold zlen in Hl; lia).
  destruct (permute_undo _ _ _ _ _ _ Hoct E0) as (Hle & _ & Henc & Hback). cbn [negb] in Hback.
  assert (H16 : zlen (take 8 s ++ drop 9 s) = 16).
  { unfold zlen. rewrite length_app, length_take, length_drop. lia. }
  destruct Henc as [Henc|Henc]; [by rewrite Henc in H16|].
  assert (Hencv : Forall (fun c => c ∈ _VIN_CHARSET) enc).
  { revert Henc. apply Forall_impl. apply vin_alphabet_sub. }
  rewrite H16 in Hle. destruct (vin_by_construction enc Hencv Hle) as (c' & Hc' & Hc'v & Hok).
  rewrite Hc' in E1. injection E1 as <-. subst out. cbn [app] in *.
  assert (Henl : length enc = 16%nat) by (unfold zlen in Hle; lia).
  assert (Hol : length (take 8 enc ++ c' :: drop 8 enc) = 17%nat).
  { rewrite length_app, length_cons, length_take, length_drop. lia. }
  split_and!; [by rewrite Hol| |done|].
  { apply Forall_app. split; [by apply Forall_take|]. constructor; [done|by apply Forall_drop]. }
  rewrite vin_shape by (unfold zlen; lia). cbn [negb raise_if mbind result_bind].
  rewrite take_app_le, take_take by (rewrite length_take; lia). rewrite Nat.min_id.
  rewrite (drop_app_ge _ _ 9) by (rewrite length_take; lia). rewrite length_take.
  replace (9 - 8 `min` length enc)%nat with 1%nat by lia. cbn [drop].
  rewrite drop_0, take_drop, Hback. cbn [mbind result_bind].
  destruct (lookup_lt_is_Some_2 s 8) as [c Hc]; [lia|].
  pose proof (take_drop_middle s 8 c Hc) as Hsplit.
  assert (Ht8 : length (take 8 s) = 8%nat) by (rewrite length_take; lia).
  rewrite (vin_unique (take 8 s) c (drop 9 s)); cycle 1.
  - by rewrite Hsplit.
  - done.
  - rewrite length_drop. lia.
  - by rewrite Hsplit.
  - cbn [mbind result_bind]. rewrite take_app_length', drop_app_length' by done.
    cbn [app]. by rewrite Hsplit.
Qed.
End Vin.

(** ** Claims *)

Section Claims.
Context `{A : AesOps} {AL : AesLaws A} `{S : StdnumOps}.

(** The plain body transformation, in both directions. *)
Lemma pure_undo key charset tweak s fwd body :
  octets key tweak -> s <> [] ->
  _fpe_pure_value s key charset tweak false fwd None = Ok body ->
  length body = length s /\ Forall (fun c => c ∈ charset) body /\
  _fpe_pure_value body key charset tweak false (negb fwd) None = Ok s.
Proof.
  intros Hoct Hne. unfold _fpe_pure_value. rewrite bool_decide_eq_false_2 by done. cbn [andb].
  intros H. destruct (permute_undo _ _ _ _ _ _ Hoct H) as (Hl & _ & [|Hb] & Hu); [done|].
  assert (Hlen : length body = length s) by (unfold zlen in Hl; lia).
  split; [done|]. split; [done|].
  rewrite bool_decide_eq_false_2; [done|]. intros ->. by destruct s.
Qed.

(** C3: Format-preserving masking of a value is reversible and keeps its format,
    in plain mode: without Luhn digit and checksum scheme. If [fpe_encrypt_value] returns for a value, then [fpe_decrypt_value] on the
    output returns the value; the output has the same length, every character
    outside the charset stands where it stood, every character of the charset is
    replaced by one of the charset. The same holds with the two exchanged. *)
Theorem fpe_roundtrip val key charset tweak ps out :
  octets key tweak ->
  (fpe_encrypt_value val key charset tweak ps false None = Ok out ->
   fpe_decrypt_value out key charset tweak ps false None = Ok val /\ same_format charset val out) /\
  (fpe_decrypt_value val key charset tweak ps false None = Ok out ->
   fpe_encrypt_value out key charset tweak ps false None = Ok val /\ same_format charset val out).
Proof.
  intros Hoct. unfold fpe_encrypt_value, fpe_decrypt_value.
  split; intros H; pose proof (fpe_value_inv _ _ _ _ _ _ _ _ _ H) as (Hne & _);
    apply fpe_value_undo in H as (? & ? & _); try done; intros body Hb; by eapply pure_undo.
Qed.

(** When the masking of a value is defined, plain mode. *)
Record fpe_domain (val : pystr) (key : bytes) (charset : pystr) (tweak : bytes) (ps : bool) : Prop := {
  fd_body : List.filter (in_charset charset) val <> [];
  fd_all : ps = false -> Forall (fun c => c ∈ charset) val;
  fd_profile : profile (zlen (List.filter (in_charset charset) val)) key charset tweak;
}.

(** An error with one of the codes of a value or a profile that cannot be encrypted. *)
Definition coded_refusal (e : exn) : Prop :=
  exists code, code ∈ [FPE_UNENCRYPTABLE; FPE__UNENCRYPTABLE_DOMAIN; FPE__UNENCRYPTABLE_LENGTH] /\ e = FpeUnencryptableError code.

Ltac refusal := match goal with
  | H : Err _ = Err _ |- _ => injection H as <-; eexists; split; [|reflexivity]; by repeat constructor
  end.

Ltac refused_step := match goal with
  | |- (raise_if ?b _ ≫= _) = Err _ -> _ => destruct b eqn:?; cbn [raise_if mbind result_bind]; [intros H; refusal|]
  | |- raise_if ?b _ = Err _ -> _ => destruct b; cbn [raise_if]; [intros H; refusal|discriminate]
  end.

Lemma profile_refused n key charset tweak e : 1 <= n -> permute_profile n key charset tweak = Err e -> coded_refusal e.
Proof.
  intros Hn. unfold permute_profile, check_charset_ascii_printable. do 4 refused_step.
  destruct (min_domain_floor (zlen charset) n) as (L & -> & _); [bool_prop; unfold FF1_MIN_RADIX in *; lia|done|]. cbn [mbind result_bind].
  repeat refused_step.
Qed.

Lemma permute_refused s key charset tweak fwd e :
  octets key tweak -> Forall (fun c => c ∈ charset) s -> _permute s key charset tweak fwd = Err e -> coded_refusal e.
Proof.
  intros Hoct Hs H. destruct (permute_profile (zlen s) key charset tweak) as [[]|x] eqn:Ep; unfold _permute in H.
  - destruct (Z.eqb_spec (zlen s) 0) as [|Hz]; [discriminate|]. pose proof (zlen_nonneg s).
    apply permute_profile_spec in Ep; [|lia]. destruct (permute_ok s key charset tweak fwd Hoct Ep Hs) as (out & E & _).
    unfold _permute in E. rewrite (proj2 (Z.eqb_neq _ _) Hz) in E. congruence.
  - destruct (Z.eqb_spec (zlen s) 0) as [|Hz]; [discriminate|]. pose proof (zlen_nonneg s). rewrite Ep in H. cbn [mbind result_bind] in H.
    injection H as <-. eapply profile_refused; [|exact Ep]. lia.
Qed.

Lemma plain_refused val key charset tweak ps fwd e :
  octets key tweak -> _fpe_value val key charset tweak ps false None fwd = Err e -> coded_refusal e.
Proof.
  intros Hoct. unfold _fpe_value. destruct (bool_decide (val = [])); cbn [raise_if mbind result_bind]; [intros H; refusal|].
  assert (Hpure : forall s x, Forall (fun c => c ∈ charset) s -> _fpe_pure_value s key charset tweak false fwd None = Err x -> coded_refusal x).
  { intros s x Hs. unfold _fpe_pure_value. destruct (bool_decide (s = [])); [discriminate|]. by apply permute_refused. }
  destruct ps.
  - destruct (bool_decide _); cbn [raise_if mbind result_bind]; [intros H; refusal|].
    pose proof (positions_chars charset [] val) as Hch. cbn [length app] in Hch. rewrite Hch.
    destruct (_fpe_pure_value _ _ _ _ _ _ _) as [body|x] eqn:Eb; cbn [mbind result_bind].
    + destruct (negb _); cbn [raise_if mbind result_bind]; [intros H; refusal|discriminate].
    + intros [= <-]. eapply Hpure; [apply filter_charset|exact Eb].
  - destruct (forallb (in_charset charset) val) eqn:Ea; cbn [negb raise_if mbind result_bind]; [|intros H; refusal].
    apply Hpure. apply Forall_forall. intros c Hc. rewrite forallb_forall in Ea. specialize (Ea c Hc). unfold in_charset in Ea. by bool_prop.
Qed.

(** A value on the domain, a coded refusal elsewhere. *)
Definition total_on (domain : Prop) (r : result pystr) : Prop :=
  match r with Ok _ => domain | Err e => ~ domain /\ coded_refusal e end.

(** C24: Plain masking is total on its profile and fails closed elsewhere:
    encryption and decryption return a value if the value has a
    character of the charset (all of them, without separator preservation), the
    charset is 2..94 distinct printable characters, the key has 32 bytes, the
    tweak is within bounds, and [radix ** n] for the [n] charset characters
    reaches the domain floor. Otherwise they raise [FpeUnencryptableError] with one
    of its three codes, and nothing else. *)
Theorem fpe_defined_iff val key charset tweak ps :
  octets key tweak ->
  total_on (fpe_domain val key charset tweak ps) (fpe_encrypt_value val key charset tweak ps false None) /\
  total_on (fpe_domain val key charset tweak ps) (fpe_decrypt_value val key charset tweak ps false None).
Proof.
  intros Hoct. unfold fpe_encrypt_value, fpe_decrypt_value.
  enough (forall fwd, total_on (fpe_domain val key charset tweak ps) (_fpe_value val key charset tweak ps false None fwd)) as Hw by (split; apply Hw).
  intros fwd. destruct (_fpe_value _ _ _ _ _ _ _ _) as [out|e] eqn:H; cbn [total_on].
  - destruct (fpe_value_inv _ _ _ _ _ _ _ _ _ H) as (Hne & Hall & body & Hb & _).
    unfold _fpe_pure_value in Hb. rewrite bool_decide_eq_false_2 in Hb by done. cbn [andb] in Hb.
    destruct (permute_inv _ _ _ _ _ _ Hb Hne) as [Hpr _]. constructor; [done| |done].
    intros Hps. apply Forall_forall. intros c Hc. specialize (Hall Hps).
    rewrite forallb_forall in Hall. specialize (Hall c Hc). unfold in_charset in Hall. by bool_prop.
  - split; [|by eapply plain_refused]. intros [Hne Hall Hpr].
    destruct (permute_ok _ _ _ _ fwd Hoct Hpr (filter_charset charset val)) as (body & Hb & Hl & _).
    rewrite (fpe_value_intro _ _ _ _ _ _ val fwd body) in H; [done|done| | |unfold zlen in Hl; lia].
    + intros Hps. apply forallb_forall. intros c Hc. apply bool_decide_eq_true_2.
      specialize (Hall Hps). rewrite Forall_forall in Hall. by apply Hall.
    + unfold _fpe_pure_value. by rewrite bool_decide_eq_false_2.
Qed.

(** Each scheme of the required-charset table is a digit scheme or the VIN scheme. *)
Lemma required_cases scheme required :
  dict_get _SCHEME_REQUIRED_CHARSET scheme = Some required ->
  (exists k, pinned scheme = Some k /\ required = _DIGITS_ONLY) \/
  (scheme = "vin"%string /\ required = _VIN_CHARSET).
Proof.
  unfold pinned, dict_get, _SCHEME_REQUIRED_CHARSET. cbn [find fst].
  repeat match goal with |- context [String.eqb ?x scheme] =>
    destruct (String.eqb_spec x scheme) as [<-|] end; intros H; try discriminate H;
    injection H as <-; (by right) || (left; by eexists).
Qed.

Lemma checksum_undo `{SL : !StdnumLaws S} key charset tweak scheme required s out :
  octets key tweak -> dict_get _SCHEME_REQUIRED_CHARSET scheme = Some required ->
  Forall (fun c => c ∈ required) s ->
  _fpe_checksum_permute s key charset tweak scheme true = Ok out ->
  length out = length s /\ Forall (fun c => c ∈ required) out /\ validate scheme out = Ok true /\
  _fpe_checksum_permute out key charset tweak scheme false = Ok s.
Proof.
  intros Hoct Hreq Hs H. destruct (required_cases _ _ Hreq) as [(k & Hk & ->)|[-> ->]].
  - rewrite digits_only_all in Hs |- *. by eapply digit_scheme_undo.
  - by eapply vin_scheme_undo.
Qed.

(** With a checksum scheme, masking keeps values valid and is reversible.
    For each of the schemes Luhn, NPI, EAN-13, ISBN-13, GTIN and VIN: when the
    charset contains the scheme's required charset and the value's characters in
    the charset are characters of the scheme, a successful encryption gives an
    output of the same format whose charset characters pass the scheme's
    validation, and decryption returns the source value. *)
Theorem fpe_checksum_roundtrip `{SL : !StdnumLaws S} val key charset tweak ps vl scheme required out :
  octets key tweak -> dict_get _SCHEME_REQUIRED_CHARSET scheme = Some required ->
  Forall (fun c => c ∈ charset) required ->
  Forall (fun c => c ∈ required) (List.filter (in_charset charset) val) ->
  fpe_encrypt_value val key charset tweak ps vl (Some scheme) = Ok out ->
  fpe_decrypt_value out key charset tweak ps vl (Some scheme) = Ok val /\
  same_format charset val out /\
  validate scheme (List.filter (in_charset charset) out) = Ok true.
Proof.
  intros Hoct Hreq Hsub Hval H. unfold fpe_encrypt_value, fpe_decrypt_value in *.
  destruct (fpe_value_inv _ _ _ _ _ _ _ _ _ H) as (Hne & _).
  assert (Hpure : forall fwd s, s <> [] -> _fpe_pure_value s key charset tweak vl fwd (Some scheme) =
                                           _fpe_checksum_permute s key charset tweak scheme fwd).
  { intros fwd s Hs. unfold _fpe_pure_value. by rewrite bool_decide_eq_false_2. }
  apply fpe_value_undo in H as (Hback & Hfmt & Hb).
  - split; [done|]. split; [done|]. rewrite Hpure in Hb by done.
    by eapply checksum_undo.
  - intros body Hb. rewrite Hpure in Hb by done.
    destruct (checksum_undo _ _ _ _ _ _ _ Hoct Hreq Hval Hb) as (Hl & Hr & _ & Hu).
    split; [done|]. split.
    + rewrite Forall_forall in Hsub, Hr |- *. intros c Hc. by apply Hsub, list_elem_of_In, Hr.
    + rewrite Hpure; [done|]. intros ->. by destruct (List.filter _ val).
Qed.

(** The Luhn mode of [_fpe_pure_value] over the digits, in either direction: the
    body is permuted and its check digit recomputed. *)
Lemma luhn_mode_body key charset tweak fwd s c body :
  octets key tweak -> (forall d, d ∈ charset <-> ascii_digit d) -> s <> [] ->
  _fpe_pure_value (s ++ [c]) key charset tweak true fwd None = Ok body ->
  exists m, body = m ++ [48 + luhn_digit m] /\ length m = length s /\ Forall ascii_digit m /\
    _permute m key charset tweak (negb fwd) = Ok s.
Proof.
  intros Hoct Hcs Hne. unfold _fpe_pure_value. rewrite bool_decide_eq_false_2 by (by destruct s).
  assert (Hz : (2 <=? zlen (s ++ [c])) = true).
  { destruct s as [|x s]; [done|]. rewrite zlen_app, zlen_cons. change (zlen [c]) with 1.
    pose proof (zlen_nonneg s). lia. }
  rewrite Hz. cbn [andb]. unfold init. rewrite removelast_last. intros H. ok_step. ok_step. ok_step.
  rename a into m. destruct (permute_undo _ _ _ _ _ _ Hoct E) as (Hl & _ & [|Hm] & Hu); [done|].
  assert (Hmd : Forall ascii_digit m) by (revert Hm; apply Forall_impl; intros; by apply Hcs).
  change (_luhn_cd m = Ok a0) in E0. rewrite luhn_cd_ok in E0 by done. injection E0 as <-.
  exists m. split; [done|]. split; [unfold zlen in Hl; lia|]. done.
Qed.

Lemma luhn_mode_keep key charset tweak fwd s body :
  octets key tweak -> (forall d, d ∈ charset <-> ascii_digit d) -> 2 <= zlen s ->
  _fpe_pure_value s key charset tweak true fwd None = Ok body ->
  length body = length s /\ Forall (fun c => c ∈ charset) body.
Proof.
  intros Hoct Hcs Hl H. destruct (exists_last (l := s)) as (b & c & ->); [by intros ->|].
  assert (Hne : b <> []) by by intros ->.
  destruct (luhn_mode_body _ _ _ _ _ _ _ Hoct Hcs Hne H)
    as (m & -> & Hlm & Hm & _).
  split; [rewrite !length_app, Hlm; done|]. apply Forall_app. split.
  - revert Hm. apply Forall_impl. intros. by apply Hcs.
  - constructor; [|constructor]. apply Hcs. pose proof (luhn_digit_bound m). unfold ascii_digit. lia.
Qed.

(** Luhn mode ([validate_luhn]) over the digits: the output passes the Luhn
    check and keeps the format, and decryption returns the source value exactly
    when the source itself passes the Luhn check. *)
Theorem fpe_luhn_roundtrip_iff val key charset tweak ps out :
  octets key tweak -> (forall d, d ∈ charset <-> ascii_digit d) ->
  2 <= zlen (List.filter (in_charset charset) val) ->
  fpe_encrypt_value val key charset tweak ps true None = Ok out ->
  same_format charset val out /\
  luhn_checksum (List.filter (in_charset charset) out) = 0 /\
  (fpe_decrypt_value out key charset tweak ps true None = Ok val <->
   luhn_checksum (List.filter (in_charset charset) val) = 0).
Proof.
  intros Hoct Hcs Hl H. unfold fpe_encrypt_value, fpe_decrypt_value in *.
  destruct (fpe_value_body _ _ _ _ _ _ _ _ _ (fun b => luhn_mode_keep _ _ _ _ _ b Hoct Hcs Hl) H)
    as (Hb & Hfmt & _).
  assert (Hdig : Forall ascii_digit (List.filter (in_charset charset) val)).
  { pose proof (filter_charset charset val) as Hf. revert Hf. apply Forall_impl. intros. by apply Hcs. }
  destruct (exists_last (l := List.filter (in_charset charset) val)) as (s & c & Hs);
    [intros He; by rewrite He in Hl|].
  assert (Hne : s <> []) by (intros ->; rewrite Hs in Hl; done).
  rewrite Hs in Hb, Hl, Hdig |- *. apply Forall_app in Hdig as [Hsd [Hcd _]%Forall_cons_iff].
  destruct (luhn_mode_body _ _ _ _ _ _ _ Hoct Hcs Hne Hb) as (m & Hout & Hlm & Hm & Hu).
  pose proof (luhn_digit_bound m).
  assert (Hmne : m <> []) by (intros ->; by destruct s).
  split; [done|]. split; [rewrite Hout; apply luhn_digit_spec; [unfold ascii_digit; lia|done]|].
  assert (Hl2 : 2 <= zlen (List.filter (in_charset charset) out)).
  { revert Hl. rewrite Hout. unfold zlen. rewrite !length_app, Hlm. done. }
  rewrite <- luhn_digit_spec by done. split.
  - intros Hd. destruct (fpe_value_body _ _ _ _ _ _ _ _ _ (fun b => luhn_mode_keep _ _ _ _ _ b Hoct Hcs Hl2) Hd)
      as (Hb' & _). rewrite Hout, Hs in Hb'.
    destruct (luhn_mode_body _ _ _ _ _ _ _ Hoct Hcs Hmne Hb') as (s' & Hs' & _ & _ & Hu').
    apply app_inj_tail in Hs' as [-> ->]. done.
  - intros Hc. apply (fpe_value_undo key charset tweak ps true None val true out); [|done].
    intros body Hbody. cbn [negb] in *. rewrite Hs in Hbody |- *.
    rewrite Hb in Hbody. injection Hbody as <-.
    destruct (luhn_mode_keep _ _ _ _ _ _ Hoct Hcs Hl Hb) as [Hk1 Hk2]. split; [done|]. split; [done|].
    rewrite Hout. unfold _fpe_pure_value. rewrite bool_decide_eq_false_2 by (by destruct m).
    rewrite <- Hout. apply Z.leb_le in Hl2. rewrite Hl2. cbn [andb]. rewrite Hout.
    unfold init. rewrite removelast_last, Hu. cbn [mbind result_bind].
    change (_luhn_check_digit s) with (_luhn_cd s). rewrite luhn_cd_ok by done. cbn [mbind result_bind].
    by rewrite Hc.
Qed.

(** The FF1 tweak separates scopes and identities: the frame has at most
    [FF1_MAX_TWEAK_LEN] octets, and two identities, or the same identity in two
    scopes, never share a tweak. *)
Theorem ff1_tweak_injective scope scope' identity identity' tweak :
  Forall code_point identity -> Forall code_point identity' ->
  build_ff1_tweak scope identity = Ok tweak -> build_ff1_tweak scope' identity' = Ok tweak ->
  scope = scope' /\ identity = identity' /\ zlen tweak <= FF1_MAX_TWEAK_LEN /\ Forall is_byte tweak.
Proof.
  intros Hi Hi' H H'. unfold build_ff1_tweak in *.
  ok_inv. bool_prop. injection H' as -> Hrest.
  apply to_bytes_inv in E0 as (_ & Hl0 & _), E2 as (_ & Hl2 & Hb2 & _); [|lia..].
  apply app_inj_1 in Hrest as [_ ->]; [|unfold zlen in *; lia].
  split; [done|]. split; [by eapply utf8_encode_inj|]. cbn [app] in *. split; [lia|].
  pose proof (utf8_encode_bytes _ _ Hi E1). unfold is_byte, in_radix, FF1_TWEAK_VERSION in *.
  repeat (apply Forall_cons; [lia|]). by apply Forall_app.
Qed.
End Claims.

(** ** Witnesses *)

Definition sample_tweak : bytes := [1; 1; 0; 3; 115; 115; 110].

Lemma sample_octets : octets sample_key sample_tweak.
Proof. split; apply (bool_decide_eq_true_1 (Forall (fun b => 0 <= b < 256) _)); vm_compute; reflexivity. Qed.

Lemma fpe_roundtrip_witness :
  exists out, @fpe_encrypt_value toy_aes ref_stdnum (py "123-45-6789") sample_key (py "0123456789")
                sample_tweak true false None = Ok out /\
    @fpe_decrypt_value toy_aes ref_stdnum out sample_key (py "0123456789") sample_tweak true false None
      = Ok (py "123-45-6789").
Proof.
  eexists. split; [vm_compute; reflexivity|].
  refine (proj1 (proj1 (@fpe_roundtrip toy_aes toy_aes_laws ref_stdnum (py "123-45-6789") sample_key
           (py "0123456789") sample_tweak true _ sample_octets) _)). vm_compute. reflexivity.
Defined.

Lemma fpe_defined_iff_witness :
  fpe_domain (py "123-45-6789") sample_key (py "0123456789") sample_tweak true /\
  ~ fpe_domain (py "1-2") sample_key (py "0123456789") sample_tweak true /\
  exists e, @fpe_encrypt_value toy_aes ref_stdnum (py "1-2") sample_key (py "0123456789") sample_tweak true false None = Err e /\ coded_refusal e.
Proof.
  pose proof (proj1 (@fpe_defined_iff toy_aes toy_aes_laws ref_stdnum (py "123-45-6789") _ (py "0123456789") _ true sample_octets)) as H1.
  pose proof (proj1 (@fpe_defined_iff toy_aes toy_aes_laws ref_stdnum (py "1-2") _ (py "0123456789") _ true sample_octets)) as H2.
  assert (E1 : is_ok (@fpe_encrypt_value toy_aes ref_stdnum (py "123-45-6789") sample_key (py "0123456789") sample_tweak true false None) = true) by (vm_compute; reflexivity).
  assert (E2 : is_ok (@fpe_encrypt_value toy_aes ref_stdnum (py "1-2") sample_key (py "0123456789") sample_tweak true false None) = false) by (vm_compute; reflexivity).
  destruct (fpe_encrypt_value (py "123-45-6789") _ _ _ _ _ _) as [c|]; [|discriminate E1].
  destruct (fpe_encrypt_value (py "1-2") _ _ _ _ _ _) as [|e]; [discriminate E2|].
  split; [exact H1|]. split; [exact (proj1 H2)|]. exists e. split; [reflexivity|exact (proj2 H2)].
Defined.

Lemma fpe_checksum_roundtrip_witness :
  exists out, @fpe_encrypt_value toy_aes ref_stdnum (py "1M8GDM9AXKP042788") sample_key (default [] (snd <$> list.last _CHARSETS))
                sample_tweak true false (Some "vin"%string) = Ok out /\
    @validate ref_stdnum "vin" (List.filter (in_charset (default [] (snd <$> list.last _CHARSETS))) out) = Ok true.
Proof.
  eexists. split; [vm_compute; reflexivity|].
  refine (proj2 (proj2 (@fpe_checksum_roundtrip toy_aes toy_aes_laws ref_stdnum ref_stdnum_laws
    (py "1M8GDM9AXKP042788") sample_key (default [] (snd <$> list.last _CHARSETS)) sample_tweak true false
    "vin" _VIN_CHARSET _ sample_octets eq_refl _ _ _)));
    [by_decide|by_decide|vm_compute; reflexivity].
Defined.

Lemma fpe_luhn_roundtrip_iff_witness :
  exists out, @fpe_encrypt_value toy_aes ref_stdnum (py "4539-1488-0343-6467") sample_key (py "0123456789")
                sample_tweak true true None = Ok out /\
    @fpe_decrypt_value toy_aes ref_stdnum out sample_key (py "0123456789") sample_tweak true true None
      = Ok (py "4539-1488-0343-6467").
Proof.
  eexists. split; [vm_compute; reflexivity|].
  refine (proj2 (proj2 (proj2 (@fpe_luhn_roundtrip_iff toy_aes toy_aes_laws ref_stdnum
    (py "4539-1488-0343-6467") sample_key (py "0123456789") sample_tweak true _ sample_octets
    digits_only_iff _ _))) _); vm_compute; (reflexivity || discriminate).
Defined.

Lemma ff1_tweak_injective_witness :
  exists tweak, build_ff1_tweak FF1_TWEAK_SCOPE_COLUMN (py "people.ssn") = Ok tweak /\
    zlen tweak <= FF1_MAX_TWEAK_LEN.
Proof.
  eexists. split; [vm_compute; reflexivity|].
  refine (proj1 (proj2 (proj2 (ff1_tweak_injective FF1_TWEAK_SCOPE_COLUMN FF1_TWEAK_SCOPE_COLUMN
    (py "people.ssn") (py "people.ssn") _ _ _ _ _))));
    [by_decide|by_decide|vm_compute; reflexivity|vm_compute; reflexivity].
Defined.

(** ** Boundary behaviour *)

(** The NPI pattern's end anchor accepts a final newline, and its digit class
    accepts every Unicode decimal digit. *)
Lemma npi_accepts_newline :
  _npi_validate (py "1234567893" ++ [10]) = Ok true /\
  _npi_validate (py "1" ++ [1634] ++ py "34567893") = Ok true.
Proof. split; vm_compute; reflexivity. Qed.

(** The VIN validation upper-cases its input, so a VIN with a lower-case check
    character is a valid source, but decryption recomputes the upper-case one. *)
Lemma vin_lowercase_check_not_restored :
  let charset := default [] (snd <$> list.last _CHARSETS) in
  exists out,
    @validate ref_stdnum "vin" (py "1M8GDM9AxKP042788") = Ok true /\
    @fpe_encrypt_value toy_aes ref_stdnum (py "1M8GDM9AxKP042788") sample_key charset
      sample_tweak true false (Some "vin"%string) = Ok out /\
    @fpe_decrypt_value toy_aes ref_stdnum out sample_key charset sample_tweak true false
      (Some "vin"%string) = Ok (py "1M8GDM9AXKP042788").
Proof.
  eexists. split; [vm_compute; reflexivity|]. split; [vm_compute; reflexivity|].
  vm_compute. reflexivity.
Qed.

(** The IBAN scheme is known to the registry but refused by the masking. *)
Lemma fpe_iban_refused `{A : AesOps} `{S : StdnumOps} s key charset tweak fwd :
  _fpe_checksum_permute s key charset tweak "iban" fwd = Err (FpeChecksumError FPE_CHECKSUM_UNSUPPORTED).
Proof. reflexivity. Qed.
