(* ===== verification/PyData.v ===== *)
(** * Ordering, ordered dictionaries and configuration values

    What the planner uses of Python's data model: the total order of strings and
    tuples, [sorted], the [heapq] operations, insertion-ordered dictionaries, and
    the values a parsed configuration document is made of. *)

From S2P Require Import Prelude PyText.

(** ** The order of strings and tuples *)

Class PyOrd (A : Type) := py_cmp : A -> A -> comparison.

Class PyOrdLaws (A : Type) `{PyOrd A} : Prop := {
  py_cmp_eq x y : py_cmp x y = Eq <-> x = y;
  py_cmp_sym x y : py_cmp y x = CompOpp (py_cmp x y);
  py_cmp_trans x y z : py_cmp x y = Lt -> py_cmp y z = Lt -> py_cmp x z = Lt;
}.

#[global] Instance Z_ord : PyOrd Z := Z.compare.

(** Sequences compare lexicographically: strings by code point, tuples by item. *)
#[global] Instance list_ord {A} `{PyOrd A} : PyOrd (list A) :=
  fix go l k :=
    match l, k with
    | [], [] => Eq
    | [], _ :: _ => Lt
    | _ :: _, [] => Gt
    | x :: l', y :: k' => match py_cmp x y with Eq => go l' k' | c => c end
    end.

#[global] Instance prod_ord {A B} `{PyOrd A} `{PyOrd B} : PyOrd (A * B) := fun p q =>
  match py_cmp p.1 q.1 with Eq => py_cmp p.2 q.2 | c => c end.

Definition py_leb {A} `{PyOrd A} (x y : A) : bool :=
  match py_cmp x y with Gt => false | _ => true end.

(** [sorted(l, key=key)]: a stable insertion sort. *)
Fixpoint insert_by {A K} `{PyOrd K} (key : A -> K) (x : A) (l : list A) : list A :=
  match l with
  | [] => [x]
  | y :: l' => if py_leb (key x) (key y) then x :: y :: l' else y :: insert_by key x l'
  end.

Definition sorted_by {A K} `{PyOrd K} (key : A -> K) (l : list A) : list A :=
  foldr (insert_by key) [] l.

Definition sorted {A} `{PyOrd A} (l : list A) : list A := sorted_by id l.

(** [heapq] on a list used as a priority queue: only the multiset is observable,
    so the heap is kept as its sorted list. *)
Definition heapify {A} `{PyOrd A} (l : list A) : list A := sorted l.
Definition heappush {A} `{PyOrd A} (q : list A) (x : A) : list A := insert_by id x q.
Definition heappop {A} `{PyOrd A} (q : list A) : option (A * list A) :=
  match q with [] => None | x :: q' => Some (x, q') end.

(** ** Insertion-ordered dictionaries *)

Definition odict (K V : Type) := list (K * V).

Section Odict.
Context {K V : Type} `{EqDecision K}.

Fixpoint od_get (d : odict K V) (k : K) : option V :=
  match d with
  | [] => None
  | (k', v) :: d' => if bool_decide (k' = k) then Some v else od_get d' k
  end.

(** [d[k] = v]: an existing key keeps its place. *)
Fixpoint od_set (d : odict K V) (k : K) (v : V) : odict K V :=
  match d with
  | [] => [(k, v)]
  | (k', v') :: d' => if bool_decide (k' = k) then (k, v) :: d' else (k', v') :: od_set d' k v
  end.

(** [d.pop(k, None)] *)
Fixpoint od_del (d : odict K V) (k : K) : odict K V :=
  match d with
  | [] => []
  | (k', v) :: d' => if bool_decide (k' = k) then od_del d' k else (k', v) :: od_del d' k
  end.

(** [dict(pairs)] *)
Definition od_of (l : list (K * V)) : odict K V := fold_left (fun d kv => od_set d kv.1 kv.2) l [].

Definition od_has (d : odict K V) (k : K) : bool := bool_decide (is_Some (od_get d k)).
Definition od_keys (d : odict K V) : list K := fst <$> d.
End Odict.

(** [d[k].append(v)] of a [defaultdict(list)]. *)
Definition od_push {K V} `{EqDecision K} (d : odict K (list V)) (k : K) (v : V) : odict K (list V) :=
  od_set d k (default [] (od_get d k) ++ [v]).

(** [dict.fromkeys(l)] as the list of its keys: the first occurrence of each. *)
Fixpoint fromkeys_from {A} `{EqDecision A} (seen l : list A) : list A :=
  match l with
  | [] => []
  | x :: l' => if bool_decide (x ∈ seen) then fromkeys_from seen l' else x :: fromkeys_from (x :: seen) l'
  end.
Definition fromkeys {A} `{EqDecision A} (l : list A) : list A := fromkeys_from [] l.

(** ** Configuration values *)

(** A value of a parsed configuration document; [POther] stands for any other
    scalar (floats, dates) and carries its truth value. *)
Inductive pyval :=
| PNone
| PBool (b : bool)
| PInt (n : Z)
| PStr (s : pystr)
| PList (l : list pyval)
| PDict (d : list (pystr * pyval))
| POther (truth : bool).

(** [bool(v)] *)
Definition truthy (v : pyval) : bool :=
  match v with
  | PNone => false
  | PBool b => b
  | PInt n => negb (n =? 0)
  | PStr s => negb (bool_decide (s = []))
  | PList l => match l with [] => false | _ => true end
  | PDict d => match d with [] => false | _ => true end
  | POther b => b
  end.

(** [d.get(k, dflt)] *)
Definition dget (d : list (pystr * pyval)) (k : string) (dflt : pyval) : pyval :=
  default dflt (od_get d (py k)).

(** [for x in v] *)
Definition py_iter (v : pyval) : result (list pyval) :=
  match v with
  | PList l => Ok l
  | PStr s => Ok ((fun c => PStr [c]) <$> s)
  | PDict d => Ok ((fun kv => PStr kv.1) <$> d)
  | _ => Err (exc "TypeError")
  end.

(** [v or []] *)
Definition or_empty (v : pyval) : pyval := if truthy v then v else PList [].

(** [isinstance(v, list) and all(isinstance(c, str) for c in v)], with the strings. *)
Fixpoint all_strs (l : list pyval) : option (list pystr) :=
  match l with
  | [] => Some []
  | PStr s :: l' => cons s <$> all_strs l'
  | _ :: _ => None
  end.
Definition str_list (v : pyval) : option (list pystr) :=
  match v with PList l => all_strs l | _ => None end.

Definition as_str (v : pyval) : option pystr := match v with PStr s => Some s | _ => None end.
Definition as_dict (v : pyval) : option (list (pystr * pyval)) :=
  match v with PDict d => Some d | _ => None end.
Definition as_list (v : pyval) : option (list pyval) := match v with PList l => Some l | _ => None end.

(** ** Laws of the order *)

#[global] Instance Z_ord_laws : PyOrdLaws Z.
Proof.
  constructor; unfold py_cmp, Z_ord.
  - apply Z.compare_eq_iff.
  - intros. apply Z.compare_antisym.
  - intros x y z. rewrite !Z.compare_lt_iff. lia.
Qed.

Section OrdLemmas.
Context {A : Type} `{PyOrdLaws A}.

Lemma py_cmp_refl (x : A) : py_cmp x x = Eq.
Proof. by apply py_cmp_eq. Qed.

Lemma py_leb_false x y : py_leb x y = false -> py_cmp y x = Lt.
Proof. unfold py_leb. rewrite (py_cmp_sym x y). by destruct (py_cmp x y). Qed.

Lemma py_leb_refl x : py_leb x x = true.
Proof. unfold py_leb. by rewrite py_cmp_refl. Qed.

Lemma py_leb_cases x y : py_leb x y = true <-> x = y \/ py_cmp x y = Lt.
Proof.
  unfold py_leb. rewrite <- py_cmp_eq. destruct (py_cmp x y); intuition discriminate.
Qed.

Lemma py_leb_trans x y z : py_leb x y = true -> py_leb y z = true -> py_leb x z = true.
Proof.
  rewrite !py_leb_cases. intros [->|H1] [->|H2]; auto. right. by eapply py_cmp_trans.
Qed.

Lemma py_leb_antisym x y : py_leb x y = true -> py_leb y x = true -> x = y.
Proof.
  rewrite !py_leb_cases. intros [->|H1] [H2|H2]; auto.
  rewrite (py_cmp_sym x y), H1 in H2. discriminate.
Qed.

Lemma py_leb_total x y : py_leb x y = true \/ py_leb y x = true.
Proof. unfold py_leb. rewrite (py_cmp_sym x y). destruct (py_cmp x y); auto. Qed.

#[global] Instance list_ord_laws : PyOrdLaws (list A).
Proof.
  constructor.
  - intros x. induction x as [|a x IH]; intros [|b y]; cbn; try done.
    destruct (py_cmp a b) eqn:E.
    + apply py_cmp_eq in E as ->. fold (list_ord (A := A) x y).
      change (py_cmp x y = Eq <-> b :: x = b :: y). rewrite IH. split; congruence.
    + split; [discriminate|]. intros [= -> _]. by rewrite py_cmp_refl in E.
    + split; [discriminate|]. intros [= -> _]. by rewrite py_cmp_refl in E.
  - intros x. induction x as [|a x IH]; intros [|b y]; cbn; try done.
    rewrite (py_cmp_sym a b). destruct (py_cmp a b); cbn; (done || apply (IH y)).
  - intros x. induction x as [|a x IH]; intros [|b y] [|c z]; cbn; try done.
    destruct (py_cmp a b) eqn:Eab; try discriminate.
    + apply py_cmp_eq in Eab as ->. destruct (py_cmp b c); try done. apply (IH y z).
    + intros _. destruct (py_cmp b c) eqn:Ebc; try discriminate.
      * apply py_cmp_eq in Ebc as ->. by rewrite Eab.
      * by rewrite (py_cmp_trans _ _ _ Eab Ebc).
Qed.

Lemma prod_cmp {B} `{PyOrd B} (a c : A) (b d : B) :
  py_cmp (a, b) (c, d) = match py_cmp a c with Eq => py_cmp b d | o => o end.
Proof. reflexivity. Qed.

#[global] Instance prod_ord_laws {B} `{PyOrdLaws B} : PyOrdLaws (A * B).
Proof.
  constructor.
  - intros [a b] [c d]. rewrite prod_cmp. destruct (py_cmp a c) eqn:E.
    + apply py_cmp_eq in E as ->. rewrite py_cmp_eq. split; congruence.
    + split; [discriminate|]. intros [= -> _]. by rewrite py_cmp_refl in E.
    + split; [discriminate|]. intros [= -> _]. by rewrite py_cmp_refl in E.
  - intros [a b] [c d]. rewrite !prod_cmp, (py_cmp_sym a c).
    destruct (py_cmp a c); (done || apply py_cmp_sym).
  - intros [a b] [c d] [e f]. rewrite !prod_cmp.
    destruct (py_cmp a c) eqn:Eac; try discriminate.
    + apply py_cmp_eq in Eac as ->. destruct (py_cmp c e); (done || apply py_cmp_trans).
    + intros _. destruct (py_cmp c e) eqn:Ece; try discriminate.
      * apply py_cmp_eq in Ece as ->. by rewrite Eac.
      * by rewrite (py_cmp_trans _ _ _ Eac Ece).
Qed.
End OrdLemmas.

(** ** Sorting *)

(** A list sorted by a key: each element's key is at most every later one's. *)
Definition Sorted_by {A K} `{PyOrd K} (key : A -> K) (l : list A) : Prop :=
  StronglySorted (fun x y => py_leb (key x) (key y) = true) l.

Section SortLemmas.
Context {A K : Type} `{PyOrdLaws K} (key : A -> K).

Lemma insert_by_perm x l : insert_by key x l ≡ₚ x :: l.
Proof.
  induction l as [|y l IH]; cbn; [done|]. destruct (py_leb _ _); [done|]. rewrite IH. constructor.
Qed.

Lemma sorted_by_perm l : sorted_by key l ≡ₚ l.
Proof. induction l as [|x l IH]; cbn; [done|]. by rewrite insert_by_perm, IH. Qed.

Lemma insert_by_sorted x l : Sorted_by key l -> Sorted_by key (insert_by key x l).
Proof.
  unfold Sorted_by. induction 1 as [|y l Hs IH Hy]; cbn; [repeat constructor|].
  destruct (py_leb (key x) (key y)) eqn:E.
  - constructor; [by constructor|]. constructor; [done|].
    revert Hy. apply Forall_impl. intros z. by apply py_leb_trans.
  - constructor; [done|]. rewrite insert_by_perm. constructor; [|done].
    apply py_leb_false in E. apply py_leb_cases. by right.
Qed.

Lemma sorted_by_sorted l : Sorted_by key (sorted_by key l).
Proof. induction l; cbn; [constructor|]. by apply insert_by_sorted. Qed.

Lemma elem_of_sorted_by x l : x ∈ sorted_by key l <-> x ∈ l.
Proof. by rewrite sorted_by_perm. Qed.

(** Two sorted permutations of a list whose elements have distinct keys are equal. *)
Lemma Sorted_by_unique l k :
  (forall x y, x ∈ l -> y ∈ l -> key x = key y -> x = y) ->
  Sorted_by key l -> Sorted_by key k -> l ≡ₚ k -> l = k.
Proof.
  intros Hinj Hl. revert k. induction Hl as [|x l Hl IH Hx]; intros k Hk Hp.
  - by apply Permutation_nil_l in Hp as ->.
  - destruct k as [|y k]; [by apply Permutation_nil_r in Hp|].
    inversion Hk as [|? ? Hk' Hy]; subst.
    assert (x = y) as ->.
    { apply Hinj; [left|rewrite Hp; left|]. apply py_leb_antisym.
      - assert (Hin : y ∈ x :: l) by (rewrite Hp; left).
        apply elem_of_cons in Hin as [->|Hin]; [apply py_leb_refl|].
        by apply (proj1 (list.Forall_forall _ _) Hx).
      - assert (Hin : x ∈ y :: k) by (rewrite <- Hp; left).
        apply elem_of_cons in Hin as [->|Hin]; [apply py_leb_refl|].
        by apply (proj1 (list.Forall_forall _ _) Hy). }
    f_equal. apply IH; [|done|by apply Permutation_cons_inv in Hp].
    intros a b Ha Hb. apply Hinj; by right.
Qed.

Lemma sorted_by_perm_eq l k :
  (forall x y, x ∈ l -> y ∈ l -> key x = key y -> x = y) -> l ≡ₚ k -> sorted_by key l = sorted_by key k.
Proof.
  intros Hinj Hp. apply Sorted_by_unique; [|apply sorted_by_sorted..|by rewrite !sorted_by_perm].
  intros x y. rewrite !elem_of_sorted_by. apply Hinj.
Qed.
End SortLemmas.

Lemma sorted_perm {A} `{PyOrdLaws A} (l : list A) : sorted l ≡ₚ l.
Proof. apply sorted_by_perm. Qed.

Lemma elem_of_sorted {A} `{PyOrdLaws A} (x : A) l : x ∈ sorted l <-> x ∈ l.
Proof. apply elem_of_sorted_by. Qed.

Lemma heappush_perm {A} `{PyOrdLaws A} (q : list A) x : heappush q x ≡ₚ x :: q.
Proof. apply insert_by_perm. Qed.

(** [heapify], [heappush] and [heappop] keep the queue sorted; a pop is a minimum. *)
Lemma heapify_sorted {A} `{PyOrdLaws A} (l : list A) : Sorted_by id (heapify l).
Proof. apply sorted_by_sorted. Qed.

Lemma heappush_sorted {A} `{PyOrdLaws A} (q : list A) x : Sorted_by id q -> Sorted_by id (heappush q x).
Proof. apply insert_by_sorted. Qed.

(** ** Ordered dictionaries *)

Section OdictLemmas.
Context {K V : Type} `{EqDecision K}.
Implicit Types d : odict K V.

Lemma od_get_set d k k' v :
  od_get (od_set d k v) k' = if bool_decide (k = k') then Some v else od_get d k'.
Proof.
  induction d as [|[k1 v1] d IH]; cbn; [done|].
  repeat (case_bool_decide; subst; cbn; try rewrite IH); done || congruence.
Qed.

Lemma od_get_set_eq d k v : od_get (od_set d k v) k = Some v.
Proof. rewrite od_get_set. by rewrite bool_decide_eq_true_2. Qed.

Lemma od_get_set_ne d k k' v : k <> k' -> od_get (od_set d k v) k' = od_get d k'.
Proof. intros. rewrite od_get_set. by rewrite bool_decide_eq_false_2. Qed.

Lemma od_get_elem d k v : od_get d k = Some v -> (k, v) ∈ d.
Proof.
  induction d as [|[k1 v1] d IH]; cbn; [done|]. case_bool_decide; subst.
  - intros [= ->]. left.
  - intros. right. auto.
Qed.

Lemma od_get_none d k : od_get d k = None <-> k ∉ od_keys d.
Proof.
  unfold od_keys. induction d as [|[k1 v1] d IH]; cbn; [split; [intros _; apply not_elem_of_nil|done]|].
  rewrite not_elem_of_cons, <- IH. case_bool_decide; split; [done|intros [? _]; congruence| |]; intuition congruence.
Qed.

Lemma od_get_unique d k v : NoDup (od_keys d) -> (k, v) ∈ d -> od_get d k = Some v.
Proof.
  unfold od_keys. induction d as [|[k1 v1] d IH]; cbn; [by intros _ ?%elem_of_nil|].
  rewrite list.NoDup_cons. intros [Hk Hd] [[= -> ->]|Hin]%elem_of_cons.
  - by rewrite bool_decide_eq_true_2.
  - rewrite bool_decide_eq_false_2; [by apply IH|]. intros ->. apply Hk.
    apply list_elem_of_fmap. by exists (k, v).
Qed.

Lemma od_keys_set d k v :
  od_keys (od_set d k v) = if od_has d k then od_keys d else od_keys d ++ [k].
Proof.
  unfold od_has, od_keys. induction d as [|[k1 v1] d IH]; cbn; [done|].
  destruct (decide (k1 = k)) as [->|Hne].
  - rewrite bool_decide_eq_true_2 by done. by rewrite (bool_decide_eq_true_2 (is_Some _)).
  - rewrite bool_decide_eq_false_2 by done. cbn. rewrite IH. by case_bool_decide.
Qed.

Lemma od_set_new d k v : k ∉ od_keys d -> od_set d k v = d ++ [(k, v)].
Proof.
  unfold od_keys. induction d as [|[k' v'] d IH]; [done|]. cbn. intros Hk. rewrite bool_decide_eq_false_2 by set_solver.
  rewrite IH by set_solver. done.
Qed.

Lemma od_of_distinct d : NoDup (od_keys d) -> od_of d = d.
Proof.
  unfold od_of, od_keys. intros Hd. enough (H : forall acc : odict K V, NoDup (acc ++ d).*1 -> fold_left (fun d kv => od_set d kv.1 kv.2) d acc = acc ++ d)
    by (by apply (H [])).
  clear Hd. induction d as [|[k v] d IH]; intros acc H0; cbn [fold_left]; [by rewrite app_nil_r|]. rewrite od_set_new.
  - rewrite IH; rewrite <- app_assoc; done.
  - unfold od_keys. intros Hk. rewrite fmap_app in H0. apply list.NoDup_app in H0 as (_ & H0 & _). apply (H0 _ Hk). by left.
Qed.

Lemma od_set_nodup d k v : NoDup (od_keys d) -> NoDup (od_keys (od_set d k v)).
Proof.
  intros Hd. rewrite od_keys_set. unfold od_has. case_bool_decide as Hs; [done|].
  apply list.NoDup_app. split; [done|]. split; [|apply NoDup_singleton].
  intros x Hx ->%list_elem_of_singleton. apply eq_None_not_Some in Hs. by apply od_get_none in Hs.
Qed.
End OdictLemmas.

Lemma fromkeys_from_spec {A} `{EqDecision A} (seen l : list A) :
  NoDup (fromkeys_from seen l) /\ forall x, x ∈ fromkeys_from seen l <-> x ∈ l /\ x ∉ seen.
Proof.
  revert seen. induction l as [|y l IH]; intros seen; cbn.
  - split; [constructor|]. intros x. rewrite elem_of_nil. tauto.
  - case_bool_decide as Hy.
    + destruct (IH seen) as [H1 H2]. split; [done|]. intros x. rewrite H2, elem_of_cons.
      split; [tauto|]. intros [[->|?] ?]; tauto.
    + destruct (IH (y :: seen)) as [H1 H2]. split.
      * apply list.NoDup_cons. split; [|done]. rewrite H2, not_elem_of_cons. tauto.
      * intros x. rewrite !elem_of_cons, H2, not_elem_of_cons. destruct (decide (x = y)) as [->|]; tauto.
Qed.

Lemma fromkeys_nodup {A} `{EqDecision A} (l : list A) : NoDup (fromkeys l).
Proof. apply fromkeys_from_spec. Qed.

Lemma elem_of_fromkeys {A} `{EqDecision A} (x : A) l : x ∈ fromkeys l <-> x ∈ l.
Proof. unfold fromkeys. rewrite (proj2 (fromkeys_from_spec [] l)). pose proof (not_elem_of_nil x). tauto. Qed.
