(* ===== verification/Namespace.v ===== *)
(** * Namespace registry (relationships/_namespace.py)

    Resolves which masking namespace each column (or composite column tuple)
    belongs to, from the configuration's explicit declarations, the foreign-key
    relationships of the profile, composite groups and deterministic columns.
    Table, column and namespace names are strings: a configuration that puts
    another value in a name position is outside the model. *)

From S2P Require Import Prelude PyText PyData.

(** ** Data *)

(** [(table, columns)]: a column, or a composite tuple of columns, of a table. *)
Abbreviation colkey := (pystr * list pystr)%type.

(** [decoy_engine.profile._types.Relationship] *)
Record Relationship := MkRelationship {
  rel_parent_table : pystr;
  rel_parent_columns : list pystr;
  rel_child_table : pystr;
  rel_child_columns : list pystr;
  rel_namespace : option pystr;
}.

(** [Relationship.__post_init__]: the column tuples are non-empty and of equal length. *)
Definition new_relationship (pt : pystr) (pc : list pystr) (ct : pystr) (cc : list pystr)
  (ns : option pystr) : result Relationship :=
  _ ← raise_if ((zlen pc =? 0) || (zlen cc =? 0)) (exc "ValueError");
  _ ← raise_if (negb (zlen pc =? zlen cc)) (exc "ValueError");
  Ok (MkRelationship pt pc ct cc ns).

Definition parent_key (r : Relationship) : colkey := (rel_parent_table r, rel_parent_columns r).
Definition child_key (r : Relationship) : colkey := (rel_child_table r, rel_child_columns r).

Definition NamespaceConfigError (code : string) : exn := Exn "NamespaceConfigError" code.
Definition NAMESPACE_AMBIGUITY : string := "namespace_ambiguity".
Definition NAMESPACE_MISSING : string := "namespace_missing".

Record NamespaceBinding := MkBinding {
  nb_namespace : pystr;
  nb_declared_by : list colkey;
}.

Record NamespaceRegistry := MkRegistry {
  bindings : list NamespaceBinding;
  _index : gmap colkey pystr;
}.

(** [NamespaceRegistry(bindings=...)]: [__post_init__] builds the reverse index by a
    comprehension over the bindings, a later binding overriding an earlier one. *)
Definition new_registry (bs : list NamespaceBinding) : NamespaceRegistry :=
  MkRegistry bs
    (fold_left (fun m p => <[p.1 := p.2]> m)
       (bs ≫= fun b => (fun bound => (bound, nb_namespace b)) <$> nb_declared_by b) ∅).

Definition for_column (reg : NamespaceRegistry) (key : colkey) : option pystr := _index reg !! key.

Definition for_relationship (reg : NamespaceRegistry) (r : Relationship) : result pystr :=
  match rel_namespace r with
  | Some ns => Ok ns
  | None =>
      match for_column reg (parent_key r) with
      | Some ns => Ok ns
      | None =>
          match for_column reg (child_key r) with
          | Some ns => Ok ns
          | None => Err (NamespaceConfigError NAMESPACE_MISSING)
          end
      end
  end.

Definition members (reg : NamespaceRegistry) (ns : pystr) : list colkey :=
  default [] (nb_declared_by <$> find (fun b => bool_decide (nb_namespace b = ns)) (bindings reg)).

Definition declared (reg : NamespaceRegistry) : gset pystr :=
  list_to_set (nb_namespace <$> bindings reg).

(** ** Building the registry *)

(** The two dictionaries the build threads through its steps. *)
Record NsState := MkNs {
  column_owner : gmap colkey pystr;
  namespace_to_columns : odict pystr (list colkey);
}.

Definition ns0 : NsState := MkNs ∅ [].

(** [if key not in namespace_to_columns[ns]: namespace_to_columns[ns].append(key)],
    the lookup creating the list of a new namespace. *)
Definition add_member (d : odict pystr (list colkey)) (ns : pystr) (key : colkey)
  : odict pystr (list colkey) :=
  let cols := default [] (od_get d ns) in
  od_set d ns (if bool_decide (key ∈ cols) then cols else cols ++ [key]).

Definition _raise_ambiguity : exn := NamespaceConfigError NAMESPACE_AMBIGUITY.

(** [existing is not None and existing != ns] *)
Definition conflicts (st : NsState) (key : colkey) (ns : pystr) : bool :=
  match column_owner st !! key with Some ns' => negb (bool_decide (ns' = ns)) | None => false end.

(** Steps 1 and 2.5: reject a conflicting owner, then (re)claim the key. *)
Definition declare (ns : pystr) (key : colkey) (st : NsState) : result NsState :=
  _ ← raise_if (conflicts st key ns) _raise_ambiguity;
  Ok (MkNs (<[key := ns]> (column_owner st)) (add_member (namespace_to_columns st) ns key)).

(** Steps 2 and 3: reject a conflicting owner, claim the key only if it is unowned. *)
Definition inherit (ns : pystr) (key : colkey) (st : NsState) : result NsState :=
  _ ← raise_if (conflicts st key ns) _raise_ambiguity;
  match column_owner st !! key with
  | Some _ => Ok st
  | None => Ok (MkNs (<[key := ns]> (column_owner st)) (add_member (namespace_to_columns st) ns key))
  end.

(** [s.split(".", 1)] when ["." in s]. *)
Fixpoint split_dot (s : pystr) : option (pystr * pystr) :=
  match s with
  | [] => None
  | c :: s' => if c =? 46 then Some ([], s') else (fun p => (c :: p.1, p.2)) <$> split_dot s'
  end.

(** [s.split("__")], the piece under construction in [acc]. *)
Fixpoint split_dunder (acc s : pystr) : list pystr :=
  match s with
  | [] => [acc]
  | c :: s' =>
      match s' with
      | d :: s'' => if (c =? 95) && (d =? 95) then acc :: split_dunder [] s''
                    else split_dunder (acc ++ [c]) s'
      | [] => [acc ++ [c]]
      end
  end.

(** ["__" in s] *)
Fixpoint has_dunder (s : pystr) : bool :=
  match s with
  | c :: ((d :: _) as s') => ((c =? 95) && (d =? 95)) || has_dunder s'
  | _ => false
  end.

(** Step 1, one entry of [declared_by]. *)
Definition declare_entry (ns : pystr) (st : NsState) (entry : pyval) : result NsState :=
  match entry with
  | PStr s =>
      match split_dot s with
      | Some (table, col_part) =>
          declare ns (table, if has_dunder col_part then split_dunder [] col_part else [col_part]) st
      | None => Ok st
      end
  | _ => Ok st
  end.

Definition declare_namespace (block : list (pystr * pyval)) (st : NsState) (ns : pystr) : result NsState :=
  match od_get block ns with
  | Some (PDict body) =>
      entries ← py_iter (or_empty (dget body "declared_by" (PList [])));
      for_each (declare_entry ns) entries st
  | _ => Ok st
  end.

Definition step_declarations (config : list (pystr * pyval)) (st : NsState) : result NsState :=
  match dget config "namespaces" (PDict []) with
  | PDict block => for_each (declare_namespace block) (sorted (od_keys block)) st
  | _ => Ok st
  end.

(** Step 2, one relationship: the parent side, then the child side. *)
Definition bind_relationship (st : NsState) (r : Relationship) : result NsState :=
  match rel_namespace r with
  | None => Ok st
  | Some ns => st ← inherit ns (parent_key r) st; inherit ns (child_key r) st
  end.

(** Steps 2.5 and 3 walk the column entries of the tables. *)
Definition tables_block (config : list (pystr * pyval)) : list pyval :=
  match dget config "tables" PNone with PList l => l | _ => [] end.

(** A name read with [.get(key, "?")]. *)
Definition name_field (d : list (pystr * pyval)) (k : string) : result pystr :=
  match dget d k (PStr (py "?")) with PStr s => Ok s | _ => Err (exc "name is not a string") end.

(** [explicit_ns = col_entry.get("namespace")], [None] standing for a false value. *)
Definition explicit_ns (d : list (pystr * pyval)) : result (option pystr) :=
  let v := dget d "namespace" PNone in
  if truthy v then match v with PStr s => Ok (Some s) | _ => Err (exc "name is not a string") end
  else Ok None.

Definition walk_columns {B} (f : pystr -> B -> list (pystr * pyval) -> result B)
  (tables : list pyval) (b : B) : result B :=
  for_each (fun b table_entry =>
    match table_entry with
    | PDict t =>
        table_name ← name_field t "name";
        cols ← py_iter (or_empty (dget t "columns" (PList [])));
        for_each (fun b col_entry =>
          match col_entry with PDict c => f table_name b c | _ => Ok b end) cols b
    | _ => Ok b
    end) tables b.

(** [composite_columns] and [composite_group_ns] of step 2.5. *)
Record Groups := MkGroups {
  composite_columns : gset (pystr * pystr);
  composite_group_ns : odict colkey (option pystr);
}.

Definition group_column (table : pystr) (g : Groups) (col : list (pystr * pyval)) : result Groups :=
  refs ← py_iter (or_empty (dget col "coherent_with" PNone));
  let coherent := omap as_str refs in
  if bool_decide (coherent = []) then Ok g else
  col_name ← name_field col "name";
  let group := sorted (fromkeys (col_name :: coherent)) in
  let gkey := (table, group) in
  let cols := {[ (table, col_name) ]} ∪ list_to_set (pair table <$> coherent) ∪ composite_columns g in
  ns ← explicit_ns col;
  match ns with
  | Some ns =>
      _ ← raise_if (match od_get (composite_group_ns g) gkey with
                    | Some (Some prev) => negb (bool_decide (prev = ns))
                    | _ => false
                    end) _raise_ambiguity;
      Ok (MkGroups cols (od_set (composite_group_ns g) gkey (Some ns)))
  | None =>
      Ok (MkGroups cols (if od_has (composite_group_ns g) gkey then composite_group_ns g
                         else od_set (composite_group_ns g) gkey None))
  end.

(** ['__'.join(parts)] *)
Fixpoint join_dunder (parts : list pystr) : pystr :=
  match parts with
  | [] => []
  | [s] => s
  | s :: rest => s ++ py "__" ++ join_dunder rest
  end.

Definition group_namespace (key : colkey) (explicit : option pystr) : pystr :=
  match explicit with
  | Some ns => ns
  | None => py "composite/" ++ key.1 ++ py "/" ++ join_dunder key.2
  end.

Definition bind_group (st : NsState) (g : colkey * option pystr) : result NsState :=
  declare (group_namespace g.1 g.2) g.1 st.

(** Step 3, one column entry. *)
Definition require_namespace (composite : gset (pystr * pystr)) (table : pystr) (st : NsState)
  (col : list (pystr * pyval)) : result NsState :=
  if negb (truthy (dget col "deterministic" (PBool false))) then Ok st else
  col_name ← name_field col "name";
  if bool_decide ((table, col_name) ∈ composite) then Ok st else
  let key := (table, [col_name]) in
  ns ← explicit_ns col;
  match ns with
  | Some ns => inherit ns key st
  | None => _ ← raise_if (bool_decide (column_owner st !! key = None)) (NamespaceConfigError NAMESPACE_MISSING);
            Ok st
  end.

(** [bindings]: the namespaces in sorted order, each with its member list. *)
Definition final_bindings (st : NsState) : list NamespaceBinding :=
  (fun ns => MkBinding ns (default [] (od_get (namespace_to_columns st) ns)))
    <$> sorted (od_keys (namespace_to_columns st)).

Definition build_namespace_registry (config : list (pystr * pyval)) (relationships : list Relationship)
  : result NamespaceRegistry :=
  st ← step_declarations config ns0;
  st ← for_each bind_relationship relationships st;
  groups ← walk_columns group_column (tables_block config) (MkGroups ∅ []);
  st ← for_each bind_group (composite_group_ns groups) st;
  st ← walk_columns (require_namespace (composite_columns groups)) (tables_block config) st;
  Ok (new_registry (final_bindings st)).

(** ** Invariant of the build

    The two dictionaries describe the same function from columns to namespaces:
    a column is a member of exactly the namespace that owns it, member lists and
    namespaces are free of duplicates. *)

Definition members_of (st : NsState) (ns : pystr) : list colkey :=
  default [] (od_get (namespace_to_columns st) ns).

Record ns_inv (st : NsState) : Prop := {
  ni_owner key ns : column_owner st !! key = Some ns <-> key ∈ members_of st ns;
  ni_keys : NoDup (od_keys (namespace_to_columns st));
  ni_members ns : NoDup (members_of st ns);
}.

Lemma ns0_inv : ns_inv ns0.
Proof.
  constructor.
  - intros. cbn. rewrite lookup_empty. split; [done|by intros ?%elem_of_nil].
  - constructor.
  - constructor.
Qed.

(** What a successful claim does to the owners. *)
Definition claimed (ns : pystr) (key : colkey) (st st' : NsState) : Prop :=
  ns_inv st' /\ column_owner st' = <[key := ns]> (column_owner st) /\
  forall ns', column_owner st !! key = Some ns' -> ns' = ns.

Lemma no_conflict st key ns :
  conflicts st key ns = false -> forall ns', column_owner st !! key = Some ns' -> ns' = ns.
Proof. unfold conflicts. intros H ns' Hk. rewrite Hk in H. by bool_prop. Qed.

Lemma members_of_add o d ns key ns' :
  members_of (MkNs o (add_member d ns key)) ns' =
    if bool_decide (ns = ns') then
      (let cols := default [] (od_get d ns) in if bool_decide (key ∈ cols) then cols else cols ++ [key])
    else default [] (od_get d ns').
Proof. unfold members_of, add_member. cbn. rewrite od_get_set. by case_bool_decide. Qed.

Lemma claim_inv ns key st :
  ns_inv st -> conflicts st key ns = false ->
  claimed ns key st (MkNs (<[key := ns]> (column_owner st)) (add_member (namespace_to_columns st) ns key)).
Proof.
  intros [Ho Hk Hm] Hc. pose proof (no_conflict _ _ _ Hc) as Hno.
  split; [|by split]. constructor.
  - intros k n. rewrite members_of_add. cbn [column_owner]. specialize (Ho k). unfold members_of in Ho.
    destruct (decide (key = k)) as [->|Hne].
    + rewrite lookup_insert_eq. case_bool_decide as Hn.
      * subst n. split; [intros _|done]. cbn. case_bool_decide; [done|]. apply elem_of_app. right.
        by apply list_elem_of_singleton.
      * split; [congruence|]. intros Hin%Ho%Hno. congruence.
    + rewrite lookup_insert_ne by done. rewrite Ho. case_bool_decide; [|done]. subst n. cbn.
      case_bool_decide; [done|]. rewrite elem_of_app, list_elem_of_singleton.
      split; [tauto|]. intros [?|?]; congruence || done.
  - cbn [namespace_to_columns]. unfold add_member. by apply od_set_nodup.
  - intros n. rewrite members_of_add. specialize (Hm n) as Hmn. unfold members_of in Hmn.
    case_bool_decide; [|done]. subst n. cbn. case_bool_decide as Hin; [done|].
    apply list.NoDup_app. split; [done|]. split; [|apply NoDup_singleton].
    by intros x Hx ->%list_elem_of_singleton.
Qed.

Lemma declare_spec ns key st st' : ns_inv st -> declare ns key st = Ok st' -> claimed ns key st st'.
Proof. unfold declare. intros Hi H. ok_inv. by apply claim_inv. Qed.

Lemma inherit_spec ns key st st' : ns_inv st -> inherit ns key st = Ok st' -> claimed ns key st st'.
Proof.
  unfold inherit. intros Hi H. ok_step. destruct (column_owner st !! key) as [ns'|] eqn:Hk; ok_inv.
  - split; [done|]. pose proof (no_conflict _ _ _ Heqb) as Hno. assert (ns' = ns) as -> by by apply Hno.
    split; [by rewrite insert_id|done].
  - by apply claim_inv.
Qed.

(** A claimed key stays claimed. *)
Lemma inherit_owner ns key st st' :
  inherit ns key st = Ok st' ->
  is_Some (column_owner st' !! key) /\
  forall k, is_Some (column_owner st !! k) -> is_Some (column_owner st' !! k).
Proof.
  unfold inherit. intros H. ok_step. destruct (column_owner st !! key) eqn:Hk; ok_inv; [by rewrite Hk|].
  cbn [column_owner]. rewrite lookup_insert_eq. split; [done|]. intros k Hs.
  destruct (decide (key = k)) as [->|]; [by rewrite lookup_insert_eq|by rewrite lookup_insert_ne].
Qed.

(** Owners never change: each step extends the function. *)
Definition extends (st st' : NsState) : Prop := ns_inv st' /\ column_owner st ⊆ column_owner st'.

Lemma claimed_extends ns key st st' : claimed ns key st st' -> extends st st'.
Proof.
  intros (Hi & Ho & Hno). split; [done|]. rewrite Ho. apply map_subseteq_spec. intros k n Hk.
  destruct (decide (key = k)) as [->|]; [|by rewrite lookup_insert_ne].
  rewrite lookup_insert_eq. f_equal. symmetry. by apply Hno.
Qed.

Lemma claimed_owner ns key st st' : claimed ns key st st' -> column_owner st' !! key = Some ns.
Proof. intros (_ & -> & _). apply lookup_insert_eq. Qed.

Lemma extends_refl st : ns_inv st -> extends st st.
Proof. by split. Qed.

Lemma extends_trans st1 st2 st3 : extends st1 st2 -> extends st2 st3 -> extends st1 st3.
Proof. intros [_ H1] [H2 H3]. split; [done|]. by etrans. Qed.

Lemma extends_lookup st st' k ns :
  extends st st' -> column_owner st !! k = Some ns -> column_owner st' !! k = Some ns.
Proof. intros [_ H]. by apply (proj1 (map_subseteq_spec _ _) H). Qed.

#[export] Hint Resolve extends_refl : decoy.

(** A loop of extending passes extends. *)
Lemma for_each_extends {A} (f : NsState -> A -> result NsState) l st st' :
  (forall st a st', a ∈ l -> ns_inv st -> f st a = Ok st' -> extends st st') ->
  ns_inv st -> for_each f l st = Ok st' -> extends st st'.
Proof.
  revert st. induction l as [|a l IH]; intros st Hf Hi H; cbn in H; ok_inv; [by apply extends_refl|].
  assert (H1 : extends st a0) by (eapply Hf; [left|done|done]).
  eapply extends_trans; [done|]. apply IH; [|apply H1|done]. intros. eapply Hf; [by right|done|done].
Qed.

Lemma step_declarations_extends config st st' :
  ns_inv st -> step_declarations config st = Ok st' -> extends st st'.
Proof.
  unfold step_declarations. intros Hi H.
  destruct (dget config _ _); ok_inv; auto with decoy.
  eapply for_each_extends; [|done|done]. intros s ns s' _ Hs H1. unfold declare_namespace in H1.
  destruct (od_get d ns) as [[]|]; ok_inv; auto with decoy.
  eapply for_each_extends; [|done|done]. intros s1 e s2 _ Hs1 H2. unfold declare_entry in H2.
  destruct e; ok_inv; auto with decoy. destruct (split_dot s0) as [[t cp]|]; ok_inv; auto with decoy.
  by eapply claimed_extends, declare_spec.
Qed.

Lemma bind_relationship_spec st r st' :
  ns_inv st -> bind_relationship st r = Ok st' ->
  extends st st' /\ forall ns, rel_namespace r = Some ns ->
    column_owner st' !! parent_key r = Some ns /\ column_owner st' !! child_key r = Some ns.
Proof.
  unfold bind_relationship. intros Hi H. destruct (rel_namespace r) as [ns|]; ok_inv; [|by split; auto with decoy].
  apply inherit_spec in E; [|done]. apply inherit_spec in H; [|apply E].
  split; [eapply extends_trans; by eapply claimed_extends|]. intros ? [= <-].
  split; [|by eapply claimed_owner]. eapply extends_lookup; [by eapply claimed_extends|by eapply claimed_owner].
Qed.

Lemma bind_relationships_spec rels st st' :
  ns_inv st -> for_each bind_relationship rels st = Ok st' ->
  extends st st' /\ forall r ns, r ∈ rels -> rel_namespace r = Some ns ->
    column_owner st' !! parent_key r = Some ns /\ column_owner st' !! child_key r = Some ns.
Proof.
  revert st. induction rels as [|r rels IH]; intros st Hi H; cbn in H; ok_inv.
  { split; [auto with decoy|]. by intros ? ? ?%elem_of_nil. }
  destruct (bind_relationship_spec _ _ _ Hi E) as [He Hr].
  destruct (IH a (proj1 He) H) as [He' Hrs].
  split; [by eapply extends_trans|]. intros r' ns [->|Hin]%elem_of_cons Hns; [|by apply Hrs].
  destruct (Hr ns Hns). split; by eapply extends_lookup.
Qed.

Lemma walk_columns_extends f tables st st' :
  (forall t st c st', ns_inv st -> f t st c = Ok st' -> extends st st') ->
  ns_inv st -> walk_columns f tables st = Ok st' -> extends st st'.
Proof.
  intros Hf Hi. apply for_each_extends; [|done]. intros s t s' _ Hs H. destruct t; ok_inv; auto with decoy.
  eapply for_each_extends; [|done|done]. intros s1 c s2 _ Hs1 H2. destruct c; ok_inv; auto with decoy.
  by eapply Hf.
Qed.

Lemma bind_groups_spec (gs : odict colkey (option pystr)) st st' :
  ns_inv st -> for_each bind_group gs st = Ok st' ->
  extends st st' /\ forall k o, (k, o) ∈ gs -> column_owner st' !! k = Some (group_namespace k o).
Proof.
  revert st. induction gs as [|[k o] gs IH]; intros st Hi H; cbn in H; ok_inv.
  { split; [auto with decoy|]. by intros ? ? ?%elem_of_nil. }
  pose proof (declare_spec _ _ _ _ Hi E) as Hc. pose proof (claimed_extends _ _ _ _ Hc) as He.
  destruct (IH a (proj1 He) H) as [He' Hgs].
  split; [by eapply extends_trans|]. intros k' o' [[= -> ->]|Hin]%elem_of_cons; [|by apply Hgs].
  eapply extends_lookup; [done|]. by eapply claimed_owner.
Qed.

Lemma require_namespace_extends comp t st c st' :
  ns_inv st -> require_namespace comp t st c = Ok st' -> extends st st'.
Proof.
  unfold require_namespace. intros Hi H. destruct (negb _); ok_inv; auto with decoy.
  case_bool_decide; ok_inv; auto with decoy. destruct a0; ok_inv; auto with decoy.
  by eapply claimed_extends, inherit_spec.
Qed.

(** ** The registry *)

Section Registry.
Context (st : NsState) (Hi : ns_inv st).
Let reg := new_registry (final_bindings st).

Lemma elem_of_final_bindings b :
  b ∈ final_bindings st <->
  is_Some (od_get (namespace_to_columns st) (nb_namespace b)) /\ nb_declared_by b = members_of st (nb_namespace b).
Proof.
  unfold final_bindings. rewrite list_elem_of_fmap. setoid_rewrite elem_of_sorted.
  assert (Hk : forall ns, ns ∈ od_keys (namespace_to_columns st) <->
                          is_Some (od_get (namespace_to_columns st) ns)).
  { intros ns. rewrite <- not_eq_None_Some, od_get_none. split; [by intros ? ?|].
    intros Hn. destruct (decide (ns ∈ od_keys (namespace_to_columns st))); [done|]. by destruct Hn. }
  setoid_rewrite Hk. split.
  - intros (ns & -> & Hs). by split.
  - intros [Hs Hd]. exists (nb_namespace b). split; [|done]. destruct b. cbn in *. by rewrite Hd.
Qed.

(** The pairs the index is built from. *)
Lemma elem_of_pairs key ns :
  (key, ns) ∈ (final_bindings st ≫= fun b => (fun bound => (bound, nb_namespace b)) <$> nb_declared_by b)
  <-> column_owner st !! key = Some ns.
Proof.
  rewrite (ni_owner _ Hi), list_elem_of_bind. split.
  - intros (b & (k & [= -> ->] & Hk)%list_elem_of_fmap & Hb). apply elem_of_final_bindings in Hb as [_ Hb].
    by rewrite <- Hb.
  - intros Hk. exists (MkBinding ns (members_of st ns)). split; [apply list_elem_of_fmap; by exists key|].
    apply elem_of_final_bindings. split; [|done]. cbn. unfold members_of in Hk.
    destruct (od_get _ ns); [done|by apply elem_of_nil in Hk].
Qed.

Lemma fold_insert_spec (l : list (colkey * pystr)) (m0 m : gmap colkey pystr) :
  (forall k v, (k, v) ∈ l -> m !! k = Some v) ->
  forall k, fold_left (fun m p => <[p.1 := p.2]> m) l m0 !! k =
            if bool_decide (k ∈ l.*1) then m !! k else m0 !! k.
Proof.
  revert m0. induction l as [|[k v] l IH]; intros m0 Hl k'; [done|]. cbn [fold_left fst snd fmap list_fmap].
  rewrite IH by (intros; apply Hl; by right). case_bool_decide as H1.
  - rewrite bool_decide_eq_true_2; [done|by right].
  - destruct (decide (k = k')) as [->|Hne].
    + rewrite bool_decide_eq_true_2 by left. rewrite lookup_insert_eq. symmetry. apply Hl. left.
    + rewrite bool_decide_eq_false_2, lookup_insert_ne; [done..|]. by apply not_elem_of_cons.
Qed.

(** The index is the owner function. *)
Lemma for_column_owner key : for_column reg key = column_owner st !! key.
Proof.
  unfold for_column, reg, new_registry. cbn [_index].
  rewrite (fold_insert_spec _ _ (column_owner st)) by (intros; by apply elem_of_pairs).
  case_bool_decide as Hin; [done|]. rewrite lookup_empty.
  destruct (column_owner st !! key) as [ns|] eqn:Hk; [|done].
  exfalso. apply Hin, list_elem_of_fmap. exists (key, ns). split; [done|]. by apply elem_of_pairs.
Qed.
End Registry.

(** What the build promises to the graph. *)
Lemma build_registry_inv config rels reg :
  build_namespace_registry config rels = Ok reg ->
  exists st, ns_inv st /\ reg = new_registry (final_bindings st) /\
    forall r ns, r ∈ rels -> rel_namespace r = Some ns ->
      column_owner st !! parent_key r = Some ns /\ column_owner st !! child_key r = Some ns.
Proof.
  unfold build_namespace_registry. intros H. ok_inv.
  destruct (step_declarations_extends _ _ _ ns0_inv E) as [Hi _].
  destruct (bind_relationships_spec _ _ _ Hi E0) as [He Hr].
  destruct (bind_groups_spec _ _ _ (proj1 He) E2) as [He2 _].
  assert (He3 : extends a2 a3).
  { eapply walk_columns_extends; [|apply He2|done]. intros. by eapply require_namespace_extends. }
  exists a3. split; [apply He3|]. split; [done|]. intros r ns Hin Hns.
  destruct (Hr r ns Hin Hns). split; (eapply extends_lookup; [exact He3|by eapply extends_lookup]).
Qed.

(** ** Deterministic columns *)

(** A column entry of the configuration: an entry [c] under the table named [tn]. *)
Definition column_entry (config : list (pystr * pyval)) (tn : pystr) (c : list (pystr * pyval)) : Prop :=
  exists t cols, PDict t ∈ tables_block config /\ name_field t "name" = Ok tn /\
    py_iter (or_empty (dget t "columns" (PList []))) = Ok cols /\ PDict c ∈ cols.

Lemma for_each_keep {A B} (f : B -> A -> result B) (P : B -> Prop) l b b' :
  (forall b x b', f b x = Ok b' -> P b -> P b') -> for_each f l b = Ok b' -> P b -> P b'.
Proof.
  intros Hf. revert b. induction l as [|x l IH]; intros b H Hp; cbn in H; ok_inv; [done|].
  eapply IH; [done|]. by eapply Hf.
Qed.

(** A pass over the column entries keeps what each entry keeps. *)
Lemma walk_columns_keep {B} (f : pystr -> B -> list (pystr * pyval) -> result B) (P : B -> Prop) tables b b' :
  (forall t b x b', f t b x = Ok b' -> P b -> P b') -> walk_columns f tables b = Ok b' -> P b -> P b'.
Proof.
  intros Hf. apply for_each_keep. intros b1 t b2 H. destruct t; ok_inv; try done.
  revert H. apply for_each_keep. intros b3 c b4 H. destruct c; ok_inv; try done. by eapply Hf.
Qed.

(** A loop visits every item: the pass for [a] runs at some point, and whatever
    the later passes keep holds at the end. *)
Lemma for_each_visit {A B} (f : B -> A -> result B) (P : B -> Prop) l b b' a :
  for_each f l b = Ok b' -> a ∈ l ->
  (forall b x b', f b x = Ok b' -> P b -> P b') ->
  (forall b b', f b a = Ok b' -> P b') -> P b'.
Proof.
  intros H Ha Hkeep Hget. revert b H. induction Ha as [x l|x y l Ha IH]; intros b H; cbn in H; ok_step.
  - eapply for_each_keep; [done|done|]. by eapply Hget.
  - by eapply IH.
Qed.

Lemma walk_columns_visit {B} (f : pystr -> B -> list (pystr * pyval) -> result B) (P : B -> Prop)
  config b b' tn c :
  walk_columns f (tables_block config) b = Ok b' -> column_entry config tn c ->
  (forall t b x b', f t b x = Ok b' -> P b -> P b') ->
  (forall b b', f tn b c = Ok b' -> P b') -> P b'.
Proof.
  intros H (t & cols & Ht & Hn & Hcols & Hc) Hkeep Hget. unfold walk_columns in H.
  eapply (for_each_visit _ P); [exact H|exact Ht| |].
  - intros b1 x b2 H1. destruct x; ok_inv; try done. revert H1. apply for_each_keep.
    intros b3 ce b4 H3. destruct ce; ok_inv; try done. by eapply Hkeep.
  - intros b1 b2 H1. cbn beta iota in H1. rewrite Hn in H1. cbn [mbind result_bind] in H1. rewrite Hcols in H1.
    cbn [mbind result_bind] in H1. eapply (for_each_visit _ P); [exact H1|exact Hc| |].
    + intros b3 ce b4 H3. destruct ce; ok_inv; try done. by eapply Hkeep.
    + intros b3 b4 H3. by apply (Hget b3).
Qed.

(** Composite columns lie in a recorded group. *)
Definition groups_inv (g : Groups) : Prop :=
  forall tn cn, (tn, cn) ∈ composite_columns g ->
    exists grp o, (tn, grp) ∈ od_keys (composite_group_ns g) /\ od_get (composite_group_ns g) (tn, grp) = Some o /\ cn ∈ grp.

Lemma group_column_inv t g c g' : group_column t g c = Ok g' -> groups_inv g -> groups_inv g'.
Proof.
  unfold group_column. intros H Hi. ok_step. case_bool_decide; ok_inv; [done|].
  set (coherent := omap as_str a) in *. set (grp := sorted (fromkeys (a0 :: coherent))) in *.
  assert (Hnew : forall d, is_Some (od_get d (t, grp)) ->
            (forall k, is_Some (od_get (composite_group_ns g) k) -> is_Some (od_get d k)) ->
            groups_inv (MkGroups ({[ (t, a0) ]} ∪ list_to_set (pair t <$> coherent) ∪ composite_columns g) d)).
  { intros d [o Hd] Hmono tn cn Hin. cbn in Hin |- *.
    assert (Hkey : forall k v, od_get d k = Some v -> k ∈ od_keys d).
    { intros k v Hk%od_get_elem. apply list_elem_of_fmap. by exists (k, v). }
    apply elem_of_union in Hin as [Hin|Hin].
    - assert (tn = t /\ cn ∈ a0 :: coherent) as [-> Hcn].
      { apply elem_of_union in Hin as [Hin|Hin].
        - apply elem_of_singleton in Hin as [= -> ->]. split; [done|left].
        - apply elem_of_list_to_set, list_elem_of_fmap in Hin as (x & [= -> ->] & Hx). split; [done|by right]. }
      exists grp, o. split; [by eapply Hkey|]. split; [done|].
      by apply elem_of_sorted, elem_of_fromkeys.
    - destruct (Hi tn cn Hin) as (grp' & o' & _ & Ho' & Hc').
      destruct (Hmono (tn, grp')) as [o'' Ho'']; [by eexists|]. exists grp', o''. split; [by eapply Hkey|]. done. }
  destruct a1 as [ns|]; ok_inv.
  - apply Hnew; [by rewrite od_get_set_eq|]. intros k Hk. rewrite od_get_set. by case_bool_decide.
  - apply Hnew.
    + unfold od_has. case_bool_decide; [done|]. by rewrite od_get_set_eq.
    + intros k Hk. unfold od_has. case_bool_decide; [done|]. rewrite od_get_set. by case_bool_decide.
Qed.


(** ** Claims *)

(** The registry is a function. After a successful build, a column tuple is
    a member of a namespace exactly when [for_column] returns that namespace, so
    no column is in two namespaces; namespaces and members are listed once, the
    namespaces in increasing order. *)
Theorem registry_functional config rels reg :
  build_namespace_registry config rels = Ok reg ->
  (forall key ns, for_column reg key = Some ns <-> key ∈ members reg ns) /\
  NoDup (nb_namespace <$> bindings reg) /\ Sorted_by id (nb_namespace <$> bindings reg) /\
  Forall (fun b => NoDup (nb_declared_by b)) (bindings reg).
Proof.
  intros H. destruct (build_registry_inv _ _ _ H) as (st & Hi & -> & _).
  assert (Hns : nb_namespace <$> final_bindings st = sorted (od_keys (namespace_to_columns st))).
  { unfold final_bindings. rewrite <- list_fmap_compose. apply list_fmap_id. }
  cbn [bindings new_registry]. rewrite Hns. split_and!.
  - intros key ns. rewrite for_column_owner, (ni_owner _ Hi) by done.
    unfold members. cbn [bindings new_registry].
    destruct (find _ (final_bindings st)) as [b|] eqn:Hf; cbn [fmap option_fmap option_map default from_option id].
    + apply find_some in Hf as [Hin%list_elem_of_In Hb]. bool_prop.
      apply elem_of_final_bindings in Hin as [_ ->]. by rewrite Hb.
    + split; [|by intros ?%elem_of_nil]. intros Hk. exfalso.
      assert (Hin : MkBinding ns (members_of st ns) ∈ final_bindings st).
      { apply elem_of_final_bindings. split; [|done]. cbn. unfold members_of in Hk.
        destruct (od_get _ ns); [done|by apply elem_of_nil in Hk]. }
      apply list_elem_of_In in Hin. apply (find_none _ _ Hf) in Hin. cbn in Hin. by bool_prop.
  - rewrite sorted_perm. apply Hi.
  - apply sorted_by_sorted.
  - apply list.Forall_forall. intros b [_ ->]%elem_of_final_bindings. apply Hi.
Qed.

(** Same foreign key, same namespace. After a successful build, the parent
    and the child columns of every relationship that names a namespace are both
    bound to it, and it is what [for_relationship] resolves. *)
Theorem registry_fk_consistent config rels reg r ns :
  build_namespace_registry config rels = Ok reg -> r ∈ rels -> rel_namespace r = Some ns ->
  for_column reg (parent_key r) = Some ns /\ for_column reg (child_key r) = Some ns /\
  for_relationship reg r = Ok ns.
Proof.
  intros H Hr Hns. destruct (build_registry_inv _ _ _ H) as (st & Hi & -> & Hrel).
  destruct (Hrel r ns Hr Hns) as [Hp Hc]. rewrite !for_column_owner by done.
  split; [done|]. split; [done|]. unfold for_relationship. by rewrite Hns.
Qed.

(** Every deterministic column has a namespace: after a successful build, a
    column entry declared [deterministic] is bound itself, or belongs to a
    composite group of its table that is bound as a whole. *)
Theorem deterministic_columns_bound config rels reg tn c cn :
  build_namespace_registry config rels = Ok reg -> column_entry config tn c ->
  truthy (dget c "deterministic" (PBool false)) = true -> name_field c "name" = Ok cn ->
  is_Some (for_column reg (tn, [cn])) \/
  exists grp, cn ∈ grp /\ is_Some (for_column reg (tn, grp)).
Proof.
  unfold build_namespace_registry. intros H Hent Hdet Hn. ok_inv.
  destruct (step_declarations_extends _ _ _ ns0_inv E) as [Hi _].
  destruct (bind_relationships_spec _ _ _ Hi E0) as [He _].
  destruct (bind_groups_spec _ _ _ (proj1 He) E2) as [He2 Hg].
  assert (Hgi : groups_inv a1).
  { eapply (walk_columns_keep _ groups_inv); [|exact E1|by intros ? ? ?%elem_of_empty].
    intros. by eapply group_column_inv. }
  assert (He3 : extends a2 a3).
  { eapply walk_columns_extends; [|apply He2|done]. intros. by eapply require_namespace_extends. }
  setoid_rewrite for_column_owner; [|apply He3..].
  destruct (decide ((tn, cn) ∈ composite_columns a1)) as [Hcomp|Hcomp].
  - right. destruct (Hgi tn cn Hcomp) as (grp & o & Hk & Ho & Hc). exists grp. split; [done|].
    exists (group_namespace (tn, grp) o). eapply extends_lookup; [done|]. apply Hg. by apply od_get_elem.
  - left.
    eapply (walk_columns_visit _ (fun st => is_Some (column_owner st !! (tn, [cn])))); [exact E3|exact Hent| |].
    + intros t s x s' Hs. unfold require_namespace in Hs. destruct (negb _); ok_inv; [done|].
      case_bool_decide; ok_inv; [done|]. destruct a5; ok_inv; [|done]. exact (proj2 (inherit_owner _ _ _ _ Hs) _).
    + intros s s' Hs. unfold require_namespace in Hs. rewrite Hdet, Hn in Hs. cbn [negb mbind result_bind] in Hs.
      rewrite bool_decide_eq_false_2 in Hs by done. ok_step. destruct a4; ok_inv.
      { exact (proj1 (inherit_owner _ _ _ _ Hs)). }
      bool_prop. by destruct (column_owner s' !! (tn, [cn])).
Qed.

(** ** A sample configuration *)

Definition sample_config : list (pystr * pyval) :=
  [(py "namespaces", PDict [(py "person", PDict [(py "declared_by", PList [PStr (py "people.id")])])]);
   (py "tables", PList [PDict [(py "name", PStr (py "people"));
      (py "columns", PList [
         PDict [(py "name", PStr (py "id")); (py "deterministic", PBool true)];
         PDict [(py "name", PStr (py "zip")); (py "deterministic", PBool true);
                (py "coherent_with", PList [PStr (py "city")])]])]])].

Definition sample_rel : Relationship :=
  MkRelationship (py "people") [py "id"] (py "orders") [py "person_id"] (Some (py "person")).

Definition sample_registry : result NamespaceRegistry :=
  build_namespace_registry sample_config [sample_rel].

Lemma sample_registry_ok : is_ok sample_registry = true.
Proof. vm_compute. reflexivity. Qed.

Lemma registry_functional_witness :
  exists reg, sample_registry = Ok reg /\ NoDup (nb_namespace <$> bindings reg).
Proof.
  destruct sample_registry as [reg|] eqn:H; [|exfalso; pose proof sample_registry_ok as Hs; rewrite H in Hs; discriminate Hs].
  exists reg. split; [reflexivity|].
  exact (proj1 (proj2 (registry_functional sample_config [sample_rel] reg H))).
Defined.

Lemma registry_fk_consistent_witness :
  exists reg, sample_registry = Ok reg /\ for_column reg (child_key sample_rel) = Some (py "person").
Proof.
  destruct sample_registry as [reg|] eqn:H; [|exfalso; pose proof sample_registry_ok as Hs; rewrite H in Hs; discriminate Hs].
  exists reg. split; [reflexivity|].
  refine (proj1 (proj2 (registry_fk_consistent sample_config [sample_rel] reg sample_rel (py "person") H _ _)));
    [left|reflexivity].
Defined.

Lemma deterministic_columns_bound_witness :
  exists reg, sample_registry = Ok reg /\
    (is_Some (for_column reg (py "people", [py "zip"])) \/
     exists grp, py "zip" ∈ grp /\ is_Some (for_column reg (py "people", grp))).
Proof.
  destruct sample_registry as [reg|] eqn:H; [|exfalso; pose proof sample_registry_ok as Hs; rewrite H in Hs; discriminate Hs].
  exists reg. split; [reflexivity|].
  refine (deterministic_columns_bound sample_config [sample_rel] reg (py "people")
    [(py "name", PStr (py "zip")); (py "deterministic", PBool true);
     (py "coherent_with", PList [PStr (py "city")])] (py "zip") H _ _ _); [|reflexivity..].
  eexists _, _. split; [left|]. split; [reflexivity|]. split; [reflexivity|]. right. left.
Defined.
