(* ===== verification/Graph.v ===== *)
(** * Relationship graph (relationships/_graph.py)

    The planner's foreign-key graph: resolution of every relationship to an edge,
    deduplication, and the deterministic topological order in which tables are
    masked (Kahn's algorithm with a min-heap). *)

From S2P Require Import Prelude PyText PyData Namespace.

(** ** Data *)

Inductive OrphanPolicy := PRESERVE | REMAP | WARN | FAIL.

#[global] Instance OrphanPolicy_eq_dec : EqDecision OrphanPolicy.
Proof. solve_decision. Defined.

(** [OrphanPolicy.value] and [OrphanPolicy(value)]. *)
Definition policy_value (p : OrphanPolicy) : pystr :=
  match p with
  | PRESERVE => py "preserve" | REMAP => py "remap" | WARN => py "warn" | FAIL => py "fail"
  end.

Definition policy_of_value (s : pystr) : option OrphanPolicy :=
  find (fun p => bool_decide (policy_value p = s)) [PRESERVE; REMAP; WARN; FAIL].

(** [(parent_table, parent_columns, child_table, child_columns)] *)
Abbreviation relkey := (colkey * colkey)%type.

Definition rel_key (r : Relationship) : relkey := (parent_key r, child_key r).

Record RelationshipEdge := MkEdge {
  edge_parent_table : pystr;
  edge_parent_columns : list pystr;
  edge_child_table : pystr;
  edge_child_columns : list pystr;
  edge_namespace : pystr;
  edge_orphan_policy : OrphanPolicy;
}.

#[global] Instance RelationshipEdge_eq_dec : EqDecision RelationshipEdge.
Proof. solve_decision. Defined.

Definition edge_parent (e : RelationshipEdge) : colkey := (edge_parent_table e, edge_parent_columns e).
Definition edge_child (e : RelationshipEdge) : colkey := (edge_child_table e, edge_child_columns e).
Definition edge_key (e : RelationshipEdge) : relkey := (edge_parent e, edge_child e).

Record RelationshipGraph := MkGraph {
  edges : list RelationshipEdge;
  ordering : list colkey;
}.

Definition parents_of (g : RelationshipGraph) (child_table : pystr) (child_columns : list pystr)
  : list RelationshipEdge :=
  List.filter (fun e => bool_decide (edge_child_table e = child_table)
                        && bool_decide (edge_child_columns e = child_columns)) (edges g).

Definition children_of (g : RelationshipGraph) (parent_table : pystr) (parent_columns : list pystr)
  : list RelationshipEdge :=
  List.filter (fun e => bool_decide (edge_parent_table e = parent_table)
                        && bool_decide (edge_parent_columns e = parent_columns)) (edges g).

Definition PlanCompileError (code : string) : exn := Exn "PlanCompileError" code.
Definition ORPHAN_POLICY_CONFLICT : string := "orphan_policy_conflict".
Definition ORPHAN_FK_POLICY_MISSING : string := "orphan_fk_policy_missing".
Definition ORPHAN_FK_POLICY_INVALID : string := "orphan_fk_policy_invalid".
Definition ORPHAN_FK_POLICY_DUPLICATE : string := "orphan_fk_policy_duplicate".
Definition FK_CYCLE : string := "fk_cycle".

Abbreviation policy_lookup := (gmap relkey OrphanPolicy).

(** ** Resolving relationships to edges *)

(** One group of [by_child]: the set of policies its relationships declare. *)
Definition group_policies (lookup : policy_lookup) (rels : list Relationship) : list OrphanPolicy :=
  fromkeys (omap (fun r => lookup !! rel_key r) rels).

Definition by_child (rels : list Relationship) : odict colkey (list Relationship) :=
  fold_left (fun d r => od_push d (child_key r) r) rels [].

Definition check_policy_conflicts (lookup : policy_lookup) (rels : list Relationship) : result unit :=
  for_each (fun _ g => raise_if (1 <? zlen (group_policies lookup g.2)) (PlanCompileError ORPHAN_POLICY_CONFLICT))
    (by_child rels) tt.

Definition resolve_edge (reg : NamespaceRegistry) (lookup : policy_lookup) (r : Relationship)
  : result RelationshipEdge :=
  namespace ← for_relationship reg r;
  policy ← of_option (PlanCompileError ORPHAN_FK_POLICY_MISSING) (lookup !! rel_key r);
  Ok (MkEdge (rel_parent_table r) (rel_parent_columns r) (rel_child_table r) (rel_child_columns r)
        namespace policy).

(** ** Kahn's algorithm *)

Definition graph_nodes (es : list RelationshipEdge) : gset colkey :=
  fold_left (fun nodes e => {[edge_child e]} ∪ ({[edge_parent e]} ∪ nodes)) es ∅.

(** [indegree] and [out_edges], filled by one pass over the edges. *)
Record KahnTables := MkTables {
  indegree : gmap colkey Z;
  out_edges : gmap colkey (list colkey);
}.

Definition count_edge (t : KahnTables) (e : RelationshipEdge) : result KahnTables :=
  let out' := <[edge_parent e := default [] (out_edges t !! edge_parent e) ++ [edge_child e]]> (out_edges t) in
  d ← of_option (exc "KeyError") (indegree t !! edge_child e);
  Ok (MkTables (<[edge_child e := d + 1]> (indegree t)) out').

Definition kahn_tables (es : list RelationshipEdge) : result KahnTables :=
  for_each count_edge es (MkTables (gset_to_gmap 0 (graph_nodes es)) ∅).

(** The body of [for nxt in sorted(out_edges[node])]. *)
Definition relax (st : gmap colkey Z * list colkey) (nxt : colkey) : result (gmap colkey Z * list colkey) :=
  let '(ind, queue) := st in
  d ← of_option (exc "KeyError") (ind !! nxt);
  let d := d - 1 in
  Ok (<[nxt := d]> ind, if d =? 0 then heappush queue nxt else queue).

(** The [while queue] loop. [fuel] bounds the number of passes; running out of it
    is not a result of the code, see [kahn_total]. *)
Fixpoint kahn (fuel : nat) (out : gmap colkey (list colkey)) (ind : gmap colkey Z)
  (queue ordered : list colkey) : option (result (list colkey)) :=
  match heappop queue with
  | None => Some (Ok ordered)
  | Some (node, queue) =>
      match fuel with
      | O => None
      | S fuel =>
          match for_each relax (sorted (default [] (out !! node))) (ind, queue) with
          | Ok (ind, queue) => kahn fuel out ind queue (ordered ++ [node])
          | Err e => Some (Err e)
          end
      end
  end.

Definition topological_order (es : list RelationshipEdge) : option (result (list colkey)) :=
  match kahn_tables es with
  | Err e => Some (Err e)
  | Ok t =>
      let queue := heapify (fst <$> List.filter (fun nd => nd.2 =? 0) (map_to_list (indegree t))) in
      match kahn (size (graph_nodes es)) (out_edges t) (indegree t) queue [] with
      | Some (Ok ordered) =>
          Some (if negb (zlen ordered =? Z.of_nat (size (graph_nodes es)))
                then Err (PlanCompileError FK_CYCLE) else Ok ordered)
      | r => r
      end
  end.

Definition edges_sorted (es : list RelationshipEdge) : list RelationshipEdge :=
  sorted_by edge_key (fromkeys es).

Definition build_relationship_graph (rels : list Relationship) (reg : NamespaceRegistry)
  (lookup : policy_lookup) : option (result RelationshipGraph) :=
  match check_policy_conflicts lookup rels with
  | Err e => Some (Err e)
  | Ok _ =>
      match map_res (resolve_edge reg lookup) rels with
      | Err e => Some (Err e)
      | Ok es =>
          let es := edges_sorted es in
          r ← topological_order es;
          Some (ordered ← r; Ok (MkGraph es ordered))
      end
  end.

(** ** Completeness of the orphan policies *)

(** One child end of a configuration entry. *)
Definition config_child (pkey : colkey) (policy : pystr) (d : gmap relkey pystr) (child : pyval)
  : result (gmap relkey pystr) :=
  match child with
  | PDict c =>
      match as_str (dget c "table" PNone), str_list (dget c "columns" PNone) with
      | Some child_table, Some child_cols =>
          let key := (pkey, (child_table, child_cols)) in
          _ ← raise_if (match d !! key with Some p => negb (bool_decide (p = policy)) | None => false end)
                (PlanCompileError ORPHAN_FK_POLICY_DUPLICATE);
          Ok (<[key := policy]> d)
      | _, _ => Ok d
      end
  | _ => Ok d
  end.

Definition valid_policy (v : pyval) : option pystr :=
  match v with
  | PStr s => if bool_decide (s ∈ [py "preserve"; py "remap"; py "warn"; py "fail"]) then Some s else None
  | _ => None
  end.

Definition config_entry (d : gmap relkey pystr) (entry : pyval) : result (gmap relkey pystr) :=
  match entry with
  | PDict e =>
      match dget e "parent" PNone with
      | PDict parent =>
          match as_str (dget parent "table" PNone), str_list (dget parent "columns" PNone) with
          | Some parent_table, Some parent_cols =>
              let policy := dget e "orphan_policy" PNone in
              _ ← raise_if (match policy with PNone => true | _ => false end)
                    (PlanCompileError ORPHAN_FK_POLICY_MISSING);
              policy ← of_option (PlanCompileError ORPHAN_FK_POLICY_INVALID) (valid_policy policy);
              match dget e "children" (PList []) with
              | PList children => for_each (config_child (parent_table, parent_cols) policy) children d
              | _ => Ok d
              end
          | _, _ => Ok d
          end
      | _ => Ok d
      end
  | _ => Ok d
  end.

Definition config_lookup (config : list (pystr * pyval)) : result (gmap relkey pystr) :=
  match dget config "relationships" (PList []) with
  | PList entries => for_each config_entry entries ∅
  | _ => Ok ∅
  end.

Definition lookup_rel (cl : gmap relkey pystr) (lookup : policy_lookup) (r : Relationship)
  : result policy_lookup :=
  v ← of_option (PlanCompileError ORPHAN_FK_POLICY_MISSING) (cl !! rel_key r);
  p ← of_option (exc "ValueError") (policy_of_value v);
  Ok (<[rel_key r := p]> lookup).

Definition check_orphan_fk_policy_completeness (config : list (pystr * pyval)) (rels : list Relationship)
  : result policy_lookup :=
  cl ← config_lookup config;
  for_each (lookup_rel cl) rels ∅.

(** ** Topological orders *)

(** [o] lists each node once, every edge's parent before its child. *)
Definition topological (nodes : gset colkey) (E : list relkey) (o : list colkey) : Prop :=
  NoDup o /\ (forall n, n ∈ o <-> n ∈ nodes) /\
  (forall o1 n o2, o = o1 ++ n :: o2 -> forall p, (p, n) ∈ E -> p ∈ o1).

(** [p] is reached from [n] by following edges backwards. *)
Definition parent_rel (E : list relkey) (n p : colkey) : Prop := (p, n) ∈ E.
Definition acyclic (E : list relkey) : Prop := forall n, ~ tc (parent_rel E) n n.

(** Occurrences of [n] in a list. *)
Definition occ (n : colkey) (l : list colkey) : Z := zlen (List.filter (fun x => bool_decide (x = n)) l).

Lemma occ_cons n x l : occ n (x :: l) = (if bool_decide (x = n) then 1 else 0) + occ n l.
Proof. unfold occ. cbn [List.filter]. case_bool_decide; [by rewrite zlen_cons|done]. Qed.

Lemma occ_nonneg n l : 0 <= occ n l.
Proof. apply zlen_nonneg. Qed.

Lemma occ_pos n l : 0 < occ n l <-> n ∈ l.
Proof.
  induction l as [|x l IH]; [split; [done|by intros ?%elem_of_nil]|].
  rewrite occ_cons, elem_of_cons, <- IH. pose proof (occ_nonneg n l).
  case_bool_decide as Hx; split.
  - intros _. left. by symmetry.
  - lia.
  - right. lia.
  - intros [->|]; [done|lia].
Qed.

Lemma occ_perm n l k : l ≡ₚ k -> occ n l = occ n k.
Proof.
  induction 1 as [|x l k _ IH|x y l|? ? ? _ IH1 _ IH2]; [done| | |by etrans].
  - by rewrite !occ_cons, IH.
  - rewrite !occ_cons. lia.
Qed.

(** The relax loop subtracts the occurrences and queues exactly the nodes whose
    count reaches zero. *)
Lemma relax_loop L ind q :
  (forall n, n ∈ L -> exists d, ind !! n = Some d /\ occ n L <= d) ->
  (forall n, n ∈ L -> n ∉ q) -> NoDup q -> Sorted_by id q ->
  exists ind' q', for_each relax L (ind, q) = Ok (ind', q') /\
    (forall n, ind' !! n = (fun d => d - occ n L) <$> ind !! n) /\
    NoDup q' /\ Sorted_by id q' /\
    (forall n, n ∈ q' <-> n ∈ q \/ (n ∈ L /\ ind !! n = Some (occ n L))).
Proof.
  revert ind q. induction L as [|y L IH]; intros ind q Hd Hq Hnd Hs.
  { exists ind, q. split; [done|]. split_and!; try done.
    - intros n. destruct (ind !! n); cbn; [f_equal; change (occ n []) with 0; lia|done].
    - intros n. rewrite elem_of_nil. tauto. }
  destruct (Hd y) as (d & Hy & Hle); [left|]. rewrite occ_cons, bool_decide_eq_true_2 in Hle by done.
  cbn [for_each relax]. rewrite Hy. cbn [of_option mbind result_bind].
  pose proof (occ_nonneg y L) as Hoy.
  set (q1 := if d - 1 =? 0 then heappush q y else q).
  assert (Hq1 : forall n, n ∈ q1 <-> n ∈ q \/ (n = y /\ d = 1)).
  { intros n. unfold q1. destruct (Z.eqb_spec (d - 1) 0).
    - rewrite heappush_perm, elem_of_cons. split; [intros [->|?]|intros [?|[-> _]]]; auto. right. split; [done|lia].
    - split; [auto|]. intros [?|[_ ?]]; [done|lia]. }
  destruct (IH (<[y := d - 1]> ind) q1) as (ind' & q' & Hfor & Hind & Hnd' & Hs' & Hin).
  - intros n Hn. destruct (decide (y = n)) as [->|Hne].
    + rewrite lookup_insert_eq. eexists. split; [done|]. lia.
    + rewrite lookup_insert_ne by done. destruct (Hd n) as (dn & Hdn & Hle'); [by right|].
      rewrite occ_cons, bool_decide_eq_false_2 in Hle' by done. by exists dn.
  - intros n Hn. rewrite Hq1. intros [Hin|[-> Hd1]]; [by apply (Hq n); [right|]|].
    apply occ_pos in Hn. lia.
  - unfold q1. destruct (_ =? 0); [|done]. rewrite heappush_perm. apply list.NoDup_cons.
    split; [apply Hq; left|done].
  - unfold q1. destruct (_ =? 0); [by apply heappush_sorted|done].
  - exists ind', q'. split; [done|]. split_and!; try done.
    + intros n. rewrite Hind, occ_cons. destruct (decide (y = n)) as [->|Hne].
      * rewrite lookup_insert_eq, Hy, bool_decide_eq_true_2 by done. cbn. f_equal. lia.
      * rewrite lookup_insert_ne, bool_decide_eq_false_2 by done. destruct (ind !! n); cbn; [f_equal; lia|done].
    + intros n. rewrite Hin, Hq1, occ_cons, elem_of_cons. destruct (decide (y = n)) as [<-|Hne].
      * rewrite lookup_insert_eq, Hy, bool_decide_eq_true_2 by done.
        assert (y ∈ L <-> 0 < occ y L) as Hiff by (symmetry; apply occ_pos).
        split; [intros [[?|[_ ->]]|[? [= ?]]]|intros [?|[_ [= ->]]]].
        -- by left.
        -- right. split; [by left|]. f_equal. lia.
        -- right. split; [by left|]. f_equal. lia.
        -- by left; left.
        -- destruct (decide (occ y L = 0)) as [Hz|Hz]; [left; right; split; [done|lia]|].
           right. split; [apply Hiff; lia|f_equal; lia].
      * rewrite lookup_insert_ne, bool_decide_eq_false_2 by done.
        assert (~ (n = y)) by done. tauto.
Qed.

Section Kahn.
Context (N : gset colkey) (E : list relkey).
Context (HN : forall p n, (p, n) ∈ E -> p ∈ N /\ n ∈ N).

(** The children of a node, and the number of edges into a node from parents
    outside [D]. *)
Definition succs (p : colkey) : list colkey := snd <$> List.filter (fun e => bool_decide (e.1 = p)) E.
Definition left_in (D : list colkey) (n : colkey) : Z :=
  occ n (snd <$> List.filter (fun e => negb (bool_decide (e.1 ∈ D))) E).

Lemma elem_of_succs p n : n ∈ succs p <-> (p, n) ∈ E.
Proof.
  unfold succs. rewrite list_elem_of_fmap. split.
  - intros ([p' n'] & -> & [Hin Hp]%list_elem_of_In%filter_In). cbn in *. bool_prop. subst.
    by apply list_elem_of_In.
  - intros Hin. exists (p, n). split; [done|]. apply list_elem_of_In, filter_In.
    split; [by apply list_elem_of_In|]. by apply bool_decide_eq_true_2.
Qed.

Lemma left_zero D n : left_in D n = 0 <-> forall p, (p, n) ∈ E -> p ∈ D.
Proof.
  unfold left_in. pose proof (occ_nonneg n (snd <$> List.filter (fun e => negb (bool_decide (e.1 ∈ D))) E)).
  split.
  - intros Hz p Hp. destruct (decide (p ∈ D)) as [|Hn]; [done|exfalso].
    assert (n ∈ snd <$> List.filter (fun e => negb (bool_decide (e.1 ∈ D))) E) as Hin%occ_pos; [|lia].
    apply list_elem_of_fmap. exists (p, n). split; [done|]. apply list_elem_of_In, filter_In.
    split; [by apply list_elem_of_In|]. by rewrite bool_decide_eq_false_2.
  - intros Hall. destruct (decide (n ∈ snd <$> List.filter (fun e => negb (bool_decide (e.1 ∈ D))) E)) as [Hin|Hn].
    + exfalso. apply list_elem_of_fmap in Hin as ([p n'] & -> & [Hp Hb]%list_elem_of_In%filter_In).
      cbn in Hb. bool_prop. apply Hb, Hall. by apply list_elem_of_In.
    + rewrite <- occ_pos in Hn. lia.
Qed.

Lemma left_snoc D x n : x ∉ D -> left_in (D ++ [x]) n = left_in D n - occ n (succs x).
Proof.
  intros Hx. unfold left_in, succs. clear HN. induction E as [|[p c] E' IH]; [done|]. cbn [List.filter fst].
  rewrite (bool_decide_ext (p ∈ D ++ [x]) (p ∈ D \/ p = x)) by by rewrite elem_of_app, list_elem_of_singleton.
  case_bool_decide as H1; case_bool_decide as H2; case_bool_decide as H3; cbn [negb fmap list_fmap snd];
    rewrite ?occ_cons, ?IH; try lia; exfalso; subst; tauto.
Qed.

(** The loop invariant: what is ordered or queued is exactly what has no parent
    left, and the counters count the parents left. *)
Record kahn_inv (D Q : list colkey) (ind : gmap colkey Z) : Prop := {
  ki_nodup : NoDup (D ++ Q);
  ki_sorted : Sorted_by id Q;
  ki_ind n : n ∈ N -> ind !! n = Some (left_in D n);
  ki_avail n : n ∈ D ++ Q <-> n ∈ N /\ left_in D n = 0;
  ki_topo o1 n o2 : D = o1 ++ n :: o2 -> forall p, (p, n) ∈ E -> p ∈ o1;
}.

Lemma snoc_split {A} (D : list A) x o1 n o2 :
  D ++ [x] = o1 ++ n :: o2 -> (o2 = [] /\ D = o1 /\ x = n) \/ exists o2', D = o1 ++ n :: o2'.
Proof.
  destruct o2 as [|y o2] using rev_ind; intros H.
  - apply app_inj_tail in H as [-> ->]. by left.
  - right. exists o2. rewrite app_comm_cons, app_assoc in H. by apply app_inj_tail in H as [-> _].
Qed.

(** One pass of the loop. *)
Lemma kahn_pass (D : list colkey) (x : colkey) (Q : list colkey) (ind : gmap colkey Z) (out : gmap colkey (list colkey)) :
  (forall p, default [] (out !! p) = succs p) ->
  kahn_inv D (x :: Q) ind ->
  exists ind' Q', for_each relax (sorted (default [] (out !! x))) (ind, Q) = Ok (ind', Q') /\
    kahn_inv (D ++ [x]) Q' ind'.
Proof.
  intros Hout [Hnd Hs Hi Ha Ht]. rewrite Hout.
  apply list.NoDup_app in Hnd as (HD & Hdis & [HxQ HQ]%list.NoDup_cons).
  assert (HxD : x ∉ D) by (intros Hx; apply (Hdis x Hx); left).
  assert (Hsucc : forall n, n ∈ succs x -> n ∈ N /\ n ∉ D ++ x :: Q).
  { intros n Hn%elem_of_succs. destruct (HN _ _ Hn) as [_ HnN]. split; [done|].
    intros [_ Hz]%Ha. by apply HxD, (proj1 (left_zero D n) Hz). }
  assert (Hle : forall n, occ n (succs x) <= left_in D n).
  { intros n. pose proof (left_snoc D x n HxD). pose proof (occ_nonneg n (snd <$> List.filter
      (fun e => negb (bool_decide (e.1 ∈ D ++ [x]))) E)) as H0. fold (left_in (D ++ [x]) n) in H0. lia. }
  destruct (relax_loop (sorted (succs x)) ind Q) as (ind' & Q' & Hfor & Hind & HQ' & HsQ' & HinQ').
  { intros n Hn. rewrite elem_of_sorted in Hn. destruct (Hsucc n Hn) as [HnN _].
    exists (left_in D n). split; [by apply Hi|]. rewrite (occ_perm _ _ _ (sorted_perm _)). apply Hle. }
  { intros n Hn HnQ. rewrite elem_of_sorted in Hn. apply (Hsucc n Hn). apply elem_of_app. right. by right. }
  { done. } { by inversion Hs. }
  exists ind', Q'. split; [done|].
  assert (Hocc : forall n, occ n (sorted (succs x)) = occ n (succs x))
    by (intros; apply occ_perm, sorted_perm).
  assert (HQavail : forall n, n ∈ Q' <-> n ∈ Q \/ (n ∈ succs x /\ left_in D n = occ n (succs x))).
  { intros n. rewrite HinQ', elem_of_sorted, Hocc. split; (intros [?|[Hn He]]; [by left|right; split; [done|]]).
    - rewrite Hi in He by by apply Hsucc. congruence.
    - rewrite Hi by by apply Hsucc. congruence. }
  constructor.
  - apply list.NoDup_app. split_and!; [|intros n Hn HnQ'|done].
    + apply list.NoDup_app. split_and!; [done|by intros n Hn ->%list_elem_of_singleton|apply NoDup_singleton].
    + apply HQavail in HnQ' as [HnQ|[Hns _]].
      * apply elem_of_app in Hn as [Hn| ->%list_elem_of_singleton]; [|done].
        apply (Hdis n Hn). by right.
      * apply (Hsucc n Hns). apply elem_of_app in Hn as [Hn| ->%list_elem_of_singleton];
          apply elem_of_app; [by left|right; left].
  - done.
  - intros n Hn. rewrite Hind, Hi, Hocc by done. cbn. f_equal. rewrite left_snoc by done. lia.
  - intros n. rewrite left_snoc by done. specialize (Ha n). rewrite elem_of_app, elem_of_cons in Ha.
    rewrite !elem_of_app, list_elem_of_singleton, HQavail.
    pose proof (occ_nonneg n (succs x)). pose proof (occ_pos n (succs x)) as Hp. specialize (Hle n).
    specialize (Hsucc n). split.
    + intros [[Hn| ->]|[Hn|[Hn He]]]; [..|split; [by apply Hsucc|lia]];
        destruct Ha as [Ha _]; destruct Ha as [HnN Hz]; auto; split; try done; lia.
    + intros [HnN Hz]. destruct (decide (occ n (succs x) = 0)) as [H0|H0].
      * destruct Ha as [_ Ha]. destruct Ha as [?|[?|?]]; [split; [done|lia]|auto..].
      * right. right. split; [apply Hp; lia|lia].
  - intros o1 n o2 Heq p Hp. apply snoc_split in Heq as [(-> & <- & <-)|(o2' & ->)].
    + assert (Hx0 : left_in D x = 0) by (apply Ha, elem_of_app; right; left).
      by apply (proj1 (left_zero D x) Hx0).
    + by apply (Ht o1 n o2').
Qed.

(** The loop ends within as many passes as there are nodes. *)
Lemma kahn_total (out : gmap colkey (list colkey)) (fuel : nat) (D Q : list colkey) (ind : gmap colkey Z) :
  (forall p, default [] (out !! p) = succs p) -> kahn_inv D Q ind ->
  (fuel + length D = size N)%nat ->
  exists T ind', kahn fuel out ind Q D = Some (Ok (D ++ T)) /\ kahn_inv (D ++ T) [] ind' /\
    (forall T', topological N E (D ++ T') -> py_leb T T' = true).
Proof.
  intros Hout. revert D Q ind. induction fuel as [|fuel IH]; intros D Q ind Hinv Hf;
    (destruct Q as [|x Q]; [exists [], ind; rewrite app_nil_r; split; [done|]; split; [done|];
                            intros [|? ?]; done|]).
  - exfalso. assert (HxN : x ∈ N) by (apply (ki_avail _ _ _ Hinv), elem_of_app; right; left).
    assert (Hsub : list_to_set (x :: D) ⊆ N).
    { intros n Hn%elem_of_list_to_set. apply elem_of_cons in Hn as [->|Hn]; [done|].
      apply (ki_avail _ _ _ Hinv), elem_of_app. by left. }
    apply subseteq_size in Hsub. rewrite size_list_to_set in Hsub; [cbn in Hsub; lia|].
    pose proof (ki_nodup _ _ _ Hinv) as (HD & Hdis & _)%list.NoDup_app.
    apply list.NoDup_cons. split; [|done]. intros Hx. apply (Hdis x Hx). left.
  - destruct (kahn_pass D x Q ind out Hout Hinv) as (ind1 & Q1 & Hfor & Hinv1).
    destruct (IH (D ++ [x]) Q1 ind1 Hinv1) as (T & ind' & Hk & HT & Hmin).
    { rewrite length_app. cbn. lia. }
    exists (x :: T), ind'. rewrite <- app_assoc in Hk, HT. cbn [app] in Hk, HT.
    split; [cbn [kahn heappop]; by rewrite Hfor|]. split; [done|].
    intros T' Htopo. destruct T' as [|y T'].
    + exfalso. destruct Htopo as (_ & Hall & _). rewrite app_nil_r in Hall.
      pose proof (ki_nodup _ _ _ Hinv) as (HD & Hdis & _)%list.NoDup_app.
      assert (HxN : x ∈ N) by (apply (ki_avail _ _ _ Hinv), elem_of_app; right; left).
      apply (Hdis x); [by apply Hall|left].
    + assert (Hy : y ∈ x :: Q).
      { destruct Htopo as (Hnd & Hall & Hpar).
        assert (HyDQ : y ∈ D ++ x :: Q).
        { apply (ki_avail _ _ _ Hinv). split; [apply Hall, elem_of_app; right; left|].
          apply left_zero. intros p. by apply (Hpar D y T'). }
        apply elem_of_app in HyDQ as [HyD|]; [exfalso|done].
        apply list.NoDup_app in Hnd as (_ & Hdis & _). apply (Hdis y HyD). left. }
      assert (Hxy : py_leb x y = true).
      { apply elem_of_cons in Hy as [->|Hy]; [apply py_leb_refl|].
        pose proof (ki_sorted _ _ _ Hinv) as HsQ. inversion HsQ as [|? ? _ HF]; subst.
        by apply (proj1 (list.Forall_forall _ _) HF). }
      apply py_leb_cases in Hxy as [->|Hlt].
      * specialize (Hmin T'). rewrite <- app_assoc in Hmin. specialize (Hmin Htopo).
        unfold py_leb in *. cbn. rewrite py_cmp_refl. exact Hmin.
      * unfold py_leb. cbn. by rewrite Hlt.
Qed.
End Kahn.

(** ** Cycles *)

Lemma elem_of_split_unique {A} (o o1 o2 : list A) n o1' o2' :
  NoDup o -> o = o1 ++ n :: o2 -> o = o1' ++ n :: o2' -> o1 = o1'.
Proof.
  intros Hnd -> Heq. apply list.NoDup_app in Hnd as (_ & Hdis & [Hn _]%list.NoDup_cons).
  revert o1' Heq Hdis. induction o1 as [|x o1 IH]; intros [|y o1'] Heq Hdis; cbn in Heq.
  - done.
  - injection Heq as -> Heq. exfalso. apply Hn. rewrite Heq. apply elem_of_app. right. left.
  - injection Heq as -> Heq. exfalso. apply (Hdis n); left.
  - injection Heq as -> Heq. f_equal. apply IH; [done|]. intros z Hz. apply Hdis. by right.
Qed.

(** A graph with a topological order has no cycle. *)
Lemma topological_acyclic N E o :
  (forall p n, (p, n) ∈ E -> p ∈ N /\ n ∈ N) -> topological N E o -> acyclic E.
Proof.
  intros HN (Hnd & Hall & Hpar) n.
  assert (Hback : forall a b, tc (parent_rel E) a b -> forall o1 o2, o = o1 ++ a :: o2 -> b ∈ o1).
  { induction 1 as [a b Hab|a b c Hab _ IH]; intros o1 o2 Ho; [by eapply Hpar|].
    assert (Hb : b ∈ o1) by by eapply Hpar.
    apply list_elem_of_split in Hb as (l1 & l2 & ->).
    rewrite <- app_assoc in Ho. cbn in Ho. specialize (IH _ _ Ho). apply elem_of_app. by left. }
  intros Hc. assert (Hn : n ∈ o).
  { apply Hall. inversion Hc as [? ? Hp|? ? ? Hp _]; subst; apply (HN _ _ Hp). }
  apply list_elem_of_split in Hn as (l1 & l2 & Ho). specialize (Hback n n Hc l1 l2 Ho).
  rewrite Ho in Hnd. apply list.NoDup_app in Hnd as (_ & Hdis & _). apply (Hdis n Hback). left.
Qed.

(** If no node outside [D] has all its parents in [D], an acyclic graph has every
    node in [D]. *)
Lemma acyclic_complete (N : gset colkey) E (D : list colkey) :
  (forall p n, (p, n) ∈ E -> p ∈ N /\ n ∈ N) -> acyclic E ->
  (forall n, n ∈ N -> (forall p, (p, n) ∈ E -> p ∈ D) -> n ∈ D) ->
  forall n, n ∈ N -> n ∈ D.
Proof.
  intros HN Hac Hclosed n Hn.
  assert (Hsn : sn (parent_rel E) n).
  { apply tc_finite_sn.
    - intros a Ha. by apply (Hac a).
    - exists (elements N). intros b Hb. apply elem_of_elements.
      assert (Hlast : forall a b, tc (parent_rel E) a b -> b ∈ N).
      { clear -HN. induction 1 as [a b Hab|]; [apply (HN _ _ Hab)|done]. }
      by eapply Hlast. }
  revert Hn. induction Hsn as [n _ IH]. intros Hn. apply Hclosed; [done|].
  intros p Hp. apply IH; [done|]. apply (HN _ _ Hp).
Qed.

(** ** The tables and the whole algorithm *)

Lemma graph_nodes_elem es n :
  n ∈ graph_nodes es <-> exists e, e ∈ es /\ (n = edge_parent e \/ n = edge_child e).
Proof.
  unfold graph_nodes.
  assert (Hgen : forall s : gset colkey, n ∈ fold_left (fun nodes e => {[edge_child e]} ∪ ({[edge_parent e]} ∪ nodes)) es s <->
     n ∈ s \/ exists e, e ∈ es /\ (n = edge_parent e \/ n = edge_child e)).
  { induction es as [|e es IH]; intros s; cbn [fold_left].
    - split; [by left|]. intros [?|(e & He & _)]; [done|by apply elem_of_nil in He].
    - rewrite IH, !elem_of_union, !elem_of_singleton. setoid_rewrite elem_of_cons. split.
      + intros [[->|[->|?]]|(e' & He & Hn)]; eauto 8.
      + intros [?|(e' & [->|He] & [->| ->])]; eauto 8. }
  rewrite Hgen. rewrite elem_of_empty. tauto.
Qed.

Abbreviation edge_pairs es := (edge_key <$> es).

Lemma edge_pairs_nodes es p n :
  (p, n) ∈ edge_pairs es -> p ∈ graph_nodes es /\ n ∈ graph_nodes es.
Proof.
  intros (e & [= -> ->] & He)%list_elem_of_fmap. rewrite !graph_nodes_elem. split; exists e; auto.
Qed.

Lemma kahn_tables_spec es :
  exists t, kahn_tables es = Ok t /\
    (forall n, indegree t !! n = if bool_decide (n ∈ graph_nodes es) then Some (left_in (edge_pairs es) [] n) else None) /\
    (forall p, default [] (out_edges t !! p) = succs (edge_pairs es) p).
Proof.
  unfold kahn_tables. set (N := graph_nodes es).
  assert (HN : Forall (fun e => edge_child e ∈ N) es).
  { apply list.Forall_forall. intros e He. apply graph_nodes_elem. eauto. }
  clearbody N. assert (Hgen : forall pre t, 
    (forall n, indegree t !! n = if bool_decide (n ∈ N) then Some (left_in (edge_pairs pre) [] n) else None) ->
    (forall p, default [] (out_edges t !! p) = succs (edge_pairs pre) p) ->
    exists t', for_each count_edge es t = Ok t' /\
    (forall n, indegree t' !! n = if bool_decide (n ∈ N) then Some (left_in (edge_pairs (pre ++ es)) [] n) else None) /\
    (forall p, default [] (out_edges t' !! p) = succs (edge_pairs (pre ++ es)) p)).
  { induction HN as [|e es' He HN IH]; intros pre t Hi Ho; [exists t; by rewrite app_nil_r|].
    set (t1 := MkTables (<[edge_child e := left_in (edge_pairs pre) [] (edge_child e) + 1]> (indegree t))
      (<[edge_parent e := default [] (out_edges t !! edge_parent e) ++ [edge_child e]]> (out_edges t))).
    assert (Hce : count_edge t e = Ok t1) by (unfold count_edge; by rewrite Hi, bool_decide_eq_true_2).
    cbn [for_each]. rewrite Hce. cbn [mbind result_bind].
    destruct (IH (pre ++ [e]) t1) as (t' & H1 & H2 & H3).
    - intros n. unfold t1. cbn [indegree].
      assert (Hl : left_in (edge_pairs (pre ++ [e])) [] n =
                   left_in (edge_pairs pre) [] n + if bool_decide (edge_child e = n) then 1 else 0).
      { unfold left_in, occ. rewrite !fmap_app, filter_app, fmap_app, filter_app, zlen_app. f_equal.
        cbn [fmap list_fmap List.filter fst edge_key].
        rewrite bool_decide_eq_false_2 by apply not_elem_of_nil. cbn. by case_bool_decide. }
      rewrite Hl. destruct (decide (edge_child e = n)) as [<-|Hne].
      + by rewrite lookup_insert_eq, !bool_decide_eq_true_2.
      + rewrite lookup_insert_ne, Hi, (bool_decide_eq_false_2 (edge_child e = n)) by done.
        by rewrite Z.add_0_r.
    - intros p. unfold t1. cbn [out_edges]. unfold succs in *. rewrite fmap_app, filter_app, fmap_app. cbn.
      destruct (decide (edge_parent e = p)) as [<-|Hne].
      + by rewrite lookup_insert_eq, bool_decide_eq_true_2, Ho.
      + rewrite lookup_insert_ne, bool_decide_eq_false_2 by done. cbn. by rewrite app_nil_r, Ho.
    - rewrite <- app_assoc in H2, H3. by exists t'. }
  apply (Hgen []).
  - intros n. cbn [indegree]. rewrite lookup_gset_to_gmap. case_bool_decide.
    + by rewrite option_guard_True.
    + by rewrite option_guard_False.
  - intros p. cbn. by rewrite lookup_empty.
Qed.

Lemma topological_order_spec es :
  let N := graph_nodes es in
  let E := edge_pairs es in
  (exists o, topological_order es = Some (Ok o) /\ topological N E o /\
     (forall o', topological N E o' -> py_leb o o' = true)) \/
  (topological_order es = Some (Err (PlanCompileError FK_CYCLE)) /\ ~ acyclic E).
Proof.
  intros N E. unfold topological_order. destruct (kahn_tables_spec es) as (t & -> & Hi & Ho).
  set (Q := heapify _). pose proof (edge_pairs_nodes es) as HN. fold E in HN, Hi, Ho. fold N in HN, Hi |- *.
  assert (HQ : forall n, n ∈ Q <-> n ∈ N /\ left_in E [] n = 0).
  { intros n. unfold Q, heapify. rewrite elem_of_sorted, list_elem_of_fmap. split.
    - intros ([k d] & -> & [Hin Hd]%list_elem_of_In%filter_In). cbn in *. bool_prop.
      apply list_elem_of_In, elem_of_map_to_list in Hin. rewrite Hi in Hin. case_bool_decide; [|done].
      split; [done|congruence].
    - intros [Hn Hz]. exists (n, 0). split; [done|]. apply list_elem_of_In, filter_In. split; [|done].
      apply list_elem_of_In, elem_of_map_to_list. by rewrite Hi, bool_decide_eq_true_2, Hz. }
  destruct (kahn_total N E HN (out_edges t) (size N) [] Q (indegree t)) as (T & ind' & Hk & HT & Hmin); [done| |cbn; lia|].
  { constructor; cbn [app].
    - unfold Q, heapify. rewrite sorted_perm. clear. pose proof (NoDup_fst_map_to_list (indegree t)) as Hnd.
      induction (map_to_list (indegree t)) as [|[k d] l IH]; cbn in *; [constructor|].
      apply list.NoDup_cons in Hnd as [Hk Hnd]. destruct (d =? 0); [|by apply IH]. cbn.
      apply list.NoDup_cons. split; [|by apply IH]. intros Hin. apply Hk.
      apply list_elem_of_fmap in Hin as (x & -> & [Hx _]%list_elem_of_In%filter_In).
      apply list_elem_of_fmap. exists x. split; [done|]. by apply list_elem_of_In.
    - apply heapify_sorted.
    - intros n Hn. by rewrite Hi, bool_decide_eq_true_2.
    - done.
    - intros o1 n o2 Hnil. by destruct o1. }
  rewrite Hk. cbn [app] in *. destruct HT as [Hnd _ _ Ha Ht]. rewrite app_nil_r in *.
  assert (Hsub : list_to_set T ⊆ N) by (intros n Hn%elem_of_list_to_set; by apply Ha).
  destruct (Z.eqb_spec (zlen T) (Z.of_nat (size N))) as [Heq|Hne]; cbn [negb].
  - left. exists T. split; [done|]. split; [|done]. split; [done|]. split; [|done].
    intros n. split; [by intros [? _]%Ha|]. intros Hn. unfold zlen in Heq.
    assert (HTN : list_to_set T = N); [|by rewrite <- HTN, elem_of_list_to_set in Hn].
    apply set_eq. intros x. split; [apply Hsub|].
    apply set_subseteq_size_equiv in Hsub; [by rewrite Hsub|]. rewrite size_list_to_set by done. lia.
  - right. split; [done|]. intros Hac. apply Hne. unfold zlen. f_equal.
    rewrite <- (size_list_to_set (C := gset colkey) T) by done. f_equal. apply set_eq. intros n. split; [apply Hsub|].
    intros Hn. apply elem_of_list_to_set. apply (acyclic_complete N E); try done.
    intros x Hx Hpar. apply Ha. split; [done|]. by apply left_zero.
Qed.

(** ** Policies *)

Lemma by_child_get rels k :
  default [] (od_get (by_child rels) k) = List.filter (fun r => bool_decide (child_key r = k)) rels.
Proof.
  unfold by_child.
  assert (Hgen : forall d, default [] (od_get (fold_left (fun d r => od_push d (child_key r) r) rels d) k) =
    default [] (od_get d k) ++ List.filter (fun r => bool_decide (child_key r = k)) rels); [|apply (Hgen [])].
  induction rels as [|r rels IH]; intros d; cbn [fold_left List.filter]; [by rewrite app_nil_r|].
  rewrite IH. unfold od_push. rewrite od_get_set. case_bool_decide; [|done]. subst. cbn. by rewrite <- app_assoc.
Qed.

Lemma by_child_nodup rels : NoDup (od_keys (by_child rels)).
Proof.
  unfold by_child. assert (Hgen : forall d, NoDup (od_keys d) ->
    NoDup (od_keys (fold_left (fun d r => od_push d (child_key r) r) rels d))); [|apply Hgen; constructor].
  induction rels as [|r rels IH]; intros d Hd; cbn; [done|]. apply IH. by apply od_set_nodup.
Qed.

Lemma by_child_elem rels k g :
  (k, g) ∈ by_child rels -> g = List.filter (fun r => bool_decide (child_key r = k)) rels.
Proof.
  intros Hin%od_get_unique; [|apply by_child_nodup]. by rewrite <- by_child_get, Hin.
Qed.

Lemma zlen_le_one {A} `{EqDecision A} (l : list A) :
  NoDup l -> zlen l <= 1 <-> forall x y, x ∈ l -> y ∈ l -> x = y.
Proof.
  intros Hnd. destruct l as [|a [|b l]].
  - split; [by intros _ ? ? ?%elem_of_nil|done].
  - split; [|done]. by intros _ x y ->%list_elem_of_singleton ->%list_elem_of_singleton.
  - rewrite !zlen_cons. pose proof (zlen_nonneg l). split; [lia|]. intros H2.
    apply list.NoDup_cons in Hnd as [Ha _]. exfalso. apply Ha. rewrite (H2 a b); [left|left|right; left].
Qed.

(** The conflict check passes exactly when the relationships of each child agree. *)
Lemma policy_conflicts_spec lookup rels :
  check_policy_conflicts lookup rels = Ok tt <->
  forall r1 r2 p1 p2, r1 ∈ rels -> r2 ∈ rels -> child_key r1 = child_key r2 ->
    lookup !! rel_key r1 = Some p1 -> lookup !! rel_key r2 = Some p2 -> p1 = p2.
Proof.
  assert (Hloop : check_policy_conflicts lookup rels = Ok tt <->
    Forall (fun g => zlen (group_policies lookup g.2) <= 1) (by_child rels)).
  { unfold check_policy_conflicts. induction (by_child rels) as [|g l IH]; cbn [for_each]; [done|].
    rewrite Forall_cons_iff, <- IH. destruct (Z.ltb_spec 1 (zlen (group_policies lookup g.2))); cbn;
      intuition (done || lia). }
  rewrite Hloop, list.Forall_forall. unfold group_policies. setoid_rewrite zlen_le_one; [|apply fromkeys_nodup].
  setoid_rewrite elem_of_fromkeys. setoid_rewrite list_elem_of_omap. split.
  - intros Hall r1 r2 p1 p2 H1 H2 Hk Hp1 Hp2.
    assert (Hin : (child_key r1, List.filter (fun r => bool_decide (child_key r = child_key r1)) rels) ∈ by_child rels).
    { pose proof (by_child_get rels (child_key r1)) as Hg.
      destruct (od_get (by_child rels) (child_key r1)) as [g|] eqn:Hod; cbn in Hg.
      - subst g. by apply od_get_elem.
      - exfalso. assert (Hr : r1 ∈ []); [|by apply elem_of_nil in Hr]. rewrite Hg.
        apply list_elem_of_In, filter_In. split; [by apply list_elem_of_In|by apply bool_decide_eq_true_2]. }
    apply (Hall _ Hin); cbn [snd].
    + exists r1. split; [|done]. apply list_elem_of_In, filter_In.
      split; [by apply list_elem_of_In|by apply bool_decide_eq_true_2].
    + exists r2. split; [|done]. apply list_elem_of_In, filter_In.
      split; [by apply list_elem_of_In|by apply bool_decide_eq_true_2].
  - intros Hall [k g] Hin p1 p2 (r1 & H1 & Hp1) (r2 & H2 & Hp2). cbn [snd] in *.
    rewrite (by_child_elem _ _ _ Hin) in H1, H2.
    apply list_elem_of_In, filter_In in H1 as [H1 Hk1], H2 as [H2 Hk2]. bool_prop.
    apply (Hall r1 r2); [by apply list_elem_of_In..|congruence|done|done].
Qed.

Lemma map_res_elem {A B} (f : A -> result B) l bs b :
  map_res f l = Ok bs -> b ∈ bs <-> exists a, a ∈ l /\ f a = Ok b.
Proof.
  revert bs. induction l as [|a l IH]; intros bs H; cbn in H; ok_inv.
  - split; [by intros ?%elem_of_nil|]. by intros (a & ?%elem_of_nil & _).
  - rewrite elem_of_cons, (IH _ eq_refl). split.
    + intros [->|(a' & Ha & Hf)]; [exists a; split; [left|done]|exists a'; split; [by right|done]].
    + intros (a' & [->|Ha]%elem_of_cons & Hf); [left; congruence|right; by exists a'].
Qed.

Lemma map_res_perm {A B} (f : A -> result B) l l' bs :
  l ≡ₚ l' -> map_res f l = Ok bs -> exists bs', map_res f l' = Ok bs' /\ bs ≡ₚ bs'.
Proof.
  intros Hp. revert bs. induction Hp as [|a l l' _ IH|a b l|l l' l'' _ IH1 _ IH2]; intros bs H; cbn in H |- *; ok_inv.
  - by exists [].
  - destruct (IH _ eq_refl) as (bs' & -> & Hp). cbn. eexists. split; [done|]. by constructor.
  - cbn. eexists. split; [done|]. constructor.
  - destruct (IH1 _ H) as (bs1 & H1 & Hp1). destruct (IH2 _ H1) as (bs2 & H2 & Hp2).
    exists bs2. split; [done|]. by etrans.
Qed.

Lemma elem_of_edges_sorted es e : e ∈ edges_sorted es <-> e ∈ es.
Proof. unfold edges_sorted. by rewrite elem_of_sorted_by, elem_of_fromkeys. Qed.

(** The outcome of the build once every relationship resolves. *)
Lemma build_graph_unfold rels reg lookup es :
  check_policy_conflicts lookup rels = Ok tt -> map_res (resolve_edge reg lookup) rels = Ok es ->
  build_relationship_graph rels reg lookup =
    (r ← topological_order (edges_sorted es); Some (ordered ← r; Ok (MkGraph (edges_sorted es) ordered))).
Proof. intros H1 H2. unfold build_relationship_graph. by rewrite H1, H2. Qed.

Lemma build_graph_inv rels reg lookup g :
  build_relationship_graph rels reg lookup = Some (Ok g) ->
  exists es, check_policy_conflicts lookup rels = Ok tt /\ map_res (resolve_edge reg lookup) rels = Ok es /\
    edges g = edges_sorted es /\ topological_order (edges g) = Some (Ok (ordering g)).
Proof.
  unfold build_relationship_graph. destruct (check_policy_conflicts _ _) as [[]|]; [|discriminate].
  destruct (map_res _ _) as [es|]; [|discriminate]. intros H. exists es.
  destruct (topological_order (edges_sorted es)) as [[o|]|] eqn:Ht; try discriminate.
  injection H as <-. done.
Qed.

Lemma topological_perm (N N' : gset colkey) E E' o :
  (forall n, n ∈ N <-> n ∈ N') -> (forall e, e ∈ E <-> e ∈ E') -> topological N E o -> topological N' E' o.
Proof.
  intros HN HE (H1 & H2 & H3). split; [done|]. split.
  - intros n. rewrite H2. apply HN.
  - intros o1 n o2 Ho p Hp. apply (H3 o1 n o2 Ho). by apply HE.
Qed.

(** ** Completeness of the policy lookup *)

Lemma policy_of_value_inv v p : policy_of_value v = Some p -> policy_value p = v.
Proof. intros [_ Hv]%find_some. by bool_prop. Qed.

Lemma lookup_rel_loop cl rels lookup0 lookup :
  for_each (lookup_rel cl) rels lookup0 = Ok lookup ->
  forall k, lookup !! k =
    if bool_decide (k ∈ rel_key <$> rels) then cl !! k ≫= policy_of_value else lookup0 !! k.
Proof.
  revert lookup0. induction rels as [|r rels IH]; intros lookup0 H k; cbn in H; [ok_inv; done|].
  ok_step. rewrite (IH _ H k). unfold lookup_rel in E. ok_inv. cbn [fmap list_fmap].
  repeat case_bool_decide; try done.
  - exfalso. apply H1. by right.
  - apply elem_of_cons in H1 as [->|?]; [|done]. by rewrite lookup_insert_eq, Heqo.
  - rewrite lookup_insert_ne; [done|]. intros <-. apply H1. left.
Qed.

Lemma lookup_rel_all cl rels lookup0 lookup :
  for_each (lookup_rel cl) rels lookup0 = Ok lookup ->
  forall r, r ∈ rels -> exists v p, cl !! rel_key r = Some v /\ policy_of_value v = Some p.
Proof.
  revert lookup0. induction rels as [|r rels IH]; intros lookup0 H r'; [by intros ?%elem_of_nil|].
  cbn in H. ok_step. intros [->|Hin]%elem_of_cons; [|by eapply IH].
  unfold lookup_rel in E. ok_inv. eauto.
Qed.

Lemma resolve_not_missing reg lookup r :
  is_Some (lookup !! rel_key r) -> resolve_edge reg lookup r <> Err (PlanCompileError ORPHAN_FK_POLICY_MISSING).
Proof.
  intros [p Hp]. unfold resolve_edge, for_relationship. rewrite Hp.
  destruct (rel_namespace r); [done|]. destruct (for_column reg (parent_key r)); [done|].
  by destruct (for_column reg (child_key r)).
Qed.

(** ** Claims *)

(** C25: The mask order is correct, complete and canonical. When the graph is
    built, [ordering] lists every node of the edges exactly once with every
    parent before its children, and it is the lexicographically smallest of all
    such orders. *)
Theorem graph_ordering_topological rels reg lookup g :
  build_relationship_graph rels reg lookup = Some (Ok g) ->
  let N := graph_nodes (edges g) in
  let E := edge_pairs (edges g) in
  topological N E (ordering g) /\
  forall o, topological N E o -> py_leb (ordering g) o = true.
Proof.
  intros (es & _ & _ & Hes & Ht)%build_graph_inv N E.
  destruct (topological_order_spec (edges g)) as [(o & Ho & Htop & Hmin)|[Herr _]];
    [|rewrite Herr in Ht; discriminate].
  rewrite Ho in Ht. injection Ht as <-. done.
Qed.

(** Cycles are detected exactly. Once policies agree and every relationship
    resolves, the build always finishes, within one pass per node; it raises
    [fk_cycle] exactly when the foreign keys form a cycle and returns a graph
    exactly when they do not. *)
Theorem graph_cycle_detection rels reg lookup es :
  check_policy_conflicts lookup rels = Ok tt -> map_res (resolve_edge reg lookup) rels = Ok es ->
  let result := build_relationship_graph rels reg lookup in
  (result = Some (Err (PlanCompileError FK_CYCLE)) <-> ~ acyclic (edge_pairs es)) /\
  ((exists g, result = Some (Ok g)) <-> acyclic (edge_pairs es)).
Proof.
  intros H1 H2. cbv zeta. rewrite (build_graph_unfold _ _ _ _ H1 H2).
  assert (Hac : acyclic (edge_pairs (edges_sorted es)) <-> acyclic (edge_pairs es)).
  { assert (Hpr : forall n p, parent_rel (edge_pairs (edges_sorted es)) n p <-> parent_rel (edge_pairs es) n p).
    { intros n p. unfold parent_rel. rewrite !list_elem_of_fmap. by setoid_rewrite elem_of_edges_sorted. }
    assert (Htc : forall R R' : colkey -> colkey -> Prop, (forall n p, R n p -> R' n p) -> forall n p, tc R n p -> tc R' n p).
    { intros R R' HR n p. induction 1; [apply tc_once; by apply HR|eapply tc_l; [by apply HR|done]]. }
    split; intros H n Hn; apply (H n); revert Hn; apply Htc; intros; by apply Hpr. }
  rewrite <- Hac.
  destruct (topological_order_spec (edges_sorted es)) as [(o & -> & Htop & _)|[-> Hcyc]]; cbn.
  - pose proof (topological_acyclic _ _ _ (edge_pairs_nodes _) Htop) as Ha.
    split; split; [discriminate|done|done|]. intros _. by eexists.
  - split; split; [done|done|by intros [? ?]|done].
Qed.

(** The edges are the declared relationships. A built graph lists each
    distinct resolved relationship once, in the order of its key, and nothing
    else; and the relationships that share a child agree on their policy. *)
Theorem graph_edges_exact rels reg lookup g :
  build_relationship_graph rels reg lookup = Some (Ok g) ->
  NoDup (edges g) /\ Sorted_by edge_key (edges g) /\
  (forall e, e ∈ edges g <-> exists r, r ∈ rels /\ resolve_edge reg lookup r = Ok e) /\
  (forall e1 e2, e1 ∈ edges g -> e2 ∈ edges g -> edge_child e1 = edge_child e2 ->
     edge_orphan_policy e1 = edge_orphan_policy e2).
Proof.
  intros (es & Hc & Hm & Hes & _)%build_graph_inv. rewrite Hes.
  assert (Hin : forall e, e ∈ edges_sorted es <-> exists r, r ∈ rels /\ resolve_edge reg lookup r = Ok e).
  { intros e. rewrite elem_of_edges_sorted. by apply map_res_elem. }
  split; [unfold edges_sorted; rewrite sorted_by_perm; apply fromkeys_nodup|].
  split; [apply sorted_by_sorted|]. split; [done|].
  intros e1 e2 (r1 & H1 & He1)%Hin (r2 & H2 & He2)%Hin Hchild.
  unfold resolve_edge in He1, He2. ok_inv. cbn in *.
  eapply (proj1 (policy_conflicts_spec lookup rels) Hc r1 r2); try done.
Qed.

(** The graph does not depend on the order of declaration: permuting the
    relationships gives the same graph, provided two declarations of the same
    foreign key name the same namespace. *)
Theorem graph_order_independent rels rels' reg lookup g :
  rels ≡ₚ rels' ->
  (forall r1 r2, r1 ∈ rels -> r2 ∈ rels -> rel_key r1 = rel_key r2 -> rel_namespace r1 = rel_namespace r2) ->
  build_relationship_graph rels reg lookup = Some (Ok g) ->
  build_relationship_graph rels' reg lookup = Some (Ok g).
Proof.
  intros Hp Hns (es & Hc & Hm & Hes & Ht)%build_graph_inv.
  assert (Hc' : check_policy_conflicts lookup rels' = Ok tt).
  { apply policy_conflicts_spec. intros r1 r2 p1 p2. rewrite <- Hp. by apply policy_conflicts_spec. }
  destruct (map_res_perm _ _ _ _ Hp Hm) as (es' & Hm' & Hpe).
  rewrite (build_graph_unfold _ _ _ _ Hc' Hm').
  assert (Heq : edges_sorted es' = edges_sorted es).
  { unfold edges_sorted. symmetry. apply sorted_by_perm_eq.
    - intros e1 e2. rewrite !elem_of_fromkeys, !(map_res_elem _ _ _ _ Hm).
      intros (r1 & H1 & He1) (r2 & H2 & He2) Hk. unfold resolve_edge in He1, He2. ok_inv.
      unfold edge_key, edge_parent, edge_child in Hk. cbn in Hk.
      injection Hk as Hk1 Hk2 Hk3 Hk4.
      assert (Hkey : rel_key r1 = rel_key r2).
      { unfold rel_key, parent_key, child_key. by rewrite Hk1, Hk2, Hk3, Hk4. }
      assert (Hres : for_relationship reg r1 = for_relationship reg r2).
      { unfold for_relationship. rewrite (Hns r1 r2 H1 H2 Hkey).
        assert (parent_key r1 = parent_key r2) as -> by (unfold parent_key; congruence).
        by assert (child_key r1 = child_key r2) as -> by (unfold child_key; congruence). }
      rewrite Hk1, Hk2, Hk3, Hk4. f_equal; congruence.
    - apply NoDup_Permutation; [apply fromkeys_nodup..|]. intros e. rewrite !elem_of_fromkeys. by rewrite Hpe. }
  rewrite Heq, <- Hes, Ht. cbn. by destruct g.
Qed.

(** The policy check is complete. When it succeeds, the lookup holds exactly
    the keys of the profile's relationships, with policies read from the
    configuration, and the graph build after it never reports a missing policy. *)
Theorem policy_check_complete config rels reg lookup :
  check_orphan_fk_policy_completeness config rels = Ok lookup ->
  (forall k, is_Some (lookup !! k) <-> k ∈ rel_key <$> rels) /\
  (exists cl, config_lookup config = Ok cl /\
     forall k p, lookup !! k = Some p -> cl !! k = Some (policy_value p)) /\
  build_relationship_graph rels reg lookup <> Some (Err (PlanCompileError ORPHAN_FK_POLICY_MISSING)).
Proof.
  unfold check_orphan_fk_policy_completeness. intros H. ok_inv.
  pose proof (lookup_rel_loop _ _ _ _ H) as Hl. pose proof (lookup_rel_all _ _ _ _ H) as Hall.
  assert (Hdom : forall k, is_Some (lookup !! k) <-> k ∈ rel_key <$> rels).
  { intros k. rewrite Hl. case_bool_decide as Hk; [|rewrite lookup_empty; split; [by intros []|done]].
    split; [done|]. intros _. apply list_elem_of_fmap in Hk as (r & -> & Hr).
    destruct (Hall r Hr) as (v & p & -> & Hp). change (is_Some (policy_of_value v)). by rewrite Hp. }
  split; [done|]. split.
  - exists a. split; [done|]. intros k p. rewrite Hl. case_bool_decide; [|by rewrite lookup_empty].
    destruct (a !! k) as [v|]; [|done]. intros Hv. change (policy_of_value v = Some p) in Hv.
    f_equal. symmetry. by apply policy_of_value_inv.
  - unfold build_relationship_graph. destruct (check_policy_conflicts lookup rels) as [[]|e] eqn:Hc.
    + assert (Hr : forall rs, (forall r, r ∈ rs -> r ∈ rels) ->
        map_res (resolve_edge reg lookup) rs <> Err (PlanCompileError ORPHAN_FK_POLICY_MISSING)).
      { induction rs as [|r rs IH]; intros Hsub; cbn; [done|].
        assert (Hs : is_Some (lookup !! rel_key r)).
        { apply Hdom, list_elem_of_fmap. exists r. split; [done|]. apply Hsub. left. }
        pose proof (resolve_not_missing reg lookup r Hs).
        assert (IH' : map_res (resolve_edge reg lookup) rs <> Err (PlanCompileError ORPHAN_FK_POLICY_MISSING))
          by (apply IH; intros; apply Hsub; by right).
        destruct (resolve_edge reg lookup r); cbn; [|congruence].
        destruct (map_res _ rs); cbn; congruence. }
      specialize (Hr rels (fun r Hr => Hr)). destruct (map_res _ rels) as [es|]; [|congruence].
      destruct (topological_order_spec (edges_sorted es)) as [(o & -> & _)|[-> _]]; cbn; done.
    + intros [= ->]. clear -Hc. unfold check_policy_conflicts in Hc.
      induction (by_child rels) as [|g l IH]; cbn in Hc; [done|].
      destruct (1 <? _); cbn in Hc; [done|by apply IH].
Qed.

(** ** Samples *)

Definition sample_graph_config : list (pystr * pyval) :=
  (py "relationships", PList [PDict [
     (py "parent", PDict [(py "table", PStr (py "people")); (py "columns", PList [PStr (py "id")])]);
     (py "orphan_policy", PStr (py "remap"));
     (py "children", PList [PDict [(py "table", PStr (py "orders")); (py "columns", PList [PStr (py "person_id")])]])]])
  :: sample_config.

(** A second level: order lines reference orders. *)
Definition sample_rel2 : Relationship :=
  MkRelationship (py "orders") [py "person_id"] (py "lines") [py "person_id"] (Some (py "person")).

Definition sample_lookup : policy_lookup := {[ rel_key sample_rel := REMAP; rel_key sample_rel2 := FAIL ]}.
Definition sample_reg : NamespaceRegistry := MkRegistry [] ∅.

Definition sample_graph := build_relationship_graph [sample_rel2; sample_rel] sample_reg sample_lookup.

Lemma sample_graph_ok : match sample_graph with Some r => is_ok r | None => false end = true.
Proof. vm_compute. reflexivity. Qed.

Lemma sample_graph_get : exists g, sample_graph = Some (Ok g).
Proof. pose proof sample_graph_ok as H. destruct sample_graph as [[g|]|]; try discriminate H. by exists g. Qed.

Lemma graph_ordering_topological_witness :
  exists g, sample_graph = Some (Ok g) /\
    topological (graph_nodes (edges g)) (edge_pairs (edges g)) (ordering g).
Proof.
  destruct sample_graph_get as [g H]. exists g. split; [exact H|].
  exact (proj1 (graph_ordering_topological [sample_rel2; sample_rel] sample_reg sample_lookup g H)).
Defined.

Lemma graph_cycle_detection_witness :
  exists es, map_res (resolve_edge sample_reg sample_lookup) [sample_rel2; sample_rel] = Ok es /\
    acyclic (edge_pairs es).
Proof.
  destruct (map_res (resolve_edge sample_reg sample_lookup) [sample_rel2; sample_rel]) as [es|] eqn:H.
  - exists es. split; [reflexivity|].
    refine (proj1 (proj2 (graph_cycle_detection [sample_rel2; sample_rel] sample_reg sample_lookup es _ H)) sample_graph_get).
    vm_compute. reflexivity.
  - apply (f_equal is_ok) in H. vm_compute in H. discriminate H.
Defined.

Lemma graph_edges_exact_witness :
  exists g, sample_graph = Some (Ok g) /\ NoDup (edges g).
Proof.
  destruct sample_graph_get as [g H]. exists g. split; [exact H|].
  exact (proj1 (graph_edges_exact [sample_rel2; sample_rel] sample_reg sample_lookup g H)).
Defined.

Lemma graph_order_independent_witness :
  build_relationship_graph [sample_rel; sample_rel2] sample_reg sample_lookup = sample_graph.
Proof.
  destruct sample_graph_get as [g H]. rewrite H.
  apply (graph_order_independent [sample_rel2; sample_rel] [sample_rel; sample_rel2] sample_reg sample_lookup g);
    [constructor| |exact H].
  intros r1 r2 H1 H2 _. apply elem_of_cons in H1 as [->|H1], H2 as [->|H2];
    repeat match goal with H : _ ∈ [_] |- _ => apply list_elem_of_singleton in H; subst end; reflexivity.
Defined.

Lemma policy_check_complete_witness :
  exists lookup, check_orphan_fk_policy_completeness sample_graph_config [sample_rel] = Ok lookup /\
    is_Some (lookup !! rel_key sample_rel).
Proof.
  destruct (check_orphan_fk_policy_completeness sample_graph_config [sample_rel]) as [l|] eqn:H.
  - exists l. split; [reflexivity|].
    apply (proj2 (proj1 (policy_check_complete sample_graph_config [sample_rel] sample_reg l H) _)). left.
  - apply (f_equal is_ok) in H. vm_compute in H. discriminate H.
Defined.
