(* ===== verification/PlanTypes.v ===== *)
(** * Plan relationships (plan/_types.py, plan/_graph.py, subset/_edges.py)

    The planner's relationship entries: the grouping of the profile's
    relationships into plan entries, and their expansion into the (parent, child)
    edges that subsetting works on. *)

From S2P Require Import Prelude PyText PyData Namespace Graph.

(** ** Data *)

Record PlanRelationshipEnd := MkEnd { end_table : pystr; end_columns : list pystr }.

#[global] Instance PlanRelationshipEnd_eq_dec : EqDecision PlanRelationshipEnd.
Proof. solve_decision. Defined.

Record PlanRelationship := MkPlanRel {
  pr_parent : PlanRelationshipEnd;
  pr_children : list PlanRelationshipEnd;
  pr_orphan_policy : pystr;
  pr_namespace : option pystr;
}.

(** [PlanRelationship.__post_init__] *)
Definition new_plan_relationship (parent : PlanRelationshipEnd) (children : list PlanRelationshipEnd)
  (policy : pystr) (ns : option pystr) : result PlanRelationship :=
  _ ← raise_if (bool_decide (children = [])) (exc "ValueError");
  let parent_len := zlen (end_columns parent) in
  _ ← raise_if (parent_len =? 0) (exc "ValueError");
  _ ← for_each (fun _ child => raise_if (negb (zlen (end_columns child) =? parent_len)) (exc "ValueError"))
        children tt;
  Ok (MkPlanRel parent children policy ns).

(** ** Grouping (plan/_graph.py) *)

(** The fallback of [_build_relationships]: re-reading the configuration. *)
Definition fallback_child (pkey : colkey) (policy : pyval) (d : gmap relkey pyval) (child : pyval)
  : gmap relkey pyval :=
  match child with
  | PDict c =>
      match as_str (dget c "table" PNone), str_list (dget c "columns" PNone) with
      | Some t, Some cs => <[(pkey, (t, cs)) := policy]> d
      | _, _ => d
      end
  | _ => d
  end.

Definition fallback_entry (d : gmap relkey pyval) (entry : pyval) : gmap relkey pyval :=
  match entry with
  | PDict e =>
      match dget e "parent" PNone with
      | PDict parent =>
          let policy := dget e "orphan_policy" PNone in
          if negb (truthy policy) then d else
          match as_str (dget parent "table" PNone), str_list (dget parent "columns" PNone) with
          | Some t, Some cs =>
              match dget e "children" (PList []) with
              | PList children => fold_left (fallback_child (t, cs) policy) children d
              | _ => d
              end
          | _, _ => d
          end
      | _ => d
      end
  | _ => d
  end.

Definition fallback_lookup (config : list (pystr * pyval)) : gmap relkey pyval :=
  match dget config "relationships" (PList []) with
  | PList entries => fold_left fallback_entry entries ∅
  | _ => ∅
  end.

(** [_normalised_policy]: an [OrphanPolicy] has been replaced by its string value. *)
Definition _normalised_policy (v : pyval) : pystr :=
  match valid_policy v with Some s => s | None => py "preserve" end.

(** The lookup given by the caller, an [OrphanPolicy] per key, or the fallback. *)
Definition policy_values (config : list (pystr * pyval)) (lookup : option policy_lookup) : gmap relkey pyval :=
  match lookup with
  | Some l => (fun p => PStr (policy_value p)) <$> l
  | None => fallback_lookup config
  end.

Definition rel_policy (values : gmap relkey pyval) (r : Relationship) : pystr :=
  _normalised_policy (default (PStr (py "preserve")) (values !! rel_key r)).

(** [grouped]: children by (parent table, parent columns, policy). *)
Definition group_key (values : gmap relkey pyval) (r : Relationship) : pystr * list pystr * pystr :=
  (rel_parent_table r, rel_parent_columns r, rel_policy values r).

Definition grouped (values : gmap relkey pyval) (rels : list Relationship)
  : odict (pystr * list pystr * pystr) (list Relationship) :=
  fold_left (fun d r => od_push d (group_key values r) r) rels [].

Definition child_end (r : Relationship) : PlanRelationshipEnd := MkEnd (rel_child_table r) (rel_child_columns r).

(** One group becomes one entry; its namespace is the first one a child names.
    [sorted(grouped.items())] compares the keys, which are distinct. *)
Definition plan_entry (g : (pystr * list pystr * pystr) * list Relationship) : result PlanRelationship :=
  new_plan_relationship (MkEnd g.1.1.1 g.1.1.2) (child_end <$> g.2) g.1.2
    (head (omap rel_namespace g.2)).

Definition _build_relationships (config : list (pystr * pyval)) (rels : list Relationship)
  (lookup : option policy_lookup) : result (list PlanRelationship) :=
  map_res plan_entry (sorted_by fst (grouped (policy_values config lookup) rels)).

(** [_build_namespaces]: the declared namespaces, without composite splitting. *)
Definition declared_entry (entry : pyval) : option colkey :=
  match entry with
  | PStr s => (fun p => (p.1, [p.2])) <$> split_dot s
  | _ => None
  end.

Definition declared_binding (kv : pystr * pyval) : result (option NamespaceBinding) :=
  match kv.2 with
  | PDict body =>
      entries ← py_iter (or_empty (dget body "declared_by" (PList [])));
      Ok (Some (MkBinding kv.1 (omap declared_entry (entries : list pyval))))
  | _ => Ok None
  end.

Definition _build_namespaces (config : list (pystr * pyval)) : result (list NamespaceBinding) :=
  match dget config "namespaces" (PDict []) with
  | PDict block =>
      bs ← map_res declared_binding (sorted_by fst block);
      Ok (omap (fun b : option NamespaceBinding => b) (bs : list (option NamespaceBinding)))
  | _ => Ok []
  end.

(** ** Expansion into edges (subset/_edges.py) *)

Record SubsetEdge := MkSubsetEdge {
  edge_id : pystr;
  se_parent_table : pystr;
  se_parent_columns : list pystr;
  se_child_table : pystr;
  se_child_columns : list pystr;
  se_orphan_policy : pystr;
  se_namespace : option pystr;
}.

#[global] Instance SubsetEdge_eq_dec : EqDecision SubsetEdge.
Proof. solve_decision. Defined.

(** [','.join(parts)] *)
Fixpoint join_comma (parts : list pystr) : pystr :=
  match parts with
  | [] => []
  | [s] => s
  | s :: rest => s ++ py "," ++ join_comma rest
  end.

Definition _edge_id (parent_table : pystr) (parent_columns : list pystr) (child_table : pystr)
  (child_columns : list pystr) : pystr :=
  parent_table ++ py "." ++ join_comma parent_columns ++ py " -> " ++ child_table ++ py "."
    ++ join_comma child_columns.

Definition subset_edge (rel : PlanRelationship) (child : PlanRelationshipEnd) : SubsetEdge :=
  let parent := pr_parent rel in
  MkSubsetEdge (_edge_id (end_table parent) (end_columns parent) (end_table child) (end_columns child))
    (end_table parent) (end_columns parent) (end_table child) (end_columns child)
    (pr_orphan_policy rel) (pr_namespace rel).

Definition build_subset_edges (rels : list PlanRelationship) : list SubsetEdge :=
  sorted_by edge_id (fromkeys (rels ≫= fun rel => subset_edge rel <$> pr_children rel)).

(** [relationships_from_config] reads a validated configuration dump, where the
    names it reads are strings. *)
Definition ditem (v : pyval) (k : string) : result pyval :=
  match v with
  | PDict d => of_option (exc "KeyError") (od_get d (py k))
  | _ => Err (exc "TypeError")
  end.

Definition str_value (v : pyval) : result pystr :=
  of_option (exc "name is not a string") (as_str v).

Definition relationship_end (v : pyval) : result PlanRelationshipEnd :=
  table ← (ditem v "table" ≫= str_value);
  cols ← (ditem v "columns" ≫= py_iter);
  cols ← map_res str_value cols;
  Ok (MkEnd table cols).

Definition SubsetPreflightError (code : string) : exn := Exn "SubsetPreflightError" code.
Definition SUBSET_RELATIONSHIP_COMPOSITE_LENGTH : string := "subset_relationship_composite_length".

(** [except ValueError as exc: ... raise SubsetPreflightError] *)
Definition wrap_value_error {A} (m : result A) : result A :=
  match m with
  | Err e => if String.eqb (exc_class e) "ValueError"
             then Err (SubsetPreflightError SUBSET_RELATIONSHIP_COMPOSITE_LENGTH) else Err e
  | Ok a => Ok a
  end.

Definition config_relationship (entry : pyval) : result PlanRelationship :=
  parent ← ditem entry "parent";
  children ← ditem entry "children";
  parent_end ← relationship_end parent;
  children ← py_iter children;
  child_ends ← map_res relationship_end children;
  policy ← (ditem entry "orphan_policy" ≫= str_value);
  ns ← match entry with
       | PDict d => match dget d "namespace" PNone with
                    | PNone => Ok None
                    | v => Some <$> str_value v
                    end
       | _ => Err (exc "TypeError")
       end;
  wrap_value_error (new_plan_relationship parent_end child_ends policy ns).

Definition relationships_from_config (config : list (pystr * pyval)) : result (list PlanRelationship) :=
  entries ← py_iter (dget config "relationships" (PList []));
  map_res config_relationship entries.

(** ** The grouping loses nothing *)

(** The edges an entry stands for. *)
Definition entry_edges (e : PlanRelationship) : list (colkey * colkey * pystr) :=
  (fun c => ((end_table (pr_parent e), end_columns (pr_parent e)), (end_table c, end_columns c),
             pr_orphan_policy e)) <$> pr_children e.

Definition wf_rel (r : Relationship) : Prop :=
  rel_parent_columns r <> [] /\ length (rel_child_columns r) = length (rel_parent_columns r).

Section Grouping.
Context (values : gmap relkey pyval).
Let key := group_key values.

(** Grouping invariant: keys distinct, every member under its own key, no empty group. *)
Definition grouped_inv (d : odict (pystr * list pystr * pystr) (list Relationship)) : Prop :=
  NoDup (od_keys d) /\ Forall (fun g => g.2 <> [] /\ Forall (fun r => key r = g.1) g.2) d.

Lemma od_push_concat {K} `{EqDecision K} (d : odict K (list Relationship)) k r :
  (od_push d k r ≫= snd) ≡ₚ r :: (d ≫= snd).
Proof.
  unfold od_push. induction d as [|[k' l] d IH]; cbn; [done|].
  case_bool_decide as Hk; cbn.
  - rewrite <- app_assoc. cbn. by rewrite Permutation_middle.
  - rewrite IH. by rewrite Permutation_middle.
Qed.

Lemma od_push_inv d r : grouped_inv d -> grouped_inv (od_push d (key r) r).
Proof.
  intros [Hnd Hg]. split; [by apply od_set_nodup|]. unfold od_push. clear Hnd.
  induction Hg as [|[k l] d [Hne Hl] Hg IH]; cbn.
  - constructor; [|constructor]. split; [done|]. by repeat constructor.
  - case_bool_decide as Hk; cbn.
    + constructor; [|done]. cbn. split; [by destruct l|]. apply Forall_app. split; [|by repeat constructor].
      by rewrite <- Hk.
    + constructor; [done|]. apply IH.
Qed.

Lemma grouped_spec rels :
  grouped_inv (grouped values rels) /\ (grouped values rels ≫= snd) ≡ₚ rels.
Proof.
  unfold grouped.
  assert (Hgen : forall d, grouped_inv d ->
    grouped_inv (fold_left (fun d r => od_push d (key r) r) rels d) /\
    (fold_left (fun d r => od_push d (key r) r) rels d ≫= snd) ≡ₚ (d ≫= snd) ++ rels).
  { induction rels as [|r rels IH]; intros d Hd; cbn [fold_left]; [by rewrite app_nil_r|].
    destruct (IH (od_push d (key r) r)) as [H1 H2]; [by apply od_push_inv|]. split; [done|].
    rewrite H2, od_push_concat. cbn. by rewrite Permutation_middle. }
  apply (Hgen []). split; [constructor|constructor].
Qed.
End Grouping.

(** Every group of well-formed relationships makes an entry. *)
Lemma plan_entry_ok g :
  g.2 <> [] -> Forall (fun r => (rel_parent_table r, rel_parent_columns r) = g.1.1) g.2 -> Forall wf_rel g.2 ->
  plan_entry g = Ok (MkPlanRel (MkEnd g.1.1.1 g.1.1.2) (child_end <$> g.2) g.1.2 (head (omap rel_namespace g.2))).
Proof.
  destruct g as [[[pt pc] pol] rs]. cbn [fst snd]. intros Hne Hk Hwf. unfold plan_entry, new_plan_relationship.
  cbn [fst snd end_columns]. rewrite bool_decide_eq_false_2 by (by destruct rs). cbn [raise_if mbind result_bind].
  destruct rs as [|r0 rs0] eqn:Hrs; [done|]. rewrite <- Hrs in *.
  assert (Hall : Forall (fun r => zlen (rel_child_columns r) = zlen pc /\ pc <> []) rs).
  { rewrite list.Forall_forall in Hk, Hwf |- *. intros r Hr. destruct (Hwf r Hr) as [H1 H2].
    specialize (Hk r Hr). injection Hk as _ <-. unfold zlen. by rewrite H2. }
  assert (Hpc : pc <> []) by (rewrite Hrs in Hall; apply Forall_inv in Hall; apply Hall).
  replace (zlen pc =? 0) with false by (destruct pc; [done|rewrite zlen_cons; pose proof (zlen_nonneg pc); lia]).
  cbn [raise_if mbind result_bind].
  assert (Hloop : for_each (fun _ child => raise_if (negb (zlen (end_columns child) =? zlen pc)) (exc "ValueError"))
                    (child_end <$> rs) tt = Ok tt); [|by rewrite Hloop].
  clear -Hall. induction Hall as [|r rs [Hr _] _ IH]; [done|]. cbn. by rewrite Hr, Z.eqb_refl.
Qed.

(** Entries read from a configuration have matching column tuples. *)
Lemma new_plan_relationship_inv parent children policy ns r :
  new_plan_relationship parent children policy ns = Ok r ->
  r = MkPlanRel parent children policy ns /\ children <> [] /\ end_columns parent <> [] /\
  Forall (fun c => length (end_columns c) = length (end_columns parent)) children.
Proof.
  unfold new_plan_relationship. intros H. ok_inv. bool_prop. split; [done|]. split; [done|].
  split; [intros He; rewrite He in *; done|]. clear -E. unfold zlen in *.
  induction children as [|c cs IH]; [constructor|]. cbn in E. destruct (_ =? _) eqn:Hc in E; [|discriminate].
  bool_prop. constructor; [lia|]. by apply IH.
Qed.

(** ** Claims *)

(** Grouping into plan entries loses and invents nothing. For well-formed
    relationships the entries are built, and the (parent, child, policy) triples
    they stand for are exactly those of the profile's relationships, with
    multiplicity; two entries never share both parent and policy. *)
Theorem plan_grouping_lossless config rels lookup :
  Forall wf_rel rels ->
  exists entries, _build_relationships config rels lookup = Ok entries /\
    (entries ≫= entry_edges) ≡ₚ
      ((fun r => (parent_key r, child_key r, rel_policy (policy_values config lookup) r)) <$> rels) /\
    NoDup ((fun e => (pr_parent e, pr_orphan_policy e)) <$> entries).
Proof.
  intros Hwf. unfold _build_relationships. set (values := policy_values config lookup).
  destruct (grouped_spec values rels) as [[Hnd Hg] Hperm]. set (gs := grouped values rels) in *.
  pose proof (sorted_by_perm fst gs) as Hs. set (l := sorted_by fst gs) in *. clearbody l.
  assert (Hgl : Forall (fun g => g.2 <> [] /\ Forall (fun r => group_key values r = g.1) g.2 /\ Forall wf_rel g.2) l).
  { rewrite Hs. rewrite list.Forall_forall in Hg |- *. intros g Hin. destruct (Hg g Hin) as [H1 H2].
    split; [done|]. split; [done|]. rewrite list.Forall_forall in Hwf |- *. intros r Hr. apply Hwf.
    rewrite <- Hperm. apply list_elem_of_bind. by exists g. }
  eexists. split.
  { apply (map_res_total _ (fun g => MkPlanRel (MkEnd g.1.1.1 g.1.1.2) (child_end <$> g.2) g.1.2
                                        (head (omap rel_namespace g.2)))).
    intros g Hin. rewrite list.Forall_forall in Hgl. destruct (Hgl g Hin) as (H1 & H2 & H3).
    apply plan_entry_ok; [done| |done]. revert H2. apply Forall_impl. intros r <-. done. }
  split.
  - rewrite <- Hperm, <- Hs. clear -Hgl. induction Hgl as [|g l (_ & Hk & _) _ IH]; [done|]. cbn.
    rewrite fmap_app. rewrite IH. apply Permutation_app; [|done]. unfold entry_edges. cbn [pr_children pr_parent pr_orphan_policy].
    rewrite <- list_fmap_compose. induction Hk as [|r rs Hr _ IHk]; [done|]. cbn. rewrite IHk.
    destruct g as [[[pt pc] pol] grp]. cbn in *. unfold group_key in Hr. injection Hr as <- <- <-. done.
  - rewrite <- list_fmap_compose.
    assert (Hinj : NoDup ((fun k : pystr * list pystr * pystr => (MkEnd k.1.1 k.1.2, k.2)) <$> (od_keys l))).
    { apply NoDup_fmap_2.
      - intros [[a b] c] [[a' b'] c']. cbn. intros [= -> -> ->]. done.
      - unfold od_keys. by rewrite Hs. }
    unfold od_keys in Hinj. rewrite <- list_fmap_compose in Hinj. exact Hinj.
Qed.

Lemma plan_grouping_lossless_witness :
  exists entries, _build_relationships [] [sample_rel; sample_rel2] (Some sample_lookup) = Ok entries /\
    NoDup ((fun e => (pr_parent e, pr_orphan_policy e)) <$> entries).
Proof.
  destruct (plan_grouping_lossless [] [sample_rel; sample_rel2] (Some sample_lookup)) as (es & H & _ & Hnd).
  - repeat constructor; discriminate.
  - exists es. split; [exact H|exact Hnd].
Defined.

(** Edge expansion is exact: every (entry, child) pair contributes its edge,
    nothing else does, no edge is listed twice, and the edges come in the order of
    their identifiers. *)
Theorem subset_edges_exact rels :
  NoDup (build_subset_edges rels) /\ Sorted_by edge_id (build_subset_edges rels) /\
  forall e, e ∈ build_subset_edges rels <->
    exists rel child, rel ∈ rels /\ child ∈ pr_children rel /\ e = subset_edge rel child.
Proof.
  unfold build_subset_edges. split; [rewrite sorted_by_perm; apply fromkeys_nodup|].
  split; [apply sorted_by_sorted|]. intros e.
  rewrite elem_of_sorted_by, elem_of_fromkeys, list_elem_of_bind. split.
  - intros (rel & (c & -> & Hc)%list_elem_of_fmap & Hr). eauto.
  - intros (rel & c & Hr & Hc & ->). exists rel. split; [|done]. apply list_elem_of_fmap. eauto.
Qed.
