(* ===== verification/Closure.v ===== *)
(** * The subsetting closure (subset/_closure.py, subset/_policy.py)

    Which rows of which tables survive a subset: the fixpoint of the downward
    (cascade) and upward (parent completeness) rules over key frames, the
    defensive re-check, edge-direction resolution and the fan-out budget. The
    data frames are the third-party [polars] package's and enter as the interface
    [PolarsOps], with the documented behaviour the code relies on in [PolarsLaws]. *)

From S2P Require Import Prelude PyText PyData Namespace Graph PlanTypes.
From Stdlib Require Import SpecFloat.

(** ** Data frames *)

(** A cell that is not null; [COther] holds any other scalar by its canonical text. *)
Inductive cell := CInt (n : Z) | COther (s : pystr).

#[global] Instance cell_eq_dec : EqDecision cell.
Proof. solve_decision. Defined.

(** A row: its non-null cells by column. *)
Abbreviation row := (gmap pystr cell).

Class PolarsOps := {
  Frame : Type;
  frame_columns : Frame -> list pystr;
  frame_rows : Frame -> list row;
  height : Frame -> Z;
  (** [f.filter(pl.col(c).is_in(l))] *)
  filter_is_in : Frame -> pystr -> list Z -> Frame;
  (** [f.select(cols)] *)
  select : Frame -> list pystr -> Frame;
  unique : Frame -> Frame;
  drop_nulls : Frame -> Frame;
  (** [l.join(r, left_on=lon, right_on=ron, how="semi")] and [how="anti"] *)
  join_semi : Frame -> Frame -> list pystr -> list pystr -> Frame;
  join_anti : Frame -> Frame -> list pystr -> list pystr -> Frame;
  (** [f[c].to_list()] of an integer column *)
  int_column : Frame -> pystr -> list Z;
}.

(** The key of a row: its cells in the given columns, none of them null. *)
Definition key_of (cols : list pystr) (r : row) : option (list cell) := mapM (fun c => r !! c) cols.

Definition restrict_row (cols : list pystr) (r : row) : row := filter (fun kv => kv.1 ∈ cols) r.

(** A null key matches nothing ([join_nulls=False]). *)
Definition keys_match (lon ron : list pystr) (r r' : row) : Prop :=
  exists k, key_of lon r = Some k /\ key_of ron r' = Some k.

Class PolarsLaws (P : PolarsOps) : Prop := {
  height_rows f : height f = zlen (frame_rows f);
  filter_columns f c l : frame_columns (filter_is_in f c l) = frame_columns f;
  filter_rows f c l r :
    r ∈ frame_rows (filter_is_in f c l) <-> r ∈ frame_rows f /\ exists n, n ∈ l /\ r !! c = Some (CInt n);
  select_columns f cols : frame_columns (select f cols) = cols;
  select_rows f cols r :
    r ∈ frame_rows (select f cols) <-> exists r', r' ∈ frame_rows f /\ r = restrict_row cols r';
  unique_columns f : frame_columns (unique f) = frame_columns f;
  unique_rows f r : r ∈ frame_rows (unique f) <-> r ∈ frame_rows f;
  drop_nulls_columns f : frame_columns (drop_nulls f) = frame_columns f;
  drop_nulls_rows f r :
    r ∈ frame_rows (drop_nulls f) <-> r ∈ frame_rows f /\ Forall (fun c => is_Some (r !! c)) (frame_columns f);
  join_semi_rows f g lon ron r :
    r ∈ frame_rows (join_semi f g lon ron) <->
    r ∈ frame_rows f /\ exists r', r' ∈ frame_rows g /\ keys_match lon ron r r';
  join_anti_rows f g lon ron r :
    r ∈ frame_rows (join_anti f g lon ron) <->
    r ∈ frame_rows f /\ ~ exists r', r' ∈ frame_rows g /\ keys_match lon ron r r';
  int_column_rows f c n : n ∈ int_column f c <-> exists r, r ∈ frame_rows f /\ r !! c = Some (CInt n);
  int_column_length f c : zlen (int_column f c) <= height f;
}.

(** ** Directions, statistics and results *)

Inductive EdgeDirection := Both | Downward | Upward | NoDirection.

#[global] Instance EdgeDirection_eq_dec : EqDecision EdgeDirection.
Proof. solve_decision. Defined.

(** [d in ("both", "downward")], [d in ("both", "upward")] *)
Definition goes_down (d : EdgeDirection) : bool := bool_decide (d ∈ [Both; Downward]).
Definition goes_up (d : EdgeDirection) : bool := bool_decide (d ∈ [Both; Upward]).

Record EdgeStats := MkStats {
  st_edge_id : pystr;
  st_direction : EdgeDirection;
  rows_added_downward : Z;
  rows_added_upward : Z;
}.

Record RoundTrace := MkTrace {
  round_index : Z;
  rows_added : Z;
  per_table_added : list (pystr * Z);
}.

Abbreviation survivor_map := (gmap pystr (gset Z)).

Record ClosureResult := MkClosure {
  cr_survivors : survivor_map;
  cr_rounds : Z;
  cr_edge_stats : list EdgeStats;
  cr_trace : list RoundTrace;
}.

Definition SubsetInternalError (code : string) : exn := Exn "SubsetInternalError" code.
Definition SubsetConfigError (code : string) : exn := Exn "SubsetConfigError" code.
Definition SUBSET_CLOSURE_NONTERMINATION : string := "subset_closure_nontermination".
Definition SUBSET_CLOSURE_INVARIANT_VIOLATED : string := "subset_closure_invariant_violated".
Definition SUBSET_UNKNOWN_EDGE : string := "subset_unknown_edge".
Definition SUBSET_DANGLING_NOT_ACKNOWLEDGED : string := "subset_dangling_not_acknowledged".
Definition SubsetBudgetExceededError : exn := Exn "SubsetBudgetExceededError" "subset_budget_exceeded".

(** [d[k]] *)
Definition item {V} (d : gmap pystr V) (k : pystr) : result V := of_option (exc "KeyError") (d !! k).

(** [sorted(s)] of a set of row indices. *)
Definition sorted_set (s : gset Z) : list Z := sorted (elements s).

Definition RI : pystr := py "__subset_ri".

(** Sum of the values of a dictionary. *)
Definition od_sum (d : odict pystr Z) : Z := fold_right Z.add 0 (snd <$> d).

Section Closure.
Context `{P : PolarsOps}.

Abbreviation frame_map := (gmap pystr Frame).

(** ** The two rules *)

Definition _downward_step (e : SubsetEdge) (survivors : survivor_map) (key_frames : frame_map)
  : result (gset Z) :=
  pkf ← item key_frames (se_parent_table e);
  ckf ← item key_frames (se_child_table e);
  ps ← item survivors (se_parent_table e);
  if bool_decide (ps = ∅) then Ok ∅ else
  let surv_keys := unique (select (filter_is_in pkf RI (sorted_set ps)) (se_parent_columns e)) in
  let matched := join_semi ckf surv_keys (se_child_columns e) (se_parent_columns e) in
  cs ← item survivors (se_child_table e);
  Ok (list_to_set (int_column matched RI) ∖ cs).

Definition _upward_step (e : SubsetEdge) (survivors : survivor_map) (key_frames : frame_map)
  : result (gset Z) :=
  pkf ← item key_frames (se_parent_table e);
  ckf ← item key_frames (se_child_table e);
  cs ← item survivors (se_child_table e);
  if bool_decide (cs = ∅) then Ok ∅ else
  let needed := unique (drop_nulls (select (filter_is_in ckf RI (sorted_set cs)) (se_child_columns e))) in
  let matched := join_semi pkf needed (se_parent_columns e) (se_child_columns e) in
  ps ← item survivors (se_parent_table e);
  Ok (list_to_set (int_column matched RI) ∖ ps).

(** ** The fixpoint loop *)

Record LoopState := MkLoop {
  survivors : survivor_map;
  down_added : gmap pystr Z;
  up_added : gmap pystr Z;
  round_added : odict pystr Z;
}.

(** [if new: survivors[t] |= new; added[id] += len(new); round_added[t] = ...] *)
Definition grow_down (e : SubsetEdge) (new : gset Z) (st : LoopState) : result LoopState :=
  if bool_decide (new = ∅) then Ok st else
  cs ← item (survivors st) (se_child_table e);
  da ← item (down_added st) (edge_id e);
  let n := Z.of_nat (size new) in
  Ok (MkLoop (<[se_child_table e := cs ∪ new]> (survivors st))
             (<[edge_id e := da + n]> (down_added st)) (up_added st)
             (od_set (round_added st) (se_child_table e)
                (default 0 (od_get (round_added st) (se_child_table e)) + n))).

Definition grow_up (e : SubsetEdge) (new : gset Z) (st : LoopState) : result LoopState :=
  if bool_decide (new = ∅) then Ok st else
  ps ← item (survivors st) (se_parent_table e);
  ua ← item (up_added st) (edge_id e);
  let n := Z.of_nat (size new) in
  Ok (MkLoop (<[se_parent_table e := ps ∪ new]> (survivors st)) (down_added st)
             (<[edge_id e := ua + n]> (up_added st))
             (od_set (round_added st) (se_parent_table e)
                (default 0 (od_get (round_added st) (se_parent_table e)) + n))).

Definition edge_pass (directions : gmap pystr EdgeDirection) (key_frames : frame_map)
  (st : LoopState) (e : SubsetEdge) : result LoopState :=
  d ← item directions (edge_id e);
  st ← (if goes_down d then
          new ← _downward_step e (survivors st) key_frames; grow_down e new st
        else Ok st);
  if goes_up d then
    new ← _upward_step e (survivors st) key_frames; grow_up e new st
  else Ok st.

Definition _stats (edges : list SubsetEdge) (directions : gmap pystr EdgeDirection)
  (down_added up_added : gmap pystr Z) : result (list EdgeStats) :=
  map_res (fun e =>
    d ← item directions (edge_id e);
    da ← item down_added (edge_id e);
    ua ← item up_added (edge_id e);
    Ok (MkStats (edge_id e) d da ua)) edges.

Abbreviation BudgetCheck := (survivor_map -> list EdgeStats -> result unit).

(** The [while True] loop: [rounds_left] is [max_rounds - rounds], so no round left is
    the code's own [rounds > max_rounds] exit. *)
Fixpoint closure_loop (edges : list SubsetEdge) (directions : gmap pystr EdgeDirection)
  (key_frames : frame_map) (budget_check : BudgetCheck) (rounds_left : nat) (rounds : Z)
  (st : LoopState) (trace : list RoundTrace) : result ClosureResult :=
  match rounds_left with
  | O => Err (SubsetInternalError SUBSET_CLOSURE_NONTERMINATION)
  | S rounds_left =>
      let rounds := rounds + 1 in
      st ← for_each (edge_pass directions key_frames) edges
             (MkLoop (survivors st) (down_added st) (up_added st) []);
      let total_added := od_sum (round_added st) in
      let trace := trace ++ [MkTrace rounds total_added (sorted (round_added st))] in
      edge_stats ← _stats edges directions (down_added st) (up_added st);
      _ ← budget_check (survivors st) edge_stats;
      if total_added =? 0 then
        edge_stats ← _stats edges directions (down_added st) (up_added st);
        Ok (MkClosure (survivors st) rounds edge_stats trace)
      else closure_loop edges directions key_frames budget_check rounds_left rounds st trace
  end.

Definition max_rounds (key_frames : frame_map) : Z :=
  fold_right Z.add 0 ((fun kv => height kv.2) <$> map_to_list key_frames) + 2.

Definition seed_survivors (key_frames : frame_map) (seed_rows : survivor_map) : survivor_map :=
  map_imap (fun t _ => Some (default ∅ (seed_rows !! t))) key_frames.

Definition zero_counts (edges : list SubsetEdge) : gmap pystr Z :=
  list_to_map ((fun e => (edge_id e, 0)) <$> edges).

Definition compute_closure (edges : list SubsetEdge) (directions : gmap pystr EdgeDirection)
  (key_frames : frame_map) (seed_rows : survivor_map) (budget_check : BudgetCheck)
  : result ClosureResult :=
  closure_loop edges directions key_frames budget_check (Z.to_nat (max_rounds key_frames)) 0
    (MkLoop (seed_survivors key_frames seed_rows) (zero_counts edges) (zero_counts edges) []) [].

(** ** The defensive re-check *)

Definition verify_edge (directions : gmap pystr EdgeDirection) (key_frames : frame_map)
  (r : ClosureResult) (e : SubsetEdge) : result unit :=
  d ← item directions (edge_id e);
  if negb (goes_up d) then Ok tt else
  pkf ← item key_frames (se_parent_table e);
  ckf ← item key_frames (se_child_table e);
  cs ← item (cr_survivors r) (se_child_table e);
  let surviving_child_keys :=
    unique (drop_nulls (select (filter_is_in ckf RI (sorted_set cs)) (se_child_columns e))) in
  ps ← item (cr_survivors r) (se_parent_table e);
  let surviving_parent_keys := select (filter_is_in pkf RI (sorted_set ps)) (se_parent_columns e) in
  let unmatched :=
    join_anti surviving_child_keys surviving_parent_keys (se_child_columns e) (se_parent_columns e) in
  if height unmatched =? 0 then Ok tt else
  let full_parent_keys := unique (drop_nulls (select pkf (se_parent_columns e))) in
  let still_present := join_semi unmatched full_parent_keys (se_child_columns e) (se_parent_columns e) in
  raise_if (height still_present >? 0) (SubsetInternalError SUBSET_CLOSURE_INVARIANT_VIOLATED).

Definition verify_closure (edges : list SubsetEdge) (directions : gmap pystr EdgeDirection)
  (key_frames : frame_map) (r : ClosureResult) : result unit :=
  for_each (fun _ e => verify_edge directions key_frames r e) edges tt.
End Closure.

(** ** Directions and budget (subset/_policy.py) *)

Record FanOutBudget := MkBudget {
  max_total_rows : option Z;
  max_table_seed_multiple : option spec_float;
}.

Record FanOutPolicy := MkPolicy {
  fp_budget : FanOutBudget;
  edge_directions : list (pystr * EdgeDirection);
  allow_dangling : bool;
}.

Definition set_direction (valid_ids : gset pystr) (d : gmap pystr EdgeDirection) (p : pystr * EdgeDirection)
  : result (gmap pystr EdgeDirection) :=
  _ ← raise_if (negb (bool_decide (p.1 ∈ valid_ids))) (SubsetConfigError SUBSET_UNKNOWN_EDGE);
  Ok (<[p.1 := p.2]> d).

Definition dangling (d : EdgeDirection) : bool := bool_decide (d ∈ [Downward; NoDirection]).

Definition resolve_edge_directions (edges : list SubsetEdge) (policy : FanOutPolicy)
  : result (gmap pystr EdgeDirection) :=
  let valid_ids : gset pystr := list_to_set (edge_id <$> edges) in
  directions ← for_each (set_direction valid_ids) (edge_directions policy) (gset_to_gmap Both valid_ids);
  _ ← raise_if (negb (allow_dangling policy)
                && existsb (fun kv => dangling kv.2) (map_to_list directions))
        (SubsetConfigError SUBSET_DANGLING_NOT_ACKNOWLEDGED);
  Ok directions.

(** [s.split(" -> ")] *)
Fixpoint split_arrow (acc s : pystr) : list pystr :=
  match s with
  | 32 :: 45 :: 62 :: 32 :: s' => acc :: split_arrow [] s'
  | c :: s' => split_arrow (acc ++ [c]) s'
  | [] => [acc]
  end.

(** [s.split(".", 1)[0]] *)
Definition before_dot (s : pystr) : pystr := match split_dot s with Some (a, _) => a | None => s end.

Definition _edge_endpoints (id : pystr) : result (pystr * pystr) :=
  match split_arrow [] id with
  | [lhs; rhs] => Ok (before_dot lhs, before_dot rhs)
  | _ => Err (exc "ValueError")
  end.

Definition _rows_added_into (stat : EdgeStats) (table : pystr) : result Z :=
  '(parent_table, child_table) ← _edge_endpoints (st_edge_id stat);
  Ok ((if bool_decide (child_table = table) then rows_added_downward stat else 0)
      + (if bool_decide (parent_table = table) then rows_added_upward stat else 0)).

Definition _rows_added_into_sort_key (table : pystr) (stat : EdgeStats) : result (Z * pystr) :=
  n ← _rows_added_into stat table;
  Ok (n, st_edge_id stat).

(** [math.ceil(multiple * n)] on binary64: the product is rounded, the ceiling exact. *)
Definition float_of_int (n : Z) : spec_float := binary_normalize 53 1024 n 0 false.

Definition float_ceil (x : spec_float) : result Z :=
  match x with
  | S754_zero _ => Ok 0
  | S754_finite s m e =>
      let v := if s then Z.neg m else Z.pos m in
      Ok (if 0 <=? e then v * 2 ^ e else - ((- v) / 2 ^ (- e)))
  | S754_infinity _ => Err (exc "OverflowError")
  | S754_nan => Err (exc "ValueError")
  end.

Definition seed_cap (multiple : spec_float) (total_seed_rows : Z) : result Z :=
  float_ceil (SFmul 53 1024 multiple (float_of_int total_seed_rows)).

Definition total_survivors (survivors : survivor_map) : Z :=
  fold_right Z.add 0 ((fun kv => Z.of_nat (size kv.2)) <$> map_to_list survivors).

(** One table against the cap; the attribution evaluates every edge's sort key. *)
Definition check_table (survivors : survivor_map) (edge_stats : list EdgeStats) (cap : Z) (table : pystr)
  : result unit :=
  s ← item survivors table;
  if Z.of_nat (size s) >? cap then
    _ ← map_res (_rows_added_into_sort_key table) edge_stats;
    Err SubsetBudgetExceededError
  else Ok tt.

Definition make_budget_check (budget : FanOutBudget) (total_seed_rows : Z)
  (survivors : survivor_map) (edge_stats : list EdgeStats) : result unit :=
  _ ← match max_total_rows budget with
      | Some cap => raise_if (total_survivors survivors >? cap) SubsetBudgetExceededError
      | None => Ok tt
      end;
  match max_table_seed_multiple budget with
  | Some multiple =>
      cap ← seed_cap multiple total_seed_rows;
      for_each (fun _ table => check_table survivors edge_stats cap table)
        (sorted (elements (dom survivors))) tt
  | None => Ok tt
  end.

(** The identifier of an edge need not split back: a name that contains the arrow
    makes the budget error's attribution fail. *)
Example edge_endpoints_arrow :
  _edge_endpoints (_edge_id (py "people") [py "a -> b"] (py "orders") [py "p"]) = Err (exc "ValueError").
Proof. vm_compute. reflexivity. Qed.

Example seed_cap_example : seed_cap (S754_finite false 5 (-1)) 3 = Ok 8.
Proof. vm_compute. reflexivity. Qed.

(** ** Sums over dictionaries *)

(** [sum(g(k, v) for k, v in m.items())] *)
Definition msum {V} (g : pystr -> V -> Z) (m : gmap pystr V) : Z :=
  fold_right Z.add 0 ((fun kv => g kv.1 kv.2) <$> map_to_list m).

Lemma sum_perm (l k : list Z) : l ≡ₚ k -> fold_right Z.add 0 l = fold_right Z.add 0 k.
Proof. induction 1; cbn; lia. Qed.

Lemma msum_insert {V} (g : pystr -> V -> Z) m k v :
  m !! k = None -> msum g (<[k := v]> m) = g k v + msum g m.
Proof.
  intros Hk. unfold msum. rewrite (sum_perm _ ((fun kv => g kv.1 kv.2) <$> (k, v) :: map_to_list m)); [done|].
  by rewrite map_to_list_insert.
Qed.

Lemma msum_delete {V} (g : pystr -> V -> Z) m k v :
  m !! k = Some v -> msum g m = g k v + msum g (delete k m).
Proof. intros Hk. rewrite <- (insert_delete_id m k v Hk) at 1. apply msum_insert, lookup_delete_eq. Qed.

Lemma msum_update {V} (g : pystr -> V -> Z) m k v v' :
  m !! k = Some v -> msum g (<[k := v']> m) = msum g m - g k v + g k v'.
Proof.
  intros Hk. rewrite (msum_delete g m k v Hk), <- insert_delete_eq.
  rewrite msum_insert by apply lookup_delete_eq. lia.
Qed.

Lemma total_survivors_msum m : total_survivors m = msum (fun _ s => Z.of_nat (size s)) m.
Proof. reflexivity. Qed.

Lemma size_list_to_set_le (l : list Z) : (size (list_to_set l : gset Z) <= length l)%nat.
Proof.
  induction l as [|x l IH]; [done|]. cbn. rewrite size_union_alt, size_singleton.
  assert ((size ((list_to_set l : gset Z) ∖ {[x]}) <= size (list_to_set l : gset Z))%nat)
    by (apply subseteq_size; clear; set_solver). lia.
Qed.

(** Pointwise inclusion of survivor maps. *)
Definition leq (m m' : survivor_map) : Prop :=
  forall t s, m !! t = Some s -> exists s', m' !! t = Some s' /\ s ⊆ s'.

Lemma leq_refl m : leq m m.
Proof. intros t s H. by exists s. Qed.

Lemma leq_trans m1 m2 m3 : leq m1 m2 -> leq m2 m3 -> leq m1 m3.
Proof.
  intros H1 H2 t s H. destruct (H1 _ _ H) as (s2 & H' & Hs). destruct (H2 _ _ H') as (s3 & H'' & Hs').
  exists s3. split; [done|]. by etrans.
Qed.

Lemma total_mono m m' : leq m m' -> total_survivors m <= total_survivors m'.
Proof.
  rewrite (total_survivors_msum m), (total_survivors_msum m').
  revert m'. induction m as [|t s m Ht IH] using map_ind; intros m' Hle.
  - unfold msum. rewrite map_to_list_empty. cbn [fmap list_fmap fold_right].
    clear. induction (map_to_list m') as [|[t s] l IH]; cbn [fmap list_fmap fold_right fst snd]; lia.
  - destruct (Hle t s) as (s' & Hs' & Hsub); [apply lookup_insert_eq|].
    rewrite msum_insert, (msum_delete _ m' t s') by done. apply subseteq_size in Hsub.
    assert (msum (fun _ s => Z.of_nat (size s)) m <= msum (fun _ s => Z.of_nat (size s)) (delete t m')); [|lia].
    apply IH. intros t1 s1 H1. destruct (decide (t = t1)) as [->|Hne]; [congruence|].
    rewrite lookup_delete_ne by done. apply Hle. by rewrite lookup_insert_ne.
Qed.

(** Adding rows outside a table's set adds their number to the total. *)
Lemma total_grow m t s new :
  m !! t = Some s -> new ## s -> total_survivors (<[t := s ∪ new]> m) = total_survivors m + Z.of_nat (size new).
Proof.
  intros Ht Hd. rewrite (total_survivors_msum m), total_survivors_msum, (msum_update _ m t s) by done.
  rewrite size_union by done. lia.
Qed.

Lemma leq_grow m t s new : m !! t = Some s -> leq m (<[t := s ∪ new]> m).
Proof.
  intros Ht t' s' H. destruct (decide (t = t')) as [->|Hne].
  - rewrite lookup_insert_eq. eexists. split; [done|]. assert (s = s') as -> by congruence. set_solver.
  - rewrite lookup_insert_ne by done. by exists s'.
Qed.

Lemma od_sum_add d k n : od_sum (od_set d k (default 0 (od_get d k) + n)) = od_sum d + n.
Proof.
  unfold od_sum. induction d as [|[k' v] d IH]; cbn; [lia|]. case_bool_decide; cbn; [lia|].
  rewrite IH. lia.
Qed.

(** ** The rules *)

Section ClosureLemmas.
Context `{P : PolarsOps} {PL : PolarsLaws P}.

Lemma key_of_restrict cols r : key_of cols (restrict_row cols r) = key_of cols r.
Proof.
  unfold key_of, restrict_row.
  assert (Hgen : forall cs, (forall c, c ∈ cs -> c ∈ cols) ->
    mapM (fun c => filter (fun kv : pystr * cell => kv.1 ∈ cols) r !! c) cs = mapM (fun c => r !! c) cs).
  { induction cs as [|c cs IH]; intros Hc; [done|]. cbn.
    rewrite IH by (intros; apply Hc; by right).
    assert (filter (fun kv : pystr * cell => kv.1 ∈ cols) r !! c = r !! c) as ->; [|done].
    destruct (r !! c) as [v|] eqn:Hr.
    - apply map_lookup_filter_Some. split; [done|]. apply Hc. left.
    - apply map_lookup_filter_None. by left. }
  by apply Hgen.
Qed.

(** Rows of [g] whose index lies in [s] and whose key matches. *)
Definition matches (lon ron : list pystr) (f g : Frame) (s : gset Z) (i : Z) : Prop :=
  exists r r' j, r ∈ frame_rows f /\ r !! RI = Some (CInt i) /\ r' ∈ frame_rows g /\
    r' !! RI = Some (CInt j) /\ j ∈ s /\ keys_match lon ron r r'.

Lemma elem_of_sorted_set s j : j ∈ sorted_set s <-> j ∈ s.
Proof. unfold sorted_set. by rewrite elem_of_sorted, elem_of_elements. Qed.

Lemma down_matches f g lon ron s i :
  i ∈ int_column (join_semi f (unique (select (filter_is_in g RI (sorted_set s)) ron)) lon ron) RI <->
  matches lon ron f g s i.
Proof.
  rewrite int_column_rows. unfold matches. split.
  - intros (r & [Hr (r' & Hr' & k & Hk & Hk')]%join_semi_rows & Hi).
    apply unique_rows, select_rows in Hr' as (r0 & [Hr0 (j & Hj & Hrj)]%filter_rows & ->).
    exists r, r0, j. rewrite key_of_restrict in Hk'. rewrite elem_of_sorted_set in Hj.
    split_and!; try done. by exists k.
  - intros (r & r' & j & Hr & Hi & Hr' & Hj & Hs & k & Hk & Hk'). exists r. split; [|done].
    apply join_semi_rows. split; [done|]. exists (restrict_row ron r'). split.
    + apply unique_rows, select_rows. exists r'. split; [|done]. apply filter_rows.
      split; [done|]. exists j. by rewrite elem_of_sorted_set.
    + exists k. by rewrite key_of_restrict.
Qed.

Lemma key_of_some cols r k : key_of cols r = Some k -> Forall (fun c => is_Some (r !! c)) cols.
Proof.
  unfold key_of. revert k. induction cols as [|c cols IH]; intros k; [constructor|]. cbn.
  destruct (r !! c) as [v|] eqn:Hc; [|done]. cbn.
  destruct (mapM (fun c => r !! c) cols) as [k'|] eqn:Hk; [|done]. intros _.
  constructor; [by rewrite Hc|]. by apply (IH k').
Qed.

Lemma up_matches f g lon ron s i :
  i ∈ int_column (join_semi f (unique (drop_nulls (select (filter_is_in g RI (sorted_set s)) ron))) lon ron) RI <->
  matches lon ron f g s i.
Proof.
  rewrite <- down_matches, !int_column_rows. setoid_rewrite join_semi_rows.
  assert (Heq : forall r, (exists r', r' ∈ frame_rows (unique (drop_nulls (select (filter_is_in g RI (sorted_set s)) ron)))
                               /\ keys_match lon ron r r') <->
                          (exists r', r' ∈ frame_rows (unique (select (filter_is_in g RI (sorted_set s)) ron))
                               /\ keys_match lon ron r r')).
  { intros r. setoid_rewrite unique_rows. setoid_rewrite drop_nulls_rows. rewrite select_columns. split.
    - intros (r' & [Hr' _] & Hm). eauto.
    - intros (r' & Hr' & k & Hk & Hk'). exists r'. split; [|by exists k]. split; [done|].
      by eapply key_of_some. }
  by setoid_rewrite Heq.
Qed.

(** ** What survives: the specification *)

Context (edges : list SubsetEdge) (directions : gmap pystr EdgeDirection).
Context (key_frames : gmap pystr Frame) (seed_rows : survivor_map).

(** A seeded row of a known table survives; a child row whose key matches a
    surviving parent row survives, where the edge goes down; a parent row whose
    key matches a surviving child row survives, where the edge goes up. *)
Inductive survives : pystr -> Z -> Prop :=
| survives_seed t f s i :
    key_frames !! t = Some f -> seed_rows !! t = Some s -> i ∈ s -> survives t i
| survives_down e d pf cf i j r r' :
    e ∈ edges -> directions !! edge_id e = Some d -> goes_down d = true ->
    key_frames !! se_parent_table e = Some pf -> key_frames !! se_child_table e = Some cf ->
    survives (se_parent_table e) j ->
    r ∈ frame_rows cf -> r !! RI = Some (CInt i) -> r' ∈ frame_rows pf -> r' !! RI = Some (CInt j) ->
    keys_match (se_child_columns e) (se_parent_columns e) r r' -> survives (se_child_table e) i
| survives_up e d pf cf i j r r' :
    e ∈ edges -> directions !! edge_id e = Some d -> goes_up d = true ->
    key_frames !! se_parent_table e = Some pf -> key_frames !! se_child_table e = Some cf ->
    survives (se_child_table e) j ->
    r ∈ frame_rows pf -> r !! RI = Some (CInt i) -> r' ∈ frame_rows cf -> r' !! RI = Some (CInt j) ->
    keys_match (se_parent_columns e) (se_child_columns e) r r' -> survives (se_parent_table e) i.

(** Inputs as preflight and the key-frame loader leave them: every edge end is a
    known table, every edge has a direction, every row carries its index. *)
Record inputs_ok : Prop := {
  io_parent e : e ∈ edges -> is_Some (key_frames !! se_parent_table e);
  io_child e : e ∈ edges -> is_Some (key_frames !! se_child_table e);
  io_dir e : e ∈ edges -> is_Some (directions !! edge_id e);
  io_index t f r : key_frames !! t = Some f -> r ∈ frame_rows f -> exists i, r !! RI = Some (CInt i);
}.

Definition row_ids (f : Frame) : gset Z := list_to_set (int_column f RI).

(** The invariant of the survivor sets: exactly the known tables; only rows
    that survive; only seeds and rows of the table; at least the seeds. *)
Record good (m : survivor_map) : Prop := {
  g_dom t : is_Some (m !! t) <-> is_Some (key_frames !! t);
  g_sound t s i : m !! t = Some s -> i ∈ s -> survives t i;
  g_bound t s f : m !! t = Some s -> key_frames !! t = Some f -> s ⊆ default ∅ (seed_rows !! t) ∪ row_ids f;
  g_seed : leq (seed_survivors key_frames seed_rows) m;
}.

Definition counts_ok (st : LoopState) : Prop :=
  forall e, e ∈ edges -> is_Some (down_added st !! edge_id e) /\ is_Some (up_added st !! edge_id e).

(** What a pass may do: grow, account for every row it adds, keep the invariant. *)
Record effect (st st' : LoopState) : Prop := {
  ef_leq : leq (survivors st) (survivors st');
  ef_good : good (survivors st) -> good (survivors st');
  ef_counts : counts_ok st -> counts_ok st';
  ef_sum : od_sum (round_added st') - od_sum (round_added st) =
           total_survivors (survivors st') - total_survivors (survivors st);
  ef_same : total_survivors (survivors st') = total_survivors (survivors st) -> survivors st' = survivors st;
}.

Lemma effect_refl st : effect st st.
Proof. constructor; auto using leq_refl. lia. Qed.

Lemma effect_trans st1 st2 st3 : effect st1 st2 -> effect st2 st3 -> effect st1 st3.
Proof.
  intros [L1 G1 C1 S1 E1] [L2 G2 C2 S2 E2]. constructor; auto.
  - by eapply leq_trans.
  - lia.
  - intros Ht. pose proof (total_mono _ _ L1). pose proof (total_mono _ _ L2).
    rewrite E2, E1 by lia. done.
Qed.

(** One rule application adds [new] to table [t]. *)
Lemma good_grow m t s new f :
  good m -> m !! t = Some s -> key_frames !! t = Some f -> new ⊆ row_ids f ->
  (forall i, i ∈ new -> survives t i) -> good (<[t := s ∪ new]> m).
Proof.
  intros [Hd Hs Hb Hsd] Ht Hf Hids Hnew. constructor.
  - intros t'. destruct (decide (t = t')) as [<-|]; [rewrite lookup_insert_eq|by rewrite lookup_insert_ne].
    rewrite <- Hd, Ht. split; by eexists.
  - intros t' s' i. destruct (decide (t = t')) as [<-|]; [rewrite lookup_insert_eq|by rewrite lookup_insert_ne; eauto].
    intros [= <-] [Hi|Hi]%elem_of_union; [by eapply Hs|by apply Hnew].
  - intros t' s' f'. destruct (decide (t = t')) as [<-|]; [rewrite lookup_insert_eq|by rewrite lookup_insert_ne; eauto].
    intros [= <-] Hf'. assert (f' = f) as -> by congruence. pose proof (Hb t s f Ht Hf). set_solver.
  - eapply leq_trans; [done|]. by apply leq_grow.
Qed.

Section Grow.
Context (e : SubsetEdge) (He : e ∈ edges) (new s : gset Z) (st : LoopState) (f : Frame).
Context (Hc : counts_ok st) (Hdisj : new ## s).

Lemma grow_down_effect :
  survivors st !! se_child_table e = Some s -> key_frames !! se_child_table e = Some f ->
  new ⊆ row_ids f -> (good (survivors st) -> forall i, i ∈ new -> survives (se_child_table e) i) ->
  exists st', grow_down e new st = Ok st' /\ effect st st' /\
    (total_survivors (survivors st') = total_survivors (survivors st) -> new = ∅).
Proof.
  intros Hs Hf Hids Hnew. unfold grow_down. case_bool_decide as Hempty.
  { exists st. split; [done|]. split; [apply effect_refl|done]. }
  unfold item. rewrite Hs. cbn [of_option mbind result_bind].
  destruct (Hc e He) as [[da Hda] _]. rewrite Hda. cbn [of_option mbind result_bind].
  eexists. split; [done|]. pose proof (total_grow _ _ _ new Hs Hdisj) as Ht. cbn [survivors].
  assert (Hpos : (0 < size new)%nat).
  { destruct (decide (size new = 0%nat)) as [Hz|]; [|lia]. by apply size_empty_inv, leibniz_equiv in Hz. }
  split; [constructor; cbn [survivors down_added up_added round_added]|lia].
  - by apply leq_grow.
  - intros Hg. eapply good_grow; eauto.
  - intros _ e' He'. destruct (Hc e' He') as [? ?]. cbn. split; [|done].
    destruct (decide (edge_id e = edge_id e')) as [->|]; [by rewrite lookup_insert_eq|by rewrite lookup_insert_ne].
  - rewrite od_sum_add, Ht. lia.
  - rewrite Ht. lia.
Qed.

Lemma grow_up_effect :
  survivors st !! se_parent_table e = Some s -> key_frames !! se_parent_table e = Some f ->
  new ⊆ row_ids f -> (good (survivors st) -> forall i, i ∈ new -> survives (se_parent_table e) i) ->
  exists st', grow_up e new st = Ok st' /\ effect st st' /\
    (total_survivors (survivors st') = total_survivors (survivors st) -> new = ∅).
Proof.
  intros Hs Hf Hids Hnew. unfold grow_up. case_bool_decide as Hempty.
  { exists st. split; [done|]. split; [apply effect_refl|done]. }
  unfold item. rewrite Hs. cbn [of_option mbind result_bind].
  destruct (Hc e He) as [_ [ua Hua]]. rewrite Hua. cbn [of_option mbind result_bind].
  eexists. split; [done|]. pose proof (total_grow _ _ _ new Hs Hdisj) as Ht. cbn [survivors].
  assert (Hpos : (0 < size new)%nat).
  { destruct (decide (size new = 0%nat)) as [Hz|]; [|lia]. by apply size_empty_inv, leibniz_equiv in Hz. }
  split; [constructor; cbn [survivors down_added up_added round_added]|lia].
  - by apply leq_grow.
  - intros Hg. eapply good_grow; eauto.
  - intros _ e' He'. destruct (Hc e' He') as [? ?]. cbn. split; [done|].
    destruct (decide (edge_id e = edge_id e')) as [->|]; [by rewrite lookup_insert_eq|by rewrite lookup_insert_ne].
  - rewrite od_sum_add, Ht. lia.
  - rewrite Ht. lia.
Qed.
End Grow.

Lemma matches_row_ids lon ron f g s i : matches lon ron f g s i -> i ∈ row_ids f.
Proof.
  intros (r & r' & j & Hr & Hi & _). apply elem_of_list_to_set, int_column_rows. by exists r.
Qed.

Lemma matches_empty lon ron f g i : ~ matches lon ron f g ∅ i.
Proof. intros (r & r' & j & _ & _ & _ & _ & Hj & _). by apply elem_of_empty in Hj. Qed.

Lemma downward_step_spec e m pf cf ps cs :
  key_frames !! se_parent_table e = Some pf -> key_frames !! se_child_table e = Some cf ->
  m !! se_parent_table e = Some ps -> m !! se_child_table e = Some cs ->
  exists new, _downward_step e m key_frames = Ok new /\
    forall i, i ∈ new <-> matches (se_child_columns e) (se_parent_columns e) cf pf ps i /\ i ∉ cs.
Proof.
  intros Hpf Hcf Hps Hcs. unfold _downward_step, item. rewrite Hpf, Hcf, Hps, Hcs.
  cbn [of_option mbind result_bind]. case_bool_decide as Hempty.
  - exists ∅. split; [done|]. intros i. subst ps. pose proof (matches_empty (se_child_columns e) (se_parent_columns e) cf pf i).
    rewrite elem_of_empty. tauto.
  - eexists. split; [done|]. intros i. by rewrite elem_of_difference, elem_of_list_to_set, down_matches.
Qed.

Lemma upward_step_spec e m pf cf ps cs :
  key_frames !! se_parent_table e = Some pf -> key_frames !! se_child_table e = Some cf ->
  m !! se_parent_table e = Some ps -> m !! se_child_table e = Some cs ->
  exists new, _upward_step e m key_frames = Ok new /\
    forall i, i ∈ new <-> matches (se_parent_columns e) (se_child_columns e) pf cf cs i /\ i ∉ ps.
Proof.
  intros Hpf Hcf Hps Hcs. unfold _upward_step, item. rewrite Hpf, Hcf, Hps, Hcs.
  cbn [of_option mbind result_bind]. case_bool_decide as Hempty.
  - exists ∅. split; [done|]. intros i. subst cs. pose proof (matches_empty (se_parent_columns e) (se_child_columns e) pf cf i).
    rewrite elem_of_empty. tauto.
  - eexists. split; [done|]. intros i. by rewrite elem_of_difference, elem_of_list_to_set, up_matches.
Qed.

(** An edge whose enabled rules add nothing. *)
Definition closed_edge (m : survivor_map) (e : SubsetEdge) : Prop :=
  forall d pf cf ps cs, directions !! edge_id e = Some d ->
    key_frames !! se_parent_table e = Some pf -> key_frames !! se_child_table e = Some cf ->
    m !! se_parent_table e = Some ps -> m !! se_child_table e = Some cs ->
    (goes_down d = true -> forall i, matches (se_child_columns e) (se_parent_columns e) cf pf ps i -> i ∈ cs) /\
    (goes_up d = true -> forall i, matches (se_parent_columns e) (se_child_columns e) pf cf cs i -> i ∈ ps).

Context (Hin : inputs_ok).

Lemma good_lookup m t : good m -> is_Some (key_frames !! t) -> is_Some (m !! t).
Proof. intros Hg. apply (g_dom _ Hg). Qed.

Lemma edge_pass_spec e st :
  e ∈ edges -> good (survivors st) -> counts_ok st ->
  exists st', edge_pass directions key_frames st e = Ok st' /\ effect st st' /\
    (total_survivors (survivors st') = total_survivors (survivors st) -> closed_edge (survivors st') e).
Proof.
  intros He Hg Hc. destruct (io_dir Hin e He) as [d Hd].
  destruct (io_parent Hin e He) as [pf Hpf], (io_child Hin e He) as [cf Hcf].
  unfold edge_pass, item. rewrite Hd. cbn [of_option mbind result_bind].
  (* the downward half *)
  assert (Hdown : exists st1, (if goes_down d then new ← _downward_step e (survivors st) key_frames; grow_down e new st
                               else Ok st) = Ok st1 /\ effect st st1 /\
    (total_survivors (survivors st1) = total_survivors (survivors st) -> goes_down d = true ->
     forall ps cs i, survivors st !! se_parent_table e = Some ps -> survivors st !! se_child_table e = Some cs ->
       matches (se_child_columns e) (se_parent_columns e) cf pf ps i -> i ∈ cs)).
  { destruct (goes_down d) eqn:Hgd; [|exists st; split; [done|]; split; [apply effect_refl|done]].
    destruct (good_lookup _ (se_parent_table e) Hg) as [ps Hps]; [by eexists|].
    destruct (good_lookup _ (se_child_table e) Hg) as [cs Hcs]; [by eexists|].
    destruct (downward_step_spec e _ pf cf ps cs Hpf Hcf Hps Hcs) as (new & Hnew & Hspec).
    rewrite Hnew. cbn [mbind result_bind].
    destruct (grow_down_effect e He new cs st cf Hc) as (st1 & H1 & Heff & Hz); [|done|done| |..].
    - intros i Hi Hcs'. by apply Hspec in Hi as [_ ?].
    - intros i [Hi _]%Hspec. by eapply matches_row_ids.
    - intros _ i [(r & r' & j & Hr & Hi & Hr' & Hj & Hps' & Hm) _]%Hspec.
      eapply survives_down; eauto. by eapply (g_sound _ Hg).
    - exists st1. split; [done|]. split; [done|]. intros Ht _ ps' cs' i Hps' Hcs' Hm.
      assert (ps' = ps) as -> by congruence. assert (cs' = cs) as -> by congruence.
      destruct (decide (i ∈ cs)) as [|Hni]; [done|exfalso].
      assert (Hi : i ∈ new) by by apply Hspec. rewrite (Hz Ht) in Hi. by apply elem_of_empty in Hi. }
  destruct Hdown as (st1 & Hst1 & Heff1 & Hcl1). rewrite Hst1. cbn [mbind result_bind].
  pose proof (ef_good _ _ Heff1 Hg) as Hg1. pose proof (ef_counts _ _ Heff1 Hc) as Hc1.
  destruct (goes_up d) eqn:Hgu.
  2:{ exists st1. split; [done|]. split; [done|]. intros Ht d' pf' cf' ps cs Hd' Hpf' Hcf' Hps Hcs.
      assert (d' = d) as -> by congruence. assert (pf' = pf) as -> by congruence.
      assert (cf' = cf) as -> by congruence. rewrite (ef_same _ _ Heff1 Ht) in Hps, Hcs.
      split; [|by rewrite Hgu]. intros Hgd i. by apply (Hcl1 Ht Hgd). }
  destruct (good_lookup _ (se_parent_table e) Hg1) as [ps Hps]; [by eexists|].
  destruct (good_lookup _ (se_child_table e) Hg1) as [cs Hcs]; [by eexists|].
  destruct (upward_step_spec e _ pf cf ps cs Hpf Hcf Hps Hcs) as (new & Hnew & Hspec).
  rewrite Hnew. cbn [mbind result_bind].
  destruct (grow_up_effect e He new ps st1 pf Hc1) as (st2 & H2 & Heff2 & Hz); [|done|done| |..].
  - intros i Hi Hps'. by apply Hspec in Hi as [_ ?].
  - intros i [Hi _]%Hspec. by eapply matches_row_ids.
  - intros _ i [(r & r' & j & Hr & Hi & Hr' & Hj & Hcs' & Hm) _]%Hspec.
    eapply survives_up; eauto. by eapply (g_sound _ Hg1).
  - exists st2. split; [done|]. split; [by eapply effect_trans|]. intros Ht.
    pose proof (total_mono _ _ (ef_leq _ _ Heff1)). pose proof (total_mono _ _ (ef_leq _ _ Heff2)).
    assert (Ht1 : total_survivors (survivors st1) = total_survivors (survivors st)) by lia.
    assert (Ht2 : total_survivors (survivors st2) = total_survivors (survivors st1)) by lia.
    rewrite (ef_same _ _ Heff2 Ht2). pose proof (ef_same _ _ Heff1 Ht1) as Hsame.
    intros d' pf' cf' ps' cs' Hd' Hpf' Hcf' Hps' Hcs'.
    assert (d' = d) as -> by congruence. assert (pf' = pf) as -> by congruence.
    assert (cf' = cf) as -> by congruence. split.
    + intros Hgd i. rewrite Hsame in Hps', Hcs'. by apply (Hcl1 Ht1 Hgd).
    + intros _ i Hm. assert (ps' = ps) as -> by congruence. assert (cs' = cs) as -> by congruence.
      destruct (decide (i ∈ ps)) as [|Hni]; [done|exfalso].
      assert (Hi : i ∈ new) by by apply Hspec. rewrite (Hz Ht2) in Hi. by apply elem_of_empty in Hi.
Qed.

(** A whole round. *)
Lemma round_spec st :
  good (survivors st) -> counts_ok st ->
  exists st', for_each (edge_pass directions key_frames) edges st = Ok st' /\ effect st st' /\
    (total_survivors (survivors st') = total_survivors (survivors st) -> Forall (closed_edge (survivors st')) edges).
Proof.
  enough (Hgen : forall es st, (forall e, e ∈ es -> e ∈ edges) -> good (survivors st) -> counts_ok st ->
    exists st', for_each (edge_pass directions key_frames) es st = Ok st' /\ effect st st' /\
    (total_survivors (survivors st') = total_survivors (survivors st) -> Forall (closed_edge (survivors st')) es))
    by (apply Hgen; auto).
  clear st. induction es as [|e es IH]; intros st Hsub Hg Hc.
  - exists st. split; [done|]. split; [apply effect_refl|]. intros _. constructor.
  - destruct (edge_pass_spec e st) as (st1 & H1 & Heff1 & Hcl1); [apply Hsub; left|done|done|].
    destruct (IH st1) as (st2 & H2 & Heff2 & Hcl2);
      [intros; apply Hsub; by right|by apply Heff1|by apply Heff1|].
    exists st2. cbn [for_each]. rewrite H1. cbn [mbind result_bind]. split; [done|].
    split; [by eapply effect_trans|]. intros Ht.
    pose proof (total_mono _ _ (ef_leq _ _ Heff1)). pose proof (total_mono _ _ (ef_leq _ _ Heff2)).
    assert (Hs2 : survivors st2 = survivors st1) by (apply Heff2; lia).
    constructor; [rewrite Hs2; apply Hcl1; lia|apply Hcl2; lia].
Qed.

Lemma stats_ok st : counts_ok st -> exists stats, _stats edges directions (down_added st) (up_added st) = Ok stats.
Proof.
  intros Hc. unfold _stats.
  enough (Hgen : forall es, (forall e, e ∈ es -> e ∈ edges) -> exists stats, map_res (fun e =>
    d ← item directions (edge_id e); da ← item (down_added st) (edge_id e); ua ← item (up_added st) (edge_id e);
    Ok (MkStats (edge_id e) d da ua)) es = Ok stats) by (apply Hgen; auto).
  induction es as [|e es IH]; intros Hsub; [by exists []|].
  destruct (IH (fun x Hx => Hsub x (list_elem_of_further _ _ _ Hx))) as [stats Hst].
  assert (He : e ∈ edges) by (apply Hsub; left).
  destruct (io_dir Hin e He) as [d Hd], (Hc e He) as [[da Hda] [ua Hua]].
  cbn [map_res]. unfold item in Hst |- *. rewrite Hd, Hda, Hua. cbn [of_option mbind result_bind].
  rewrite Hst. cbn. by eexists.
Qed.

(** ** The loop *)

Lemma seed_survivors_lookup t :
  seed_survivors key_frames seed_rows !! t = (fun _ => default ∅ (seed_rows !! t)) <$> key_frames !! t.
Proof. unfold seed_survivors. rewrite map_lookup_imap. by destruct (key_frames !! t). Qed.

Lemma seed_good : good (seed_survivors key_frames seed_rows).
Proof.
  constructor.
  - intros t. rewrite seed_survivors_lookup. by rewrite fmap_is_Some.
  - intros t s i. rewrite seed_survivors_lookup. destruct (key_frames !! t) as [f|] eqn:Hf; [|done].
    intros [= <-]. destruct (seed_rows !! t) as [s'|] eqn:Hs; cbn; [|by intros ?%elem_of_empty].
    by eapply survives_seed.
  - intros t s f. rewrite seed_survivors_lookup. intros Hs Hf. rewrite Hf in Hs. injection Hs as <-. set_solver.
  - apply leq_refl.
Qed.

(** No survivor set outgrows the seeds and the rows. *)
Lemma total_bound m :
  good m ->
  total_survivors m <= total_survivors (seed_survivors key_frames seed_rows) + msum (fun _ f => height f) key_frames.
Proof.
  intros Hg.
  set (bound := map_imap (fun t f => Some (default ∅ (seed_rows !! t) ∪ row_ids f)) key_frames).
  assert (H1 : total_survivors m <= total_survivors bound).
  { apply total_mono. intros t s Hs. destruct (proj1 (g_dom _ Hg t)) as [f Hf]; [by eexists|].
    eexists. split; [unfold bound; by rewrite map_lookup_imap, Hf|]. by apply (g_bound _ Hg). }
  assert (H2 : total_survivors bound <=
     total_survivors (seed_survivors key_frames seed_rows) + msum (fun _ f => height f) key_frames); [|lia].
  unfold bound, seed_survivors. clear -PL.
  repeat match goal with |- context [total_survivors ?x] =>
    change (total_survivors x) with (msum (fun _ (s : gset Z) => Z.of_nat (size s)) x) end.
  induction key_frames as [|t f kf Ht IH] using map_ind; [unfold msum; by rewrite !map_to_list_empty|].
  rewrite !map_imap_insert, !msum_insert by (done || by rewrite map_lookup_imap, Ht).
  assert (Hrow : Z.of_nat (size (row_ids f)) <= height f).
  { pose proof (int_column_length f RI). unfold row_ids, zlen in *. pose proof (size_list_to_set_le (int_column f RI)). lia. }
  pose proof (size_union_alt (default ∅ (seed_rows !! t)) (row_ids f)) as Hu.
  assert ((size (row_ids f ∖ default ∅ (seed_rows !! t)) <= size (row_ids f))%nat) by (apply subseteq_size; clear; set_solver).
  lia.
Qed.

Context (budget_check : survivor_map -> list EdgeStats -> result unit).

(** What the closure hands back. *)
Definition closure_ok (r : ClosureResult) : Prop :=
  good (cr_survivors r) /\ Forall (closed_edge (cr_survivors r)) edges /\
  exists stats, budget_check (cr_survivors r) stats = Ok tt.

Definition budget_failure (m : result ClosureResult) : Prop :=
  exists surv stats e, budget_check surv stats = Err e /\ m = Err e.

Lemma loop_spec rounds_left rounds st trace :
  good (survivors st) -> counts_ok st ->
  total_survivors (seed_survivors key_frames seed_rows) + msum (fun _ f => height f) key_frames
    < total_survivors (survivors st) + Z.of_nat rounds_left ->
  let m := closure_loop edges directions key_frames budget_check rounds_left rounds st trace in
  (exists r, m = Ok r /\ closure_ok r) \/ budget_failure m.
Proof.
  revert rounds st trace. induction rounds_left as [|n IH]; intros rounds st trace Hg Hc Hb.
  { pose proof (total_bound _ Hg). lia. }
  cbv zeta. cbn [closure_loop].
  set (st0 := MkLoop (survivors st) (down_added st) (up_added st) []).
  destruct (round_spec st0 Hg Hc) as (st1 & Hround & Heff & Hclosed). rewrite Hround. cbn [mbind result_bind].
  pose proof (ef_good _ _ Heff Hg) as Hg1. pose proof (ef_counts _ _ Heff Hc) as Hc1.
  destruct (stats_ok st1 Hc1) as [stats Hstats]. rewrite Hstats. cbn [mbind result_bind].
  destruct (budget_check (survivors st1) stats) as [[]|e] eqn:Hbc; cbn [mbind result_bind].
  2:{ right. exists (survivors st1), stats, e. done. }
  pose proof (ef_sum _ _ Heff) as Hsum. change (od_sum (round_added st0)) with 0 in Hsum.
  change (survivors st0) with (survivors st) in *.
  pose proof (total_mono _ _ (ef_leq _ _ Heff)) as Hmono. change (survivors st0) with (survivors st) in Hmono.
  destruct (Z.eqb_spec (od_sum (round_added st1)) 0) as [Hz|Hz].
  - left. eexists. split; [done|]. cbn [cr_survivors]. split; [done|]. split; [apply Hclosed; lia|by exists stats].
  - apply IH; [done|done|lia].
Qed.

Lemma zero_counts_ok e : e ∈ edges -> is_Some (zero_counts edges !! edge_id e).
Proof.
  intros He. unfold zero_counts. exists 0. apply elem_of_list_to_map_1'.
  - intros y (e' & [= _ ->] & _)%list_elem_of_fmap. done.
  - apply list_elem_of_fmap. eauto.
Qed.

Lemma height_nonneg (kf : gmap pystr Frame) : 0 <= msum (fun _ f => height f) kf.
Proof.
  induction kf as [|t f kf Ht IH] using map_ind; [unfold msum; by rewrite map_to_list_empty|].
  rewrite msum_insert by done. rewrite height_rows. pose proof (zlen_nonneg (frame_rows f)). lia.
Qed.

Lemma compute_closure_spec :
  let m := compute_closure edges directions key_frames seed_rows budget_check in
  (exists r, m = Ok r /\ closure_ok r) \/ budget_failure m.
Proof.
  apply loop_spec.
  - apply seed_good.
  - intros e He. split; by apply zero_counts_ok.
  - cbn [survivors]. pose proof (height_nonneg key_frames).
    change (max_rounds key_frames) with (msum (fun _ f => height f) key_frames + 2). lia.
Qed.

(** A closed map that contains the seeds contains everything that survives. *)
Lemma closed_complete m :
  good m -> Forall (closed_edge m) edges -> forall t i, survives t i -> exists s, m !! t = Some s /\ i ∈ s.
Proof.
  intros Hg Hcl t i H. rewrite list.Forall_forall in Hcl.
  induction H as [t f s i Hf Hs Hi
                 |e d pf cf i j r r' He Hd Hgd Hpf Hcf _ IH Hr Hri Hr' Hrj Hm
                 |e d pf cf i j r r' He Hd Hgu Hpf Hcf _ IH Hr Hri Hr' Hrj Hm].
  - destruct (g_seed _ Hg t (default ∅ (seed_rows !! t))) as (s' & Hs' & Hsub).
    { by rewrite seed_survivors_lookup, Hf. }
    exists s'. split; [done|]. apply Hsub. by rewrite Hs.
  - destruct IH as (ps & Hps & Hj). destruct (good_lookup m (se_child_table e) Hg) as [cs Hcs]; [by eexists|].
    exists cs. split; [done|]. apply (Hcl e He d pf cf ps cs); try done. by exists r, r', j.
  - destruct IH as (cs & Hcs & Hj). destruct (good_lookup m (se_parent_table e) Hg) as [ps Hps]; [by eexists|].
    exists ps. split; [done|]. apply (Hcl e He d pf cf ps cs); try done. by exists r, r', j.
Qed.

Lemma closure_exact r :
  closure_ok r -> forall t i, survives t i <-> exists s, cr_survivors r !! t = Some s /\ i ∈ s.
Proof.
  intros (Hg & Hcl & _) t i. split; [by apply closed_complete|].
  intros (s & Hs & Hi). by eapply (g_sound _ Hg).
Qed.

Lemma height_zero f : height f = 0 <-> forall r, r ∉ frame_rows f.
Proof.
  rewrite height_rows. split.
  - intros ->%zlen_zero r. apply not_elem_of_nil.
  - intros H. destruct (frame_rows f) as [|r l]; [done|]. destruct (H r). left.
Qed.

(** A key that is in the parent table and in a surviving child row is in a
    surviving parent row. *)
Lemma verify_edge_ok r e : closure_ok r -> e ∈ edges -> verify_edge directions key_frames r e = Ok tt.
Proof.
  intros (Hg & Hcl & _) He. rewrite list.Forall_forall in Hcl. destruct (io_dir Hin e He) as [d Hd].
  destruct (io_parent Hin e He) as [pf Hpf], (io_child Hin e He) as [cf Hcf].
  destruct (good_lookup _ (se_parent_table e) Hg) as [ps Hps]; [by eexists|].
  destruct (good_lookup _ (se_child_table e) Hg) as [cs Hcs]; [by eexists|].
  unfold verify_edge, item. rewrite Hd, Hpf, Hcf, Hps, Hcs. cbn [of_option mbind result_bind].
  destruct (goes_up d) eqn:Hgu; cbn [negb]; [|done]. destruct (_ =? 0); [done|].
  set (still := join_semi _ _ _ _). assert (Hz : height still = 0); [|by rewrite Hz].
  apply height_zero. intros x Hx. unfold still in Hx. clear still.
  apply join_semi_rows in Hx as [[Hx Hno]%join_anti_rows (y & Hy & k & Hkx & Hky)].
  apply unique_rows, drop_nulls_rows in Hx as [Hx _].
  apply select_rows in Hx as (x0 & [Hx0 (j & Hj & Hxj)]%filter_rows & ->).
  apply unique_rows, drop_nulls_rows in Hy as [(y0 & Hy0 & ->)%select_rows _].
  rewrite key_of_restrict in Hkx, Hky. rewrite elem_of_sorted_set in Hj.
  destruct (io_index Hin _ _ _ Hpf Hy0) as [i Hi].
  assert (Hips : i ∈ ps).
  { apply (Hcl e He d pf cf ps cs); try done. exists y0, x0, j. split_and!; try done. by exists k. }
  apply Hno. exists (restrict_row (se_parent_columns e) y0). split.
  - apply select_rows. exists y0. split; [|done]. apply filter_rows. split; [done|].
    exists i. by rewrite elem_of_sorted_set.
  - exists k. by rewrite !key_of_restrict.
Qed.

Lemma verify_closure_ok r : closure_ok r -> verify_closure edges directions key_frames r = Ok tt.
Proof.
  intros Hr. unfold verify_closure.
  enough (Hgen : forall es, (forall e, e ∈ es -> e ∈ edges) ->
    for_each (fun _ e => verify_edge directions key_frames r e) es tt = Ok tt) by (apply Hgen; auto).
  induction es as [|e es IH]; intros Hsub; [done|]. cbn. rewrite verify_edge_ok; [|done|apply Hsub; left].
  cbn. apply IH. intros. apply Hsub. by right.
Qed.
End ClosureLemmas.

(** ** Directions *)

Lemma set_direction_loop valid l d0 d :
  for_each (set_direction valid) l d0 = Ok d -> (forall k, is_Some (d0 !! k) <-> k ∈ valid) ->
  forall k, is_Some (d !! k) <-> k ∈ valid.
Proof.
  revert d0. induction l as [|p l IH]; intros d0 H Hd; cbn in H; ok_inv; [done|].
  eapply IH; [done|]. unfold set_direction in E. ok_inv. bool_prop. intros k.
  destruct (decide (p.1 = k)) as [<-|]; [rewrite lookup_insert_eq; split; [done|by eexists]|].
  by rewrite lookup_insert_ne.
Qed.

Lemma both_dom (valid : gset pystr) k : is_Some (gset_to_gmap Both valid !! k) <-> k ∈ valid.
Proof.
  rewrite lookup_gset_to_gmap. destruct (decide (k ∈ valid)).
  - rewrite option_guard_True by done. split; [done|by eexists].
  - rewrite option_guard_False by done. split; [by intros []|done].
Qed.

Lemma resolve_directions_spec edges policy directions :
  resolve_edge_directions edges policy = Ok directions ->
  (forall k, is_Some (directions !! k) <-> k ∈ edge_id <$> edges) /\
  (allow_dangling policy = false -> forall k d, directions !! k = Some d -> goes_up d = true).
Proof.
  unfold resolve_edge_directions. intros H. ok_inv. split.
  - intros k. rewrite <- (elem_of_list_to_set (C := gset pystr)).
    eapply (set_direction_loop _ _ _ _ E), both_dom.
  - intros Hal k d Hk. rewrite Hal in Heqb. cbn [negb andb] in Heqb.
    destruct (goes_up d) eqn:Hgu; [done|exfalso].
    assert (Hex : existsb (fun kv => dangling kv.2) (map_to_list directions) = true); [|congruence].
    apply existsb_exists. exists (k, d). split; [by apply list_elem_of_In, elem_of_map_to_list|].
    by destruct d.
Qed.

(** ** Budget *)

Lemma budget_ok_spec budget total surv stats :
  make_budget_check budget total surv stats = Ok tt ->
  (forall cap, max_total_rows budget = Some cap -> total_survivors surv <= cap) /\
  (forall x, max_table_seed_multiple budget = Some x -> exists cap, seed_cap x total = Ok cap /\
     forall t s, surv !! t = Some s -> Z.of_nat (size s) <= cap).
Proof.
  unfold make_budget_check. intros H. split.
  - intros cap Hcap. rewrite Hcap in H. ok_step. bool_prop. lia.
  - intros x Hx. rewrite Hx in H. ok_step. ok_step. exists a0. split; [done|]. intros t s Hs.
    assert (Ht : t ∈ sorted (elements (dom surv))).
    { apply elem_of_sorted, elem_of_elements, elem_of_dom. by eexists. }
    clear E. revert H. induction (sorted (elements (dom surv))) as [|t' l IH]; [by apply elem_of_nil in Ht|].
    cbn [for_each]. intros H. ok_step. destruct a1. apply elem_of_cons in Ht as [<-|Ht]; [|by apply IH].
    unfold check_table, item in E. rewrite Hs in E. cbn [of_option mbind result_bind] in E.
    destruct (Z.gtb_spec (Z.of_nat (size s)) a0); [|lia]. ok_step. discriminate.
Qed.

(** ** Claims *)

Section ClosureClaims.
Context `{P : PolarsOps} {PL : PolarsLaws P}.

(** C26: The closure always terminates within its bound. On inputs as preflight
    leaves them, whatever the schema's cycles, [compute_closure] returns a result
    or the error its budget check raised; the growth bound [max_rounds] is never
    the way out. *)
Theorem closure_terminates edges directions key_frames seed_rows budget_check :
  inputs_ok edges directions key_frames ->
  let m := compute_closure edges directions key_frames seed_rows budget_check in
  (exists r, m = Ok r) \/ (exists surv stats e, budget_check surv stats = Err e /\ m = Err e).
Proof.
  intros Hin. destruct (compute_closure_spec edges directions key_frames seed_rows Hin budget_check)
    as [(r & Hr & _)|Hb]; [left; by exists r|by right].
Qed.

(** C27: The closure is exact: the survivor sets hold a row of a table exactly
    when it is derivable from the seeds by the downward and upward rules (the
    least fixpoint), they are given for exactly the loaded tables, and the
    independent re-check [verify_closure] accepts them. *)
Theorem closure_least_fixpoint edges directions key_frames seed_rows budget_check r :
  inputs_ok edges directions key_frames ->
  compute_closure edges directions key_frames seed_rows budget_check = Ok r ->
  (forall t i, survives edges directions key_frames seed_rows t i <->
               exists s, cr_survivors r !! t = Some s /\ i ∈ s) /\
  (forall t, is_Some (cr_survivors r !! t) <-> is_Some (key_frames !! t)) /\
  verify_closure edges directions key_frames r = Ok tt.
Proof.
  intros Hin H. destruct (compute_closure_spec edges directions key_frames seed_rows Hin budget_check)
    as [(r' & Hr & Hok)|(surv & stats & e & _ & He)]; [|rewrite H in He; discriminate].
  rewrite H in Hr. injection Hr as <-. split; [by apply (closure_exact _ _ _ _ budget_check)|].
  split; [apply Hok|]. by eapply verify_closure_ok.
Qed.

(** No dangling foreign keys, within budget. With directions resolved under
    a policy that does not acknowledge dangling, a returned subset keeps, for
    every edge and every surviving child row with a non-null key, a surviving
    parent row with that key whenever the source has any parent row with it; and
    the survivor counts respect the total cap and the per-table seed multiple. *)
Theorem closure_no_dangling edges policy directions key_frames seed_rows total_seed r :
  resolve_edge_directions edges policy = Ok directions -> allow_dangling policy = false ->
  inputs_ok edges directions key_frames ->
  compute_closure edges directions key_frames seed_rows (make_budget_check (fp_budget policy) total_seed) = Ok r ->
  (forall e pf cf ps cs x y k j, e ∈ edges ->
     key_frames !! se_parent_table e = Some pf -> key_frames !! se_child_table e = Some cf ->
     cr_survivors r !! se_parent_table e = Some ps -> cr_survivors r !! se_child_table e = Some cs ->
     x ∈ frame_rows cf -> x !! RI = Some (CInt j) -> j ∈ cs -> key_of (se_child_columns e) x = Some k ->
     y ∈ frame_rows pf -> key_of (se_parent_columns e) y = Some k ->
     exists i, y !! RI = Some (CInt i) /\ i ∈ ps) /\
  (forall cap, max_total_rows (fp_budget policy) = Some cap -> total_survivors (cr_survivors r) <= cap) /\
  (forall mult, max_table_seed_multiple (fp_budget policy) = Some mult ->
     exists cap, seed_cap mult total_seed = Ok cap /\
       forall t s, cr_survivors r !! t = Some s -> Z.of_nat (size s) <= cap).
Proof.
  intros Hdir Hal Hin H. destruct (resolve_directions_spec _ _ _ Hdir) as [_ Hup]. specialize (Hup Hal).
  destruct (compute_closure_spec edges directions key_frames seed_rows Hin
              (make_budget_check (fp_budget policy) total_seed))
    as [(r' & Hr & Hok)|(surv & stats & e & _ & He)]; [|rewrite H in He; discriminate].
  rewrite H in Hr. injection Hr as <-. destruct Hok as (Hg & Hcl & stats & Hb).
  split; [|by apply (budget_ok_spec _ _ _ stats)].
  intros e pf cf ps cs x y k j He Hpf Hcf Hps Hcs Hx Hxj Hj Hkx Hy Hky.
  destruct (io_index _ _ _ Hin _ _ _ Hpf Hy) as [i Hi]. exists i. split; [done|].
  destruct (io_dir _ _ _ Hin e He) as [d Hd]. rewrite list.Forall_forall in Hcl.
  destruct (Hcl e He d pf cf ps cs) as [_ Hcup]; try done.
  apply (Hcup (Hup _ _ Hd)). exists y, x, j. split_and!; try done. by exists k.
Qed.

End ClosureClaims.

(** The direction an override list gives an edge: the last one that names it. *)
Definition override (l : list (pystr * EdgeDirection)) (k : pystr) (d0 : EdgeDirection) : EdgeDirection :=
  fold_left (fun d p => if bool_decide (p.1 = k) then p.2 else d) l d0.

Lemma set_direction_exact valid l d0 :
  match for_each (set_direction valid) l d0 with
  | Ok d => Forall (fun p => p.1 ∈ valid) l /\
            forall k, k ∈ valid -> forall x, d0 !! k = Some x -> d !! k = Some (override l k x)
  | Err e => e = SubsetConfigError SUBSET_UNKNOWN_EDGE /\ exists p, p ∈ l /\ p.1 ∉ valid
  end.
Proof.
  revert d0. induction l as [|p l IH]; intros d0; cbn [for_each].
  { split; [constructor|]. intros k _ x Hx. done. }
  destruct (decide (p.1 ∈ valid)) as [Hp|Hp].
  - assert (set_direction valid d0 p = Ok (<[p.1 := p.2]> d0)) as ->
      by (unfold set_direction; by rewrite bool_decide_eq_true_2).
    cbn [mbind result_bind]. specialize (IH (<[p.1 := p.2]> d0)). destruct (for_each _ l _) as [d|e].
    + destruct IH as [Hall Hd]. split; [by constructor|]. intros k Hk x Hx. unfold override. cbn [fold_left].
      case_bool_decide as Hpk.
      * subst k. apply Hd; [done|]. apply lookup_insert_eq.
      * apply Hd; [done|]. by rewrite lookup_insert_ne.
    + destruct IH as [-> (q & Hq & Hn)]. split; [done|]. exists q. split; [by right|done].
  - assert (set_direction valid d0 p = Err (SubsetConfigError SUBSET_UNKNOWN_EDGE)) as ->
      by (unfold set_direction; by rewrite bool_decide_eq_false_2).
    split; [done|]. exists p. split; [left|done].
Qed.

(** Direction resolution, on every branch. It succeeds exactly when every
    override names a known edge and, unless dangling is acknowledged, every edge
    ends up traversed upward; then each edge has the direction of the last override
    that names it, [both] by default, and nothing else has one. Otherwise it raises
    [subset_unknown_edge] for an unknown edge, and
    [subset_dangling_not_acknowledged] for an edge left without upward traversal. *)
Theorem directions_exact edges policy :
  let ids := edge_id <$> edges in
  let dir k := override (edge_directions policy) k Both in
  match resolve_edge_directions edges policy with
  | Ok d => Forall (fun p => p.1 ∈ ids) (edge_directions policy) /\
            (forall k, d !! k = if bool_decide (k ∈ ids) then Some (dir k) else None) /\
            (allow_dangling policy = true \/ forall k, k ∈ ids -> goes_up (dir k) = true)
  | Err e => (e = SubsetConfigError SUBSET_UNKNOWN_EDGE /\ exists p, p ∈ edge_directions policy /\ p.1 ∉ ids) \/
             (e = SubsetConfigError SUBSET_DANGLING_NOT_ACKNOWLEDGED /\ allow_dangling policy = false /\
              exists k, k ∈ ids /\ goes_up (dir k) = false)
  end.
Proof.
  cbv zeta. pose proof (resolve_directions_spec edges policy) as Hspec. revert Hspec. unfold resolve_edge_directions.
  set (valid := list_to_set (edge_id <$> edges) : gset pystr).
  assert (Hvalid : forall k, k ∈ valid <-> k ∈ edge_id <$> edges) by (intros; apply elem_of_list_to_set).
  pose proof (set_direction_exact valid (edge_directions policy) (gset_to_gmap Both valid)) as Hex.
  destruct (for_each (set_direction valid) _ _) as [d|e] eqn:Hloop; cbn [mbind result_bind]; intros Hspec.
  2:{ left. destruct Hex as [-> (p & Hp & Hn)]. split; [done|]. exists p. split; [done|]. by rewrite <- Hvalid. }
  destruct Hex as [Hall Hd].
  assert (Hdir : forall k, k ∈ edge_id <$> edges -> d !! k = Some (override (edge_directions policy) k Both)).
  { intros k Hk. apply Hvalid in Hk. apply Hd; [done|]. rewrite lookup_gset_to_gmap. by rewrite option_guard_True. }
  destruct (negb (allow_dangling policy) && _) eqn:Hg; cbn [raise_if mbind result_bind] in *.
  - right. bool_prop. split; [done|]. split; [done|].
    match goal with H : existsb _ _ = true |- _ => apply existsb_exists in H as ([k x] & Hkx & Hdang) end.
    apply list_elem_of_In, elem_of_map_to_list in Hkx. cbn in Hdang. exists k.
    assert (Hk : k ∈ edge_id <$> edges).
    { apply Hvalid. eapply (set_direction_loop _ _ _ _ Hloop); [apply both_dom|by eexists]. }
    split; [done|]. rewrite Hdir in Hkx by done. injection Hkx as ->. by destruct x.
  - destruct (Hspec d eq_refl) as [Hdom Hup]. split_and!.
    + revert Hall. apply Forall_impl. intros p. apply Hvalid.
    + intros k. case_bool_decide as Hk; [by apply Hdir|]. rewrite eq_None_not_Some. by rewrite Hdom.
    + destruct (allow_dangling policy); [by left|right]. intros k Hk. eapply Hup; [done|]. by apply Hdir.
Qed.

(** ** A reference frame, and samples *)

Definition ref_row_has (cols : list pystr) (r : row) : bool := forallb (fun c => bool_decide (is_Some (r !! c))) cols.

Definition ref_match (lon ron : list pystr) (rs : list row) (r : row) : bool :=
  match key_of lon r with
  | Some k => existsb (fun r' => bool_decide (key_of ron r' = Some k)) rs
  | None => false
  end.

Definition int_cell (c : pystr) (r : row) : option Z :=
  match r !! c with Some (CInt n) => Some n | _ => None end.

(** Frames as a column list and a row list. *)
Definition ref_polars : PolarsOps := {|
  Frame := list pystr * list row;
  frame_columns := fst;
  frame_rows := snd;
  height f := zlen f.2;
  filter_is_in f c l := (f.1, List.filter (fun r => bool_decide (int_cell c r ∈ Some <$> l)) f.2);
  select f cols := (cols, restrict_row cols <$> f.2);
  unique f := (f.1, fromkeys f.2);
  drop_nulls f := (f.1, List.filter (ref_row_has f.1) f.2);
  join_semi f g lon ron := (f.1, List.filter (ref_match lon ron g.2) f.2);
  join_anti f g lon ron := (f.1, List.filter (fun r => negb (ref_match lon ron g.2 r)) f.2);
  int_column f c := omap (int_cell c) f.2;
|}.

Lemma int_cell_spec c r n : int_cell c r = Some n <-> r !! c = Some (CInt n).
Proof. unfold int_cell. destruct (r !! c) as [[]|]; split; congruence. Qed.

Lemma ref_match_spec lon ron rs r : ref_match lon ron rs r = true <-> exists r', r' ∈ rs /\ keys_match lon ron r r'.
Proof.
  unfold ref_match, keys_match. split.
  - destruct (key_of lon r) as [k|] eqn:Hk; [|done]. intros (r' & Hr' & Hb)%existsb_exists. bool_prop.
    exists r'. split; [by apply list_elem_of_In|]. by exists k.
  - intros (r' & Hr' & k & -> & Hk'). apply existsb_exists. exists r'. split; [by apply list_elem_of_In|].
    by apply bool_decide_eq_true_2.
Qed.

Lemma ref_polars_laws : PolarsLaws ref_polars.
Proof.
  constructor; cbn; try done.
  - intros [cols rs] c l r. cbn. rewrite elem_of_filter_b, bool_decide_eq_true, list_elem_of_fmap.
    split; intros [Hr (n & Hn & Hl)]; (split; [done|]); exists n; rewrite int_cell_spec in *; done.
  - intros [cols' rs] cols r. cbn. rewrite list_elem_of_fmap. split; intros (r' & ? & ?); by exists r'.
  - intros [cols rs] r. apply (elem_of_fromkeys r rs).
  - intros [cols rs] r. cbn. rewrite elem_of_filter_b. unfold ref_row_has.
    rewrite forallb_forall, Forall_forall. by setoid_rewrite bool_decide_eq_true.
  - intros [c1 rs] [c2 rs'] lon ron r. cbn. by rewrite elem_of_filter_b, ref_match_spec.
  - intros [c1 rs] [c2 rs'] lon ron r. cbn. rewrite elem_of_filter_b, negb_true_iff.
    by rewrite <- not_true_iff_false, ref_match_spec.
  - intros [cols rs] c n. cbn. rewrite list_elem_of_omap. by setoid_rewrite int_cell_spec.
  - intros [cols rs] c. cbn. unfold zlen. clear. induction rs as [|r rs IH]; cbn; [done|].
    destruct (int_cell c r); cbn; lia.
Qed.

Definition sample_row (i : Z) (cells : list (pystr * Z)) : row :=
  list_to_map ((RI, CInt i) :: ((fun p => (p.1, CInt p.2)) <$> cells)).

(** Three people, one the manager of another, and two orders. *)
Definition sample_frames : gmap pystr (@Frame ref_polars) :=
  <[py "people" := ([RI; py "id"; py "boss"],
      [sample_row 0 [(py "id", 10); (py "boss", 11)]; sample_row 1 [(py "id", 11)]; sample_row 2 [(py "id", 12)]])]>
  (<[py "orders" := ([RI; py "person"], [sample_row 0 [(py "person", 10)]; sample_row 1 [(py "person", 12)]])]> ∅).

Definition sample_edges : list SubsetEdge :=
  build_subset_edges
    [MkPlanRel (MkEnd (py "people") [py "id"]) [MkEnd (py "orders") [py "person"]; MkEnd (py "people") [py "boss"]]
       (py "fail") None].

Definition sample_policy : FanOutPolicy := MkPolicy (MkBudget (Some 10) None) [] false.
Definition sample_seeds : survivor_map := {[ py "orders" := {[0]} ]}.

Definition sample_directions : gmap pystr EdgeDirection :=
  match resolve_edge_directions sample_edges sample_policy with Ok d => d | Err _ => ∅ end.

Lemma sample_directions_ok : resolve_edge_directions sample_edges sample_policy = Ok sample_directions.
Proof.
  assert (H : is_ok (resolve_edge_directions sample_edges sample_policy) = true) by (vm_compute; reflexivity).
  unfold sample_directions. by destruct (resolve_edge_directions _ _).
Qed.

Lemma sample_inputs : @inputs_ok ref_polars sample_edges sample_directions sample_frames.
Proof.
  assert (Hb : forallb (fun e => is_ok (item sample_frames (se_parent_table e)) && is_ok (item sample_frames (se_child_table e))
                         && is_ok (item sample_directions (edge_id e))) sample_edges = true) by (vm_compute; reflexivity).
  assert (Hs : forall V (m : gmap pystr V) k, is_ok (item m k) = true -> is_Some (m !! k)).
  { intros V m k. unfold item. destruct (m !! k); [by eexists|done]. }
  rewrite forallb_forall in Hb. setoid_rewrite <- list_elem_of_In in Hb.
  constructor.
  1,2,3: intros e He; specialize (Hb e He); bool_prop; by apply Hs.
  intros t f r Hf Hr.
  assert (Hi : map_Forall (fun _ f => Forall (fun r => is_Some (int_cell RI r)) (frame_rows f)) sample_frames).
  { apply (bool_decide_eq_true_1 (map_Forall _ _)). vm_compute. reflexivity. }
  specialize (Hi t f Hf). rewrite list.Forall_forall in Hi. destruct (Hi r Hr) as [n Hn].
  exists n. by apply int_cell_spec.
Qed.

Definition sample_closure : result ClosureResult :=
  @compute_closure ref_polars sample_edges sample_directions sample_frames sample_seeds
    (make_budget_check (fp_budget sample_policy) 1).

Example sample_closure_rows :
  (fun r => sorted_set <$> cr_survivors r !! py "people") <$> sample_closure = Ok (Some [0; 1]).
Proof. vm_compute. reflexivity. Qed.

Lemma sample_closure_get : exists r, sample_closure = Ok r.
Proof.
  pose proof sample_closure_rows as H. destruct sample_closure as [r|]; [by exists r|discriminate].
Qed.

Lemma closure_terminates_witness :
  (exists r, sample_closure = Ok r) \/
  (exists surv stats e, make_budget_check (fp_budget sample_policy) 1 surv stats = Err e /\ sample_closure = Err e).
Proof.
  exact (@closure_terminates ref_polars ref_polars_laws sample_edges sample_directions sample_frames sample_seeds
    (make_budget_check (fp_budget sample_policy) 1) sample_inputs).
Defined.

Lemma closure_least_fixpoint_witness :
  exists r, sample_closure = Ok r /\
    @verify_closure ref_polars sample_edges sample_directions sample_frames r = Ok tt.
Proof.
  destruct sample_closure_get as [r H]. exists r. split; [exact H|].
  exact (proj2 (proj2 (@closure_least_fixpoint ref_polars ref_polars_laws sample_edges sample_directions sample_frames
    sample_seeds (make_budget_check (fp_budget sample_policy) 1) r sample_inputs H))).
Defined.

Lemma closure_no_dangling_witness :
  exists r, sample_closure = Ok r /\ total_survivors (cr_survivors r) <= 10.
Proof.
  destruct sample_closure_get as [r H]. exists r. split; [exact H|].
  exact (proj1 (proj2 (@closure_no_dangling ref_polars ref_polars_laws sample_edges sample_policy sample_directions
    sample_frames sample_seeds 1 r sample_directions_ok eq_refl sample_inputs H)) 10 eq_refl).
Defined.
