(* ===== verification/CsvFramer.v ===== *)
(** * CSV record framing (io/csv_framer.py)

    The bounded, quote-aware framer: splits a byte stream, read in blocks, at the
    record terminators outside quoted fields. The generator is modelled by the
    records it yields and the way it ends; the file by its contents, [read(k)]
    returning the next [k] bytes or what is left. *)

From S2P Require Import Prelude PyText.

Definition _BOM : bytes := [239; 187; 191].
Definition _QUOTE : Z := 34.
Definition _COMMA : Z := 44.
Definition _CR : Z := 13.
Definition _LF : Z := 10.

Inductive fstate := _CLEAN | _QUOTED | _AFTER_QUOTE.

(** How the generator ends. *)
Inductive csv_end :=
| Finished
| CsvRecordTooLarge (index : Z)
| CsvUnterminatedQuote (index : Z)
| BadBlockSize.

(** [block[i:j]] for [i <= j <= len(block)]. *)
Definition slice (i j : nat) (block : bytes) : bytes := take (j - i) (drop i block).

(** [block.find(b, pos)]: the index of the first [b] at or after [pos]. *)
Fixpoint find_from (b : Z) (pos : nat) (xs : bytes) : option nat :=
  match xs with
  | [] => None
  | x :: xs' => if x =? b then Some pos else find_from b (S pos) xs'
  end.
Definition find_byte (b : Z) (block : bytes) (pos : nat) : option nat := find_from b pos (drop pos block).

(** The spans of [_TERMINATORS] ([\r\n|\r|\n]) in [xs], counted from [off]. *)
Fixpoint terminator_spans (off : nat) (xs : bytes) : list (nat * nat) :=
  match xs with
  | [] => []
  | c :: xs' =>
      if c =? _CR then
        match xs' with
        | d :: xs'' => if d =? _LF then (off, 2 + off)%nat :: terminator_spans (2 + off) xs''
                       else (off, S off) :: terminator_spans (S off) xs'
        | [] => [(off, S off)]
        end
      else if c =? _LF then (off, S off) :: terminator_spans (S off) xs'
      else terminator_spans (S off) xs'
  end.

Definition finditer (block : bytes) (pos scan_end : nat) : list (nat * nat) :=
  terminator_spans pos (slice pos scan_end block).

(** The variables of the generator that live across the passes of its loops. *)
Record framer := MkFramer {
  state : fstate;
  at_start : bool;
  pieces : list bytes;
  rec_len : Z;
  index : Z;
  rec_start : nat;
  yielded : list bytes;
}.

Inductive scan_result (A : Type) :=
| Go (a : A)
| Stop (out : list bytes) (e : csv_end).
Arguments Go {A} a.
Arguments Stop {A} out e.

Section Framer.
Context (max_record_bytes : Z).

(** The body of [for match in _TERMINATORS.finditer(...)]; [cursor] is set
    together with [rec_start]. *)
Definition terminator_pass (block : bytes) (st : framer) (span : nat * nat) : scan_result framer :=
  let '(start, stop) := span in
  if rec_len st + Z.of_nat (start - rec_start st) >? max_record_bytes then
    Stop (yielded st) (CsvRecordTooLarge (index st))
  else
    let record :=
      match pieces st with
      | [] => slice (rec_start st) stop block
      | ps => concat (ps ++ [slice (rec_start st) stop block])
      end in
    Go (MkFramer (state st) true [] (match pieces st with [] => rec_len st | _ => 0 end) (index st + 1) stop
          (yielded st ++ [record])).

Fixpoint terminator_loop (block : bytes) (st : framer) (spans : list (nat * nat)) : scan_result framer :=
  match spans with
  | [] => Go st
  | s :: spans' =>
      match terminator_pass block st s with
      | Go st' => terminator_loop block st' spans'
      | r => r
      end
  end.

(** [while pos < n] over one block; the result carries [held_cr]. [fuel] bounds
    the passes, see [scan_block_total]. *)
Fixpoint scan_block (fuel : nat) (block : bytes) (pos : nat) (st : framer)
  : option (scan_result (framer * bool)) :=
  let n := length block in
  if (n <=? pos)%nat then Some (Go (st, false)) else
  match fuel with
  | O => None
  | S fuel =>
      match state st with
      | _QUOTED =>
          match find_byte _QUOTE block pos with
          | None => Some (Go (st, false))
          | Some q => scan_block fuel block (S q)
                        (MkFramer _AFTER_QUOTE (at_start st) (pieces st) (rec_len st) (index st)
                           (rec_start st) (yielded st))
          end
      | _AFTER_QUOTE =>
          if bool_decide (block !! pos = Some _QUOTE) then
            scan_block fuel block (S pos)
              (MkFramer _QUOTED (at_start st) (pieces st) (rec_len st) (index st) (rec_start st) (yielded st))
          else
            scan_block fuel block pos
              (MkFramer _CLEAN false (pieces st) (rec_len st) (index st) (rec_start st) (yielded st))
      | _CLEAN =>
          let q := find_byte _QUOTE block pos in
          let held_cr := bool_decide (q = None) && bool_decide (block !! (n - 1)%nat = Some _CR) in
          let scan_end := match q with Some q => q | None => if held_cr then (n - 1)%nat else n end in
          let spans := finditer block pos scan_end in
          match terminator_loop block st spans with
          | Stop out e => Some (Stop out e)
          | Go st =>
              let cursor := match list.last spans with Some s => s.2 | None => pos end in
              let at_start :=
                if (cursor <? scan_end)%nat then bool_decide (block !! (scan_end - 1)%nat = Some _COMMA)
                else at_start st in
              let st' s a := MkFramer s a (pieces st) (rec_len st) (index st) (rec_start st) (yielded st) in
              match q with
              | None => Some (Go (st' _CLEAN at_start, held_cr))
              | Some q => if at_start then scan_block fuel block (S q) (st' _QUOTED at_start)
                          else scan_block fuel block (S q) (st' _CLEAN false)
              end
          end
      end
  end.

(** One pass of the outer loop on a non-empty block. *)
Definition block_pass (block : bytes) (first_block pending_cr : bool) (st : framer)
  : option (scan_result (framer * bool)) :=
  let n := length block in
  let pos := if first_block && bool_decide (take 3 block = _BOM) then 3%nat else 0%nat in
  let '(pos, st) :=
    if pending_cr then
      let '(terminator, pos, rec_start) :=
        if bool_decide (block !! 0%nat = Some _LF) then ([_CR; _LF], Nat.max pos 1, 1%nat)
        else ([_CR], pos, 0%nat) in
      (pos, MkFramer _CLEAN true [] 0 (index st + 1) rec_start
              (yielded st ++ [concat (pieces st) ++ terminator]))
    else
      (pos, MkFramer (state st) (at_start st) (pieces st) (rec_len st) (index st) 0 (yielded st)) in
  match scan_block (2 * n + 1) block pos st with
  | Some (Go (st, held_cr)) =>
      let body_end := if held_cr then (n - 1)%nat else n in
      let grows := (rec_start st <? body_end)%nat in
      let pieces' := if grows then pieces st ++ [slice (rec_start st) body_end block] else pieces st in
      let rec_len' := if grows then rec_len st + Z.of_nat (body_end - rec_start st) else rec_len st in
      if rec_len' >? max_record_bytes then Some (Stop (yielded st) (CsvRecordTooLarge (index st)))
      else Some (Go (MkFramer (state st) (at_start st) pieces' rec_len' (index st) (rec_start st) (yielded st),
                     held_cr))
  | r => r
  end.

(** The end of the file. *)
Definition finish (pending_cr : bool) (st : framer) : list bytes * csv_end :=
  if pending_cr then (yielded st ++ [concat (pieces st) ++ [_CR]], Finished)
  else match state st with
       | _QUOTED => (yielded st, CsvUnterminatedQuote (index st))
       | _ => match pieces st with
              | [] => (yielded st, Finished)
              | ps => (yielded st ++ [concat ps], Finished)
              end
       end.

(** The [while True] loop on the unread bytes; [fuel] bounds the reads. *)
Fixpoint read_loop (fuel : nat) (block_size : nat) (rest : bytes) (first_block pending_cr : bool) (st : framer)
  : option (list bytes * csv_end) :=
  match take block_size rest with
  | [] => Some (finish pending_cr st)
  | block =>
      match fuel with
      | O => None
      | S fuel =>
          match block_pass block first_block pending_cr st with
          | Some (Go (st, held_cr)) => read_loop fuel block_size (drop block_size rest) false held_cr st
          | Some (Stop out e) => Some (out, e)
          | None => None
          end
      end
  end.

Definition iter_csv_records (contents : bytes) (block_size : nat) : option (list bytes * csv_end) :=
  if (block_size <? 4)%nat then Some ([], BadBlockSize)
  else read_loop (length contents) block_size contents true false (MkFramer _CLEAN true [] 0 0 0 []).
End Framer.

Example framer_sample :
  iter_csv_records 100 (py "a,b" ++ [13; 10] ++ [34; 120; 10; 34; 34; 34; 44; 49; 13] ++ py "tail") 4 =
  Some ([py "a,b" ++ [13; 10]; [34; 120; 10; 34; 34; 34; 44; 49; 13]; py "tail"], Finished).
Proof. vm_compute. reflexivity. Qed.

(** ** The byte-level specification

    One pass over the bytes, no blocks: the mode of the current field, the bytes
    of the record in progress, its index. A record is emitted with its
    terminator; its length is checked without it. *)

Inductive mode := FieldStart | Unquoted | InQuotes | AfterQuote.

Definition clean_mode (start : bool) : mode := if start then FieldStart else Unquoted.

Section Spec.
Context (max_record_bytes : Z).

Definition emit (idx : Z) (cur terminator : bytes) (k : list bytes * csv_end) : list bytes * csv_end :=
  if zlen cur >? max_record_bytes then ([], CsvRecordTooLarge idx)
  else ((cur ++ terminator) :: k.1, k.2).

Fixpoint frame (idx : Z) (m : mode) (cur s : bytes) : list bytes * csv_end :=
  match s with
  | [] =>
      if zlen cur >? max_record_bytes then ([], CsvRecordTooLarge idx) else
      match m with
      | InQuotes => ([], CsvUnterminatedQuote idx)
      | _ => (match cur with [] => [] | _ => [cur] end, Finished)
      end
  | c :: s' =>
      let clean start :=
        if c =? _CR then
          match s' with
          | d :: s'' => if d =? _LF then emit idx cur [_CR; _LF] (frame (idx + 1) FieldStart [] s'')
                        else emit idx cur [_CR] (frame (idx + 1) FieldStart [] s')
          | [] => emit idx cur [_CR] ([], Finished)
          end
        else if c =? _LF then emit idx cur [_LF] (frame (idx + 1) FieldStart [] s')
        else if c =? _QUOTE then frame idx (if start : bool then InQuotes else Unquoted) (cur ++ [c]) s'
        else frame idx (clean_mode (c =? _COMMA)) (cur ++ [c]) s' in
      match m with
      | InQuotes => frame idx (if c =? _QUOTE then AfterQuote else InQuotes) (cur ++ [c]) s'
      | AfterQuote => if c =? _QUOTE then frame idx InQuotes (cur ++ [c]) s' else clean false
      | FieldStart => clean true
      | Unquoted => clean false
      end
  end.

(** A byte-order mark at the start of the file leaves the field-start mode. *)
Definition frame_file (contents : bytes) : list bytes * csv_end :=
  if bool_decide (take 3 contents = _BOM) then frame 0 FieldStart _BOM (drop 3 contents)
  else frame 0 FieldStart [] contents.
End Spec.

(** ** Slices and searches *)

Lemma slice_length i j (b : bytes) : (i <= j <= length b)%nat -> length (slice i j b) = (j - i)%nat.
Proof. intros H. unfold slice. rewrite length_take, length_drop. lia. Qed.

Lemma slice_nil i (b : bytes) : slice i i b = [].
Proof. unfold slice. by rewrite Nat.sub_diag. Qed.

Lemma slice_app i j k (b : bytes) : (i <= j <= k)%nat -> slice i j b ++ slice j k b = slice i k b.
Proof.
  intros H. unfold slice. replace (k - i)%nat with ((j - i) + (k - j))%nat by lia.
  rewrite <- take_take_drop. f_equal. rewrite drop_drop. do 2 f_equal. lia.
Qed.

Lemma slice_snoc i j (b : bytes) c : (i <= j)%nat -> b !! j = Some c -> slice i (S j) b = slice i j b ++ [c].
Proof.
  intros H Hc. rewrite <- (slice_app i j (S j)) by lia. f_equal. unfold slice.
  replace (S j - j)%nat with 1%nat by lia. by rewrite (drop_S b c j Hc).
Qed.

Lemma slice_drop j (b : bytes) i : (i <= j)%nat -> slice i j b ++ drop j b = drop i b.
Proof.
  intros H. unfold slice. rewrite <- (take_drop (j - i) (drop i b)) at 2. f_equal.
  rewrite drop_drop. f_equal. lia.
Qed.

Lemma slice_cons i j (b : bytes) :
  (i < j <= length b)%nat -> exists c, b !! i = Some c /\ slice i j b = c :: slice (S i) j b.
Proof.
  intros H. destruct (lookup_lt_is_Some_2 b i) as [c Hc]; [lia|]. exists c. split; [done|].
  rewrite <- (slice_app i (S i) j) by lia. rewrite (slice_snoc i i b c), slice_nil by (done || lia). done.
Qed.

Lemma find_from_spec b pos xs :
  match find_from b pos xs with
  | Some q => exists k, q = (pos + k)%nat /\ xs !! k = Some b /\ Forall (fun x => x <> b) (take k xs)
  | None => Forall (fun x => x <> b) xs
  end.
Proof.
  revert pos. induction xs as [|x xs IH]; intros pos; cbn; [constructor|].
  destruct (Z.eqb_spec x b) as [->|Hne].
  - exists 0%nat. split; [lia|]. split; [done|constructor].
  - specialize (IH (S pos)). destruct (find_from b (S pos) xs) as [q|]; [|by constructor].
    destruct IH as (k & -> & Hk & Hf). exists (S k). split; [lia|]. split; [done|]. cbn. by constructor.
Qed.

(** The bytes up to the found one, the found one, the rest. *)
Lemma find_byte_spec b block pos :
  (pos <= length block)%nat ->
  match find_byte b block pos with
  | Some q => (pos <= q < length block)%nat /\ block !! q = Some b /\
              Forall (fun x => x <> b) (slice pos q block) /\
              drop pos block = slice pos q block ++ b :: drop (S q) block
  | None => Forall (fun x => x <> b) (drop pos block)
  end.
Proof.
  intros Hp. unfold find_byte. pose proof (find_from_spec b pos (drop pos block)) as H.
  destruct (find_from b pos (drop pos block)) as [q|]; [|done].
  destruct H as (k & -> & Hk & Hf). rewrite lookup_drop in Hk.
  pose proof (lookup_lt_Some _ _ _ Hk) as Hlt. split; [lia|]. split; [done|]. unfold slice.
  replace (pos + k - pos)%nat with k by lia. split; [done|].
  rewrite <- (drop_S block b (pos + k) Hk). rewrite <- drop_drop. by rewrite take_drop.
Qed.

(** ** Runs of the specification *)

Section Runs.
Context (max_record_bytes : Z).
Context (Hmax : 0 <= max_record_bytes).
Abbreviation framem := (frame max_record_bytes).

Lemma frame_nil idx : framem idx FieldStart [] [] = ([], Finished).
Proof.
  cbn [frame]. change (zlen (A := Z) []) with 0. by rewrite Z.gtb_ltb, (proj2 (Z.ltb_ge _ _) Hmax).
Qed.

Lemma quoted_run idx xs cur rest :
  Forall (fun x => x <> _QUOTE) xs -> framem idx InQuotes cur (xs ++ rest) = framem idx InQuotes (cur ++ xs) rest.
Proof.
  intros Hx. revert cur. induction Hx as [|x xs Hx _ IH]; intros cur; [by rewrite app_nil_r|].
  cbn [app frame]. rewrite (proj2 (Z.eqb_neq _ _) Hx), IH, <- app_assoc. done.
Qed.

Definition prepend (ys : list bytes) (r : list bytes * csv_end) : list bytes * csv_end := (ys ++ r.1, r.2).

Lemma prepend_app ys zs r : prepend (ys ++ zs) r = prepend ys (prepend zs r).
Proof. unfold prepend. cbn. by rewrite app_assoc. Qed.

(** The record in progress at position [pos] of a block. *)
Definition current (st : framer) (block : bytes) (pos : nat) : bytes :=
  concat (pieces st) ++ slice (rec_start st) pos block.

Definition len_ok (st : framer) : Prop :=
  rec_len st = zlen (concat (pieces st)) /\ Forall (fun p => p <> []) (pieces st).

Lemma current_len st block pos :
  len_ok st -> (rec_start st <= pos <= length block)%nat ->
  zlen (current st block pos) = rec_len st + Z.of_nat (pos - rec_start st).
Proof. intros [Hl _] Hp. unfold current. rewrite zlen_app, Hl. f_equal. unfold zlen. by rewrite slice_length. Qed.

(** One terminator span, against the specification's [emit]. *)
Lemma terminator_pass_spec block st off stop t k :
  len_ok st -> (rec_start st <= off <= stop)%nat -> (stop <= length block)%nat -> slice off stop block = t ->
  match terminator_pass max_record_bytes block st (off, stop) with
  | Stop out e => prepend (yielded st) (emit max_record_bytes (index st) (current st block off) t k) = (out, e)
  | Go st' =>
      len_ok st' /\ rec_start st' = stop /\ state st' = state st /\ at_start st' = true /\ pieces st' = [] /\
      index st' = index st + 1 /\
      prepend (yielded st) (emit max_record_bytes (index st) (current st block off) t k) = prepend (yielded st') k
  end.
Proof.
  intros Hl Ho Hs Ht. unfold terminator_pass, emit. rewrite current_len by (done || lia).
  destruct (_ >? _); [unfold prepend; by rewrite app_nil_r|].
  cbn [len_ok rec_start state at_start pieces index yielded].
  assert (Hrec : match pieces st with [] => slice (rec_start st) stop block
                 | _ => concat (pieces st ++ [slice (rec_start st) stop block]) end = current st block off ++ t).
  { unfold current. rewrite <- app_assoc, <- Ht, slice_app by lia.
    destruct (pieces st) as [|x ps]; [done|]. rewrite concat_app. cbn. by rewrite app_nil_r. }
  split_and!; try done.
  - unfold len_ok in *. cbn. split; [|constructor]. destruct Hl as [Hl _]. by destruct (pieces st).
  - unfold prepend. cbn [fst snd]. rewrite <- app_assoc. cbn [app]. do 3 f_equal.
    rewrite <- Hrec. by destruct (pieces st).
Qed.

(** Where the scan of a region leaves the field-start flag. *)
Definition region_start (block : bytes) (off se : nat) (spans : list (nat * nat)) (a : bool) : bool :=
  let cursor := match list.last spans with Some s => s.2 | None => off end in
  if (cursor <? se)%nat then bool_decide (block !! (se - 1)%nat = Some _COMMA)
  else match spans with [] => a | _ => true end.

Lemma region_start_nil block off se a :
  region_start block off se [] a = if (off <? se)%nat then bool_decide (block !! (se - 1)%nat = Some _COMMA) else a.
Proof. reflexivity. Qed.

Lemma region_start_cons block off se s spans a :
  region_start block off se (s :: spans) a = region_start block s.2 se spans true.
Proof.
  unfold region_start. change (s :: spans) with ([s] ++ spans). rewrite last_app.
  destruct (list.last spans) eqn:E; [|by apply last_None in E as ->].
  destruct spans; [done|]. by destruct (_ <? _)%nat.
Qed.

(** The terminator loop over a quote-free region does what the specification
    does on the bytes of the region, provided a carriage return that ends the
    region is not followed by a line feed. *)
Lemma region_run block se rest : (se <= length block)%nat ->
  forall k off st a, (se - off)%nat = k -> (off <= se)%nat ->
  len_ok st -> (rec_start st <= off)%nat -> Forall (fun x => x <> _QUOTE) (slice off se block) ->
  (block !! (se - 1)%nat = Some _CR -> (off < se)%nat -> head rest <> Some _LF) ->
  let spans := terminator_spans off (slice off se block) in
  let before := prepend (yielded st) (framem (index st) (clean_mode a) (current st block off)
                                        (slice off se block ++ rest)) in
  match terminator_loop max_record_bytes block st spans with
  | Stop out e => before = (out, e)
  | Go st' =>
      len_ok st' /\ (rec_start st' <= se)%nat /\ state st' = state st /\
      at_start st' = match spans with [] => at_start st | _ => true end /\
      before = prepend (yielded st') (framem (index st') (clean_mode (region_start block off se spans a))
                                        (current st' block se) rest)
  end.
Proof.
  intros Hse k. induction k as [k IH] using lt_wf_ind. intros off st a Hk Hoff Hl Hrs Hq Hcr.
  destruct (decide (off = se)) as [->|Hne].
  { rewrite slice_nil. cbn [terminator_spans terminator_loop app]. rewrite region_start_nil, Nat.ltb_irrefl.
    split_and!; done. }
  destruct (slice_cons off se block) as (c & Hc & Hsl); [lia|]. rewrite Hsl in Hq |- *.
  apply Forall_cons_iff in Hq as [Hcq Hq].
  assert (Hcr' : forall j, (S off <= j)%nat -> block !! (se - 1)%nat = Some _CR -> (j < se)%nat -> head rest <> Some _LF)
    by (intros j ? ? ?; apply Hcr; [done|lia]).
  assert (Hcq' : (c =? _QUOTE) = false) by by apply Z.eqb_neq.
  (* a terminator [off, stop): emit, then the rest of the region *)
  assert (Hemit : forall stop tm, (off < stop <= se)%nat -> slice off stop block = tm ->
    Forall (fun x => x <> _QUOTE) (slice stop se block) ->
    let spans := (off, stop) :: terminator_spans stop (slice stop se block) in
    let before := prepend (yielded st) (emit max_record_bytes (index st) (current st block off) tm
       (framem (index st + 1) FieldStart [] (slice stop se block ++ rest))) in
    match terminator_loop max_record_bytes block st spans with
    | Stop out e => before = (out, e)
    | Go st' =>
        len_ok st' /\ (rec_start st' <= se)%nat /\ state st' = state st /\ at_start st' = true /\
        before = prepend (yielded st') (framem (index st') (clean_mode (region_start block off se spans a))
                                          (current st' block se) rest)
    end).
  { intros stop tm Hstop Htm Hqs. cbv zeta. cbn [terminator_loop].
    pose proof (terminator_pass_spec block st off stop tm
      (framem (index st + 1) FieldStart [] (slice stop se block ++ rest)) Hl) as Hp.
    destruct (terminator_pass _ block st (off, stop)) as [st1|out e]; [|by apply Hp; (done || lia)].
    destruct Hp as (Hl1 & Hr1 & Hs1 & Ha1 & Hp1 & Hi1 & Hpre); [lia|lia|done|].
    specialize (IH (se - stop)%nat ltac:(lia) stop st1 true eq_refl ltac:(lia) Hl1 ltac:(lia) Hqs
                  ltac:(intros; apply (Hcr' stop); (done || lia))).
    rewrite region_start_cons. cbn [snd].
    assert (Hcur : current st1 block stop = []) by (unfold current; by rewrite Hp1, Hr1, slice_nil).
    rewrite Hcur, Hi1 in IH. cbn [clean_mode] in IH. rewrite <- Hpre in IH.
    destruct (terminator_loop _ block st1 _) as [st2|out e]; [|done].
    destruct IH as (? & ? & Hs2 & Ha2 & Hb). split_and!; try done; [congruence|].
    rewrite Ha2. by destruct (terminator_spans _ _). }
  cbn [app].
  (* the two clean modes behave alike on a byte that is not a quote *)
  set (before := framem (index st) (clean_mode a) (current st block off) (c :: slice (S off) se block ++ rest)).
  assert (Hbefore : before =
    if c =? _CR then
      match slice (S off) se block ++ rest with
      | d :: s'' => if d =? _LF then emit max_record_bytes (index st) (current st block off) [_CR; _LF] (framem (index st + 1) FieldStart [] s'')
                    else emit max_record_bytes (index st) (current st block off) [_CR] (framem (index st + 1) FieldStart [] (slice (S off) se block ++ rest))
      | [] => emit max_record_bytes (index st) (current st block off) [_CR] ([], Finished)
      end
    else if c =? _LF then emit max_record_bytes (index st) (current st block off) [_LF] (framem (index st + 1) FieldStart [] (slice (S off) se block ++ rest))
    else framem (index st) (clean_mode (c =? _COMMA)) (current st block off ++ [c]) (slice (S off) se block ++ rest)).
  { unfold before. destruct a; cbn [clean_mode frame]; by rewrite Hcq'. }
  rewrite Hbefore. clear Hbefore before. cbn [terminator_spans].
  assert (Hone : slice off (S off) block = [c]).
  { by rewrite (slice_snoc off off block c), slice_nil. }
  destruct (Z.eqb_spec c _CR) as [->|Hncr].
  - destruct (decide (S off = se)) as [Heq|Hlt].
    + (* a carriage return ends the region *)
      specialize (Hemit (S off) [_CR]). rewrite Heq, slice_nil in *. cbn [app terminator_spans] in *.
      assert (Hrest : head rest <> Some _LF) by (apply Hcr; [by replace (se - 1)%nat with off by lia|lia]).
      specialize (Hemit ltac:(lia) Hone ltac:(constructor)).
      destruct rest as [|d rest]; [by rewrite frame_nil in Hemit|]. cbn in Hrest.
      rewrite (proj2 (Z.eqb_neq d _LF)) by congruence. exact Hemit.
    + destruct (slice_cons (S off) se block) as (d & Hd & Hsl'); [lia|]. rewrite Hsl' in Hq |- *.
      cbn [app]. apply Forall_cons_iff in Hq as [Hdq Hq'].
      destruct (Z.eqb_spec d _LF) as [->|Hnlf].
      * apply (Hemit (2 + off)%nat [_CR; _LF]); [lia| |done].
        change (2 + off)%nat with (S (S off)). rewrite (slice_snoc off (S off) block _LF) by (done || lia).
        by rewrite Hone.
      * rewrite <- Hsl'. change (d :: slice (S (S off)) se block ++ rest) with ((d :: slice (S (S off)) se block) ++ rest).
        rewrite <- Hsl'. apply (Hemit (S off) [_CR]); [lia|done|]. rewrite Hsl'. by constructor.
  - destruct (Z.eqb_spec c _LF) as [->|Hnlf].
    + apply (Hemit (S off) [_LF]); [lia|done|done].
    + specialize (IH (se - S off)%nat ltac:(lia) (S off) st (c =? _COMMA) eq_refl ltac:(lia) Hl ltac:(lia) Hq
                    ltac:(intros; apply (Hcr' (S off)); (done || lia))).
      assert (Hcur : current st block (S off) = current st block off ++ [c]).
      { unfold current. rewrite (slice_snoc _ off block c) by (done || lia). by rewrite app_assoc. }
      rewrite Hcur in IH. cbv zeta in IH. destruct (terminator_loop _ block st _) as [st'|out e]; [|exact IH].
      destruct IH as (? & ? & ? & ? & Hb). split_and!; try done. rewrite Hb. do 2 f_equal.
      destruct (terminator_spans (S off) (slice (S off) se block)) as [|s spans].
      * rewrite !region_start_nil. replace (off <? se)%nat with true by (symmetry; apply Nat.ltb_lt; lia).
        destruct (Nat.ltb_spec (S off) se) as [|Hge]; [done|]. f_equal.
        replace (se - 1)%nat with off by lia. rewrite Hc.
        apply eq_true_iff_eq. rewrite Z.eqb_eq, bool_decide_eq_true. split; congruence.
      * by rewrite !region_start_cons.
Qed.

(** ** One block *)

Definition mode_of (st : framer) : mode :=
  match state st with _CLEAN => clean_mode (at_start st) | _QUOTED => InQuotes | _AFTER_QUOTE => AfterQuote end.

(** What is still to be framed when a block has been scanned: a held carriage
    return goes back to the unread bytes. *)
Definition held (h : bool) : bytes := if h then [_CR] else [].
Definition body_end (h : bool) (block : bytes) : nat := if h then (length block - 1)%nat else length block.

Definition scanned (block tail : bytes) (before : list bytes * csv_end) (r : scan_result (framer * bool)) : Prop :=
  match r with
  | Stop out e => before = (out, e)
  | Go (st, h) =>
      len_ok st /\ (rec_start st <= body_end h block)%nat /\ (h = true -> state st = _CLEAN) /\
      before = prepend (yielded st) (framem (index st) (mode_of st) (current st block (body_end h block)) (held h ++ tail))
  end.

Definition scan_measure (block : bytes) (pos : nat) (st : framer) : nat :=
  2 * (length block - pos) + match state st with _AFTER_QUOTE => 1 | _ => 0 end.

Lemma after_quote_unquoted idx cur c s :
  c <> _QUOTE -> framem idx AfterQuote cur (c :: s) = framem idx Unquoted cur (c :: s).
Proof. intros Hc. cbn [frame]. by rewrite (proj2 (Z.eqb_neq _ _) Hc). Qed.

Lemma quote_step idx (a : bool) cur s :
  framem idx (clean_mode a) cur (_QUOTE :: s) = framem idx (if a then InQuotes else Unquoted) (cur ++ [_QUOTE]) s.
Proof. by destruct a. Qed.

Lemma current_snoc st block pos c :
  (rec_start st <= pos)%nat -> block !! pos = Some c -> current st block (S pos) = current st block pos ++ [c].
Proof. intros Hr Hc. unfold current. by rewrite (slice_snoc _ pos block c), app_assoc. Qed.

Lemma current_slice st block pos q :
  (rec_start st <= pos <= q)%nat -> current st block pos ++ slice pos q block = current st block q.
Proof. intros H. unfold current. by rewrite <- app_assoc, slice_app. Qed.

Lemma slice_full pos (block : bytes) : slice pos (length block) block = drop pos block.
Proof. unfold slice. apply take_ge. rewrite length_drop. lia. Qed.

Lemma scan_block_total block tail fuel pos st :
  (scan_measure block pos st <= fuel)%nat -> (pos <= length block)%nat -> len_ok st -> (rec_start st <= pos)%nat ->
  exists r, scan_block max_record_bytes fuel block pos st = Some r /\
    scanned block tail
      (prepend (yielded st) (framem (index st) (mode_of st) (current st block pos) (drop pos block ++ tail))) r.
Proof.
  revert pos st. induction fuel as [|fuel IH]; intros pos st Hf Hp Hl Hr.
  { assert (pos = length block) as -> by (unfold scan_measure in Hf; lia).
    cbn [scan_block]. rewrite Nat.leb_refl. eexists. split; [done|]. cbn. split_and!; try done.
    by rewrite drop_all. }
  cbn [scan_block]. destruct (Nat.leb_spec (length block) pos) as [Hge|Hlt].
  { assert (pos = length block) as -> by lia. eexists. split; [done|]. cbn. split_and!; try done.
    by rewrite drop_all. }
  destruct (state st) eqn:Hst.
  - (* outside quotes *)
    pose proof (find_byte_spec _QUOTE block pos Hp) as Hfind.
    set (q := find_byte _QUOTE block pos) in *. clearbody q.
    set (h := bool_decide (q = None) && bool_decide (block !! (length block - 1)%nat = Some _CR)).
    set (se := match q with Some q => q | None => if h then (length block - 1)%nat else length block end).
    set (rest := match q with Some q => _QUOTE :: drop (S q) block ++ tail | None => held h ++ tail end).
    assert (Hse : (pos <= se <= length block)%nat).
    { unfold se. destruct q as [q0|]; [lia|]. destruct h; lia. }
    assert (Hsplit : drop pos block ++ tail = slice pos se block ++ rest).
    { unfold se, rest. destruct q as [q0|].
      - destruct Hfind as (_ & _ & _ & ->). by rewrite <- app_assoc.
      - destruct h eqn:Hh; cbn [held app]; [|by rewrite slice_full].
        unfold h in Hh. bool_prop.
        rewrite <- (slice_drop (length block - 1) block pos), <- app_assoc by lia. f_equal.
        rewrite (drop_S block _CR) by done. by rewrite drop_ge by lia. }
    assert (Hq : Forall (fun x => x <> _QUOTE) (slice pos se block)).
    { unfold se. destruct q as [q0|]; [apply Hfind|]. unfold slice. by apply Forall_take. }
    assert (Hcr : block !! (se - 1)%nat = Some _CR -> (pos < se)%nat -> head rest <> Some _LF).
    { unfold se, rest. destruct q as [q0|]; [done|]. unfold h. destruct (bool_decide (block !! _ = Some _CR)) eqn:Hb; cbn.
      - done.
      - bool_prop. done. }
    pose proof (region_run block se rest ltac:(lia) _ pos st (at_start st) eq_refl ltac:(lia) Hl Hr Hq Hcr) as Hrun.
    cbv zeta in Hrun. unfold finditer. rewrite Hsplit.
    assert (Hm : mode_of st = clean_mode (at_start st)) by (unfold mode_of; by rewrite Hst). rewrite Hm.
    set (spans := terminator_spans pos (slice pos se block)) in *.
    destruct (terminator_loop max_record_bytes block st spans) as [st1|out e]; [|by eexists].
    destruct Hrun as (Hl1 & Hr1 & Hs1 & Ha1 & Hb1). rewrite Hb1. clear Hb1.
    set (cursor := match list.last spans with Some s => s.2 | None => pos end).
    assert (Hstart : (if (cursor <? se)%nat then bool_decide (block !! (se - 1)%nat = Some _COMMA) else at_start st1)
                     = region_start block pos se spans (at_start st)).
    { unfold region_start. fold cursor. by rewrite Ha1. }
    rewrite Hstart. set (a := region_start block pos se spans (at_start st)). clearbody a.
    unfold se, rest in *. destruct q as [q0|].
    + destruct Hfind as (Hqb & Hqc & _ & _). rewrite quote_step.
      rewrite <- (current_snoc st1 block q0 _QUOTE) by done.
      destruct a; cbn [mode_of].
      * apply (IH (S q0) (MkFramer _QUOTED true (pieces st1) (rec_len st1) (index st1) (rec_start st1) (yielded st1)));
          [|lia|done|cbn; lia]. unfold scan_measure in *. cbn. lia.
      * apply (IH (S q0) (MkFramer _CLEAN false (pieces st1) (rec_len st1) (index st1) (rec_start st1) (yielded st1)));
          [|lia|done|cbn; lia]. unfold scan_measure in *. cbn. lia.
    + eexists. split; [done|]. cbn. done.
  - (* inside quotes *)
    pose proof (find_byte_spec _QUOTE block pos Hp) as Hfind.
    assert (Hm : mode_of st = InQuotes) by (unfold mode_of; by rewrite Hst). rewrite Hm.
    destruct (find_byte _QUOTE block pos) as [q|].
    + destruct Hfind as (Hq & Hqc & Hnq & Hdrop).
      rewrite Hdrop, <- app_assoc, quoted_run, current_slice by (done || lia). cbn [app frame].
      rewrite Z.eqb_refl, <- (current_snoc st block q _QUOTE) by (done || lia).
      apply (IH (S q) (MkFramer _AFTER_QUOTE (at_start st) (pieces st) (rec_len st) (index st) (rec_start st) (yielded st)));
        [|lia|done|cbn; lia]. unfold scan_measure in *. rewrite Hst in Hf. cbn. lia.
    + eexists. split; [done|]. cbn. split_and!; try done; [lia|]. rewrite Hm. f_equal.
      rewrite <- slice_full, quoted_run, current_slice by (rewrite ?slice_full; done || lia). done.
  - (* after a quote *)
    assert (Hm : mode_of st = AfterQuote) by (unfold mode_of; by rewrite Hst). rewrite Hm.
    destruct (lookup_lt_is_Some_2 block pos) as [c Hc]; [lia|]. rewrite (drop_S block c pos Hc). cbn [app].
    case_bool_decide as Hcq; rewrite Hc in Hcq.
    + injection Hcq as ->. cbn [frame]. rewrite Z.eqb_refl, <- (current_snoc st block pos _QUOTE) by done.
      apply (IH (S pos) (MkFramer _QUOTED (at_start st) (pieces st) (rec_len st) (index st) (rec_start st) (yielded st)));
        [|lia|done|cbn; lia]. unfold scan_measure in *. rewrite Hst in Hf. cbn. lia.
    + rewrite after_quote_unquoted by congruence. rewrite app_comm_cons, <- (drop_S block c pos Hc).
      apply (IH pos (MkFramer _CLEAN false (pieces st) (rec_len st) (index st) (rec_start st) (yielded st)));
        [|lia|done|cbn; lia]. unfold scan_measure in *. rewrite Hst in Hf. cbn. lia.
Qed.

(** A record in progress past the cap ends in [CsvRecordTooLarge], whatever follows. *)
Lemma too_large idx m cur s :
  max_record_bytes < zlen cur -> framem idx m cur s = ([], CsvRecordTooLarge idx).
Proof.
  assert (Hem : forall idx cur tm k, max_record_bytes < zlen cur ->
    emit max_record_bytes idx cur tm k = ([], CsvRecordTooLarge idx)).
  { intros. unfold emit. by rewrite Z.gtb_ltb, (proj2 (Z.ltb_lt _ _)). }
  revert m cur. induction s as [|c s IH]; intros m cur Hc.
  { cbn. by rewrite Z.gtb_ltb, (proj2 (Z.ltb_lt _ _)). }
  assert (Hc' : max_record_bytes < zlen (cur ++ [c])) by (rewrite zlen_app; pose proof (zlen_nonneg [c]); lia).
  assert (Hclean : forall a : bool, framem idx (clean_mode a) cur (c :: s) = ([], CsvRecordTooLarge idx)).
  { intros a. assert (Hq : forall m', framem idx m' (cur ++ [c]) s = ([], CsvRecordTooLarge idx)) by (intros; by apply IH).
    destruct a; cbn [clean_mode frame]; rewrite !Hq;
      (destruct (c =? _CR); [destruct s as [|d s']; [|destruct (d =? _LF)]; by rewrite Hem|]);
      (destruct (c =? _LF); [by rewrite Hem|]); by destruct (c =? _QUOTE). }
  destruct m; [apply (Hclean true)|apply (Hclean false)|cbn [frame]; by apply IH|].
  destruct (Z.eqb_spec c _QUOTE) as [->|Hne]; [cbn [frame]; rewrite Z.eqb_refl; by apply IH|].
  rewrite after_quote_unquoted by done. apply (Hclean false).
Qed.

(** The invariant between blocks, and the framing still to do. *)
Definition between (st : framer) (pending : bool) : Prop :=
  len_ok st /\ rec_len st <= max_record_bytes /\ (pending = true -> state st = _CLEAN).

Definition remaining (st : framer) (pending : bool) (rest : bytes) : list bytes * csv_end :=
  prepend (yielded st) (framem (index st) (mode_of st) (concat (pieces st)) (held pending ++ rest)).

Definition passed (rest : bytes) (before : list bytes * csv_end) (r : scan_result (framer * bool)) : Prop :=
  match r with
  | Stop out e => before = (out, e)
  | Go (st, h) => between st h /\ before = remaining st h rest
  end.

(** The end of a block: the unfinished record is kept, its length checked. *)
Lemma block_end_spec block rest before r :
  scanned block rest before r ->
  exists r',
    match r with
    | Go (st, held_cr) =>
        let body_end := if held_cr then (length block - 1)%nat else length block in
        let grows := (rec_start st <? body_end)%nat in
        let pieces' := if grows then pieces st ++ [slice (rec_start st) body_end block] else pieces st in
        let rec_len' := if grows then rec_len st + Z.of_nat (body_end - rec_start st) else rec_len st in
        if rec_len' >? max_record_bytes then Some (Stop (yielded st) (CsvRecordTooLarge (index st)))
        else Some (Go (MkFramer (state st) (at_start st) pieces' rec_len' (index st) (rec_start st) (yielded st),
                       held_cr))
    | Stop out e => Some (Stop out e)
    end = Some r' /\ passed rest before r'.
Proof.
  destruct r as [[st h]|out e]; [|intros H; by eexists].
  intros (Hl & Hr & Hh & Hb). cbv zeta. fold (body_end h block). set (be := body_end h block) in *.
  assert (Hbe : (be <= length block)%nat) by (unfold be, body_end; destruct h; lia).
  set (ps := if (rec_start st <? be)%nat then pieces st ++ [slice (rec_start st) be block] else pieces st).
  set (rl := if (rec_start st <? be)%nat then rec_len st + Z.of_nat (be - rec_start st) else rec_len st).
  assert (Hps : concat ps = current st block be).
  { unfold ps, current. destruct (Nat.ltb_spec (rec_start st) be).
    - rewrite concat_app. cbn. by rewrite app_nil_r.
    - replace (rec_start st) with be by lia. by rewrite slice_nil, app_nil_r. }
  assert (Hrl : rl = zlen (current st block be)).
  { unfold rl. rewrite current_len by (done || lia). destruct (Nat.ltb_spec (rec_start st) be); lia. }
  destruct (Z.gtb_spec rl max_record_bytes) as [Hgt|Hle]; (eexists; split; [done|]).
  - cbn. rewrite Hb, too_large by lia. unfold prepend. by rewrite app_nil_r.
  - cbn [passed]. split.
    + split_and!; cbn; [|lia|done]. split; cbn; [by rewrite Hps|]. unfold ps.
      destruct Hl as [_ Hl]. destruct (Nat.ltb_spec (rec_start st) be); [|done].
      apply Forall_app. split; [done|]. constructor; [|constructor]. intros He.
      apply (f_equal length) in He. rewrite slice_length in He by lia. cbn in He. lia.
    + rewrite Hb. unfold remaining. cbn. by rewrite Hps.
Qed.

Lemma pending_step st s (c : Z) :
  between st true -> c <> _LF ->
  remaining st true (c :: s) = prepend (yielded st ++ [concat (pieces st) ++ [_CR]]) (framem (index st + 1) FieldStart [] (c :: s)) /\
  remaining st true (_LF :: s) = prepend (yielded st ++ [concat (pieces st) ++ [_CR; _LF]]) (framem (index st + 1) FieldStart [] s).
Proof.
  intros ((Hl & _) & Hle & Hst) Hc. specialize (Hst eq_refl). unfold remaining, mode_of. rewrite Hst. cbn [held app].
  assert (Hem : forall tm k, emit max_record_bytes (index st) (concat (pieces st)) tm k = ((concat (pieces st) ++ tm) :: k.1, k.2)).
  { intros. unfold emit. rewrite <- Hl, Z.gtb_ltb. by rewrite (proj2 (Z.ltb_ge _ _) Hle). }
  apply Z.eqb_neq in Hc.
  split; destruct (at_start st); cbn [clean_mode frame]; rewrite ?Z.eqb_refl, ?Hc, Hem; unfold prepend; cbn [fst snd];
    by rewrite <- app_assoc.
Qed.

Lemma block_pass_spec block rest first pending st before :
  block <> [] -> between st pending ->
  (first && bool_decide (take 3 block = _BOM) = true -> pending = false /\ pieces st = [] /\
     before = prepend (yielded st) (framem (index st) (mode_of st) _BOM (drop 3 block ++ rest))) ->
  (first && bool_decide (take 3 block = _BOM) = false -> before = remaining st pending (block ++ rest)) ->
  exists r, block_pass max_record_bytes block first pending st = Some r /\ passed rest before r.
Proof.
  intros Hne Hbt Hbom Hnobom. pose proof Hbt as (Hl & Hle & Hst). unfold block_pass.
  set (pos0 := if first && bool_decide (take 3 block = _BOM) then 3%nat else 0%nat).
  assert (Hscan : forall pos st1, (pos <= length block)%nat -> len_ok st1 -> (rec_start st1 <= pos)%nat ->
    before = prepend (yielded st1) (framem (index st1) (mode_of st1) (current st1 block pos) (drop pos block ++ rest)) ->
    exists r, match scan_block max_record_bytes (2 * length block + 1) block pos st1 with
      | Some (Go (st, held_cr)) =>
        let body_end := if held_cr then (length block - 1)%nat else length block in
        let grows := (rec_start st <? body_end)%nat in
        let pieces' := if grows then pieces st ++ [slice (rec_start st) body_end block] else pieces st in
        let rec_len' := if grows then rec_len st + Z.of_nat (body_end - rec_start st) else rec_len st in
        if rec_len' >? max_record_bytes then Some (Stop (yielded st) (CsvRecordTooLarge (index st)))
        else Some (Go (MkFramer (state st) (at_start st) pieces' rec_len' (index st) (rec_start st) (yielded st),
                       held_cr))
      | r => r end = Some r /\ passed rest before r).
  { intros pos st1 Hp Hl1 Hr1 Hb.
    destruct (scan_block_total block rest (2 * length block + 1) pos st1) as (r & Hs & Hsc); [|done..|].
    { unfold scan_measure. destruct (state st1); lia. }
    rewrite <- Hb in Hsc. rewrite Hs. destruct (block_end_spec _ _ _ _ Hsc) as (r' & Hr' & Hp').
    exists r'. split; [|done]. rewrite <- Hr'. by destruct r as [[? ?]|]. }
  assert (Hpos : (pos0 <= length block)%nat).
  { unfold pos0. destruct first; [|cbn; lia]. cbn [andb]. case_bool_decide as Hb; [|lia].
    apply (f_equal length) in Hb. rewrite length_take in Hb. change (length _BOM) with 3%nat in Hb. lia. }
  destruct pending.
  - assert (Hz : first && bool_decide (take 3 block = _BOM) = false).
    { destruct (first && _) eqn:E; [|done]. by destruct (Hbom eq_refl). }
    specialize (Hnobom Hz). unfold pos0. rewrite Hz. destruct block as [|c block]; [done|]. cbn [app] in Hnobom.
    change ((c :: block) !! 0%nat) with (Some c).
    destruct (bool_decide (Some c = Some _LF)) eqn:Hlf; bool_prop.
    + injection Hlf as ->. destruct (pending_step st (block ++ rest) 0 Hbt) as [_ Hstep]; [done|].
      rewrite Hstep in Hnobom. cbn [Nat.max].
      apply (Hscan 1%nat (MkFramer _CLEAN true [] 0 (index st + 1) 1 (yielded st ++ [concat (pieces st) ++ [_CR; _LF]])));
        [cbn; lia|done|done|]. exact Hnobom.
    + destruct (pending_step st (block ++ rest) c Hbt) as [Hstep _]; [congruence|].
      rewrite Hstep in Hnobom.
      apply (Hscan 0%nat (MkFramer _CLEAN true [] 0 (index st + 1) 0 (yielded st ++ [concat (pieces st) ++ [_CR]])));
        [lia|done|done|]. exact Hnobom.
  - apply (Hscan pos0 (MkFramer (state st) (at_start st) (pieces st) (rec_len st) (index st) 0 (yielded st))); [done|done|cbn; lia|].
    unfold pos0. destruct (first && bool_decide (take 3 block = _BOM)) eqn:E.
    + destruct (Hbom eq_refl) as (_ & Hps & ->). bool_prop. unfold current.
      cbn [yielded index pieces rec_start]. rewrite Hps.
      change (slice 0 3 block) with (take 3 (drop 0 block)). rewrite drop_0.
      match goal with H : take 3 block = _BOM |- _ => by rewrite H end.
    + rewrite Hnobom by done. unfold remaining, current.
      cbn [yielded index pieces rec_start held app]. rewrite slice_nil, app_nil_r, drop_0. done.
Qed.

(** ** The whole file *)

Lemma finish_spec st pending : between st pending -> finish pending st = remaining st pending [].
Proof.
  intros ((Hl & Hne) & Hle & Hst). unfold finish, remaining, mode_of. destruct pending.
  - rewrite (Hst eq_refl). cbn [held app].
    assert (Hem : forall k, emit max_record_bytes (index st) (concat (pieces st)) [_CR] k = ((concat (pieces st) ++ [_CR]) :: k.1, k.2)).
    { intros. unfold emit. rewrite <- Hl, Z.gtb_ltb. by rewrite (proj2 (Z.ltb_ge _ _) Hle). }
    destruct (at_start st); cbn [clean_mode frame]; by rewrite Z.eqb_refl, Hem.
  - cbn [held app frame]. rewrite <- Hl, Z.gtb_ltb, (proj2 (Z.ltb_ge _ _) Hle).
    assert (Hps : (match pieces st with [] => (yielded st, Finished) | ps => (yielded st ++ [concat ps], Finished) end)
                  = prepend (yielded st) (match concat (pieces st) with [] => [] | _ => [concat (pieces st)] end, Finished)).
    { destruct Hne as [|p ps Hp _]; [unfold prepend; by rewrite app_nil_r|]. cbn [concat].
      destruct p as [|x p]; [done|]. done. }
    destruct (state st); [|unfold prepend; cbn; by rewrite app_nil_r|by rewrite Hps].
    rewrite Hps. by destruct (at_start st).
Qed.

Lemma read_loop_spec bs fuel rest pending st :
  (0 < bs)%nat -> (length rest <= fuel)%nat -> between st pending ->
  read_loop max_record_bytes fuel bs rest false pending st = Some (remaining st pending rest).
Proof.
  intros Hbs. revert rest pending st. induction fuel as [|fuel IH]; intros rest pending st Hf Hb.
  { destruct rest; [|cbn in Hf; lia]. cbn [read_loop]. rewrite take_nil. by rewrite finish_spec. }
  cbn [read_loop]. destruct (take bs rest) as [|c block] eqn:Ht.
  { destruct rest; [by rewrite finish_spec|]. destruct bs; [lia|done]. }
  destruct (block_pass_spec (c :: block) (drop bs rest) false pending st (remaining st pending rest))
    as (r & Hr & Hp); [done|done|done| |].
  { intros _. by rewrite <- Ht, take_drop. }
  rewrite Hr. destruct r as [[st' h]|out e]; [|by cbn in Hp; rewrite Hp].
  destruct Hp as [Hb' ->]. rewrite IH; [done| |done].
  rewrite length_drop. lia.
Qed.

Lemma iter_spec bs contents :
  (4 <= bs)%nat -> iter_csv_records max_record_bytes contents bs = Some (frame_file max_record_bytes contents).
Proof.
  intros Hbs. unfold iter_csv_records. rewrite (proj2 (Nat.ltb_ge _ _) Hbs).
  set (st0 := MkFramer _CLEAN true [] 0 0 0 []).
  assert (Hb0 : between st0 false) by (split_and!; [split; [done|constructor]|done|done]).
  unfold frame_file. destruct contents as [|c contents].
  { rewrite bool_decide_eq_false_2 by done. rewrite frame_nil. cbn [length read_loop]. by rewrite take_nil. }
  set (s := c :: contents). assert (Hfuel : length s = S (length contents)) by done. rewrite Hfuel.
  cbn [read_loop]. destruct (take bs s) as [|x block] eqn:Ht; [destruct bs; [lia|done]|].
  assert (Ht3 : take 3 (x :: block) = take 3 s) by (rewrite <- Ht, take_take; f_equal; lia).
  destruct (block_pass_spec (x :: block) (drop bs s) true false st0
    (if bool_decide (take 3 s = _BOM) then framem 0 FieldStart _BOM (drop 3 s) else framem 0 FieldStart [] s))
    as (r & Hr & Hp); [done|done| | |].
  - cbn [andb]. rewrite Ht3. intros Hbom. rewrite Hbom. split; [done|]. split; [done|].
    unfold prepend, st0. cbn [yielded index app mode_of state at_start clean_mode].
    assert (Hd : drop 3 s = drop 3 (x :: block) ++ drop bs s); [|rewrite Hd; by destruct (framem _ _ _ _)].
    rewrite <- Ht. rewrite <- (take_drop bs s) at 1. rewrite drop_app_le; [done|].
    bool_prop. apply (f_equal length) in Hbom. rewrite length_take in Hbom. change (length _BOM) with 3%nat in Hbom.
    rewrite length_take. lia.
  - cbn [andb]. rewrite Ht3. intros ->. unfold remaining, prepend, st0.
    cbn [yielded index app mode_of state at_start clean_mode held pieces concat].
    rewrite app_comm_cons, <- Ht, take_drop. by destruct (framem _ _ _ _).
  - rewrite Hr. destruct r as [[st' h]|out e].
    + destruct Hp as [Hb' ->]. apply read_loop_spec; [lia| |done].
      rewrite length_drop. unfold s. cbn. lia.
    + cbn [passed] in Hp. by rewrite Hp.
Qed.

(** ** What the specification guarantees *)

(** A yielded record: a body within the cap, then at most one terminator. *)
Definition record_ok (r : bytes) : Prop :=
  exists body tm, r = body ++ tm /\ zlen body <= max_record_bytes /\ tm ∈ [[]; [_CR]; [_LF]; [_CR; _LF]].

(** Nothing is lost: the records are a prefix of the input, all of it on success;
    an error names the record after the last one yielded. *)
Definition frame_ok (idx : Z) (input : bytes) (r : list bytes * csv_end) : Prop :=
  Forall record_ok r.1 /\
  match r.2 with
  | Finished => concat r.1 = input
  | CsvRecordTooLarge i | CsvUnterminatedQuote i => i = idx + zlen r.1 /\ exists z, input = concat r.1 ++ z
  | BadBlockSize => False
  end.

Lemma emit_ok idx cur tm s k :
  tm ∈ [[_CR]; [_LF]; [_CR; _LF]] -> frame_ok (idx + 1) s k ->
  frame_ok idx (cur ++ tm ++ s) (emit max_record_bytes idx cur tm k).
Proof.
  intros Htm [Hrec Hend]. unfold emit. destruct (Z.gtb_spec (zlen cur) max_record_bytes) as [Hgt|Hle].
  { split; [constructor|]. cbn. split; [unfold zlen; cbn; lia|by eexists]. }
  split; cbn.
  - constructor; [|done]. exists cur, tm. split; [done|]. split; [done|]. by right.
  - destruct (k.2); cbn; rewrite ?zlen_cons; [by rewrite Hend, app_assoc| | |done];
      destruct Hend as [-> (z & ->)]; (split; [lia|]); exists z; by rewrite !app_assoc.
Qed.

Lemma frame_spec n idx m cur s : (length s <= n)%nat -> frame_ok idx (cur ++ s) (framem idx m cur s).
Proof.
  revert idx m cur s. induction n as [|n IH]; intros idx m cur s Hn;
    (destruct s as [|c s];
     [cbn [frame]; rewrite app_nil_r; destruct (Z.gtb_spec (zlen cur) max_record_bytes) as [Hgt|Hle];
      [split; [constructor|cbn; split; [unfold zlen; cbn; lia|by exists cur]]|];
      assert (Hc : frame_ok idx cur (match cur with [] => [] | _ => [cur] end, Finished))
        by (destruct cur; (split; [|cbn; by rewrite ?app_nil_r]); [constructor|constructor; [|constructor]];
            eexists _, []; rewrite app_nil_r; split_and!; [done|done|left]);
      destruct m; try done; split; [constructor|cbn; split; [unfold zlen; cbn; lia|by exists cur]]|]).
  { cbn in Hn. lia. }
  cbn in Hn. assert (Hsnoc : forall m', frame_ok idx (cur ++ c :: s) (framem idx m' (cur ++ [c]) s)).
  { intros m'. pose proof (IH idx m' (cur ++ [c]) s ltac:(lia)) as H. by rewrite <- app_assoc in H. }
  assert (Hclean : forall a : bool, frame_ok idx (cur ++ c :: s) (framem idx (clean_mode a) cur (c :: s))).
  { intros a. assert (Hnext : frame_ok (idx + 1) s (framem (idx + 1) FieldStart [] s))
      by (apply (IH (idx + 1) FieldStart [] s); lia).
    assert (Hem : forall tm, c :: s = tm ++ s -> tm ∈ [[_CR]; [_LF]; [_CR; _LF]] ->
      frame_ok idx (cur ++ c :: s) (emit max_record_bytes idx cur tm (framem (idx + 1) FieldStart [] s))).
    { intros tm -> Ht. by apply emit_ok. }
    destruct a; cbn [clean_mode frame];
      (destruct (Z.eqb_spec c _CR) as [->|_];
       [destruct s as [|d s]; [by apply (emit_ok idx cur [_CR] []); [left|split; [constructor|done]]|];
        destruct (Z.eqb_spec d _LF) as [->|_];
        [apply (emit_ok idx cur [_CR; _LF] s); [right; right; left|apply (IH (idx + 1) FieldStart [] s); cbn in Hn; lia]
        |apply Hem; [done|left]]|]);
      (destruct (Z.eqb_spec c _LF) as [->|_]; [apply Hem; [done|right; left]|]);
      destruct (c =? _QUOTE); apply Hsnoc. }
  destruct m; [apply (Hclean true)|apply (Hclean false)|cbn [frame]; apply Hsnoc|].
  destruct (Z.eqb_spec c _QUOTE) as [->|Hne]; [cbn [frame]; rewrite Z.eqb_refl; apply Hsnoc|].
  rewrite after_quote_unquoted by done. apply (Hclean false).
Qed.

Lemma frame_file_spec contents : frame_ok 0 contents (frame_file max_record_bytes contents).
Proof.
  unfold frame_file. case_bool_decide as Hb; [|by apply (frame_spec (length contents) 0 FieldStart [] contents)].
  pose proof (frame_spec (length contents) 0 FieldStart _BOM (drop 3 contents)) as H.
  rewrite <- Hb, take_drop in H. rewrite Hb in H. apply H. rewrite length_drop. lia.
Qed.
End Runs.

(** ** Claims *)

(** C28: The block framer refines the byte-level specification. For every cap and
    every block size of at least four bytes the generator runs to its end, and
    what it yields and how it ends is what the one-pass specification says; in
    particular it does not depend on where the blocks are cut, even inside a
    doubled quote or a CRLF. *)
Theorem framer_refines max_record_bytes block_size contents :
  0 <= max_record_bytes -> (4 <= block_size)%nat ->
  iter_csv_records max_record_bytes contents block_size = Some (frame_file max_record_bytes contents).
Proof. intros. by apply iter_spec. Qed.

Lemma framer_refines_witness :
  iter_csv_records 100 (py "a,b" ++ [13; 10] ++ [34; 120; 10; 34; 34; 34; 44; 49; 13]) 5 =
  iter_csv_records 100 (py "a,b" ++ [13; 10] ++ [34; 120; 10; 34; 34; 34; 44; 49; 13]) 4.
Proof. rewrite !framer_refines by lia. reflexivity. Defined.

(** Framing is lossless and bounded. The records yielded, concatenated, are
    the input when the generator finishes and a prefix of it otherwise; every
    record is a body of at most [max_record_bytes] bytes followed by at most one
    terminator; an error names the index of the record in progress. *)
Theorem framer_lossless max_record_bytes block_size contents :
  0 <= max_record_bytes -> (4 <= block_size)%nat ->
  exists records e, iter_csv_records max_record_bytes contents block_size = Some (records, e) /\
    Forall (record_ok max_record_bytes) records /\
    match e with
    | Finished => concat records = contents
    | CsvRecordTooLarge i | CsvUnterminatedQuote i => i = zlen records /\ exists z, contents = concat records ++ z
    | BadBlockSize => False
    end.
Proof.
  intros Hmax Hbs. rewrite iter_spec by done. pose proof (frame_file_spec max_record_bytes contents) as [H1 H2].
  destruct (frame_file max_record_bytes contents) as [records e]. exists records, e. split; [done|]. by split.
Qed.

Lemma framer_lossless_witness :
  exists records e, iter_csv_records 3 (py "abcd" ++ [10]) 4 = Some (records, e) /\ e = CsvRecordTooLarge 0.
Proof.
  destruct (framer_lossless 3 4 (py "abcd" ++ [10])) as (records & e & H & _); [lia|lia|].
  exists records, e. split; [exact H|]. vm_compute in H. congruence.
Defined.

