(* ===== verification/CsvFields.v ===== *)
(** * CSV header fields (io/csv_framer.py, split_record_fields)

    The field values of one framed record. The scan is written on suffixes of the
    text, [text[i:]] for the index [i] of the code. *)

From S2P Require Import Prelude Numerals PyText CsvFramer.

(** ** Decoding *)

(** [bytes.decode("utf-8")] with strict errors is the inverse of the encoding:
    read characters off the front, then check that they encode back. *)
Fixpoint utf8_chars (fuel : nat) (b : bytes) : option pystr :=
  match b with
  | [] => Some []
  | _ =>
      match fuel with
      | O => None
      | S fuel =>
          match utf8_read b with
          | Some (c, b') => cons c <$> utf8_chars fuel b'
          | None => None
          end
      end
  end.

Definition utf8_decode (b : bytes) : option pystr :=
  match utf8_chars (length b) b with
  | Some s => if bool_decide (Forall code_point s) && bool_decide (utf8_encode s = Ok b) then Some s else None
  | None => None
  end.

(** ["utf-8-sig"] skips a leading byte-order mark. *)
Definition decode_sig (record : bytes) : option pystr :=
  utf8_decode (if bool_decide (take 3 record = _BOM) then drop 3 record else record).

(** [text.removesuffix(c)] of a one-character suffix. *)
Definition removesuffix (c : Z) (text : pystr) : pystr :=
  if bool_decide (list.last text = Some c) then removelast text else text.

(** ** The field scan *)

(** [k = text.find(c, j)]: the text before the found character and after it. *)
Fixpoint find_char (c : Z) (s : pystr) : option (pystr * pystr) :=
  match s with
  | [] => None
  | x :: s' => if x =? c then Some ([], s') else (fun p => (x :: p.1, p.2)) <$> find_char c s'
  end.

(** The inner loop over a quoted value: [parts] joined, and [text[j:]] after the
    closing quote. Every pass consumes a character, [fuel] is the text's length. *)
Fixpoint quoted_value (fuel : nat) (parts : pystr) (s : pystr) : option (pystr * pystr) :=
  match find_char _QUOTE s with
  | None => None
  | Some (a, s') =>
      match s' with
      | d :: s'' =>
          if d =? _QUOTE then
            match fuel with
            | O => None
            | S fuel => quoted_value fuel (parts ++ a ++ [_QUOTE]) s''
            end
          else Some (parts ++ a, s')
      | [] => Some (parts ++ a, s')
      end
  end.

(** [text[i:end]] up to the next comma, and [text[end:]]. *)
Definition to_comma (s : pystr) : pystr * pystr :=
  match find_char _COMMA s with
  | None => (s, [])
  | Some (a, s') => (a, _COMMA :: s')
  end.

(** One field: its value and [text[i:]] at its end. *)
Definition scan_field (s : pystr) : option (pystr * pystr) :=
  match s with
  | c :: s' =>
      if c =? _QUOTE then
        match quoted_value (length s') [] s' with
        | None => None
        | Some (v, s1) => let '(b, s2) := to_comma s1 in Some (v ++ b, s2)
        end
      else Some (to_comma s)
  | [] => Some (to_comma s)
  end.

Fixpoint scan_fields (fuel : nat) (s : pystr) : option (list pystr) :=
  match scan_field s with
  | None => None
  | Some (v, []) => Some [v]
  | Some (v, _ :: s') =>
      match s' with
      | [] => Some [v; []]
      | _ => match fuel with
             | O => None
             | S fuel => cons v <$> scan_fields fuel s'
             end
      end
  end.

Definition split_record_fields (record : bytes) : option (list pystr) :=
  match decode_sig record with
  | None => None
  | Some text =>
      let text := removesuffix _CR (removesuffix _LF text) in
      scan_fields (length text) text
  end.

(** ** Writing fields *)

(** The canonical form of a field value: quoted, with its quotes doubled. *)
Definition double_quotes (v : pystr) : pystr := v ≫= fun c => if c =? _QUOTE then [c; c] else [c].
Definition quote_field (v : pystr) : pystr := [_QUOTE] ++ double_quotes v ++ [_QUOTE].

Fixpoint join_fields (fs : list pystr) : pystr :=
  match fs with
  | [] => []
  | [f] => f
  | f :: rest => f ++ [_COMMA] ++ join_fields rest
  end.

(** ** Reading back *)

Lemma utf8_chars_encode s b fuel :
  Forall code_point s -> utf8_encode s = Ok b -> (length b <= fuel)%nat -> utf8_chars fuel b = Some s.
Proof.
  intros Hs. revert b fuel. induction Hs as [|c s Hc Hs IH]; intros b fuel H Hf.
  - injection H as <-. by destruct fuel.
  - apply utf8_encode_cons in H as (b1 & b2 & H1 & H2 & ->).
    destruct (utf8_char_spec c b1 b2 Hc H1) as (Hread & _ & Hne).
    rewrite length_app in Hf. destruct b1 as [|x b1]; [done|]. cbn in Hf.
    destruct fuel as [|fuel]; [lia|]. cbn [app utf8_chars] in Hread |- *. rewrite Hread.
    rewrite (IH b2 fuel) by (done || lia). done.
Qed.

Lemma utf8_decode_encode s b : Forall code_point s -> utf8_encode s = Ok b -> utf8_decode b = Some s.
Proof.
  intros Hs H. unfold utf8_decode. rewrite (utf8_chars_encode s b) by done.
  by rewrite !bool_decide_eq_true_2.
Qed.

Lemma find_char_app c a s : Forall (fun x => x <> c) a -> find_char c (a ++ c :: s) = Some (a, s).
Proof.
  induction 1 as [|x a Hx _ IH]; cbn; [by rewrite Z.eqb_refl|].
  by rewrite (proj2 (Z.eqb_neq _ _) Hx), IH.
Qed.

(** What follows a quoted value: nothing, or a comma. *)
Definition field_end (s : pystr) : Prop := s = [] \/ exists s', s = _COMMA :: s'.

Lemma quoted_value_read v s :
  field_end s -> forall fuel parts a, (length (double_quotes v) <= fuel)%nat -> Forall (fun x => x <> _QUOTE) a ->
  quoted_value fuel parts (a ++ double_quotes v ++ _QUOTE :: s) = Some (parts ++ a ++ v, s).
Proof.
  intros Hs. induction v as [|c v IH]; intros fuel parts a Hf Ha.
  - cbn [double_quotes mbind list_bind app]. destruct fuel; cbn [quoted_value]; rewrite find_char_app by done;
      rewrite app_nil_r; destruct Hs as [->|(s' & ->)]; done.
  - change (double_quotes (c :: v)) with ((if c =? _QUOTE then [c; c] else [c]) ++ double_quotes v) in *.
    destruct (Z.eqb_spec c _QUOTE) as [->|Hne].
    + cbn [app] in *. cbn [length] in Hf. destruct fuel as [|fuel]; [lia|]. cbn [quoted_value].
      rewrite find_char_app by done. rewrite Z.eqb_refl.
      pose proof (IH fuel (parts ++ a ++ [_QUOTE]) [] ltac:(lia) ltac:(constructor)) as IHf.
      cbn [app] in IHf. rewrite IHf. f_equal. f_equal. by rewrite <- !app_assoc.
    + rewrite length_app in Hf. cbn [length] in Hf.
      replace (a ++ ([c] ++ double_quotes v) ++ _QUOTE :: s) with ((a ++ [c]) ++ double_quotes v ++ _QUOTE :: s)
        by by rewrite <- !app_assoc.
      rewrite (IH fuel parts (a ++ [c])); [by rewrite <- !app_assoc|lia|].
      apply Forall_app. split; [done|by constructor].
Qed.

Lemma to_comma_end s : field_end s -> to_comma s = ([], s).
Proof. by intros [->|(s' & ->)]. Qed.

Lemma scan_quoted_field v s : field_end s -> scan_field (quote_field v ++ s) = Some (v, s).
Proof.
  intros Hs. unfold quote_field. rewrite <- !app_assoc. cbn [app scan_field]. rewrite Z.eqb_refl.
  rewrite (quoted_value_read v s Hs _ [] []) by (constructor || (rewrite !length_app; cbn; lia)).
  cbn [app]. rewrite to_comma_end by done. by rewrite app_nil_r.
Qed.

Lemma join_fields_len fs : (length fs <= length (join_fields (quote_field <$> fs)))%nat.
Proof.
  induction fs as [|f fs IH]; [done|]. destruct fs as [|g fs]; [cbn; lia|].
  cbn [fmap list_fmap join_fields] in *. rewrite !length_app. cbn [length] in *. lia.
Qed.

Lemma scan_join fs fuel :
  fs <> [] -> (length fs <= fuel)%nat -> scan_fields fuel (join_fields (quote_field <$> fs)) = Some fs.
Proof.
  revert fuel. induction fs as [|f fs IH]; intros fuel Hne Hf; [done|]. cbn in Hf.
  destruct fuel as [|fuel]; [lia|]. destruct fs as [|g fs].
  - cbn [fmap list_fmap join_fields scan_fields]. rewrite <- (app_nil_r (quote_field f)).
    rewrite scan_quoted_field by (by left). done.
  - cbn [fmap list_fmap]. set (rest := join_fields (quote_field <$> (g :: fs))).
    change (join_fields (quote_field f :: quote_field g :: (quote_field <$> fs))) with (quote_field f ++ [_COMMA] ++ rest).
    cbn [scan_fields]. rewrite scan_quoted_field by (right; by eexists). cbn [app].
    assert (Hr : rest <> []). { unfold rest. cbn. by destruct fs. }
    destruct rest as [|x rest'] eqn:Hrest; [done|]. rewrite <- Hrest. unfold rest in Hrest |- *.
    rewrite IH by (done || (cbn in *; lia)). done.
Qed.

Lemma removesuffix_last c s d : list.last s = Some d -> d <> c -> removesuffix c s = s.
Proof. intros Hs Hd. unfold removesuffix. rewrite bool_decide_eq_false_2; [done|congruence]. Qed.

Lemma removesuffix_snoc c s : removesuffix c (s ++ [c]) = s.
Proof. unfold removesuffix. by rewrite last_snoc, bool_decide_eq_true_2, removelast_last. Qed.

Lemma join_last fs : fs <> [] -> list.last (join_fields (quote_field <$> fs)) = Some _QUOTE.
Proof.
  induction fs as [|f fs IH]; [done|]. intros _. destruct fs as [|g fs].
  - cbn [fmap list_fmap join_fields]. unfold quote_field. rewrite app_assoc. apply last_snoc.
  - set (rest := join_fields (quote_field <$> (g :: fs))).
    change (join_fields (quote_field <$> (f :: g :: fs))) with (quote_field f ++ [_COMMA] ++ rest).
    rewrite !last_app. unfold rest. by rewrite IH.
Qed.

Lemma utf8_encode_app s t b c : utf8_encode s = Ok b -> utf8_encode t = Ok c -> utf8_encode (s ++ t) = Ok (b ++ c).
Proof.
  revert b. induction s as [|x s IH]; intros b Hs Ht.
  - by injection Hs as <-.
  - apply utf8_encode_cons in Hs as (b1 & b2 & H1 & H2 & ->). specialize (IH b2 H2 Ht).
    unfold utf8_encode in *. cbn [app map_res]. rewrite H1. cbn [mbind result_bind].
    destruct (map_res utf8_char (s ++ t)) as [bs|]; [|discriminate]. cbn in *. injection IH as IH.
    by rewrite IH, app_assoc.
Qed.

Lemma join_code_points fs : Forall (Forall code_point) fs -> Forall code_point (join_fields (quote_field <$> fs)).
Proof.
  assert (Hq : code_point _QUOTE) by (unfold code_point, _QUOTE; lia).
  assert (Hc : code_point _COMMA) by (unfold code_point, _COMMA; lia).
  assert (Hf : forall f, Forall code_point f -> Forall code_point (quote_field f)).
  { intros f Hf. unfold quote_field. apply Forall_app. split; [by constructor|]. apply Forall_app. split; [|by constructor].
    induction Hf as [|c f Hcp _ IH]; [constructor|]. unfold double_quotes in *. cbn. apply Forall_app. split; [|done].
    destruct (c =? _QUOTE); repeat (apply Forall_cons; [done|]); constructor. }
  induction 1 as [|f fs Hfs Hrest IH]; [constructor|]. destruct fs as [|g fs]; [by apply Hf|].
  set (rest := join_fields (quote_field <$> (g :: fs))) in *.
  change (join_fields (quote_field <$> (f :: g :: fs))) with (quote_field f ++ [_COMMA] ++ rest).
  apply Forall_app. split; [by apply Hf|]. apply Forall_app. split; [by constructor|done].
Qed.

Lemma terminator_stripped text tm :
  list.last text = Some _QUOTE -> tm ∈ [[]; [_CR]; [_LF]; [_CR; _LF]] ->
  removesuffix _CR (removesuffix _LF (text ++ tm)) = text.
Proof.
  intros Hl Ht.
  assert (Hcr : removesuffix _CR text = text) by by apply (removesuffix_last _ _ _QUOTE).
  assert (Hlf : removesuffix _LF text = text) by by apply (removesuffix_last _ _ _QUOTE).
  apply elem_of_cons in Ht as [->|Ht]; [by rewrite app_nil_r, Hlf|].
  apply elem_of_cons in Ht as [->|Ht].
  { rewrite (removesuffix_last _LF _ _CR); [apply removesuffix_snoc|apply last_snoc|done]. }
  apply elem_of_cons in Ht as [->|Ht]; [by rewrite removesuffix_snoc|].
  apply list_elem_of_singleton in Ht as ->. change [_CR; _LF] with ([_CR] ++ [_LF]).
  rewrite app_assoc, removesuffix_snoc. apply removesuffix_snoc.
Qed.

(** ** Claims *)

(** Headers read back. A record written as comma-separated quoted fields, in
    UTF-8, with or without a byte-order mark and with any of the terminators, is
    split into exactly the fields it was written from. *)
Theorem split_fields_roundtrip fields (bom : bool) terminator encoded :
  fields <> [] -> Forall (Forall code_point) fields -> terminator ∈ [[]; [_CR]; [_LF]; [_CR; _LF]] ->
  utf8_encode (join_fields (quote_field <$> fields)) = Ok encoded ->
  split_record_fields ((if bom then _BOM else []) ++ encoded ++ terminator) = Some fields.
Proof.
  intros Hne Hcp Ht Henc. pose proof (join_last fields Hne) as Hlast.
  pose proof (join_code_points fields Hcp) as Htext. set (text := join_fields (quote_field <$> fields)) in *.
  assert (Htm : utf8_encode terminator = Ok terminator /\ Forall code_point terminator).
  { revert Ht. assert (Hall : Forall (fun t => utf8_encode t = Ok t /\ Forall code_point t) [[]; [_CR]; [_LF]; [_CR; _LF]]);
      [|by apply (proj1 (list.Forall_forall _ _) Hall)].
    repeat constructor; unfold code_point, _CR, _LF; lia. }
  destruct Htm as [Htm Htmc]. pose proof (utf8_encode_app _ _ _ _ Henc Htm) as Hfull.
  assert (Hdec : decode_sig ((if bom then _BOM else []) ++ encoded ++ terminator) = Some (text ++ terminator)).
  { assert (Hd : utf8_decode (encoded ++ terminator) = Some (text ++ terminator)).
    { apply utf8_decode_encode; [by apply Forall_app|done]. }
    unfold decode_sig. destruct bom; [done|]. cbn [app]. rewrite bool_decide_eq_false_2; [done|].
    destruct fields as [|f fs]; [done|].
    assert (Hhead : exists text', text = _QUOTE :: text').
    { unfold text. destruct fs; cbn; by eexists. }
    destruct Hhead as [text' Htx]. rewrite Htx in Henc.
    apply utf8_encode_cons in Henc as (b1 & b2 & [= <-] & _ & ->). done. }
  unfold split_record_fields. rewrite Hdec, terminator_stripped by done.
  apply scan_join; [done|]. apply join_fields_len.
Qed.

Lemma split_fields_roundtrip_witness :
  exists encoded, utf8_encode (join_fields (quote_field <$> [py "a,b"; [233]; [34]])) = Ok encoded /\
    split_record_fields (_BOM ++ encoded ++ [_CR; _LF]) = Some [py "a,b"; [233]; [34]].
Proof.
  eexists. split; [vm_compute; reflexivity|].
  apply (split_fields_roundtrip [py "a,b"; [233]; [34]] true [_CR; _LF]);
    [discriminate|by_decide|by_decide|vm_compute; reflexivity].
Defined.
