(* ===== verification/Sha256.v ===== *)
(** * SHA-256 and HMAC (the standard library's [hashlib] and [hmac])

    An executable rendering of FIPS 180-4 SHA-256 and RFC 2104 HMAC, and of the
    incremental [hmac] object the engine keys once and copies per row. Pinned by
    the published test vectors below. *)

From S2P Require Import Prelude Numerals PyText.

(** ** Words of 32 bits *)

Definition w32 (x : Z) : Z := x mod 2 ^ 32.
Definition add32 (x y : Z) : Z := w32 (x + y).
Definition rotr (n x : Z) : Z := w32 (Z.lor (Z.shiftr x n) (Z.shiftl x (32 - n))).
Definition not32 (x : Z) : Z := 2 ^ 32 - 1 - x.

Definition ch (x y z : Z) : Z := Z.lxor (Z.land x y) (Z.land (not32 x) z).
Definition maj (x y z : Z) : Z := Z.lxor (Z.lxor (Z.land x y) (Z.land x z)) (Z.land y z).
Definition bsig0 (x : Z) : Z := Z.lxor (Z.lxor (rotr 2 x) (rotr 13 x)) (rotr 22 x).
Definition bsig1 (x : Z) : Z := Z.lxor (Z.lxor (rotr 6 x) (rotr 11 x)) (rotr 25 x).
Definition ssig0 (x : Z) : Z := Z.lxor (Z.lxor (rotr 7 x) (rotr 18 x)) (Z.shiftr x 3).
Definition ssig1 (x : Z) : Z := Z.lxor (Z.lxor (rotr 17 x) (rotr 19 x)) (Z.shiftr x 10).

(** The constants are the first 32 fractional bits of the roots of the first
    primes: the cube roots for the rounds, the square roots for the initial state. *)
Definition is_prime (n : Z) : bool := forallb (fun d => negb (n mod d =? 0)) (Z.of_nat <$> seq 2 (Z.to_nat n - 2)).
Definition first_primes : list Z := filter (fun n => is_prime n = true) (Z.of_nat <$> seq 2 310).

(** The largest [x] below [acc + 2^bits] with [x ^ k <= n], bit by bit. *)
Fixpoint root_loop (k n : Z) (bits : nat) (acc : Z) : Z :=
  match bits with
  | O => acc
  | S bits =>
      let x := acc + 2 ^ Z.of_nat bits in
      root_loop k n bits (if x ^ k <=? n then x else acc)
  end.

Definition root_fraction (k p : Z) : Z := w32 (root_loop k (p * 2 ^ (32 * k)) 40 0).

Definition K256 : list Z := Eval vm_compute in root_fraction 3 <$> first_primes.

Record hstate := H8 { ha : Z; hb : Z; hc : Z; hd : Z; he : Z; hf : Z; hg : Z; hh : Z }.

Definition IV : hstate := Eval vm_compute in
  match root_fraction 2 <$> first_primes with
  | a :: b :: c :: d :: e :: f :: g :: h :: _ => H8 a b c d e f g h
  | _ => H8 0 0 0 0 0 0 0 0
  end.

(** ** Compression *)

(** The message schedule, most recent word first: [n] more words. *)
Fixpoint schedule (n : nat) (ws : list Z) : list Z :=
  match n with
  | O => ws
  | S n =>
      let w i := nth i ws 0 in
      schedule n (w32 (ssig1 (w 1%nat) + w 6%nat + ssig0 (w 14%nat) + w 15%nat) :: ws)
  end.

Definition sha_round (h : hstate) (kw : Z * Z) : hstate :=
  let t1 := w32 (hh h + bsig1 (he h) + ch (he h) (hf h) (hg h) + kw.1 + kw.2) in
  let t2 := w32 (bsig0 (ha h) + maj (ha h) (hb h) (hc h)) in
  H8 (add32 t1 t2) (ha h) (hb h) (hc h) (add32 (hd h) t1) (he h) (hf h) (hg h).

(** The sixteen big-endian words of a 64-byte block. *)
Fixpoint block_words (n : nat) (b : bytes) : list Z :=
  match n with
  | O => []
  | S n => from_bytes (take 4 b) :: block_words n (drop 4 b)
  end.

Definition compress (h : hstate) (block : bytes) : hstate :=
  let ws := rev (schedule 48 (rev (block_words 16 block))) in
  let r := fold_left sha_round (zip K256 ws) h in
  H8 (add32 (ha h) (ha r)) (add32 (hb h) (hb r)) (add32 (hc h) (hc r)) (add32 (hd h) (hd r))
     (add32 (he h) (he r)) (add32 (hf h) (hf r)) (add32 (hg h) (hg r)) (add32 (hh h) (hh r)).

(** Padding: a one bit, zeros, the 64-bit length; a whole number of blocks. *)
Definition sha_pad (m : bytes) : bytes :=
  let n := zlen m in
  m ++ [128] ++ zero_bytes ((55 - n) mod 64) ++ pos_digits 256 8 (8 * n).

Fixpoint blocks (n : nat) (m : bytes) (h : hstate) : hstate :=
  match n with
  | O => h
  | S n => blocks n (drop 64 m) (compress h (take 64 m))
  end.

Definition digest_bytes (h : hstate) : bytes :=
  [ha h; hb h; hc h; hd h; he h; hf h; hg h; hh h] ≫= pos_digits 256 4.

(** [hashlib.sha256(m).digest()] *)
Definition sha256 (m : bytes) : bytes :=
  let p := sha_pad m in digest_bytes (blocks (Z.to_nat (zlen p / 64)) p IV).

(** ** HMAC *)

Definition hmac_block_key (key : bytes) : bytes :=
  let k := if zlen key >? 64 then sha256 key else key in
  k ++ zero_bytes (64 - zlen k).

(** [hmac.new(key, msg, hashlib.sha256).digest()] *)
Definition hmac_sha256 (key msg : bytes) : bytes :=
  let k := hmac_block_key key in
  sha256 ((Z.lxor 92 <$> k) ++ sha256 ((Z.lxor 54 <$> k) ++ msg)).

(** The incremental object: keyed by [new], fed by [update], read by [digest];
    [copy] shares nothing with its original. *)
Record hmac_obj := MkHmac { hm_key : bytes; hm_data : bytes }.
Definition hmac_new (key msg : bytes) : hmac_obj := MkHmac key msg.
Definition hmac_copy (o : hmac_obj) : hmac_obj := o.
Definition hmac_update (o : hmac_obj) (msg : bytes) : hmac_obj := MkHmac (hm_key o) (hm_data o ++ msg).
Definition hmac_digest (o : hmac_obj) : bytes := hmac_sha256 (hm_key o) (hm_data o).

(** ** Test vectors *)

(** Lower-case hexadecimal. *)
Definition unhex_digit (c : Z) : Z := if c <? 58 then c - 48 else c - 87.
Fixpoint unhex_pairs (s : pystr) : bytes :=
  match s with
  | a :: b :: s' => 16 * unhex_digit a + unhex_digit b :: unhex_pairs s'
  | _ => []
  end.
Definition unhex (s : string) : bytes := unhex_pairs (py s).

(** FIPS 180-4, "abc" and the two-block message. *)
Example sha256_abc :
  sha256 (py "abc") = unhex "ba7816bf8f01cfea414140de5dae2223b00361a396177a9cb410ff61f20015ad".
Proof. vm_compute. reflexivity. Qed.

Example sha256_two_blocks :
  sha256 (py "abcdbcdecdefdefgefghfghighijhijkijkljklmklmnlmnomnopnopq") =
  unhex "248d6a61d20638b8e5c026930c3e6039a33ce45964ff2167f6ecedd419db06c1".
Proof. vm_compute. reflexivity. Qed.

(** RFC 4231, test cases 2 and 6 (a key longer than the block). *)
Example hmac_rfc4231_2 :
  hmac_sha256 (py "Jefe") (py "what do ya want for nothing?") =
  unhex "5bdcc146bf60754e6a042426089575c75a003f089d2739839dec58b964ec3843".
Proof. vm_compute. reflexivity. Qed.

Example hmac_rfc4231_6 :
  hmac_sha256 (replicate 131 170) (py "Test Using Larger Than Block-Size Key - Hash Key First") =
  unhex "60e431591ee0b67f0d8a26aacbf5b77f8e0bc6213728c5140546040f0ee37f54".
Proof. vm_compute. reflexivity. Qed.

(** ** Digests are 32 octets *)

Lemma digest_bytes_ok h : length (digest_bytes h) = 32%nat /\ Forall is_byte (digest_bytes h).
Proof.
  unfold digest_bytes. cbn [mbind list_bind]. split.
  - rewrite !length_app, !length_pos_digits. done.
  - repeat (apply Forall_app; split; [by apply pos_digits_range|]). constructor.
Qed.

Lemma sha256_ok m : length (sha256 m) = 32%nat /\ Forall is_byte (sha256 m).
Proof. apply digest_bytes_ok. Qed.

Lemma hmac_sha256_ok key msg : length (hmac_sha256 key msg) = 32%nat /\ Forall is_byte (hmac_sha256 key msg).
Proof. apply sha256_ok. Qed.

(** Feeding a message in two parts is feeding it at once. *)
Lemma hmac_incremental key prefix msg :
  hmac_digest (hmac_update (hmac_copy (hmac_new key prefix)) msg) = hmac_sha256 key (prefix ++ msg).
Proof. reflexivity. Qed.
