(* ===== verification/Derive.v ===== *)
(** * Deterministic derivation (determinism/_hkdf.py, determinism/_derive.py)

    HKDF-SHA256 over the standard library's HMAC, the keyed envelope every masked
    value is derived from, and the per-column context that amortises the key. A
    generator is modelled by what its consumer sees: the values yielded and the
    exception, if any, that ended the iteration. *)

From S2P Require Import Prelude Numerals PyText Sha256.

(** ** HKDF (RFC 5869) *)

Definition _HASH_LEN : Z := 32.

Definition hkdf_extract (salt ikm : bytes) : result bytes :=
  _ ← raise_if (bool_decide (salt = [])) (exc "ValueError");
  Ok (hmac_sha256 salt ikm).

(** One pass of the expansion loop: the previous block and the chunks so far. *)
Definition expand_pass (prk info : bytes) (s : bytes * list bytes) (i : Z) : bytes * list bytes :=
  let t := hmac_sha256 prk (s.1 ++ info ++ [i]) in (t, s.2 ++ [t]).

Definition hkdf_expand (prk info : bytes) (length : Z) : result bytes :=
  _ ← raise_if (length >? 255 * _HASH_LEN) (exc "ValueError");
  let n := (length + _HASH_LEN - 1) / _HASH_LEN in
  let okm_chunks := (fold_left (expand_pass prk info) (irange 1 (Z.to_nat n)) ([], [])).2 in
  Ok (ztake length (concat okm_chunks)).

Definition hkdf_sha256 (ikm salt info : bytes) (length : Z) : result bytes :=
  prk ← hkdf_extract salt ikm; hkdf_expand prk info length.

(** ** Derivation *)

Definition SEED_PROTOCOL_VERSION : Z := 7.
Definition _SALT : bytes := py "decoy-engine/determinism/v1".
Definition _SEED_LENGTHS : list Z := [8; 32].
Definition _POOL_SIZE_MAX : Z := Z.shiftl 1 56.

Definition DeterminismError (code : string) : exn := Exn "DeterminismError" code.

(** The seed and namespace guards of [derive] and [for_column]. *)
Definition check_inputs (seed : bytes) (namespace : pystr) : result unit :=
  _ ← raise_if (bool_decide (zlen seed ∉ _SEED_LENGTHS)) (DeterminismError "seed_wrong_length");
  raise_if (bool_decide (namespace = [])) (DeterminismError "namespace_empty").

Record DeriveContext := MkDeriveContext { _hmac_key : bytes }.

Definition for_column (seed : bytes) (namespace : pystr) : result DeriveContext :=
  _ ← check_inputs seed namespace;
  info ← utf8_encode namespace;
  key ← hkdf_sha256 seed _SALT info 32;
  Ok (MkDeriveContext key).

(** [bytes([VERSION]) + len(ns).to_bytes(4, "big") + ns] *)
Definition derive_prefix (namespace_bytes : bytes) : result bytes :=
  n4 ← to_bytes (zlen namespace_bytes) 4;
  Ok ([SEED_PROTOCOL_VERSION] ++ n4 ++ namespace_bytes).

(** [len(source).to_bytes(4, "big") + source] *)
Definition derive_suffix (source : bytes) : result bytes :=
  s4 ← to_bytes (zlen source) 4; Ok (s4 ++ source).

(** The HMAC input: version, then namespace and source, each length-prefixed. *)
Definition hmac_input (namespace_bytes source : bytes) : result bytes :=
  prefix ← derive_prefix namespace_bytes;
  suffix ← derive_suffix source;
  Ok (prefix ++ suffix).

Definition derive_source (ctx : DeriveContext) (namespace : pystr) (source : bytes) : result bytes :=
  namespace_bytes ← utf8_encode namespace;
  msg ← hmac_input namespace_bytes source;
  Ok (hmac_sha256 (_hmac_key ctx) msg).

(** What a consumer of a generator sees. *)
Definition generated (A : Type) : Type := list A * option exn.

(** [for x in l: yield f(x)] *)
Fixpoint gen_each {A B} (f : A -> result B) (l : list A) : generated B :=
  match l with
  | [] => ([], None)
  | a :: l' =>
      match f a with
      | Ok b => let r := gen_each f l' in (b :: r.1, r.2)
      | Err e => ([], Some e)
      end
  end.

(** One yield: copy the keyed state, feed it one source, finish it. *)
Definition yield_source (base : hmac_obj) (source : bytes) : result bytes :=
  let mac := hmac_copy base in
  suffix ← derive_suffix source;
  Ok (hmac_digest (hmac_update mac suffix)).

Definition derive_sources (ctx : DeriveContext) (namespace : pystr) (sources : list bytes)
    : generated bytes :=
  match (namespace_bytes ← utf8_encode namespace; derive_prefix namespace_bytes) with
  | Err e => ([], Some e)
  | Ok prefix => gen_each (yield_source (hmac_new (_hmac_key ctx) prefix)) sources
  end.

Definition derive (seed : bytes) (namespace : pystr) (source : bytes) : result bytes :=
  _ ← check_inputs seed namespace;
  namespace_bytes ← utf8_encode namespace;
  msg ← hmac_input namespace_bytes source;
  key ← hkdf_sha256 seed _SALT namespace_bytes 32;
  Ok (hmac_sha256 key msg).

Definition _check_pool_size (pool_size : Z) : result unit :=
  _ ← raise_if (pool_size >? _POOL_SIZE_MAX) (DeterminismError "pool_size_overflow");
  raise_if (pool_size <? 1) (DeterminismError "pool_size_invalid").

Definition derive_index (seed : bytes) (namespace : pystr) (source : bytes) (pool_size : Z)
    : result Z :=
  _ ← _check_pool_size pool_size;
  b ← derive seed namespace source;
  Ok (from_bytes (ztake 8 b) mod pool_size).

(** The [Domain] protocol: a stable map from derived bytes to a value. *)
Class Domain (V : Type) := { domain_from_bytes : bytes -> result V }.

#[global] Instance IdentityDomain : Domain bytes := { domain_from_bytes b := Ok b }.

Definition derive_value {V} (domain : Domain V) (seed : bytes) (namespace : pystr) (source : bytes)
    : result V :=
  b ← derive seed namespace source; domain_from_bytes b.

(** ** HKDF lemmas *)

(** RFC 5869's [T(i)]. *)
Fixpoint T_block (prk info : bytes) (i : nat) : bytes :=
  match i with
  | O => []
  | S i' => hmac_sha256 prk (T_block prk info i' ++ info ++ [Z.of_nat i])
  end.

Lemma expand_loop prk info n :
  fold_left (expand_pass prk info) (irange 1 n) ([], []) =
  (T_block prk info n, T_block prk info <$> seq 1 n).
Proof.
  induction n as [|n IH]; [done|].
  unfold irange in *. rewrite seq_S, !fmap_app, fold_left_app, IH. done.
Qed.

Lemma T_block_length prk info i : length (T_block prk info (S i)) = 32%nat.
Proof. apply hmac_sha256_ok. Qed.

Lemma T_block_bytes prk info i : Forall is_byte (T_block prk info i).
Proof. destruct i; [constructor|]. exact (proj2 (hmac_sha256_ok _ _)). Qed.

Lemma T_blocks_length prk info k n :
  (1 <= k)%nat -> length (concat (T_block prk info <$> seq k n)) = (32 * n)%nat.
Proof.
  revert k. induction n as [|n IH]; intros k Hk; [done|].
  destruct k as [|k]; [lia|]. cbn [seq fmap list_fmap concat].
  rewrite length_app, T_block_length, IH by lia. lia.
Qed.

(** The expansion is the stream of blocks cut at the requested length. *)
Lemma hkdf_expand_spec prk info length n :
  length <= 32 * Z.of_nat n -> Z.of_nat n <= 255 ->
  hkdf_expand prk info length = Ok (ztake length (concat (T_block prk info <$> seq 1 n))).
Proof.
  intros Hl Hn. unfold hkdf_expand, _HASH_LEN.
  replace (length >? 255 * 32) with false by lia. cbn [raise_if mbind result_bind].
  rewrite expand_loop. cbn [snd]. f_equal.
  set (m := Z.to_nat ((length + 32 - 1) / 32)).
  assert (m <= n)%nat as Hmn.
  { unfold m. assert ((length + 32 - 1) / 32 < Z.of_nat n + 1) by (apply Z.div_lt_upper_bound; lia). lia. }
  assert (length <= 32 * Z.of_nat m) as Hm.
  { unfold m. pose proof (Z.div_mod (length + 32 - 1) 32). pose proof (Z.mod_pos_bound (length + 32 - 1) 32). lia. }
  replace n with (m + (n - m))%nat by lia.
  rewrite seq_app, fmap_app, concat_app. unfold ztake.
  rewrite take_app_le; [done|]. rewrite T_blocks_length; lia.
Qed.

(** The 255 blocks a request may draw on. *)
Lemma hkdf_stream_spec prk info k :
  k <= 255 * 32 -> hkdf_expand prk info k = Ok (ztake k (concat (T_block prk info <$> seq 1 255))).
Proof. intros. apply hkdf_expand_spec; lia. Qed.

Lemma hkdf_stream_length prk info : zlen (concat (T_block prk info <$> seq 1 255)) = 255 * 32.
Proof. unfold zlen. rewrite T_blocks_length; [reflexivity|constructor]. Qed.

Lemma hkdf_stream_bytes prk info : Forall is_byte (concat (T_block prk info <$> seq 1 255)).
Proof.
  apply Forall_concat, Forall_fmap, list.Forall_forall. intros i _. exact (T_block_bytes prk info i).
Qed.

Lemma hkdf_extract_ok salt ikm : salt <> [] -> hkdf_extract salt ikm = Ok (hmac_sha256 salt ikm).
Proof. intros H. unfold hkdf_extract. by rewrite bool_decide_false. Qed.

(** A key of one block. *)
Lemma hkdf_block_ok ikm salt info : salt <> [] -> exists key, hkdf_sha256 ikm salt info 32 = Ok key.
Proof.
  intros Hs. unfold hkdf_sha256. rewrite hkdf_extract_ok by done. cbn [mbind result_bind].
  rewrite (hkdf_expand_spec _ _ _ 1) by lia. eauto.
Qed.

(** The 32-byte key of a column. *)
Lemma column_key_ok seed info : exists key, hkdf_sha256 seed _SALT info 32 = Ok key.
Proof. by apply hkdf_block_ok. Qed.

(** ** Envelope lemmas *)

Lemma derive_prefix_err b e : derive_prefix b = Err e -> e = exc "OverflowError".
Proof. unfold derive_prefix, to_bytes. destruct (_ && _); cbn; congruence. Qed.

Lemma derive_prefix_inv b prefix :
  derive_prefix b = Ok prefix -> exists n4, prefix = [7] ++ n4 ++ b /\ zlen n4 = 4 /\ from_bytes n4 = zlen b.
Proof.
  unfold derive_prefix. intros H. ok_inv. apply to_bytes_inv in E as (_ & ? & _ & ?); [|lia]. eauto.
Qed.

Lemma derive_suffix_inv s suffix :
  derive_suffix s = Ok suffix -> exists s4, suffix = s4 ++ s /\ zlen s4 = 4.
Proof.
  unfold derive_suffix. intros H. ok_inv. apply to_bytes_inv in E as (_ & ? & _ & ?); [|lia]. eauto.
Qed.

Lemma hmac_input_inj b b' s s' msg :
  hmac_input b s = Ok msg -> hmac_input b' s' = Ok msg -> b = b' /\ s = s'.
Proof.
  unfold hmac_input. intros H H'. ok_inv. symmetry in H'. rename H' into Heq.
  repeat match goal with
  | H : derive_prefix _ = Ok _ |- _ => apply derive_prefix_inv in H as (? & -> & ? & ?)
  | H : derive_suffix _ = Ok _ |- _ => apply derive_suffix_inv in H as (? & -> & ?)
  end.
  rewrite <- !app_assoc in Heq. cbn [app] in Heq. injection Heq as Heq.
  apply app_inj_1 in Heq as [-> Heq]; [|unfold zlen in *; lia].
  apply app_inj_1 in Heq as [-> Heq]; [|unfold zlen in *; lia].
  apply app_inj_1 in Heq as [_ ->]; [done|unfold zlen in *; lia].
Qed.

Lemma gen_each_ext {A B} (f g : A -> result B) l :
  (forall a, f a = g a) -> gen_each f l = gen_each g l.
Proof. intros H. induction l as [|a l IH]; cbn; [done|]. by rewrite H, IH. Qed.

Lemma check_inputs_cases seed namespace :
  check_inputs seed namespace =
    if bool_decide (zlen seed ∈ _SEED_LENGTHS) then
      if bool_decide (namespace = []) then Err (DeterminismError "namespace_empty") else Ok tt
    else Err (DeterminismError "seed_wrong_length").
Proof.
  unfold check_inputs.
  destruct (decide (zlen seed ∈ _SEED_LENGTHS)) as [H|H].
  - rewrite (bool_decide_false (zlen seed ∉ _)) by (intros Hn; exact (Hn H)).
    rewrite (bool_decide_true (zlen seed ∈ _)) by done. by case_bool_decide.
  - rewrite (bool_decide_true (zlen seed ∉ _)) by done. by rewrite (bool_decide_false (zlen seed ∈ _)).
Qed.

Lemma for_column_ok seed namespace ctx :
  for_column seed namespace = Ok ctx ->
  exists b, check_inputs seed namespace = Ok tt /\ utf8_encode namespace = Ok b /\
            hkdf_sha256 seed _SALT b 32 = Ok (_hmac_key ctx).
Proof. unfold for_column. intros H. ok_inv. destruct a. eauto. Qed.

(** The derivation of a row is the envelope under the column's key. *)
Lemma derive_by_context seed namespace ctx source :
  for_column seed namespace = Ok ctx -> derive_source ctx namespace source = derive seed namespace source.
Proof.
  intros (b & Hc & Hb & Hk)%for_column_ok. unfold derive_source, derive.
  rewrite Hc, Hb. cbn [mbind result_bind]. by rewrite Hk.
Qed.

Lemma derive_ok_length seed namespace source b :
  derive seed namespace source = Ok b -> zlen b = 32 /\ Forall is_byte b.
Proof.
  unfold derive. intros H. ok_inv.
  match goal with |- context [hmac_sha256 ?k ?m] => destruct (hmac_sha256_ok k m) as [Hl Hb] end.
  split; [unfold zlen; lia|done].
Qed.

(** ** Properties *)

(** the amortised path is the scalar one. A context built for a column derives
    every row exactly as [derive] does, errors included; the generator that keys
    the HMAC once and copies its state yields the same bytes in the same order and
    stops with the same exception; and a context cannot be built exactly when
    every scalar call would raise that same error. *)
Theorem derive_context_equivalent seed namespace :
  match for_column seed namespace with
  | Ok ctx =>
      (forall source, derive_source ctx namespace source = derive seed namespace source) /\
      (forall source sources,
         derive_sources ctx namespace (source :: sources) =
         gen_each (derive seed namespace) (source :: sources))
  | Err e => forall source, derive seed namespace source = Err e
  end.
Proof.
  destruct (for_column seed namespace) as [ctx|e] eqn:Hc.
  - split; [intros; by apply derive_by_context|]. intros source sources.
    rewrite <- (gen_each_ext (derive_source ctx namespace)) by (intros; by apply derive_by_context).
    apply for_column_ok in Hc as (b & _ & Hb & _). unfold derive_sources. rewrite Hb. cbn [mbind result_bind].
    destruct (derive_prefix b) as [prefix|e] eqn:Hp.
    + apply gen_each_ext. intros s. unfold yield_source, derive_source, hmac_input. rewrite Hb.
      cbn [mbind result_bind]. rewrite Hp. cbn [mbind result_bind].
      destruct (derive_suffix s); [|done]. cbn [mbind result_bind]. by rewrite hmac_incremental.
    + cbn [gen_each]. unfold derive_source, hmac_input. rewrite Hb. cbn [mbind result_bind].
      by rewrite Hp.
  - intros source. unfold for_column in Hc. unfold derive.
    destruct (check_inputs seed namespace); cbn [mbind result_bind] in *; [|congruence].
    destruct (utf8_encode namespace) as [b|]; cbn [mbind result_bind] in *; [|congruence].
    destruct (column_key_ok seed b) as [key Hk]. rewrite Hk in Hc. discriminate.
Qed.

(** the envelope is unambiguous. Two (namespace, source) pairs that feed the
    HMAC the same bytes are the same pair, so no namespace or source can be
    re-split into another one. *)
Theorem derive_envelope_injective ns ns' b b' source source' msg :
  Forall code_point ns -> Forall code_point ns' ->
  utf8_encode ns = Ok b -> utf8_encode ns' = Ok b' ->
  hmac_input b source = Ok msg -> hmac_input b' source' = Ok msg ->
  ns = ns' /\ source = source'.
Proof.
  intros Hn Hn' Hb Hb' H H'. destruct (hmac_input_inj _ _ _ _ _ H H') as [-> ->].
  split; [by eapply utf8_encode_inj|done].
Qed.

(** [derive_index] lands in the pool. A pool above [2^56] or below one is
    refused before the seed is looked at; otherwise the index is the first eight
    derived bytes, big-endian, modulo the size, inside [0, pool_size), and the
    index fails exactly as [derive] does. *)
Theorem derive_index_bounds seed namespace source pool_size :
  derive_index seed namespace source pool_size =
    (if pool_size >? 2 ^ 56 then Err (DeterminismError "pool_size_overflow")
     else if pool_size <? 1 then Err (DeterminismError "pool_size_invalid")
     else (fun b => from_bytes (ztake 8 b) mod pool_size) <$> derive seed namespace source) /\
  (forall i, derive_index seed namespace source pool_size = Ok i -> 0 <= i < pool_size) /\
  (forall b, derive seed namespace source = Ok b -> 0 <= from_bytes (ztake 8 b) < 2 ^ 64).
Proof.
  split_and!.
  - unfold derive_index, _check_pool_size, _POOL_SIZE_MAX. change (Z.shiftl 1 56) with (2 ^ 56).
    destruct (pool_size >? 2 ^ 56); [done|]. by destruct (pool_size <? 1).
  - unfold derive_index, _check_pool_size. intros i H. ok_inv. bool_prop. apply Z.mod_pos_bound. lia.
  - intros b [Hl Hb]%derive_ok_length.
    pose proof (from_bytes_bound (ztake 8 b) (Forall_ztake _ _ _ Hb)) as Hv.
    rewrite zlen_ztake in Hv by lia. exact Hv.
Qed.

(** HKDF-Expand is RFC 5869's. It refuses exactly the lengths above 255
    blocks; otherwise it returns exactly [length] octets, the prefix of
    [T(1) | T(2) | ...] with [T(i) = HMAC(PRK, T(i-1) | info | i)], so a shorter
    request is a prefix of a longer one. *)
Theorem hkdf_expand_rfc5869 prk info length :
  0 <= length ->
  (hkdf_expand prk info length = Err (exc "ValueError") <-> 255 * 32 < length) /\
  (length <= 255 * 32 ->
   exists okm, hkdf_expand prk info length = Ok okm /\ zlen okm = length /\ Forall is_byte okm /\
     okm = ztake length (concat (T_block prk info <$> seq 1 255)) /\
     (forall k okm', 0 <= k <= length -> hkdf_expand prk info k = Ok okm' -> okm' = ztake k okm)).
Proof.
  intros H0. pose proof (hkdf_stream_spec prk info) as Hspec.
  pose proof (hkdf_stream_length prk info) as Hlen. pose proof (hkdf_stream_bytes prk info) as Hbytes.
  set (stream := concat _) in *. clearbody stream.
  split; [split|].
  - intros H. destruct (decide (255 * 32 < length)); [done|]. rewrite Hspec in H by lia. discriminate.
  - intros H. unfold hkdf_expand, _HASH_LEN. by replace (length >? 255 * 32) with true by lia.
  - intros Hle. eexists. split; [by apply Hspec|]. split_and!; [apply zlen_ztake; lia| |reflexivity|].
    + by apply Forall_ztake.
    + intros k okm' Hk H. rewrite Hspec in H by lia. injection H as <-.
      unfold ztake. rewrite take_take. f_equal. lia.
Qed.

(** ** Witnesses and test vectors *)

(** RFC 5869, test case A.1. *)
Example hkdf_rfc5869_a1 :
  hkdf_sha256 (replicate 22 11) (unhex "000102030405060708090a0b0c") (unhex "f0f1f2f3f4f5f6f7f8f9") 42 =
  Ok (unhex "3cb25f25faacd57a90434f64d0362f2a2d2d0a90cf1a5a4c5db02d56ecc4c5bf34007208d5b887185865").
Proof. vm_compute. reflexivity. Qed.

Lemma derive_envelope_injective_witness :
  exists msg, hmac_input (py "people.ssn") (py "42") = Ok msg /\ py "people.ssn" = py "people.ssn" /\ py "42" = py "42".
Proof.
  eexists. split; [vm_compute; reflexivity|].
  refine (derive_envelope_injective (py "people.ssn") (py "people.ssn") (py "people.ssn") (py "people.ssn")
    (py "42") (py "42") _ _ _ _ _ _ _);
    [by_decide|by_decide|vm_compute; reflexivity|vm_compute; reflexivity
    |vm_compute; reflexivity|vm_compute; reflexivity].
Defined.

Lemma hkdf_expand_rfc5869_witness :
  hkdf_expand (py "key") (py "info") 8161 = Err (exc "ValueError").
Proof. refine (proj2 (proj1 (hkdf_expand_rfc5869 (py "key") (py "info") 8161 _)) _); lia. Defined.
