(* ===== verification/CastNumeric.v ===== *)
(** * Declared casting: numeric kernels (declared_casting/_types.py, _numeric.py)

    Integer, decimal, grouped-decimal and currency kernels. A cell is a Python
    value by its type; a kernel returns the outcome record and never raises for
    data. The lexical patterns are written as recognisers of their languages; the
    validators of the contract models they rely on (contracts/_declared_base.py)
    are boolean functions. *)

From S2P Require Import Prelude Numerals PyText.

(** ** Values and outcomes *)

(** [decimal.Decimal]: a finite value by sign, coefficient and exponent, or one of
    the special values (infinities and NaNs). *)
Inductive Decimal : Type :=
| DFinite (sign : bool) (coefficient exponent : Z)
| DSpecial.

Inductive cell : Type :=
| VStr (s : pystr)
| VBytes (b : bytes)
| VInt (n : Z)
| VBool (b : bool)
| VDec (d : Decimal)
| VDate (year month day : Z)
| VOther.

Inductive CastOutcome : Type :=
| Success (value : cell)
| Failure (reason : string).

Definition succeed (v : cell) : result CastOutcome := Ok (Success v).
Definition fail (reason : string) : result CastOutcome := Ok (Failure reason).

Definition DECLARED_INTEGER_INVALID : string := "declared_integer_invalid".
Definition DECLARED_INTEGER_OVERFLOW : string := "declared_integer_overflow".
Definition DECLARED_DECIMAL_INVALID : string := "declared_decimal_invalid".
Definition DECLARED_DECIMAL_PRECISION_LOSS : string := "declared_decimal_precision_loss".
Definition DECLARED_DECIMAL_OVERFLOW : string := "declared_decimal_overflow".
Definition DECLARED_CURRENCY_INVALID : string := "declared_currency_invalid".
Definition DECLARED_OUTPUT_WIDTH_OVERFLOW : string := "declared_output_width_overflow".

Definition MAX_TEXT : Z := 128.

(** ** Specifications *)

Inductive IntSpec : Type :=
| IntegerAscii (signed : bool) (bit_width : Z)
| IntegerZeroPad (signed : bool) (bit_width : Z) (zp_width : option Z).

Definition int_signed (s : IntSpec) : bool :=
  match s with IntegerAscii b _ | IntegerZeroPad b _ _ => b end.
Definition int_bit_width (s : IntSpec) : Z :=
  match s with IntegerAscii _ w | IntegerZeroPad _ w _ => w end.

(** A decimal shape. A plain decimal has the radix ["."] and no group, which is
    what [getattr] defaults to for it. *)
Record NumSpec := MkNumSpec { precision : Z; scale : Z; radix : Z; group : option Z }.
Definition DecimalPlain (precision scale : Z) : NumSpec := MkNumSpec precision scale 46 None.

Inductive TokenPosition := prefix | suffix.
Inductive SignStyle := leading_minus | accounting_parentheses.
Record CurrencySpec := MkCurrency
  { cur_num : NumSpec; token : pystr; token_position : TokenPosition; sign_style : SignStyle }.

Definition MAX_PRECISION : Z := 38.
Definition INTEGER_WIDTHS : list Z := [8; 16; 32; 64].

(** The contract's validators. *)
Definition valid_precision (precision scale : Z) : bool :=
  (1 <=? precision) && (precision <=? MAX_PRECISION) && (0 <=? scale) && (scale <=? precision).
Definition valid_separator (c : Z) : bool :=
  (32 <=? c) && (c <=? 126) && bool_decide (c ∉ py "0123456789+-() ").
Definition valid_separators (radix : Z) (group : option Z) : bool :=
  valid_separator radix &&
  match group with Some g => valid_separator g && negb (g =? radix) | None => true end.
Definition valid_num (s : NumSpec) : bool :=
  valid_precision (precision s) (scale s) && valid_separators (radix s) (group s).
Definition valid_bit_width (w : Z) : bool := bool_decide (w ∈ INTEGER_WIDTHS).

(** ** Exact decimals *)

(** [Decimal(unscaled).scaleb(-scale)] in the pinned context, negated on demand:
    exact up to the context's 80 digits, a trapped signal beyond them. *)
Definition scaled (unscaled scale : Z) (negative : bool) : result Decimal :=
  if unscaled <? 10 ^ 80 then Ok (DFinite negative unscaled (- scale))
  else Err (exc "DecimalException").

(** The magnitude at [scale], or the failing reason. *)
Definition rescale (coefficient exponent scale precision : Z) : Z + string :=
  let shift := exponent + scale in
  let check unscaled :=
    if unscaled >=? 10 ^ precision then inr DECLARED_DECIMAL_OVERFLOW else inl unscaled in
  if shift >=? 0 then check (coefficient * 10 ^ shift)
  else if negb (coefficient mod 10 ^ (- shift) =? 0) then inr DECLARED_DECIMAL_PRECISION_LOSS
  else check (coefficient / 10 ^ (- shift)).

Definition unscale_parts (sign : bool) (coefficient exponent scale precision : Z) : (Z * bool) + string :=
  if (zlen (dec_digits coefficient) >? 2 * MAX_TEXT) || (Z.abs exponent >? 2 * MAX_TEXT) then
    inr DECLARED_DECIMAL_INVALID
  else match rescale coefficient exponent scale precision with
       | inl unscaled => inl (unscaled, sign)
       | inr reason => inr reason
       end.

Definition unscale (value : cell) (scale precision : Z) : (Z * bool) + string :=
  match value with
  | VDec (DFinite sign coefficient exponent) => unscale_parts sign coefficient exponent scale precision
  | VInt n => unscale_parts (n <? 0) (Z.abs n) 0 scale precision
  | _ => inr DECLARED_DECIMAL_INVALID
  end.

(** ** Integer kernels *)

Definition int_bounds (signed : bool) (bit_width : Z) : Z * Z :=
  if signed then (- Z.shiftl 1 (bit_width - 1), Z.shiftl 1 (bit_width - 1) - 1)
  else (0, Z.shiftl 1 bit_width - 1).

Definition is_digit (c : Z) : bool := (48 <=? c) && (c <=? 57).
Definition is_sign (c : Z) : bool := (c =? 43) || (c =? 45).

(** ["[0-9]+"] *)
Definition digits_lexeme (s : pystr) : bool := negb (bool_decide (s = [])) && forallb is_digit s.

(** An optional sign and the rest. *)
Definition split_sign (s : pystr) : pystr * pystr :=
  match s with
  | c :: s' => if is_sign c then ([c], s') else ([], s)
  | [] => ([], [])
  end.

(** [_INT]: ["[+-]?[0-9]+"] *)
Definition int_lexeme (s : pystr) : bool := digits_lexeme (split_sign s).2.

(** [s.lstrip(chars)] for the characters satisfying [p]. *)
Fixpoint lstrip_if (p : Z -> bool) (s : pystr) : pystr :=
  match s with
  | c :: s' => if p c then lstrip_if p s' else s
  | [] => []
  end.
Definition rstrip_if (p : Z -> bool) (s : pystr) : pystr := rev (lstrip_if p (rev s)).

(** [int(s)] of an integer lexeme. *)
Definition int_text (s : pystr) : Z :=
  let '(sign, digits) := split_sign s in
  if bool_decide (sign = [45]) then - int_digits digits else int_digits digits.

Definition parse_integer (spec : IntSpec) (raw : cell) : result CastOutcome :=
  match raw with
  | VStr raw =>
      if (zlen raw >? MAX_TEXT) || negb (int_lexeme raw) then fail DECLARED_INTEGER_INVALID
      else
        let significant := lstrip_if (Z.eqb 48) (lstrip_if is_sign raw) in
        let '(lo, hi) := int_bounds (int_signed spec) (int_bit_width spec) in
        if zlen significant >? zlen (str_int hi) + 1 then fail DECLARED_INTEGER_OVERFLOW
        else
          let value := int_text raw in
          if negb ((lo <=? value) && (value <=? hi)) then fail DECLARED_INTEGER_OVERFLOW
          else succeed (VInt value)
  | _ => fail DECLARED_INTEGER_INVALID
  end.

Definition format_integer (spec : IntSpec) (value : cell) : result CastOutcome :=
  match value with
  | VInt value =>
      let '(lo, hi) := int_bounds (int_signed spec) (int_bit_width spec) in
      if negb ((lo <=? value) && (value <=? hi)) then fail DECLARED_INTEGER_OVERFLOW
      else
        let text := str_int value in
        match spec with
        | IntegerZeroPad _ _ width =>
            let '(sign, digits) := if value <? 0 then (py "-", drop 1 text) else ([], text) in
            let room := default 0 width - zlen sign in
            if zlen digits >? room then fail DECLARED_OUTPUT_WIDTH_OVERFLOW
            else succeed (VStr (sign ++ rjust digits room 48))
        | IntegerAscii _ _ => succeed (VStr text)
        end
  | _ => fail DECLARED_INTEGER_INVALID
  end.

(** ** Decimal kernels *)

Definition _from_parts (spec : NumSpec) (negative : bool) (whole frac : pystr) (loss overflow : string)
    : result CastOutcome :=
  if zlen frac >? scale spec then fail loss
  else
    let unscaled := int_digits (whole ++ ljust frac (scale spec) 48) in
    if unscaled >=? 10 ^ precision spec then fail overflow
    else v ← scaled unscaled (scale spec) negative; succeed (VDec v).

(** The longest prefix satisfying [p], and the rest. *)
Fixpoint span (p : Z -> bool) (s : pystr) : pystr * pystr :=
  match s with
  | c :: s' => if p c then let r := span p s' in (c :: r.1, r.2) else ([], s)
  | [] => ([], [])
  end.

(** [_PLAIN]: ["([+-]?)([0-9]+)(?:\.([0-9]+))?"], its three groups. *)
Definition plain_match (s : pystr) : option (pystr * pystr * pystr) :=
  let '(sign, body) := split_sign s in
  let '(whole, rest) := span is_digit body in
  if bool_decide (whole = []) then None
  else match rest with
       | [] => Some (sign, whole, [])
       | c :: frac => if (c =? 46) && digits_lexeme frac then Some (sign, whole, frac) else None
       end.

Definition parse_plain (spec : NumSpec) (raw : cell) : result CastOutcome :=
  match raw with
  | VStr raw =>
      if zlen raw >? MAX_TEXT then fail DECLARED_DECIMAL_INVALID
      else match plain_match raw with
           | None => fail DECLARED_DECIMAL_INVALID
           | Some (sign, whole, frac) =>
               _from_parts spec (bool_decide (sign = py "-")) whole frac
                 DECLARED_DECIMAL_PRECISION_LOSS DECLARED_DECIMAL_OVERFLOW
           end
  | _ => fail DECLARED_DECIMAL_INVALID
  end.

(** [sep.join(...)] of the slices of three from the front. *)
Fixpoint join_threes (sep : Z) (s : pystr) : pystr :=
  match s with
  | a :: b :: c :: s' => sep :: a :: b :: c :: join_threes sep s'
  | [] => []
  | s => sep :: s
  end.

Definition _group (whole : pystr) (sep : option Z) : pystr :=
  match sep with
  | None => whole
  | Some sep =>
      if zlen whole <=? 3 then whole
      else
        let head := if zlen whole mod 3 =? 0 then 3 else zlen whole mod 3 in
        ztake head whole ++ join_threes sep (zdrop head whole)
  end.

Definition render_number (unscaled scale radix : Z) (group : option Z) : pystr :=
  let digits := rjust (str_int unscaled) (scale + 1) 48 in
  let whole := ztake (zlen digits - scale) digits in
  let frac := zdrop (zlen digits - scale) digits in
  _group whole group ++ (if scale =? 0 then [] else radix :: frac).

Definition format_plain (spec : NumSpec) (value : cell) : result CastOutcome :=
  match unscale value (scale spec) (precision spec) with
  | inr reason => fail reason
  | inl (unscaled, negative) =>
      let text := render_number unscaled (scale spec) (radix spec) (group spec) in
      succeed (VStr ((if negative : bool then py "-" else []) ++ text))
  end.

(** ** Grouped numbers *)

Definition is_nonzero_digit (c : Z) : bool := (49 <=? c) && (c <=? 57).

(** ["(?:G[0-9]{3})*"] *)
Fixpoint triples (g : Z) (s : pystr) : bool :=
  match s with
  | [] => true
  | c :: a :: b :: d :: s' => (c =? g) && is_digit a && is_digit b && is_digit d && triples g s'
  | _ => false
  end.

(** ["[1-9][0-9]{0,2}(?:G[0-9]{3})*"] *)
Definition grouped_lexeme (g : Z) (s : pystr) : bool :=
  match s with
  | c :: s1 =>
      is_nonzero_digit c &&
      (triples g s1 ||
       match s1 with
       | a :: s2 =>
           is_digit a &&
           (triples g s2 ||
            match s2 with b :: s3 => is_digit b && triples g s3 | [] => false end)
       | [] => false
       end)
  | [] => false
  end.

(** ["[1-9][0-9]*"] *)
Definition ungrouped_lexeme (s : pystr) : bool :=
  match s with c :: s' => is_nonzero_digit c && forallb is_digit s' | [] => false end.

(** The [whole] alternative of [_number_pattern]. *)
Definition whole_lexeme (group : option Z) (s : pystr) : bool :=
  match group with
  | None => digits_lexeme s
  | Some g => bool_decide (s = py "0") || grouped_lexeme g s || ungrouped_lexeme s
  end.

(** A full match of [_number_pattern]: the fraction, when there is one, is the
    radix and exactly [scale] digits, so the split is the last [scale + 1]
    characters. *)
Definition number_match (spec : NumSpec) (s : pystr) : option (pystr * pystr) :=
  let flen := if scale spec =? 0 then 0 else scale spec + 1 in
  if zlen s <? flen then None
  else
    let whole := ztake (zlen s - flen) s in
    let frac := zdrop (zlen s - flen) s in
    let frac_ok :=
      match frac with
      | [] => scale spec =? 0
      | c :: ds => negb (scale spec =? 0) && (c =? radix spec) && forallb is_digit ds
      end in
    if whole_lexeme (group spec) whole && frac_ok then Some (whole, frac) else None.

Definition _grouped_digits (spec : NumSpec) (number : pystr) : option (pystr * pystr) :=
  match number_match spec number with
  | None => None
  | Some (whole, frac) =>
      match group spec with
      | Some g =>
          if ungrouped_lexeme whole && (zlen whole >? 3) then None
          else Some (List.filter (fun c => negb (c =? g)) whole, drop 1 frac)
      | None => Some (whole, drop 1 frac)
      end
  end.

Definition parse_grouped (spec : NumSpec) (raw : cell) : result CastOutcome :=
  match raw with
  | VStr raw =>
      if zlen raw >? MAX_TEXT then fail DECLARED_DECIMAL_INVALID
      else
        let '(sign, rest) := split_sign raw in
        match _grouped_digits spec rest with
        | None => fail DECLARED_DECIMAL_INVALID
        | Some (whole, frac) =>
            _from_parts spec (bool_decide (sign = py "-")) whole frac
              DECLARED_DECIMAL_PRECISION_LOSS DECLARED_DECIMAL_OVERFLOW
        end
  | _ => fail DECLARED_DECIMAL_INVALID
  end.

(** ** Currency *)

Definition startswith (s p : pystr) : bool := bool_decide (take (length p) s = p).
Definition endswith (s p : pystr) : bool :=
  (zlen p <=? zlen s) && bool_decide (zdrop (zlen s - zlen p) s = p).

(** The sign style: the body without its sign, and whether there was one. *)
Definition currency_body (style : SignStyle) (raw : pystr) : pystr * bool :=
  match style with
  | leading_minus => if startswith raw (py "-") then (drop 1 raw, true) else (raw, false)
  | accounting_parentheses =>
      if startswith raw (py "(") && endswith raw (py ")")
      then (removelast (drop 1 raw), true) else (raw, false)
  end.

(** The number without its token. *)
Definition currency_number (spec : CurrencySpec) (body : pystr) : option pystr :=
  match token_position spec with
  | prefix => if startswith body (token spec) then Some (drop (length (token spec)) body) else None
  | suffix =>
      if endswith body (token spec) then Some (ztake (zlen body - zlen (token spec)) body) else None
  end.

Definition parse_currency (spec : CurrencySpec) (raw : cell) : result CastOutcome :=
  let bad := DECLARED_CURRENCY_INVALID in
  match raw with
  | VStr raw =>
      if zlen raw >? MAX_TEXT then fail bad
      else
        let '(body, negative) := currency_body (sign_style spec) raw in
        match currency_number spec body with
        | None => fail bad
        | Some number =>
            match _grouped_digits (cur_num spec) number with
            | None => fail bad
            | Some (whole, frac) => _from_parts (cur_num spec) negative whole frac bad bad
            end
        end
  | _ => fail bad
  end.

Definition format_currency (spec : CurrencySpec) (value : cell) : result CastOutcome :=
  let n := cur_num spec in
  match unscale value (scale n) (precision n) with
  | inr reason => fail reason
  | inl (unscaled, negative) =>
      let number := render_number unscaled (scale n) (radix n) (group n) in
      let body := match token_position spec with
                  | prefix => token spec ++ number
                  | suffix => number ++ token spec
                  end in
      succeed (VStr (if negative : bool then
                       match sign_style spec with
                       | leading_minus => py "-" ++ body
                       | accounting_parentheses => py "(" ++ body ++ py ")"
                       end
                     else body))
  end.

(** ** Digit strings of a fixed width *)

Lemma digit_chars_app l k : digit_chars (l ++ k) = digit_chars l ++ digit_chars k.
Proof. apply fmap_app. Qed.

Lemma length_digit_chars l : length (digit_chars l) = length l.
Proof. apply length_fmap. Qed.

Lemma digit_chars_digits l : Forall (in_radix 10) l -> forallb is_digit (digit_chars l) = true.
Proof.
  intros H. apply forallb_forall. intros c (d & -> & Hd)%list_elem_of_In%list_elem_of_fmap.
  rewrite list.Forall_forall in H. specialize (H d Hd). unfold in_radix, is_digit in *. lia.
Qed.

Lemma pos_val_zeros r n l : pos_val r (replicate n 0 ++ l) = pos_val r l.
Proof. rewrite pos_val_app. induction n as [|n IH]; cbn in *; [done|]. unfold pos_val in *. cbn in *. exact IH. Qed.

Lemma str_int_digits u : 0 <= u -> str_int u = digit_chars (dec_digits u).
Proof. intros. unfold str_int. by replace (u <? 0) with false by lia. Qed.

(** The decimal text of a value below [10^w] has at most [w] characters. *)
Lemma str_int_width u w : 0 <= u < 10 ^ w -> 1 <= w -> 1 <= zlen (str_int u) <= w.
Proof.
  intros Hu Hw. rewrite str_int_digits by lia. unfold zlen. rewrite length_digit_chars.
  destruct (dec_digits_spec u) as [_ _ Hp Hm]; [lia|]. unfold zlen in *.
  destruct Hm as [Hm|Hm]; [lia|].
  assert (Z.of_nat (length (dec_digits u)) - 1 < w) by (apply (Z.pow_lt_mono_r_iff 10); lia). lia.
Qed.

(** Zero-padding to [w] gives the [w] decimal digits. *)
Lemma rjust_digits u w :
  0 <= u < 10 ^ w -> 1 <= w -> rjust (str_int u) w 48 = digit_chars (pos_digits 10 (Z.to_nat w) u).
Proof.
  intros Hu Hw. pose proof (str_int_width u w Hu Hw) as Hlen. rewrite str_int_digits in * by lia.
  unfold rjust, zlen in *. rewrite length_digit_chars in *.
  destruct (dec_digits_spec u) as [Hv Hr _ _]; [lia|].
  set (l := dec_digits u) in *. set (n := Z.to_nat (w - Z.of_nat (length l))).
  assert (Hz : replicate n 48 = digit_chars (replicate n 0)) by (unfold digit_chars; by rewrite fmap_replicate).
  rewrite Hz, <- digit_chars_app. f_equal. apply (pos_val_inj 10); [lia| |by apply pos_digits_range| |].
  - apply Forall_app. split; [|done]. apply Forall_replicate. unfold in_radix. lia.
  - rewrite length_app, length_replicate, length_pos_digits. unfold n. lia.
  - rewrite pos_val_zeros, Hv, pos_val_digits_small; [done|lia|]. by rewrite Z2Nat.id by lia.
Qed.

Lemma int_digits_pos l : int_digits (digit_chars l) = pos_val 10 l.
Proof. apply int_digits_chars. Qed.

Lemma pos_digits_split r m n x :
  0 < r -> pos_digits r (m + n) x = pos_digits r m (x / r ^ Z.of_nat n) ++ pos_digits r n x.
Proof.
  intros Hr. revert x. induction n as [|n IH]; intros x.
  - rewrite Nat.add_0_r, app_nil_r. cbn. by rewrite Z.div_1_r.
  - rewrite Nat.add_succ_r. cbn [pos_digits]. rewrite IH, <- app_assoc. do 2 f_equal.
    rewrite Nat2Z.inj_succ, Z.pow_succ_r, Z.div_div by lia. done.
Qed.

(** ** Numbers as rendered *)

(** What [render_number] writes: the whole and fraction digits of the value. *)
Record rendered (u scale : Z) (whole frac : pystr) : Prop := {
  rd_value : int_digits (whole ++ frac) = u;
  rd_frac : zlen frac = scale;
  rd_pos : 1 <= zlen whole;
  rd_digits : forallb is_digit (whole ++ frac) = true;
  rd_lead : whole = py "0" \/ ungrouped_lexeme whole = true;
}.

Lemma ungrouped_digits c l :
  in_radix 10 c -> c <> 0 -> Forall (in_radix 10) l -> ungrouped_lexeme (digit_chars (c :: l)) = true.
Proof.
  intros Hc H0 Hl. change (digit_chars (c :: l)) with (48 + c :: digit_chars l). cbn [ungrouped_lexeme].
  rewrite digit_chars_digits by done. unfold is_nonzero_digit, in_radix in *. lia.
Qed.

(** The decimal digits of a positive number start with a non-zero one. *)
Lemma dec_digits_lead u : 0 < u -> exists c l, dec_digits u = c :: l /\ c <> 0.
Proof.
  intros Hu. destruct (dec_digits_spec u) as [Hv Hr Hp Hm]; [lia|].
  destruct (dec_digits u) as [|c l]; [unfold zlen in Hp; cbn in Hp; lia|].
  exists c, l. split; [done|]. intros ->.
  change (0 :: l) with (replicate 1 0 ++ l) in Hv. rewrite pos_val_zeros in Hv.
  apply Forall_cons_iff in Hr as [_ Hr]. pose proof (pos_val_bound 10 l ltac:(lia) Hr) as Hb.
  rewrite Hv, zlen_cons in *. destruct Hm as [Hm|Hm].
  - replace (zlen l) with 0 in Hb by lia. cbn in Hb. lia.
  - replace (1 + zlen l - 1) with (zlen l) in Hm by lia. lia.
Qed.

Lemma render_parts u scale :
  0 <= u -> 0 <= scale ->
  let digits := rjust (str_int u) (scale + 1) 48 in
  rendered u scale (ztake (zlen digits - scale) digits) (zdrop (zlen digits - scale) digits).
Proof.
  intros Hu Hs digits.
  assert (Hw : exists w, scale + 1 <= w /\ u < 10 ^ w /\ digits = digit_chars (pos_digits 10 (Z.to_nat w) u) /\
               (w = scale + 1 \/ exists c l, pos_digits 10 (Z.to_nat w) u = c :: l /\ c <> 0)).
  { destruct (Z_lt_ge_dec u (10 ^ (scale + 1))) as [Hlt|Hge].
    - exists (scale + 1). split_and!; [lia|done| |by left]. apply rjust_digits; lia.
    - destruct (dec_digits_spec u Hu) as [Hv Hr Hp Hm].
      set (w := zlen (dec_digits u)) in *. pose proof (pos_val_bound 10 _ ltac:(lia) Hr) as Hb.
      rewrite Hv in Hb. fold w in Hb.
      assert (scale + 1 < w) by (apply (Z.pow_lt_mono_r_iff 10); lia).
      assert (pos_digits 10 (Z.to_nat w) u = dec_digits u) as Heq.
      { pose proof (pos_digits_val 10 (dec_digits u) ltac:(lia) Hr) as Hd. rewrite Hv in Hd.
        unfold w, zlen. by rewrite Nat2Z.id. }
      exists w. split_and!; [lia|lia| |].
      + rewrite Heq. unfold digits, rjust. rewrite str_int_digits by done.
        replace (scale + 1 - zlen (digit_chars (dec_digits u))) with (scale + 1 - w)
          by (unfold w, zlen; by rewrite length_digit_chars).
        replace (Z.to_nat (scale + 1 - w)) with 0%nat by lia. done.
      + right. rewrite Heq. apply dec_digits_lead.
        pose proof (Z.pow_pos_nonneg 10 (scale + 1)). lia. }
  destruct Hw as (w & Hsw & Huw & Hd & Hlead). rewrite Hd in *.
  set (n := Z.to_nat scale). set (m := Z.to_nat (w - scale)).
  assert (Hmn : Z.to_nat w = (m + n)%nat) by lia.
  replace (zlen (digit_chars _) - scale) with (Z.of_nat m)
    by (unfold zlen; rewrite length_digit_chars, length_pos_digits; lia).
  rewrite Hmn in *. rewrite pos_digits_split in * by lia.
  set (hi := pos_digits 10 m _) in *. set (low := pos_digits 10 n u) in *.
  assert (length hi = m /\ length low = n) as [Hhi Hlo] by (split; apply length_pos_digits).
  rewrite digit_chars_app, ztake_app, zdrop_app
    by (unfold zlen; rewrite length_digit_chars; lia).
  assert (Hrh : Forall (in_radix 10) hi) by (by apply pos_digits_range).
  assert (Hrl : Forall (in_radix 10) low) by (by apply pos_digits_range).
  constructor.
  - rewrite <- digit_chars_app, int_digits_pos. unfold hi, low. rewrite <- pos_digits_split by lia.
    apply pos_val_digits_small; [lia|]. replace (Z.of_nat (m + n)) with w by lia. lia.
  - unfold zlen. rewrite length_digit_chars. lia.
  - unfold zlen. rewrite length_digit_chars. lia.
  - rewrite <- digit_chars_app. apply digit_chars_digits. by apply Forall_app.
  - destruct hi as [|c l]; [cbn in Hhi; lia|]. apply Forall_cons_iff in Hrh as [Hc Hl].
    destruct Hlead as [->|(c' & l' & [= <- _] & Hne)].
    + assert (l = []) as -> by (apply nil_length_inv; cbn in Hhi; lia).
      destruct (decide (c = 0)) as [->|Hc0]; [by left|right; by apply ungrouped_digits].
    + right. by apply ungrouped_digits.
Qed.

(** ** Grouping *)

Lemma valid_separator_not_digit c : valid_separator c = true -> is_digit c = false /\ is_sign c = false.
Proof.
  unfold valid_separator, is_digit, is_sign. intros H. bool_prop.
  split.
  - destruct ((48 <=? c) && (c <=? 57)) eqn:E; [|done]. bool_prop. exfalso.
    match goal with H : c ∉ _ |- _ => apply H end.
    assert (c ∈ (Z.of_nat <$> seq 48 10)) as Hc.
    { apply list_elem_of_fmap. exists (Z.to_nat c). split; [lia|]. apply elem_of_seq. lia. }
    change (py "0123456789+-() ") with ((Z.of_nat <$> seq 48 10) ++ [43; 45; 40; 41; 32]).
    apply elem_of_app. by left.
  - destruct ((c =? 43) || (c =? 45)) eqn:E; [|done]. exfalso.
    match goal with H : c ∉ _ |- _ => apply H end.
    change (py "0123456789+-() ") with ((Z.of_nat <$> seq 48 10) ++ [43; 45; 40; 41; 32]).
    apply elem_of_app. right. apply orb_true_iff in E as [E|E]; apply Z.eqb_eq in E; subst; set_solver.
Qed.

Lemma join_threes_spec g k s :
  length s = (3 * k)%nat -> forallb is_digit s = true -> is_digit g = false ->
  triples g (join_threes g s) = true /\ List.filter (fun c => negb (c =? g)) (join_threes g s) = s /\
  (k <> 0%nat -> forallb is_digit (join_threes g s) = false) /\
  length (join_threes g s) = (4 * k)%nat.
Proof.
  revert s. induction k as [|k IH]; intros s Hl Hd Hg.
  - apply nil_length_inv in Hl as ->. split_and!; done.
  - destruct s as [|a [|b [|c s]]]; cbn in Hl; try lia. cbn [forallb] in Hd. bool_prop.
    destruct (IH s) as (Ht & Hf & _ & Hlen); [lia|done|done|].
    assert (Hne : forall d, is_digit d = true -> negb (d =? g) = true).
    { intros d Hd. apply negb_true_iff, Z.eqb_neq. intros ->. congruence. }
    cbn [join_threes triples List.filter forallb length]. rewrite Z.eqb_refl, Hg, Ht, Hf, Hlen, !Hne by done.
    split_and!; [|done|done|lia].
    repeat match goal with H : is_digit _ = true |- _ => rewrite H; clear H end. done.
Qed.

Lemma filter_no_sep g s :
  forallb is_digit s = true -> is_digit g = false -> List.filter (fun c => negb (c =? g)) s = s.
Proof.
  induction s as [|c s IH]; intros Hd Hg; [done|]. cbn [forallb] in Hd. bool_prop. cbn [List.filter].
  replace (negb (c =? g)) with true by (symmetry; apply negb_true_iff, Z.eqb_neq; intros ->; congruence).
  by rewrite IH.
Qed.

Lemma head_digits s :
  forallb is_digit s = true -> forall n, forallb is_digit (take n s) = true /\ forallb is_digit (drop n s) = true.
Proof.
  intros H n. rewrite <- (take_drop n s), forallb_app in H. by apply andb_true_iff in H.
Qed.

Lemma grouped_head g h tl :
  1 <= zlen h <= 3 -> ungrouped_lexeme h = true -> triples g tl = true -> forallb is_digit h = true ->
  grouped_lexeme g (h ++ tl) = true.
Proof.
  intros Hl Hu Ht Hd. destruct h as [|c [|a [|b [|d h]]]]; unfold zlen in Hl; cbn in Hl; try lia;
    cbn [ungrouped_lexeme forallb] in *; bool_prop; cbn [app grouped_lexeme];
    repeat match goal with H : ?x = true |- context [?x] => rewrite H end; by rewrite ?orb_true_r.
Qed.

Lemma ungrouped_take k s : 1 <= k -> ungrouped_lexeme s = true -> ungrouped_lexeme (ztake k s) = true.
Proof.
  intros Hk Hs. unfold ztake. destruct s as [|c s]; [done|].
  destruct (Z.to_nat k) as [|n] eqn:E; [lia|]. cbn [take ungrouped_lexeme] in *. bool_prop.
  apply andb_true_iff. split; [done|]. by apply head_digits.
Qed.

(** What grouping writes reads back: it is a canonical lexeme of the whole part
    and dropping the separators gives the digits. *)
Lemma group_spec whole g :
  (whole = py "0" \/ ungrouped_lexeme whole = true) -> forallb is_digit whole = true ->
  is_digit g = false ->
  let s := _group whole (Some g) in
  whole_lexeme (Some g) s = true /\ (ungrouped_lexeme s && (zlen s >? 3)) = false /\
  List.filter (fun c => negb (c =? g)) s = whole /\
  zlen s = zlen whole + (zlen whole - 1) / 3.
Proof.
  intros Hlead Hd Hg s. unfold s, _group. destruct (Z.leb_spec (zlen whole) 3) as [Hle|Hgt].
  - replace (zlen whole >? 3) with false by lia. rewrite andb_false_r, filter_no_sep by done.
    assert (1 <= zlen whole) by (destruct Hlead as [->|H]; [done|destruct whole; [done|rewrite zlen_cons; pose proof (zlen_nonneg whole); lia]]).
    replace ((zlen whole - 1) / 3) with 0 by (symmetry; apply Z.div_small; lia).
    split_and!; [|done|done|lia]. unfold whole_lexeme.
    destruct Hlead as [ -> | -> ]; [done|apply orb_true_r].
  - set (head := if zlen whole mod 3 =? 0 then 3 else zlen whole mod 3).
    pose proof (Z.mod_pos_bound (zlen whole) 3). pose proof (Z.div_mod (zlen whole) 3).
    assert (Hh : 1 <= head <= 3 /\ (3 | zlen whole - head)).
    { unfold head. destruct (Z.eqb_spec (zlen whole mod 3) 0); (split; [lia|]).
      - exists (zlen whole / 3 - 1). lia.
      - exists (zlen whole / 3). lia. }
    destruct Hh as [Hh [k Hk]].
    destruct Hlead as [->|Hlead]; [cbn in Hgt; unfold zlen in Hgt; cbn in Hgt; lia|].
    destruct (head_digits whole Hd (Z.to_nat head)) as [Hdt Hdd].
    destruct (join_threes_spec g (Z.to_nat k) (zdrop head whole)) as (Ht & Hf & Hn & Hl); [|done|done|].
    { pose proof (zlen_zdrop head whole). unfold zlen in *. lia. }
    pose proof (zlen_ztake head whole ltac:(lia)) as Hlt.
    assert (Hg1 : grouped_lexeme g (ztake head whole ++ join_threes g (zdrop head whole)) = true).
    { apply grouped_head; [lia| |done|done]. apply ungrouped_take; [lia|done]. }
    split_and!.
    + unfold whole_lexeme. rewrite Hg1, orb_true_r. done.
    + apply andb_false_iff. left. unfold ztake in *.
      destruct (take (Z.to_nat head) whole) as [|c t] eqn:E; [unfold zlen in Hlt; cbn in Hlt; lia|].
      cbn [app ungrouped_lexeme]. rewrite forallb_app, Hn by lia. by rewrite !andb_false_r.
    + rewrite List.filter_app, Hf, filter_no_sep by done. apply ztake_zdrop.
    + rewrite zlen_app, Hlt. unfold zlen at 1. rewrite Hl.
      assert ((zlen whole - 1) / 3 = k) as ->; [|lia].
      symmetry. apply (Z.div_unique _ _ _ (head - 1)); lia.
Qed.

(** ** Rendering reads back *)

(** A text that starts and ends with a digit. *)
Definition digit_ends (s : pystr) : Prop :=
  (exists c s', s = c :: s' /\ is_digit c = true) /\ (exists c s', s = s' ++ [c] /\ is_digit c = true).

Lemma digit_ends_all s : s <> [] -> forallb is_digit s = true -> digit_ends s.
Proof.
  intros Hne Hd. split.
  - destruct s as [|c s]; [done|]. cbn in Hd. bool_prop. by exists c, s.
  - destruct s as [|c s _] using rev_ind; [done|]. rewrite forallb_app in Hd. cbn in Hd. bool_prop. by exists c, s.
Qed.

Lemma digit_ends_app s m t : digit_ends s -> digit_ends t -> digit_ends (s ++ m ++ t).
Proof.
  intros [(c & s' & -> & Hc) _] [_ (d & t' & -> & Hd)]. split.
  - by exists c, (s' ++ m ++ t' ++ [d]).
  - exists d, ((c :: s') ++ m ++ t'). by rewrite !app_assoc.
Qed.

Lemma join_threes_ends g k s :
  length s = (3 * k)%nat -> k <> 0%nat -> forallb is_digit s = true ->
  exists c s', join_threes g s = s' ++ [c] /\ is_digit c = true.
Proof.
  revert s. induction k as [|k IH]; intros s Hl Hk Hd; [done|].
  destruct s as [|a [|b [|c s]]]; cbn in Hl; try lia. cbn [forallb] in Hd. bool_prop.
  destruct k as [|k].
  - assert (s = []) as -> by (apply nil_length_inv; lia). by exists c, [g; a; b].
  - destruct (IH s) as (e & s' & Heq & He); [lia|done|done|]. cbn [join_threes]. rewrite Heq.
    by exists e, (g :: a :: b :: c :: s').
Qed.

Lemma group_ends whole g :
  whole <> [] -> forallb is_digit whole = true -> digit_ends (_group whole (Some g)).
Proof.
  intros Hne Hd. unfold _group. destruct (Z.leb_spec (zlen whole) 3); [by apply digit_ends_all|].
  set (head := if zlen whole mod 3 =? 0 then 3 else zlen whole mod 3).
  pose proof (Z.mod_pos_bound (zlen whole) 3). pose proof (Z.div_mod (zlen whole) 3).
  assert (Hh : 1 <= head <= 3 /\ exists k, zlen whole - head = k * 3).
  { unfold head. destruct (Z.eqb_spec (zlen whole mod 3) 0); (split; [lia|]).
    - exists (zlen whole / 3 - 1). lia.
    - exists (zlen whole / 3). lia. }
  destruct Hh as [Hh [k Hk]]. destruct (head_digits whole Hd (Z.to_nat head)) as [Hdt Hdd].
  pose proof (zlen_ztake head whole ltac:(lia)) as Hlt. pose proof (zlen_zdrop head whole ltac:(lia)) as Hld.
  destruct (join_threes_ends g (Z.to_nat k) (zdrop head whole)) as (c & s' & -> & Hc);
    [unfold zlen in *; lia|lia|done|].
  split.
  - assert (ztake head whole <> []) as Hz by (intros Hz; rewrite Hz in Hlt; unfold zlen in Hlt; cbn in Hlt; lia).
    destruct (digit_ends_all _ Hz Hdt) as [(d & t & -> & Hd') _]. by exists d, (t ++ s' ++ [c]).
  - exists c, (ztake head whole ++ s'). by rewrite app_assoc.
Qed.

(** Reading the rendering of [u] gives its digits back. *)
Record render_ok (spec : NumSpec) (u : Z) (text whole frac : pystr) : Prop := {
  ro_parts : _grouped_digits spec text = Some (whole, frac);
  ro_rendered : rendered u (scale spec) whole frac;
  ro_length : zlen text = zlen whole + match group spec with Some _ => (zlen whole - 1) / 3 | None => 0 end +
                          (if scale spec =? 0 then 0 else scale spec + 1);
  ro_ends : digit_ends text;
}.

Lemma render_number_ok spec u :
  valid_num spec = true -> 0 <= u ->
  exists whole frac, render_ok spec u (render_number u (scale spec) (radix spec) (group spec)) whole frac /\
    (group spec = None ->
     render_number u (scale spec) (radix spec) (group spec) =
       whole ++ (if scale spec =? 0 then [] else radix spec :: frac)).
Proof.
  intros Hv Hu. unfold valid_num, valid_precision, valid_separators in Hv. bool_prop.
  destruct (render_parts u (scale spec)) as [Hval Hfl Hpos Hdig Hlead]; [done|done|].
  unfold render_number. set (digits := rjust (str_int u) (scale spec + 1) 48) in *.
  set (whole := ztake _ digits) in *. set (frac := zdrop _ digits) in *. clearbody whole frac. clear digits.
  exists whole, frac.
  rewrite forallb_app in Hdig. apply andb_true_iff in Hdig as [Hdw Hdf].
  assert (Hwne : whole <> []) by (intros ->; unfold zlen in Hpos; cbn in Hpos; lia).
  set (tail := if scale spec =? 0 then [] else radix spec :: frac).
  set (G := _group whole (group spec)).
  assert (Htl : zlen tail = if scale spec =? 0 then 0 else scale spec + 1).
  { unfold tail. destruct (scale spec =? 0); [done|]. rewrite zlen_cons. lia. }
  assert (HG : whole_lexeme (group spec) G = true /\
    (match group spec with
     | Some g => (ungrouped_lexeme G && (zlen G >? 3)) = false /\ List.filter (fun c => negb (c =? g)) G = whole
     | None => G = whole end) /\
    zlen G = zlen whole + match group spec with Some _ => (zlen whole - 1) / 3 | None => 0 end /\ digit_ends G).
  { unfold G. destruct (group spec) as [g|].
    - bool_prop. destruct (valid_separator_not_digit g) as [Hg _]; [done|].
      destruct (group_spec whole g Hlead Hdw Hg) as (? & ? & ? & ?). split_and!; try done. by apply group_ends.
    - split_and!; [|done|cbn; lia|by apply digit_ends_all]. cbn. unfold digits_lexeme.
      by rewrite bool_decide_false. }
  destruct HG as (Hlex & Hback & HlG & Hends).
  split; [constructor|].
  - unfold _grouped_digits, number_match. rewrite zlen_app, Htl.
    set (flen := if scale spec =? 0 then 0 else scale spec + 1) in *.
    replace (zlen G + flen <? flen) with false by (pose proof (zlen_nonneg G); lia).
    replace (zlen G + flen - flen) with (zlen G) by lia.
    rewrite ztake_app, zdrop_app, Hlex by done. cbn [andb].
    assert (Htok : match tail with
      | [] => scale spec =? 0
      | c :: ds => negb (scale spec =? 0) && (c =? radix spec) && forallb is_digit ds end = true /\ drop 1 tail = frac).
    { unfold tail. destruct (Z.eqb_spec (scale spec) 0) as [E|E].
      - split; [done|]. rewrite E in Hfl. apply zlen_zero in Hfl as ->. done.
      - by rewrite Z.eqb_refl, Hdf. }
    destruct Htok as [-> ->]. destruct (group spec) as [g|]; [destruct Hback as [-> ->]; done|by rewrite Hback].
  - constructor; try done. rewrite forallb_app. by rewrite Hdw, Hdf.
  - rewrite zlen_app, Htl, HlG. done.
  - unfold tail. destruct (Z.eqb_spec (scale spec) 0) as [E|E]; [by rewrite app_nil_r|].
    change (radix spec :: frac) with ([radix spec] ++ frac). apply digit_ends_app; [done|].
    apply digit_ends_all; [|done]. intros ->. unfold zlen in Hfl. cbn in Hfl. lia.
  - intros HN. rewrite HN in Hback. by rewrite Hback.
Qed.

(** ** Decimals and their magnitudes *)

(** A cell as Python can hold it: a coefficient is a natural number. *)
Definition cell_ok (v : cell) : Prop :=
  match v with VDec (DFinite _ coefficient _) => 0 <= coefficient | _ => True end.

Lemma rescale_bound c e s p u : 0 <= c -> rescale c e s p = inl u -> 0 <= u < 10 ^ p.
Proof.
  intros Hc. unfold rescale. destruct (Z.geb_spec (e + s) 0).
  - case_match eqn:E; [discriminate|]. intros [= <-]. bool_prop.
    split; [|lia]. apply Z.mul_nonneg_nonneg; [done|]. apply Z.pow_nonneg. lia.
  - case_match; [discriminate|]. case_match eqn:E; [discriminate|]. intros [= <-]. bool_prop.
    split; [|lia]. apply Z.div_pos; [done|]. apply Z.pow_pos_nonneg; lia.
Qed.

Lemma unscale_parts_inv sign c e s p u neg :
  unscale_parts sign c e s p = inl (u, neg) -> rescale c e s p = inl u /\ neg = sign.
Proof.
  unfold unscale_parts. case_match; [discriminate|]. destruct (rescale c e s p); [|discriminate].
  by intros [= -> ->].
Qed.

Lemma unscale_bound v s p u neg : cell_ok v -> unscale v s p = inl (u, neg) -> 0 <= u < 10 ^ p.
Proof.
  intros Hv H. destruct v as [| |n| |[sign c e|]| |]; try discriminate; cbn [unscale] in H;
    apply unscale_parts_inv in H as [H _]; (eapply rescale_bound; [|exact H]).
  - lia.
  - exact Hv.
Qed.

(** Reading an exact decimal at its own scale. *)
Lemma unscale_scaled u s p neg :
  valid_precision p s = true -> 0 <= u < 10 ^ p -> unscale (VDec (DFinite neg u (- s))) s p = inl (u, neg).
Proof.
  unfold valid_precision, MAX_PRECISION. intros Hp Hu. bool_prop.
  cbn [unscale]. unfold unscale_parts, rescale, MAX_TEXT.
  assert (zlen (dec_digits u) <= p).
  { pose proof (str_int_width u p Hu ltac:(lia)) as Hw. rewrite str_int_digits in Hw by lia.
    unfold zlen in *. rewrite length_digit_chars in Hw. lia. }
  replace (zlen (dec_digits u) >? 2 * 128) with false by lia.
  replace (Z.abs (- s) >? 2 * 128) with false by lia. cbn [orb].
  replace (- s + s) with 0 by lia. cbn [Z.geb Z.compare]. rewrite Z.pow_0_r, Z.mul_1_r.
  by replace (u >=? 10 ^ p) with false by lia.
Qed.

Lemma scaled_ok u s p neg : valid_precision p s = true -> u < 10 ^ p -> scaled u s neg = Ok (DFinite neg u (- s)).
Proof.
  unfold valid_precision, MAX_PRECISION, scaled. intros Hp Hu. bool_prop.
  assert (10 ^ p <= 10 ^ 38) by (apply Z.pow_le_mono_r; lia).
  assert (10 ^ 38 < 10 ^ 80) by (apply Z.pow_lt_mono_r; lia).
  by replace (u <? 10 ^ 80) with true by lia.
Qed.

Lemma valid_num_precision spec : valid_num spec = true -> valid_precision (precision spec) (scale spec) = true.
Proof. unfold valid_num. intros H. by bool_prop. Qed.

Lemma from_parts_rendered spec u whole frac neg l o :
  valid_num spec = true -> rendered u (scale spec) whole frac -> u < 10 ^ precision spec ->
  _from_parts spec neg whole frac l o = succeed (VDec (DFinite neg u (- scale spec))).
Proof.
  intros Hv [Hval Hfl _ _ _] Hu. unfold _from_parts. rewrite Hfl.
  replace (scale spec >? scale spec) with false by lia.
  unfold ljust. replace (scale spec - zlen frac) with 0 by lia. cbn [Z.to_nat replicate]. rewrite app_nil_r, Hval.
  replace (u >=? 10 ^ precision spec) with false by lia.
  rewrite (scaled_ok _ _ (precision spec)); [done|by apply valid_num_precision|done].
Qed.

(** ** Widths *)

Lemma rendered_width u s p whole frac :
  0 <= s -> rendered u s whole frac -> u < 10 ^ p -> zlen whole <= Z.max (p - s) 1.
Proof.
  intros Hs [Hval Hfl Hpos Hdig Hlead] Hu. destruct Hlead as [->|Hlead]; [unfold zlen; cbn; lia|].
  destruct whole as [|c whole]; [done|]. cbn [ungrouped_lexeme] in Hlead. apply andb_true_iff in Hlead as [Hc _].
  assert (10 ^ (zlen whole + s) <= u) as Hle.
  { rewrite <- Hval. unfold int_digits. rewrite <- app_comm_cons, fmap_cons.
    set (l := (fun c => c - 48) <$> (whole ++ frac)).
    change (c - 48 :: l) with ([c - 48] ++ l). rewrite pos_val_app.
    assert (Hl : zlen l = zlen whole + s) by (unfold l, zlen in *; rewrite length_fmap, length_app; lia).
    rewrite Hl. assert (0 <= pos_val 10 l) as H0.
    { apply pos_val_bound; [lia|]. apply Forall_fmap, list.Forall_forall. intros d Hd. unfold compose.
      cbn [app forallb] in Hdig. apply andb_true_iff in Hdig as [_ Hdig].
      rewrite forallb_forall in Hdig. apply list_elem_of_In in Hd. specialize (Hdig d Hd).
      unfold is_digit, in_radix in *. lia. }
    unfold is_nonzero_digit in Hc. replace (pos_val 10 [c - 48]) with (c - 48) by (unfold pos_val; cbn; lia).
    assert (0 < 10 ^ (zlen whole + s)) by (apply Z.pow_pos_nonneg; pose proof (zlen_nonneg whole); lia).
    nia. }
  assert (zlen whole + s < p).
  { apply (Z.pow_lt_mono_r_iff 10); [lia| |lia]. pose proof (zlen_nonneg (A:=Z) whole).
    destruct (Z_lt_ge_dec p 0) as [Hn|]; [|lia]. rewrite (Z.pow_neg_r 10 p) in Hu by lia.
    pose proof (Z.pow_pos_nonneg 10 (zlen whole + s)). lia. }
  rewrite zlen_cons. lia.
Qed.

(** The longest text of a number in a shape. *)
Definition number_width (spec : NumSpec) : Z :=
  let whole := Z.max (precision spec - scale spec) 1 in
  whole + (if scale spec =? 0 then 0 else scale spec + 1) +
  match group spec with Some _ => (whole - 1) / 3 | None => 0 end.

Lemma render_width spec u text whole frac :
  valid_num spec = true -> u < 10 ^ precision spec -> render_ok spec u text whole frac ->
  1 <= zlen text <= number_width spec /\ number_width spec <= 90.
Proof.
  intros Hv Hu [_ Hr Hl _]. pose proof (valid_num_precision _ Hv) as Hp.
  unfold valid_precision, MAX_PRECISION in Hp. bool_prop.
  assert (Hs : 0 <= scale spec) by done. pose proof (rendered_width _ _ _ _ _ Hs Hr Hu) as Hw. pose proof (rd_pos _ _ _ _ Hr).
  unfold number_width. 
  assert (1 <= Z.max (precision spec - scale spec) 1 <= 39 /\
          Z.max (precision spec - scale spec) 1 + scale spec <= 39) by lia.
  set (W := Z.max (precision spec - scale spec) 1) in *. clearbody W.
  assert ((zlen whole - 1) / 3 <= (W - 1) / 3) by (apply Z.div_le_mono; lia).
  assert (0 <= (zlen whole - 1) / 3) by (apply Z.div_pos; lia).
  assert ((W - 1) / 3 <= 12) by (assert ((W - 1) / 3 < 13) by (apply Z.div_lt_upper_bound; lia); lia).
  destruct (scale spec =? 0), (group spec); lia.
Qed.

(** ** Kernels read back what they write *)

Definition sign_text (negative : bool) : pystr := if negative then py "-" else [].

Lemma digit_not_sign c : is_digit c = true -> is_sign c = false.
Proof. unfold is_digit, is_sign. lia. Qed.

Lemma split_sign_text negative text :
  digit_ends text -> split_sign (sign_text negative ++ text) = (sign_text negative, text).
Proof.
  intros [(c & s & -> & Hc) _]. destruct negative; [done|]. cbn. by rewrite digit_not_sign.
Qed.

Lemma sign_text_neg negative : bool_decide (sign_text negative = py "-") = negative.
Proof. by destruct negative. Qed.

Lemma sign_text_length negative : 0 <= zlen (sign_text negative) <= 1.
Proof. destruct negative; unfold zlen; cbn; lia. Qed.

Lemma grouped_reads_back spec u negative :
  valid_num spec = true -> 0 <= u < 10 ^ precision spec ->
  parse_grouped spec (VStr (sign_text negative ++ render_number u (scale spec) (radix spec) (group spec))) =
  succeed (VDec (DFinite negative u (- scale spec))).
Proof.
  intros Hv Hu. destruct (render_number_ok spec u Hv ltac:(lia)) as (whole & frac & Hro & _).
  set (text := render_number _ _ _ _) in *. clearbody text.
  pose proof (render_width _ _ _ _ _ Hv (proj2 Hu) Hro) as Hw. destruct Hro as [Hparts Hr _ He].
  unfold parse_grouped, MAX_TEXT. rewrite zlen_app. pose proof (sign_text_length negative).
  replace (zlen (sign_text negative) + zlen text >? 128) with false by lia.
  rewrite split_sign_text by done. rewrite Hparts, sign_text_neg.
  apply from_parts_rendered; [done|done|lia].
Qed.

Lemma span_app p s t :
  forallb p s = true -> match t with c :: _ => p c = false | [] => True end -> span p (s ++ t) = (s, t).
Proof.
  induction s as [|c s IH]; intros Hs Ht; cbn [app].
  - destruct t as [|c t]; [done|]. cbn. by rewrite Ht.
  - cbn [forallb] in Hs. bool_prop. cbn [span]. rewrite H, IH by done. done.
Qed.

Lemma valid_plain p s : valid_precision p s = true -> valid_num (DecimalPlain p s) = true.
Proof. intros H. unfold valid_num. cbn [precision scale radix group DecimalPlain]. by rewrite H. Qed.

Lemma plain_reads_back p s u negative :
  valid_precision p s = true -> 0 <= u < 10 ^ p ->
  parse_plain (DecimalPlain p s) (VStr (sign_text negative ++ render_number u s 46 None)) =
  succeed (VDec (DFinite negative u (- s))).
Proof.
  intros Hp Hu. pose proof (valid_plain p s Hp) as Hv.
  destruct (render_number_ok (DecimalPlain p s) u Hv ltac:(lia)) as (whole & frac & Hro & Hshape).
  cbn [precision scale radix group DecimalPlain] in *. specialize (Hshape eq_refl).
  set (text := render_number _ _ _ _) in *. clearbody text.
  pose proof (render_width _ _ _ _ _ Hv (proj2 Hu) Hro) as Hw. destruct Hro as [_ Hr _ He].
  unfold parse_plain, MAX_TEXT. rewrite zlen_app. pose proof (sign_text_length negative).
  replace (zlen (sign_text negative) + zlen text >? 128) with false by lia.
  unfold plain_match. rewrite split_sign_text by done. rewrite Hshape.
  destruct Hr as [Hval Hfl Hpos Hdig Hlead]. cbn [scale DecimalPlain] in Hfl. pose proof Hdig as Hd2. rewrite forallb_app in Hd2.
  apply andb_true_iff in Hd2 as [Hdw Hdf].
  assert (Hw0 : whole <> []) by (intros ->; unfold zlen in Hpos; cbn in Hpos; lia).
  rewrite span_app; [|done|by destruct (s =? 0)]. rewrite bool_decide_false by done.
  assert (Hfp : _from_parts (DecimalPlain p s) negative whole frac DECLARED_DECIMAL_PRECISION_LOSS
      DECLARED_DECIMAL_OVERFLOW = succeed (VDec (DFinite negative u (- s))))
    by (apply (from_parts_rendered (DecimalPlain p s)); [done|by constructor|cbn; lia]).
  destruct (Z.eqb_spec s 0) as [E|E].
  - rewrite sign_text_neg. assert (frac = []) as -> by (apply zlen_zero; lia). exact Hfp.
  - unfold digits_lexeme. rewrite Hdf, (bool_decide_false (frac = []))
      by (intros ->; unfold zlen in Hfl; cbn in Hfl; lia).
    rewrite Z.eqb_refl. cbv beta iota delta [negb andb]. rewrite sign_text_neg. exact Hfp.
Qed.

(** What the contract requires of a currency token. *)
Definition token_ok (t : pystr) : Prop :=
  t <> [] /\ zlen t <= 32 /\ (40 ∉ t) /\ (41 ∉ t) /\ (45 ∉ t).

Definition valid_currency (spec : CurrencySpec) : Prop :=
  valid_num (cur_num spec) = true /\ token_ok (token spec).

Definition currency_text (spec : CurrencySpec) (u : Z) (negative : bool) : pystr :=
  let n := cur_num spec in
  let number := render_number u (scale n) (radix n) (group n) in
  let body := match token_position spec with prefix => token spec ++ number | suffix => number ++ token spec end in
  if negative then
    match sign_style spec with
    | leading_minus => py "-" ++ body
    | accounting_parentheses => py "(" ++ body ++ py ")"
    end
  else body.

Lemma startswith_app p s : startswith (p ++ s) p = true.
Proof. unfold startswith. by rewrite take_app_length, bool_decide_true. Qed.

Lemma endswith_app s p : endswith (s ++ p) p = true.
Proof.
  unfold endswith. rewrite zlen_app. pose proof (zlen_nonneg s).
  replace (zlen p <=? zlen s + zlen p) with true by lia.
  replace (zlen s + zlen p - zlen p) with (zlen s) by lia. by rewrite zdrop_app, bool_decide_true.
Qed.

Lemma startswith_one c d s : startswith (d :: s) [c] = (d =? c).
Proof.
  unfold startswith. cbn [take length]. destruct (Z.eqb_spec d c) as [->|Hne].
  - by rewrite bool_decide_true.
  - rewrite bool_decide_false; [done|]. by intros [= ->].
Qed.

(** The first character of a currency body is neither a minus nor a parenthesis. *)
Lemma currency_body_first spec number :
  token_ok (token spec) -> digit_ends number ->
  exists c s, match token_position spec with prefix => token spec ++ number | suffix => number ++ token spec end = c :: s
    /\ c <> 40 /\ c <> 45.
Proof.
  intros (Hne & _ & H40 & _ & H45) [(c & s & -> & Hc) _]. destruct (token_position spec).
  - destruct (token spec) as [|d t]; [done|]. exists d, (t ++ c :: s). split_and!; [done|set_solver|set_solver].
  - exists c, (s ++ token spec). unfold is_digit in Hc. split_and!; [done|lia|lia].
Qed.

Lemma currency_reads_back spec u negative :
  valid_currency spec -> 0 <= u < 10 ^ precision (cur_num spec) ->
  parse_currency spec (VStr (currency_text spec u negative)) =
  succeed (VDec (DFinite negative u (- scale (cur_num spec)))).
Proof.
  intros [Hv Ht] Hu. destruct (render_number_ok (cur_num spec) u Hv ltac:(lia)) as (whole & frac & Hro & _).
  unfold currency_text. set (number := render_number _ _ _ _) in *. clearbody number.
  pose proof (render_width _ _ _ _ _ Hv (proj2 Hu) Hro) as Hw. destruct Hro as [Hparts Hr _ He].
  destruct (currency_body_first spec number Ht He) as (c & s & Hb & Hc40 & Hc45).
  assert (Hn : currency_number spec match token_position spec with prefix => token spec ++ number | suffix => number ++ token spec end = Some number).
  { unfold currency_number. destruct (token_position spec).
    - by rewrite startswith_app, drop_app_length.
    - rewrite endswith_app, zlen_app. replace (zlen number + _ - _) with (zlen number) by lia.
      by rewrite ztake_app. }
  assert (Hbl : zlen match token_position spec with prefix => token spec ++ number | suffix => number ++ token spec end <= 122).
  { destruct Ht as (_ & Hl & _). destruct (token_position spec); rewrite zlen_app; lia. }
  set (body := match token_position spec with prefix => _ | suffix => _ end) in *. clearbody body.
  assert (Hcb : forall raw, currency_body (sign_style spec) raw = (body, negative) -> zlen raw <= 128 ->
    parse_currency spec (VStr raw) = succeed (VDec (DFinite negative u (- scale (cur_num spec))))).
  { intros raw Hraw Hl. unfold parse_currency, MAX_TEXT. replace (zlen raw >? 128) with false by lia.
    rewrite Hraw, Hn, Hparts. apply from_parts_rendered; [done|done|lia]. }
  assert (Hz : forall a l, zlen (A:=Z) (a :: l) = 1 + zlen l) by (intros; apply zlen_cons).
  destruct negative; apply Hcb.
  - destruct (sign_style spec).
    + done.
    + cbn [currency_body]. change (py "(" ++ body ++ py ")") with ((40 :: body) ++ [41]).
      change (py ")") with [41]. rewrite endswith_app. rewrite <- app_comm_cons. change (py "(") with [40].
      rewrite startswith_one, Z.eqb_refl. cbv beta iota delta [andb]. rewrite skipn_cons, drop_0.
      by rewrite removelast_last.
  - destruct (sign_style spec); cbn [py]; rewrite ?zlen_app; change (zlen (py "-")) with 1; change (zlen (py "(")) with 1;
      change (zlen (py ")")) with 1; lia.
  - rewrite Hb. unfold currency_body. change (py "-") with [45]. change (py "(") with [40].
    rewrite !startswith_one. replace (c =? 45) with false by lia. replace (c =? 40) with false by lia.
    by destruct (sign_style spec).
  - lia.
Qed.

(** ** Integers *)

Lemma int_bounds_widths signed w :
  valid_bit_width w = true ->
  let b := int_bounds signed w in - 2 ^ 63 <= b.1 <= 0 /\ 0 <= b.2 < 2 ^ 64 /\ - b.1 <= b.2 + 1.
Proof.
  intros H. unfold valid_bit_width, INTEGER_WIDTHS in H. bool_prop.
  repeat (apply elem_of_cons in H as [->|H]; [by destruct signed; vm_compute|]). by apply elem_of_nil in H.
Qed.

(** The text of an integer: its sign and the digits of its magnitude. *)
Lemma str_int_split v : str_int v = sign_text (v <? 0) ++ digit_chars (dec_digits (Z.abs v)).
Proof.
  unfold str_int. destruct (Z.ltb_spec v 0).
  - cbn [sign_text]. rewrite Z.abs_neq by lia. done.
  - by rewrite Z.abs_eq by lia.
Qed.

Lemma dec_digits_ends n : 0 <= n -> digit_ends (digit_chars (dec_digits n)) /\ forallb is_digit (digit_chars (dec_digits n)) = true.
Proof.
  intros Hn. destruct (dec_digits_spec n Hn) as [_ Hr Hp _].
  assert (forallb is_digit (digit_chars (dec_digits n)) = true) by (by apply digit_chars_digits).
  split; [|done]. apply digit_ends_all; [|done].
  by destruct (dec_digits n).
Qed.

Lemma lstrip_if_length p s : zlen (lstrip_if p s) <= zlen s.
Proof.
  induction s as [|c s IH]; cbn; [done|]. destruct (p c); rewrite ?zlen_cons; lia.
Qed.

Lemma lstrip_if_app p s t : forallb p s = true -> lstrip_if p (s ++ t) = lstrip_if p t.
Proof.
  induction s as [|c s IH]; intros H; [done|]. cbn [forallb] in H. bool_prop. cbn. by rewrite H, IH.
Qed.

Lemma lstrip_sign negative s : digit_ends s -> lstrip_if is_sign (sign_text negative ++ s) = s.
Proof.
  intros [(c & s' & -> & Hc) _]. rewrite lstrip_if_app by (by destruct negative).
  cbn. by rewrite digit_not_sign.
Qed.

(** Any zero-padded decimal text of an in-range integer parses to it. *)
Lemma integer_reads_back signed w v n :
  valid_bit_width w = true ->
  (int_bounds signed w).1 <= v <= (int_bounds signed w).2 ->
  let text := sign_text (v <? 0) ++ replicate n 48 ++ digit_chars (dec_digits (Z.abs v)) in
  zlen text <= MAX_TEXT -> parse_integer (IntegerAscii signed w) (VStr text) = succeed (VInt v).
Proof.
  intros Hw Hv text Hl. pose proof (int_bounds_widths signed w Hw) as Hb. cbv zeta in Hb.
  destruct (dec_digits_ends (Z.abs v)) as [He Hd]; [lia|].
  assert (Hz : replicate n 48 = digit_chars (replicate n 0)) by (unfold digit_chars; by rewrite fmap_replicate).
  set (ds := replicate n 48 ++ digit_chars (dec_digits (Z.abs v))) in *.
  assert (Hdd : forallb is_digit ds = true).
  { unfold ds. rewrite forallb_app, Hd, Hz, digit_chars_digits; [done|].
    apply Forall_replicate. unfold in_radix. lia. }
  assert (Hde : digit_ends ds).
  { apply digit_ends_all; [|done]. destruct He as [(c & s & Heq & _) _]. unfold ds. rewrite Heq. by destruct n. }
  unfold parse_integer. replace (zlen text >? MAX_TEXT) with false by lia.
  unfold int_lexeme, int_text, text. rewrite split_sign_text by done.
  assert (Hlex : digits_lexeme ds = true).
  { unfold digits_lexeme. rewrite Hdd, bool_decide_false; [done|]. intros E. rewrite E in Hde. by destruct Hde as [(?&?&?&?) _]. }
  cbn [snd]. rewrite Hlex. cbn [orb negb]. rewrite lstrip_sign by done.
  cbn [int_signed int_bit_width].
  assert (Hval : int_digits ds = Z.abs v).
  { unfold ds. rewrite Hz, <- digit_chars_app, int_digits_pos, pos_val_zeros. apply dec_digits_spec. lia. }
  destruct (int_bounds signed w) as [lo hi]. cbn [fst snd] in *.
  assert (Hsig : zlen (lstrip_if (Z.eqb 48) ds) <= zlen (str_int hi) + 1).
  { unfold ds. rewrite lstrip_if_app by (clear; induction n; [done|]; cbn [replicate forallb]; by rewrite IHn).
    etransitivity; [apply lstrip_if_length|]. rewrite <- str_int_digits by lia.
    assert (hi < 10 ^ zlen (str_int hi)) as Hhi.
    { pose proof (dec_digits_spec hi ltac:(lia)) as [Hvh Hrh _ _]. rewrite str_int_digits by lia.
      unfold zlen at 1. rewrite length_digit_chars. rewrite <- Hvh at 1. by apply pos_val_bound. }
    pose proof (zlen_nonneg (str_int hi)).
    apply str_int_width; [|lia]. rewrite Z.pow_add_r, Z.pow_1_r by lia. lia. }
  replace (zlen (lstrip_if (Z.eqb 48) ds) >? zlen (str_int hi) + 1) with false by lia.
  assert (Hit : (if bool_decide (sign_text (v <? 0) = [45]) then - int_digits ds else int_digits ds) = v).
  { rewrite Hval. destruct (Z.ltb_spec v 0); cbn [sign_text]; [rewrite bool_decide_true by done|rewrite bool_decide_false by done]; lia. }
  rewrite Hit. replace (lo <=? v) with true by lia. by replace (v <=? hi) with true by lia.
Qed.

(** What [format_integer] writes. *)
Lemma format_integer_text spec v text :
  format_integer spec (VInt v) = Ok (Success (VStr text)) ->
  (int_bounds (int_signed spec) (int_bit_width spec)).1 <= v <= (int_bounds (int_signed spec) (int_bit_width spec)).2 /\
  exists n, text = sign_text (v <? 0) ++ replicate n 48 ++ digit_chars (dec_digits (Z.abs v)) /\
    match spec with IntegerAscii _ _ => n = 0%nat | IntegerZeroPad _ _ w => zlen text = default 0 w end.
Proof.
  unfold format_integer, succeed, fail. destruct (int_bounds _ _) as [lo hi]. cbn [fst snd].
  destruct (negb ((lo <=? v) && (v <=? hi))) eqn:Eb; [discriminate|]. bool_prop. rewrite str_int_split.
  intros Hf. split; [lia|]. destruct spec as [sg w|sg w zw].
  - injection Hf as <-. by exists 0%nat.
  - assert (Hsp : (if v <? 0 then (py "-", drop 1 (sign_text (v <? 0) ++ digit_chars (dec_digits (Z.abs v))))
      else ([], sign_text (v <? 0) ++ digit_chars (dec_digits (Z.abs v)))) =
      (sign_text (v <? 0), digit_chars (dec_digits (Z.abs v)))) by (by destruct (v <? 0)).
    rewrite Hsp in Hf. clear Hsp.
    destruct (zlen (digit_chars (dec_digits (Z.abs v))) >? default 0 zw - zlen (sign_text (v <? 0))) eqn:E; [discriminate|].
    bool_prop. injection Hf as <-. eexists. split; [done|]. unfold rjust.
    rewrite !zlen_app, zlen_replicate by lia. lia.
Qed.

Lemma format_integer_no_raise spec v e : format_integer spec (VInt v) <> Err e.
Proof.
  unfold format_integer, succeed, fail. destruct (int_bounds _ _) as [lo hi]. case_match; [discriminate|].
  destruct spec; [discriminate|]. destruct (if v <? 0 then _ else _). by case_match.
Qed.

Lemma format_integer_shape spec v out : format_integer spec (VInt v) = Ok (Success out) -> exists text, out = VStr text.
Proof.
  unfold format_integer, succeed, fail. destruct (int_bounds _ _) as [lo hi]. case_match; [discriminate|].
  destruct spec; [intros [= <-]; eauto|]. destruct (if v <? 0 then _ else _). case_match; [discriminate|].
  intros [= <-]. eauto.
Qed.

(** The unpadded text of an in-range integer has at most 21 characters. *)
Lemma ascii_text_short signed w v :
  valid_bit_width w = true ->
  (int_bounds signed w).1 <= v <= (int_bounds signed w).2 ->
  zlen (sign_text (v <? 0) ++ replicate 0 48 ++ digit_chars (dec_digits (Z.abs v))) <= MAX_TEXT.
Proof.
  intros Hw Hv. pose proof (int_bounds_widths signed w Hw) as Hb. cbv zeta in Hb.
  cbn [replicate app]. rewrite zlen_app, <- str_int_digits by lia. pose proof (sign_text_length (v <? 0)).
  pose proof (str_int_width (Z.abs v) 20) as Hs. change (10 ^ 20) with 100000000000000000000 in Hs.
  change (2 ^ 63) with 9223372036854775808 in Hb. change (2 ^ 64) with 18446744073709551616 in Hb.
  unfold MAX_TEXT. lia.
Qed.

(** ** What the parsers accept *)

(** An exact decimal of a shape: at its scale, within its precision. *)
Definition shaped (p s : Z) (v : cell) : Prop :=
  exists negative u, v = VDec (DFinite negative u (- s)) /\ 0 <= u < 10 ^ p.

Lemma int_digits_nonneg s : forallb is_digit s = true -> 0 <= int_digits s.
Proof.
  intros H. unfold int_digits. apply pos_val_bound; [lia|]. apply Forall_fmap, list.Forall_forall.
  intros c Hc. unfold compose, in_radix. rewrite forallb_forall in H. apply list_elem_of_In in Hc.
  specialize (H c Hc). unfold is_digit in H. lia.
Qed.

Lemma from_parts_shaped spec negative whole frac l o v :
  forallb is_digit whole = true -> forallb is_digit frac = true ->
  _from_parts spec negative whole frac l o = Ok (Success v) -> shaped (precision spec) (scale spec) v.
Proof.
  intros Hw Hf H. unfold _from_parts, fail in H. destruct (zlen frac >? scale spec); [discriminate|].
  destruct (_ >=? _) eqn:E; [discriminate|]. bool_prop. unfold scaled in H.
  set (u := int_digits _) in *. destruct (u <? 10 ^ 80); [|discriminate]. injection H as <-.
  exists negative, u. split; [done|]. split; [|lia]. apply int_digits_nonneg. rewrite forallb_app, Hw.
  unfold ljust. rewrite forallb_app, Hf. cbn [andb]. induction (Z.to_nat _) as [|n IH]; [done|]. exact IH.
Qed.

Lemma span_spec p s : forallb p (span p s).1 = true.
Proof. induction s as [|c s IH]; [done|]. cbn. destruct (p c) eqn:E; [|done]. cbn. by rewrite E. Qed.

Lemma plain_match_digits s sign whole frac :
  plain_match s = Some (sign, whole, frac) -> forallb is_digit whole = true /\ forallb is_digit frac = true.
Proof.
  unfold plain_match. destruct (split_sign s) as [sg body]. pose proof (span_spec is_digit body) as Hs.
  destruct (span is_digit body) as [w rest]. cbn [fst] in Hs. destruct (bool_decide (w = [])); [discriminate|].
  destruct rest as [|c rest]; [by intros [= _ <- <-]|].
  destruct ((c =? 46) && digits_lexeme rest) eqn:E; [|discriminate]. intros [= _ <- <-].
  unfold digits_lexeme in E. bool_prop. done.
Qed.

Lemma triples_digits g s : triples g s = true -> forallb is_digit (List.filter (fun c => negb (c =? g)) s) = true.
Proof.
  revert s. fix IH 1. intros [|c [|a [|b [|d s]]]]; cbn [triples]; try discriminate; [done|]. intros H. bool_prop.
  specialize (IH s H0). subst c. cbn [List.filter]. rewrite Z.eqb_refl. cbn [negb].
  destruct (negb (a =? g)), (negb (b =? g)), (negb (d =? g)); cbn [forallb];
    repeat match goal with H : is_digit _ = true |- _ => rewrite H; clear H end; exact IH.
Qed.

Lemma filter_digit_cons g c s :
  is_digit c = true -> forallb is_digit (List.filter (fun c => negb (c =? g)) s) = true ->
  forallb is_digit (List.filter (fun c => negb (c =? g)) (c :: s)) = true.
Proof. intros Hc Hs. cbn [List.filter]. destruct (negb (c =? g)); [|done]. cbn. by rewrite Hc. Qed.

Lemma filter_digits g s : forallb is_digit s = true -> forallb is_digit (List.filter (fun c => negb (c =? g)) s) = true.
Proof. induction s as [|c s IH]; intros H; [done|]. cbn in H. bool_prop. apply filter_digit_cons; auto. Qed.

Lemma nonzero_is_digit c : is_nonzero_digit c = true -> is_digit c = true.
Proof. unfold is_nonzero_digit, is_digit. lia. Qed.

Lemma whole_lexeme_digits g s :
  whole_lexeme (Some g) s = true -> forallb is_digit (List.filter (fun c => negb (c =? g)) s) = true.
Proof.
  unfold whole_lexeme. intros H. apply orb_true_iff in H as [H|H]; [apply orb_true_iff in H as [H|H]|].
  - bool_prop. subst. by apply filter_digits.
  - destruct s as [|c s1]; [done|]. cbn [grouped_lexeme] in H. apply andb_true_iff in H as [Hc%nonzero_is_digit H].
    apply filter_digit_cons; [done|]. apply orb_true_iff in H as [H|H]; [by apply triples_digits|].
    destruct s1 as [|a s2]; [done|]. apply andb_true_iff in H as [Ha H]. apply filter_digit_cons; [done|].
    apply orb_true_iff in H as [H|H]; [by apply triples_digits|].
    destruct s2 as [|b s3]; [done|]. apply andb_true_iff in H as [Hb H]. apply filter_digit_cons; [done|].
    by apply triples_digits.
  - destruct s as [|c s]; [done|]. cbn [ungrouped_lexeme] in H. apply andb_true_iff in H as [Hc%nonzero_is_digit H].
    apply filter_digits. cbn. by rewrite Hc.
Qed.

Lemma grouped_digits_digits spec s whole frac :
  _grouped_digits spec s = Some (whole, frac) -> forallb is_digit whole = true /\ forallb is_digit frac = true.
Proof.
  unfold _grouped_digits, number_match. set (flen := if scale spec =? 0 then 0 else scale spec + 1).
  destruct (zlen s <? flen); [discriminate|]. set (w := ztake _ s). set (f := zdrop _ s).
  destruct (_ && _) eqn:E; [|discriminate]. apply andb_true_iff in E as [Hw Hf].
  assert (Hfd : forallb is_digit (drop 1 f) = true).
  { destruct f as [|c ds]; [done|]. bool_prop. by rewrite skipn_cons, drop_0. }
  destruct (group spec) as [g|].
  - destruct (_ && _); [discriminate|]. intros [= <- <-]. split; [by apply whole_lexeme_digits|done].
  - intros [= <- <-]. cbn [whole_lexeme] in Hw. unfold digits_lexeme in Hw. by bool_prop.
Qed.

Lemma parse_plain_shaped spec raw v :
  parse_plain spec raw = Ok (Success v) -> shaped (precision spec) (scale spec) v.
Proof.
  unfold parse_plain, fail. destruct raw as [s| | | | | |]; try discriminate. destruct (zlen s >? MAX_TEXT); [discriminate|].
  destruct (plain_match s) as [[[sign whole] frac]|] eqn:E; [|discriminate].
  apply plain_match_digits in E as [? ?]. by apply from_parts_shaped.
Qed.

Lemma parse_grouped_shaped spec raw v :
  parse_grouped spec raw = Ok (Success v) -> shaped (precision spec) (scale spec) v.
Proof.
  unfold parse_grouped, fail. destruct raw as [s| | | | | |]; try discriminate. destruct (zlen s >? MAX_TEXT); [discriminate|].
  destruct (split_sign s) as [sign rest]. destruct (_grouped_digits spec rest) as [[whole frac]|] eqn:E; [|discriminate].
  apply grouped_digits_digits in E as [? ?]. by apply from_parts_shaped.
Qed.

Lemma parse_currency_shaped spec raw v :
  parse_currency spec raw = Ok (Success v) -> shaped (precision (cur_num spec)) (scale (cur_num spec)) v.
Proof.
  unfold parse_currency, fail. destruct raw as [s| | | | | |]; try discriminate. destruct (zlen s >? MAX_TEXT); [discriminate|].
  destruct (currency_body _ s) as [body negative]. destruct (currency_number spec body) as [number|]; [|discriminate].
  destruct (_grouped_digits _ number) as [[whole frac]|] eqn:E; [|discriminate].
  apply grouped_digits_digits in E as [? ?]. by apply from_parts_shaped.
Qed.

Lemma parse_integer_bounds spec raw v :
  parse_integer spec raw = Ok (Success v) ->
  exists n, v = VInt n /\ (int_bounds (int_signed spec) (int_bit_width spec)).1 <= n <=
    (int_bounds (int_signed spec) (int_bit_width spec)).2.
Proof.
  unfold parse_integer, fail, succeed. destruct raw as [s| | | | | |]; try discriminate.
  destruct (_ || _); [discriminate|]. destruct (int_bounds _ _) as [lo hi]. cbn [fst snd].
  destruct (_ >? _); [discriminate|]. destruct (negb _) eqn:E; [discriminate|]. bool_prop.
  intros [= <-]. eexists. split; [done|]. lia.
Qed.
