(* ===== verification/CastCobol.v ===== *)
(** * Declared casting: COBOL field codecs (declared_casting/_cobol.py)

    ASCII trailing overpunch, EBCDIC zoned decimal and COMP-3 packed decimal. *)

From S2P Require Import Prelude Numerals PyText CastNumeric.

Record CobolSpec := MkCobol { co_precision : Z; co_scale : Z; co_signed : bool }.

Definition DECLARED_COBOL_INVALID : string := "declared_cobol_invalid".
Definition _BAD : string := DECLARED_COBOL_INVALID.

Definition POSITIVE : pystr := py "{ABCDEFGHI".
Definition NEGATIVE : pystr := py "}JKLMNOPQR".

(** The index of a character in a table. *)
Fixpoint index_from (i c : Z) (s : pystr) : option Z :=
  match s with
  | d :: s' => if d =? c then Some i else index_from (i + 1) c s'
  | [] => None
  end.

Definition _OVERPUNCH (c : Z) : option (Z * bool) :=
  match index_from 0 c POSITIVE with
  | Some d => Some (d, false)
  | None => (fun d => (d, true)) <$> index_from 0 c NEGATIVE
  end.

Definition _ZONED_POSITIVE : list Z := [10; 12; 14].
Definition _ZONED_NEGATIVE : list Z := [11; 13].

Definition comp3_length (precision : Z) : Z := (precision + 2) / 2.

Definition _digits_value (digits : pystr) (spec : CobolSpec) (negative : bool) : result CastOutcome :=
  v ← scaled (int_digits digits) (co_scale spec) negative; succeed (VDec v).

(** ** Overpunch *)

Definition parse_overpunch (spec : CobolSpec) (raw : cell) : result CastOutcome :=
  match raw with
  | VStr raw =>
      if negb (zlen raw =? co_precision spec) then fail _BAD
      else match list.last raw with
           | None => Err (exc "IndexError")
           | Some last =>
               let body := removelast raw in
               match _OVERPUNCH last with
               | Some (digit, negative) =>
                   if negb (forallb is_digit body) then fail _BAD
                   else _digits_value (body ++ str_int digit) spec negative
               | None => fail _BAD
               end
           end
  | _ => fail _BAD
  end.

(** The value of a digit character. *)
Definition digit_int (c : Z) : Z := c - 48.

Definition format_overpunch (spec : CobolSpec) (value : cell) : result CastOutcome :=
  match unscale value (co_scale spec) (co_precision spec) with
  | inr reason => fail reason
  | inl (unscaled, negative) =>
      let digits := rjust (str_int unscaled) (co_precision spec) 48 in
      let table := if negative : bool then NEGATIVE else POSITIVE in
      match list.last digits with
      | None => Err (exc "IndexError")
      | Some d =>
          c ← of_option (exc "IndexError") (table !! Z.to_nat (digit_int d));
          succeed (VStr (removelast digits ++ [c]))
      end
  end.

(** ** Zoned decimal *)

(** The loop over the octets: the digits, or nothing at the first bad octet. *)
Fixpoint zoned_digits (raw : bytes) : option (list Z) :=
  match raw with
  | [] => Some []
  | byte :: rest =>
      let zone := Z.shiftr byte 4 in
      let digit := Z.land byte 15 in
      if digit >? 9 then None
      else if negb (bool_decide (rest = [])) && negb (zone =? 15) then None
      else cons digit <$> zoned_digits rest
  end.

(** The sign of the last zone, or nothing when the zone is not admitted. *)
Definition zoned_sign (signed : bool) (zone : Z) : option bool :=
  if signed then
    if bool_decide (zone ∈ _ZONED_POSITIVE) || bool_decide (zone ∈ _ZONED_NEGATIVE)
    then Some (bool_decide (zone ∈ _ZONED_NEGATIVE)) else None
  else if zone =? 15 then Some false else None.

Definition parse_zoned (spec : CobolSpec) (raw : cell) : result CastOutcome :=
  match raw with
  | VBytes raw =>
      if negb (zlen raw =? co_precision spec) then fail _BAD
      else match zoned_digits raw with
           | None => fail _BAD
           | Some digits =>
               match list.last raw with
               | None => Err (exc "IndexError")
               | Some byte =>
                   match zoned_sign (co_signed spec) (Z.shiftr byte 4) with
                   | None => fail _BAD
                   | Some negative => _digits_value (digit_chars digits) spec negative
                   end
               end
           end
  | _ => fail _BAD
  end.

Definition format_zoned (spec : CobolSpec) (value : cell) : result CastOutcome :=
  match unscale value (co_scale spec) (co_precision spec) with
  | inr reason => fail reason
  | inl (unscaled, negative) =>
      if (negative : bool) && negb (co_signed spec) then fail _BAD
      else
        let digits := rjust (str_int unscaled) (co_precision spec) 48 in
        let out := (fun c => Z.lor 240 (digit_int c)) <$> digits in
        let zone := if co_signed spec then (if negative then 13 else 12) else 15 in
        match list.last digits with
        | None => Err (exc "IndexError")
        | Some d => succeed (VBytes (removelast out ++ [Z.lor (Z.shiftl zone 4) (digit_int d)]))
        end
  end.

(** ** Packed decimal *)

Definition nibbles (raw : bytes) : list Z := raw ≫= fun byte => [Z.shiftr byte 4; Z.land byte 15].

Definition parse_comp3 (spec : CobolSpec) (raw : cell) : result CastOutcome :=
  match raw with
  | VBytes raw =>
      if negb (zlen raw =? comp3_length (co_precision spec)) then fail _BAD
      else match list.last (nibbles raw) with
           | None => Err (exc "ValueError")
           | Some sign =>
               let digit_nibbles := removelast (nibbles raw) in
               if existsb (fun n => n >? 9) digit_nibbles then fail _BAD
               else if (zlen digit_nibbles >? co_precision spec) &&
                       match digit_nibbles with n :: _ => negb (n =? 0) | [] => false end then fail _BAD
               else if (if co_signed spec then negb ((sign =? 12) || (sign =? 13)) else negb (sign =? 15))
                    then fail _BAD
               else _digits_value (digit_chars digit_nibbles) spec (sign =? 13)
           end
  | _ => fail _BAD
  end.

Definition format_comp3 (spec : CobolSpec) (value : cell) : result CastOutcome :=
  match unscale value (co_scale spec) (co_precision spec) with
  | inr reason => fail reason
  | inl (unscaled, negative) =>
      if (negative : bool) && negb (co_signed spec) then fail _BAD
      else
        let length := comp3_length (co_precision spec) in
        let sign := if co_signed spec then (if negative then 13 else 12) else 15 in
        let digits := rjust (str_int unscaled) (2 * length - 1) 48 in
        let packed := pos_val 16 (digit_int <$> digits) * 16 + sign in
        b ← to_bytes packed length; succeed (VBytes b)
  end.

(** ** Fixed-width digits *)

Definition valid_cobol (spec : CobolSpec) : bool := valid_precision (co_precision spec) (co_scale spec).

Lemma valid_cobol_bounds spec :
  valid_cobol spec = true -> 1 <= co_precision spec <= 38 /\ 0 <= co_scale spec <= co_precision spec.
Proof. unfold valid_cobol, valid_precision, MAX_PRECISION. intros H. bool_prop. lia. Qed.

Lemma digit_int_chars l : digit_int <$> digit_chars l = l.
Proof.
  unfold digit_chars, digit_int. rewrite <- list_fmap_compose. etransitivity; [|apply list_fmap_id].
  apply list_fmap_ext. intros. unfold compose, id. lia.
Qed.

Lemma digits_value_ok spec l negative :
  valid_cobol spec = true -> pos_val 10 l < 10 ^ co_precision spec ->
  _digits_value (digit_chars l) spec negative =
  succeed (VDec (DFinite negative (pos_val 10 l) (- co_scale spec))).
Proof.
  intros Hv Hl. unfold _digits_value. rewrite int_digits_chars.
  by rewrite (scaled_ok _ _ (co_precision spec)).
Qed.

(** The last digit and the others. *)
Lemma fixed_digits u p :
  0 <= u < 10 ^ p -> 1 <= p ->
  exists l d, rjust (str_int u) p 48 = digit_chars (l ++ [d]) /\ zlen (l ++ [d]) = p /\
    Forall (in_radix 10) (l ++ [d]) /\ pos_val 10 (l ++ [d]) = u.
Proof.
  intros Hu Hp. rewrite rjust_digits by lia.
  pose proof (pos_digits_range 10 (Z.to_nat p) u ltac:(lia)) as Hr.
  pose proof (length_pos_digits 10 (Z.to_nat p) u) as Hl.
  pose proof (pos_val_digits_small 10 (Z.to_nat p) u) as Hv. rewrite Z2Nat.id in Hv by lia.
  specialize (Hv ltac:(lia) ltac:(lia)).
  destruct (pos_digits 10 (Z.to_nat p) u) as [|d l _] using rev_ind; [cbn in Hl; lia|].
  exists l, d. split_and!; [done| |done|done]. unfold zlen. lia.
Qed.

Lemma last_digit_chars l d : list.last (digit_chars (l ++ [d])) = Some (48 + d).
Proof. rewrite digit_chars_app. apply last_snoc. Qed.

Lemma removelast_digit_chars l d : removelast (digit_chars (l ++ [d])) = digit_chars l.
Proof. rewrite digit_chars_app. apply removelast_last. Qed.

(** ** The tables *)

Lemma overpunch_table d negative :
  0 <= d < 10 ->
  exists c, (if negative : bool then NEGATIVE else POSITIVE) !! Z.to_nat d = Some c /\ _OVERPUNCH c = Some (d, negative).
Proof.
  intros Hd. assert (d ∈ (Z.of_nat <$> seq 0 10)) as H.
  { apply list_elem_of_fmap. exists (Z.to_nat d). split; [lia|]. apply elem_of_seq. lia. }
  clear Hd. cbn [seq fmap list_fmap] in H.
  repeat (apply elem_of_cons in H as [->|H];
    [destruct negative; eexists; split; vm_compute; reflexivity|]). by apply elem_of_nil in H.
Qed.

Lemma index_from_inv i c s d : index_from i c s = Some d -> i <= d < i + zlen s /\ s !! Z.to_nat (d - i) = Some c.
Proof.
  revert i. induction s as [|a s IH]; intros i H; [discriminate|]. cbn [index_from] in H. rewrite zlen_cons.
  pose proof (zlen_nonneg s). destruct (Z.eqb_spec a c) as [->|_].
  - injection H as <-. replace (i - i) with 0 by lia. split; [lia|done].
  - apply IH in H as [Hb Hl]. split; [lia|].
    replace (Z.to_nat (d - i)) with (S (Z.to_nat (d - (i + 1)))) by lia. exact Hl.
Qed.

Lemma overpunch_inv c d negative :
  _OVERPUNCH c = Some (d, negative) -> 0 <= d < 10 /\ (if negative : bool then NEGATIVE else POSITIVE) !! Z.to_nat d = Some c.
Proof.
  unfold _OVERPUNCH. destruct (index_from 0 c POSITIVE) as [x|] eqn:E1.
  - intros [= -> <-]. apply index_from_inv in E1 as [Hb Hl]. rewrite Z.sub_0_r in Hl. split; [exact Hb|done].
  - destruct (index_from 0 c NEGATIVE) as [x|] eqn:E2; [|discriminate]. cbn. intros [= -> <-].
    apply index_from_inv in E2 as [Hb Hl]. rewrite Z.sub_0_r in Hl. split; [exact Hb|done].
Qed.

(** ** Overpunch round trips *)

Lemma unscale_cobol spec v u negative :
  cell_ok v -> unscale v (co_scale spec) (co_precision spec) = inl (u, negative) -> 0 <= u < 10 ^ co_precision spec.
Proof. apply unscale_bound. Qed.

Lemma overpunch_reads_back spec v u negative :
  valid_cobol spec = true -> cell_ok v -> unscale v (co_scale spec) (co_precision spec) = inl (u, negative) ->
  exists text, format_overpunch spec v = succeed (VStr text) /\ zlen text = co_precision spec /\
    parse_overpunch spec (VStr text) = succeed (VDec (DFinite negative u (- co_scale spec))).
Proof.
  intros Hv Hok Hun. pose proof (unscale_cobol _ _ _ _ Hok Hun) as Hu. pose proof (valid_cobol_bounds _ Hv) as Hp.
  destruct (fixed_digits u (co_precision spec)) as (l & d & Hd & Hlen & Hr & Hval); [lia|lia|].
  apply Forall_app in Hr as Hr'. destruct Hr' as [Hrl Hrd]. rewrite Forall_singleton in Hrd.
  destruct (overpunch_table d negative) as (c & Hc & Hoc); [done|].
  exists (digit_chars l ++ [c]). split_and!.
  - unfold format_overpunch. rewrite Hun, Hd, last_digit_chars, removelast_digit_chars.
    unfold digit_int. replace (48 + d - 48) with d by lia. rewrite Hc. done.
  - rewrite zlen_app in *. unfold zlen in *. rewrite length_digit_chars. exact Hlen.
  - unfold parse_overpunch.
    replace (zlen (digit_chars l ++ [c]) =? co_precision spec) with true
      by (symmetry; apply Z.eqb_eq; rewrite zlen_app in *; unfold zlen in *; rewrite length_digit_chars; exact Hlen).
    cbn [negb]. rewrite last_snoc, removelast_last, Hoc, digit_chars_digits by done. cbn [negb].
    rewrite str_int_digit by done. change [48 + d] with (digit_chars [d]). rewrite <- digit_chars_app.
    rewrite digits_value_ok; [by rewrite Hval|done|lia].
Qed.

Lemma digit_text_list s : forallb is_digit s = true -> exists l, s = digit_chars l /\ Forall (in_radix 10) l.
Proof.
  induction s as [|c s IH]; intros H; [by exists []|]. cbn in H. bool_prop.
  destruct IH as (l & -> & Hl); [done|]. exists (c - 48 :: l). split.
  - change (digit_chars (c - 48 :: l)) with (48 + (c - 48) :: digit_chars l). f_equal. lia.
  - constructor; [|done]. unfold is_digit, in_radix in *. lia.
Qed.

(** The fixed-width text of the value of a digit list is the list. *)
Lemma rjust_of_digits l :
  Forall (in_radix 10) l -> 1 <= zlen l -> rjust (str_int (pos_val 10 l)) (zlen l) 48 = digit_chars l.
Proof.
  intros Hr Hl. rewrite rjust_digits by (auto using pos_val_bound with lia || (by apply pos_val_bound)).
  f_equal. unfold zlen. rewrite Nat2Z.id. by apply pos_digits_val.
Qed.

(** What the COBOL parsers return: an in-range number of the declared scale. *)
Definition cobol_shaped (spec : CobolSpec) (v : cell) : Prop :=
  exists negative u, v = VDec (DFinite negative u (- co_scale spec)) /\ 0 <= u < 10 ^ co_precision spec.

Lemma overpunch_parsed spec raw v :
  valid_cobol spec = true -> parse_overpunch spec (VStr raw) = Ok (Success v) ->
  cobol_shaped spec v /\ format_overpunch spec v = succeed (VStr raw).
Proof.
  intros Hv H. pose proof (valid_cobol_bounds _ Hv) as Hp. unfold parse_overpunch, fail in H.
  destruct (Z.eqb_spec (zlen raw) (co_precision spec)) as [Hl|]; [|discriminate]. cbn [negb] in H.
  destruct raw as [|c body _] using rev_ind; [unfold zlen in Hl; cbn in Hl; lia|].
  rewrite last_snoc, removelast_last in H.
  destruct (_OVERPUNCH c) as [[d negative]|] eqn:Hoc; [|discriminate].
  destruct (forallb is_digit body) eqn:Hb; [|discriminate]. cbn [negb] in H.
  apply overpunch_inv in Hoc as [Hd Hc]. apply digit_text_list in Hb as (l & -> & Hr).
  rewrite str_int_digit in H by done. change [48 + d] with (digit_chars [d]) in H. rewrite <- digit_chars_app in H.
  assert (Hr2 : Forall (in_radix 10) (l ++ [d])) by (apply Forall_app; split; [done|by apply Forall_singleton]).
  assert (Hl2 : zlen (l ++ [d]) = co_precision spec)
    by (rewrite zlen_app in *; unfold zlen in *; rewrite length_digit_chars in Hl; exact Hl).
  pose proof (pos_val_bound 10 _ ltac:(lia) Hr2) as Hb. rewrite Hl2 in Hb.
  rewrite digits_value_ok in H by (done || lia). injection H as <-. split; [by eexists _, _|].
  unfold format_overpunch. rewrite unscale_scaled by done. rewrite <- Hl2, rjust_of_digits by (done || lia).
  rewrite last_digit_chars, removelast_digit_chars. unfold digit_int. replace (48 + d - 48) with d by lia.
  by rewrite Hc.
Qed.

(** ** Zoned round trips *)

Lemma octet_split z d : 0 <= z -> 0 <= d < 16 -> Z.lor (Z.shiftl z 4) d = 16 * z + d.
Proof.
  intros Hz Hd. pose proof (Z.add_lor_land (Z.shiftl z 4) d) as Ha.
  assert (Z.land (Z.shiftl z 4) d = 0) as H0.
  { apply Z.bits_inj'. intros n Hn. rewrite Z.land_spec, Z.bits_0.
    destruct (Z_lt_ge_dec n 4) as [Hl|Hl]; [by rewrite Z.shiftl_spec_low|].
    assert (2 ^ 4 <= 2 ^ n) by (apply Z.pow_le_mono_r; lia). change (2 ^ 4) with 16 in *.
    rewrite <- (Z.mod_small d (2 ^ n)), Z.mod_pow2_bits_high, andb_false_r by lia. done. }
  rewrite Z.shiftl_mul_pow2 in * by lia. change (2 ^ 4) with 16 in *. lia.
Qed.

Lemma octet_zone z d : 0 <= d < 16 -> Z.shiftr (16 * z + d) 4 = z /\ Z.land (16 * z + d) 15 = d.
Proof.
  intros Hd. rewrite Z.shiftr_div_pow2 by lia. change 15 with (Z.ones 4). rewrite Z.land_ones by lia.
  change (2 ^ 4) with 16. split.
  - rewrite Z.mul_comm, Z.div_add_l, Z.div_small by lia. lia.
  - rewrite Z.add_comm, Z.mul_comm, Z_mod_plus_full. by apply Z.mod_small.
Qed.

(** An octet string of digits under the zone F, closed by one under [zone]. *)
Definition zoned_text (l : list Z) (d zone : Z) : bytes := ((fun x => 16 * 15 + x) <$> l) ++ [16 * zone + d].

Lemma zoned_digits_text l d zone :
  Forall (in_radix 10) l -> in_radix 10 d -> zoned_digits (zoned_text l d zone) = Some (l ++ [d]).
Proof.
  unfold zoned_text. intros Hl Hd. unfold in_radix in Hd. induction Hl as [|x l Hx Hl IH].
  - cbn [fmap list_fmap app zoned_digits]. destruct (octet_zone zone d) as [_ ->]; [lia|].
    by replace (d >? 9) with false by lia.
  - rewrite fmap_cons, <- app_comm_cons. cbn [zoned_digits]. unfold in_radix in Hx.
    destruct (octet_zone 15 x) as [-> ->]; [lia|]. replace (x >? 9) with false by lia.
    rewrite andb_false_r, IH. done.
Qed.

Lemma zoned_digits_inv raw ds :
  Forall is_byte raw -> raw <> [] -> zoned_digits raw = Some ds ->
  exists l d zone, raw = zoned_text l d zone /\ ds = l ++ [d] /\ Forall (in_radix 10) l /\ in_radix 10 d /\ 0 <= zone < 16.
Proof.
  intros Hb. revert ds. induction Hb as [|byte rest Hbyte Hb IH]; intros ds Hne H; [done|]. clear Hne.
  cbn [zoned_digits] in H.
  pose proof (Z.div_mod byte 16 ltac:(lia)) as Hdm. pose proof (Z.mod_pos_bound byte 16 ltac:(lia)) as Hmb.
  unfold is_byte, in_radix in Hbyte.
  assert (0 <= byte / 16 < 16) as Hq by (split; [apply Z.div_pos; lia|apply Z.div_lt_upper_bound; lia]).
  rewrite Hdm in H. destruct (octet_zone (byte / 16) (byte mod 16)) as [Hz Hd]; [lia|]. rewrite Hz, Hd in H.
  destruct (byte mod 16 >? 9) eqn:E9; [discriminate|]. bool_prop.
  destruct rest as [|b rest].
  - cbn in H. injection H as <-. exists [], (byte mod 16), (byte / 16). unfold zoned_text, in_radix.
    split_and!; try lia; [cbn; f_equal; lia|done|constructor].
  - rewrite bool_decide_false in H by done. cbn [negb andb] in H.
    destruct (Z.eqb_spec (byte / 16) 15) as [E|]; [|discriminate]. cbn [negb] in H.
    destruct (zoned_digits (b :: rest)) as [ds'|] eqn:E2; [|discriminate]. cbn in H. injection H as <-.
    destruct (IH ds') as (l & d & zone & -> & -> & Hl & Hd' & Hz'); [done|done|].
    exists (byte mod 16 :: l), d, zone. unfold zoned_text. rewrite fmap_cons, <- app_comm_cons.
    split; [f_equal; lia|]. split; [done|]. split; [|done]. constructor; [unfold in_radix; lia|done].
Qed.

Definition canonical_zone (signed negative : bool) : Z := if signed then (if negative then 13 else 12) else 15.

Lemma zoned_sign_canonical signed negative :
  (negative && negb signed) = false -> zoned_sign signed (canonical_zone signed negative) = Some negative.
Proof. by destruct signed, negative. Qed.

(** What [format_zoned] writes. *)
Lemma format_zoned_text spec v u negative l d :
  unscale v (co_scale spec) (co_precision spec) = inl (u, negative) ->
  rjust (str_int u) (co_precision spec) 48 = digit_chars (l ++ [d]) ->
  Forall (in_radix 10) (l ++ [d]) -> (negative && negb (co_signed spec)) = false ->
  format_zoned spec v = succeed (VBytes (zoned_text l d (canonical_zone (co_signed spec) negative))).
Proof.
  intros Hun Hd Hr Hneg. unfold format_zoned. rewrite Hun, Hd, Hneg, last_digit_chars.
  apply Forall_app in Hr as [Hrl Hrd]. rewrite Forall_singleton in Hrd. unfold in_radix in Hrd.
  unfold digit_int at 2. replace (48 + d - 48) with d by lia.
  change (if co_signed spec then if negative then 13 else 12 else 15) with (canonical_zone (co_signed spec) negative).
  rewrite octet_split by (destruct (co_signed spec), negative; cbn; lia).
  unfold zoned_text. do 4 f_equal. rewrite digit_chars_app, fmap_app. cbn [digit_chars fmap list_fmap].
  rewrite removelast_last. unfold digit_chars. rewrite <- list_fmap_compose.
  apply list_fmap_ext. intros i x Hx. unfold compose, digit_int. replace (48 + x - 48) with x by lia.
  change 240 with (Z.shiftl 15 4). apply octet_split; [lia|].
  rewrite list.Forall_forall in Hrl. specialize (Hrl x). unfold in_radix in Hrl.
  assert (0 <= x < 10); [|lia]. apply Hrl. by apply list_elem_of_lookup_2 with i.
Qed.

Lemma zoned_reads_back spec v u negative :
  valid_cobol spec = true -> cell_ok v -> unscale v (co_scale spec) (co_precision spec) = inl (u, negative) ->
  (negative && negb (co_signed spec)) = false ->
  exists out, format_zoned spec v = succeed (VBytes out) /\ zlen out = co_precision spec /\
    parse_zoned spec (VBytes out) = succeed (VDec (DFinite negative u (- co_scale spec))).
Proof.
  intros Hv Hok Hun Hneg. pose proof (unscale_cobol _ _ _ _ Hok Hun) as Hu. pose proof (valid_cobol_bounds _ Hv) as Hp.
  destruct (fixed_digits u (co_precision spec)) as (l & d & Hd & Hlen & Hr & Hval); [lia|lia|].
  eexists. split; [by eapply format_zoned_text|].
  assert (Hl : zlen (zoned_text l d (canonical_zone (co_signed spec) negative)) = co_precision spec).
  { unfold zoned_text. rewrite zlen_app in *. unfold zlen in *. rewrite length_fmap. exact Hlen. }
  split; [done|]. apply Forall_app in Hr as Hr'. destruct Hr' as [Hrl Hrd]. rewrite Forall_singleton in Hrd.
  unfold parse_zoned. rewrite Hl, Z.eqb_refl, zoned_digits_text by done. cbn [negb].
  unfold zoned_text at 1. rewrite last_snoc. unfold in_radix in Hrd.
  destruct (octet_zone (canonical_zone (co_signed spec) negative) d) as [-> _]; [lia|].
  rewrite zoned_sign_canonical, digits_value_ok by (done || lia). by rewrite Hval.
Qed.

(** A canonically signed field is reproduced octet for octet. *)
Lemma zoned_writes_back spec raw v negative byte :
  valid_cobol spec = true -> Forall is_byte raw -> parse_zoned spec (VBytes raw) = Ok (Success v) ->
  list.last raw = Some byte -> Z.shiftr byte 4 = canonical_zone (co_signed spec) negative ->
  (negative && negb (co_signed spec)) = false ->
  format_zoned spec v = succeed (VBytes raw).
Proof.
  intros Hv Hb H Hlast Hzone Hneg. pose proof (valid_cobol_bounds _ Hv) as Hp. unfold parse_zoned, fail in H.
  destruct (Z.eqb_spec (zlen raw) (co_precision spec)) as [Hl|]; [|discriminate]. cbn [negb] in H.
  destruct (zoned_digits raw) as [ds|] eqn:Eds; [|discriminate].
  destruct (zoned_digits_inv raw ds) as (l & d & zone & -> & -> & Hrl & Hrd & Hz); [done|by intros ->|done|].
  rewrite Hlast in H. unfold zoned_text in Hlast. rewrite last_snoc in Hlast. injection Hlast as <-.
  unfold in_radix in Hrd. destruct (octet_zone zone d) as [Hsz _]; [lia|]. rewrite Hsz in Hzone. rewrite Hsz, Hzone in H.
  rewrite zoned_sign_canonical in H by done.
  assert (Hr2 : Forall (in_radix 10) (l ++ [d])) by (apply Forall_app; split; [done|by apply Forall_singleton]).
  assert (Hl2 : zlen (l ++ [d]) = co_precision spec)
    by (unfold zoned_text in Hl; rewrite zlen_app in *; unfold zlen in *; rewrite length_fmap in Hl; exact Hl).
  pose proof (pos_val_bound 10 _ ltac:(lia) Hr2) as Hpb. rewrite Hl2 in Hpb.
  rewrite digits_value_ok in H by (done || lia). injection H as <-. rewrite Hzone.
  eapply format_zoned_text; [by apply unscale_scaled| |done|done].
  rewrite <- Hl2. apply rjust_of_digits; [done|lia].
Qed.

(** ** Packed-decimal round trips *)

Lemma nibbles_app a b : nibbles (a ++ b) = nibbles a ++ nibbles b.
Proof. apply bind_app. Qed.

Lemma byte_nibbles x : nibbles [x] = [x / 16; x mod 16].
Proof.
  unfold nibbles. cbn [mbind list_bind app]. rewrite Z.shiftr_div_pow2 by lia.
  change 15 with (Z.ones 4). by rewrite Z.land_ones by lia.
Qed.

(** The nibbles of an octet string are its base-16 digits. *)
Lemma nibbles_digits n x : nibbles (pos_digits 256 n x) = pos_digits 16 (2 * n) x.
Proof.
  revert x. induction n as [|n IH]; intros x; [done|].
  replace (2 * S n)%nat with (S (S (2 * n))) by lia. cbn [pos_digits].
  rewrite nibbles_app, IH, byte_nibbles, Z.div_div, <- app_assoc by lia. f_equal. cbn [app]. f_equal; [|f_equal].
  - change 256 with (16 * 16). rewrite Z.rem_mul_r, Z.add_comm, Z.mul_comm, Z.div_add_l by lia.
    rewrite (Z.div_small (x mod 16)) by (apply Z.mod_pos_bound; lia). lia.
  - change 256 with (16 * 16). rewrite Z.rem_mul_r, Z.add_comm, Z.mul_comm, Z.add_comm, Z_mod_plus_full by lia.
    apply Z.mod_small, Z.mod_pos_bound. lia.
Qed.

Lemma pos_val_nibbles raw : pos_val 16 (nibbles raw) = pos_val 256 raw.
Proof.
  induction raw as [|b raw IH] using rev_ind; [done|].
  rewrite nibbles_app, byte_nibbles, pos_val_snoc. change [b / 16; b mod 16] with ([b / 16] ++ [b mod 16]).
  rewrite app_assoc, !pos_val_snoc, IH. pose proof (Z.div_mod b 16). lia.
Qed.

Lemma nibbles_range raw : Forall is_byte raw -> Forall (in_radix 16) (nibbles raw).
Proof.
  induction 1 as [|b raw Hb Hraw IH]; [constructor|]. change (b :: raw) with ([b] ++ raw).
  rewrite nibbles_app, byte_nibbles. apply Forall_app. split; [|done]. unfold is_byte, in_radix in *.
  repeat constructor; try (apply Z.div_pos; lia); try (apply Z.div_lt_upper_bound; lia);
    apply Z.mod_pos_bound; lia.
Qed.

Lemma length_nibbles raw : length (nibbles raw) = (2 * length raw)%nat.
Proof. induction raw as [|b raw IH]; [done|]. change (b :: raw) with ([b] ++ raw). rewrite nibbles_app, length_app, IH, byte_nibbles. cbn. lia. Qed.

Lemma comp3_length_bounds p : 1 <= p -> p <= 2 * comp3_length p - 1 <= p + 1 /\ 1 <= comp3_length p.
Proof. intros. unfold comp3_length. Z.div_mod_to_equations. lia. Qed.

(** What [format_comp3] writes: the octets whose nibbles are the digits and sign. *)
Lemma format_comp3_text spec v u negative l :
  valid_cobol spec = true ->
  unscale v (co_scale spec) (co_precision spec) = inl (u, negative) ->
  Forall (in_radix 10) l -> zlen l = 2 * comp3_length (co_precision spec) - 1 -> pos_val 10 l = u ->
  (negative && negb (co_signed spec)) = false ->
  format_comp3 spec v = succeed (VBytes (pos_digits 256 (Z.to_nat (comp3_length (co_precision spec)))
    (pos_val 16 (l ++ [canonical_zone (co_signed spec) negative])))).
Proof.
  intros Hv Hun Hr Hl Hval Hneg. pose proof (valid_cobol_bounds _ Hv) as Hp.
  destruct (comp3_length_bounds (co_precision spec)) as [Hc Hc1]; [lia|].
  unfold format_comp3. rewrite Hun, Hneg, <- Hl, <- Hval, rjust_of_digits, digit_int_chars by (done || lia).
  change (if co_signed spec then if negative then 13 else 12 else 15) with (canonical_zone (co_signed spec) negative).
  rewrite pos_val_snoc. set (sign := canonical_zone _ _).
  assert (0 <= sign < 16) as Hs by (unfold sign; destruct (co_signed spec), negative; cbn; lia).
  assert (Hr16 : Forall (in_radix 16) l) by (eapply Forall_impl; [|exact Hr]; unfold in_radix; intros; lia).
  pose proof (pos_val_bound 16 l ltac:(lia) Hr16) as Hb. rewrite Hl in Hb.
  unfold to_bytes. assert (256 ^ comp3_length (co_precision spec) = 16 ^ (2 * comp3_length (co_precision spec) - 1) * 16) as ->.
  { change 256 with (16 ^ 2). rewrite <- Z.pow_mul_r by lia.
    replace (2 * comp3_length (co_precision spec)) with (Z.succ (2 * comp3_length (co_precision spec) - 1)) at 1 by lia.
    rewrite Z.pow_succ_r by lia. lia. }
  replace (0 <=? pos_val 16 l * 16 + sign) with true by lia.
  by replace (pos_val 16 l * 16 + sign <? _) with true by lia.
Qed.

Lemma existsb_small l : Forall (in_radix 10) l -> existsb (fun n => n >? 9) l = false.
Proof. induction 1 as [|x l Hx Hl IH]; [done|]. cbn. rewrite IH. unfold in_radix in Hx. by replace (x >? 9) with false by lia. Qed.

Lemma small_digits l :
  Forall (in_radix 16) l -> existsb (fun n => n >? 9) l = false -> Forall (in_radix 10) l.
Proof.
  induction 1 as [|x l Hx Hl IH]; intros He; [constructor|]. cbn in He. bool_prop.
  constructor; [unfold in_radix in *; lia|by apply IH].
Qed.

Lemma comp3_reads_back spec v u negative :
  valid_cobol spec = true -> cell_ok v -> unscale v (co_scale spec) (co_precision spec) = inl (u, negative) ->
  (negative && negb (co_signed spec)) = false ->
  exists out, format_comp3 spec v = succeed (VBytes out) /\ zlen out = comp3_length (co_precision spec) /\
    parse_comp3 spec (VBytes out) = succeed (VDec (DFinite negative u (- co_scale spec))).
Proof.
  intros Hv Hok Hun Hneg. pose proof (unscale_cobol _ _ _ _ Hok Hun) as Hu. pose proof (valid_cobol_bounds _ Hv) as Hp.
  destruct (comp3_length_bounds (co_precision spec)) as [Hc Hc1]; [lia|].
  set (L := comp3_length (co_precision spec)) in *.
  assert (HuL : 0 <= u < 10 ^ (2 * L - 1)) by (pose proof (Z.pow_le_mono_r 10 (co_precision spec) (2 * L - 1)); lia).
  set (l := pos_digits 10 (Z.to_nat (2 * L - 1)) u).
  assert (Hr : Forall (in_radix 10) l) by (by apply pos_digits_range).
  assert (Hl : zlen l = 2 * L - 1) by (unfold l; rewrite zlen_pos_digits; lia).
  assert (Hval : pos_val 10 l = u) by (apply pos_val_digits_small; [lia|]; by rewrite Z2Nat.id by lia).
  set (sign := canonical_zone (co_signed spec) negative).
  assert (Hs : 0 <= sign < 16) by (unfold sign; destruct (co_signed spec), negative; cbn; lia).
  eexists. split; [eapply format_comp3_text; eauto|]. fold L sign.
  assert (Hn : nibbles (pos_digits 256 (Z.to_nat L) (pos_val 16 (l ++ [sign]))) = l ++ [sign]).
  { rewrite nibbles_digits. replace (2 * Z.to_nat L)%nat with (length (l ++ [sign]))
      by (rewrite length_app; unfold zlen in Hl; cbn; lia).
    apply pos_digits_val; [lia|]. apply Forall_app. split; [|by apply Forall_singleton].
    eapply Forall_impl; [|exact Hr]. unfold in_radix. intros. lia. }
  split; [rewrite zlen_pos_digits; lia|]. unfold parse_comp3. fold L.
  rewrite zlen_pos_digits, Z2Nat.id, Z.eqb_refl, Hn, last_snoc, removelast_last, existsb_small by (done || lia).
  cbn [negb].
  assert (Hpad : ((zlen l >? co_precision spec) && match l with n :: _ => negb (n =? 0) | [] => false end) = false).
  { destruct (zlen l >? co_precision spec) eqn:E; [|done]. bool_prop. cbn [andb].
    destruct l as [|x l'] eqn:El; [done|]. apply negb_false_iff, Z.eqb_eq.
    apply Forall_cons_iff in Hr as [Hx Hr']. change (x :: l') with ([x] ++ l') in Hval. rewrite pos_val_app in Hval.
    pose proof (pos_val_bound 10 l' ltac:(lia) Hr') as Hb. rewrite zlen_cons in *.
    replace (zlen l') with (co_precision spec) in * by lia.
    replace (pos_val 10 [x]) with x in Hval by (unfold pos_val; cbn; lia). unfold in_radix in Hx.
    assert (0 < 10 ^ co_precision spec) by (apply Z.pow_pos_nonneg; lia). nia. }
  rewrite Hpad. clear Hpad.
  assert (Hsg : (if co_signed spec then negb ((sign =? 12) || (sign =? 13)) else negb (sign =? 15)) = false /\ (sign =? 13) = negative)
    by (unfold sign; by destruct (co_signed spec), negative).
  destruct Hsg as [-> ->]. rewrite digits_value_ok by (done || lia). by rewrite Hval.
Qed.

Lemma comp3_parsed spec raw v :
  valid_cobol spec = true -> Forall is_byte raw -> parse_comp3 spec (VBytes raw) = Ok (Success v) ->
  cobol_shaped spec v /\ format_comp3 spec v = succeed (VBytes raw).
Proof.
  intros Hv Hb H. pose proof (valid_cobol_bounds _ Hv) as Hp.
  destruct (comp3_length_bounds (co_precision spec)) as [Hc Hc1]; [lia|].
  unfold parse_comp3, fail in H. destruct (Z.eqb_spec (zlen raw) (comp3_length (co_precision spec))) as [Hl|]; [|discriminate].
  cbn [negb] in H. pose proof (length_nibbles raw) as Hln. pose proof (nibbles_range raw Hb) as Hnr.
  pose proof (pos_val_nibbles raw) as Hpv.
  destruct (nibbles raw) as [|sign l _] using rev_ind; [unfold zlen in *; cbn in Hln; lia|].
  rewrite last_snoc, removelast_last in H. apply Forall_app in Hnr as [Hnl Hns]. rewrite Forall_singleton in Hns.
  destruct (existsb _ l) eqn:Ee; [discriminate|].
  assert (Hr : Forall (in_radix 10) l) by (by apply small_digits).
  assert (Hll : zlen l = 2 * comp3_length (co_precision spec) - 1) by (rewrite length_app in Hln; unfold zlen in *; cbn in Hln; lia).
  destruct ((zlen l >? co_precision spec) && match l with n :: _ => negb (n =? 0) | [] => false end) eqn:Epad; [discriminate|].
  destruct (if co_signed spec then _ else _) eqn:Esg; [discriminate|].
  assert (Hbound : pos_val 10 l < 10 ^ co_precision spec).
  { pose proof (pos_val_bound 10 l ltac:(lia) Hr) as Hpb.
    destruct (Z_lt_ge_dec (co_precision spec) (zlen l)) as [Hlt|]; [|rewrite (Z.le_antisymm (zlen l) (co_precision spec)) in Hpb; lia].
    replace (zlen l >? co_precision spec) with true in Epad by lia. cbn [andb] in Epad.
    destruct l as [|x l]; [unfold zlen in Hlt; cbn in Hlt; lia|]. bool_prop. subst x.
    apply Forall_cons_iff in Hr as [_ Hr]. change (0 :: l) with (replicate 1 0 ++ l). rewrite pos_val_zeros.
    rewrite zlen_cons in *. replace (co_precision spec) with (zlen l) by lia. by apply pos_val_bound. }
  rewrite digits_value_ok in H by done. injection H as <-.
  split; [eexists _, _; split; [done|]; split; [by apply pos_val_bound|done]|].
  assert (Hsign : sign = canonical_zone (co_signed spec) (sign =? 13) /\ ((sign =? 13) && negb (co_signed spec)) = false).
  { unfold canonical_zone. destruct (co_signed spec); bool_prop.
    - apply orb_true_iff in Esg as [E|E]; apply Z.eqb_eq in E; subst; done.
    - subst. done. }
  destruct Hsign as [Hs Hneg].
  rewrite (format_comp3_text spec _ (pos_val 10 l) (sign =? 13) l); try done.
  - rewrite <- Hs, Hpv, <- Hl. unfold zlen. rewrite Nat2Z.id. do 2 f_equal. by apply pos_digits_val.
  - apply unscale_scaled; [done|]. split; [|done]. by apply pos_val_bound.
Qed.

Lemma zoned_parse_shaped spec raw v :
  valid_cobol spec = true -> Forall is_byte raw -> parse_zoned spec (VBytes raw) = Ok (Success v) ->
  exists negative u, v = VDec (DFinite negative u (- co_scale spec)) /\ 0 <= u < 10 ^ co_precision spec /\
    (negative && negb (co_signed spec)) = false.
Proof.
  intros Hv Hb H. pose proof (valid_cobol_bounds _ Hv) as Hp. unfold parse_zoned, fail in H.
  destruct (Z.eqb_spec (zlen raw) (co_precision spec)) as [Hl|]; [|discriminate]. cbn [negb] in H.
  destruct (zoned_digits raw) as [ds|] eqn:Eds; [|discriminate].
  destruct (zoned_digits_inv raw ds) as (l & d & zone & -> & -> & Hrl & Hrd & Hz);
    [done|intros ->; unfold zlen in Hl; cbn in Hl; lia|done|].
  destruct (list.last _) as [byte|]; [|discriminate].
  destruct (zoned_sign (co_signed spec) (Z.shiftr byte 4)) as [negative|] eqn:Es; [|discriminate].
  assert (Hr2 : Forall (in_radix 10) (l ++ [d])) by (apply Forall_app; split; [done|by apply Forall_singleton]).
  assert (Hl2 : zlen (l ++ [d]) = co_precision spec)
    by (unfold zoned_text in Hl; rewrite zlen_app in *; unfold zlen in *; rewrite length_fmap in Hl; exact Hl).
  pose proof (pos_val_bound 10 _ ltac:(lia) Hr2) as Hpb. rewrite Hl2 in Hpb.
  rewrite digits_value_ok in H by (done || lia). injection H as <-. exists negative, (pos_val 10 (l ++ [d])).
  split_and!; [done|lia|lia|]. unfold zoned_sign in Es. destruct (co_signed spec); [by rewrite andb_false_r|].
  destruct (_ =? 15); [|discriminate]. by injection Es as <-.
Qed.

(** ** Totality *)

Lemma digits_value_total spec l negative :
  valid_cobol spec = true -> zlen l <= 40 -> Forall (in_radix 10) l -> is_ok (_digits_value (digit_chars l) spec negative) = true.
Proof.
  intros Hv Hl Hr. unfold _digits_value, scaled. rewrite int_digits_chars.
  pose proof (pos_val_bound 10 l ltac:(lia) Hr). assert (10 ^ zlen l <= 10 ^ 80) by (apply Z.pow_le_mono_r; lia).
  by replace (pos_val 10 l <? 10 ^ 80) with true by lia.
Qed.

Lemma overpunch_total spec raw : valid_cobol spec = true -> is_ok (parse_overpunch spec (VStr raw)) = true.
Proof.
  intros Hv. pose proof (valid_cobol_bounds _ Hv) as Hp. unfold parse_overpunch.
  destruct (Z.eqb_spec (zlen raw) (co_precision spec)) as [Hl|]; [|done]. cbn [negb].
  destruct raw as [|c body _] using rev_ind; [unfold zlen in Hl; cbn in Hl; lia|]. rewrite last_snoc, removelast_last.
  destruct (_OVERPUNCH c) as [[d negative]|] eqn:Hoc; [|done]. apply overpunch_inv in Hoc as [Hd _].
  destruct (forallb is_digit body) eqn:Hb; [|done]. cbn [negb]. apply digit_text_list in Hb as (l & -> & Hr).
  rewrite str_int_digit by done. change [48 + d] with (digit_chars [d]). rewrite <- digit_chars_app.
  rewrite zlen_app in Hl. apply digits_value_total; [done| |].
  - rewrite zlen_app. unfold zlen in *. rewrite length_digit_chars in Hl. cbn in *. lia.
  - apply Forall_app. split; [done|by apply Forall_singleton].
Qed.

Lemma zoned_total spec raw :
  valid_cobol spec = true -> Forall is_byte raw -> is_ok (parse_zoned spec (VBytes raw)) = true.
Proof.
  intros Hv Hb. pose proof (valid_cobol_bounds _ Hv) as Hp. unfold parse_zoned.
  destruct (Z.eqb_spec (zlen raw) (co_precision spec)) as [Hl|]; [|done]. cbn [negb].
  destruct (zoned_digits raw) as [ds|] eqn:Eds; [|done].
  destruct (zoned_digits_inv raw ds) as (l & d & zone & -> & -> & Hrl & Hrd & Hz);
    [done|intros ->; unfold zlen in Hl; cbn in Hl; lia|done|].
  unfold zoned_text in *. rewrite last_snoc. destruct (zoned_sign _ _); [|done].
  apply digits_value_total; [done| |apply Forall_app; split; [done|by apply Forall_singleton]].
  rewrite zlen_app in *. unfold zlen in *. rewrite length_fmap in Hl. cbn in *. lia.
Qed.

Lemma comp3_total spec raw :
  valid_cobol spec = true -> Forall is_byte raw -> is_ok (parse_comp3 spec (VBytes raw)) = true.
Proof.
  intros Hv Hb. pose proof (valid_cobol_bounds _ Hv) as Hp.
  destruct (comp3_length_bounds (co_precision spec)) as [Hc Hc1]; [lia|].
  unfold parse_comp3. destruct (Z.eqb_spec (zlen raw) (comp3_length (co_precision spec))) as [Hl|]; [|done]. cbn [negb].
  pose proof (length_nibbles raw) as Hln. pose proof (nibbles_range raw Hb) as Hnr.
  destruct (nibbles raw) as [|sign l _] using rev_ind; [unfold zlen in *; cbn in Hln; lia|].
  rewrite last_snoc, removelast_last. apply Forall_app in Hnr as [Hnl _].
  destruct (existsb _ l) eqn:Ee; [done|]. destruct (_ && _); [done|]. destruct (if co_signed spec then _ else _); [done|].
  apply digits_value_total; [done|rewrite length_app in Hln; unfold zlen in *; cbn in Hln; lia|].
  by apply small_digits.
Qed.

(** ** Properties *)

(** the COBOL codecs are exact on the wire. Whatever an overpunch or packed
    field parses to is written back as the very same characters or octets, and so
    is a zoned field signed with a canonical zone; the parsers are total: a field
    is read or refused, never an exception. *)
Theorem cobol_codecs_exact spec :
  valid_cobol spec = true ->
  (forall raw v, parse_overpunch spec (VStr raw) = Ok (Success v) -> format_overpunch spec v = succeed (VStr raw)) /\
  (forall raw v, Forall is_byte raw -> parse_comp3 spec (VBytes raw) = Ok (Success v) ->
     format_comp3 spec v = succeed (VBytes raw)) /\
  (forall raw v negative byte, Forall is_byte raw -> parse_zoned spec (VBytes raw) = Ok (Success v) ->
     list.last raw = Some byte -> Z.shiftr byte 4 = canonical_zone (co_signed spec) negative ->
     (negative && negb (co_signed spec)) = false -> format_zoned spec v = succeed (VBytes raw)) /\
  (forall raw, Forall is_byte raw ->
     is_ok (parse_overpunch spec (VStr raw)) = true /\ is_ok (parse_zoned spec (VBytes raw)) = true /\
     is_ok (parse_comp3 spec (VBytes raw)) = true).
Proof.
  intros Hv. split_and!.
  - intros. by apply overpunch_parsed.
  - intros. by apply comp3_parsed.
  - intros. by eapply zoned_writes_back.
  - intros. split_and!; [by apply overpunch_total|by apply zoned_total|by apply comp3_total].
Qed.

Lemma cobol_codecs_exact_witness :
  format_comp3 (MkCobol 5 0 true) (VDec (DFinite false 12345 0)) = succeed (VBytes [18; 52; 92]).
Proof.
  refine (proj1 (proj2 (cobol_codecs_exact (MkCobol 5 0 true) _)) [18; 52; 92] (VDec (DFinite false 12345 0)) _ _);
    [vm_compute; reflexivity|by_decide|vm_compute; reflexivity].
Defined.
