(* ===== verification/CastDate.v ===== *)
(** * Declared casting: dates (contracts/_declared_formats.py, declared_casting/_date.py)

    The restricted date grammar ([%Y], [%m], [%d] and separator literals), the
    parse and format kernels, and the proleptic Gregorian calendar check that
    [datetime.date] makes. *)

From S2P Require Import Prelude Numerals PyText CastNumeric.

(** ** The format grammar *)

Inductive date_part : Type := PYear | PMonth | PDay | PLit (c : Z).

#[global] Instance date_part_eq_dec : EqDecision date_part.
Proof. solve_decision. Defined.

Definition _DATE_LITERALS : pystr := py "-/. :_,".

Definition violation (code : string) : exn := Exn "PydanticCustomError" code.
Definition DECLARED_CAST_DIRECTIVE_UNSUPPORTED : string := "declared_cast_directive_unsupported".
Definition directive_unsupported : exn := violation DECLARED_CAST_DIRECTIVE_UNSUPPORTED.

Definition directive (c : Z) : option date_part :=
  if c =? 89 then Some PYear else if c =? 109 then Some PMonth else if c =? 100 then Some PDay else None.

(** The splitting loop. *)
Fixpoint date_tokens (fmt : pystr) : result (list date_part) :=
  match fmt with
  | [] => Ok []
  | ch :: rest =>
      if ch =? 37 then
        match rest with
        | c :: rest' =>
            token ← of_option directive_unsupported (directive c);
            parts ← date_tokens rest'; Ok (token :: parts)
        | [] => Err directive_unsupported
        end
      else if bool_decide (ch ∈ _DATE_LITERALS) then parts ← date_tokens rest; Ok (PLit ch :: parts)
      else Err directive_unsupported
  end.

Definition is_directive (p : date_part) : bool := match p with PLit _ => false | _ => true end.

(** [sorted(tokens) == ["%Y", "%d", "%m"]]: each directive exactly once. *)
Definition each_once (parts : list date_part) : bool :=
  forallb (fun t => Nat.eqb (length (List.filter (fun p => bool_decide (p = t)) parts)) 1) [PYear; PDay; PMonth].

(** Two neighbouring directives. *)
Fixpoint adjacent (parts : list date_part) : bool :=
  match parts with
  | a :: (b :: _) as rest => (is_directive a && is_directive b) || adjacent rest
  | _ => false
  end.

Definition date_pattern (fmt : pystr) : result (list date_part) :=
  parts ← date_tokens fmt;
  _ ← raise_if (negb (each_once parts)) directive_unsupported;
  _ ← raise_if (adjacent parts) directive_unsupported;
  Ok parts.

Definition part_width (p : date_part) : Z :=
  match p with PYear => 4 | PMonth | PDay => 2 | PLit _ => 1 end.

Definition date_width (fmt : pystr) : result Z :=
  parts ← date_pattern fmt; Ok (foldr (fun p n => part_width p + n) 0 parts).

(** ** The calendar *)

Definition leap (y : Z) : bool := (y mod 4 =? 0) && (negb (y mod 100 =? 0) || (y mod 400 =? 0)).

Definition days_in_month (y m : Z) : Z :=
  if m =? 2 then (if leap y then 29 else 28)
  else if bool_decide (m ∈ [4; 6; 9; 11]) then 30 else 31.

(** The values [datetime.date] can hold; its constructor raises on any other. *)
Definition valid_date (y m d : Z) : bool :=
  (1 <=? y) && (y <=? 9999) && (1 <=? m) && (m <=? 12) && (1 <=? d) && (d <=? days_in_month y m).

(** ** The kernels *)

Inductive DateSpec : Type := DateIso | DateFormat (format : pystr).

Definition ISO_FORMAT : pystr := py "%Y-%m-%d".
Definition DECLARED_DATE_INVALID : string := "declared_date_invalid".

Definition _format_of (spec : DateSpec) : pystr :=
  match spec with DateIso => ISO_FORMAT | DateFormat format => format end.

(** ["[0-9]{n}"] at the front: its value and the rest. *)
Definition take_digits (n : nat) (s : pystr) : option (Z * pystr) :=
  if Nat.eqb (length (take n s)) n && forallb is_digit (take n s)
  then Some (int_digits (take n s), drop n s) else None.

(** A full match of the compiled pattern, with its three groups read as integers. *)
Fixpoint match_date (parts : list date_part) (s : pystr) (ymd : Z * Z * Z) : option (Z * Z * Z) :=
  match parts with
  | [] => if bool_decide (s = []) then Some ymd else None
  | PLit c :: parts' =>
      match s with
      | d :: s' => if d =? c then match_date parts' s' ymd else None
      | [] => None
      end
  | PYear :: parts' => '(v, s') ← take_digits 4 s; match_date parts' s' (v, ymd.1.2, ymd.2)
  | PMonth :: parts' => '(v, s') ← take_digits 2 s; match_date parts' s' (ymd.1.1, v, ymd.2)
  | PDay :: parts' => '(v, s') ← take_digits 2 s; match_date parts' s' (ymd.1.1, ymd.1.2, v)
  end.

Definition parse_date (spec : DateSpec) (raw : cell) : result CastOutcome :=
  match raw with
  | VStr raw =>
      if zlen raw >? 32 then fail DECLARED_DATE_INVALID
      else
        parts ← date_pattern (_format_of spec);
        match match_date parts raw (0, 0, 0) with
        | None => fail DECLARED_DATE_INVALID
        | Some (y, m, d) => if valid_date y m d then succeed (VDate y m d) else fail DECLARED_DATE_INVALID
        end
  | _ => fail DECLARED_DATE_INVALID
  end.

(** [fields.get(p, p)] *)
Definition render_part (y m d : Z) (p : date_part) : pystr :=
  match p with
  | PYear => rjust (str_int y) 4 48
  | PMonth => rjust (str_int m) 2 48
  | PDay => rjust (str_int d) 2 48
  | PLit c => [c]
  end.

Definition format_date (spec : DateSpec) (value : cell) : result CastOutcome :=
  match value with
  | VDate y m d =>
      parts ← date_pattern (_format_of spec);
      succeed (VStr (parts ≫= render_part y m d))
  | _ => fail DECLARED_DATE_INVALID
  end.

(** ** Lemmas *)

Lemma days_in_month_bound y m : 28 <= days_in_month y m <= 31.
Proof. unfold days_in_month. destruct (m =? 2), (leap y); try lia; case_bool_decide; lia. Qed.

Lemma valid_date_bounds y m d : valid_date y m d = true -> 1 <= y <= 9999 /\ 1 <= m <= 12 /\ 1 <= d <= 31.
Proof. unfold valid_date. intros H. bool_prop. pose proof (days_in_month_bound y m). lia. Qed.

Lemma take_digits_rjust u w s :
  0 <= u < 10 ^ w -> 1 <= w -> take_digits (Z.to_nat w) (rjust (str_int u) w 48 ++ s) = Some (u, s).
Proof.
  intros Hu Hw. rewrite rjust_digits by lia. unfold take_digits.
  set (l := pos_digits 10 (Z.to_nat w) u).
  assert (Hl : length (digit_chars l) = Z.to_nat w) by (rewrite length_digit_chars; apply length_pos_digits).
  rewrite take_app_length' by done. rewrite drop_app_length' by done.
  rewrite Hl, Nat.eqb_refl, digit_chars_digits by (by apply pos_digits_range). cbn [andb].
  rewrite int_digits_chars. unfold l. rewrite pos_val_digits_small; [done|lia|]. by rewrite Z2Nat.id by lia.
Qed.

Lemma render_part_width y m d p : valid_date y m d = true -> zlen (render_part y m d p) = part_width p.
Proof.
  intros H%valid_date_bounds. destruct p; cbn [render_part part_width]; [| | |done];
    rewrite rjust_digits by (change (10 ^ 4) with 10000; change (10 ^ 2) with 100; lia);
    unfold zlen; by rewrite length_digit_chars, length_pos_digits.
Qed.

Definition rendered_date (y m d : Z) (parts : list date_part) : pystr := parts ≫= render_part y m d.

Lemma rendered_date_width y m d parts :
  valid_date y m d = true ->
  zlen (rendered_date y m d parts) = foldr (fun p n => part_width p + n) 0 parts.
Proof.
  intros H. induction parts as [|p parts IH]; [done|]. unfold rendered_date in *.
  rewrite bind_cons, zlen_app, IH, render_part_width by done. done.
Qed.

Definition has (t : date_part) (parts : list date_part) : bool := bool_decide (t ∈ parts).

Lemma has_cons t p parts : has t (p :: parts) = bool_decide (t = p) || has t parts.
Proof.
  unfold has. rewrite <- bool_decide_or. apply bool_decide_ext. apply elem_of_cons.
Qed.

(** Matching a rendering reads its fields back. *)
Lemma match_rendered y m d parts y0 m0 d0 :
  valid_date y m d = true ->
  match_date parts (rendered_date y m d parts) (y0, m0, d0) =
  Some (if has PYear parts then y else y0, if has PMonth parts then m else m0, if has PDay parts then d else d0).
Proof.
  intros H. pose proof (valid_date_bounds _ _ _ H) as Hb. unfold rendered_date. revert y0 m0 d0.
  induction parts as [|p parts IH]; intros y0 m0 d0; [done|].
  rewrite !has_cons, bind_cons. destruct p as [| | |c]; cbn [match_date render_part].
  - change 4%nat with (Z.to_nat 4). rewrite take_digits_rjust by (change (10 ^ 4) with 10000; lia).
    cbn [mbind option_bind]. cbn [fst snd]. rewrite IH. cbn. by destruct (has PYear parts).
  - change 2%nat with (Z.to_nat 2). rewrite take_digits_rjust by (change (10 ^ 2) with 100; lia).
    cbn [mbind option_bind]. cbn [fst snd]. rewrite IH. cbn. by destruct (has PMonth parts).
  - change 2%nat with (Z.to_nat 2). rewrite take_digits_rjust by (change (10 ^ 2) with 100; lia).
    cbn [mbind option_bind]. cbn [fst snd]. rewrite IH. cbn. by destruct (has PDay parts).
  - cbn [app]. rewrite Z.eqb_refl. apply IH.
Qed.

Lemma each_once_has parts t : each_once parts = true -> t ∈ [PYear; PDay; PMonth] -> has t parts = true.
Proof.
  unfold each_once. intros H Ht. rewrite forallb_forall in H. apply list_elem_of_In in Ht. specialize (H t Ht).
  apply Nat.eqb_eq in H. unfold has. apply bool_decide_eq_true.
  destruct (List.filter (fun p => bool_decide (p = t)) parts) as [|q l] eqn:E; [discriminate|].
  assert (In q (List.filter (fun p => bool_decide (p = t)) parts)) as Hq by (rewrite E; by left).
  apply List.filter_In in Hq as [Hq Hp]. bool_prop. subst. by apply list_elem_of_In.
Qed.

Lemma date_pattern_once fmt parts : date_pattern fmt = Ok parts -> each_once parts = true.
Proof. unfold date_pattern. intros H. ok_inv. by bool_prop. Qed.

(** A date within the width limit reads back. *)
Lemma date_reads_back spec y m d w :
  valid_date y m d = true -> date_width (_format_of spec) = Ok w -> w <= 32 ->
  exists text, format_date spec (VDate y m d) = succeed (VStr text) /\ zlen text = w /\
    parse_date spec (VStr text) = succeed (VDate y m d).
Proof.
  intros Hv Hw Hle. unfold date_width in Hw. destruct (date_pattern (_format_of spec)) as [parts|] eqn:Hp; [|discriminate].
  cbn in Hw. injection Hw as <-. exists (rendered_date y m d parts). unfold format_date. rewrite Hp.
  split; [done|]. rewrite rendered_date_width by done. split; [done|].
  unfold parse_date. rewrite rendered_date_width by done.
  replace (_ >? 32) with false by lia. rewrite Hp. cbn [mbind result_bind]. rewrite match_rendered by done.
  apply date_pattern_once in Hp. rewrite !each_once_has by (done || set_solver). by rewrite Hv.
Qed.

Lemma take_digits_length n s v s' : take_digits n s = Some (v, s') -> zlen s = Z.of_nat n + zlen s'.
Proof.
  unfold take_digits. destruct (Nat.eqb _ _ && _) eqn:E; [|discriminate]. bool_prop. intros [= _ <-].
  apply Nat.eqb_eq in H. rewrite <- (take_drop n s) at 1. rewrite zlen_app. unfold zlen. rewrite H. lia.
Qed.

Lemma match_date_length parts s f r :
  match_date parts s f = Some r -> zlen s = foldr (fun p n => part_width p + n) 0 parts.
Proof.
  revert s f. induction parts as [|p parts IH]; intros s f H; cbn [match_date foldr] in *.
  - destruct (bool_decide (s = [])) eqn:E; [|discriminate]. by bool_prop; subst.
  - destruct p as [| | |c].
    1-3: destruct (take_digits _ s) as [[v s']|] eqn:E; [|discriminate];
         apply take_digits_length in E; apply IH in H; cbn [part_width]; lia.
    destruct s as [|d s]; [discriminate|]. destruct (d =? c); [|discriminate]. apply IH in H.
    rewrite zlen_cons. cbn [part_width]. lia.
Qed.

(** A parsed date is a calendar date, and its format is within the width limit. *)
Lemma parse_date_valid spec raw v :
  parse_date spec raw = Ok (Success v) ->
  exists y m d w, v = VDate y m d /\ valid_date y m d = true /\ date_width (_format_of spec) = Ok w /\ w <= 32.
Proof.
  unfold parse_date, fail, succeed. destruct raw as [s| | | | | |]; try discriminate.
  destruct (zlen s >? 32) eqn:El; [discriminate|]. intros H. bool_prop.
  destruct (date_pattern (_format_of spec)) as [parts|] eqn:Hp; [|discriminate]. cbn [mbind result_bind] in H.
  destruct (match_date parts s (0, 0, 0)) as [[[y m] d]|] eqn:Em; [|discriminate].
  destruct (valid_date y m d) eqn:Ev; [|discriminate]. injection H as <-.
  apply match_date_length in Em. unfold date_width. rewrite Hp. cbn [mbind result_bind].
  eexists _, _, _, _. split_and!; [done|done|done|lia].
Qed.
