(* ===== verification/CastCatalog.v ===== *)
(** * Declared casting: the format catalog (declared_casting/_catalog.py)

    The table of kernels by format, the formatter that pads a rendered value and
    checks it against its own parser before emitting it, and the static width
    bounds. A specification is a validated contract model, one constructor per
    format identifier. *)

From S2P Require Import Prelude Numerals PyText CastNumeric CastCobol CastDate.

(** ** Specifications *)

Inductive ParseSpec : Type :=
| StringExact
| PInteger (spec : IntSpec)
| PPlain (spec : NumSpec)
| PGrouped (spec : NumSpec)
| PDateSpec (spec : DateSpec)
| PCurrency (spec : CurrencySpec)
| POverpunch (spec : CobolSpec)
| PZoned (spec : CobolSpec)
| PComp3 (spec : CobolSpec).

Inductive Align := align_left | align_right.
Inductive WidthUnit := code_points | unit_bytes.

(** Fixed-width output controls; [width_unit] may be declared or absent. *)
Record Padded := MkPadded { width : option Z; width_unit : option WidthUnit; pad : Z; align : Align }.

Inductive OutSpec : Type :=
| OString (p : Padded)
| OInteger (signed : bool) (bit_width : Z) (p : Padded)
| OZeroPad (signed : bool) (bit_width : Z) (p : Padded)
| OPlain (precision scale : Z) (p : Padded)
| OGrouped (spec : NumSpec) (p : Padded)
| ODate (spec : DateSpec) (p : Padded)
| OCurrency (spec : CurrencySpec) (p : Padded)
| OOverpunch (spec : CobolSpec)
| OZoned (spec : CobolSpec)
| OComp3 (spec : CobolSpec).

(** [getattr(model, "width", None)] and the other controls, with their defaults. *)
Definition padded_of (spec : OutSpec) : Padded :=
  match spec with
  | OString p | OInteger _ _ p | OZeroPad _ _ p | OPlain _ _ p | OGrouped _ p | ODate _ p | OCurrency _ p => p
  | OOverpunch _ | OZoned _ | OComp3 _ => MkPadded None None 32 align_right
  end.

Definition is_zero_pad (spec : OutSpec) : bool := match spec with OZeroPad _ _ _ => true | _ => false end.

(** ** Kernels by format *)

Definition DECLARED_CAST_INPUT_TYPE_INCOMPATIBLE : string := "declared_cast_input_type_incompatible".

Definition _string_exact (value : cell) : result CastOutcome :=
  match value with VStr _ => succeed value | _ => fail DECLARED_CAST_INPUT_TYPE_INCOMPATIBLE end.

(** The [_PARSE] table. *)
Definition parse_kernel (spec : ParseSpec) (raw : cell) : result CastOutcome :=
  match spec with
  | StringExact => _string_exact raw
  | PInteger s => parse_integer s raw
  | PPlain s => parse_plain s raw
  | PGrouped s => parse_grouped s raw
  | PDateSpec s => parse_date s raw
  | PCurrency s => parse_currency s raw
  | POverpunch s => parse_overpunch s raw
  | PZoned s => parse_zoned s raw
  | PComp3 s => parse_comp3 s raw
  end.

(** The [_FORMAT] table. *)
Definition format_kernel (spec : OutSpec) (value : cell) : result CastOutcome :=
  match spec with
  | OString _ => _string_exact value
  | OInteger signed w _ => format_integer (IntegerAscii signed w) value
  | OZeroPad signed w p => format_integer (IntegerZeroPad signed w (width p)) value
  | OPlain precision scale _ => format_plain (DecimalPlain precision scale) value
  | OGrouped s _ => format_plain s value
  | ODate s _ => format_date s value
  | OCurrency s _ => format_currency s value
  | OOverpunch s => format_overpunch s value
  | OZoned s => format_zoned s value
  | OComp3 s => format_comp3 s value
  end.

(** The parse-side twin: the [inverse] column of [_FORMAT] with the shared fields. *)
Definition twin (spec : OutSpec) : ParseSpec :=
  match spec with
  | OString _ => StringExact
  | OInteger signed w _ | OZeroPad signed w _ => PInteger (IntegerAscii signed w)
  | OPlain precision scale _ => PPlain (DecimalPlain precision scale)
  | OGrouped s _ => PGrouped s
  | ODate s _ => PDateSpec s
  | OCurrency s _ => PCurrency s
  | OOverpunch s => POverpunch s
  | OZoned s => PZoned s
  | OComp3 s => PComp3 s
  end.

(** ** Widths *)

Definition _measure (text : pystr) (unit : option WidthUnit) : result Z :=
  match unit with
  | Some unit_bytes => b ← utf8_encode text; Ok (zlen b)
  | _ => Ok (zlen text)
  end.

Definition _static_width (spec : OutSpec) : result (option Z) :=
  match spec with
  | ODate DateIso _ => Ok (Some 10)
  | ODate (DateFormat fmt) _ => w ← date_width fmt; Ok (Some w)
  | OOverpunch s | OZoned s => Ok (Some (co_precision s))
  | OComp3 s => Ok (Some (comp3_length (co_precision s)))
  | _ => Ok None
  end.

Definition output_width (spec : OutSpec) : result (option Z) :=
  match width (padded_of spec) with
  | Some w => Ok (Some w)
  | None => _static_width spec
  end.

(** The widest unpadded decimal text without its sign. *)
Definition decimal_width (precision scale : Z) (group : option Z) : Z :=
  let whole := Z.max (precision - scale) 1 in
  let number := whole + (if scale =? 0 then 0 else scale + 1) in
  match group with Some _ => number + (whole - 1) / 3 | None => number end.

Definition max_rendered_width (spec : OutSpec) : result (option Z) :=
  fixed ← _static_width spec;
  match fixed with
  | Some w => Ok (Some w)
  | None =>
      let unit := default code_points (width_unit (padded_of spec)) in
      match spec with
      | OInteger signed w _ | OZeroPad signed w _ =>
          let '(lo, hi) := int_bounds signed w in
          Ok (Some (Z.max (zlen (str_int lo)) (zlen (str_int hi))))
      | OPlain precision scale _ => Ok (Some (decimal_width precision scale None + 1))
      | OGrouped s _ => Ok (Some (decimal_width (precision s) (scale s) (group s) + 1))
      | OCurrency s _ =>
          let n := cur_num s in
          t ← _measure (token s) (Some unit);
          Ok (Some (decimal_width (precision n) (scale n) (group n) + 2 + t))
      | _ => Ok None
      end
  end.

(** ** The exact-inverse check *)

(** Equality of finite decimals by value. *)
Definition dec_value_eq (s : bool) (c e : Z) (s' : bool) (c' e' : Z) : bool :=
  let m := Z.min e e' in
  let v (s : bool) c e := (if s then - c else c) * 10 ^ (e - m) in
  v s c e =? v s' c' e'.

(** Equal values of the same type; decimals also of the same sign. A parser's
    result is never a special decimal. *)
Definition _same (a b : cell) : bool :=
  match a, b with
  | VDec (DFinite s c e), VDec (DFinite s' c' e') => dec_value_eq s c e s' c' e' && Bool.eqb s s'
  | VStr x, VStr y => bool_decide (x = y)
  | VBytes x, VBytes y => bool_decide (x = y)
  | VInt x, VInt y => x =? y
  | VBool x, VBool y => Bool.eqb x y
  | VDate y m d, VDate y' m' d' => (y =? y') && (m =? m') && (d =? d')
  | _, _ => false
  end.

(** The scale and precision of a decimal twin. *)
Definition decimal_shape (t : ParseSpec) : option (Z * Z) :=
  match t with
  | PPlain s | PGrouped s => Some (scale s, precision s)
  | PCurrency s => Some (scale (cur_num s), precision (cur_num s))
  | POverpunch s | PZoned s | PComp3 s => Some (co_scale s, co_precision s)
  | _ => None
  end.

Definition _normalized (value : cell) (t : ParseSpec) : result (option cell) :=
  match decimal_shape t with
  | Some (scale, precision) =>
      match unscale value scale precision with
      | inr _ => Ok None
      | inl (unscaled, negative) => v ← scaled unscaled scale negative; Ok (Some (VDec v))
      end
  | None => Ok (Some value)
  end.

Definition strip_pad (strip : option Align) (pad : Z) (emitted : cell) : cell :=
  match strip, emitted with
  | Some align_right, VStr s => VStr (lstrip_if (Z.eqb pad) s)
  | Some align_left, VStr s => VStr (rstrip_if (Z.eqb pad) s)
  | _, _ => emitted
  end.

Definition contract_error : exn := Exn "DeclaredCastContractError" "declared_cast_contract_invalid".

Definition _inverse_checked (emitted : cell) (t : ParseSpec) (value : cell) (strip : option Align) (pad : Z)
    : result CastOutcome :=
  let probe := strip_pad strip pad emitted in
  back ← parse_kernel t probe;
  expected ← (match t with StringExact => Ok (Some value) | _ => _normalized value t end);
  let agrees :=
    match back, expected with Success v, Some e => _same v e | _, _ => false end in
  if agrees then succeed emitted
  else match t with
       | StringExact => fail DECLARED_OUTPUT_WIDTH_OVERFLOW
       | _ => Err contract_error
       end.

(** [pad * room] around the text. *)
Definition pad_text (text : pystr) (room pad : Z) (a : Align) : pystr :=
  match a with
  | align_left => text ++ replicate (Z.to_nat room) pad
  | align_right => replicate (Z.to_nat room) pad ++ text
  end.

(** [compile_formatter(spec)] applied to a value. *)
Definition format_value (spec : OutSpec) (value : cell) : result CastOutcome :=
  out ← format_kernel spec value;
  match out with
  | Failure reason => fail reason
  | Success (VStr text) =>
      let p := padded_of spec in
      match width p with
      | Some w =>
          if is_zero_pad spec then _inverse_checked (VStr text) (twin spec) value None (pad p)
          else
            n ← _measure text (width_unit p);
            let room := w - n in
            if room <? 0 then fail DECLARED_OUTPUT_WIDTH_OVERFLOW
            else _inverse_checked (VStr (pad_text text room (pad p) (align p))) (twin spec) value
                   (Some (align p)) (pad p)
      | None => _inverse_checked (VStr text) (twin spec) value None (pad p)
      end
  | Success emitted => _inverse_checked emitted (twin spec) value None 32
  end.

Definition parse_value (spec : ParseSpec) (raw : cell) : result CastOutcome := parse_kernel spec raw.

(** ** What the contract guarantees, and the parsers' own limits *)

Definition valid_contract (spec : OutSpec) : Prop :=
  match spec with
  | OString _ => True
  | OInteger _ w _ | OZeroPad _ w _ => valid_bit_width w = true
  | OPlain precision scale _ => valid_precision precision scale = true
  | OGrouped s _ => valid_num s = true
  | ODate s _ => is_ok (date_pattern (_format_of s)) = true
  | OCurrency s _ => valid_currency s
  | OOverpunch s | OZoned s | OComp3 s => valid_cobol s = true
  end.

(** The longest text the twin parser reads: 128 characters for an integer, 32 for
    a date. The contract does not bound a declared width by them. *)
Definition within_parser_limits (spec : OutSpec) : Prop :=
  match spec with
  | OZeroPad _ _ p => default 0 (width p) <= MAX_TEXT
  | ODate s _ => match date_width (_format_of s) with Ok w => w <= 32 | Err _ => False end
  | _ => True
  end.

(** A value as Python can hold it. *)
Definition value_ok (v : cell) : Prop :=
  cell_ok v /\ match v with VDate y m d => valid_date y m d = true | _ => True end.

(** The declared padding would also eat the text it surrounds. *)
Definition pad_hides (spec : OutSpec) (text : pystr) : bool :=
  match width (padded_of spec), align (padded_of spec) with
  | Some _, align_right => negb (is_zero_pad spec) && bool_decide (head text = Some (pad (padded_of spec)))
  | Some _, align_left => negb (is_zero_pad spec) && bool_decide (list.last text = Some (pad (padded_of spec)))
  | None, _ => false
  end.

(** ** Kernels and twins *)

(** A kernel's outcome: a coded failure, or a value its twin reads back. *)
Inductive kernel_outcome (spec : OutSpec) (value : cell) : Prop :=
| KFails reason : format_kernel spec value = fail reason -> kernel_outcome spec value
| KWrites out back expected :
    format_kernel spec value = succeed out ->
    (match out with VStr _ | VBytes _ => True | _ => False end) ->
    parse_kernel (twin spec) out = succeed back ->
    _normalized value (twin spec) = Ok (Some expected) -> _same back expected = true ->
    kernel_outcome spec value.

Lemma same_dec s c e : _same (VDec (DFinite s c e)) (VDec (DFinite s c e)) = true.
Proof. cbn. unfold dec_value_eq. by rewrite Z.eqb_refl, eqb_reflx. Qed.

Lemma normalized_dec value t scale precision u negative :
  decimal_shape t = Some (scale, precision) -> valid_precision precision scale = true ->
  unscale value scale precision = inl (u, negative) -> u < 10 ^ precision ->
  _normalized value t = Ok (Some (VDec (DFinite negative u (- scale)))).
Proof.
  intros Hd Hp Hu Hb. unfold _normalized. rewrite Hd, Hu, (scaled_ok _ _ precision) by done. done.
Qed.

(** A decimal kernel that writes what its twin reads back at the declared scale. *)
Lemma decimal_kernel spec value scale precision :
  decimal_shape (twin spec) = Some (scale, precision) -> valid_precision precision scale = true -> cell_ok value ->
  (forall reason, unscale value scale precision = inr reason -> format_kernel spec value = fail reason) ->
  (forall u negative, 0 <= u < 10 ^ precision -> unscale value scale precision = inl (u, negative) ->
     (exists reason, format_kernel spec value = fail reason) \/
     exists out, format_kernel spec value = succeed out /\ (match out with VStr _ | VBytes _ => True | _ => False end) /\
       parse_kernel (twin spec) out = succeed (VDec (DFinite negative u (- scale)))) ->
  kernel_outcome spec value.
Proof.
  intros Hd Hp Hok Hf Hs. destruct (unscale value scale precision) as [[u negative]|reason] eqn:E.
  - pose proof (unscale_bound _ _ _ _ _ Hok E) as Hb.
    destruct (Hs u negative Hb eq_refl) as [[reason H]|(out & Hw & Ht & Hr)]; [by eapply KFails|].
    eapply KWrites; [exact Hw|exact Ht|exact Hr| |apply same_dec]. eapply normalized_dec; eauto. lia.
  - eapply KFails. by apply Hf.
Qed.

Lemma kernel_inverse spec value :
  valid_contract spec -> within_parser_limits spec -> value_ok value ->
  match spec with OString _ => False | _ => True end -> kernel_outcome spec value.
Proof.
  intros Hv Hl [Hok Hdate] Hns.
  destruct spec as [p|sg w p|sg w p|pr sc p|s p|s p|s p|s|s|s]; cbn [valid_contract within_parser_limits] in *; [done| | | | | | | | |].
  - destruct value as [| |v| | | |]; try (eapply KFails; reflexivity).
    destruct (format_integer (IntegerAscii sg w) (VInt v)) as [[out|r]|e] eqn:E.
    + destruct (format_integer_shape _ _ _ E) as [text ->]. destruct (format_integer_text _ _ _ E) as (Hb & n & -> & ->).
      eapply (KWrites _ _ _ (VInt v) (VInt v)); [exact E|done| |reflexivity|exact (Z.eqb_refl v)].
      apply integer_reads_back; [done|done|]. by apply ascii_text_short with sg w.
    + by eapply KFails.
    + by apply format_integer_no_raise in E.
  - destruct value as [| |v| | | |]; try (eapply KFails; reflexivity).
    destruct (format_integer (IntegerZeroPad sg w (width p)) (VInt v)) as [[out|r]|e] eqn:E.
    + destruct (format_integer_shape _ _ _ E) as [text ->]. destruct (format_integer_text _ _ _ E) as (Hb & n & Ht & Hn).
      eapply (KWrites _ _ _ (VInt v) (VInt v)); [exact E|done| |reflexivity|exact (Z.eqb_refl v)].
      cbn [parse_kernel twin]. rewrite Ht. apply integer_reads_back; [done|done|]. rewrite <- Ht, Hn. exact Hl.
    + by eapply KFails.
    + by apply format_integer_no_raise in E.
  - apply (decimal_kernel _ _ sc pr); [done|done|done| |].
    + intros reason H. cbn. unfold format_plain. cbn. by rewrite H.
    + intros u negative Hb H. right. eexists. cbn [format_kernel]. unfold format_plain.
      cbn [scale precision radix group DecimalPlain]. rewrite H. split; [reflexivity|]. split; [done|].
      by apply plain_reads_back.
  - apply (decimal_kernel _ _ (scale s) (precision s)); [done|by apply valid_num_precision|done| |].
    + intros reason H. cbn. unfold format_plain. by rewrite H.
    + intros u negative Hb H. right. eexists. cbn [format_kernel]. unfold format_plain. rewrite H.
      split; [reflexivity|]. split; [done|]. by apply grouped_reads_back.
  - destruct value as [| | | | |y m d|]; try (eapply KFails; reflexivity).
    destruct (date_width (_format_of s)) as [w|] eqn:Hw; [|done].
    destruct (date_reads_back s y m d w Hdate Hw Hl) as (text & Hf & _ & Hp).
    eapply KWrites; [exact Hf|done|exact Hp|reflexivity|]. cbn. by rewrite !Z.eqb_refl.
  - destruct Hv as [Hn Ht]. apply (decimal_kernel _ _ (scale (cur_num s)) (precision (cur_num s)));
      [done|by apply valid_num_precision|done| |].
    + intros reason H. cbn. unfold format_currency. by rewrite H.
    + intros u negative Hb H. right. eexists. cbn [format_kernel]. unfold format_currency. rewrite H.
      split; [reflexivity|]. split; [done|]. by apply (currency_reads_back s u negative).
  - apply (decimal_kernel _ _ (co_scale s) (co_precision s)); [done|done|done| |].
    + intros reason H. cbn. unfold format_overpunch. by rewrite H.
    + intros u negative Hb H. right. destruct (overpunch_reads_back s value u negative Hv Hok H) as (t & Hf & _ & Hp).
      eexists. split; [exact Hf|]. split; [done|exact Hp].
  - apply (decimal_kernel _ _ (co_scale s) (co_precision s)); [done|done|done| |].
    + intros reason H. cbn. unfold format_zoned. by rewrite H.
    + intros u negative Hb H. destruct (negative && negb (co_signed s)) eqn:Hneg.
      * left. eexists. cbn. unfold format_zoned. by rewrite H, Hneg.
      * right. destruct (zoned_reads_back s value u negative Hv Hok H Hneg) as (t & Hf & _ & Hp).
        eexists. split; [exact Hf|]. split; [done|exact Hp].
  - apply (decimal_kernel _ _ (co_scale s) (co_precision s)); [done|done|done| |].
    + intros reason H. cbn. unfold format_comp3. by rewrite H.
    + intros u negative Hb H. destruct (negative && negb (co_signed s)) eqn:Hneg.
      * left. eexists. cbn. unfold format_comp3. by rewrite H, Hneg.
      * right. destruct (comp3_reads_back s value u negative Hv Hok H Hneg) as (t & Hf & _ & Hp).
        eexists. split; [exact Hf|]. split; [done|exact Hp].
Qed.

(** ** Padding *)

Lemma lstrip_keeps c s : head s <> Some c -> lstrip_if (Z.eqb c) s = s.
Proof.
  destruct s as [|d s]; [done|]. cbn. intros H. destruct (Z.eqb_spec c d) as [->|]; [|done]. by destruct H.
Qed.

Lemma replicate_all c n : forallb (Z.eqb c) (replicate n c) = true.
Proof. induction n as [|n IH]; [done|]. cbn. by rewrite Z.eqb_refl. Qed.

Lemma lstrip_padded c n s : head s <> Some c -> lstrip_if (Z.eqb c) (replicate n c ++ s) = s.
Proof. intros H. rewrite lstrip_if_app by apply replicate_all. by apply lstrip_keeps. Qed.

Lemma head_rev (s : pystr) : head (rev s) = list.last s.
Proof.
  destruct s as [|c s _] using rev_ind; [done|]. by rewrite rev_app_distr, last_snoc.
Qed.

Lemma rev_replicate n (c : Z) : rev (replicate n c) = replicate n c.
Proof. rewrite <- (reverse_replicate n c) at 2. unfold reverse. by rewrite <- rev_alt. Qed.

Lemma rstrip_padded c n s : list.last s <> Some c -> rstrip_if (Z.eqb c) (s ++ replicate n c) = s.
Proof.
  intros H. unfold rstrip_if. rewrite rev_app_distr, rev_replicate, lstrip_padded by (by rewrite head_rev).
  apply rev_involutive.
Qed.

Lemma strip_padded spec text room :
  width (padded_of spec) <> None -> is_zero_pad spec = false -> pad_hides spec text = false ->
  strip_pad (Some (align (padded_of spec))) (pad (padded_of spec))
    (VStr (pad_text text room (pad (padded_of spec)) (align (padded_of spec)))) = VStr text.
Proof.
  unfold pad_hides. intros Hw Hz Hp. rewrite Hz in Hp. destruct (width (padded_of spec)) as [w|]; [|done].
  destruct (align (padded_of spec)); cbn [strip_pad pad_text]; cbn [negb andb] in Hp; bool_prop; f_equal.
  - by apply rstrip_padded.
  - by apply lstrip_padded.
Qed.

Lemma inverse_checked_ok spec value strip c emitted back expected :
  match spec with OString _ => False | _ => True end ->
  parse_kernel (twin spec) (strip_pad strip c emitted) = succeed back ->
  _normalized value (twin spec) = Ok (Some expected) -> _same back expected = true ->
  _inverse_checked emitted (twin spec) value strip c = succeed emitted.
Proof.
  intros Hs Hb Hn Hsame. unfold _inverse_checked. rewrite Hb. cbn [mbind result_bind succeed].
  assert (match twin spec with StringExact => Ok (Some value) | _ => _normalized value (twin spec) end = Ok (Some expected))
    as -> by (by destruct spec).
  cbn [mbind result_bind]. by rewrite Hsame.
Qed.

(** The value a formatted cell stands for: its text without the padding. *)
Definition unpadded (spec : OutSpec) (out : cell) : cell :=
  if is_zero_pad spec then out
  else match width (padded_of spec) with
       | Some _ => strip_pad (Some (align (padded_of spec))) (pad (padded_of spec)) out
       | None => out
       end.

(** An outcome whose emitted value, stripped, reads back. *)
Definition reads_back (spec : OutSpec) (value : cell) (r : result CastOutcome) : Prop :=
  exists outcome, r = Ok outcome /\
    forall out, outcome = Success out ->
      exists back expected, parse_value (twin spec) (unpadded spec out) = succeed back /\
        match spec with OString _ => Ok (Some value) | _ => _normalized value (twin spec) end = Ok (Some expected) /\
        _same back expected = true.

Lemma reads_back_fail spec value reason : reads_back spec value (fail reason).
Proof. eexists. split; [reflexivity|]. discriminate. Qed.

(** A character UTF-8 has no bytes for. *)
Definition surrogate_char (c : Z) : bool := (55296 <=? c) && (c <? 57344).

(** A text whose width in bytes is asked for and that has no bytes. *)
Definition unmeasurable (spec : OutSpec) (text : pystr) : bool :=
  bool_decide (width (padded_of spec) <> None) && negb (is_zero_pad spec) &&
  match width_unit (padded_of spec) with Some unit_bytes => existsb surrogate_char text | _ => false end.

Lemma utf8_encode_fails s e : utf8_encode s = Err e -> existsb surrogate_char s = true /\ e = exc "UnicodeEncodeError".
Proof.
  unfold utf8_encode. intros H. assert (Hm : map_res utf8_char s = Err e) by (destruct (map_res utf8_char s); cbn in H; congruence). clear H.
  induction s as [|c s IH]; [done|]. cbn [map_res existsb] in *. destruct (utf8_char c) as [b|e'] eqn:E.
  - cbn [mbind result_bind] in Hm. destruct (map_res utf8_char s) as [bs|e2] eqn:Es; [done|].
    cbn [mbind result_bind] in Hm. injection Hm as ->. destruct (IH eq_refl) as [-> ->]. by rewrite orb_true_r.
  - injection Hm as <-. unfold utf8_char in E. destruct (c <? 128); [done|]. destruct (c <? 2048); [done|].
    unfold surrogate_char. destruct (_ && _); [by injection E as <-|]. by destruct (c <? 65536).
Qed.

(** The one way to raise. *)
Definition raises_unmeasured (spec : OutSpec) (value : cell) : Prop :=
  exists text, format_kernel spec value = succeed (VStr text) /\ unmeasurable spec text = true /\
    format_value spec value = Err (exc "UnicodeEncodeError").

Lemma measure_fails spec text w e :
  width (padded_of spec) = Some w -> is_zero_pad spec = false -> _measure text (width_unit (padded_of spec)) = Err e ->
  unmeasurable spec text = true /\ e = exc "UnicodeEncodeError".
Proof.
  intros Hw Hz H. unfold unmeasurable. rewrite Hw, Hz. destruct (width_unit (padded_of spec)) as [[]|]; cbn [_measure] in H; try discriminate.
  destruct (utf8_encode text) as [b|e'] eqn:E; [discriminate|]. injection H as <-. destruct (utf8_encode_fails _ _ E) as [-> ->]. done.
Qed.

Lemma string_reads_back p value :
  reads_back (OString p) value (format_value (OString p) value) \/ raises_unmeasured (OString p) value.
Proof.
  destruct value as [s| | | | | |]; try (left; apply reads_back_fail).
  assert (Hic : forall strip emitted, unpadded (OString p) (VStr emitted) = strip_pad strip (pad p) (VStr emitted) ->
    reads_back (OString p) (VStr s) (_inverse_checked (VStr emitted) StringExact (VStr s) strip (pad p))).
  { intros strip emitted Hu. unfold _inverse_checked. destruct (strip_pad strip (pad p) (VStr emitted)) as [s'| | | | | |] eqn:E;
      cbn [parse_kernel _string_exact mbind result_bind succeed fail]; try apply reads_back_fail.
    cbn [_same]. destruct (bool_decide (s' = s)) eqn:Eq; [|apply reads_back_fail]. bool_prop. subst s'.
    eexists. split; [reflexivity|]. intros out [= <-]. exists (VStr s), (VStr s). rewrite Hu.
    split_and!; [done|done|]. cbn. by rewrite bool_decide_true. }
  assert (Hf : format_kernel (OString p) (VStr s) = succeed (VStr s)) by done.
  unfold raises_unmeasured, format_value. rewrite Hf. cbn [mbind result_bind succeed padded_of is_zero_pad].
  destruct (width p) as [w|] eqn:Ew; [|left; apply Hic; unfold unpadded; cbn; by rewrite Ew].
  destruct (_measure s (width_unit p)) as [n|e] eqn:Em; cbn [mbind result_bind].
  - left. destruct (w - n <? 0); [apply reads_back_fail|]. apply Hic. unfold unpadded. cbn. by rewrite Ew.
  - right. exists s. destruct (measure_fails (OString p) s w e Ew eq_refl Em) as [? ->]. done.
Qed.

(** ** Properties *)

(** C32: every formatter is the exact inverse of its parser, so the check the engine
    makes on each emitted cell never fires. For a contract-valid output format whose
    texts fit the parsers' limits, on any value, and with a pad character that does not
    also begin (or end) the text, formatting returns an outcome, and what it emits,
    stripped of the padding, parses under the twin format to the value itself, normalised
    to the declared scale; except that a text with a lone surrogate, whose width is
    declared in bytes, has no width to measure: there formatting raises
    [UnicodeEncodeError], and it raises nowhere else. *)
Theorem formatter_exact_inverse spec value :
  valid_contract spec -> within_parser_limits spec -> value_ok value ->
  (forall text, format_kernel spec value = succeed (VStr text) ->
     match spec with OString _ => True | _ => pad_hides spec text = false end) ->
  (exists outcome, format_value spec value = Ok outcome /\
    forall out, outcome = Success out ->
      exists back expected, parse_value (twin spec) (unpadded spec out) = succeed back /\
        match spec with OString _ => Ok (Some value) | _ => _normalized value (twin spec) end = Ok (Some expected) /\
        _same back expected = true) \/
  raises_unmeasured spec value.
Proof.
  intros Hv Hl Hok Hm. change (reads_back spec value (format_value spec value) \/ raises_unmeasured spec value).
  assert (Hcase : (exists p, spec = OString p) \/ match spec with OString _ => False | _ => True end)
    by (destruct spec; eauto).
  destruct Hcase as [[p ->]|Hns]; [apply string_reads_back|].
  destruct (kernel_inverse spec value Hv Hl Hok Hns) as [reason Hf|out back expected Hf Ht Hb Hn Hs].
  { left. unfold format_value. rewrite Hf. apply reads_back_fail. }
  assert (Hemit : forall strip c emitted, strip_pad strip c emitted = out -> unpadded spec emitted = out ->
    reads_back spec value (_inverse_checked emitted (twin spec) value strip c)).
  { intros strip c emitted Hp Hu. rewrite (inverse_checked_ok spec value strip c emitted back expected); [|done|by rewrite Hp|done|done].
    eexists. split; [reflexivity|]. intros o [= <-]. exists back, expected. rewrite Hu. split_and!; [done| |done].
    by destruct spec. }
  unfold raises_unmeasured, format_value. rewrite Hf. cbn [mbind result_bind succeed].
  destruct out as [text|b| | | | |]; try done.
  - pose proof (Hm text Hf) as Hhide. unfold unpadded in Hemit.
    destruct (is_zero_pad spec) eqn:Ez; [left; destruct (width (padded_of spec)); by apply Hemit|].
    destruct (width (padded_of spec)) as [w|] eqn:Ew; [|left; by apply Hemit].
    destruct (_measure text _) as [n|e] eqn:Em; cbn [mbind result_bind].
    2: { right. exists text. destruct (measure_fails spec text w e Ew Ez Em) as [? ->]. done. }
    left. destruct (w - n <? 0); [apply reads_back_fail|].
    assert (Hst : strip_pad (Some (align (padded_of spec))) (pad (padded_of spec))
      (VStr (pad_text text (w - n) (pad (padded_of spec)) (align (padded_of spec)))) = VStr text)
      by (apply strip_padded; [by rewrite Ew|done|by destruct spec]).
    by apply Hemit.
  - left. apply Hemit; [done|]. unfold unpadded. destruct (is_zero_pad spec); [done|].
    destruct (width (padded_of spec)); [|done]. by destruct (align (padded_of spec)).
Qed.

(** ** Widths *)

Definition cell_len (c : cell) : Z := match c with VStr s => zlen s | VBytes b => zlen b | _ => 0 end.

Lemma inverse_checked_emits emitted t value strip c out :
  _inverse_checked emitted t value strip c = Ok (Success out) -> out = emitted.
Proof.
  unfold _inverse_checked, succeed, fail. intros H. ok_inv.
  destruct (match a with Success v => match a0 with Some e => _same v e | None => false end | _ => false end).
  - by injection H as <-.
  - destruct t; discriminate.
Qed.

Lemma str_int_mono a b : 0 <= a <= b -> zlen (str_int a) <= zlen (str_int b).
Proof.
  intros H. destruct (dec_digits_spec b) as [Hv Hr Hp _]; [lia|].
  pose proof (pos_val_bound 10 _ ltac:(lia) Hr) as Hb. rewrite Hv in Hb.
  assert (zlen (str_int b) = zlen (dec_digits b)) as -> by (rewrite str_int_digits by lia; unfold zlen; by rewrite length_digit_chars).
  apply str_int_width; lia.
Qed.

Lemma integer_text_width signed w v :
  valid_bit_width w = true -> (int_bounds signed w).1 <= v <= (int_bounds signed w).2 ->
  zlen (sign_text (v <? 0) ++ digit_chars (dec_digits (Z.abs v))) <=
  Z.max (zlen (str_int (int_bounds signed w).1)) (zlen (str_int (int_bounds signed w).2)).
Proof.
  intros Hw Hv. pose proof (int_bounds_widths signed w Hw) as Hb. cbv zeta in Hb.
  rewrite <- str_int_split. destruct (int_bounds signed w) as [lo hi]. cbn [fst snd] in *.
  destruct (Z.ltb_spec v 0) as [Hneg|Hpos].
  - etransitivity; [|apply Z.le_max_l]. rewrite !str_int_split.
    replace (v <? 0) with true by lia. replace (lo <? 0) with true by lia. rewrite !zlen_app.
    rewrite <- !str_int_digits by lia. pose proof (str_int_mono (Z.abs v) (Z.abs lo)). lia.
  - etransitivity; [|apply Z.le_max_r]. apply str_int_mono. lia.
Qed.

Lemma decimal_width_number s : decimal_width (precision s) (scale s) (group s) = number_width s.
Proof. unfold decimal_width, number_width. destruct (group s); lia. Qed.

Lemma render_text_width s u :
  valid_num s = true -> 0 <= u < 10 ^ precision s ->
  zlen (render_number u (scale s) (radix s) (group s)) <= decimal_width (precision s) (scale s) (group s).
Proof.
  intros Hv Hu. destruct (render_number_ok s u Hv ltac:(lia)) as (whole & frac & Hro & _).
  rewrite decimal_width_number. apply (render_width _ _ _ _ _ Hv (proj2 Hu) Hro).
Qed.

(** The text or octets of a kernel fit the static bound. *)
Lemma kernel_width spec value out m :
  valid_contract spec -> value_ok value -> is_zero_pad spec = false ->
  width_unit (padded_of spec) <> Some unit_bytes ->
  format_kernel spec value = succeed out -> max_rendered_width spec = Ok (Some m) -> cell_len out <= m.
Proof.
  intros Hv [Hok Hdate] Hz Hunit Hf Hm.
  destruct spec as [p|sg w p|sg w p|pr sc p|s p|s p|s p|s|s|s]; try discriminate Hz; cbn [format_kernel valid_contract] in *.
  - discriminate.
  - destruct value as [| |v| | | |]; try discriminate.
    destruct (format_integer_shape _ _ _ Hf) as [text ->]. destruct (format_integer_text _ _ _ Hf) as (Hb & n & -> & ->).
    unfold max_rendered_width in Hm. cbn [_static_width mbind result_bind] in Hm. cbn [int_signed int_bit_width] in Hb.
    pose proof (integer_text_width sg w v Hv Hb) as Hle.
    destruct (int_bounds sg w) as [lo hi]. injection Hm as <-. exact Hle.
  - injection Hm as <-. unfold format_plain, fail in Hf.
    destruct (unscale _ _ _) as [[u negative]|] eqn:E; [|discriminate]. injection Hf as <-.
    pose proof (unscale_bound _ _ _ _ _ Hok E) as Hb. cbn [cell_len]. rewrite zlen_app.
    pose proof (sign_text_length negative). pose proof (render_text_width (DecimalPlain pr sc) u (valid_plain _ _ Hv) Hb) as Hw.
    unfold sign_text, decimal_width in *. cbn [precision scale radix group DecimalPlain] in *. lia.
  - injection Hm as <-. unfold format_plain, fail in Hf.
    destruct (unscale _ _ _) as [[u negative]|] eqn:E; [|discriminate]. injection Hf as <-.
    pose proof (unscale_bound _ _ _ _ _ Hok E) as Hb. cbn [cell_len]. rewrite zlen_app.
    pose proof (sign_text_length negative). pose proof (render_text_width s u Hv Hb). unfold sign_text, decimal_width in *. lia.
  - unfold format_date, fail in Hf. destruct value as [| | | | |y mo d|]; try discriminate.
    destruct (date_pattern (_format_of s)) as [parts|] eqn:Hp; [|discriminate]. injection Hf as <-.
    pose proof (rendered_date_width y mo d parts Hdate) as Hw. unfold rendered_date in Hw.
    unfold max_rendered_width, _static_width in Hm. cbn [cell_len]. rewrite Hw.
    destruct s as [|fmt]; cbn [_format_of] in Hp.
    + injection Hm as <-. vm_compute in Hp. injection Hp as <-. done.
    + unfold date_width in Hm. rewrite Hp in Hm. injection Hm as <-. lia.
  - unfold max_rendered_width, _measure in Hm. cbn [_static_width mbind result_bind padded_of] in *.
    assert (m = decimal_width (precision (cur_num s)) (scale (cur_num s)) (group (cur_num s)) + 2 + zlen (token s)) as ->.
    { destruct (width_unit p) as [[|]|]; [|done|]; by injection Hm as <-. }
    unfold format_currency, fail in Hf. destruct (unscale _ _ _) as [[u negative]|] eqn:E; [|discriminate]. injection Hf as <-.
    pose proof (unscale_bound _ _ _ _ _ Hok E) as Hb. pose proof (render_text_width (cur_num s) u (proj1 Hv) Hb) as Hw.
    change (cell_len (VStr (currency_text s u negative)) <= decimal_width (precision (cur_num s)) (scale (cur_num s)) (group (cur_num s)) + 2 + zlen (token s)).
    cbn [cell_len]. unfold currency_text. change (zlen (py "-")) with 1.
    destruct negative, (sign_style s), (token_position s); rewrite !zlen_app;
      change (zlen (py "-")) with 1; change (zlen (py "(")) with 1; change (zlen (py ")")) with 1; lia.
  - injection Hm as <-. destruct (unscale value (co_scale s) (co_precision s)) as [[u negative]|] eqn:E.
    + destruct (overpunch_reads_back s value u negative Hv Hok E) as (t & Hf' & Hl & _). rewrite Hf' in Hf. injection Hf as <-. cbn. lia.
    + unfold format_overpunch in Hf. rewrite E in Hf. discriminate.
  - injection Hm as <-. destruct (unscale value (co_scale s) (co_precision s)) as [[u negative]|] eqn:E.
    + destruct (negative && negb (co_signed s)) eqn:Hneg.
      * unfold format_zoned in Hf. rewrite E, Hneg in Hf. discriminate.
      * destruct (zoned_reads_back s value u negative Hv Hok E Hneg) as (t & Hf' & Hl & _). rewrite Hf' in Hf. injection Hf as <-. cbn. lia.
    + unfold format_zoned in Hf. rewrite E in Hf. discriminate.
  - injection Hm as <-. destruct (unscale value (co_scale s) (co_precision s)) as [[u negative]|] eqn:E.
    + destruct (negative && negb (co_signed s)) eqn:Hneg.
      * unfold format_comp3 in Hf. rewrite E, Hneg in Hf. discriminate.
      * destruct (comp3_reads_back s value u negative Hv Hok E Hneg) as (t & Hf' & Hl & _). rewrite Hf' in Hf. injection Hf as <-. cbn. lia.
    + unfold format_comp3 in Hf. rewrite E in Hf. discriminate.
Qed.

(** A padded format writes text. *)
Lemma kernel_text spec value out w :
  format_kernel spec value = Ok (Success out) -> width (padded_of spec) = Some w -> exists text, out = VStr text.
Proof.
  intros Hf Hw. destruct spec; cbn [format_kernel padded_of width] in *; try discriminate Hw.
  - unfold _string_exact, succeed, fail in Hf. destruct value; try discriminate. injection Hf as <-. eauto.
  - destruct value; try discriminate. by eapply format_integer_shape.
  - destruct value; try discriminate. by eapply format_integer_shape.
  - unfold format_plain, fail, succeed in Hf. destruct (unscale _ _ _) as [[??]|]; [|discriminate]. injection Hf as <-. eauto.
  - unfold format_plain, fail, succeed in Hf. destruct (unscale _ _ _) as [[??]|]; [|discriminate]. injection Hf as <-. eauto.
  - unfold format_date, fail, succeed in Hf. destruct value; try discriminate. ok_inv. eauto.
  - unfold format_currency, fail, succeed in Hf. destruct (unscale _ _ _) as [[??]|]; [|discriminate]. injection Hf as <-. eauto.
Qed.

(** Emitted cells have the declared width. Under a width declared in code
    points every emitted text has exactly that width, padding, sign and token
    included; without one, it never exceeds the static bound the engine computes
    before the run. *)
Theorem formatter_width spec value out :
  valid_contract spec -> value_ok value -> width_unit (padded_of spec) <> Some unit_bytes ->
  format_value spec value = Ok (Success out) ->
  match width (padded_of spec) with
  | Some w => cell_len out = w
  | None => forall m, is_zero_pad spec = false -> max_rendered_width spec = Ok (Some m) -> cell_len out <= m
  end.
Proof.
  intros Hv Hok Hunit H. unfold format_value, fail in H.
  destruct (format_kernel spec value) as [[o|]|] eqn:Hf; cbn [mbind result_bind] in H; try discriminate.
  destruct (width (padded_of spec)) as [w|] eqn:Ew.
  - destruct o as [text| | | | | |];
      try (apply inverse_checked_emits in H as ->; exfalso; by destruct (kernel_text spec value _ w Hf Ew)).
    destruct (is_zero_pad spec) eqn:Ez.
    + apply inverse_checked_emits in H as ->. destruct spec as [|? ? ?|sg bw p| | | | | | |]; try discriminate Ez.
      cbn [format_kernel padded_of] in *. destruct value as [| |v| | | |]; try discriminate.
      destruct (format_integer_text _ _ _ Hf) as (_ & n & _ & Hn). rewrite Ew in Hn. exact Hn.
    + assert (Hme : _measure text (width_unit (padded_of spec)) = Ok (zlen text))
        by (unfold _measure; by destruct (width_unit (padded_of spec)) as [[|]|]).
      rewrite Hme in H. cbn [mbind result_bind] in H. destruct (Z.ltb_spec (w - zlen text) 0); [discriminate|].
      apply inverse_checked_emits in H as ->. cbn [cell_len]. unfold pad_text.
      destruct (align (padded_of spec)); rewrite zlen_app, zlen_replicate by lia; lia.
  - intros m Hz Hm. assert (out = o) as -> by (destruct o; by apply inverse_checked_emits in H).
    by eapply kernel_width.
Qed.

(** The shape a parser reads, as an output format without padding. *)
Definition plain_out (t : ParseSpec) : OutSpec :=
  let p := MkPadded None None 32 align_right in
  match t with
  | StringExact => OString p
  | PInteger s => OInteger (int_signed s) (int_bit_width s) p
  | PPlain s => OPlain (precision s) (scale s) p
  | PGrouped s => OGrouped s p
  | PDateSpec s => ODate s p
  | PCurrency s => OCurrency s p
  | POverpunch s => OOverpunch s
  | PZoned s => OZoned s
  | PComp3 s => OComp3 s
  end.

Definition valid_parse (t : ParseSpec) : Prop :=
  match t with
  | StringExact => True
  | PInteger s => valid_bit_width (int_bit_width s) = true
  | PPlain s => s = DecimalPlain (precision s) (scale s) /\ valid_precision (precision s) (scale s) = true
  | PGrouped s => valid_num s = true
  | PDateSpec _ => True
  | PCurrency s => valid_currency s
  | POverpunch s | PZoned s | PComp3 s => valid_cobol s = true
  end.

Definition octets_ok (raw : cell) : Prop := match raw with VBytes b => Forall is_byte b | _ => True end.

Lemma unscale_shaped p s v :
  valid_precision p s = true -> shaped p s v ->
  exists negative u, v = VDec (DFinite negative u (- s)) /\ 0 <= u < 10 ^ p /\ unscale v s p = inl (u, negative).
Proof. intros Hp (negative & u & -> & Hu). exists negative, u. split_and!; [done|lia|lia|by apply unscale_scaled]. Qed.

(** re-emission is total and canonical. Whatever a parser accepts, the
    formatter of the same shape can write, and what it writes parses to exactly
    that value: a column that is only parsed and written back never fails, and
    parsing after formatting after parsing changes nothing. *)
Theorem parsed_values_reformat t raw v :
  valid_parse t -> octets_ok raw -> parse_value t raw = Ok (Success v) ->
  exists out, format_kernel (plain_out t) v = succeed out /\ parse_value t out = succeed v.
Proof.
  intros Hv Hoct H. unfold parse_value in *. destruct t as [|s|s|s|s|s|s|s|s]; cbn [parse_kernel plain_out format_kernel valid_parse] in *.
  - unfold _string_exact, succeed, fail in H. destruct raw; try discriminate. injection H as <-. eauto.
  - apply parse_integer_bounds in H as (n & -> & Hb).
    pose proof (integer_reads_back _ _ n 0 Hv Hb (ascii_text_short _ _ n Hv Hb)) as Hr.
    exists (VStr (str_int n)). rewrite str_int_split. split; [|by destruct s].
    unfold format_integer. cbn [int_signed int_bit_width]. destruct (int_bounds _ _) as [lo hi]. cbn [fst snd] in Hb.
    replace (lo <=? n) with true by lia. replace (n <=? hi) with true by lia. by rewrite str_int_split.
  - destruct Hv as [Hs Hp]. apply parse_plain_shaped in H as (negative & u & -> & Hu)%unscale_shaped; [|done].
    destruct Hu as [Hb Hun]. unfold format_plain. cbn [scale precision DecimalPlain radix group]. rewrite Hun.
    eexists. split; [reflexivity|]. rewrite Hs at 1. by apply plain_reads_back.
  - apply parse_grouped_shaped in H as (negative & u & -> & Hb & Hun)%unscale_shaped; [|by apply valid_num_precision].
    unfold format_plain. rewrite Hun. eexists. split; [reflexivity|]. by apply grouped_reads_back.
  - apply parse_date_valid in H as (y & m & d & w & -> & Hd & Hw & Hl).
    destruct (date_reads_back s y m d w Hd Hw Hl) as (text & Hf & _ & Hp). eauto.
  - apply parse_currency_shaped in H as (negative & u & -> & Hb & Hun)%unscale_shaped; [|apply valid_num_precision, Hv].
    unfold format_currency. rewrite Hun. eexists. split; [reflexivity|]. by apply (currency_reads_back s u negative).
  - destruct raw as [text| | | | | |]; try discriminate. exists (VStr text). split; [by apply (overpunch_parsed s)|done].
  - destruct raw as [|b| | | | |]; try discriminate.
    destruct (zoned_parse_shaped s b v Hv Hoct H) as (negative & u & -> & Hu & Hneg).
    destruct (zoned_reads_back s (VDec (DFinite negative u (- co_scale s))) u negative Hv) as (out & Hf & _ & Hp);
      [cbn; lia|by apply unscale_scaled|done|]. eauto.
  - destruct raw as [|b| | | | |]; try discriminate. exists (VBytes b). split; [by apply (comp3_parsed s)|done].
Qed.

(** ** Witnesses *)

Definition usd : CurrencySpec :=
  MkCurrency (MkNumSpec 8 2 46 (Some 44)) (py "$") prefix accounting_parentheses.
Definition wide : Padded := MkPadded (Some 14) (Some code_points) 42 align_right.

(** [-1234.5] as fourteen columns of dollars. *)
Definition debt : cell := VDec (DFinite true 12345 (-1)).

Example debt_text : format_value (OCurrency usd wide) debt = succeed (VStr (py "***($1,234.50)")).
Proof. vm_compute. reflexivity. Qed.

Lemma usd_valid : valid_currency usd.
Proof.
  split; [vm_compute; reflexivity|]. split_and!; [discriminate|vm_compute; discriminate| | |];
    apply (bool_decide_eq_true_1 (_ ∉ _)); vm_compute; reflexivity.
Qed.

Lemma formatter_exact_inverse_witness :
  exists outcome, format_value (OCurrency usd wide) debt = Ok outcome.
Proof.
  destruct (formatter_exact_inverse (OCurrency usd wide) debt usd_valid I) as [(outcome & H & _)|(text & _ & _ & H)].
  - split; [vm_compute; discriminate|exact I].
  - intros text H. vm_compute in H. injection H as <-. vm_compute. reflexivity.
  - exists outcome. exact H.
  - exfalso. vm_compute in H. discriminate H.
Defined.

Lemma formatter_width_witness : cell_len (VStr (py "***($1,234.50)")) = 14.
Proof.
  refine (formatter_width (OCurrency usd wide) debt (VStr (py "***($1,234.50)")) usd_valid _ _ debt_text).
  - split; [vm_compute; discriminate|exact I].
  - discriminate.
Defined.

Lemma parsed_values_reformat_witness :
  exists out, format_kernel (plain_out (PCurrency usd)) (VDec (DFinite true 123450 (-2))) = succeed out /\
    parse_value (PCurrency usd) out = succeed (VDec (DFinite true 123450 (-2))).
Proof.
  refine (parsed_values_reformat (PCurrency usd) (VStr (py "($1,234.50)")) (VDec (DFinite true 123450 (-2))) usd_valid I _).
  vm_compute. reflexivity.
Defined.

(** ** Boundary behaviour *)

(** A zero-padded width above the integer parser's text limit is a valid contract
    under which every value is refused with the contract error. *)
Lemma zero_pad_beyond_parser :
  format_value (OZeroPad true 64 (MkPadded (Some 129) (Some code_points) 48 align_right)) (VInt 7) = Err contract_error.
Proof. vm_compute. reflexivity. Qed.

(** So is a date format rendering more than 32 characters. *)
Lemma long_date_beyond_parser :
  let fmt := py "%Y-------------------------%m/%d" in
  is_ok (date_pattern fmt) = true /\
  format_value (ODate (DateFormat fmt) (MkPadded None None 32 align_right)) (VDate 2026 2 1) = Err contract_error.
Proof. split; vm_compute; reflexivity. Qed.

(** A lone surrogate in a column whose width is counted in bytes is not refused with a
    reason: the width cannot be measured, and the formatter raises. *)
Lemma byte_width_of_surrogate :
  format_value (OString (MkPadded (Some 8) (Some unit_bytes) 32 align_left)) (VStr [55296]) = Err (exc "UnicodeEncodeError").
Proof. vm_compute. reflexivity. Qed.

(** A minus as the pad character also eats the sign. *)
Lemma minus_pad_hides_sign :
  format_value (OInteger true 64 (MkPadded (Some 6) (Some code_points) 45 align_right)) (VInt (-5)) = Err contract_error.
Proof. vm_compute. reflexivity. Qed.
