(* ===== verification/Ledger.v ===== *)
(** * The generation budget ledger (generation/_budget_ledger.py)

    One counter of charged bytes per run, and the reservations that hold it. A
    reservation is a shared object that its holder may release more than once, so
    the model keeps a table of reservations beside the ledger and names them by
    their index. *)

From S2P Require Import Prelude PyData.

Record Reservation := MkReservation { stage : string; nbytes : Z; released : bool }.

Record GenerationBudgetLedger := MkLedger {
  ceiling_bytes : option Z;
  charged_bytes : Z;
  peak_bytes : Z;
  events : list (string * Z);
}.

(** The ledger and every reservation it has handed out. *)
Record budget := MkBudget { ledger : GenerationBudgetLedger; reservations : list Reservation }.

Definition new_ledger (ceiling : option Z) : budget := MkBudget (MkLedger ceiling 0 0 []) [].

Definition bounded (l : GenerationBudgetLedger) : bool := bool_decide (is_Some (ceiling_bytes l)).

Definition remaining_bytes (l : GenerationBudgetLedger) : option Z :=
  (fun c => c - charged_bytes l) <$> ceiling_bytes l.

Definition GenerationBudgetExceeded : exn := Exn "GenerationBudgetExceeded" "generation_budget_exceeded".

(** Charges the ledger and hands out a reservation, named by its index. *)
Definition reserve (b : budget) (stage : string) (upper_bound_bytes : Z) : result (budget * nat) :=
  let l := ledger b in
  _ ← raise_if (upper_bound_bytes <? 0) (exc "ValueError");
  _ ← raise_if (match ceiling_bytes l with
                | Some ceiling => charged_bytes l + upper_bound_bytes >? ceiling
                | None => false
                end) GenerationBudgetExceeded;
  let charged := charged_bytes l + upper_bound_bytes in
  let l' := MkLedger (ceiling_bytes l) charged (Z.max (peak_bytes l) charged)
              (events l ++ [(stage, upper_bound_bytes)]) in
  Ok (MkBudget l' (reservations b ++ [MkReservation stage upper_bound_bytes false]), length (reservations b)).

Definition _release (l : GenerationBudgetLedger) (nbytes : Z) : GenerationBudgetLedger :=
  MkLedger (ceiling_bytes l) (charged_bytes l - nbytes) (peak_bytes l) (events l).

(** [release]; a reservation that was never handed out has no holder. *)
Definition release (b : budget) (r : nat) : budget :=
  match reservations b !! r with
  | Some res =>
      if released res then b
      else MkBudget (_release (ledger b) (nbytes res))
             (<[r := MkReservation (stage res) (nbytes res) true]> (reservations b))
  | None => b
  end.

(** A [with] block: the body runs under the reservation, which is released
    whether the body returns or raises. *)
Definition with_reservation {A} (b : budget) (stage : string) (n : Z) (body : budget -> budget * result A)
    : budget * result A :=
  match reserve b stage n with
  | Err e => (b, Err e)
  | Ok (b1, r) => let '(b2, out) := body b1 in (release b2 r, out)
  end.

(** ** Runs *)

Inductive ledger_op : Type := OpReserve (stage : string) (n : Z) | OpRelease (r : nat).

Definition ledger_step (b : budget) (op : ledger_op) : budget :=
  match op with
  | OpReserve s n => match reserve b s n with Ok (b', _) => b' | Err _ => b end
  | OpRelease r => release b r
  end.

Definition ledger_run (b : budget) (ops : list ledger_op) : budget := fold_left ledger_step ops b.

(** The bytes still held. *)
Fixpoint held_bytes (rs : list Reservation) : Z :=
  match rs with
  | [] => 0
  | r :: rs' => (if released r then 0 else nbytes r) + held_bytes rs'
  end.

(** The counter is the sum of what is held, the peak bounds it, and a ceiling
    bounds them both. *)
Record ledger_inv (b : budget) : Prop := {
  li_charged : charged_bytes (ledger b) = held_bytes (reservations b);
  li_nonneg : Forall (fun r => 0 <= nbytes r) (reservations b);
  li_peak : charged_bytes (ledger b) <= peak_bytes (ledger b);
  li_ceiling : forall c, ceiling_bytes (ledger b) = Some c -> peak_bytes (ledger b) <= c;
  li_events : events (ledger b) = (fun r => (stage r, nbytes r)) <$> reservations b;
}.

Lemma held_bytes_app rs r : held_bytes (rs ++ [r]) = held_bytes rs + (if released r then 0 else nbytes r).
Proof. induction rs as [|x rs IH]; cbn; [lia|]. rewrite IH. lia. Qed.

Lemma held_bytes_nonneg rs : Forall (fun r => 0 <= nbytes r) rs -> 0 <= held_bytes rs.
Proof. induction 1 as [|r rs Hr Hrs IH]; cbn; [lia|]. destruct (released r); lia. Qed.

Lemma held_bytes_release rs i r :
  rs !! i = Some r -> released r = false ->
  held_bytes (<[i := MkReservation (stage r) (nbytes r) true]> rs) = held_bytes rs - nbytes r.
Proof.
  revert i. induction rs as [|x rs IH]; intros i Hi Hr; [done|]. destruct i as [|i].
  - injection Hi as ->. cbn. rewrite Hr. lia.
  - specialize (IH i Hi Hr). cbn [held_bytes]. rewrite <- Z.add_sub_assoc, <- IH. done.
Qed.

Lemma reserve_inv b s n b' r :
  reserve b s n = Ok (b', r) -> ledger_inv b ->
  ledger_inv b' /\ ceiling_bytes (ledger b') = ceiling_bytes (ledger b).
Proof.
  unfold reserve. intros H [Hc Hn Hp Hl He]. ok_inv. bool_prop.
  split; [|done]. constructor; cbn.
  - rewrite held_bytes_app, <- Hc. cbn. done.
  - apply Forall_app. split; [done|]. by apply Forall_singleton.
  - lia.
  - intros c Hceil. specialize (Hl c Hceil). rewrite Hceil in Heqb1. bool_prop. lia.
  - by rewrite fmap_app, He.
Qed.

Lemma release_inv b r :
  ledger_inv b -> ledger_inv (release b r) /\ ceiling_bytes (ledger (release b r)) = ceiling_bytes (ledger b).
Proof.
  intros [Hc Hn Hp Hl He]. unfold release. destruct (reservations b !! r) as [res|] eqn:E; [|by repeat constructor].
  destruct (released res) eqn:Er; [by repeat constructor|]. split; [|done].
  pose proof (Forall_lookup_1 _ _ _ _ Hn E) as Hres. cbn in Hres. constructor; cbn.
  - rewrite (held_bytes_release _ _ _ E Er). lia.
  - by apply Forall_insert.
  - lia.
  - done.
  - rewrite He, list_fmap_insert. symmetry. apply list_insert_id. by rewrite list_lookup_fmap, E.
Qed.

Lemma ledger_step_inv b op :
  ledger_inv b -> ledger_inv (ledger_step b op) /\ ceiling_bytes (ledger (ledger_step b op)) = ceiling_bytes (ledger b).
Proof.
  intros Hb. destruct op as [s n|r]; cbn [ledger_step]; [|by apply release_inv].
  destruct (reserve b s n) as [[b' i]|] eqn:E; [|done]. by eapply reserve_inv.
Qed.

Lemma ledger_run_inv b ops :
  ledger_inv b -> ledger_inv (ledger_run b ops) /\ ceiling_bytes (ledger (ledger_run b ops)) = ceiling_bytes (ledger b).
Proof.
  revert b. induction ops as [|op ops IH]; intros b Hb; [done|].
  change (ledger_run b (op :: ops)) with (ledger_run (ledger_step b op) ops).
  destruct (ledger_step_inv b op Hb) as [Hs Hc]. destruct (IH _ Hs) as [Hi Hc']. split; [exact Hi|]. congruence.
Qed.

Lemma new_ledger_inv ceiling : (forall c, ceiling = Some c -> 0 <= c) -> ledger_inv (new_ledger ceiling).
Proof. intros H. constructor; cbn; auto; lia. Qed.

(** ** Releasing everything *)

Lemma release_length b r : length (reservations (release b r)) = length (reservations b).
Proof.
  unfold release. destruct (reservations b !! r); [|done]. destruct (released _); [done|]. apply length_insert.
Qed.

Lemma release_marks b r x : reservations (release b r) !! r = Some x -> released x = true.
Proof.
  unfold release. destruct (reservations b !! r) as [y|] eqn:E; [|congruence].
  destruct (released y) eqn:Ey; [congruence|]. cbn [reservations].
  rewrite list_lookup_insert_eq by (by eapply lookup_lt_Some). by intros [= <-].
Qed.

(** After releasing the first [n], those are marked. *)
Lemma release_prefix b n :
  let b' := ledger_run b (OpRelease <$> seq 0 n) in
  length (reservations b') = length (reservations b) /\
  forall i r, (i < n)%nat -> reservations b' !! i = Some r -> released r = true.
Proof.
  induction n as [|n [IHl IHr]]; [split; [done|lia]|]. cbv zeta in *. rewrite seq_S, fmap_app.
  unfold ledger_run in *. rewrite fold_left_app. set (b1 := fold_left _ _ b) in *. cbn [fmap list_fmap fold_left ledger_step].
  rewrite release_length. split; [done|]. intros i r Hi Hr. rewrite Nat.add_0_l in Hr. unfold release in Hr.
  destruct (reservations b1 !! n) as [x|] eqn:En; cbv beta iota in Hr.
  - destruct (released x) eqn:Ex; cbv beta iota in Hr.
    + destruct (decide (i = n)) as [->|]; [congruence|]. apply (IHr i); [lia|done].
    + cbn in Hr. destruct (decide (i = n)) as [->|Hne].
      * rewrite list_lookup_insert_eq in Hr by (by eapply lookup_lt_Some). by injection Hr as <-.
      * rewrite list_lookup_insert_ne in Hr by done. apply (IHr i); [lia|done].
  - destruct (decide (i = n)) as [->|]; [congruence|]. apply (IHr i); [lia|done].
Qed.

Lemma held_bytes_all_released rs : (forall i r, rs !! i = Some r -> released r = true) -> held_bytes rs = 0.
Proof.
  induction rs as [|x rs IH]; intros H; [done|]. cbn. rewrite (H 0%nat x eq_refl), IH; [done|].
  intros i r Hi. by apply (H (S i)).
Qed.

Lemma release_all b :
  ledger_inv b -> charged_bytes (ledger (ledger_run b (OpRelease <$> seq 0 (length (reservations b))))) = 0.
Proof.
  intros Hb. destruct (ledger_run_inv b (OpRelease <$> seq 0 (length (reservations b))) Hb) as [[Hc _ _ _ _] _].
  rewrite Hc. apply held_bytes_all_released. intros i r Hi.
  destruct (release_prefix b (length (reservations b))) as [Hl Hr]. apply (Hr i); [|done].
  rewrite <- Hl. by eapply lookup_lt_Some.
Qed.

(** ** Properties *)

(** C31: the ceiling is never exceeded and nothing leaks. After any sequence of
    reservations and releases, in any order and with repeated releases, the
    charged bytes are exactly those of the reservations still held; with a
    ceiling they, and the recorded peak, stay within it; a reservation is refused
    exactly when it is negative or does not fit, leaving the ledger as it was;
    a [with] block releases its reservation whether its body returns or raises;
    and releasing everything brings the charge back to zero. *)
Theorem ledger_sound ceiling ops :
  (forall c, ceiling = Some c -> 0 <= c) ->
  let b := ledger_run (new_ledger ceiling) ops in
  charged_bytes (ledger b) = held_bytes (reservations b) /\
  0 <= charged_bytes (ledger b) <= peak_bytes (ledger b) /\
  (forall c, ceiling = Some c -> peak_bytes (ledger b) <= c) /\
  (forall s n, is_ok (reserve b s n) = true <->
     0 <= n /\ forall c, ceiling = Some c -> charged_bytes (ledger b) + n <= c) /\
  (forall s n r b1 ops' (out : result unit) x, reserve b s n = Ok (b1, r) ->
     reservations (with_reservation b s n (fun b1 => (ledger_run b1 ops', out))).1 !! r = Some x ->
     released x = true) /\
  charged_bytes (ledger (ledger_run b (OpRelease <$> seq 0 (length (reservations b))))) = 0.
Proof.
  intros Hc b. destruct (ledger_run_inv _ ops (new_ledger_inv _ Hc)) as [Hinv Hceil]. fold b in Hinv, Hceil.
  cbn in Hceil. destruct Hinv as [Hch Hn Hp Hl He]. pose proof (held_bytes_nonneg _ Hn).
  split_and!; [done|lia|lia|intros c Hcc; apply Hl; congruence| | |].
  - intros s n. unfold reserve. rewrite Hceil. destruct (Z.ltb_spec n 0) as [Hneg|Hpos]; cbn [raise_if mbind result_bind is_ok].
    { split; [discriminate|lia]. }
    destruct ceiling as [c|]; cbn [raise_if mbind result_bind is_ok].
    + destruct (Z.gtb_spec (charged_bytes (ledger b) + n) c); cbn [raise_if mbind result_bind is_ok].
      * split; [discriminate|]. intros [_ Hfit]. specialize (Hfit c eq_refl). lia.
      * split; [|done]. intros _. split; [done|]. intros ? [= <-]. lia.
    + split; [|done]. intros _. split; [done|]. discriminate.
  - intros s n r b1 ops' out x Hres. unfold with_reservation. rewrite Hres. apply release_marks.
  - apply release_all. by constructor.
Qed.

Lemma ledger_sound_witness :
  charged_bytes (ledger (ledger_run (new_ledger (Some 100)) [OpReserve "pool" 60; OpReserve "batch" 50; OpRelease 0; OpRelease 0])) = 0.
Proof.
  refine (eq_trans (proj1 (ledger_sound (Some 100) [OpReserve "pool" 60; OpReserve "batch" 50; OpRelease 0; OpRelease 0] _)) _).
  - intros c [= <-]. lia.
  - vm_compute. reflexivity.
Defined.
