(* ===== verification/SecretCache.v ===== *)
(** * The secret cache (secret_providers/_cache.py)

    A bounded TTL cache of prepared secrets shared by threads. Every region the
    code runs under [self._guard] is one atomic operation below; between regions
    threads interleave freely. The per-key [flight.lock] is a field of the flight
    object, acquired and released by steps of its own. Clock readings are exact
    integers (the rounding of Python floats is not modelled) and each clock may
    advance at any step.

    Objects that the code compares by identity carry it: an owner has its address
    ([id(owner)], which may be recycled) and itself, a secret its own identity. For
    the statements, a secret also remembers the step at which the provider read it
    (any moment between the start of the loader and its return, which other
    threads' steps may separate) and the world the step of the last revocation of
    each key; no operation looks at either. *)

From S2P Require Import Prelude PyData.

Definition MAX_CACHE_ENTRIES : Z := 128.
Definition EXPIRY_SKEW_SECONDS : Z := 5.

(** ** Objects *)

Record owner := MkOwner { addr : Z; self_id : Z }.

Abbreviation fkey := (pystr * list Z)%type.
Abbreviation clock := nat.
Abbreviation tid := nat.
Abbreviation fid := nat.

Record secret := MkSecret { sid : nat; read_at : nat }.

Record _Entry := MkEntry {
  master : secret; deadline : Z; e_clock : clock; e_owners : list owner; inserted : Z }.

Record _Flight := MkFlight { lock : option tid; callers : Z; f_epoch : Z }.

(** The cache and the flight objects it refers to. [closed] lists the masters
    wiped so far, [next_sid] and [next_fid] the objects allocated. *)
Record SecretCache := MkCache {
  _capacity : Z;
  _entries : odict fkey _Entry;
  _locks : gmap fkey fid;
  _epoch : Z;
  flights : gmap fid _Flight;
  closed : list nat;
  next_sid : nat;
  next_fid : nat;
}.

Definition new_cache (capacity : Z) : result SecretCache :=
  _ ← raise_if (capacity <? 1) (exc "ValueError");
  Ok (MkCache capacity [] ∅ 0 ∅ [] 0 0).

Definition _key (key : pystr) (owners : list owner) : fkey := (key, addr <$> owners).

(** The monotonic reading of each clock. *)
Abbreviation readings := (clock -> Z).

Definition expired (mono : readings) (e : _Entry) : bool := mono (e_clock e) >=? deadline e.
Definition older_than (mono : readings) (e : _Entry) (ttl : Z) : bool := mono (e_clock e) - inserted e >=? ttl.

(** Two owner tuples of one length that differ somewhere as objects. The lengths
    agree whenever the keys do, so the strict [zip] never raises. *)
Definition owners_differ (a b : list owner) : bool :=
  existsb (fun p => negb (bool_decide (self_id p.1 = self_id p.2))) (zip a b).

(** ** The guarded regions *)

Definition with_entries (c : SecretCache) (es : odict fkey _Entry) (cl : list nat) : SecretCache :=
  MkCache (_capacity c) es (_locks c) (_epoch c) (flights c) cl (next_sid c) (next_fid c).

(** [pop(key, None)], closing the master. *)
Definition _evict_locked (c : SecretCache) (k : fkey) : SecretCache :=
  match od_get (_entries c) k with
  | Some e => with_entries c (od_del (_entries c) k) (sid (master e) :: closed c)
  | None => c
  end.

Definition _prune_locked (mono : readings) (c : SecretCache) : SecretCache :=
  fold_left _evict_locked (fst <$> List.filter (fun ke => expired mono ke.2) (_entries c)) c.

(** [while len(entries) >= capacity: evict(next(iter(entries)))] *)
Fixpoint evict_oldest (fuel : nat) (c : SecretCache) : SecretCache :=
  match fuel with
  | O => c
  | S fuel' =>
      if zlen (_entries c) >=? _capacity c then
        match _entries c with
        | (k, _) :: _ => evict_oldest fuel' (_evict_locked c k)
        | [] => c
        end
      else c
  end.

Definition _insert_locked (c : SecretCache) (k : fkey) (e : _Entry) : SecretCache :=
  let c1 := _evict_locked c k in
  let c2 := evict_oldest (length (_entries c1)) c1 in
  with_entries c2 (od_set (_entries c2) k e) (closed c2).

(** [clone()]: a new object of the same material. *)
Definition clone (c : SecretCache) (s : secret) : SecretCache * secret :=
  (MkCache (_capacity c) (_entries c) (_locks c) (_epoch c) (flights c) (closed c) (S (next_sid c)) (next_fid c),
   MkSecret (next_sid c) (read_at s)).

Definition _hit_locked (mono : readings) (c : SecretCache) (k : fkey) (owners : list owner) (ttl : Z)
    : SecretCache * option secret :=
  match od_get (_entries c) k with
  | None => (c, None)
  | Some e =>
      if expired mono e || owners_differ (e_owners e) owners then (_evict_locked c k, None)
      else if older_than mono e ttl then (c, None)
      else let '(c', s) := clone c (master e) in (c', Some s)
  end.

Definition with_flights (c : SecretCache) (ls : gmap fkey fid) (fs : gmap fid _Flight) (n : nat) : SecretCache :=
  MkCache (_capacity c) (_entries c) ls (_epoch c) fs (closed c) (next_sid c) n.

(** Entering [get_or_load]: prune, find or make the flight, count the caller. *)
Definition enter (mono : readings) (c : SecretCache) (k : fkey) : SecretCache * fid :=
  let c1 := _prune_locked mono c in
  match _locks c1 !! k with
  | Some f =>
      let fl := default (MkFlight None 0 0) (flights c1 !! f) in
      (with_flights c1 (_locks c1) (<[f := MkFlight (lock fl) (callers fl + 1) (f_epoch fl)]> (flights c1)) (next_fid c1), f)
  | None =>
      let f := next_fid c1 in
      (with_flights c1 (<[k := f]> (_locks c1)) (<[f := MkFlight None 1 0]> (flights c1)) (S f), f)
  end.

Definition flight_of (c : SecretCache) (f : fid) : _Flight := default (MkFlight None 0 0) (flights c !! f).

(** The epochs a loader records. *)
Definition epochs (c : SecretCache) (f : fid) : Z * Z := (_epoch c, f_epoch (flight_of c f)).

(** Leaving: uncount the caller and drop the flight after the last one. *)
Definition leave (c : SecretCache) (k : fkey) (f : fid) : SecretCache :=
  let fl := flight_of c f in
  let n := callers fl - 1 in
  let fs := <[f := MkFlight (lock fl) n (f_epoch fl)]> (flights c) in
  if (n =? 0) && bool_decide (_locks c !! k = Some f)
  then with_flights c (delete k (_locks c)) fs (next_fid c)
  else with_flights c (_locks c) fs (next_fid c).

(** The insertion, refused when an epoch moved. *)
Definition insert_if_current (c : SecretCache) (k : fkey) (f : fid) (started : Z * Z) (e : _Entry) : SecretCache :=
  if bool_decide (started = epochs c f) then _insert_locked c k e
  else with_entries c (_entries c) (sid (master e) :: closed c).

Definition invalidate (c : SecretCache) (k : fkey) : SecretCache :=
  let c1 := match _locks c !! k with
            | Some f => let fl := flight_of c f in
                with_flights c (_locks c) (<[f := MkFlight (lock fl) (callers fl) (f_epoch fl + 1)]> (flights c)) (next_fid c)
            | None => c
            end in
  _evict_locked c1 k.

Definition clear (c : SecretCache) : SecretCache :=
  let c1 := MkCache (_capacity c) (_entries c) (_locks c) (_epoch c + 1) (flights c) (closed c) (next_sid c) (next_fid c) in
  fold_left _evict_locked (od_keys (_entries c)) c1.

Definition cache_len (c : SecretCache) : Z := zlen (_entries c).

(** [min(ttl, expires_at - wall - skew)] *)
Definition remaining (ttl : Z) (expires_at : option Z) (wall : Z) : Z :=
  match expires_at with
  | Some x => Z.min ttl (x - wall - EXPIRY_SKEW_SECONDS)
  | None => ttl
  end.

(** ** Threads *)

Record call := MkCall { c_key : pystr; c_owners : list owner; c_ttl : Z; c_clock : clock }.
Definition full (c : call) : fkey := _key (c_key c) (c_owners c).

(** Where a thread is inside [get_or_load]; [stamp] is the step at which it
    recorded the epochs. *)
Inductive phase : Type :=
| Calling
| Entered (f : fid)
| Locked (f : fid)
| Missed (f : fid) (started : Z * Z) (stamp : nat)
| Reading (f : fid) (started : Z * Z) (stamp : nat) (now : Z)
| Loaded (f : fid) (started : Z * Z) (stamp : nat) (now : Z) (prepared : secret) (expires_at : option Z)
| Inserting (f : fid) (started : Z * Z) (stamp : nat) (e : _Entry) (prepared : secret)
| Leaving (f : fid) (out : option secret)
| Unlocked (f : fid) (out : option secret)
| Returned (out : option secret).

(** The flight a thread is counted in, and the one whose lock it holds. *)
Definition in_flight (p : phase) : option fid :=
  match p with
  | Calling | Returned _ => None
  | Entered f | Locked f | Missed f _ _ | Reading f _ _ _ | Loaded f _ _ _ _ _ | Inserting f _ _ _ _
  | Leaving f _ | Unlocked f _ => Some f
  end.
Definition holding (p : phase) : option fid :=
  match p with
  | Calling | Returned _ | Entered _ | Unlocked _ _ => None
  | Locked f | Missed f _ _ | Reading f _ _ _ | Loaded f _ _ _ _ _ | Inserting f _ _ _ _ | Leaving f _ => Some f
  end.

(** The world: the cache, the threads, the clocks, and the record of revocations. *)
Record world := MkWorld {
  cache : SecretCache;
  threads : gmap tid (call * phase);
  mono : readings;
  time : nat;
  revoked : gmap fkey nat;
  cleared : nat;
}.

Definition last_revoked (w : world) (k : fkey) : nat := Nat.max (cleared w) (default 0%nat (revoked w !! k)).

(** A step of thread [t] that leaves it in phase [p]. *)
Definition moved (w : world) (t : tid) (c : call) (p : phase) (ca : SecretCache) : world :=
  MkWorld ca (<[t := (c, p)]> (threads w)) (mono w) (S (time w)) (revoked w) (cleared w).

Definition set_lock (c : SecretCache) (f : fid) (l : option tid) : SecretCache :=
  let fl := flight_of c f in
  with_flights c (_locks c) (<[f := MkFlight l (callers fl) (f_epoch fl)]> (flights c)) (next_fid c).

(** The hit check: a hit ends the call, a miss records the epochs. *)
Definition check (w : world) (t : tid) (c : call) (f : fid) : world :=
  let '(ca, hit) := _hit_locked (mono w) (cache w) (full c) (c_owners c) (c_ttl c) in
  match hit with
  | Some s => moved w t c (Leaving f (Some s)) ca
  | None => moved w t c (Missed f (epochs ca f) (time w)) ca
  end.

(** The deadline: keep a clone to insert, or just return. *)
Definition plan_insert (w : world) (t : tid) (c : call) (f : fid) (started : Z * Z) (stamp : nat) (now : Z)
    (prepared : secret) (expires_at : option Z) (wall : Z) : world :=
  let r := remaining (c_ttl c) expires_at wall in
  if r >? 0 then
    let '(ca, m) := clone (cache w) prepared in
    moved w t c (Inserting f started stamp (MkEntry m (now + r) (c_clock c) (c_owners c) now) prepared) ca
  else moved w t c (Leaving f (Some prepared)) (cache w).

Inductive step (w : world) : world -> Prop :=
| step_call t c :
    (forall c' p, threads w !! t = Some (c', p) -> in_flight p = None) ->
    step w (moved w t c Calling (cache w))
| step_enter t c :
    threads w !! t = Some (c, Calling) ->
    step w (let '(ca, f) := enter (mono w) (cache w) (full c) in moved w t c (Entered f) ca)
| step_lock t c f :
    threads w !! t = Some (c, Entered f) -> lock (flight_of (cache w) f) = None ->
    step w (moved w t c (Locked f) (set_lock (cache w) f (Some t)))
| step_check t c f :
    threads w !! t = Some (c, Locked f) -> step w (check w t c f)
| step_clock t c f started stamp :
    threads w !! t = Some (c, Missed f started stamp) ->
    step w (moved w t c (Reading f started stamp (mono w (c_clock c))) (cache w))
| step_load t c f started stamp now expires_at r :
    threads w !! t = Some (c, Reading f started stamp now) -> (stamp < r <= time w)%nat ->
    step w (let '(ca, s) := clone (cache w) (MkSecret 0 r) in
            moved w t c (Loaded f started stamp now s expires_at) ca)
| step_load_fails t c f started stamp now :
    threads w !! t = Some (c, Reading f started stamp now) ->
    step w (moved w t c (Leaving f None) (cache w))
| step_deadline t c f started stamp now prepared expires_at wall :
    threads w !! t = Some (c, Loaded f started stamp now prepared expires_at) ->
    step w (plan_insert w t c f started stamp now prepared expires_at wall)
| step_insert t c f started stamp e prepared :
    threads w !! t = Some (c, Inserting f started stamp e prepared) ->
    step w (moved w t c (Leaving f (Some prepared)) (insert_if_current (cache w) (full c) f started e))
| step_unlock t c f out :
    threads w !! t = Some (c, Leaving f out) ->
    step w (moved w t c (Unlocked f out) (set_lock (cache w) f None))
| step_leave t c f out :
    threads w !! t = Some (c, Unlocked f out) ->
    step w (moved w t c (Returned out) (leave (cache w) (full c) f))
| step_invalidate key owners :
    step w (let k := _key key owners in
            MkWorld (invalidate (cache w) k) (threads w) (mono w) (S (time w)) (<[k := time w]> (revoked w)) (cleared w))
| step_clear :
    step w (MkWorld (clear (cache w)) (threads w) (mono w) (S (time w)) (revoked w) (time w))
| step_tick mono' :
    (forall c, mono w c <= mono' c) ->
    step w (MkWorld (cache w) (threads w) mono' (S (time w)) (revoked w) (cleared w)).

Inductive reachable (capacity : Z) : world -> Prop :=
| reachable_init c m : new_cache capacity = Ok c -> reachable capacity (MkWorld c ∅ m 1 ∅ 0)
| reachable_step w w' : reachable capacity w -> step w w' -> reachable capacity w'.

(** ** The entry table *)

Lemma od_get_del {K V} `{EqDecision K} (d : odict K V) k k' :
  od_get (od_del d k) k' = if bool_decide (k = k') then None else od_get d k'.
Proof.
  induction d as [|[k1 v1] d IH]; cbn; [by case_bool_decide|].
  destruct (bool_decide (k1 = k)) eqn:E1; bool_prop.
  - subst. rewrite IH. by destruct (bool_decide (k = k')).
  - cbn. rewrite IH. destruct (bool_decide (k1 = k')) eqn:E2; [|done]. bool_prop. subst.
    by rewrite bool_decide_eq_false_2.
Qed.

Lemma elem_of_od_del {K V} `{EqDecision K} (d : odict K V) k kv : (kv ∈ od_del d k) <-> (kv ∈ d) /\ kv.1 <> k.
Proof.
  induction d as [|[k1 v1] d IH]; cbn; [set_solver|].
  destruct (bool_decide (k1 = k)) eqn:E; bool_prop; rewrite ?elem_of_cons, IH; [|].
  - split; [tauto|]. intros [[-> |H] Hne]; [done|done].
  - split; [intros [-> |[? ?]]; tauto|tauto].
Qed.

Lemma od_del_keys {K V} `{EqDecision K} (d : odict K V) k :
  NoDup (od_keys d) -> NoDup (od_keys (od_del d k)) /\ (length (od_del d k) <= length d)%nat /\
  (is_Some (od_get d k) -> (length (od_del d k) < length d)%nat).
Proof.
  unfold od_keys. induction d as [|[k1 v1] d IH]; cbn; [intros _; split_and!; [constructor|lia|by intros []]|].
  intros [Hn Hd]%list.NoDup_cons. destruct (IH Hd) as (Hd' & Hl & Hs). clear IH.
  destruct (bool_decide (k1 = k)) eqn:E; [split_and!; [done|lia|lia]|]. cbn. split_and!.
  - apply list.NoDup_cons. split; [|done]. intros Hin. apply Hn. apply list_elem_of_fmap in Hin as (kv & -> & Hkv).
    apply elem_of_od_del in Hkv as [Hkv _]. by apply list_elem_of_fmap_2.
  - lia.
  - intros H. apply Hs in H. lia.
Qed.

Lemma elem_of_od_set_new {K V} `{EqDecision K} (d : odict K V) k v kv :
  od_get d k = None -> (kv ∈ od_set d k v) <-> (kv ∈ d) \/ kv = (k, v).
Proof.
  induction d as [|[k1 v1] d IH]; cbn; [set_solver|]. case_bool_decide; [done|]. intros H0%IH.
  rewrite !elem_of_cons, H0. tauto.
Qed.

Lemma od_set_length_new {K V} `{EqDecision K} (d : odict K V) k v :
  od_get d k = None -> length (od_set d k v) = S (length d).
Proof. induction d as [|[k1 v1] d IH]; cbn; [done|]. case_bool_decide; [done|]. intros H0. cbn. by rewrite IH. Qed.

(** Where a live master is: in the table, or held by a thread about to insert it. *)
Inductive location := InTable (k : fkey) | InThread (t : tid).

Section Table.
(** [ins t e]: thread [t] holds the entry [e]; [rv k]: the last revocation of [k]. *)
Implicit Types (ins : tid -> _Entry -> Prop) (rv : fkey -> nat) (c : SecretCache).

Definition master_at ins c (l : location) (s : nat) : Prop :=
  match l with
  | InTable k => exists e, (k, e) ∈ _entries c /\ sid (master e) = s
  | InThread t => exists e, ins t e /\ sid (master e) = s
  end.

Record table_ok ins rv c : Prop := {
  tb_keys : NoDup (od_keys (_entries c));
  tb_capacity : 1 <= _capacity c;
  tb_len : zlen (_entries c) <= _capacity c;
  tb_fresh : forall k e, (k, e) ∈ _entries c -> (rv k < read_at (master e))%nat;
  tb_owner : forall k e, (k, e) ∈ _entries c -> addr <$> e_owners e = k.2;
  tb_masters : forall l s, master_at ins c l s ->
    (s < next_sid c)%nat /\ (s ∉ closed c) /\ forall l', master_at ins c l' s -> l' = l;
  tb_closed : Forall (fun s => (s < next_sid c)%nat) (closed c);
}.

(** What eviction leaves alone. *)
Definition same_but_entries c c' : Prop :=
  _capacity c' = _capacity c /\ _locks c' = _locks c /\ _epoch c' = _epoch c /\ flights c' = flights c /\
  next_sid c' = next_sid c /\ next_fid c' = next_fid c.

Lemma same_refl c : same_but_entries c c.
Proof. by repeat split. Qed.

Lemma same_trans c1 c2 c3 : same_but_entries c1 c2 -> same_but_entries c2 c3 -> same_but_entries c1 c3.
Proof. unfold same_but_entries. intuition congruence. Qed.

Lemma evict_same c k : same_but_entries c (_evict_locked c k).
Proof. unfold _evict_locked. destruct (od_get _ k); [by repeat split|apply same_refl]. Qed.

Lemma evict_entries c k kv : (kv ∈ _entries (_evict_locked c k)) <-> (kv ∈ _entries c) /\ kv.1 <> k.
Proof.
  unfold _evict_locked. destruct (od_get (_entries c) k) as [e|] eqn:E; cbn; [apply elem_of_od_del|].
  split; [|tauto]. intros H. split; [done|]. intros <-. apply od_get_none in E. apply E.
  by apply list_elem_of_fmap_2.
Qed.

Lemma evict_ok ins rv c k : table_ok ins rv c -> table_ok ins rv (_evict_locked c k).
Proof.
  intros [Hk Hc Hl Hf Ho Hm Hcb]. destruct (od_del_keys (_entries c) k Hk) as (Hk' & Hl' & _).
  constructor.
  - unfold _evict_locked. by destruct (od_get _ k).
  - by destruct (evict_same c k) as (-> & _).
  - destruct (evict_same c k) as (-> & _). unfold _evict_locked. destruct (od_get _ k); [|done]. cbn. unfold zlen in *. lia.
  - intros k' e [H _]%evict_entries. by apply Hf.
  - intros k' e [H _]%evict_entries. by apply Ho.
  - assert (Hsub : forall l s, master_at ins (_evict_locked c k) l s -> master_at ins c l s).
    { intros [k'|t] s; [|done]. intros (e & [H _]%evict_entries & Hs). by exists e. }
    intros l s H. destruct (Hm l s (Hsub l s H)) as (Hlt & Hcl & Hu).
    destruct (evict_same c k) as (_ & _ & _ & _ & -> & _). split_and!; [done| |intros l' H'; by apply Hu, Hsub].
    unfold _evict_locked. destruct (od_get (_entries c) k) as [e|] eqn:E; [|done]. cbn. apply not_elem_of_cons. split; [|done].
    intros ->. assert (InTable k = l) as <- by (apply Hu; exists e; split; [by apply od_get_elem|done]).
    destruct H as (e' & H & _). apply evict_entries in H as [_ H]. done.
  - destruct (evict_same c k) as (_ & _ & _ & _ & -> & _). unfold _evict_locked.
    destruct (od_get (_entries c) k) as [e|] eqn:E; [|done]. cbn. constructor; [|done].
    destruct (Hm (InTable k) (sid (master e))) as (? & _); [|done]. exists e. split; [by apply od_get_elem|done].
Qed.

Lemma evict_all ks c :
  same_but_entries c (fold_left _evict_locked ks c) /\
  (forall kv, (kv ∈ _entries (fold_left _evict_locked ks c)) <-> (kv ∈ _entries c) /\ (kv.1 ∉ ks)) /\
  forall ins rv, table_ok ins rv c -> table_ok ins rv (fold_left _evict_locked ks c).
Proof.
  revert c. induction ks as [|k ks IH]; intros c; cbn.
  - split_and!; [apply same_refl|set_solver|done].
  - destruct (IH (_evict_locked c k)) as (Hs & He & Ho). split_and!.
    + eapply same_trans; [apply evict_same|done].
    + intros kv. rewrite He, evict_entries, not_elem_of_cons. tauto.
    + intros ins rv H. by apply Ho, evict_ok.
Qed.

Lemma evict_oldest_ok ins rv n c :
  table_ok ins rv c -> (length (_entries c) <= n)%nat ->
  same_but_entries c (evict_oldest n c) /\ table_ok ins rv (evict_oldest n c) /\
  zlen (_entries (evict_oldest n c)) < _capacity c /\
  (forall kv, kv ∈ _entries (evict_oldest n c) -> kv ∈ _entries c).
Proof.
  revert c. induction n as [|n IH]; intros c Hok Hn; pose proof (tb_capacity _ _ _ Hok) as Hcap; cbn [evict_oldest].
  { split_and!; [apply same_refl|done|unfold zlen; lia|done]. }
  destruct (Z.geb_spec (zlen (_entries c)) (_capacity c)) as [Hge|Hlt].
  2: { split_and!; [apply same_refl|done|lia|done]. }
  destruct (_entries c) as [|[k e] es] eqn:Ees; [unfold zlen in Hge; cbn in Hge; lia|].
  destruct (IH (_evict_locked c k)) as (Hs & Ho & Hl & He); [by apply evict_ok| |].
  { unfold _evict_locked. rewrite Ees. cbn [od_get]. rewrite bool_decide_eq_true_2 by done. cbn [_entries with_entries].
    destruct (od_del_keys ((k, e) :: es) k) as (_ & _ & Hd); [rewrite <- Ees; apply Hok|].
    specialize (Hd ltac:(cbn; rewrite bool_decide_eq_true_2; [eauto|done])). lia. }
  pose proof (evict_same c k) as Hse. split_and!.
  - by eapply same_trans.
  - done.
  - destruct Hse as (<- & _). exact Hl.
  - intros kv H. rewrite <- Ees. apply He, evict_entries in H. apply H.
Qed.

Lemma table_weaken ins ins' rv rv' c :
  (forall t e, ins' t e -> ins t e) -> (forall k e, (k, e) ∈ _entries c -> (rv' k < read_at (master e))%nat) ->
  table_ok ins rv c -> table_ok ins' rv' c.
Proof.
  intros Hi Hr [Hk Hc Hl Hf Ho Hm Hcb]. constructor; try done.
  assert (Hsub : forall l s, master_at ins' c l s -> master_at ins c l s).
  { intros [k|t] s; [done|]. intros (e & H & Hs). exists e. auto. }
  intros l s H. destruct (Hm l s (Hsub _ _ H)) as (? & ? & Hu). split_and!; auto.
Qed.

(** The master a thread holds is handed over to the table, or wiped. *)
Lemma close_ok ins rv c t e :
  table_ok ins rv c -> ins t e ->
  table_ok (fun t' e' => ins t' e' /\ t' <> t) rv (with_entries c (_entries c) (sid (master e) :: closed c)).
Proof.
  intros [Hk Hc Hl Hf Ho Hm Hcb] He.
  assert (Hcb' : Forall (fun s => (s < next_sid c)%nat) (sid (master e) :: closed c)).
  { constructor; [|done]. destruct (Hm (InThread t) (sid (master e))) as (? & _); [by exists e|done]. }
  constructor; try done. intros l s H.
  assert (Hsub : master_at ins c l s /\ l <> InThread t).
  { destruct l as [k|t']; [done|]. destruct H as (e' & [H Hne] & Hs). split; [by exists e'|]. by intros [= ->]. }
  destruct Hsub as [Hs Hl']. destruct (Hm l s Hs) as (Hlt & Hcl & Hu). split_and!; [done| |].
  - apply not_elem_of_cons. split; [|done]. intros ->. apply Hl'. symmetry. apply Hu. by exists e.
  - intros l' H'. apply Hu. destruct l' as [k|t']; [done|]. destruct H' as (e' & [H' _] & Hs'). by exists e'.
Qed.

Lemma insert_ok ins rv c k t e :
  table_ok ins rv c -> ins t e -> (rv k < read_at (master e))%nat -> addr <$> e_owners e = k.2 ->
  table_ok (fun t' e' => ins t' e' /\ t' <> t) rv (_insert_locked c k e) /\ same_but_entries c (_insert_locked c k e).
Proof.
  intros Hok He Hrv How. unfold _insert_locked.
  pose proof (evict_ok _ _ _ k Hok) as Hok1. pose proof (evict_same c k) as Hs1.
  set (c1 := _evict_locked c k) in *.
  destruct (evict_oldest_ok ins rv (length (_entries c1)) c1 Hok1) as (Hs2 & Hok2 & Hlt & Hsub); [done|].
  set (c2 := evict_oldest _ c1) in *. clearbody c2.
  assert (Hnk : od_get (_entries c2) k = None).
  { apply od_get_none. intros (kv & -> & Hkv)%list_elem_of_fmap. apply Hsub, evict_entries in Hkv as [_ Hne]. done. }
  destruct Hok2 as [Hk Hc Hl Hf Ho Hm Hcb]. pose proof (same_trans _ _ _ Hs1 Hs2) as Hs. split; [|exact Hs].
  constructor; cbn.
  - by apply od_set_nodup.
  - done.
  - unfold zlen in *. rewrite od_set_length_new by done. destruct Hs2 as (-> & _). lia.
  - intros k' e'. rewrite elem_of_od_set_new by done. intros [H|[= -> ->]]; [by apply Hf|done].
  - intros k' e'. rewrite elem_of_od_set_new by done. intros [H|[= -> ->]]; [by apply Ho|done].
  - set (ins' := fun t' e' => ins t' e' /\ t' <> t).
    assert (Hcase : forall l s, master_at ins' (with_entries c2 (od_set (_entries c2) k e) (closed c2)) l s ->
      (master_at ins c2 l s /\ l <> InThread t /\ l <> InTable k) \/ (l = InTable k /\ s = sid (master e))).
    { intros [k'|t'] s (e' & H & Hs').
      - cbn in H. apply elem_of_od_set_new in H as [H|[= -> ->]]; [|by right|done].
        left. split_and!; [by exists e'|done|]. intros [= ->]. apply od_get_none in Hnk. apply Hnk.
        by apply (list_elem_of_fmap_2 fst) in H.
      - left. destruct H as [H Hne]. split_and!; [by exists e'|by intros [= ->]|done]. }
    destruct (Hm (InThread t) (sid (master e))) as (Hlt0 & Hcl0 & Hu0); [by exists e|].
    intros l s H. destruct (Hcase l s H) as [(Hin & Hnt & Hnk')|[-> ->]].
    + destruct (Hm l s Hin) as (Hlt1 & Hcl1 & Hu1). split_and!; [done|done|].
      intros l' H'. destruct (Hcase l' s H') as [(Hin' & _ & _)|[-> ->]]; [by apply Hu1|].
      exfalso. apply Hnt. by apply Hu0.
    + split_and!; [done|done|]. intros l' H'. destruct (Hcase l' _ H') as [(Hin' & Hnt' & _)|[-> _]]; [|done].
      exfalso. apply Hnt'. by apply Hu0.
  - done.
Qed.

Lemma clone_ok ins rv c s t (mk : secret -> _Entry) :
  table_ok ins rv c -> (forall e, ~ ins t e) -> (forall m, master (mk m) = m) ->
  let '(c', m) := clone c s in
  table_ok (fun t' e' => ins t' e' \/ (t' = t /\ e' = mk m)) rv c' /\ table_ok ins rv c' /\ read_at m = read_at s.
Proof.
  intros [Hk Hc Hl Hf Ho Hm Hcb] Hn Hmk. cbn [clone].
  set (c' := MkCache _ _ _ _ _ _ _ _). set (m := MkSecret (next_sid c) (read_at s)).
  assert (Hcase : forall l x, master_at (fun t' e' => ins t' e' \/ (t' = t /\ e' = mk m)) c' l x ->
    (master_at ins c l x /\ (x < next_sid c)%nat) \/ (l = InThread t /\ x = next_sid c)).
  { intros [k|t'] x (e & H & Hx).
    - left. assert (master_at ins c (InTable k) x) as Hma by (by exists e). split; [done|]. by apply (Hm _ _ Hma).
    - destruct H as [H|[-> ->]].
      + left. assert (master_at ins c (InThread t') x) as Hma by (by exists e). split; [done|]. by apply (Hm _ _ Hma).
      + right. rewrite Hmk in Hx. by subst x. }
  assert (Hmain : table_ok (fun t' e' => ins t' e' \/ (t' = t /\ e' = mk m)) rv c').
  { constructor; try done.
    2: { cbn. eapply Forall_impl; [|exact Hcb]. cbn. lia. }
    intros l x H. cbn. destruct (Hcase l x H) as [[Hin Hlt]|[-> ->]].
    - destruct (Hm l x Hin) as (_ & Hcl & Hu). split_and!; [lia|done|]. intros l' H'.
      destruct (Hcase l' x H') as [[Hin' _]|[_ ->]]; [by apply Hu|lia].
    - split_and!; [lia| |].
      + intros Hcl. rewrite list.Forall_forall in Hcb. specialize (Hcb _ Hcl). cbn in Hcb. lia.
      + intros l' H'. destruct (Hcase l' _ H') as [[_ Hlt]|[-> _]]; [lia|done]. }
  split_and!; [exact Hmain| |done]. eapply table_weaken; [| |exact Hmain]; [intros; by left|done].
Qed.
End Table.

(** ** Flights and their callers *)

Section Flights.
Implicit Types (th : gmap tid (call * phase)) (c : SecretCache) (t : tid) (f : fid).

Definition flight_at th t : option fid := match th !! t with Some (_, p) => in_flight p | None => None end.
Definition holds_at th t : option fid := match th !! t with Some (_, p) => holding p | None => None end.

(** The threads counted in a flight. *)
Definition active f th : gset tid := dom (filter (fun x : tid * (call * phase) => in_flight x.2.2 = Some f) th).

Lemma elem_of_active f th t : t ∈ active f th <-> flight_at th t = Some f.
Proof.
  unfold active, flight_at. rewrite elem_of_dom. split.
  - intros [[cl p] H]. apply map_lookup_filter_Some in H as [-> H]. exact H.
  - destruct (th !! t) as [[cl p]|] eqn:E; [|done]. intros H. exists (cl, p). by apply map_lookup_filter_Some.
Qed.

Lemma flight_at_insert th t t' cl p :
  flight_at (<[t := (cl, p)]> th) t' = if decide (t = t') then in_flight p else flight_at th t'.
Proof.
  unfold flight_at. destruct (decide (t = t')) as [->|Hne]; [by rewrite lookup_insert_eq|by rewrite lookup_insert_ne].
Qed.

Lemma holds_at_insert th t t' cl p :
  holds_at (<[t := (cl, p)]> th) t' = if decide (t = t') then holding p else holds_at th t'.
Proof.
  unfold holds_at. destruct (decide (t = t')) as [->|Hne]; [by rewrite lookup_insert_eq|by rewrite lookup_insert_ne].
Qed.

Lemma holding_in_flight p f : holding p = Some f -> in_flight p = Some f.
Proof. by destruct p. Qed.

Lemma active_same th t cl p f : flight_at th t = in_flight p -> active f (<[t := (cl, p)]> th) = active f th.
Proof.
  intros H. apply set_eq. intros x. rewrite !elem_of_active, flight_at_insert.
  destruct (decide (t = x)) as [->|]; [by rewrite H|done].
Qed.

Lemma active_join th t cl p f :
  flight_at th t = None -> in_flight p = Some f -> active f (<[t := (cl, p)]> th) = {[t]} ∪ active f th /\ t ∉ active f th.
Proof.
  intros H0 Hp. split.
  - apply set_eq. intros x. rewrite elem_of_union, elem_of_singleton, !elem_of_active, flight_at_insert.
    destruct (decide (t = x)) as [->|Hne]; [tauto|]. split; [tauto|]. intros [?|?]; congruence.
  - rewrite elem_of_active. congruence.
Qed.

Lemma active_other th t cl p f f' :
  flight_at th t <> Some f' -> in_flight p <> Some f' -> active f' (<[t := (cl, p)]> th) = active f' th.
Proof.
  intros H0 Hp. apply set_eq. intros x. rewrite !elem_of_active, flight_at_insert.
  destruct (decide (t = x)) as [->|Hne]; [tauto|done].
Qed.

Lemma active_quit th t cl p f :
  flight_at th t = Some f -> in_flight p = None -> active f (<[t := (cl, p)]> th) = active f th ∖ {[t]} /\ t ∈ active f th.
Proof.
  intros H0 Hp. split; [|by rewrite elem_of_active].
  apply set_eq. intros x. rewrite elem_of_difference, elem_of_singleton, !elem_of_active, flight_at_insert.
  destruct (decide (t = x)) as [->|Hne]; [rewrite Hp; split; [done|tauto]|]. split; [|tauto]. intros H. split; [done|]. congruence.
Qed.

Record flights_ok th c : Prop := {
  fl_key : forall t cl p f, th !! t = Some (cl, p) -> in_flight p = Some f -> _locks c !! full cl = Some f;
  fl_count : forall k f, _locks c !! k = Some f ->
    (f < next_fid c)%nat /\ callers (flight_of c f) = Z.of_nat (size (active f th)) /\ active f th <> ∅;
  fl_lock : forall k f t, _locks c !! k = Some f -> lock (flight_of c f) = Some t <-> holds_at th t = Some f;
  fl_inj : forall k k' f, _locks c !! k = Some f -> _locks c !! k' = Some f -> k = k';
}.

(** Only the flight table matters. *)
Lemma flights_frame th c c' :
  _locks c' = _locks c -> flights c' = flights c -> next_fid c' = next_fid c -> flights_ok th c -> flights_ok th c'.
Proof.
  intros Hl Hf Hn [H1 H2 H3 H4]. constructor; unfold flight_of in *; rewrite ?Hl, ?Hf, ?Hn; auto; intros; rewrite ?Hl, ?Hf, ?Hn in *; eauto.
Qed.

(** A step inside a flight: the thread keeps its flight and its lock. *)
Lemma flights_move th c t cl p p' :
  flights_ok th c -> th !! t = Some (cl, p) -> in_flight p' = in_flight p -> holding p' = holding p ->
  flights_ok (<[t := (cl, p')]> th) c.
Proof.
  intros [H1 H2 H3 H4] Ht Hi Hh.
  assert (Hfa : flight_at th t = in_flight p') by (unfold flight_at; by rewrite Ht).
  assert (Hha : holds_at th t = holding p') by (unfold holds_at; by rewrite Ht).
  constructor.
  - intros t' cl' q f H Hq. destruct (decide (t = t')) as [->|Hne].
    + rewrite lookup_insert_eq in H. injection H as <- <-. apply (H1 t' cl p); congruence.
    + rewrite lookup_insert_ne in H by done. by apply (H1 t' cl' q).
  - intros k f H. rewrite active_same by done. by apply (H2 k).
  - intros k f t' H. rewrite holds_at_insert, (H3 k f t' H). destruct (decide (t = t')) as [->|]; [by rewrite Hha|done].
  - exact H4.
Qed.

(** A step outside any flight. *)
Lemma flights_outside th c t cl :
  flights_ok th c -> flight_at th t = None -> flights_ok (<[t := (cl, Calling)]> th) c.
Proof.
  intros [H1 H2 H3 H4] Hfa.
  assert (Hha : holds_at th t = None).
  { unfold flight_at, holds_at in *. destruct (th !! t) as [[cl' p]|]; [|done]. by destruct p. }
  constructor.
  - intros t' cl' q f H Hq. destruct (decide (t = t')) as [->|Hne].
    + rewrite lookup_insert_eq in H. by injection H as <- <-.
    + rewrite lookup_insert_ne in H by done. by apply (H1 t' cl' q).
  - intros k f H. rewrite active_same by done. by apply (H2 k).
  - intros k f t' H. rewrite holds_at_insert, (H3 k f t' H). destruct (decide (t = t')) as [->|]; [by rewrite Hha|done].
  - exact H4.
Qed.

Lemma flight_of_insert c ls f f' fl n :
  flight_of (with_flights c ls (<[f := fl]> (flights c)) n) f' = if decide (f = f') then fl else flight_of c f'.
Proof.
  unfold flight_of. cbn. destruct (decide (f = f')) as [->|]; [by rewrite lookup_insert_eq|by rewrite lookup_insert_ne].
Qed.

(** A thread that holds nothing changes no holder by entering. *)
Lemma holds_at_none th t t' cl p :
  holds_at th t = None -> holding p = None -> holds_at (<[t := (cl, p)]> th) t' = holds_at th t'.
Proof. intros H Hp. rewrite holds_at_insert. destruct (decide (t = t')) as [->|]; congruence. Qed.

Lemma enter_flights th mono c t cl :
  flights_ok th c -> th !! t = Some (cl, Calling) ->
  let '(c', f) := enter mono c (full cl) in flights_ok (<[t := (cl, Entered f)]> th) c'.
Proof.
  intros Hok Ht. unfold enter. destruct (evict_all (fst <$> List.filter (fun ke => expired mono ke.2) (_entries c)) c) as ((_ & Hl & _ & Hf & _ & Hn) & _).
  change (fold_left _evict_locked _ c) with (_prune_locked mono c) in *.
  assert (Hok1 : flights_ok th (_prune_locked mono c)) by (by eapply flights_frame).
  set (c1 := _prune_locked mono c) in *. clearbody c1. clear Hl Hf Hn Hok.
  assert (Hfa : flight_at th t = None) by (unfold flight_at; by rewrite Ht).
  assert (Hha : holds_at th t = None) by (unfold holds_at; by rewrite Ht).
  destruct Hok1 as [H1 H2 H3 H4]. destruct (_locks c1 !! full cl) as [f|] eqn:El.
  - fold (flight_of c1 f). constructor.
    + intros t' cl' q g H Hq. cbn. destruct (decide (t = t')) as [->|Hne].
      * rewrite lookup_insert_eq in H. injection H as <- <-. cbn in Hq. by injection Hq as <-.
      * rewrite lookup_insert_ne in H by done. by apply (H1 t' cl' q).
    + intros k g H. cbn in H. destruct (H2 k g H) as (Hlt & Hc & Hne). rewrite flight_of_insert. split; [done|].
      destruct (decide (f = g)) as [<-|Hfg].
      * destruct (active_join th t cl (Entered f) f) as [-> Hni]; [done|done|]. cbn [callers].
        rewrite size_union, size_singleton by set_solver. split; [lia|set_solver].
      * rewrite (active_other th t cl (Entered f) f g) by (rewrite ?Hfa; cbn; congruence). done.
    + intros k g t' H. cbn in H. rewrite flight_of_insert, holds_at_none by done.
      rewrite <- (H3 k g t' H). destruct (decide (f = g)) as [<-|]; done.
    + exact H4.
  - constructor.
    + intros t' cl' q g H Hq. cbn. destruct (decide (t = t')) as [->|Hne].
      * rewrite lookup_insert_eq in H. injection H as <- <-. cbn in Hq. injection Hq as <-. by rewrite lookup_insert_eq.
      * rewrite lookup_insert_ne in H by done. specialize (H1 t' cl' q g H Hq).
        rewrite lookup_insert_ne; [done|]. intros Heq. rewrite Heq in El. congruence.
    + intros k g H. cbn in H. rewrite flight_of_insert. cbn [next_fid with_flights].
      destruct (decide (full cl = k)) as [<-|Hk].
      * rewrite lookup_insert_eq in H. injection H as <-. rewrite decide_True by done. cbn [callers].
        destruct (active_join th t cl (Entered (next_fid c1)) (next_fid c1)) as [-> Hni]; [done|done|].
        assert (active (next_fid c1) th = ∅) as ->.
        { apply set_eq. intros x. rewrite elem_of_active. split; [|set_solver]. intros Hx. exfalso.
          unfold flight_at in Hx. destruct (th !! x) as [[cl' q]|] eqn:Ex; [|done].
          specialize (H1 x cl' q _ Ex Hx). apply H2 in H1 as [H1 _]. lia. }
        rewrite union_empty_r_L, size_singleton. split_and!; [lia|done|set_solver].
      * rewrite lookup_insert_ne in H by done. destruct (H2 k g H) as (Hlt & Hc & Hne).
        rewrite decide_False by lia.
        rewrite (active_other th t cl (Entered (next_fid c1)) (next_fid c1) g); [split_and!; [lia|done|done]|rewrite Hfa; done|cbn; intros [= Heq]; lia].
    + intros k g t' H. cbn in H. rewrite flight_of_insert, holds_at_none by done.
      destruct (decide (full cl = k)) as [<-|Hk].
      * rewrite lookup_insert_eq in H. injection H as <-. rewrite decide_True by done. cbn [lock]. split; [done|].
        intros Hh. exfalso. unfold holds_at in Hh. destruct (th !! t') as [[cl' q]|] eqn:Ex; [|done].
        apply holding_in_flight in Hh. specialize (H1 t' cl' q _ Ex Hh). apply H2 in H1 as [H1 _]. lia.
      * rewrite lookup_insert_ne in H by done. rewrite decide_False by (destruct (H2 k g H); lia). by apply (H3 k).
    + intros k k' g Hk Hk'. cbn in Hk, Hk'.
      destruct (decide (full cl = k)) as [<-|Hn]; destruct (decide (full cl = k')) as [<-|Hn']; [done| | |].
      * rewrite lookup_insert_eq in Hk. injection Hk as <-. rewrite lookup_insert_ne in Hk' by done. apply H2 in Hk' as [? _]. lia.
      * rewrite lookup_insert_eq in Hk'. injection Hk' as <-. rewrite lookup_insert_ne in Hk by done. apply H2 in Hk as [? _]. lia.
      * rewrite lookup_insert_ne in Hk, Hk' by done. by apply (H4 k k' g).
Qed.

Lemma set_lock_flights th c t cl p p' f l :
  flights_ok th c -> th !! t = Some (cl, p) -> in_flight p = Some f -> in_flight p' = Some f ->
  (l = Some t /\ lock (flight_of c f) = None /\ holding p' = Some f) \/
  (l = None /\ holding p = Some f /\ holding p' = None) ->
  flights_ok (<[t := (cl, p')]> th) (set_lock c f l).
Proof.
  intros [H1 H2 H3 H4] Ht Hp Hp' Hl. pose proof (H1 t cl p f Ht Hp) as Hkf.
  assert (Hfa : flight_at th t = in_flight p') by (unfold flight_at; rewrite Ht; congruence).
  constructor.
  - intros t' cl' q g H Hq. cbn. destruct (decide (t = t')) as [->|Hne].
    + rewrite lookup_insert_eq in H. injection H as <- <-. congruence.
    + rewrite lookup_insert_ne in H by done. by apply (H1 t' cl' q).
  - intros k g H. cbn in H. rewrite active_same by done. unfold set_lock. rewrite flight_of_insert. cbn [next_fid with_flights].
    destruct (H2 k g H) as (Hlt & Hc & Hne). destruct (decide (f = g)) as [<-|]; done.
  - intros k g t' H. cbn in H. unfold set_lock. rewrite flight_of_insert, holds_at_insert.
    destruct (decide (f = g)) as [<-|Hfg]; cbn [lock].
    + destruct Hl as [(-> & Hfree & Hh)|(-> & Hh & Hh')].
      * destruct (decide (t = t')) as [->|Hne]; [split; congruence|]. rewrite <- (H3 _ _ t' Hkf). split; congruence.
      * destruct (decide (t = t')) as [->|Hne]; [split; congruence|]. split; [done|]. intros Hht'. exfalso.
        assert (Hht : holds_at th t = Some f) by (unfold holds_at; by rewrite Ht).
        apply (H3 _ _ t' Hkf) in Hht'. apply (H3 _ _ t Hkf) in Hht. congruence.
    + rewrite (H3 k g t' H). destruct (decide (t = t')) as [->|Hne]; [|done].
      assert (Hht : holds_at th t' = holding p) by (unfold holds_at; by rewrite Ht). rewrite Hht.
      assert (holding p <> Some g) by (intros E%holding_in_flight; congruence).
      assert (holding p' <> Some g) by (intros E%holding_in_flight; congruence). split; congruence.
  - exact H4.
Qed.

Lemma leave_flights th c t cl f out :
  flights_ok th c -> th !! t = Some (cl, Unlocked f out) ->
  flights_ok (<[t := (cl, Returned out)]> th) (leave c (full cl) f).
Proof.
  intros [H1 H2 H3 H4] Ht. pose proof (H1 t cl _ f Ht eq_refl) as Hkf. destruct (H2 _ _ Hkf) as (Hlt & Hc & _).
  assert (Hfa : flight_at th t = Some f) by (unfold flight_at; by rewrite Ht).
  assert (Hha : holds_at th t = None) by (unfold holds_at; by rewrite Ht).
  destruct (active_quit th t cl (Returned out) f Hfa eq_refl) as [Hact Hin].
  assert (Hsz : Z.of_nat (size (active f th ∖ {[t]})) = callers (flight_of c f) - 1).
  { rewrite size_difference by set_solver. rewrite size_singleton, Hc.
    assert (size (active f th) <> 0%nat) by (intros E; apply size_empty_inv in E; set_solver). lia. }
  assert (Hother : forall t' cl' q g, <[t := (cl, Returned out)]> th !! t' = Some (cl', q) -> in_flight q = Some g ->
    t' <> t /\ th !! t' = Some (cl', q)).
  { intros t' cl' q g H Hq. destruct (decide (t = t')) as [->|Hne].
    - rewrite lookup_insert_eq in H. by injection H as <- <-.
    - rewrite lookup_insert_ne in H by done. split; [congruence|done]. }
  assert (Hcnt : forall k g, _locks c !! k = Some g -> (k <> full cl \/ callers (flight_of c f) - 1 <> 0) ->
    callers (if decide (f = g) then MkFlight (lock (flight_of c f)) (callers (flight_of c f) - 1) (f_epoch (flight_of c f)) else flight_of c g) =
      Z.of_nat (size (active g (<[t := (cl, Returned out)]> th))) /\ active g (<[t := (cl, Returned out)]> th) <> ∅).
  { intros k g Hk Hcase. destruct (decide (f = g)) as [<-|Hfg].
    - rewrite Hact. cbn [callers]. split; [lia|]. intros E. rewrite E, size_empty in Hsz.
      destruct Hcase as [Hcase|Hcase]; [|cbn in Hsz; lia]. apply Hcase. by apply (H4 _ _ f).
    - rewrite (active_other th t cl (Returned out) f g) by (rewrite ?Hfa; cbn; congruence).
      destruct (H2 k g Hk) as (_ & ? & ?). done. }
  unfold leave. rewrite bool_decide_eq_true_2, andb_true_r by done.
  destruct (Z.eqb_spec (callers (flight_of c f) - 1) 0) as [Ez|Enz]; constructor.
  - intros t' cl' q g H Hq. destruct (Hother t' cl' q g H Hq) as [Hne H']. cbn.
    pose proof (H1 t' cl' q g H' Hq) as Hk. rewrite lookup_delete_ne; [done|]. intros Heq.
    rewrite <- Heq, Hkf in Hk. injection Hk as <-.
    assert (t' ∈ active f th ∖ {[t]}) as Hx.
    { apply elem_of_difference. rewrite elem_of_singleton, elem_of_active. split; [|done]. unfold flight_at. by rewrite H'. }
    rewrite Ez in Hsz. assert (size (active f th ∖ {[t]}) = 0%nat) as Hz by lia. apply size_empty_inv in Hz. set_solver.
  - intros k g H. cbn in H. apply lookup_delete_Some in H as [Hne H]. rewrite flight_of_insert. cbn [next_fid with_flights].
    destruct (H2 k g H) as (? & _ & _). split; [done|]. apply (Hcnt k g H). by left.
  - intros k g t' H. cbn in H. apply lookup_delete_Some in H as [Hne H]. rewrite flight_of_insert, holds_at_none by done.
    rewrite <- (H3 k g t' H). destruct (decide (f = g)) as [<-|]; done.
  - intros k k' g Hk Hk'. cbn in Hk, Hk'. apply lookup_delete_Some in Hk as [_ Hk], Hk' as [_ Hk']. by apply (H4 k k' g).
  - intros t' cl' q g H Hq. destruct (Hother t' cl' q g H Hq) as [Hne H']. cbn. by apply (H1 t' cl' q).
  - intros k g H. cbn in H. rewrite flight_of_insert. cbn [next_fid with_flights].
    destruct (H2 k g H) as (? & _ & _). split; [done|]. apply (Hcnt k g H). by right.
  - intros k g t' H. cbn in H. rewrite flight_of_insert, holds_at_none by done.
    rewrite <- (H3 k g t' H). destruct (decide (f = g)) as [<-|]; done.
  - exact H4.
Qed.

(** Moving an epoch changes no caller and no lock. *)
Lemma epoch_flights th c f :
  flights_ok th c ->
  flights_ok th (with_flights c (_locks c) (<[f := MkFlight (lock (flight_of c f)) (callers (flight_of c f)) (f_epoch (flight_of c f) + 1)]> (flights c)) (next_fid c)).
Proof.
  intros [H1 H2 H3 H4]. constructor; [done| | |done].
  - intros k g H. cbn in H. rewrite flight_of_insert. destruct (H2 k g H) as (? & ? & ?).
    destruct (decide (f = g)) as [<-|]; done.
  - intros k g t H. cbn in H. rewrite flight_of_insert, <- (H3 k g t H). destruct (decide (f = g)) as [<-|]; done.
Qed.
End Flights.

(** ** Loads and revocations *)

(** The epochs a loading thread recorded, and when. *)
Definition phase_start (p : phase) : option (fid * (Z * Z) * nat) :=
  match p with
  | Missed f st s | Reading f st s _ | Loaded f st s _ _ _ | Inserting f st s _ _ => Some (f, st, s)
  | _ => None
  end.

(** The material it has read, and the entry it is about to insert. *)
Definition phase_read (p : phase) : option secret :=
  match p with Loaded _ _ _ _ s _ => Some s | Inserting _ _ _ e _ => Some (master e) | _ => None end.
Definition phase_entry (p : phase) : option _Entry := match p with Inserting _ _ _ e _ => Some e | _ => None end.

Definition rev_at (w : world) (k : fkey) : nat := default 0%nat (revoked w !! k).

(** If neither epoch moved since the recording, no revocation came after it. *)
Definition start_ok (w : world) (cl : call) (p : phase) : Prop :=
  forall f e fe s, phase_start p = Some (f, (e, fe), s) ->
    (s < time w)%nat /\ e <= _epoch (cache w) /\ fe <= f_epoch (flight_of (cache w) f) /\
    (e = _epoch (cache w) -> (cleared w < s)%nat) /\
    (fe = f_epoch (flight_of (cache w) f) -> (rev_at w (full cl) < s)%nat) /\
    (forall x, phase_read p = Some x -> (s <= read_at x)%nat) /\
    (forall en, phase_entry p = Some en -> addr <$> e_owners en = (full cl).2).

Definition inserting (th : gmap tid (call * phase)) (t : tid) (e : _Entry) : Prop :=
  exists cl p, th !! t = Some (cl, p) /\ phase_entry p = Some e.

Record world_ok (capacity : Z) (w : world) : Prop := {
  wo_capacity : _capacity (cache w) = capacity;
  wo_table : table_ok (inserting (threads w)) (last_revoked w) (cache w);
  wo_flights : flights_ok (threads w) (cache w);
  wo_starts : forall t cl p, threads w !! t = Some (cl, p) -> start_ok w cl p;
  wo_cleared : (cleared w < time w)%nat;
  wo_revoked : forall k, (rev_at w k < time w)%nat;
}.

Lemma last_revoked_max w k : last_revoked w k = Nat.max (cleared w) (rev_at w k).
Proof. reflexivity. Qed.

(** The part of a cache that epochs and loads depend on. *)
Definition same_epochs (w w' : world) : Prop :=
  _epoch (cache w') = _epoch (cache w) /\
  (forall k f, _locks (cache w) !! k = Some f -> f_epoch (flight_of (cache w') f) = f_epoch (flight_of (cache w) f)) /\
  (time w <= time w')%nat /\ cleared w' = cleared w /\ revoked w' = revoked w.

Lemma start_frame w w' cl p :
  same_epochs w w' -> (forall f, in_flight p = Some f -> _locks (cache w) !! full cl = Some f) ->
  start_ok w cl p -> start_ok w' cl p.
Proof.
  intros (He & Hf & Ht & Hc & Hr) Hl Hok f e fe s Hs.
  assert (in_flight p = Some f) as Hp by (destruct p; cbn in *; congruence).
  unfold rev_at. rewrite He, (Hf _ _ (Hl f Hp)), Hc, Hr. destruct (Hok f e fe s Hs) as (? & ? & ? & ? & ? & ? & ?).
  split_and!; auto; lia.
Qed.

(** A step of one thread that moves no epoch. *)
Lemma world_move capacity w w' t cl p' :
  world_ok capacity w -> threads w' = <[t := (cl, p')]> (threads w) -> same_epochs w w' -> time w' = S (time w) ->
  _capacity (cache w') = _capacity (cache w) ->
  flights_ok (threads w') (cache w') -> table_ok (inserting (threads w')) (last_revoked w') (cache w') ->
  start_ok w' cl p' -> world_ok capacity w'.
Proof.
  intros [Hcap Htab Hfl Hst Hcl Hrv] Hth Hse Htm Hc' Hf' Ht' Hp'. constructor; [congruence|done|done| | |].
  - intros t' cl' q H. rewrite Hth in H. destruct (decide (t = t')) as [->|Hne].
    + rewrite lookup_insert_eq in H. by injection H as <- <-.
    + rewrite lookup_insert_ne in H by done. eapply start_frame; [exact Hse| |by eapply Hst].
      intros f Hq. by eapply fl_key.
  - destruct Hse as (_ & _ & _ & -> & _). lia.
  - intros k. destruct Hse as (_ & _ & _ & _ & Hr). unfold rev_at in *. rewrite Hr. specialize (Hrv k). lia.
Qed.

Lemma inserting_move th t cl p t' e :
  inserting (<[t := (cl, p)]> th) t' e -> (t' = t /\ phase_entry p = Some e) \/ (inserting th t' e /\ t' <> t).
Proof.
  intros (cl' & q & H & He). destruct (decide (t = t')) as [->|Hne].
  - rewrite lookup_insert_eq in H. injection H as <- <-. by left.
  - rewrite lookup_insert_ne in H by done. right. split; [by exists cl', q|done].
Qed.

Lemma table_move th t cl p rv c :
  phase_entry p = None -> table_ok (inserting th) rv c -> table_ok (inserting (<[t := (cl, p)]> th)) rv c.
Proof.
  intros Hp H. eapply table_weaken; [| |exact H].
  - intros t' e [[_ ?]|[? _]]%inserting_move; congruence.
  - intros k e. apply H.
Qed.

(** The table depends only on its own fields. *)
Lemma table_frame ins rv c c' :
  _capacity c' = _capacity c -> _entries c' = _entries c -> closed c' = closed c -> next_sid c' = next_sid c ->
  table_ok ins rv c -> table_ok ins rv c'.
Proof.
  intros H1 H2 H3 H4 [A B C D E F G]. constructor; rewrite ?H1, ?H2, ?H3, ?H4; auto.
  intros l s H. assert (Hm : forall l, master_at ins c' l s -> master_at ins c l s).
  { intros [k|t]; [|done]. cbn. by rewrite H2. }
  destruct (F l s (Hm l H)) as (? & ? & Hu). split_and!; auto.
Qed.

Lemma not_inserting th t cl p e : th !! t = Some (cl, p) -> phase_entry p = None -> ~ inserting th t e.
Proof. intros H Hp (cl' & q & H' & He). congruence. Qed.

Lemma same_flight_of c c' f : flights c' = flights c -> flight_of c' f = flight_of c f.
Proof. unfold flight_of. by intros ->. Qed.

Lemma evict_same_epochs w w' :
  same_but_entries (cache w) (cache w') -> (time w <= time w')%nat -> cleared w' = cleared w -> revoked w' = revoked w ->
  same_epochs w w'.
Proof.
  intros (_ & _ & He & Hf & _) Ht Hc Hr. split_and!; auto. intros k f _. by rewrite (same_flight_of _ _ f Hf).
Qed.

(** ** Every step keeps the world in order *)

Section Steps.
Context (capacity : Z) (w : world) (Hw : world_ok capacity w).

Let Htab : table_ok (inserting (threads w)) (last_revoked w) (cache w) := wo_table _ _ Hw.
Let Hfl : flights_ok (threads w) (cache w) := wo_flights _ _ Hw.

(** A step inside a flight that leaves the flight table alone. *)
Lemma step_inside t cl p p' ca :
  threads w !! t = Some (cl, p) -> in_flight p' = in_flight p -> holding p' = holding p ->
  _locks ca = _locks (cache w) -> flights ca = flights (cache w) -> next_fid ca = next_fid (cache w) ->
  _epoch ca = _epoch (cache w) -> _capacity ca = _capacity (cache w) ->
  table_ok (inserting (<[t := (cl, p')]> (threads w))) (last_revoked w) ca ->
  start_ok (moved w t cl p' ca) cl p' -> world_ok capacity (moved w t cl p' ca).
Proof.
  intros Ht Hi Hh Hl Hf Hn He Hc Htb Hs. eapply world_move; [exact Hw|reflexivity| |reflexivity|exact Hc| |exact Htb|exact Hs].
  - split_and!; cbn; [exact He| |lia|done|done]. intros k f _. by rewrite (same_flight_of _ _ f Hf).
  - eapply flights_frame; [exact Hl|exact Hf|exact Hn|]. by eapply flights_move.
Qed.

(** A loading thread keeps what it recorded. *)
Lemma start_moved t cl p p' ca :
  threads w !! t = Some (cl, p) -> phase_start p' = phase_start p ->
  (forall f, in_flight p = Some f -> flight_of ca f = flight_of (cache w) f) -> _epoch ca = _epoch (cache w) ->
  (forall s x f st, phase_start p = Some (f, st, s) -> phase_read p' = Some x -> (s <= read_at x)%nat) ->
  (forall en, phase_entry p' = Some en -> addr <$> e_owners en = (full cl).2) ->
  start_ok (moved w t cl p' ca) cl p'.
Proof.
  intros Ht Hp Hf He Hr Hen f e fe s Hs. rewrite Hp in Hs.
  assert (in_flight p = Some f) as Hif by (destruct p; cbn in *; congruence).
  destruct (wo_starts _ _ Hw t cl p Ht f e fe s Hs) as (? & ? & ? & ? & ? & _ & _).
  cbn [time cache cleared moved]. rewrite He, (Hf f Hif). unfold rev_at in *. cbn [revoked moved].
  split_and!; auto; eauto.
Qed.

Lemma start_none t cl p ca : phase_start p = None -> start_ok (moved w t cl p ca) cl p.
Proof. intros H f e fe s Hs. congruence. Qed.

Lemma ok_call t cl :
  (forall c' p, threads w !! t = Some (c', p) -> in_flight p = None) -> world_ok capacity (moved w t cl Calling (cache w)).
Proof.
  intros Ht. eapply world_move; [exact Hw|reflexivity| |reflexivity|done| | |by apply start_none].
  - split_and!; cbn; done || lia.
  - apply flights_outside; [exact Hfl|]. unfold flight_at. destruct (threads w !! t) as [[c' p]|] eqn:E; [|done]. by eapply Ht.
  - by apply table_move.
Qed.

Lemma ok_enter t cl :
  threads w !! t = Some (cl, Calling) ->
  world_ok capacity (let '(ca, f) := enter (mono w) (cache w) (full cl) in moved w t cl (Entered f) ca).
Proof.
  intros Ht. pose proof (enter_flights _ (mono w) _ _ _ Hfl Ht) as Hf'. unfold enter in *.
  destruct (evict_all (fst <$> List.filter (fun ke => expired (mono w) ke.2) (_entries (cache w))) (cache w)) as (Hs & _ & Hok).
  change (fold_left _evict_locked _ _) with (_prune_locked (mono w) (cache w)) in *.
  set (c1 := _prune_locked (mono w) (cache w)) in *. specialize (Hok _ _ Htab). clearbody c1.
  destruct Hs as (Hc & Hl & He & Hfs & Hns & Hnf).
  destruct (_locks c1 !! full cl) as [f|] eqn:El.
  - eapply world_move; [exact Hw|reflexivity| |reflexivity|exact Hc|exact Hf'| |by apply start_none].
    + split_and!; cbn; [done| |lia|done|done]. intros k g Hk. fold (flight_of c1 f). rewrite flight_of_insert.
      rewrite (same_flight_of _ _ g Hfs). destruct (decide (f = g)) as [<-|]; [|done]. cbn. by rewrite (same_flight_of _ _ f Hfs).
    + apply table_move; [done|]. eapply table_frame; [..|exact Hok]; done.
  - eapply world_move; [exact Hw|reflexivity| |reflexivity|exact Hc|exact Hf'| |by apply start_none].
    + split_and!; cbn; [done| |lia|done|done]. intros k g Hk. rewrite flight_of_insert.
      rewrite (same_flight_of _ _ g Hfs). destruct (fl_count _ _ Hfl k g Hk) as [Hlt _]. by rewrite decide_False by lia.
    + apply table_move; [done|]. eapply table_frame; [..|exact Hok]; done.
Qed.

Lemma ok_set_lock t cl p p' f l :
  threads w !! t = Some (cl, p) -> in_flight p = Some f -> in_flight p' = Some f -> phase_start p' = None -> phase_entry p' = None ->
  (l = Some t /\ lock (flight_of (cache w) f) = None /\ holding p' = Some f) \/
  (l = None /\ holding p = Some f /\ holding p' = None) ->
  world_ok capacity (moved w t cl p' (set_lock (cache w) f l)).
Proof.
  intros Ht Hp Hp' Hs He Hl. eapply world_move; [exact Hw|reflexivity| |reflexivity|done| | |by apply start_none].
  - split_and!; cbn; [done| |lia|done|done]. intros k g Hk. unfold set_lock. rewrite flight_of_insert.
    by destruct (decide (f = g)) as [<-|].
  - by eapply set_lock_flights.
  - apply table_move; [done|]. eapply table_frame; [..|exact Htab]; done.
Qed.

Lemma ok_check t cl f : threads w !! t = Some (cl, Locked f) -> world_ok capacity (check w t cl f).
Proof.
  intros Ht. unfold check, _hit_locked.
  assert (Hmiss : forall ca, same_but_entries (cache w) ca -> table_ok (inserting (threads w)) (last_revoked w) ca ->
    world_ok capacity (moved w t cl (Missed f (epochs ca f) (time w)) ca)).
  { intros ca (Hc & Hl & He & Hf & _ & Hn) Hok. apply (step_inside t cl (Locked f)); try done; [by apply table_move|].
    intros g e fe s [= <- <- <- <-]. cbn [time cache cleared moved]. unfold rev_at. cbn [revoked moved].
    pose proof (wo_cleared _ _ Hw). pose proof (wo_revoked _ _ Hw (full cl)) as Hrv. unfold rev_at in Hrv.
    split_and!; try lia; done. }
  destruct (od_get (_entries (cache w)) (full cl)) as [e|] eqn:Eg; [|apply Hmiss; [apply same_refl|exact Htab]].
  destruct (expired (mono w) e || owners_differ (e_owners e) (c_owners cl)).
  { apply Hmiss; [apply evict_same|by apply evict_ok]. }
  destruct (older_than (mono w) e (c_ttl cl)); [apply Hmiss; [apply same_refl|exact Htab]|].
  destruct (clone (cache w) (master e)) as [ca s] eqn:Ec.
  pose proof (clone_ok _ _ (cache w) (master e) t (fun m => MkEntry m 0 0 [] 0) Htab) as Hcl. rewrite Ec in Hcl.
  destruct Hcl as (_ & Hok & _); [intros e'; by eapply not_inserting|done|].
  cbn in Ec. injection Ec as <- <-.
  apply (step_inside t cl (Locked f)); try done; first [by apply table_move|by apply start_none].
Qed.

Lemma ok_load t cl f st s now x r :
  threads w !! t = Some (cl, Reading f st s now) -> (s < r <= time w)%nat ->
  world_ok capacity (let '(ca, m) := clone (cache w) (MkSecret 0 r) in moved w t cl (Loaded f st s now m x) ca).
Proof.
  intros Ht Hrange. destruct (clone (cache w) (MkSecret 0 r)) as [ca m] eqn:Ec.
  pose proof (clone_ok _ _ (cache w) (MkSecret 0 r) t (fun m => MkEntry m 0 0 [] 0) Htab) as Hcl. rewrite Ec in Hcl.
  destruct Hcl as (_ & Hok & Hr); [intros e'; by eapply not_inserting|done|].
  cbn in Ec. injection Ec as <- <-. apply (step_inside t cl (Reading f st s now)); try done; [by apply table_move|].
  apply (start_moved t cl (Reading f st s now)); try done.
  intros s' y g st' [= <- <- <-] [= <-]. cbn. lia.
Qed.

Lemma ok_deadline t cl f st s now pr x wall :
  threads w !! t = Some (cl, Loaded f st s now pr x) -> world_ok capacity (plan_insert w t cl f st s now pr x wall).
Proof.
  intros Ht. unfold plan_insert. destruct (remaining (c_ttl cl) x wall >? 0).
  - destruct (clone (cache w) pr) as [ca m] eqn:Ec. set (en := MkEntry m _ _ _ _).
    pose proof (clone_ok _ _ (cache w) pr t (fun m => MkEntry m (now + remaining (c_ttl cl) x wall) (c_clock cl) (c_owners cl) now) Htab) as Hcl.
    rewrite Ec in Hcl. destruct Hcl as (Hok & _ & Hr); [intros e'; by eapply not_inserting|done|]. fold en in Hok.
    cbn in Ec. injection Ec as <- <-. apply (step_inside t cl (Loaded f st s now pr x)); try done.
    + eapply table_weaken; [| |exact Hok].
      * intros t' e' [[-> [= <-]]|[H _]]%inserting_move; [by right|by left].
      * intros k e'. apply Hok.
    + apply (start_moved t cl (Loaded f st s now pr x)); try done; [|by intros ? [= <-]].
      intros s' y g st' [= <- <- <-] [= <-]. cbn. destruct st as [e fe].
      destruct (wo_starts _ _ Hw t cl _ Ht f e fe s eq_refl) as (_ & _ & _ & _ & _ & Hrd & _). by apply Hrd.
  - apply (step_inside t cl (Loaded f st s now pr x)); try done; first [by apply table_move|by apply start_none].
Qed.

Lemma ok_insert t cl f st s en pr :
  threads w !! t = Some (cl, Inserting f st s en pr) ->
  world_ok capacity (moved w t cl (Leaving f (Some pr)) (insert_if_current (cache w) (full cl) f st en)).
Proof.
  intros Ht. destruct st as [e fe].
  destruct (wo_starts _ _ Hw t cl _ Ht f e fe s eq_refl) as (_ & _ & _ & Hce & Hre & Hrd & Hen).
  specialize (Hrd (master en) eq_refl). specialize (Hen en eq_refl).
  assert (Hins : inserting (threads w) t en) by (by exists cl, (Inserting f (e, fe) s en pr)).
  assert (Hsub : forall t' e', inserting (<[t := (cl, Leaving f (Some pr))]> (threads w)) t' e' -> inserting (threads w) t' e' /\ t' <> t)
    by (intros t' e' [[_ ?]|?]%inserting_move; done).
  unfold insert_if_current, epochs. destruct (bool_decide _) eqn:Eb; bool_prop.
  - injection Eb as -> ->. specialize (Hce eq_refl). specialize (Hre eq_refl).
    assert (Hrv : (last_revoked w (full cl) < read_at (master en))%nat) by (rewrite last_revoked_max; lia).
    destruct (insert_ok _ _ _ (full cl) t en Htab Hins Hrv Hen) as [Hok (Hc & Hl & He & Hf & _ & Hn)].
    apply (step_inside t cl (Inserting f (_epoch (cache w), f_epoch (flight_of (cache w) f)) s en pr)); try done; try by apply start_none.
    eapply table_weaken; [exact Hsub| |exact Hok]. intros k e'. apply Hok.
  - pose proof (close_ok _ _ _ t en Htab Hins) as Hok.
    apply (step_inside t cl (Inserting f (e, fe) s en pr)); try done; try by apply start_none.
    eapply table_weaken; [exact Hsub| |exact Hok]. intros k e'. apply Hok.
Qed.

Lemma ok_leave t cl f out :
  threads w !! t = Some (cl, Unlocked f out) -> world_ok capacity (moved w t cl (Returned out) (leave (cache w) (full cl) f)).
Proof.
  intros Ht. pose proof (leave_flights _ _ _ _ _ _ Hfl Ht) as Hf'.
  assert (Hsame : forall g, f_epoch (flight_of (leave (cache w) (full cl) f) g) = f_epoch (flight_of (cache w) g)).
  { intros g. unfold leave. destruct (_ && _); rewrite flight_of_insert; by destruct (decide (f = g)) as [<-|]. }
  eapply world_move; [exact Hw|reflexivity| |reflexivity| |exact Hf'| |by apply start_none].
  - split_and!; cbn; [|intros; apply Hsame|lia|done|done]. unfold leave. by destruct (_ && _).
  - cbn. unfold leave. by destruct (_ && _).
  - apply table_move; [done|]. eapply table_frame; [..|exact Htab]; cbn; unfold leave; by destruct (_ && _).
Qed.

Lemma ok_clock t cl f st s now :
  threads w !! t = Some (cl, Missed f st s) -> world_ok capacity (moved w t cl (Reading f st s now) (cache w)).
Proof.
  intros Ht. apply (step_inside t cl (Missed f st s)); try done; [by apply table_move|].
  by apply (start_moved t cl (Missed f st s)).
Qed.

Lemma ok_load_fails t cl f st s now :
  threads w !! t = Some (cl, Reading f st s now) -> world_ok capacity (moved w t cl (Leaving f None) (cache w)).
Proof. intros Ht. apply (step_inside t cl (Reading f st s now)); try done; first [by apply table_move|by apply start_none]. Qed.

Lemma ok_tick m' : world_ok capacity (MkWorld (cache w) (threads w) m' (S (time w)) (revoked w) (cleared w)).
Proof.
  pose proof Hw as [Hcap _ _ Hst Hcl Hrv]. constructor; cbn; try done.
  - intros t cl p Ht. eapply start_frame; [| |by eapply Hst]; [split_and!; cbn; done || lia|]. intros f Hf. by eapply fl_key.
  - lia.
  - intros k. specialize (Hrv k). unfold rev_at in *. cbn. lia.
Qed.

(** The flight epochs after [invalidate]: the key's own flight moves, no other does. *)
Lemma invalidate_shape k :
  let c' := invalidate (cache w) k in
  _capacity c' = _capacity (cache w) /\ _locks c' = _locks (cache w) /\ _epoch c' = _epoch (cache w) /\
  flights_ok (threads w) c' /\ table_ok (inserting (threads w)) (last_revoked w) c' /\
  (forall k' e, (k', e) ∈ _entries c' -> k' <> k) /\
  (forall k' f, _locks (cache w) !! k' = Some f ->
     f_epoch (flight_of c' f) = if decide (k' = k) then f_epoch (flight_of (cache w) f) + 1 else f_epoch (flight_of (cache w) f)).
Proof.
  cbn zeta. unfold invalidate. set (c1 := match _locks (cache w) !! k with Some _ => _ | None => _ end).
  pose proof (evict_same c1 k) as (Hc & Hl & He & Hf & _ & Hn).
  assert (H1 : _capacity c1 = _capacity (cache w) /\ _locks c1 = _locks (cache w) /\ _epoch c1 = _epoch (cache w) /\
    flights_ok (threads w) c1 /\ table_ok (inserting (threads w)) (last_revoked w) c1 /\
    (forall k' f, _locks (cache w) !! k' = Some f ->
     f_epoch (flight_of c1 f) = if decide (k' = k) then f_epoch (flight_of (cache w) f) + 1 else f_epoch (flight_of (cache w) f))).
  { subst c1. destruct (_locks (cache w) !! k) as [g|] eqn:Ek.
    - split_and!; try done; [by apply epoch_flights|by eapply table_frame; [..|exact Htab]|].
      intros k' f Hk'. rewrite flight_of_insert. destruct (decide (g = f)) as [->|Hne].
      + by rewrite decide_True by (by eapply fl_inj).
      + rewrite decide_False; [done|]. congruence.
    - split_and!; try done. intros k' f Hk'. rewrite decide_False; [done|]. congruence. }
  destruct H1 as (Hc1 & Hl1 & He1 & Hok1 & Htb1 & Hfe1). split_and!; [congruence|congruence|congruence| | | |].
  - by eapply flights_frame; [..|exact Hok1].
  - by apply evict_ok.
  - intros k' e [_ H]%evict_entries. exact H.
  - intros k' f H. rewrite (same_flight_of _ _ f Hf). by apply Hfe1.
Qed.

Lemma ok_invalidate k :
  world_ok capacity (MkWorld (invalidate (cache w) k) (threads w) (mono w) (S (time w)) (<[k := time w]> (revoked w)) (cleared w)).
Proof.
  destruct (invalidate_shape k) as (Hc & Hl & He & Hfl' & Htb & Hne & Hfe). pose proof Hw as [Hcap _ _ Hst Hcl Hrv].
  assert (Hrev : forall k', k' <> k -> default 0%nat (<[k := time w]> (revoked w) !! k') = rev_at w k').
  { intros k' H. by rewrite lookup_insert_ne. }
  constructor; cbn; [congruence| |done| |lia|].
  - eapply table_weaken; [done| |exact Htb]. intros k' e H. unfold last_revoked. cbn. rewrite Hrev by (by eapply Hne).
    by apply Htb.
  - intros t cl p Ht f e fe s Hs. cbn. unfold rev_at. cbn.
    assert (Hp : in_flight p = Some f) by (destruct p; cbn in *; congruence).
    pose proof (fl_key _ _ Hfl t cl p f Ht Hp) as Hk. rewrite He, (Hfe _ _ Hk).
    destruct (Hst t cl p Ht f e fe s Hs) as (? & ? & ? & ? & Hre & ? & ?).
    destruct (decide (full cl = k)) as [Heq|Hneq]; [|rewrite Hrev by done]; split_and!; auto; lia.
  - intros k'. unfold rev_at. cbn. destruct (decide (k' = k)) as [->|Hd]; [rewrite lookup_insert_eq; cbn; lia|].
    rewrite Hrev by done. specialize (Hrv k'). lia.
Qed.

Lemma clear_shape :
  let c' := clear (cache w) in
  _entries c' = [] /\ _capacity c' = _capacity (cache w) /\ _epoch c' = _epoch (cache w) + 1 /\
  _locks c' = _locks (cache w) /\ flights c' = flights (cache w) /\ next_fid c' = next_fid (cache w) /\
  table_ok (inserting (threads w)) (last_revoked w) c'.
Proof.
  cbn zeta. unfold clear. set (c1 := MkCache _ _ _ _ _ _ _ _).
  destruct (evict_all (od_keys (_entries (cache w))) c1) as ((Hc & Hl & He & Hf & _ & Hn) & Hel & Hok).
  split_and!; try done; [|by apply Hok; eapply table_frame; [..|exact Htab]].
  apply elem_of_nil_inv. intros kv [H Hk]%Hel. apply Hk. by apply list_elem_of_fmap_2.
Qed.

Lemma ok_clear : world_ok capacity (MkWorld (clear (cache w)) (threads w) (mono w) (S (time w)) (revoked w) (time w)).
Proof.
  destruct clear_shape as (Hes & Hc & He & Hl & Hf & Hn & Htb). pose proof Hw as [Hcap _ _ Hst Hcl Hrv].
  constructor; cbn; [congruence| | | |lia|].
  - eapply table_weaken; [done| |exact Htb]. intros k e. rewrite Hes. set_solver.
  - by eapply flights_frame; [..|exact Hfl].
  - intros t cl p Ht f e fe s Hs. cbn. unfold rev_at. cbn. rewrite He, (same_flight_of _ _ f Hf).
    destruct (Hst t cl p Ht f e fe s Hs) as (? & ? & ? & ? & Hre & ? & ?). split_and!; auto; lia.
  - intros k. specialize (Hrv k). unfold rev_at in *. cbn. lia.
Qed.

Lemma step_ok w' : step w w' -> world_ok capacity w'.
Proof.
  intros [].
  - by apply ok_call.
  - by apply ok_enter.
  - eapply ok_set_lock; [done..|]. by left.
  - by apply ok_check.
  - by apply ok_clock.
  - by apply ok_load.
  - by eapply ok_load_fails.
  - by apply ok_deadline.
  - by eapply ok_insert.
  - eapply ok_set_lock; [done..|]. by right.
  - by apply ok_leave.
  - apply ok_invalidate.
  - apply ok_clear.
  - apply ok_tick.
Qed.
End Steps.

Lemma init_ok capacity c m : new_cache capacity = Ok c -> world_ok capacity (MkWorld c ∅ m 1 ∅ 0).
Proof.
  unfold new_cache, raise_if. destruct (Z.ltb_spec capacity 1) as [|Hc]; [done|]. cbn. intros [= <-].
  constructor; cbn; [done| | | |lia|intros k; unfold rev_at; cbn; rewrite lookup_empty; cbn; lia].
  - constructor; cbn; [constructor|done|unfold zlen; cbn; lia|set_solver..| |constructor].
    intros [k|t] s; [intros (e & H & _); set_solver|]. intros (e & (cl & p & H & _) & _). by rewrite lookup_empty in H.
  - constructor; cbn; intros *; rewrite ?lookup_empty; done.
  - intros t cl p H. by rewrite lookup_empty in H.
Qed.

Lemma reachable_ok capacity w : reachable capacity w -> world_ok capacity w.
Proof. induction 1 as [c m H|w w' _ IH Hs]; [by apply init_ok|by eapply step_ok]. Qed.

(** ** The hit *)

Lemma owners_same (a b : list owner) : addr <$> a = addr <$> b -> owners_differ a b = false <-> a = b.
Proof.
  unfold owners_differ. revert b. induction a as [|x a IH]; intros [|y b]; try done.
  cbn. intros [= Hx Ha]. rewrite orb_false_iff, (IH b Ha), negb_false_iff, bool_decide_eq_true.
  destruct x, y; cbn in *; subst. split; [intros [-> ->]; done|]. by intros [= -> ->].
Qed.

Lemma hit_iff rv ins mono c key owners ttl s :
  table_ok ins rv c ->
  (_hit_locked mono c (_key key owners) owners ttl).2 = Some s ->
  exists e, od_get (_entries c) (_key key owners) = Some e /\ mono (e_clock e) < deadline e /\
    mono (e_clock e) - inserted e < ttl /\ e_owners e = owners /\ s = MkSecret (next_sid c) (read_at (master e)).
Proof.
  intros Hok. unfold _hit_locked. destruct (od_get (_entries c) (_key key owners)) as [e|] eqn:E; [|done].
  pose proof (tb_owner _ _ _ Hok _ _ (od_get_elem _ _ _ E)) as Ho.
  destruct (expired mono e) eqn:Ex; [done|]. destruct (owners_differ (e_owners e) owners) eqn:Eo; [done|].
  destruct (older_than mono e ttl) eqn:El; [done|]. cbn. intros [= <-]. exists e.
  unfold expired, older_than in *. apply owners_same in Eo; [|exact Ho]. split_and!; [done|lia|lia|done|done].
Qed.

(** Every loading thread holds the lock of its key's one flight. *)
Lemma one_holder capacity w t t' cl cl' p p' f f' :
  world_ok capacity w -> threads w !! t = Some (cl, p) -> threads w !! t' = Some (cl', p') ->
  holding p = Some f -> holding p' = Some f' -> full cl = full cl' -> t = t'.
Proof.
  intros Hw Ht Ht' Hp Hp' Hk. pose proof (wo_flights _ _ Hw) as Hfl.
  pose proof (fl_key _ _ Hfl t cl p f Ht (holding_in_flight _ _ Hp)) as Hl.
  pose proof (fl_key _ _ Hfl t' cl' p' f' Ht' (holding_in_flight _ _ Hp')) as Hl'.
  rewrite <- Hk, Hl in Hl'. injection Hl' as <-.
  assert (H1 : lock (flight_of (cache w) f) = Some t) by (apply (fl_lock _ _ Hfl _ f t Hl); unfold holds_at; by rewrite Ht).
  assert (H2 : lock (flight_of (cache w) f) = Some t') by (apply (fl_lock _ _ Hfl _ f t' Hl); unfold holds_at; by rewrite Ht').
  congruence.
Qed.

(** ** A concrete run: one thread loads a secret while another key is revoked *)

Definition demo_call : call := MkCall (py "vault:a") [MkOwner 7 1] 30 0.
Definition demo_start : world := MkWorld (MkCache 2 [] ∅ 0 ∅ [] 0 0) ∅ (fun _ => 100) 1 ∅ 0.
Definition demo_locked : world :=
  let w := moved demo_start 0%nat demo_call Calling (cache demo_start) in
  let w := let '(ca, f) := enter (mono w) (cache w) (full demo_call) in moved w 0%nat demo_call (Entered f) ca in
  moved w 0%nat demo_call (Locked 0) (set_lock (cache w) 0 (Some 0%nat)).
Definition demo_loaded : world :=
  let w := check demo_locked 0 demo_call 0 in
  let w := moved w 0%nat demo_call (Reading 0 (0, 0) 4 (mono w (c_clock demo_call))) (cache w) in
  let '(ca, s) := clone (cache w) (MkSecret 0 6) in
  moved w 0%nat demo_call (Loaded 0 (0, 0) 4 100 s (Some 1000)) ca.
Definition demo_revoked : world :=
  let w := demo_loaded in
  MkWorld (invalidate (cache w) (_key (py "vault:b") [])) (threads w) (mono w) (S (time w))
    (<[_key (py "vault:b") [] := time w]> (revoked w)) (cleared w).
Definition demo_cached : world :=
  let w := plan_insert demo_revoked 0 demo_call 0 (0, 0) 4 100 (MkSecret 0 6) (Some 1000) 980 in
  moved w 0%nat demo_call (Leaving 0 (Some (MkSecret 0 6)))
    (insert_if_current (cache w) (full demo_call) 0 (0, 0) (MkEntry (MkSecret 1 6) 115 0 [MkOwner 7 1] 100)).

(** One more step of the run; the guard is decided by evaluation. *)
Ltac advance s :=
  match goal with H : reachable ?n ?w |- _ =>
    let H' := fresh "H" in pose proof (reachable_step n w _ H (s w ltac:(vm_compute; reflexivity))) as H'; clear H
  end.

Lemma demo_locked_reachable : reachable 2 demo_locked.
Proof.
  assert (H : reachable 2 demo_start) by (by apply reachable_init).
  assert (H1 : reachable 2 (moved demo_start 0%nat demo_call Calling (cache demo_start))).
  { eapply reachable_step; [exact H|]. apply step_call. intros *. cbn. by rewrite lookup_empty. }
  clear H. advance (fun w => step_enter w 0%nat demo_call).
  refine (reachable_step _ _ _ H (step_lock _ 0%nat demo_call 0 _ _)); by vm_compute.
Qed.

Lemma demo_cached_reachable : reachable 2 demo_cached.
Proof.
  pose proof demo_locked_reachable as H.
  advance (fun w => step_check w 0%nat demo_call 0).
  advance (fun w => step_clock w 0%nat demo_call 0 (0, 0) 4).
  assert (Hl : reachable 2 demo_loaded).
  { eapply reachable_step; [exact H|].
    apply (step_load _ 0%nat demo_call 0 (0, 0) 4 100 (Some 1000) 6); [reflexivity|]. vm_compute. lia. }
  assert (H1 : reachable 2 demo_revoked) by (exact (reachable_step _ _ _ Hl (step_invalidate _ (py "vault:b") []))).
  clear H. pose proof (reachable_step _ _ _ H1 (step_deadline demo_revoked 0%nat demo_call 0 (0, 0) 4 100 (MkSecret 0 6) (Some 1000) 980 eq_refl)) as H2.
  refine (reachable_step _ _ _ H2 (step_insert _ 0%nat demo_call 0 (0, 0) 4 (MkEntry (MkSecret 1 6) 115 0 [MkOwner 7 1] 100) (MkSecret 0 6) _)).
  reflexivity.
Qed.

(** ** Properties *)

(** C29: invalidation is linearizable against loads in flight. In every reachable
    world, however the threads and the revocations interleave, every cached entry
    was read from its provider after the last [invalidate] of its key and after
    the last [clear], and so is any secret a hit returns: material read before a
    revocation is never served from the cache after it. *)
Theorem cache_revocation_linearizable capacity w :
  reachable capacity w ->
  (forall k e, (k, e) ∈ _entries (cache w) -> (last_revoked w k < read_at (master e))%nat) /\
  (forall key owners ttl s,
     (_hit_locked (mono w) (cache w) (_key key owners) owners ttl).2 = Some s ->
     (last_revoked w (_key key owners) < read_at s)%nat).
Proof.
  intros [_ Htab _ _ _ _]%reachable_ok. split; [apply Htab|]. intros key owners ttl s H.
  destruct (hit_iff _ _ _ _ _ _ _ _ Htab H) as (e & He & _ & _ & _ & ->). by apply Htab, od_get_elem.
Qed.

Lemma cache_revocation_linearizable_witness :
  reachable 2 demo_cached /\ od_keys (_entries (cache demo_cached)) = [full demo_call] /\
  forall k e, (k, e) ∈ _entries (cache demo_cached) -> (last_revoked demo_cached k < read_at (master e))%nat.
Proof.
  split; [exact demo_cached_reachable|]. split; [vm_compute; reflexivity|].
  exact (proj1 (cache_revocation_linearizable 2 demo_cached demo_cached_reachable)).
Defined.

(** C30: the cache and its lock table are bounded and loads are single-flighted.
    In every reachable world there are at most [capacity] entries; the lock table
    has a flight only for keys some thread is inside [get_or_load] for, counting
    exactly those threads, so it is empty when no call is in progress; and no two
    threads are between the lock's acquisition and its release for one key, which
    is where the provider is read. *)
Theorem cache_bounded_single_flight capacity w :
  reachable capacity w ->
  cache_len (cache w) <= capacity /\
  (forall k f, _locks (cache w) !! k = Some f ->
     callers (flight_of (cache w) f) = Z.of_nat (size (active f (threads w))) /\
     exists t cl p, threads w !! t = Some (cl, p) /\ in_flight p = Some f /\ full cl = k) /\
  ((forall t cl p, threads w !! t = Some (cl, p) -> in_flight p = None) -> _locks (cache w) = ∅) /\
  (forall t t' cl cl' p p' f f',
     threads w !! t = Some (cl, p) -> threads w !! t' = Some (cl', p') ->
     holding p = Some f -> holding p' = Some f' -> full cl = full cl' -> t = t').
Proof.
  intros Hw%reachable_ok. pose proof (wo_flights _ _ Hw) as Hfl.
  assert (Hthread : forall k f, _locks (cache w) !! k = Some f ->
    exists t cl p, threads w !! t = Some (cl, p) /\ in_flight p = Some f /\ full cl = k).
  { intros k f Hk. destruct (fl_count _ _ Hfl k f Hk) as (_ & _ & Hne). apply set_choose_L in Hne as [t Ht].
    apply elem_of_active in Ht. unfold flight_at in Ht. destruct (threads w !! t) as [[cl p]|] eqn:E; [|done].
    exists t, cl, p. split_and!; [done|done|]. eapply fl_inj; [exact Hfl| |exact Hk]. by eapply fl_key. }
  split_and!.
  - rewrite <- (wo_capacity _ _ Hw). apply (wo_table _ _ Hw).
  - intros k f Hk. split; [|by apply Hthread]. by destruct (fl_count _ _ Hfl k f Hk) as (_ & ? & _).
  - intros Hidle. apply map_eq. intros k. rewrite lookup_empty. destruct (_locks (cache w) !! k) as [f|] eqn:E; [|done].
    destruct (Hthread k f E) as (t & cl & p & Ht & Hp & _). apply Hidle in Ht. congruence.
  - intros *. by apply (one_holder capacity).
Qed.

Lemma cache_bounded_single_flight_witness :
  reachable 2 demo_cached /\ cache_len (cache demo_cached) <= 2 /\
  forall t p f, threads demo_cached !! t = Some (demo_call, p) -> holding p = Some f -> t = 0%nat.
Proof.
  pose proof (cache_bounded_single_flight 2 demo_cached demo_cached_reachable) as (Hl & _ & _ & Hone).
  split; [exact demo_cached_reachable|]. split; [exact Hl|]. intros t p f Ht Hp.
  refine (Hone t 0%nat demo_call demo_call p (Leaving 0 (Some (MkSecret 0 6))) f 0%nat Ht _ Hp _ _); reflexivity.
Defined.

(** what a hit serves. In every reachable world a hit returns a new object
    cloned from the cached entry of that key, which is before its deadline on its
    own clock, younger than the caller's TTL, owned by the very same objects as
    the caller's (not merely objects at the same addresses), and whose master has
    not been wiped; the hit leaves every entry as it is and adds nothing to what
    was wiped. *)
Theorem cache_hit_valid capacity w key owners ttl s :
  reachable capacity w ->
  (_hit_locked (mono w) (cache w) (_key key owners) owners ttl).2 = Some s ->
  exists e, od_get (_entries (cache w)) (_key key owners) = Some e /\
    mono w (e_clock e) < deadline e /\ mono w (e_clock e) < inserted e + ttl /\ e_owners e = owners /\
    (sid (master e) ∉ closed (cache w)) /\ read_at s = read_at (master e) /\
    sid s <> sid (master e) /\ (sid s ∉ closed (cache w)) /\
    _entries (_hit_locked (mono w) (cache w) (_key key owners) owners ttl).1 = _entries (cache w) /\
    closed (_hit_locked (mono w) (cache w) (_key key owners) owners ttl).1 = closed (cache w).
Proof.
  intros [_ Htab _ _ _ _]%reachable_ok H.
  destruct (hit_iff _ _ _ _ _ _ _ _ Htab H) as (e & He & Hd & Ht & Ho & ->). exists e.
  destruct (tb_masters _ _ _ Htab (InTable (_key key owners)) (sid (master e))) as (Hlt & Hcl & _).
  { exists e. split; [by apply od_get_elem|done]. }
  assert (Hfresh : next_sid (cache w) ∉ closed (cache w)).
  { intros Hin. pose proof (tb_closed _ _ _ Htab) as Hc. rewrite list.Forall_forall in Hc. specialize (Hc _ Hin). cbn in Hc. lia. }
  assert (Hsame : _entries (_hit_locked (mono w) (cache w) (_key key owners) owners ttl).1 = _entries (cache w) /\
                  closed (_hit_locked (mono w) (cache w) (_key key owners) owners ttl).1 = closed (cache w)).
  { revert H. unfold _hit_locked. rewrite He. destruct (expired _ e || _); [done|]. by destruct (older_than _ e ttl). }
  split_and!; [done|done|lia|done|done|done|cbn; lia|done|apply Hsame|apply Hsame].
Qed.

Lemma cache_hit_valid_witness :
  exists s e, (_hit_locked (mono demo_cached) (cache demo_cached) (full demo_call) [MkOwner 7 1] 30).2 = Some s /\
    od_get (_entries (cache demo_cached)) (full demo_call) = Some e /\ 100 < deadline e.
Proof.
  assert (H : (_hit_locked (mono demo_cached) (cache demo_cached) (full demo_call) [MkOwner 7 1] 30).2 = Some (MkSecret 2 6))
    by (vm_compute; reflexivity).
  destruct (cache_hit_valid 2 demo_cached (py "vault:a") [MkOwner 7 1] 30 (MkSecret 2 6) demo_cached_reachable H)
    as (e & He & Hd & _).
  exists (MkSecret 2 6), e. split; [exact H|]. split; [exact He|exact Hd].
Defined.
