(* ===== verification/Reasons.v ===== *)
(** * Reason records (reasons/_types.py, _registry.py, _record.py)

    The registry assigns every reason one immutable entry; a record is a claim
    about that entry at one phase, with a closed context. Records are validated on
    construction, and an untrusted payload is read back through one parser. *)

From S2P Require Import Prelude PyText PyData.

(** ** Names safe to emit

    Table and column names that may leave the process: the filter shared by the
    casting counts and the progress events. *)

Definition MAX_NAME_LEN : Z := 128.

(** [re.search(r"[/\\;=@]|://", name)]; the second branch is part of the first. *)
Definition name_forbidden (s : pystr) : bool := existsb (fun c => bool_decide (c ∈ [47; 92; 59; 61; 64])) s.

(** [isprintable] is [str.isprintable] of one character, by the Unicode database. *)
Definition approve_name (isprintable : Z -> bool) (s : pystr) : option pystr :=
  if (0 <? zlen s) && (zlen s <=? MAX_NAME_LEN) && forallb isprintable s && negb (name_forbidden s) then Some s else None.

Lemma approve_name_same isprintable s t : approve_name isprintable s = Some t -> t = s.
Proof. unfold approve_name. destruct (_ && _); congruence. Qed.

(** ** Opaque references *)

Definition ascii_alnum (c : Z) : bool :=
  ((48 <=? c) && (c <=? 57)) || ((65 <=? c) && (c <=? 90)) || ((97 <=? c) && (c <=? 122)).
Definition MAX_REF_LEN : Z := 64.

(** [^[A-Za-z0-9][A-Za-z0-9_.\-]{0,63}\Z] *)
Definition ref_char (c : Z) : bool := ascii_alnum c || (c =? 95) || (c =? 46) || (c =? 45).
Definition safe_ref (s : pystr) : bool :=
  match s with c :: rest => ascii_alnum c && forallb ref_char rest && (zlen rest <=? MAX_REF_LEN - 1) | [] => false end.

Definition approve_ref (v : pyval) : option pystr :=
  match v with PStr s => if safe_ref s then Some s else None | _ => None end.

(** ** Vocabularies *)

Inductive Phase :=
| CONFIGURATION | RESOLVE | COMPILE | MASK | GENERATE | FINALIZE | VERIFY | PUBLISH | CLEANUP | UNKNOWN.
Inductive Severity := INFO | WARNING | ERROR.
Inductive Kind := FAILURE | FINDING | KWARNING | DECISION | CONTROL.
Inductive RetryClass :=
| NEVER | CONFIGURATION_REPAIR | ENVIRONMENT_REPAIR | RETRY_OPERATION | RESTART_ATTEMPT | RUNKNOWN.
Inductive Outcome := EXECUTION | FINDINGS | VERIFICATION | PUBLICATION | OCONFIGURATION | CANCELLED | SUCCESS.
Inductive Operation := READ | RESOLVE_SECRET | STAGE | WRITE | CLOSE | COMMIT | ABORT | SIDECAR | OVERIFY.
Inductive PublicationState := NOT_PUBLISHED | PUBLISHED | PPARTIAL | PUNKNOWN.
Inductive CleanupState := NOT_NEEDED | ATTEMPTED | CONFIRMED | FAILED | CUNKNOWN.

#[global] Instance Phase_eq_dec : EqDecision Phase. Proof. solve_decision. Defined.
#[global] Instance Severity_eq_dec : EqDecision Severity. Proof. solve_decision. Defined.
#[global] Instance Kind_eq_dec : EqDecision Kind. Proof. solve_decision. Defined.
#[global] Instance RetryClass_eq_dec : EqDecision RetryClass. Proof. solve_decision. Defined.
#[global] Instance Outcome_eq_dec : EqDecision Outcome. Proof. solve_decision. Defined.

(** The members of each enumeration with their wire values. *)
Definition Phases : list (Phase * string) :=
  [(CONFIGURATION, "configuration"); (RESOLVE, "resolve"); (COMPILE, "compile"); (MASK, "mask");
   (GENERATE, "generate"); (FINALIZE, "finalize"); (VERIFY, "verify"); (PUBLISH, "publish");
   (CLEANUP, "cleanup"); (UNKNOWN, "unknown")]%string.
Definition Severities : list (Severity * string) := [(INFO, "info"); (WARNING, "warning"); (ERROR, "error")]%string.
Definition Kinds : list (Kind * string) :=
  [(FAILURE, "failure"); (FINDING, "finding"); (KWARNING, "warning"); (DECISION, "decision"); (CONTROL, "control")]%string.
Definition RetryClasses : list (RetryClass * string) :=
  [(NEVER, "never"); (CONFIGURATION_REPAIR, "configuration_repair"); (ENVIRONMENT_REPAIR, "environment_repair");
   (RETRY_OPERATION, "retry_operation"); (RESTART_ATTEMPT, "restart_attempt"); (RUNKNOWN, "unknown")]%string.
Definition Outcomes : list (Outcome * string) :=
  [(EXECUTION, "execution"); (FINDINGS, "findings"); (VERIFICATION, "verification"); (PUBLICATION, "publication");
   (OCONFIGURATION, "configuration"); (CANCELLED, "cancelled"); (SUCCESS, "success")]%string.
Definition Operations : list (Operation * string) :=
  [(READ, "read"); (RESOLVE_SECRET, "resolve_secret"); (STAGE, "stage"); (WRITE, "write"); (CLOSE, "close");
   (COMMIT, "commit"); (ABORT, "abort"); (SIDECAR, "sidecar"); (OVERIFY, "verify")]%string.
Definition PublicationStates : list (PublicationState * string) :=
  [(NOT_PUBLISHED, "not_published"); (PUBLISHED, "published"); (PPARTIAL, "partial"); (PUNKNOWN, "unknown")]%string.
Definition CleanupStates : list (CleanupState * string) :=
  [(NOT_NEEDED, "not_needed"); (ATTEMPTED, "attempted"); (CONFIRMED, "confirmed"); (FAILED, "failed"); (CUNKNOWN, "unknown")]%string.

(** [Enum(value)], or none. *)
Definition enum_of {E} (members : list (E * string)) (s : pystr) : option E :=
  fst <$> List.find (fun m => bool_decide (py m.2 = s)) members.

Definition value_of_enum {E} `{EqDecision E} (members : list (E * string)) (e : E) : pystr :=
  match List.find (fun m => bool_decide (m.1 = e)) members with Some m => py m.2 | None => [] end.

Definition _enum_or_none {E} (members : list (E * string)) (v : pyval) : option E :=
  match v with PStr s => enum_of members s | _ => None end.

(** ** The registry *)

Record PhaseRule := MkRule { r_phase : Phase; r_severity : Severity; r_outcome : Outcome; r_retry : RetryClass }.

Record ReasonSpec := MkSpec {
  s_namespace : pystr;
  s_code : pystr;
  s_symbol : pystr;
  s_summary : pystr;
  s_owner : pystr;
  s_kind : Kind;
  s_rules : list PhaseRule;
  s_context : list pystr;
  s_since : pystr;
  s_deprecated_in : option pystr;
  s_replaced_by : option (pystr * pystr);
}.

Abbreviation identity := (pystr * pystr)%type.
Definition spec_identity (s : ReasonSpec) : identity := (s_namespace s, s_code s).
Definition default_rule (s : ReasonSpec) : result PhaseRule := of_option (exc "IndexError") (head (s_rules s)).
Definition rule_for (s : ReasonSpec) (p : Phase) : option PhaseRule :=
  List.find (fun r => bool_decide (r_phase r = p)) (s_rules s).

Definition REGISTRY_VERSION : pystr := py "1.6.0".
Definition REASON_SCHEMA_VERSION : Z := 1.

(** [_SPECS] and [_BY_CODE]. *)
Record Registry := MkRegistry { _SPECS : odict identity ReasonSpec; _BY_CODE : odict pystr (list ReasonSpec) }.
Definition no_specs : Registry := MkRegistry [] [].

Definition declare (g : Registry) (s : ReasonSpec) : result Registry :=
  _ ← raise_if (od_has (_SPECS g) (spec_identity s)) (exc "ValueError");
  Ok (MkRegistry (od_set (_SPECS g) (spec_identity s) s) (od_push (_BY_CODE g) (s_code s) s)).

(** [get] raises KeyError; [find] is total. *)
Definition get (g : Registry) (namespace code : pystr) : result ReasonSpec :=
  of_option (exc "KeyError") (od_get (_SPECS g) (namespace, code)).
Definition find (g : Registry) (namespace : pystr) (code : pyval) : option ReasonSpec :=
  match code with PStr c => od_get (_SPECS g) (namespace, c) | _ => None end.
Definition lookup_code (g : Registry) (code : pyval) : list ReasonSpec :=
  match code with PStr c => default [] (od_get (_BY_CODE g) c) | _ => [] end.
Definition is_registered (g : Registry) (code : pyval) (namespaces : option (list pystr)) : bool :=
  let specs := lookup_code g code in
  match namespaces with
  | None => bool_decide (specs <> [])
  | Some allowed => existsb (fun s => bool_decide (s_namespace s ∈ allowed)) specs
  end.

Definition specs (g : Registry) : list ReasonSpec := snd <$> sorted_by fst (_SPECS g).

(** [re.sub(r"[^0-9A-Za-z]", "_", code).upper()], prefixed when it starts with a digit. *)
Definition symbol_for (code : pystr) : pystr :=
  let sym := (fun c => if ascii_alnum c then (if (97 <=? c) && (c <=? 122) then c - 32 else c) else 95) <$> code in
  match sym with c :: _ => if (48 <=? c) && (c <=? 57) then 95 :: sym else sym | [] => sym end.

(** The defaults of one catalog section. *)
Record Declarer := MkDeclarer {
  _namespace : pystr; _owner : pystr; _kind : Kind; _phases : list Phase;
  _severity : Severity; _outcome : Outcome; _retry : RetryClass;
}.

(** A catalog line: its code and summary, and what it overrides. *)
Record Line := MkLine {
  l_code : string; l_summary : string; l_symbol : option pystr; l_kind : option Kind; l_phases : option (list Phase);
  l_severity : option Severity; l_outcome : option Outcome; l_retry : option RetryClass;
  l_context : list pystr; l_since : string; l_deprecated_in : option pystr; l_replaced_by : option identity;
}.

(** [kind or self._kind] and the others; an empty tuple of phases is no override. *)
Definition declarer_spec (d : Declarer) (l : Line) : ReasonSpec :=
  let phases := match l_phases l with Some (p :: ps) => p :: ps | _ => _phases d end in
  let rules := (fun p => MkRule p (default (_severity d) (l_severity l)) (default (_outcome d) (l_outcome l))
                           (default (_retry d) (l_retry l))) <$> phases in
  MkSpec (_namespace d) (py (l_code l)) (match l_symbol l with Some (c :: s) => c :: s | _ => symbol_for (py (l_code l)) end)
    (py (l_summary l)) (_owner d) (default (_kind d) (l_kind l)) rules (l_context l) (py (l_since l))
    (l_deprecated_in l) (l_replaced_by l).

Definition declare_all (d : Declarer) (lines : list Line) (g : Registry) : result Registry :=
  for_each (fun g l => declare g (declarer_spec d l)) lines g.

(** *** The [decoy] section (reasons/_catalog.py, reasons/decoy/_core.py) *)

Definition decoy (owner : string) : Declarer :=
  MkDeclarer (py "decoy") (py owner) FAILURE (fst <$> Phases) ERROR EXECUTION RUNKNOWN.

Definition line (code summary : string) : Line := MkLine code summary None None None None None None [] "1.0.0" None None.
(** A line that overrides the outcome and the retry class. *)
Definition line_or (code summary : string) (o : option Outcome) (r : RetryClass) : Line :=
  MkLine code summary None None None None o (Some r) [] "1.0.0" None None.
(** A line that overrides the kind, the severity, the outcome and the retry class. *)
Definition line_k (code summary : string) (k : Kind) (s : Severity) (o : Outcome) (r : RetryClass) : Line :=
  MkLine code summary None (Some k) None (Some s) (Some o) (Some r) [] "1.0.0" None None.

Definition decoy_lines : list Line :=
  [ line "unexpected_error" "An unexpected error occurred.";
    line_or "unregistered_reason" "A reason code that this registry does not recognize." None RUNKNOWN;
    line_or "unknown_reason_from_future" "A reason code from a newer registry version." None RUNKNOWN;
    MkLine "file_access_denied" "The file-access policy does not allow this file for this job." None None None None
      (Some OCONFIGURATION) (Some CONFIGURATION_REPAIR) [] "1.2.0" None None;
    line_or "storage_capacity_exhausted" "The output storage ran out of space or quota." (Some PUBLICATION) ENVIRONMENT_REPAIR;
    line_or "verification_failed" "An enforced check rejected the output." (Some VERIFICATION) NEVER;
    line_or "verification_unavailable" "The verifier could not complete." (Some VERIFICATION) RUNKNOWN;
    line_or "publication_failed" "Staging, writing or committing the output failed." (Some PUBLICATION) RUNKNOWN;
    line_or "publication_partial" "The output was partly published before a later step failed." (Some PUBLICATION) NEVER;
    line_or "cleanup_failed" "Cleaning up after a failure did not complete." (Some PUBLICATION) ENVIRONMENT_REPAIR;
    line_k "run_cancelled" "The run was cancelled or paused by its owner." CONTROL INFO CANCELLED NEVER;
    line_k "findings_reported" "A check completed and reported findings." FINDING WARNING FINDINGS NEVER;
    MkLine "reason_context_too_large" "The reason context exceeded its size bound and was truncated." None None None
      (Some WARNING) None (Some NEVER) [] "1.0.0" None None;
    line_or "reason_record_invalid" "A reason record failed validation and was replaced." None NEVER;
    line_or "isolated_run_timed_out" "The isolated worker exceeded its time limit and was stopped." None RUNKNOWN;
    line_or "isolated_worker_died" "The isolated worker exited without reporting a result." None RUNKNOWN;
    line_or "isolated_worker_out_of_memory" "The isolated worker ran out of memory." None ENVIRONMENT_REPAIR;
    line_or "row_errors_failed" "Row-level strategy errors failed the run." None NEVER;
    line_or "connector_transient_failure" "A connector reported a temporary failure." None RETRY_OPERATION;
    line_or "connector_permanent_failure" "A connector reported a failure that retrying cannot resolve." None ENVIRONMENT_REPAIR;
    line_k "run_paused" "The run paused for review and did not fail." CONTROL INFO CANCELLED NEVER;
    line_or "unsupported_schema_version" "A record uses a schema version this reader does not support." None NEVER ]%string.

(** The registry with the [decoy] section declared. *)
Definition decoy_registry : result Registry := declare_all (decoy "DecoyEngine") decoy_lines no_specs.

(** Structural problems in the catalog, by kind and identity. *)
Inductive problem := NoRules (i : identity) | ReplacedNotDeprecated (i : identity) | ReplacementUndeclared (i : identity).
Definition check_integrity (g : Registry) : list problem :=
  specs g ≫= fun s =>
    (if bool_decide (s_rules s = []) then [NoRules (spec_identity s)] else []) ++
    match s_replaced_by s with
    | Some r => (if bool_decide (s_deprecated_in s = None) then [ReplacedNotDeprecated (spec_identity s)] else []) ++
                (if od_has (_SPECS g) r then [] else [ReplacementUndeclared (spec_identity s)])
    | None => []
    end.

(** ** Identifiers *)

Definition MAX_COUNTS : Z := 16.
Definition MAX_IDENTITY_LEN : Z := 96.
Definition COUNT_KEYS : list pystr :=
  py <$> ["rows"; "bytes"; "tables"; "columns"; "batches"; "attempt"; "retries"; "findings"; "errors"]%string.

(** [^[a-z][a-z0-9_.:\-]{0,95}\Z] *)
Definition lower_char (c : Z) : bool := (97 <=? c) && (c <=? 122).
Definition identity_char (c : Z) : bool :=
  lower_char c || ((48 <=? c) && (c <=? 57)) || (c =? 95) || (c =? 46) || (c =? 58) || (c =? 45).
Definition safe_identity (s : pystr) : bool :=
  match s with c :: rest => lower_char c && forallb identity_char rest && (zlen rest <=? MAX_IDENTITY_LEN - 1) | [] => false end.

Definition _is_count (v : pyval) : bool := match v with PInt n => 0 <=? n | _ => false end.

(** [\d{1,n}] followed by what [k] reads: the digits are those of the Unicode
    database, and none of the characters that follow is one. *)
Fixpoint take_while (f : Z -> bool) (s : pystr) : pystr * pystr :=
  match s with
  | c :: s' => if f c then let '(a, b) := take_while f s' in (c :: a, b) else ([], s)
  | [] => ([], [])
  end.
Definition is_nd (c : Z) : bool := bool_decide (is_Some (digit_value c)).
Definition digits_upto (n : Z) (s : pystr) : option (pystr * pystr) :=
  let '(a, b) := take_while is_nd s in if (1 <=? zlen a) && (zlen a <=? n) then Some (a, b) else None.
Definition dot (s : pystr) : option pystr := match s with 46 :: s' => Some s' | _ => None end.

(** [REGISTRY_VERSION_RE.match(s).group(1)] *)
Definition version_major (s : pystr) : option pystr :=
  '(a, r) ← digits_upto 4 s; r ← dot r; '(_, r) ← digits_upto 5 r; r ← dot r; '(_, r) ← digits_upto 6 r;
  match r with [] => Some a | _ => None end.

(** ** Contexts *)

Record ReasonContext := MkContext {
  object_ref : option pystr;
  operation : option Operation;
  storage_ref : option pystr;
  publication_state : option PublicationState;
  cleanup_state : option CleanupState;
  c_counts : list (pystr * Z);
  truncated : bool;
  original_identity : option identity;
}.

Definition empty_context : ReasonContext := MkContext None None None None None [] false None.

Definition ref_ok (o : option pystr) : bool := match o with Some s => safe_ref s | None => true end.
Definition count_ok (kv : pystr * Z) : bool := bool_decide (kv.1 ∈ COUNT_KEYS) && (0 <=? kv.2).
Definition identity_ok (o : option identity) : bool := match o with Some i => safe_identity i.1 && safe_identity i.2 | None => true end.

(** [ReasonContext.validate]; the fields' types are the record's. *)
Definition validate_context (c : ReasonContext) : result unit :=
  _ ← raise_if (negb (ref_ok (object_ref c))) (exc "ValueError");
  _ ← raise_if (negb (ref_ok (storage_ref c))) (exc "ValueError");
  _ ← raise_if (zlen (c_counts c) >? MAX_COUNTS) (exc "ValueError");
  _ ← raise_if (negb (forallb count_ok (c_counts c))) (exc "ValueError");
  raise_if (negb (identity_ok (original_identity c))) (exc "ValueError").

(** Construction validates. *)
Definition new_context (c : ReasonContext) : result ReasonContext := _ ← validate_context c; Ok c.

(** [build(counts=counts)] and [build(original_identity=identity)] *)
Definition build (counts : odict pystr Z) (original : option identity) : result ReasonContext :=
  new_context (MkContext None None None None None (sorted counts) false original).

(** The pairs read from a payload's counts, and whether one was dropped. *)
Definition read_counts (d : list (pystr * pyval)) : list (pystr * Z) * bool :=
  fold_left (fun '(pairs, dropped) kv =>
      match kv.2 with
      | PInt n => if bool_decide (kv.1 ∈ COUNT_KEYS) && _is_count kv.2 then (pairs ++ [(kv.1, n)], dropped) else (pairs, true)
      | _ => (pairs, true)
      end) (take 16 d) ([], false).

Definition read_identity (v : pyval) : option identity :=
  match v with
  | PList [PStr a; PStr b] => if safe_identity a && safe_identity b then Some (a, b) else None
  | _ => None
  end.

(** [ReasonContext.from_payload] *)
Definition context_from_payload (payload : pyval) : result ReasonContext :=
  match payload with
  | PDict d =>
      let truncated := match dget d "truncated" PNone with PBool b => b | _ => false end in
      let '(pairs, more) :=
        match dget d "counts" PNone with
        | PDict raw => let '(pairs, dropped) := read_counts raw in (pairs, (zlen raw >? MAX_COUNTS) || dropped)
        | PNone => ([], false)
        | _ => ([], true)
        end in
      new_context (MkContext (approve_ref (dget d "object_ref" PNone)) (_enum_or_none Operations (dget d "operation" PNone))
        (approve_ref (dget d "storage_ref" PNone)) (_enum_or_none PublicationStates (dget d "publication_state" PNone))
        (_enum_or_none CleanupStates (dget d "cleanup_state" PNone)) (sorted pairs) (truncated || more)
        (read_identity (dget d "original_identity" PNone)))
  | _ => new_context (MkContext None None None None None [] true None)
  end.

Definition opt_str (o : option pystr) : pyval := match o with Some s => PStr s | None => PNone end.
Definition opt_enum {E} `{EqDecision E} (members : list (E * string)) (o : option E) : pyval :=
  match o with Some e => PStr (value_of_enum members e) | None => PNone end.

#[global] Instance Operation_eq_dec : EqDecision Operation. Proof. solve_decision. Defined.
#[global] Instance PublicationState_eq_dec : EqDecision PublicationState. Proof. solve_decision. Defined.
#[global] Instance CleanupState_eq_dec : EqDecision CleanupState. Proof. solve_decision. Defined.

(** [dict(pairs)] *)
Definition dict_of {V} (pairs : list (pystr * V)) : odict pystr V := fold_left (fun d kv => od_set d kv.1 kv.2) pairs [].

Definition context_to_payload (c : ReasonContext) : result pyval :=
  _ ← validate_context c;
  Ok (PDict [
    (py "object_ref", opt_str (object_ref c));
    (py "operation", opt_enum Operations (operation c));
    (py "storage_ref", opt_str (storage_ref c));
    (py "publication_state", opt_enum PublicationStates (publication_state c));
    (py "cleanup_state", opt_enum CleanupStates (cleanup_state c));
    (py "counts", PDict ((fun kv => (kv.1, PInt kv.2)) <$> dict_of (c_counts c)));
    (py "truncated", PBool (truncated c));
    (py "original_identity", match original_identity c with Some i => PList [PStr i.1; PStr i.2] | None => PNone end) ]).

(** [a or b] of optional values; an empty string is falsy. *)
Definition or_str (a b : option pystr) : option pystr := match a with Some (_ :: _) => a | _ => b end.
Definition or_opt {E} (a b : option E) : option E := match a with Some _ => a | None => b end.

(** [self.merged(other)] *)
Definition merged (self other : ReasonContext) : result ReasonContext :=
  let counts := fold_left (fun d kv => od_set d kv.1 kv.2) (dict_of (c_counts other)) (dict_of (c_counts self)) in
  new_context (MkContext (or_str (object_ref other) (object_ref self)) (or_opt (operation other) (operation self))
    (or_str (storage_ref other) (storage_ref self)) (or_opt (publication_state other) (publication_state self))
    (or_opt (cleanup_state other) (cleanup_state self)) (take 16 (sorted counts))
    (truncated self || truncated other) (or_opt (original_identity other) (original_identity self))).

(** ** Records *)

Record ReasonRecord := MkRecord {
  schema_version : Z;
  registry_version : pystr;
  namespace : pystr;
  code : pystr;
  kind : Kind;
  phase : Phase;
  severity : Severity;
  retry_class : RetryClass;
  outcome : Outcome;
  context : ReasonContext;
}.

Section Records.
Context (g : Registry).

(** [ReasonRecord.validate] *)
Definition validate_record (r : ReasonRecord) : result unit :=
  _ ← raise_if (negb (schema_version r =? REASON_SCHEMA_VERSION)) (exc "ValueError");
  _ ← raise_if (negb (bool_decide (registry_version r = REGISTRY_VERSION))) (exc "ValueError");
  spec ← of_option (exc "ValueError") (find g (namespace r) (PStr (code r)));
  rule ← match rule_for spec (phase r) with
         | Some rule => Ok rule
         | None => if bool_decide (phase r = UNKNOWN) then default_rule spec else Err (exc "ValueError")
         end;
  _ ← raise_if (negb (bool_decide (kind r = s_kind spec) && bool_decide (severity r = r_severity rule) &&
                      bool_decide (outcome r = r_outcome rule) && bool_decide (retry_class r = r_retry rule)))
        (exc "ValueError");
  validate_context (context r).

Definition new_record (r : ReasonRecord) : result ReasonRecord := _ ← validate_record r; Ok r.

(** [ReasonRecord.for_reason] *)
Definition for_reason (reason : identity) (p : Phase) (ctx : option ReasonContext) : result ReasonRecord :=
  spec ← get g reason.1 reason.2;
  rp ← match rule_for spec p with
       | Some rule => Ok (rule, p)
       | None => rule ← default_rule spec; Ok (rule, UNKNOWN)
       end;
  new_record (MkRecord REASON_SCHEMA_VERSION REGISTRY_VERSION reason.1 reason.2 (s_kind spec) rp.2
    (r_severity rp.1) (r_retry rp.1) (r_outcome rp.1) (default empty_context ctx)).

Definition with_context (r : ReasonRecord) (ctx : ReasonContext) : result ReasonRecord :=
  c ← merged (context r) ctx;
  new_record (MkRecord (schema_version r) (registry_version r) (namespace r) (code r) (kind r) (phase r)
    (severity r) (retry_class r) (outcome r) c).

Definition to_payload (r : ReasonRecord) : result pyval :=
  _ ← validate_record r;
  spec ← get g (namespace r) (code r);
  rule ← match rule_for spec (phase r) with Some rule => Ok rule | None => default_rule spec end;
  ctx ← context_to_payload (context r);
  Ok (PDict [
    (py "schema_version", PInt REASON_SCHEMA_VERSION);
    (py "registry_version", PStr REGISTRY_VERSION);
    (py "namespace", PStr (s_namespace spec));
    (py "code", PStr (s_code spec));
    (py "kind", PStr (value_of_enum Kinds (s_kind spec)));
    (py "phase", PStr (value_of_enum Phases (phase r)));
    (py "severity", PStr (value_of_enum Severities (r_severity rule)));
    (py "retry_class", PStr (value_of_enum RetryClasses (r_retry rule)));
    (py "outcome", PStr (value_of_enum Outcomes (r_outcome rule)));
    (py "context", ctx) ]).

Definition decoy_reason (code : string) : identity := (py "decoy", py code).

(** [schema == 1]: [True] is also equal to 1. *)
Definition is_schema_1 (v : pyval) : bool := match v with PInt n => n =? 1 | PBool b => b | _ => false end.

(** [ReasonRecord.parse_payload] *)
Definition parse_payload (payload : pyval) : result (ReasonRecord * option pystr) :=
  match payload with
  | PDict d =>
      let unsupported := r ← for_reason (decoy_reason "unsupported_schema_version") UNKNOWN None; Ok (r, None) in
      match is_schema_1 (dget d "schema_version" PNone), dget d "registry_version" PNone with
      | true, PStr registry =>
          match version_major registry, version_major REGISTRY_VERSION with
          | Some a, Some b =>
              if negb (bool_decide (a = b)) then unsupported
              else
                let ns := dget d "namespace" PNone in
                let cd := dget d "code" PNone in
                let p := default UNKNOWN (_enum_or_none Phases (dget d "phase" PNone)) in
                ctx ← context_from_payload (dget d "context" PNone);
                match (match ns with PStr n => find g n cd | _ => None end) with
                | None =>
                    let ident := match ns, cd with
                                 | PStr n, PStr c => if safe_identity n && safe_identity c then Some (n, c) else None
                                 | _, _ => None
                                 end in
                    ctx' ← match ident with
                           | Some i => fallback ← build [] (Some i); merged ctx fallback
                           | None => Ok ctx
                           end;
                    r ← for_reason (decoy_reason "unknown_reason_from_future") p (Some ctx');
                    Ok (r, Some registry)
                | Some spec => r ← for_reason (spec_identity spec) p (Some ctx); Ok (r, Some registry)
                end
          | _, _ => unsupported
          end
      | _, _ => unsupported
      end
  | _ => r ← for_reason (decoy_reason "reason_record_invalid") UNKNOWN None; Ok (r, None)
  end.
End Records.
