(* ===== verification/CastLedger.v ===== *)
(** * Declared casting: issues and their counts (declared_casting/_counts.py)

    The ledger every failure and substitution is recorded in, and the counts it is
    reduced to. Stages and dispositions are enumerations, so the code's check that
    they are known always passes. Counters are keyed by the code's own strings; a
    reason record keeps what identifies it. *)

From S2P Require Import Prelude PyText PyData Reasons.

Inductive stage := SParse | SFormat.
Inductive disposition := DFail | DNull | DQuarantine.

#[global] Instance stage_eq_dec : EqDecision stage.
Proof. solve_decision. Defined.
#[global] Instance stage_countable : Countable stage.
Proof. apply (inj_countable' (fun s => match s with SParse => true | SFormat => false end) (fun b => if b then SParse else SFormat)). by intros []. Defined.
#[global] Instance disposition_eq_dec : EqDecision disposition.
Proof. solve_decision. Defined.

Definition _TRACK_LIMIT : Z := 1000000.

Abbreviation colkey2 := (pystr * pystr)%type.
Abbreviation rowkey := (pystr * Z)%type.

Record CastIssue := MkIssue {
  i_table : pystr; i_column : pystr; i_row : Z; i_stage : stage; i_reason : string; i_disposition : disposition }.

(** The record of an issue ([for_reason] fills in the rest from the registry): its
    reason, the phase its stage belongs to, and its column's reference when that is
    an approved one. *)
Record ReasonRecord := MkReason { r_reason : string; r_phase : Phase; r_ref : option pystr }.
Definition _record (i : CastIssue) : ReasonRecord :=
  MkReason (i_reason i) (match i_stage i with SParse => MASK | SFormat => FINALIZE end)
    (approve_ref (PStr (i_table i ++ py "." ++ i_column i))).

Definition stage_word (s : stage) : pystr := match s with SParse => py "parse" | SFormat => py "output" end.
Definition disposition_word (d : disposition) : pystr :=
  match d with DFail => py "fail" | DNull => py "null" | DQuarantine => py "quarantine" end.

(** [f"{stage}_{disposition}"] *)
Definition counter (s : stage) (d : disposition) : pystr := stage_word s ++ py "_" ++ disposition_word d.
Definition sentinel_counter : pystr := py "sentinel_to_null".
Definition _SUBSTITUTING : list pystr := [py "parse_null"; py "output_null"].

(** The counters of one column. The order in which they were first touched is not
    observable: every reader sorts them. *)
Abbreviation counters := (gmap pystr Z).

Record CastIssueLedger := MkIssues {
  _counts : gmap colkey2 counters;
  _rows : gmap rowkey (list ReasonRecord);
  _seen : gset (pystr * pystr * Z * stage);
  _truncated : bool;
}.

Definition new_issues : CastIssueLedger := MkIssues ∅ ∅ ∅ false.

(** [counts[key][kind] += n] of nested [defaultdict]s. *)
Definition bump (cs : gmap colkey2 counters) (key : colkey2) (kind : pystr) (n : Z) : gmap colkey2 counters :=
  let cell := default ∅ (cs !! key) in
  <[key := <[kind := default 0 (cell !! kind) + n]> cell]> cs.

Definition issue_key (i : CastIssue) : pystr * pystr * Z * stage := (i_table i, i_column i, i_row i, i_stage i).

(** The counters and rows after an issue. *)
Definition recorded (l : CastIssueLedger) (i : CastIssue) (seen : gset (pystr * pystr * Z * stage)) (truncated : bool)
    : CastIssueLedger :=
  MkIssues (bump (_counts l) (i_table i, i_column i) (counter (i_stage i) (i_disposition i)) 1)
    (if bool_decide (i_disposition i = DQuarantine)
     then <[(i_table i, i_row i) := default [] (_rows l !! (i_table i, i_row i)) ++ [_record i]]> (_rows l)
     else _rows l)
    seen truncated.

Definition add (l : CastIssueLedger) (i : CastIssue) : result CastIssueLedger :=
  if Z.of_nat (size (_seen l)) <? _TRACK_LIMIT then
    _ ← raise_if (bool_decide (issue_key i ∈ _seen l)) (exc "ValueError");
    Ok (recorded l i ({[issue_key i]} ∪ _seen l) (_truncated l))
  else Ok (recorded l i (_seen l) true).

Definition add_sentinel (l : CastIssueLedger) (table column : pystr) (n : Z) : CastIssueLedger :=
  MkIssues (bump (_counts l) (table, column) sentinel_counter n) (_rows l) (_seen l) (_truncated l).

Definition is_quarantined (l : CastIssueLedger) (table : pystr) (row : Z) : bool :=
  bool_decide (is_Some (_rows l !! (table, row))).

Definition row_reasons (l : CastIssueLedger) (table : pystr) (row : Z) : list ReasonRecord :=
  default [] (_rows l !! (table, row)).

(** ** The evidence *)

Definition is_substitution (kind : pystr) : bool :=
  bool_decide (kind ∈ _SUBSTITUTING) || bool_decide (kind = sentinel_counter).
Definition is_failure (kind : pystr) : bool := negb (bool_decide (kind = sentinel_counter)).

(** [sum(v for k, v in cell.items() if keep(k))] *)
Definition cell_sum (keep : pystr -> bool) (cell : counters) : Z :=
  foldr (fun kv s => (if keep kv.1 then kv.2 else 0) + s) 0 (map_to_list cell).

Definition sorted_counts (l : CastIssueLedger) : list (colkey2 * counters) := sorted_by fst (map_to_list (_counts l)).

Inductive completeness := COMPLETE | PARTIAL | UNAVAILABLE.

Record Evidence := MkEvidence {
  ev_completeness : completeness;
  total_substitutions : Z;
  total_failures : Z;
  quarantined_rows : Z;
  by_table : odict pystr (odict pystr (list (pystr * Z)));
}.

Section Counts.
(** [str.isprintable] of one character, by the Unicode database. *)
Context (isprintable : Z -> bool).

(** One pass of the loop over the sorted columns. An unsafe name is dropped from
    the map, never from the totals. *)
Definition tally (acc : Z * Z * odict pystr (odict pystr (list (pystr * Z)))) (kc : colkey2 * counters)
    : Z * Z * odict pystr (odict pystr (list (pystr * Z))) :=
  let '(subs, fails, by_table) := acc in
  let '((table, column), cell) := kc in
  let subs := subs + cell_sum is_substitution cell in
  let fails := fails + cell_sum is_failure cell in
  match approve_name isprintable table, approve_name isprintable column with
  | Some safe_t, Some safe_c =>
      let shown := List.filter (fun kv => negb (kv.2 =? 0)) (sorted_by fst (map_to_list cell)) in
      (subs, fails, od_set by_table safe_t (od_set (default [] (od_get by_table safe_t)) safe_c shown))
  | _, _ => (subs, fails, by_table)
  end.

Definition counts (l : CastIssueLedger) (how : completeness) : Evidence :=
  let '(subs, fails, by_table) := fold_left tally (sorted_counts l) (0, 0, []) in
  MkEvidence how subs fails (Z.of_nat (size (_rows l))) by_table.
End Counts.

(** ** What a counter holds *)

Definition count_of (l : CastIssueLedger) (key : colkey2) (kind : pystr) : Z :=
  default 0 (default ∅ (_counts l !! key) !! kind).

Lemma bump_count cs key kind n key' kind' :
  default 0 (default ∅ (bump cs key kind n !! key') !! kind') =
  default 0 (default ∅ (cs !! key') !! kind') + (if bool_decide (key = key' /\ kind = kind') then n else 0).
Proof.
  unfold bump. destruct (decide (key = key')) as [->|Hk].
  - rewrite lookup_insert_eq. cbn. destruct (decide (kind = kind')) as [->|Hn].
    + rewrite lookup_insert_eq, bool_decide_eq_true_2 by done. done.
    + rewrite lookup_insert_ne, bool_decide_eq_false_2 by tauto. lia.
  - rewrite lookup_insert_ne, bool_decide_eq_false_2 by tauto. lia.
Qed.

Lemma counter_inj s d s' d' : counter s d = counter s' d' -> s = s' /\ d = d'.
Proof. destruct s, d, s', d'; cbn; intros H; try discriminate; done. Qed.

Lemma counter_not_sentinel s d : counter s d <> sentinel_counter.
Proof. by destruct s, d. Qed.

(** Two ledgers no reader can tell apart, the duplicate check aside. *)
Definition same_issues (l l' : CastIssueLedger) : Prop := _counts l = _counts l' /\ _rows l = _rows l'.

#[global] Instance same_issues_equiv : Equivalence same_issues.
Proof.
  split; [by intros l|by intros l l' []|]. intros l1 l2 l3 [] []. split; congruence.
Qed.

Lemma same_issues_readers isprintable l l' how :
  same_issues l l' -> counts isprintable l how = counts isprintable l' how /\
  (forall t p, is_quarantined l t p = is_quarantined l' t p) /\ (forall t p, row_reasons l t p = row_reasons l' t p).
Proof. intros [Hc Hr]. unfold counts, sorted_counts, is_quarantined, row_reasons. by rewrite Hc, Hr. Qed.
