(* ===== verification/CastRun.v ===== *)
(** * The casting run (declared_casting/_boundary.py)

    The boundary every route calls: sentinel and parse before masking, format after
    it, each failure disposed of once, quarantined rows removed and written to the
    protected sink. Arrow tables are the third-party [pyarrow] package's and enter
    as the interface [ArrowOps] with its documented behaviour in [ArrowLaws]; the
    sink is a run-time service with the interface [SinkOps]. *)

From S2P Require Import Prelude Numerals PyText PyData CastNumeric CastCobol CastDate CastCatalog CastLedger.

(** ** Arrow *)

Inductive ArrowType :=
| TString | TLargeString | TBinary | TLargeBinary | TFixedBinary (width : Z)
| TInt (signed : bool) (bits : Z) | TDecimal128 (p s : Z) | TDate32 | TOtherType (id : Z).

#[global] Instance ArrowType_eq_dec : EqDecision ArrowType.
Proof. solve_decision. Defined.

Class ArrowOps := {
  Array : Type;
  Table : Type;
  to_pylist : Array -> list (option cell);
  array_type : Array -> ArrowType;
  pa_array : list (option cell) -> ArrowType -> result Array;
  columns : Table -> list (pystr * Array);
  num_rows : Table -> nat;
  pa_table : list (pystr * Array) -> result Table;
  table_take : Table -> list nat -> Table;
}.

(** What an array of a type gives back for a value put into it, if it can hold the
    value: a decimal loses the sign of its zero. *)
Definition stored (ty : ArrowType) (v : cell) : option cell :=
  match ty, v with
  | TString, VStr s | TLargeString, VStr s => if is_ok (utf8_encode s) then Some v else None
  | TBinary, VBytes b | TLargeBinary, VBytes b =>
      if forallb (fun x => (0 <=? x) && (x <? 256)) b then Some v else None
  | TFixedBinary w, VBytes b =>
      if forallb (fun x => (0 <=? x) && (x <? 256)) b && (zlen b =? w) then Some v else None
  | TInt signed bits, VInt n => let '(lo, hi) := int_bounds signed bits in
      if (lo <=? n) && (n <=? hi) then Some v else None
  | TDecimal128 p s, VDec (DFinite negative u e) =>
      if (e =? - s) && (0 <=? u) && (u <? 10 ^ p) then Some (VDec (DFinite (negative && negb (u =? 0)) u e)) else None
  | TDate32, VDate y m d => if valid_date y m d then Some v else None
  | _, _ => None
  end.

Definition text_or_bytes (ty : ArrowType) : bool :=
  match ty with TString | TLargeString | TBinary | TLargeBinary | TFixedBinary _ => true | _ => false end.

Definition fits (ty : ArrowType) (o : option cell) : Prop := forall v, o = Some v -> is_Some (stored ty v).

Definition gather {A} (l : list A) (idx : list nat) : list A := omap (fun i => l !! i) idx.

(** The typed columns of a table. *)
Definition view `{ArrowOps} (t : Table) : list (pystr * (ArrowType * list (option cell))) :=
  (fun na => (na.1, (array_type na.2, to_pylist na.2))) <$> columns t.

Class ArrowLaws (A : ArrowOps) : Prop := {
  array_built l ty : Forall (fits ty) l ->
    exists a, pa_array l ty = Ok a /\ to_pylist a = (fun o => o ≫= stored ty) <$> l /\ array_type a = ty;
  array_holds a v : Some v ∈ to_pylist a -> text_or_bytes (array_type a) = true -> stored (array_type a) v = Some v;
  table_built cs n : cs <> [] -> NoDup cs.*1 -> Forall (fun na => length (to_pylist na.2) = n) cs ->
    exists t, pa_table cs = Ok t /\ columns t = cs /\ num_rows t = n;
  table_rows t na : na ∈ columns t -> length (to_pylist na.2) = num_rows t;
  table_taken t idx : Forall (fun i => (i < num_rows t)%nat) idx ->
    view (table_take t idx) = (fun c => (c.1, (c.2.1, gather c.2.2 idx))) <$> view t /\
    num_rows (table_take t idx) = length idx;
}.

(** ** Contracts *)

Inductive LogicalType := LString | LInteger | LDecimal | LDate | LCurrency.

(** A column's compiled contract; its policy is the disposition of its issues. *)
Record _Col := MkCol {
  c_name : pystr;
  c_logical : LogicalType;
  c_parse : ParseSpec;
  c_fmt : option OutSpec;
  c_sentinels : list cell;
  c_policy : disposition;
}.

Definition binary_input (s : ParseSpec) : bool := match s with PZoned _ | PComp3 _ => true | _ => false end.
Definition c_binary (c : _Col) : bool := binary_input (c_parse c).

(** The catalog's [binary] of an output format. *)
Definition binary_output (s : OutSpec) : bool := match s with OZoned _ | OComp3 _ => true | _ => false end.

(** [p.signed, p.bit_width] of a parse format; [p.precision, p.scale] is the
    catalog's [decimal_shape]. *)
Definition spec_integer (s : ParseSpec) : option (bool * Z) :=
  match s with PInteger i => Some (int_signed i, int_bit_width i) | _ => None end.

Definition arrow_type (c : _Col) : result ArrowType :=
  match c_logical c with
  | LString => Ok TString
  | LInteger =>
      sw ← of_option (exc "AttributeError") (spec_integer (c_parse c));
      if bool_decide (sw.2 ∈ [8; 16; 32; 64]) then Ok (TInt sw.1 sw.2) else Err (exc "KeyError")
  | LDecimal | LCurrency =>
      ps ← of_option (exc "AttributeError") (decimal_shape (c_parse c)); Ok (TDecimal128 ps.2 ps.1)
  | LDate => Ok TDate32
  end.

Definition _is_sentinel (c : _Col) (raw : cell) : bool :=
  match raw with
  | VBytes _ => c_binary c && existsb (_same raw) (c_sentinels c)
  | VStr _ => negb (c_binary c) && existsb (_same raw) (c_sentinels c)
  | _ => false
  end.

Definition _check_physical (c : _Col) (ty : ArrowType) : result unit :=
  raise_if (negb (if c_binary c then match ty with TBinary | TLargeBinary | TFixedBinary _ => true | _ => false end
                  else match ty with TString | TLargeString => true | _ => false end))
    (Exn "DeclaredCastRouteError" "declared_cast_input_type_incompatible").

(** ** Steps on the ledger *)

Definition DeclaredCastValueError (code : string) : exn := Exn "DeclaredCastValueError" code.

Definition ledger_add (i : CastIssue) : Cast CastIssueLedger unit := fun l =>
  match add l i with Ok l' => (l', Ok tt) | Err e => (l, Err e) end.

Definition _disposition (table : pystr) (c : _Col) (position : Z) (st : stage) (reason : string)
    : Cast CastIssueLedger unit :=
  _ ← ledger_add (MkIssue table (c_name c) position st reason (c_policy c));
  lift (raise_if (bool_decide (c_policy c = DFail)) (DeclaredCastValueError reason)).

(** One pass of the loop of [_cast_column]: the typed value of one cell. *)
Definition cast_cell (table : pystr) (c : _Col) (pr : Z * option cell) : Cast CastIssueLedger (option cell) :=
  match pr.2 with
  | None => mret None
  | Some raw =>
      if _is_sentinel c raw then fun l => (add_sentinel l table (c_name c) 1, Ok None)
      else
        outcome ← lift (parse_value (c_parse c) raw);
        match outcome with
        | Success v => mret (Some v)
        | Failure reason => _ ← _disposition table c pr.1 SParse reason; mret None
        end
  end.

(** One pass of the loop of [format_batch] over a column: the row's position is
    looked up only when the cell fails. *)
Definition format_cell (table : pystr) (c : _Col) (fmt : OutSpec) (pr : option Z * option cell)
    : Cast CastIssueLedger (option cell) :=
  match pr.2 with
  | None => mret None
  | Some value =>
      outcome ← lift (format_value fmt value);
      match outcome with
      | Success v => mret (Some v)
      | Failure reason =>
          p ← lift (of_option (exc "IndexError") pr.1);
          _ ← _disposition table c p SFormat reason; mret None
      end
  end.

(** ** The run *)

Class SinkOps := {
  Sink : Type;
  sink_begin : Sink -> Sink * result unit;
  sink_write : Sink -> pystr -> Z -> list ReasonRecord -> list (pystr * option cell) -> Sink * result unit;
  sink_seal : Sink -> Sink * result unit;
  sink_token : Sink -> Sink * result unit;        (* get_retrieval_token *)
  sink_abort : Sink -> Sink * result string;
  sink_discard : Sink -> Sink * result string;
}.

(** The positions of a batch of [n] rows from [off]. *)
Definition prange (off : Z) (n : nat) : list Z := (fun i => off + Z.of_nat i) <$> seq 0 n.

Section Run.
Context `{A : ArrowOps} `{S : SinkOps}.

(** [session] and [receipt] hold while the store has one open or sealed. *)
Record DeclaredCastRun := MkRun {
  _ledger : CastIssueLedger;
  _session : bool;
  _receipt : bool;
  _last_cleanup : string;
  _written : gset rowkey;
  sink : Sink;
}.

Definition open_run (s : Sink) : DeclaredCastRun := MkRun new_issues false false "not_needed" ∅ s.

Record CastBatch := MkBatch { table : Table; positions : list Z; offset : Z; raw : option Table }.

Definition column (t : Table) (name : pystr) : result Array := of_option (exc "KeyError") (od_get (columns t) name).

Definition _cast_column (tname : pystr) (src : Table) (ps : list Z) (c : _Col) : Cast CastIssueLedger (pystr * Array) :=
  a ← lift (column src (c_name c));
  _ ← lift (_check_physical c (array_type a));
  out ← map_cast (cast_cell tname c) (zip ps (to_pylist a));
  ty ← lift (arrow_type c);
  a' ← lift (pa_array out ty);
  mret (c_name c, a').

(** [pa.table({n: replaced.get(n, src.column(n)) for n in names})] *)
Definition replace_columns (src : Table) (replaced : odict pystr Array) : result Table :=
  pa_table ((fun na => (na.1, default na.2 (od_get replaced na.1))) <$> columns src).

(** The indices of a batch whose row the ledger has quarantined, and the others. *)
Definition dropped_rows (l : CastIssueLedger) (tname : pystr) (ps : list Z) : list nat :=
  List.filter (fun i => match ps !! i with Some p => is_quarantined l tname p | None => false end) (seq 0 (length ps)).
Definition kept_rows (l : CastIssueLedger) (tname : pystr) (ps : list Z) : list nat :=
  List.filter (fun i => negb (match ps !! i with Some p => is_quarantined l tname p | None => false end)) (seq 0 (length ps)).

(** [raw.slice(pos - offset, 1).to_pylist()[0]] *)
Definition row_at (t : Table) (i : nat) : result (list (pystr * option cell)) :=
  map_res (fun na => o ← of_option (exc "IndexError") (to_pylist na.2 !! i); Ok (na.1, o)) (columns t).

Definition set_sink (r : DeclaredCastRun) (s : Sink) : DeclaredCastRun :=
  MkRun (_ledger r) (_session r) (_receipt r) (_last_cleanup r) (_written r) s.

(** Opens the session on first use. *)
Definition begin_session : Cast DeclaredCastRun unit := fun r =>
  if _session r then (r, Ok tt)
  else match sink_begin (sink r) with
       | (s, Ok _) => (MkRun (_ledger r) true (_receipt r) (_last_cleanup r) (_written r) s, Ok tt)
       | (s, Err e) => (set_sink r s, Err e)
       end.

(** Writes one row, once. *)
Definition write_position (tname : pystr) (rawt : option Table) (off : Z) (pos : Z) : Cast DeclaredCastRun unit := fun r =>
  if bool_decide ((tname, pos) ∈ _written r) then (r, Ok tt)
  else
    let r := MkRun (_ledger r) (_session r) (_receipt r) (_last_cleanup r) ({[(tname, pos)]} ∪ _written r) (sink r) in
    match (match rawt with Some t => row_at t (Z.to_nat (pos - off)) | None => Ok [] end) with
    | Err e => (r, Err e)
    | Ok row => let '(s, out) := sink_write (sink r) tname pos (row_reasons (_ledger r) tname pos) row in (set_sink r s, out)
    end.

Definition _write_rows (tname : pystr) (ps : list Z) (rawt : option Table) (off : Z) : Cast DeclaredCastRun unit :=
  _ ← begin_session;
  _ ← map_cast (write_position tname rawt off) ps;
  mret tt.

(** A step on the run's own ledger, or on a throw-away one when not recording. *)
Definition with_ledger {B} (record : bool) (m : Cast CastIssueLedger B) : Cast DeclaredCastRun (CastIssueLedger * B) := fun r =>
  let '(l, out) := m (if record then _ledger r else new_issues) in
  (if record then MkRun l (_session r) (_receipt r) (_last_cleanup r) (_written r) (sink r) else r, b ← out; Ok (l, b)).

Definition wants_raw (cols : list _Col) : bool := existsb (fun c => bool_decide (c_policy c = DQuarantine)) cols.

Definition cast_batch (cols : list _Col) (tname : pystr) (src : Table) (off : Z) (record : bool) : Cast DeclaredCastRun CastBatch :=
  let ps := prange off (num_rows src) in
  lr ← with_ledger record (map_cast (_cast_column tname src ps) cols);
  let '(l, replaced) := lr in
  typed ← lift (replace_columns src replaced);
  let rawt := if wants_raw cols then Some src else None in
  let dropped := dropped_rows l tname ps in
  if bool_decide (dropped = []) then mret (MkBatch typed ps off rawt)
  else
    _ ← (if record then _write_rows tname (gather ps dropped) rawt off else mret tt);
    let keep := kept_rows l tname ps in
    mret (MkBatch (table_take typed keep) (gather ps keep) off rawt).

(** The type of a rendered column. *)
Definition rendered_type (f : OutSpec) : ArrowType := if binary_output f then TBinary else TString.

Definition rendered_schema (cols : list _Col) (schema : list (pystr * ArrowType)) : list (pystr * ArrowType) :=
  fold_left (fun sch c => match c_fmt c with
                          | Some f => (fun nt => if bool_decide (nt.1 = c_name c) then (nt.1, rendered_type f) else nt) <$> sch
                          | None => sch
                          end) cols schema.

Definition empty_table (schema : list (pystr * ArrowType)) : result Table :=
  arrays ← map_res (fun nt => a ← pa_array [] nt.2; Ok (nt.1, a)) schema;
  pa_table arrays.

Definition _format_column (tname : pystr) (out : Table) (ps : list Z) (c : _Col)
    : Cast CastIssueLedger (option (pystr * Array)) :=
  match c_fmt c with
  | None => mret None
  | Some f =>
      a ← lift (column out (c_name c));
      rendered ← map_cast (format_cell tname c f) (imap (fun i o => (ps !! i, o)) (to_pylist a));
      a' ← lift (pa_array rendered (rendered_type f));
      mret (Some (c_name c, a'))
  end.

(** The rendered table, the kept indices when rows were removed, and the batch
    with its remaining positions. *)
Definition format_batch (cols : list _Col) (tname : pystr) (out : Table) (b : CastBatch) (record : bool)
    : Cast DeclaredCastRun (Table * option (list nat) * CastBatch) :=
  if (num_rows out =? 0)%nat then
    t ← lift (empty_table (rendered_schema cols ((fun na => (na.1, array_type na.2)) <$> columns (table b))));
    mret (t, None, b)
  else if negb (existsb (fun c => bool_decide (is_Some (c_fmt c))) cols) then mret (out, None, b)
  else
    lr ← with_ledger record (map_cast (_format_column tname out (positions b)) cols);
    let '(l, replaced) := lr in
    formatted ← lift (replace_columns out (omap (M:=list) (fun o : option (pystr * Array) => o) replaced));
    let dropped := dropped_rows l tname (positions b) in
    if bool_decide (dropped = []) then mret (formatted, None, b)
    else
      _ ← (if record then _write_rows tname (gather (positions b) dropped) (raw b) (offset b) else mret tt);
      let keep := kept_rows l tname (positions b) in
      mret (table_take formatted keep, Some keep, MkBatch (table b) (gather (positions b) keep) (offset b) (raw b)).

(** [finish]: the evidence; an open session is sealed, and its retrieval token taken. *)
Definition finish (isprintable : Z -> bool) : Cast DeclaredCastRun (Evidence * bool) := fun r =>
  let evidence := counts isprintable (_ledger r) COMPLETE in
  if _session r then
    match sink_seal (sink r) with
    | (s, Ok _) =>
        let '(s, token) := sink_token s in
        (MkRun (_ledger r) false true (_last_cleanup r) (_written r) s, _ ← token; Ok (evidence, true))
    | (s, Err e) => (set_sink r s, Err e)
    end
  else (r, Ok (evidence, false)).

(** [_attempt]: a store error must not replace the run's own failure. *)
Definition _attempt (step : Sink -> Sink * result string) (s : Sink) : Sink * string :=
  let '(s, out) := step s in (s, match out with Ok state => state | Err _ => "failed"%string end).

Definition abort (r : DeclaredCastRun) : DeclaredCastRun * string :=
  if negb (_session r) && negb (_receipt r) then (r, _last_cleanup r)
  else
    let '(s1, session, ok1) :=
      if _session r then
        let '(s, state) := _attempt sink_abort (sink r) in
        if bool_decide (state = "confirmed"%string) then (s, false, true) else (s, true, false)
      else (sink r, false, true) in
    let '(s2, receipt, ok2) :=
      if _receipt r then
        let '(s, state) := _attempt sink_discard s1 in
        if bool_decide (state = "confirmed"%string) then (s, false, true) else (s, true, false)
      else (s1, false, true) in
    let state := if ok1 && ok2 then "confirmed"%string else "failed"%string in
    (MkRun (_ledger r) session receipt state (_written r) s2, state).

Definition partial_counts (isprintable : Z -> bool) (r : DeclaredCastRun) : Evidence := counts isprintable (_ledger r) PARTIAL.
End Run.

