(* ===== verification/CastEvents.v ===== *)
(** * Declared casting: the events of a batch

    What each cell comes to, the events it leaves in the ledger, and what a log of
    events does to it: the loops of the casting run ([CastRun]) are logs of their
    batch's events, which the partition and the evidence theorems of
    [CastPartition] count and reorder. *)

From S2P Require Import Prelude Numerals PyText PyData CastNumeric CastCobol CastDate CastCatalog CastLedger CastRun.

(** ** What a cell comes to *)

Inductive verdict := Blank | Typed (v : cell) | Marked | Bad (reason : string).

Definition parse_verdict (c : _Col) (o : option cell) : result verdict :=
  match o with
  | None => Ok Blank
  | Some v =>
      if _is_sentinel c v then Ok Marked
      else out ← parse_value (c_parse c) v;
           Ok (match out with Success x => Typed x | Failure reason => Bad reason end)
  end.

Definition format_verdict (f : OutSpec) (o : option cell) : result verdict :=
  match o with
  | None => Ok Blank
  | Some v => out ← format_value f v; Ok (match out with Success x => Typed x | Failure reason => Bad reason end)
  end.

Definition typed_of (vd : verdict) : option cell := match vd with Typed v => Some v | _ => None end.
Definition reason_of (vd : verdict) : option string := match vd with Bad r => Some r | _ => None end.

(** A verdict that stops the run. *)
Definition fatal (c : _Col) (m : result verdict) : bool :=
  match m with
  | Err _ => true
  | Ok (Bad _) => bool_decide (c_policy c = DFail)
  | Ok _ => false
  end.

(** What a cell leaves in the ledger. *)
Inductive event := EMark (column : pystr) | EIssue (column : pystr) (row : Z) (reason : string) (d : disposition).

Definition cell_events (c : _Col) (p : Z) (vd : verdict) : list event :=
  match vd with
  | Marked => [EMark (c_name c)]
  | Bad reason => [EIssue (c_name c) p reason (c_policy c)]
  | _ => []
  end.

Definition event_step (t : pystr) (st : stage) (l : CastIssueLedger) (e : event) : result CastIssueLedger :=
  match e with
  | EMark c => Ok (add_sentinel l t c 1)
  | EIssue c p reason d => add l (MkIssue t c p st reason d)
  end.

Definition log (t : pystr) (st : stage) (es : list event) (l : CastIssueLedger) : result CastIssueLedger :=
  for_each (event_step t st) es l.

Definition event_keys (es : list event) : list (pystr * Z) :=
  omap (fun e => match e with EMark _ => None | EIssue c p _ _ => Some (c, p) end) es.

Lemma event_keys_app es es' : event_keys (es ++ es') = event_keys es ++ event_keys es'.
Proof. apply omap_app. Qed.

Lemma add_ok l i :
  issue_key i ∉ _seen l -> exists l', add l i = Ok l' /\ l' = recorded l i (_seen l') (_truncated l') /\
    (forall k, k ∈ _seen l' -> (k ∈ _seen l) \/ k = issue_key i).
Proof.
  intros H. unfold add. destruct (_ <? _).
  - rewrite bool_decide_eq_false_2 by done. eexists. split; [reflexivity|]. split; [done|]. cbn. set_solver.
  - eexists. split; [reflexivity|]. split; [done|]. cbn. set_solver.
Qed.

(** Events of distinct cells the ledger has not seen are all recorded. *)
Lemma log_ok t st es l :
  NoDup (event_keys es) -> (forall c p, (c, p) ∈ event_keys es -> (t, c, p, st) ∉ _seen l) ->
  exists l', log t st es l = Ok l' /\
    (forall k, k ∈ _seen l' -> (k ∈ _seen l) \/ exists c p, (c, p) ∈ event_keys es /\ k = (t, c, p, st)).
Proof.
  revert l. induction es as [|e es IH]; intros l Hnd Hf; [exists l; split; [done|by left]|].
  destruct e as [c|c p reason d]; cbn [event_keys omap list_omap] in *; fold (event_keys es) in *.
  - destruct (IH (add_sentinel l t c 1)) as (l' & H & Hs); [done|done|]. by exists l'.
  - apply list.NoDup_cons in Hnd as [Hn Hnd].
    destruct (add_ok l (MkIssue t c p st reason d)) as (l1 & Ha & _ & Hs1); [by apply Hf; left|].
    destruct (IH l1 Hnd) as (l' & H & Hs).
    { intros c' p' Hin [Hi|Hi]%Hs1; [by apply (Hf c' p'); [right|]|]. cbn in Hi. injection Hi as -> ->. done. }
    exists l'. split.
    + unfold log in *. cbn [for_each event_step]. rewrite Ha. exact H.
    + intros k Hk. apply Hs in Hk as [[Hk|Hk]%Hs1|(c' & p' & Hin & ->)].
      * by left.
      * right. exists c, p. split; [left|exact Hk].
      * right. exists c', p'. split; [by right|done].
Qed.

(** ** The ledger after a log *)

Definition event_kind (st : stage) (e : event) : pystr :=
  match e with EMark _ => sentinel_counter | EIssue _ _ _ d => counter st d end.
Definition event_column (e : event) : pystr := match e with EMark c | EIssue c _ _ _ => c end.

Definition bump_event (t : pystr) (st : stage) (cs : gmap colkey2 counters) (e : event) : gmap colkey2 counters :=
  bump cs (t, event_column e) (event_kind st e) 1.

(** The reasons a row is quarantined for. *)
Definition event_reason (t : pystr) (st : stage) (p : Z) (e : event) : option ReasonRecord :=
  match e with
  | EIssue c p' reason DQuarantine => if bool_decide (p' = p) then Some (_record (MkIssue t c p st reason DQuarantine)) else None
  | _ => None
  end.
Definition reasons_at (t : pystr) (st : stage) (es : list event) (p : Z) : list ReasonRecord := omap (event_reason t st p) es.

Lemma event_step_effect t st l e l' :
  event_step t st l e = Ok l' ->
  _counts l' = bump_event t st (_counts l) e /\
  forall k, _rows l' !! k =
    match (if bool_decide (k.1 = t) then event_reason t st k.2 e else None) with
    | Some r => Some (default [] (_rows l !! k) ++ [r])
    | None => _rows l !! k
    end.
Proof.
  destruct e as [c|c p reason d]; cbn.
  { intros [= <-]. split; [done|]. intros k. by case_bool_decide. }
  intros H. assert (Hr : exists seen tr, l' = recorded l (MkIssue t c p st reason d) seen tr).
  { unfold add in H. destruct (_ <? _); ok_inv; eauto. }
  destruct Hr as (seen & tr & ->). split; [done|]. intros [t' p']. cbn.
  destruct d; [rewrite (bool_decide_eq_false_2 (_ = DQuarantine)) by done; cbn; by destruct (bool_decide (t' = t))..|].
  rewrite (bool_decide_eq_true_2 (DQuarantine = DQuarantine)) by done. cbn.
  destruct (decide (t' = t)) as [->|Ht].
  - rewrite (bool_decide_eq_true_2 (t = t)) by done. destruct (decide (p = p')) as [->|Hp].
    + by rewrite (bool_decide_eq_true_2 (p' = p')), lookup_insert_eq by done.
    + rewrite bool_decide_eq_false_2 by done. rewrite lookup_insert_ne; [done|congruence].
  - rewrite bool_decide_eq_false_2 by done. rewrite lookup_insert_ne; [done|congruence].
Qed.

Lemma log_effect t st es l l' :
  log t st es l = Ok l' ->
  _counts l' = fold_left (bump_event t st) es (_counts l) /\
  (forall p, row_reasons l' t p = row_reasons l t p ++ reasons_at t st es p) /\
  (forall p, is_quarantined l' t p = is_quarantined l t p || negb (bool_decide (reasons_at t st es p = []))) /\
  (forall t' p, t' <> t -> _rows l' !! (t', p) = _rows l !! (t', p)).
Proof.
  revert l. induction es as [|e es IH]; intros l H.
  { unfold log in H. cbn in H. injection H as <-. cbn. split_and!; [done| | |done].
    - intros p. by rewrite app_nil_r.
    - intros p. by rewrite orb_false_r. }
  unfold log in H. cbn [for_each] in H. destruct (event_step t st l e) as [l1|] eqn:E; [|discriminate].
  apply event_step_effect in E as [Hc Hr]. apply IH in H as (Hc' & Hr' & Hq' & Ho'). clear IH. split_and!.
  - rewrite Hc', Hc. done.
  - intros p. rewrite Hr'. unfold row_reasons. rewrite Hr. cbn. rewrite (bool_decide_eq_true_2 (t = t)) by done.
    destruct (event_reason t st p e) as [r|]; cbn; [by rewrite <- app_assoc|done].
  - intros p. rewrite Hq'. unfold is_quarantined. rewrite Hr. cbn. rewrite (bool_decide_eq_true_2 (t = t)) by done.
    destruct (event_reason t st p e) as [r|]; [|done].
    rewrite (bool_decide_eq_false_2 (r :: _ = [])) by done. rewrite orb_true_r, orb_true_iff. left.
    apply bool_decide_eq_true_2. by eexists.
  - intros t' p Ht. rewrite Ho' by done. rewrite Hr. cbn. by rewrite bool_decide_eq_false_2.
Qed.

Lemma bump_comm cs k1 n1 k2 n2 x1 x2 :
  bump (bump cs k1 n1 x1) k2 n2 x2 = bump (bump cs k2 n2 x2) k1 n1 x1.
Proof.
  unfold bump. destruct (decide (k1 = k2)) as [->|Hk].
  - rewrite !lookup_insert_eq. cbn. rewrite !insert_insert_eq. f_equal.
    destruct (decide (n1 = n2)) as [->|Hn].
    + rewrite !lookup_insert_eq, !insert_insert_eq. cbn. f_equal. lia.
    + rewrite !lookup_insert_ne by done. by rewrite insert_insert_ne by done.
  - rewrite !lookup_insert_ne by done. by rewrite insert_insert_ne by done.
Qed.

Lemma bump_events_perm t st es es' cs :
  es ≡ₚ es' -> fold_left (bump_event t st) es cs = fold_left (bump_event t st) es' cs.
Proof.
  intros H. revert cs. induction H as [|e es es' _ IH|e e' es|es1 es2 es3 _ IH1 _ IH2]; intros cs; cbn; [done|apply IH| |].
  - unfold bump_event at 2 3. unfold bump_event at 2 3. by rewrite bump_comm.
  - by rewrite IH1.
Qed.

(** ** Running a column *)

Definition settle (t : pystr) (st : stage) (c : _Col) (p : Z) (m : result verdict) : Cast CastIssueLedger (option cell) := fun l =>
  match m with
  | Err e => (l, Err e)
  | Ok vd =>
      match log t st (cell_events c p vd) l with
      | Err e => (l, Err e)
      | Ok l' => (l', match vd with
                      | Bad reason => if bool_decide (c_policy c = DFail) then Err (DeclaredCastValueError reason) else Ok None
                      | _ => Ok (typed_of vd)
                      end)
      end
  end.

Lemma log_one t st e l : log t st [e] l = event_step t st l e.
Proof. unfold log. cbn. by destruct (event_step t st l e). Qed.

Lemma disposition_settle t st c p reason l :
  (_ ← _disposition t c p st reason; mret None : Cast CastIssueLedger (option cell)) l = settle t st c p (Ok (Bad reason)) l.
Proof.
  unfold settle. cbn [cell_events]. rewrite log_one. cbn [event_step].
  unfold _disposition, ledger_add, mbind, cast_bind, lift, mret, cast_ret, raise_if.
  destruct (add l _) as [l'|e]; [|done]. by destruct (bool_decide (c_policy c = DFail)).
Qed.

Lemma cast_cell_settle t c p o l : cast_cell t c (p, o) l = settle t SParse c p (parse_verdict c o) l.
Proof.
  unfold cast_cell, parse_verdict. cbn [fst snd]. destruct o as [v|]; [|done].
  destruct (_is_sentinel c v); [done|]. unfold mbind at 1, cast_bind at 1, lift.
  destruct (parse_value (c_parse c) v) as [[x|reason]|e]; cbn [mbind result_bind]; [done| |done].
  apply disposition_settle.
Qed.

Lemma format_cell_settle t c f p o l : format_cell t c f (Some p, o) l = settle t SFormat c p (format_verdict f o) l.
Proof.
  unfold format_cell, format_verdict. cbn [fst snd]. destruct o as [v|]; [|done].
  unfold mbind at 1, cast_bind at 1, lift.
  destruct (format_value f v) as [[x|reason]|e]; cbn [mbind result_bind]; [done| |done].
  apply disposition_settle.
Qed.

(** Whatever the state, one element that raises makes the loop raise. *)
Lemma map_cast_raises {S X B} (f : X -> Cast S B) l s :
  (exists a, a ∈ l /\ forall s, is_ok (f a s).2 = false) -> is_ok (map_cast f l s).2 = false.
Proof.
  revert s. induction l as [|x l IH]; intros s (a & Hin & Ha); [by apply elem_of_nil in Hin|].
  cbn. unfold mbind, cast_bind at 1. destruct (f x s) as [s1 [b|e]] eqn:E; [|done].
  apply elem_of_cons in Hin as [->|Hin].
  - specialize (Ha s). rewrite E in Ha. discriminate.
  - unfold cast_bind. specialize (IH s1 (ex_intro _ a (conj Hin Ha))).
    destruct (map_cast f l s1) as [s2 [bs|e]]; done.
Qed.

Lemma settle_fatal t st c p m l : fatal c m = true -> is_ok (settle t st c p m l).2 = false.
Proof.
  unfold settle, fatal. destruct m as [vd|e]; [|done]. destruct vd as [| | |reason]; try done.
  intros ->. by destruct (log _ _ _ l).
Qed.

(** The events and values of a column of cells with verdicts. *)
Section Column.
Context (t : pystr) (st : stage) (c : _Col) (verd : option cell -> result verdict).

Definition events_of (p : Z) (o : option cell) : list event :=
  match verd o with Ok vd => cell_events c p vd | Err _ => [] end.
Definition value_of (o : option cell) : option cell := match verd o with Ok vd => typed_of vd | Err _ => None end.
Definition column_events (ps : list Z) (vals : list (option cell)) : list event := concat (zip_with events_of ps vals).
Definition column_fatal (vals : list (option cell)) : bool := existsb (fun o => fatal c (verd o)) vals.

Lemma settle_column (f : Z * option cell -> Cast CastIssueLedger (option cell)) ps vals l l' :
  (forall p o l, f (p, o) l = settle t st c p (verd o) l) -> length ps = length vals -> column_fatal vals = false ->
  log t st (column_events ps vals) l = Ok l' -> map_cast f (zip ps vals) l = (l', Ok (value_of <$> vals)).
Proof.
  intros Hf. revert vals l. induction ps as [|p ps IH]; intros [|o vals] l Hlen Hok H; try discriminate.
  { unfold log in H. cbn in H. injection H as <-. done. }
  cbn in Hlen, Hok. apply orb_false_iff in Hok as [Ho Hok].
  unfold column_events in H. cbn [zip_with concat] in H. unfold log in H. rewrite for_each_app in H.
  destruct (for_each (event_step t st) (events_of p o) l) as [l1|] eqn:E1; [|discriminate]. cbn [mbind result_bind] in H.
  cbn [zip zip_with map_cast]. unfold mbind, cast_bind at 1. rewrite Hf.
  assert (Hs : settle t st c p (verd o) l = (l1, Ok (value_of o))).
  { unfold settle, value_of, events_of, fatal in *. destruct (verd o) as [vd|e]; [|discriminate].
    unfold log. rewrite E1. destruct vd; try done. by rewrite Ho. }
  rewrite Hs. unfold cast_bind at 1. rewrite (IH vals l1); [done|lia|done|exact H].
Qed.

Lemma column_events_app ps ps' vals vals' :
  length ps = length vals ->
  column_events (ps ++ ps') (vals ++ vals') = column_events ps vals ++ column_events ps' vals'.
Proof. intros H. unfold column_events. by rewrite zip_with_app, concat_app. Qed.

Lemma column_raises (f : Z * option cell -> Cast CastIssueLedger (option cell)) ps vals l :
  (forall p o l, f (p, o) l = settle t st c p (verd o) l) -> length ps = length vals -> column_fatal vals = true ->
  is_ok (map_cast f (zip ps vals) l).2 = false.
Proof.
  intros Hf Hlen Hfa. apply map_cast_raises. apply existsb_exists in Hfa as (o & Hin & Ho).
  apply list_elem_of_In, list_elem_of_lookup in Hin as [i Hi].
  destruct (lookup_lt_is_Some_2 ps i) as [p Hp]; [rewrite Hlen; by eapply lookup_lt_Some|].
  exists (p, o). split.
  - apply list_elem_of_lookup. exists i. rewrite lookup_zip_with. unfold zip. by rewrite Hp, Hi.
  - intros s. rewrite Hf. by apply settle_fatal.
Qed.

(** Its keys and reasons, row by row. *)
Lemma elem_of_column_events ps vals e :
  e ∈ column_events ps vals <-> exists i p o, ps !! i = Some p /\ vals !! i = Some o /\ (e ∈ events_of p o).
Proof.
  unfold column_events. rewrite list_elem_of_In, in_concat. split.
  - intros (es & Hes & He). apply list_elem_of_In, elem_of_lookup_zip_with in Hes as (i & p & o & -> & Hp & Ho).
    exists i, p, o. split_and!; [done|done|by apply list_elem_of_In].
  - intros (i & p & o & Hp & Ho & He). exists (events_of p o). split; [|by apply list_elem_of_In].
    apply list_elem_of_In, elem_of_lookup_zip_with. eauto 10.
Qed.

Lemma events_of_key p o : event_keys (events_of p o) = [] \/ event_keys (events_of p o) = [(c_name c, p)].
Proof. unfold events_of. destruct (verd o) as [[]|]; auto. Qed.

Lemma column_keys ps vals :
  NoDup ps -> NoDup (event_keys (column_events ps vals)) /\
  forall k, k ∈ event_keys (column_events ps vals) -> k.1 = c_name c /\ (k.2 ∈ ps).
Proof.
  intros Hnd. revert vals. induction Hnd as [|p ps Hp Hnd IH]; intros [|o vals];
    [split; [constructor|set_solver]..|].
  destruct (IH vals) as [Hn Hk]. unfold column_events in *. cbn [zip_with concat]. rewrite event_keys_app.
  destruct (events_of_key p o) as [->| ->].
  - split; [exact Hn|]. intros k Hin. destruct (Hk k Hin). set_solver.
  - split.
    + constructor; [|exact Hn]. intros Hin. destruct (Hk _ Hin) as [_ Hin']. done.
    + intros k Hin. apply elem_of_cons in Hin as [->|Hin]; [set_solver|]. destruct (Hk k Hin). set_solver.
Qed.
End Column.

(** ** Absolute positions *)

Lemma prange_app off n m : prange off (n + m) = prange off n ++ prange (off + Z.of_nat n) m.
Proof.
  unfold prange. rewrite seq_app, fmap_app. f_equal. rewrite Nat.add_0_l.
  rewrite <- (Nat.add_0_r n) at 1. rewrite <- fmap_add_seq, <- list_fmap_compose.
  apply list_fmap_ext. intros i x _. unfold compose. lia.
Qed.

Lemma length_prange off n : length (prange off n) = n.
Proof. unfold prange. by rewrite length_fmap, length_seq. Qed.

Lemma prange_lookup off n i : (i < n)%nat -> prange off n !! i = Some (off + Z.of_nat i).
Proof. intros H. unfold prange. by rewrite list_lookup_fmap, lookup_seq_lt by done. Qed.

Lemma elem_of_prange off n p : p ∈ prange off n <-> off <= p < off + Z.of_nat n.
Proof.
  unfold prange. rewrite list_elem_of_fmap. setoid_rewrite elem_of_seq. split.
  - intros (i & -> & Hi). lia.
  - intros H. exists (Z.to_nat (p - off)). lia.
Qed.

Lemma NoDup_prange off n : NoDup (prange off n).
Proof. apply NoDup_fmap_2_strong; [intros; lia|apply NoDup_seq]. Qed.

(** The reasons of one cell; a record does not mention the row. *)
Definition cell_reasons (t : pystr) (st : stage) (c : _Col) (m : result verdict) : list ReasonRecord :=
  match m with
  | Ok (Bad reason) => if bool_decide (c_policy c = DQuarantine) then [_record (MkIssue t (c_name c) 0 st reason DQuarantine)] else []
  | _ => []
  end.

Lemma events_of_reasons t st c verd p p' o :
  reasons_at t st (events_of c verd p o) p' = if bool_decide (p = p') then cell_reasons t st c (verd o) else [].
Proof.
  unfold events_of, cell_reasons. destruct (verd o) as [[]|]; try (by destruct (bool_decide _)).
  unfold reasons_at. cbn. destruct (c_policy c); cbn; by destruct (bool_decide (p = p')).
Qed.

Lemma reasons_at_app t st es es' p : reasons_at t st (es ++ es') p = reasons_at t st es p ++ reasons_at t st es' p.
Proof. apply omap_app. Qed.

Lemma column_reasons t st c verd ps vals p :
  NoDup ps -> length ps = length vals ->
  reasons_at t st (column_events c verd ps vals) p =
  match list_find (fun q => q = p) ps with
  | Some (i, _) => match vals !! i with Some o => cell_reasons t st c (verd o) | None => [] end
  | None => []
  end.
Proof.
  intros Hnd. revert vals. induction Hnd as [|q ps Hq Hnd IH]; intros [|o vals] Hlen; try discriminate; [done|].
  unfold column_events in *. cbn [zip_with concat]. rewrite reasons_at_app, events_of_reasons.
  rewrite IH by (cbn in Hlen; lia). cbn [list_find]. destruct (decide (q = p)) as [->|Hne].
  - rewrite bool_decide_eq_true_2 by done. cbn. replace (list_find (fun q => q = p) ps) with (@None (nat * Z)).
    + by rewrite app_nil_r.
    + symmetry. apply list_find_None. apply list.Forall_forall. intros x Hx ->. done.
  - rewrite bool_decide_eq_false_2 by done. cbn. by destruct (list_find _ ps) as [[i x]|].
Qed.

(** ** The events of a batch *)

Section Batch.
Context (t : pystr) (st : stage) (verd : _Col -> option cell -> result verdict).

Definition contents := pystr -> list (option cell).

Definition batch_events (cols : list _Col) (off : Z) (n : nat) (V : contents) : list event :=
  cols ≫= fun c => column_events c (verd c) (prange off n) (V (c_name c)).

Definition row_reasons_of (cols : list _Col) (V : contents) (i : nat) : list ReasonRecord :=
  cols ≫= fun c => cell_reasons t st c (verd c (default None (V (c_name c) !! i))).

Lemma reasons_at_bind cols (f : _Col -> list event) p :
  reasons_at t st (cols ≫= f) p = cols ≫= fun c => reasons_at t st (f c) p.
Proof. induction cols as [|c cols IH]; [done|]. cbn [mbind list_bind] in *. by rewrite reasons_at_app, IH. Qed.

Lemma bind_ext_in {X Y} (f g : X -> list Y) l : (forall x, x ∈ l -> f x = g x) -> l ≫= f = l ≫= g.
Proof.
  induction l as [|x l IH]; intros H; [done|]. cbn. rewrite (H x) by left. f_equal. apply IH. intros. apply H. by right.
Qed.

Lemma batch_reasons_in cols off n V i :
  (forall c, c ∈ cols -> length (V (c_name c)) = n) -> (i < n)%nat ->
  reasons_at t st (batch_events cols off n V) (off + Z.of_nat i) = row_reasons_of cols V i.
Proof.
  intros HV Hi. unfold batch_events, row_reasons_of. rewrite reasons_at_bind. apply bind_ext_in. intros c Hc.
  specialize (HV c Hc). rewrite column_reasons by (apply NoDup_prange || by rewrite length_prange).
  assert (list_find (fun q => q = off + Z.of_nat i) (prange off n) = Some (i, off + Z.of_nat i)) as ->.
  { apply list_find_Some. split_and!; [by apply prange_lookup|done|]. intros j y Hj Hlt.
    rewrite prange_lookup in Hj by lia. injection Hj as <-. lia. }
  destruct (lookup_lt_is_Some_2 (V (c_name c)) i) as [o Ho]; [lia|]. by rewrite Ho.
Qed.

Lemma batch_reasons_out cols off n V p :
  (forall c, c ∈ cols -> length (V (c_name c)) = n) -> ~ (off <= p < off + Z.of_nat n) ->
  reasons_at t st (batch_events cols off n V) p = [].
Proof.
  intros HV Hp. unfold batch_events. rewrite reasons_at_bind.
  transitivity (cols ≫= fun _ => ([] : list ReasonRecord)); [|induction cols; cbn; [done|]; apply IHcols; intros; apply HV; by right].
  apply bind_ext_in. intros c Hc. rewrite column_reasons by (apply NoDup_prange || by rewrite length_prange, HV).
  replace (list_find (fun q => q = p) (prange off n)) with (@None (nat * Z)); [done|].
  symmetry. apply list_find_None, list.Forall_forall. intros x Hx%elem_of_prange ->. done.
Qed.

Lemma bind_app_perm {X Y} (f g : X -> list Y) l : l ≫= (fun x => f x ++ g x) ≡ₚ (l ≫= f) ++ (l ≫= g).
Proof.
  induction l as [|x l IH]; [done|]. cbn. rewrite IH. rewrite <- !app_assoc. f_equiv.
  rewrite !app_assoc. f_equiv. apply Permutation_app_comm.
Qed.

Lemma batch_events_app cols off n m (V V' W : contents) :
  (forall c, c ∈ cols -> length (V (c_name c)) = n /\ W (c_name c) = V (c_name c) ++ V' (c_name c)) ->
  batch_events cols off (n + m) W ≡ₚ batch_events cols off n V ++ batch_events cols (off + Z.of_nat n) m V'.
Proof.
  intros HV. unfold batch_events. rewrite <- bind_app_perm. apply reflexive_eq, bind_ext_in. intros c Hc.
  destruct (HV c Hc) as [Hn ->]. rewrite prange_app, column_events_app; [done|by rewrite length_prange].
Qed.

Lemma event_keys_bind cols (f : _Col -> list event) : event_keys (cols ≫= f) = cols ≫= fun c => event_keys (f c).
Proof. induction cols as [|c cols IH]; [done|]. cbn [mbind list_bind] in *. by rewrite event_keys_app, IH. Qed.

Lemma batch_keys cols off n V :
  NoDup (c_name <$> cols) -> NoDup (event_keys (batch_events cols off n V)) /\
  forall c p, (c, p) ∈ event_keys (batch_events cols off n V) -> (c ∈ c_name <$> cols) /\ off <= p < off + Z.of_nat n.
Proof.
  induction cols as [|c cols IH]; intros Hnd; [split; [constructor|set_solver]|].
  cbn in Hnd. apply list.NoDup_cons in Hnd as [Hc Hnd]. destruct (IH Hnd) as [IHn IHk].
  change (batch_events (c :: cols) off n V)
    with (column_events c (verd c) (prange off n) (V (c_name c)) ++ batch_events cols off n V).
  rewrite event_keys_app.
  destruct (column_keys c (verd c) (prange off n) (V (c_name c)) (NoDup_prange off n)) as [Hn Hk]. split.
  - apply list.NoDup_app. split_and!; [done| |done]. intros [c' p] Hin Hin'. apply Hk in Hin as [Hin _]. cbn in Hin. subst c'.
    by apply IHk in Hin' as [Hin' _].
  - intros c' p [Hin|Hin]%elem_of_app.
    + apply Hk in Hin as [? ?%elem_of_prange]. cbn in *. subst. split; [left|done].
    + apply IHk in Hin as [? ?]. split; [by right|done].
Qed.

Definition batch_fatal (cols : list _Col) (V : contents) : bool :=
  existsb (fun c => column_fatal c (verd c) (V (c_name c))) cols.

Lemma batch_fatal_app cols (V V' W : contents) :
  (forall c, c ∈ cols -> W (c_name c) = V (c_name c) ++ V' (c_name c)) ->
  batch_fatal cols W = batch_fatal cols V || batch_fatal cols V'.
Proof.
  unfold batch_fatal. induction cols as [|c cols IH]; intros H; [done|]. cbn. rewrite IH by (intros; apply H; by right).
  rewrite (H c) by left. unfold column_fatal. rewrite existsb_app.
  repeat match goal with |- context [existsb ?f ?l] => destruct (existsb f l) end; done.
Qed.

(** Nothing of table [t] at this stage from position [off] on. *)
Definition unseen (off : Z) (l : CastIssueLedger) : Prop :=
  (forall c p, (t, c, p, st) ∈ _seen l -> p < off) /\ forall p, off <= p -> _rows l !! (t, p) = None.

Lemma batch_log cols off n V l :
  NoDup (c_name <$> cols) -> (forall c, c ∈ cols -> length (V (c_name c)) = n) -> unseen off l ->
  exists l', log t st (batch_events cols off n V) l = Ok l' /\ unseen (off + Z.of_nat n) l' /\
    (forall i, (i < n)%nat -> row_reasons l' t (off + Z.of_nat i) = row_reasons_of cols V i) /\
    (forall i, (i < n)%nat -> is_quarantined l' t (off + Z.of_nat i) = negb (bool_decide (row_reasons_of cols V i = []))).
Proof.
  intros Hnd HV [Hs Hr]. destruct (batch_keys cols off n V Hnd) as [Hk Hkr].
  destruct (log_ok t st (batch_events cols off n V) l Hk) as (l' & Hl & Hs').
  { intros c p [_ Hp]%Hkr Hin%Hs. lia. }
  exists l'. split; [exact Hl|]. apply log_effect in Hl as (_ & Hrr & Hq & _). split_and!.
  - split.
    + intros c p [Hin|(c' & p' & [_ Hp]%Hkr & [= <- <-])]%Hs'; [|lia]. apply Hs in Hin. lia.
    + intros p Hp. specialize (Hq p). rewrite batch_reasons_out in Hq by (done || lia). unfold is_quarantined in Hq.
      rewrite (Hr p) in Hq by lia. cbn in Hq. apply bool_decide_eq_false in Hq.
      by apply eq_None_not_Some.
  - intros i Hi. rewrite Hrr, batch_reasons_in by done. unfold row_reasons. by rewrite Hr by lia.
  - intros i Hi. rewrite Hq, batch_reasons_in by done. unfold is_quarantined. by rewrite Hr by lia.
Qed.
End Batch.
