(* ===== verification/CastPartition.v ===== *)
(** * Declared casting: what a batch does, and partition independence

    The contract keeps a parsed value inside the Arrow type it declares; a cast
    batch is its events logged, its typed columns and its removed rows written
    out; and casting a table in consecutive batches is casting it whole. *)

From S2P Require Import Prelude Numerals PyText PyData CastNumeric CastCobol CastDate CastCatalog CastLedger CastRun CastEvents.

(** ** The contract (contracts/declared_casting.py) *)

(** The formats each logical type may be parsed from. *)
Definition _LOGICAL_FOR (t : LogicalType) (s : ParseSpec) : bool :=
  match t, s with
  | LString, StringExact | LInteger, PInteger _ | LDate, PDateSpec _ | LCurrency, PCurrency _ => true
  | LDecimal, (PPlain _ | PGrouped _ | POverpunch _ | PZoned _ | PComp3 _) => true
  | _, _ => false
  end.

Definition contract_ok (c : _Col) : Prop := _LOGICAL_FOR (c_logical c) (c_parse c) = true /\ valid_parse (c_parse c).

(** What an Arrow array can hold of text and octets. *)
Definition held (raw : cell) : Prop :=
  match raw with VStr s => is_ok (utf8_encode s) = true | VBytes b => Forall is_byte b | _ => True end.

(** A decimal zero loses its sign in Arrow; every other value is kept. *)
Definition arrow_same (v w : cell) : Prop :=
  w = v \/ exists e, v = VDec (DFinite true 0 e) /\ w = VDec (DFinite false 0 e).

Lemma stored_decimal p s negative u :
  0 <= u < 10 ^ p -> exists w, stored (TDecimal128 p s) (VDec (DFinite negative u (- s))) = Some w /\
    arrow_same (VDec (DFinite negative u (- s))) w.
Proof.
  intros Hu. cbn. rewrite Z.eqb_refl. replace (0 <=? u) with true by lia. replace (u <? 10 ^ p) with true by lia.
  eexists. split; [done|]. unfold arrow_same. destruct (Z.eqb_spec u 0) as [->|]; destruct negative; cbn; eauto.
Qed.

(** A value a column's parser accepts fits the Arrow type its contract declares. *)
Lemma parsed_value_fits c raw v :
  contract_ok c -> held raw -> parse_value (c_parse c) raw = Ok (Success v) ->
  exists ty w, arrow_type c = Ok ty /\ stored ty v = Some w /\ arrow_same v w.
Proof.
  intros [Hl Hv] Hh H. unfold parse_value in H. unfold arrow_type.
  destruct c as [nm lt t fm se po]; cbn [c_logical c_parse] in *.
  assert (Hdec : forall p s, valid_precision p s = true -> shaped p s v ->
    exists w, stored (TDecimal128 p s) v = Some w /\ arrow_same v w).
  { intros p s Hp (negative & u & -> & Hu & _)%unscale_shaped; [|done]. by apply stored_decimal. }
  destruct lt, t as [|s|s|s|s|s|s|s|s]; try discriminate;
    cbn [parse_kernel valid_parse decimal_shape spec_integer of_option mbind result_bind fst snd] in *.
  - unfold _string_exact, succeed, fail in H. destruct raw as [x| | | | | |]; try discriminate. injection H as <-.
    exists TString, (VStr x). split_and!; [done| |by left]. cbn in Hh |- *. by rewrite Hh.
  - apply parse_integer_bounds in H as (n & -> & Hb).
    rewrite bool_decide_eq_true_2 by (unfold valid_bit_width in Hv; bool_prop; set_solver + Hv).
    eexists _, (VInt n). split_and!; [done| |by left]. cbn. destruct (int_bounds _ _) as [lo hi]. cbn [fst snd] in Hb.
    replace (lo <=? n) with true by lia. by replace (n <=? hi) with true by lia.
  - destruct Hv as [_ Hp]. apply parse_plain_shaped, Hdec in H as (w & ? & ?); eauto.
  - apply parse_grouped_shaped, Hdec in H as (w & ? & ?); eauto using valid_num_precision.
  - unfold parse_overpunch in H. destruct raw as [x| | | | | |]; try discriminate.
    apply overpunch_parsed in H as [(negative & u & -> & Hu) _]; [|done].
    destruct (stored_decimal _ (co_scale s) negative u Hu) as (w & ? & ?). eauto.
  - unfold parse_zoned in H. destruct raw as [|x| | | | |]; try discriminate.
    apply zoned_parse_shaped in H as (negative & u & -> & Hu & _); [|done|done].
    destruct (stored_decimal _ (co_scale s) negative u Hu) as (w & ? & ?). eauto.
  - unfold parse_comp3 in H. destruct raw as [|x| | | | |]; try discriminate.
    apply comp3_parsed in H as [(negative & u & -> & Hu) _]; [|done|done].
    destruct (stored_decimal _ (co_scale s) negative u Hu) as (w & ? & ?). eauto.
  - apply parse_date_valid in H as (y & m & d & w & -> & Hd & _). exists TDate32, (VDate y m d).
    split_and!; [done| |by left]. cbn. by rewrite Hd.
  - apply parse_currency_shaped, Hdec in H as (w & ? & ?); eauto; by apply valid_num_precision, Hv.
Qed.

Lemma arrow_type_ok c : contract_ok c -> is_ok (arrow_type c) = true.
Proof.
  intros [Hl Hv]. unfold arrow_type. destruct c as [nm lt t fm se po]; cbn [c_logical c_parse] in *.
  destruct lt, t as [|s|s|s|s|s|s|s|s]; try discriminate; try done.
  cbn [spec_integer of_option mbind result_bind fst snd].
  rewrite bool_decide_eq_true_2; [done|]. cbn in Hv. unfold valid_bit_width in Hv. bool_prop. set_solver + Hv.
Qed.

(** The declared type of a column, and what a source cell is in it. *)
Definition aty (c : _Col) : ArrowType := match arrow_type c with Ok ty => ty | Err _ => TString end.
Definition cell_out (c : _Col) (o : option cell) : option cell := value_of (parse_verdict c) o ≫= stored (aty c).

Lemma arrow_type_aty c : contract_ok c -> arrow_type c = Ok (aty c).
Proof. intros H%arrow_type_ok. unfold aty. by destruct (arrow_type c). Qed.

Lemma verdict_fits c o :
  contract_ok c -> (forall v, o = Some v -> held v) -> fits (aty c) (value_of (parse_verdict c) o).
Proof.
  intros Hc Ho x Hx. unfold value_of, parse_verdict in Hx. destruct o as [v|]; [|discriminate].
  destruct (_is_sentinel c v); [discriminate|].
  destruct (parse_value (c_parse c) v) as [[y|reason]|e] eqn:E; cbn in Hx; try discriminate. injection Hx as ->.
  destruct (parsed_value_fits c v x Hc (Ho v eq_refl) E) as (ty & w & Hty & Hw & _).
  rewrite arrow_type_aty in Hty by done. injection Hty as <-. by exists w.
Qed.

Lemma stored_held ty v : text_or_bytes ty = true -> stored ty v = Some v -> held v.
Proof.
  assert (Hb : forall b, forallb (fun x => (0 <=? x) && (x <? 256)) b = true -> Forall is_byte b).
  { intros b H. apply List.Forall_forall. intros x Hx. rewrite forallb_forall in H. apply H in Hx.
    unfold is_byte, in_radix. lia. }
  destruct ty, v; try discriminate; intros _; cbn [stored held];
    try (destruct (is_ok _); [done|discriminate]); intros H; apply Hb;
    destruct (forallb _ _); [done|discriminate|done|discriminate|done|discriminate].
Qed.

Lemma gather_all {X} (l : list X) : gather l (seq 0 (length l)) = l.
Proof.
  induction l as [|x l IH]; [done|]. unfold gather in *. cbn [length seq omap list_omap lookup list_lookup].
  f_equal. rewrite <- IH at 2. rewrite <- seq_shift. generalize (seq 0 (length l)). intros js. clear IH.
  induction js as [|i js IH]; [done|]. cbn. destruct (l !! i); by rewrite IH.
Qed.

Lemma length_gather {X} (l : list X) idx : Forall (fun i => (i < length l)%nat) idx -> length (gather l idx) = length idx.
Proof.
  induction 1 as [|i idx Hi Hidx IH]; [done|]. unfold gather in *. cbn.
  destruct (lookup_lt_is_Some_2 l i Hi) as [x ->]. cbn. by rewrite IH.
Qed.

(** ** A batch is its events, its typed columns and its removed rows *)

Section Batches.
Context `{A : ArrowOps} {L : ArrowLaws A} `{S : SinkOps}.

Abbreviation tview := (list (pystr * (ArrowType * list (option cell)))).

Definition cells (v : tview) : contents := fun name => match od_get v name with Some tl => tl.2 | None => [] end.
Definition values (src : Table) : contents := cells (view src).

(** The source has every contracted column, physically typed as its parser needs. *)
Record castable_view (cols : list _Col) (v : tview) : Prop := {
  ca_names : NoDup (c_name <$> cols);
  ca_columns : v <> [] /\ NoDup v.*1;
  ca_contract c : c ∈ cols -> contract_ok c;
  ca_physical c : c ∈ cols -> exists tl, od_get v (c_name c) = Some tl /\ _check_physical c tl.1 = Ok tt;
}.
Definition castable (cols : list _Col) (src : Table) : Prop := castable_view cols (view src).

Lemma view_names t : (view t).*1 = (columns t).*1.
Proof. unfold view. by rewrite <- list_fmap_compose. Qed.

Lemma view_get t name : od_get (view t) name = (fun a => (array_type a, to_pylist a)) <$> od_get (columns t) name.
Proof.
  unfold view. induction (columns t) as [|[n a] cs IH]; [done|]. cbn. by destruct (bool_decide (n = name)).
Qed.

Lemma castable_column cols src c :
  castable cols src -> c ∈ cols ->
  exists a, od_get (columns src) (c_name c) = Some a /\ _check_physical c (array_type a) = Ok tt /\
    values src (c_name c) = to_pylist a.
Proof.
  intros Hca Hc. destruct (ca_physical _ _ Hca c Hc) as (tl & Hg & Hp). unfold values, cells. rewrite Hg.
  rewrite view_get in Hg. destruct (od_get (columns src) (c_name c)) as [a|]; [|discriminate].
  injection Hg as <-. eauto.
Qed.

Lemma source_held c a o v : _check_physical c (array_type a) = Ok tt -> o ∈ to_pylist a -> o = Some v -> held v.
Proof.
  intros Hp Ho ->. assert (Ht : text_or_bytes (array_type a) = true).
  { unfold _check_physical in Hp. destruct (c_binary c), (array_type a); done. }
  apply (stored_held (array_type a)); [done|]. by apply array_holds.
Qed.

Lemma length_values cols src c : castable cols src -> c ∈ cols -> length (values src (c_name c)) = num_rows src.
Proof.
  intros Hca Hc. destruct (castable_column _ _ _ Hca Hc) as (a & Ha & _ & ->).
  apply (table_rows src (c_name c, a)). by apply od_get_elem.
Qed.

Lemma cast_column_run cols src t ps c l l' :
  castable cols src -> c ∈ cols -> length ps = num_rows src ->
  column_fatal c (parse_verdict c) (values src (c_name c)) = false ->
  log t SParse (column_events c (parse_verdict c) ps (values src (c_name c))) l = Ok l' ->
  exists a', _cast_column t src ps c l = (l', Ok (c_name c, a')) /\
    to_pylist a' = cell_out c <$> values src (c_name c) /\ array_type a' = aty c.
Proof.
  intros Hca Hc Hlen Hf Hl. destruct (castable_column _ _ _ Hca Hc) as (a & Ha & Hp & Hv).
  pose proof (length_values _ _ _ Hca Hc) as Hn. pose proof (ca_contract _ _ Hca c Hc) as Hok. rewrite Hv in *.
  destruct (array_built (value_of (parse_verdict c) <$> to_pylist a) (aty c)) as (a' & Hb & Hlist & Hty).
  { apply Forall_fmap, list.Forall_forall. intros o Ho. apply verdict_fits; [done|]. intros v. by eapply source_held. }
  exists a'. split; [|split; [|done]].
  - unfold _cast_column, column. rewrite Ha. unfold mbind, cast_bind, lift. cbn [of_option]. rewrite Hp.
    rewrite (settle_column t SParse c (parse_verdict c) _ ps (to_pylist a) l l');
      [|intros; apply cast_cell_settle|lia|done|done].
    rewrite arrow_type_aty by done. by rewrite Hb.
  - rewrite Hlist, <- list_fmap_compose. done.
Qed.

(** All contracted columns, in the contracts' order. *)
Lemma cast_columns_run all cols src t off l l' :
  castable all src -> (forall c, c ∈ cols -> c ∈ all) ->
  batch_fatal parse_verdict cols (values src) = false ->
  log t SParse (batch_events parse_verdict cols off (num_rows src) (values src)) l = Ok l' ->
  exists arrs, map_cast (_cast_column t src (prange off (num_rows src))) cols l = (l', Ok arrs) /\
    Forall2 (fun c na => na.1 = c_name c /\ to_pylist na.2 = cell_out c <$> values src (c_name c) /\ array_type na.2 = aty c)
      cols arrs.
Proof.
  intros Hca. revert l. induction cols as [|c cols IH]; intros l Hin Hf Hl.
  { unfold log, batch_events in Hl. cbn in Hl. injection Hl as <-. by exists []. }
  unfold batch_fatal in Hf. cbn [existsb] in Hf. apply orb_false_iff in Hf as [Hfc Hf].
  unfold batch_events in Hl. cbn [mbind list_bind] in Hl. unfold log in Hl. rewrite for_each_app in Hl.
  destruct (for_each _ (column_events _ _ _ _) l) as [l1|] eqn:E1; [|discriminate]. cbn [mbind result_bind] in Hl.
  destruct (cast_column_run all src t (prange off (num_rows src)) c l l1) as (a' & Hc & Ha & Ht);
    [done|apply Hin; left|apply length_prange|done|exact E1|].
  destruct (IH l1) as (arrs & Hm & Harr); [intros; apply Hin; by right|done|exact Hl|].
  exists ((c_name c, a') :: arrs). split; [|by constructor].
  cbn [map_cast]. unfold mbind, cast_bind at 1. rewrite Hc. unfold cast_bind at 1. by rewrite Hm.
Qed.

(** The contract of a column, if it has one. *)
Definition contract_for (cols : list _Col) (name : pystr) : option _Col :=
  List.find (fun c => bool_decide (c_name c = name)) cols.

(** The table with every contracted column in its declared type. *)
Definition typed_column (cols : list _Col) (nc : pystr * (ArrowType * list (option cell)))
    : pystr * (ArrowType * list (option cell)) :=
  match contract_for cols nc.1 with
  | Some c => (nc.1, (aty c, cell_out c <$> nc.2.2))
  | None => nc
  end.
Definition typed_view (cols : list _Col) (v : tview) : tview := typed_column cols <$> v.

Definition at_rows (idx : list nat) (v : tview) : tview := (fun nc => (nc.1, (nc.2.1, gather nc.2.2 idx))) <$> v.

Lemma contract_for_elem cols name c : contract_for cols name = Some c -> c ∈ cols /\ c_name c = name.
Proof.
  intros H. apply find_some in H as [Hin Hn]. apply bool_decide_eq_true in Hn. split; [by apply list_elem_of_In|done].
Qed.

Lemma contract_for_get (R : _Col -> pystr * Array -> Prop) cols (arrs : list (pystr * Array)) name :
  Forall2 (fun c na => na.1 = c_name c /\ R c na) cols arrs ->
  match contract_for cols name with
  | Some c => exists a, od_get arrs name = Some a /\ R c (name, a)
  | None => od_get arrs name = None
  end.
Proof.
  induction 1 as [|c [n a] cols arrs [Hn HR] Hall IH]; [done|]. cbn [fst] in Hn. subst n.
  unfold contract_for in *. cbn [find od_get]. destruct (decide (c_name c = name)) as [Heq|Hne].
  - rewrite bool_decide_eq_true_2 by done. subst name. by exists a.
  - rewrite bool_decide_eq_false_2 by done. exact IH.
Qed.

Lemma replaced_table cols src arrs :
  castable cols src ->
  Forall2 (fun c na => na.1 = c_name c /\ to_pylist na.2 = cell_out c <$> values src (c_name c) /\ array_type na.2 = aty c) cols arrs ->
  exists typed, replace_columns src arrs = Ok typed /\ view typed = typed_view cols (view src) /\ num_rows typed = num_rows src.
Proof.
  intros Hca Harr. destruct (ca_columns _ _ Hca) as [Hne Hnd]. rewrite view_names in Hnd.
  assert (Hcol : forall na, na ∈ columns src ->
    (na.1, (array_type (default na.2 (od_get arrs na.1)), to_pylist (default na.2 (od_get arrs na.1)))) =
    typed_column cols (na.1, (array_type na.2, to_pylist na.2))).
  { intros [n a] Hin. pose proof (contract_for_get (fun c na => to_pylist na.2 = cell_out c <$> values src (c_name c) /\ array_type na.2 = aty c) cols arrs n Harr) as Hc.
    unfold typed_column. cbn [fst snd]. destruct (contract_for cols n) as [c|] eqn:Ec; [|by rewrite Hc].
    destruct Hc as (a' & -> & Hl & Ht). cbn in Hl, Ht |- *. rewrite Hl, Ht.
    apply contract_for_elem in Ec as [_ ->]. unfold values, cells. rewrite view_get. by rewrite (od_get_unique _ _ a). }
  set (cs := (fun na => (na.1, default na.2 (od_get arrs na.1))) <$> columns src).
  destruct (table_built cs (num_rows src)) as (typed & Hb & Hcs & Hn).
  - unfold cs. unfold view in Hne. by destruct (columns src).
  - unfold cs. rewrite <- list_fmap_compose. exact Hnd.
  - unfold cs. apply Forall_fmap, list.Forall_forall. intros na Hin. cbn [fst snd compose].
    pose proof (Hcol na Hin) as Hc. apply (f_equal (fun nc => length nc.2.2)) in Hc. cbn [fst snd] in Hc. unfold compose. cbn [snd]. rewrite Hc.
    pose proof (table_rows src na Hin) as Hl. unfold typed_column. cbn [fst snd].
    destruct (contract_for cols na.1); cbn [fst snd]; [by rewrite length_fmap|done].
  - exists typed. split; [exact Hb|]. split; [|done]. unfold view. rewrite Hcs. unfold cs, typed_view.
    rewrite <- !list_fmap_compose. apply list_fmap_ext. intros i na Hi. apply (Hcol na). by eapply list_elem_of_lookup_2.
Qed.

(** The rows of a batch that some cell quarantines, and the others. *)
Definition row_bad (t : pystr) (cols : list _Col) (src : Table) (i : nat) : bool :=
  negb (bool_decide (row_reasons_of t SParse parse_verdict cols (values src) i = [])).
Definition bad_rows (t : pystr) (cols : list _Col) (src : Table) : list nat :=
  List.filter (row_bad t cols src) (seq 0 (num_rows src)).
Definition good_rows (t : pystr) (cols : list _Col) (src : Table) : list nat :=
  List.filter (fun i => negb (row_bad t cols src i)) (seq 0 (num_rows src)).

Lemma dropped_bad l t cols src off :
  (forall i, (i < num_rows src)%nat ->
    is_quarantined l t (off + Z.of_nat i) = row_bad t cols src i) ->
  dropped_rows l t (prange off (num_rows src)) = bad_rows t cols src /\
  kept_rows l t (prange off (num_rows src)) = good_rows t cols src.
Proof.
  intros H. unfold dropped_rows, kept_rows, bad_rows, good_rows. rewrite length_prange.
  split; apply filter_ext_in; intros i Hi%list_elem_of_In%elem_of_seq; (rewrite prange_lookup by lia);
    by rewrite H by lia.
Qed.

Lemma good_rows_range t cols src : Forall (fun i => (i < num_rows src)%nat) (good_rows t cols src).
Proof.
  apply list.Forall_forall. intros i Hi. apply list_elem_of_In, filter_In in Hi as [Hi _].
  apply list_elem_of_In, elem_of_seq in Hi. lia.
Qed.

Lemma good_rows_all t cols src : bad_rows t cols src = [] -> good_rows t cols src = seq 0 (num_rows src).
Proof.
  unfold bad_rows, good_rows. generalize (seq 0 (num_rows src)). intros js. induction js as [|j js IH]; [done|].
  cbn. destruct (row_bad t cols src j); [discriminate|]. intros H. cbn. by rewrite IH.
Qed.

(** The typed batch a clean source comes to. *)
Record batch_of (t : pystr) (cols : list _Col) (src : Table) (off : Z) (b : CastBatch) : Prop := {
  bo_view : view (table b) = at_rows (good_rows t cols src) (typed_view cols (view src));
  bo_rows : num_rows (table b) = length (good_rows t cols src);
  bo_positions : positions b = gather (prange off (num_rows src)) (good_rows t cols src);
  bo_offset : offset b = off;
  bo_raw : raw b = if wants_raw cols then Some src else None;
}.

Definition set_ledger (r : DeclaredCastRun) (l : CastIssueLedger) : DeclaredCastRun :=
  MkRun l (_session r) (_receipt r) (_last_cleanup r) (_written r) (sink r).

(** The removed rows' step: nothing when there are none. *)
Definition write_bad (t : pystr) (cols : list _Col) (src : Table) (off : Z) : Cast DeclaredCastRun unit :=
  if bool_decide (bad_rows t cols src = []) then mret tt
  else _write_rows t (gather (prange off (num_rows src)) (bad_rows t cols src)) (if wants_raw cols then Some src else None) off.

Lemma typed_view_length cols src typed n nc :
  view typed = typed_view cols (view src) -> num_rows typed = n -> nc ∈ typed_view cols (view src) -> length nc.2.2 = n.
Proof.
  intros Hv Hn Hin. rewrite <- Hv in Hin. unfold view in Hin. apply list_elem_of_fmap in Hin as (na & -> & Hna).
  cbn [snd]. rewrite <- Hn. by apply table_rows.
Qed.

Lemma at_rows_all cols src typed :
  view typed = typed_view cols (view src) -> num_rows typed = num_rows src ->
  at_rows (seq 0 (num_rows src)) (typed_view cols (view src)) = typed_view cols (view src).
Proof.
  intros Hv Hn. unfold at_rows. rewrite <- (list_fmap_id (typed_view cols (view src))) at 2.
  apply list_fmap_ext. intros i nc Hi. apply list_elem_of_lookup_2 in Hi.
  rewrite <- (typed_view_length cols src typed (num_rows src) nc), gather_all by done. by destruct nc as [? []].
Qed.

Lemma cast_batch_run t cols src off (record : bool) r :
  castable cols src -> batch_fatal parse_verdict cols (values src) = false ->
  unseen t SParse off (if record then _ledger r else new_issues) ->
  exists l' b,
    log t SParse (batch_events parse_verdict cols off (num_rows src) (values src)) (if record then _ledger r else new_issues) = Ok l' /\
    unseen t SParse (off + Z.of_nat (num_rows src)) l' /\
    (forall i, (i < num_rows src)%nat ->
      row_reasons l' t (off + Z.of_nat i) = row_reasons_of t SParse parse_verdict cols (values src) i) /\
    batch_of t cols src off b /\
    cast_batch cols t src off record r =
      (let '(r', out) := (if record then write_bad t cols src off (set_ledger r l') else (r, Ok tt)) in (r', _ ← out; Ok b)).
Proof.
  intros Hca Hf Hu. set (l := if record then _ledger r else new_issues) in *.
  destruct (batch_log t SParse parse_verdict cols off (num_rows src) (values src) l) as (l' & Hl & Hu' & Hrr & Hq);
    [apply Hca|intros; by eapply length_values|done|].
  destruct (cast_columns_run cols cols src t off l l') as (arrs & Hm & Harr); [done|done|done|done|].
  destruct (replaced_table cols src arrs Hca Harr) as (typed & Ht & Hv & Hn).
  destruct (dropped_bad l' t cols src off) as [Hd Hk]; [intros i Hi; by apply Hq|].
  assert (Hwl : with_ledger record (map_cast (_cast_column t src (prange off (num_rows src))) cols) r =
    (if record then set_ledger r l' else r, Ok (l', arrs))).
  { unfold with_ledger. fold l. rewrite Hm. by destruct record. }
  set (rawt := if wants_raw cols then Some src else None).
  destruct (decide (bad_rows t cols src = [])) as [Hb|Hb].
  - exists l', (MkBatch typed (prange off (num_rows src)) off rawt). split_and!; [done|done|done| |].
    + pose proof (good_rows_all _ _ _ Hb) as Hg.
      constructor; cbn [table positions offset raw]; rewrite ?Hg, ?length_seq; try done.
      * by rewrite (at_rows_all cols src typed).
      * rewrite <- (length_prange off (num_rows src)) at 3. by rewrite gather_all.
    + unfold cast_batch. unfold mbind at 1, cast_bind at 1. rewrite Hwl. unfold mbind at 1, cast_bind at 1, lift.
      rewrite Ht, Hd. unfold write_bad. rewrite !bool_decide_eq_true_2 by done. by destruct record.
  - exists l', (MkBatch (table_take typed (good_rows t cols src)) (gather (prange off (num_rows src)) (good_rows t cols src)) off rawt).
    split_and!; [done|done|done| |].
    + destruct (table_taken typed (good_rows t cols src)) as [Htv Htn].
      { rewrite Hn. apply good_rows_range. }
      constructor; cbn [table positions offset raw]; try done. by rewrite Htv, Hv.
    + unfold cast_batch. unfold mbind at 1, cast_bind at 1. rewrite Hwl. unfold mbind at 1, cast_bind at 1, lift.
      rewrite Ht, Hd, Hk. unfold write_bad. rewrite !bool_decide_eq_false_2 by done. unfold mbind, cast_bind. destruct record; [|done]. by destruct (_write_rows _ _ _ _ _) as [? []].
Qed.

(** A batch with a cell that fails the run raises. *)
Lemma cast_batch_fatal t cols src off record r :
  castable cols src -> batch_fatal parse_verdict cols (values src) = true ->
  is_ok (cast_batch cols t src off record r).2 = false.
Proof.
  intros Hca Hf. apply existsb_exists in Hf as (c & Hc%list_elem_of_In & Hfc).
  unfold cast_batch. unfold mbind at 1, cast_bind at 1.
  assert (Hr : forall l, is_ok (map_cast (_cast_column t src (prange off (num_rows src))) cols l).2 = false).
  { intros l. apply map_cast_raises. exists c. split; [done|]. intros s.
    destruct (castable_column _ _ _ Hca Hc) as (a & Ha & Hp & Hv). pose proof (length_values _ _ _ Hca Hc) as Hn.
    rewrite Hv in *. unfold _cast_column, column. rewrite Ha. unfold mbind, cast_bind, lift. cbn [of_option]. rewrite Hp.
    pose proof (column_raises t SParse c (parse_verdict c) (cast_cell t c) (prange off (num_rows src)) (to_pylist a) s) as Hx.
    specialize (Hx (fun p o l => cast_cell_settle t c p o l)). rewrite length_prange in Hx. specialize (Hx (eq_sym Hn) Hfc).
    destruct (map_cast _ _ s) as [s' [out|e]]; [discriminate|done]. }
  unfold with_ledger. specialize (Hr (if record then _ledger r else new_issues)).
  destruct (map_cast _ _ _) as [l' [arrs|e]]; [discriminate|]. done.
Qed.

(** ** Consecutive batches *)

Definition join_view (v w : tview) : tview := zip_with (fun a b => (a.1, (a.2.1, a.2.2 ++ b.2.2))) v w.
Definition shape (v : tview) : list (pystr * ArrowType) := (fun nc => (nc.1, nc.2.1)) <$> v.

(** [src] is the rows of [t1] followed by those of [t2]. *)
Definition splits (src t1 t2 : Table) : Prop :=
  view src = join_view (view t1) (view t2) /\ shape (view t1) = shape (view t2).

Lemma shape_join v w : shape v = shape w -> shape (join_view v w) = shape v.
Proof.
  revert w. induction v as [|a v IH]; intros [|b w]; try discriminate; [done|]. intros [=]. unfold shape, join_view in *. cbn. f_equal. by apply IH.
Qed.

Lemma shape_names v : (shape v).*1 = v.*1.
Proof. unfold shape. by rewrite <- list_fmap_compose. Qed.

Lemma shape_get v w name tl :
  shape v = shape w -> od_get v name = Some tl -> exists tl', od_get w name = Some tl' /\ tl'.1 = tl.1.
Proof.
  revert w. induction v as [|[n [ty l]] v IH]; intros [|[n' [ty' l']] w] Hs Hg; try discriminate. cbn in Hs.
  injection Hs as -> -> Hs. cbn in *. destruct (bool_decide (n' = name)); [|by apply IH]. injection Hg as <-. eauto.
Qed.

Lemma castable_shape cols v w : shape v = shape w -> castable_view cols v -> castable_view cols w.
Proof.
  intros Hs [Hn [Hne Hnd] Hc Hp]. assert (Hnames : v.*1 = w.*1) by (by rewrite <- !shape_names, Hs). constructor; [done| |done|].
  - rewrite <- Hnames. split; [|done]. by destruct w, v.
  - intros c Hin. destruct (Hp c Hin) as (tl & Hg & Hck). destruct (shape_get _ _ _ _ Hs Hg) as (tl' & -> & Hty).
    exists tl'. by rewrite Hty.
Qed.

Lemma join_get v w name :
  shape v = shape w -> cells (join_view v w) name = cells v name ++ cells w name.
Proof.
  unfold cells, join_view. revert w. induction v as [|[n [ty l]] v IH]; intros [|[n' [ty' l']] w] Hs; try discriminate; [done|].
  cbn in Hs. injection Hs as -> -> Hs. cbn. destruct (bool_decide (n' = name)); [done|]. by apply IH.
Qed.

Lemma table_lengths t nc : nc ∈ view t -> length nc.2.2 = num_rows t.
Proof. unfold view. intros (na & -> & Hna)%list_elem_of_fmap. by apply table_rows. Qed.

Lemma splits_rows cols src t1 t2 :
  castable cols src -> splits src t1 t2 -> num_rows src = (num_rows t1 + num_rows t2)%nat.
Proof.
  intros [_ [Hne _] _ _] [Hv Hs]. pose proof (table_lengths src) as Hl. pose proof (table_lengths t1) as Hl1.
  pose proof (table_lengths t2) as Hl2. rewrite Hv in *.
  destruct (view t1) as [|[n [ty l]] v], (view t2) as [|[n' [ty' l']] w]; try discriminate; [done|].
  rewrite <- (Hl (n, (ty, l ++ l'))) by left. rewrite <- (Hl1 (n, (ty, l))) by left. rewrite <- (Hl2 (n', (ty', l'))) by left.
  cbn. by rewrite length_app.
Qed.

Lemma splits_castable cols src t1 t2 :
  castable cols src -> splits src t1 t2 -> castable cols t1 /\ castable cols t2.
Proof.
  unfold castable. intros Hca [Hv Hs]. rewrite Hv in Hca. assert (H1 : castable_view cols (view t1)).
  { eapply castable_shape; [|exact Hca]. by apply shape_join. }
  split; [done|]. by eapply castable_shape.
Qed.

Lemma splits_values src t1 t2 : splits src t1 t2 -> forall name, values src name = values t1 name ++ values t2 name.
Proof. intros [Hv Hs] name. unfold values. rewrite Hv. by apply join_get. Qed.

(** The framed row a position stands for. *)
Definition view_row (v : tview) (i : nat) : list (pystr * option cell) := (fun nc => (nc.1, default None (nc.2.2 !! i))) <$> v.

Lemma row_at_view t i : (i < num_rows t)%nat -> row_at t i = Ok (view_row (view t) i).
Proof.
  intros Hi. unfold row_at, view_row, view. rewrite <- list_fmap_compose.
  assert (Hr : Forall (fun na => length (to_pylist na.2) = num_rows t) (columns t))
    by (apply list.Forall_forall; intros; by apply table_rows).
  induction Hr as [|na cs Hna Hcs IH]; [done|]. cbn.
  destruct (lookup_lt_is_Some_2 (to_pylist na.2) i) as [o Ho]; [lia|]. rewrite Ho. cbn. by rewrite IH.
Qed.

Lemma view_row_join v w n i :
  shape v = shape w -> (forall nc, nc ∈ v -> length nc.2.2 = n) ->
  view_row (join_view v w) i = if decide (i < n)%nat then view_row v i else view_row w (i - n).
Proof.
  unfold view_row, join_view. revert w. induction v as [|[c [ty l]] v IH]; intros [|[c' [ty' l']] w] Hs Hl; try discriminate; [by case_decide|].
  cbn in Hs. injection Hs as -> -> Hs. cbn. rewrite (IH w Hs) by (intros; apply Hl; by right).
  pose proof (Hl (c', (ty', l)) ltac:(left)) as Hn. cbn in Hn. case_decide; cbn; f_equal; f_equal.
  - by rewrite lookup_app_l by lia.
  - rewrite lookup_app_r by lia. by rewrite Hn.
Qed.

Lemma splits_reasons t st verd cols src t1 t2 i :
  castable cols src -> splits src t1 t2 -> (i < num_rows src)%nat ->
  row_reasons_of t st verd cols (values src) i =
  if decide (i < num_rows t1)%nat then row_reasons_of t st verd cols (values t1) i
  else row_reasons_of t st verd cols (values t2) (i - num_rows t1).
Proof.
  intros Hca Hsp Hi. destruct (splits_castable _ _ _ _ Hca Hsp) as [Hc1 _].
  pose proof (fun c Hc => length_values cols t1 c Hc1 Hc) as Hl. unfold row_reasons_of.
  case_decide; apply bind_ext_in; intros c Hc; rewrite (splits_values _ _ _ Hsp); f_equal; f_equal; f_equal.
  - apply lookup_app_l. rewrite Hl by done. lia.
  - rewrite lookup_app_r by (rewrite Hl by done; lia). by rewrite Hl.
Qed.

Lemma filter_split (f g h : nat -> bool) n m :
  (forall i, (i < n)%nat -> f i = g i) -> (forall i, (i < m)%nat -> f (n + i)%nat = h i) ->
  List.filter f (seq 0 (n + m)) = List.filter g (seq 0 n) ++ ((fun i => (n + i)%nat) <$> List.filter h (seq 0 m)).
Proof.
  intros Hg Hh. rewrite seq_app, filter_app. f_equal.
  - apply filter_ext_in. intros i Hi%list_elem_of_In%elem_of_seq. apply Hg. lia.
  - cbn. rewrite <- (Nat.add_0_r n) at 1. rewrite <- fmap_add_seq.
    assert (Hin : forall i, i ∈ seq 0 m -> f (n + i)%nat = h i) by (intros i Hi%elem_of_seq; apply Hh; lia).
    induction (seq 0 m) as [|j js IH]; [done|]. cbn. rewrite (Hin j) by left.
    rewrite IH by (intros; apply Hin; by right). by destruct (h j).
Qed.

Lemma splits_bad t cols src t1 t2 :
  castable cols src -> splits src t1 t2 ->
  bad_rows t cols src = bad_rows t cols t1 ++ ((fun i => (num_rows t1 + i)%nat) <$> bad_rows t cols t2) /\
  good_rows t cols src = good_rows t cols t1 ++ ((fun i => (num_rows t1 + i)%nat) <$> good_rows t cols t2).
Proof.
  intros Hca Hsp. pose proof (splits_rows _ _ _ _ Hca Hsp) as Hn.
  assert (H1 : forall i, (i < num_rows t1)%nat -> row_bad t cols src i = row_bad t cols t1 i).
  { intros i Hi. unfold row_bad. rewrite (splits_reasons _ _ _ _ _ t1 t2) by (done || lia). by rewrite decide_True. }
  assert (H2 : forall i, (i < num_rows t2)%nat -> row_bad t cols src (num_rows t1 + i) = row_bad t cols t2 i).
  { intros i Hi. unfold row_bad. rewrite (splits_reasons _ _ _ _ _ t1 t2) by (done || lia). rewrite decide_False by lia.
    by replace (num_rows t1 + i - num_rows t1)%nat with i by lia. }
  unfold bad_rows, good_rows. rewrite Hn. split; apply filter_split; intros i Hi; first [by rewrite H1|by rewrite H2].
Qed.

Lemma gather_app {X} (l : list X) idx idx' : gather l (idx ++ idx') = gather l idx ++ gather l idx'.
Proof. apply omap_app. Qed.

Lemma gather_left {X} (l l' : list X) idx : Forall (fun i => (i < length l)%nat) idx -> gather (l ++ l') idx = gather l idx.
Proof.
  induction 1 as [|i idx Hi _ IH]; [done|]. unfold gather in *. cbn. rewrite lookup_app_l by done. destruct (l !! i); by rewrite IH.
Qed.

Lemma gather_right {X} (l l' : list X) idx : gather (l ++ l') ((fun i => (length l + i)%nat) <$> idx) = gather l' idx.
Proof.
  induction idx as [|i idx IH]; [done|]. unfold gather in *. cbn. rewrite lookup_app_r by lia.
  replace (length l + i - length l)%nat with i by lia. destruct (l' !! i); by rewrite IH.
Qed.

Lemma filter_seq_range (f : nat -> bool) n : Forall (fun i => (i < n)%nat) (List.filter f (seq 0 n)).
Proof. apply list.Forall_forall. intros i Hi. apply list_elem_of_In, filter_In in Hi as [Hi%list_elem_of_In%elem_of_seq _]. lia. Qed.

(** Positions of the rows a split selects. *)
Lemma gather_positions off n m idx idx' :
  Forall (fun i => (i < n)%nat) idx ->
  gather (prange off (n + m)) (idx ++ ((fun i => (n + i)%nat) <$> idx')) =
  gather (prange off n) idx ++ gather (prange (off + Z.of_nat n) m) idx'.
Proof.
  intros Hi. rewrite prange_app, gather_app, gather_left by (by rewrite length_prange). f_equal.
  pose proof (gather_right (prange off n) (prange (off + Z.of_nat n) m) idx') as H. by rewrite length_prange in H.
Qed.

(** ** Writing rows out, on another ledger with the same reasons *)

Definition on_ledger {B} (l : CastIssueLedger) (x : DeclaredCastRun * result B) : DeclaredCastRun * result B :=
  (set_ledger x.1 l, x.2).

Definition row_of (rawt : option Table) (off pos : Z) : result (list (pystr * option cell)) :=
  match rawt with Some t => row_at t (Z.to_nat (pos - off)) | None => Ok [] end.

Lemma set_ledger_twice r l l' : set_ledger (set_ledger r l) l' = set_ledger r l'.
Proof. done. Qed.

Lemma set_ledger_same r : set_ledger r (_ledger r) = r.
Proof. by destruct r. Qed.

Lemma begin_ledger r l : begin_session (set_ledger r l) = on_ledger l (begin_session r).
Proof.
  destruct r as [l0 session receipt cleanup written s0]. unfold begin_session, on_ledger, set_ledger. cbn.
  destruct session; [done|]. by destruct (sink_begin s0) as [s [u|e]].
Qed.

Lemma begin_spec r r' : begin_session r = (r', Ok tt) -> _session r' = true /\ _ledger r' = _ledger r.
Proof.
  unfold begin_session. destruct (_session r) eqn:E; [by intros [= <-]|].
  destruct (sink_begin (sink r)) as [s [[]|e]]; [|discriminate]. by intros [= <-].
Qed.

Lemma write_spec t rawt off pos r r' out :
  write_position t rawt off pos r = (r', out) -> _session r' = _session r /\ _ledger r' = _ledger r.
Proof.
  unfold write_position. destruct (bool_decide _); [by intros [= <- <-]|].
  destruct (match rawt with Some _ => _ | None => _ end) as [row|e]; [|by intros [= <- <-]].
  destruct (sink_write _ _ _ _ _) as [s o]. by intros [= <- <-].
Qed.

Lemma write_on t rawt off rawt' off' pos r l :
  row_reasons l t pos = row_reasons (_ledger r) t pos -> row_of rawt off pos = row_of rawt' off' pos ->
  write_position t rawt off pos (set_ledger r l) = on_ledger l (write_position t rawt' off' pos r).
Proof.
  intros Hr Hrow. unfold write_position. fold (row_of rawt off pos) (row_of rawt' off' pos). rewrite Hrow. cbn [_written set_ledger].
  destruct (bool_decide _); [done|]. destruct (row_of rawt' off' pos) as [row|e]; [|done]. cbn. rewrite Hr.
  by destruct (sink_write _ _ _ _ _).
Qed.

Lemma writes_on t rawt off rawt' off' ps r l :
  (forall pos, pos ∈ ps -> row_reasons l t pos = row_reasons (_ledger r) t pos /\ row_of rawt off pos = row_of rawt' off' pos) ->
  map_cast (write_position t rawt off) ps (set_ledger r l) = on_ledger l (map_cast (write_position t rawt' off') ps r) /\
  forall r' out, map_cast (write_position t rawt' off') ps r = (r', out) -> _session r' = _session r /\ _ledger r' = _ledger r.
Proof.
  revert r. induction ps as [|p ps IH]; intros r Hps; [split; [done|by intros ? ? [= <- <-]]|].
  destruct (Hps p) as [Hr Hrow]; [left|]. cbn. unfold mbind, cast_bind at 1 3 5. rewrite (write_on t rawt off rawt' off') by done.
  destruct (write_position t rawt' off' p r) as [r1 o] eqn:Ew. apply write_spec in Ew as [Hs1 Hl1]. unfold on_ledger at 1. cbn [fst snd].
  destruct o as [[]|e]; [|split; [done|by intros ? ? [= <- <-]]]. unfold cast_bind.
  destruct (IH r1) as [-> Hf]. { intros pos Hpos. rewrite Hl1. apply Hps. by right. }
  destruct (map_cast (write_position t rawt' off') ps r1) as [r2 o2]. destruct (Hf r2 o2 eq_refl) as [Hs2 Hl2].
  unfold on_ledger. cbn [fst snd]. destruct o2; (split; [done|]); intros ? ? [= <- <-]; by rewrite Hs2, Hl2.
Qed.

Lemma write_rows_on t rawt off rawt' off' ps r l :
  (forall pos, pos ∈ ps -> row_reasons l t pos = row_reasons (_ledger r) t pos /\ row_of rawt off pos = row_of rawt' off' pos) ->
  _write_rows t ps rawt off (set_ledger r l) = on_ledger l (_write_rows t ps rawt' off' r).
Proof.
  intros Hps. unfold _write_rows, mbind, cast_bind. rewrite begin_ledger. destruct (begin_session r) as [r1 [[]|e]] eqn:Eb; [|done].
  apply begin_spec in Eb as [_ Hl]. unfold on_ledger at 1. cbn [fst snd].
  destruct (writes_on t rawt off rawt' off' ps r1 l) as [-> _]; [by rewrite Hl|].
  by destruct (map_cast _ ps r1) as [r2 [?|?]].
Qed.

Lemma write_rows_after t rawt off ps r r' : _write_rows t ps rawt off r = (r', Ok tt) -> _session r' = true /\ _ledger r' = _ledger r.
Proof.
  unfold _write_rows, mbind, cast_bind. destruct (begin_session r) as [r1 [[]|e]] eqn:Eb; [|discriminate].
  apply begin_spec in Eb as [Hs Hl]. destruct (writes_on t rawt off rawt off ps r1 (_ledger r1)) as [_ Hf]; [done|].
  destruct (map_cast _ ps r1) as [r2 [?|?]]; [|discriminate]. destruct (Hf _ _ eq_refl) as [Hs2 Hl2]. intros [= <-].
  by rewrite Hs2, Hl2, Hl.
Qed.

Lemma map_cast_app {X B T} (f : X -> Cast T B) xs ys s :
  map_cast f (xs ++ ys) s =
  match map_cast f xs s with
  | (s', Ok bs) => match map_cast f ys s' with (s'', Ok bs') => (s'', Ok (bs ++ bs')) | (s'', Err e) => (s'', Err e) end
  | (s', Err e) => (s', Err e)
  end.
Proof.
  revert s. induction xs as [|x xs IH]; intros s; [cbn; by destruct (map_cast f ys s) as [? []]|].
  cbn. unfold mbind, cast_bind. destruct (f x s) as [s1 [b|e]]; [|done]. rewrite IH.
  destruct (map_cast f xs s1) as [s2 [bs|e]]; [|done]. unfold mret, cast_ret. by destruct (map_cast f ys s2) as [s3 [bs2|e]].
Qed.

Lemma write_rows_app t rawt off ps ps' r :
  _write_rows t (ps ++ ps') rawt off r =
  match _write_rows t ps rawt off r with
  | (r1, Ok _) => _write_rows t ps' rawt off r1
  | (r1, Err e) => (r1, Err e)
  end.
Proof.
  destruct (_write_rows t ps rawt off r) as [r1 o] eqn:E. assert (Ha : o = Ok tt -> _session r1 = true).
  { intros ->. by apply write_rows_after in E as [? _]. }
  unfold _write_rows, mbind, cast_bind in *. destruct (begin_session r) as [r0 [u|e]]; [|by injection E as <- <-].
  rewrite map_cast_app. destruct (map_cast _ ps r0) as [r2 [bs|e]]; injection E as <- <-; [|done].
  unfold begin_session. rewrite Ha by done. by destruct (map_cast _ ps' r2) as [r3 [?|?]].
Qed.

Lemma splits_row_at cols src t1 t2 :
  castable cols src -> splits src t1 t2 ->
  (forall i, (i < num_rows t1)%nat -> row_at src (0 + i) = row_at t1 i) /\
  (forall i, (i < num_rows t2)%nat -> row_at src (num_rows t1 + i) = row_at t2 i).
Proof.
  intros Hca Hsp. pose proof (splits_rows _ _ _ _ Hca Hsp) as Hn. destruct Hsp as [Hv Hs].
  split; intros i Hi; rewrite !row_at_view, Hv, (view_row_join _ _ (num_rows t1)) by (lia || done || apply table_lengths).
  - by rewrite decide_True by lia.
  - rewrite decide_False by lia. by replace (num_rows t1 + i - num_rows t1)%nat with i by lia.
Qed.

(** Writing a part's rows from the whole table, and on its ledger. *)
Lemma write_part t cols src part k off off' idx r l l' :
  off' = off + Z.of_nat k -> (forall i, (i < num_rows part)%nat -> row_at src (k + i) = row_at part i) ->
  (forall i, (i < num_rows part)%nat -> row_reasons l t (off' + Z.of_nat i) = row_reasons l' t (off' + Z.of_nat i)) ->
  _write_rows t (gather (prange off' (num_rows part)) idx) (if wants_raw cols then Some src else None) off (set_ledger r l) =
  on_ledger l (_write_rows t (gather (prange off' (num_rows part)) idx) (if wants_raw cols then Some part else None) off' (set_ledger r l')).
Proof.
  intros -> Hrow Hr. rewrite <- (set_ledger_twice r l' l). apply write_rows_on. cbn [_ledger set_ledger].
  intros pos (i & _ & Hi)%list_elem_of_omap.
  pose proof (lookup_lt_Some _ _ _ Hi) as Hlt. rewrite length_prange in Hlt. rewrite prange_lookup in Hi by done. injection Hi as <-.
  split; [by apply Hr|]. unfold row_of. destruct (wants_raw cols); [|done].
  replace (Z.to_nat (off + Z.of_nat k + Z.of_nat i - off)) with (k + i)%nat by lia.
  replace (Z.to_nat (off + Z.of_nat k + Z.of_nat i - (off + Z.of_nat k))) with i by lia. by apply Hrow.
Qed.

(** Removing the rows of two consecutive batches is removing their concatenation's. *)
Lemma write_bad_splits t cols src t1 t2 off r l l1 l2 :
  castable cols src -> splits src t1 t2 ->
  (forall i, (i < num_rows t1)%nat -> row_reasons l t (off + Z.of_nat i) = row_reasons l1 t (off + Z.of_nat i)) ->
  (forall i, (i < num_rows t2)%nat -> row_reasons l t (off + Z.of_nat (num_rows t1) + Z.of_nat i) =
     row_reasons l2 t (off + Z.of_nat (num_rows t1) + Z.of_nat i)) ->
  write_bad t cols src off (set_ledger r l) =
  match write_bad t cols t1 off (set_ledger r l1) with
  | (r1, Ok _) => on_ledger l (write_bad t cols t2 (off + Z.of_nat (num_rows t1)) (set_ledger r1 l2))
  | (r1, Err e) => (set_ledger r1 l, Err e)
  end.
Proof.
  intros Hca Hsp Hr1 Hr2. pose proof (splits_rows _ _ _ _ Hca Hsp) as Hn. destruct (splits_bad t _ _ _ _ Hca Hsp) as [Hb _].
  destruct (splits_row_at _ _ _ _ Hca Hsp) as [Hrow1 Hrow2].
  pose proof (fun r => write_part t cols src t1 0 off off (bad_rows t cols t1) r l l1 ltac:(lia) Hrow1 Hr1) as HF.
  pose proof (fun r => write_part t cols src t2 (num_rows t1) off _ (bad_rows t cols t2) r l l2 eq_refl Hrow2 Hr2) as HS.
  unfold write_bad. rewrite Hb, Hn. destruct (bad_rows t cols t1) as [|b1 bs1] eqn:E1, (bad_rows t cols t2) as [|b2 bs2] eqn:E2;
    rewrite gather_positions by (rewrite <- ?E1; apply filter_seq_range || constructor).
  - done.
  - rewrite (bool_decide_eq_false_2 ([] ++ _ = [])), (bool_decide_eq_true_2 ([] = [])), (bool_decide_eq_false_2 (b2 :: bs2 = [])) by done.
    exact (HS r).
  - rewrite (bool_decide_eq_false_2 ((b1 :: bs1) ++ _ = [])), (bool_decide_eq_true_2 ([] = [])), (bool_decide_eq_false_2 (b1 :: bs1 = [])) by done.
    change (gather (prange (off + Z.of_nat (num_rows t1)) (num_rows t2)) []) with (@nil Z). rewrite app_nil_r, HF.
    by destruct (_write_rows _ _ _ _ (set_ledger r l1)) as [r1 [[]|e]].
  - rewrite (bool_decide_eq_false_2 ((b1 :: bs1) ++ _ = [])), (bool_decide_eq_false_2 (b1 :: bs1 = [])), (bool_decide_eq_false_2 (b2 :: bs2 = [])) by done.
    rewrite write_rows_app, HF. destruct (_write_rows _ _ _ _ (set_ledger r l1)) as [r1 [u|e]]; [|done]. apply HS.
Qed.

(** ** The ledger of consecutive batches *)

Lemma log_app t st es es' l : log t st (es ++ es') l = l' ← log t st es l; log t st es' l'.
Proof. apply for_each_app. Qed.

(** Logs of the same events whose rows come to the same reasons leave the same issues. *)
Lemma logs_same t st es es' l l1 l2 :
  es ≡ₚ es' -> (forall p, reasons_at t st es p = reasons_at t st es' p) ->
  log t st es l = Ok l1 -> log t st es' l = Ok l2 -> same_issues l1 l2.
Proof.
  intros Hp Hr (Hc1 & Hr1 & Hq1 & Ho1)%log_effect (Hc2 & Hr2 & Hq2 & Ho2)%log_effect. split.
  - rewrite Hc1, Hc2. by apply bump_events_perm.
  - apply map_eq. intros [t' p]. destruct (decide (t' = t)) as [->|Ht]; [|by rewrite Ho1, Ho2].
    specialize (Hr1 p). specialize (Hr2 p). specialize (Hq1 p). specialize (Hq2 p). rewrite Hr in Hr1, Hq1. rewrite <- Hr2 in Hr1. rewrite <- Hq2 in Hq1.
    unfold row_reasons, is_quarantined in *. destruct (_rows l1 !! (t, p)), (_rows l2 !! (t, p)); cbn in *; try done; by subst.
Qed.

(** The run's state up to the reach of the duplicate check. *)
Definition same_run (r r' : DeclaredCastRun) : Prop :=
  same_issues (_ledger r) (_ledger r') /\ r' = set_ledger r (_ledger r').

Lemma splits_events cols src t1 t2 off :
  castable cols src -> splits src t1 t2 ->
  batch_events parse_verdict cols off (num_rows src) (values src) ≡ₚ
  batch_events parse_verdict cols off (num_rows t1) (values t1) ++
  batch_events parse_verdict cols (off + Z.of_nat (num_rows t1)) (num_rows t2) (values t2).
Proof.
  intros Hca Hsp. rewrite (splits_rows _ _ _ _ Hca Hsp). apply batch_events_app. intros c Hc.
  destruct (splits_castable _ _ _ _ Hca Hsp) as [H1 _]. split; [by eapply length_values|by apply splits_values].
Qed.

Lemma splits_reasons_at t cols src t1 t2 off p :
  castable cols src -> splits src t1 t2 ->
  reasons_at t SParse (batch_events parse_verdict cols off (num_rows src) (values src)) p =
  reasons_at t SParse (batch_events parse_verdict cols off (num_rows t1) (values t1) ++
    batch_events parse_verdict cols (off + Z.of_nat (num_rows t1)) (num_rows t2) (values t2)) p.
Proof.
  intros Hca Hsp. pose proof (splits_rows _ _ _ _ Hca Hsp) as Hn. destruct (splits_castable _ _ _ _ Hca Hsp) as [H1 H2].
  pose proof (fun c Hc => length_values cols src c Hca Hc) as Hl. pose proof (fun c Hc => length_values cols t1 c H1 Hc) as Hl1.
  pose proof (fun c Hc => length_values cols t2 c H2 Hc) as Hl2. rewrite reasons_at_app.
  destruct (decide (off <= p < off + Z.of_nat (num_rows src))) as [Hp|Hp].
  - replace p with (off + Z.of_nat (Z.to_nat (p - off))) by lia. set (i := Z.to_nat (p - off)).
    rewrite batch_reasons_in, (splits_reasons t SParse parse_verdict cols src t1 t2) by (done || lia). case_decide as Hi.
    + rewrite batch_reasons_in, batch_reasons_out by (done || lia). by rewrite app_nil_r.
    + rewrite batch_reasons_out by (done || lia).
      replace (off + Z.of_nat i) with (off + Z.of_nat (num_rows t1) + Z.of_nat (i - num_rows t1)) by lia.
      by rewrite batch_reasons_in by (done || lia).
  - by rewrite !batch_reasons_out by (done || lia).
Qed.

Lemma typed_join cols v w : shape v = shape w -> typed_view cols (join_view v w) = join_view (typed_view cols v) (typed_view cols w).
Proof.
  unfold typed_view, join_view. revert w. induction v as [|[n [ty l]] v IH]; intros [|[n' [ty' l']] w] Hs; try discriminate; [done|].
  cbn in Hs. injection Hs as -> -> Hs. cbn. rewrite (IH w Hs). f_equal. unfold typed_column. cbn.
  destruct (contract_for cols n'); cbn; [by rewrite fmap_app|done].
Qed.

Lemma at_rows_join v w n idx idx' :
  (forall nc, nc ∈ v -> length nc.2.2 = n) -> Forall (fun i => (i < n)%nat) idx ->
  at_rows (idx ++ ((fun i => (n + i)%nat) <$> idx')) (join_view v w) = join_view (at_rows idx v) (at_rows idx' w).
Proof.
  intros Hl Hi. unfold at_rows, join_view. revert w. induction v as [|[c [ty l]] v IH]; intros [|[c' [ty' l']] w]; try done.
  cbn. rewrite IH by (intros; apply Hl; by right). pose proof (Hl (c, (ty, l)) ltac:(left)) as Hn. cbn in Hn. subst n.
  by rewrite gather_app, gather_left, gather_right.
Qed.

Lemma typed_length cols v n : (forall nc, nc ∈ v -> length nc.2.2 = n) -> forall nc, nc ∈ typed_view cols v -> length nc.2.2 = n.
Proof.
  intros Hl nc (nc' & -> & Hin)%list_elem_of_fmap. unfold typed_column.
  destruct (contract_for cols nc'.1); cbn; rewrite ?length_fmap; by apply Hl.
Qed.

Lemma splits_batches t cols src t1 t2 off b b1 b2 :
  castable cols src -> splits src t1 t2 -> batch_of t cols src off b -> batch_of t cols t1 off b1 ->
  batch_of t cols t2 (off + Z.of_nat (num_rows t1)) b2 ->
  positions b = positions b1 ++ positions b2 /\ view (table b) = join_view (view (table b1)) (view (table b2)) /\
  num_rows (table b) = (num_rows (table b1) + num_rows (table b2))%nat.
Proof.
  intros Hca Hsp B B1 B2. destruct (splits_bad t _ _ _ _ Hca Hsp) as [_ Hg]. pose proof (splits_rows _ _ _ _ Hca Hsp) as Hn.
  destruct Hsp as [Hv Hs]. split_and!.
  - rewrite (bo_positions _ _ _ _ _ B), (bo_positions _ _ _ _ _ B1), (bo_positions _ _ _ _ _ B2), Hg, Hn.
    apply gather_positions, good_rows_range.
  - rewrite (bo_view _ _ _ _ _ B), (bo_view _ _ _ _ _ B1), (bo_view _ _ _ _ _ B2), Hg, Hv, typed_join by done.
    apply at_rows_join; [apply typed_length, table_lengths|apply good_rows_range].
  - rewrite (bo_rows _ _ _ _ _ B), (bo_rows _ _ _ _ _ B1), (bo_rows _ _ _ _ _ B2), Hg. by rewrite length_app, length_fmap.
Qed.

Lemma write_bad_ledger t cols src off r r' out : write_bad t cols src off r = (r', Ok out) -> _ledger r' = _ledger r.
Proof.
  unfold write_bad. destruct (bool_decide _); [by intros [= <-]|]. destruct out. by intros [_ ?]%write_rows_after.
Qed.

(** Two consecutive batches. *)
Definition cast_two (cols : list _Col) (t : pystr) (t1 t2 : Table) (off : Z) : Cast DeclaredCastRun (CastBatch * CastBatch) :=
  b1 ← cast_batch cols t t1 off true;
  b2 ← cast_batch cols t t2 (off + Z.of_nat (num_rows t1)) true;
  mret (b1, b2).

Lemma cast_two_fatal t cols t1 t2 off r :
  castable cols t1 -> castable cols t2 ->
  batch_fatal parse_verdict cols (values t1) || batch_fatal parse_verdict cols (values t2) = true ->
  is_ok (cast_two cols t t1 t2 off r).2 = false.
Proof.
  intros H1 H2 Hf. unfold cast_two, mbind, cast_bind.
  destruct (batch_fatal parse_verdict cols (values t1)) eqn:E.
  - pose proof (cast_batch_fatal t cols t1 off true r H1 E) as Hx. by destruct (cast_batch cols t t1 off true r) as [r1 []].
  - destruct (cast_batch cols t t1 off true r) as [r1 []]; [|done].
    pose proof (cast_batch_fatal t cols t2 (off + Z.of_nat (num_rows t1)) true r1 H2 Hf) as Hx.
    by destruct (cast_batch cols t t2 _ true r1) as [r2 []].
Qed.

Lemma splits_row_reasons t cols src t1 t2 off l l1 l2 :
  castable cols src -> splits src t1 t2 ->
  (forall i, (i < num_rows src)%nat -> row_reasons l t (off + Z.of_nat i) = row_reasons_of t SParse parse_verdict cols (values src) i) ->
  (forall i, (i < num_rows t1)%nat -> row_reasons l1 t (off + Z.of_nat i) = row_reasons_of t SParse parse_verdict cols (values t1) i) ->
  (forall i, (i < num_rows t2)%nat ->
     row_reasons l2 t (off + Z.of_nat (num_rows t1) + Z.of_nat i) = row_reasons_of t SParse parse_verdict cols (values t2) i) ->
  (forall i, (i < num_rows t1)%nat -> row_reasons l t (off + Z.of_nat i) = row_reasons l1 t (off + Z.of_nat i)) /\
  (forall i, (i < num_rows t2)%nat -> row_reasons l t (off + Z.of_nat (num_rows t1) + Z.of_nat i) =
     row_reasons l2 t (off + Z.of_nat (num_rows t1) + Z.of_nat i)).
Proof.
  intros Hca Hsp H H1 H2. pose proof (splits_rows _ _ _ _ Hca Hsp) as Hn. split; intros i Hi.
  - rewrite H, H1 by lia. rewrite (splits_reasons _ _ _ _ _ t1 t2) by (done || lia). by rewrite decide_True.
  - rewrite H2 by done. replace (off + Z.of_nat (num_rows t1) + Z.of_nat i) with (off + Z.of_nat (num_rows t1 + i)) by lia.
    rewrite H by lia. rewrite (splits_reasons _ _ _ _ _ t1 t2) by (done || lia). rewrite decide_False by lia.
    by replace (num_rows t1 + i - num_rows t1)%nat with i by lia.
Qed.

(** C7: casting does not depend on how a table is partitioned. Casting a table
    and casting its first rows and then the others, each at its absolute offset,
    raise in the same cases; and when they do not, they leave the same issues,
    the same written positions, session and sink, and the same typed rows at the
    same absolute positions. *)
Theorem cast_partition_independent t cols src t1 t2 off r :
  castable cols src -> splits src t1 t2 -> unseen t SParse off (_ledger r) ->
  is_ok (cast_batch cols t src off true r).2 = is_ok (cast_two cols t t1 t2 off r).2 /\
  forall b b1 b2, (cast_batch cols t src off true r).2 = Ok b -> (cast_two cols t t1 t2 off r).2 = Ok (b1, b2) ->
    same_run (cast_batch cols t src off true r).1 (cast_two cols t t1 t2 off r).1 /\
    positions b = positions b1 ++ positions b2 /\ view (table b) = join_view (view (table b1)) (view (table b2)) /\
    num_rows (table b) = (num_rows (table b1) + num_rows (table b2))%nat.
Proof.
  intros Hca Hsp Hu. destruct (splits_castable _ _ _ _ Hca Hsp) as [Hc1 Hc2].
  pose proof (batch_fatal_app parse_verdict cols (values t1) (values t2) (values src) (fun c _ => splits_values _ _ _ Hsp _)) as Hfa.
  destruct (batch_fatal parse_verdict cols (values t1) || batch_fatal parse_verdict cols (values t2)) eqn:Ef.
  { pose proof (cast_batch_fatal t cols src off true r Hca Hfa) as Hw. rewrite Hw. split; [|intros b ? ? Hb; by rewrite Hb in Hw].
    symmetry. by apply cast_two_fatal. }
  apply orb_false_iff in Ef as [Hf1 Hf2].
  destruct (cast_batch_run t cols src off true r Hca Hfa Hu) as (l & b & Hl & _ & Hrr & Hb & ->).
  destruct (cast_batch_run t cols t1 off true r Hc1 Hf1 Hu) as (l1 & b1 & Hl1 & Hu1 & Hrr1 & Hb1 & E1).
  unfold cast_two, mbind, cast_bind. rewrite E1. clear E1.
  destruct (write_bad t cols t1 off (set_ledger r l1)) as [r1 [[]|e]] eqn:Ew1.
  - pose proof (write_bad_ledger _ _ _ _ _ _ _ Ew1) as Hr1. cbn in Hr1.
    destruct (cast_batch_run t cols t2 (off + Z.of_nat (num_rows t1)) true r1 Hc2 Hf2) as (l2 & b2 & Hl2 & _ & Hrr2 & Hb2 & ->); [by rewrite Hr1|].
    destruct (splits_row_reasons t cols src t1 t2 off l l1 l2 Hca Hsp Hrr Hrr1 Hrr2) as [HR1 HR2].
    rewrite (write_bad_splits t cols src t1 t2 off r l l1 l2 Hca Hsp HR1 HR2), Ew1.
    destruct (write_bad t cols t2 _ (set_ledger r1 l2)) as [r2 [[]|e]] eqn:Ew2; [|done].
    apply write_bad_ledger in Ew2. cbn in Ew2 |- *. split; [done|]. intros ? ? ? [= <-] [= <- <-]. split.
    + unfold same_run. cbn. split; [rewrite Ew2|by destruct r2].
      eapply logs_same; [by apply (splits_events cols src t1 t2 off)|intros p; by apply splits_reasons_at|exact Hl|].
      rewrite log_app, Hl1. cbn [mbind result_bind]. rewrite <- Hr1. exact Hl2.
    + by apply (splits_batches t cols src t1 t2 off).
  - destruct (cast_batch_run t cols t2 (off + Z.of_nat (num_rows t1)) true (set_ledger r l1) Hc2 Hf2 Hu1) as (l2 & b2 & Hl2 & _ & Hrr2 & Hb2 & _).
    destruct (splits_row_reasons t cols src t1 t2 off l l1 l2 Hca Hsp Hrr Hrr1 Hrr2) as [HR1 HR2].
    rewrite (write_bad_splits t cols src t1 t2 off r l l1 l2 Hca Hsp HR1 HR2), Ew1. split; [done|]. by intros ? ? ? [=].
Qed.

(** a cast table has the declared types. When no cell fails the run, casting
    without recording always succeeds and leaves the run untouched; the batch has
    the source's columns, each contracted one in the type its contract declares and
    holding only parsed source values, each other one its own cells, at the rows
    that stay; and a recording cast that succeeds gives the same batch. *)
Theorem cast_batch_typed t cols src off r :
  castable cols src -> batch_fatal parse_verdict cols (values src) = false -> unseen t SParse off (_ledger r) ->
  exists b, cast_batch cols t src off false r = (r, Ok b) /\ (view (table b)).*1 = (view src).*1 /\
    (forall nc, nc ∈ view (table b) -> length nc.2.2 = length (positions b) /\
      match contract_for cols nc.1 with
      | Some c => arrow_type c = Ok nc.2.1 /\ forall v, Some v ∈ nc.2.2 -> exists raw x,
          (Some raw ∈ values src nc.1) /\ parse_value (c_parse c) raw = Ok (Success x) /\ arrow_same x v
      | None => exists nc', (nc' ∈ view src) /\ nc = (nc'.1, (nc'.2.1, gather nc'.2.2 (good_rows t cols src)))
      end) /\
    forall b', (cast_batch cols t src off true r).2 = Ok b' -> view (table b') = view (table b) /\ positions b' = positions b.
Proof.
  intros Hca Hf Hu.
  destruct (cast_batch_run t cols src off false r Hca Hf) as (l & b & _ & _ & _ & B & E); [by split; [set_solver|done]|].
  exists b. split_and!; [exact E| | |].
  - rewrite (bo_view _ _ _ _ _ B). unfold at_rows, typed_view. rewrite <- !list_fmap_compose. apply list_fmap_ext.
    intros i nc _. cbn. unfold typed_column. by destruct (contract_for cols nc.1).
  - intros nc Hnc. pose proof (table_lengths _ _ Hnc) as Hlen. split.
    { rewrite Hlen, (bo_rows _ _ _ _ _ B), (bo_positions _ _ _ _ _ B), length_gather; [done|].
      rewrite length_prange. apply good_rows_range. }
    rewrite (bo_view _ _ _ _ _ B) in Hnc. unfold at_rows, typed_view in Hnc.
    apply list_elem_of_fmap in Hnc as (nc1 & -> & (nc2 & -> & Hnc2)%list_elem_of_fmap).
    unfold typed_column. cbn [fst snd]. destruct (contract_for cols nc2.1) as [c|] eqn:Ec; cbn [fst snd]; rewrite Ec; [|eauto].
    apply contract_for_elem in Ec as [Hc Hname]. split; [by apply arrow_type_aty, Hca|].
    intros v (i & _ & Hi)%list_elem_of_omap. apply list_elem_of_lookup_2 in Hi.
    apply list_elem_of_fmap in Hi as (o & Ho & Hin). destruct (castable_column _ _ _ Hca Hc) as (a & _ & Hp & Hv).
    assert (Hcell : nc2.2.2 = values src nc2.1).
    { unfold values, cells. destruct nc2 as [n tl]. by rewrite (od_get_unique _ n tl) by (done || apply Hca). }
    rewrite Hcell, <- Hname, Hv in *. unfold cell_out, value_of, parse_verdict in Ho.
    destruct o as [raw|]; [|discriminate]. destruct (_is_sentinel c raw); [discriminate|].
    destruct (parse_value (c_parse c) raw) as [[x|]|] eqn:Epv; try discriminate. exists raw, x. split_and!; [done|done|].
    destruct (parsed_value_fits c raw x) as (ty & w & Hty & Hw & Hs); [by apply Hca|by eapply source_held|done|].
    rewrite arrow_type_aty in Hty by (by apply Hca). injection Hty as <-. cbn in Ho. rewrite Hw in Ho. by injection Ho as ->.
  - destruct (cast_batch_run t cols src off true r Hca Hf Hu) as (l' & b1 & _ & _ & _ & B1 & ->).
    destruct (write_bad _ _ _ _ _) as [r' [u|e]]; cbn; [|discriminate]. intros ? [= <-].
    by rewrite (bo_view _ _ _ _ _ B), (bo_view _ _ _ _ _ B1), (bo_positions _ _ _ _ _ B), (bo_positions _ _ _ _ _ B1).
Qed.
End Batches.

(** ** Tables as lists, and a sink that keeps a journal

    The interfaces have an implementation: arrays are typed lists, tables equally
    long named arrays, and the sink the list of what was written to it. *)

Record LArray := LArr { la_ty : ArrowType; la_vals : list (option cell) }.
Definition la_list (a : LArray) : list (option cell) := (fun o => o ≫= stored (la_ty a)) <$> la_vals a.

Definition LTable : Type := nat * list (pystr * LArray).
Definition lt_columns (t : LTable) : list (pystr * LArray) :=
  List.filter (fun na => bool_decide (length (la_vals na.2) = t.1)) t.2.

Definition fits_all (ty : ArrowType) (l : list (option cell)) : bool :=
  forallb (fun o => match o with Some v => bool_decide (is_Some (stored ty v)) | None => true end) l.

#[global] Instance list_arrow : ArrowOps := {|
  Array := LArray;
  Table := LTable;
  to_pylist := la_list;
  array_type := la_ty;
  pa_array := fun l ty => if fits_all ty l then Ok (LArr ty l) else Err (exc "ArrowInvalid");
  columns := lt_columns;
  num_rows := fst;
  pa_table := fun cs =>
    let n := match cs with [] => 0%nat | na :: _ => length (la_vals na.2) end in
    if forallb (fun na => bool_decide (length (la_vals na.2) = n)) cs then Ok (n, cs) else Err (exc "ArrowInvalid");
  table_take := fun t idx => (length idx, (fun na => (na.1, LArr (la_ty na.2) (gather (la_vals na.2) idx))) <$> lt_columns t);
|}.

Lemma filter_id {X} (f : X -> bool) l : Forall (fun x => f x = true) l -> List.filter f l = l.
Proof. induction 1 as [|x l Hx _ IH]; [done|]. cbn. by rewrite Hx, IH. Qed.

Lemma gather_fmap {X Y} (f : X -> Y) l idx : gather (f <$> l) idx = f <$> gather l idx.
Proof. induction idx as [|i idx IH]; [done|]. unfold gather in *. cbn. rewrite list_lookup_fmap. destruct (l !! i); cbn; by rewrite IH. Qed.

#[global] Instance list_arrow_laws : ArrowLaws list_arrow.
Proof.
  split.
  - intros l ty Hl. exists (LArr ty l). split_and!; [|done|done]. cbn.
    replace (fits_all ty l) with true; [done|]. symmetry. apply forallb_forall. intros o Ho%list_elem_of_In.
    rewrite list.Forall_forall in Hl. specialize (Hl o Ho). destruct o as [v|]; [|done]. by apply bool_decide_eq_true_2, Hl.
  - intros [ty l] v Hv Hty. cbn in *. apply list_elem_of_fmap in Hv as ([w|] & Hw & _); [|discriminate]. cbn in Hw.
    destruct ty, w; try discriminate; cbn in Hw |- *;
      repeat match type of Hw with Some _ = (if ?b then _ else _) => destruct b eqn:?; [|discriminate] end;
      injection Hw as ->; cbn; by repeat match goal with H : ?b = true |- context [?b] => rewrite H end.
  - intros cs n Hne _ Hn. assert (Hall : Forall (fun na => length (la_vals na.2) = n) cs).
    { eapply Forall_impl; [|exact Hn]. intros na H. cbn in H. unfold la_list in H. by rewrite length_fmap in H. }
    exists (n, cs). assert (Hfl : lt_columns (n, cs) = cs).
    { apply filter_id. eapply Forall_impl; [|exact Hall]. intros na H. by apply bool_decide_eq_true_2. }
    split_and!; [|exact Hfl|done]. cbn. destruct cs as [|na cs]; [done|]. apply Forall_cons_iff in Hall as Hh. destruct Hh as [Hh _]. rewrite Hh.
    replace (forallb _ _) with true; [done|]. symmetry. apply forallb_forall. intros x Hx. apply bool_decide_eq_true_2.
    rewrite Stdlib.Lists.List.Forall_forall in Hall. by apply Hall.
  - intros t na Hin. cbn in *. apply list_elem_of_In, filter_In in Hin as [_ H%bool_decide_eq_true]. unfold la_list. by rewrite length_fmap.
  - intros t idx Hidx. split; [|done]. unfold view. cbn. unfold lt_columns at 1. cbn [fst snd]. rewrite filter_id.
    + rewrite <- !list_fmap_compose. apply list_fmap_ext. intros i na _. cbn. unfold la_list. cbn. by rewrite gather_fmap.
    + apply Forall_fmap, list.Forall_forall. intros na Hna. apply bool_decide_eq_true_2. cbn. apply length_gather.
      apply list_elem_of_In, filter_In in Hna as [_ ->%bool_decide_eq_true]. exact Hidx.
Qed.

Record JEntry := MkEntry { j_table : pystr; j_row : Z; j_reasons : list ReasonRecord; j_values : list (pystr * option cell) }.

#[global] Instance journal : SinkOps := {|
  Sink := list JEntry;
  sink_begin := fun s => (s, Ok tt);
  sink_write := fun s t p reasons row => (s ++ [MkEntry t p reasons row], Ok tt);
  sink_seal := fun s => (s, Ok tt);
  sink_token := fun s => (s, Ok tt);
  sink_abort := fun s => (s, Ok "confirmed"%string);
  sink_discard := fun s => (s, Ok "confirmed"%string);
|}.

(** ** Witnesses *)

Definition amounts : _Col :=
  MkCol (py "amount") LInteger (PInteger (IntegerAscii true 8)) None [VStr (py "NA")] DQuarantine.
Definition texts (l : list string) : LArray := LArr TString ((fun s => Some (VStr (py s))) <$> l).
Definition amounts_table (ids vals : list string) : LTable := (length ids, [(py "id", texts ids); (py "amount", texts vals)]).
Definition fresh : DeclaredCastRun := open_run [].

Lemma amounts_castable src :
  shape (view src) = [(py "id", TString); (py "amount", TString)] -> castable [amounts] src.
Proof.
  intros Hs. constructor.
  - repeat constructor. set_solver.
  - rewrite <- shape_names, Hs. split; [intros E; by rewrite E in Hs|]. repeat constructor; cbn; set_solver.
  - intros c ->%list_elem_of_singleton. by split.
  - intros c ->%list_elem_of_singleton.
    destruct (shape_get [(py "id", (TString, [])); (py "amount", (TString, []))] (view src) (py "amount") (TString, [])) as (tl & Hg & Ht); [by rewrite Hs|done|].
    exists tl. split; [exact Hg|by rewrite Ht].
Qed.

Definition four : LTable := amounts_table ["a"; "b"; "c"; "d"] ["1"; "x"; "NA"; "300"].
Definition first_two : LTable := amounts_table ["a"; "b"] ["1"; "x"].
Definition last_two : LTable := amounts_table ["c"; "d"] ["NA"; "300"].

Lemma unseen_fresh off : unseen (py "t") SParse off (_ledger fresh).
Proof. split; [set_solver|done]. Qed.

Lemma is_ok_ex {B} (x : result B) : is_ok x = true -> exists b, x = Ok b.
Proof. destruct x; [eauto|discriminate]. Qed.

Lemma cast_partition_independent_witness :
  exists b b1 b2, (cast_batch [amounts] (py "t") four 5 true fresh).2 = Ok b /\
    (cast_two [amounts] (py "t") first_two last_two 5 fresh).2 = Ok (b1, b2) /\
    positions b = positions b1 ++ positions b2.
Proof.
  assert (Hw : is_ok (cast_batch [amounts] (py "t") four 5 true fresh).2 = true) by (vm_compute; reflexivity).
  assert (Ht : is_ok (cast_two [amounts] (py "t") first_two last_two 5 fresh).2 = true) by (vm_compute; reflexivity).
  assert (Hs : splits four first_two last_two) by (split; vm_compute; reflexivity).
  assert (Hc : castable [amounts] four) by (apply amounts_castable; vm_compute; reflexivity).
  destruct (is_ok_ex _ Hw) as [b Hb]. destruct (is_ok_ex _ Ht) as [[b1 b2] Hb12].
  exists b, b1, b2. split; [exact Hb|]. split; [exact Hb12|].
  exact (proj1 (proj2 (proj2 (cast_partition_independent (py "t") [amounts] four first_two last_two 5 fresh Hc Hs (unseen_fresh 5))
    b b1 b2 Hb Hb12))).
Defined.

Lemma cast_batch_typed_witness :
  exists b, cast_batch [amounts] (py "t") four 5 false fresh = (fresh, Ok b) /\ (view (table b)).*1 = [py "id"; py "amount"].
Proof.
  destruct (cast_batch_typed (A:=list_arrow) (py "t") [amounts] four 5 fresh) as (b & H & Hn & _).
  - apply amounts_castable. vm_compute. reflexivity.
  - vm_compute. reflexivity.
  - apply unseen_fresh.
  - exists b. split; [exact H|]. rewrite Hn. vm_compute. reflexivity.
Defined.
