(* ===== verification/CastEvidence.v ===== *)
(** * Declared casting: the evidence of a batch is exact

    Every counter of the ledger after a batch is the number of the batch's cells of
    its kind, and the sink has exactly the rows that were removed, each once, with
    all its reasons and its framed values. *)

From S2P Require Import Prelude PyText PyData CastNumeric CastCatalog CastLedger CastRun CastEvents CastPartition.

(** ** Counting events *)

Definition is_kind (st : stage) (name kind : pystr) (e : event) : bool :=
  bool_decide (event_column e = name) && bool_decide (event_kind st e = kind).

Definition ecount (st : stage) (es : list event) (name kind : pystr) : Z := zlen (List.filter (is_kind st name kind) es).

Lemma ecount_app st es es' name kind : ecount st (es ++ es') name kind = ecount st es name kind + ecount st es' name kind.
Proof. unfold ecount. by rewrite filter_app, zlen_app. Qed.

Lemma fold_counts t st es cs t' name kind :
  default 0 (default ∅ (fold_left (bump_event t st) es cs !! (t', name)) !! kind) =
  default 0 (default ∅ (cs !! (t', name)) !! kind) + (if bool_decide (t' = t) then ecount st es name kind else 0).
Proof.
  revert cs. induction es as [|e es IH]; intros cs; cbn [fold_left].
  { unfold ecount, zlen. cbn. destruct (bool_decide (t' = t)); lia. }
  rewrite IH. unfold bump_event at 1. rewrite bump_count. unfold ecount, is_kind. cbn [List.filter].
  destruct (decide (t' = t)) as [->|Ht].
  - rewrite (bool_decide_eq_true_2 (t = t)) by done.
    destruct (decide (event_column e = name)) as [Hc|Hc]; [rewrite (bool_decide_eq_true_2 _ Hc)|rewrite (bool_decide_eq_false_2 (_ = name)) by done];
      [destruct (decide (event_kind st e = kind)) as [Hk|Hk]; [rewrite (bool_decide_eq_true_2 _ Hk)|rewrite (bool_decide_eq_false_2 (_ = kind)) by done]|];
      cbn [andb].
    + rewrite bool_decide_eq_true_2 by (split; congruence). rewrite zlen_cons. lia.
    + rewrite bool_decide_eq_false_2 by (intros []; congruence). lia.
    + rewrite bool_decide_eq_false_2 by (intros []; congruence). lia.
  - rewrite !(bool_decide_eq_false_2 (t' = t)) by done. rewrite bool_decide_eq_false_2 by (intros []; congruence). lia.
Qed.

(** The counter a cell's verdict adds to. *)
Definition verdict_kind (st : stage) (c : _Col) (m : result verdict) : option pystr :=
  match m with
  | Ok Marked => Some sentinel_counter
  | Ok (Bad _) => Some (counter st (c_policy c))
  | _ => None
  end.

(** How many of a column's cells are of a kind. *)
Definition cells_of_kind (st : stage) (c : _Col) (verd : option cell -> result verdict) (kind : pystr) (vals : list (option cell)) : Z :=
  zlen (List.filter (fun o => bool_decide (verdict_kind st c (verd o) = Some kind)) vals).

Lemma column_count st c verd ps vals name kind :
  length ps = length vals ->
  ecount st (column_events c verd ps vals) name kind =
  if bool_decide (c_name c = name) then cells_of_kind st c verd kind vals else 0.
Proof.
  revert vals. induction ps as [|p ps IH]; intros [|o vals] Hlen; try discriminate.
  { unfold ecount, cells_of_kind. cbn. by destruct (bool_decide _). }
  unfold column_events in *. cbn [zip_with concat]. rewrite ecount_app, IH by (cbn in Hlen; lia).
  unfold ecount, cells_of_kind, events_of. cbn [List.filter].
  destruct (verd o) as [[|v| |reason]|e]; cbn [verdict_kind cell_events List.filter];
    try (rewrite (bool_decide_eq_false_2 (None = Some kind)) by done; by cbn);
    unfold is_kind; cbn [event_column event_kind];
    (destruct (decide (c_name c = name)) as [Hn|Hn]; [rewrite (bool_decide_eq_true_2 _ Hn)|by rewrite (bool_decide_eq_false_2 _ Hn)]);
    cbn [andb].
  - destruct (decide (sentinel_counter = kind)) as [<-|Hk].
    + rewrite !bool_decide_eq_true_2 by done. unfold zlen; cbn [length]; lia.
    + rewrite !bool_decide_eq_false_2 by congruence. cbn. done.
  - destruct (decide (counter st (c_policy c) = kind)) as [<-|Hk].
    + rewrite !bool_decide_eq_true_2 by done. unfold zlen; cbn [length]; lia.
    + rewrite !bool_decide_eq_false_2 by congruence. cbn. done.
Qed.

Lemma batch_count st verd cols off n V name kind :
  NoDup (c_name <$> cols) -> (forall c, c ∈ cols -> length (V (c_name c)) = n) ->
  ecount st (batch_events verd cols off n V) name kind =
  match contract_for cols name with Some c => cells_of_kind st c (verd c) kind (V name) | None => 0 end.
Proof.
  induction cols as [|c cols IH]; intros Hnd HV; [done|]. cbn in Hnd. apply list.NoDup_cons in Hnd as [Hc Hnd].
  change (batch_events verd (c :: cols) off n V)
    with (column_events c (verd c) (prange off n) (V (c_name c)) ++ batch_events verd cols off n V).
  rewrite ecount_app, column_count by (rewrite length_prange; symmetry; apply HV; left).
  rewrite IH by (done || intros; apply HV; by right). unfold contract_for. cbn [find].
  destruct (decide (c_name c = name)) as [<-|Hn]; [rewrite (bool_decide_eq_true_2 (c_name c = c_name c)) by done|by rewrite (bool_decide_eq_false_2 _ Hn)].
  destruct (List.find _ cols) as [c'|] eqn:E; [|lia].
  apply (contract_for_elem cols (c_name c)) in E as [Hin Heq]. exfalso. apply Hc. rewrite <- Heq. by apply list_elem_of_fmap_2.
Qed.

(** ** The rows written *)

Section Evidence.
Context `{A : ArrowOps} {L : ArrowLaws A}.

(** A run on the journal. *)
Abbreviation JRun := (@DeclaredCastRun journal).

Definition entry (l : CastIssueLedger) (t : pystr) (row : Z -> list (pystr * option cell)) (p : Z) : JEntry :=
  MkEntry t p (row_reasons l t p) (row p).

Lemma journal_writes t rawt off row ps (r : JRun) :
  NoDup ps -> (forall p, p ∈ ps -> (t, p) ∉ _written r) -> (forall p, p ∈ ps -> row_of rawt off p = Ok (row p)) ->
  exists r' us, map_cast (write_position t rawt off) ps r = (r', Ok us) /\
    sink r' = sink r ++ (entry (_ledger r) t row <$> ps) /\ _ledger r' = _ledger r.
Proof.
  intros Hnd. revert r. induction Hnd as [|p ps Hp Hnd IH]; intros r Hw Hrow.
  { exists r, []. cbn. by rewrite app_nil_r. }
  assert (E : write_position t rawt off p r =
    (MkRun (_ledger r) (_session r) (_receipt r) (_last_cleanup r) ({[(t, p)]} ∪ _written r) (sink r ++ [entry (_ledger r) t row p]), Ok tt)).
  { unfold write_position. rewrite bool_decide_eq_false_2 by (apply Hw; left). fold (row_of rawt off p).
    rewrite Hrow by left. done. }
  cbn [map_cast]. unfold mbind, cast_bind at 1. rewrite E.
  edestruct IH as (r' & us & Hm & Hs & Hl); cycle 2.
  - exists r', (tt :: us). unfold cast_bind. rewrite Hm. split; [done|]. split; [|exact Hl].
    rewrite Hs. cbn. by rewrite <- app_assoc.
  - cbn. intros q Hq. assert (q <> p) by (by intros ->). assert ((t, q) ∉ _written r) by (apply Hw; by right). set_solver.
  - intros q Hq. apply Hrow. by right.
Qed.

Lemma bad_reasons_quarantine t verd cols V i :
  row_reasons_of t SParse verd cols V i <> [] -> wants_raw cols = true.
Proof.
  intros H. destruct (wants_raw cols) eqn:E; [done|]. exfalso. apply H. clear H.
  unfold wants_raw in E. unfold row_reasons_of. induction cols as [|c cols IH]; [done|]. cbn in E |- *.
  apply orb_false_iff in E as [Ec E]. unfold cell_reasons at 1. rewrite Ec. rewrite (IH E).
  by destruct (verd c _) as [[]|].
Qed.

Lemma gather_prange off n idx :
  Forall (fun i => (i < n)%nat) idx -> gather (prange off n) idx = (fun i => off + Z.of_nat i) <$> idx.
Proof.
  induction 1 as [|i idx Hi _ IH]; [done|]. unfold gather in *. cbn. rewrite prange_lookup by done. by rewrite IH.
Qed.

Lemma journal_write_bad t cols src off (r : JRun) l' :
  (forall p, off <= p -> (t, p) ∉ _written r) ->
  (forall i, (i < num_rows src)%nat -> row_reasons l' t (off + Z.of_nat i) = row_reasons_of t SParse parse_verdict cols (values src) i) ->
  exists r', write_bad t cols src off (set_ledger r l') = (r', Ok tt) /\ _ledger r' = l' /\
    sink r' = sink r ++ ((fun i => MkEntry t (off + Z.of_nat i) (row_reasons_of t SParse parse_verdict cols (values src) i)
      (view_row (view src) i)) <$> bad_rows t cols src).
Proof.
  intros Hw Hr. unfold write_bad. destruct (decide (bad_rows t cols src = [])) as [Hb|Hb].
  { rewrite bool_decide_eq_true_2 by done. exists (set_ledger r l'). split; [done|]. split; [done|]. rewrite Hb. cbn. by rewrite app_nil_r. }
  rewrite bool_decide_eq_false_2 by done. pose proof (filter_seq_range (row_bad t cols src) (num_rows src)) as Hrange.
  fold (bad_rows t cols src) in Hrange. rewrite gather_prange by done.
  assert (Hraw : wants_raw cols = true).
  { destruct (bad_rows t cols src) as [|i js] eqn:E; [done|]. assert (Hi : i ∈ bad_rows t cols src) by (rewrite E; left).
    apply list_elem_of_In, filter_In in Hi as [_ Hi]. unfold row_bad in Hi. apply negb_true_iff, bool_decide_eq_false in Hi.
    by eapply bad_reasons_quarantine. }
  rewrite Hraw. unfold _write_rows, mbind, cast_bind.
  assert (exists r1, begin_session (set_ledger r l') = (r1, Ok tt) /\ _ledger r1 = l' /\ _written r1 = _written r /\ sink r1 = sink r) as (r1 & -> & Hl1 & Hw1 & Hs1).
  { unfold begin_session. cbn. destruct (_session r); eexists; split; try reflexivity; done. }
  destruct (journal_writes t (Some src) off (fun p => view_row (view src) (Z.to_nat (p - off))) ((fun i => off + Z.of_nat i) <$> bad_rows t cols src) r1)
    as (r' & us & -> & Hs & Hl).
  - apply NoDup_fmap_2_strong; [intros; lia|]. apply NoDup_ListNoDup, List.NoDup_filter, NoDup_ListNoDup, NoDup_seq.
  - rewrite Hw1. intros p (i & -> & _)%list_elem_of_fmap. apply Hw. lia.
  - intros p (i & -> & Hi)%list_elem_of_fmap. rewrite list.Forall_forall in Hrange. specialize (Hrange i Hi).
    unfold row_of. replace (Z.to_nat (off + Z.of_nat i - off)) with i by lia. by apply row_at_view.
  - exists r'. split; [done|]. rewrite Hl, Hs, Hs1, Hl1. split; [done|]. f_equal. rewrite <- list_fmap_compose.
    apply list_fmap_ext. intros k i Hi. cbn. unfold entry. replace (Z.to_nat (off + Z.of_nat i - off)) with i by lia.
    rewrite Hr; [done|]. rewrite list.Forall_forall in Hrange. apply Hrange. by eapply list_elem_of_lookup_2.
Qed.

Lemma length_sides {X} (f : X -> bool) l :
  (length (List.filter (fun x => negb (f x)) l) + length (List.filter f l) = length l)%nat.
Proof. induction l as [|x l IH]; [done|]. cbn. destruct (f x); cbn; lia. Qed.

(** C8: the evidence of a batch is exact. Recording a batch no cell of which fails
    the run succeeds; each counter of the ledger grows by exactly the number of the
    batch's cells of its column and kind, and no other counter changes; a row stays
    exactly when no cell quarantines it; and the sink receives exactly the other
    rows, once each and in order, with all their reasons and their source values. *)
Theorem cast_evidence_exact t cols src off (r : JRun) :
  castable cols src -> batch_fatal parse_verdict cols (values src) = false ->
  unseen t SParse off (_ledger r) -> (forall p, off <= p -> (t, p) ∉ _written r) ->
  exists r' b, cast_batch cols t src off true r = (r', Ok b) /\
    (forall t' name kind, count_of (_ledger r') (t', name) kind = count_of (_ledger r) (t', name) kind +
      (if bool_decide (t' = t) then
         match contract_for cols name with
         | Some c => cells_of_kind SParse c (parse_verdict c) kind (values src name)
         | None => 0
         end
       else 0)) /\
    (forall i, (i < num_rows src)%nat ->
      (off + Z.of_nat i ∈ positions b) <-> row_reasons_of t SParse parse_verdict cols (values src) i = []) /\
    sink r' = sink r ++ ((fun i => MkEntry t (off + Z.of_nat i) (row_reasons_of t SParse parse_verdict cols (values src) i)
      (view_row (view src) i)) <$> bad_rows t cols src) /\
    (length (positions b) + length (bad_rows t cols src) = num_rows src)%nat.
Proof.
  intros Hca Hf Hu Hw. destruct (cast_batch_run t cols src off true r Hca Hf Hu) as (l' & b & Hl & _ & Hr & B & ->).
  destruct (journal_write_bad t cols src off r l' Hw Hr) as (r' & -> & Hl' & Hs). exists r', b. split_and!; [done| | |exact Hs|].
  - intros t' name kind. rewrite Hl'. apply log_effect in Hl as (Hc & _). unfold count_of. rewrite Hc, fold_counts.
    rewrite batch_count by (apply Hca || (intros c Hin; by apply (length_values cols))). done.
  - intros i Hi. rewrite (bo_positions _ _ _ _ _ B), gather_prange by apply good_rows_range. rewrite list_elem_of_fmap. split.
    + intros (j & Hj & Hin). replace j with i in Hin by lia. apply list_elem_of_In, filter_In in Hin as [_ Hg].
      unfold row_bad in Hg. rewrite negb_involutive in Hg. by apply bool_decide_eq_true in Hg.
    + intros Hg. exists i. split; [done|]. apply list_elem_of_In, filter_In. split; [apply list_elem_of_In, elem_of_seq; lia|].
      unfold row_bad. by rewrite negb_involutive, bool_decide_eq_true_2.
  - rewrite (bo_positions _ _ _ _ _ B), gather_prange, length_fmap by apply good_rows_range.
    rewrite <- (length_seq (num_rows src) 0). apply length_sides.
Qed.
End Evidence.

(** ** Witness *)

Lemma cast_evidence_exact_witness :
  exists r' b, cast_batch [amounts] (py "t") four 5 true fresh = (r', Ok b) /\ (length (positions b) = 2)%nat /\
    j_row <$> sink r' = [6; 8] /\ count_of (_ledger r') (py "t", py "amount") sentinel_counter = 1.
Proof.
  destruct (cast_evidence_exact (A:=list_arrow) (py "t") [amounts] four 5 fresh) as (r' & b & H & Hc & _ & Hs & Hl).
  - apply amounts_castable. vm_compute. reflexivity.
  - vm_compute. reflexivity.
  - apply unseen_fresh.
  - intros p _. apply not_elem_of_empty.
  - exists r', b. split; [exact H|]. assert (Hb : bad_rows (py "t") [amounts] four = [1; 3]%nat) by (vm_compute; reflexivity).
    rewrite Hb in Hl, Hs. split; [change (length (positions b) + 2 = 4)%nat in Hl; lia|]. split.
    + rewrite Hs. reflexivity.
    + rewrite Hc. vm_compute. reflexivity.
Defined.
