(* ===== verification/ReasonsTheory.v ===== *)
(** * Reason records: validity, totality and the wire round trip

    Every context and record the engine builds is valid against its registry; the
    one parser of untrusted payloads never raises and never believes the payload's
    own semantics; and it reads back exactly what [to_payload] writes. *)

From S2P Require Import Prelude PyText PyData Reasons.

(** ** Contexts *)

(** A valid context, as a proposition. *)
Record valid_context (c : ReasonContext) : Prop := {
  vc_object : ref_ok (object_ref c) = true;
  vc_storage : ref_ok (storage_ref c) = true;
  vc_length : (length (c_counts c) <= 16)%nat;
  vc_counts : Forall (fun kv => count_ok kv = true) (c_counts c);
  vc_identity : identity_ok (original_identity c) = true;
}.

Lemma validate_context_iff c : validate_context c = Ok tt <-> valid_context c.
Proof.
  unfold validate_context. split.
  - intros H. ok_inv. bool_prop. constructor; try done.
    + unfold zlen, MAX_COUNTS in *. lia.
    + apply List.Forall_forall. by apply forallb_forall.
  - intros [Ho Hs Hl Hc Hi]. rewrite Ho, Hs, Hi. unfold zlen, MAX_COUNTS.
    replace (_ >? _) with false by lia. replace (forallb count_ok (c_counts c)) with true; [done|].
    symmetry. apply forallb_forall. by apply List.Forall_forall.
Qed.

Lemma new_context_ok c : valid_context c -> new_context c = Ok c.
Proof. intros H%validate_context_iff. unfold new_context. by rewrite H. Qed.

Lemma new_context_valid c c' : new_context c = Ok c' -> c' = c /\ valid_context c.
Proof. unfold new_context. intros H. destruct (validate_context c) as [[]|] eqn:E; [|discriminate]. injection H as <-. by apply validate_context_iff in E. Qed.

Lemma empty_context_valid : valid_context empty_context.
Proof. by apply validate_context_iff. Qed.

Lemma approve_ref_ok v : ref_ok (approve_ref v) = true.
Proof. destruct v as [| | |s| | |]; try done. cbn. by destruct (safe_ref s) eqn:E. Qed.

Lemma read_identity_ok v : identity_ok (read_identity v) = true.
Proof.
  destruct v as [| | | |l| |]; try done. destruct l as [|[] [|[] []]]; try done. cbn.
  by destruct (safe_identity s && safe_identity s0) eqn:E.
Qed.

(** *** Dictionaries of counts *)

Lemma od_set_elem {V} (d : odict pystr V) k v kv : kv ∈ od_set d k v -> kv = (k, v) \/ (kv ∈ d).
Proof.
  induction d as [|[k' v'] d IH]; cbn; [set_solver|]. case_bool_decide as Hk; [set_solver|].
  intros [->|H]%elem_of_cons; [set_solver|]. apply IH in H. set_solver.
Qed.

Lemma od_set_keys {V} (d : odict pystr V) k v : NoDup (od_keys d) -> NoDup (od_keys (od_set d k v)).
Proof.
  unfold od_keys. induction d as [|[k' v'] d IH]; cbn; [intros _; repeat constructor; set_solver|].
  intros Hnd. apply list.NoDup_cons in Hnd as [Hk Hnd]. case_bool_decide as Heq; cbn; [subst; by constructor|].
  constructor; [|by apply IH]. intros (kv & -> & Hin)%list_elem_of_fmap. apply od_set_elem in Hin as [->|Hin]; [by apply Heq|]. apply Hk. by apply list_elem_of_fmap_2.
Qed.

Lemma set_all_elem {V} (pairs : list (pystr * V)) d kv :
  kv ∈ fold_left (fun d kv => od_set d kv.1 kv.2) pairs d -> (kv ∈ pairs) \/ (kv ∈ d).
Proof.
  revert d. induction pairs as [|[k v] pairs IH]; intros d H; [by right|]. apply IH in H as [H|H]; [left; by right|].
  apply od_set_elem in H as [->|H]; [left; left|by right].
Qed.

Lemma set_all_keys {V} (pairs : list (pystr * V)) d :
  NoDup (od_keys d) -> NoDup (od_keys (fold_left (fun d kv => od_set d kv.1 kv.2) pairs d)).
Proof. revert d. induction pairs as [|[k v] pairs IH]; intros d H; [done|]. apply IH. by apply od_set_keys. Qed.

(** Distinct closed keys: a dictionary of counts is small. *)
Lemma counts_small (d : odict pystr Z) :
  NoDup (od_keys d) -> Forall (fun kv => count_ok kv = true) d -> (length d <= 9)%nat.
Proof.
  intros Hnd Hf. rewrite <- (length_fmap fst d). change 9%nat with (length COUNT_KEYS).
  apply submseteq_length, NoDup_submseteq; [done|]. intros k (kv & -> & Hin)%list_elem_of_fmap.
  rewrite list.Forall_forall in Hf. apply Hf in Hin. unfold count_ok in Hin. by bool_prop.
Qed.

Lemma sorted_Forall {X} `{PyOrdLaws X} (P : X -> Prop) l : Forall P l -> Forall P (sorted l).
Proof. intros HP. by rewrite sorted_perm. Qed.

Lemma dict_of_nodup {V} (pairs : list (pystr * V)) : NoDup pairs.*1 -> dict_of pairs = pairs.
Proof.
  unfold dict_of. intros Hnd. change pairs with ([] ++ pairs) at 2. change pairs with ([] ++ pairs) in Hnd.
  revert Hnd. generalize (@nil (pystr * V)). induction pairs as [|[k v] pairs IH]; intros d Hnd; [by rewrite app_nil_r|].
  cbn. rewrite fmap_app in Hnd. cbn in Hnd. rewrite od_set_new.
  - rewrite IH; [by rewrite <- app_assoc|]. by rewrite <- app_assoc, fmap_app.
  - unfold od_keys. apply list.NoDup_app in Hnd as (_ & H & _). intros Hin. apply (H k Hin). left.
Qed.

(** [merged] of valid contexts is valid. *)
Lemma merged_ok a b : valid_context a -> valid_context b -> exists c, merged a b = Ok c /\ valid_context c.
Proof.
  intros [Hao Has Hal Hac Hai] [Hbo Hbs Hbl Hbc Hbi]. unfold merged. set (d := fold_left _ _ _).
  assert (Hd : Forall (fun kv => count_ok kv = true) d).
  { apply list.Forall_forall. intros kv Hin. rewrite list.Forall_forall in Hac, Hbc.
    apply set_all_elem in Hin as [Hin|Hin]; apply set_all_elem in Hin as [Hin|Hin]; auto; by apply elem_of_nil in Hin. }
  eexists. assert (Hv : valid_context (MkContext (or_str (object_ref b) (object_ref a)) (or_opt (operation b) (operation a))
    (or_str (storage_ref b) (storage_ref a)) (or_opt (publication_state b) (publication_state a))
    (or_opt (cleanup_state b) (cleanup_state a)) (take 16 (sorted d)) (truncated a || truncated b)
    (or_opt (original_identity b) (original_identity a)))).
  { constructor; cbn [object_ref storage_ref c_counts original_identity].
    - unfold or_str. by destruct (object_ref b) as [[]|].
    - unfold or_str. by destruct (storage_ref b) as [[]|].
    - rewrite length_take. lia.
    - apply Forall_take, sorted_Forall, Hd.
    - unfold or_opt. by destruct (original_identity b). }
  split; [by apply new_context_ok|exact Hv].
Qed.

Lemma read_counts_ok d pairs dropped :
  read_counts d = (pairs, dropped) -> Forall (fun kv => count_ok kv = true) pairs /\ (length pairs <= 16)%nat.
Proof.
  unfold read_counts. intros H. assert (Hlen : (length (take 16 d) <= 16)%nat) by (rewrite length_take; lia).
  revert H. generalize (take 16 d), Hlen. intros l Hl.
  cut (forall ps b, Forall (fun kv => count_ok kv = true) ps -> fold_left (fun '(pairs, dropped) kv =>
      match kv.2 with
      | PInt n => if bool_decide (kv.1 ∈ COUNT_KEYS) && _is_count kv.2 then (pairs ++ [(kv.1, n)], dropped) else (pairs, true)
      | _ => (pairs, true)
      end) l (ps, b) = (pairs, dropped) ->
      Forall (fun kv => count_ok kv = true) pairs /\ (length pairs <= length ps + length l)%nat).
  { intros Hc H. destruct (Hc [] false (List.Forall_nil _) H) as [HF HL]. cbn in HL. split; [done|lia]. }
  clear Hl Hlen. induction l as [|[k v] l IH]; intros ps b HF H.
  { cbn in H. injection H as <- <-. split; [done|lia]. }
  cbn [fold_left fst snd] in H. assert (Hskip : forall b', fold_left _ l (ps, b') = (pairs, dropped) -> _) by (intros b' Hb'; exact (IH ps b' HF Hb')).
  destruct v as [| |n| | | |]; try (apply Hskip in H as [? ?]; cbn; split; [done|lia]).
  destruct (bool_decide (k ∈ COUNT_KEYS) && _is_count (PInt n)) eqn:E.
  - apply IH in H as [? HL].
    + rewrite length_app in HL. cbn in HL |- *. split; [done|lia].
    + apply Forall_app. split; [done|]. constructor; [|constructor]. exact E.
  - apply Hskip in H as [? ?]. cbn. split; [done|lia].
Qed.

Lemma context_from_payload_ok v : exists c, context_from_payload v = Ok c /\ valid_context c.
Proof.
  destruct v as [| | | | |d|]; try (exists (MkContext None None None None None [] true None); split; [done|by apply validate_context_iff]).
  unfold context_from_payload.
  set (raw := match dget d "counts" PNone with PDict _ => _ | PNone => _ | _ => _ end).
  assert (Hraw : Forall (fun kv => count_ok kv = true) raw.1 /\ (length raw.1 <= 16)%nat).
  { unfold raw. destruct (dget d "counts" PNone) as [| | | | |rc|]; try (split; [constructor|cbn; lia]).
    destruct (read_counts rc) as [ps b] eqn:E. by apply read_counts_ok in E. }
  destruct raw as [pairs more]. cbn [fst] in Hraw. destruct Hraw as [HF HL]. eexists. split; [apply new_context_ok|].
  all: constructor; cbn; [apply approve_ref_ok|apply approve_ref_ok| |by apply sorted_Forall|apply read_identity_ok].
  all: by rewrite sorted_perm.
Qed.

(** ** The registry *)

Definition same_rule (r r' : PhaseRule) : Prop :=
  r_severity r = r_severity r' /\ r_outcome r = r_outcome r' /\ r_retry r = r_retry r'.

(** Every entry is stored under its own identity and has rules, which agree. The
    code's entries all come from a [Declarer], whose rules do; nothing checks it. *)
Record registry_ok (g : Registry) : Prop := {
  ro_identity i s : od_get (_SPECS g) i = Some s -> spec_identity s = i;
  ro_rules i s : od_get (_SPECS g) i = Some s -> s_rules s <> [];
  ro_uniform i s r r' : od_get (_SPECS g) i = Some s -> r ∈ s_rules s -> r' ∈ s_rules s -> same_rule r r';
}.

Definition diagnostics : list identity :=
  decoy_reason <$> ["reason_record_invalid"; "unsupported_schema_version"; "unknown_reason_from_future";
                    "unexpected_error"; "unregistered_reason"; "run_cancelled"; "publication_failed";
                    "storage_capacity_exhausted"]%string.
Definition has_diagnostics (g : Registry) : Prop := forall i, i ∈ diagnostics -> is_Some (od_get (_SPECS g) i).

Lemma declare_ok g d l g' : _phases d <> [] -> registry_ok g -> declare g (declarer_spec d l) = Ok g' -> registry_ok g'.
Proof.
  intros Hd [Hi Hr Hu] H. unfold declare in H. ok_inv.
  assert (Hrules : s_rules (declarer_spec d l) <> [] /\
    forall r r', r ∈ s_rules (declarer_spec d l) -> r' ∈ s_rules (declarer_spec d l) -> same_rule r r').
  { cbn [s_rules declarer_spec]. set (ps := match l_phases l with Some (p :: ps) => p :: ps | _ => _phases d end). split.
    - intros E%fmap_nil_inv. unfold ps in E. by destruct (l_phases l) as [[|]|].
    - intros r r' (p & -> & _)%list_elem_of_fmap (p' & -> & _)%list_elem_of_fmap. done. }
  constructor; intros i s' *; cbn; rewrite od_get_set; case_bool_decide as E.
  - by intros [= <-].
  - apply Hi.
  - intros [= <-]. apply Hrules.
  - apply Hr.
  - intros [= <-]. apply Hrules.
  - apply Hu.
Qed.

(** Declaring never replaces an entry. *)
Lemma declare_keeps g s g' i x : declare g s = Ok g' -> od_get (_SPECS g) i = Some x -> od_get (_SPECS g') i = Some x.
Proof.
  intros H Hx. unfold declare in H. ok_inv. cbn. rewrite od_get_set. case_bool_decide as E; [|done]. subst i.
  unfold od_has in *. rewrite Hx in *. by rewrite bool_decide_eq_true_2 in Heqb by (by eexists).
Qed.

Lemma declare_all_ok d lines g g' :
  _phases d <> [] -> registry_ok g -> declare_all d lines g = Ok g' -> registry_ok g' /\
  forall i x, od_get (_SPECS g) i = Some x -> od_get (_SPECS g') i = Some x.
Proof.
  intros Hd. unfold declare_all. revert g. induction lines as [|l lines IH]; intros g Hg H; cbn in H; [by injection H as <-|].
  destruct (declare g (declarer_spec d l)) as [g1|] eqn:E; [|discriminate].
  destruct (IH g1) as [Hg' Hk]; [by eapply declare_ok|done|]. split; [done|]. intros i x Hx. by apply Hk, (declare_keeps _ _ _ _ _ E).
Qed.

Lemma no_specs_ok : registry_ok no_specs.
Proof. by constructor. Qed.

(** ** Records *)

Section Valid.
Context (g : Registry) (Hg : registry_ok g).

Lemma rule_for_elem s p r : rule_for s p = Some r -> (r ∈ s_rules s) /\ r_phase r = p.
Proof. intros H. apply find_some in H as [Hin H]. apply bool_decide_eq_true in H. split; [by apply list_elem_of_In|done]. Qed.

(** The rule a record of an entry is checked against, and that it has one. *)
Definition rule_at (s : ReasonSpec) (q : Phase) : result PhaseRule :=
  match rule_for s q with
  | Some rule => Ok rule
  | None => if bool_decide (q = UNKNOWN) then default_rule s else Err (exc "ValueError")
  end.

Definition stated_phase (s : ReasonSpec) (p : Phase) : Phase := if bool_decide (is_Some (rule_for s p)) then p else UNKNOWN.

Lemma stated_rule i s p :
  od_get (_SPECS g) i = Some s ->
  exists rule rule', (match rule_for s p with Some rule => Ok (rule, p) | None => rule ← default_rule s; Ok (rule, UNKNOWN) end) = Ok (rule, stated_phase s p) /\
    rule_at s (stated_phase s p) = Ok rule' /\ same_rule rule rule'.
Proof.
  intros Hs. unfold stated_phase, rule_at, default_rule. destruct (rule_for s p) as [r|] eqn:E.
  { rewrite bool_decide_eq_true_2, E by done. by exists r, r. }
  rewrite bool_decide_eq_false_2 by (by intros []). pose proof (ro_rules _ Hg _ _ Hs) as Hne.
  pose proof (ro_uniform _ Hg i s) as Hu. destruct (s_rules s) as [|r rs] eqn:Er; [done|]. cbn.
  rewrite bool_decide_eq_true_2 by done. destruct (rule_for s UNKNOWN) as [r'|] eqn:Eu.
  - exists r, r'. split_and!; [done|done|]. apply rule_for_elem in Eu as [Hin _]. rewrite Er in Hin.
    apply Hu; [done|left|done].
  - by exists r, r.
Qed.

(** The record the registry states for an identity at a phase. *)
Definition stated (i : identity) (s : ReasonSpec) (p : Phase) (rule : PhaseRule) (ctx : ReasonContext) : ReasonRecord :=
  MkRecord REASON_SCHEMA_VERSION REGISTRY_VERSION i.1 i.2 (s_kind s) (stated_phase s p)
    (r_severity rule) (r_retry rule) (r_outcome rule) ctx.

Lemma for_reason_ok i s p ctx :
  od_get (_SPECS g) i = Some s -> valid_context (default empty_context ctx) ->
  exists rule, rule_at s (stated_phase s p) = Ok rule /\ for_reason g i p ctx = Ok (stated i s p rule (default empty_context ctx)) /\
    validate_record g (stated i s p rule (default empty_context ctx)) = Ok tt.
Proof.
  intros Hs Hc. destruct i as [n c]. destruct (stated_rule (n, c) s p Hs) as (rule & rule' & Hr & Hr' & Hsev & Hout & Hret).
  assert (Hval : validate_record g (stated (n, c) s p rule' (default empty_context ctx)) = Ok tt).
  { unfold validate_record, stated. cbn [schema_version registry_version namespace code kind phase severity retry_class outcome context fst snd].
    rewrite (bool_decide_eq_true_2 (REGISTRY_VERSION = REGISTRY_VERSION)) by done. rewrite Z.eqb_refl. cbn [find negb raise_if mbind result_bind]. rewrite Hs. cbn [of_option mbind result_bind]. fold (rule_at s (stated_phase s p)).
    rewrite Hr'. cbn. rewrite !bool_decide_eq_true_2 by done. by apply validate_context_iff. }
  exists rule'. split; [done|]. split; [|done]. unfold for_reason, get. cbn [fst snd]. rewrite Hs. cbn [of_option mbind result_bind].
  rewrite Hr. cbn [mbind result_bind fst snd]. unfold new_record. rewrite Hsev, Hout, Hret.
  change (MkRecord _ _ _ _ _ _ _ _ _ _) with (stated (n, c) s p rule' (default empty_context ctx)). by rewrite Hval.
Qed.

Lemma with_context_ok r ctx :
  validate_record g r = Ok tt -> valid_context ctx ->
  exists r', with_context g r ctx = Ok r' /\ validate_record g r' = Ok tt /\ (namespace r', code r', phase r') = (namespace r, code r, phase r).
Proof.
  intros Hr Hc. assert (Hrc : valid_context (context r)).
  { apply validate_context_iff. unfold validate_record in Hr. ok_inv. done. }
  destruct (merged_ok _ _ Hrc Hc) as (c & Hm & Hv). unfold with_context, new_record. rewrite Hm. cbn [mbind result_bind].
  set (r' := MkRecord _ _ _ _ _ _ _ _ _ _). assert (Hval : validate_record g r' = Ok tt).
  { apply validate_context_iff in Hv. unfold validate_record in *. cbn [schema_version registry_version namespace code kind phase severity retry_class outcome context r'].
    destruct (raise_if (negb (schema_version r =? _)) _); [|discriminate]. destruct (raise_if (negb (bool_decide (registry_version r = _))) _); [|discriminate].
    cbn [mbind result_bind] in *. destruct (of_option _ _) as [s|]; [|discriminate]. cbn [mbind result_bind] in *.
    destruct (match rule_for s (phase r) with Some _ => _ | None => _ end) as [rule|]; [|discriminate]. cbn [mbind result_bind] in *.
    destruct (raise_if _ _); [|discriminate]. exact Hv. }
  exists r'. rewrite Hval. done.
Qed.
End Valid.

(** ** Untrusted payloads *)

(** The keys of a payload the parser reads. *)
Definition read_keys : list pystr :=
  py <$> ["schema_version"; "registry_version"; "namespace"; "code"; "phase"; "context"]%string.

Lemma dget_set d k x key : k <> py key -> dget (od_set d k x) key PNone = dget d key PNone.
Proof. intros H. unfold dget. by rewrite od_get_set_ne. Qed.

Lemma parse_ignores g d k x : k ∉ read_keys -> parse_payload g (PDict (od_set d k x)) = parse_payload g (PDict d).
Proof. intros Hk. unfold parse_payload. rewrite !dget_set by (intros ->; apply Hk; unfold read_keys; set_solver). done. Qed.

Definition fixed_diagnostic (g : Registry) (r : ReasonRecord) : Prop :=
  ((namespace r, code r) ∈ decoy_reason <$> ["reason_record_invalid"; "unsupported_schema_version"]%string) /\
  context r = empty_context.

Lemma diagnostic_ok g name :
  registry_ok g -> has_diagnostics g -> decoy_reason name ∈ diagnostics -> forall p ctx, valid_context (default empty_context ctx) ->
  exists r, for_reason g (decoy_reason name) p ctx = Ok r /\ validate_record g r = Ok tt /\
    (namespace r, code r) = decoy_reason name /\ context r = default empty_context ctx.
Proof.
  intros Hg Hd Hin p ctx Hc. destruct (Hd _ Hin) as [s Hs]. destruct (for_reason_ok g Hg _ s p ctx Hs Hc) as (rule & _ & H & Hv).
  eexists. split; [exact H|]. split; [exact Hv|done].
Qed.

Lemma parse_diagnostic g name :
  registry_ok g -> has_diagnostics g -> name ∈ ["reason_record_invalid"; "unsupported_schema_version"]%string ->
  exists r, (r ← for_reason g (decoy_reason name) UNKNOWN None; Ok (r, @None pystr)) = Ok (r, None) /\
    validate_record g r = Ok tt /\ fixed_diagnostic g r.
Proof.
  intros Hg Hd Hin. destruct (diagnostic_ok g name Hg Hd) with (p := UNKNOWN) (ctx := @None ReasonContext) as (r & H & Hv & Hi & Hc);
    [unfold diagnostics; set_solver|apply empty_context_valid|].
  exists r. rewrite H. split; [done|]. split; [done|]. split; [|done]. rewrite Hi. by apply list_elem_of_fmap_2.
Qed.

(** C11: the wire parser is total and believes nothing. On any payload, however
    malformed, it returns a record valid against the local registry, so its kind,
    severity, outcome and retry class are the registry's; when compatibility fails
    the record is a fixed diagnostic with no context; and no key but the six it
    reads, in particular no claimed semantics, has any effect. *)
Theorem parse_payload_total g payload :
  registry_ok g -> has_diagnostics g ->
  exists r v, parse_payload g payload = Ok (r, v) /\ validate_record g r = Ok tt /\
    match v with
    | None => fixed_diagnostic g r
    | Some registry => version_major registry = version_major REGISTRY_VERSION
    end /\
    forall d k x, payload = PDict d -> k ∉ read_keys -> parse_payload g (PDict (od_set d k x)) = Ok (r, v).
Proof.
  intros Hg Hd. cut (exists r v, parse_payload g payload = Ok (r, v) /\ validate_record g r = Ok tt /\
    match v with None => fixed_diagnostic g r | Some registry => version_major registry = version_major REGISTRY_VERSION end).
  { intros (r & v & H & Hv & Hm). exists r, v. split_and!; [done|done|done|]. intros d k x -> Hk. by rewrite parse_ignores. }
  assert (Hdiag : forall name, name ∈ ["reason_record_invalid"; "unsupported_schema_version"]%string ->
    exists r v, (r ← for_reason g (decoy_reason name) UNKNOWN None; Ok (r, @None pystr)) = Ok (r, v) /\ validate_record g r = Ok tt /\
      match v with None => fixed_diagnostic g r | Some registry => version_major registry = version_major REGISTRY_VERSION end).
  { intros name Hin. destruct (parse_diagnostic g name Hg Hd Hin) as (r & H & Hv & Hf). exists r, None. done. }
  destruct payload as [| | | | |d|]; try (apply Hdiag; left).
  assert (Hun := Hdiag "unsupported_schema_version"%string ltac:(right; left)). unfold parse_payload.
  destruct (is_schema_1 _); [|exact Hun]. destruct (dget d "registry_version" PNone) as [| | |registry| | |]; try exact Hun.
  destruct (version_major registry) as [a|] eqn:Ea; [|exact Hun].
  destruct (version_major REGISTRY_VERSION) as [b|] eqn:Eb; [|exact Hun].
  destruct (decide (a = b)) as [->|Hne]; [rewrite bool_decide_eq_true_2 by done|rewrite bool_decide_eq_false_2 by done; exact Hun].
  cbn [negb]. destruct (context_from_payload_ok (dget d "context" PNone)) as (ctx & Hctx & Hvc).
  rewrite Hctx. cbn [mbind result_bind].
  destruct (match dget d "namespace" PNone with PStr n => _ | _ => None end) as [s|] eqn:Ef.
  - assert (Hs : od_get (_SPECS g) (spec_identity s) = Some s).
    { destruct (dget d "namespace" PNone) as [| | |n| | |]; try discriminate. unfold find in Ef.
      destruct (dget d "code" PNone) as [| | |c| | |]; try discriminate. by rewrite (ro_identity _ Hg _ _ Ef). }
    destruct (for_reason_ok g Hg _ s (default UNKNOWN (_enum_or_none Phases (dget d "phase" PNone))) (Some ctx) Hs Hvc) as (rule & _ & -> & Hv).
    eexists _, (Some registry). split; [reflexivity|]. split; [exact Hv|]. by rewrite Ea.
  - clear Ef. match goal with |- context [match ?i with Some _ => _ | None => Ok ctx end] => set (ident := i) end.
    assert (Hm : exists ctx', (match ident with Some i => fallback ← build [] (Some i); merged ctx fallback | None => Ok ctx end) = Ok ctx' /\ valid_context ctx').
    { assert (Hi : identity_ok ident = true).
      { unfold ident. destruct (dget d "namespace" PNone) as [| | |n| | |], (dget d "code" PNone) as [| | |c| | |]; try done.
        by destruct (safe_identity n && safe_identity c) eqn:E. }
      destruct ident as [i|]; [|by exists ctx]. unfold build.
      assert (Hfb : valid_context (MkContext None None None None None (sorted []) false (Some i))) by (constructor; try done; cbn; lia).
      rewrite (new_context_ok _ Hfb). cbn [mbind result_bind]. by apply merged_ok. }
    destruct Hm as (ctx' & -> & Hvc'). cbn [mbind result_bind].
    destruct (diagnostic_ok g "unknown_reason_from_future" Hg Hd) with (p := default UNKNOWN (_enum_or_none Phases (dget d "phase" PNone))) (ctx := Some ctx')
      as (r & -> & Hv & _); [unfold diagnostics; set_solver|done|].
    exists r, (Some registry). split; [done|]. split; [done|]. by rewrite Ea.
Qed.

(** ** The wire round trip *)

Lemma enum_round_trip :
  (forall p, enum_of Phases (value_of_enum Phases p) = Some p) /\
  (forall o, enum_of Operations (value_of_enum Operations o) = Some o) /\
  (forall s, enum_of PublicationStates (value_of_enum PublicationStates s) = Some s) /\
  (forall s, enum_of CleanupStates (value_of_enum CleanupStates s) = Some s).
Proof. split_and!; by intros []. Qed.

(** A context with its counts in order under distinct keys: what [build],
    [from_payload] and [merged] produce. *)
Definition canonical (c : ReasonContext) : Prop := sorted (c_counts c) = c_counts c /\ NoDup (c_counts c).*1.

Lemma approve_ref_back o : ref_ok o = true -> approve_ref (opt_str o) = o.
Proof. destruct o as [s|]; [|done]. cbn. by intros ->. Qed.

Lemma opt_enum_back {E} `{EqDecision E} (members : list (E * string)) :
  (forall e, enum_of members (value_of_enum members e) = Some e) -> forall o, _enum_or_none members (opt_enum members o) = o.
Proof. intros H [e|]; [|done]. cbn. apply H. Qed.

Lemma read_counts_back (l : list (pystr * Z)) :
  Forall (fun kv => count_ok kv = true) l -> (length l <= 16)%nat ->
  read_counts ((fun kv => (kv.1, PInt kv.2)) <$> l) = (l, false).
Proof.
  intros HF Hl. unfold read_counts. rewrite take_ge by (by rewrite length_fmap). clear Hl.
  match goal with |- fold_left ?f _ _ = _ =>
    cut (forall ps, fold_left f ((fun kv => (kv.1, PInt kv.2)) <$> l) (ps, false) = (ps ++ l, false)); [intros H; exact (H [])|] end.
  induction HF as [|[k n] l Hk HF IH]; intros ps; [by rewrite app_nil_r|].
  cbn [fmap list_fmap fold_left fst snd _is_count]. unfold count_ok in Hk. cbn [fst snd] in Hk. rewrite Hk, IH. by rewrite <- app_assoc.
Qed.

(** What the parser reads of a context's payload. *)
Record context_fields (c : ReasonContext) (d : list (pystr * pyval)) : Prop := {
  cf_truncated : dget d "truncated" PNone = PBool (truncated c);
  cf_counts : dget d "counts" PNone = PDict ((fun kv => (kv.1, PInt kv.2)) <$> c_counts c);
  cf_object : dget d "object_ref" PNone = opt_str (object_ref c);
  cf_storage : dget d "storage_ref" PNone = opt_str (storage_ref c);
  cf_operation : dget d "operation" PNone = opt_enum Operations (operation c);
  cf_publication : dget d "publication_state" PNone = opt_enum PublicationStates (publication_state c);
  cf_cleanup : dget d "cleanup_state" PNone = opt_enum CleanupStates (cleanup_state c);
  cf_original : dget d "original_identity" PNone =
    match original_identity c with Some i => PList [PStr i.1; PStr i.2] | None => PNone end;
}.

Lemma context_read c d : valid_context c -> canonical c -> context_fields c d -> context_from_payload (PDict d) = Ok c.
Proof.
  intros Hv [Hs Hnd] [Htr Hcn Hob Hst Hop Hpu Hcl Hor]. assert (Hval := proj2 (validate_context_iff c) Hv).
  destruct Hv as [Ho Hst' Hl Hc Hi]. destruct enum_round_trip as (_ & Eop & Eps & Ecs).
  unfold context_from_payload. rewrite Htr, Hcn, Hob, Hst, Hop, Hpu, Hcl, Hor.
  rewrite read_counts_back by done. rewrite !approve_ref_back by done. rewrite !opt_enum_back by done. rewrite Hs.
  unfold zlen, MAX_COUNTS. rewrite length_fmap. replace (_ >? 16) with false by lia. cbn [orb]. rewrite orb_false_r.
  assert (read_identity (match original_identity c with Some i => PList [PStr i.1; PStr i.2] | None => PNone end) = original_identity c) as ->.
  { destruct (original_identity c) as [[a b]|]; [|done]. cbn in Hi |- *. by rewrite Hi. }
  destruct c as [? ? ? ? ? ? ? ?]. unfold new_context. cbn in *. by rewrite Hval.
Qed.

(** The payload [context_to_payload] writes. *)
Definition context_items (c : ReasonContext) : list (pystr * pyval) := [
    (py "object_ref", opt_str (object_ref c));
    (py "operation", opt_enum Operations (operation c));
    (py "storage_ref", opt_str (storage_ref c));
    (py "publication_state", opt_enum PublicationStates (publication_state c));
    (py "cleanup_state", opt_enum CleanupStates (cleanup_state c));
    (py "counts", PDict ((fun kv => (kv.1, PInt kv.2)) <$> c_counts c));
    (py "truncated", PBool (truncated c));
    (py "original_identity", match original_identity c with Some i => PList [PStr i.1; PStr i.2] | None => PNone end) ].

Lemma context_written c : valid_context c -> canonical c -> context_to_payload c = Ok (PDict (context_items c)).
Proof.
  intros Hv [Hs Hnd]. unfold context_to_payload. rewrite (proj2 (validate_context_iff c) Hv). cbn [mbind result_bind]. by rewrite dict_of_nodup.
Qed.

Lemma context_items_fields c : context_fields c (context_items c).
Proof. by constructor. Qed.

Lemma registry_version_read : exists major, version_major REGISTRY_VERSION = Some major.
Proof. eexists. vm_compute. reflexivity. Qed.

(** What the parser reads of a record's payload. *)
Record record_fields (r : ReasonRecord) (d : list (pystr * pyval)) : Prop := {
  rf_schema : dget d "schema_version" PNone = PInt REASON_SCHEMA_VERSION;
  rf_registry : dget d "registry_version" PNone = PStr REGISTRY_VERSION;
  rf_namespace : dget d "namespace" PNone = PStr (namespace r);
  rf_code : dget d "code" PNone = PStr (code r);
  rf_phase : dget d "phase" PNone = PStr (value_of_enum Phases (phase r));
  rf_context : context_from_payload (dget d "context" PNone) = Ok (context r);
}.

(** A valid record is what its registry entry states. *)
Lemma valid_record_stated g r :
  registry_ok g -> validate_record g r = Ok tt ->
  exists s rule, od_get (_SPECS g) (namespace r, code r) = Some s /\ rule_at s (phase r) = Ok rule /\ stated_phase s (phase r) = phase r /\
    r = stated (namespace r, code r) s (phase r) rule (context r) /\ valid_context (context r).
Proof.
  intros Hg Hv'. unfold validate_record in Hv'.
  destruct (raise_if (negb (schema_version r =? _)) _) eqn:E1; [|discriminate].
  destruct (raise_if (negb (bool_decide (registry_version r = _))) _) eqn:E2; [|discriminate]. cbn [mbind result_bind find] in Hv'.
  destruct (od_get (_SPECS g) (namespace r, code r)) as [s|] eqn:Es; [|discriminate]. cbn [of_option mbind result_bind] in Hv'.
  fold (rule_at s (phase r)) in Hv'. destruct (rule_at s (phase r)) as [rule|] eqn:Er; [|discriminate]. cbn [mbind result_bind] in Hv'.
  destruct (raise_if _ _) eqn:E3 in Hv'; [|discriminate]. cbn [mbind result_bind] in Hv'. apply validate_context_iff in Hv'. ok_inv. bool_prop.
  assert (Hph : stated_phase s (phase r) = phase r).
  { unfold stated_phase, rule_at in *. destruct (rule_for s (phase r)) as [r0|]; [by rewrite bool_decide_eq_true_2|].
    rewrite bool_decide_eq_false_2 by (by intros []). by destruct (decide (phase r = UNKNOWN)); [|rewrite bool_decide_eq_false_2 in Er]. }
  exists s, rule. split_and!; try done. unfold stated. rewrite Hph. cbn [fst snd]. destruct r; cbn in *. by subst.
Qed.

Lemma to_payload_total g r : registry_ok g -> validate_record g r = Ok tt -> exists p, to_payload g r = Ok p.
Proof.
  intros Hg Hv. destruct (valid_record_stated g r Hg Hv) as (s & rule & Es & Er & _ & _ & Hc).
  unfold to_payload. rewrite Hv. cbn [mbind result_bind]. unfold get. rewrite Es. cbn [of_option mbind result_bind].
  assert (Hrule : (match rule_for s (phase r) with Some rule => Ok rule | None => default_rule s end) = Ok rule).
  { unfold rule_at in Er. destruct (rule_for s (phase r)); [done|]. by destruct (bool_decide (phase r = UNKNOWN)). }
  rewrite Hrule. cbn [mbind result_bind]. unfold context_to_payload. rewrite (proj2 (validate_context_iff _) Hc). by eexists.
Qed.

Lemma record_read g r d : registry_ok g -> validate_record g r = Ok tt -> record_fields r d -> parse_payload g (PDict d) = Ok (r, Some REGISTRY_VERSION).
Proof.
  intros Hg Hv [H1 H2 H3 H4 H5 H6]. destruct (valid_record_stated g r Hg Hv) as (s & rule & Es & Er & Hph & Hr & Hc).
  assert (Hid : spec_identity s = (namespace r, code r)) by (by apply (ro_identity _ Hg)).
  unfold parse_payload. rewrite H1, H2, H3, H4, H5, H6. cbn [is_schema_1]. rewrite Z.eqb_refl. destruct registry_version_read as [major ->].
  rewrite (bool_decide_eq_true_2 (major = major)) by done. cbn [negb mbind result_bind find]. rewrite Es.
  unfold _enum_or_none. destruct enum_round_trip as (-> & _). cbn [default from_option id]. rewrite Hid.
  destruct (for_reason_ok g Hg (namespace r, code r) s (phase r) (Some (context r)) Es Hc) as (rule' & Hr' & -> & _).
  rewrite Hph, Er in Hr'. injection Hr' as <-. cbn [mbind result_bind default from_option id]. by rewrite <- Hr.
Qed.

(** The payload [to_payload] writes. *)
Definition record_items (r : ReasonRecord) : list (pystr * pyval) := [
    (py "schema_version", PInt REASON_SCHEMA_VERSION);
    (py "registry_version", PStr REGISTRY_VERSION);
    (py "namespace", PStr (namespace r));
    (py "code", PStr (code r));
    (py "kind", PStr (value_of_enum Kinds (kind r)));
    (py "phase", PStr (value_of_enum Phases (phase r)));
    (py "severity", PStr (value_of_enum Severities (severity r)));
    (py "retry_class", PStr (value_of_enum RetryClasses (retry_class r)));
    (py "outcome", PStr (value_of_enum Outcomes (outcome r)));
    (py "context", PDict (context_items (context r))) ].

Lemma record_written g r :
  registry_ok g -> validate_record g r = Ok tt -> canonical (context r) -> to_payload g r = Ok (PDict (record_items r)).
Proof.
  intros Hg Hv Hcan. destruct (valid_record_stated g r Hg Hv) as (s & rule & Es & Er & Hph & Hr & Hc).
  assert (Hid : spec_identity s = (namespace r, code r)) by (by apply (ro_identity _ Hg)). injection Hid as Hn Hcd.
  assert (Hrule : (match rule_for s (phase r) with Some rule => Ok rule | None => default_rule s end) = Ok rule).
  { unfold rule_at in Er. destruct (rule_for s (phase r)); [done|]. by destruct (bool_decide (phase r = UNKNOWN)). }
  unfold to_payload. rewrite Hv. cbn [mbind result_bind]. unfold get. rewrite Es. cbn [of_option mbind result_bind]. rewrite Hrule.
  cbn [mbind result_bind]. rewrite context_written by done. cbn [mbind result_bind]. unfold record_items. rewrite Hn, Hcd.
  assert (kind r = s_kind s /\ severity r = r_severity rule /\ retry_class r = r_retry rule /\ outcome r = r_outcome rule) as (-> & -> & -> & ->) by (by rewrite Hr).
  done.
Qed.

Lemma record_items_fields r : valid_context (context r) -> canonical (context r) -> record_fields r (record_items r).
Proof. intros Hv Hc. constructor; try done. apply context_read; [done|done|apply context_items_fields]. Qed.

(** the wire form of a record reads back. A valid record whose context is in
    the canonical form every builder produces is written, and the parser returns
    exactly it, with the version of the registry that wrote it. *)
Theorem record_round_trip g r :
  registry_ok g -> validate_record g r = Ok tt -> canonical (context r) ->
  exists p, to_payload g r = Ok p /\ parse_payload g p = Ok (r, Some REGISTRY_VERSION).
Proof.
  intros Hg Hv Hcan. eexists. split; [by apply record_written|]. apply record_read; [done|done|].
  destruct (valid_record_stated g r Hg Hv) as (_ & _ & _ & _ & _ & _ & Hc). by apply record_items_fields.
Qed.

(** ** Witnesses *)

Definition the_registry : Registry := match decoy_registry with Ok g => g | Err _ => no_specs end.

Lemma the_registry_ok : registry_ok the_registry /\ has_diagnostics the_registry.
Proof.
  split.
  - assert (H : decoy_registry = Ok the_registry) by (vm_compute; reflexivity).
    apply declare_all_ok in H as [H _]; [exact H|done|apply no_specs_ok].
  - intros i Hi. assert (Hall : Forall (fun i => is_Some (od_get (_SPECS the_registry) i)) diagnostics) by by_decide.
    rewrite list.Forall_forall in Hall. by apply Hall.
Qed.

(** The catalog's own integrity check finds nothing. *)
Lemma decoy_integrity : check_integrity the_registry = [].
Proof. vm_compute. reflexivity. Qed.

Definition forged : pyval :=
  PDict [(py "schema_version", PInt 1); (py "registry_version", PStr (py "1.99.0")); (py "namespace", PStr (py "decoy"));
         (py "code", PStr (py "cleanup_failed")); (py "retry_class", PStr (py "retry_operation"))].

Lemma parse_payload_total_witness :
  exists r v, parse_payload the_registry forged = Ok (r, v) /\ validate_record the_registry r = Ok tt /\ retry_class r = ENVIRONMENT_REPAIR.
Proof.
  destruct (parse_payload_total the_registry forged (proj1 the_registry_ok) (proj2 the_registry_ok)) as (r & v & H & Hv & _).
  exists r, v. split; [exact H|]. split; [exact Hv|].
  assert (E : match parse_payload the_registry forged with Ok (r, _) => retry_class r | Err _ => NEVER end = ENVIRONMENT_REPAIR) by (vm_compute; reflexivity).
  rewrite H in E. exact E.
Defined.

Definition full_disk : ReasonRecord :=
  MkRecord 1 REGISTRY_VERSION (py "decoy") (py "storage_capacity_exhausted") FAILURE PUBLISH ERROR ENVIRONMENT_REPAIR PUBLICATION
    (MkContext (Some (py "orders")) (Some WRITE) None (Some NOT_PUBLISHED) (Some CONFIRMED) [(py "bytes", 512); (py "rows", 7)] false None).

Lemma record_round_trip_witness :
  exists p, to_payload the_registry full_disk = Ok p /\ parse_payload the_registry p = Ok (full_disk, Some REGISTRY_VERSION).
Proof.
  apply (record_round_trip the_registry full_disk).
  - apply the_registry_ok.
  - vm_compute. reflexivity.
  - split; [vm_compute; reflexivity|by_decide].
Defined.
