(* ===== verification/Json.v ===== *)
(** * JSON text (the standard library's [json])

    [json.dumps(v, sort_keys=True)] with its default separators and ASCII escapes,
    and [json.loads], over values whose object keys are strings. A finite float is
    a value of the class [PyFloat], with its [repr] and the [float] of a lexeme;
    the interpreter's limit on the digits of an integer is not modelled. *)

From S2P Require Import Prelude Numerals PyText PyData.

(** ** Floats *)

Class PyFloat := {
  ffloat : Type;                                (* the finite floats *)
  ffloat_eq_dec :: EqDecision ffloat;
  float_repr : ffloat -> pystr;
  float_of : pystr -> ffloat;
}.

Definition digit (c : Z) : bool := (48 <=? c) && (c <=? 57).

(** The number pattern with a fraction or an exponent: an optional minus, a whole part
    without leading zeros, an optional fraction and an optional exponent. *)
Record float_lexeme (s : pystr) : Prop := {
  lx_parts : exists sign whole fraction exponent, s = sign ++ whole ++ fraction ++ exponent /\
    (sign = [] \/ sign = [45]) /\
    (whole = [48] \/ exists d ds, whole = d :: ds /\ 49 <= d <= 57 /\ forallb digit ds = true) /\
    (fraction = [] \/ exists ds, fraction = 46 :: ds /\ ds <> [] /\ forallb digit ds = true) /\
    (exponent = [] \/ exists e sg ds, exponent = e :: sg ++ ds /\ (e = 101 \/ e = 69) /\ (sg = [] \/ sg = [43] \/ sg = [45]) /\
       ds <> [] /\ forallb digit ds = true) /\
    ~ (fraction = [] /\ exponent = [])
}.

Class PyFloatLaws (F : PyFloat) : Prop := {
  float_repr_lexeme f : float_lexeme (float_repr f);
  float_repr_short f : zlen (float_repr f) <= 32;
  float_of_repr f : float_of (float_repr f) = f;
}.

(** The separators: [json.dumps]'s own, [", "] and [": "], or the compact ones of
    [separators=(",", ":")]. The first is what [dumps] uses unless told otherwise. *)
Inductive spacing := spaced | compact.
Existing Class spacing.
#[global] Instance default_spacing : spacing := spaced.
Definition gap (sp : spacing) : pystr := match sp with spaced => [32] | compact => [] end.

Section Json.
Context `{F : PyFloat} {sp : spacing}.

Inductive pyfloat := Finite (f : ffloat) | NaN | Infinity (negative : bool).

#[global] Instance pyfloat_eq_dec : EqDecision pyfloat.
Proof. solve_decision. Defined.

Inductive json :=
| JNull
| JBool (b : bool)
| JInt (n : Z)
| JFloat (f : pyfloat)
| JStr (s : pystr)
| JArr (l : list json)
| JObj (d : list (pystr * json)).

(** ** Writing *)

Definition hex_char (d : Z) : Z := if d <? 10 then 48 + d else 87 + d.
Definition u_escape (n : Z) : pystr := 92 :: 117 :: (hex_char <$> pos_digits 16 4 n).

(** [ESCAPE_DCT.get] and [py_encode_basestring_ascii]'s replacement of one character. *)
Definition escape_char (c : Z) : pystr :=
  if c =? 92 then [92; 92] else if c =? 34 then [92; 34] else if c =? 8 then [92; 98] else if c =? 12 then [92; 102]
  else if c =? 10 then [92; 110] else if c =? 13 then [92; 114] else if c =? 9 then [92; 116]
  else if (32 <=? c) && (c <=? 126) then [c]
  else if c <? 65536 then u_escape c
  else let n := c - 65536 in u_escape (55296 + n / 1024) ++ u_escape (56320 + n mod 1024).

Definition json_str (s : pystr) : pystr := 34 :: (s ≫= escape_char) ++ [34].

Definition float_text (f : pyfloat) : pystr :=
  match f with
  | Finite f => float_repr f
  | NaN => py "NaN"
  | Infinity negative => (if negative then [45] else []) ++ py "Infinity"
  end.

(** [item_separator.join(l)] *)
Fixpoint comma_join (l : list pystr) : pystr :=
  match l with [] => [] | [x] => x | x :: l' => x ++ 44 :: gap sp ++ comma_join l' end.

Fixpoint dumps (v : json) : pystr :=
  match v with
  | JNull => py "null"
  | JBool b => if b then py "true" else py "false"
  | JInt n => str_int n
  | JFloat f => float_text f
  | JStr s => json_str s
  | JArr l => 91 :: comma_join (map dumps l) ++ [93]
  | JObj d =>
      let items := sorted_by fst (map (fun kv => (kv.1, dumps kv.2)) d) in
      123 :: comma_join ((fun kt => json_str kt.1 ++ 58 :: gap sp ++ kt.2) <$> items) ++ [125]
  end.

(** ** Reading *)

Fixpoint skip_ws (s : pystr) : pystr :=
  match s with
  | c :: s' => if (c =? 32) || (c =? 9) || (c =? 10) || (c =? 13) then skip_ws s' else s
  | [] => []
  end.

Definition hex_value (c : Z) : option Z :=
  if digit c then Some (c - 48)
  else if (97 <=? c) && (c <=? 102) then Some (c - 87)
  else if (65 <=? c) && (c <=? 70) then Some (c - 55)
  else None.
Definition hex4 (a b c d : Z) : option Z :=
  a ← hex_value a; b ← hex_value b; c ← hex_value c; d ← hex_value d; Some (((a * 16 + b) * 16 + c) * 16 + d).

Definition simple_escape (c : Z) : option Z :=
  if c =? 34 then Some 34 else if c =? 92 then Some 92 else if c =? 47 then Some 47 else if c =? 98 then Some 8
  else if c =? 102 then Some 12 else if c =? 110 then Some 10 else if c =? 114 then Some 13 else if c =? 116 then Some 9
  else None.

Definition high_surrogate (n : Z) : bool := (55296 <=? n) && (n <=? 56319).
Definition low_surrogate (n : Z) : bool := (56320 <=? n) && (n <=? 57343).

(** [scanstring]: the characters up to the closing quote, and the rest. *)
Fixpoint scan_string (s : pystr) : option (pystr * pystr) :=
  match s with
  | [] => None
  | c :: s1 =>
      if c =? 34 then Some ([], s1)
      else if c =? 92 then
        match s1 with
        | [] => None
        | e :: s2 =>
            if e =? 117 then
              match s2 with
              | a1 :: b1 :: c1 :: d1 :: s3 =>
                  match hex4 a1 b1 c1 d1 with
                  | None => None
                  | Some n =>
                      let alone := match scan_string s3 with Some (t, r) => Some (n :: t, r) | None => None end in
                      match s3 with
                      | b :: u :: a2 :: b2 :: c2 :: d2 :: s4 =>
                          if high_surrogate n && (b =? 92) && (u =? 117) then
                            match hex4 a2 b2 c2 d2 with
                            | Some m =>
                                if low_surrogate m then
                                  match scan_string s4 with
                                  | Some (t, r) => Some (65536 + ((n - 55296) * 1024 + (m - 56320)) :: t, r)
                                  | None => None
                                  end
                                else alone
                            | None => None
                            end
                          else alone
                      | _ => alone
                      end
                  end
              | _ => None
              end
            else
              match simple_escape e, scan_string s2 with
              | Some x, Some (t, r) => Some (x :: t, r)
              | _, _ => None
              end
        end
      else if c <? 32 then None
      else match scan_string s1 with Some (t, r) => Some (c :: t, r) | None => None end
  end.

(** The digits a text starts with, and the rest. *)
Fixpoint digits_of (s : pystr) : pystr * pystr :=
  match s with
  | c :: s' => if digit c then let '(a, b) := digits_of s' in (c :: a, b) else ([], s)
  | [] => ([], [])
  end.

Definition fraction_of (s : pystr) : pystr * pystr :=
  match s with
  | c :: s' => if c =? 46 then match digits_of s' with (d :: ds, r) => (46 :: d :: ds, r) | _ => ([], s) end else ([], s)
  | [] => ([], [])
  end.

Definition exponent_of (s : pystr) : pystr * pystr :=
  match s with
  | c :: s' =>
      if (c =? 101) || (c =? 69) then
        let '(sg, s2) := match s' with x :: s2 => if (x =? 43) || (x =? 45) then ([x], s2) else ([], s') | [] => ([], s') end in
        match digits_of s2 with (d :: ds, r) => (c :: sg ++ d :: ds, r) | _ => ([], s) end
      else ([], s)
  | [] => ([], [])
  end.

(** [NUMBER_RE.match], and the value of what it matched. *)
Definition number (s : pystr) : option (json * pystr) :=
  let '(sign, s1) := match s with c :: s' => if c =? 45 then ([45], s') else ([], s) | [] => ([], s) end in
  match s1 with
  | c :: s2 =>
      if digit c then
        let '(ds, s3) := if c =? 48 then ([], s2) else digits_of s2 in
        let '(fr, s4) := fraction_of s3 in
        let '(ex, s5) := exponent_of s4 in
        let whole := c :: ds in
        let v := match fr, ex with
                 | [], [] => JInt (if bool_decide (sign = []) then int_digits whole else - int_digits whole)
                 | _, _ => JFloat (Finite (float_of (sign ++ whole ++ fr ++ ex)))
                 end in
        Some (v, s5)
      else None
  | [] => None
  end.

(** What is left after a literal the text starts with. *)
Fixpoint after (lit s : pystr) : option pystr :=
  match lit, s with
  | [], _ => Some s
  | c :: lit', x :: s' => if c =? x then after lit' s' else None
  | _ :: _, [] => None
  end.

Definition literals : list (pystr * json) :=
  [(py "null", JNull); (py "true", JBool true); (py "false", JBool false)].
Definition constants : list (pystr * json) :=
  [(py "NaN", JFloat NaN); (py "Infinity", JFloat (Infinity false)); (py "-Infinity", JFloat (Infinity true))].
Fixpoint literal (ls : list (pystr * json)) (s : pystr) : option (json * pystr) :=
  match ls with
  | [] => None
  | (t, v) :: ls' => match after t s with Some r => Some (v, r) | None => literal ls' s end
  end.

Section Containers.
Context (value : pystr -> option (json * pystr)).

(** [JSONArray] after its first non-blank character, which is not the bracket. *)
Fixpoint elements (n : nat) (s : pystr) : option (list json * pystr) :=
  match n with
  | O => None
  | S n =>
      '(v, r) ← value s;
      match skip_ws r with
      | c :: r' => if c =? 93 then Some ([v], r')
                   else if c =? 44 then '(vs, r'') ← elements n (skip_ws r'); Some (v :: vs, r'')
                   else None
      | [] => None
      end
  end.

(** [JSONObject] after its first non-blank character, which is not the brace. *)
Fixpoint members (n : nat) (s : pystr) : option (list (pystr * json) * pystr) :=
  match n, s with
  | S n, q :: s1 =>
      if q =? 34 then
        '(k, r) ← scan_string s1;
        match skip_ws r with
        | c :: r1 =>
            if c =? 58 then
              '(v, r2) ← value (skip_ws r1);
              match skip_ws r2 with
              | e :: r3 => if e =? 125 then Some ([(k, v)], r3)
                           else if e =? 44 then '(kvs, r4) ← members n (skip_ws r3); Some ((k, v) :: kvs, r4)
                           else None
              | [] => None
              end
            else None
        | [] => None
        end
      else None
  | _, _ => None
  end.
End Containers.

(** [scan_once] *)
Fixpoint value (fuel : nat) (s : pystr) : option (json * pystr) :=
  match fuel, s with
  | S fuel, c :: r =>
      if c =? 34 then '(t, r') ← scan_string r; Some (JStr t, r')
      else if c =? 123 then
        match skip_ws r with
        | x :: r' => if x =? 125 then Some (JObj [], r')
                     else '(kvs, r'') ← members (value fuel) (length s) (skip_ws r); Some (JObj (od_of kvs), r'')
        | [] => None
        end
      else if c =? 91 then
        match skip_ws r with
        | x :: r' => if x =? 93 then Some (JArr [], r')
                     else '(vs, r'') ← elements (value fuel) (length s) (skip_ws r); Some (JArr vs, r'')
        | [] => None
        end
      else
        match literal literals s with
        | Some out => Some out
        | None => match number s with Some out => Some out | None => literal constants s end
        end
  | _, _ => None
  end.

(** [json.loads] of a text: a JSONDecodeError is a ValueError. *)
Definition loads (s : pystr) : result json :=
  match value (S (length s)) (skip_ws s) with
  | Some (v, r) => match skip_ws r with [] => Ok v | _ => Err (exc "ValueError") end
  | None => Err (exc "ValueError")
  end.

(** ** Reading octets *)

Definition byte_at (b : bytes) (i : nat) : Z := default 0 (b !! i).
Fixpoint starts_with (p b : bytes) : bool :=
  match p, b with [], _ => true | x :: p', y :: b' => (x =? y) && starts_with p' b' | _ :: _, [] => false end.

Inductive json_encoding := UTF8 | UTF8_SIG | UTF16 (big : bool) | UTF32 (big : bool).

(** [json.detect_encoding], and how many octets of a byte order mark are skipped. *)
Definition detect_encoding (b : bytes) : json_encoding * nat :=
  if starts_with [0; 0; 254; 255] b then (UTF32 true, 4%nat)
  else if starts_with [255; 254; 0; 0] b then (UTF32 false, 4%nat)
  else if starts_with [254; 255] b then (UTF16 true, 2%nat)
  else if starts_with [255; 254] b then (UTF16 false, 2%nat)
  else if starts_with [239; 187; 191] b then (UTF8_SIG, 3%nat)
  else if (4 <=? length b)%nat then
    if byte_at b 0 =? 0 then (if byte_at b 1 =? 0 then UTF32 true else UTF16 true, 0%nat)
    else if byte_at b 1 =? 0 then (if (byte_at b 2 =? 0) && (byte_at b 3 =? 0) then UTF32 false else UTF16 false, 0%nat)
    else (UTF8, 0%nat)
  else if (length b =? 2)%nat then
    if byte_at b 0 =? 0 then (UTF16 true, 0%nat) else if byte_at b 1 =? 0 then (UTF16 false, 0%nat) else (UTF8, 0%nat)
  else (UTF8, 0%nat).

Definition continuation (c : Z) : bool := (128 <=? c) && (c <? 192).
Definition unit16 (big : bool) (x y : Z) : Z := if big then x * 256 + y else y * 256 + x.

(** One character off the front; surrogates pass ([errors="surrogatepass"]). *)
Definition next_char (e : json_encoding) (b : bytes) : option (Z * bytes) :=
  match e with
  | UTF8 | UTF8_SIG =>
      match b with
      | b1 :: r =>
          if b1 <? 128 then Some (b1, r)
          else if b1 <? 194 then None
          else if b1 <? 224 then
            match r with b2 :: r => if continuation b2 then Some ((b1 - 192) * 64 + (b2 - 128), r) else None | _ => None end
          else if b1 <? 240 then
            match r with
            | b2 :: b3 :: r =>
                let n := (b1 - 224) * 4096 + (b2 - 128) * 64 + (b3 - 128) in
                if continuation b2 && continuation b3 && (2048 <=? n) then Some (n, r) else None
            | _ => None
            end
          else if b1 <? 245 then
            match r with
            | b2 :: b3 :: b4 :: r =>
                let n := (b1 - 240) * 262144 + (b2 - 128) * 4096 + (b3 - 128) * 64 + (b4 - 128) in
                if continuation b2 && continuation b3 && continuation b4 && (65536 <=? n) && (n <? 1114112) then Some (n, r) else None
            | _ => None
            end
          else None
      | [] => None
      end
  | UTF16 big =>
      match b with
      | x :: y :: r =>
          let n := unit16 big x y in
          match r with
          | u :: v :: r' =>
              let m := unit16 big u v in
              if high_surrogate n && low_surrogate m then Some (65536 + ((n - 55296) * 1024 + (m - 56320)), r') else Some (n, r)
          | _ => Some (n, r)
          end
      | _ => None
      end
  | UTF32 big =>
      match b with
      | x :: y :: u :: v :: r =>
          let n := if big then unit16 big x y * 65536 + unit16 big u v else unit16 big u v * 65536 + unit16 big x y in
          if n <? 1114112 then Some (n, r) else None
      | _ => None
      end
  end.

Fixpoint decode_chars (fuel : nat) (e : json_encoding) (b : bytes) : option pystr :=
  match b, fuel with
  | [], _ => Some []
  | _, S fuel => '(c, r) ← next_char e b; cons c <$> decode_chars fuel e r
  | _, O => None
  end.

(** [json.loads] of octets. *)
Definition loads_bytes (b : bytes) : result json :=
  let '(e, bom) := detect_encoding b in
  s ← of_option (exc "UnicodeDecodeError") (decode_chars (length b) e (drop bom b));
  loads s.

(** [json.dumps(v, sort_keys=True).encode("utf-8")] *)
Definition dumps_bytes (v : json) : result bytes := utf8_encode (dumps v).

(** ** Reading back what was written *)

(** A text that does not continue a number. *)
Definition stop (s : pystr) : Prop :=
  match s with c :: _ => digit c = false /\ c <> 46 /\ c <> 101 /\ c <> 69 | [] => True end.

Lemma digit_ascii c : ascii_digit c <-> digit c = true.
Proof. unfold ascii_digit, digit. split; intros; [apply andb_true_iff|apply andb_true_iff in H]; lia. Qed.

Lemma digits_of_app ds rest :
  forallb digit ds = true -> match rest with c :: _ => digit c = false | [] => True end -> digits_of (ds ++ rest) = (ds, rest).
Proof.
  intros Hd Hr. induction ds as [|d ds IH]; cbn in *.
  - destruct rest as [|c rest]; [done|]. cbn. by rewrite Hr.
  - apply andb_true_iff in Hd as [-> Hd]. by rewrite IH.
Qed.

(** The digits of an integer: one digit, or no leading zero. *)
Lemma str_int_shape n : 0 <= n ->
  exists d ds, str_int n = d :: ds /\ digit d = true /\ forallb digit ds = true /\ (d = 48 -> ds = []).
Proof.
  intros Hn. pose proof (str_int_ascii n Hn) as Ha. pose proof (dec_digits_spec n Hn) as [Hv Hr Hp Hm].
  unfold str_int in *. replace (n <? 0) with false in * by lia. unfold digit_chars in *.
  destruct (dec_digits n) as [|x l] eqn:E; [unfold zlen in Hp; cbn in Hp; lia|]. cbn in Ha |- *. apply Forall_cons_iff in Ha as [Hx Hl].
  exists (48 + x), (Z.add 48 <$> l). split_and!; [done|by apply digit_ascii|..].
  - apply forallb_forall. intros c Hc. apply digit_ascii. rewrite Stdlib.Lists.List.Forall_forall in Hl. by apply Hl.
  - intros H0. assert (x = 0) as -> by lia. destruct Hm as [Hm|Hm].
    + unfold zlen in Hm. destruct l; [done|]. cbn in Hm. lia.
    + apply Forall_cons_iff in Hr as [_ Hrl]. pose proof (pos_val_bound 10 l ltac:(lia) Hrl) as Hb.
      replace (zlen (0 :: l) - 1) with (zlen l) in Hm by (unfold zlen; cbn; lia).
      change (0 :: l) with ([0] ++ l) in Hv. rewrite pos_val_app in Hv. change (pos_val 10 [0]) with 0 in Hv. lia.
Qed.

Lemma fraction_stop s : stop s -> fraction_of s = ([], s).
Proof. destruct s as [|c s]; [done|]. intros (_ & H & _). cbn. by replace (c =? 46) with false by lia. Qed.
Lemma exponent_stop s : stop s -> exponent_of s = ([], s).
Proof. destruct s as [|c s]; [done|]. intros (_ & _ & H1 & H2). cbn. by replace (c =? 101) with false by lia; replace (c =? 69) with false by lia. Qed.
Lemma stop_nodigit s : stop s -> match s with c :: _ => digit c = false | [] => True end.
Proof. destruct s; [done|]. by intros []. Qed.

Lemma digit_not c x : digit c = true -> digit x = false -> (c =? x) = false.
Proof. intros H1 H2. apply Z.eqb_neq. intros ->. congruence. Qed.

(** The whole part of a number. *)
Definition whole_of (s : pystr) : Prop := exists d ds, s = d :: ds /\ digit d = true /\ forallb digit ds = true /\ (d = 48 -> ds = []).

Lemma number_parts sign whole fr ex rest :
  sign = [] \/ sign = [45] -> whole_of whole ->
  (forall r, match r with c :: _ => digit c = false /\ c <> 46 | [] => True end -> r = ex ++ rest -> fraction_of (fr ++ r) = (fr, r)) ->
  match fr ++ ex ++ rest with c :: _ => digit c = false | [] => True end ->
  match ex ++ rest with c :: _ => digit c = false /\ c <> 46 | [] => True end ->
  exponent_of (ex ++ rest) = (ex, rest) ->
  number (sign ++ whole ++ fr ++ ex ++ rest) =
    Some (match fr, ex with
          | [], [] => JInt (if bool_decide (sign = []) then int_digits whole else - int_digits whole)
          | _, _ => JFloat (Finite (float_of (sign ++ whole ++ fr ++ ex)))
          end, rest).
Proof.
  intros Hs (d & ds & -> & Hd & Hds & Hz) Hf Hnd Hnx Hex. unfold number.
  replace (match sign ++ (d :: ds) ++ fr ++ ex ++ rest with c :: s' => if c =? 45 then ([45], s') else ([], sign ++ (d :: ds) ++ fr ++ ex ++ rest)
           | [] => ([], sign ++ (d :: ds) ++ fr ++ ex ++ rest) end) with (sign, d :: ds ++ fr ++ ex ++ rest).
  2:{ destruct Hs as [-> | ->]; [|done]. cbn. by rewrite (digit_not d 45 Hd). }
  rewrite Hd. replace (if d =? 48 then ([], ds ++ fr ++ ex ++ rest) else digits_of (ds ++ fr ++ ex ++ rest)) with (ds, fr ++ ex ++ rest).
  2:{ destruct (Z.eqb_spec d 48) as [E|]; [by rewrite (Hz E)|by rewrite digits_of_app]. }
  rewrite (Hf _ Hnx eq_refl), Hex. done.
Qed.

Lemma number_int n rest : stop rest -> number (str_int n ++ rest) = Some (JInt n, rest).
Proof.
  intros Hs. pose proof (stop_nodigit _ Hs) as Hn.
  assert (Hx : match rest with c :: _ => digit c = false /\ c <> 46 | [] => True end) by (destruct rest; [done|]; by destruct Hs as (? & ? & _)).
  assert (Hgo : forall sign m, 0 <= m -> sign = [] \/ sign = [45] -> number (sign ++ str_int m ++ rest) =
    Some (JInt (if bool_decide (sign = []) then m else - m), rest)).
  { intros sign m Hm Hsg. destruct (str_int_shape m Hm) as (d & ds & E & Hd & Hds & Hz).
    pose proof (number_parts sign (str_int m) [] [] rest Hsg) as H. cbn [app] in H. rewrite H; [|exists d, ds; done|..].
    - by rewrite int_digits_str.
    - intros r _ ->. by apply fraction_stop.
    - done.
    - done.
    - by apply exponent_stop. }
  destruct (Z.ltb_spec n 0) as [Hlt|Hge].
  - assert (E : str_int n = [45] ++ str_int (- n)).
    { unfold str_int. replace (n <? 0) with true by lia. by replace (- n <? 0) with false by lia. }
    rewrite E, <- app_assoc, Hgo by (by lia || by right). rewrite bool_decide_eq_false_2 by done. do 3 f_equal. lia.
  - change (str_int n ++ rest) with ([] ++ str_int n ++ rest). rewrite Hgo by (by lia || by left). by rewrite bool_decide_eq_true_2.
Qed.

Lemma digits_head ds : ds <> [] -> forallb digit ds = true -> exists d l, ds = d :: l /\ digit d = true.
Proof. destruct ds as [|d l]; [done|]. cbn. intros _ [H _]%andb_true_iff. by exists d, l. Qed.

Lemma number_float s rest : float_lexeme s -> stop rest -> number (s ++ rest) = Some (JFloat (Finite (float_of s)), rest).
Proof.
  intros [(sign & whole & fr & ex & -> & Hsg & Hw & Hfr & Hex & Hne)] Hs. rewrite <- !app_assoc.
  assert (Hwhole : whole_of whole).
  { destruct Hw as [->|(d & ds & -> & Hd & Hds)]; [by exists 48, []|]. exists d, ds. split_and!; [done| |done|lia].
    unfold digit. apply andb_true_iff. lia. }
  assert (He : exponent_of (ex ++ rest) = (ex, rest) /\ match ex ++ rest with c :: _ => digit c = false /\ c <> 46 | [] => True end).
  { destruct Hex as [->|(e & sg & ds & -> & He & Hsg' & Hnil & Hds)].
    - split; [by apply exponent_stop|]. destruct rest; [done|]. by destruct Hs as (? & ? & _).
    - destruct (digits_head ds Hnil Hds) as (d & l & -> & Hd). split.
      + assert (Hd2 : digits_of ((d :: l) ++ rest) = (d :: l, rest)) by (apply digits_of_app; [done|by apply stop_nodigit]).
        unfold exponent_of. cbn [app]. replace ((e =? 101) || (e =? 69)) with true by (symmetry; apply orb_true_iff; lia).
        destruct Hsg' as [->|[->| ->]].
        * cbn [app]. rewrite (digit_not d 43), (digit_not d 45) by done. cbn [orb]. change (d :: l ++ rest) with ((d :: l) ++ rest). by rewrite Hd2.
        * cbn [app]. change ((43 =? 43) || _) with true. cbn [orb]. change (d :: l ++ rest) with ((d :: l) ++ rest). by rewrite Hd2.
        * cbn [app]. change ((45 =? 43) || (45 =? 45)) with true. cbn [orb]. change (d :: l ++ rest) with ((d :: l) ++ rest). by rewrite Hd2.
      + cbn. destruct He as [-> | ->]; done. }
  destruct He as [He1 He2].
  rewrite (number_parts sign whole fr ex rest); try done.
  - destruct fr, ex; try done. by destruct Hne.
  - intros r Hr _. destruct Hfr as [->|(ds & -> & Hnil & Hds)].
    + destruct r as [|c r]; [done|]. cbn. by replace (c =? 46) with false by lia.
    + destruct (digits_head ds Hnil Hds) as (d & l & -> & Hd). cbn [app fraction_of]. change (46 =? 46) with true. cbn [orb].
      change (d :: l ++ r) with ((d :: l) ++ r). rewrite digits_of_app; [done|done|]. destruct r; [done|]. by destruct Hr.
  - destruct Hfr as [->|(ds & -> & _)]; [|done]. cbn [app]. destruct (ex ++ rest); [done|]. by destruct He2.
Qed.

(** *** Strings *)

(** A character of text: a code point that is no surrogate. *)
Definition text_char (c : Z) : Prop := 0 <= c < 1114112 /\ ~ (55296 <= c <= 57343).

Lemma hex_value_char d : 0 <= d < 16 -> hex_value (hex_char d) = Some d.
Proof.
  intros Hd. unfold hex_char, hex_value, digit. destruct (Z.ltb_spec d 10).
  - replace ((48 <=? 48 + d) && (48 + d <=? 57)) with true by (symmetry; apply andb_true_iff; lia). f_equal. lia.
  - replace ((48 <=? 87 + d) && (87 + d <=? 57)) with false by (symmetry; apply andb_false_iff; lia).
    replace ((97 <=? 87 + d) && (87 + d <=? 102)) with true by (symmetry; apply andb_true_iff; lia). f_equal. lia.
Qed.

Lemma u_escape_shape n : 0 <= n < 65536 ->
  exists a b c d, u_escape n = [92; 117; a; b; c; d] /\ hex4 a b c d = Some n.
Proof.
  intros Hn. unfold u_escape. pose proof (pos_digits_range 16 4 n ltac:(lia)) as Hr. pose proof (length_pos_digits 16 4 n) as Hl.
  pose proof (pos_val_digits_small 16 4 n ltac:(lia) ltac:(cbn; lia)) as Hv.
  destruct (pos_digits 16 4 n) as [|a [|b [|c [|d [|? ?]]]]]; try discriminate. 
  rewrite !Forall_cons_iff in Hr. destruct Hr as (Ha & Hb & Hc & Hd & _). unfold in_radix in *.
  exists (hex_char a), (hex_char b), (hex_char c), (hex_char d). split; [done|].
  unfold hex4. rewrite !hex_value_char by lia. cbn [mbind option_bind]. f_equal. rewrite <- Hv. unfold pos_val. cbn [fold_left]. lia.
Qed.

(** [scan_string], a character further on. *)
Definition scanned (c : Z) (o : option (pystr * pystr)) : option (pystr * pystr) :=
  match o with Some (t, r) => Some (c :: t, r) | None => None end.

Lemma scan_u_plain n s : 0 <= n < 65536 -> high_surrogate n = false -> scan_string (u_escape n ++ s) = scanned n (scan_string s).
Proof.
  intros Hn Hh. destruct (u_escape_shape n Hn) as (a & b & c & d & -> & Hx). cbn [app scan_string].
  change (92 =? 34) with false. change (92 =? 92) with true. change (117 =? 117) with true. cbn iota. rewrite Hx, Hh. cbn [andb].
  by destruct s as [|? [|? [|? [|? [|? [|? ?]]]]]].
Qed.

Lemma scan_u_pair n m s : 0 <= n < 65536 -> 0 <= m < 65536 -> high_surrogate n = true -> low_surrogate m = true ->
  scan_string (u_escape n ++ u_escape m ++ s) = scanned (65536 + ((n - 55296) * 1024 + (m - 56320))) (scan_string s).
Proof.
  intros Hn Hm Hh Hl. destruct (u_escape_shape n Hn) as (a & b & c & d & -> & Hx). destruct (u_escape_shape m Hm) as (a2 & b2 & c2 & d2 & -> & Hy).
  cbn [app scan_string]. change (92 =? 34) with false. change (92 =? 92) with true. change (117 =? 117) with true. cbn iota.
  rewrite Hx, Hh. cbn [andb]. rewrite Hy, Hl. done.
Qed.

Lemma scan_escape c s : text_char c -> scan_string (escape_char c ++ s) = scanned c (scan_string s).
Proof.
  intros [Hc Hs]. unfold escape_char. cbv zeta.
  repeat match goal with |- context [if c =? ?k then _ else _] => destruct (Z.eqb_spec c k); [subst c; done|] end.
  destruct ((32 <=? c) && (c <=? 126)) eqn:E.
  { apply andb_true_iff in E. cbn [app scan_string]. replace (c =? 34) with false by lia. replace (c =? 92) with false by lia.
    by replace (c <? 32) with false by lia. }
  destruct (Z.ltb_spec c 65536).
  - apply scan_u_plain; [lia|]. unfold high_surrogate. apply andb_false_iff. lia.
  - set (u := c - 65536). assert (Hu : 0 <= u < 1048576) by lia. pose proof (Z.div_mod u 1024 ltac:(lia)) as Hdm.
    pose proof (Z.mod_pos_bound u 1024 ltac:(lia)). assert (0 <= u / 1024 < 1024) by (split; [apply Z.div_pos; lia|apply Z.div_lt_upper_bound; lia]).
    rewrite <- app_assoc, scan_u_pair; try lia.
    + f_equal. lia.
    + unfold high_surrogate. apply andb_true_iff. lia.
    + unfold low_surrogate. apply andb_true_iff. lia.
Qed.

Lemma scan_json_str s rest : Forall text_char s -> scan_string ((s ≫= escape_char) ++ 34 :: rest) = Some (s, rest).
Proof.
  induction 1 as [|c s Hc _ IH]; [done|]. rewrite bind_cons, <- app_assoc, scan_escape by done. by rewrite IH.
Qed.

(** *** Values *)

Section JsonInd.
Context (P : json -> Prop).
Context (Hnull : P JNull) (Hbool : forall b, P (JBool b)) (Hint : forall n, P (JInt n)) (Hfloat : forall f, P (JFloat f))
  (Hstr : forall s, P (JStr s)) (Harr : forall l, Forall P l -> P (JArr l)) (Hobj : forall d, Forall (fun kv => P kv.2) d -> P (JObj d)).
Lemma json_induction v : P v.
Proof.
  revert v. fix IH 1. intros [|b|n|f|s|l|d].
  1-5: clear IH; auto.
  - apply Harr. induction l as [|x l IHl]; constructor; [apply IH|exact IHl].
  - apply Hobj. induction d as [|x d IHd]; constructor; [apply IH|exact IHd].
Qed.
End JsonInd.

(** What can be written: text without surrogates, and no key twice. *)
Fixpoint json_ok (v : json) : Prop :=
  match v with
  | JStr s => Forall text_char s
  | JArr l => foldr and True (map json_ok l)
  | JObj d => NoDup d.*1 /\ Forall (Forall text_char) d.*1 /\ foldr and True (map (fun kv => json_ok kv.2) d)
  | _ => True
  end.

(** The value [loads] gives back: every object sorted by its keys, the same [dict]. *)
Fixpoint norm (v : json) : json :=
  match v with
  | JArr l => JArr (map norm l)
  | JObj d => JObj (sorted_by fst (map (fun kv => (kv.1, norm kv.2)) d))
  | _ => v
  end.

Fixpoint depth (v : json) : nat :=
  match v with
  | JArr l => S (foldr Nat.max 0%nat (map depth l))
  | JObj d => S (foldr Nat.max 0%nat (map (fun kv => depth kv.2) d))
  | _ => 1%nat
  end.

Lemma foldr_and {X} (Q : X -> Prop) l : foldr and True (map Q l) <-> Forall Q l.
Proof. induction l as [|x l IH]; cbn; [split; constructor|]. by rewrite IH, Forall_cons_iff. Qed.

Lemma foldr_max {X} (f : X -> nat) l n : (foldr Nat.max 0%nat (map f l) <= n)%nat <-> Forall (fun x => (f x <= n)%nat) l.
Proof. induction l as [|x l IH]; cbn; [split; [constructor|lia]|]. rewrite Forall_cons_iff, <- IH. lia. Qed.

Lemma insert_by_map {X Y K} `{PyOrd K} (kx : X -> K) (ky : Y -> K) (f : X -> Y) :
  (forall x, ky (f x) = kx x) -> forall x l, insert_by ky (f x) (map f l) = map f (insert_by kx x l).
Proof. intros Hk x l. induction l as [|y l IH]; cbn; [done|]. rewrite !Hk. destruct (py_leb _ _); cbn; [done|]. by rewrite IH. Qed.

Lemma sorted_by_map {X Y K} `{PyOrd K} (kx : X -> K) (ky : Y -> K) (f : X -> Y) :
  (forall x, ky (f x) = kx x) -> forall l, sorted_by ky (map f l) = map f (sorted_by kx l).
Proof.
  intros Hk l. induction l as [|x l IH]; [done|]. change (insert_by ky (f x) (sorted_by ky (map f l)) = map f (insert_by kx x (sorted_by kx l))).
  rewrite IH. by apply insert_by_map.
Qed.

Definition item (kv : pystr * json) : pystr := json_str kv.1 ++ 58 :: gap sp ++ dumps kv.2.

Lemma dumps_obj d : dumps (JObj d) = 123 :: comma_join (map item (sorted_by fst d)) ++ [125].
Proof.
  cbn [dumps]. rewrite (sorted_by_map fst fst) by done. do 3 f_equal. change (@fmap list _) with (@map). by rewrite map_map.
Qed.
Lemma norm_obj d : norm (JObj d) = JObj (map (fun kv => (kv.1, norm kv.2)) (sorted_by fst d)).
Proof. cbn [norm]. by rewrite (sorted_by_map fst fst). Qed.

(** The first character of a value starts a value. *)
Definition starts_value (s : pystr) : Prop :=
  exists c t, s = c :: t /\ ~ (c = 32 \/ c = 9 \/ c = 10 \/ c = 13) /\ c <> 93 /\ c <> 125.

Lemma number_head s : whole_of s \/ (exists t, s = 45 :: t /\ whole_of t) ->
  exists c t, s = c :: t /\ (c = 45 \/ digit c = true).
Proof. intros [(d & ds & -> & Hd & _)|(t & -> & _)]; eauto 10. Qed.

Lemma str_int_head n : exists c t, str_int n = c :: t /\ (c = 45 \/ digit c = true).
Proof.
  destruct (Z.ltb_spec n 0) as [H|H].
  - unfold str_int. replace (n <? 0) with true by lia. eauto.
  - destruct (str_int_shape n H) as (d & ds & -> & Hd & _). eauto.
Qed.

Lemma float_head s : float_lexeme s -> exists c t, s = c :: t /\ (c = 45 \/ digit c = true).
Proof.
  intros [(sign & whole & fr & ex & -> & Hsg & Hw & _)]. destruct Hsg as [->| ->]; [|eauto].
  destruct Hw as [->|(d & ds & -> & Hd & _)]; [eauto|]. exists d. eexists. split; [reflexivity|]. right. unfold digit. apply andb_true_iff. lia.
Qed.

Lemma digit_range c : c = 45 \/ digit c = true -> 45 <= c <= 57.
Proof. unfold digit. intros [->|H]; [lia|]. apply andb_true_iff in H. lia. Qed.

Context {L : PyFloatLaws F}.

Lemma dumps_starts v : starts_value (dumps v).
Proof.
  assert (Hn : forall s, (exists c t, s = c :: t /\ (c = 45 \/ digit c = true)) -> starts_value s).
  { intros s (c & t & -> & Hc%digit_range). exists c, t. split; [done|]. lia. }
  destruct v as [|[]|n|[f| |[]]|s|l|d].
  - exists 110, (py "ull"). split; [done|lia].
  - exists 116, (py "rue"). split; [done|lia].
  - exists 102, (py "alse"). split; [done|lia].
  - apply Hn, str_int_head.
  - apply Hn, float_head, float_repr_lexeme.
  - exists 78, (py "aN"). split; [done|lia].
  - exists 45, (py "Infinity"). split; [done|lia].
  - exists 73, (py "nfinity"). split; [done|lia].
  - eexists 34, _. split; [reflexivity|lia].
  - eexists 91, _. split; [reflexivity|lia].
  - eexists 123, _. split; [reflexivity|lia].
Qed.

Lemma skip_ws_starts s r : starts_value s -> skip_ws (s ++ r) = s ++ r.
Proof.
  intros (c & t & -> & Hc & _). cbn. replace ((c =? 32) || (c =? 9) || (c =? 10) || (c =? 13)) with false; [done|].
  symmetry. rewrite !orb_false_iff. lia.
Qed.

Lemma skip_gap s : skip_ws (gap sp ++ s) = skip_ws s.
Proof. by destruct sp. Qed.

Lemma join_starts x l : starts_value x -> starts_value (comma_join (x :: l)).
Proof. intros (c & t & -> & H). destruct l as [|y l]; cbn [comma_join app]; eexists c, _; (split; [reflexivity|exact H]). Qed.

Lemma item_starts kv : starts_value (item kv).
Proof. eexists 34, _. split; [reflexivity|lia]. Qed.

Lemma skip_ws_char c r : ~ (c = 32 \/ c = 9 \/ c = 10 \/ c = 13) -> skip_ws (c :: r) = c :: r.
Proof. intros H. cbn. replace (_ || _) with false; [done|]. symmetry. rewrite !orb_false_iff. lia. Qed.

Lemma after_no x lit c s : x <> c -> after (x :: lit) (c :: s) = None.
Proof. intros H. cbn [after]. by replace (x =? c) with false by lia. Qed.

Lemma literal_none c s : c <> 110 -> c <> 116 -> c <> 102 -> literal literals (c :: s) = None.
Proof.
  intros H1 H2 H3. unfold literals. cbn [literal]. change (py "null") with (110 :: py "ull"). change (py "true") with (116 :: py "rue").
  change (py "false") with (102 :: py "alse"). by rewrite !after_no.
Qed.

Definition brackets (c : Z) : Prop := c = 93 \/ c = 125 \/ c = 44.
Lemma stop_bracket c r : brackets c -> stop (c :: r).
Proof. intros [-> |[-> | ->]]; cbn; (split; [done|lia]). Qed.

Lemma bracket_nows c : brackets c -> ~ (c = 32 \/ c = 9 \/ c = 10 \/ c = 13).
Proof. unfold brackets. lia. Qed.

(** A parser reads back one value before any text that does not continue it. *)
Definition reads (p : pystr -> option (json * pystr)) (v : json) : Prop :=
  forall rest, stop rest -> p (dumps v ++ rest) = Some (norm v, rest).

Lemma elements_join p l n rest :
  Forall (reads p) l -> l <> [] -> (length l <= n)%nat -> elements p n (comma_join (map dumps l) ++ 93 :: rest) = Some (map norm l, rest).
Proof.
  intros Hl. revert n. induction Hl as [|v l Hv Hl IH]; intros n Hne Hn; [done|]. destruct n as [|n]; [cbn in Hn; lia|].
  cbn [map comma_join elements]. destruct l as [|v2 l].
  - cbn [map]. rewrite (Hv (93 :: rest)) by (apply stop_bracket; by left). cbn [mbind option_bind]. by rewrite skip_ws_char by lia.
  - cbn [map]. rewrite <- app_assoc. cbn [app]. rewrite <- app_assoc. rewrite (Hv (44 :: _)) by (apply stop_bracket; unfold brackets; lia).
    cbn [mbind option_bind]. rewrite skip_ws_char by lia. change (44 =? 93) with false. change (44 =? 44) with true. cbn iota.
    change (comma_join (dumps v2 :: map dumps l)) with (comma_join (map dumps (v2 :: l))).
    assert (E : skip_ws (gap sp ++ comma_join (map dumps (v2 :: l)) ++ 93 :: rest) = comma_join (map dumps (v2 :: l)) ++ 93 :: rest).
    { rewrite skip_gap. apply skip_ws_starts, join_starts, dumps_starts. }
    rewrite E, (IH n) by (done || (cbn in *; lia)). done.
Qed.

Lemma members_join p d n rest :
  Forall (fun kv => reads p kv.2 /\ Forall text_char kv.1) d -> d <> [] -> (length d <= n)%nat ->
  members p n (comma_join (map item d) ++ 125 :: rest) = Some (map (fun kv => (kv.1, norm kv.2)) d, rest).
Proof.
  intros Hd. revert n. induction Hd as [|[k v] d [Hv Hk] Hd IH]; intros n Hne Hn; [done|]. destruct n as [|n]; [cbn in Hn; lia|].
  assert (Hitem : forall tail, stop tail -> 
    (match (item (k, v) ++ tail) with q :: s1 => if q =? 34 then '(k, r) ← scan_string s1; Some (k, r) else None | [] => None end) = Some (k, 58 :: gap sp ++ dumps v ++ tail) /\
    p (skip_ws (gap sp ++ dumps v ++ tail)) = Some (norm v, tail)).
  { intros tail Ht. split.
    - unfold item, json_str. cbn [fst snd app]. change (34 =? 34) with true. cbn iota. rewrite <- !app_assoc. cbn [app]. rewrite <- !app_assoc.
      by rewrite scan_json_str.
    - rewrite skip_gap, skip_ws_starts by apply dumps_starts. by apply Hv. }
  destruct (comma_join (map item ((k, v) :: d)) ++ 125 :: rest) as [|q s1] eqn:E; [by destruct d|].
  assert (Hc : exists tail, stop tail /\ q :: s1 = item (k, v) ++ tail /\
    match d with [] => tail = 125 :: rest | _ => tail = 44 :: gap sp ++ comma_join (map item d) ++ 125 :: rest end).
  { destruct d as [|kv2 d]; eexists; (split; [|split; [rewrite <- E; cbn [map comma_join]; rewrite <- ?app_assoc; cbn [app]; rewrite <- ?app_assoc; reflexivity|reflexivity]]);
      apply stop_bracket; unfold brackets; lia. }
  destruct Hc as (tail & Ht & Eq & Htail). destruct (Hitem tail Ht) as [H1 H2]. rewrite <- Eq in H1.
  cbn [members map]. destruct (q =? 34); [|done]. destruct (scan_string s1) as [[k' r]|]; [|done]. cbn [mbind option_bind] in H1 |- *.
  injection H1 as -> ->. rewrite skip_ws_char by lia. change (58 =? 58) with true. cbn iota. rewrite H2. cbn [mbind option_bind].
  destruct d as [|kv2 d]; subst tail.
  - rewrite skip_ws_char by lia. done.
  - rewrite skip_ws_char by lia. change (44 =? 125) with false. change (44 =? 44) with true. cbn iota.
    assert (E2 : skip_ws (gap sp ++ comma_join (map item (kv2 :: d)) ++ 125 :: rest) = comma_join (map item (kv2 :: d)) ++ 125 :: rest).
    { rewrite skip_gap. apply skip_ws_starts, join_starts, item_starts. }
    rewrite E2, (IH n) by (done || (cbn in *; lia)). done.
Qed.

Lemma comma_length {X} (f : X -> pystr) l : Forall (fun x => (1 <= length (f x))%nat) l -> (length l <= length (comma_join (map f l)))%nat.
Proof.
  induction 1 as [|x l Hx Hl IH]; [cbn; lia|]. cbn [map comma_join length]. destruct (map f l) as [|y k] eqn:E.
  - destruct l; [cbn; lia|discriminate].
  - rewrite length_app. cbn [length] in *. rewrite length_app. lia.
Qed.

Lemma starts_length s : starts_value s -> (1 <= length s)%nat.
Proof. intros (c & t & -> & _). cbn. lia. Qed.

Lemma number_value fuel s v rest :
  (exists c t, s = c :: t /\ (c = 45 \/ digit c = true)) -> number (s ++ rest) = Some (v, rest) -> value (S fuel) (s ++ rest) = Some (v, rest).
Proof.
  intros (c & t & -> & Hc%digit_range) Hn. cbn [app] in *. cbn [value]. replace (c =? 34) with false by lia. replace (c =? 123) with false by lia.
  replace (c =? 91) with false by lia. by rewrite literal_none, Hn by lia.
Qed.

Lemma sorted_members (d : list (pystr * json)) (Q : pystr * json -> Prop) : Forall Q d -> Forall Q (sorted_by fst d).
Proof. intros H. by rewrite sorted_by_perm. Qed.

Lemma value_reads v : json_ok v -> forall fuel, (depth v <= fuel)%nat -> reads (value fuel) v.
Proof.
  induction v as [|b|n|f|s|l IH|d IH] using json_induction; intros Hok [|fuel] Hf rest Hs; try (cbn in Hf; lia).
  - done.
  - by destruct b.
  - apply number_value; [apply str_int_head|by apply number_int].
  - destruct f as [f| |[]]; [|done..]. apply number_value; [apply float_head, float_repr_lexeme|].
    cbn [dumps float_text]. rewrite number_float by (done || apply float_repr_lexeme). by rewrite float_of_repr.
  - cbn [dumps norm json_ok] in *. unfold json_str. cbn [app value]. change (34 =? 34) with true. cbn iota. rewrite <- app_assoc. cbn [app].
    by rewrite scan_json_str.
  - cbn [json_ok] in Hok. apply foldr_and in Hok. cbn [depth] in Hf. apply le_S_n in Hf. apply foldr_max in Hf.
    destruct l as [|x l]; [done|]. cbn [dumps app norm]. rewrite <- app_assoc. cbn [app]. set (t := comma_join (map dumps (x :: l)) ++ 93 :: rest).
    assert (Ht : skip_ws t = t /\ exists c t', t = c :: t' /\ c <> 93).
    { pose proof (join_starts (dumps x) (map dumps l) (dumps_starts x)) as Hj. unfold t. split; [by apply skip_ws_starts|].
      destruct Hj as (c & t' & E & _ & Hc & _). exists c, (t' ++ 93 :: rest). split; [|done]. cbn [map]. by rewrite E. }
    destruct Ht as [Ht (c & t' & Et & Hc)]. cbn [value]. change (91 =? 34) with false. change (91 =? 123) with false. change (91 =? 91) with true. cbn iota.
    rewrite Ht, Et. replace (c =? 93) with false by lia. rewrite <- Et. unfold t. rewrite (elements_join (value fuel)); [done| |done|].
    + rewrite Stdlib.Lists.List.Forall_forall in *. intros y Hy. apply IH; auto.
    + cbn [length]. rewrite length_app. pose proof (comma_length dumps (x :: l)) as Hl. cbn [length map] in *. etransitivity; [apply Hl|lia].
      apply List.Forall_forall. intros y _. apply starts_length, dumps_starts.
  - cbn [json_ok] in Hok. destruct Hok as (Hnd & Hk & Hok). apply foldr_and in Hok. cbn [depth] in Hf. apply le_S_n in Hf. apply foldr_max in Hf.
    rewrite dumps_obj, norm_obj. set (k := sorted_by fst d) in *.
    assert (Hall : Forall (fun kv => reads (value fuel) kv.2 /\ Forall text_char kv.1) k).
    { apply sorted_members. rewrite Forall_fmap in Hk. rewrite Stdlib.Lists.List.Forall_forall in *. intros y Hy. split; [apply IH; auto|by apply Hk]. }
    assert (Hnk : NoDup (map (fun kv => (kv.1, norm kv.2)) k).*1).
    { change (@map) with (@fmap list _). rewrite <- list_fmap_compose. assert (E : (fst ∘ (fun kv : pystr * json => (kv.1, norm kv.2))) <$> k = k.*1) by done.
      rewrite E. unfold k. by rewrite sorted_by_perm. }
    destruct k as [|kv k]; [done|]. cbn [app]. rewrite <- app_assoc. cbn [app]. set (t := comma_join (map item (kv :: k)) ++ 125 :: rest).
    assert (Ht : skip_ws t = t /\ exists c t', t = c :: t' /\ c <> 125).
    { pose proof (join_starts (item kv) (map item k) (item_starts kv)) as Hj. unfold t. split; [by apply skip_ws_starts|].
      destruct Hj as (c & t' & E & _ & _ & Hc). exists c, (t' ++ 125 :: rest). split; [|done]. cbn [map]. by rewrite E. }
    destruct Ht as [Ht (c & t' & Et & Hc)]. cbn [value]. change (123 =? 34) with false. change (123 =? 123) with true. cbn iota.
    rewrite Ht, Et. replace (c =? 125) with false by lia. rewrite <- Et. unfold t. rewrite (members_join (value fuel)); [|done|done|].
    + cbn [mbind option_bind]. by rewrite od_of_distinct.
    + cbn [length]. rewrite length_app. pose proof (comma_length item (kv :: k)) as Hl. cbn [length map] in *. etransitivity; [apply Hl|lia].
      apply List.Forall_forall. intros y _. apply starts_length, item_starts.
Qed.

Lemma join_elem {X} (f : X -> pystr) l x : x ∈ l -> (length (f x) <= length (comma_join (map f l)))%nat.
Proof.
  induction l as [|y l IH]; [by intros ?%elem_of_nil|]. intros [->|H]%elem_of_cons.
  - cbn [map comma_join]. destruct (map f l); [done|]. rewrite length_app. lia.
  - apply IH in H. cbn [map comma_join]. destruct (map f l) as [|z k]; [cbn in *; lia|]. rewrite length_app. cbn [length] in *. rewrite length_app. lia.
Qed.

Lemma depth_length v : (depth v <= length (dumps v))%nat.
Proof.
  induction v as [|b|n|f|s|l IH|d IH] using json_induction; try (apply starts_length, dumps_starts).
  - cbn [depth dumps length]. rewrite length_app. cbn [length]. enough (foldr Nat.max 0%nat (map depth l) <= length (comma_join (map dumps l)))%nat by lia.
    apply foldr_max. rewrite list.Forall_forall in *. intros x Hx. etransitivity; [by apply IH|by apply join_elem].
  - rewrite dumps_obj. cbn [depth length]. rewrite length_app. cbn [length].
    enough (foldr Nat.max 0%nat (map (fun kv => depth kv.2) d) <= length (comma_join (map item (sorted_by fst d))))%nat by lia.
    apply foldr_max. rewrite list.Forall_forall in *. intros kv Hx. etransitivity; [by apply IH|].
    etransitivity; [|apply join_elem, elem_of_sorted_by, Hx]. unfold item. rewrite length_app. cbn [length]. rewrite length_app. lia.
Qed.

(** [json.loads(json.dumps(v, sort_keys=True))] *)
Lemma loads_dumps v : json_ok v -> loads (dumps v) = Ok (norm v).
Proof.
  intros Hok. unfold loads. pose proof (skip_ws_starts (dumps v) [] (dumps_starts v)) as Hs. rewrite app_nil_r in Hs. rewrite Hs.
  pose proof (value_reads v Hok (S (length (dumps v))) ltac:(pose proof (depth_length v); lia) [] I) as H. rewrite app_nil_r in H. by rewrite H.
Qed.

(** *** Written text is one line of printable ASCII *)

Definition plain (c : Z) : bool := (32 <=? c) && (c <=? 126).

Lemma plain_digits ds : forallb digit ds = true -> forallb plain ds = true.
Proof.
  rewrite !forallb_forall. intros H c Hc. apply H in Hc. unfold digit, plain in *. apply andb_true_iff in Hc. apply andb_true_iff. lia.
Qed.

Lemma plain_hex n : forallb plain (u_escape n) = true.
Proof.
  unfold u_escape. cbn [forallb]. change (plain 92) with true. change (plain 117) with true. cbn [andb]. pose proof (pos_digits_range 16 4 n ltac:(lia)) as Hr.
  rewrite forallb_forall. intros c (d & -> & Hd)%list_elem_of_In%list_elem_of_fmap. rewrite list.Forall_forall in Hr. apply Hr in Hd. unfold in_radix in Hd.
  unfold hex_char, plain. destruct (Z.ltb_spec d 10); apply andb_true_iff; lia.
Qed.

Lemma plain_escape c : forallb plain (escape_char c) = true.
Proof.
  unfold escape_char. repeat match goal with |- context [if c =? ?k then _ else _] => destruct (c =? k); [done|] end.
  destruct ((32 <=? c) && (c <=? 126)) eqn:E; [cbn; unfold plain; by rewrite E|]. destruct (c <? 65536); [apply plain_hex|].
  cbv zeta. by rewrite forallb_app, !plain_hex.
Qed.

Lemma plain_str s : forallb plain (json_str s) = true.
Proof.
  unfold json_str. cbn [forallb]. change (plain 34) with true. cbn [andb]. rewrite forallb_app. change (forallb plain [34]) with true. rewrite andb_true_r.
  induction s as [|c s IH]; [done|]. rewrite bind_cons, forallb_app, plain_escape. exact IH.
Qed.

Lemma plain_int n : forallb plain (str_int n) = true.
Proof.
  assert (H : forall m, 0 <= m -> forallb plain (str_int m) = true).
  { intros m Hm. destruct (str_int_shape m Hm) as (d & ds & -> & Hd & Hds & _). apply plain_digits. cbn. by rewrite Hd. }
  destruct (Z.ltb_spec n 0) as [Hn|Hn]; [|by apply H]. pose proof (H (- n) ltac:(lia)) as Hp. unfold str_int in *.
  replace (n <? 0) with true by lia. replace (- n <? 0) with false in Hp by lia. exact Hp.
Qed.

Lemma plain_float s : float_lexeme s -> forallb plain s = true.
Proof.
  intros [(sign & whole & fr & ex & -> & Hsg & Hw & Hfr & Hex & _)]. rewrite !forallb_app, !andb_true_iff. split_and!.
  - by destruct Hsg as [-> | ->].
  - destruct Hw as [->|(d & ds & -> & Hd & Hds)]; [done|]. apply plain_digits. cbn. rewrite Hds. unfold digit. rewrite andb_true_r. apply andb_true_iff. lia.
  - destruct Hfr as [->|(ds & -> & _ & Hds)]; [done|]. cbn. by apply plain_digits.
  - destruct Hex as [->|(e & sg & ds & -> & He & Hsg' & _ & Hds)]; [done|]. apply plain_digits in Hds. cbn [app forallb]. rewrite forallb_app, Hds, andb_true_r.
    by destruct He as [-> | ->]; destruct Hsg' as [->|[-> | ->]].
Qed.

Lemma plain_join l : Forall (fun s => forallb plain s = true) l -> forallb plain (comma_join l) = true.
Proof.
  induction 1 as [|x l Hx Hl IH]; [done|]. destruct l as [|y l]; [exact Hx|]. change (comma_join (x :: y :: l)) with (x ++ 44 :: gap sp ++ comma_join (y :: l)).
  rewrite forallb_app, Hx. cbn [forallb andb]. change (plain 44) with true. cbn [andb]. rewrite forallb_app, IH. by destruct sp.
Qed.

Lemma dumps_plain v : forallb plain (dumps v) = true.
Proof.
  induction v as [|b|n|f|s|l IH|d IH] using json_induction.
  - done.
  - by destruct b.
  - apply plain_int.
  - destruct f as [f| |[]]; [apply plain_float, float_repr_lexeme|done..].
  - apply plain_str.
  - cbn [dumps forallb]. change (plain 91) with true. rewrite forallb_app, plain_join; [done|]. change (@map) with (@fmap list _). by apply Forall_fmap.
  - rewrite dumps_obj. cbn [forallb]. change (plain 123) with true. rewrite forallb_app, plain_join; [done|]. change (@map) with (@fmap list _). apply Forall_fmap.
    eapply Forall_impl; [|apply (sorted_members d _ IH)]. intros kv Hkv. unfold compose, item. rewrite forallb_app, plain_str. cbn [forallb andb]. change (plain 58) with true. cbn [andb].
    rewrite forallb_app, Hkv. by destruct sp.
Qed.

(** *** Octets *)

Lemma plain_encodes s : forallb plain s = true -> utf8_encode s = Ok s.
Proof.
  intros H. unfold utf8_encode. enough (map_res utf8_char s = Ok (map (fun c => [c]) s)) as ->.
  { cbn. f_equal. induction s as [|c s IH]; [done|]. cbn in *. apply andb_true_iff in H as [_ H]. by rewrite IH. }
  induction s as [|c s IH]; [done|]. cbn [forallb] in H. apply andb_true_iff in H as [Hc H]. cbn [map_res map]. rewrite (IH H).
  unfold plain in Hc. unfold utf8_char. by replace (c <? 128) with true by lia.
Qed.

Lemma dumps_encodes v : dumps_bytes v = Ok (dumps v).
Proof. apply plain_encodes, dumps_plain. Qed.

Lemma plain_detect s : forallb plain s = true -> detect_encoding s = (UTF8, 0%nat).
Proof.
  intros H. assert (Hb : forall i, (i < length s)%nat -> 32 <= byte_at s i <= 126).
  { intros i [c Hc]%lookup_lt_is_Some. unfold byte_at. rewrite Hc. cbn. rewrite forallb_forall in H.
    assert (Hp : plain c = true) by (apply H, list_elem_of_In; by eapply list_elem_of_lookup_2). unfold plain in Hp. lia. }
  assert (Hs : forall x p, (x <? 32) || (126 <? x) = true -> starts_with (x :: p) s = false).
  { intros x p Hx. destruct s as [|c s]; [done|]. cbn. pose proof (Hb 0%nat ltac:(cbn; lia)) as H0. cbn in H0. by replace (x =? c) with false by lia. }
  unfold detect_encoding. rewrite !Hs by done. destruct (4 <=? length s)%nat eqn:E4.
  - apply Nat.leb_le in E4. pose proof (Hb 0%nat ltac:(lia)). pose proof (Hb 1%nat ltac:(lia)).
    replace (byte_at s 0 =? 0) with false by lia. by replace (byte_at s 1 =? 0) with false by lia.
  - destruct (length s =? 2)%nat eqn:E2; [|done]. apply Nat.eqb_eq in E2. pose proof (Hb 0%nat ltac:(lia)). pose proof (Hb 1%nat ltac:(lia)).
    replace (byte_at s 0 =? 0) with false by lia. by replace (byte_at s 1 =? 0) with false by lia.
Qed.

Lemma plain_decodes s : forallb plain s = true -> decode_chars (length s) UTF8 s = Some s.
Proof.
  induction s as [|c s IH]; [done|]. cbn [forallb]. intros [Hc H]%andb_true_iff. cbn [decode_chars length next_char]. unfold plain in Hc.
  replace (c <? 128) with true by lia. cbn [mbind option_bind]. by rewrite (IH H).
Qed.

Lemma loads_bytes_dumps v : json_ok v -> loads_bytes (dumps v) = Ok (norm v).
Proof.
  intros Hok. unfold loads_bytes. rewrite plain_detect by apply dumps_plain. rewrite drop_0, plain_decodes by apply dumps_plain. by apply loads_dumps.
Qed.
End Json.

(** ** An instance *)

(** Two floats, written "0.0" and "1.0". *)
Definition toy_float : PyFloat :=
  {| ffloat := bool; ffloat_eq_dec := _; float_repr := fun b : bool => py (if b then "1.0" else "0.0"); float_of := fun s => bool_decide (s = py "1.0") |}.

Lemma toy_lexeme (b : bool) : float_lexeme (py (if b then "1.0" else "0.0")).
Proof.
  constructor. exists [], [if b then 49 else 48], [46; 48], []. split; [by destruct b|]. split; [by left|]. split.
  - destruct b; [right; exists 49, []; split_and!; [done|lia|lia|done]|by left].
  - split; [right; exists [48]; by split_and!|]. split; [by left|]. by intros [].
Qed.

Lemma toy_float_laws : @PyFloatLaws toy_float.
Proof. constructor; [exact toy_lexeme|by intros []|by intros []]. Qed.
