(* ===== verification/PyRepr.v ===== *)
(** * Text forms of the standard library's values

    [str(Decimal)] and [Decimal(text)], [isoformat] and [fromisoformat] of dates,
    times and date-times, [bytes.hex] and [bytes.fromhex]. The readers accept the
    forms the writers give; the other ISO 8601 forms the standard library reads are
    never written by this code. A time zone is its offset, and [fold] is dropped. *)

From S2P Require Import Prelude Numerals PyText PyData CastNumeric CastDate Json.

(** ** Fixed-width numbers *)

(** ["%0wd" % n] of a number that fits. *)
Definition zfill (w : nat) (n : Z) : pystr := digit_chars (pos_digits 10 w n).

Lemma length_zfill w n : length (zfill w n) = w.
Proof. unfold zfill, digit_chars. by rewrite length_fmap, length_pos_digits. Qed.

Lemma zfill_digits w n : forallb digit (zfill w n) = true.
Proof.
  apply forallb_forall. intros c Hc. apply digit_ascii. pose proof (digit_chars_ascii _ (pos_digits_range 10 w n ltac:(lia))) as H.
  rewrite Stdlib.Lists.List.Forall_forall in H. by apply H.
Qed.

Lemma take_zfill w n rest : 0 <= n < 10 ^ Z.of_nat w -> take_digits w (zfill w n ++ rest) = Some (n, rest).
Proof.
  intros Hn. unfold take_digits. rewrite take_app_length', drop_app_length' by (symmetry; apply length_zfill).
  rewrite length_zfill, Nat.eqb_refl. cbn [andb]. change is_digit with digit. rewrite zfill_digits. unfold zfill.
  rewrite int_digits_chars, pos_val_digits_small by lia. done.
Qed.

(** The rest after a separator. *)
Definition expect (c : Z) (s : pystr) : option pystr :=
  match s with x :: s' => if x =? c then Some s' else None | [] => None end.

Lemma expect_cons c s : expect c (c :: s) = Some s.
Proof. cbn. by rewrite Z.eqb_refl. Qed.

(** ** Dates and times *)

Definition iso_date (y m d : Z) : pystr := zfill 4 y ++ 45 :: zfill 2 m ++ 45 :: zfill 2 d.

Definition read_date (s : pystr) : option (Z * Z * Z * pystr) :=
  '(y, s) ← take_digits 4 s; s ← expect 45 s; '(m, s) ← take_digits 2 s; s ← expect 45 s; '(d, s) ← take_digits 2 s;
  if valid_date y m d then Some (y, m, d, s) else None.

(** A time of day, its microseconds, and its offset from UTC in microseconds. *)
Record clock := MkClock { t_hour : Z; t_minute : Z; t_second : Z; t_micro : Z; t_offset : option Z }.

Definition DAY_US : Z := 86400000000.
Definition valid_clock (t : clock) : bool :=
  (0 <=? t_hour t) && (t_hour t <? 24) && (0 <=? t_minute t) && (t_minute t <? 60) && (0 <=? t_second t) && (t_second t <? 60) &&
  (0 <=? t_micro t) && (t_micro t <? 1000000) &&
  match t_offset t with Some o => (- DAY_US <? o) && (o <? DAY_US) | None => true end.

Definition iso_micro (us : Z) : pystr := if us =? 0 then [] else 46 :: zfill 6 us.

(** [_format_offset] *)
Definition iso_offset (o : option Z) : pystr :=
  match o with
  | None => []
  | Some o =>
      let a := Z.abs o in
      let ss := a / 1000000 mod 60 in
      let us := a mod 1000000 in
      (if o <? 0 then 45 else 43) :: zfill 2 (a / 3600000000) ++ 58 :: zfill 2 (a / 60000000 mod 60) ++
      (if (ss =? 0) && (us =? 0) then [] else 58 :: zfill 2 ss ++ iso_micro us)
  end.

Definition iso_time (t : clock) : pystr :=
  zfill 2 (t_hour t) ++ 58 :: zfill 2 (t_minute t) ++ 58 :: zfill 2 (t_second t) ++ iso_micro (t_micro t) ++ iso_offset (t_offset t).

Definition read_micro (s : pystr) : option (Z * pystr) :=
  match s with c :: s' => if c =? 46 then take_digits 6 s' else Some (0, s) | [] => Some (0, []) end.

(** The optional seconds of an offset, to the end of the text. *)
Definition read_seconds (s : pystr) : option (Z * Z) :=
  match s with
  | [] => Some (0, 0)
  | _ => s ← expect 58 s; '(ss, s) ← take_digits 2 s; '(us, s) ← read_micro s; match s with [] => Some (ss, us) | _ => None end
  end.

Definition read_offset (s : pystr) : option (option Z) :=
  match s with
  | [] => Some None
  | c :: s1 =>
      if (c =? 43) || (c =? 45) then
        '(hh, s2) ← take_digits 2 s1; s3 ← expect 58 s2; '(mm, s4) ← take_digits 2 s3;
        '(ss, us) ← read_seconds s4;
        let o := ((hh * 60 + mm) * 60 + ss) * 1000000 + us in
        Some (Some (if c =? 45 then - o else o))
      else None
  end.

Definition read_time (s : pystr) : option clock :=
  '(h, s) ← take_digits 2 s; s ← expect 58 s; '(m, s) ← take_digits 2 s; s ← expect 58 s; '(sec, s) ← take_digits 2 s;
  '(us, s) ← read_micro s; o ← read_offset s;
  let t := MkClock h m sec us o in if valid_clock t then Some t else None.

Lemma read_iso_date y m d rest : valid_date y m d = true -> read_date (iso_date y m d ++ rest) = Some (y, m, d, rest).
Proof.
  intros H. pose proof (valid_date_bounds _ _ _ H) as Hb. unfold iso_date, read_date. rewrite <- !app_assoc. cbn [app].
  rewrite take_zfill by (cbn; lia). cbn [mbind option_bind]. rewrite expect_cons. cbn [mbind option_bind]. rewrite <- app_assoc. cbn [app].
  rewrite take_zfill by (cbn; lia). cbn [mbind option_bind]. rewrite expect_cons. cbn [mbind option_bind].
  rewrite take_zfill by (cbn; lia). cbn [mbind option_bind]. by rewrite H.
Qed.

Lemma read_iso_micro us rest :
  0 <= us < 1000000 -> match rest with c :: _ => c <> 46 | [] => True end -> read_micro (iso_micro us ++ rest) = Some (us, rest).
Proof.
  intros Hu Hr. unfold iso_micro. destruct (Z.eqb_spec us 0) as [->|Hne].
  - destruct rest as [|c rest]; [done|]. cbn. by replace (c =? 46) with false by lia.
  - cbn [app read_micro]. change (46 =? 46) with true. cbn iota. apply take_zfill. cbn. lia.
Qed.

Lemma read_iso_offset o : match o with Some o => - DAY_US < o < DAY_US | None => True end -> read_offset (iso_offset o) = Some o.
Proof.
  destruct o as [o|]; [|done]. unfold DAY_US. intros Ho. unfold iso_offset. cbv zeta. set (a := Z.abs o). assert (Ha : 0 <= a < 86400000000) by (unfold a; lia).
  set (ss := a / 1000000 mod 60). set (us := a mod 1000000). set (hh := a / 3600000000). set (mm := a / 60000000 mod 60).
  assert (Hh : 0 <= hh < 100). { unfold hh. split; [apply Z.div_pos; lia|apply Z.div_lt_upper_bound; lia]. }
  assert (Hm : 0 <= mm < 60) by (apply Z.mod_pos_bound; lia). assert (Hs : 0 <= ss < 60) by (apply Z.mod_pos_bound; lia).
  assert (Hu : 0 <= us < 1000000) by (apply Z.mod_pos_bound; lia).
  assert (Hsum : ((hh * 60 + mm) * 60 + ss) * 1000000 + us = a).
  { unfold hh, mm, ss, us. replace 3600000000 with (60000000 * 60) by lia. rewrite <- Z.div_div by lia.
    pose proof (Z.div_mod (a / 60000000) 60 ltac:(lia)). replace 60000000 with (1000000 * 60) in * by lia. rewrite <- Z.div_div in * by lia.
    pose proof (Z.div_mod (a / 1000000) 60 ltac:(lia)). pose proof (Z.div_mod a 1000000 ltac:(lia)). lia. }
  unfold read_offset.
  assert (Hsg : ((if o <? 0 then 45 else 43) =? 43) || ((if o <? 0 then 45 else 43) =? 45) = true) by (by destruct (o <? 0)).
  rewrite Hsg, take_zfill by (cbn; lia). cbn [mbind option_bind]. rewrite expect_cons. cbn [mbind option_bind].
  rewrite take_zfill by (cbn; lia). cbn [mbind option_bind].
  assert (Hrest : read_seconds (if (ss =? 0) && (us =? 0) then [] else 58 :: zfill 2 ss ++ iso_micro us) = Some (ss, us)).
  { destruct ((ss =? 0) && (us =? 0)) eqn:E; [apply andb_true_iff in E; cbn; f_equal; f_equal; lia|]. unfold read_seconds. rewrite expect_cons. cbn [mbind option_bind].
    rewrite take_zfill by (cbn; lia). cbn [mbind option_bind]. pose proof (read_iso_micro us [] Hu I) as Hx. rewrite app_nil_r in Hx. by rewrite Hx. }
  rewrite Hrest. cbn [mbind option_bind]. do 2 f_equal. rewrite Hsum. unfold a. destruct (Z.ltb_spec o 0); cbn; lia.
Qed.

Lemma read_iso_time t : valid_clock t = true -> read_time (iso_time t) = Some t.
Proof.
  intros H. pose proof H as Hb. unfold valid_clock in Hb. rewrite !andb_true_iff in Hb. destruct Hb as [Hb Ho]. unfold iso_time, read_time.
  rewrite take_zfill by (cbn; lia). cbn [mbind option_bind]. rewrite expect_cons. cbn [mbind option_bind].
  rewrite take_zfill by (cbn; lia). cbn [mbind option_bind]. rewrite expect_cons. cbn [mbind option_bind].
  rewrite take_zfill by (cbn; lia). cbn [mbind option_bind]. rewrite read_iso_micro; [|lia|].
  - cbn [mbind option_bind]. rewrite read_iso_offset by (destruct (t_offset t); [lia|done]). cbn [mbind option_bind]. destruct t; cbn in *. by rewrite H.
  - destruct (t_offset t) as [o|]; [|done]. cbn. by destruct (o <? 0).
Qed.

(** [datetime.isoformat] and [fromisoformat]: a date, a [T] and a time. *)
Definition iso_datetime (y m d : Z) (t : clock) : pystr := iso_date y m d ++ 84 :: iso_time t.
Definition read_datetime (s : pystr) : option (Z * Z * Z * clock) :=
  '(y, m, d, s) ← read_date s; s ← expect 84 s; t ← read_time s; Some (y, m, d, t).

Lemma read_iso_datetime y m d t :
  valid_date y m d = true -> valid_clock t = true -> read_datetime (iso_datetime y m d t) = Some (y, m, d, t).
Proof.
  intros Hd Ht. unfold read_datetime, iso_datetime. rewrite read_iso_date by done. cbn [mbind option_bind]. rewrite expect_cons. cbn [mbind option_bind].
  by rewrite read_iso_time.
Qed.

(** ** Decimals *)

Definition zeros (n : Z) : pystr := replicate (Z.to_nat n) 48.

(** [str(d)] of a finite decimal: scientific notation, as the General Decimal
    Arithmetic specification writes it. *)
Definition dec_str (negative : bool) (coefficient exponent : Z) : pystr :=
  let digits := str_int coefficient in
  let left := exponent + zlen digits in
  let plain := (exponent <=? 0) && (-6 <? left) in
  let point := if plain then left else 1 in
  let '(whole, frac) :=
    if point <=? 0 then ([48], 46 :: zeros (- point) ++ digits)
    else if zlen digits <=? point then (digits ++ zeros (point - zlen digits), [])
    else (ztake point digits, 46 :: zdrop point digits) in
  (if negative then [45] else []) ++ whole ++ frac ++
  (if left =? point then [] else 69 :: (if left - point <? 0 then str_int (left - point) else 43 :: str_int (left - point))).

(** [Decimal(text)] of a finite number: sign, digits with an optional point, exponent. *)
Definition read_exponent (s : pystr) : option Z :=
  match s with
  | [] => Some 0
  | e :: s =>
      if (e =? 69) || (e =? 101) then
        let '(negative, s) := match s with c :: s' => if c =? 45 then (true, s') else if c =? 43 then (false, s') else (false, s) | [] => (false, s) end in
        match digits_of s with (d :: ds, []) => Some (if negative : bool then - int_digits (d :: ds) else int_digits (d :: ds)) | _ => None end
      else None
  end.

Definition read_decimal (s : pystr) : option (bool * Z * Z) :=
  let '(negative, s) := match s with c :: s' => if c =? 45 then (true, s') else if c =? 43 then (false, s') else (false, s) | [] => (false, s) end in
  let '(whole, s) := digits_of s in
  let '(frac, s) := match s with c :: s' => if c =? 46 then digits_of s' else ([], s) | [] => ([], s) end in
  if bool_decide (whole ++ frac = []) then None
  else e ← read_exponent s; Some (negative, int_digits (whole ++ frac), e - zlen frac).

Lemma int_digits_app a b : int_digits (a ++ b) = int_digits a * 10 ^ zlen b + int_digits b.
Proof.
  unfold int_digits. rewrite fmap_app, pos_val_app. unfold zlen. by rewrite length_fmap.
Qed.

Lemma int_zeros n : int_digits (zeros n) = 0.
Proof.
  unfold zeros. induction (Z.to_nat n) as [|k IH]; [done|]. cbn [replicate]. change (48 :: replicate k 48) with ([48] ++ replicate k 48).
  rewrite int_digits_app, IH. change (int_digits [48]) with 0. lia.
Qed.

Lemma zeros_digits n : forallb digit (zeros n) = true.
Proof. unfold zeros. by induction (Z.to_nat n). Qed.

Lemma read_exponent_str n : read_exponent (69 :: (if n <? 0 then str_int n else 43 :: str_int n)) = Some n.
Proof.
  assert (H : forall m, 0 <= m -> exists d ds, str_int m = d :: ds /\ digits_of (str_int m) = (d :: ds, [])).
  { intros m Hm. destruct (str_int_shape m Hm) as (d & ds & E & Hd & Hds & _). exists d, ds. split; [done|].
    rewrite E, <- (app_nil_r (d :: ds)). rewrite digits_of_app; [by rewrite app_nil_r|cbn; by rewrite Hd|done]. }
  unfold read_exponent. change ((69 =? 69) || (69 =? 101)) with true. cbn iota. destruct (Z.ltb_spec n 0) as [Hn|Hn].
  - destruct (H (- n)) as (d & ds & E & Ed); [lia|]. assert (En : str_int n = 45 :: str_int (- n)).
    { unfold str_int. replace (n <? 0) with true by lia. by replace (- n <? 0) with false by lia. }
    rewrite En. change (45 =? 45) with true. cbn iota. rewrite Ed, <- E, int_digits_str by lia. f_equal. lia.
  - destruct (H n Hn) as (d & ds & E & Ed). change (43 =? 45) with false. change (43 =? 43) with true. cbn iota.
    by rewrite Ed, <- E, int_digits_str.
Qed.

(** Reading a sign, digits, an optional fraction and an optional exponent. *)
Lemma read_decimal_parts (negative : bool) whole frac point e ex :
  forallb digit whole = true -> forallb digit frac = true -> whole <> [] -> point = [] /\ frac = [] \/ point = [46] ->
  ex = [] /\ e = 0 \/ ex = 69 :: (if e <? 0 then str_int e else 43 :: str_int e) ->
  read_decimal ((if negative then [45] else []) ++ whole ++ (point ++ frac) ++ ex) = Some (negative, int_digits (whole ++ frac), e - zlen frac).
Proof.
  intros Hw Hf Hne Hp Hex. unfold read_decimal.
  assert (Hs : (match (if negative then [45] else []) ++ whole ++ (point ++ frac) ++ ex with
                | c :: s' => if c =? 45 then (true, s') else if c =? 43 then (false, s')
                             else (false, (if negative then [45] else []) ++ whole ++ (point ++ frac) ++ ex)
                | [] => (false, (if negative then [45] else []) ++ whole ++ (point ++ frac) ++ ex) end) = (negative, whole ++ (point ++ frac) ++ ex)).
  { destruct negative; [done|]. destruct whole as [|c whole]; [done|]. cbn in Hw. apply andb_true_iff in Hw as [Hc _]. cbn [app].
    by rewrite (digit_not c 45), (digit_not c 43). }
  rewrite Hs. assert (Hx : match ex with c :: _ => digit c = false /\ c <> 46 | [] => True end) by (destruct Hex as [[-> _]| ->]; done).
  rewrite digits_of_app; [|done|].
  - destruct Hp as [[-> ->]| ->].
    + cbn [app]. assert (E : (match ex with c :: s' => if c =? 46 then digits_of s' else ([], ex) | [] => ([], ex) end) = ([], ex)).
      { destruct ex as [|c ex]; [done|]. destruct Hx as [_ Hx]. by replace (c =? 46) with false by lia. }
      rewrite E, app_nil_r, bool_decide_eq_false_2 by done. destruct Hex as [[-> ->]| ->]; [done|]. by rewrite read_exponent_str.
    + cbn [app]. change (46 =? 46) with true. cbn iota. rewrite digits_of_app; [|done|by destruct ex; [|destruct Hx]].
      rewrite bool_decide_eq_false_2 by (destruct whole; done). destruct Hex as [[-> ->]| ->]; [done|]. by rewrite read_exponent_str.
  - destruct Hp as [[-> ->]| ->]; [|done]. by destruct ex; [|destruct Hx].
Qed.

Lemma read_dec_str negative c e : 0 <= c -> read_decimal (dec_str negative c e) = Some (negative, c, e).
Proof.
  intros Hc. unfold dec_str. cbv zeta. set (ds := str_int c). destruct (str_int_shape c Hc) as (d & l & E & Hd & Hl & _).
  assert (Hds : forallb digit ds = true) by (unfold ds; rewrite E; cbn; by rewrite Hd).
  assert (Hn : 1 <= zlen ds) by (unfold ds; rewrite E; unfold zlen; cbn; lia). assert (Hv : int_digits ds = c) by (by apply int_digits_str).
  assert (Hne : ds <> []) by (unfold ds; by rewrite E).
  set (left := e + zlen ds). set (b := (e <=? 0) && (-6 <? left)). set (point := if b then left else 1).
  set (ex := if left =? point then [] else _).
  assert (Hex : ex = [] /\ left - point = 0 \/ ex = 69 :: (if left - point <? 0 then str_int (left - point) else 43 :: str_int (left - point))).
  { unfold ex. destruct (Z.eqb_spec left point); [left; split; [done|lia]|by right]. }
  destruct (Z.leb_spec point 0) as [Hp|Hp]; [|destruct (Z.leb_spec (zlen ds) point) as [Hq|Hq]].
  - pose proof (read_decimal_parts negative [48] (zeros (- point) ++ ds) [46] (left - point) ex eq_refl) as H.
    rewrite forallb_app, zeros_digits, Hds in H. etransitivity; [apply H; (done || by right)|]. rewrite !int_digits_app, int_zeros, Hv. change (int_digits [48]) with 0.
    rewrite zlen_app, Z.mul_0_l, !Z.add_0_l. do 2 f_equal. unfold zeros, zlen at 1. rewrite length_replicate. unfold left. lia.
  - assert (Hz : point - zlen ds = 0).
    { unfold point, b, left in *. destruct ((e <=? 0) && (-6 <? e + zlen ds)) eqn:Eb; [apply andb_true_iff in Eb; lia|lia]. }
    rewrite Hz. change (zeros 0) with (@nil Z). rewrite app_nil_r.
    pose proof (read_decimal_parts negative ds [] [] (left - point) ex Hds eq_refl Hne) as H. etransitivity; [apply H; (done || by left)|].
    rewrite app_nil_r, Hv. do 2 f_equal. unfold left, zlen at 2. cbn. lia.
  - assert (Hsp : ztake point ds ++ zdrop point ds = ds) by (unfold ztake, zdrop; apply take_drop).
    pose proof (read_decimal_parts negative (ztake point ds) (zdrop point ds) [46] (left - point) ex) as H.
    assert (Hb : forallb digit (ztake point ds ++ zdrop point ds) = true) by (by rewrite Hsp). rewrite forallb_app in Hb. apply andb_true_iff in Hb as [Hb1 Hb2].
    assert (Hlen : zlen (zdrop point ds) = zlen ds - point) by (unfold zlen, zdrop in *; rewrite length_drop; lia).
    etransitivity; [apply H; [done|done|intros E0|by right|done]|].
    2:{ rewrite Hsp, Hv, Hlen. do 2 f_equal. unfold left. lia. }
    assert (zlen (ztake point ds) = 0) by (by rewrite E0). unfold zlen, ztake in *. rewrite length_take in *. lia.
Qed.

(** ** Octets *)

Definition hex_str (b : bytes) : pystr := b ≫= fun x => [hex_char (x / 16); hex_char (x mod 16)].

(** [bytes.fromhex]: pairs of digits, with blanks between them. *)
Fixpoint fromhex (s : pystr) : option bytes :=
  match s with
  | [] => Some []
  | a :: s1 =>
      if bool_decide (a ∈ [9; 10; 11; 12; 13; 32]) then fromhex s1
      else match s1 with
           | c :: s2 => x ← hex_value a; y ← hex_value c; l ← fromhex s2; Some (x * 16 + y :: l)
           | [] => None
           end
  end.

Lemma fromhex_str b : Forall is_byte b -> fromhex (hex_str b) = Some b.
Proof.
  unfold is_byte, in_radix. induction 1 as [|x b Hx _ IH]; [done|]. unfold hex_str. rewrite bind_cons. fold (hex_str b). cbn [app fromhex].
  pose proof (Z.mod_pos_bound x 16 ltac:(lia)). assert (0 <= x / 16 < 16) by (split; [apply Z.div_pos; lia|apply Z.div_lt_upper_bound; lia]).
  rewrite bool_decide_eq_false_2.
  - rewrite !hex_value_char by lia. cbn [mbind option_bind]. rewrite IH. cbn. do 2 f_equal. pose proof (Z.div_mod x 16). lia.
  - unfold hex_char. destruct (Z.ltb_spec (x / 16) 10); rewrite !elem_of_cons, elem_of_nil; lia.
Qed.
