(* ===== verification/QuarantineCodec.v ===== *)
(** * The quarantine value codec (declared_casting/_quarantine_codec.py)

    A raw cell is stored as JSON, with a one-key tag for each type JSON lacks. The
    cells are the values an Arrow row gives: a [dict] cell is a struct, whose keys
    are its distinct field names. *)

From S2P Require Import Prelude Numerals PyText PyData CastNumeric CastDate Json PyRepr.

Section Codec.
Context `{F : PyFloat}.

Inductive pycell :=
| CNone
| CBool (b : bool)
| CInt (n : Z)
| CFloat (f : pyfloat)
| CStr (s : pystr)
| CBytes (b : bytes)
| CDec (negative : bool) (coefficient exponent : Z)
| CDateTime (y m d : Z) (t : clock)
| CDate (y m d : Z)
| CTime (t : clock)
| CDelta (days seconds microseconds : Z)
| CList (l : list pycell)
| CTuple (l : list pycell)
| CMap (d : list (pystr * pycell))
| COther.

Definition tagged (tag : string) (body : json) : json := JObj [(py tag, body)].

(** [_encode]: any other type is refused. *)
Fixpoint _encode (value : pycell) : result json :=
  match value with
  | CNone => Ok JNull
  | CBool b => Ok (JBool b)
  | CInt n => Ok (JInt n)
  | CFloat f => Ok (JFloat f)
  | CStr s => Ok (JStr s)
  | CBytes b => Ok (tagged "$hex" (JStr (hex_str b)))
  | CDec negative c e => Ok (tagged "$dec" (JStr (dec_str negative c e)))
  | CDateTime y m d t => Ok (tagged "$datetime" (JStr (iso_datetime y m d t)))
  | CDate y m d => Ok (tagged "$date" (JStr (iso_date y m d)))
  | CTime t => Ok (tagged "$time" (JStr (iso_time t)))
  | CDelta days seconds us => Ok (tagged "$td" (JArr [JInt days; JInt seconds; JInt us]))
  | CTuple l => vs ← map_res _encode l; Ok (tagged "$tuple" (JArr vs))
  | CList l => vs ← map_res _encode l; Ok (tagged "$list" (JArr vs))
  | CMap d => kvs ← map_res (fun kv => v ← _encode kv.2; Ok (JArr [JStr kv.1; v])) d; Ok (tagged "$map" (JArr kvs))
  | COther => Err (exc "TypeError")
  end.

(** A JSON value as it is. *)
Fixpoint untagged (v : json) : pycell :=
  match v with
  | JNull => CNone
  | JBool b => CBool b
  | JInt n => CInt n
  | JFloat f => CFloat f
  | JStr s => CStr s
  | JArr l => CList (map untagged l)
  | JObj d => CMap (map (fun kv => (kv.1, untagged kv.2)) d)
  end.

(** [timedelta(days=, seconds=, microseconds=)] *)
Definition timedelta (days seconds us : Z) : result pycell :=
  let s := seconds + us / 1000000 in
  let d := days + s / 86400 in
  if (- 999999999 <=? d) && (d <=? 999999999) then Ok (CDelta d (s mod 86400) (us mod 1000000)) else Err (exc "OverflowError").

Definition text_of (v : json) : result pystr := match v with JStr s => Ok s | _ => Err (exc "TypeError") end.
Definition items_of (v : json) : result (list json) :=
  match v with
  | JArr l => Ok l
  | JStr s => Ok ((fun c => JStr [c]) <$> s)
  | JObj d => Ok ((fun kv => JStr kv.1) <$> d)
  | _ => Err (exc "TypeError")
  end.
Definition int_of (v : json) : result Z := match v with JInt n => Ok n | _ => Err (exc "TypeError") end.

Definition value_error {A} (o : option A) : result A := of_option (exc "ValueError") o.

(** [_decode], with enough fuel for the value's depth. *)
Fixpoint decode (fuel : nat) (value : json) : result pycell :=
  match fuel, value with
  | S fuel, JObj [(tag, body)] =>
      if bool_decide (tag = py "$hex") then s ← text_of body; b ← value_error (fromhex s); Ok (CBytes b)
      else if bool_decide (tag = py "$dec") then
        s ← text_of body; d ← of_option (exc "InvalidOperation") (read_decimal s); Ok (CDec d.1.1 d.1.2 d.2)
      else if bool_decide (tag = py "$datetime") then
        s ← text_of body; d ← value_error (read_datetime s); Ok (CDateTime d.1.1.1 d.1.1.2 d.1.2 d.2)
      else if bool_decide (tag = py "$date") then
        s ← text_of body;
        d ← value_error (match read_date s with Some (y, m, d, []) => Some (y, m, d) | _ => None end); Ok (CDate d.1.1 d.1.2 d.2)
      else if bool_decide (tag = py "$time") then s ← text_of body; t ← value_error (read_time s); Ok (CTime t)
      else if bool_decide (tag = py "$td") then
        match body with
        | JArr (d :: s :: us :: _) => d ← int_of d; s ← int_of s; us ← int_of us; timedelta d s us
        | JArr _ => Err (exc "IndexError")
        | _ => Err (exc "TypeError")
        end
      else if bool_decide (tag = py "$list") then l ← items_of body; vs ← map_res (decode fuel) l; Ok (CList vs)
      else if bool_decide (tag = py "$tuple") then l ← items_of body; vs ← map_res (decode fuel) l; Ok (CTuple vs)
      else if bool_decide (tag = py "$map") then
        l ← items_of body;
        kvs ← map_res (fun kv => match kv with
                                 | JArr [k; v] => k ← decode fuel k; v ← decode fuel v;
                                                  match k with CStr s => Ok (s, v) | _ => Err (exc "TypeError") end
                                 | _ => Err (exc "ValueError")
                                 end) l;
        Ok (CMap (od_of kvs))
      else Err (exc "ValueError")
  | _, _ => Ok (untagged value)
  end.
Definition _decode (value : json) : result pycell := decode (S (depth value)) value.

(** ** Round trip *)

(** A cell an Arrow row can hold. *)
Fixpoint cell_ok (c : pycell) : Prop :=
  match c with
  | CStr s => Forall text_char s
  | CBytes b => Forall is_byte b
  | CDec _ c _ => 0 <= c
  | CDateTime y m d t => valid_date y m d = true /\ valid_clock t = true
  | CDate y m d => valid_date y m d = true
  | CTime t => valid_clock t = true
  | CDelta d s us => - 999999999 <= d <= 999999999 /\ 0 <= s < 86400 /\ 0 <= us < 1000000
  | CList l | CTuple l => foldr and True (map cell_ok l)
  | CMap d => NoDup d.*1 /\ Forall (Forall text_char) d.*1 /\ foldr and True (map (fun kv => cell_ok kv.2) d)
  | COther => False
  | _ => True
  end.

Section CellInd.
Context (P : pycell -> Prop).
Context (Hleaf : forall c, match c with CList _ | CTuple _ | CMap _ => True | _ => P c end)
  (Hlist : forall l, Forall P l -> P (CList l)) (Htuple : forall l, Forall P l -> P (CTuple l))
  (Hmap : forall d, Forall (fun kv => P kv.2) d -> P (CMap d)).
Lemma cell_induction c : P c.
Proof.
  revert c. fix IH 1. intros c. destruct c eqn:E.
  1-11: clear IH; subst c; match goal with |- P ?c => exact (Hleaf c) end.
  - apply Hlist. clear E. induction l as [|x l IHl]; constructor; [apply IH|exact IHl].
  - apply Htuple. clear E. induction l as [|x l IHl]; constructor; [apply IH|exact IHl].
  - apply Hmap. clear E. induction d as [|x d IHd]; constructor; [apply IH|exact IHd].
  - clear IH. subst c. exact (Hleaf COther).
Qed.
End CellInd.

(** What a cell's encoding has to be: writable, unchanged by writing, and read back. *)
Definition codes (c : pycell) (v : json) : Prop :=
  _encode c = Ok v /\ json_ok v /\ norm v = v /\ forall fuel, (depth v < fuel)%nat -> decode fuel v = Ok c.

Lemma codes_list l : Forall (fun c => cell_ok c -> exists v, codes c v) l -> Forall cell_ok l ->
  exists vs, map_res _encode l = Ok vs /\ Forall json_ok vs /\ map norm vs = vs /\
    forall fuel, Forall (fun v => (depth v < fuel)%nat) vs -> map_res (decode fuel) vs = Ok l.
Proof.
  induction 1 as [|c l Hc _ IH]; intros Hok; [exists []; by split_and!|]. apply Forall_cons_iff in Hok as [Hc' Hok].
  destruct (Hc Hc') as (v & E & Hj & Hn & Hd). destruct (IH Hok) as (vs & Es & Hjs & Hns & Hds).
  exists (v :: vs). cbn [map_res]. rewrite E, Es. split_and!; [done|by constructor|cbn; by rewrite Hn, Hns|].
  intros fuel Hf. apply Forall_cons_iff in Hf as [Hf1 Hf2]. cbn [map_res]. by rewrite Hd, Hds.
Qed.

Definition pair_value (kv : pystr * pycell) : result json := v ← _encode kv.2; Ok (JArr [JStr kv.1; v]).
Definition read_pair (fuel : nat) (kv : json) : result (pystr * pycell) :=
  match kv with
  | JArr [k; v] => k ← decode fuel k; v ← decode fuel v; match k with CStr s => Ok (s, v) | _ => Err (exc "TypeError") end
  | _ => Err (exc "ValueError")
  end.

Lemma codes_map d : Forall (fun kv => cell_ok kv.2 -> exists v, codes kv.2 v) d -> Forall (Forall text_char) d.*1 -> Forall (fun kv => cell_ok kv.2) d ->
  exists vs, map_res pair_value d = Ok vs /\ Forall json_ok vs /\ map norm vs = vs /\
    forall fuel, Forall (fun v => (depth v <= fuel)%nat) vs -> map_res (read_pair fuel) vs = Ok d.
Proof.
  induction 1 as [|[k c] d Hc _ IH]; intros Hk Hok; [exists []; by split_and!|]. apply Forall_cons_iff in Hok as [Hc' Hok].
  cbn [fmap list_fmap] in Hk. apply Forall_cons_iff in Hk as [Hk Hks].
  destruct (Hc Hc') as (v & E & Hj & Hn & Hd). destruct (IH Hks Hok) as (vs & Es & Hjs & Hns & Hds).
  cbn [snd fst] in *. assert (Ep : pair_value (k, c) = Ok (JArr [JStr k; v])) by (unfold pair_value; cbn [snd fst]; by rewrite E).
  exists (JArr [JStr k; v] :: vs). cbn [map_res]. rewrite Ep. cbn [mbind result_bind]. rewrite Es. split_and!; [done|constructor; [by split_and!|done]|cbn; by rewrite Hn, Hns|].
  intros fuel Hf. apply Forall_cons_iff in Hf as [Hf1 Hf2]. cbn [depth map foldr] in Hf1. cbn [map_res read_pair].
  destruct fuel as [|fuel]; [lia|]. rewrite Hd by lia. change (decode (S fuel) (JStr k)) with (Ok (CStr k) : result pycell). cbn [mbind result_bind].
  by rewrite Hds.
Qed.

Lemma digits_text s : forallb plain s = true -> Forall text_char s.
Proof.
  rewrite forallb_forall, list.Forall_forall. intros H c Hc%list_elem_of_In%H. unfold plain in Hc. apply andb_true_iff in Hc. unfold text_char. lia.
Qed.
Lemma plain_zfill w n : forallb plain (zfill w n) = true.
Proof. apply plain_digits, zfill_digits. Qed.

Ltac plain_parts := repeat progress (rewrite ?forallb_app, ?plain_zfill; cbn [forallb app]).

Lemma plain_iso_date y m d : forallb plain (iso_date y m d) = true.
Proof. unfold iso_date. by plain_parts. Qed.

Lemma plain_micro us : forallb plain (iso_micro us) = true.
Proof. unfold iso_micro. destruct (us =? 0); [done|]. by plain_parts. Qed.

Lemma plain_offset o : forallb plain (iso_offset o) = true.
Proof.
  destruct o as [o|]; [|done]. unfold iso_offset. cbv zeta. cbn [forallb].
  assert (E : plain (if o <? 0 then 45 else 43) = true) by (by destruct (o <? 0)). rewrite E. plain_parts.
  match goal with |- context [if ?b then [] else _] => destruct b end; [done|]. plain_parts. by rewrite plain_micro.
Qed.

Lemma plain_iso_time t : forallb plain (iso_time t) = true.
Proof. unfold iso_time. plain_parts. by rewrite plain_micro, plain_offset. Qed.

Lemma plain_iso_datetime y m d t : forallb plain (iso_datetime y m d t) = true.
Proof. unfold iso_datetime. rewrite forallb_app, plain_iso_date. cbn [forallb]. by rewrite plain_iso_time. Qed.

Lemma plain_dec_str n c e : forallb plain (dec_str n c e) = true.
Proof.
  unfold dec_str. cbv zeta. set (ds := str_int c). assert (Hd : forallb plain ds = true) by apply plain_int.
  assert (Hz : forall k, forallb plain (zeros k) = true) by (intros k; apply plain_digits, zeros_digits).
  assert (Hs : forall p, forallb plain (ztake p ds) = true /\ forallb plain (zdrop p ds) = true).
  { intros p. rewrite <- andb_true_iff, <- forallb_app. unfold ztake, zdrop. by rewrite take_drop. }
  set (b := (e <=? 0) && _). set (p := if b then _ else 1).
  destruct (p <=? 0); [|destruct (zlen ds <=? p)].
  all: rewrite ?forallb_app; repeat (cbn [forallb]; rewrite ?forallb_app); rewrite ?Hd, ?Hz, ?(proj1 (Hs _)), ?(proj2 (Hs _)).
  all: destruct n; cbn [forallb andb]; destruct (_ =? p); cbn [forallb andb]; try done; destruct (_ <? 0); cbn [forallb]; by rewrite plain_int.
Qed.

Lemma plain_hex_str b : Forall is_byte b -> forallb plain (hex_str b) = true.
Proof.
  unfold is_byte, in_radix. induction 1 as [|x b Hx _ IH]; [done|]. unfold hex_str. rewrite bind_cons. fold (hex_str b). rewrite forallb_app, IH. cbn [forallb].
  assert (H : forall d, 0 <= d < 16 -> plain (hex_char d) = true).
  { intros d Hd. unfold hex_char, plain. destruct (Z.ltb_spec d 10); apply andb_true_iff; lia. }
  pose proof (Z.mod_pos_bound x 16 ltac:(lia)). assert (0 <= x / 16 < 16) by (split; [apply Z.div_pos; lia|apply Z.div_lt_upper_bound; lia]).
  by rewrite !H.
Qed.

Lemma codes_tagged c tag body :
  _encode c = Ok (tagged tag body) -> Forall text_char (py tag) -> json_ok body -> norm body = body ->
  (forall fuel, (depth body <= fuel)%nat -> decode (S fuel) (tagged tag body) = Ok c) -> codes c (tagged tag body).
Proof.
  intros He Ht Hj Hn Hd. split; [done|]. split; [|split].
  - cbn. split_and!; try done; [apply NoDup_singleton|by constructor].
  - unfold tagged. cbn. by rewrite Hn.
  - intros [|fuel] Hf; [lia|]. cbn [depth tagged map foldr snd] in Hf. apply Hd. lia.
Qed.

Ltac text_tag := apply digits_text; vm_compute; reflexivity.

Lemma depths_below vs fuel : (S (foldr Nat.max 0 (map depth vs)) <= fuel)%nat -> Forall (fun v => (depth v < fuel)%nat) vs.
Proof.
  intros Hf. assert (H : (foldr Nat.max 0 (map depth vs) <= fuel - 1)%nat) by lia. apply foldr_max in H.
  eapply Forall_impl; [|exact H]. cbn. lia.
Qed.

Lemma leaf_codes c : match c with CList _ | CTuple _ | CMap _ => True | _ => cell_ok c -> exists v, codes c v end.
Proof.
  destruct c as [|b|n|f|s|b|n c e|y m d t|y m d|t|d s us|l|l|d|]; try done; intros Hok; cbn [cell_ok] in Hok.
  1-5: eexists; split; [reflexivity|]; split; [done|]; split; [done|]; intros [|fuel] Hf; [cbn in Hf; lia|reflexivity].
  all: eexists; apply codes_tagged; [reflexivity|text_tag| |done|intros fuel _; cbn [decode tagged]].
  - cbn. by apply digits_text, plain_hex_str.
  - cbn [text_of mbind result_bind]. by rewrite fromhex_str.
  - cbn. apply digits_text, plain_dec_str.
  - cbn [text_of mbind result_bind]. by rewrite read_dec_str.
  - cbn. apply digits_text, plain_iso_datetime.
  - cbn [text_of mbind result_bind]. destruct Hok. by rewrite read_iso_datetime.
  - cbn. apply digits_text, plain_iso_date.
  - cbn [text_of mbind result_bind]. pose proof (read_iso_date y m d [] Hok) as H. rewrite app_nil_r in H. by rewrite H.
  - cbn. apply digits_text, plain_iso_time.
  - cbn [text_of mbind result_bind]. by rewrite read_iso_time.
  - done.
  - cbn [int_of mbind result_bind]. unfold timedelta. destruct Hok as (H1 & H2 & H3). rewrite (Z.div_small us) by done. rewrite Z.add_0_r, (Z.div_small s) by done.
    rewrite Z.add_0_r, !Z.mod_small by done. by replace ((-999999999 <=? d) && (d <=? 999999999)) with true by (symmetry; apply andb_true_iff; lia).
Qed.

(** Every cell an Arrow row can hold is encoded, and read back as itself. *)
Lemma encode_codes c : cell_ok c -> exists v, codes c v.
Proof.
  revert c. apply (cell_induction (fun c => cell_ok c -> exists v, codes c v)); [exact leaf_codes|..].
  - intros l IH Hok. cbn [cell_ok] in Hok. apply foldr_and in Hok. destruct (codes_list l IH Hok) as (vs & E & Hj & Hn & Hd). exists (tagged "$list" (JArr vs)).
    apply codes_tagged; [cbn [_encode]; by rewrite E|text_tag|by apply foldr_and|cbn; by rewrite Hn|].
    intros fuel Hf. cbn [decode tagged]. cbn [items_of mbind result_bind depth] in *. by rewrite (Hd _ (depths_below _ _ Hf)).
  - intros l IH Hok. cbn [cell_ok] in Hok. apply foldr_and in Hok. destruct (codes_list l IH Hok) as (vs & E & Hj & Hn & Hd). exists (tagged "$tuple" (JArr vs)).
    apply codes_tagged; [cbn [_encode]; by rewrite E|text_tag|by apply foldr_and|cbn; by rewrite Hn|].
    intros fuel Hf. cbn [decode tagged]. cbn [items_of mbind result_bind depth] in *. by rewrite (Hd _ (depths_below _ _ Hf)).
  - intros d IH Hok. cbn [cell_ok] in Hok. destruct Hok as (Hnd & Hk & Hok). apply foldr_and in Hok.
    destruct (codes_map d IH Hk Hok) as (vs & E & Hj & Hn & Hd). exists (tagged "$map" (JArr vs)).
    apply codes_tagged; [cbn [_encode]; fold pair_value; by rewrite E|text_tag|by apply foldr_and|cbn; by rewrite Hn|].
    intros fuel Hf. cbn [decode tagged]. fold (read_pair fuel). cbn [items_of mbind result_bind depth] in *.
    rewrite (Hd fuel) by (eapply Forall_impl; [|exact (depths_below _ _ Hf)]; cbn; lia).
    cbn [mbind result_bind]. by rewrite od_of_distinct.
Qed.
End Codec.
