(* ===== verification/QuarantineStore.v ===== *)
(** * The local quarantine store (declared_casting/_quarantine_local.py, _quarantine_protocol.py)

    [LocalProtectedQuarantineSink]: a session appends rows to a partial file as
    encrypted, length-prefixed frames; an artifact becomes readable by a rename after
    its digest trailer; a reader presents a token bound to the owner, the run and the
    artifact. The checks that directories are private to the user, and links, are
    not modelled; one call of the system stands for the
    preparation of an owner's directory. *)

From S2P Require Import Prelude Numerals PyText PyData Sha256 Derive Reasons Json PyRepr QuarantineCodec.

(** ** The services of the store

    The operating system's files, the clock, the random generator, the key provider
    and Fernet, with the two routines that only call the system: [_write_all] and
    [_discard_partial]. Each call of the operating system may fail, and a write may
    land short: which calls do is the class [OsFaults]. Fernet is the [cryptography]
    package's and enters as [FernetOps]; the key provider and the clock are the
    injected services. *)

(** ** Services *)

Class FernetOps := {
  fernet_encrypt : bytes -> nat -> bytes -> bytes;        (* the key, the call, the payload *)
  fernet_decrypt : bytes -> bytes -> option bytes;        (* none: InvalidToken *)
}.

(** The [cryptography] package: a token opens under its key as its payload, and
    carries at least its version, time, nonce and signature. *)
Class FernetLaws (E : FernetOps) : Prop := {
  fernet_opens k n p : Forall is_byte p -> fernet_decrypt k (fernet_encrypt k n p) = Some p;
  fernet_token k n p : fernet_encrypt k n p <> [];
}.

(** Which system calls succeed, and how many of [n] octets a write lands. *)
Class OsFaults := { os_ok : nat -> bool; landed : nat -> Z -> Z }.

(** Readings of the injected clock, and the language's arithmetic and order on floats. *)
Class ClockOps (F : PyFloat) := {
  now_at : nat -> ffloat;                                 (* the readings *)
  plus_seconds : ffloat -> Z -> ffloat;                   (* a float and an int added *)
  float_le : ffloat -> ffloat -> bool;
  int_le_float : Z -> ffloat -> bool;
}.

(** [key_provider.mask_key()], which may raise, and its version. *)
Record KeyProvider := MkKeys { mask_key : result bytes; key_version : pystr }.

(** ** The operating system *)

Inductive extension := partial_file | dqa_file.
#[global] Instance extension_eq_dec : EqDecision extension. Proof. solve_decision. Defined.
#[global] Instance extension_countable : Countable extension.
Proof. apply (inj_countable' (fun e => match e with partial_file => true | dqa_file => false end) (fun b => if b then partial_file else dqa_file)). by intros []. Defined.

(** A file of the store: its owner's directory, its run identifier, its extension. *)
Abbreviation path := (pystr * pystr * extension)%type.

(** The files, and the calls made so far of the system, the generator and the clock. *)
Record Os := MkOs { files : gmap path bytes; calls : nat; drawn : nat; readings : nat }.

(** ** Failures *)

(** A registered [QuarantineError] with its cleanup state, or any other exception. *)
Inductive failure := QuarantineError (code cleanup : string) | Other (e : exn).

Definition St (S A : Type) : Type := S -> S * (A + failure).
#[global] Instance st_ret S : MRet (St S) := fun A a s => (s, inl a).
#[global] Instance st_bind S : MBind (St S) := fun A B f m s =>
  match m s with (s', inl a) => f a s' | (s', inr e) => (s', inr e) end.
Definition raising {S A} (m : result A) : St S A := fun s => (s, match m with Ok a => inl a | Err e => inr (Other e) end).
Definition raise {S A} (e : failure) : St S A := fun s => (s, inr e).
(** [try: m except E: h], where [caught] says which exceptions. *)
Definition catching {S A} (caught : failure -> bool) (m h : St S A) : St S A := fun s =>
  match m s with (s', inr e) => if caught e then h s' else (s', inr e) | out => out end.

Definition OSError : exn := exc "OSError".
Definition FileNotFoundError : exn := exc "FileNotFoundError".
Definition FileExistsError : exn := exc "FileExistsError".
Definition os_errors : list string := ["OSError"; "FileNotFoundError"; "FileExistsError"]%string.
Definition value_errors : list string := ["ValueError"; "UnicodeEncodeError"; "UnicodeDecodeError"]%string.
Definition in_classes (l : list string) (e : failure) : bool :=
  match e with Other x => bool_decide (exc_class x ∈ l) | QuarantineError _ _ => false end.
Definition is_os_error : failure -> bool := in_classes os_errors.
Definition any_exception (e : failure) : bool := true.

Definition WRITE_FAILED : string := "protected_quarantine_write_failed".
Definition SEAL_FAILED : string := "protected_quarantine_seal_failed".
Definition ACCESS_DENIED : string := "protected_quarantine_access_denied".
Definition EXPIRED : string := "protected_quarantine_expired".
Definition _qerror (code : string) : failure := QuarantineError code "not_needed".

Section System.
Context {F : PyFloat} {OF : OsFaults} {T : ClockOps F}.
(** [secrets.token_hex(16)] at its n-th call. *)
Context (token_hex : nat -> pystr).

(** One system call: it fails with an [OSError], or does what [f] says. *)
Definition os_call {A} (f : gmap path bytes -> gmap path bytes * (A + failure)) : St Os A := fun w =>
  let k := calls w in
  if os_ok k then
    let '(fs, out) := f (files w) in (MkOs fs (S k) (drawn w) (readings w), out)
  else (MkOs (files w) (S k) (drawn w) (readings w), inr (Other OSError)).

Definition os_noop : St Os unit := os_call (fun fs => (fs, inl tt)).
Definition os_create (p : path) : St Os unit := os_call (fun fs =>
  match fs !! p with Some _ => (fs, inr (Other FileExistsError)) | None => (<[p := []]> fs, inl tt) end).
Definition os_unlink (p : path) : St Os unit := os_call (fun fs =>
  match fs !! p with Some _ => (delete p fs, inl tt) | None => (fs, inr (Other FileNotFoundError)) end).
Definition os_replace (p q : path) : St Os unit := os_call (fun fs =>
  match fs !! p with Some b => (<[q := b]> (delete p fs), inl tt) | None => (fs, inr (Other FileNotFoundError)) end).
Definition os_read (p : path) : St Os bytes := os_call (fun fs =>
  match fs !! p with Some b => (fs, inl b) | None => (fs, inr (Other FileNotFoundError)) end).

(** [os.write(fd, data)]: how many octets landed. A file unlinked while open takes them nowhere. *)
Definition os_write (p : path) (data : bytes) : St Os Z := fun w =>
  let n := Z.min (landed (calls w) (zlen data)) (zlen data) in
  os_call (fun fs => (match fs !! p with Some b => <[p := b ++ ztake n data]> fs | None => fs end, inl n)) w.

(** Every octet, or an [OSError]; a write that makes no progress is a failure. *)
Fixpoint write_loop (fuel : nat) (p : path) (data : bytes) : St Os unit :=
  match data with
  | [] => mret tt
  | _ =>
      match fuel with
      | O => raise (Other OSError)
      | S fuel => n ← os_write p data; if n <=? 0 then raise (Other OSError) else write_loop fuel p (zdrop n data)
      end
  end.
Definition _write_all (p : path) (data : bytes) : St Os unit := write_loop (length data) p data.

Definition _discard_partial (p : path) : St Os string :=
  closed ← catching is_os_error (_ ← os_noop; mret true) (mret false);
  catching is_os_error (_ ← catching (in_classes ["FileNotFoundError"]) (os_unlink p) (mret tt); mret (if closed : bool then "confirmed" else "failed"))
    (mret "failed")%string.

Definition clock_now : St Os ffloat := fun w => (MkOs (files w) (calls w) (drawn w) (S (readings w)), inl (now_at (readings w))).
Definition draw_hex : St Os pystr := fun w => (MkOs (files w) (calls w) (S (drawn w)) (readings w), inl (token_hex (drawn w))).
End System.

Section Store.
Context {F : PyFloat} {E : FernetOps} {OF : OsFaults} {T : ClockOps F}.
Context (token_hex : nat -> pystr).
Context (g : Registry) (keys : KeyProvider).
(** [str] of a JSON list or object, which only a foreign header can hold. *)
Context (container_str : json -> pystr).

(** ** Sessions *)

Record Policy := MkPolicy { retention_seconds : Z; max_rows : Z; max_bytes : Z }.

(** [fd] is open or not; [sha] is what the digest has absorbed. *)
Record _State := MkState {
  s_owner : pystr; s_run_id : pystr; s_run_hash : pystr; s_name : pystr; fd_open : bool;
  policy : Policy; created_at : ffloat; expires_at : ffloat; sha : bytes;
  n_rows : Z; plain_bytes : Z; buffer : list bytes; buffer_bytes : Z;
}.
Definition partial (s : _State) : path := (s_owner s, s_name s, partial_file).
Definition final (s : _State) : path := (s_owner s, s_name s, dqa_file).
Definition ref_of (owner_hash run_id : pystr) : pystr := owner_hash ++ 45 :: run_id.
Definition ref (s : _State) : pystr := ref_of (s_owner s) (s_name s).

Definition set_fd (s : _State) (o : bool) : _State :=
  MkState (s_owner s) (s_run_id s) (s_run_hash s) (s_name s) o (policy s) (created_at s) (expires_at s) (sha s) (n_rows s) (plain_bytes s) (buffer s) (buffer_bytes s).
Definition set_sha (s : _State) (b : bytes) : _State :=
  MkState (s_owner s) (s_run_id s) (s_run_hash s) (s_name s) (fd_open s) (policy s) (created_at s) (expires_at s) b (n_rows s) (plain_bytes s) (buffer s) (buffer_bytes s).
Definition set_buffer (s : _State) (rows bytes : Z) (l : list (list Z)) (n : Z) : _State :=
  MkState (s_owner s) (s_run_id s) (s_run_hash s) (s_name s) (fd_open s) (policy s) (created_at s) (expires_at s) (sha s) rows bytes l n.

Definition hexdigest (b : bytes) : pystr := hex_str (sha256 b).
Definition _owner_hash (owner : pystr) : result pystr := b ← utf8_encode owner; Ok (take 32 (hexdigest b)).
Definition _run_hash (run_id : pystr) : result pystr := b ← utf8_encode run_id; Ok (take 32 (hexdigest (py "run:" ++ b))).

Definition _MAGIC : bytes := py "DQA1" ++ [10].
Definition _SALT : bytes := py "decoy-engine/protected-quarantine/v1".
Definition _CHUNK_ROWS : Z := 256.
Definition _CHUNK_BYTES : Z := 2 ^ 20.
Definition PROTECTION_ENCRYPTED : pystr := py "encrypted".

(** [struct.pack(">I", n)] *)
Definition pack_u32 (n : Z) : result bytes := match to_bytes n 4 with Ok b => Ok b | Err _ => Err (exc "struct.error") end.

(** The key of the store's frames, and the one of its tokens. *)
Definition derived_key (purpose : string) : result bytes :=
  k ← mask_key keys; v ← utf8_encode (key_version keys); hkdf_sha256 k _SALT (py purpose ++ v) 32.
Definition _fernet : result bytes := derived_key "quarantine-fernet/".
Definition _token_key : result bytes := derived_key "quarantine-token/".

(** ** Qualification *)

Record QuarantineCapability := MkCapability { protection : pystr; cap_key_version : pystr; qualified : bool; detail : string }.

(** What preparing the arena finds: an [OSError], a [ValueError], or a private directory. *)
Inductive arena := arena_ready | arena_io_error | arena_not_private.

(** [capability], for a key provider that is a seed or not, under an ambient file policy or not. *)
Definition capability (is_seed ambient : bool) (root : arena) : QuarantineCapability :=
  let refuse := MkCapability PROTECTION_ENCRYPTED (key_version keys) false in
  if is_seed || bool_decide (key_version keys = py "seed") then refuse "seed_key_provider"%string
  else if negb (match mask_key keys with Ok k => 32 <=? zlen k | Err _ => false end) then refuse "weak_key"%string
  else if negb ambient then refuse "arena_needs_ambient_policy"%string
  else match root with
       | arena_io_error => refuse "arena_unavailable"%string
       | arena_not_private => refuse "arena_unsafe"%string
       | arena_ready => MkCapability PROTECTION_ENCRYPTED (key_version keys) true ""
       end.

Definition _DETAIL_TOKENS : list string := ["seed_key_provider"; "weak_key"; "arena_unavailable"; "arena_unsafe"]%string.

(** A runtime as [qualify_runtime] sees it: its sink, if any, with its capability when it
    is a sink at all, and its owner, if that is text. *)
Record Runtime := MkRuntime { rt_sink : option (option QuarantineCapability); rt_owner : option pystr }.

Definition qualify_runtime (runtime : option Runtime) (required_protection : pystr) : option string :=
  match runtime with
  | Some (MkRuntime (Some sink) (Some owner)) =>
      if bool_decide (owner = []) then Some "empty_owner"%string
      else
        match sink with
        | None => Some "sink_protocol"%string
        | Some cap =>
            if negb (qualified cap) then Some (if bool_decide (detail cap ∈ _DETAIL_TOKENS) then detail cap else "unqualified")%string
            else if bool_decide (protection cap = required_protection) then None else Some "protection_mismatch"%string
        end
  | _ => Some "no_runtime"%string
  end.

(** ** Opening a session *)

Definition header_json (run_hash owner_hash salt : pystr) (created expires : ffloat) : json :=
  JObj [(py "format", JStr (py "decoy-quarantine/v1")); (py "key_version", JStr (key_version keys)); (py "owner", JStr owner_hash);
        (py "run", JStr run_hash); (py "created_at", JFloat (Finite created)); (py "expires_at", JFloat (Finite expires));
        (py "token_salt", JStr salt); (py "protection", JStr PROTECTION_ENCRYPTED)].

Definition _write_header (pol : Policy) (owner_hash run_hash run_id name : pystr) : St Os _State :=
  _ ← os_noop;
  now ← clock_now;
  salt ← draw_hex token_hex;
  let expires := plus_seconds now (retention_seconds pol) in
  blob ← raising (dumps_bytes (header_json run_hash owner_hash salt now expires));
  size ← raising (pack_u32 (zlen blob));
  let head := _MAGIC ++ size ++ blob in
  _ ← _write_all (owner_hash, name, partial_file) head;
  mret (MkState owner_hash run_id run_hash name true pol now expires head 0 0 [] 0).

Definition _open_artifact (owner run_id : pystr) (pol : Policy) : St Os _State :=
  _ ← raising (raise_if (bool_decide (run_id = [])) (exc "ValueError"));
  owner_hash ← raising (_owner_hash owner);
  run_hash ← raising (_run_hash run_id);
  name ← draw_hex token_hex;
  let p := (owner_hash, name, partial_file) in
  _ ← os_create p;
  catching any_exception (_write_header pol owner_hash run_hash run_id name)
    (cleanup ← _discard_partial p; raise (QuarantineError WRITE_FAILED cleanup)).

(** [begin] *)
Definition begin_session (owner run_id : pystr) (pol : Policy) : St Os _State :=
  catching (fun e => is_os_error e || in_classes value_errors e) (_open_artifact owner run_id pol)
    (raise (_qerror WRITE_FAILED)).

(** ** Writing *)

(** A step on the session and the system; the session keeps what was set before a failure. *)
Definition on_os {A} (m : St Os A) : St (Os * _State) A := fun ws => let '(w, out) := m ws.1 in ((w, ws.2), out).
Definition get_state : St (Os * _State) _State := fun ws => (ws, inl ws.2).
Definition set_state (s : _State) : St (Os * _State) unit := fun ws => ((ws.1, s), inl tt).

Definition close_fd : St (Os * _State) unit :=
  s ← get_state;
  if fd_open s then _ ← on_os os_noop; set_state (set_fd s false) else raise (Other OSError).

Definition unlink_if_present (p : path) : St Os unit := catching (in_classes ["FileNotFoundError"]) (os_unlink p) (mret tt).

Definition _cleanup : St (Os * _State) string :=
  s ← get_state;
  _ ← (if fd_open s then catching is_os_error close_fd (mret tt) else mret tt);
  catching is_os_error (_ ← on_os (unlink_if_present (partial s)); _ ← on_os (unlink_if_present (final s)); mret "confirmed")%string
    (mret "failed")%string.

Definition _fail {A} (code : string) : St (Os * _State) A := cleanup ← _cleanup; raise (QuarantineError code cleanup).

(** [_write_all(state.fd, data)]: a closed descriptor is an [OSError]. *)
Definition write_fd (data : bytes) : St (Os * _State) unit :=
  s ← get_state;
  if fd_open s then on_os (_write_all (partial s) data) else match data with [] => mret tt | _ => raise (Other OSError) end.

Definition _append_chunk (frame : bytes) : St (Os * _State) unit :=
  _ ← write_fd frame; s ← get_state; set_state (set_sha s (sha s ++ frame)).

(** [b"\n".join(l)] *)
Fixpoint join_lines (l : list bytes) : bytes :=
  match l with [] => [] | [x] => x | x :: l' => x ++ 10 :: join_lines l' end.

Definition _flush : St (Os * _State) unit :=
  s ← get_state;
  match buffer s with
  | [] => mret tt
  | _ =>
      let payload := join_lines (buffer s) in
      _ ← set_state (set_buffer s (n_rows s) (plain_bytes s) [] 0);
      catching any_exception
        (key ← raising _fernet;
         token ← (fun ws => (ws, inl (fernet_encrypt key (calls ws.1) payload)));
         size ← raising (pack_u32 (zlen token));
         _append_chunk (size ++ token))
        (_fail WRITE_FAILED)
  end.

Record QuarantineEnvelope := MkEnvelope { e_table : pystr; row_position : Z; e_reasons : list ReasonRecord; e_row : list (pystr * pycell) }.

(** A payload as JSON. *)
Fixpoint json_of (v : pyval) : json :=
  match v with
  | PNone => JNull
  | PBool b => JBool b
  | PInt n => JInt n
  | PStr s => JStr s
  | PList l => JArr (map json_of l)
  | PDict d => JObj (map (fun kv => (kv.1, json_of kv.2)) d)
  | POther _ => JNull
  end.

Definition row_json (e : QuarantineEnvelope) : result json :=
  reasons ← map_res (to_payload g) (e_reasons e);
  row ← map_res (fun kv => v ← _encode kv.2; Ok (kv.1, v)) (e_row e);
  Ok (JObj [(py "table", JStr (e_table e)); (py "row_position", JInt (row_position e)); (py "reasons", JArr (json_of <$> reasons)); (py "row", JObj row)]).

Definition write_row (e : QuarantineEnvelope) : St (Os * _State) unit :=
  line ← catching (fun x => in_classes ("TypeError" :: value_errors) x)%string
           (raising (v ← row_json e; dumps_bytes v)) (mret []);
  match line with
  | [] => _fail WRITE_FAILED
  | _ =>
      s ← get_state;
      if (n_rows s + 1 >? max_rows (policy s)) || (plain_bytes s + zlen line >? max_bytes (policy s)) then _fail WRITE_FAILED
      else
        let s := set_buffer s (n_rows s + 1) (plain_bytes s + zlen line) (buffer s ++ [line]) (buffer_bytes s + zlen line) in
        _ ← set_state s;
        if (zlen (buffer s) >=? _CHUNK_ROWS) || (buffer_bytes s >=? _CHUNK_BYTES) then _flush else mret tt
  end.


(** ** Sealing *)

Record QuarantineReceipt := MkReceipt {
  rc_ref : pystr; rc_rows : Z; rc_bytes : Z; rc_digest : pystr; rc_created_at : ffloat; rc_expires_at : ffloat;
  rc_protection : pystr; rc_key_version : pystr; rc_run_id : pystr;
}.

(** [try: m finally: h] *)
Definition finally {S A} (m : St S A) (h : St S unit) : St S A := fun s =>
  let '(s1, out) := m s in match h s1 with (s2, inl _) => (s2, out) | (s2, inr e) => (s2, inr e) end.

Definition _publish_atomic : St (Os * _State) unit :=
  s ← get_state;
  _ ← on_os (os_replace (partial s) (final s));
  _ ← on_os os_noop;
  finally (on_os os_noop) (on_os os_noop).

Definition trailer_json (s : _State) : json :=
  JObj [(py "rows", JInt (n_rows s)); (py "bytes", JInt (plain_bytes s)); (py "sha256", JStr (hexdigest (sha s)))].

(** [os.fsync(state.fd)] *)
Definition fsync_fd : St (Os * _State) unit :=
  s ← get_state; if fd_open s then on_os os_noop else raise (Other OSError).

Definition finish_artifact (trailer : bytes) : St (Os * _State) unit :=
  zero ← raising (pack_u32 0);
  size ← raising (pack_u32 (zlen trailer));
  _ ← write_fd (zero ++ size ++ trailer);
  _ ← fsync_fd;
  _ ← close_fd;
  _publish_atomic.

Definition seal : St (Os * _State) QuarantineReceipt :=
  _ ← _flush;
  s ← get_state;
  trailer ← raising (dumps_bytes (trailer_json s));
  _ ← catching any_exception (finish_artifact trailer) (_fail SEAL_FAILED);
  mret (MkReceipt (ref s) (n_rows s) (plain_bytes s) (hexdigest (sha s)) (created_at s) (expires_at s)
          PROTECTION_ENCRYPTED (key_version keys) (s_run_id s)).

Definition abort : St (Os * _State) string := _cleanup.

(** ** Finding an artifact *)

(** [s.partition("-")], without the separator. *)
Fixpoint partition_dash (s : pystr) : pystr * pystr :=
  match s with
  | [] => ([], [])
  | c :: s' => if c =? 45 then ([], s') else let '(a, b) := partition_dash s' in (c :: a, b)
  end.

Definition safe_id_char (c : Z) : bool := bool_decide (c ∈ py "0123456789abcdef").

Definition _locate {S} (r : pystr) : St S (path * pystr) :=
  let '(owner_hash, run_id) := partition_dash r in
  if negb (zlen owner_hash =? 32) || negb (zlen run_id =? 32) || negb (forallb (fun c => (c =? 45) || safe_id_char c) r)
  then raise (_qerror ACCESS_DENIED)
  else mret ((owner_hash, run_id, dqa_file), owner_hash).

Definition discard (receipt_ref : pystr) : St Os string :=
  match _locate receipt_ref tt with
  | (_, inr _) => mret "failed"%string
  | (_, inl (p, _)) =>
      catching is_os_error
        (catching (in_classes ["FileNotFoundError"]) (_ ← os_unlink p; mret "confirmed") (mret "confirmed"))%string
        (mret "failed"%string)
  end.

(** [struct.unpack(">I", blob[i:i + 4])] *)
Definition unpack_u32 (blob : bytes) (i : Z) : result Z :=
  let b := ztake 4 (zdrop i blob) in
  if zlen b =? 4 then Ok (from_bytes b) else Err (exc "struct.error").

Definition parse_header (blob : bytes) : result json :=
  _ ← raise_if (negb (starts_with _MAGIC blob)) (exc "ValueError");
  size ← unpack_u32 blob 5;
  loads_bytes (ztake size (zdrop 9 blob)).

Definition _read_header (p : path) : St Os (json * bytes) :=
  catching (in_classes ("struct.error" :: os_errors ++ value_errors)%string)
    (blob ← os_read p;
     _ ← os_noop;
     _ ← os_noop;
     header ← raising (parse_header blob);
     mret (header, blob))
    (raise (_qerror ACCESS_DENIED)).

(** [header.get(k, dflt)] and [header[k]] *)
Definition hget (header : json) (k : string) (dflt : json) : result json :=
  match header with JObj d => Ok (default dflt (od_get d (py k))) | _ => Err (exc "AttributeError") end.
Definition item_of (v : json) (k : string) : result json :=
  match v with JObj d => of_option (exc "KeyError") (od_get d (py k)) | _ => Err (exc "TypeError") end.

Definition is_str (v : json) (s : pystr) : bool := match v with JStr t => bool_decide (t = s) | _ => false end.

(** [str(v)] *)
Definition str_of (v : json) : pystr :=
  match v with
  | JNull => py "None"
  | JBool b => if b then py "True" else py "False"
  | JInt n => str_int n
  | JFloat (Finite f) => float_repr f
  | JFloat NaN => py "nan"
  | JFloat (Infinity negative) => (if negative then [45] else []) ++ py "inf"
  | JStr s => s
  | _ => container_str v
  end.

(** [f >= v] and [v > f] of a finite float and a JSON value. *)
Definition at_least (f : ffloat) (v : json) : result bool :=
  match v with
  | JFloat (Finite e) => Ok (float_le e f)
  | JFloat NaN => Ok false
  | JFloat (Infinity negative) => Ok negative
  | JInt n => Ok (int_le_float n f)
  | JBool b => Ok (int_le_float (if b then 1 else 0) f)
  | _ => Err (exc "TypeError")
  end.
Definition above (v : json) (f : ffloat) : result bool :=
  match v with JFloat NaN => Ok false | _ => b ← at_least f v; Ok (negb b) end.

Definition _token_mac (r owner_hash run_hash salt : pystr) : result pystr :=
  msg ← utf8_encode (r ++ 124 :: owner_hash ++ 124 :: run_hash ++ 124 :: salt);
  key ← _token_key;
  Ok (hex_str (hmac_sha256 key msg)).

Record QuarantineAccessContext := MkAccess { a_owner : pystr; a_run_id : pystr }.

(** [owner != _owner_hash(ctx.owner) or owner != owner_hash or run != _run_hash(ctx.run_id)] *)
Definition wrong_reader (header : json) (owner_hash : pystr) (ctx : QuarantineAccessContext) : result bool :=
  owner ← hget header "owner" JNull;
  mine ← _owner_hash (a_owner ctx);
  if negb (is_str owner mine) || negb (is_str owner owner_hash) then Ok true
  else
    run ← hget header "run" JNull;
    my_run ← _run_hash (a_run_id ctx);
    Ok (negb (is_str run my_run)).

Definition expired (now : ffloat) (header : json) : result bool :=
  e ← item_of header "expires_at"; at_least now e.

Definition token_text (r mac : pystr) : pystr := py "dqt1." ++ r ++ 46 :: mac.

Definition get_retrieval_token (r : pystr) (ctx : QuarantineAccessContext) : St Os pystr :=
  '(p, owner_hash) ← _locate r;
  '(header, _) ← _read_header p;
  wrong ← raising (wrong_reader header owner_hash ctx);
  if (wrong : bool) then raise (_qerror ACCESS_DENIED)
  else
    now ← clock_now;
    late ← raising (expired now header);
    if (late : bool) then raise (_qerror EXPIRED)
    else raising (run ← item_of header "run"; salt ← item_of header "token_salt";
                  mac ← _token_mac r owner_hash (str_of run) (str_of salt);
                  Ok (token_text r mac)).

(** ** Opening an artifact *)

(** What a caller presents: a token object with its value, or anything else. *)
Inductive presented := OpaqueRetrievalToken (value : pystr) | NotAToken.

(** [s.split(c)] on one character. *)
Fixpoint split_on (c : Z) (s : pystr) : list pystr :=
  match s with
  | [] => [[]]
  | x :: s' => if x =? c then [] :: split_on c s' else match split_on c s' with w :: ws => (x :: w) :: ws | [] => [[x]] end
  end.

(** [hmac.compare_digest] of two strings. *)
Definition compare_digest (a b : pystr) : result bool :=
  if forallb (fun c => c <? 128) (a ++ b) then Ok (bool_decide (a = b)) else Err (exc "TypeError").

(** The reader's checks on a header, given the token's parts. *)
Definition admits (header : json) (r owner_hash mac : pystr) (ctx : QuarantineAccessContext) : result bool :=
  run ← hget header "run" (JStr []);
  salt ← hget header "token_salt" (JStr []);
  let run_hash := str_of run in
  expected ← _token_mac r owner_hash run_hash (str_of salt);
  owner ← hget header "owner" JNull;
  mine ← _owner_hash (a_owner ctx);
  owner_ok ← (if is_str owner mine && bool_decide (mine = owner_hash)
              then my_run ← _run_hash (a_run_id ctx); Ok (bool_decide (run_hash = my_run)) else Ok false);
  version ← hget header "key_version" JNull;
  same ← compare_digest mac expected;
  Ok (same && owner_ok && is_str version (key_version keys)).

Definition _check_token (token : presented) (ctx : QuarantineAccessContext) : St Os (path * json * bytes) :=
  match (match token with OpaqueRetrievalToken v => split_on 46 v | NotAToken => [] end) with
  | [kind; r; mac] =>
      if negb (bool_decide (kind = py "dqt1")) then raise (_qerror ACCESS_DENIED)
      else
        '(p, owner_hash) ← _locate r;
        '(header, blob) ← _read_header p;
        ok ← raising (admits header r owner_hash mac ctx);
        if negb (ok : bool) then raise (_qerror ACCESS_DENIED)
        else
          now ← clock_now;
          late ← raising (expired now header);
          if (late : bool) then raise (_qerror EXPIRED) else mret (p, header, blob)
  | _ => raise (_qerror ACCESS_DENIED)
  end.

(** [_frames]: the frames, the trailer and where the body ends. *)
Fixpoint _frames (fuel : nat) (blob : bytes) (pos : Z) : result (list bytes * json * Z) :=
  match fuel with
  | O => Err (exc "struct.error")
  | S fuel =>
      size ← unpack_u32 blob pos;
      let pos := pos + 4 in
      if size =? 0 then
        tsize ← unpack_u32 blob pos;
        trailer ← loads_bytes (ztake tsize (zdrop (pos + 4) blob));
        Ok ([], trailer, pos - 4)
      else
        rest ← _frames fuel blob (pos + size);
        Ok (ztake size (zdrop pos blob) :: rest.1.1, rest.1.2, rest.2)
  end.

Definition verify_blob (blob : bytes) : result (list bytes * json) :=
  size ← unpack_u32 blob 5;
  out ← _frames (length blob) blob (9 + size);
  digest ← item_of out.1.2 "sha256";
  _ ← raise_if (negb (is_str digest (hexdigest (ztake out.2 blob)))) (exc "ValueError");
  Ok out.1.

Definition _verify {S} (blob : bytes) : St S (list bytes * json) :=
  catching (in_classes ("struct.error" :: "KeyError" :: value_errors)%string) (raising (verify_blob blob)) (raise (_qerror ACCESS_DENIED)).

(** A record as read back; the table and the position are whatever the line holds. *)
Record QuarantineRecord := MkQuarantineRecord { q_table : json; q_row_position : json; q_reasons : list ReasonRecord; q_row : list (pystr * pycell) }.

(** A JSON value as the payload a record is read from. *)
Fixpoint payload_of (v : json) : pyval :=
  match v with
  | JNull => PNone
  | JBool b => PBool b
  | JInt n => PInt n
  | JFloat _ => POther true
  | JStr s => PStr s
  | JArr l => PList (map payload_of l)
  | JObj d => PDict (map (fun kv => (kv.1, payload_of kv.2)) d)
  end.

(** [ReasonRecord.from_payload] *)
Definition from_payload (v : json) : result ReasonRecord := rv ← parse_payload g (payload_of v); Ok rv.1.

Definition dict_items (v : json) : result (list (pystr * json)) :=
  match v with JObj d => Ok d | _ => Err (exc "AttributeError") end.

Definition read_line (line : bytes) : result QuarantineRecord :=
  raw ← loads_bytes line;
  table ← item_of raw "table";
  pos ← item_of raw "row_position";
  rs ← item_of raw "reasons";
  rs ← items_of rs;
  reasons ← map_res from_payload rs;
  row ← item_of raw "row";
  row ← dict_items row;
  cells ← map_res (fun kv => v ← _decode kv.2; Ok (kv.1, v)) row;
  Ok (MkQuarantineRecord table pos reasons cells).

Definition read_frame (key frame : bytes) : result (list QuarantineRecord) :=
  payload ← of_option (exc "InvalidToken") (fernet_decrypt key frame);
  map_res read_line (split_on 10 payload).

Definition open_artifact (token : presented) (ctx : QuarantineAccessContext) : St Os (list QuarantineRecord) :=
  '(_, _, blob) ← _check_token token ctx;
  '(frames, _) ← _verify blob;
  key ← raising _fernet;
  catching (in_classes ("InvalidToken" :: "KeyError" :: value_errors)%string)
    (raising (out ← map_res (read_frame key) frames; Ok (concat out)))
    (raise (_qerror ACCESS_DENIED)).

Definition verify_digest (token : presented) (ctx : QuarantineAccessContext) : St Os bool :=
  '(_, _, blob) ← _check_token token ctx;
  _ ← _verify blob;
  mret true.

(** ** Retention *)

Record PurgeResult := MkPurge { purged : Z; purge_failed : Z; retained : Z }.

(** The listing of the store. *)
Definition list_files : St Os (gmap path bytes) := fun w => (w, inl (files w)).

(** [sorted(directory.glob("*.dqa"))] *)
Definition artifacts_of (owner_hash : pystr) (fs : gmap path bytes) : list pystr :=
  sorted_by (fun n => n ++ py ".dqa")
    (omap (fun kv => match kv.1 with (o, n, dqa_file) => if bool_decide (o = owner_hash) then Some n else None | _ => None end) (map_to_list fs)).

(** One artifact: whether it was removed. *)
Definition purge_one (now : ffloat) (owner_hash name : pystr) : St Os bool :=
  let p := (owner_hash, name, dqa_file) in
  '(header, _) ← _read_header p;
  owner ← raising (hget header "owner" JNull);
  keep ← raising (if negb (is_str owner owner_hash) then Ok true else e ← item_of header "expires_at"; above e now);
  if (keep : bool) then mret false else _ ← os_unlink p; mret true.

Fixpoint purge_each (now : ffloat) (owner_hash : pystr) (names : list pystr) (acc : PurgeResult) : St Os PurgeResult :=
  match names with
  | [] => mret acc
  | n :: names' =>
      acc' ← catching any_exception
               (gone ← purge_one now owner_hash n;
                mret (if (gone : bool) then MkPurge (purged acc + 1) (purge_failed acc) (retained acc)
                      else MkPurge (purged acc) (purge_failed acc) (retained acc + 1)))
               (mret (MkPurge (purged acc) (purge_failed acc + 1) (retained acc)));
      purge_each now owner_hash names' acc'
  end.

Definition purge_expired (now : ffloat) (owner : pystr) : St Os PurgeResult :=
  owner_hash ← raising (_owner_hash owner);
  found ← catching (fun e => is_os_error e || in_classes value_errors e) (_ ← os_noop; mret true) (mret false);
  if (found : bool) then fs ← list_files; purge_each now owner_hash (artifacts_of owner_hash fs) (MkPurge 0 0 0)
  else mret (MkPurge 0 0 0).
End Store.
