(* ===== verification/QuarantineTheory.v ===== *)
(** * The quarantine store under faults

    Whatever system calls fail and however short writes land, a session ends in one
    of two ways: a sealed artifact that holds exactly its rows, or an error that
    says whether anything was left behind. The proofs reason about the store's monad
    with a weakest precondition; [Good] is the situation in which no error is
    excused: it is [False] for the safety results and true for progress. *)

From S2P Require Import Prelude Numerals PyText PyData Sha256 Derive Reasons ReasonsTheory Json PyRepr QuarantineCodec QuarantineStore.

(** ** Weakest preconditions *)

Definition wp {S A} (m : St S A) (Q : S -> A + failure -> Prop) (s : S) : Prop := Q (m s).1 (m s).2.

Section Rules.
Context {S : Type}.
Implicit Types s : S.

Lemma wp_ret {A} (a : A) (Q : S -> A + failure -> Prop) s : Q s (inl a) -> wp (mret a) Q s.
Proof. done. Qed.

Lemma wp_raise {A} e (Q : S -> A + failure -> Prop) s : Q s (inr e) -> wp (raise e) Q s.
Proof. done. Qed.

Lemma wp_bind {A B} (m : St S A) (f : A -> St S B) (Q : S -> B + failure -> Prop) s :
  wp m (fun s' out => match out with inl a => wp (f a) Q s' | inr e => Q s' (inr e) end) s -> wp (m ≫= f) Q s.
Proof. unfold wp, mbind, st_bind. by destruct (m s) as [s' [a|e]]. Qed.

Lemma wp_catching {A} (caught : failure -> bool) (m h : St S A) (Q : S -> A + failure -> Prop) s :
  wp m (fun s' out => match out with inl a => Q s' (inl a) | inr e => if caught e then wp h Q s' else Q s' (inr e) end) s ->
  wp (catching caught m h) Q s.
Proof. unfold wp, catching. destruct (m s) as [s' [a|e]]; cbn; [done|]. by destruct (caught e). Qed.

Lemma wp_raising {A} (m : result A) (Q : S -> A + failure -> Prop) s :
  match m with Ok a => Q s (inl a) | Err e => Q s (inr (Other e)) end -> wp (raising m) Q s.
Proof. unfold wp, raising. by destruct m. Qed.

Lemma wp_conseq {A} (m : St S A) (P Q : S -> A + failure -> Prop) s : wp m P s -> (forall s' out, P s' out -> Q s' out) -> wp m Q s.
Proof. intros H HPQ. by apply HPQ. Qed.

Lemma wp_finally {A} (m : St S A) (h : St S unit) (Q : S -> A + failure -> Prop) s :
  wp m (fun s1 out => wp h (fun s2 out2 => match out2 with inl _ => Q s2 out | inr e => Q s2 (inr e) end) s1) s -> wp (finally m h) Q s.
Proof. unfold wp, finally. destruct (m s) as [s1 out]. cbn. by destruct (h s1) as [s2 [u|e]]. Qed.
End Rules.

Section Writing.
Context {F : PyFloat} {FL : PyFloatLaws F} {E : FernetOps} {OF : OsFaults} {T : ClockOps F}.
Context (token_hex : nat -> pystr) (g : Registry) (keys : KeyProvider).

(** No call fails, and every write makes progress. *)
Definition Faultless : Prop := (forall k, os_ok k = true) /\ (forall k n, 0 < n -> 0 < landed k n).

Context (Good : Prop) (Hgood : Good -> Faultless).

Lemma wp_os_call {A} f (Q : Os -> A + failure -> Prop) w :
  (forall w', files w' = (f (files w)).1 -> Q w' (f (files w)).2) -> (forall w', files w' = files w -> ~ Good -> Q w' (inr (Other OSError))) ->
  wp (os_call f) Q w.
Proof.
  intros H1 H2. unfold wp, os_call. destruct (os_ok (calls w)) eqn:Eo.
  - destruct (f (files w)) as [fs out]. by apply H1.
  - apply H2; [done|]. intros [Hf _]%Hgood. by rewrite Hf in Eo.
Qed.

Lemma wp_noop (Q : Os -> unit + failure -> Prop) w :
  (forall w', files w' = files w -> Q w' (inl tt)) -> (forall w', files w' = files w -> ~ Good -> Q w' (inr (Other OSError))) -> wp os_noop Q w.
Proof. intros. by apply wp_os_call. Qed.

(** What [_write_all] leaves: all of the data, or some of it and an [OSError]. *)
Definition wrote (p : path) (b data : bytes) (fs0 : gmap path bytes) (w : Os) (out : unit + failure) : Prop :=
  match out with
  | inl _ => files w = <[p := b ++ data]> fs0
  | inr e => e = Other OSError /\ ~ Good /\ exists b', files w = <[p := b']> fs0
  end.

Lemma write_loop_ok fuel p data b w :
  (length data <= fuel)%nat -> files w !! p = Some b -> wp (write_loop fuel p data) (wrote p b data (files w)) w.
Proof.
  revert data b w. induction fuel as [|fuel IH]; intros [|x data] b w Hl Hp; try (cbn in Hl; lia).
  1,2: unfold wp; cbn; by rewrite app_nil_r, insert_id.
  cbn [write_loop]. set (d := x :: data) in *. apply wp_bind. set (n := Z.min (landed (calls w) (zlen d)) (zlen d)).
  change (wp (os_call (fun fs => (match fs !! p with Some b => <[p := b ++ ztake n d]> fs | None => fs end, inl n)))
    (fun s' out => match out with inl a => wp (if a <=? 0 then raise (Other OSError) else write_loop fuel p (zdrop a d)) (wrote p b d (files w)) s'
                                | inr e => wrote p b d (files w) s' (inr e) end) w).
  apply wp_os_call; cbn [fst snd]; rewrite ?Hp.
  - intros w' Hw. destruct (Z.leb_spec n 0) as [Hn|Hn].
    + split; [done|]. split; [|by eexists]. intros [_ Hf]%Hgood. pose proof (Hf (calls w) (zlen d) ltac:(unfold d, zlen; cbn; lia)). unfold n, d, zlen in *. cbn in *. lia.
    + assert (Hd : (length (zdrop n d) <= fuel)%nat) by (unfold zdrop, d in *; rewrite length_drop; cbn [length] in *; lia).
      eapply wp_conseq; [apply (IH _ (b ++ ztake n d)); [done|by rewrite Hw, lookup_insert_eq]|].
      intros w2 [u|e] H; cbn in *; rewrite Hw in H; rewrite ?insert_insert_eq in H.
      * by rewrite H, <- app_assoc, ztake_zdrop.
      * destruct H as (-> & HG & b' & ->). rewrite insert_insert_eq. eauto.
  - intros w' Hw HG. split; [done|]. split; [done|]. exists b. by rewrite Hw, insert_id.
Qed.

Lemma write_all_ok p data b w : files w !! p = Some b -> wp (_write_all p data) (wrote p b data (files w)) w.
Proof. by apply write_loop_ok. Qed.

Lemma map_res_err {A B} (h : A -> result B) l x : map_res h l = Err x -> exists a, (a ∈ l) /\ h a = Err x.
Proof.
  induction l as [|a l IH]; [done|]. cbn [map_res]. destruct (h a) as [b|y] eqn:Ea.
  - cbn. destruct (map_res h l); [done|]. intros [= ->]. destruct IH as (c & Hc & Ec); [done|]. exists c. split; [by right|done].
  - intros [= ->]. exists a. split; [left|done].
Qed.

Lemma utf8_errors s x : utf8_encode s = Err x -> x = exc "UnicodeEncodeError".
Proof.
  unfold utf8_encode. destruct (map_res utf8_char s) as [bs|y] eqn:Em; [done|]. intros [= <-]. apply map_res_err in Em as (c & _ & Ec).
  unfold utf8_char in Ec. by repeat match type of Ec with context [if ?b then _ else _] => destruct b end; congruence.
Qed.

Lemma missing_caught : in_classes ["FileNotFoundError"] (Other FileNotFoundError) = true.
Proof. done. Qed.
Lemma fault_not_missing : in_classes ["FileNotFoundError"] (Other OSError) = false.
Proof. done. Qed.
Lemma fault_caught : is_os_error (Other OSError) = true.
Proof. done. Qed.

(** ** The files of one session

    Whatever the session did, every other file is as it was. *)

Section Session.
Context (oh nm : pystr) (base : gmap path bytes).
Let p : path := (oh, nm, partial_file).
Let f : path := (oh, nm, dqa_file).
Context (Hfresh : base !! p = None /\ base !! f = None).

Record sits (fs : gmap path bytes) (o1 o2 : option bytes) : Prop := {
  sits_partial : fs !! p = o1;
  sits_final : fs !! f = o2;
  sits_rest q : q <> p -> q <> f -> fs !! q = base !! q;
}.

Lemma sits_none fs : sits fs None None <-> fs = base.
Proof.
  split; [|intros ->; by split; destruct Hfresh]. intros [H1 H2 H3]. apply map_eq. intros q.
  destruct (decide (q = p)) as [->|Hp]; [by rewrite H1, (proj1 Hfresh)|]. destruct (decide (q = f)) as [->|Hf]; [by rewrite H2, (proj2 Hfresh)|auto].
Qed.

Lemma sits_write fs o1 o2 b : sits fs o1 o2 -> sits (<[p := b]> fs) (Some b) o2.
Proof.
  intros [H1 H2 H3]. split; [by rewrite lookup_insert_eq|by rewrite lookup_insert_ne|]. intros q Hp Hf. rewrite lookup_insert_ne by done. auto.
Qed.

Lemma sits_unlink_partial fs o1 o2 : sits fs o1 o2 -> sits (delete p fs) None o2.
Proof.
  intros [H1 H2 H3]. split; [by rewrite lookup_delete_eq|by rewrite lookup_delete_ne|]. intros q Hp Hf. rewrite lookup_delete_ne by done. auto.
Qed.

Lemma sits_unlink_final fs o1 o2 : sits fs o1 o2 -> sits (delete f fs) o1 None.
Proof.
  intros [H1 H2 H3]. split; [by rewrite lookup_delete_ne|by rewrite lookup_delete_eq|]. intros q Hp Hf. rewrite lookup_delete_ne by done. auto.
Qed.

Lemma sits_rename fs b o2 : sits fs (Some b) o2 -> sits (<[f := b]> (delete p fs)) None (Some b).
Proof.
  intros [H1 H2 H3]. split; [by rewrite lookup_insert_ne, lookup_delete_eq|by rewrite lookup_insert_eq|].
  intros q Hp Hf. rewrite lookup_insert_ne, lookup_delete_ne by done. auto.
Qed.

(** [os.unlink], a missing file being no error: only the named file may go. *)
Lemma unlink_partial_ok w o1 o2 :
  sits (files w) o1 o2 ->
  wp (unlink_if_present p) (fun w' out => match out with inl _ => sits (files w') None o2 | inr e => e = Other OSError /\ ~ Good /\ sits (files w') o1 o2 end) w.
Proof.
  intros H. apply wp_catching, wp_os_call; cbn [fst snd].
  - intros w' Hw. destruct (files w !! p) as [b|] eqn:Ep; cbn [fst snd] in Hw |- *.
    + rewrite Hw. by eapply sits_unlink_partial.
    + rewrite missing_caught. apply wp_ret. rewrite Hw. rewrite (sits_partial _ _ _ H) in Ep. by subst o1.
  - intros w' Hw HG. rewrite fault_not_missing. by rewrite Hw.
Qed.

Lemma unlink_final_ok w o1 o2 :
  sits (files w) o1 o2 ->
  wp (unlink_if_present f) (fun w' out => match out with inl _ => sits (files w') o1 None | inr e => e = Other OSError /\ ~ Good /\ sits (files w') o1 o2 end) w.
Proof.
  intros H. apply wp_catching, wp_os_call; cbn [fst snd].
  - intros w' Hw. destruct (files w !! f) as [b|] eqn:Ep; cbn [fst snd] in Hw |- *.
    + rewrite Hw. by eapply sits_unlink_final.
    + rewrite missing_caught. apply wp_ret. rewrite Hw. rewrite (sits_final _ _ _ H) in Ep. by subst o2.
  - intros w' Hw HG. rewrite fault_not_missing. by rewrite Hw.
Qed.

(** The verdicts of a cleanup: both files gone, or possibly something left. *)
Definition cleaned (o2 : option bytes) (fs : gmap path bytes) (cl : string) : Prop :=
  cl = "confirmed"%string /\ sits fs None None \/
  cl = "failed"%string /\ exists o1' o2', sits fs o1' o2' /\ (o2' = None \/ o2' = o2).

Lemma discard_ok w o1 :
  sits (files w) o1 None ->
  wp (_discard_partial p) (fun w' out => exists cl, out = inl cl /\ cleaned None (files w') cl) w.
Proof.
  intros H. unfold _discard_partial. apply wp_bind, wp_catching, wp_bind, wp_noop; intros w1 Hw1; [|intros HG]; rewrite <- Hw1 in H.
  all: rewrite ?fault_caught; try (apply wp_ret); try (apply wp_ret).
  all: apply wp_catching, wp_bind; eapply wp_conseq; [by eapply unlink_partial_ok|].
  all: intros w2 [u|e] Hw2; [apply wp_ret; eexists; split; [reflexivity|]|].
  - by left.
  - destruct Hw2 as (-> & _ & Hw2). rewrite fault_caught. apply wp_ret. eexists. split; [done|]. right. eauto 6.
  - right. eauto 6.
  - destruct Hw2 as (-> & _ & Hw2). rewrite fault_caught. apply wp_ret. eexists. split; [done|]. right. eauto 6.
Qed.

(** ** An open session

    [rid], [rh], the policy, the times and the written header are what [begin] fixed. *)

Context (rid rh : pystr) (pol : Policy) (created expires : ffloat) (head : bytes).

Definition session (o : bool) (sh : bytes) (rows bytes : Z) (buf : list (list Z)) (n : Z) : _State :=
  MkState oh rid rh nm o pol created expires sh rows bytes buf n.

Definition total (ls : list bytes) : Z := foldr (fun l n => zlen l + n) 0 ls.

Lemma total_app l k : total (l ++ k) = total l + total k.
Proof. induction l as [|x l IH]; cbn; [done|]. fold (total (l ++ k)) (total l). lia. Qed.

(** One frame: the length of a token of the chunk's lines, and the token. *)
Definition frame_of (fr : bytes) (chunk : list bytes) : Prop :=
  chunk <> [] /\ exists key n size, _fernet keys = Ok key /\
    let token := fernet_encrypt key n (join_lines chunk) in pack_u32 (zlen token) = Ok size /\ fr = size ++ token.

Definition within (ls : list bytes) : Prop := zlen ls <= max_rows pol /\ total ls <= max_bytes pol.

(** The session has taken [lines]: the whole chunks are framed on disk and in the
    digest, the rest waits in a buffer below the chunk bounds. *)
Definition opened (lines : list bytes) (ws : Os * _State) : Prop :=
  exists chunks frs buf,
    ws.2 = session true (head ++ concat frs) (zlen lines) (total lines) buf (total buf) /\
    sits (files ws.1) (Some (head ++ concat frs)) None /\
    Forall2 frame_of frs chunks /\ lines = concat chunks ++ buf /\ (lines = [] \/ within lines) /\
    zlen buf < _CHUNK_ROWS /\ total buf < _CHUNK_BYTES.

(** A sealed artifact: the header, the frames, a zero length and the trailer, whose
    digest covers everything before it. *)
Definition artifact (frs lines : list bytes) (blob : bytes) : Prop :=
  exists chunks zero size,
    Forall2 frame_of frs chunks /\ lines = concat chunks /\ pack_u32 0 = Ok zero /\
    let trailer := dumps (trailer_json (session true (head ++ concat frs) (zlen lines) (total lines) [] 0)) in
    pack_u32 (zlen trailer) = Ok size /\ blob = head ++ concat frs ++ zero ++ size ++ trailer.

(** How a session that failed leaves the store. *)
Definition failed (lines : list bytes) (ws : Os * _State) (e : failure) : Prop :=
  ~ Good /\ exists code cl, e = QuarantineError code cl /\ code ∈ [WRITE_FAILED; SEAL_FAILED] /\
    exists o2, cleaned o2 (files ws.1) cl /\ match o2 with Some blob => exists frs, artifact frs lines blob | None => True end.

(** A failure before sealing: no final file was ever there. *)
Definition write_failed (ws : Os * _State) (e : failure) : Prop :=
  ~ Good /\ exists code cl, e = QuarantineError code cl /\ code ∈ [WRITE_FAILED; SEAL_FAILED] /\ cleaned None (files ws.1) cl.

Lemma wp_on_os {A} (m : St Os A) (Q : Os * _State -> A + failure -> Prop) ws :
  wp m (fun w' out => Q (w', ws.2) out) ws.1 -> wp (on_os m) Q ws.
Proof. unfold wp, on_os. by destruct (m ws.1) as [w' out]. Qed.

Lemma wp_get (Q : Os * _State -> _State + failure -> Prop) ws : Q ws (inl ws.2) -> wp get_state Q ws.
Proof. done. Qed.

Lemma wp_set s (Q : Os * _State -> unit + failure -> Prop) ws : Q (ws.1, s) (inl tt) -> wp (set_state s) Q ws.
Proof. done. Qed.

Lemma close_fd_ok ws :
  wp close_fd (fun ws' out => files ws'.1 = files ws.1 /\
      match out with
      | inl _ => ws'.2 = set_fd ws.2 false /\ fd_open ws.2 = true
      | inr e => ws'.2 = ws.2 /\ e = Other OSError /\ (fd_open ws.2 = true -> ~ Good)
      end) ws.
Proof.
  unfold close_fd. apply wp_bind, wp_get. destruct (fd_open ws.2) eqn:Eo; [|by apply wp_raise].
  apply wp_bind, wp_on_os, wp_noop; cbn [fst snd].
  - intros w' Hw. by apply wp_set.
  - intros w' Hw HG. done.
Qed.

(** The session's own files are the ones cleaned up. *)
Definition names (s : _State) : Prop := partial s = p /\ final s = f.

Lemma cleanup_ok ws o1 o2 :
  names ws.2 -> sits (files ws.1) o1 o2 ->
  wp _cleanup (fun ws' out => exists cl, out = inl cl /\ cleaned o2 (files ws'.1) cl) ws.
Proof.
  intros Hn H. unfold _cleanup. apply wp_bind, wp_get.
  apply wp_bind.
  apply (wp_conseq _ (fun ws' out => out = inl tt /\ files ws'.1 = files ws.1)).
  { destruct (fd_open ws.2); [|done]. apply wp_catching. eapply wp_conseq; [apply close_fd_ok|]. intros ws' [[]|x] [Hw Hs]; [done|].
    destruct Hs as (_ & -> & _). rewrite fault_caught. by apply wp_ret. }
  intros ws1 out [-> Hw]. rewrite <- Hw in H. destruct Hn as [-> ->].
  apply wp_catching, wp_bind, wp_on_os. eapply wp_conseq; [by eapply unlink_partial_ok|]. intros w2 [u|x] H2.
  - apply wp_bind, wp_on_os. eapply wp_conseq; [by eapply unlink_final_ok|]. intros w3 [u3|x] H3.
    + apply wp_ret. eexists. split; [done|]. by left.
    + destruct H3 as (-> & _ & H3). rewrite fault_caught. apply wp_ret. eexists. split; [done|]. right. split; [done|]. eauto 6.
  - destruct H2 as (-> & _ & H2). rewrite fault_caught. apply wp_ret. eexists. split; [done|]. right. split; [done|]. eauto 6.
Qed.

Lemma fail_ok {A} code lines ws o1 o2 :
  ~ Good -> code ∈ [WRITE_FAILED; SEAL_FAILED] -> names ws.2 -> sits (files ws.1) o1 o2 -> match o2 with Some blob => exists frs, artifact frs lines blob | None => True end ->
  wp (_fail (A := A) code) (fun ws' out => match out with inl _ => False | inr e => failed lines ws' e end) ws.
Proof.
  intros HG Hc Hn H Ha. apply wp_bind. eapply wp_conseq; [by eapply cleanup_ok|]. intros ws' out (cl & -> & Hcl). apply wp_raise. split; [done|].
  exists code, cl. split; [done|]. split; [done|]. by exists o2.
Qed.

(** A failure while no final file exists. *)
Lemma fail_none {A} code ws o1 :
  ~ Good -> code ∈ [WRITE_FAILED; SEAL_FAILED] -> names ws.2 -> sits (files ws.1) o1 None ->
  wp (_fail (A := A) code) (fun ws' out => match out with inl _ => False | inr e => write_failed ws' e end) ws.
Proof.
  intros HG Hc Hn H. apply wp_bind. eapply wp_conseq; [by eapply cleanup_ok|]. intros ws' out (cl & -> & Hcl). apply wp_raise. split; [done|].
  by exists code, cl.
Qed.

Lemma append_ok frame sh rows bytes buf n w :
  sits (files w) (Some sh) None ->
  wp (_append_chunk frame) (fun ws' out =>
      match out with
      | inl _ => ws'.2 = session true (sh ++ frame) rows bytes buf n /\ sits (files ws'.1) (Some (sh ++ frame)) None
      | inr e => ~ Good /\ names ws'.2 /\ exists o1, sits (files ws'.1) o1 None
      end) (w, session true sh rows bytes buf n).
Proof.
  intros H. apply wp_bind. unfold write_fd. apply wp_bind, wp_get. cbn [snd session fd_open].
  apply wp_on_os. eapply wp_conseq; [apply write_all_ok, (sits_partial _ _ _ H)|]. intros w' [u|x] Hw; cbn [fst snd] in *.
  - apply wp_bind, wp_get, wp_set. cbn [fst snd]. rewrite Hw. split; [done|]. by eapply sits_write.
  - destruct Hw as (-> & HG & b' & Hw). split; [done|]. split; [done|]. eexists. rewrite Hw. by eapply sits_write.
Qed.

(** ** Flushing and writing *)

(** The key derives, and a token of a chunk of lines of at most [longest] octets
    fits its length field. *)
Context (longest : Z) (Hlongest : 0 <= longest).
Definition tokens_fit : Prop :=
  exists key, _fernet keys = Ok key /\
    forall n b, zlen b <= _CHUNK_BYTES + longest + _CHUNK_ROWS -> zlen (fernet_encrypt key n b) < 2 ^ 32.
Context (Hfit : Good -> tokens_fit).

Lemma pack_ok n : 0 <= n < 2 ^ 32 -> exists b, pack_u32 n = Ok b /\ zlen b = 4 /\ from_bytes b = n.
Proof. intros Hn. destruct (to_bytes_ok n 4) as (b & Hb & Hl & _ & Hv); [lia|done|]. exists b. unfold pack_u32. by rewrite Hb. Qed.

Lemma join_length ls : zlen (join_lines ls) <= total ls + zlen ls.
Proof.
  induction ls as [|l ls IH]; [done|]. unfold total in *. cbn [foldr]. rewrite zlen_cons. pose proof (zlen_nonneg ls). destruct ls as [|l2 ls]; [cbn; lia|].
  change (join_lines (l :: l2 :: ls)) with (l ++ 10 :: join_lines (l2 :: ls)). rewrite zlen_app, zlen_cons. lia.
Qed.

Definition flushed rows bytes frs chunk (ws' : Os * _State) (out : unit + failure) : Prop :=
  match out with
  | inl _ => exists fr, ws'.2 = session true (head ++ concat (frs ++ [fr])) rows bytes [] 0 /\
               sits (files ws'.1) (Some (head ++ concat (frs ++ [fr]))) None /\ frame_of fr chunk
  | inr e => write_failed ws' e
  end.

Lemma flush_chunk_ok rows bytes buf n frs w :
  let sh := head ++ concat frs in
  buf <> [] -> sits (files w) (Some sh) None -> zlen buf <= _CHUNK_ROWS -> (Good -> total buf <= _CHUNK_BYTES + longest) ->
  wp (_flush keys) (flushed rows bytes frs buf) (w, session true sh rows bytes buf n).
Proof.
  intros sh Hb H Hn Ht. unfold _flush. apply wp_bind, wp_get. cbn [snd session buffer]. destruct buf as [|l buf]; [done|].
  apply wp_bind, wp_set. cbn [fst snd]. apply wp_catching. set (chunk := l :: buf) in *.
  set (s1 := set_buffer _ _ _ _ _). change s1 with (session true sh rows bytes [] 0). clear s1.
  assert (Hfail : forall ws', ~ Good -> names ws'.2 -> (exists o1, sits (files ws'.1) o1 None) ->
    wp (_fail WRITE_FAILED) (flushed rows bytes frs chunk) ws').
  { intros ws' HG Hnm [o1 Ho]. eapply wp_conseq; [eapply (fail_none (A := unit)); [done|set_solver|exact Hnm|exact Ho]|]. intros ws2 [u|x] Hx; [destruct Hx|exact Hx]. }
  apply wp_bind, wp_raising. destruct (_fernet keys) as [key|x] eqn:Ek.
  2:{ apply Hfail; [|done|by eexists]. intros (k & E' & _)%Hfit. congruence. }
  apply wp_bind. unfold wp at 1. cbn [fst snd]. set (token := fernet_encrypt key (calls w) (join_lines chunk)).
  apply wp_bind, wp_raising. destruct (pack_u32 (zlen token)) as [size|x] eqn:Es.
  2:{ apply Hfail; [|done|by eexists]. intros HG. specialize (Ht HG). apply Hfit in HG as (key' & E' & Hk). assert (key' = key) as -> by congruence.
      destruct (pack_ok (zlen token)) as (b & Hpk & _); [|congruence].
      split; [apply zlen_nonneg|apply Hk]. pose proof (join_length chunk). lia. }
  eapply wp_conseq; [by apply append_ok|]. intros ws' [u|x] Hw; cbn [any_exception].
  - destruct Hw as [Hs Hw]. exists (size ++ token).
    assert (Ec : head ++ concat (frs ++ [size ++ token]) = sh ++ size ++ token) by (rewrite concat_app; cbn; by rewrite app_nil_r, app_assoc).
    rewrite Ec. split; [done|]. split; [done|]. split; [done|]. exists key, (calls w), size. by split_and!.
  - destruct Hw as (HG & Hnm & Ho). by apply Hfail.
Qed.

(** A row's line, before any budget. *)
Definition line_of (e : QuarantineEnvelope) : result bytes := v ← row_json g e; dumps_bytes v.

(** What [write_row] refuses by itself is a row JSON cannot hold: its errors are the
    two it catches. *)
Definition writable (e : QuarantineEnvelope) : Prop := Forall (fun r => validate_record g r = Ok tt) (e_reasons e).

Lemma dumps_starts_brace v : dumps v <> [].
Proof. destruct (dumps_starts v) as (c & t & -> & _). done. Qed.


Lemma encode_error c x : _encode c = Err x -> x = exc "TypeError".
Proof.
  revert c x. apply (cell_induction (fun c => forall x, _encode c = Err x -> x = exc "TypeError")).
  - intros []; try done; cbn; congruence.
  - intros l IH x. cbn [_encode]. destruct (map_res _encode l) as [vs|y] eqn:El; [done|]. intros [= <-].
    apply map_res_err in El as (c & Hc & Ec). rewrite list.Forall_forall in IH. by eapply IH.
  - intros l IH x. cbn [_encode]. destruct (map_res _encode l) as [vs|y] eqn:El; [done|]. intros [= <-].
    apply map_res_err in El as (c & Hc & Ec). rewrite list.Forall_forall in IH. by eapply IH.
  - intros d IH x. cbn [_encode]. destruct (map_res _ d) as [vs|y] eqn:El; [done|]. intros [= <-].
    apply map_res_err in El as (kv & Hc & Ec). rewrite list.Forall_forall in IH. destruct (_encode kv.2) eqn:Ev; [done|]. injection Ec as <-. by eapply IH.
Qed.

Lemma row_json_errors e x : registry_ok g -> writable e -> row_json g e = Err x -> x = exc "TypeError".
Proof.
  intros Hg Hw. unfold row_json. destruct (map_res (to_payload g) (e_reasons e)) as [rs|y] eqn:Er.
  2:{ apply map_res_err in Er as (r & Hr & Er). unfold writable in Hw. rewrite list.Forall_forall in Hw. destruct (to_payload_total g r Hg (Hw _ Hr)) as [p' E']. congruence. }
  cbn [mbind result_bind]. destruct (map_res _ (e_row e)) as [vs|y] eqn:Ev; [done|]. cbn. intros [= <-].
  apply map_res_err in Ev as (kv & _ & Ec). destruct (_encode kv.2) eqn:Ek; [done|]. injection Ec as <-. by eapply encode_error.
Qed.

Lemma line_cases e :
  registry_ok g -> writable e ->
  line_of e = Err (exc "TypeError") \/ exists v, row_json g e = Ok v /\ line_of e = Ok (dumps v).
Proof.
  intros Hg Hw. unfold line_of. destruct (row_json g e) as [v|x] eqn:Ev.
  - right. exists v. split; [done|]. cbn. apply dumps_encodes.
  - left. by rewrite (row_json_errors e x Hg Hw Ev).
Qed.

Lemma opened_names lines ws : opened lines ws -> names ws.2.
Proof. by intros (? & ? & ? & -> & _). Qed.

Lemma zlen_snoc {X} (ls : list X) l : zlen (ls ++ [l]) = zlen ls + 1.
Proof. by rewrite zlen_app. Qed.
Lemma total_snoc ls l : total (ls ++ [l]) = total ls + zlen l.
Proof. rewrite total_app. cbn. lia. Qed.

Lemma within_app lines l : within (lines ++ [l]) -> zlen lines + 1 <= max_rows pol /\ total lines + zlen l <= max_bytes pol.
Proof. unfold within. rewrite total_snoc, zlen_snoc. lia. Qed.

Lemma total_nonneg ls : 0 <= total ls.
Proof. induction ls as [|l ls IH]; cbn; [done|]. fold (total ls). pose proof (zlen_nonneg l). lia. Qed.

(** What one [write_row] does to an open session. *)
Definition row_written (lines : list bytes) (e : QuarantineEnvelope) (ws' : Os * _State) (out : unit + failure) : Prop :=
  match out with
  | inl _ => exists l, line_of e = Ok l /\ opened (lines ++ [l]) ws'
  | inr x => write_failed ws' x
  end.

Lemma fail_row lines e code ws :
  ~ Good -> code ∈ [WRITE_FAILED; SEAL_FAILED] -> opened lines ws -> wp (_fail code) (row_written lines e) ws.
Proof.
  intros HG Hc Ho. pose proof (opened_names _ _ Ho) as Hn. destruct Ho as (chunks & frs & buf & _ & Hs & _).
  eapply wp_conseq; [by eapply (fail_none (A := unit))|]. intros ws2 [u|x] Hx; [destruct Hx|exact Hx].
Qed.

Lemma buffer_row lines e l ws :
  line_of e = Ok l -> opened lines ws -> within (lines ++ [l]) -> (Good -> zlen l <= longest) ->
  wp (s ← get_state;
      let s := set_buffer s (n_rows s + 1) (plain_bytes s + zlen l) (buffer s ++ [l]) (buffer_bytes s + zlen l) in
      _ ← set_state s;
      if (zlen (buffer s) >=? _CHUNK_ROWS) || (buffer_bytes s >=? _CHUNK_BYTES) then _flush keys else mret tt) (row_written lines e) ws.
Proof.
  intros He (chunks & frs & buf & Hs & Hf & Hfr & Hl & Hw & Hn & Ht) [Hrows Hbytes]%within_app Hll. destruct ws as [w s]. cbn [fst snd] in *. subst s.
  apply wp_bind, wp_get. cbn [snd]. cbv zeta. apply wp_bind, wp_set. cbn [fst snd session n_rows plain_bytes buffer buffer_bytes set_buffer].
  match goal with |- wp _ _ (w, ?s) => change s with (session true (head ++ concat frs) (zlen lines + 1) (total lines + zlen l) (buf ++ [l]) (total buf + zlen l)) end.
  pose proof (zlen_snoc lines l) as El. pose proof (total_snoc lines l) as Et. pose proof (total_snoc buf l) as Eb.
  assert (Hlines : lines ++ [l] = concat chunks ++ buf ++ [l]) by (by rewrite Hl, <- app_assoc).
  assert (Hwi : within (lines ++ [l])) by (unfold within; lia).
  rewrite <- El, <- Et, <- Eb. destruct (_ || _) eqn:Efl.
  - eapply wp_conseq; [apply flush_chunk_ok; [by destruct buf|done|rewrite zlen_snoc; lia|]|].
    { intros HG. specialize (Hll HG). lia. }
    intros ws' [u|x] Hx; [|exact Hx]. destruct Hx as (fr & Hs' & Hf' & Hfr'). exists l. split; [done|].
    exists (chunks ++ [buf ++ [l]]), (frs ++ [fr]), []. split; [exact Hs'|]. split; [exact Hf'|]. split; [apply Forall2_app; [done|by constructor]|].
    split; [rewrite concat_app; cbn; by rewrite !app_nil_r|]. split; [by right|]. done.
  - apply wp_ret. exists l. split; [done|]. exists chunks, frs, (buf ++ [l]). apply orb_false_iff in Efl as [E1 E2].
    split; [done|]. split; [done|]. split; [done|]. split; [done|]. split; [by right|]. lia.
Qed.

Lemma write_row_ok lines e ws :
  registry_ok g -> writable e -> opened lines ws -> (Good -> exists l, line_of e = Ok l /\ within (lines ++ [l]) /\ zlen l <= longest) ->
  wp (write_row g keys e) (row_written lines e) ws.
Proof.
  intros Hg Hw Ho HG. unfold write_row. apply wp_bind, wp_catching, wp_raising. fold (line_of e).
  destruct (line_cases e Hg Hw) as [El|(v & _ & El)]; rewrite El; cbn iota.
  - replace (in_classes _ _) with true by done. apply wp_ret. apply fail_row; [|set_solver|done]. intros (l & Hl & _)%HG. congruence.
  - destruct (dumps v) as [|c t] eqn:Ed; [by destruct (dumps_starts_brace v)|]. cbn iota. set (l := c :: t) in *.
    apply wp_bind, wp_get. pose proof Ho as Ho'. destruct Ho' as (chunks & frs & buf & Hs & _).
    destruct ((n_rows ws.2 + 1 >? max_rows (policy ws.2)) || (plain_bytes ws.2 + zlen l >? max_bytes (policy ws.2))) eqn:Ecap.
    + apply fail_row; [|set_solver|done]. intros (l' & Hl' & Hin & _)%HG. assert (l' = l) as -> by congruence. apply within_app in Hin.
      rewrite Hs in Ecap. cbn in Ecap. apply orb_true_iff in Ecap. lia.
    + pose proof (buffer_row lines e l ws El Ho) as Hb. unfold wp in Hb. cbn [mbind st_bind get_state] in Hb.
      apply Hb; [|intros (l' & Hl' & _ & Hin)%HG; assert (l' = l) as -> by congruence; exact Hin].
      rewrite Hs in Ecap. cbn in Ecap. apply orb_false_iff in Ecap. unfold within. rewrite total_snoc, zlen_snoc. lia.
Qed.

(** A client's loop over its rows. *)
Fixpoint write_rows (es : list QuarantineEnvelope) : St (Os * _State) unit :=
  match es with [] => mret tt | e :: es' => _ ← write_row g keys e; write_rows es' end.

Lemma write_rows_ok es lines ws :
  registry_ok g -> Forall writable es -> opened lines ws ->
  (Good -> exists ls, map_res line_of es = Ok ls /\ within (lines ++ ls) /\ Forall (fun l => zlen l <= longest) ls) ->
  wp (write_rows es) (fun ws' out =>
      match out with
      | inl _ => exists ls, map_res line_of es = Ok ls /\ opened (lines ++ ls) ws'
      | inr x => write_failed ws' x
      end) ws.
Proof.
  intros Hg Hes. revert lines ws. induction Hes as [|e es He _ IH]; intros lines ws Ho HG.
  - apply wp_ret. exists []. by rewrite app_nil_r.
  - cbn [write_rows]. apply wp_bind. eapply wp_conseq; [apply (write_row_ok lines e ws Hg He Ho)|].
    + intros (ls & Hls & Hin & Hlo)%HG. cbn [map_res] in Hls. destruct (line_of e) as [l|]; [|done]. cbn in Hls. destruct (map_res line_of es) as [ls'|]; [|done].
      injection Hls as <-. apply Forall_cons_iff in Hlo as [Hlo _]. exists l. split; [done|]. split; [|done]. unfold within in *. change (l :: ls') with ([l] ++ ls') in Hin. rewrite app_assoc, zlen_app, total_app in Hin.
      pose proof (total_nonneg ls'). pose proof (zlen_nonneg ls'). lia.
    + intros ws' [u|x] Hx; [|exact Hx]. destruct Hx as (l & El & Ho'). eapply wp_conseq; [apply (IH _ _ Ho')|].
      * intros (ls & Hls & Hin & Hlo)%HG. cbn [map_res] in Hls. rewrite El in Hls. cbn in Hls. destruct (map_res line_of es) as [ls'|]; [|done].
        injection Hls as <-. apply Forall_cons_iff in Hlo as [_ Hlo]. exists ls'. by rewrite <- app_assoc.
      * intros ws2 [v|y] Hy; [|exact Hy]. destruct Hy as (ls & Hls & Ho2). exists (l :: ls). cbn [map_res]. rewrite El, Hls. cbn. split; [done|].
        by rewrite <- app_assoc in Ho2.
Qed.

(** ** Sealing *)

(** A session whose rows are all framed. *)
Definition framed (lines : list bytes) (chunks : list (list bytes)) (frs : list bytes) (ws : Os * _State) : Prop :=
  ws.2 = session true (head ++ concat frs) (zlen lines) (total lines) [] 0 /\ sits (files ws.1) (Some (head ++ concat frs)) None /\
  Forall2 frame_of frs chunks /\ lines = concat chunks.

Lemma last_flush_ok lines ws :
  opened lines ws ->
  wp (_flush keys) (fun ws' out => match out with inl _ => exists chunks frs, framed lines chunks frs ws' | inr x => write_failed ws' x end) ws.
Proof.
  intros (chunks & frs & buf & Hs & Hf & Hfr & Hl & Hw & Hn & Ht). destruct ws as [w s]. cbn [fst snd] in *. subst s.
  destruct buf as [|l buf].
  - apply wp_bind, wp_get, wp_ret. exists chunks, frs. rewrite app_nil_r in Hl. by split.
  - eapply wp_conseq; [apply flush_chunk_ok; [done|done|lia|intros _; lia]|].
    intros ws' [u|x] Hx; [|exact Hx]. destruct Hx as (fr & Hs' & Hf' & Hfr'). exists (chunks ++ [l :: buf]), (frs ++ [fr]).
    split; [done|]. split; [done|]. split; [apply Forall2_app; [done|by constructor]|]. rewrite concat_app. cbn. by rewrite app_nil_r.
Qed.

(** The trailer fits its length field. *)
Context (Htrailer : Good -> forall lines sh, within lines \/ lines = [] -> zlen (dumps (trailer_json (session true sh (zlen lines) (total lines) [] 0))) < 2 ^ 32).

Lemma publish_ok blob s w :
  names s -> sits (files w) (Some blob) None ->
  wp _publish_atomic (fun ws' out => ws'.2 = s /\
      match out with
      | inl _ => sits (files ws'.1) None (Some blob)
      | inr e => ~ Good /\ exists o1 o2, sits (files ws'.1) o1 o2 /\ (o2 = None \/ o2 = Some blob)
      end) (w, s).
Proof.
  intros [Ep Ef] H. unfold _publish_atomic. apply wp_bind, wp_get. cbn [snd]. rewrite Ep, Ef.
  apply wp_bind, wp_on_os, wp_os_call; cbn [fst snd]; rewrite ?(sits_partial _ _ _ H); cbn [fst snd].
  - intros w1 Hw1. assert (H1 : sits (files w1) None (Some blob)) by (rewrite Hw1; by eapply sits_rename).
    apply wp_bind, wp_on_os, wp_noop; cbn [fst snd]; intros w2 Hw2; rewrite <- Hw2 in H1.
    + apply wp_finally, wp_on_os, wp_noop; cbn [fst snd]; intros w3 Hw3; [|intros HG]; rewrite <- Hw3 in H1.
      all: apply wp_on_os, wp_noop; cbn [fst snd]; intros w4 Hw4; [|intros HG4]; rewrite <- Hw4 in H1; (split; [done|]); eauto 6.
    + intros HG. split; [done|]. eauto 7.
  - intros w1 Hw1 HG. split; [done|]. split; [done|]. rewrite Hw1. eauto 7.
Qed.

Lemma finish_ok lines chunks frs ws :
  framed lines chunks frs ws -> (Good -> within lines \/ lines = []) ->
  let trailer := dumps (trailer_json ws.2) in
  wp (finish_artifact trailer) (fun ws' out =>
      match out with
      | inl _ => exists blob, artifact frs lines blob /\ sits (files ws'.1) None (Some blob)
      | inr x => ~ Good /\ names ws'.2 /\ exists o1 o2, sits (files ws'.1) o1 o2 /\ match o2 with Some blob => exists frs, artifact frs lines blob | None => True end
      end) ws.
Proof.
  intros (Hs & Hf & Hfr & Hl) Hwi trailer. destruct ws as [w s]. cbn [fst snd] in *. subst s. set (sh := head ++ concat frs) in *. unfold finish_artifact.
  destruct (pack_ok 0 ltac:(lia)) as (zero & Hz & _). apply wp_bind, wp_raising. rewrite Hz. apply wp_bind, wp_raising.
  destruct (pack_u32 (zlen trailer)) as [size|x] eqn:Et.
  2:{ split; [|split; [done|by exists (Some sh), None]]. intros HG. destruct (pack_ok (zlen trailer)) as (b & Hb & _); [|congruence].
      split; [apply zlen_nonneg|]. by apply Htrailer; [|apply Hwi]. }
  set (blob := sh ++ zero ++ size ++ trailer).
  assert (Ha : artifact frs lines blob) by (exists chunks, zero, size; unfold blob, sh; rewrite <- app_assoc; by split_and!).
  apply wp_bind. unfold write_fd. apply wp_bind, wp_get. cbn [snd session fd_open]. apply wp_on_os.
  eapply wp_conseq; [apply write_all_ok, (sits_partial _ _ _ Hf)|]. intros w1 [u|x] Hw1; cbn [fst snd] in *.
  2:{ destruct Hw1 as (_ & HG & b' & Hw1). split; [done|]. split; [done|]. exists (Some b'), None. rewrite Hw1. split; [by eapply sits_write|done]. }
  assert (H1 : sits (files w1) (Some blob) None) by (rewrite Hw1; by eapply sits_write).
  apply wp_bind. unfold fsync_fd. apply wp_bind, wp_get. cbn [snd session fd_open]. apply wp_on_os, wp_noop; cbn [fst snd]; intros w2 Hw2; [|intros HG]; rewrite <- Hw2 in H1.
  2:{ split; [done|]. split; [done|]. by exists (Some blob), None. }
  apply wp_bind. eapply wp_conseq; [apply close_fd_ok|]. intros [w3 s3] [[]|x] [Hw3 Hs3]; cbn [fst snd] in *; rewrite <- Hw3 in H1.
  - destruct Hs3 as [-> _]. eapply wp_conseq; [by apply publish_ok|]. intros ws' [[]|x] [Hs' Hx]; [by exists blob|].
    destruct Hx as (HG & o1 & o2 & Ho & Hd). split; [done|]. rewrite Hs'. split; [done|]. exists o1, o2. split; [done|]. destruct Hd as [-> | ->]; [done|by exists frs].
  - destruct Hs3 as (-> & _ & HG). split; [by apply HG|]. split; [done|]. by exists (Some blob), None.
Qed.

Definition receipt_of (lines : list bytes) (frs : list bytes) : QuarantineReceipt :=
  MkReceipt (ref_of oh nm) (zlen lines) (total lines) (hexdigest (head ++ concat frs)) created expires PROTECTION_ENCRYPTED (key_version keys) rid.

Lemma seal_ok lines ws :
  opened lines ws -> (Good -> within lines \/ lines = []) ->
  wp (seal keys) (fun ws' out =>
      match out with
      | inl rc => exists blob frs, rc = receipt_of lines frs /\ artifact frs lines blob /\ sits (files ws'.1) None (Some blob)
      | inr x => failed lines ws' x
      end) ws.
Proof.
  intros Ho Hwi. unfold seal. apply wp_bind. eapply wp_conseq; [by apply last_flush_ok|]. intros ws1 [u|x] H1.
  2:{ destruct H1 as (HG & code & cl & -> & Hc & Hcl). split; [done|]. exists code, cl. split; [done|]. split; [done|]. by exists None. }
  destruct H1 as (chunks & frs & H1). apply wp_bind, wp_get, wp_bind, wp_raising. rewrite dumps_encodes.
  apply wp_bind, wp_catching. eapply wp_conseq; [by eapply finish_ok|]. intros ws2 [v|x] H2; cbn [any_exception].
  - destruct H2 as (blob & Ha & Hb). apply wp_ret. exists blob, frs. split; [|done]. by destruct H1 as (-> & _).
  - destruct H2 as (HG & Hn & o1 & o2 & Ho2 & Ha). eapply wp_conseq; [eapply (fail_ok (A := unit) _ lines); [done|set_solver|done|exact Ho2|exact Ha]|].
    intros ws3 [v|y] H3; [destruct H3|exact H3].
Qed.
End Session.

(** ** Lengths of written text *)

Lemma zlen_fmap {A B} (h : A -> B) l : zlen (h <$> l) = zlen l.
Proof. unfold zlen. by rewrite length_fmap. Qed.

Lemma pos_length n : 0 <= n < 10 ^ 20 -> zlen (str_int n) <= 20.
Proof.
  intros Hn. unfold str_int. replace (n <? 0) with false by lia. destruct (dec_digits_spec n ltac:(lia)) as [_ _ Hp Hm].
  unfold digit_chars. rewrite zlen_fmap. destruct Hm as [->|Hm]; [lia|]. destruct (Z.le_gt_cases (zlen (dec_digits n)) 20); [done|].
  pose proof (Z.pow_le_mono_r 10 20 (zlen (dec_digits n) - 1) ltac:(lia) ltac:(lia)). lia.
Qed.

Lemma hex_length b : zlen (hex_str b) = 2 * zlen b.
Proof. induction b as [|x b IH]; [done|]. unfold hex_str in *. rewrite bind_cons, zlen_app, IH, !zlen_cons. change (zlen []) with 0. lia. Qed.

Lemma hexdigest_plain b : forallb plain (hexdigest b) = true /\ zlen (hexdigest b) = 64.
Proof.
  unfold hexdigest. destruct (sha256_ok b) as [Hl Hb]. split; [by apply plain_hex_str|]. rewrite hex_length. unfold zlen. by rewrite Hl.
Qed.

Lemma escape_length c : zlen (escape_char c) <= 12.
Proof.
  unfold escape_char. assert (Hu : forall n, zlen (u_escape n) = 6).
  { intros n. unfold u_escape. rewrite !zlen_cons, zlen_fmap, zlen_pos_digits. lia. }
  repeat match goal with |- context [if ?b then _ else _] => destruct b end; cbv zeta; rewrite ?zlen_app, ?Hu; unfold zlen; cbn; lia.
Qed.

Lemma json_str_length s : zlen (json_str s) <= 12 * zlen s + 2.
Proof.
  unfold json_str. rewrite zlen_cons, zlen_app. change (zlen [34]) with 1. enough (zlen (s ≫= escape_char) <= 12 * zlen s) by lia.
  induction s as [|c s IH]; [done|]. rewrite bind_cons, zlen_app, zlen_cons. pose proof (escape_length c). lia.
Qed.

Lemma hash_length owner oh : _owner_hash owner = Ok oh -> zlen oh = 32.
Proof.
  unfold _owner_hash. destruct (utf8_encode owner) as [b|]; [|done]. intros H.
  assert (oh = take 32 (hexdigest b)) as -> by (clear - H; unfold mbind, result_bind in H; congruence).
  destruct (hexdigest_plain b) as [_ Hl]. unfold zlen in *. rewrite length_take. lia.
Qed.

Lemma run_hash_length run rh : _run_hash run = Ok rh -> zlen rh = 32.
Proof.
  unfold _run_hash. destruct (utf8_encode run) as [b|]; [|done]. intros H.
  assert (rh = take 32 (hexdigest (py "run:" ++ b))) as -> by (clear - H; unfold mbind, result_bind in H; congruence).
  destruct (hexdigest_plain (py "run:" ++ b)) as [_ Hl]. unfold zlen in *. rewrite length_take. lia.
Qed.

Definition items_length (items : list (pystr * pystr)) : Z := foldr (fun kt n => 12 * zlen kt.1 + zlen kt.2 + 10 + n) 10 items.

Lemma items_length_perm l k : l ≡ₚ k -> items_length l = items_length k.
Proof. unfold items_length. induction 1; cbn [foldr]; lia. Qed.

Lemma items_text_length (items : list (pystr * pystr)) :
  zlen (123 :: comma_join ((fun kt => json_str kt.1 ++ 58 :: 32 :: kt.2) <$> items) ++ [125]) <= items_length items.
Proof.
  rewrite zlen_cons, zlen_app. change (zlen [125]) with 1. enough (zlen (comma_join ((fun kt => json_str kt.1 ++ 58 :: 32 :: kt.2) <$> items)) + 10 <= items_length items) by lia.
  induction items as [|[k t] items IH]; [done|]. cbn [fmap list_fmap comma_join items_length foldr fst snd]. fold (items_length items).
  assert (Hx : zlen (json_str k ++ 58 :: 32 :: t) <= 12 * zlen k + zlen t + 4) by (rewrite zlen_app, !zlen_cons; pose proof (json_str_length k); lia).
  destruct ((fun kt : pystr * pystr => json_str kt.1 ++ 58 :: 32 :: kt.2) <$> items) as [|y l] eqn:El; [change (zlen (comma_join [])) with 0 in IH; lia|].
  cbn [gap default_spacing app]. rewrite zlen_app, !zlen_cons. lia.
Qed.

Lemma header_fits oh rh salt c e :
  zlen oh = 32 -> zlen rh = 32 -> zlen salt = 32 -> zlen (key_version keys) <= 2 ^ 20 -> zlen (dumps (header_json keys rh oh salt c e)) < 2 ^ 32.
Proof.
  intros Ho Hr Hs Hv. unfold header_json. cbn [dumps map fst snd float_text]. pose proof (float_repr_short c). pose proof (float_repr_short e).
  pose proof (json_str_length (key_version keys)). pose proof (json_str_length oh). pose proof (json_str_length rh). pose proof (json_str_length salt).
  pose proof (json_str_length (py "decoy-quarantine/v1")) as Hfm. pose proof (json_str_length PROTECTION_ENCRYPTED) as Hpe.
  change (zlen (py "decoy-quarantine/v1")) with 19 in Hfm. change (zlen PROTECTION_ENCRYPTED) with 9 in Hpe.
  revert Hfm Hpe. generalize (json_str (py "decoy-quarantine/v1")), (json_str PROTECTION_ENCRYPTED). intros t1 t2 Ht1 Ht2.
  eapply Z.le_lt_trans; [apply items_text_length|].
  rewrite (items_length_perm _ _ (sorted_by_perm fst _)). unfold items_length. cbn [foldr fst snd].
  repeat match goal with |- context [zlen (py ?k)] => let n := eval vm_compute in (zlen (py k)) in change (zlen (py k)) with n end.
  change (2 ^ 32) with 4294967296. change (2 ^ 20) with 1048576 in *. lia.
Qed.

(** ** Opening a session *)

(** The bytes of a header. *)
Definition header_of (oh rh salt : pystr) (created expires : ffloat) (head : bytes) : Prop :=
  exists size, let blob := dumps (header_json keys rh oh salt created expires) in pack_u32 (zlen blob) = Ok size /\ head = _MAGIC ++ size ++ blob.

(** A failure that left nothing, or said what it could not remove. *)
Definition excused (fs0 : gmap path bytes) (nm : pystr) (complete : bytes -> Prop) (fs : gmap path bytes) (e : failure) : Prop :=
  exists code cl, e = QuarantineError code cl /\ code ∈ [WRITE_FAILED; SEAL_FAILED] /\ cl ∈ ["not_needed"; "confirmed"; "failed"]%string /\
    (cl <> "failed"%string -> fs = fs0) /\
    (forall q, q.1.2 <> nm -> fs !! q = fs0 !! q) /\
    (forall d blob, fs !! (d, nm, dqa_file) = Some blob -> complete blob).

Lemma cleaned_excused (fs0 : gmap path bytes) oh nm code o2 fs cl complete :
  (forall d x, fs0 !! (d, nm, x) = None) -> code ∈ [WRITE_FAILED; SEAL_FAILED] -> cleaned oh nm fs0 o2 fs cl ->
  match o2 with Some blob => complete blob | None => True end -> excused fs0 nm complete fs (QuarantineError code cl).
Proof.
  intros Hfr Hc Hcl Ho. exists code, cl. split; [done|]. split; [done|].
  destruct Hcl as [[-> Hs]|[-> (o1 & o2' & Hs & Hd)]].
  - apply sits_none in Hs as ->; [|by split; apply Hfr]. split; [set_solver|]. split; [done|]. split; [done|]. intros d blob. by rewrite Hfr.
  - split; [set_solver|]. split; [done|]. destruct Hs as [H1 H2 H3]. split.
    + intros [[d n] x] Hq. cbn in Hq. apply H3; congruence.
    + intros d blob Hb. destruct (decide (d = oh)) as [->|Hne].
      * rewrite H2 in Hb. destruct Hd as [Hd|Hd]; [congruence|]. rewrite Hd in Hb. by rewrite Hb in Ho.
      * rewrite H3 in Hb by congruence. by rewrite Hfr in Hb.
Qed.

Section Opening.
Context (owner run_id : pystr) (pol : Policy).

(** The owner and the run have hashes, and the parts of the header are of moderate length. *)
Definition names_fit : Prop :=
  run_id <> [] /\ (exists oh rh, _owner_hash owner = Ok oh /\ _run_hash run_id = Ok rh) /\
  zlen (key_version keys) <= 2 ^ 20 /\ forall k, zlen (token_hex k) = 32.
Context (Hnames : Good -> names_fit).

Definition begun (fs0 : gmap path bytes) (nm : pystr) (w' : Os) (s : _State) : Prop :=
  exists oh rh salt created head, let expires := plus_seconds created (retention_seconds pol) in
    _owner_hash owner = Ok oh /\ _run_hash run_id = Ok rh /\ (exists k, salt = token_hex k) /\ header_of oh rh salt created expires head /\
    s = session oh nm run_id rh pol created expires true head 0 0 [] 0 /\ sits oh nm fs0 (files w') (Some head) None.

Lemma header_ok oh rh nm w fs0 :
  let p := (oh, nm, partial_file) in
  (forall d x, fs0 !! (d, nm, x) = None) -> _owner_hash owner = Ok oh -> _run_hash run_id = Ok rh -> files w = <[p := []]> fs0 ->
  wp (catching any_exception (_write_header token_hex keys pol oh rh run_id nm)
        (cleanup ← _discard_partial p; raise (QuarantineError WRITE_FAILED cleanup)))
     (fun w' out => match out with inl s => begun fs0 nm w' s | inr e => ~ Good /\ excused fs0 nm (fun _ => False) (files w') e end) w.
Proof.
  intros p Hfr Eo Er Hw. assert (Hf2 : fs0 !! (oh, nm, partial_file) = None /\ fs0 !! (oh, nm, dqa_file) = None) by (by split).
  assert (Hdiscard : forall w1 o1, ~ Good -> sits oh nm fs0 (files w1) o1 None ->
    wp (cleanup ← _discard_partial p; raise (A := _State) (QuarantineError WRITE_FAILED cleanup))
     (fun w' out => match out with inl s => begun fs0 nm w' s | inr e => ~ Good /\ excused fs0 nm (fun _ => False) (files w') e end) w1).
  { intros w1 o1 HG Hs. apply wp_bind. eapply wp_conseq; [by eapply discard_ok|]. intros w2 out (cl & -> & Hcl). apply wp_raise. split; [done|].
    eapply cleaned_excused; [done|set_solver|exact Hcl|done]. }
  assert (H0 : sits oh nm fs0 (files w) (Some []) None) by (rewrite Hw; eapply sits_write; by apply sits_none).
  apply wp_catching. unfold _write_header. apply wp_bind, wp_noop; intros w1 Hw1; [|intros HG]; rewrite <- Hw1 in H0; [|by eapply Hdiscard].
  apply wp_bind. unfold wp at 1. cbn [clock_now fst snd]. set (created := now_at _). apply wp_bind. unfold wp at 1. cbn [draw_hex fst snd]. set (salt := token_hex _).
  set (expires := plus_seconds created (retention_seconds pol)). apply wp_bind, wp_raising. rewrite dumps_encodes. set (blob := dumps _).
  apply wp_bind, wp_raising. destruct (pack_u32 (zlen blob)) as [size|x] eqn:Es; cbn [any_exception].
  2:{ eapply Hdiscard; [|exact H0]. intros (_ & _ & Hkv & Hhex)%Hnames.
      destruct (pack_ok (zlen blob)) as (b & Hb & _); [split; [apply zlen_nonneg|]|congruence].
      apply header_fits; [by eapply hash_length|by eapply run_hash_length|apply Hhex|done]. }
  apply wp_bind. eapply wp_conseq; [apply write_all_ok; cbn [files]; exact (sits_partial _ _ _ _ _ _ H0)|]. intros w2 [u|x] Hw2; cbn [files] in Hw2; cbn [any_exception].
  - apply wp_ret. exists oh, rh, salt, created, (_MAGIC ++ size ++ blob). split; [done|]. split; [done|]. split; [by eexists|]. split; [by exists size|]. split; [done|].
    rewrite Hw2. by eapply sits_write.
  - destruct Hw2 as (_ & HG & b' & Hw2). eapply Hdiscard; [done|]. rewrite Hw2. by eapply sits_write.
Qed.

Lemma begin_ok w :
  let nm := token_hex (drawn w) in
  (forall d x, files w !! (d, nm, x) = None) ->
  wp (begin_session token_hex keys owner run_id pol)
     (fun w' out => match out with inl s => begun (files w) nm w' s | inr e => ~ Good /\ excused (files w) nm (fun _ => False) (files w') e end) w.
Proof.
  intros nm Hfr. unfold begin_session. apply wp_catching. unfold _open_artifact.
  assert (Hnone : forall w', ~ Good -> files w' = files w -> wp (raise (A := _State) (_qerror WRITE_FAILED))
     (fun w' out => match out with inl s => begun (files w) nm w' s | inr e => ~ Good /\ excused (files w) nm (fun _ => False) (files w') e end) w').
  { intros w' HG Hw'. apply wp_raise. split; [done|]. exists WRITE_FAILED, "not_needed"%string. rewrite Hw'. split_and!; try done; [set_solver|set_solver|].
    intros d blob. by rewrite Hfr. }
  apply wp_bind, wp_raising. case_bool_decide as Ene; cbn [raise_if].
  { apply (Hnone w); [|done]. by intros (? & _)%Hnames. }
  apply wp_bind, wp_raising. destruct (_owner_hash owner) as [oh|x] eqn:Eo.
  2:{ replace (_ || _) with true; [apply (Hnone w); [|done]; intros (_ & (? & ? & ? & _) & _)%Hnames; congruence|].
      unfold _owner_hash in Eo. destruct (utf8_encode owner) as [b|y] eqn:Eu; [done|]. injection Eo as <-. by rewrite (utf8_errors _ _ Eu). }
  apply wp_bind, wp_raising. destruct (_run_hash run_id) as [rh|x] eqn:Er.
  2:{ replace (_ || _) with true; [apply (Hnone w); [|done]; intros (_ & (? & ? & ? & ?) & _)%Hnames; congruence|].
      unfold _run_hash in Er. destruct (utf8_encode run_id) as [b|y] eqn:Eu; [done|]. injection Er as <-. by rewrite (utf8_errors _ _ Eu). }
  apply wp_bind. unfold wp at 1. cbn [draw_hex fst snd]. fold nm.
  apply wp_bind, wp_os_call; cbn [fst snd files]; rewrite ?(Hfr oh partial_file); cbn [fst snd].
  - intros w1 Hw1. eapply wp_conseq; [by eapply header_ok|]. intros w2 [s|e] H2; [done|].
    destruct H2 as (HG & code & cl & -> & H2). cbn. split; [done|]. by exists code, cl.
  - intros w1 Hw1 HG. cbn. by apply Hnone.
Qed.
End Opening.
End Writing.

(** ** What a quarantine session guarantees

    A client opens a session, writes its rows and seals it, stopping at the first
    error. Under any system faults the store holds either nothing of it or an
    artifact of exactly its rows; without faults and within the policy it succeeds. *)

Section Safety.
Context {F : PyFloat} {FL : PyFloatLaws F} {E : FernetOps} {OF : OsFaults} {T : ClockOps F}.
Context (token_hex : nat -> pystr) (g : Registry) (keys : KeyProvider).

(** A session's operations run on the system. *)
Definition in_session {A} (s : _State) (m : St (Os * _State) A) : St Os A := fun w => let '(ws, out) := m (w, s) in (ws.1, out).

(** The session of a client that stops at the first error. *)
Definition store_rows (owner run_id : pystr) (pol : Policy) (es : list QuarantineEnvelope) : St Os QuarantineReceipt :=
  s ← begin_session token_hex keys owner run_id pol;
  in_session s (_ ← write_rows g keys es; seal keys).

(** What a sealed artifact [blob] of the given lines is, with its receipt. *)
Definition stored (owner run_id nm : pystr) (pol : Policy) (lines : list bytes) (rc : QuarantineReceipt) (blob : bytes) : Prop :=
  exists oh rh salt created head frs, let expires := plus_seconds created (retention_seconds pol) in
    _owner_hash owner = Ok oh /\ _run_hash run_id = Ok rh /\ (exists k, salt = token_hex k) /\ header_of keys oh rh salt created expires head /\
    rc = receipt_of keys oh nm run_id created expires head lines frs /\
    artifact keys oh nm run_id rh pol created expires head frs lines blob.

(** The artifact's file. *)
Definition artifact_path (rc : QuarantineReceipt) (nm : pystr) (p : path) : Prop :=
  exists oh, rc_ref rc = ref_of oh nm /\ p = (oh, nm, dqa_file).

Section Run.
Context (Good : Prop) (Hgood : Good -> Faultless).
Context (owner run_id : pystr) (pol : Policy) (longest : Z) (Hlongest : 0 <= longest).
Context (Hnames : Good -> names_fit token_hex keys owner run_id) (Hfit : Good -> tokens_fit keys longest).
Context (Hcaps : Good -> 0 <= max_rows pol <= 10 ^ 9 /\ 0 <= max_bytes pol <= 2 ^ 40).

Lemma trailer_length oh nm rid rh created expires lines sh :
  0 <= max_rows pol <= 10 ^ 9 /\ 0 <= max_bytes pol <= 2 ^ 40 -> within pol lines \/ lines = [] ->
  zlen (dumps (trailer_json (session oh nm rid rh pol created expires true sh (zlen lines) (total lines) [] 0))) < 2 ^ 32.
Proof.
  intros [Hr Hb] Hw. assert (H1 : zlen (str_int (zlen lines)) <= 20).
  { apply pos_length. pose proof (zlen_nonneg lines). destruct Hw as [[Hw _]| ->]; [lia|done]. }
  assert (H2 : zlen (str_int (total lines)) <= 20).
  { apply pos_length. pose proof (total_nonneg lines). destruct Hw as [[_ Hw]| ->]; [lia|done]. }
  unfold trailer_json. cbn [n_rows plain_bytes QuarantineStore.sha session]. generalize dependent (zlen lines). intros r Hr1. generalize dependent (total lines). intros b Hb1.
  pose proof (json_str_length (hexdigest sh)) as H3. rewrite (proj2 (hexdigest_plain sh)) in H3. revert H3. cbn [dumps map fst snd]. generalize (json_str (hexdigest sh)). intros t Ht.
  assert (Esort : forall a b c : pystr, sorted_by fst [(py "rows", a); (py "bytes", b); (py "sha256", c)] = [(py "bytes", b); (py "rows", a); (py "sha256", c)]) by done.
  rewrite Esort. cbn [fmap list_fmap fst snd comma_join gap default_spacing app]. repeat (rewrite zlen_cons || rewrite zlen_app).
  pose proof (json_str_length (py "rows")). pose proof (json_str_length (py "bytes")). pose proof (json_str_length (py "sha256")).
  change (zlen (py "rows")) with 4 in *. change (zlen (py "bytes")) with 5 in *. change (zlen (py "sha256")) with 6 in *. change (@zlen Z []) with 0. change (2 ^ 32) with 4294967296. lia.
Qed.

Lemma in_session_wp {A} s (m : St (Os * _State) A) (Q : Os -> A + failure -> Prop) w :
  wp m (fun ws out => Q ws.1 out) (w, s) -> wp (in_session s m) Q w.
Proof. unfold wp, in_session. by destruct (m (w, s)) as [ws out]. Qed.

(** Every outcome of a session, by whether its errors are excused. *)
Lemma store_rows_ok es w :
  let nm := token_hex (drawn w) in
  registry_ok g -> Forall (writable g) es -> (forall d x, files w !! (d, nm, x) = None) ->
  (Good -> exists ls, map_res (line_of g) es = Ok ls /\ within pol ls /\ Forall (fun l => zlen l <= longest) ls) ->
  wp (store_rows owner run_id pol es) (fun w' out =>
      match out with
      | inl rc => exists ls blob p, map_res (line_of g) es = Ok ls /\ stored owner run_id nm pol ls rc blob /\
                    artifact_path rc nm p /\ files w' = <[p := blob]> (files w) /\ (ls = [] \/ within pol ls)
      | inr e => ~ Good /\ excused (files w) nm (fun blob => exists ls rc, map_res (line_of g) es = Ok ls /\ stored owner run_id nm pol ls rc blob) (files w') e
      end) w.
Proof.
  intros nm Hg Hes Hfr Hls. unfold store_rows. apply wp_bind. eapply wp_conseq; [by eapply begin_ok|]. intros w1 [s|e] H1; cycle 1.
  { destruct H1 as (HG & code & cl & -> & Hc & Hcl & H1 & H2 & H3). split; [done|]. exists code, cl. split_and!; try done. intros d blob Hb. by destruct (H3 d blob Hb). }
  destruct H1 as (oh & rh & salt & created & head & Eo & Er & Hsalt & Hh & Hs & Hsits). subst s. cbv zeta in *. set (expires := plus_seconds created (retention_seconds pol)) in *.
  assert (Hfresh : files w !! (oh, nm, partial_file) = None /\ files w !! (oh, nm, dqa_file) = None) by (by split).
  apply in_session_wp, wp_bind.
  set (st := session oh nm run_id rh pol created expires true head 0 0 [] 0) in *.
  assert (Ho : opened keys oh nm (files w) run_id rh pol created expires head [] (w1, st)).
  { exists [], [], []. cbn [concat]. rewrite app_nil_r. split; [done|]. split; [done|]. split; [constructor|]. split; [done|]. split; [by left|done]. }
  assert (Hexc : forall ws e ls, (forall ls', ls' = ls -> exists ks, map_res (line_of g) es = Ok ks /\ ls' = ks) ->
    failed keys Good oh nm (files w) run_id rh pol created expires head ls ws e ->
    ~ Good /\ excused (files w) nm (fun blob => exists ls rc, map_res (line_of g) es = Ok ls /\ stored owner run_id nm pol ls rc blob) (files ws.1) e).
  { intros ws e ls Hl (HG & code & cl & -> & Hc & o2 & Hcl & Ha). split; [done|]. apply (cleaned_excused Good Hgood (files w) oh nm code o2); [exact Hfr|exact Hc|exact Hcl|].
    destruct o2 as [blob|]; [|done]. destruct Ha as [frs Ha]. destruct (Hl ls eq_refl) as (ks & Hks & ->).
    exists ks, (receipt_of keys oh nm run_id created expires head ks frs). split; [done|]. by exists oh, rh, salt, created, head, frs. }
  eapply wp_conseq; [eapply (write_rows_ok g keys Good Hgood); try exact Ho; try done|]. all: try exact Hfit.
  intros ws2 [u|e] H2.
  - destruct H2 as (ls & Els & Ho2). cbn [app] in Ho2. eapply wp_conseq; [eapply (seal_ok keys Good Hgood); [done|exact Hlongest|exact Hfit| |exact Ho2|]|].
    + intros HG lines sh Hw. apply trailer_length; [by apply Hcaps|done].
    + intros HG. destruct (Hls HG) as (ls' & E1 & E2 & _). left. assert (ls = ls') as -> by congruence. done.
    + intros ws3 [rc|e] H3.
      * destruct H3 as (blob & frs & -> & Ha & Hsit). exists ls, blob, (oh, nm, dqa_file). split; [done|].
        split; [by exists oh, rh, salt, created, head, frs|]. split; [by exists oh|]. split.
        -- apply map_eq. intros q. destruct Hsit as [S1 S2 S3]. destruct (decide (q = (oh, nm, dqa_file))) as [->|Hd]; [by rewrite lookup_insert_eq|].
           rewrite lookup_insert_ne by done. destruct (decide (q = (oh, nm, partial_file))) as [->|Hp]; [by rewrite S1, Hfr|by apply S3].
        -- destruct Ho2 as (? & ? & ? & _ & _ & _ & _ & Hw & _). exact Hw.
      * eapply Hexc; [|exact H3]. intros ls' ->. by exists ls.
  - destruct H2 as (HG & code & cl & -> & Hc & Hcl). split; [done|]. by eapply cleaned_excused.
Qed.
End Run.
End Safety.
