(* ===== verification/QuarantineReading.v ===== *)
(** * Reading a sealed artifact back

    The reader's parsing of what a session wrote: header, frames, digest, rows and
    token, and with them the end-to-end round trip of the store. *)

From S2P Require Import Prelude Numerals PyText PyData Sha256 Derive Reasons ReasonsTheory Json PyRepr QuarantineCodec QuarantineStore QuarantineTheory.

(** ** Splitting *)

Lemma split_on_none c s : Forall (fun x => x <> c) s -> split_on c s = [s].
Proof. induction 1 as [|x s Hx _ IH]; [done|]. cbn. rewrite IH. by replace (x =? c) with false by lia. Qed.

Lemma split_on_app c s t : Forall (fun x => x <> c) s -> split_on c (s ++ c :: t) = s :: split_on c t.
Proof.
  induction 1 as [|x s Hx _ IH]; cbn.
  - by rewrite Z.eqb_refl.
  - rewrite IH. by replace (x =? c) with false by lia.
Qed.

Lemma split_join chunk : chunk <> [] -> Forall (Forall (fun x => x <> 10)) chunk -> split_on 10 (join_lines chunk) = chunk.
Proof.
  induction chunk as [|l chunk IH]; [done|]. intros _ [Hl Hc]%Forall_cons_iff. destruct chunk as [|l2 chunk]; [by apply split_on_none|].
  change (join_lines (l :: l2 :: chunk)) with (l ++ 10 :: join_lines (l2 :: chunk)). rewrite split_on_app by done. by rewrite IH.
Qed.

Lemma partition_dash_app s t : Forall (fun x => x <> 45) s -> partition_dash (s ++ 45 :: t) = (s, t).
Proof. induction 1 as [|x s Hx _ IH]; [done|]. cbn. rewrite IH. by replace (x =? 45) with false by lia. Qed.

(** ** Lowercase hexadecimal names *)

Definition hex_name (s : pystr) : Prop := zlen s = 32 /\ forallb safe_id_char s = true.

Lemma safe_id_range c : safe_id_char c = true -> 48 <= c <= 57 \/ 97 <= c <= 102.
Proof. unfold safe_id_char. rewrite bool_decide_eq_true. cbn. rewrite !elem_of_cons, elem_of_nil. lia. Qed.

Lemma hex_char_safe d : 0 <= d < 16 -> safe_id_char (hex_char d) = true.
Proof.
  intros Hd. assert (In d (Z.of_nat <$> seq 0 16)) as Hin.
  { apply list_elem_of_In, list_elem_of_fmap. exists (Z.to_nat d). split; [lia|]. apply elem_of_seq. lia. }
  revert d Hin Hd. apply (List.Forall_forall (fun d => 0 <= d < 16 -> safe_id_char (hex_char d) = true)). by repeat constructor.
Qed.

Lemma hex_str_safe b : Forall is_byte b -> forallb safe_id_char (hex_str b) = true.
Proof.
  unfold is_byte, in_radix. induction 1 as [|x b Hx _ IH]; [done|]. unfold hex_str. rewrite bind_cons. fold (hex_str b). rewrite forallb_app, IH. cbn [forallb].
  pose proof (Z.mod_pos_bound x 16 ltac:(lia)). assert (0 <= x / 16 < 16) by (split; [apply Z.div_pos; lia|apply Z.div_lt_upper_bound; lia]).
  by rewrite !hex_char_safe.
Qed.

Lemma hexdigest_safe b : forallb safe_id_char (hexdigest b) = true.
Proof. apply hex_str_safe, sha256_ok. Qed.

Lemma safe_take n s : forallb safe_id_char s = true -> forallb safe_id_char (take n s) = true.
Proof. rewrite <- (take_drop n s) at 1. rewrite forallb_app. by intros [H _]%andb_true_iff. Qed.

Lemma owner_hash_name owner oh : _owner_hash owner = Ok oh -> hex_name oh.
Proof.
  unfold _owner_hash. destruct (utf8_encode owner) as [b|]; [|done]. intros H. assert (oh = take 32 (hexdigest b)) as -> by (clear - H; unfold mbind, result_bind in H; congruence). split; [|by apply safe_take, hexdigest_safe].
  destruct (hexdigest_plain b) as [_ Hl]. unfold zlen in *. rewrite length_take. lia.
Qed.

Lemma run_hash_safe run rh : _run_hash run = Ok rh -> forallb safe_id_char rh = true.
Proof. unfold _run_hash. destruct (utf8_encode run) as [b|]; [|done]. intros H.
  assert (rh = take 32 (hexdigest (py "run:" ++ b))) as -> by (clear - H; unfold mbind, result_bind in H; congruence). apply safe_take, hexdigest_safe. Qed.

Lemma safe_no s c : ~ (48 <= c <= 57 \/ 97 <= c <= 102) -> forallb safe_id_char s = true -> Forall (fun x => x <> c) s.
Proof.
  rewrite forallb_forall, List.Forall_forall. intros Hc H x Hx. apply H, safe_id_range in Hx. intros ->. by apply Hc.
Qed.

Lemma safe_plain s : forallb safe_id_char s = true -> forallb plain s = true.
Proof. rewrite !forallb_forall. intros H x Hx. apply H, safe_id_range in Hx. unfold plain. lia. Qed.

Lemma plain_text s : forallb plain s = true -> Forall text_char s.
Proof. exact (digits_text s). Qed.

(** ** Lengths on disk *)

Lemma unpack_at pre n b rest i : pack_u32 n = Ok b -> zlen pre = i -> unpack_u32 (pre ++ b ++ rest) i = Ok n.
Proof.
  unfold pack_u32. destruct (to_bytes n 4) as [b'|] eqn:Eb; [|done]. intros [= ->] Hi. apply to_bytes_inv in Eb as (_ & Hl & _ & Hv); [|lia].
  unfold unpack_u32. rewrite zdrop_app by done. rewrite ztake_app by done. by rewrite Hl, Hv.
Qed.

Lemma pack_inv n b : pack_u32 n = Ok b -> zlen b = 4 /\ 0 <= n.
Proof. unfold pack_u32. destruct (to_bytes n 4) as [b'|] eqn:Eb; [|done]. intros [= ->]. apply to_bytes_inv in Eb as (? & ? & _); lia. Qed.

Section Reading.
Context {F : PyFloat} {FL : PyFloatLaws F} {E : FernetOps} {EL : FernetLaws E} {OF : OsFaults} {T : ClockOps F}.
Context (token_hex : nat -> pystr) (g : Registry) (keys : KeyProvider) (container_str : json -> pystr).
Context (Hg : registry_ok g).

(** ** Frames *)

(** The token of a chunk's lines. *)
Definition token_of (key : bytes) (tok : bytes) (chunk : list bytes) : Prop :=
  chunk <> [] /\ exists n, tok = fernet_encrypt key n (join_lines chunk).

Lemma frames_ok key pre frs chunks zero size trailer v fuel :
  _fernet keys = Ok key -> Forall (Forall (Forall is_byte)) chunks ->
  Forall2 (frame_of keys) frs chunks -> pack_u32 0 = Ok zero -> pack_u32 (zlen trailer) = Ok size -> loads_bytes trailer = Ok v ->
  (length frs < fuel)%nat ->
  exists toks, _frames fuel (pre ++ concat frs ++ zero ++ size ++ trailer) (zlen pre) = Ok (toks, v, zlen (pre ++ concat frs)) /\ Forall2 (token_of key) toks chunks.
Proof.
  intros Hkey Hbytes Hfr Hz Hs Hv. revert pre fuel Hbytes. induction Hfr as [|fr chunk frs chunks Hf _ IH]; intros pre fuel Hbytes Hl; (destruct fuel as [|fuel]; [cbn in Hl; lia|]).
  - exists []. split; [|done]. cbn [_frames concat app]. rewrite (unpack_at pre 0 zero _ (zlen pre)) by first [exact Hz|reflexivity]. cbn [mbind result_bind]. change (0 =? 0) with true. cbn iota.
    destruct (pack_inv _ _ Hz) as [Hlz _]. destruct (pack_inv _ _ Hs) as [Hls _].
    rewrite app_assoc, (unpack_at (pre ++ zero) (zlen trailer) size trailer (zlen pre + 4)) by first [exact Hs|rewrite zlen_app; lia]. cbn [mbind result_bind].
    rewrite app_assoc. rewrite zdrop_app by (rewrite !zlen_app; lia).
    replace (ztake (zlen trailer) trailer) with trailer by (symmetry; rewrite <- (app_nil_r trailer) at 2; by apply ztake_app).
    rewrite Hv. cbn [mbind result_bind]. rewrite app_nil_r. do 2 f_equal. lia.
  - destruct Hf as (Hne & key' & n & sz & Hkey' & Hsz & ->). assert (key' = key) as -> by congruence. clear Hkey'.
    set (tok := fernet_encrypt key n (join_lines chunk)) in *. destruct (pack_inv _ _ Hsz) as [Hlsz _].
    pose proof (fernet_token key n (join_lines chunk)) as Htok. fold tok in Htok.
    assert (Hpos : 0 < zlen tok) by (pose proof (zlen_nonneg tok); destruct (Z.eq_dec (zlen tok) 0) as [E0|]; [by apply zlen_zero in E0|lia]).
    cbn [concat]. set (tail := zero ++ size ++ trailer) in *. apply Forall_cons_iff in Hbytes as [_ Hbytes].
    destruct (IH (pre ++ sz ++ tok) fuel Hbytes ltac:(cbn in Hl; lia)) as (toks & Eq & Ht).
    exists (tok :: toks). split; [|constructor; [split; [done|by exists n]|done]].
    assert (Eblob : pre ++ ((sz ++ tok) ++ concat frs) ++ tail = (pre ++ sz ++ tok) ++ concat frs ++ tail) by (by rewrite <- !app_assoc).
    rewrite Eblob. cbn [_frames]. rewrite <- Eblob at 1. rewrite <- !app_assoc. rewrite (unpack_at pre (zlen tok) sz _ (zlen pre)) by first [exact Hsz|reflexivity]. cbn [mbind result_bind].
    replace (zlen tok =? 0) with false by lia. cbn iota.
    replace (zlen pre + 4 + zlen tok) with (zlen (pre ++ sz ++ tok)) by (rewrite !zlen_app; lia).
    rewrite <- !app_assoc in Eq. rewrite Eq. cbn [mbind result_bind fst snd].
    do 3 f_equal. rewrite app_assoc, zdrop_app by (rewrite zlen_app; lia). by rewrite ztake_app.
Qed.

(** ** Rows *)

(** The record a reader gets for a row: the row's keys come back sorted. *)
Definition record_of (e : QuarantineEnvelope) : QuarantineRecord :=
  MkQuarantineRecord (JStr (e_table e)) (JInt (row_position e)) (e_reasons e) (sorted_by fst (e_row e)).

Definition reason_ok (r : ReasonRecord) : Prop :=
  validate_record g r = Ok tt /\ canonical (context r) /\ Forall text_char (namespace r) /\ Forall text_char (code r).

(** A row the store can give back: valid canonical reasons, text without lone
    surrogates, distinct column names and cells an Arrow row can hold. *)
Record envelope_ok (e : QuarantineEnvelope) : Prop := {
  eo_table : Forall text_char (e_table e);
  eo_reasons : Forall reason_ok (e_reasons e);
  eo_names : NoDup (e_row e).*1;
  eo_text : Forall (Forall text_char) (e_row e).*1;
  eo_cells : Forall (fun kv => cell_ok kv.2) (e_row e);
}.

Definition enc (c : pycell) : json := match _encode c with Ok v => v | Err _ => JNull end.

Lemma enc_ok c : cell_ok c -> _encode c = Ok (enc c) /\ json_ok (enc c) /\ norm (enc c) = enc c /\ _decode (enc c) = Ok c.
Proof. intros H. destruct (encode_codes c H) as (v & Ev & Hj & Hn & Hd). unfold enc. rewrite Ev. split_and!; try done. apply Hd. lia. Qed.

Lemma map_res_eq {A B} (h : A -> result B) (k : A -> B) l : Forall (fun a => h a = Ok (k a)) l -> map_res h l = Ok (map k l).
Proof. induction 1 as [|a l Ha _ IH]; [done|]. cbn [map_res map]. by rewrite Ha, IH. Qed.

Lemma map_res_map {A B} (h : B -> result A) (k : A -> B) l : Forall (fun a => h (k a) = Ok a) l -> map_res h (map k l) = Ok l.
Proof. induction 1 as [|a l Ha _ IH]; [done|]. cbn [map_res map]. by rewrite Ha, IH. Qed.

(** *** A reason's payload *)

Lemma chars_text (f : Z -> bool) s : (forall c, f c = true -> 0 <= c < 128) -> forallb f s = true -> Forall text_char s.
Proof. rewrite forallb_forall, List.Forall_forall. intros Hf H c Hc. apply H, Hf in Hc. unfold text_char. lia. Qed.

Lemma safe_ref_text s : safe_ref s = true -> Forall text_char s.
Proof.
  destruct s as [|c s]; [done|]. cbn [safe_ref]. intros H. bool_prop. apply (chars_text ref_char); [|cbn [forallb]; rewrite andb_true_iff; split; [|done]].
  - intros x. unfold ref_char, ascii_alnum. lia.
  - unfold ref_char. by rewrite H.
Qed.

Lemma safe_identity_text s : safe_identity s = true -> Forall text_char s.
Proof.
  destruct s as [|c s]; [done|]. cbn [safe_identity]. intros H. bool_prop. apply (chars_text identity_char); [|cbn [forallb]; rewrite andb_true_iff; split; [|done]].
  - intros x. unfold identity_char, lower_char. lia.
  - unfold identity_char. by rewrite H.
Qed.

Ltac closed_text := apply plain_text; vm_compute; reflexivity.

Lemma enum_text :
  (forall p, Forall text_char (value_of_enum Phases p)) /\ (forall k, Forall text_char (value_of_enum Kinds k)) /\
  (forall s, Forall text_char (value_of_enum Severities s)) /\ (forall r, Forall text_char (value_of_enum RetryClasses r)) /\
  (forall o, Forall text_char (value_of_enum Outcomes o)) /\ (forall o, Forall text_char (value_of_enum Operations o)) /\
  (forall s, Forall text_char (value_of_enum PublicationStates s)) /\ (forall s, Forall text_char (value_of_enum CleanupStates s)).
Proof. split_and!; intros []; closed_text. Qed.

(** A payload the writer emits reads as itself once its dictionaries are sorted. *)
Definition reread (p : pyval) : pyval := payload_of (norm (json_of p)).

Lemma reread_opt_str o : reread (opt_str o) = opt_str o.
Proof. by destruct o. Qed.
Lemma reread_opt_enum {X} `{EqDecision X} members (o : option X) : reread (opt_enum members o) = opt_enum members o.
Proof. by destruct o. Qed.

Lemma sorted_weaken {X} (R R' : X -> X -> Prop) l : (forall x y, R x y -> R' x y) -> StronglySorted R l -> StronglySorted R' l.
Proof. intros HR. induction 1 as [|x l Hl IH Hx]; constructor; [done|]. eapply Forall_impl; [|exact Hx]. auto. Qed.

Lemma sorted_pairs (l : list (pystr * Z)) : sorted l = l -> NoDup l.*1 -> sorted_by fst l = l.
Proof.
  intros Hs Hnd. assert (Hl : Sorted_by fst l).
  { rewrite <- Hs. eapply sorted_weaken; [|apply (sorted_by_sorted id)]. intros [a b] [c d]. unfold id, py_leb. cbn [fst]. rewrite prod_cmp. by destruct (py_cmp a c). }
  symmetry. apply (Sorted_by_unique fst); [|done|apply sorted_by_sorted|by rewrite sorted_by_perm].
  intros [a b] [c d] Hx Hy Ek. cbn in Ek. subst c. f_equal. clear - Hnd Hx Hy. induction l as [|[k n] l IH]; [by apply elem_of_nil in Hx|].
  cbn in Hnd. apply list.NoDup_cons in Hnd as [Hk Hnd]. apply elem_of_cons in Hx as [Hx|Hx], Hy as [Hy|Hy]; [congruence| | |auto].
  - injection Hx as -> ->. destruct Hk. apply list_elem_of_fmap. by exists (k, d).
  - injection Hy as -> ->. destruct Hk. apply list_elem_of_fmap. by exists (k, b).
Qed.

Lemma reread_counts (l : list (pystr * Z)) :
  sorted l = l -> NoDup l.*1 -> reread (PDict ((fun kv => (kv.1, PInt kv.2)) <$> l)) = PDict ((fun kv => (kv.1, PInt kv.2)) <$> l).
Proof.
  intros Hs Hnd. unfold reread. cbn [json_of]. rewrite norm_obj. change (@fmap list list_fmap) with (@map). rewrite !map_map. cbn [json_of fst snd].
  rewrite (sorted_by_map fst fst (fun kv : pystr * Z => (kv.1, JInt kv.2))) by done. rewrite sorted_pairs by done. cbn [payload_of]. by rewrite !map_map.
Qed.

Lemma reread_identity o :
  let p := match o with Some i => PList [PStr i.1; PStr i.2] | None => PNone end in reread p = p.
Proof. by destruct o. Qed.

Lemma reread_context c : valid_context c -> canonical c -> context_from_payload (reread (PDict (context_items c))) = Ok c.
Proof.
  intros Hv Hc. unfold reread at 1. cbn [json_of]. rewrite norm_obj. cbn [payload_of].
  apply context_read; [done|done|]. destruct Hc as [Hs Hnd].
  constructor.
  - done.
  - etransitivity; [|apply (f_equal (fun x => x)), reread_counts; done]. reflexivity.
  - etransitivity; [|apply reread_opt_str]. reflexivity.
  - etransitivity; [|apply reread_opt_str]. reflexivity.
  - etransitivity; [|apply reread_opt_enum]. reflexivity.
  - etransitivity; [|apply reread_opt_enum]. reflexivity.
  - etransitivity; [|apply reread_opt_enum]. reflexivity.
  - etransitivity; [|apply reread_identity]. reflexivity.
Qed.

Ltac closed_keys := repeat (apply List.Forall_cons; [closed_text|]); apply List.Forall_nil.

Lemma opt_str_json o : ref_ok o = true -> json_ok (json_of (opt_str o)).
Proof. destruct o as [s|]; [|done]. exact (safe_ref_text s). Qed.

Lemma opt_enum_json {X} `{EqDecision X} members (o : option X) :
  (forall e, Forall text_char (value_of_enum members e)) -> json_ok (json_of (opt_enum members o)).
Proof. destruct o; [|done]. intros H. apply H. Qed.

Lemma counts_json (l : list (pystr * Z)) :
  NoDup l.*1 -> Forall (fun kv => count_ok kv = true) l -> json_ok (json_of (PDict ((fun kv => (kv.1, PInt kv.2)) <$> l))).
Proof.
  intros Hnd Hl. change (@fmap list list_fmap) with (@map). cbn [json_of json_ok]. rewrite !map_map. cbn [fst snd json_of].
  change (map (fun x : pystr * Z => x.1) l) with (l.*1). split; [done|]. split; [|by apply foldr_and, List.Forall_forall].
  apply Forall_fmap. eapply Forall_impl; [|exact Hl]. intros [k n] H. unfold count_ok in H. apply andb_true_iff in H as [H _]. apply bool_decide_eq_true in H. cbn [compose fst] in *.
  assert (HK : Forall (Forall text_char) COUNT_KEYS) by (unfold COUNT_KEYS; cbn [fmap list_fmap]; closed_keys). rewrite list.Forall_forall in HK. exact (HK k H).
Qed.

Lemma context_json c : valid_context c -> canonical c -> json_ok (json_of (PDict (context_items c))).
Proof.
  intros [Ho Hs Hl Hcn Hi] [Hsort Hnd]. destruct enum_text as (_ & _ & _ & _ & _ & Hop & Hpu & Hcl).
  unfold context_items. cbn [json_of map json_ok fst snd fmap list_fmap]. split; [by_decide|]. split; [closed_keys|]. cbn [foldr].
  split; [by apply opt_str_json|]. split; [by apply opt_enum_json|]. split; [by apply opt_str_json|]. split; [by apply opt_enum_json|].
  split; [by apply opt_enum_json|]. split; [exact (counts_json _ Hnd Hcn)|]. split; [done|]. split; [|done].
  destruct (original_identity c) as [[a b]|]; [|done]. cbn in Hi |- *. apply andb_true_iff in Hi as [Ha Hb]. split_and!; [by apply safe_identity_text..|done].
Qed.

Lemma read_payload r : reason_ok r ->
  exists p, to_payload g r = Ok p /\ json_ok (json_of p) /\ from_payload g (norm (json_of p)) = Ok r.
Proof.
  intros (Hv & Hc & Hn & Hcd). destruct (valid_record_stated g r Hg Hv) as (_ & _ & _ & _ & _ & _ & Hvc).
  exists (PDict (record_items r)). split; [by apply record_written|]. split.
  - pose proof (context_json _ Hvc Hc) as Hcj. destruct enum_text as (Hp & Hk & Hsv & Hr & Hou & _). unfold record_items. cbn [json_of map json_ok fst snd fmap list_fmap] in *.
    split; [by_decide|]. split; [closed_keys|]. cbn [foldr]. split_and!; try done; try apply Hp; try apply Hk; try apply Hsv; try apply Hr; try apply Hou. 1: closed_text.
    all: apply Hcj.
  - unfold from_payload. change (payload_of (norm (json_of ?p))) with (reread p). unfold reread. cbn [json_of]. rewrite norm_obj. cbn [payload_of].
    rewrite (record_read g r); [done|done|done|]. constructor; try done. etransitivity; [|apply reread_context; done]. reflexivity.
Qed.

(** *** One line *)

Lemma read_payloads rs : Forall reason_ok rs ->
  exists ps, map_res (to_payload g) rs = Ok ps /\ Forall json_ok (json_of <$> ps) /\ map_res (from_payload g) (map norm (json_of <$> ps)) = Ok rs.
Proof.
  induction 1 as [|r rs Hr _ IH]; [by exists []|]. destruct (read_payload r Hr) as (p & Ep & Hp & Hb). destruct IH as (ps & Eps & Hps & Hbs).
  exists (p :: ps). cbn [map_res]. rewrite Ep, Eps. split; [done|]. split; [by constructor|]. cbn [fmap list_fmap map map_res]. rewrite Hb. cbn [mbind result_bind]. by rewrite Hbs.
Qed.

Lemma read_line_ok e : envelope_ok e ->
  exists v, row_json g e = Ok v /\ line_of g e = Ok (dumps v) /\ read_line g (dumps v) = Ok (record_of e).
Proof.
  intros [Ht Hr Hnd Htx Hc]. destruct (read_payloads _ Hr) as (ps & Eps & Hps & Hback).
  set (row := map (fun kv => (kv.1, enc kv.2)) (e_row e)).
  assert (Erow : map_res (fun kv => v ← _encode kv.2; Ok (kv.1, v)) (e_row e) = Ok row).
  { apply map_res_eq. eapply Forall_impl; [|exact Hc]. intros kv Hk. destruct (enc_ok _ Hk) as (-> & _). done. }
  set (v := JObj [(py "table", JStr (e_table e)); (py "row_position", JInt (row_position e)); (py "reasons", JArr (json_of <$> ps)); (py "row", JObj row)]).
  assert (Ev : row_json g e = Ok v) by (unfold row_json; rewrite Eps; cbn [mbind result_bind]; by rewrite Erow).
  exists v. split; [done|]. split; [unfold line_of; rewrite Ev; apply dumps_encodes|].
  assert (Hrow : json_ok (JObj row)).
  { cbn [json_ok]. assert (Ek : row.*1 = (e_row e).*1) by (unfold row; change (@map) with (@fmap list list_fmap); by rewrite <- list_fmap_compose).
    rewrite Ek. split; [done|]. split; [done|]. unfold row. rewrite map_map. apply foldr_and. eapply Forall_impl; [|exact Hc]. intros kv Hk. by apply enc_ok. }
  assert (Hv : json_ok v).
  { unfold v. split; [cbn [fmap list_fmap fst]; by_decide|]. split; [cbn [fmap list_fmap fst]; closed_keys|]. cbn [map foldr snd].
    split; [exact Ht|]. split; [done|]. split; [by apply foldr_and|]. by split. }
  assert (Hnorm : norm v = JObj [(py "reasons", JArr (map norm (json_of <$> ps))); (py "row", norm (JObj row)); (py "row_position", JInt (row_position e)); (py "table", JStr (e_table e))]) by reflexivity.
  unfold read_line. rewrite loads_bytes_dumps by done. rewrite Hnorm. cbn [mbind result_bind].
  change (item_of (JObj ?d) "table") with (Ok (A := json) (JStr (e_table e))). change (item_of (JObj ?d) "row_position") with (Ok (A := json) (JInt (row_position e))).
  change (item_of (JObj ?d) "reasons") with (Ok (A := json) (JArr (map norm (json_of <$> ps)))). change (item_of (JObj ?d) "row") with (Ok (A := json) (norm (JObj row))).
  cbn [mbind result_bind items_of]. rewrite Hback. cbn [mbind result_bind]. rewrite norm_obj. cbn [dict_items mbind result_bind].
  unfold row. rewrite (sorted_by_map fst fst (fun kv : pystr * pycell => (kv.1, enc kv.2))) by done. rewrite map_map. cbn [fst snd].
  rewrite (map_res_map _ _ (sorted_by fst (e_row e))); [done|].
  assert (Hs : Forall (fun kv => cell_ok kv.2) (sorted_by fst (e_row e))) by (by rewrite sorted_by_perm).
  eapply Forall_impl; [|exact Hs]. intros [k c] Hk. cbn [fst snd] in *. destruct (enc_ok _ Hk) as (_ & _ & -> & ->). done.
Qed.

(** ** Chunks *)

Lemma plain_byte s : forallb plain s = true -> Forall is_byte s /\ Forall (fun x => x <> 10) s.
Proof.
  rewrite forallb_forall. intros H. split; apply List.Forall_forall; intros c Hc%H; unfold plain in Hc; unfold is_byte, in_radix; lia.
Qed.

Lemma join_bytes chunk : Forall (Forall is_byte) chunk -> Forall is_byte (join_lines chunk).
Proof.
  induction 1 as [|l chunk Hl _ IH]; [constructor|]. destruct chunk as [|l2 chunk]; [exact Hl|].
  change (join_lines (l :: l2 :: chunk)) with (l ++ 10 :: join_lines (l2 :: chunk)). apply Forall_app. split; [done|]. constructor; [|done].
  unfold is_byte, in_radix. lia.
Qed.

Lemma read_frames key toks chunks :
  Forall2 (token_of key) toks chunks -> Forall (Forall (fun l => forallb plain l = true)) chunks ->
  map_res (read_frame g key) toks = map_res (map_res (read_line g)) chunks.
Proof.
  induction 1 as [|tok chunk toks chunks [Hne [n ->]] _ IH]; intros Hp; [done|]. apply Forall_cons_iff in Hp as [Hp1 Hp].
  cbn [map_res]. rewrite IH by done. f_equal. unfold read_frame.
  rewrite fernet_opens by (apply join_bytes; eapply Forall_impl; [|exact Hp1]; intros l Hl; by apply plain_byte). cbn [of_option mbind result_bind].
  rewrite split_join; [done|done|]. eapply Forall_impl; [|exact Hp1]. intros l Hl. by apply plain_byte.
Qed.

Lemma map_res_app {A B} (h : A -> result B) l k :
  map_res h (l ++ k) = (a ← map_res h l; b ← map_res h k; Ok (a ++ b)).
Proof.
  induction l as [|x l IH]; cbn [app map_res mbind result_bind]; [by destruct (map_res h k)|]. destruct (h x); [|done]. cbn [mbind result_bind]. rewrite IH.
  destruct (map_res h l); [|done]. cbn [mbind result_bind]. by destruct (map_res h k).
Qed.

Lemma map_res_concat {A B} (h : A -> result B) chunks r :
  map_res h (concat chunks) = Ok r -> exists out, map_res (map_res h) chunks = Ok out /\ concat out = r.
Proof.
  revert r. induction chunks as [|c chunks IH]; intros r; cbn [concat map_res]; [intros [= <-]; by exists []|]. rewrite map_res_app.
  destruct (map_res h c) as [a|]; [|done]. cbn [mbind result_bind]. destruct (map_res h (concat chunks)) as [b|]; [|done]. cbn [mbind result_bind]. intros [= <-].
  destruct (IH b eq_refl) as (out & -> & <-). by exists (a :: out).
Qed.

Lemma read_lines es ls :
  Forall envelope_ok es -> map_res (line_of g) es = Ok ls ->
  Forall (fun l => forallb plain l = true) ls /\ map_res (read_line g) ls = Ok (record_of <$> es).
Proof.
  intros Hes. revert ls. induction Hes as [|e es He _ IH]; intros ls; cbn [map_res]; [by intros [= <-]|].
  destruct (read_line_ok e He) as (v & _ & El & Er). rewrite El. cbn [mbind result_bind]. destruct (map_res (line_of g) es) as [ks|]; [|done].
  cbn [mbind result_bind]. intros [= <-]. destruct (IH ks eq_refl) as [Hp Hr]. split; [constructor; [apply dumps_plain|done]|].
  cbn [map_res]. rewrite Er. cbn [mbind result_bind]. by rewrite Hr.
Qed.

#[local] Opaque hmac_sha256 hexdigest hkdf_sha256.

(** ** The whole artifact *)

Section Artifact.
Context (oh nm rid rh salt : pystr) (pol : Policy) (created expires : ffloat) (head : bytes) (key : bytes).
Context (Hkey : _fernet keys = Ok key) (Hversion : Forall text_char (key_version keys)).
Context (Hoh : hex_name oh) (Hnm : hex_name nm) (Hrh : forallb safe_id_char rh = true) (Hsalt : forallb safe_id_char salt = true).
Context (Hhead : header_of keys oh rh salt created expires head).

Definition read_header : json := norm (header_json keys rh oh salt created expires).

Lemma safe_text s : forallb safe_id_char s = true -> Forall text_char s.
Proof. intros H. by apply plain_text, safe_plain. Qed.

Lemma header_json_ok : json_ok (header_json keys rh oh salt created expires).
Proof.
  unfold header_json. split; [cbn [fmap list_fmap fst]; by_decide|]. split; [cbn [fmap list_fmap fst]; closed_keys|]. cbn [map foldr snd].
  split_and!; try done; cbn [json_ok]; try (apply safe_text; by destruct Hoh); try (by apply safe_text); closed_text.
Qed.

Lemma parse_head rest : parse_header (head ++ rest) = Ok read_header.
Proof.
  destruct Hhead as (size & Hs & ->). unfold parse_header. rewrite <- !app_assoc.
  assert (Hm : starts_with _MAGIC (_MAGIC ++ size ++ dumps (header_json keys rh oh salt created expires) ++ rest) = true) by done.
  rewrite Hm. cbn [negb raise_if mbind result_bind]. rewrite (unpack_at _MAGIC _ size _ 5 Hs) by done. cbn [mbind result_bind].
  destruct (pack_inv _ _ Hs) as [Hl _]. rewrite app_assoc, zdrop_app by (rewrite zlen_app, Hl; done). rewrite ztake_app by done.
  apply loads_bytes_dumps, header_json_ok.
Qed.

Lemma header_length rest : exists size, unpack_u32 (head ++ rest) 5 = Ok size /\ 9 + size = zlen head.
Proof.
  destruct Hhead as (size & Hs & ->). exists (zlen (dumps (header_json keys rh oh salt created expires))). rewrite <- !app_assoc. split; [by apply unpack_at|].
  destruct (pack_inv _ _ Hs) as [Hl _]. rewrite !zlen_app, Hl. change (zlen _MAGIC) with 5. lia.
Qed.

Lemma verify_ok frs lines blob :
  artifact keys oh nm rid rh pol created expires head frs lines blob -> Forall (fun l => forallb plain l = true) lines ->
  exists toks chunks trailer, verify_blob blob = Ok (toks, trailer) /\ Forall2 (token_of key) toks chunks /\ lines = concat chunks.
Proof.
  intros (chunks & zero & size & Hfr & Hl & Hz & Hs & ->) Hp. set (tj := trailer_json _) in *.
  assert (Htj : json_ok tj).
  { split; [cbn [fmap list_fmap fst trailer_json tj]; by_decide|]. split; [cbn [fmap list_fmap fst]; closed_keys|]. cbn [map foldr snd]. split_and!; try done.
    apply safe_text, hexdigest_safe. }
  assert (Hbytes : Forall (Forall (Forall is_byte)) chunks).
  { rewrite Hl in Hp. apply Forall_concat in Hp. eapply Forall_impl; [|exact Hp]. intros c Hc. eapply Forall_impl; [|exact Hc]. intros l Hpl. by apply plain_byte. }
  unfold verify_blob. destruct (header_length (concat frs ++ zero ++ size ++ dumps tj)) as (hs & -> & Ehs). cbn [mbind result_bind]. rewrite Ehs.
  assert (Hlen : (length frs < length (head ++ concat frs ++ zero ++ size ++ dumps tj))%nat).
  { rewrite !length_app. destruct (pack_inv _ _ Hz) as [Hz4 _]. unfold zlen in Hz4.
    assert (length frs <= length (concat frs))%nat; [|lia]. clear - Hfr EL. induction Hfr as [|fr c frs chunks Hf _ IH]; [done|]. cbn [concat length]. rewrite length_app.
    destruct Hf as (_ & k & n & sz & _ & Hsz & ->). destruct (pack_inv _ _ Hsz) as [Hl4 _]. unfold zlen in Hl4. rewrite length_app. lia. }
  destruct (frames_ok key head frs chunks zero size (dumps tj) (norm tj) _ Hkey Hbytes Hfr Hz Hs (loads_bytes_dumps _ Htj) Hlen) as (toks & -> & Htoks).
  cbn [mbind result_bind fst snd]. exists toks, chunks, (norm tj). split; [|done].
  change (item_of (norm tj) "sha256") with (Ok (A := json) (JStr (hexdigest (head ++ concat frs)))). cbn [mbind result_bind is_str].
  rewrite app_assoc, ztake_app by done. by rewrite bool_decide_eq_true_2.
Qed.

(** *** The token *)

Let r : pystr := ref_of oh nm.
Let p : path := (oh, nm, dqa_file).

Lemma locate_ok {X} (x : X) : _locate r x = (x, inl (p, oh)).
Proof.
  unfold _locate, r, ref_of. destruct Hoh as [Ho1 Ho2], Hnm as [Hn1 Hn2]. rewrite partition_dash_app by (apply safe_no; [lia|done]).
  rewrite Ho1, Hn1. change (negb (32 =? 32)) with false. cbn [orb]. rewrite forallb_app. cbn [forallb].
  assert (Hall : forall s, forallb safe_id_char s = true -> forallb (fun c => (c =? 45) || safe_id_char c) s = true).
  { intros s Hs. rewrite forallb_forall in *. intros c Hc. rewrite Hs by done. apply orb_true_r. }
  by rewrite !Hall.
Qed.

Lemma token_key_ok : exists k, _token_key keys = Ok k.
Proof.
  unfold _token_key, _fernet, derived_key in *. destruct (mask_key keys) as [mk|]; [|done]. cbn [mbind result_bind] in *.
  destruct (utf8_encode (key_version keys)) as [v|]; [|done]. cbn [mbind result_bind]. by apply hkdf_block_ok.
Qed.

(** The code a reader's token carries. *)
Definition mac_text (k : bytes) : pystr := hex_str (hmac_sha256 k (r ++ 124 :: oh ++ 124 :: rh ++ 124 :: salt)).

Lemma mac_ok : exists k, _token_mac keys r oh rh salt = Ok (mac_text k).
Proof.
  destruct token_key_ok as [k Hk]. exists k. unfold _token_mac. rewrite plain_encodes; [cbn [mbind result_bind]; by rewrite Hk|].
  destruct Hoh as [_ Ho], Hnm as [_ Hn]. unfold r, ref_of. rewrite !forallb_app. cbn [forallb]. rewrite !forallb_app. cbn [forallb].
  rewrite !safe_plain by done. cbn [forallb andb]. rewrite forallb_app. cbn [forallb]. by rewrite !safe_plain by done.
Qed.

Lemma mac_safe k : forallb safe_id_char (mac_text k) = true.
Proof. apply hex_str_safe, hmac_sha256_ok. Qed.

Lemma split_token k : split_on 46 (token_text r (mac_text k)) = [py "dqt1"; r; mac_text k].
Proof.
  unfold token_text. change (py "dqt1.") with (py "dqt1" ++ [46]). rewrite <- app_assoc. cbn [app]. rewrite (split_on_app 46 (py "dqt1")) by (by repeat constructor).
  assert (Hr : Forall (fun x => x <> 46) r).
  { unfold r, ref_of. destruct Hoh as [_ Ho], Hnm as [_ Hn]. apply Forall_app. split; [by apply safe_no; [lia|]|]. constructor; [lia|]. by apply safe_no; [lia|]. }
  rewrite split_on_app by done. rewrite split_on_none; [done|]. by apply safe_no; [lia|apply mac_safe].
Qed.

(** ** A reader without faults *)

Definition sound (w : Os) : Prop := forall k, (calls w <= k)%nat -> os_ok k = true.

Lemma sound_call {A} (w : Os) (h : gmap path bytes -> gmap path bytes * (A + failure)) : sound w ->
  exists w', os_call h w = (w', (h (files w)).2) /\ files w' = (h (files w)).1 /\ sound w' /\ readings w' = readings w.
Proof.
  intros Hw. unfold os_call. rewrite (Hw (calls w)) by lia. destruct (h (files w)) as [fs out]. eexists. split; [done|]. split; [done|]. split; [|done].
  intros k Hk. cbn in Hk. apply Hw. lia.
Qed.

Lemma read_header_sound w blob :
  sound w -> files w !! p = Some blob -> parse_header blob = Ok read_header ->
  exists w', _read_header p w = (w', inl (read_header, blob)) /\ files w' = files w /\ sound w' /\ readings w' = readings w.
Proof.
  intros Hw Hp Hh. destruct (sound_call w (fun fs => match fs !! p with Some b => (fs, inl b) | None => (fs, inr (Other FileNotFoundError)) end) Hw) as (w1 & E1 & F1 & S1 & R1).
  rewrite Hp in E1, F1. destruct (sound_call w1 (fun fs => (fs, inl tt)) S1) as (w2 & E2 & F2 & S2 & R2). destruct (sound_call w2 (fun fs => (fs, inl tt)) S2) as (w3 & E3 & F3 & S3 & R3).
  exists w3. split; [|cbn in *; split; [congruence|split; [done|congruence]]].
  unfold _read_header, catching, mbind, st_bind, os_read, os_noop. rewrite E1. cbn [snd]. rewrite E2. cbn [snd]. rewrite E3. cbn [snd]. unfold raising. by rewrite Hh.
Qed.

Context (owner run_id : pystr) (Eo : _owner_hash owner = Ok oh) (Er : _run_hash run_id = Ok rh).
Let ctx : QuarantineAccessContext := MkAccess owner run_id.

Lemma reader_ok : wrong_reader read_header oh ctx = Ok false.
Proof.
  unfold wrong_reader. change (hget read_header "owner" JNull) with (Ok (A := json) (JStr oh)). change (hget read_header "run" JNull) with (Ok (A := json) (JStr rh)).
  cbn [mbind result_bind a_owner a_run_id ctx]. rewrite Eo, Er. cbn [mbind result_bind is_str]. rewrite !bool_decide_eq_true_2 by done. done.
Qed.

Lemma not_expired now : float_le expires now = false -> expired now read_header = Ok false.
Proof. intros H. unfold expired. change (item_of read_header "expires_at") with (Ok (A := json) (JFloat (Finite expires))). cbn. by rewrite H. Qed.

Lemma admits_ok k : _token_mac keys r oh rh salt = Ok (mac_text k) -> admits keys container_str read_header r oh (mac_text k) ctx = Ok true.
Proof.
  intros Hm. unfold admits. change (hget read_header "run" (JStr [])) with (Ok (A := json) (JStr rh)). change (hget read_header "token_salt" (JStr [])) with (Ok (A := json) (JStr salt)).
  change (hget read_header "owner" JNull) with (Ok (A := json) (JStr oh)). change (hget read_header "key_version" JNull) with (Ok (A := json) (JStr (key_version keys))).
  cbn [mbind result_bind str_of a_owner a_run_id ctx]. rewrite Hm, Eo, Er. cbn [mbind result_bind is_str]. rewrite !bool_decide_eq_true_2 by done. cbn [andb mbind result_bind].
  unfold compare_digest. rewrite forallb_app. assert (Ha : forallb (fun c => c <? 128) (mac_text k) = true).
  { pose proof (mac_safe k) as H. rewrite forallb_forall in *. intros c Hc%H%safe_id_range. lia. }
  rewrite Ha. cbn [andb mbind result_bind]. by rewrite !bool_decide_eq_true_2.
Qed.

(** Any reader the owner sends, before the artifact expires, gets the rows. *)
Lemma read_back w blob frs lines es :
  sound w -> (forall k, (readings w <= k)%nat -> float_le expires (now_at k) = false) ->
  files w !! p = Some blob -> artifact keys oh nm rid rh pol created expires head frs lines blob ->
  Forall envelope_ok es -> map_res (line_of g) es = Ok lines ->
  exists tok w3 w4,
    get_retrieval_token keys container_str r ctx w = (w3, inl tok) /\
    open_artifact g keys container_str (OpaqueRetrievalToken tok) ctx w3 = (w4, inl (record_of <$> es)) /\ files w4 = files w.
Proof.
  intros Hw Hnow Hf Ha Hes Hls. destruct (read_lines es lines Hes Hls) as [Hplain Hread].
  destruct (verify_ok frs lines blob Ha Hplain) as (toks & chunks & trailer & Hv & Htoks & Hcat).
  assert (Hparse : parse_header blob = Ok read_header) by (destruct Ha as (? & ? & ? & _ & _ & _ & _ & ->); apply parse_head).
  destruct mac_ok as [k Hm]. destruct (read_header_sound w blob Hw Hf Hparse) as (w1 & E1 & F1 & S1 & R1).
  set (w3 := MkOs (files w1) (calls w1) (drawn w1) (S (readings w1))).
  assert (Htok : get_retrieval_token keys container_str r ctx w = (w3, inl (token_text r (mac_text k)))).
  { unfold get_retrieval_token, mbind, st_bind. rewrite locate_ok, E1. unfold raising at 1. rewrite reader_ok. unfold clock_now.
    unfold raising at 1. rewrite not_expired by (apply Hnow; lia). unfold raising. 
    change (item_of read_header "run") with (Ok (A := json) (JStr rh)). change (item_of read_header "token_salt") with (Ok (A := json) (JStr salt)).
    cbn [mbind result_bind str_of]. by rewrite Hm. }
  assert (S3 : sound w3) by exact S1. assert (Hf3 : files w3 !! p = Some blob) by (unfold w3; cbn; by rewrite F1).
  destruct (read_header_sound w3 blob S3 Hf3 Hparse) as (w4 & E4 & F4 & S4 & R4).
  exists (token_text r (mac_text k)), w3, (MkOs (files w4) (calls w4) (drawn w4) (S (readings w4))). split; [exact Htok|]. split.
  - unfold open_artifact, _check_token. rewrite split_token. rewrite (bool_decide_eq_true_2 (py "dqt1" = py "dqt1")) by done. cbn [negb].
    unfold mbind, st_bind. rewrite locate_ok, E4. unfold raising at 1. rewrite (admits_ok k Hm). cbn [negb]. unfold clock_now.
    unfold raising at 1. rewrite not_expired by (apply Hnow; rewrite R4; unfold w3; cbn; lia).
    unfold mret, st_ret. cbn beta iota. unfold _verify, catching at 1, raising at 1. rewrite Hv. unfold raising at 1. rewrite Hkey. unfold catching, raising.
    assert (Hout : (out ← map_res (read_frame g key) toks; Ok (concat out)) = Ok (record_of <$> es)).
    { rewrite (read_frames key toks chunks) by (done || (rewrite Hcat in Hplain; by apply Forall_concat)). rewrite Hcat in Hread.
      destruct (map_res_concat _ _ _ Hread) as (out & -> & <-). done. }
    unfold mbind in Hout. by rewrite Hout.
  - cbn. rewrite F4. unfold w3. cbn. exact F1.
Qed.
End Artifact.
End Reading.
