(* ===== verification/QuarantineContract.v ===== *)
(** * The contract of the quarantine store

    What a run relies on when it quarantines rows: nothing half-written is ever
    readable, a session within its policy succeeds, its owner reads back exactly the
    rows, and nobody else reads anything. *)

From S2P Require Import Prelude Numerals PyText PyData Sha256 Derive Reasons ReasonsTheory Json PyRepr QuarantineCodec QuarantineStore QuarantineTheory QuarantineReading.

Section Contract.
Context {F : PyFloat} {FL : PyFloatLaws F} {E : FernetOps} {EL : FernetLaws E} {OF : OsFaults} {T : ClockOps F}.
Context (token_hex : nat -> pystr) (g : Registry) (keys : KeyProvider) (container_str : json -> pystr).

(** The random name is not in use. *)
Definition fresh_name (w : Os) : Prop := forall d x, files w !! (d, token_hex (drawn w), x) = None.

(** C12: quarantine is all or nothing. Whatever system calls fail and however short
    writes land, a session that stops at its first error ends in one of two ways: a
    receipt, and then the store gained exactly one file, a sealed artifact of
    exactly the given rows within the policy; or a registered error, and then unless
    its cleanup state is "failed" the store is as it was, and even then no other
    file changed and a readable file, if left, is a complete artifact. *)
Theorem quarantine_all_or_nothing owner run_id pol es w :
  registry_ok g -> Forall (writable g) es -> fresh_name w ->
  let '(w', out) := store_rows token_hex g keys owner run_id pol es w in
  match out with
  | inl rc => exists ls blob p, map_res (line_of g) es = Ok ls /\ stored token_hex keys owner run_id (token_hex (drawn w)) pol ls rc blob /\
                artifact_path rc (token_hex (drawn w)) p /\ files w' = <[p := blob]> (files w) /\ (ls = [] \/ within pol ls)
  | inr e => excused (files w) (token_hex (drawn w))
               (fun blob => exists ls rc, map_res (line_of g) es = Ok ls /\ stored token_hex keys owner run_id (token_hex (drawn w)) pol ls rc blob) (files w') e
  end.
Proof.
  intros Hg Hes Hfr.
  pose proof (store_rows_ok token_hex g keys False (fun H => match H with end) owner run_id pol 0 ltac:(lia)
    (fun H => match H with end) (fun H => match H with end) (fun H => match H with end) es w Hg Hes Hfr (fun H => match H with end)) as H.
  unfold wp in H. destruct (store_rows token_hex g keys owner run_id pol es w) as [w' [rc|e]]; [exact H|by destruct H].
Qed.

(** C21: a session within its policy succeeds. When no call fails and every write
    makes progress, rows JSON can hold, within the policy's rows and bytes, are
    stored: the receipt counts them. *)
Theorem quarantine_progress owner run_id pol es ls longest w :
  Faultless -> registry_ok g -> Forall (writable g) es -> fresh_name w ->
  names_fit token_hex keys owner run_id -> 0 <= longest -> tokens_fit keys longest ->
  0 <= max_rows pol <= 10 ^ 9 /\ 0 <= max_bytes pol <= 2 ^ 40 ->
  map_res (line_of g) es = Ok ls -> within pol ls -> Forall (fun l => zlen l <= longest) ls ->
  exists w' rc, store_rows token_hex g keys owner run_id pol es w = (w', inl rc) /\ rc_rows rc = zlen es /\ rc_bytes rc = total ls.
Proof.
  intros Hf Hg Hes Hfr Hn Hlo Hfit Hcaps Hls Hw Hlong.
  pose proof (store_rows_ok token_hex g keys True (fun _ => Hf) owner run_id pol longest Hlo (fun _ => Hn) (fun _ => Hfit) (fun _ => Hcaps) es w Hg Hes Hfr
    (fun _ => ex_intro _ ls (conj Hls (conj Hw Hlong)))) as H.
  unfold wp in H. destruct (store_rows token_hex g keys owner run_id pol es w) as [w' [rc|e]]; [|by destruct H].
  destruct H as (ls' & blob & p & Hls' & (oh & rh & salt & cr & hd & frs & _ & _ & _ & _ & -> & _) & _). exists w'. eexists. split; [reflexivity|].
  assert (ls' = ls) as -> by congruence. cbn. split; [|done]. unfold zlen. f_equal. by eapply map_res_length.
Qed.

Lemma text_encodes s : Forall text_char s -> exists b, utf8_encode s = Ok b.
Proof.
  intros H. unfold utf8_encode. assert (exists bs, map_res utf8_char s = Ok bs) as [bs ->]; [|by eexists].
  induction H as [|c s Hc _ IH]; [by exists []|]. destruct IH as [bs IH]. cbn [map_res]. rewrite IH. unfold text_char in Hc. unfold utf8_char.
  destruct (c <? 128); [by eexists|]. destruct (c <? 2048); [by eexists|]. replace ((55296 <=? c) && (c <? 57344)) with false by lia.
  destruct (c <? 65536); by eexists.
Qed.

Lemma fernet_key_ok mk : mask_key keys = Ok mk -> Forall text_char (key_version keys) -> exists key, _fernet keys = Ok key.
Proof.
  intros Hk Hv. unfold _fernet, derived_key. rewrite Hk. cbn [mbind result_bind]. destruct (text_encodes _ Hv) as [b ->]. cbn [mbind result_bind].
  by apply hkdf_block_ok.
Qed.

(** C20: the rows come back. Whatever faults the writing met, if it gave a receipt
    then later, as long as that file is untouched, the artifact has not expired and
    the reads succeed, the owner of the run gets a token for the receipt's
    reference, and opening it gives exactly the rows, in order, with their reasons
    and every cell's value; the columns of a row come back sorted. *)
Theorem quarantine_round_trip owner run_id pol es mk w :
  registry_ok g -> Forall (envelope_ok g) es -> fresh_name w -> (forall k, hex_name (token_hex k)) ->
  mask_key keys = Ok mk -> Forall text_char (key_version keys) ->
  let '(w1, out) := store_rows token_hex g keys owner run_id pol es w in
  match out with
  | inr _ => True
  | inl rc =>
      forall w2,
        (forall p, artifact_path rc (token_hex (drawn w)) p -> files w2 !! p = files w1 !! p) -> sound w2 ->
        (forall k, (readings w2 <= k)%nat -> float_le (rc_expires_at rc) (now_at k) = false) ->
        exists tok w3 w4,
          get_retrieval_token keys container_str (rc_ref rc) (MkAccess owner run_id) w2 = (w3, inl tok) /\
          open_artifact g keys container_str (OpaqueRetrievalToken tok) (MkAccess owner run_id) w3 = (w4, inl (record_of <$> es)) /\
          files w4 = files w2 /\ rc_rows rc = zlen es
  end.
Proof.
  intros Hg Hes Hfr Hhex Hmk Hver. destruct (fernet_key_ok mk Hmk Hver) as [key Hkey].
  assert (Hwr : Forall (writable g) es).
  { eapply Forall_impl; [|exact Hes]. intros e He. unfold writable. eapply Forall_impl; [|exact (eo_reasons _ _ He)]. by intros r (? & _). }
  pose proof (store_rows_ok token_hex g keys False (fun H => match H with end) owner run_id pol 0 ltac:(lia)
    (fun H => match H with end) (fun H => match H with end) (fun H => match H with end) es w Hg Hwr Hfr (fun H => match H with end)) as H.
  unfold wp in H. destruct (store_rows token_hex g keys owner run_id pol es w) as [w1 [rc|e]]; [|done]. cbn [fst snd] in H.
  destruct H as (ls & blob & p & Hls & (oh & rh & salt & cr & hd & frs & Eo & Er & [k ->] & Hh & -> & Ha) & (oh' & Href & ->) & Hf & _).
  cbn [rc_ref receipt_of] in Href. intros w2 Hsame Hsound Hnow.
  destruct (read_back g keys container_str Hg oh (token_hex (drawn w)) run_id rh (token_hex k) pol cr (plus_seconds cr (retention_seconds pol)) hd key Hkey Hver
    (owner_hash_name _ _ Eo) (Hhex _) (run_hash_safe _ _ Er) (proj2 (Hhex k)) Hh owner run_id Eo Er w2 blob frs ls es) as (tok & w3 & w4 & H1 & H2 & H3); try done.
  { rewrite Hsame by (by exists oh). rewrite Hf. destruct (owner_hash_name _ _ Eo) as [Hl1 Hs1].
    assert (oh' = oh) as ->; [|by rewrite lookup_insert_eq]. unfold ref_of in Href.
    assert (Hp := partition_dash_app oh (token_hex (drawn w)) (safe_no _ 45 ltac:(lia) Hs1)). rewrite Href in Hp.
    apply (f_equal (@length Z)) in Href as Hlen. rewrite !length_app in Hlen. cbn in Hlen.
    apply app_inj_1 in Href as [<- _]; [done|lia]. }
  exists tok, w3, w4. split; [exact H1|]. split; [exact H2|]. split; [exact H3|]. cbn. unfold zlen. f_equal. by eapply map_res_length.
Qed.

(** ** Qualification *)

(** The sink qualifies exactly with a real key of 32 octets, under the ambient policy,
    on a private arena; the runtime is then refused only for its owner or protection. *)
Lemma capability_exact is_seed ambient root :
  qualified (capability keys is_seed ambient root) = true <->
  is_seed = false /\ key_version keys <> py "seed" /\ (exists k, mask_key keys = Ok k /\ 32 <= zlen k) /\ ambient = true /\ root = arena_ready.
Proof.
  unfold capability. destruct is_seed; cbn [orb]; [split; [done|by intros (? & _)]|]. case_bool_decide as Ev; [split; [done|by intros (_ & ? & _)]|].
  destruct (mask_key keys) as [k|x]; cbn [negb]; [|split; [done|by intros (_ & _ & (? & ? & _) & _)]].
  destruct (Z.leb_spec 32 (zlen k)); cbn [negb]; [|split; [done|intros (_ & _ & (k' & [= <-] & ?) & _); lia]].
  destruct ambient; cbn [negb]; [|split; [done|by intros (_ & _ & _ & ? & _)]].
  destruct root; (split; [intros Hq; by repeat (split || (exists k))|by intros (_ & _ & _ & _ & ?)]).
Qed.

(** The sink's own detail for a strict file policy is not among the reported tokens. *)
Lemma ambient_detail_lost root owner :
  owner <> [] -> mask_key keys = Ok (replicate 32 7) -> key_version keys = py "v1" ->
  qualify_runtime (Some (MkRuntime (Some (Some (capability keys false false root))) (Some owner))) PROTECTION_ENCRYPTED = Some "unqualified"%string.
Proof.
  intros Ho Hk Hv. unfold qualify_runtime, capability. rewrite Hv, Hk. rewrite (bool_decide_eq_false_2 (owner = [])) by done. reflexivity.
Qed.

(** ** Who may read *)

Lemma read_header_found p w :
  wp (_read_header p) (fun w' out => files w' = files w /\ readings w' = readings w /\
      match out with inl (header, blob) => files w !! p = Some blob /\ parse_header blob = Ok header | inr _ => True end) w.
Proof.
  assert (Hc : forall A h (w0 : Os), (forall fs, (h fs).1 = fs) ->
    wp (os_call (A := A) h) (fun w1 out => files w1 = files w0 /\ readings w1 = readings w0 /\ match out with inl a => (h (files w0)).2 = inl a | inr _ => True end) w0).
  { intros A h w0 Hh. unfold wp, os_call. destruct (os_ok (calls w0)); [|done]. pose proof (Hh (files w0)) as Hfs. destruct (h (files w0)) as [fs out]. cbn in *. split; [done|]. split; [done|]. by destruct out. }
  unfold _read_header. apply wp_catching, wp_bind. eapply wp_conseq; [apply Hc; intros fs; by destruct (fs !! p)|].
  assert (Hr : forall w1 e, files w1 = files w /\ readings w1 = readings w ->
    if in_classes ("struct.error" :: os_errors ++ value_errors) e
    then wp (raise (A := json * bytes) (_qerror ACCESS_DENIED)) (fun w' out => files w' = files w /\ readings w' = readings w /\
      match out with inl (header, blob) => files w !! p = Some blob /\ parse_header blob = Ok header | inr _ => True end) w1
    else files w1 = files w /\ readings w1 = readings w /\ True).
  { intros w1 e [H1 H2]. destruct (in_classes _ e); [|done]. by apply wp_raise. }
  intros w1 [blob|e] (F1 & R1 & H1); [|by apply Hr]. destruct (files w !! p) as [b|] eqn:Ep; [|done]. injection H1 as ->.
  apply wp_bind. eapply wp_conseq; [by apply (Hc unit)|]. intros w2 [u|e] (F2 & R2 & _); [|apply Hr; split; congruence].
  apply wp_bind. eapply wp_conseq; [by apply (Hc unit)|]. intros w3 [u3|e] (F3 & R3 & _); [|apply Hr; split; congruence].
  apply wp_bind, wp_raising. destruct (parse_header blob) as [h|e] eqn:Eh; [|apply Hr; split; congruence]. apply wp_ret. split; [congruence|]. split; [congruence|done].
Qed.

(** What a reader has to show: a token naming a readable artifact of the reader's own
    owner and run, with that artifact's code under the current key, in time. *)
Record entitled (token : presented) (ctx : QuarantineAccessContext) (w : Os) (blob : bytes) : Prop := {
  en_token : exists oh name header salt run_hash mac v,
    token = OpaqueRetrievalToken v /\ split_on 46 v = [py "dqt1"; oh ++ 45 :: name; mac] /\
    files w !! (oh, name, dqa_file) = Some blob /\ parse_header blob = Ok header /\
    _owner_hash (a_owner ctx) = Ok oh /\ hget header "owner" JNull = Ok (JStr oh) /\
    _run_hash (a_run_id ctx) = Ok run_hash /\ (exists run, hget header "run" (JStr []) = Ok run /\ str_of container_str run = run_hash) /\
    hget header "key_version" JNull = Ok (JStr (key_version keys)) /\
    (exists salted, hget header "token_salt" (JStr []) = Ok salted /\ str_of container_str salted = salt) /\
    _token_mac keys (oh ++ 45 :: name) oh run_hash salt = Ok mac /\
    expired (now_at (readings w)) header = Ok false;
}.

Lemma partition_dash_inv s : let '(a, b) := partition_dash s in b = [] \/ s = a ++ 45 :: b.
Proof.
  induction s as [|c s IH]; cbn; [by left|]. destruct (Z.eqb_spec c 45) as [->|Hc]; [by right|]. destruct (partition_dash s) as [a b].
  destruct IH as [->|IH]; [by left|right]. by rewrite IH.
Qed.

Lemma check_token_ok token ctx w :
  wp (_check_token keys container_str token ctx) (fun w' out => match out with inl (_, _, blob) => entitled token ctx w blob | inr _ => True end) w.
Proof.
  unfold _check_token. destruct (match token with OpaqueRetrievalToken v => split_on 46 v | NotAToken => [] end) as [|kind [|r [|mac [|]]]] eqn:Et; try by apply wp_raise.
  case_bool_decide as Ek; cbn [negb]; [|by apply wp_raise]. subst kind. apply wp_bind. unfold _locate. pose proof (partition_dash_inv r) as Hp.
  destruct (partition_dash r) as [oh name]. destruct (negb (zlen oh =? 32) || negb (zlen name =? 32) || _) eqn:El; [by apply wp_raise|].
  apply orb_false_iff in El as [El _]. apply orb_false_iff in El as [_ El]. apply negb_false_iff in El.
  destruct Hp as [-> | ->]; [done|]. apply wp_ret. apply wp_bind. eapply wp_conseq; [apply read_header_found|].
  intros w1 [[header blob]|e] (F1 & R1 & H1); [|done]. destruct H1 as [Hf Hh]. apply wp_bind, wp_raising.
  destruct (admits keys container_str header (oh ++ 45 :: name) oh mac ctx) as [ok|e] eqn:Ea; [|done]. destruct ok; cbn [negb]; [|by apply wp_raise].
  apply wp_bind. unfold wp at 1. cbn [clock_now fst snd]. apply wp_bind, wp_raising. rewrite R1.
  destruct (expired (now_at (readings w)) header) as [late|e] eqn:Ex; [|done]. destruct late; [by apply wp_raise|]. apply wp_ret.
  unfold admits in Ea. destruct (hget header "run" (JStr [])) as [run|] eqn:Erun; [|done]. cbn [mbind result_bind] in Ea.
  destruct (hget header "token_salt" (JStr [])) as [salt|] eqn:Esalt; [|done]. cbn [mbind result_bind] in Ea. cbv zeta in Ea.
  destruct (_token_mac keys _ oh (str_of container_str run) (str_of container_str salt)) as [m|] eqn:Em; [|done]. cbn [mbind result_bind] in Ea.
  destruct (hget header "owner" JNull) as [own|] eqn:Eow; [|done]. cbn [mbind result_bind] in Ea.
  destruct (_owner_hash (a_owner ctx)) as [mine|] eqn:Emi; [|done]. cbn [mbind result_bind] in Ea.
  destruct (is_str own mine && bool_decide (mine = oh)) eqn:Eis.
  2:{ cbn [mbind result_bind] in Ea. destruct (hget header "key_version" JNull); [|done]. cbn [mbind result_bind] in Ea. destruct (compare_digest mac m) as [b|]; [|done].
      cbn [mbind result_bind] in Ea. injection Ea as Ea. by rewrite andb_false_r in Ea. }
  apply andb_true_iff in Eis as [Eis ->%bool_decide_eq_true]. destruct (_run_hash (a_run_id ctx)) as [mr|] eqn:Emr; [|done]. cbn [mbind result_bind] in Ea.
  destruct (hget header "key_version" JNull) as [ver|] eqn:Ever; [|done]. cbn [mbind result_bind] in Ea. unfold compare_digest in Ea.
  destruct (forallb _ (mac ++ m)); [|done]. cbn [mbind result_bind] in Ea. injection Ea as Ea. apply andb_true_iff in Ea as [Ea Ev]. apply andb_true_iff in Ea as [Em' Er'].
  apply bool_decide_eq_true in Em', Er'. subst m. destruct own as [| | | |o| |]; try done. destruct ver as [| | | |vs| |]; try done. cbn in Eis, Ev.
  apply bool_decide_eq_true in Eis, Ev. subst o vs. destruct token as [v|]; [|done]. constructor.
  exists oh, name, header, (str_of container_str salt), mr, mac, v. split_and!; try done; [by exists run|by exists salt|]. by rewrite <- Er'.
Qed.

(** C22: nobody reads an artifact without its token, its owner and its run. Whatever
    the files hold, rows are returned only when the caller is entitled to the file
    they come from, that file's digest covers its frames, and every frame opens
    under the current key. *)
Theorem quarantine_reader_checked token ctx w :
  match open_artifact g keys container_str token ctx w with
  | (_, inr _) => True
  | (_, inl recs) =>
      exists blob frames trailer key, entitled token ctx w blob /\ verify_blob blob = Ok (frames, trailer) /\ _fernet keys = Ok key /\
        (out ← map_res (read_frame g key) frames; Ok (concat out)) = Ok recs
  end.
Proof.
  enough (Hw : wp (open_artifact g keys container_str token ctx) (fun _ out => match out with inr _ => True | inl recs =>
    exists blob frames trailer key, entitled token ctx w blob /\ verify_blob blob = Ok (frames, trailer) /\ _fernet keys = Ok key /\
    (out ← map_res (read_frame g key) frames; Ok (concat out)) = Ok recs end) w).
  { unfold wp in Hw. destruct (open_artifact g keys container_str token ctx w) as [w' [recs|e]]; [exact Hw|done]. }
  unfold open_artifact. apply wp_bind. eapply wp_conseq; [apply check_token_ok|]. intros w1 [[[p header] blob]|e] He; [|done].
  apply wp_bind. unfold _verify. apply wp_catching, wp_raising. destruct (verify_blob blob) as [[frames trailer]|x] eqn:Ev.
  2:{ destruct (in_classes _ _); [by apply wp_raise|done]. }
  apply wp_bind, wp_raising. destruct (_fernet keys) as [key|x] eqn:Ek; [|done]. apply wp_catching, wp_raising.
  destruct (map_res (read_frame g key) frames) as [out|x] eqn:Eo; cbn [mbind result_bind].
  - exists blob, frames, trailer, key. split_and!; try done. by rewrite Eo.
  - destruct (in_classes _ _); [by apply wp_raise|done].
Qed.

(** ** Retention *)

(** Whether a file is one of the owner's artifacts whose time has come. *)
Definition purgeable (oh : pystr) (now : ffloat) (q : path) (blob : bytes) : Prop :=
  exists n header e, q = (oh, n, dqa_file) /\ parse_header blob = Ok header /\ hget header "owner" JNull = Ok (JStr oh) /\
    item_of header "expires_at" = Ok e /\ above e now = Ok false.

(** Every file is as it was, or was removed for the owner. *)
Definition purged_from (oh : pystr) (now : ffloat) (fs fs' : gmap path bytes) : Prop :=
  forall q, fs' !! q = fs !! q \/ (fs' !! q = None /\ exists blob, fs !! q = Some blob /\ purgeable oh now q blob).

Lemma purged_refl oh now fs : purged_from oh now fs fs.
Proof. intros q. by left. Qed.

(** What became of an artifact: removed; left in place, readable, foreign or not due; or
    left in place because a call failed or it cannot be read. *)
Inductive verdict := VPurged | VRetained | VFailed.
Definition judged (oh : pystr) (now : ffloat) (fs fs' : gmap path bytes) (n : pystr) (v : verdict) : Prop :=
  let q := (oh, n, dqa_file) in
  exists blob, fs !! q = Some blob /\
    match v with
    | VPurged => purgeable oh now q blob /\ fs' !! q = None
    | VRetained => fs' !! q = Some blob /\ ~ purgeable oh now q blob /\ is_ok (parse_header blob) = true
    | VFailed => fs' !! q = Some blob /\ ((forall k, os_ok k = true) -> ~ purgeable oh now q blob)
    end.

#[global] Instance verdict_eq_dec : EqDecision verdict. Proof. solve_decision. Defined.
Definition tally_of (v : verdict) (vs : list verdict) : Z := zlen (List.filter (fun x => bool_decide (x = v)) vs).
Definition counted (vs : list verdict) (r : PurgeResult) : Prop :=
  purged r = tally_of VPurged vs /\ purge_failed r = tally_of VFailed vs /\ retained r = tally_of VRetained vs.

(** Only the artifact looked at can change. *)
Definition elsewhere (oh n : pystr) (fs fs' : gmap path bytes) : Prop := forall q, q <> (oh, n, dqa_file) -> fs' !! q = fs !! q.

(** Without faults a readable header is read. *)
Lemma read_header_readable p w blob : files w !! p = Some blob -> is_ok (parse_header blob) = true -> (forall k, os_ok k = true) ->
  wp (_read_header p) (fun _ out => match out with inl _ => True | inr _ => False end) w.
Proof.
  intros Hp Hok Hf. unfold _read_header. apply wp_catching, wp_bind. unfold wp at 1, os_read, os_call. rewrite Hf, Hp. cbn [fst snd].
  do 2 (apply wp_bind; unfold wp at 1, os_noop, os_call; rewrite Hf; cbn [fst snd]). apply wp_bind, wp_raising.
  destruct (parse_header blob); [by apply wp_ret|discriminate].
Qed.

(** What the header of a purgeable artifact makes of the test that keeps it. *)
Lemma purgeable_header oh now q blob header : purgeable oh now q blob -> parse_header blob = Ok header ->
  hget header "owner" JNull = Ok (JStr oh) /\ (e ← item_of header "expires_at"; above e now) = Ok false.
Proof. intros (n & h & e & -> & Hh & Ho & He & Ha) Eh. rewrite Eh in Hh. injection Hh as <-. split; [done|]. by rewrite He. Qed.

Lemma purge_one_ok now oh n w blob : files w !! (oh, n, dqa_file) = Some blob ->
  wp (purge_one now oh n) (fun w' out => elsewhere oh n (files w) (files w') /\
    judged oh now (files w) (files w') n (match out with inl true => VPurged | inl false => VRetained | inr _ => VFailed end)) w.
Proof.
  intros Hq. assert (Hsame : forall v (w1 : Os), files w1 = files w ->
    match v with VPurged => False | VRetained => ~ purgeable oh now (oh, n, dqa_file) blob /\ is_ok (parse_header blob) = true | VFailed => (forall k, os_ok k = true) -> ~ purgeable oh now (oh, n, dqa_file) blob end ->
    elsewhere oh n (files w) (files w1) /\ judged oh now (files w) (files w1) n v).
  { intros v w1 -> Hv. split; [done|]. exists blob. split; [done|]. by destruct v. }
  unfold purge_one. apply wp_bind. pose proof (read_header_found (oh, n, dqa_file) w) as H1. pose proof (read_header_readable (oh, n, dqa_file) w blob Hq) as H2.
  unfold wp in H1, H2. unfold wp at 1. destruct (_read_header (oh, n, dqa_file) w) as [w1 [[header b]|x]]; cbn [fst snd] in *; destruct H1 as (F1 & _ & H1).
  2:{ apply Hsame; [done|]. intros Hf (m & h & e & _ & Hh & _). apply H2; [by rewrite Hh|done]. }
  destruct H1 as [Hb Hh]. rewrite Hq in Hb. injection Hb as <-.
  assert (Hp : purgeable oh now (oh, n, dqa_file) blob -> hget header "owner" JNull = Ok (JStr oh) /\ (e ← item_of header "expires_at"; above e now) = Ok false) by (intros Hp; by eapply purgeable_header).
  apply wp_bind, wp_raising. destruct (hget header "owner" JNull) as [owner|x] eqn:Eo; [|apply Hsame; [done|]; intros _ [? _]%Hp; done].
  apply wp_bind, wp_raising. destruct (is_str owner oh) eqn:Eis; cbn [negb].
  2:{ apply wp_ret, Hsame; [done|]. rewrite Hh. split; [|done]. intros [[= ->] _]%Hp. cbn in Eis. by rewrite bool_decide_eq_true_2 in Eis. }
  destruct (e ← item_of header "expires_at"; above e now) as [[]|x] eqn:Ek.
  - apply wp_ret, Hsame; [done|]. rewrite Hh. split; [|done]. by intros [_ ?]%Hp.
  - apply wp_bind. unfold wp at 1, os_unlink, os_call. destruct (os_ok (calls w1)) eqn:Eok; cbn [fst snd].
    2:{ apply Hsame; [done|]. intros Hf. by rewrite Hf in Eok. }
    rewrite F1, Hq. cbn [fst snd files]. apply wp_ret. cbn [files]. split; [intros q Hne; by rewrite lookup_delete_ne|].
    exists blob. split; [done|]. split; [|by rewrite lookup_delete_eq]. destruct (item_of header "expires_at") as [e|] eqn:Ee; [|done]. cbn [mbind result_bind] in Ek.
    exists n, header, e. split_and!; try done. destruct owner; try done. cbn in Eis. apply bool_decide_eq_true in Eis. by subst.
  - apply Hsame; [done|]. by intros _ [_ ?]%Hp.
Qed.

Lemma judged_after oh now fs fs1 fs' m n v : m <> n -> elsewhere oh m fs fs1 -> judged oh now fs1 fs' n v -> judged oh now fs fs' n v.
Proof. intros Hne He (blob & Hb & Hv). exists blob. split; [|done]. rewrite <- (He (oh, n, dqa_file)) by congruence. done. Qed.

Lemma purge_each_ok now oh names : forall acc w, NoDup names -> (forall n, n ∈ names -> is_Some (files w !! (oh, n, dqa_file))) ->
  wp (purge_each now oh names acc) (fun w' out => (forall q, (forall n, n ∈ names -> q <> (oh, n, dqa_file)) -> files w' !! q = files w !! q) /\
    exists vs, Forall2 (judged oh now (files w) (files w')) names vs /\
      match out with
      | inl r => purged r = purged acc + tally_of VPurged vs /\ purge_failed r = purge_failed acc + tally_of VFailed vs /\ retained r = retained acc + tally_of VRetained vs
      | inr _ => False
      end) w.
Proof.
  induction names as [|n names IH]; intros acc w Hnd Hin.
  - apply wp_ret. split; [done|]. exists []. split; [constructor|]. cbn. unfold tally_of, zlen. cbn. lia.
  - apply list.NoDup_cons in Hnd as [Hn Hnd]. destruct (Hin n ltac:(left)) as [blob Hb]. cbn [purge_each]. apply wp_bind.
    apply (wp_conseq _ (fun w1 out => elsewhere oh n (files w) (files w1) /\ exists v, judged oh now (files w) (files w1) n v /\
      exists acc', out = inl acc' /\ forall x, (match x with VPurged => purged | VFailed => purge_failed | VRetained => retained end) acc' =
        (match x with VPurged => purged | VFailed => purge_failed | VRetained => retained end) acc + if bool_decide (v = x) then 1 else 0)).
    { apply wp_catching, wp_bind. eapply wp_conseq; [by eapply purge_one_ok|]. intros w1 [[]|x] [H1 H2]; cbn [any_exception]; apply wp_ret; (split; [done|]); eexists; (split; [exact H2|]); eexists; (split; [done|]); intros []; cbn; case_bool_decide; (done || lia). }
    intros w1 out (H1 & v & Hv & acc' & -> & Ha).
    assert (Hin1 : forall m, m ∈ names -> files w1 !! (oh, m, dqa_file) = files w !! (oh, m, dqa_file)) by (intros m Hm; apply H1; intros [= ->]; done).
    eapply wp_conseq; [apply IH; [done|]; intros m Hm; rewrite Hin1 by done; apply Hin; by right|]. intros w2 out (H2 & vs & Hvs & Hr).
    split; [|exists (v :: vs); split].
    + intros q Hq. rewrite H2 by (intros m Hm; apply Hq; by right). apply H1, Hq. by left.
    + constructor.
      * destruct Hv as (b & Hb' & Hv). exists b. split; [done|]. rewrite H2; [done|]. intros m Hm [= ->]. done.
      * clear Hr Hin IH. assert (Hne : forall m, m ∈ names -> n <> m) by (intros m Hm ->; done). clear Hn Hnd Hin1 H2.
        induction Hvs as [|m x names vs Hx Hvs IH']; [constructor|]. constructor; [eapply (judged_after oh now _ _ _ n); [apply Hne; left|done|done]|apply IH'; intros k Hk; apply Hne; by right].
    + destruct out as [r|x]; [|done]. pose proof (Ha VPurged) as A1. pose proof (Ha VFailed) as A2. pose proof (Ha VRetained) as A3. cbn in A1, A2, A3. destruct Hr as (R1 & R2 & R3).
      assert (Ht : forall x, tally_of x (v :: vs) = (if bool_decide (v = x) then 1 else 0) + tally_of x vs) by (intros x; unfold tally_of; cbn [List.filter]; destruct (bool_decide (v = x)); [unfold zlen; cbn; lia|lia]).
      rewrite !Ht. lia.
Qed.

(** The owner's artifacts, each once. *)
Lemma artifacts_exact (oh : pystr) (fs : gmap path bytes) : NoDup (artifacts_of oh fs) /\ forall n, n ∈ artifacts_of oh fs <-> is_Some (fs !! (oh, n, dqa_file)).
Proof.
  unfold artifacts_of. set (f := fun kv : path * bytes => _). split.
  - rewrite sorted_by_perm. pose proof (NoDup_fst_map_to_list fs) as Hnd. induction (map_to_list fs) as [|[[[o n] x] b] l IH]; [constructor|].
    cbn in Hnd. apply list.NoDup_cons in Hnd as [Hno Hnd]. cbn. destruct x; [by apply IH|]. case_bool_decide; [|by apply IH].
    subst o. constructor; [|by apply IH]. intros ([[[o' n'] x'] b'] & Hin & Hf)%list_elem_of_omap. apply Hno. cbn in Hf. destruct x'; [done|]. case_bool_decide; [|done]. injection Hf as ->. subst o'.
    apply list_elem_of_fmap. by exists (oh, n, dqa_file, b').
  - intros n. rewrite sorted_by_perm, list_elem_of_omap. split.
    + intros ([[[o n'] x] b] & Hin & Hf). cbn in Hf. destruct x; [done|]. case_bool_decide; [|done]. injection Hf as ->. subst o. apply elem_of_map_to_list in Hin. by exists b.
    + intros [b Hb]. exists (oh, n, dqa_file, b). split; [by apply elem_of_map_to_list|]. cbn. by rewrite bool_decide_eq_true_2.
Qed.

End Contract.

(** ** Witnesses: concrete services *)

(** Tokens that carry their payload behind a version octet. *)
Definition toy_fernet : FernetOps := {|
  fernet_encrypt := fun _ _ p => 128 :: p;
  fernet_decrypt := fun _ t => match t with 128 :: p => Some p | _ => None end |}.

Lemma toy_fernet_laws : @FernetLaws toy_fernet.
Proof. by constructor. Qed.

(** A system whose every third call fails and whose writes land at most eight octets. *)
Definition flaky : OsFaults := {| os_ok := fun k => negb (k mod 3 =? 2)%nat; landed := fun _ n => Z.min n 8 |}.
Definition perfect : OsFaults := {| os_ok := fun _ => true; landed := fun _ n => Z.min n 8 |}.

(** A clock that stays before every expiry. *)
Definition toy_clock : ClockOps toy_float :=
  Build_ClockOps toy_float (fun _ : nat => false) (fun (_ : bool) (_ : Z) => true) implb (fun (n : Z) (b : bool) => n <=? (if b then 1 else 0)).

Definition toy_keys : KeyProvider := MkKeys (Ok [1; 2; 3]) (py "v1").
Definition zeros_name (k : nat) : pystr := replicate 32 48.
Definition empty_store : Os := MkOs ∅ 0 0 0.
Definition toy_policy : Policy := MkPolicy 60 10 1000.
Definition toy_row : @QuarantineEnvelope toy_float :=
  @MkEnvelope toy_float (py "orders") 4 [full_disk] [(py "b", CStr (py "x")); (py "a", CList [CInt 7; CNone])].

Lemma toy_name k : hex_name (zeros_name k).
Proof. by split. Qed.

Lemma toy_row_ok : @envelope_ok toy_float the_registry toy_row.
Proof.
  assert (Ht : forall s, forallb plain s = true -> Forall text_char s) by exact (fun s => plain_text s).
  constructor; cbn [toy_row e_table e_reasons e_row].
  - by apply Ht.
  - constructor; [|constructor]. split; [vm_compute; reflexivity|]. split; [split; [vm_compute; reflexivity|by_decide]|]. split; by apply Ht.
  - by_decide.
  - cbn. constructor; [by apply Ht|]. constructor; [by apply Ht|constructor].
  - constructor; [by apply Ht|]. constructor; [by split_and!|constructor].
Qed.

Lemma toy_row_writable : @writable toy_float the_registry toy_row.
Proof. constructor; [vm_compute; reflexivity|constructor]. Qed.

Lemma toy_fresh : fresh_name zeros_name empty_store.
Proof. intros d x. apply lookup_empty. Qed.

Lemma quarantine_all_or_nothing_witness :
  registry_ok the_registry /\ exists w' out,
    @store_rows toy_float toy_fernet flaky toy_clock zeros_name the_registry toy_keys (py "o") (py "r") toy_policy [toy_row] empty_store = (w', out) /\
    match out with
    | inl rc => rc_rows rc <= 10
    | inr e => excused ∅ (zeros_name 0)
                 (fun blob => exists ls rc, map_res (@line_of toy_float the_registry) [toy_row] = Ok ls /\
                    @stored toy_float toy_fernet toy_clock zeros_name toy_keys (py "o") (py "r") (zeros_name 0) toy_policy ls rc blob) (files w') e
    end.
Proof.
  split; [apply the_registry_ok|].
  pose proof (@quarantine_all_or_nothing toy_float toy_float_laws toy_fernet flaky toy_clock zeros_name the_registry toy_keys (py "o") (py "r") toy_policy [toy_row] empty_store
    (proj1 the_registry_ok) (Forall_cons _ _ _ toy_row_writable (Forall_nil _)) toy_fresh) as H.
  destruct (store_rows _ _ _ _ _ _ _ _) as [w' out]. exists w', out. split; [reflexivity|]. destruct out as [rc|e]; [|exact H].
  destruct H as (ls & blob & p & _ & (oh & rh & salt & cr & hd & frs & _ & _ & _ & _ & -> & _) & _ & _ & Hw). cbn.
  destruct Hw as [->|[Hw _]]; [unfold zlen; cbn; lia|exact Hw].
Defined.

Lemma quarantine_progress_witness :
  exists w' rc, @store_rows toy_float toy_fernet perfect toy_clock zeros_name the_registry toy_keys (py "o") (py "r") toy_policy [toy_row] empty_store = (w', inl rc) /\ rc_rows rc = 1.
Proof.
  assert (Hv : Forall text_char (key_version toy_keys)) by (by apply plain_text).
  destruct (fernet_key_ok toy_keys [1; 2; 3] eq_refl Hv) as [key Hkey].
  assert (Hl : exists ls, map_res (@line_of toy_float the_registry) [toy_row] = Ok ls /\ length ls = 1%nat /\ total ls <= 1000 /\ Forall (fun l => zlen l <= 1000) ls).
  { eexists. split; [vm_compute; reflexivity|]. split; [reflexivity|]. split; [vm_compute; discriminate|]. constructor; [vm_compute; discriminate|constructor]. }
  destruct Hl as (ls & Els & Hn & Htot & Hlong).
  destruct (@quarantine_progress toy_float toy_float_laws toy_fernet perfect toy_clock zeros_name the_registry toy_keys (py "o") (py "r") toy_policy [toy_row] ls 1000 empty_store)
    as (w' & rc & H1 & H2 & _).
  - split; [done|]. intros k n Hpos. cbn. lia.
  - apply the_registry_ok.
  - constructor; [exact toy_row_writable|constructor].
  - exact toy_fresh.
  - split; [discriminate|]. split; [eexists _, _; split; reflexivity|]. split; [vm_compute; discriminate|]. intros k. reflexivity.
  - lia.
  - exists key. split; [exact Hkey|]. intros n b Hb. cbn [fernet_encrypt toy_fernet]. rewrite zlen_cons. unfold _CHUNK_BYTES, _CHUNK_ROWS in Hb. lia.
  - cbn. lia.
  - exact Els.
  - unfold within. cbn [max_rows max_bytes toy_policy]. unfold zlen. rewrite Hn. lia.
  - exact Hlong.
  - exists w', rc. split; [exact H1|]. rewrite H2. reflexivity.
Defined.

Lemma quarantine_round_trip_witness :
  let '(w1, out) := @store_rows toy_float toy_fernet perfect toy_clock zeros_name the_registry toy_keys (py "o") (py "r") toy_policy [toy_row] empty_store in
  match out with
  | inr _ => True
  | inl rc => exists tok w3 w4,
      @get_retrieval_token toy_float perfect toy_clock toy_keys (fun _ => []) (rc_ref rc) (MkAccess (py "o") (py "r")) w1 = (w3, inl tok) /\
      @open_artifact toy_float toy_fernet perfect toy_clock the_registry toy_keys (fun _ => []) (OpaqueRetrievalToken tok) (MkAccess (py "o") (py "r")) w3
        = (w4, inl (record_of <$> [toy_row]))
  end.
Proof.
  pose proof (@quarantine_round_trip toy_float toy_float_laws toy_fernet toy_fernet_laws perfect toy_clock zeros_name the_registry toy_keys (fun _ => []) (py "o") (py "r") toy_policy
    [toy_row] [1; 2; 3] empty_store (proj1 the_registry_ok) (Forall_cons _ _ _ toy_row_ok (Forall_nil _)) toy_fresh toy_name eq_refl (plain_text (py "v1") eq_refl)) as H.
  pose proof (@store_rows_ok toy_float toy_float_laws toy_fernet perfect toy_clock zeros_name the_registry toy_keys False (fun H => match H with end) (py "o") (py "r") toy_policy 0
    ltac:(lia) (fun H => match H with end) (fun H => match H with end) (fun H => match H with end) [toy_row] empty_store
    (proj1 the_registry_ok) (Forall_cons _ _ _ toy_row_writable (Forall_nil _)) toy_fresh (fun H => match H with end)) as Hs.
  unfold wp in Hs. destruct (store_rows _ _ _ _ _ _ _ _) as [w1 [rc|e]]; [|exact I].
  destruct (H w1) as (tok & w3 & w4 & H1 & H2 & _); [done|done| |by exists tok, w3, w4].
  destruct Hs as (ls & blob & p & _ & (oh & rh & salt & cr & hd & frs & _ & _ & _ & _ & -> & _) & _). done.
Defined.
