(* ===== verification/Catalog1.v ===== *)
(** * The reason catalog: the configuration, connector, physical and plan sections (reasons/config/, reasons/connector/, reasons/physical/, reasons/plan/)

    Each part is one block of a catalog module: the profile it declares with and its
    lines, each under the module attribute it is assigned to. *)

From S2P Require Import Prelude PyText PyData Reasons.

(** ** Profiles of the sections

    One profile per section: the defaults of its namespace. A catalog module
    declares its lines with one of them, and binds each to a module attribute. *)

Definition profile (namespace : string) (k : Kind) (ps : list Phase) (s : Severity) (o : Outcome) (r : RetryClass)
    (owner : string) : Declarer := MkDeclarer (py namespace) (py owner) k ps s o r.

Definition config := profile "config" FAILURE [CONFIGURATION] ERROR OCONFIGURATION CONFIGURATION_REPAIR.
Definition plan := profile "plan" FAILURE [COMPILE] ERROR OCONFIGURATION CONFIGURATION_REPAIR.
Definition runtime := profile "runtime" FAILURE [MASK; GENERATE; FINALIZE; UNKNOWN] ERROR EXECUTION RUNKNOWN.
Definition provider := profile "provider" FAILURE [COMPILE; GENERATE] ERROR OCONFIGURATION CONFIGURATION_REPAIR.
Definition quality := profile "quality" FAILURE [VERIFY; UNKNOWN] ERROR EXECUTION RUNKNOWN.
Definition connector := profile "connector" FAILURE [RESOLVE; UNKNOWN] ERROR EXECUTION RUNKNOWN.
Definition subset := profile "subset" FAILURE [CONFIGURATION; RESOLVE] ERROR OCONFIGURATION CONFIGURATION_REPAIR.
Definition route := profile "route" DECISION [RESOLVE; COMPILE] INFO SUCCESS NEVER.
Definition warning := profile "warning" KWARNING [MASK; GENERATE; FINALIZE] WARNING FINDINGS NEVER.
Definition verification := profile "verification" FINDING [VERIFY] WARNING FINDINGS NEVER.
Definition physical := profile "physical" FAILURE [COMPILE; UNKNOWN] ERROR EXECUTION NEVER.
Definition pre_scan := profile "pre_scan" FAILURE [RESOLVE] ERROR EXECUTION RUNKNOWN.
Definition post_scan := profile "post_scan" FAILURE [VERIFY] ERROR VERIFICATION RUNKNOWN.
Definition platform := profile "platform" FAILURE [UNKNOWN] ERROR EXECUTION RUNKNOWN.
Definition platform_config := profile "platform" FAILURE [CONFIGURATION] ERROR OCONFIGURATION CONFIGURATION_REPAIR.
Definition safe_output := profile "safe_output" CONTROL [UNKNOWN] WARNING EXECUTION NEVER.

(** A block of a catalog module: its profile, and its lines under their attributes. *)
Definition CatalogPart := (Declarer * list (string * Line))%type.

(** A line that only says when it was added. *)
Definition line_since (since code summary : string) : Line :=
  MkLine code summary None None None None None None [] since None None.

Definition config_part1_1 : CatalogPart := (config "NamespaceConfigError",
  [("NAMESPACE_AMBIGUITY", line "namespace_ambiguity" "Namespace ambiguity.");
   ("NAMESPACE_MISSING", line "namespace_missing" "Namespace missing.")])%string.

Definition config_part1_2 : CatalogPart := (config "PipelineValidationError",
  [("SOURCE_FILE_COLUMN_COUNT_MISMATCH", line "source_file.column_count_mismatch" "Source file column count mismatch.");
   ("SOURCE_FILE_LONE_CR", line "source_file.lone_cr" "Source file lone CR.");
   ("SOURCE_FILE_NUL_BYTE", line "source_file.nul_byte" "Source file NUL byte.");
   ("SUBSET_RUN_UNSUPPORTED", line_since "1.6.0" "subset_run_unsupported" "Subset run unsupported.")])%string.

Definition config_part1_3 : CatalogPart := (config "SubsetConfigError",
  [("SUBSET_CONFIG_MISSING", line "subset_config_missing" "Subset config missing.");
   ("SUBSET_DANGLING_NOT_ACKNOWLEDGED", line "subset_dangling_not_acknowledged" "Subset dangling not acknowledged.");
   ("SUBSET_DUPLICATE_SEED_TABLE", line "subset_duplicate_seed_table" "Subset duplicate seed table.");
   ("SUBSET_OUTPUT_DIR_EXISTS", line "subset_output_dir_exists" "Subset output dir exists.");
   ("SUBSET_SEED_KEY_TYPE", line "subset_seed_key_type" "Subset seed key type.");
   ("SUBSET_SEED_KEY_UNCANONICALIZABLE", line "subset_seed_key_uncanonicalizable" "Subset seed key uncanonicalizable.");
   ("SUBSET_SOURCE_TYPE_UNSUPPORTED", line "subset_source_type_unsupported" "Subset source type unsupported.");
   ("SUBSET_UNKNOWN_EDGE", line "subset_unknown_edge" "Subset unknown edge.")])%string.

Definition config_part1_4 : CatalogPart := (config "ValidationError",
  [("WHEN_OUTSIDE_CLOSED_GRAMMAR", line "when_outside_closed_grammar" "When outside closed grammar.")])%string.

Definition config_part1_5 : CatalogPart := (config "decoy_engine.validation_result",
  [("CLOUD_IO_UNSUPPORTED_FORMAT", line "cloud_io.unsupported_format" "Cloud I/O unsupported format.");
   ("EDGE_BAD_TYPE", line "edge.bad_type" "Edge bad type.");
   ("EDGE_PORT_ON_NON_SPLIT", line "edge.port_on_non_split" "Edge port on non split.");
   ("EDGE_UNKNOWN_FROM_NODE", line "edge.unknown_from_node" "Edge unknown from node.");
   ("EDGE_UNKNOWN_PORT", line "edge.unknown_port" "Edge unknown port.");
   ("EDGE_UNKNOWN_TO_NODE", line "edge.unknown_to_node" "Edge unknown to node.");
   ("EDGES_BAD_TYPE", line "edges.bad_type" "Edges bad type.");
   ("FK_CUSTOM_PROVIDER_UNREGISTERED", line "fk.custom_provider_unregistered" "FK custom provider unregistered.");
   ("FK_EMPTY_PARENT_POOL", line "fk.empty_parent_pool" "FK empty parent pool.");
   ("FK_INELIGIBLE_CHILD_KIND", line "fk.ineligible_child_kind" "FK ineligible child kind.");
   ("FK_M2M_BAD_POOL", line "fk.m2m_bad_pool" "FK m2m bad pool.");
   ("FK_M2M_UNKNOWN_COLUMN", line "fk.m2m_unknown_column" "FK m2m unknown column.");
   ("FK_M2M_UNKNOWN_NODE", line "fk.m2m_unknown_node" "FK m2m unknown node.");
   ("FK_MULTI_PARENT_BAD_SHAPE", line "fk.multi_parent_bad_shape" "FK multi parent bad shape.");
   ("FK_NONDETERMINISTIC_MASK", line "fk.nondeterministic_mask" "FK nondeterministic mask.");
   ("FK_PARALLEL_BRANCHES", line "fk.parallel_branches" "FK parallel branches.");
   ("FK_PARENT_AFTER_CHILD", line "fk.parent_after_child" "FK parent after child.");
   ("FK_PARENT_UNRESOLVED", line "fk.parent_unresolved" "FK parent unresolved.");
   ("FK_SELF_CYCLE", line "fk.self_cycle" "FK self cycle.");
   ("FK_SELF_REF_INERT", MkLine "fk.self_ref_inert" "FK self ref inert." None (Some KWARNING) None (Some WARNING) (Some FINDINGS) (Some NEVER) [] "1.0.0" None None);
   ("FK_SELF_REFERENCE", line "fk.self_reference" "FK self reference.");
   ("FK_SEQUENTIAL_BOUNDS_CONFLICT", line "fk.sequential_bounds_conflict" "FK sequential bounds conflict.");
   ("FK_UNKNOWN_COLUMN", line "fk.unknown_column" "FK unknown column.");
   ("FK_UNKNOWN_NODE", line "fk.unknown_node" "FK unknown node.");
   ("GENERATION_KEY_REQUIRED", line "generation.key_required" "Generation key required.");
   ("GENERATION_RANDOM_NOT_ALLOWED", line "generation.random_not_allowed" "Generation random not allowed.");
   ("GRAPH_CYCLE", line "graph.cycle" "Graph cycle.");
   ("GRAPH_FORMAT_MISMATCH", MkLine "graph.format_mismatch" "Graph format mismatch." None (Some KWARNING) None (Some WARNING) (Some FINDINGS) (Some NEVER) [] "1.0.0" None None);
   ("GRAPH_NODE_INSUFFICIENT_INPUTS", line "graph.node_insufficient_inputs" "Graph node insufficient inputs.");
   ("GRAPH_NODE_TOO_MANY_INPUTS", line "graph.node_too_many_inputs" "Graph node too many inputs.");
   ("GRAPH_SINK_HAS_OUTPUTS", line "graph.sink_has_outputs" "Graph sink has outputs.");
   ("MASK_BAD_COLUMN_SPEC_TYPE", line "mask.bad_column_spec_type" "Mask bad column spec type.");
   ("MASK_BAD_COLUMNS_TYPE", line "mask.bad_columns_type" "Mask bad columns type.");
   ("MASK_FORMULA_MISSING", line "mask.formula_missing" "Mask formula missing.");
   ("MASK_REFERENCE_MISSING", line "mask.reference_missing" "Mask reference missing.");
   ("MASK_UNKNOWN_COLUMN", line "mask.unknown_column" "Mask unknown column.");
   ("MASK_UNKNOWN_STRATEGY", line "mask.unknown_strategy" "Mask unknown strategy.");
   ("NODE_BAD_CONFIG_TYPE", line "node.bad_config_type" "Node bad config type.");
   ("NODE_BAD_ID", line "node.bad_id" "Node bad ID.");
   ("NODE_BAD_NAME", line "node.bad_name" "Node bad name.");
   ("NODE_BAD_NATIVE_ENGINE", line "node.bad_native_engine" "Node bad native engine.");
   ("NODE_BAD_TYPE", line "node.bad_type" "Node bad type.");
   ("NODE_DUPLICATE_ID", line "node.duplicate_id" "Node duplicate ID.");
   ("NODE_UNKNOWN_KIND", line "node.unknown_kind" "Node unknown kind.");
   ("NODES_EMPTY_LIST", line "nodes.empty_list" "Nodes empty list.");
   ("NODES_REF_NOT_UPSTREAM", line "nodes_ref.not_upstream" "Nodes ref not upstream.");
   ("NODES_REF_UNKNOWN_ID", line "nodes_ref.unknown_id" "Nodes ref unknown ID.");
   ("PK_DUPLICATES", line "pk.duplicates" "A primary-key column contains duplicate values.");
   ("SOURCE_FILE_BAD_DELIMITER", line "source_file.bad_delimiter" "Source file bad delimiter.");
   ("SOURCE_FILE_BAD_HAS_HEADER_TYPE", line "source_file.bad_has_header_type" "Source file bad has header type.");
   ("SOURCE_FILE_BAD_ROW_LIMIT", line "source_file.bad_row_limit" "Source file bad row limit.");
   ("SOURCE_FILE_COLUMN_NAMES_WITH_HEADER", line "source_file.column_names_with_header" "Source file column names with header.");
   ("SOURCE_FILE_CSV_PARAM_ON_NON_CSV", line "source_file.csv_param_on_non_csv" "Source file CSV param on non CSV.");
   ("SOURCE_FILE_FILE_NOT_FOUND", line "source_file.file_not_found" "Source file file not found.");
   ("SOURCE_FILE_MISSING_FW_COLUMNS", line "source_file.missing_fw_columns" "Source file missing fw columns.");
   ("SOURCE_FILE_MISSING_PATH", line "source_file.missing_path" "Source file missing path.");
   ("SOURCE_FILE_NO_HEADER_COLUMNS", line "source_file.no_header_columns" "Source file no header columns.");
   ("SOURCE_FILE_UNSUPPORTED_FORMAT", line "source_file.unsupported_format" "Source file unsupported format.");
   ("SOURCE_GCS_MISSING_BUCKET", line "source_gcs.missing_bucket" "Source GCS missing bucket.");
   ("SOURCE_GCS_MISSING_CREDENTIALS", line "source_gcs.missing_credentials" "Source GCS missing credentials.");
   ("SOURCE_GCS_MISSING_PATH", line "source_gcs.missing_path" "Source GCS missing path.");
   ("SOURCE_S3_MISSING_BUCKET", line "source_s3.missing_bucket" "Source S3 missing bucket.");
   ("SOURCE_S3_MISSING_CREDENTIALS", line "source_s3.missing_credentials" "Source S3 missing credentials.");
   ("SOURCE_S3_MISSING_PATH", line "source_s3.missing_path" "Source S3 missing path.");
   ("SOURCE_SFTP_MISSING_AUTH", line "source_sftp.missing_auth" "Source SFTP missing auth.");
   ("SOURCE_SFTP_MISSING_HOST", line "source_sftp.missing_host" "Source SFTP missing host.");
   ("SOURCE_SFTP_MISSING_PATH", line "source_sftp.missing_path" "Source SFTP missing path.");
   ("SOURCE_SFTP_MISSING_USERNAME", line "source_sftp.missing_username" "Source SFTP missing username.");
   ("TARGET_FILE_FORMAT_INFERRED", line "target_file.format_inferred" "Target file format inferred.");
   ("TARGET_FILE_MISSING_OUTPUT_FILENAME", line "target_file.missing_output_filename" "Target file missing output filename.");
   ("TARGET_FILE_PATH_OUTSIDE_OUTPUT_DIR", line "target_file.path_outside_output_dir" "Target file path outside output dir.");
   ("TARGET_FILE_UNSUPPORTED_FORMAT", line "target_file.unsupported_format" "Target file unsupported format.");
   ("TARGET_GCS_MISSING_BUCKET", line "target_gcs.missing_bucket" "Target GCS missing bucket.");
   ("TARGET_GCS_MISSING_CREDENTIALS", line "target_gcs.missing_credentials" "Target GCS missing credentials.");
   ("TARGET_GCS_MISSING_PATH", line "target_gcs.missing_path" "Target GCS missing path.");
   ("TARGET_S3_MISSING_BUCKET", line "target_s3.missing_bucket" "Target S3 missing bucket.");
   ("TARGET_S3_MISSING_CREDENTIALS", line "target_s3.missing_credentials" "Target S3 missing credentials.");
   ("TARGET_S3_MISSING_PATH", line "target_s3.missing_path" "Target S3 missing path.");
   ("TARGET_SFTP_MISSING_AUTH", line "target_sftp.missing_auth" "Target SFTP missing auth.");
   ("TARGET_SFTP_MISSING_HOST", line "target_sftp.missing_host" "Target SFTP missing host.");
   ("TARGET_SFTP_MISSING_PATH", line "target_sftp.missing_path" "Target SFTP missing path.");
   ("TARGET_SFTP_MISSING_USERNAME", line "target_sftp.missing_username" "Target SFTP missing username.");
   ("TOP_LEVEL_BAD_ENGINE", line "top_level.bad_engine" "Top level bad engine.");
   ("TOP_LEVEL_BAD_MODE", line "top_level.bad_mode" "Top level bad mode.");
   ("TOP_LEVEL_BAD_SCHEMA_VERSION", line "top_level.bad_schema_version" "Top level bad schema version.");
   ("UNTAGGED", line "untagged" "A validation failure with no registered code.")])%string.

Definition config_part2_1 : CatalogPart := (config "decoy_engine.validation_result",
  [("VARIABLE_UNKNOWN_SCOPE", line "variable.unknown_scope" "Variable unknown scope.");
   ("VARIABLE_UNRESOLVED", line "variable.unresolved" "Variable unresolved.")])%string.

Definition connector_part1_1 : CatalogPart := (connector "PostgresSnapshotError",
  [("AMBIGUOUS_NAME", line "ambiguous_name" "Ambiguous name.");
   ("CATALOG_READ_FAILED", line "catalog_read_failed" "Catalog read failed.");
   ("COLUMN_NOT_FOUND", line "column_not_found" "Column not found.");
   ("DEADLINE_EXCEEDED", line "deadline_exceeded" "Deadline exceeded.");
   ("DUCKDB_UNAVAILABLE", line "duckdb_unavailable" "Duckdb unavailable.");
   ("DUPLICATE_RELATION", line "duplicate_relation" "Duplicate relation.");
   ("EXPORT_FAILED", line "export_failed" "Export failed.");
   ("EXTENSION_UNAVAILABLE", line "extension_unavailable" "Extension unavailable.");
   ("EXTENSION_UNTRUSTED_LOCATION", line "extension_untrusted_location" "Extension untrusted location.");
   ("NO_SELECTIONS", line "no_selections" "No selections.");
   ("RELATION_NOT_FOUND", line "relation_not_found" "Relation not found.");
   ("SOURCE_UNREACHABLE", line "source_unreachable" "Source unreachable.");
   ("UNSUPPORTED_COLUMN_TYPE", line "unsupported_column_type" "Unsupported column type.");
   ("VALUE_GUARD_FAILED", line "value_guard_failed" "Value guard failed.");
   ("VALUE_NOT_REPRESENTABLE", line "value_not_representable" "Value not representable.")])%string.

Definition physical_part1_1 : CatalogPart := (physical "ShadowDifference",
  [("DUPLICATE_NODE_DECLARATION", line "duplicate-node-declaration" "Duplicate node declaration.");
   ("FAKER_POOL_NON_STRING_OUTPUT", line "faker-pool-non-string-output" "Faker pool non string output.");
   ("FULL_FRAME_DISPATCH_MISSING_DEPENDENCY", line "full-frame-dispatch-missing-dependency" "Full frame dispatch missing dependency.");
   ("FULL_FRAME_DRIVER_UNSUPPORTED", line "full-frame-driver-unsupported" "Full frame driver unsupported.");
   ("FULL_FRAME_RUNTIME_FEATURE_UNSUPPORTED", line "full-frame-runtime-feature-unsupported" "Full frame runtime feature unsupported.");
   ("FULL_FRAME_SUBSTRATE_UNSUPPORTED", line "full-frame-substrate-unsupported" "Full frame substrate unsupported.");
   ("GENERATION_SHAPE_UNSUPPORTED", line "generation-shape-unsupported" "Generation shape unsupported.");
   ("GLOBAL_SHUFFLE_DETERMINISM_UNSUPPORTED", line "global-shuffle-determinism-unsupported" "Global shuffle determinism unsupported.");
   ("GLOBAL_STRATEGY_UNSUPPORTED", line "global-strategy-unsupported" "Global strategy unsupported.");
   ("MIXED_DRIVER_UNSUPPORTED", line "mixed-driver-unsupported" "Mixed driver unsupported.");
   ("MIXED_FK_UNADMITTED_CHILD", line "mixed-fk-unadmitted-child" "Mixed FK unadmitted child.");
   ("NATIVE_COMPANION_UNAVAILABLE", line "native_companion_unavailable" "Native companion unavailable.");
   ("OOC_DISPATCH_MISSING_DEPENDENCY", line "ooc-dispatch-missing-dependency" "Out-of-core dispatch missing dependency.");
   ("OPERATOR_INVARIANT_VIOLATION", line "operator-invariant-violation" "Operator invariant violation.");
   ("OPERATOR_NOT_EXECUTED", line "operator-not-executed" "Operator not executed.");
   ("PLANNED_VS_ACTUAL_ROUTE_DIFF", line "planned-vs-actual-route-diff" "Planned vs actual route diff.");
   ("RESOURCE_LIMIT_BREACH", line "resource-limit-breach" "Resource limit breach.");
   ("SCHEMA_DIFF", line "schema-diff" "Schema diff.")])%string.

Definition physical_part1_2 : CatalogPart := (physical "decoy_engine.execution.physical._shadow_diff_codes",
  [("CELL_VALUE_DIFF", line "cell-value-diff" "Cell value diff.");
   ("DIAGNOSTICS_DIFF", line "diagnostics-diff" "Diagnostics diff.");
   ("NULL_MASK_DIFF", line "null-mask-diff" "Null mask diff.");
   ("OOC_FK_PARITY_DIFF", line "ooc-fk-parity-diff" "Out-of-core FK parity diff.");
   ("PUBLICATION_ATTEMPT", line "publication-attempt" "Publication attempt.");
   ("ROW_COUNT_DIFF", line "row-count-diff" "Row count diff.");
   ("ROW_ORDER_DIFF", line "row-order-diff" "Row order diff.");
   ("SNAPSHOT_IDENTITY_DIFF", line "snapshot-identity-diff" "Snapshot identity diff.")])%string.

Definition plan_f06_1 : CatalogPart := (plan "decoy_engine.declared_casting",
  [("DECLARED_CAST_CONTRACT_INVALID", MkLine "declared_cast_contract_invalid" "A declared parsing and casting contract is inconsistent." None None (Some [CONFIGURATION; COMPILE]) None None None [] "1.4.0" None None);
   ("DECLARED_CAST_PRECISION_INVALID", MkLine "declared_cast_precision_invalid" "A declared decimal precision is outside the supported range." None None (Some [CONFIGURATION; COMPILE]) None None None [] "1.4.0" None None);
   ("DECLARED_CAST_SCALE_INVALID", MkLine "declared_cast_scale_invalid" "A declared decimal scale is outside the supported range." None None (Some [CONFIGURATION; COMPILE]) None None None [] "1.4.0" None None);
   ("DECLARED_CAST_SENTINEL_CONFIG_INVALID", MkLine "declared_cast_sentinel_config_invalid" "A declared sentinel set is empty, duplicated, oversized or of the wrong kind." None None (Some [CONFIGURATION; COMPILE]) None None None [] "1.4.0" None None);
   ("DECLARED_CAST_CURRENCY_CODE_INVALID", MkLine "declared_cast_currency_code_invalid" "A declared currency code is missing or malformed." None None (Some [CONFIGURATION; COMPILE]) None None None [] "1.4.0" None None);
   ("DECLARED_CAST_FORMAT_UNKNOWN", MkLine "declared_cast_format_unknown" "A declared format identifier is unknown or retired." None None (Some [CONFIGURATION; COMPILE]) None None None [] "1.4.0" None None);
   ("DECLARED_CAST_DIRECTIVE_UNSUPPORTED", MkLine "declared_cast_directive_unsupported" "A declared format directive is outside the supported catalog." None None (Some [CONFIGURATION; COMPILE]) None None None [] "1.4.0" None None);
   ("DECLARED_OUTPUT_WIDTH_UNKNOWN", MkLine "declared_output_width_unknown" "A declared output width cannot be proved before execution." None None (Some [CONFIGURATION; COMPILE]) None None None [] "1.4.0" None None);
   ("DECLARED_TYPE_STRATEGY_INCOMPATIBLE", MkLine "declared_type_strategy_incompatible" "A declared column type is incompatible with its strategy or output format." None None (Some [CONFIGURATION; COMPILE]) None None None [] "1.4.0" None None)])%string.

Definition plan_part1_1 : CatalogPart := (plan "CompositeError",
  [("COMPOSITE_CUSTOM_BUNDLE_ITEM_MISSING_KEYS", line "composite_custom_bundle_item_missing_keys" "Composite custom bundle item missing keys.");
   ("COMPOSITE_CUSTOM_BUNDLE_ITEM_SHAPE", line "composite_custom_bundle_item_shape" "Composite custom bundle item shape.");
   ("COMPOSITE_CUSTOM_BUNDLE_SIZE", line "composite_custom_bundle_size" "Composite custom bundle size.");
   ("COMPOSITE_CUSTOM_DUPLICATE_COLUMNS", line "composite_custom_duplicate_columns" "Composite custom duplicate columns.");
   ("COMPOSITE_CUSTOM_NO_NESTING", line "composite_custom_no_nesting" "Composite custom no nesting.");
   ("COMPOSITE_REQUIRES_BUNDLE_PATH", line "composite_requires_bundle_path" "Composite requires bundle path.");
   ("DETERMINISTIC_REQUIRES_SOURCE_AND_SEED", line "deterministic_requires_source_and_seed" "Deterministic requires source and seed.");
   ("EMPTY_DOMAIN_POOL", line "empty_domain_pool" "Empty domain pool.");
   ("EMPTY_LOCALITY_TABLE", line "empty_locality_table" "Empty locality table.");
   ("POOL_SIZE_OVERFLOW", line "pool_size_overflow" "Pool size overflow.");
   ("SOURCE_LENGTH_MISMATCH", line "source_length_mismatch" "Source length mismatch.");
   ("UNKNOWN_COMPOSITE", line "unknown_composite" "Unknown composite.")])%string.

Definition plan_part1_2 : CatalogPart := (plan "GenerationAdmissionError",
  [("GENERATION_NOT_CLASS_A", line "generation_not_class_a" "Generation not class a.");
   ("GENERATION_UNBOUNDED_COLUMN", line "generation_unbounded_column" "Generation unbounded column.")])%string.

Definition plan_part1_3 : CatalogPart := (plan "PinnedModeError",
  [("PINNED_DETERMINISM_FRESH", line "pinned_determinism_fresh" "Pinned determinism fresh.");
   ("PINNED_LIVE_TOKEN", line "pinned_live_token" "Pinned live token.");
   ("PINNED_NOT_GENERATION_ONLY", line "pinned_not_generation_only" "Pinned not generation only.");
   ("PINNED_PLAN_MALFORMED", line "pinned_plan_malformed" "Pinned plan malformed.");
   ("PINNED_REFERENCE_DATE_INVALID", line "pinned_reference_date_invalid" "Pinned reference date invalid.");
   ("PINNED_RUNTIME_CHANGED", line "pinned_runtime_changed" "Pinned runtime changed.");
   ("PINNED_SEED_INVALID", line "pinned_seed_invalid" "Pinned seed invalid.");
   ("PINNED_SNAPSHOT_FILE_NOT_STATISTICAL", line "pinned_snapshot_file_not_statistical" "Pinned snapshot file not statistical.");
   ("PINNED_STATISTICAL_DIGEST_MISSING", line "pinned_statistical_digest_missing" "Pinned statistical digest missing.");
   ("PINNED_TYPE_NOT_ALLOWLISTED", line "pinned_type_not_allowlisted" "Pinned type not allowlisted.");
   ("PINNED_WINDOWED_ANCHOR_NOT_ABSOLUTE", line "pinned_windowed_anchor_not_absolute" "Pinned windowed anchor not absolute.")])%string.

Definition plan_part1_4 : CatalogPart := (plan "PlanCompileError",
  [("ALLOW_COLLISIONS_MODE_CONFLICT", line "allow_collisions_mode_conflict" "Allow collisions mode conflict.");
   ("BUCKET_PERTURB_DATE_FORMAT_UNSUPPORTED", line "bucket_perturb_date_format_unsupported" "Bucket perturb date format unsupported.");
   ("BUCKET_PERTURB_PRESERVE_VALUES_INVALID", line "bucket_perturb_preserve_values_invalid" "Bucket perturb preserve values invalid.");
   ("BUCKETIZE_WIDTH_UNRESOLVABLE", line "bucketize_width_unresolvable" "Bucketize width unresolvable.");
   ("CATEGORICAL_CATEGORIES_MISSING", line "categorical_categories_missing" "Categorical categories missing.");
   ("CATEGORICAL_CATEGORIES_NOT_LIST", line "categorical_categories_not_list" "Categorical categories not list.");
   ("CATEGORICAL_NONDETERMINISTIC_NOT_CHUNK_SAFE", line "categorical_nondeterministic_not_chunk_safe" "Categorical nondeterministic not chunk safe.");
   ("CHUNKED_BUCKET_PERTURB_FK_KEY_UNSUPPORTED", line "chunked_bucket_perturb_fk_key_unsupported" "Chunked bucket perturb FK key unsupported.");
   ("CHUNKED_BUCKET_PERTURB_SOURCE_DTYPE_UNSUPPORTED", line "chunked_bucket_perturb_source_dtype_unsupported" "Chunked bucket perturb source dtype unsupported.");
   ("CHUNKED_BUCKET_PERTURB_WHEN_NOT_SUPPORTED", line "chunked_bucket_perturb_when_not_supported" "Chunked bucket perturb when not supported.");
   ("CHUNKED_CATEGORICAL_NONDETERMINISTIC_WHEN_NOT_SUPPORTED", line "chunked_categorical_nondeterministic_when_not_supported" "Chunked categorical nondeterministic when not supported.");
   ("CHUNKED_CODE_SET_FK_KEY_UNSUPPORTED", line "chunked_code_set_fk_key_unsupported" "Chunked code set FK key unsupported.");
   ("CHUNKED_CODE_SET_SOURCE_DTYPE_UNSUPPORTED", line "chunked_code_set_source_dtype_unsupported" "Chunked code set source dtype unsupported.");
   ("CHUNKED_CODE_SET_WHEN_NOT_SUPPORTED", line "chunked_code_set_when_not_supported" "Chunked code set when not supported.");
   ("CHUNKED_FAKER_NONDETERMINISTIC_WHEN_NOT_SUPPORTED", line "chunked_faker_nondeterministic_when_not_supported" "Chunked Faker nondeterministic when not supported.");
   ("CHUNKED_FK_CHILD_CONFIG_MISMATCH", line "chunked_fk_child_config_mismatch" "Chunked FK child config mismatch.");
   ("CHUNKED_FK_CHILD_KEY_DTYPE_MISMATCH", line "chunked_fk_child_key_dtype_mismatch" "Chunked FK child key dtype mismatch.");
   ("CHUNKED_FK_CHILD_KEY_DTYPE_UNPROVABLE", line "chunked_fk_child_key_dtype_unprovable" "Chunked FK child key dtype unprovable.");
   ("CHUNKED_FK_CHILD_NAMESPACE_MISMATCH", line "chunked_fk_child_namespace_mismatch" "Chunked FK child namespace mismatch.");
   ("CHUNKED_FK_CHILD_NAMESPACE_MISSING", line "chunked_fk_child_namespace_missing" "Chunked FK child namespace missing.");
   ("CHUNKED_FK_CHILD_STRATEGY_MISMATCH", line "chunked_fk_child_strategy_mismatch" "Chunked FK child strategy mismatch.");
   ("CHUNKED_FK_CHILD_STRATEGY_MISSING", line "chunked_fk_child_strategy_missing" "Chunked FK child strategy missing.");
   ("CHUNKED_FK_CHILD_WHEN_UNSUPPORTED", line "chunked_fk_child_when_unsupported" "Chunked FK child when unsupported.");
   ("CHUNKED_FK_COMPOSITE_UNSUPPORTED", line "chunked_fk_composite_unsupported" "Chunked FK composite unsupported.");
   ("CHUNKED_FK_ENDPOINT_NOT_SCALAR", line "chunked_fk_endpoint_not_scalar" "Chunked FK endpoint not scalar.");
   ("CHUNKED_FK_KEY_DTYPE_NOT_CROSS_ADAPTER_SAFE", line "chunked_fk_key_dtype_not_cross_adapter_safe" "Chunked FK key dtype not cross adapter safe.");
   ("CHUNKED_FK_ORPHAN_POLICY_NOT_REMAP", line "chunked_fk_orphan_policy_not_remap" "Chunked FK orphan policy not remap.");
   ("CHUNKED_FK_PARENT_NAMESPACE_MISMATCH", line "chunked_fk_parent_namespace_mismatch" "Chunked FK parent namespace mismatch.");
   ("CHUNKED_FK_PARENT_NAMESPACE_MISSING", line "chunked_fk_parent_namespace_missing" "Chunked FK parent namespace missing.");
   ("CHUNKED_FK_PARENT_NOT_ROOT", line "chunked_fk_parent_not_root" "Chunked FK parent not root.");
   ("CHUNKED_FK_PARENT_STRATEGY_NOT_SELF_MASK_SAFE", line "chunked_fk_parent_strategy_not_self_mask_safe" "Chunked FK parent strategy not self mask safe.");
   ("CHUNKED_FK_PARENT_WHEN_UNSUPPORTED", line "chunked_fk_parent_when_unsupported" "Chunked FK parent when unsupported.");
   ("CHUNKED_GENERATE_UNSUPPORTED", line "chunked_generate_unsupported" "Chunked generate unsupported.");
   ("CHUNKED_GROUP_KEY_GROUP_BY_DTYPE_UNSUPPORTED", line "chunked_group_key_group_by_dtype_unsupported" "Chunked group key group by dtype unsupported.");
   ("CHUNKED_GROUP_KEY_WHEN_NOT_SUPPORTED", line "chunked_group_key_when_not_supported" "Chunked group key when not supported.");
   ("CHUNKED_STRATEGY_CONDITIONS_UNMET", line "chunked_strategy_conditions_unmet" "Chunked strategy conditions unmet.");
   ("CHUNKED_TABLE_UNKNOWN", line "chunked_table_unknown" "Chunked table unknown.");
   ("CHUNKED_TEXT_MASK_SOURCE_DTYPE_UNSUPPORTED", line "chunked_text_mask_source_dtype_unsupported" "Chunked text mask source dtype unsupported.");
   ("CHUNKED_TEXT_MASK_WHEN_NOT_SUPPORTED", line "chunked_text_mask_when_not_supported" "Chunked text mask when not supported.");
   ("CHUNKED_WINDOWED_DATE_WHEN_NOT_SUPPORTED", line "chunked_windowed_date_when_not_supported" "Chunked windowed date when not supported.");
   ("CODE_SET_CHAPTER_ABSENT", line "code_set_chapter_absent" "Code set chapter absent.");
   ("CODE_SET_CHAPTER_COLUMN_MISSING", line "code_set_chapter_column_missing" "Code set chapter column missing.");
   ("CODE_SET_CORPUS_DUPLICATE_CODES", line "code_set_corpus_duplicate_codes" "Code set corpus duplicate codes.");
   ("CODE_SET_CORPUS_EMPTY", line "code_set_corpus_empty" "Code set corpus empty.");
   ("CODE_SET_CORPUS_EMPTY_CODE", line "code_set_corpus_empty_code" "Code set corpus empty code.");
   ("CODE_SET_CORPUS_INCOHERENT_CHAPTER", line "code_set_corpus_incoherent_chapter" "Code set corpus incoherent chapter.");
   ("CODE_SET_CORPUS_MISSING_CODE_COLUMN", line "code_set_corpus_missing_code_column" "Code set corpus missing code column.");
   ("CODE_SET_CORPUS_MISSING_PROVENANCE", line "code_set_corpus_missing_provenance" "Code set corpus missing provenance.");
   ("CODE_SET_CORPUS_NOT_FOUND", line "code_set_corpus_not_found" "Code set corpus not found.");
   ("CODE_SET_CORPUS_NULL_CODE", line "code_set_corpus_null_code" "Code set corpus null code.");
   ("CODE_SET_CORPUS_PATH_NOT_FOUND", line "code_set_corpus_path_not_found" "Code set corpus path not found.");
   ("CODE_SET_CORPUS_PROVENANCE_IDENTITY_MISMATCH", line "code_set_corpus_provenance_identity_mismatch" "Code set corpus provenance identity mismatch.");
   ("CODE_SET_CORPUS_PROVENANCE_MALFORMED_STAMP", line "code_set_corpus_provenance_malformed_stamp" "Code set corpus provenance malformed stamp.");
   ("CODE_SET_CORPUS_READ_ERROR", line "code_set_corpus_read_error" "Code set corpus read error.");
   ("CODE_SET_CORPUS_SOURCE_VERSION_INVALID", line "code_set_corpus_source_version_invalid" "Code set corpus source version invalid.")])%string.

Definition plan_part1_5 : CatalogPart := (plan "PlanCompileError",
  [("CODE_SET_CORPUS_VERSION_MISMATCH", line "code_set_corpus_version_mismatch" "Code set corpus version mismatch.");
   ("CODE_SET_GEN_REQUIRES_NAMESPACE", line "code_set_gen_requires_namespace" "Code set gen requires namespace.");
   ("CODE_SET_NAME_MISSING", line "code_set_name_missing" "Code set name missing.");
   ("CODE_SET_RESERVED_LICENSED_NAME", line "code_set_reserved_licensed_name" "Code set reserved licensed name.");
   ("CODE_SET_SINGLE_ROW_CORPUS", line "code_set_single_row_corpus" "Code set single row corpus.");
   ("CODE_SET_SOLE_MEMBER_BUCKET", line "code_set_sole_member_bucket" "Code set sole member bucket.");
   ("COMPOSITE_COLUMNS_LENGTH_MISMATCH", line "composite_columns_length_mismatch" "Composite columns length mismatch.");
   ("COMPOSITE_WIRING_INCONSISTENT", line "composite_wiring_inconsistent" "Composite wiring inconsistent.");
   ("DATE_PRESERVE_VALUES_UNSUPPORTED_FK_SHAPE", line "date_preserve_values_unsupported_fk_shape" "Date preserve values unsupported FK shape.");
   ("DATE_PRESERVE_VALUES_WITH_GROUP_BY_UNSUPPORTED", line "date_preserve_values_with_group_by_unsupported" "Date preserve values with group by unsupported.");
   ("DATE_SHIFT_GROUP_BY_ON_FK_COLUMN_UNSUPPORTED", line "date_shift_group_by_on_fk_column_unsupported" "Date shift group by on FK column unsupported.");
   ("DATE_SHIFT_GROUP_BY_UNSUPPORTED_IN_NESTED", line "date_shift_group_by_unsupported_in_nested" "Date shift group by unsupported in nested.");
   ("DATE_SHIFT_GROUP_BY_WITH_WHEN_UNSUPPORTED", line "date_shift_group_by_with_when_unsupported" "Date shift group by with when unsupported.");
   ("DATE_SHIFT_MISSING_GROUP_BY_REF", line "date_shift_missing_group_by_ref" "Date shift missing group by ref.");
   ("DATE_SHIFT_PRESERVE_VALUES_INVALID", line "date_shift_preserve_values_invalid" "Date shift preserve values invalid.");
   ("DERIVED_AGGREGATE_COLUMN_MISSING", line "derived_aggregate_column_missing" "Derived aggregate column missing.");
   ("DERIVED_AGGREGATE_MISSING_COLUMN_REF", line "derived_aggregate_missing_column_ref" "Derived aggregate missing column ref.");
   ("DERIVED_AGGREGATE_OP_INVALID", line "derived_aggregate_op_invalid" "Derived aggregate op invalid.");
   ("DERIVED_AGGREGATE_OP_MISSING", line "derived_aggregate_op_missing" "Derived aggregate op missing.");
   ("DERIVED_BOUNDS_INVALID", line "derived_bounds_invalid" "Derived bounds invalid.")])%string.

Definition plan_part2_1 : CatalogPart := (plan "PlanCompileError",
  [("DERIVED_BOUNDS_INVERTED", line "derived_bounds_inverted" "Derived bounds inverted.");
   ("DERIVED_CYCLIC_REFERENCE", line "derived_cyclic_reference" "Derived cyclic reference.");
   ("DERIVED_EXPRESSION_MISSING", line "derived_expression_missing" "Derived expression missing.");
   ("DERIVED_MISSING_COLUMN_REF", line "derived_missing_column_ref" "Derived missing column ref.");
   ("DERIVED_NULL_PROPAGATION_INVALID", line "derived_null_propagation_invalid" "Derived null propagation invalid.");
   ("DETERMINISTIC_NAMESPACE_MISSING", line "deterministic_namespace_missing" "Deterministic namespace missing.");
   ("DP_BUDGET_DECLARATION_MALFORMED", line "dp_budget_declaration_malformed" "DP budget declaration malformed.");
   ("DP_BUDGET_EXCEEDED", line "dp_budget_exceeded" "DP budget exceeded.");
   ("DP_FLAG_TOKEN_INVALID", line "dp_flag_token_invalid" "DP flag token invalid.");
   ("DP_GENERATE_ALLOW_REAL_CATEGORIES_UNSUPPORTED", line "dp_generate_allow_real_categories_unsupported" "DP generate allow real categories unsupported.");
   ("DP_GENERATE_HIGH_CARDINALITY_UNSUPPORTED", line "dp_generate_high_cardinality_unsupported" "DP generate high cardinality unsupported.");
   ("DP_JOINT_UNSUPPORTED", line "dp_joint_unsupported" "DP joint unsupported.");
   ("DP_PINNED_SNAPSHOT_DIGEST_MISMATCH", line "dp_pinned_snapshot_digest_mismatch" "DP pinned snapshot digest mismatch.");
   ("DP_PINNED_SNAPSHOT_PAYLOAD_NOT_JSON", line "dp_pinned_snapshot_payload_not_json" "DP pinned snapshot payload not JSON.");
   ("DP_SNAPSHOT_CODEC_UNSUPPORTED", line "dp_snapshot_codec_unsupported" "DP snapshot codec unsupported.");
   ("DP_SNAPSHOT_EMBEDDED_ARTIFACT_TOO_LARGE", line "dp_snapshot_embedded_artifact_too_large" "DP snapshot embedded artifact too large.");
   ("DP_SNAPSHOT_NUMERIC_EDGES_MISMATCH", line "dp_snapshot_numeric_edges_mismatch" "DP snapshot numeric edges mismatch.");
   ("DP_SNAPSHOT_NUMERIC_SHAPE_MISMATCH", line "dp_snapshot_numeric_shape_mismatch" "DP snapshot numeric shape mismatch.");
   ("DP_SNAPSHOT_RELEASE_SHAPE_UNSUPPORTED", line "dp_snapshot_release_shape_unsupported" "DP snapshot release shape unsupported.");
   ("FAKER_REQUIRES_PROVIDER", line "faker_requires_provider" "Faker requires provider.");
   ("FK_CYCLE", line "fk_cycle" "FK cycle.");
   ("FPE_CHARSET_DEGENERATE", line "fpe_charset_degenerate" "FPE charset degenerate.");
   ("FPE_CHARSET_DUPLICATE_SYMBOLS", line "fpe_charset_duplicate_symbols" "FPE charset duplicate symbols.");
   ("FPE_CHARSET_NON_ASCII", line "fpe_charset_non_ascii" "FPE charset non ascii.");
   ("FPE_CHECKSUM_CHARSET_INCOMPATIBLE", line "fpe_checksum_charset_incompatible" "FPE checksum charset incompatible.");
   ("FPE_CHECKSUM_IBAN_UNSUPPORTED", line "fpe_checksum_iban_unsupported" "FPE checksum IBAN unsupported.");
   ("FPE_CHECKSUM_UNKNOWN_SCHEME", line "fpe_checksum_unknown_scheme" "FPE checksum unknown scheme.");
   ("FPE_JOIN_GROUP_CONFIG_MISMATCH", line "fpe_join_group_config_mismatch" "FPE join group config mismatch.");
   ("FPE_JOIN_GROUP_NAMESPACE_MISMATCH", line "fpe_join_group_namespace_mismatch" "FPE join group namespace mismatch.");
   ("FPE_JOIN_GROUP_NON_FPE_MEMBER", line "fpe_join_group_non_fpe_member" "FPE join group non FPE member.");
   ("FPE_JOIN_GROUP_SINGLETON", line "fpe_join_group_singleton" "FPE join group singleton.");
   ("GEO_GENERALIZE_INVALID_CASCADE", line "geo_generalize_invalid_cascade" "Geo generalize invalid cascade.");
   ("GEO_GENERALIZE_INVALID_CASCADE_LEVEL", line "geo_generalize_invalid_cascade_level" "Geo generalize invalid cascade level.");
   ("GEO_GENERALIZE_MISSING_SUPPRESS", line "geo_generalize_missing_suppress" "Geo generalize missing suppress.");
   ("GEO_GENERALIZE_UNSUPPORTED_TYPE", line "geo_generalize_unsupported_type" "Geo generalize unsupported type.");
   ("GROUP_KEY_GROUP_BY_MISSING", line "group_key_group_by_missing" "Group key group by missing.");
   ("GROUP_KEY_LENGTH_ODD", line "group_key_length_odd" "Group key length odd.");
   ("GROUP_KEY_LENGTH_OUT_OF_RANGE", line "group_key_length_out_of_range" "Group key length out of range.");
   ("GROUP_KEY_MISSING_GROUP_BY_REF", line "group_key_missing_group_by_ref" "Group key missing group by ref.");
   ("GROUPED_SERIES_GENERATOR_INVALID", line "grouped_series_generator_invalid" "Grouped series generator invalid.");
   ("GROUPED_SERIES_GROUP_BY_MISSING", line "grouped_series_group_by_missing" "Grouped series group by missing.");
   ("GROUPED_SERIES_MISSING_GROUP_BY_REF", line "grouped_series_missing_group_by_ref" "Grouped series missing group by ref.");
   ("GROUPED_SERIES_MISSING_ORDER_BY_REF", line "grouped_series_missing_order_by_ref" "Grouped series missing order by ref.");
   ("GROUPED_SERIES_ORDER_BY_MISSING", line "grouped_series_order_by_missing" "Grouped series order by missing.");
   ("GROUPED_SERIES_STEP_OUT_OF_RANGE", line "grouped_series_step_out_of_range" "Grouped series step out of range.");
   ("JOINT_MASK_COLUMN_NOT_IN_REFERENCE", line "joint_mask_column_not_in_reference" "Joint mask column not in reference.");
   ("JOINT_MASK_COLUMNS_MISSING", line "joint_mask_columns_missing" "Joint mask columns missing.");
   ("JOINT_MASK_KEY_BY_MISSING", line "joint_mask_key_by_missing" "Joint mask key by missing.");
   ("JOINT_MASK_REFERENCE_INVALID", line "joint_mask_reference_invalid" "Joint mask reference invalid.");
   ("JOINT_MASK_REFERENCE_MISSING", line "joint_mask_reference_missing" "Joint mask reference missing.");
   ("JOINT_MASK_REFERENCE_NOT_FOUND", line "joint_mask_reference_not_found" "Joint mask reference not found.");
   ("NON_POOLABLE_PROVIDER_WITH_POOL_BACKEND", line "non_poolable_provider_with_pool_backend" "Non poolable provider with pool backend.");
   ("NULL_BEARING_INT_UNSUPPORTED", line "null_bearing_int_unsupported" "Null bearing int unsupported.");
   ("ORPHAN_FK_POLICY_DUPLICATE", line "orphan_fk_policy_duplicate" "Orphan FK policy duplicate.");
   ("ORPHAN_FK_POLICY_INVALID", line "orphan_fk_policy_invalid" "Orphan FK policy invalid.");
   ("ORPHAN_FK_POLICY_MISSING", line "orphan_fk_policy_missing" "Orphan FK policy missing.");
   ("ORPHAN_POLICY_CONFLICT", line "orphan_policy_conflict" "Orphan policy conflict.");
   ("PER_TABLE_TRANSFORMS_PRESENT", line "per_table_transforms_present" "Per table transforms present.");
   ("PLAN_SCHEMA_DETERMINISTIC_MAP_RENAMED", line "plan_schema_deterministic_map_renamed" "Plan schema deterministic map renamed.");
   ("POOL_CAPACITY_PRE_FLIGHT_UNIQUE", line "pool_capacity_pre_flight_unique" "Pool capacity pre flight unique.");
   ("POOL_SIZE_LOCATION_CONFLICT", line "pool_size_location_conflict" "Pool size location conflict.");
   ("SEED_NOT_NUMERIC", line "seed_not_numeric" "Seed not numeric.");
   ("SEED_OVERFLOW", line "seed_overflow" "Seed overflow.");
   ("STATISTICAL_CONDITION_COLUMN_UNAVAILABLE", line "statistical_condition_column_unavailable" "Statistical condition column unavailable.");
   ("STATISTICAL_HIGH_CARDINALITY_WRONG_TYPE", line "statistical_high_cardinality_wrong_type" "Statistical high cardinality wrong type.");
   ("STATISTICAL_SNAPSHOT_FILE_REQUIRED", line "statistical_snapshot_file_required" "Statistical snapshot file required.");
   ("STATISTICAL_SNAPSHOT_NOT_PINNED", line "statistical_snapshot_not_pinned" "Statistical snapshot not pinned.");
   ("STRATEGY_NOT_CHUNK_SAFE", line "strategy_not_chunk_safe" "Strategy not chunk safe.");
   ("TOP_CODE_BOUNDS_UNRESOLVABLE", line "top_code_bounds_unresolvable" "Top code bounds unresolvable.");
   ("TOP_CODE_FLOOR_GE_CAP", line "top_code_floor_ge_cap" "Top code floor ge cap.")])%string.

Definition plan_part2_2 : CatalogPart := (plan "PlanCompileError",
  [("TOP_CODE_MISSING_OVER_LABEL", line "top_code_missing_over_label" "Top code missing over label.");
   ("TOP_CODE_MISSING_UNDER_LABEL", line "top_code_missing_under_label" "Top code missing under label.");
   ("TOP_CODE_UNDER_LABEL_WITHOUT_FLOOR", line "top_code_under_label_without_floor" "Top code under label without floor.");
   ("TOP_CODE_UNSUPPORTED_IN_NESTED", line "top_code_unsupported_in_nested" "Top code unsupported in nested.");
   ("TOP_CODE_WITH_WHEN_UNSUPPORTED", line "top_code_with_when_unsupported" "Top code with when unsupported.");
   ("TRUNCATE_KEEP_INVALID", line "truncate_keep_invalid" "Truncate keep invalid.");
   ("TRUNCATE_LENGTH_INVALID", line "truncate_length_invalid" "Truncate length invalid.");
   ("TRUNCATE_MASK_CHAR_INVALID", line "truncate_mask_char_invalid" "Truncate mask char invalid.");
   ("UNKNOWN_PROVIDER", line "unknown_provider" "Unknown provider.");
   ("VAULT_REQUIRES_CRYPTOGRAPHY", line "vault_requires_cryptography" "Vault requires cryptography.");
   ("VAULT_REQUIRES_NAMESPACE", line "vault_requires_namespace" "Vault requires namespace.");
   ("VAULT_STRATEGY_REVERSIBLE", line "vault_strategy_reversible" "Vault strategy reversible.");
   ("VAULT_STRATEGY_UNMASKED", line "vault_strategy_unmasked" "Vault strategy unmasked.");
   ("WHEN_OUTSIDE_CLOSED_GRAMMAR", line "when_outside_closed_grammar" "When outside closed grammar.");
   ("WHEN_STRING_OUTPUT_ON_NUMERIC_UNSUPPORTED", line "when_string_output_on_numeric_unsupported" "When string output on numeric unsupported.");
   ("WHEN_WITH_COHERENT_WITH_UNSUPPORTED", line "when_with_coherent_with_unsupported" "When with coherent with unsupported.");
   ("WINDOWED_DATE_ANCHOR_MISSING", line "windowed_date_anchor_missing" "Windowed date anchor missing.");
   ("WINDOWED_DATE_DISTRIBUTION_INVALID", line "windowed_date_distribution_invalid" "Windowed date distribution invalid.");
   ("WINDOWED_DATE_MAX_DAYS_MISSING", line "windowed_date_max_days_missing" "Windowed date max days missing.");
   ("WINDOWED_DATE_MIN_EXCEEDS_MAX", line "windowed_date_min_exceeds_max" "Windowed date min exceeds max.");
   ("WINDOWED_DATE_MISSING_ANCHOR_REF", line "windowed_date_missing_anchor_ref" "Windowed date missing anchor ref.")])%string.

Definition plan_part2_3 : CatalogPart := (plan "StatisticalSpecError",
  [("STATISTICAL_ALLOW_REAL_CATEGORIES_INVALID_TYPE", line "statistical_allow_real_categories_invalid_type" "Statistical allow real categories invalid type.");
   ("STATISTICAL_COLUMN_NOT_IN_SNAPSHOT", line "statistical_column_not_in_snapshot" "Statistical column not in snapshot.");
   ("STATISTICAL_CONDITION_KIND_INVALID", line "statistical_condition_kind_invalid" "Statistical condition kind invalid.");
   ("STATISTICAL_DP_CARRIER_INVALID", line "statistical_dp_carrier_invalid" "Statistical DP carrier invalid.");
   ("STATISTICAL_FLAG_OTHER_MODE_EMIT_INVALID", line "statistical_flag_other_mode_emit_invalid" "Statistical flag other mode emit invalid.");
   ("STATISTICAL_FLAG_REQUIRES_DP_DECLARATION", line "statistical_flag_requires_dp_declaration" "Statistical flag requires DP declaration.");
   ("STATISTICAL_FLAG_TOKEN_INVALID", line "statistical_flag_token_invalid" "Statistical flag token invalid.");
   ("STATISTICAL_HIGH_CARDINALITY_INVALID_TYPE", line "statistical_high_cardinality_invalid_type" "Statistical high cardinality invalid type.");
   ("STATISTICAL_HIGH_CARDINALITY_KIND_INVALID", line "statistical_high_cardinality_kind_invalid" "Statistical high cardinality kind invalid.")])%string.

Definition plan_part3_1 : CatalogPart := (plan "StatisticalSpecError",
  [("STATISTICAL_HIGH_CARDINALITY_REQUIRES_REAL_CATEGORIES", line "statistical_high_cardinality_requires_real_categories" "Statistical high cardinality requires real categories.");
   ("STATISTICAL_HIGH_CARDINALITY_SNAPSHOT_MISMATCH", line "statistical_high_cardinality_snapshot_mismatch" "Statistical high cardinality snapshot mismatch.");
   ("STATISTICAL_JOINT_MISSING", line "statistical_joint_missing" "Statistical joint missing.");
   ("STATISTICAL_KIND_UNSUPPORTED", line "statistical_kind_unsupported" "Statistical kind unsupported.");
   ("STATISTICAL_OTHER_MODE_INVALID", line "statistical_other_mode_invalid" "Statistical other mode invalid.");
   ("STATISTICAL_REAL_CATEGORIES_NOT_ALLOWED", line "statistical_real_categories_not_allowed" "Statistical real categories not allowed.");
   ("STATISTICAL_SNAPSHOT_INDEX_OUT_OF_RANGE", line "statistical_snapshot_index_out_of_range" "Statistical snapshot index out of range.");
   ("STATISTICAL_SNAPSHOT_SCHEMA_MISMATCH", line "statistical_snapshot_schema_mismatch" "Statistical snapshot schema mismatch.");
   ("STATISTICAL_SNAPSHOT_UNREADABLE", line "statistical_snapshot_unreadable" "Statistical snapshot unreadable.");
   ("STATISTICAL_SPEC_NOT_PINNED", line "statistical_spec_not_pinned" "Statistical spec not pinned.");
   ("STATISTICAL_STATS_DEGENERATE", line "statistical_stats_degenerate" "Statistical stats degenerate.")])%string.

Definition plan_part3_2 : CatalogPart := (plan "decoy_engine.execution._transforms",
  [("DEDUPE_UNSUPPORTED_TYPE", line "dedupe_unsupported_type" "Dedupe unsupported type.");
   ("SORT_UNSUPPORTED_TYPE", line "sort_unsupported_type" "Sort unsupported type.")])%string.

Definition plan_part3_3 : CatalogPart := (plan "decoy_engine.plan._checks_top_code",
  [("TOP_CODE_INVALID_FLOOR", line "top_code_invalid_floor" "Top code invalid floor.")])%string.
