(* ===== verification/Catalog2.v ===== *)
(** * The reason catalog: the platform, pre- and post-scan, provider, quality and route sections (reasons/platform/, reasons/post_scan/, reasons/pre_scan/, reasons/provider/, reasons/quality/, reasons/route/)

    Each part is one block of a catalog module: the profile it declares with and its
    lines, each under the module attribute it is assigned to. *)

From S2P Require Import Prelude PyText PyData Reasons Catalog1.

Definition platform_part1_1 : CatalogPart := (platform "PlatformJobLog",
  [("JOB_NARRATIVE", MkLine "job_narrative" "A job step logged a message. Its text is kept in the server log." None (Some CONTROL) None (Some INFO) (Some EXECUTION) None [] "1.5.0" None None);
   ("JOB_SUCCEEDED", MkLine "job_succeeded" "Job complete." None (Some CONTROL) None (Some INFO) (Some SUCCESS) None [] "1.5.0" None None);
   ("JOB_FAILED", line_since "1.5.0" "job_failed" "Job complete: failed. The server log has the details.");
   ("JOB_CANCELLED", MkLine "job_cancelled" "Job complete: cancelled." None (Some CONTROL) None (Some INFO) (Some CANCELLED) None [] "1.5.0" None None);
   ("CONFIG_REJECTED", line_since "1.5.0" "config_rejected" "The job configuration was rejected. The server log has the details.");
   ("CONFIG_TOO_LARGE", line_since "1.5.0" "config_too_large" "The job configuration exceeds the stored-config size limit.");
   ("VARIABLE_UNRESOLVED", line_since "1.5.0" "variable_unresolved" "A pipeline variable could not be resolved. The server log has the details.");
   ("V1_CONFIG_REJECTED", line_since "1.5.0" "v1_config_rejected" "This pipeline uses the retired v1 format. Re-author it in the graph builder.");
   ("PIPELINE_ERROR", line_since "1.5.0" "pipeline_error" "The pipeline stopped with an error. The server log has the details.");
   ("DISPATCH_ABORTED", line_since "1.5.0" "dispatch_aborted" "The worker stopped the job before it ran. The server log has the details.");
   ("CONFIG_CHANGED_AFTER_CLAIM", line_since "1.5.0" "config_changed_after_claim" "The stored job configuration changed between claim and run.");
   ("WORKER_LOST", line_since "1.5.0" "worker_lost" "The worker running the job stopped responding, so the job was failed.");
   ("WORKER_SHUTDOWN", line_since "1.5.0" "worker_shutdown" "The worker shut down while the job was running, so the job was failed.");
   ("LAUNCH_REFUSED", line_since "1.5.0" "launch_refused" "The supervisor refused to launch the job.");
   ("WORKER_EXIT_UNLANDED", line_since "1.5.0" "worker_exit_unlanded" "The worker exited without recording a final job state.");
   ("LEASE_RECOVERED", line_since "1.5.0" "lease_recovered" "The job was failed during crash recovery after its host lease was released.");
   ("HOST_SAFETY_REJECTED", line_since "1.5.0" "host_safety_rejected" "A host-safety check rejected the job before any data was read.");
   ("HOST_SAFETY_DEFERRED", line_since "1.5.0" "host_safety_deferred" "The job waited too long for host capacity and was not run.");
   ("DISPATCH_MODE_UNKNOWN", line_since "1.5.0" "dispatch_mode_unknown" "The job mode has no registered dispatcher.");
   ("ADMISSION_REJECTED", line_since "1.5.0" "admission_rejected" "The job estimate exceeds the hard ceiling, so it was rejected before any data was read.");
   ("OWNER_MISSING", line_since "1.5.0" "owner_missing" "The job's owner no longer exists, so the job cannot run.");
   ("OWNER_INACTIVE", line_since "1.5.0" "owner_inactive" "The job's owner is inactive, so the job cannot run.");
   ("OWNER_REFUSED", line_since "1.5.0" "owner_refused" "The job's owner cannot run jobs.");
   ("LEGACY_BINDING_CANCELLED", MkLine "legacy_binding_cancelled" "The job uses a retired cloud binding and was cancelled." None None None None (Some CANCELLED) None [] "1.5.0" None None);
   ("ITERATION_NO_PIPELINE", line_since "1.5.0" "iteration_no_pipeline" "The iteration parent job has no pipeline.");
   ("ITERATION_FAILED", line_since "1.5.0" "iteration_failed" "The iteration could not run. The server log has the details.");
   ("ITERATION_NO_VALUES", line_since "1.5.0" "iteration_no_values" "The iteration produced no values, so nothing ran.");
   ("ITERATION_CHILD_FAILED", line_since "1.5.0" "iteration_child_failed" "An iteration child job failed. The server log has the details.");
   ("ITERATION_CHILD_CANCELLED", MkLine "iteration_child_cancelled" "Cancelled: the parent job reached a final state." None (Some CONTROL) None (Some INFO) (Some CANCELLED) None [] "1.5.0" None None);
   ("STARTUP_REQUEUED", MkLine "startup_requeued" "The platform restarted while the job ran. The job was queued to run again." None (Some CONTROL) None (Some INFO) (Some EXECUTION) None [] "1.5.0" None None);
   ("STARTUP_FAILED", line_since "1.5.0" "startup_failed" "The platform restarted while the job ran, so the job was failed.");
   ("SCAN_UPLOAD_FAILED", line_since "1.5.0" "scan_upload_failed" "The scan upload failed.")])%string.

Definition platform_part1_2 : CatalogPart := (platform "PlatformJobLog",
  [("SCAN_UPLOAD_CANCELLED", MkLine "scan_upload_cancelled" "The scan upload was cancelled. Upload again to retry." None (Some CONTROL) None (Some INFO) (Some CANCELLED) None [] "1.5.0" None None);
   ("SCAN_DISABLED", line_since "1.5.0" "scan_disabled" "Scanning is disabled in this release.");
   ("WORKFLOW_RESTART_INTERRUPTED", line_since "1.5.0" "workflow_restart_interrupted" "The platform restarted while this workflow step ran. Progress was not kept; run it again when ready.");
   ("WORKFLOW_STEP_NOT_RUN", MkLine "workflow_step_not_run" "Cancelled: the workflow run ended before this step ran." None (Some CONTROL) None (Some INFO) (Some CANCELLED) None [] "1.5.0" None None);
   ("QUALITY_HOOK_FAILED", line_since "1.5.0" "quality_hook_failed" "The quality check after the run failed. The server log has the details.");
   ("QUALITY_HOOK_SKIPPED", MkLine "quality_hook_skipped" "The quality check after the run was skipped." None (Some KWARNING) None (Some WARNING) None None [] "1.5.0" None None);
   ("QUALITY_HOOK_NOTE", MkLine "quality_hook_note" "The quality check after the run logged a note." None (Some CONTROL) None (Some INFO) (Some EXECUTION) None [] "1.5.0" None None);
   ("SYNTH_HOOK_FAILED", line_since "1.5.0" "synth_hook_failed" "The synthesis step after the run failed. The server log has the details.");
   ("SYNTH_HOOK_SKIPPED", MkLine "synth_hook_skipped" "The synthesis step after the run was skipped." None (Some KWARNING) None (Some WARNING) None None [] "1.5.0" None None);
   ("SYNTH_HOOK_NOTE", MkLine "synth_hook_note" "The synthesis step after the run logged a note." None (Some CONTROL) None (Some INFO) (Some EXECUTION) None [] "1.5.0" None None);
   ("POST_SCAN_HOOK_FAILED", line_since "1.5.0" "post_scan_hook_failed" "The scan after masking failed. The server log has the details.");
   ("POST_SCAN_HOOK_SKIPPED", MkLine "post_scan_hook_skipped" "The scan after masking was skipped." None (Some KWARNING) None (Some WARNING) None None [] "1.5.0" None None);
   ("POST_SCAN_HOOK_NOTE", MkLine "post_scan_hook_note" "The scan after masking logged a note." None (Some CONTROL) None (Some INFO) (Some EXECUTION) None [] "1.5.0" None None);
   ("ITERATION_CHILD_TARGET_LOCKED", line_since "1.5.0" "iteration_child_target_locked" "Another job holds this output target, so the iteration child did not run.")])%string.

Definition platform_part1_3 : CatalogPart := (platform "PlatformResponse",
  [("VALIDATION_PREFLIGHT_FAILED", line_since "1.5.0" "validation_preflight_failed" "The pipeline could not be checked. The server log has the details.");
   ("WORKFLOW_STEP_FAILED", line_since "1.5.0" "workflow_step_failed" "The workflow step failed. The server log has the details.");
   ("ITERATION_PREVIEW_FAILED", line_since "1.5.0" "iteration_preview_failed" "The iteration values could not be previewed.");
   ("DATABASE_UNAVAILABLE", line_since "1.5.0" "database_unavailable" "The database is unavailable.");
   ("PREVIEW_UNAVAILABLE", line_since "1.5.0" "preview_unavailable" "Preview is unavailable right now. Try again later.");
   ("RETRIEVAL_UNAVAILABLE", line_since "1.5.0" "retrieval_unavailable" "Output retrieval is unavailable right now. Try again later.");
   ("RETRIEVAL_FAILED", line_since "1.5.0" "retrieval_failed" "The output could not be read.")])%string.

Definition platform_part1_4 : CatalogPart := (platform "PlatformNotification",
  [("NOTIFY_TEST_FIRE", MkLine "notify_test_fire" "This is a test notification." None (Some CONTROL) None (Some INFO) (Some SUCCESS) None [] "1.5.0" None None);
   ("NOTIFY_NODE_FLAGGED", MkLine "notify_node_flagged" "A flagged node logged a message at or above the flag's severity." None (Some KWARNING) None (Some WARNING) None None [] "1.5.0" None None);
   ("NOTIFY_FLAG_GATE", MkLine "notify_flag_gate" "A flag gate paused the job for review." None (Some CONTROL) None (Some INFO) (Some EXECUTION) None [] "1.5.0" None None)])%string.

Definition platform_part1_5 : CatalogPart := (platform_config "PlatformValidation",
  [("VALIDATION_FAILED", line_since "1.5.0" "validation_failed" "The pipeline configuration is not valid.");
   ("YAML_EMPTY", line_since "1.5.0" "yaml_empty" "Pipeline YAML is empty. Re-open the pipeline in the graph builder, fix any GraphToV2Error shown at save time, then Save and try again.");
   ("YAML_UNPARSEABLE", line_since "1.5.0" "yaml_unparseable" "The pipeline YAML could not be parsed.");
   ("YAML_NOT_A_MAPPING", line_since "1.5.0" "yaml_not_a_mapping" "The pipeline YAML must be a mapping (an object).");
   ("LEGACY_GRAPH_MODE_RETIRED", line_since "1.5.0" "legacy_graph_mode_retired" "This pipeline's YAML is graph-mode, which was retired. The V2 engine accepts only `version: 2` PipelineConfig YAML. Re-open the pipeline in the graph builder. The save seam emits the V2 config now. If the pipeline uses any of the retired ops, recreate it with the V2 narrow surface.");
   ("NOT_A_V2_CONFIG", line_since "1.5.0" "not_a_v2_config" "Pipeline YAML is not a v2 PipelineConfig (no `version: 2`). Re-save the pipeline from the graph builder to emit a v2 config.");
   ("MASK_SECRET_REF_NOT_ALLOWED", line_since "1.5.0" "mask_secret_ref_not_allowed" "global_settings.mask_secret_ref is not allowed in a platform job; the platform keys masking from its instance master key.");
   ("FIXED_WIDTH_LAYOUT_REF_MISSING", line_since "1.5.0" "fixed_width_layout_ref_missing" "A fixed-width layout reference is missing.");
   ("FIXED_WIDTH_LAYOUT_REF_INVALID", line_since "1.5.0" "fixed_width_layout_ref_invalid" "A fixed-width layout reference is not valid.");
   ("FIXED_WIDTH_LAYOUT_NOT_FOUND", line_since "1.5.0" "fixed_width_layout_not_found" "A referenced fixed-width layout was not found.");
   ("FIXED_WIDTH_LAYOUT_CORRUPT", line_since "1.5.0" "fixed_width_layout_corrupt" "A referenced fixed-width layout is corrupt.");
   ("GEO_LAT_LNG_REQUIRES_H3", line_since "1.5.0" "geo_lat_lng_requires_h3" "geo_generalize with type='lat_lng' requires the h3 library, which is not installed in this environment. Install it with: pip install 'decoy-engine[geo]' or: uv add 'decoy-engine[geo]'");
   ("V2_CONFIG_INVALID", line_since "1.5.0" "v2_config_invalid" "The pipeline configuration failed schema validation.")])%string.

Definition post_scan_part1_1 : CatalogPart := (post_scan "decoy_engine.phase",
  [("CHECK_ERROR", line "check_error" "A Post-scan check raised before producing a result.");
   ("SCAN_CRASHED", line "scan_crashed" "A post-validation scan crashed before producing a result.");
   ("PASS_FAILED", line "pass_failed" "The Post-scan pass could not start.")])%string.

Definition pre_scan_part1_1 : CatalogPart := (pre_scan "decoy_engine.phase",
  [("PROFILE_FAILED", line "profile_failed" "The Pre-scan profile did not complete.")])%string.

Definition provider_part1_1 : CatalogPart := (provider "AdapterError",
  [("CAPABILITY_VIOLATION", MkLine "capability_violation" "Capability violation." None None None None (Some EXECUTION) (Some RUNKNOWN) [] "1.0.0" None None);
   ("UNKNOWN_PROVIDER", MkLine "unknown_provider" "Unknown provider." None None None None (Some EXECUTION) (Some RUNKNOWN) [] "1.0.0" None None);
   ("UNSUPPORTED_LOCALE", MkLine "unsupported_locale" "Unsupported locale." None None None None (Some EXECUTION) (Some RUNKNOWN) [] "1.0.0" None None)])%string.

Definition provider_part1_2 : CatalogPart := (provider "IdentifierError",
  [("BLOCKLIST_EXHAUSTED", line "blocklist_exhausted" "Blocklist exhausted.");
   ("INVALID_CUSIP_CHAR", line "invalid_cusip_char" "Invalid cusip char.");
   ("INVALID_INPUT_LENGTH", line "invalid_input_length" "Invalid input length.")])%string.

Definition provider_part1_3 : CatalogPart := (provider "NerUnavailableError",
  [("NER_MODEL_NOT_INSTALLED", line "ner_model_not_installed" "NER model not installed.");
   ("NER_SPACY_NOT_INSTALLED", line "ner_spacy_not_installed" "NER spacy not installed.")])%string.

Definition provider_part1_4 : CatalogPart := (provider "ProviderError",
  [("BATCH_DETERMINISTIC_UNSUPPORTED", line "batch_deterministic_unsupported" "Batch deterministic unsupported.");
   ("DETERMINISTIC_REQUIRES_NAMESPACE_AND_SEED", line "deterministic_requires_namespace_and_seed" "Deterministic requires namespace and seed.");
   ("DETERMINISTIC_REQUIRES_SOURCE_VALUE", line "deterministic_requires_source_value" "Deterministic requires source value.");
   ("MISSING_NAMESPACE", line "missing_namespace" "Missing namespace.");
   ("MISSING_SEED", line "missing_seed" "Missing seed.");
   ("NAMESPACE_EMPTY", line "namespace_empty" "Namespace empty.");
   ("SEED_WRONG_LENGTH", line "seed_wrong_length" "Seed wrong length.")])%string.

Definition quality_part1_1 : CatalogPart := (quality "CarrierError",
  [("DP_ADAPTER_AMBIGUOUS_COLUMN", line "dp_adapter_ambiguous_column" "DP adapter ambiguous column.");
   ("DP_ADAPTER_DUPLICATE_COLUMN", line "dp_adapter_duplicate_column" "DP adapter duplicate column.");
   ("DP_ADAPTER_MISSING_COLUMN", line "dp_adapter_missing_column" "DP adapter missing column.");
   ("DP_ADAPTER_SOURCE_TYPE", line "dp_adapter_source_type" "DP adapter source type.");
   ("DP_CARRIER_BOUNDS_MISSING", line "dp_carrier_bounds_missing" "DP carrier bounds missing.");
   ("DP_CARRIER_BOUNDS_NONFINITE", line "dp_carrier_bounds_nonfinite" "DP carrier bounds nonfinite.");
   ("DP_CARRIER_BOUNDS_ORDER", line "dp_carrier_bounds_order" "DP carrier bounds order.");
   ("DP_CARRIER_BOUNDS_TYPE", line "dp_carrier_bounds_type" "DP carrier bounds type.");
   ("DP_CARRIER_FLAG_DTYPE", line "dp_carrier_flag_dtype" "DP carrier flag dtype.");
   ("DP_CARRIER_FLAG_LENGTH", line "dp_carrier_flag_length" "DP carrier flag length.");
   ("DP_CARRIER_NUMBER_DTYPE", line "dp_carrier_number_dtype" "DP carrier number dtype.");
   ("DP_CARRIER_NUMBER_LENGTH", line "dp_carrier_number_length" "DP carrier number length.");
   ("DP_CARRIER_ROW_COUNT_NEGATIVE", line "dp_carrier_row_count_negative" "DP carrier row count negative.");
   ("DP_CARRIER_ROW_COUNT_TYPE", line "dp_carrier_row_count_type" "DP carrier row count type.");
   ("DP_CARRIER_SCHEMA_MISMATCH", line "dp_carrier_schema_mismatch" "DP carrier schema mismatch.");
   ("DP_CARRIER_TEXT_SHAPE", line "dp_carrier_text_shape" "DP carrier text shape.");
   ("DP_CARRIER_TYPE_MISMATCH", line "dp_carrier_type_mismatch" "DP carrier type mismatch.");
   ("DP_CARRIER_UNKNOWN", line "dp_carrier_unknown" "DP carrier unknown.");
   ("DP_CARRIER_VALIDITY_LENGTH", line "dp_carrier_validity_length" "DP carrier validity length.");
   ("DP_CARRIER_VALIDITY_SHAPE", line "dp_carrier_validity_shape" "DP carrier validity shape.");
   ("DP_KIND_CARRIER_MISMATCH", line "dp_kind_carrier_mismatch" "DP kind carrier mismatch.");
   ("DP_KIND_UNKNOWN", line "dp_kind_unknown" "DP kind unknown.");
   ("DP_SCHEMA_COLUMN_TYPE", line "dp_schema_column_type" "DP schema column type.");
   ("DP_SCHEMA_TYPE", line "dp_schema_type" "DP schema type.")])%string.

Definition quality_part1_2 : CatalogPart := (quality "DistributionSnapshotError",
  [("HIGH_CARDINALITY_AMBIGUOUS_STRING_COERCION", line "high_cardinality_ambiguous_string_coercion" "High cardinality ambiguous string coercion.");
   ("HIGH_CARDINALITY_COLUMNS_NOT_COLLECTION", line "high_cardinality_columns_not_collection" "High cardinality columns not collection.");
   ("HIGH_CARDINALITY_DISTINCT_LIMIT_EXCEEDED", line "high_cardinality_distinct_limit_exceeded" "High cardinality distinct limit exceeded.");
   ("HIGH_CARDINALITY_INVALID_LABEL_ENCODING", line "high_cardinality_invalid_label_encoding" "High cardinality invalid label encoding.");
   ("HIGH_CARDINALITY_LABEL_BYTES_LIMIT_EXCEEDED", line "high_cardinality_label_bytes_limit_exceeded" "High cardinality label bytes limit exceeded.");
   ("HIGH_CARDINALITY_NON_STRING_DTYPE", line "high_cardinality_non_string_dtype" "High cardinality non string dtype.")])%string.

Definition quality_part1_3 : CatalogPart := (quality "DpBudgetError",
  [("DP_BUDGET_CATEGORICAL_PAIR_UNSCHEDULED", line "dp_budget_categorical_pair_unscheduled" "DP budget categorical pair unscheduled.");
   ("DP_BUDGET_INFEASIBLE", line "dp_budget_infeasible" "DP budget infeasible.");
   ("DP_CARRIER_BACKEND_UNSUPPORTED", line "dp_carrier_backend_unsupported" "DP carrier backend unsupported.");
   ("DP_CARRIER_INVALID", line "dp_carrier_invalid" "DP carrier invalid.");
   ("DP_DUPLICATE_RELEASE", line "dp_duplicate_release" "DP duplicate release.");
   ("DP_EPSILON_UNSUPPORTED", line "dp_epsilon_unsupported" "DP epsilon unsupported.");
   ("DP_SCHEDULE_INCOMPLETE", line "dp_schedule_incomplete" "DP schedule incomplete.");
   ("DP_SCHEDULE_MISMATCH", line "dp_schedule_mismatch" "DP schedule mismatch.");
   ("DP_UNSCHEDULED_RELEASE", line "dp_unscheduled_release" "DP unscheduled release.")])%string.

Definition quality_part1_4 : CatalogPart := (quality "DpError",
  [("DP_DELTA_INVALID", line "dp_delta_invalid" "DP delta invalid.");
   ("DP_EPSILON_INVALID", line "dp_epsilon_invalid" "DP epsilon invalid.");
   ("DP_NUMERIC_BINS_INVALID", line "dp_numeric_bins_invalid" "DP numeric bins invalid.");
   ("DP_NUMERIC_DOMAIN_INVALID", line "dp_numeric_domain_invalid" "DP numeric domain invalid.")])%string.

Definition quality_part1_5 : CatalogPart := (quality "ProvenanceError",
  [("DP_LOCK_INSTALLED_MISMATCH", line "dp_lock_installed_mismatch" "DP lock installed mismatch.");
   ("DP_LOCK_PARSE_ERROR", line "dp_lock_parse_error" "DP lock parse error.");
   ("DP_PLATFORM_UNCERTIFIED", line "dp_platform_uncertified" "DP platform uncertified.");
   ("DP_PROVENANCE_DISTRIBUTION_UNNAMED", line "dp_provenance_distribution_unnamed" "DP provenance distribution unnamed.");
   ("DP_PROVENANCE_DUPLICATE_DISTRIBUTION", line "dp_provenance_duplicate_distribution" "DP provenance duplicate distribution.");
   ("DP_PROVENANCE_RECORD_MALFORMED", line "dp_provenance_record_malformed" "DP provenance record malformed.");
   ("DP_STACK_UNCERTIFIED", line "dp_stack_uncertified" "DP stack uncertified.")])%string.

Definition route_added_1 : CatalogPart := (route "decoy_engine.execution._pipeline_routing",
  [("POST_VALIDATION_REQUESTED", line "post_validation_requested" "The post-validation scans need the full frame resident.");
   ("POST_SCAN_INTEGRITY_REQUESTED", line "post_scan_integrity_requested" "The Post-scan integrity checks need the full frame resident.");
   ("MIXED_GENERATE_MASK_CHUNKED", line "mixed_generate_mask_chunked" "A mixed generate and mask job was admitted to the chunked route.");
   ("MIXED_RUNTIME_DECLINED", line "mixed_runtime_declined" "The mixed route declined at run time and continued on the full-frame route.");
   ("SEQUENTIAL_INELIGIBLE", MkLine "sequential_ineligible" "An explicit sequential route was requested for a job that is not eligible for it." None (Some FAILURE) (Some [RESOLVE]) (Some ERROR) (Some OCONFIGURATION) (Some CONFIGURATION_REPAIR) [] "1.0.0" None None);
   ("OUT_OF_CORE_INELIGIBLE", MkLine "out_of_core_ineligible" "An explicit out-of-core route was requested for a job that is not eligible for it." None (Some FAILURE) (Some [RESOLVE]) (Some ERROR) (Some OCONFIGURATION) (Some CONFIGURATION_REPAIR) [] "1.0.0" None None)])%string.

Definition route_f06_1 : CatalogPart := (route "decoy_engine.declared_casting",
  [("DECLARED_CASTING_FULL_FRAME", line_since "1.4.0" "declared_casting_full_frame" "A job with declared casting contracts runs on the full-frame route.");
   ("DECLARED_CAST_ROUTE_UNSUPPORTED", MkLine "declared_cast_route_unsupported" "The selected route cannot apply a declared casting contract." None (Some FAILURE) (Some [RESOLVE; COMPILE]) (Some ERROR) (Some OCONFIGURATION) (Some CONFIGURATION_REPAIR) [] "1.4.0" None None);
   ("DECLARED_CAST_INPUT_TYPE_INCOMPATIBLE", MkLine "declared_cast_input_type_incompatible" "An input column's physical type does not match its declared lexical contract." None (Some FAILURE) (Some [RESOLVE; COMPILE]) (Some ERROR) (Some OCONFIGURATION) (Some CONFIGURATION_REPAIR) [] "1.4.0" None None);
   ("PROTECTED_QUARANTINE_UNAVAILABLE", MkLine "protected_quarantine_unavailable" "A protected quarantine store with the required protection is not available." None (Some FAILURE) (Some [RESOLVE; COMPILE]) (Some ERROR) (Some OCONFIGURATION) (Some ENVIRONMENT_REPAIR) [] "1.4.0" None None)])%string.

Definition route_f06_2 : CatalogPart := (route "decoy_engine.execution._chunked_output_sink",
  [("DECLARED_CASTING", line_since "1.4.0" "declared_casting" "Declared casting publishes after the run passes, so output stays resident.")])%string.

Definition route_part1_1 : CatalogPart := (route "RouteDeclineCode",
  [("ADAPTER_REQUESTED", line "adapter_requested" "Adapter requested.");
   ("CRYPTO_EXT_UNAVAILABLE", line "crypto_ext_unavailable" "Crypto extension unavailable.");
   ("EMPTY_INPUT", line "empty_input" "Empty input.");
   ("FAKER_METADATA_NOT_ALLOWLISTED", line "faker_metadata_not_allowlisted" "Faker metadata not allowlisted.");
   ("FAKER_PROVIDER_NOT_NATIVE", line "faker_provider_not_native" "Faker provider not native.");
   ("FAKER_PROVIDER_OUTPUT_NOT_STRING", line "faker_provider_output_not_string" "Faker provider output not string.");
   ("FAKER_SCHEMA_NOT_GUARANTEED", line "faker_schema_not_guaranteed" "Faker schema not guaranteed.");
   ("FAKER_SOURCE_NOT_STRING", line "faker_source_not_string" "Faker source not string.");
   ("FALLBACK_POLICY_NOT_NATIVE", line "fallback_policy_not_native" "Fallback policy not native.");
   ("FK_RELATIONSHIP", line "fk_relationship" "FK relationship.");
   ("FPE_CHECKSUM_NOT_NATIVE", line "fpe_checksum_not_native" "FPE checksum not native.");
   ("FPE_EXT_UNAVAILABLE", line "fpe_ext_unavailable" "FPE extension unavailable.");
   ("GROUP_KEY_MASKED_SIBLING", line "group_key_masked_sibling" "Group key masked sibling.");
   ("GROUP_KEY_SELF_ANCHOR", line "group_key_self_anchor" "Group key self anchor.");
   ("GROUP_KEY_SIBLING_MISSING", line "group_key_sibling_missing" "Group key sibling missing.");
   ("GROUP_KEY_SIBLING_TYPE_NOT_NATIVE", line "group_key_sibling_type_not_native" "Group key sibling type not native.");
   ("HASH_CONFIG_REJECTED", line "hash_config_rejected" "Hash config rejected.");
   ("INDEX_EXT_UNAVAILABLE", line "index_ext_unavailable" "Index extension unavailable.");
   ("NO_MASK_NODES", line "no_mask_nodes" "No mask nodes.");
   ("NO_NATIVE_KERNEL_OR_POOL", line "no_native_kernel_or_pool" "No native kernel or pool.");
   ("NON_SCALAR_NODE", line "non_scalar_node" "Non scalar node.");
   ("OTHER", line "other" "Other.");
   ("RAW_HEX_EXT_UNAVAILABLE", line "raw_hex_ext_unavailable" "Raw hex extension unavailable.");
   ("SOURCE_TYPE_NOT_STRING", line "source_type_not_string" "Source type not string.");
   ("STRATEGY_VETOED_CHUNKED", line "strategy_vetoed_chunked" "Strategy vetoed chunked.");
   ("UNCONFIGURED_SET_MISMATCH", line "unconfigured_set_mismatch" "Unconfigured set mismatch.");
   ("UNCOVERED_OR_MISSING_COLUMNS", line "uncovered_or_missing_columns" "Uncovered or missing columns.");
   ("WHEN_OUTSIDE_SUBSET", line "when_outside_subset" "When outside subset.");
   ("WHEN_PREDICATE_NOT_NATIVE", line "when_predicate_not_native" "When predicate not native.");
   ("WHEN_READS_MASKED_COLUMN", line "when_reads_masked_column" "When reads masked column.")])%string.

Definition route_part1_2 : CatalogPart := (route "decoy_engine.execution._chunked_input",
  [("ELIGIBLE", line "eligible" "Eligible.");
   ("RESIDENT_SOURCE", line "resident_source" "Resident source.")])%string.

Definition route_part1_3 : CatalogPart := (route "decoy_engine.execution._pipeline_auto_chunk",
  [("DISPATCHER_DISABLED", line "dispatcher_disabled" "Dispatcher disabled.")])%string.

Definition route_part1_4 : CatalogPart := (route "decoy_engine.execution._sequential_native",
  [("REMAP_INPUT_NOT_ARROW", line "remap_input_not_arrow" "Remap input not Arrow.");
   ("REMAP_PARENT_STAYS_PYTHON", line "remap_parent_stays_python" "Remap parent stays python.");
   ("SEQUENTIAL_BUCKET_PERTURB_DATE_OUT_OF_NATIVE_RANGE", line "sequential_bucket_perturb_date_out_of_native_range" "Sequential bucket perturb date out of native range.");
   ("SEQUENTIAL_FK_KEY_INJECTIVITY_NOT_GUARANTEED", line "sequential_fk_key_injectivity_not_guaranteed" "Sequential FK key injectivity not guaranteed.")])%string.

Definition route_part1_5 : CatalogPart := (route "decoy_engine.execution._sequential_native_decisions",
  [("NO_NATIVE_BUCKET_CALLS", line "no_native_bucket_calls" "No native bucket calls.");
   ("NO_NATIVE_DATE_SHIFT_CALLS", line "no_native_date_shift_calls" "No native date shift calls.");
   ("NO_ROWS_HASHED", line "no_rows_hashed" "No rows hashed.")])%string.

Definition route_part1_6 : CatalogPart := (route "decoy_engine.execution.out_of_core._bucket_native",
  [("BUCKET_PERTURB_CONFIG_DECLINED", line "bucket_perturb_config_declined" "Bucket perturb config declined.");
   ("BUCKET_PERTURB_SOURCE_NOT_STRING", line "bucket_perturb_source_not_string" "Bucket perturb source not string.");
   ("INDEX_EXTENSION_UNAVAILABLE", line "index_extension_unavailable" "Index extension unavailable.");
   ("NO_NATIVE_KERNEL_CALLS", line "no_native_kernel_calls" "No native kernel calls.")])%string.

Definition route_part1_7 : CatalogPart := (route "decoy_engine.execution.out_of_core._categorical_native",
  [("CATEGORICAL_SOURCE_NOT_STRING", line "categorical_source_not_string" "Categorical source not string.")])%string.

Definition route_part1_8 : CatalogPart := (route "decoy_engine.execution.out_of_core._fpe_native",
  [("FPE_EXTENSION_UNAVAILABLE", line "fpe_extension_unavailable" "FPE extension unavailable.")])%string.

Definition route_part1_9 : CatalogPart := (route "decoy_engine.execution.out_of_core._hash_native",
  [("CRYPTO_EXTENSION_UNAVAILABLE", line "crypto_extension_unavailable" "Crypto extension unavailable.");
   ("HASH_INPUT_TYPE_NOT_NATIVE_ADMITTED", line "hash_input_type_not_native_admitted" "Hash input type not native admitted.");
   ("HASH_INPUT_TYPE_TZ_TIMESTAMP_DEFERRED", line "hash_input_type_tz_timestamp_deferred" "Hash input type timezone timestamp deferred.")])%string.

Definition route_part1_10 : CatalogPart := (route "decoy_engine.execution.out_of_core._text_mask_native",
  [("TEXT_MASK_EXTENSION_UNAVAILABLE", line "text_mask_extension_unavailable" "Text mask extension unavailable.")])%string.

Definition route_part1_11 : CatalogPart := (route "decoy_engine.execution.out_of_core._text_redact_native",
  [("TEXT_REDACT_EXTENSION_UNAVAILABLE", line "text_redact_extension_unavailable" "Text redact extension unavailable.")])%string.

Definition route_part1_12 : CatalogPart := (route "decoy_engine.execution.physical._reasons",
  [("BYTE_ESTIMATE_BOUNDED_OUT_OF_CORE", line "byte_estimate_bounded_out_of_core" "Byte estimate bounded out of core.");
   ("BYTE_ESTIMATE_FULL_FRAME_FITS", line "byte_estimate_full_frame_fits" "Byte estimate full frame fits.");
   ("CHUNKED_ADMITTED", line "chunked_admitted" "Chunked admitted.");
   ("CHUNKED_EXTRA_SOURCE_FRAME", line "chunked_extra_source_frame" "Chunked extra source frame.");
   ("CHUNKED_LAZY_SOURCE_UNSUPPORTED", line "chunked_lazy_source_unsupported" "Chunked lazy source unsupported.");
   ("CHUNKED_SOURCE_BELOW_THRESHOLD", line "chunked_source_below_threshold" "Chunked source below threshold.");
   ("CHUNKED_SOURCE_DTYPE_UNSTABLE", line "chunked_source_dtype_unstable" "Chunked source dtype unstable.");
   ("CHUNKED_SOURCE_FRAME_MISSING", line "chunked_source_frame_missing" "Chunked source frame missing.");
   ("CROSS_TABLE_CYCLE", line "cross_table_cycle" "Cross table cycle.");
   ("FIDELITY_REPORT_REQUESTED", line "fidelity_report_requested" "Fidelity report requested.");
   ("FORCED_OUT_OF_CORE_INCOMPATIBLE", line "forced_out_of_core_incompatible" "Forced out of core incompatible.");
   ("FORCED_OUT_OF_CORE_INELIGIBLE", line "forced_out_of_core_ineligible" "Forced out of core ineligible.");
   ("FORCED_OUT_OF_CORE_NO_MASK_TABLE", line "forced_out_of_core_no_mask_table" "Forced out of core no mask table.");
   ("FORCED_SEQUENTIAL_CYCLIC", line "forced_sequential_cyclic" "Forced sequential cyclic.");
   ("FORCED_SEQUENTIAL_INELIGIBLE", line "forced_sequential_ineligible" "Forced sequential ineligible.");
   ("FORCED_SEQUENTIAL_NO_MASK_TABLE", line "forced_sequential_no_mask_table" "Forced sequential no mask table.");
   ("FPE_JOIN_GROUP", line "fpe_join_group" "FPE join group.");
   ("GENERATE_PLUS_MASK", line "generate_plus_mask" "Generate plus mask.");
   ("GENERATE_TABLES_PRESENT", line "generate_tables_present" "Generate tables present.");
   ("INVALID_SUBSTRATE", line "invalid_substrate" "Invalid substrate.");
   ("LAZY_SOURCE_NULL_COUNT_UNAVAILABLE", line "lazy_source_null_count_unavailable" "Lazy source null count unavailable.");
   ("MASKS_ONE_TABLE_PER_RUN", line "masks_one_table_per_run" "Masks one table per run.");
   ("NO_MASK_TABLES", line "no_mask_tables" "No mask tables.");
   ("NO_RELATIONSHIP_ROUTE", line "no_relationship_route" "No relationship route.");
   ("NO_RELATIONSHIPS", line "no_relationships" "No relationships.");
   ("NON_PANDAS_SUBSTRATE_REQUESTED", line "non_pandas_substrate_requested" "Non pandas substrate requested.");
   ("NON_SCALAR_COMPOSITE", line "non_scalar_composite" "Non scalar composite.");
   ("OUT_OF_CORE_BELOW_THRESHOLD", line "out_of_core_below_threshold" "Out of core below threshold.");
   ("OUT_OF_CORE_CROSS_TABLE_CYCLE", line "out_of_core_cross_table_cycle" "Out of core cross table cycle.");
   ("OUT_OF_CORE_FK_KEY_DTYPE_HAZARD", line "out_of_core_fk_key_dtype_hazard" "Out of core FK key dtype hazard.");
   ("OUT_OF_CORE_INCOMPATIBLE", line "out_of_core_incompatible" "Out of core incompatible.");
   ("OUT_OF_CORE_LARGE_FK", line "out_of_core_large_fk" "Out of core large FK.");
   ("OUT_OF_CORE_NO_MASK_TABLE", line "out_of_core_no_mask_table" "Out of core no mask table.");
   ("OUT_OF_CORE_NO_SIZE_SIGNAL", line "out_of_core_no_size_signal" "Out of core no size signal.");
   ("OUT_OF_CORE_READY", line "out_of_core_ready" "Out of core ready.");
   ("OVERRIDE_FULL_FRAME", line "override_full_frame" "Override full frame.");
   ("OVERRIDE_OUT_OF_CORE", line "override_out_of_core" "Override out of core.");
   ("PROBE_RECOVERED_FULL_FRAME", line "probe_recovered_full_frame" "Probe recovered full frame.");
   ("PURE_MASK_FK", line "pure_mask_fk" "Pure mask FK.");
   ("RELATIONSHIP_ROUTE_DEFERRED", line "relationship_route_deferred" "Relationship route deferred.");
   ("VALIDATORS_PRESENT", line "validators_present" "Validators present.");
   ("VAULT_WRITER_REQUESTED", line "vault_writer_requested" "Vault writer requested.")])%string.

Definition route_part1_13 : CatalogPart := (route "decoy_engine.execution.physical._shadow_bindings",
  [("SLICE_NATIVE_ADMITTED", line "slice_native_admitted" "Slice native admitted.")])%string.

Definition route_part1_14 : CatalogPart := (route "decoy_engine.generation._reproducibility",
  [("CLOCK_DEPENDENT_WITHOUT_CONTROLLED_CLOCK", line "clock_dependent_without_controlled_clock" "Clock dependent without controlled clock.");
   ("CUSTOM_PROVIDER_WITHOUT_DETERMINISTIC_CONTRACT", line "custom_provider_without_deterministic_contract" "Custom provider without deterministic contract.");
   ("DEPENDS_ON_EXCLUDED_COLUMN", line "depends_on_excluded_column" "Depends on excluded column.");
   ("DETERMINISM_FRESH", line "determinism_fresh" "Determinism fresh.")])%string.

Definition route_retired_1 : CatalogPart := (route "decoy_engine.execution._pipeline_routing",
  [("RUN_STORM_REQUESTED", MkLine "run_storm_requested" "The STORM post-mask checks need the full frame resident." None None None None None None [] "1.0.0" (Some (py "1.0.0")) (Some (py "route", py "post_scan_integrity_requested")))])%string.

Definition route_retired_2 : CatalogPart := (route "decoy_engine.execution._chunked_output_sink",
  [("RUN_STORM", MkLine "run_storm" "Resident output required by the requested STORM post-mask checks." None None None None None None [] "1.0.0" (Some (py "1.0.0")) (Some (py "route", py "post_scan_integrity")))])%string.

Definition route_sink_1 : CatalogPart := (route "decoy_engine.execution._chunked_output_sink",
  [("STREAMING_DISABLED", line "streaming_disabled" "Streamed chunked output is disabled for this run.");
   ("NO_SINK", line "no_sink" "No output sink was supplied, so the output stays resident.");
   ("SINK_NOT_STREAMING", line "sink_not_streaming" "The output sink cannot accept streamed batches.");
   ("LEGACY_LANE", line "legacy_lane" "The legacy chunked lane keeps its output resident.");
   ("SPLIT_FULL_FRAME_PRESENT", line "split_full_frame_present" "A multi-table split keeps a full-frame table, so output stays resident.");
   ("SPLIT_EXTRA_SOURCES_PRESENT", line "split_extra_sources_present" "A resident source is not part of the dispatched split, so output stays resident.");
   ("QUARANTINE_ENABLED", line "quarantine_enabled" "Quarantine reads the whole output after the mask step.");
   ("FIDELITY_REPORT", line "fidelity_report" "The fidelity report reads the whole output after the mask step.");
   ("POST_VALIDATION", line "post_validation" "Post-validation reads the whole output after the mask step.");
   ("POST_SCAN_INTEGRITY", line "post_scan_integrity" "Resident output required by the requested Post-scan integrity checks.")])%string.
