(* ===== verification/Catalog3.v ===== *)
(** * The reason catalog: the run-time, safe-output, subset, verification and warning sections (reasons/runtime/, reasons/safe_output/, reasons/subset/, reasons/verification/, reasons/warning/)

    Each part is one block of a catalog module: the profile it declares with and its
    lines, each under the module attribute it is assigned to. *)

From S2P Require Import Prelude PyText PyData Reasons Catalog1.

Definition runtime_f06_1 : CatalogPart := (runtime "decoy_engine.declared_casting",
  [("DECLARED_INTEGER_INVALID", MkLine "declared_integer_invalid" "A value does not match the declared integer grammar." None None (Some [MASK; FINALIZE; UNKNOWN]) None None (Some NEVER) [] "1.4.0" None None);
   ("DECLARED_INTEGER_OVERFLOW", MkLine "declared_integer_overflow" "A value is outside the declared integer range." None None (Some [MASK; FINALIZE; UNKNOWN]) None None (Some NEVER) [] "1.4.0" None None);
   ("DECLARED_DECIMAL_INVALID", MkLine "declared_decimal_invalid" "A value does not match the declared decimal grammar." None None (Some [MASK; FINALIZE; UNKNOWN]) None None (Some NEVER) [] "1.4.0" None None);
   ("DECLARED_DECIMAL_PRECISION_LOSS", MkLine "declared_decimal_precision_loss" "A value would lose digits under the declared decimal scale." None None (Some [MASK; FINALIZE; UNKNOWN]) None None (Some NEVER) [] "1.4.0" None None);
   ("DECLARED_DECIMAL_OVERFLOW", MkLine "declared_decimal_overflow" "A value exceeds the declared decimal precision." None None (Some [MASK; FINALIZE; UNKNOWN]) None None (Some NEVER) [] "1.4.0" None None);
   ("DECLARED_DATE_INVALID", MkLine "declared_date_invalid" "A value is not a valid date under the declared format." None None (Some [MASK; FINALIZE; UNKNOWN]) None None (Some NEVER) [] "1.4.0" None None);
   ("DECLARED_CURRENCY_INVALID", MkLine "declared_currency_invalid" "A value does not match the declared currency format." None None (Some [MASK; FINALIZE; UNKNOWN]) None None (Some NEVER) [] "1.4.0" None None);
   ("DECLARED_COBOL_INVALID", MkLine "declared_cobol_invalid" "A value does not match the declared COBOL field encoding." None None (Some [MASK; FINALIZE; UNKNOWN]) None None (Some NEVER) [] "1.4.0" None None);
   ("DECLARED_OUTPUT_WIDTH_OVERFLOW", MkLine "declared_output_width_overflow" "A rendered value exceeds the declared output width." None None (Some [MASK; FINALIZE; UNKNOWN]) None None (Some NEVER) [] "1.4.0" None None);
   ("FIXED_WIDTH_RECORD_OVERLONG", MkLine "fixed_width_record_overlong" "A fixed-width record is longer than the layout's declared record width." None None (Some [RESOLVE; UNKNOWN]) None None (Some NEVER) [] "1.4.0" None None);
   ("PROTECTED_QUARANTINE_WRITE_FAILED", MkLine "protected_quarantine_write_failed" "A row could not be written to the protected quarantine store." None None (Some [FINALIZE; PUBLISH; UNKNOWN]) None None (Some ENVIRONMENT_REPAIR) [] "1.4.0" None None);
   ("PROTECTED_QUARANTINE_SEAL_FAILED", MkLine "protected_quarantine_seal_failed" "The protected quarantine artifact could not be sealed." None None (Some [FINALIZE; PUBLISH; UNKNOWN]) None None (Some ENVIRONMENT_REPAIR) [] "1.4.0" None None);
   ("PROTECTED_QUARANTINE_CLEANUP_FAILED", MkLine "protected_quarantine_cleanup_failed" "A sealed protected quarantine artifact of a failed run could not be removed and needs reconciliation." None None (Some [CLEANUP; FINALIZE; UNKNOWN]) None None (Some ENVIRONMENT_REPAIR) [] "1.4.0" None None);
   ("PROTECTED_QUARANTINE_ACCESS_DENIED", MkLine "protected_quarantine_access_denied" "Access to the protected quarantine artifact was denied." None None (Some [FINALIZE; UNKNOWN]) None None (Some NEVER) [] "1.4.0" None None);
   ("PROTECTED_QUARANTINE_EXPIRED", MkLine "protected_quarantine_expired" "The protected quarantine artifact is past its retention period." None None (Some [FINALIZE; UNKNOWN]) None None (Some NEVER) [] "1.4.0" None None)])%string.

Definition runtime_part1_1 : CatalogPart := (runtime "BoundedReadError",
  [("BOUNDED_READ_ERROR", line "bounded_read_error" "Bounded read error.")])%string.

Definition runtime_part1_2 : CatalogPart := (runtime "CryptoExtensionUnavailableError",
  [("CRYPTO_EXT_UNAVAILABLE", line "crypto_ext.unavailable" "Crypto extension unavailable.")])%string.

Definition runtime_part1_3 : CatalogPart := (runtime "CsvMalformed",
  [("CSV_MALFORMED", line "csv_malformed" "CSV malformed.")])%string.

Definition runtime_part1_4 : CatalogPart := (runtime "CsvRecordExceedsMaxRowBytes",
  [("CSV_RECORD_EXCEEDS_MAX_ROW_BYTES", line "csv_record_exceeds_max_row_bytes" "CSV record exceeds max row bytes.")])%string.

Definition runtime_part1_5 : CatalogPart := (runtime "DeterminismError",
  [("NAMESPACE_EMPTY", line "namespace_empty" "Namespace empty.");
   ("POOL_SIZE_INVALID", line "pool_size_invalid" "Pool size invalid.");
   ("POOL_SIZE_OVERFLOW", line "pool_size_overflow" "Pool size overflow.");
   ("SEED_WRONG_LENGTH", line "seed_wrong_length" "Seed wrong length.")])%string.

Definition runtime_part1_6 : CatalogPart := (runtime "DrawSiteProtocolError",
  [("SITE_NOT_PARTITIONABLE", line "site_not_partitionable" "Site not partitionable.");
   ("SITE_NOT_REPRODUCIBLE", line "site_not_reproducible" "Site not reproducible.")])%string.

Definition runtime_part1_7 : CatalogPart := (runtime "ExecutionError",
  [("CAPACITY_SOURCE_UNPROFILABLE", line "capacity_source_unprofilable" "Capacity source unprofilable.");
   ("CHUNKED_FAKER_DETERMINISTIC_POOL_NOT_STRING", line "chunked_faker_deterministic_pool_not_string" "Chunked Faker deterministic pool not string.");
   ("CHUNKED_FAKER_NONDETERMINISTIC_POOL_NOT_STRING", line "chunked_faker_nondeterministic_pool_not_string" "Chunked Faker nondeterministic pool not string.");
   ("CHUNKED_FK_DECLARED_DTYPE_MISMATCH", line "chunked_fk_declared_dtype_mismatch" "Chunked FK declared dtype mismatch.");
   ("CHUNKED_FK_KEY_DTYPE_NOT_CROSS_ADAPTER_SAFE", line "chunked_fk_key_dtype_not_cross_adapter_safe" "Chunked FK key dtype not cross adapter safe.");
   ("CHUNKED_LEADING_NULL_TYPE", line "chunked_leading_null_type" "Chunked leading null type.");
   ("CHUNKED_PASSTHROUGH_VALUE_UNREPRESENTABLE", line "chunked_passthrough_value_unrepresentable" "Chunked passthrough value unrepresentable.");
   ("CHUNKED_ROUTE_EVIDENCE_INCONSISTENT", line "chunked_route_evidence_inconsistent" "Chunked route evidence inconsistent.");
   ("CHUNKED_ROUTE_EVIDENCE_MIXED_TABLES", line "chunked_route_evidence_mixed_tables" "Chunked route evidence mixed tables.");
   ("CHUNKED_ROW_OFFSET_OUT_OF_DOMAIN", line "chunked_row_offset_out_of_domain" "Chunked row offset out of domain.");
   ("CHUNKED_SCHEMA_MISMATCH", line "chunked_schema_mismatch" "Chunked schema mismatch.");
   ("COMPOSITE_CUSTOM_BUNDLE_SHAPE", line "composite_custom_bundle_shape" "Composite custom bundle shape.");
   ("COMPOSITE_FK_GROUP_NO_EDGE", line "composite_fk_group_no_edge" "Composite FK group no edge.");
   ("COMPOSITE_NAMESPACE_UNRESOLVED", line "composite_namespace_unresolved" "Composite namespace unresolved.");
   ("COMPOSITE_OUTPUT_COLUMN_MISSING", line "composite_output_column_missing" "Composite output column missing.");
   ("CYCLIC_WORK_ORDERING", line "cyclic_work_ordering" "Cyclic work ordering.");
   ("FK_FULL_FRAME_OOM_RISK_REJECTED", line "fk_full_frame_oom_risk_rejected" "FK full frame OOM risk rejected.");
   ("FK_FULL_FRAME_OOM_RISK_REJECTED_ESTIMATED", line "fk_full_frame_oom_risk_rejected_estimated" "FK full frame OOM risk rejected estimated.");
   ("FPE_CHARSET_DEGENERATE", line "fpe_charset_degenerate" "FPE charset degenerate.");
   ("FPE_CHARSET_DUPLICATE_SYMBOLS", line "fpe_charset_duplicate_symbols" "FPE charset duplicate symbols.");
   ("FPE_REQUIRES_NAMESPACE", line "fpe_requires_namespace" "FPE requires namespace.");
   ("FULL_FRAME_VALUE_UNREPRESENTABLE", line "full_frame_value_unrepresentable" "Full frame value unrepresentable.");
   ("GATED_HASH_ON_INTEGER_UNSUPPORTED", line "gated_hash_on_integer_unsupported" "Gated hash on integer unsupported.");
   ("GATED_STRING_OUTPUT_ON_NUMERIC_UNSUPPORTED", line "gated_string_output_on_numeric_unsupported" "Gated string output on numeric unsupported.");
   ("HASH_REQUIRES_NAMESPACE", line "hash_requires_namespace" "Hash requires namespace.");
   ("HOLD_BACK_SPILL_UNAVAILABLE", line "hold_back_spill_unavailable" "Hold back spill unavailable.");
   ("INTERNAL_PUBLISH_NOT_COMMITTED", line "internal_publish_not_committed" "Internal publish not committed.");
   ("INVALID_EXECUTION_KNOB", line "invalid_execution_knob" "Invalid execution knob.");
   ("INVALID_NATIVE_THREADS", line "invalid_native_threads" "Invalid native threads.");
   ("LAZY_SOURCE_CHANGED", line "lazy_source_changed" "Lazy source changed.");
   ("LAZY_SOURCE_ROW_COUNT_MISMATCH", line "lazy_source_row_count_mismatch" "Lazy source row count mismatch.");
   ("MIXED_KEY_PAYLOAD_MISALIGNED", line "mixed_key_payload_misaligned" "Mixed key payload misaligned.");
   ("MULTI_TABLE_RESULT_HAS_NO_SINGLE_OUTPUT", line "multi_table_result_has_no_single_output" "Multi table result has no single output.");
   ("NULL_BEARING_INT_UNSUPPORTED", line "null_bearing_int_unsupported" "Null bearing int unsupported.");
   ("ORPHAN_FK_VIOLATION", line "orphan_fk_violation" "Orphan FK violation.");
   ("ORPHAN_POLICY_CONFLICT", line "orphan_policy_conflict" "Orphan policy conflict.");
   ("ORPHAN_REMAP_PARENT_MISSING", line "orphan_remap_parent_missing" "Orphan remap parent missing.");
   ("OUT_OF_CORE_BACKEND_UNAVAILABLE", line "out_of_core_backend_unavailable" "Out of core backend unavailable.");
   ("OUT_OF_CORE_BATCH_ROWS_INVALID", line "out_of_core_batch_rows_invalid" "Out of core batch rows invalid.");
   ("OUT_OF_CORE_BUCKET_PERTURB_AUTODETECT_UNSUPPORTED", line "out_of_core_bucket_perturb_autodetect_unsupported" "Out of core bucket perturb autodetect unsupported.");
   ("OUT_OF_CORE_BUCKET_PERTURB_COLUMN_MISSING", line "out_of_core_bucket_perturb_column_missing" "Out of core bucket perturb column missing.");
   ("OUT_OF_CORE_BUCKET_PERTURB_DATE_OUT_OF_NATIVE_RANGE", line "out_of_core_bucket_perturb_date_out_of_native_range" "Out of core bucket perturb date out of native range.");
   ("OUT_OF_CORE_BUCKET_PERTURB_SOURCE_TYPE_DRIFT", line "out_of_core_bucket_perturb_source_type_drift" "Out of core bucket perturb source type drift.");
   ("OUT_OF_CORE_BUDGET_INVALID", line "out_of_core_budget_invalid" "Out of core budget invalid.");
   ("OUT_OF_CORE_CATEGORICAL_COLUMN_MISSING", line "out_of_core_categorical_column_missing" "Out of core categorical column missing.");
   ("OUT_OF_CORE_CATEGORICAL_NONDETERMINISTIC_UNSUPPORTED", line "out_of_core_categorical_nondeterministic_unsupported" "Out of core categorical nondeterministic unsupported.");
   ("OUT_OF_CORE_CATEGORICAL_SOURCE_TYPE_DRIFT", line "out_of_core_categorical_source_type_drift" "Out of core categorical source type drift.");
   ("OUT_OF_CORE_CATEGORICAL_UNPREPARED", line "out_of_core_categorical_unprepared" "Out of core categorical unprepared.");
   ("OUT_OF_CORE_CHILD_COLUMN_MISSING", line "out_of_core_child_column_missing" "Out of core child column missing.");
   ("OUT_OF_CORE_CHILD_KEY_TYPES_MISMATCH", line "out_of_core_child_key_types_mismatch" "Out of core child key types mismatch.");
   ("OUT_OF_CORE_CODE_SET_ROW_ERROR_UNREACHABLE", line "out_of_core_code_set_row_error_unreachable" "Out of core code set row error unreachable.");
   ("OUT_OF_CORE_CODE_SET_SHAPE_UNSUPPORTED", line "out_of_core_code_set_shape_unsupported" "Out of core code set shape unsupported.");
   ("OUT_OF_CORE_CONCURRENCY_INVALID", line "out_of_core_concurrency_invalid" "Out of core concurrency invalid.");
   ("OUT_OF_CORE_FAKER_COLUMN_MISSING", line "out_of_core_faker_column_missing" "Out of core Faker column missing.");
   ("OUT_OF_CORE_FAKER_INDEX_UNAVAILABLE", line "out_of_core_faker_index_unavailable" "Out of core Faker index unavailable.");
   ("OUT_OF_CORE_FAKER_POOL_BUDGET_EXCEEDED", line "out_of_core_faker_pool_budget_exceeded" "Out of core Faker pool budget exceeded.");
   ("OUT_OF_CORE_FAKER_POOL_BUDGET_INVALID", line "out_of_core_faker_pool_budget_invalid" "Out of core Faker pool budget invalid.");
   ("OUT_OF_CORE_FAKER_POOL_SIZE_INVALID", line "out_of_core_faker_pool_size_invalid" "Out of core Faker pool size invalid.");
   ("OUT_OF_CORE_FAKER_POOL_UNSUPPORTED", line "out_of_core_faker_pool_unsupported" "Out of core Faker pool unsupported.");
   ("OUT_OF_CORE_FAKER_SOURCE_TYPE_DRIFT", line "out_of_core_faker_source_type_drift" "Out of core Faker source type drift.")])%string.

Definition runtime_part1_8 : CatalogPart := (runtime "ExecutionError",
  [("OUT_OF_CORE_FAKER_SOURCE_TYPE_UNSUPPORTED", line "out_of_core_faker_source_type_unsupported" "Out of core Faker source type unsupported.");
   ("OUT_OF_CORE_FAKER_UNPREPARED", line "out_of_core_faker_unprepared" "Out of core Faker unprepared.");
   ("OUT_OF_CORE_FANIN_EXCEEDS_BUDGET", line "out_of_core_fanin_exceeds_budget" "Out of core fanin exceeds budget.");
   ("OUT_OF_CORE_FK_JOIN_PLAN_UNVERIFIED", line "out_of_core_fk_join_plan_unverified" "Out of core FK join plan unverified.");
   ("OUT_OF_CORE_FK_KEY_DTYPE_UNSUPPORTED", line "out_of_core_fk_key_dtype_unsupported" "Out of core FK key dtype unsupported.");
   ("OUT_OF_CORE_FK_REORDER_CONTIGUITY", line "out_of_core_fk_reorder_contiguity" "Out of core FK reorder contiguity.");
   ("OUT_OF_CORE_FK_ROW_ALIGNMENT", line "out_of_core_fk_row_alignment" "Out of core FK row alignment.");
   ("OUT_OF_CORE_FPE_COLUMN_MISSING", line "out_of_core_fpe_column_missing" "Out of core FPE column missing.");
   ("OUT_OF_CORE_FPE_COLUMN_REQUIRED", line "out_of_core_fpe_column_required" "Out of core FPE column required.");
   ("OUT_OF_CORE_FPE_NATIVE_RESULT_INVALID", line "out_of_core_fpe_native_result_invalid" "Out of core FPE native result invalid.");
   ("OUT_OF_CORE_FPE_SOURCE_TYPE_DRIFT", line "out_of_core_fpe_source_type_drift" "Out of core FPE source type drift.");
   ("OUT_OF_CORE_FPE_UNPREPARED", line "out_of_core_fpe_unprepared" "Out of core FPE unprepared.");
   ("OUT_OF_CORE_HASH_COLUMN_MISSING", line "out_of_core_hash_column_missing" "Out of core hash column missing.");
   ("OUT_OF_CORE_HASH_INPUT_TYPE_DRIFT", line "out_of_core_hash_input_type_drift" "Out of core hash input type drift.");
   ("OUT_OF_CORE_HASH_NATIVE_RESULT_INVALID", line "out_of_core_hash_native_result_invalid" "Out of core hash native result invalid.");
   ("OUT_OF_CORE_INSUFFICIENT_MEMORY", MkLine "out_of_core_insufficient_memory" "Out of core insufficient memory." None None None None None (Some ENVIRONMENT_REPAIR) [] "1.0.0" None None);
   ("OUT_OF_CORE_MEMORY_DETECTION_FAILED", MkLine "out_of_core_memory_detection_failed" "Out of core memory detection failed." None None None None None (Some ENVIRONMENT_REPAIR) [] "1.0.0" None None);
   ("OUT_OF_CORE_PARENT_COLUMN_MISSING", line "out_of_core_parent_column_missing" "Out of core parent column missing.");
   ("OUT_OF_CORE_PARENT_ROWS_UNRESOLVED", line "out_of_core_parent_rows_unresolved" "Out of core parent rows unresolved.");
   ("OUT_OF_CORE_PARENT_SEED_MISSING", line "out_of_core_parent_seed_missing" "Out of core parent seed missing.");
   ("OUT_OF_CORE_PARENT_STRATEGY_UNSUPPORTED", line "out_of_core_parent_strategy_unsupported" "Out of core parent strategy unsupported.");
   ("OUT_OF_CORE_PREDICTED_SPILL_BYTES_INVALID", line "out_of_core_predicted_spill_bytes_invalid" "Out of core predicted spill bytes invalid.");
   ("OUT_OF_CORE_REJECTED", line "out_of_core_rejected" "Out of core rejected.");
   ("OUT_OF_CORE_RELATIONSHIP_CYCLE", line "out_of_core_relationship_cycle" "Out of core relationship cycle.");
   ("OUT_OF_CORE_REMAP_SEEDS_MISSING", line "out_of_core_remap_seeds_missing" "Out of core remap seeds missing.");
   ("OUT_OF_CORE_REMAP_VALUES_MISSING", line "out_of_core_remap_values_missing" "Out of core remap values missing.");
   ("OUT_OF_CORE_REORDER_BUDGET_TOO_SMALL", line "out_of_core_reorder_budget_too_small" "Out of core reorder budget too small.");
   ("OUT_OF_CORE_REORDER_DISK_BUDGET_INVALID", line "out_of_core_reorder_disk_budget_invalid" "Out of core reorder disk budget invalid.");
   ("OUT_OF_CORE_REORDER_FAN_IN_INVALID", line "out_of_core_reorder_fan_in_invalid" "Out of core reorder fan in invalid.");
   ("OUT_OF_CORE_REORDER_HEAD_FIT_INVALID", line "out_of_core_reorder_head_fit_invalid" "Out of core reorder head fit invalid.")])%string.

Definition runtime_part2_1 : CatalogPart := (runtime "ExecutionError",
  [("OUT_OF_CORE_REORDER_THRESHOLD_INVALID", line "out_of_core_reorder_threshold_invalid" "Out of core reorder threshold invalid.");
   ("OUT_OF_CORE_REORDER_UNBUDGETED", line "out_of_core_reorder_unbudgeted" "Out of core reorder unbudgeted.");
   ("OUT_OF_CORE_RESERVED_BYTES_INVALID", line "out_of_core_reserved_bytes_invalid" "Out of core reserved bytes invalid.");
   ("OUT_OF_CORE_SORT_INVALID_STATE", line "out_of_core_sort_invalid_state" "Out of core sort invalid state.");
   ("OUT_OF_CORE_SORT_KEY_MISSING", line "out_of_core_sort_key_missing" "Out of core sort key missing.");
   ("OUT_OF_CORE_SORT_KEY_NULL", line "out_of_core_sort_key_null" "Out of core sort key null.");
   ("OUT_OF_CORE_SORT_KEY_TYPE_DRIFT", line "out_of_core_sort_key_type_drift" "Out of core sort key type drift.");
   ("OUT_OF_CORE_SORT_KEY_TYPE_UNSUPPORTED", line "out_of_core_sort_key_type_unsupported" "Out of core sort key type unsupported.");
   ("OUT_OF_CORE_SORT_ROW_INDEX_UNBOUNDED", line "out_of_core_sort_row_index_unbounded" "Out of core sort row index unbounded.");
   ("OUT_OF_CORE_SORT_ROW_TOO_WIDE", line "out_of_core_sort_row_too_wide" "Out of core sort row too wide.");
   ("OUT_OF_CORE_SORTER_SCHEMA_NOT_SLIM", line "out_of_core_sorter_schema_not_slim" "Out of core sorter schema not slim.");
   ("OUT_OF_CORE_SOURCE_MISSING", line "out_of_core_source_missing" "Out of core source missing.");
   ("OUT_OF_CORE_SOURCE_SCHEMA_REQUIRED", line "out_of_core_source_schema_required" "Out of core source schema required.");
   ("OUT_OF_CORE_STRATEGY_UNSUPPORTED", line "out_of_core_strategy_unsupported" "Out of core strategy unsupported.");
   ("OUT_OF_CORE_TEMP_DISK_EXCEEDED", line "out_of_core_temp_disk_exceeded" "Out of core temp disk exceeded.");
   ("OUT_OF_CORE_TEXT_MASK_COLUMN_MISSING", line "out_of_core_text_mask_column_missing" "Out of core text mask column missing.");
   ("OUT_OF_CORE_TEXT_MASK_NATIVE_RESULT_INVALID", line "out_of_core_text_mask_native_result_invalid" "Out of core text mask native result invalid.");
   ("OUT_OF_CORE_TEXT_MASK_SOURCE_TYPE_DRIFT", line "out_of_core_text_mask_source_type_drift" "Out of core text mask source type drift.");
   ("OUT_OF_CORE_TEXT_MASK_UNPREPARED", line "out_of_core_text_mask_unprepared" "Out of core text mask unprepared.");
   ("OUT_OF_CORE_TEXT_REDACT_COLUMN_MISSING", line "out_of_core_text_redact_column_missing" "Out of core text redact column missing.");
   ("OUT_OF_CORE_TEXT_REDACT_NATIVE_RESULT_INVALID", line "out_of_core_text_redact_native_result_invalid" "Out of core text redact native result invalid.");
   ("OUT_OF_CORE_TEXT_REDACT_SOURCE_TYPE_DRIFT", line "out_of_core_text_redact_source_type_drift" "Out of core text redact source type drift.");
   ("OUT_OF_CORE_TEXT_REDACT_UNPREPARED", line "out_of_core_text_redact_unprepared" "Out of core text redact unprepared.");
   ("OUT_OF_CORE_VALIDATORS_NOT_ADMITTED", line "out_of_core_validators_not_admitted" "Out of core validators not admitted.");
   ("OUT_OF_CORE_VAULT_CONFIG_REQUIRED", line "out_of_core_vault_config_required" "Out of core vault config required.");
   ("RELATIONSHIP_CYCLE", line "relationship_cycle" "Relationship cycle.");
   ("RUN_SINGLE_REQUIRES_TABLE", line "run_single_requires_table" "Run single requires table.");
   ("SEQUENTIAL_BUCKET_PERTURB_INPUT_TYPE_DRIFT", line "sequential_bucket_perturb_input_type_drift" "Sequential bucket perturb input type drift.");
   ("SEQUENTIAL_CATEGORICAL_INPUT_TYPE_DRIFT", line "sequential_categorical_input_type_drift" "Sequential categorical input type drift.");
   ("SEQUENTIAL_COMPOSITE_FK_CHAIN_UNSUPPORTED", line "sequential_composite_fk_chain_unsupported" "Sequential composite FK chain unsupported.");
   ("SEQUENTIAL_DATE_SHIFT_INPUT_TYPE_DRIFT", line "sequential_date_shift_input_type_drift" "Sequential date shift input type drift.");
   ("SEQUENTIAL_FAKER_INPUT_TYPE_DRIFT", line "sequential_faker_input_type_drift" "Sequential Faker input type drift.");
   ("SEQUENTIAL_FPE_INPUT_TYPE_DRIFT", line "sequential_fpe_input_type_drift" "Sequential FPE input type drift.");
   ("SEQUENTIAL_FPE_KEY_INTEGER_NOT_PRESERVED", line "sequential_fpe_key_integer_not_preserved" "Sequential FPE key integer not preserved.");
   ("SEQUENTIAL_FPE_NATIVE_RESULT_INVALID", line "sequential_fpe_native_result_invalid" "Sequential FPE native result invalid.");
   ("SEQUENTIAL_GROUP_KEY_INPUT_TYPE_DRIFT", line "sequential_group_key_input_type_drift" "Sequential group key input type drift.");
   ("SEQUENTIAL_HASH_INPUT_TYPE_DRIFT", line "sequential_hash_input_type_drift" "Sequential hash input type drift.");
   ("SEQUENTIAL_TEXT_MASK_INPUT_TYPE_DRIFT", line "sequential_text_mask_input_type_drift" "Sequential text mask input type drift.");
   ("SEQUENTIAL_TEXT_REDACT_INPUT_TYPE_DRIFT", line "sequential_text_redact_input_type_drift" "Sequential text redact input type drift.");
   ("SPLIT_SINK_NEEDS_ALL_DISPATCHED", line "split_sink_needs_all_dispatched" "Split sink needs all dispatched.");
   ("TRANSFORM_SOURCE_MISSING", line "transform_source_missing" "Transform source missing.");
   ("UNDECLARED_OUTPUT_COLUMNS", line "undeclared_output_columns" "Undeclared output columns.");
   ("UNSUPPORTED_STRATEGY", line "unsupported_strategy" "Unsupported strategy.")])%string.

Definition runtime_part2_2 : CatalogPart := (runtime "FpeChecksumError",
  [("FPE__CHECKSUM_INVALID_SOURCE", MkLine "fpe.checksum_invalid_source" "FPE checksum invalid source." (Some (py "FPE__CHECKSUM_INVALID_SOURCE")) None None None None None [] "1.0.0" None None);
   ("FPE_CHECKSUM_UNSUPPORTED", line "fpe.checksum_unsupported" "FPE checksum unsupported.")])%string.

Definition runtime_part2_3 : CatalogPart := (runtime "FpeConfigError",
  [("FPE_CONFIG_INVALID", line "fpe.config_invalid" "FPE config invalid.")])%string.

Definition runtime_part2_4 : CatalogPart := (runtime "FpeUnencryptableError",
  [("FPE_UNENCRYPTABLE", line "fpe.unencryptable" "FPE unencryptable.");
   ("FPE__UNENCRYPTABLE_DOMAIN", MkLine "fpe.unencryptable_domain" "FPE unencryptable domain." (Some (py "FPE__UNENCRYPTABLE_DOMAIN")) None None None None None [] "1.0.0" None None);
   ("FPE__UNENCRYPTABLE_LENGTH", MkLine "fpe.unencryptable_length" "FPE unencryptable length." (Some (py "FPE__UNENCRYPTABLE_LENGTH")) None None None None None [] "1.0.0" None None)])%string.

Definition runtime_part2_5 : CatalogPart := (runtime "GenerationBudgetExceeded",
  [("GENERATION_BUDGET_EXCEEDED", line "generation_budget_exceeded" "Generation budget exceeded.");
   ("VALUE_EXCEEDS_DECLARED_BOUND", line "value_exceeds_declared_bound" "Value exceeds declared bound.")])%string.

Definition runtime_part2_6 : CatalogPart := (runtime "GenerationError",
  [("BUCKET_PERTURB_UNRECOGNIZED_BUCKET", line "bucket_perturb_unrecognized_bucket" "Bucket perturb unrecognized bucket.");
   ("BUNDLE_MISSING_OUTPUT_COLUMNS", line "bundle_missing_output_columns" "Bundle missing output columns.");
   ("CARDINALITY_TARGET_EXCEEDS_POOL", line "cardinality_target_exceeds_pool" "Cardinality target exceeds pool.");
   ("DETERMINISTIC_MODE_UNSUPPORTED_CARDINALITY", line "deterministic_mode_unsupported_cardinality" "Deterministic mode unsupported cardinality.");
   ("DETERMINISTIC_REQUIRES_SOURCE_AND_NAMESPACE", line "deterministic_requires_source_and_namespace" "Deterministic requires source and namespace.");
   ("EXACT_INT_NULL_MASK_MISMATCH", line "exact_int_null_mask_mismatch" "Exact int null mask mismatch.");
   ("FLOAT_CANONICALIZATION_UNSUPPORTED", line "float_canonicalization_unsupported" "Float canonicalization unsupported.");
   ("INDEX_BATCH_LENGTH_MISMATCH", line "index_batch_length_mismatch" "Index batch length mismatch.");
   ("INDEX_BATCH_NULL_MASK_MISMATCH", line "index_batch_null_mask_mismatch" "Index batch null mask mismatch.");
   ("INDEX_BATCH_OUT_OF_BOUNDS", line "index_batch_out_of_bounds" "Index batch out of bounds.");
   ("INDEX_BATCH_TYPE_MISMATCH", line "index_batch_type_mismatch" "Index batch type mismatch.");
   ("INVALID_SEED_LENGTH", line "invalid_seed_length" "Invalid seed length.");
   ("NATIVE_TYPE_NOT_ADMITTED", line "native_type_not_admitted" "Native type not admitted.");
   ("NULL_CANONICALIZATION_UNREACHABLE", line "null_canonicalization_unreachable" "Null canonicalization unreachable.");
   ("RAW_HEX_BATCH_LENGTH_MISMATCH", line "raw_hex_batch_length_mismatch" "Raw hex batch length mismatch.");
   ("RAW_HEX_BATCH_TYPE_MISMATCH", line "raw_hex_batch_type_mismatch" "Raw hex batch type mismatch.");
   ("RAW_HEX_BATCH_UNEXPECTED_NULL", line "raw_hex_batch_unexpected_null" "Raw hex batch unexpected null.");
   ("SOURCE_LENGTH_MISMATCH", line "source_length_mismatch" "Source length mismatch.");
   ("SOURCE_REQUIRED_FOR_CARDINALITY_MODE", line "source_required_for_cardinality_mode" "Source required for cardinality mode.");
   ("TIMEZONE_NAIVE_DATETIME", line "timezone_naive_datetime" "Timezone naive datetime.");
   ("UNIQUENESS_IMPOSSIBLE", line "uniqueness_impossible" "Uniqueness impossible.");
   ("UNKNOWN_CARDINALITY_MODE", line "unknown_cardinality_mode" "Unknown cardinality mode.")])%string.

Definition runtime_part2_7 : CatalogPart := (runtime "GenerationUnboundedError",
  [("GENERATION_COLUMN_UNBOUNDED", line "generation_column_unbounded" "Generation column unbounded.")])%string.

Definition runtime_part2_8 : CatalogPart := (runtime "GenerationWindowError",
  [("GENERATION_NOT_CLASS_A", line "generation_not_class_a" "Generation not class a.");
   ("GENERATION_TABLE_UNKNOWN", line "generation_table_unknown" "Generation table unknown.");
   ("GENERATION_WINDOW_INVALID", line "generation_window_invalid" "Generation window invalid.")])%string.

Definition runtime_part2_9 : CatalogPart := (runtime "GenerationWindowTimeoutError",
  [("GENERATION_WINDOW_TIMEOUT", line "generation_window_timeout" "Generation window timeout.")])%string.

Definition runtime_part2_10 : CatalogPart := (runtime "KeyedStrategyRequiresSecret",
  [("KEYED_STRATEGY_REQUIRES_SECRET", MkLine "keyed_strategy_requires_secret" "Keyed strategy requires secret." None None (Some [RESOLVE]) None (Some OCONFIGURATION) (Some CONFIGURATION_REPAIR) [] "1.0.0" None None)])%string.

Definition runtime_part2_11 : CatalogPart := (runtime "MaskKeyDerivationError",
  [("MASK_KEY_DERIVATION_FAILED", MkLine "mask.key_derivation_failed" "A per-column mask key could not be derived." None None None None (Some OCONFIGURATION) (Some CONFIGURATION_REPAIR) [] "1.0.0" None None)])%string.

Definition runtime_part2_12 : CatalogPart := (runtime "MaskKeyRequiredError",
  [("MASK_KEY_REQUIRED", MkLine "mask.key_required" "A keyed mask was run with no mask key." None None None None (Some OCONFIGURATION) (Some CONFIGURATION_REPAIR) [] "1.0.0" None None)])%string.

Definition runtime_part2_13 : CatalogPart := (runtime "MaskSecretError",
  [("BAD_SECRET_REF", MkLine "bad_secret_ref" "Bad secret ref." None None (Some [RESOLVE]) None (Some OCONFIGURATION) (Some CONFIGURATION_REPAIR) [] "1.0.0" None None)])%string.

Definition runtime_part2_14 : CatalogPart := (runtime "MissingMaskSecret",
  [("MISSING_MASK_SECRET", MkLine "missing_mask_secret" "The mask secret could not be resolved." None None (Some [RESOLVE]) None (Some OCONFIGURATION) (Some CONFIGURATION_REPAIR) [] "1.0.0" None None)])%string.

Definition runtime_part2_15 : CatalogPart := (runtime "MixedDeclineError",
  [("GENERATION_SHAPE_UNSUPPORTED", line "generation-shape-unsupported" "Generation shape unsupported.");
   ("MIXED_DRIVER_UNSUPPORTED", line "mixed-driver-unsupported" "Mixed driver unsupported.");
   ("MIXED_FK_CROSS_GENERATE_UNSUPPORTED", line "mixed-fk-cross-generate-unsupported" "Mixed FK cross generate unsupported.");
   ("MIXED_FK_TOPOLOGY_UNSUPPORTED", line "mixed-fk-topology-unsupported" "Mixed FK topology unsupported.")])%string.

Definition runtime_part2_16 : CatalogPart := (runtime "NativeChunkSchemaDriftError",
  [("NATIVE_CHUNK_SCHEMA_DRIFT", line "native_chunk_schema_drift" "Native chunk schema drift.")])%string.

Definition runtime_part2_17 : CatalogPart := (runtime "NativeCompanionCheckError",
  [("NATIVE_COMPANION_CHECK_FAILED", line "native_companion.check_failed" "Native companion check failed.")])%string.

Definition runtime_part2_18 : CatalogPart := (runtime "PKDuplicatesError",
  [("PK_DUPLICATES", MkLine "pk.duplicates" "A primary-key column contains duplicate values." None None None None (Some OCONFIGURATION) (Some CONFIGURATION_REPAIR) [] "1.0.0" None None)])%string.

Definition runtime_part2_19 : CatalogPart := (runtime "PoolCapacityError",
  [("POOL_CAPACITY_UNVERIFIABLE_NO_PROFILE", line "pool_capacity_unverifiable_no_profile" "Pool capacity unverifiable no profile.");
   ("POOL_EXCEEDS_CACHE_BUDGET", line "pool_exceeds_cache_budget" "Pool exceeds cache budget.");
   ("POOL_TOO_SMALL_FOR_SOURCE", line "pool_too_small_for_source" "Pool too small for source.");
   ("PROVIDER_NOT_POOLABLE", line "provider_not_poolable" "Provider not poolable.")])%string.

Definition runtime_part2_20 : CatalogPart := (runtime "PoolQualityError",
  [("POOL_QUALITY_THRESHOLD_EXCEEDED", line "pool_quality.threshold_exceeded" "Pool quality threshold exceeded.")])%string.

Definition runtime_part2_21 : CatalogPart := (runtime "RowExceedsMaxRowBytes",
  [("ROW_EXCEEDS_MAX_ROW_BYTES", line "row_exceeds_max_row_bytes" "Row exceeds max row bytes.")])%string.

Definition runtime_part2_22 : CatalogPart := (runtime "StrategyError",
  [("BUCKET_PERTURB_INVALID_CONFIG", line "bucket_perturb_invalid_config" "Bucket perturb invalid config.");
   ("BUCKET_PERTURB_REQUIRES_NAMESPACE", line "bucket_perturb_requires_namespace" "Bucket perturb requires namespace.");
   ("BUCKETIZE_WIDTH_UNRESOLVABLE", line "bucketize_width_unresolvable" "Bucketize width unresolvable.");
   ("CATEGORICAL_CATEGORIES_NOT_LIST", line "categorical_categories_not_list" "Categorical categories not list.")])%string.

Definition runtime_part3_1 : CatalogPart := (runtime "StrategyError",
  [("CATEGORICAL_REQUIRES_CATEGORIES", line "categorical_requires_categories" "Categorical requires categories.");
   ("CATEGORICAL_REQUIRES_NAMESPACE", line "categorical_requires_namespace" "Categorical requires namespace.");
   ("CATEGORICAL_WEIGHT_BELOW_RESOLUTION", line "categorical_weight_below_resolution" "Categorical weight below resolution.");
   ("CATEGORICAL_WEIGHTS_NEGATIVE", line "categorical_weights_negative" "Categorical weights negative.");
   ("CATEGORICAL_WEIGHTS_NONPOSITIVE", line "categorical_weights_nonpositive" "Categorical weights nonpositive.");
   ("CATEGORICAL_WEIGHTS_SHAPE", line "categorical_weights_shape" "Categorical weights shape.");
   ("CODE_SET_GEN_REQUIRES_NAMESPACE", line "code_set_gen_requires_namespace" "Code set gen requires namespace.");
   ("DATE_PRESERVE_VALUES_WITH_GROUP_BY_UNSUPPORTED", line "date_preserve_values_with_group_by_unsupported" "Date preserve values with group by unsupported.");
   ("DATE_SHIFT_GROUP_ANCHOR_SNAPSHOT_MISALIGNED", line "date_shift_group_anchor_snapshot_misaligned" "Date shift group anchor snapshot misaligned.");
   ("DATE_SHIFT_GROUP_ANCHOR_SNAPSHOT_MISSING", line "date_shift_group_anchor_snapshot_missing" "Date shift group anchor snapshot missing.");
   ("DATE_SHIFT_INVALID_CONFIG", line "date_shift_invalid_config" "Date shift invalid config.");
   ("DATE_SHIFT_REQUIRES_NAMESPACE", line "date_shift_requires_namespace" "Date shift requires namespace.");
   ("FAKER_POSITIONAL_TABLE_UNKNOWN", line "faker_positional_table_unknown" "Faker positional table unknown.");
   ("FPE_UNENCRYPTABLE_DOMAIN", line "fpe_unencryptable_domain" "FPE unencryptable domain.");
   ("JOINT_MASK_KEY_BY_SNAPSHOT_MISALIGNED", line "joint_mask_key_by_snapshot_misaligned" "Joint mask key by snapshot misaligned.");
   ("JOINT_MASK_KEY_BY_SNAPSHOT_MISSING", line "joint_mask_key_by_snapshot_missing" "Joint mask key by snapshot missing.");
   ("NER_MODEL_VERSION_MISMATCH", line "ner_model_version_mismatch" "NER model version mismatch.");
   ("NESTED_CHILD_ROW_ERROR_UNMAPPABLE", line "nested_child_row_error_unmappable" "Nested child row error unmappable.");
   ("NESTED_CHILD_STRATEGY_UNKNOWN", line "nested_child_strategy_unknown" "Nested child strategy unknown.");
   ("NESTED_JSONPATH_PARSE_ERROR", line "nested_jsonpath_parse_error" "Nested jsonpath parse error.");
   ("NESTED_RECURSIVE_NESTED_REJECTED", line "nested_recursive_nested_rejected" "Nested recursive nested rejected.");
   ("NESTED_STRATEGY_UNSET", line "nested_strategy_unset" "Nested strategy unset.");
   ("NESTED_TARGET_MATCHED_NOTHING", line "nested_target_matched_nothing" "Nested target matched nothing.");
   ("NESTED_TARGET_UNSET", line "nested_target_unset" "Nested target unset.");
   ("NESTED_TARGET_UNWRITABLE_CONTAINER", line "nested_target_unwritable_container" "Nested target unwritable container.");
   ("NUMEXPR_REQUIRED", line "numexpr_required" "Numexpr required.");
   ("SHUFFLE_REQUIRES_NAMESPACE", line "shuffle_requires_namespace" "Shuffle requires namespace.");
   ("TOKENIZE_REQUIRES_NAMESPACE", line "tokenize_requires_namespace" "Tokenize requires namespace.");
   ("TOKENIZE_REQUIRES_STRING_DTYPE", line "tokenize_requires_string_dtype" "Tokenize requires string dtype.");
   ("TOKENIZE_REQUIRES_VAULT", line "tokenize_requires_vault" "Tokenize requires vault.");
   ("TOKENIZE_VAULT_ERROR", line "tokenize_vault_error" "Tokenize vault error.");
   ("TOP_CODE_BOUNDS_UNRESOLVABLE", line "top_code_bounds_unresolvable" "Top code bounds unresolvable.");
   ("TOP_CODE_NON_INTEGRAL_OBJECT_COLUMN", line "top_code_non_integral_object_column" "Top code non integral object column.");
   ("TOP_CODE_WITH_WHEN_UNSUPPORTED", line "top_code_with_when_unsupported" "Top code with when unsupported.");
   ("TRUNCATE_KEEP_INVALID", line "truncate_keep_invalid" "Truncate keep invalid.");
   ("TRUNCATE_LENGTH_INVALID", line "truncate_length_invalid" "Truncate length invalid.");
   ("TRUNCATE_MASK_CHAR_INVALID", line "truncate_mask_char_invalid" "Truncate mask char invalid.");
   ("WHEN_EXPRESSION_ERROR", line "when_expression_error" "When expression error.");
   ("WHEN_EXPRESSION_NOT_BOOLEAN", line "when_expression_not_boolean" "When expression not boolean.");
   ("WHEN_OUTSIDE_CLOSED_GRAMMAR", line "when_outside_closed_grammar" "When outside closed grammar.")])%string.

Definition runtime_part3_2 : CatalogPart := (runtime "SubsetInternalError",
  [("SUBSET_CLOSURE_INVARIANT_VIOLATED", line "subset_closure_invariant_violated" "Subset closure invariant violated.");
   ("SUBSET_CLOSURE_NONTERMINATION", line "subset_closure_nontermination" "Subset closure nontermination.");
   ("SUBSET_MATERIALIZE_COUNT_MISMATCH", line "subset_materialize_count_mismatch" "Subset materialize count mismatch.")])%string.

Definition runtime_part3_3 : CatalogPart := (runtime "TransformError",
  [("CONFIG_REFERENCES_STORED_INDEX", line "config_references_stored_index" "Config references stored index.");
   ("DEDUPE_COLUMN_MISSING", line "dedupe_column_missing" "Dedupe column missing.");
   ("DEDUPE_UNSUPPORTED_TYPE", line "dedupe_unsupported_type" "Dedupe unsupported type.");
   ("DERIVE_COLUMN_ALREADY_EXISTS", line "derive_column_already_exists" "Derive column already exists.");
   ("DERIVE_EXPRESSION_ERROR", line "derive_expression_error" "Derive expression error.");
   ("DROP_COLUMN_MISSING", line "drop_column_missing" "Drop column missing.");
   ("DUPLICATE_SOURCE_FIELD_NAMES", line "duplicate_source_field_names" "Duplicate source field names.");
   ("FILTER_EXPRESSION_ERROR", line "filter_expression_error" "Filter expression error.");
   ("FILTER_EXPRESSION_NOT_BOOLEAN", line "filter_expression_not_boolean" "Filter expression not boolean.");
   ("SORT_ASCENDING_LENGTH_MISMATCH", line "sort_ascending_length_mismatch" "Sort ascending length mismatch.");
   ("SORT_COLUMN_MISSING", line "sort_column_missing" "Sort column missing.");
   ("SORT_UNSUPPORTED_TYPE", line "sort_unsupported_type" "Sort unsupported type.");
   ("UNKNOWN_TRANSFORM_OP", line "unknown_transform_op" "Unknown transform op.")])%string.

Definition runtime_part3_4 : CatalogPart := (runtime "UnifiedSliceInvariantError",
  [("UNIFIED_SLICE_INVARIANT_VIOLATION", line "unified_slice_invariant_violation" "Unified slice invariant violation.")])%string.

Definition runtime_part3_5 : CatalogPart := (runtime "VaultError",
  [("VAULT_CRYPTO_NOT_INSTALLED", MkLine "vault_crypto_not_installed" "Vault crypto not installed." None None None None (Some OCONFIGURATION) (Some CONFIGURATION_REPAIR) [] "1.0.0" None None);
   ("VAULT_FORMAT_UNSUPPORTED", MkLine "vault_format_unsupported" "Vault format unsupported." None None None None (Some OCONFIGURATION) (Some CONFIGURATION_REPAIR) [] "1.0.0" None None);
   ("VAULT_KEY_MISMATCH", MkLine "vault_key_mismatch" "Vault key mismatch." None None None None (Some OCONFIGURATION) (Some CONFIGURATION_REPAIR) [] "1.0.0" None None);
   ("VAULT_PROTOCOL_VERSION_MISMATCH", MkLine "vault_protocol_version_mismatch" "Vault protocol version mismatch." None None None None (Some OCONFIGURATION) (Some CONFIGURATION_REPAIR) [] "1.0.0" None None);
   ("VAULT_UNREADABLE", MkLine "vault_unreadable" "Vault unreadable." None None None None (Some OCONFIGURATION) (Some CONFIGURATION_REPAIR) [] "1.0.0" None None);
   ("VAULT_WRITER_UNSUPPORTED", MkLine "vault_writer_unsupported" "Vault writer unsupported." None None None None (Some OCONFIGURATION) (Some CONFIGURATION_REPAIR) [] "1.0.0" None None)])%string.

Definition runtime_part3_6 : CatalogPart := (runtime "WeakMaskSecret",
  [("WEAK_MASK_SECRET", MkLine "weak_mask_secret" "Weak mask secret." None None (Some [RESOLVE]) None (Some OCONFIGURATION) (Some CONFIGURATION_REPAIR) [] "1.0.0" None None)])%string.

Definition runtime_part3_7 : CatalogPart := (runtime "decoy_engine.execution._isolated_common",
  [("INVALID_SUBSTRATE", line "invalid_substrate" "Invalid substrate.")])%string.

Definition runtime_part3_8 : CatalogPart := (runtime "decoy_engine.execution._strategies._categorical",
  [("CATEGORICAL_POSITION_OUT_OF_DOMAIN", line "categorical_position_out_of_domain" "Categorical position out of domain.")])%string.

Definition runtime_part3_9 : CatalogPart := (runtime "decoy_engine.execution._strategies._faker_positional",
  [("FAKER_POSITION_OUT_OF_DOMAIN", line "faker_position_out_of_domain" "Faker position out of domain.")])%string.

Definition runtime_part3_10 : CatalogPart := (runtime "decoy_engine.execution._strategies._fpe",
  [("FPE_CHECKSUM_INVALID_SOURCE", line "fpe_checksum_invalid_source" "FPE checksum invalid source.");
   ("FPE_UNENCRYPTABLE_LENGTH", line "fpe_unencryptable_length" "FPE unencryptable length.")])%string.

Definition runtime_part3_11 : CatalogPart := (runtime "decoy_engine.execution._strategies._windowed_date",
  [("WINDOWED_DATE_POSITION_OUT_OF_DOMAIN", line "windowed_date_position_out_of_domain" "Windowed date position out of domain.")])%string.

Definition runtime_part3_12 : CatalogPart := (runtime "decoy_engine.execution._transforms_table",
  [("DERIVE_RESULT_NOT_CONVERTIBLE", line "derive_result_not_convertible" "Derive result not convertible.");
   ("TRANSFORM_LINEAGE_MISMATCH", line "transform_lineage_mismatch" "Transform lineage mismatch.")])%string.

Definition runtime_part3_13 : CatalogPart := (runtime "decoy_engine.execution.native._when_admission",
  [("WHEN_PREDICATE_NOT_NATIVE", line "when_predicate_not_native" "When predicate not native.");
   ("WHEN_PREDICATE_OUTSIDE_NATIVE_SUBSET", line "when_predicate_outside_native_subset" "When predicate outside native subset.");
   ("WHEN_PREDICATE_READS_MASKED_COLUMN", line "when_predicate_reads_masked_column" "When predicate reads masked column.")])%string.

Definition runtime_part3_14 : CatalogPart := (runtime "decoy_engine.generation._window_admission",
  [("GENERATION_NOT_REPRODUCIBLE", line "generation_not_reproducible" "Generation not reproducible.")])%string.

Definition runtime_part3_15 : CatalogPart := (runtime "decoy_engine.transforms.text_mask",
  [("CHECKSUM_INVALID", line "checksum_invalid" "Checksum invalid.");
   ("SUB_MINIMUM_DOMAIN", line "sub_minimum_domain" "Sub minimum domain.")])%string.

Definition runtime_secret_provider_1 : CatalogPart := (runtime "SecretProviderError",
  [("SECRET_PROVIDER_UNKNOWN", MkLine "secret_provider_unknown" "The referenced secret provider is not registered." None None (Some [RESOLVE]) None (Some OCONFIGURATION) (Some CONFIGURATION_REPAIR) [] "1.1.0" None None);
   ("SECRET_PROVIDER_UNAVAILABLE", MkLine "secret_provider_unavailable" "The secret provider could not complete a safe read." None None (Some [RESOLVE]) None (Some EXECUTION) (Some RETRY_OPERATION) [] "1.1.0" None None);
   ("SECRET_ACCESS_DENIED", MkLine "secret_access_denied" "The workload is not permitted to read the pinned secret." None None (Some [RESOLVE]) None (Some OCONFIGURATION) (Some ENVIRONMENT_REPAIR) [] "1.1.0" None None);
   ("SECRET_VERSION_UNAVAILABLE", MkLine "secret_version_unavailable" "The pinned secret version is absent, deleted, destroyed, or inaccessible." None None (Some [RESOLVE]) None (Some OCONFIGURATION) (Some CONFIGURATION_REPAIR) [] "1.1.0" None None);
   ("SECRET_EXPIRED", MkLine "secret_expired" "The selected secret is outside its usable lifetime." None None (Some [RESOLVE]) None (Some OCONFIGURATION) (Some CONFIGURATION_REPAIR) [] "1.1.0" None None);
   ("SECRET_LEASE_UNSUPPORTED", MkLine "secret_lease_unsupported" "The selected secret requires a dynamic lease that cannot be safely maintained." None None (Some [RESOLVE]) None (Some OCONFIGURATION) (Some CONFIGURATION_REPAIR) [] "1.1.0" None None);
   ("SECRET_MATERIAL_INVALID", MkLine "secret_material_invalid" "The secret material does not meet the selected algorithm contract." None None (Some [RESOLVE]) None (Some OCONFIGURATION) (Some CONFIGURATION_REPAIR) [] "1.1.0" None None);
   ("SECRET_FILE_PERMISSIONS_UNSAFE", MkLine "secret_file_permissions_unsafe" "The secret file is readable by other users; make it owner-only (mode 0600 or 0400)." None None (Some [RESOLVE]) None (Some OCONFIGURATION) (Some CONFIGURATION_REPAIR) [] "1.2.0" None None)])%string.

Definition safe_output_part1_1 : CatalogPart := (safe_output "SafeOutput",
  [("INVALID", MkLine "invalid" "This log line could not be recorded safely, so a placeholder was stored." None None None (Some ERROR) None None [] "1.5.0" None None);
   ("LEGACY_WITHHELD", line_since "1.5.0" "legacy_withheld" "Older log lines were withheld because they may contain unchecked text.")])%string.

Definition subset_part1_1 : CatalogPart := (subset "PreflightFailure",
  [("SUBSET_RELATIONSHIP_COLUMN_MISSING", line "subset_relationship_column_missing" "Subset relationship column missing.");
   ("SUBSET_RELATIONSHIP_COMPOSITE_LENGTH", line "subset_relationship_composite_length" "Subset relationship composite length.");
   ("SUBSET_RELATIONSHIP_DUPLICATE_COLUMN", line "subset_relationship_duplicate_column" "Subset relationship duplicate column.");
   ("SUBSET_RELATIONSHIP_KEY_FLOAT_UNSUPPORTED", line "subset_relationship_key_float_unsupported" "Subset relationship key float unsupported.");
   ("SUBSET_RELATIONSHIP_TYPE_MISMATCH", line "subset_relationship_type_mismatch" "Subset relationship type mismatch.");
   ("SUBSET_REQUIRES_PARQUET", line "subset_requires_parquet" "Subset requires Parquet.");
   ("SUBSET_RESERVED_COLUMN", line "subset_reserved_column" "Subset reserved column.");
   ("SUBSET_SOURCE_ORPHANS", line "subset_source_orphans" "Subset source orphans.");
   ("SUBSET_UNKNOWN_TABLE", line "subset_unknown_table" "Subset unknown table.")])%string.

Definition subset_part1_2 : CatalogPart := (subset "SubsetBudgetExceededError",
  [("SUBSET_BUDGET_EXCEEDED", line "subset_budget_exceeded" "Subset budget exceeded.")])%string.

Definition verification_canary_1 : CatalogPart := (verification "CanarySpan",
  [("CANARY_MATCH", line_since "1.3.0" "canary_match" "A supplied canary was found in a job output.");
   ("CANARY_SCAN_INCOMPLETE", line_since "1.3.0" "canary_scan_incomplete" "The canary check did not see every output cell.");
   ("CANARY_INPUT_REJECTED", line_since "1.3.0" "canary_input_rejected" "The canary check inputs were rejected.");
   ("CANARY_BINDING_ABSENT", line_since "1.3.0" "canary_binding_absent" "No publication record bound the scanned outputs.");
   ("CANARY_PUBLICATION_INACTIVE", line_since "1.3.0" "canary_publication_inactive" "Output publication is not active.");
   ("CANARY_TARGET_UNAVAILABLE", line_since "1.3.0" "canary_target_unavailable" "The job has no committed output to scan.");
   ("CANARY_PUBLICATION_MISMATCH", line_since "1.3.0" "canary_publication_mismatch" "An output does not match its publication record.");
   ("CANARY_ARTIFACT_UNREADABLE", line_since "1.3.0" "canary_artifact_unreadable" "An output could not be read.");
   ("CANARY_ARTIFACT_UNSUPPORTED", line_since "1.3.0" "canary_artifact_unsupported" "An output format or column type is not supported.");
   ("CANARY_RESOURCE_LIMIT", line_since "1.3.0" "canary_resource_limit" "A scan budget or size limit was reached.");
   ("CANARY_CELL_UNCOMPARED", line_since "1.3.0" "canary_cell_uncompared" "Some output cells could not be compared.");
   ("CANARY_SPAN_SHORT_EXCLUDED", line_since "1.3.0" "canary_span_short_excluded" "A canary shorter than the span minimum was checked as a whole cell only.")])%string.

Definition verification_part1_1 : CatalogPart := (verification "PostValidationScan",
  [("CARDINALITY", line "cardinality" "The cardinality check reported a finding.");
   ("COMPOSITE_COHERENCE", line "composite_coherence" "The composite coherence check reported a finding.");
   ("DETERMINISM_SAMPLE", line "determinism_sample" "The determinism sample check reported a finding.");
   ("FK_VALIDITY", line "fk_validity" "The fk validity check reported a finding.");
   ("FORMAT_RULES", line "format_rules" "The format rules check reported a finding.");
   ("LEAKAGE", line "leakage" "The leakage check reported a finding.");
   ("NULL_AUDIT", line "null_audit" "The null audit check reported a finding.");
   ("PK_UNIQUENESS", line "pk_uniqueness" "The pk uniqueness check reported a finding.");
   ("SAMPLED_VALUES", line "sampled_values" "The sampled values check reported a finding.")])%string.

Definition verification_part1_2 : CatalogPart := (verification "QualityDiagnostic",
  [("COLUMN_SURVIVAL", line "column_survival" "The column survival check reported a finding.");
   ("KIND_DRIFT", line "kind_drift" "The kind drift check reported a finding.");
   ("NULL_DRIFT", line "null_drift" "The null drift check reported a finding.");
   ("ROW_COUNT", line "row_count" "The row count check reported a finding.")])%string.

Definition verification_part1_3 : CatalogPart := (verification "QualityReport",
  [("GOF_UNAVAILABLE", line "gof_unavailable" "The gof unavailable check reported a finding.");
   ("NO_COMPARABLE_COLUMNS", line "no_comparable_columns" "The no comparable columns check reported a finding.");
   ("NO_COMPARABLE_JOINTS", line "no_comparable_joints" "The no comparable joints check reported a finding.")])%string.

Definition warning_part1_1 : CatalogPart := (warning "QualityWarning",
  [("CARDINALITY_MATCH_DEVIATION", line "cardinality_match_deviation" "Cardinality match deviation.");
   ("FORMAT_RULE_VIOLATION", line "format_rule_violation" "Format rule violation.");
   ("FPE_JOIN_GROUP_ACTIVE", line "fpe_join_group_active" "FPE join group active.");
   ("FPE_PARTIAL_PLAINTEXT_DISCLOSURE", line "fpe_partial_plaintext_disclosure" "FPE partial plaintext disclosure.");
   ("GEO_GENERALIZE_CASCADE", line "geo_generalize_cascade" "Geo generalize cascade.");
   ("MIMESIS_LOCALE_FALLBACK", line "mimesis_locale_fallback" "Mimesis locale fallback.");
   ("NESTED_CELL_JSON_PARSE_ERROR", line "nested_cell_json_parse_error" "Nested cell JSON parse error.");
   ("NESTED_JSONPATH_PATH_OVERLAP", line "nested_jsonpath_path_overlap" "Nested jsonpath path overlap.");
   ("ORPHAN_FK", line "orphan_fk" "Orphan FK.");
   ("OUT_OF_CORE_CALLER_MANAGED_RESIDENCY", line "out_of_core_caller_managed_residency" "Out of core caller managed residency.");
   ("POOL_DOMINATES_CACHE", line "pool_dominates_cache" "Pool dominates cache.");
   ("SCAN_CRASHED", line "scan_crashed" "Scan crashed.");
   ("SOURCE_VALUE_LEAK", line "source_value_leak" "Source value leak.");
   ("TEXT_MASK_SUB_FLOOR_SPAN_HANDLED", line "text_mask_sub_floor_span_handled" "Text mask sub floor span handled.");
   ("TOP_CODE_GENERALIZED", line "top_code_generalized" "Top code generalized.");
   ("UNDECLARED_OUTPUT_COLUMNS", line "undeclared_output_columns" "Undeclared output columns.");
   ("VALUE_REUSE_FIXED_POINT", line "value_reuse_fixed_point" "Value reuse fixed point.")])%string.
