(* ===== verification/Failures.v ===== *)
(** * From exceptions to reason records (reason_adapter.py)

    An exception is classified by its classes, and by its [code] only when one of
    them is a family the engine registers; the record captured for it rides on the
    exception, and a run's scope keeps its first causal failure. *)

From S2P Require Import Prelude PyText PyData Reasons ReasonsTheory.

(** ** Exceptions *)

(** A class by its module and name. *)
Abbreviation cls := (pystr * pystr)%type.

(** What the adapter reads of an exception: its identity, its classes from its own
    to the root, the string its [code] attribute gives (none when reading it fails
    or gives something else), its [errno], whether it takes attributes, and the
    classes and [errno] of its direct cause. *)
Record pyexn := MkExn {
  e_id : nat;
  e_mro : list cls;
  e_code : option pystr;
  e_errno : option Z;
  e_dict : bool;
  e_cause : option (list cls * option Z);
}.

Definition builtin (name : string) : cls := (py "builtins", py name).
Definition _INTERRUPTS : list cls := builtin <$> ["KeyboardInterrupt"; "SystemExit"; "GeneratorExit"]%string.

(** [errno.ENOSPC] and [errno.EDQUOT] on Linux. *)
Definition _CAPACITY_ERRNOS : list Z := [28; 122].
Definition _PUBLICATION_OPERATIONS : list Operation := [STAGE; WRITE; CLOSE; COMMIT; SIDECAR].

Definition isinstance (mro classes : list cls) : bool := existsb (fun c => bool_decide (c ∈ classes)) mro.
Definition is_oserror (mro : list cls) : bool := isinstance mro [builtin "OSError"].

(** Module, class and namespace of every family whose [code] is trusted. *)
Definition _CODED : list (string * string * string) :=
  [("decoy_engine.errors", "PipelineValidationError", "config");
   ("decoy_engine.errors", "ValidationError", "config");
   ("decoy_engine.relationships._namespace", "NamespaceConfigError", "config");
   ("decoy_engine.subset._errors", "SubsetConfigError", "config");
   ("decoy_engine.plan._errors", "PlanCompileError", "plan");
   ("decoy_engine.contracts.declared_casting", "DeclaredCastContractError", "plan");
   ("decoy_engine.execution._errors", "DeclaredCastRouteError", "route");
   ("decoy_engine.execution._errors", "DeclaredCastValueError", "runtime");
   ("decoy_engine.execution._errors", "QuarantineError", "runtime");
   ("decoy_engine.errors", "FixedWidthRecordOverlongError", "runtime");
   ("decoy_engine.plan.validate._consolidator", "PlanCheckError", "plan");
   ("decoy_engine.generation.statistical._spec", "StatisticalSpecError", "plan");
   ("decoy_engine.generation.composite._errors", "CompositeError", "plan");
   ("decoy_engine._reference_date", "PinnedModeError", "plan");
   ("decoy_engine.generation._window_admission", "GenerationAdmissionError", "plan");
   ("decoy_engine.generation._window_admission", "GenerationWindowError", "runtime");
   ("decoy_engine.generation._budget_ledger", "GenerationBudgetError", "runtime");
   ("decoy_engine.execution._errors", "ExecutionError", "runtime");
   ("decoy_engine.generation.pool._errors", "GenerationError", "runtime");
   ("decoy_engine.generation.pool._errors", "PoolCapacityError", "runtime");
   ("decoy_engine.execution._transforms", "TransformError", "runtime");
   ("decoy_engine.determinism._derive", "DeterminismError", "runtime");
   ("decoy_engine.errors", "FpeUnencryptableError", "runtime");
   ("decoy_engine.errors", "FpeChecksumError", "runtime");
   ("decoy_engine.errors", "MaskKeyDerivationError", "runtime");
   ("decoy_engine.errors", "MaskKeyRequiredError", "runtime");
   ("decoy_engine.errors", "PKDuplicatesError", "runtime");
   ("decoy_engine.keyprovider", "MaskSecretError", "runtime");
   ("decoy_engine.vault", "VaultError", "runtime");
   ("decoy_engine.execution._mixed_admission", "MixedDeclineError", "runtime");
   ("decoy_engine.execution._unified_slice", "UnifiedSliceInvariantError", "runtime");
   ("decoy_engine.execution.native._chunk_schema", "NativeChunkSchemaDriftError", "runtime");
   ("decoy_engine.execution.native._companion_status", "NativeCompanionCheckError", "runtime");
   ("decoy_engine.execution.native._crypto_ext", "CryptoExtensionUnavailableError", "runtime");
   ("decoy_engine.execution.native._crypto_ext", "FpeConfigError", "runtime");
   ("decoy_engine.execution.native._draw_site_providers", "DrawSiteProtocolError", "runtime");
   ("decoy_engine.execution.native._pool_quality", "PoolQualityError", "runtime");
   ("decoy_engine.io.bounded_reader", "BoundedReadError", "runtime");
   ("decoy_engine.subset._errors", "SubsetError", "subset");
   ("decoy_engine.subset._errors", "SubsetInternalError", "runtime");
   ("decoy_engine.providers_v2._errors", "ProviderError", "provider");
   ("decoy_engine.providers_v2.identifiers._errors", "IdentifierError", "provider");
   ("decoy_engine.detection.ner", "NerUnavailableError", "provider");
   ("decoy_engine.quality.carriers", "CarrierError", "quality");
   ("decoy_engine.quality.dp", "DpError", "quality");
   ("decoy_engine.quality.dp_budget", "DpBudgetError", "quality");
   ("decoy_engine.quality.dp_provenance", "ProvenanceError", "quality");
   ("decoy_engine.quality.snapshot", "DistributionSnapshotError", "quality");
   ("decoy_engine.connectors.postgres_snapshot", "PostgresSnapshotError", "connector");
   ("decoy_engine.execution.physical._shadow_diff_codes", "ShadowDifference", "physical")]%string.

(** Families with one fixed meaning. *)
Definition _FIXED : list (string * string * (string * string)) :=
  [("decoy_engine.errors", "EmptyParentPoolError", ("config", "fk.empty_parent_pool"));
   ("decoy_engine.errors", "UnknownFKColumnError", ("config", "fk.unknown_column"));
   ("decoy_engine.errors", "ConfigError", ("config", "untagged"));
   ("decoy_engine.config._errors", "PipelineConfigError", ("config", "untagged"));
   ("decoy_engine.errors", "FlagPauseSignal", ("decoy", "run_paused"));
   ("decoy_engine.errors", "RowErrorsFailedError", ("decoy", "row_errors_failed"));
   ("decoy_engine.errors", "ValidatorFailedError", ("decoy", "verification_failed"));
   ("decoy_engine.execution._isolated_commit", "CommitError", ("decoy", "publication_failed"));
   ("decoy_engine.sdk", "TransientError", ("decoy", "connector_transient_failure"));
   ("decoy_engine.sdk", "PermanentError", ("decoy", "connector_permanent_failure"));
   ("decoy_engine.fileaccess._types", "FileAccessDenied", ("decoy", "file_access_denied"))]%string.

Definition coded : odict cls pystr := (fun '(m, n, ns) => ((py m, py n), py ns)) <$> _CODED.
Definition fixed : odict cls identity := (fun '(m, n, (ns, c)) => ((py m, py n), (py ns, py c))) <$> _FIXED.

Fixpoint _first_in_mro {V} (mro : list cls) (table : odict cls V) : option V :=
  match mro with
  | [] => None
  | c :: mro' => match od_get table c with Some v => Some v | None => _first_in_mro mro' table end
  end.

Definition capacity (mro : list cls) (errno : option Z) : bool :=
  is_oserror mro && match errno with Some n => bool_decide (n ∈ _CAPACITY_ERRNOS) | None => false end.
Definition _capacity_evidence (e : pyexn) : bool :=
  capacity (e_mro e) (e_errno e) || match e_cause e with Some (mro, errno) => capacity mro errno | None => false end.

(** The records exceptions carry, by the exception's identity. *)
Abbreviation captures := (gmap nat ReasonRecord).

Section Adapter.
Context (g : Registry).

Definition publishing (p : Phase) (ctx : option ReasonContext) : bool :=
  bool_decide (p = PUBLISH) ||
  match ctx with
  | Some c => match operation c with Some o => bool_decide (o ∈ _PUBLICATION_OPERATIONS) | None => false end
  | None => false
  end.

(** The identity [_classify] gives an exception. *)
Definition classified (e : pyexn) (p : Phase) (ctx : option ReasonContext) : identity :=
  if isinstance (e_mro e) _INTERRUPTS then decoy_reason "run_cancelled"
  else if publishing p ctx && _capacity_evidence e then decoy_reason "storage_capacity_exhausted"
  else
    match _first_in_mro (e_mro e) coded with
    | Some ns =>
        match e_code e with
        | Some code => if bool_decide (is_Some (find g ns (PStr code))) then (ns, code) else decoy_reason "unregistered_reason"
        | None => decoy_reason "unregistered_reason"
        end
    | None =>
        match _first_in_mro (e_mro e) fixed with
        | Some i => i
        | None => if publishing p ctx && is_oserror (e_mro e) then decoy_reason "publication_failed" else decoy_reason "unexpected_error"
        end
    end.

Definition _classify (e : pyexn) (p : Phase) (ctx : option ReasonContext) : result ReasonRecord :=
  for_reason g (classified e p ctx) p ctx.

Definition _lookup_captured (m : captures) (e : pyexn) : option ReasonRecord :=
  if e_dict e then
    match m !! e_id e with
    | Some r => match validate_record g r with Ok _ => Some r | Err _ => None end
    | None => None
    end
  else None.

Definition _remember (m : captures) (e : pyexn) (r : ReasonRecord) : captures :=
  if e_dict e then <[e_id e := r]> m else m.

Definition in_context (known : ReasonRecord) (ctx : option ReasonContext) : result ReasonRecord :=
  match ctx with Some c => with_context g known c | None => Ok known end.

Definition reason_from_exception (m : captures) (e : pyexn) (p : Phase) (ctx : option ReasonContext) : result ReasonRecord :=
  match _lookup_captured m e with
  | Some known => in_context known ctx
  | None =>
      match _classify e p ctx with
      | Ok r => Ok r
      | Err _ => for_reason g (decoy_reason "unexpected_error") p ctx
      end
  end.

(** ** Scopes *)

Definition _MAX_SECONDARY : Z := 4.

Record FailureScope := MkScope {
  first : option ReasonRecord;
  secondary : list ReasonRecord;
  _first_exc : option nat;
}.
Definition new_scope : FailureScope := MkScope None [] None.

(** The record of an exception no scope has seen: the boundary's reason, or its own. *)
Definition fresh_record (m : captures) (e : pyexn) (p : Phase) (ctx : option ReasonContext) (reason : option identity) : result ReasonRecord :=
  match reason with Some i => for_reason g i p ctx | None => reason_from_exception m e p ctx end.

(** [FailureScope.capture] *)
Definition capture (m : captures) (sc : FailureScope) (e : pyexn) (p : Phase) (ctx : option ReasonContext)
    (is_secondary : bool) (reason : option identity) : result (captures * FailureScope * ReasonRecord) :=
  match _lookup_captured m e with
  | Some known =>
      record ← in_context known ctx;
      match first sc with
      | None => Ok (m, MkScope (Some record) (secondary sc) (Some (e_id e)), record)
      | Some f => Ok (m, sc, f)
      end
  | None =>
      record ← fresh_record m e p ctx reason;
      let m := _remember m e record in
      match first sc, is_secondary with
      | None, false => Ok (m, MkScope (Some record) (secondary sc) (Some (e_id e)), record)
      | _, _ =>
          let sc := if zlen (secondary sc) <? _MAX_SECONDARY
                    then MkScope (first sc) (secondary sc ++ [record]) (_first_exc sc) else sc in
          Ok (m, sc, default record (first sc))
      end
  end.

(** The thread's captures and its stack of open scopes, innermost first. *)
Record Adapter := MkAdapter { seen : captures; _stack : list FailureScope }.

Definition open_scope (w : Adapter) : Adapter := MkAdapter (seen w) (new_scope :: _stack w).
Definition close_scope (w : Adapter) : Adapter := MkAdapter (seen w) (tail (_stack w)).
Definition current_failure_scope (w : Adapter) : option FailureScope := head (_stack w).

Definition capture_failure (w : Adapter) (e : pyexn) (p : Phase) (ctx : option ReasonContext)
    (is_secondary : bool) (reason : option identity) : result (Adapter * ReasonRecord) :=
  match _stack w with
  | sc :: outer =>
      out ← capture (seen w) sc e p ctx is_secondary reason;
      Ok (MkAdapter out.1.1 (out.1.2 :: outer), out.2)
  | [] =>
      match _lookup_captured (seen w) e with
      | Some known => r ← in_context known ctx; Ok (w, r)
      | None => r ← fresh_record (seen w) e p ctx reason; Ok (MkAdapter (_remember (seen w) e r) [], r)
      end
  end.

Definition amend_failure (w : Adapter) (e : pyexn) (ctx : ReasonContext) : result (Adapter * option ReasonRecord) :=
  match _lookup_captured (seen w) e with
  | None => Ok (w, None)
  | Some known =>
      merged ← with_context g known ctx;
      let stack := match _stack w with
                   | sc :: outer => (if bool_decide (_first_exc sc = Some (e_id e))
                                     then MkScope (Some merged) (secondary sc) (_first_exc sc) else sc) :: outer
                   | [] => []
                   end in
      Ok (MkAdapter (_remember (seen w) e merged) stack, Some merged)
  end.

Definition tag_exception (w : Adapter) (e : pyexn) (reason : identity) (p : Phase) : result Adapter :=
  r ← for_reason g reason p None; Ok (MkAdapter (_remember (seen w) e r) (_stack w)).

(** ** Verification reports *)

Definition _count_of (report : list (pystr * pyval)) (name : string) : Z :=
  match dget report name (PInt 0) with PInt n => if 0 <? n then n else 0 | _ => 0 end.

Definition report_reason (name : string) (key : string) (n : Z) : result ReasonRecord :=
  ctx ← new_context (MkContext None (Some OVERIFY) None None None (sorted [(py key, n)]) false None);
  for_reason g (decoy_reason name) VERIFY (Some ctx).

Definition reasons_from_report (report : list (pystr * pyval)) (enforcing : bool) : result (list ReasonRecord) :=
  let failed := match dget report "pass_failed_with" PNone with PNone => false | _ => true end in
  let errors := _count_of report "error_count" in
  let findings := _count_of report "fail_count" in
  a ← (if failed || (0 <? errors) then r ← report_reason "verification_unavailable" "errors" errors; Ok [r] else Ok []);
  b ← (if 0 <? findings
       then r ← report_reason (if enforcing then "verification_failed" else "findings_reported") "findings" findings; Ok [r]
       else Ok []);
  Ok (a ++ b).
End Adapter.
