(* ===== verification/Catalog.v ===== *)
(** * The whole reason catalog

    Importing the package declares every part in turn; a repeated identity would make
    the import itself fail. The declared registry is the one all reason theorems are
    about: it is well formed, holds the reasons the engine itself falls back to, and
    every attribute names its own entry. *)

From S2P Require Import Prelude PyText PyData Reasons ReasonsTheory Failures Catalog1 Catalog2 Catalog3.

(** The [decoy] section under its module attributes (reasons/decoy/_core.py). *)
Definition decoy_core : CatalogPart := (Reasons.decoy "DecoyEngine", zip
  ["UNEXPECTED_ERROR"; "UNREGISTERED_REASON"; "UNKNOWN_REASON_FROM_FUTURE"; "FILE_ACCESS_DENIED"; "STORAGE_CAPACITY_EXHAUSTED"
   ; "VERIFICATION_FAILED"; "VERIFICATION_UNAVAILABLE"; "PUBLICATION_FAILED"; "PUBLICATION_PARTIAL"; "CLEANUP_FAILED"; "RUN_CANCELLED"; "FINDINGS_REPORTED"; "REASON_CONTEXT_TOO_LARGE"; "REASON_RECORD_INVALID"
   ; "ISOLATED_RUN_TIMED_OUT"; "ISOLATED_WORKER_DIED"; "ISOLATED_WORKER_OUT_OF_MEMORY"; "ROW_ERRORS_FAILED"; "CONNECTOR_TRANSIENT_FAILURE"; "CONNECTOR_PERMANENT_FAILURE"; "RUN_PAUSED"; "UNSUPPORTED_SCHEMA_VERSION"]%string
  decoy_lines).

(** The parts in the order the package imports them. *)
Definition catalog_parts : list CatalogPart :=
  [
   config_part1_1; config_part1_2; config_part1_3; config_part1_4; config_part1_5; config_part2_1;
   connector_part1_1;
   decoy_core;
   physical_part1_1; physical_part1_2;
   plan_f06_1; plan_part1_1; plan_part1_2; plan_part1_3; plan_part1_4; plan_part1_5; plan_part2_1; plan_part2_2;
   plan_part2_3; plan_part3_1; plan_part3_2; plan_part3_3;
   platform_part1_1; platform_part1_2; platform_part1_3; platform_part1_4; platform_part1_5;
   post_scan_part1_1;
   pre_scan_part1_1;
   provider_part1_1; provider_part1_2; provider_part1_3; provider_part1_4;
   quality_part1_1; quality_part1_2; quality_part1_3; quality_part1_4; quality_part1_5;
   route_added_1; route_f06_1; route_f06_2; route_part1_1; route_part1_2; route_part1_3; route_part1_4; route_part1_5;
   route_part1_6; route_part1_7; route_part1_8; route_part1_9; route_part1_10; route_part1_11; route_part1_12; route_part1_13;
   route_part1_14; route_retired_1; route_retired_2; route_sink_1;
   runtime_f06_1; runtime_part1_1; runtime_part1_2; runtime_part1_3; runtime_part1_4; runtime_part1_5; runtime_part1_6; runtime_part1_7;
   runtime_part1_8; runtime_part2_1; runtime_part2_2; runtime_part2_3; runtime_part2_4; runtime_part2_5; runtime_part2_6; runtime_part2_7;
   runtime_part2_8; runtime_part2_9; runtime_part2_10; runtime_part2_11; runtime_part2_12; runtime_part2_13; runtime_part2_14; runtime_part2_15;
   runtime_part2_16; runtime_part2_17; runtime_part2_18; runtime_part2_19; runtime_part2_20; runtime_part2_21; runtime_part2_22; runtime_part3_1;
   runtime_part3_2; runtime_part3_3; runtime_part3_4; runtime_part3_5; runtime_part3_6; runtime_part3_7; runtime_part3_8; runtime_part3_9;
   runtime_part3_10; runtime_part3_11; runtime_part3_12; runtime_part3_13; runtime_part3_14; runtime_part3_15; runtime_secret_provider_1;
   safe_output_part1_1;
   subset_part1_1; subset_part1_2;
   verification_canary_1; verification_part1_1; verification_part1_2; verification_part1_3;
   warning_part1_1].

Definition import_part (g : Registry) (p : CatalogPart) : result Registry := declare_all p.1 p.2.*2 g.
Definition import_catalog : result Registry := for_each import_part catalog_parts no_specs.

(** The entries of the catalog, in order. *)
Definition part_specs (p : CatalogPart) : list ReasonSpec := declarer_spec p.1 <$> p.2.*2.
Definition catalog_specs : list ReasonSpec := catalog_parts ≫= part_specs.

(** ** Declaring a list of entries *)

Definition entry_of (s : ReasonSpec) : identity * ReasonSpec := (spec_identity s, s).

(** The entries with a wire code, in order. *)
Definition with_wire_code (l : list ReasonSpec) (c : pystr) : list ReasonSpec :=
  List.filter (fun s => bool_decide (s_code s = c)) l.

(** A registry holds exactly the entries of a list, in their order. *)
Definition holds (g : Registry) (l : list ReasonSpec) : Prop :=
  _SPECS g = entry_of <$> l /\ forall c, default [] (od_get (_BY_CODE g) c) = with_wire_code l c.

Lemma holds_keys g l : holds g l -> od_keys (_SPECS g) = spec_identity <$> l.
Proof. intros [H _]. unfold od_keys. rewrite H, <- list_fmap_compose. done. Qed.

Lemma holds_get g l i : holds g l -> od_get (_SPECS g) i = None <-> i ∉ spec_identity <$> l.
Proof. intros H. by rewrite od_get_none, (holds_keys _ _ H). Qed.

(** [declare] appends an entry of a new identity, and refuses any other. *)
Lemma declare_holds g l s : holds g l ->
  match declare g s with
  | Ok g' => holds g' (l ++ [s]) /\ spec_identity s ∉ spec_identity <$> l
  | Err e => e = exc "ValueError" /\ spec_identity s ∈ spec_identity <$> l
  end.
Proof.
  intros Hh. pose proof (holds_get _ _ (spec_identity s) Hh) as Hn. unfold declare, od_has. destruct Hh as [Hs Hc].
  destruct (od_get (_SPECS g) (spec_identity s)) as [x|] eqn:E; cbn.
  - split; [done|]. destruct (decide (spec_identity s ∈ spec_identity <$> l)) as [H|H]; [done|]. by apply Hn in H.
  - split; [|by apply Hn]. split; cbn.
    + rewrite od_set_new by (by apply od_get_none). by rewrite Hs, fmap_app.
    + intros c. unfold od_push. rewrite od_get_set. unfold with_wire_code. rewrite List.filter_app. cbn.
      case_bool_decide as Ec; [subst c; cbn; by rewrite Hc|by rewrite app_nil_r, Hc].
Qed.

(** Declaring succeeds exactly when no identity repeats. *)
Lemma declare_list l :
  match for_each declare l no_specs with
  | Ok g => holds g l /\ NoDup (spec_identity <$> l)
  | Err e => e = exc "ValueError" /\ ~ NoDup (spec_identity <$> l)
  end.
Proof.
  induction l as [|s l IH] using rev_ind; [split; [split; [done|intros c; done]|constructor]|].
  rewrite for_each_app, fmap_app. cbn [fmap list_fmap]. destruct (for_each declare l no_specs) as [g|e]; cbn [mbind result_bind for_each].
  - destruct IH as [Hh Hn]. pose proof (declare_holds g l s Hh) as H. destruct (declare g s) as [g'|e]; destruct H as [H1 H2]; cbn [mbind result_bind].
    + split; [done|]. apply list.NoDup_app. split; [done|]. split; [|apply NoDup_singleton]. by intros x Hx ->%list_elem_of_singleton.
    + split; [done|]. intros Hd. apply list.NoDup_app in Hd as (_ & Hd & _). apply (Hd _ H2). by left.
  - destruct IH as [-> Hn]. split; [done|]. intros Hd. by apply list.NoDup_app in Hd as [Hd _].
Qed.

Lemma import_parts ps g : for_each import_part ps g = for_each declare (ps ≫= part_specs) g.
Proof.
  revert g. induction ps as [|p ps IH]; intros g; [done|]. cbn [for_each mbind list_bind]. rewrite for_each_app. 
  assert (E : forall ls, for_each (fun g l => declare g (declarer_spec p.1 l)) ls g = for_each declare (declarer_spec p.1 <$> ls) g).
  { intros ls. revert g. induction ls as [|l ls IHl]; intros g; [done|]. cbn. destruct (declare g _); [apply IHl|done]. }
  change (import_part g p) with (for_each (fun g l => declare g (declarer_spec p.1 l)) p.2.*2 g). rewrite E. fold (part_specs p). destruct (for_each declare _ g); [apply IH|done].
Qed.

(** ** The catalog's own data *)

Fixpoint same_str (a b : pystr) : bool :=
  match a, b with
  | [], [] => true
  | x :: a, y :: b => if x =? y then same_str a b else false
  | _, _ => false
  end.
Fixpoint distinct (l : list pystr) : bool :=
  match l with [] => true | x :: l' => if existsb (same_str x) l' then false else distinct l' end.

Lemma same_str_refl a : same_str a a = true.
Proof. induction a as [|x a IH]; [done|]. cbn. by rewrite Z.eqb_refl. Qed.

Lemma distinct_NoDup {X} (f : X -> pystr) (l : list X) : distinct (f <$> l) = true -> NoDup l.
Proof.
  induction l as [|x l IH]; cbn; [constructor|]. destruct (existsb _ _) eqn:E; [done|]. intros H. constructor; [|by apply IH].
  intros Hin. assert (Ht : existsb (same_str (f x)) (f <$> l) = true); [|congruence].
  apply existsb_exists. exists (f x). split; [by apply list_elem_of_In, list_elem_of_fmap_2|apply same_str_refl].
Qed.

Definition dotted (i : identity) : pystr := i.1 ++ 46 :: i.2.

Lemma identities_distinct : distinct (dotted <$> (spec_identity <$> catalog_specs)) = true.
Proof. vm_compute. reflexivity. Qed.

(** The attributes of the namespace modules. *)
Definition attributes : list identity := catalog_parts ≫= fun p => (fun al => (_namespace p.1, py al.1)) <$> p.2.

Lemma attributes_distinct : distinct (dotted <$> attributes) = true.
Proof. vm_compute. reflexivity. Qed.

Definition attribute_ok (p : CatalogPart) (al : string * Line) : bool := same_str (s_symbol (declarer_spec p.1 al.2)) (py al.1).
Lemma attributes_match : forallb (fun p => forallb (attribute_ok p) p.2) catalog_parts = true.
Proof. vm_compute. reflexivity. Qed.

(** Every profile allows a phase. *)
Lemma profiles_phases : forallb (fun p => negb (bool_decide (_phases p.1 = []))) catalog_parts = true.
Proof. vm_compute. reflexivity. Qed.

(** What [check_integrity] asks of one entry. *)
Definition spec_sound (known : list identity) (s : ReasonSpec) : bool :=
  negb (bool_decide (s_rules s = [])) &&
  match s_replaced_by s with
  | Some r => negb (bool_decide (s_deprecated_in s = None)) && existsb (fun i => same_str i.1 r.1 && same_str i.2 r.2) known
  | None => true
  end.
Lemma specs_sound : forallb (spec_sound (spec_identity <$> catalog_specs)) catalog_specs = true.
Proof. vm_compute. reflexivity. Qed.

(** The identities the failure adapter assigns by itself. *)
Definition adapter_identities : list identity := diagnostics ++ fixed.*2.
Definition known (ids : list identity) (i : identity) : bool := existsb (fun j => same_str j.1 i.1 && same_str j.2 i.2) ids.
Lemma adapter_known : forallb (known (spec_identity <$> catalog_specs)) adapter_identities = true.
Proof. vm_compute. reflexivity. Qed.

(** The namespace of every coded exception family is one of the catalog's. *)
Lemma coded_known : forallb (fun ns => existsb (fun p => same_str (_namespace p.1) ns) catalog_parts) coded.*2 = true.
Proof. vm_compute. reflexivity. Qed.

Lemma same_str_eq a b : same_str a b = true -> a = b.
Proof.
  revert b. induction a as [|x a IH]; intros [|y b]; cbn; try done. destruct (x =? y) eqn:E; [|done]. intros H.
  apply Z.eqb_eq in E as ->. by rewrite (IH _ H).
Qed.

Lemma known_elem ids i : known ids i = true -> i ∈ ids.
Proof.
  intros H. apply existsb_exists in H as ([n c] & Hin & H). cbn in H. apply andb_true_iff in H as [H1%same_str_eq H2%same_str_eq].
  apply list_elem_of_In. destruct i; cbn in *; by subst.
Qed.

(** The registry a program of this catalog runs with. *)
Lemma catalog_registry : exists g, import_catalog = Ok g /\ holds g catalog_specs /\ NoDup (spec_identity <$> catalog_specs).
Proof.
  unfold import_catalog. rewrite import_parts. pose proof (declare_list catalog_specs) as H. fold catalog_specs.
  destruct (for_each declare catalog_specs no_specs) as [g|e]; [exists g; split; [reflexivity|exact H]|].
  destruct H as [_ H]. destruct H. exact (distinct_NoDup dotted _ identities_distinct).
Qed.

Lemma catalog_registered g : import_catalog = Ok g -> registry_ok g.
Proof.
  unfold import_catalog. pose proof profiles_phases as Hp. revert Hp. generalize catalog_parts as ps.
  assert (H : forall ps g0, registry_ok g0 -> forallb (fun p => negb (bool_decide (_phases p.1 = []))) ps = true ->
    forall g, for_each import_part ps g0 = Ok g -> registry_ok g); [|intros ps Hp; by apply (H ps no_specs no_specs_ok)].
  induction ps as [|p ps IH]; intros g0 H0 Hp g1 H; cbn in H; [by injection H as <-|].
  cbn in Hp. apply andb_true_iff in Hp as [Hn Hp]. destruct (import_part g0 p) as [g2|] eqn:E; [|done].
  apply (IH g2); [|done|done]. apply negb_true_iff, bool_decide_eq_false in Hn. by apply declare_all_ok in E as [E _].
Qed.

Lemma catalog_integrity g : holds g catalog_specs -> check_integrity g = [].
Proof.
  intros Hh. unfold check_integrity. assert (H : forall s, s ∈ specs g -> spec_sound (spec_identity <$> catalog_specs) s = true).
  { intros s Hs. unfold specs in Hs. rewrite sorted_by_perm, (proj1 Hh), <- list_fmap_compose in Hs.
    apply list_elem_of_fmap in Hs as (s' & -> & Hs). pose proof specs_sound as Ha. rewrite forallb_forall in Ha. by apply Ha, list_elem_of_In. }
  induction (specs g) as [|s l IH]; [done|]. cbn. rewrite IH by (intros s' Hs'; apply H; by right).
  assert (Hs : spec_sound (spec_identity <$> catalog_specs) s = true) by (apply H; left). unfold spec_sound in Hs.
  apply andb_true_iff in Hs as [Hr Hs]. apply negb_true_iff in Hr. rewrite Hr. rewrite app_nil_r. cbn.
  destruct (s_replaced_by s) as [r|]; [|done]. apply andb_true_iff in Hs as [Hd Hs]. apply negb_true_iff in Hd. rewrite Hd. cbn.
  apply known_elem in Hs. unfold od_has. rewrite bool_decide_eq_true_2; [done|]. apply not_eq_None_Some.
  intros Hn. exact (proj1 (holds_get g _ r Hh) Hn Hs).
Qed.

Lemma parts_specs p al : p ∈ catalog_parts -> al ∈ p.2 -> declarer_spec p.1 al.2 ∈ catalog_specs.
Proof.
  intros Hp Ha. unfold catalog_specs. apply list_elem_of_bind. exists p. split; [|done]. unfold part_specs. by apply list_elem_of_fmap_2, list_elem_of_fmap_2.
Qed.

#[local] Opaque catalog_parts catalog_specs.

Lemma catalog_get g i s : holds g catalog_specs -> NoDup (spec_identity <$> catalog_specs) ->
  od_get (_SPECS g) i = Some s <-> s ∈ catalog_specs /\ spec_identity s = i.
Proof.
  intros Hh Hn. split.
  - intros H%od_get_elem. rewrite (proj1 Hh) in H. by apply list_elem_of_fmap in H as (s' & [= -> ->] & Hs).
  - intros [Hs <-]. apply od_get_unique; [rewrite (holds_keys _ _ Hh); exact Hn|]. rewrite (proj1 Hh). by apply (list_elem_of_fmap_2 entry_of).
Qed.

(** the reason catalog is sound. Importing the package succeeds; the registry it
    leaves holds exactly the catalog's entries, by identity and by wire code in their
    order; it is well formed and its integrity check finds nothing; it holds every
    reason the failure adapter assigns by itself and the fallbacks of the parser; and
    every module attribute names its own entry and hides no other. *)
Theorem catalog_sound : exists g, import_catalog = Ok g /\ registry_ok g /\ check_integrity g = [] /\
  (forall i s, od_get (_SPECS g) i = Some s <-> s ∈ catalog_specs /\ spec_identity s = i) /\
  (forall c, lookup_code g (PStr c) = with_wire_code catalog_specs c) /\
  (forall i, i ∈ adapter_identities -> is_Some (od_get (_SPECS g) i)) /\
  (forall ns, ns ∈ coded.*2 -> exists p, p ∈ catalog_parts /\ _namespace p.1 = ns) /\
  NoDup attributes /\
  forall p al, p ∈ catalog_parts -> al ∈ p.2 ->
    let s := declarer_spec p.1 al.2 in get g (s_namespace s) (s_code s) = Ok s /\ s_symbol s = py al.1.
Proof.
  destruct catalog_registry as (g & Hg & Hh & Hn). exists g. split; [done|]. split; [by apply catalog_registered|].
  split; [by apply catalog_integrity|]. split; [intros i s; by apply catalog_get|]. split; [apply Hh|]. split.
  { intros i Hi. pose proof adapter_known as Ha. rewrite forallb_forall in Ha. apply list_elem_of_In, Ha, known_elem in Hi.
    apply not_eq_None_Some. intros H. exact (proj1 (holds_get g _ i Hh) H Hi). }
  split.
  { intros ns Hns. pose proof coded_known as Ha. rewrite forallb_forall in Ha. apply list_elem_of_In, Ha, existsb_exists in Hns as (p & Hp & He).
    exists p. split; [by apply list_elem_of_In|by apply same_str_eq]. }
  split; [exact (distinct_NoDup dotted _ attributes_distinct)|]. intros p al Hp Ha. cbv zeta. split.
  - unfold get. assert (H : od_get (_SPECS g) (spec_identity (declarer_spec p.1 al.2)) = Some (declarer_spec p.1 al.2)).
    { apply catalog_get; [done|done|]. split; [by apply parts_specs|done]. }
    unfold spec_identity in H. by rewrite H.
  - pose proof attributes_match as H. rewrite forallb_forall in H. apply list_elem_of_In in Hp. specialize (H p Hp).
    rewrite forallb_forall in H. apply list_elem_of_In in Ha. by apply same_str_eq, H.
Qed.
