(* ===== verification/FailuresTheory.v ===== *)
(** * Failures: trust and the first causal failure

    Whatever an exception carries, its record is valid and its identity comes from
    the engine's own tables; and in a run's scope the first failure stays first. *)

From S2P Require Import Prelude PyText PyData Reasons ReasonsTheory Failures.

Section Theory.
Context (g : Registry) (Hg : registry_ok g) (Hd : has_diagnostics g).

(** ** Classification *)

Definition with_code (e : pyexn) (code : option pystr) : pyexn :=
  MkExn (e_id e) (e_mro e) code (e_errno e) (e_dict e) (e_cause e).

Lemma first_in_mro_elem {V} (mro : list cls) (table : odict cls V) v :
  _first_in_mro mro table = Some v -> exists c, (c ∈ mro) /\ ((c, v) ∈ table).
Proof.
  induction mro as [|c mro IH]; [discriminate|]. cbn. destruct (od_get table c) as [v'|] eqn:E.
  - intros [= ->]. exists c. split; [left|by apply od_get_elem].
  - intros H. apply IH in H as (c' & Hc & Ht). exists c'. split; [by right|done].
Qed.

(** Where an identity can come from. *)
Definition engine_identity (e : pyexn) (i : identity) : Prop :=
  (i ∈ diagnostics) \/ (i ∈ fixed.*2) \/
  exists c ns code, (c ∈ e_mro e) /\ ((c, ns) ∈ coded) /\ e_code e = Some code /\ i = (ns, code) /\ is_Some (od_get (_SPECS g) i).

Lemma classified_engine e p ctx : engine_identity e (classified g e p ctx).
Proof.
  unfold classified, engine_identity. destruct (isinstance _ _); [left; unfold diagnostics; set_solver|].
  destruct (publishing p ctx && _); [left; unfold diagnostics; set_solver|].
  destruct (_first_in_mro (e_mro e) coded) as [ns|] eqn:Ec.
  - destruct (e_code e) as [code|] eqn:Ecode; [|left; unfold diagnostics; set_solver].
    case_bool_decide as Hs; [|left; unfold diagnostics; set_solver].
    apply first_in_mro_elem in Ec as (c & Hc & Ht). right. right. exists c, ns, code. done.
  - destruct (_first_in_mro (e_mro e) fixed) as [i|] eqn:Ef.
    + apply first_in_mro_elem in Ef as (c & _ & Ht). right. left. apply list_elem_of_fmap. by exists (c, i).
    + destruct (publishing p ctx && _); left; unfold diagnostics; set_solver.
Qed.

Lemma diagnostic_for name p ctx :
  decoy_reason name ∈ diagnostics -> valid_context (default empty_context ctx) ->
  exists r, for_reason g (decoy_reason name) p ctx = Ok r /\ validate_record g r = Ok tt /\ (namespace r, code r) = decoy_reason name.
Proof.
  intros Hin Hc. destruct (diagnostic_ok g name Hg Hd Hin p ctx Hc) as (r & H & Hv & Hi & _). by exists r.
Qed.

Lemma unseen_record m e p ctx :
  _lookup_captured g m e = None -> valid_context (default empty_context ctx) ->
  exists r, reason_from_exception g m e p ctx = Ok r /\ validate_record g r = Ok tt /\ engine_identity e (namespace r, code r).
Proof.
  intros Hm Hc. unfold reason_from_exception, _classify. rewrite Hm.
  destruct (od_get (_SPECS g) (classified g e p ctx)) as [s|] eqn:Es.
  - destruct (for_reason_ok g Hg _ s p ctx Es Hc) as (rule & _ & H & Hv). rewrite H. eexists. split; [reflexivity|]. split; [exact Hv|].
    cbn. rewrite <- surjective_pairing. apply classified_engine.
  - destruct (for_reason g (classified g e p ctx) p ctx) as [r|] eqn:Ef.
    + unfold for_reason, get in Ef. destruct (classified g e p ctx) as [ns code]. cbn [fst snd] in Ef. by rewrite Es in Ef.
    + destruct (diagnostic_for "unexpected_error" p ctx) as (r & H & Hv & Hi); [unfold diagnostics; set_solver|done|].
      exists r. split; [done|]. split; [done|]. left. rewrite Hi. unfold diagnostics. set_solver.
Qed.

(** an exception's own code is trusted only within a registered family. For
    every exception the engine has not captured before, classification returns a
    valid record and never raises; its identity is one of the engine's fixed
    reasons, or the code of an exception one of whose classes is a registered
    family, in that family's namespace, if the registry has it there; and the code
    of any other exception has no effect at all. *)
Theorem untrusted_code_ignored m e p ctx :
  _lookup_captured g m e = None -> valid_context (default empty_context ctx) ->
  exists r, reason_from_exception g m e p ctx = Ok r /\ validate_record g r = Ok tt /\ engine_identity e (namespace r, code r) /\
    (_first_in_mro (e_mro e) coded = None -> forall code', reason_from_exception g m (with_code e code') p ctx = Ok r).
Proof.
  intros Hm Hc. destruct (unseen_record m e p ctx Hm Hc) as (r & H & Hv & He). exists r. split_and!; [done|done|done|].
  intros Hno code'. rewrite <- H. unfold reason_from_exception, _classify, classified.
  change (_lookup_captured g m (with_code e code')) with (_lookup_captured g m e). rewrite Hm. cbn [e_mro with_code].
  by rewrite Hno.
Qed.

(** ** Scopes *)

(** Whether an exception of an identity takes attributes. *)
Context (takes : nat -> bool).

Definition exn_ok (e : pyexn) : Prop := e_dict e = takes (e_id e).
Definition ident (r : ReasonRecord) : pystr * pystr * Phase := (namespace r, code r, phase r).
Definition memo_ok (m : captures) : Prop :=
  (forall i r, m !! i = Some r -> validate_record g r = Ok tt) /\ forall i r, m !! i = Some r -> takes i = true.

(** What a scope keeps: valid records, few secondary ones, and a first failure
    whose exception still carries the same reason. *)
Record scope_ok (m : captures) (sc : FailureScope) : Prop := {
  so_first r : first sc = Some r -> validate_record g r = Ok tt;
  so_secondary : Forall (fun r => validate_record g r = Ok tt) (secondary sc) /\ (length (secondary sc) <= 4)%nat;
  so_exc i : _first_exc sc = Some i -> is_Some (first sc) /\ (takes i = true -> is_Some (m !! i));
  so_link i r f : _first_exc sc = Some i -> m !! i = Some r -> first sc = Some f -> ident r = ident f;
}.

Lemma new_scope_ok m : scope_ok m new_scope.
Proof. constructor; try done. split; [constructor|cbn; lia]. Qed.

Lemma lookup_memo m e r : memo_ok m -> exn_ok e -> _lookup_captured g m e = Some r <-> m !! e_id e = Some r.
Proof.
  intros [Hv Ht] He. unfold _lookup_captured. rewrite He. split.
  - destruct (takes (e_id e)); [|discriminate]. destruct (m !! e_id e) as [r'|]; [|discriminate]. destruct (validate_record g r'); congruence.
  - intros H. by rewrite (Ht _ _ H), H, (Hv _ _ H).
Qed.

Lemma remember_ok m e r : memo_ok m -> exn_ok e -> validate_record g r = Ok tt -> memo_ok (_remember m e r).
Proof.
  intros [Hv Ht] He Hr. unfold _remember. destruct (e_dict e) eqn:Ed; [|done]. split; intros i r' [[<- <-]|[_ H]]%lookup_insert_Some; try done.
  - by apply (Hv i).
  - by rewrite <- He.
  - by apply (Ht i r').
Qed.

Lemma in_context_ok known ctx :
  validate_record g known = Ok tt -> valid_context (default empty_context ctx) ->
  exists r, in_context g known ctx = Ok r /\ validate_record g r = Ok tt /\ ident r = ident known.
Proof.
  intros Hk Hc. destruct ctx as [c|]; [|by exists known].
  destruct (with_context_ok g known c Hk Hc) as (r & H & Hv & Hi). by exists r.
Qed.

Lemma fresh_record_ok m e p ctx reason :
  _lookup_captured g m e = None -> valid_context (default empty_context ctx) ->
  (forall i, reason = Some i -> is_Some (od_get (_SPECS g) i)) ->
  exists r, fresh_record g m e p ctx reason = Ok r /\ validate_record g r = Ok tt.
Proof.
  intros Hm Hc Hr. destruct reason as [i|]; cbn [fresh_record].
  - destruct (Hr i eq_refl) as [s Hs]. destruct (for_reason_ok g Hg i s p ctx Hs Hc) as (rule & _ & H & Hv). eauto.
  - destruct (unseen_record m e p ctx Hm Hc) as (r & H & Hv & _). eauto.
Qed.

(** Remembering an exception that the scope's first failure is not leaves the scope. *)
Lemma scope_remember m sc e r :
  memo_ok m -> exn_ok e -> scope_ok m sc -> m !! e_id e = None -> scope_ok (_remember m e r) sc.
Proof.
  intros Hm He [Hf Hs He' Hl] Hnone. assert (Hne : forall i, _first_exc sc = Some i -> takes i = true -> i <> e_id e).
  { intros i Hi Ht ->. destruct (He' _ Hi) as [_ H]. destruct (H Ht) as [x Hx]. congruence. }
  unfold _remember. destruct (e_dict e) eqn:Ed; [|done]. constructor; [done|done| |].
  - intros i Hi. destruct (He' i Hi) as [H1 H2]. split; [done|]. intros Ht. rewrite lookup_insert_ne; [by apply H2|]. intros <-. by apply (Hne _ Hi).
  - intros i r' f Hi [[<- <-]|[_ H]]%lookup_insert_Some Hff; [|by apply (Hl i)]. exfalso. apply (Hne _ Hi); [|done]. by rewrite <- He.
Qed.

Lemma capture_ok m sc e p ctx sec reason :
  memo_ok m -> exn_ok e -> scope_ok m sc -> valid_context (default empty_context ctx) ->
  (forall i, reason = Some i -> is_Some (od_get (_SPECS g) i)) ->
  exists m' sc' r, capture g m sc e p ctx sec reason = Ok (m', sc', r) /\ memo_ok m' /\ scope_ok m' sc' /\
    validate_record g r = Ok tt /\
    (forall f, first sc = Some f -> first sc' = Some f /\ r = f) /\
    (first sc = None -> sec = false -> first sc' = Some r /\ _first_exc sc' = Some (e_id e)) /\
    (forall other, scope_ok m other -> scope_ok m' other).
Proof.
  intros Hm He Hsc Hc Hr. pose proof Hsc as [Hf [Hs Hlen] Hx Hl]. unfold capture.
  destruct (_lookup_captured g m e) as [known|] eqn:Ek.
  - pose proof (proj1 (lookup_memo m e known Hm He) Ek) as Hk.
    destruct (in_context_ok known ctx (proj1 Hm _ _ Hk) Hc) as (r & -> & Hv & Hi). cbn [mbind result_bind].
    destruct (first sc) as [f|] eqn:Ef.
    + exists m, sc, f. split_and!; try done; [by apply Hf|by intros ? [= <-]].
    + eexists m, _, r. split; [reflexivity|]. split_and!; try done. constructor; cbn; try done.
      * by intros ? [= <-].
      * intros i [= <-]. split; [by eexists|]. intros _. by eexists.
      * intros i r' f [= <-] Hr' [= <-]. congruence.
  - destruct (fresh_record_ok m e p ctx reason Ek Hc Hr) as (r & -> & Hv). cbn [mbind result_bind].
    assert (Hnone : m !! e_id e = None).
    { destruct (m !! e_id e) as [x|] eqn:E; [|done]. by apply (lookup_memo m e x Hm He) in E; rewrite E in Ek. }
    pose proof (remember_ok m e r Hm He Hv) as Hm'. pose proof (scope_remember m sc e r Hm He Hsc Hnone) as Hsc'.
    pose proof (fun other Ho => scope_remember m other e r Hm He Ho Hnone) as Hothers.
    assert (Hmore : scope_ok (_remember m e r)
      (if zlen (secondary sc) <? _MAX_SECONDARY then MkScope (first sc) (secondary sc ++ [r]) (_first_exc sc) else sc)).
    { destruct (zlen (secondary sc) <? _MAX_SECONDARY) eqn:Elt; [|done]. destruct Hsc' as [Hf' Hs' Hx' Hl']. constructor; cbn; try done.
      split; [apply Forall_app; by split; [|repeat constructor]|]. rewrite length_app. unfold zlen, _MAX_SECONDARY in Elt. cbn. lia. }
    set (sc2 := if zlen (secondary sc) <? _MAX_SECONDARY then _ else sc) in *.
    assert (Hsame : first sc2 = first sc) by (unfold sc2; by destruct (_ <? _)).
    destruct (first sc) as [f|] eqn:Ef; [|destruct sec].
    + exists (_remember m e r), sc2, f. split; [by rewrite Hsame|]. split_and!; try done; [by apply Hf|by intros ? [= <-]].
    + exists (_remember m e r), sc2, r. split; [by rewrite Hsame|]. by split_and!.
    + eexists _, _, r. split; [reflexivity|]. split_and!; try done. constructor; cbn.
      * by intros ? [= <-].
      * done.
      * intros i [= <-]. split; [by eexists|]. unfold _remember. rewrite He. intros ->. rewrite lookup_insert_eq. by eexists.
      * intros i r' f [= <-] Hr' [= <-]. unfold _remember in Hr'. destruct (e_dict e); [|congruence]. rewrite lookup_insert_eq in Hr'. congruence.
Qed.

(** So does remembering more of what is known already. *)
Lemma scope_update m sc i known r :
  m !! i = Some known -> ident r = ident known -> scope_ok m sc -> scope_ok (<[i := r]> m) sc.
Proof.
  intros Hk Hi [Hf Hs Hx Hl]. constructor; [done|done| |].
  - intros j Hj. destruct (Hx j Hj) as [H1 H2]. split; [done|]. intros Ht. destruct (decide (i = j)) as [<-|Hne].
    + rewrite lookup_insert_eq. by eexists.
    + rewrite lookup_insert_ne by done. by apply H2.
  - intros j r' f Hj [[<- <-]|[_ H]]%lookup_insert_Some Hff; [|by apply (Hl j)]. rewrite Hi. by apply (Hl i).
Qed.

(** What happens in a run's scope: captures, amendments, and with-blocks of nested
    scopes, entered and left. *)
Inductive fop :=
| Capture (e : pyexn) (p : Phase) (ctx : option ReasonContext) (sec : bool) (reason : option identity)
| Amend (e : pyexn) (ctx : ReasonContext)
| Enter
| Leave.

Definition fop_ok (o : fop) : Prop :=
  match o with
  | Capture e p ctx sec reason => exn_ok e /\ valid_context (default empty_context ctx) /\
      forall i, reason = Some i -> is_Some (od_get (_SPECS g) i)
  | Amend e ctx => exn_ok e /\ valid_context ctx
  | Enter | Leave => True
  end.

(** The depth an operation leaves; a block left was entered. *)
Definition deeper (d : nat) (o : fop) : option nat :=
  match o, d with
  | Enter, _ => Some (S d)
  | Leave, O => None
  | Leave, S d => Some d
  | _, _ => Some d
  end.
Fixpoint depth (d : nat) (ops : list fop) : option nat :=
  match ops with [] => Some d | o :: ops => d ← deeper d o; depth d ops end.

(** The record a capture reports, none for the others. *)
Definition fstep (w : Adapter) (o : fop) : result (Adapter * option ReasonRecord) :=
  match o with
  | Capture e p ctx sec reason => out ← capture_failure g w e p ctx sec reason; Ok (out.1, Some out.2)
  | Amend e ctx => out ← amend_failure g w e ctx; Ok (out.1, None)
  | Enter => Ok (open_scope w, None)
  | Leave => Ok (close_scope w, None)
  end.

(** A run, with the records reported to the outermost of the scopes it is followed
    from, [d] blocks below the innermost. *)
Fixpoint frun (d : nat) (ops : list fop) (w : Adapter) : result (Adapter * list ReasonRecord) :=
  match ops with
  | [] => Ok (w, [])
  | o :: ops' =>
      out ← fstep w o;
      rest ← frun (default d (deeper d o)) ops' out.1;
      Ok (rest.1, match d, out.2 with O, Some r => r :: rest.2 | _, _ => rest.2 end)
  end.

(** The scopes opened since a run began, on top of the [outer] ones. *)
Definition adapter_ok (mine outer : list FailureScope) (w : Adapter) : Prop :=
  _stack w = mine ++ outer /\ memo_ok (seen w) /\ Forall (scope_ok (seen w)) mine.

Definition keeps_first (sc sc' : FailureScope) : Prop :=
  forall f, first sc = Some f -> exists f', first sc' = Some f' /\ ident f' = ident f.

Lemma keeps_refl sc : keeps_first sc sc.
Proof. intros f Hf. by exists f. Qed.

Lemma amend_ok outer w sc mine e ctx :
  adapter_ok (sc :: mine) outer w -> exn_ok e -> valid_context ctx ->
  exists w' sc' o, amend_failure g w e ctx = Ok (w', o) /\ adapter_ok (sc' :: mine) outer w' /\ keeps_first sc sc'.
Proof.
  intros (Hst & Hm & Hall) He Hc. unfold amend_failure. destruct (_lookup_captured g (seen w) e) as [known|] eqn:Ek.
  2: { exists w, sc, None. split; [done|]. split; [done|]. apply keeps_refl. }
  pose proof (proj1 (lookup_memo _ e known Hm He) Ek) as Hk.
  destruct (with_context_ok g known ctx (proj1 Hm _ _ Hk) Hc) as (r & -> & Hv & Hi). cbn [mbind result_bind]. rewrite Hst. cbn [app].
  pose proof (remember_ok _ e r Hm He Hv) as Hm'. assert (Ht : takes (e_id e) = true) by (by apply (proj2 Hm _ _ Hk)).
  assert (Hrem : _remember (seen w) e r = <[e_id e := r]> (seen w)) by (unfold _remember; by rewrite He, Ht). rewrite Hrem in *.
  assert (Hall' : Forall (scope_ok (<[e_id e := r]> (seen w))) (sc :: mine))
    by (eapply list.Forall_impl; [exact Hall|]; intros; by eapply scope_update).
  apply list.Forall_cons in Hall as [[Hf [Hs Hlen] Hx Hl] _]. apply list.Forall_cons in Hall' as [Hsc' Hmine].
  case_bool_decide as Hfe.
  - destruct (Hx _ Hfe) as [[f Hff] _]. eexists _, (MkScope (Some r) (secondary sc) (_first_exc sc)), _. split; [reflexivity|].
    split; [split; [done|split; [done|]]|].
    + constructor; [|done]. constructor; cbn; try done.
      * by intros ? [= <-].
      * intros i Hi'. rewrite Hfe in Hi'. injection Hi' as <-. split; [by eexists|]. intros _. rewrite lookup_insert_eq. by eexists.
      * intros i r' f' Hi' Hr' [= <-]. rewrite Hfe in Hi'. injection Hi' as <-. rewrite lookup_insert_eq in Hr'. congruence.
    + intros f' Hf'. exists r. split; [done|]. rewrite Hff in Hf'. injection Hf' as <-. rewrite <- (Hl _ _ _ Hfe Hk Hff). exact Hi.
  - eexists _, sc, _. split; [reflexivity|]. split; [split; [done|split; [done|by constructor]]|]. apply keeps_refl.
Qed.

Lemma fstep_ok outer w sc mine o :
  adapter_ok (sc :: mine) outer w -> fop_ok o ->
  exists w' out, fstep w o = Ok (w', out) /\
    match o with
    | Enter => adapter_ok (new_scope :: sc :: mine) outer w' /\ out = None
    | Leave => adapter_ok mine outer w' /\ out = None
    | _ => exists sc', adapter_ok (sc' :: mine) outer w' /\ keeps_first sc sc' /\
             forall r f, out = Some r -> first sc = Some f -> r = f
    end.
Proof.
  intros Ha Ho. pose proof Ha as (Hst & Hm & Hall). destruct o as [e p ctx sec reason|e ctx| |]; cbn [fstep fop_ok] in *.
  - destruct Ho as (He & Hc & Hr). pose proof Hall as Hall0. apply list.Forall_cons in Hall as [Hsc Hmine].
    destruct (capture_ok _ _ e p ctx sec reason Hm He Hsc Hc Hr) as (m' & sc' & r & Hcap & Hm' & Hsc' & Hv & Hkeep & _ & Hothers).
    unfold capture_failure. rewrite Hst. cbn [app]. rewrite Hcap. cbn [mbind result_bind fst snd].
    eexists _, (Some r). split; [reflexivity|]. exists sc'. split; [split; [done|split; [done|]]|split].
    + constructor; [done|]. by eapply list.Forall_impl.
    + intros f Hf. exists f. split; [by apply Hkeep|done].
    + intros r' f [= <-] Hf. by apply Hkeep.
  - destruct Ho as [He Hc]. destruct (amend_ok outer w sc mine e ctx Ha He Hc) as (w' & sc' & o & -> & Ha' & Hk).
    cbn [mbind result_bind fst]. eexists w', None. split; [done|]. by exists sc'.
  - eexists _, None. split; [done|]. split; [|done]. unfold open_scope. split; [cbn; by rewrite Hst|]. split; [done|].
    constructor; [apply new_scope_ok|done].
  - eexists _, None. split; [done|]. split; [|done]. unfold close_scope. split; [cbn; by rewrite Hst|]. split; [done|].
    by apply list.Forall_cons in Hall as [_ ?].
Qed.

Lemma frun_ok outer ops : Forall fop_ok ops -> forall w inner sc n,
  adapter_ok (inner ++ [sc]) outer w -> depth (length inner) ops = Some n ->
  exists w' inner' sc' rs, frun (length inner) ops w = Ok (w', rs) /\ adapter_ok (inner' ++ [sc']) outer w' /\
    length inner' = n /\ keeps_first sc sc' /\ forall f, first sc = Some f -> Forall (fun r => ident r = ident f) rs.
Proof.
  induction 1 as [|o ops Ho Hops IH]; intros w inner sc n Ha Hdep.
  { injection Hdep as <-. exists w, inner, sc, []. split; [done|]. split; [done|]. split; [done|]. split; [apply keeps_refl|constructor]. }
  cbn [depth] in Hdep. destruct (deeper (length inner) o) as [d|] eqn:Ed; [|done]. cbn [mbind option_bind] in Hdep. cbn [frun]. rewrite Ed. cbn [default from_option id].
  (* One step: the scopes it leaves, and what it reported to [sc]. *)
  assert (Hstep : exists w1 inner1 sc1 out, fstep w o = Ok (w1, out) /\ adapter_ok (inner1 ++ [sc1]) outer w1 /\ d = length inner1 /\
      keeps_first sc sc1 /\ forall r f, length inner = O -> out = Some r -> first sc = Some f -> r = f).
  { destruct inner as [|top inner].
    - destruct (fstep_ok outer w sc [] o Ha Ho) as (w1 & out & Hs & H). destruct o as [e p ctx sec reason|e ctx| |]; cbn in Ed; try discriminate; injection Ed as <-.
      + destruct H as (sc1 & H1 & H2 & H3). exists w1, [], sc1, out. split_and!; eauto.
      + destruct H as (sc1 & H1 & H2 & H3). exists w1, [], sc1, out. split_and!; eauto.
      + destruct H as [H ->]. exists w1, [new_scope], sc, None. split_and!; try done. apply keeps_refl.
    - destruct (fstep_ok outer w top (inner ++ [sc]) o Ha Ho) as (w1 & out & Hs & H). destruct o as [e p ctx sec reason|e ctx| |]; cbn in Ed; injection Ed as <-.
      + destruct H as (top1 & H1 & _). exists w1, (top1 :: inner), sc, out. split_and!; try done. apply keeps_refl.
      + destruct H as (top1 & H1 & _). exists w1, (top1 :: inner), sc, out. split_and!; try done. apply keeps_refl.
      + destruct H as [H ->]. exists w1, (new_scope :: top :: inner), sc, None. split_and!; try done. apply keeps_refl.
      + destruct H as [H ->]. exists w1, inner, sc, None. split_and!; try done. apply keeps_refl. }
  destruct Hstep as (w1 & inner1 & sc1 & out & -> & Ha1 & -> & Hk1 & Hr1). cbn [mbind result_bind fst snd].
  destruct (IH w1 inner1 sc1 n Ha1 Hdep) as (w2 & inner2 & sc2 & rs & -> & Ha2 & Hn & Hk2 & Hr2). cbn [mbind result_bind fst snd].
  eexists w2, inner2, sc2, _. split; [reflexivity|]. split; [done|]. split; [done|]. split.
  - intros f Hf. destruct (Hk1 f Hf) as (f1 & Hf1 & <-). by apply Hk2.
  - intros f Hf. destruct (Hk1 f Hf) as (f1 & Hf1 & Hi). assert (Hrs : Forall (fun r => ident r = ident f) rs) by (rewrite <- Hi; by apply Hr2).
    destruct (length inner) eqn:El, out as [r|]; try done. constructor; [|done]. by rewrite (Hr1 r f eq_refl eq_refl Hf).
Qed.

Lemma close_scopes inner sc outer w :
  _stack w = inner ++ sc :: outer -> _stack (Nat.iter (S (length inner)) close_scope w) = outer.
Proof.
  revert w. induction inner as [|top inner IH]; intros w H.
  - cbn. unfold close_scope. cbn. by rewrite H.
  - cbn [length]. rewrite Nat.iter_succ_r. apply IH. unfold close_scope. cbn. by rewrite H.
Qed.

(** C10: the first causal failure of a run stays its reason. Opening a scope and
    observing any sequence of failures and amendments, with any nested scopes entered
    and left among them, never raises; if the first thing observed is a primary failure,
    the record reported for it is the scope's first failure ever after, with the same
    identity and phase whatever else fails or is amended, there or in the nested scopes,
    and every later capture of any exception in this scope reports that reason; at most
    four secondary records are kept; and once the scopes are left, the outer runs'
    scopes are untouched. *)
Theorem first_failure_sticks w e p ctx reason ops n :
  memo_ok (seen w) -> fop_ok (Capture e p ctx false reason) -> Forall fop_ok ops -> depth 0 ops = Some n ->
  exists w1 r w2 rs inner sc, capture_failure g (open_scope w) e p ctx false reason = Ok (w1, r) /\ frun 0 ops w1 = Ok (w2, rs) /\
    _stack w2 = inner ++ sc :: _stack w /\ length inner = n /\ (exists f, first sc = Some f /\ ident f = ident r) /\
    Forall (fun r' => ident r' = ident r) rs /\ (length (secondary sc) <= 4)%nat /\
    _stack (Nat.iter (S n) close_scope w2) = _stack w.
Proof.
  intros Hm (He & Hc & Hr) Hops Hdep.
  destruct (capture_ok (seen w) new_scope e p ctx false reason Hm He (new_scope_ok _) Hc Hr) as (m & sc & r & Hcap & Hm' & Hsc & Hv & _ & Hfirst & _).
  destruct (Hfirst eq_refl eq_refl) as [Hf _]. unfold capture_failure, open_scope. cbn [_stack seen]. rewrite Hcap. cbn [mbind result_bind fst snd].
  destruct (frun_ok (_stack w) ops Hops (MkAdapter m (sc :: _stack w)) [] sc n) as (w2 & inner & sc2 & rs & Hrun & (Hst & _ & Hsc2) & Hn & Hk & Hrs);
    [split; [done|split; [done|by constructor]]|done|].
  rewrite <- app_assoc in Hst. cbn [app] in Hst.
  exists (MkAdapter m (sc :: _stack w)), r, w2, rs, inner, sc2. split_and!; [done|done|done|done| | | |].
  - by apply Hk.
  - by apply Hrs.
  - apply list.Forall_app in Hsc2 as [_ Hsc2]. apply list.Forall_cons in Hsc2 as [Hsc2 _]. apply Hsc2.
  - rewrite <- Hn. by eapply close_scopes.
Qed.
End Theory.

(** ** Witnesses *)

(** A third-party exception that copies an engine code, and a full disk. *)
Definition foreign : pyexn :=
  MkExn 1 [(py "vendor.parser", py "ParserError"); builtin "ValueError"; builtin "Exception"] (Some (py "cleanup_failed")) None true None.
Definition disk_full : pyexn := MkExn 2 [builtin "OSError"; builtin "Exception"] None (Some 28) true None.

Lemma untrusted_code_ignored_witness :
  exists r, reason_from_exception the_registry ∅ foreign MASK None = Ok r /\
    reason_from_exception the_registry ∅ (with_code foreign (Some (py "run_paused"))) MASK None = Ok r.
Proof.
  destruct (untrusted_code_ignored the_registry (proj1 the_registry_ok) (proj2 the_registry_ok) ∅ foreign MASK None) as (r & H & _ & _ & Hi).
  - vm_compute. reflexivity.
  - apply empty_context_valid.
  - exists r. split; [exact H|]. apply Hi. vm_compute. reflexivity.
Defined.

Lemma memo_empty g takes : memo_ok g takes ∅.
Proof. split; intros i r H; by rewrite lookup_empty in H. Qed.

(** A full disk, then a nested run with a failure of its own. *)
Definition later : list fop := [Capture foreign MASK None false None; Enter; Capture foreign MASK None false None; Leave; Amend disk_full empty_context].

Lemma first_failure_sticks_witness :
  exists w1 r w2 rs, capture_failure the_registry (open_scope (MkAdapter ∅ [])) disk_full PUBLISH None false None = Ok (w1, r) /\
    frun the_registry 0 later w1 = Ok (w2, rs) /\ Forall (fun r' => ident r' = ident r) rs.
Proof.
  destruct (first_failure_sticks the_registry (proj1 the_registry_ok) (proj2 the_registry_ok) (fun _ => true) (MkAdapter ∅ [])
    disk_full PUBLISH None None later 0)
    as (w1 & r & w2 & rs & inner & sc & H1 & H2 & _ & _ & _ & H3 & _).
  - apply memo_empty.
  - split; [reflexivity|]. split; [apply empty_context_valid|discriminate].
  - repeat constructor; try discriminate; apply empty_context_valid || reflexivity || (cbn; lia).
  - reflexivity.
  - exists w1, r, w2, rs. split; [exact H1|]. split; [exact H2|exact H3].
Defined.
