(* ===== verification/Progress.v ===== *)
(** * The progress channel (progress.py)

    The bound sink, the per-table rate throttle, the phases and the run scope that
    ends every run with one terminal event. A run is a program of channel
    operations around the work itself, which may raise. *)

From S2P Require Import Prelude PyText PyData Reasons Failures.

(** ** Progress events

    The typed events of a run, validated and sanitised on construction. The wall
    clock stamp [ts] of an event is not modelled; [kind] is the constructor. *)

(** ** Time

    Readings of [time.perf_counter()] are floats: what the channel computes with
    them is an interface, its facts those of a monotonic clock. *)

Class Clock := {
  time : Type;
  perf : nat -> time;                     (* the n-th reading *)
  tsub : time -> time -> time;
  tgeb : time -> time -> bool;
  at_least_tiny : time -> time;           (* max(t, 1e-9) *)
  rate_of : Z -> time -> time;            (* rows / elapsed *)
  is_seconds : time -> bool;              (* finite and not negative *)
}.

Class ClockLaws (C : Clock) : Prop := {
  perf_monotone i j : (i <= j)%nat -> is_seconds (tsub (perf j) (perf i)) = true;
  tiny_seconds t : is_seconds t = true -> is_seconds (at_least_tiny t) = true;
  rate_seconds n t : 0 <= n -> is_seconds t = true -> is_seconds (rate_of n (at_least_tiny t)) = true;
}.

(** ** Groups *)

Inductive RetryScope := scope_operation | scope_attempt | scope_route.
Inductive RetryState := retry_not_scheduled | retry_scheduled | retry_running | retry_exhausted.
Inductive CheckpointState := cp_unsupported | cp_none | cp_writing | cp_committed | cp_failed.

#[global] Instance RetryScope_eq_dec : EqDecision RetryScope. Proof. solve_decision. Defined.
#[global] Instance RetryState_eq_dec : EqDecision RetryState. Proof. solve_decision. Defined.
#[global] Instance CheckpointState_eq_dec : EqDecision CheckpointState. Proof. solve_decision. Defined.

Definition _check_count (o : option Z) : bool := match o with Some n => 0 <=? n | None => true end.

Section Events.
Context `{C : Clock}.

Definition _check_seconds (o : option time) : bool := match o with Some t => is_seconds t | None => true end.

Record RetryInfo := MkRetry {
  re_scope : RetryScope; attempt : Z; retries_completed : Z; re_state : RetryState; delay_s : option time }.

Definition validate_retry (r : RetryInfo) : result unit :=
  _ ← raise_if (negb (0 <=? attempt r)) (exc "ValueError");
  _ ← raise_if (negb (0 <=? retries_completed r)) (exc "ValueError");
  _ ← raise_if (attempt r <? 1) (exc "ValueError");
  _ ← raise_if (attempt r <? retries_completed r) (exc "ValueError");
  _ ← raise_if (negb (_check_seconds (delay_s r))) (exc "ValueError");
  raise_if (bool_decide (is_Some (delay_s r)) && negb (bool_decide (re_state r = retry_scheduled))) (exc "ValueError").

Record CheckpointInfo := MkCheckpoint {
  cp_state : CheckpointState; cp_reference : option pystr; cp_sequence : option Z; cp_rows : option Z; cp_bytes : option Z }.

Definition validate_checkpoint (c : CheckpointInfo) : result unit :=
  _ ← raise_if (negb (_check_count (cp_sequence c))) (exc "ValueError");
  _ ← raise_if (negb (_check_count (cp_rows c))) (exc "ValueError");
  _ ← raise_if (negb (_check_count (cp_bytes c))) (exc "ValueError");
  _ ← raise_if (negb (ref_ok (cp_reference c))) (exc "ValueError");
  _ ← raise_if (bool_decide (cp_state c = cp_committed) &&
                (bool_decide (cp_reference c = None) || bool_decide (cp_sequence c = None))) (exc "ValueError");
  raise_if (bool_decide (cp_state c ∈ [cp_unsupported; cp_none]) &&
            negb (bool_decide (cp_reference c = None) && bool_decide (cp_sequence c = None) &&
                  bool_decide (cp_rows c = None) && bool_decide (cp_bytes c = None))) (exc "ValueError").

Record PublicationInfo := MkPublication {
  pu_operation : option Operation; pu_storage_ref : option pystr;
  pu_state : option PublicationState; pu_cleanup : option CleanupState }.

Definition validate_publication (p : PublicationInfo) : result unit := raise_if (negb (ref_ok (pu_storage_ref p))) (exc "ValueError").

(** ** Events *)

Inductive ByteBasis := arrow_logical | stored_output.

(** [_V1Fields] *)
Record V1Fields := MkV1 {
  sequence : option Z;
  v_phase : option pystr;
  v_object_ref : option pystr;
  bytes_done : option Z;
  bytes_total_estimate : option Z;
  byte_basis : option ByteBasis;
  reason : option ReasonRecord;
  v_retry : option RetryInfo;
  v_checkpoint : option CheckpointInfo;
  v_publication : option PublicationInfo;
}.

Inductive PhaseStatus := p_start | p_finish | p_error.
Inductive RunStatus := t_ok | t_error.

Inductive body :=
| PhaseEvent (name : pystr) (status : PhaseStatus) (table : option pystr) (rows_in rows_out : option Z)
    (elapsed_s : option time) (error_class : option pystr)
| RateSample (table : pystr) (rows_done : Z) (rows_per_sec elapsed_s : time) (rows_total_estimate : option Z) (final : bool)
| RouteEvent (route : pystr) (lane reason_code table : option pystr)
| WarningEvent (code : option pystr) (table column : option pystr)
| TerminalEvent (status : RunStatus) (error_class : option pystr) (elapsed_s : option time) (sink_failures : Z)
| RetryEvent (table : option pystr)
| CheckpointEvent (table : option pystr).

Record event := MkEvent { e_body : body; e_v1 : V1Fields }.

Definition no_v1 : V1Fields := MkV1 None None None None None None None None None None.

(** [_V1Fields.__post_init__]; the types of the groups are the record's. *)
Definition post_init_v1 (v : V1Fields) : result unit :=
  _ ← raise_if (negb (_check_count (sequence v))) (exc "ValueError");
  _ ← raise_if (negb (_check_count (bytes_done v))) (exc "ValueError");
  _ ← raise_if (negb (_check_count (bytes_total_estimate v))) (exc "ValueError");
  _ ← raise_if (match byte_basis v with
                | None => bool_decide (is_Some (bytes_done v)) || bool_decide (is_Some (bytes_total_estimate v))
                | Some _ => false end) (exc "ValueError");
  _ ← raise_if (negb (ref_ok (v_object_ref v))) (exc "ValueError");
  raise_if (negb (ref_ok (v_phase v))) (exc "ValueError").

(** The registry, [str.isprintable] of one character, and the names of the
    exception classes of [builtins] and of [decoy_engine.errors]. *)
Context (g : Registry) (isprintable : Z -> bool) (builtin_names error_names : list pystr).

Definition _fixed_or (value : pystr) (fallback : string) : pystr :=
  match approve_ref (PStr value) with Some _ => value | None => py fallback end.

Definition _sanitize_name (o : option pystr) : option pystr :=
  match o with Some s => match approve_name isprintable s with Some _ => o | None => None end | None => None end.

(** The names of [registered_families()]. *)
Definition family_names : list pystr := (fun kv => kv.1.2) <$> coded ++ ((fun kv => (kv.1, kv.1.2)) <$> fixed).

Definition _safe_error_names : list pystr := builtin_names ++ family_names ++ error_names.

Definition safe_error_class (name : option pystr) : option pystr :=
  match name with
  | None => None
  | Some n => if bool_decide (n ∈ _safe_error_names) then Some n else Some (py "Exception")
  end.

Definition _safe_registered_code (code : option pystr) : option pystr :=
  match code with
  | None => None
  | Some c => if is_registered g (PStr c) None then Some c else Some (py "unregistered_reason")
  end.

(** [__post_init__] of each variant: the checks, and the sanitised fields. *)
Definition post_init (e : event) : result event :=
  _ ← post_init_v1 (e_v1 e);
  b ← match e_body e with
      | PhaseEvent name status table rows_in rows_out elapsed error_class =>
          _ ← raise_if (negb (_check_count rows_in)) (exc "ValueError");
          _ ← raise_if (negb (_check_count rows_out)) (exc "ValueError");
          _ ← raise_if (negb (_check_seconds elapsed)) (exc "ValueError");
          Ok (PhaseEvent (_fixed_or name "unknown") status (_sanitize_name table) rows_in rows_out elapsed (safe_error_class error_class))
      | RateSample table rows_done per_sec elapsed total final =>
          _ ← raise_if (negb (0 <=? rows_done)) (exc "ValueError");
          _ ← raise_if (negb (_check_count total)) (exc "ValueError");
          _ ← raise_if (negb (is_seconds per_sec)) (exc "ValueError");
          _ ← raise_if (negb (is_seconds elapsed)) (exc "ValueError");
          Ok (RateSample (match approve_name isprintable table with Some _ => table | None => py "unknown" end) rows_done per_sec elapsed total final)
      | RouteEvent route lane code table =>
          Ok (RouteEvent (_fixed_or route "unknown") ((fun l => _fixed_or l "unknown") <$> lane) (_safe_registered_code code) (_sanitize_name table))
      | WarningEvent code table column =>
          Ok (WarningEvent (_safe_registered_code code) (_sanitize_name table) (_sanitize_name column))
      | TerminalEvent status error_class elapsed failures =>
          _ ← raise_if (negb (_check_seconds elapsed)) (exc "ValueError");
          _ ← raise_if (negb (0 <=? failures)) (exc "ValueError");
          Ok (TerminalEvent status (safe_error_class error_class) elapsed failures)
      | RetryEvent table =>
          _ ← raise_if (bool_decide (v_retry (e_v1 e) = None)) (exc "ValueError"); Ok (RetryEvent (_sanitize_name table))
      | CheckpointEvent table =>
          _ ← raise_if (bool_decide (v_checkpoint (e_v1 e) = None)) (exc "ValueError"); Ok (CheckpointEvent (_sanitize_name table))
      end;
  Ok (MkEvent b (e_v1 e)).
End Events.

(** ** Computations that may raise a Python exception *)

Inductive outcome (A : Type) := Val (a : A) | Raise (e : pyexn).
Arguments Val {A} a.
Arguments Raise {A} e.

Definition Prog (S A : Type) : Type := S -> S * outcome A.
#[global] Instance prog_ret S : MRet (Prog S) := fun A a s => (s, Val a).
#[global] Instance prog_bind S : MBind (Prog S) := fun A B f m s =>
  match m s with (s', Val a) => f a s' | (s', Raise e) => (s', Raise e) end.

(** A step written as a function of the state. *)
Definition step {S A} (f : S -> S * outcome A) : Prog S A := f.

(** The events sink, [on_event] of which may fail. *)
Class EventSink `{C : Clock} := {
  ESink : Type;
  on_event : ESink -> event -> ESink * result unit;
}.

Section Channel.
Context `{C : Clock} `{K : !EventSink}.
Context (g : Registry) (isprintable : Z -> bool) (builtin_names error_names : list pystr).
(** [type(exc).__name__] *)
Context (class_name : pyexn -> pystr).

Abbreviation new_event e := (post_init g isprintable builtin_names error_names e).

Record _Rate := MkRate {
  ra_phase : option pystr; ra_rows : Z; ra_bytes : option Z; ra_started : time; ra_last_emit : time; ra_total : option Z }.

Abbreviation phase_key := (pystr * option pystr)%type.

Record ProgressChannel := MkChannel {
  _sink : option ESink;
  _interval : time;
  _rates : odict pystr _Rate;
  _open_phases : odict phase_key time;
  _started : time;
  _sequence : Z;
  _retry_floor : odict pystr Z;
  _checkpoint_floor : Z;
  sink_failures : Z;
  rejected_reports : Z;
}.

(** The channel, the readings of the clock so far and the thread's failure state. *)
Record World := MkWorld { chan : ProgressChannel; ticks : nat; adapter : Adapter }.

(** A channel opens at its first reading of the clock. *)
Definition new_channel (sink : option ESink) (interval : time) (w_ticks : nat) (ad : Adapter) : World :=
  MkWorld (MkChannel sink interval [] [] (perf w_ticks) 0 [] (-1) 0 0) (S w_ticks) ad.

Definition set_chan (w : World) (c : ProgressChannel) : World := MkWorld c (ticks w) (adapter w).
Definition set_adapter (w : World) (a : Adapter) : World := MkWorld (chan w) (ticks w) a.
Definition set_phases (w : World) (ps : odict phase_key time) : World :=
  let c := chan w in set_chan w (MkChannel (_sink c) (_interval c) (_rates c) ps (_started c) (_sequence c) (_retry_floor c)
    (_checkpoint_floor c) (sink_failures c) (rejected_reports c)).
Definition set_rates (w : World) (rs : odict pystr _Rate) : World :=
  let c := chan w in set_chan w (MkChannel (_sink c) (_interval c) rs (_open_phases c) (_started c) (_sequence c) (_retry_floor c)
    (_checkpoint_floor c) (sink_failures c) (rejected_reports c)).
Definition set_retry_floor (w : World) (f : odict pystr Z) : World :=
  let c := chan w in set_chan w (MkChannel (_sink c) (_interval c) (_rates c) (_open_phases c) (_started c) (_sequence c) f
    (_checkpoint_floor c) (sink_failures c) (rejected_reports c)).
Definition set_checkpoint_floor (w : World) (n : Z) : World :=
  let c := chan w in set_chan w (MkChannel (_sink c) (_interval c) (_rates c) (_open_phases c) (_started c) (_sequence c) (_retry_floor c)
    n (sink_failures c) (rejected_reports c)).
Definition reject_report (w : World) : World :=
  let c := chan w in set_chan w (MkChannel (_sink c) (_interval c) (_rates c) (_open_phases c) (_started c) (_sequence c) (_retry_floor c)
    (_checkpoint_floor c) (sink_failures c) (rejected_reports c + 1)).

Abbreviation P A := (Prog World A).

Definition perf_counter : P time := fun w => (MkWorld (chan w) (S (ticks w)) (adapter w), Val (perf (ticks w))).

(** A [ValueError] of an event's constructor is a new exception object. *)
Definition ValueError (n : nat) : pyexn := MkExn n [builtin "ValueError"; builtin "Exception"; builtin "BaseException"] None None true None.
Definition construct (e : event) : P event := fun w =>
  match new_event e with Ok e' => (w, Val e') | Err _ => (MkWorld (chan w) (S (ticks w)) (adapter w), Raise (ValueError (ticks w))) end.

Definition set_sequence (e : event) (n : Z) : event :=
  let v := e_v1 e in
  MkEvent (e_body e) (MkV1 (Some n) (v_phase v) (v_object_ref v) (bytes_done v) (bytes_total_estimate v) (byte_basis v)
    (reason v) (v_retry v) (v_checkpoint v) (v_publication v)).

(** [emit]: numbers the event and delivers it; a failure is counted, never raised. *)
Definition emit (e : event) : P unit := fun w =>
  let c := chan w in
  match _sink c with
  | None => (w, Val tt)
  | Some s =>
      let '(seq, numbered) :=
        match sequence (e_v1 e) with
        | None => (_sequence c + 1, new_event (set_sequence e (_sequence c + 1)))
        | Some _ => (_sequence c, Ok e)
        end in
      let '(s, out) := match numbered with Ok e' => on_event s e' | Err x => (s, Err x) end in
      (set_chan w (MkChannel (Some s) (_interval c) (_rates c) (_open_phases c) (_started c) seq (_retry_floor c)
        (_checkpoint_floor c) (sink_failures c + (if is_ok out then 0 else 1)) (rejected_reports c)), Val tt)
  end.

Definition emit_new (b : body) (v : V1Fields) : P unit := e ← construct (MkEvent b v); emit e.

(** [_ident] *)
Definition _ident (name : option pystr) : option pystr := match name with Some s => approve_ref (PStr s) | None => None end.

(** The fields [phase], [object_ref] and [reason]. *)
Definition located (phase object_ref : option pystr) (r : option ReasonRecord) : V1Fields :=
  MkV1 None (_ident phase) (_ident object_ref) None None None r None None None.

Definition _phase_of (name : option pystr) : Phase := default UNKNOWN (enum_of Phases (default [] name)).

(** [_capture]: never raises. *)
Definition _capture (e : pyexn) (phase_name : option pystr) : P (option ReasonRecord) := fun w =>
  match capture_failure g (adapter w) e (_phase_of phase_name) None false None with
  | Ok (a, r) => (set_adapter w a, Val (Some r))
  | Err _ => (w, Val None)
  end.

(** ** Phases *)

Definition phase_start (name : pystr) (table : option pystr) (rows_in : option Z) : P time :=
  _ ← emit_new (PhaseEvent name p_start table rows_in None None None) (located (Some name) table None);
  started ← perf_counter;
  step (fun w => (set_phases w (od_set (_open_phases (chan w)) (name, table) started), Val started)).

Definition pop_phase (k : phase_key) : P unit := fun w => (set_phases w (od_del (_open_phases (chan w)) k), Val tt).

Definition phase_finish (name : pystr) (started : time) (table : option pystr) (rows_in rows_out stored_bytes : option Z) : P unit :=
  now ← perf_counter;
  _ ← emit_new (PhaseEvent name p_finish table rows_in rows_out (Some (tsub now started)) None)
        (MkV1 None (_ident (Some name)) (_ident table) stored_bytes None
           (match stored_bytes with Some _ => Some stored_output | None => None end) None None None None);
  pop_phase (name, table).

(** [with self.phase(name, ...): body] *)
Definition phase (name : pystr) (table : option pystr) (rows_in : option Z) (work : P unit) : P unit :=
  started ← phase_start name table rows_in;
  step (fun w =>
    match work w with
    | (w, Val _) => phase_finish name started table rows_in None None w
    | (w, Raise e) =>
        (now ← perf_counter;
         r ← _capture e (Some name);
         _ ← emit_new (PhaseEvent name p_error table None None (Some (tsub now started)) (Some (class_name e))) (located (Some name) table r);
         _ ← pop_phase (name, table);
         step (fun w => (w, Raise e))) w
    end).

Definition publish_stored (table : pystr) (stored_bytes : Z) : P unit :=
  started ← phase_start (py "publish") (Some table) None;
  phase_finish (py "publish") started (Some table) None None (Some stored_bytes).

(** ** Routes, warnings and owner reports *)

Definition route (r : pystr) (lane reason_code table : option pystr) : P unit :=
  emit_new (RouteEvent r lane reason_code table)
    (MkV1 None (Some (py "resolve")) (_ident table) None None None None None None None).

Definition warning (code : pystr) (table column : option pystr) : P unit :=
  emit_new (WarningEvent (Some code) table column) (located None table None).

Definition scope_word (s : RetryScope) : pystr :=
  match s with scope_operation => py "operation" | scope_attempt => py "attempt" | scope_route => py "route" end.

Definition retry_report (r : RetryInfo) (table : option pystr) (why : option ReasonRecord) : P bool := fun w =>
  let c := chan w in
  match _sink c with
  | None => (w, Val false)
  | Some _ =>
      if attempt r <? default 1 (od_get (_retry_floor c) (scope_word (re_scope r))) then (reject_report w, Val false)
      else
        (_ ← emit_new (RetryEvent table) (MkV1 None None (_ident table) None None None why (Some r) None None);
         mret true) (set_retry_floor w (od_set (_retry_floor c) (scope_word (re_scope r)) (attempt r)))
  end.

Definition checkpoint_report (cp : CheckpointInfo) (table : option pystr) (why : option ReasonRecord) : P bool := fun w =>
  let c := chan w in
  match _sink c with
  | None => (w, Val false)
  | Some _ =>
      let go := _ ← emit_new (CheckpointEvent table) (MkV1 None None (_ident table) None None None why None (Some cp) None); mret true in
      match cp_sequence cp with
      | Some n => if n <? _checkpoint_floor c then (reject_report w, Val false) else go (set_checkpoint_floor w n)
      | None => go w
      end
  end.

(** ** Rates *)

Definition _emit_rate (table : pystr) (r : _Rate) (now : time) (final : bool) : P unit :=
  let elapsed := at_least_tiny (tsub now (ra_started r)) in
  emit_new (RateSample table (ra_rows r) (rate_of (ra_rows r) elapsed) elapsed (ra_total r) final)
    (MkV1 None (_ident (ra_phase r)) (_ident (Some table)) (ra_bytes r) None
       (match ra_bytes r with Some _ => Some arrow_logical | None => None end) None None None None).

Definition set_last_emit (r : _Rate) (now : time) : _Rate :=
  MkRate (ra_phase r) (ra_rows r) (ra_bytes r) (ra_started r) now (ra_total r).

Definition rows (table : pystr) (n : Z) (total nbytes : option Z) (ph : option pystr) : P unit := fun w =>
  match _sink (chan w) with
  | None => (w, Val tt)
  | Some _ =>
      (now ← perf_counter;
       step (fun w =>
         let r := default (MkRate ph 0 None now now total) (od_get (_rates (chan w)) table) in
         let r := MkRate (ra_phase r) (ra_rows r + n)
                    (match nbytes with Some b => Some (default 0 (ra_bytes r) + b) | None => ra_bytes r end)
                    (ra_started r) (ra_last_emit r) (match total with Some t => Some t | None => ra_total r end) in
         let w := set_rates w (od_set (_rates (chan w)) table r) in
         if tgeb (tsub now (ra_last_emit r)) (_interval (chan w)) then
           (_ ← _emit_rate table r now false;
            step (fun w => (set_rates w (od_set (_rates (chan w)) table (set_last_emit r now)), Val tt))) w
         else (w, Val tt))) w
  end.

Definition flush (table : pystr) : P unit := fun w =>
  match od_get (_rates (chan w)) table with
  | None => (w, Val tt)
  | Some r =>
      let w := set_rates w (od_del (_rates (chan w)) table) in
      match _sink (chan w) with
      | None => (w, Val tt)
      | Some _ => (now ← perf_counter; _emit_rate table r now true) w
      end
  end.

(** [for x in l: f(x)] *)
Fixpoint for_prog {S X} (f : X -> Prog S unit) (l : list X) : Prog S unit :=
  match l with [] => mret tt | x :: l' => _ ← f x; for_prog f l' end.

(** [count_rows] drained for as many chunks as its consumer takes; each chunk is its
    [num_rows] and logical size. The source may raise at the end; whatever ends the
    iteration, the table is flushed. *)
Definition count_rows (table : pystr) (chunks : list (Z * option Z)) (total : option Z) (ph : option pystr) (ended : option pyexn) : P unit := fun w =>
  match _sink (chan w) with
  | None => (w, match ended with Some e => Raise e | None => Val tt end)
  | Some _ =>
      let '(w, out) := (_ ← for_prog (fun ch => rows table ch.1 total ch.2 ph) chunks;
                        step (fun w => (w, match ended with Some e => Raise e | None => Val tt end))) w in
      match flush table w with
      | (w, Val _) => (w, out)
      | (w, Raise e) => (w, Raise e)
      end
  end.

(** ** The run *)

Definition close_error (record : option ReasonRecord) (e : pyexn) (kv : phase_key * time) : P unit :=
  now ← perf_counter;
  emit_new (PhaseEvent kv.1.1 p_error kv.1.2 None None (Some (tsub now kv.2)) (Some (class_name e))) (located (Some kv.1.1) kv.1.2 record).

Definition terminal (status : RunStatus) (error_class : option pystr) (record : option ReasonRecord) : P unit :=
  now ← perf_counter;
  step (fun w => emit_new (TerminalEvent status error_class (Some (tsub now (_started (chan w)))) (sink_failures (chan w)))
                   (MkV1 None None None None None None record None None None) w).

(** The [except BaseException] and [else] branches of [run_scope]. *)
Definition run_failed (e : pyexn) : P unit := fun w =>
  let open := _open_phases (chan w) in
  let innermost := match list.last open with Some kv => Some kv.1.1 | None => None end in
  (record ← _capture e innermost;
   _ ← for_prog (close_error record e) open;
   _ ← step (fun w => (set_phases w [], Val tt));
   _ ← terminal t_error (Some (class_name e)) record;
   step (fun w => (w, Raise e))) w.

Definition run_finished : P unit := fun w =>
  (_ ← for_prog flush (od_keys (_rates (chan w))); terminal t_ok None None) w.

(** [with channel.run_scope(): work] *)
Definition run_scope (work : P unit) : P unit := fun w =>
  let w := set_adapter w (open_scope (adapter w)) in
  let '(w, out) := match work w with
                   | (w, Val _) => run_finished w
                   | (w, Raise e) => run_failed e w
                   end in
  (set_adapter w (close_scope (adapter w)), out).

(** What a route does inside a run: channel operations, and work that may raise. *)
Inductive act :=
| APhase (name : pystr) (table : option pystr) (rows_in : option Z) (inner : list act)
| AManual (name : pystr) (table : option pystr) (rows_in : option Z) (inner : list act) (rows_out stored : option Z)
| APublish (table : pystr) (stored_bytes : Z)
| ARoute (r : pystr) (lane reason_code table : option pystr)
| AWarning (code : pystr) (table column : option pystr)
| ARetry (r : RetryInfo) (table : option pystr) (why : option ReasonRecord)
| ACheckpoint (cp : CheckpointInfo) (table : option pystr) (why : option ReasonRecord)
| ARows (table : pystr) (n : Z) (total nbytes : option Z) (ph : option pystr)
| AFlush (table : pystr)
| ACount (table : pystr) (chunks : list (Z * option Z)) (total : option Z) (ph : option pystr) (ended : option pyexn)
| AWork (fails : option pyexn).

Fixpoint perform (a : act) : P unit :=
  match a with
  | APhase name table rows_in inner => phase name table rows_in (for_prog perform inner)
  | AManual name table rows_in inner rows_out stored =>
      started ← phase_start name table rows_in;
      _ ← for_prog perform inner;
      phase_finish name started table rows_in rows_out stored
  | APublish table n => publish_stored table n
  | ARoute r lane code table => route r lane code table
  | AWarning code table column => warning code table column
  | ARetry r table why => _ ← retry_report r table why; mret tt
  | ACheckpoint cp table why => _ ← checkpoint_report cp table why; mret tt
  | ARows table n total nbytes ph => rows table n total nbytes ph
  | AFlush table => flush table
  | ACount table chunks total ph ended => count_rows table chunks total ph ended
  | AWork fails => fun w => (w, match fails with Some e => Raise e | None => Val tt end)
  end.
End Channel.
