(* ===== verification/ProgressTheory.v ===== *)
(** * Progress: every run ends once, and says so truthfully

    On a sink that records what it is given and may fail at any event, a run scope
    delivers a numbered sequence with one terminal event, at the end; its status is
    the work's own outcome, which nothing the channel or the sink does changes; and
    when the work failed, every started phase has been closed. *)

From S2P Require Import Prelude PyText PyData Reasons ReasonsTheory Failures Progress.

(** A sink that records every event, and fails as it likes. *)
#[global] Instance recording `{C : Clock} (fails : list event -> event -> bool) : EventSink := {|
  ESink := list event;
  on_event := fun s e => (s ++ [e], if fails s e then Err (exc "Exception") else Ok tt);
|}.

(** ** Traces *)

Section Traces.
Context `{C : Clock}.

Abbreviation phase_key := (pystr * option pystr)%type.

Definition starts (k : phase_key) (e : event) : Prop :=
  match e_body e with PhaseEvent n p_start t _ _ _ _ => (n, t) = k | _ => False end.
Definition closes (k : phase_key) (e : event) : Prop :=
  match e_body e with PhaseEvent n st t _ _ _ _ => (n, t) = k /\ st <> p_start | _ => False end.
Definition is_terminal (e : event) : bool := match e_body e with TerminalEvent _ _ _ _ => true | _ => false end.

(** Every started phase is closed later or is one of [ks]. *)
Definition pending (evs : list event) (ks : list phase_key) : Prop :=
  forall i e k, evs !! i = Some e -> starts k e -> (exists j e', (i < j)%nat /\ evs !! j = Some e' /\ closes k e') \/ (k ∈ ks).

Lemma pending_mono evs ks ks' : (forall k, k ∈ ks -> k ∈ ks') -> pending evs ks -> pending evs ks'.
Proof. intros Hk H i e k Hi Hs. destruct (H i e k Hi Hs); auto. Qed.

Lemma pending_snoc evs e ks ks' :
  (forall k, starts k e -> k ∈ ks') -> (forall k, k ∈ ks -> closes k e \/ (k ∈ ks')) ->
  pending evs ks -> pending (evs ++ [e]) ks'.
Proof.
  intros Hs Hc H i e' k Hi Hst. apply lookup_app_Some in Hi as [Hi|[Hlen Hi]].
  - destruct (H i e' k Hi Hst) as [(j & e2 & Hj & He2 & Hcl)|Hk].
    + left. exists j, e2. split; [done|]. split; [by apply lookup_app_l_Some|done].
    + destruct (Hc k Hk) as [Hcl|Hk']; [|by right]. left. exists (length evs), e. apply lookup_lt_Some in Hi as Hlt.
      split; [done|]. split; [|done]. rewrite lookup_app_r by lia. by rewrite Nat.sub_diag.
  - destruct (i - length evs)%nat eqn:E; [|done]. injection Hi as <-. right. by apply Hs.
Qed.

Definition numbered (evs : list event) : Prop := forall i e, evs !! i = Some e -> sequence (e_v1 e) = Some (Z.of_nat i + 1).

Lemma numbered_snoc evs e : numbered evs -> sequence (e_v1 e) = Some (zlen evs + 1) -> numbered (evs ++ [e]).
Proof.
  intros H He i e' Hi. apply lookup_app_Some in Hi as [Hi|[Hlen Hi]]; [by apply H|].
  destruct (i - length evs)%nat eqn:E; [|done]. injection Hi as <-. rewrite He. unfold zlen. f_equal. lia.
Qed.
End Traces.

Section Theory.
Context `{C : Clock} {CL : ClockLaws C} (fails : list event -> event -> bool).
Context (g : Registry) (isprintable : Z -> bool) (builtin_names error_names : list pystr) (class_name : pyexn -> pystr).
Context (Hreg : is_registered g (PStr (py "unregistered_reason")) None = true).
Context (Hexn : py "Exception" ∈ builtin_names).

#[local] Existing Instance recording.
Abbreviation post := (post_init g isprintable builtin_names error_names).
Abbreviation World := (@World C (recording fails)).
Abbreviation emit_new := (emit_new (K:=recording fails) g isprintable builtin_names error_names).

(** ** Construction is idempotent *)

Lemma fixed_or_idem s f : approve_ref (PStr (py f)) = Some (py f) -> _fixed_or (_fixed_or s f) f = _fixed_or s f.
Proof. intros Hf. unfold _fixed_or. destruct (approve_ref (PStr s)) eqn:E; [by rewrite E|by rewrite Hf]. Qed.

Lemma sanitize_idem o : _sanitize_name isprintable (_sanitize_name isprintable o) = _sanitize_name isprintable o.
Proof. unfold _sanitize_name. destruct o as [s|]; [|done]. destruct (approve_name isprintable s) eqn:E; [by rewrite E|done]. Qed.

Lemma safe_class_idem o :
  safe_error_class builtin_names error_names (safe_error_class builtin_names error_names o) = safe_error_class builtin_names error_names o.
Proof.
  unfold safe_error_class. destruct o as [n|]; [|done]. case_bool_decide as E; [by rewrite bool_decide_eq_true_2|].
  rewrite bool_decide_eq_true_2; [done|]. unfold _safe_error_names. apply elem_of_app. by left.
Qed.

Lemma safe_code_idem o : _safe_registered_code g (_safe_registered_code g o) = _safe_registered_code g o.
Proof. unfold _safe_registered_code. destruct o as [c|]; [|done]. destruct (is_registered g (PStr c) None) eqn:E; [by rewrite E|by rewrite Hreg]. Qed.

Lemma post_v1 e e' : post e = Ok e' -> e_v1 e' = e_v1 e.
Proof. unfold post_init. intros H. ok_inv. done. Qed.

Lemma post_renumbered e e' n : post e = Ok e' -> 0 <= n -> post (set_sequence e' n) = Ok (set_sequence e' n).
Proof.
  intros H Hn. assert (Hu : approve_ref (PStr (py "unknown")) = Some (py "unknown")) by reflexivity.
  assert (Hv : post_init_v1 (e_v1 (set_sequence e' n)) = Ok tt).
  { pose proof (post_v1 _ _ H) as E. unfold post_init in H. destruct (post_init_v1 (e_v1 e)) as [[]|] eqn:Ev; [|discriminate].
    rewrite <- E in Ev. unfold post_init_v1 in *. cbn [e_v1 set_sequence sequence bytes_done bytes_total_estimate byte_basis v_object_ref v_phase _check_count] in *.
    replace (0 <=? n) with true by lia. destruct (raise_if (negb (_check_count (sequence (e_v1 e')))) _); [exact Ev|discriminate]. }
  unfold post_init in H |- *. rewrite Hv. destruct (post_init_v1 (e_v1 e)) as [[]|]; [|discriminate]. cbn [mbind result_bind] in *.
  destruct e as [b v]. cbn [e_body e_v1] in *.
  destruct b; ok_inv; cbn [set_sequence e_body e_v1 v_retry v_checkpoint];
    rewrite ?fixed_or_idem, ?sanitize_idem, ?safe_class_idem, ?safe_code_idem by done;
    repeat match goal with H : ?b = false |- context [raise_if ?b _] => rewrite H; cbn [raise_if mbind result_bind] end; try done.
  - cbn [mbind result_bind set_sequence e_body e_v1]. destruct (approve_name isprintable table) as [?|] eqn:Et; [by rewrite Et|]. by destruct (approve_name isprintable (py "unknown")) eqn:?.
  - cbn [mbind result_bind set_sequence e_body e_v1]. destruct lane as [l|]; [|done]. cbn [fmap option_fmap option_map]. by rewrite fixed_or_idem.
Qed.

(** ** What the channel keeps *)

Abbreviation phase_key := (pystr * option pystr)%type.

(** The key of an event of a phase. *)
Definition shown (k : phase_key) : phase_key := (_fixed_or k.1 "unknown", _sanitize_name isprintable k.2).

Definition known_reading (n : nat) (t : time) : Prop := exists i, (i <= n)%nat /\ t = perf i.

Record rate_ok (n : nat) (r : _Rate) : Prop := {
  rk_rows : 0 <= ra_rows r;
  rk_bytes : _check_count (ra_bytes r) = true;
  rk_total : _check_count (ra_total r) = true;
  rk_started : known_reading n (ra_started r);
}.

Record channel_ok (evs : list event) (w : World) : Prop := {
  co_sink : _sink (chan w) = Some evs;
  co_seq : _sequence (chan w) = zlen evs;
  co_numbered : numbered evs;
  co_terminal : Forall (fun e => is_terminal e = false) evs;
  co_failures : 0 <= sink_failures (chan w);
  co_started : known_reading (ticks w) (_started (chan w));
  co_rates : Forall (fun kr => rate_ok (ticks w) kr.2) (_rates (chan w));
  co_open : Forall (fun kt => known_reading (ticks w) kt.2) (_open_phases (chan w));
  co_pending : pending evs (shown <$> od_keys (_open_phases (chan w)));
}.

(** Nothing but the sink, the sequence and the failures differ. *)
Definition delivered (w : World) (e : event) : World :=
  let c := chan w in
  let evs : list event := match _sink c with Some s => s | None => [] end in
  set_chan w (MkChannel (K:=recording fails) (Some (evs ++ [e])) (_interval c) (_rates c) (_open_phases c) (_started c) (_sequence c + 1) (_retry_floor c)
    (_checkpoint_floor c) (sink_failures c + (if fails evs e then 1 else 0)) (rejected_reports c)).

Lemma emit_new_ok evs w b v e :
  _sink (chan w) = Some evs -> 0 <= _sequence (chan w) -> sequence v = None -> post (MkEvent b v) = Ok e ->
  emit_new b v w = (delivered w (set_sequence e (_sequence (chan w) + 1)), Val tt).
Proof.
  intros Hs Hq Hv Hp. unfold Progress.emit_new, mbind, prog_bind, construct. rewrite Hp. unfold emit. rewrite Hs.
  rewrite (post_v1 _ _ Hp). cbn [e_v1]. rewrite Hv. rewrite (post_renumbered _ _ _ Hp) by lia. cbn [on_event recording].
  unfold delivered. rewrite Hs. by destruct (fails evs _).
Qed.

(** The key conditions an event puts on the open phases. *)
Lemma delivered_ok evs w e ks :
  channel_ok evs w -> sequence (e_v1 e) = Some (_sequence (chan w) + 1) -> is_terminal e = false ->
  (forall k, starts k e -> k ∈ ks) ->
  (forall k, k ∈ shown <$> od_keys (_open_phases (chan w)) -> closes k e \/ (k ∈ ks)) ->
  let w' := delivered w e in
  _sink (chan w') = Some (evs ++ [e]) /\ _sequence (chan w') = zlen (evs ++ [e]) /\ numbered (evs ++ [e]) /\
  Forall (fun e => is_terminal e = false) (evs ++ [e]) /\ 0 <= sink_failures (chan w') /\ pending (evs ++ [e]) ks.
Proof.
  intros [Hs Hq Hn Ht Hf _ _ _ Hp] He Hte Hst Hcl w'. unfold w', delivered. rewrite Hs. cbn. split_and!; try done.
  - rewrite Hq, zlen_app. done.
  - apply numbered_snoc; [done|]. by rewrite He, Hq.
  - apply Forall_app. by repeat constructor.
  - by destruct (fails evs e); lia.
  - by eapply pending_snoc.
Qed.

(** What holds after an event, with [ks] the phases that may still be open. *)
Record emitted (w : World) (ks : list phase_key) (evs' : list event) (w' : World) : Prop := {
  em_sink : _sink (chan w') = Some evs';
  em_seq : _sequence (chan w') = zlen evs';
  em_numbered : numbered evs';
  em_terminal : Forall (fun e => is_terminal e = false) evs';
  em_failures : 0 <= sink_failures (chan w');
  em_pending : pending evs' ks;
  em_rest : _rates (chan w') = _rates (chan w) /\ _open_phases (chan w') = _open_phases (chan w) /\
    _started (chan w') = _started (chan w) /\ ticks w' = ticks w /\ adapter w' = adapter w;
}.

Lemma emit_keys evs w b v e ks :
  channel_ok evs w -> sequence v = None -> post (MkEvent b v) = Ok e -> is_terminal e = false ->
  (forall k, starts k e -> k ∈ ks) ->
  (forall k, k ∈ shown <$> od_keys (_open_phases (chan w)) -> closes k e \/ (k ∈ ks)) ->
  exists evs' w', emit_new b v w = (w', Val tt) /\ emitted w ks evs' w'.
Proof.
  intros Hc Hv Hp Ht Hst Hcl. pose proof Hc as [Hs Hq _ _ _ _ _ _ _].
  set (e' := set_sequence e (_sequence (chan w) + 1)).
  destruct (delivered_ok evs w e' ks Hc eq_refl Ht Hst Hcl) as (H1 & H2 & H3 & H4 & H5 & H6).
  exists (evs ++ [e']), (delivered w e'). split; [by apply (emit_new_ok evs); [|rewrite Hq; unfold zlen; lia|..]|].
  by constructor.
Qed.

(** An event that is neither a start nor the end. *)
Lemma emit_plain evs w b v e :
  channel_ok evs w -> sequence v = None -> post (MkEvent b v) = Ok e -> is_terminal e = false -> (forall k, ~ starts k e) ->
  exists evs' w', emit_new b v w = (w', Val tt) /\ channel_ok evs' w' /\ ticks w' = ticks w.
Proof.
  intros Hc Hv Hp Ht Hst.
  destruct (emit_keys evs w b v e (shown <$> od_keys (_open_phases (chan w))) Hc Hv Hp Ht) as (evs' & w' & H & [? ? ? ? ? ? (Hr & Ho & Hs & Htk & _)]).
  - intros k Hk. by destruct (Hst k).
  - by right.
  - exists evs', w'. split; [done|]. split; [|done]. destruct Hc. constructor; rewrite ?Hr, ?Ho, ?Hs, ?Htk; done.
Qed.

Lemma reading_mono n m t : (n <= m)%nat -> known_reading n t -> known_reading m t.
Proof. intros H (i & Hi & ->). exists i. split; [lia|done]. Qed.

Lemma reading_elapsed n t : known_reading n t -> is_seconds (tsub (perf n) t) = true.
Proof. intros (i & Hi & ->). by apply perf_monotone. Qed.

Lemma reading_now n : known_reading (S n) (perf n).
Proof. exists n. split; [lia|done]. Qed.

(** The invariant reads the channel and how far the clock has got. *)
Lemma channel_ok_world evs w w' :
  chan w' = chan w -> (ticks w <= ticks w')%nat -> channel_ok evs w -> channel_ok evs w'.
Proof.
  intros Hc Ht [Hs Hq Hn Hte Hf Hst Hr Ho Hp]. constructor; rewrite ?Hc; try done.
  - by eapply reading_mono.
  - eapply Forall_impl; [|exact Hr]. intros kr [H1 H2 H3 H4]. constructor; try done. by eapply reading_mono.
  - eapply Forall_impl; [|exact Ho]. intros kt. by apply reading_mono.
Qed.

Lemma channel_ok_phases evs w ps :
  channel_ok evs w -> Forall (fun kt => known_reading (ticks w) kt.2) ps -> pending evs (shown <$> od_keys ps) ->
  channel_ok evs (set_phases w ps).
Proof. intros [Hs Hq Hn Hte Hf Hst Hr Ho Hp] H1 H2. by constructor. Qed.

Lemma channel_ok_rates evs w rs :
  channel_ok evs w -> Forall (fun kr => rate_ok (ticks w) kr.2) rs -> channel_ok evs (set_rates w rs).
Proof. intros [Hs Hq Hn Hte Hf Hst Hr Ho Hp] H1. by constructor. Qed.

Lemma channel_ok_retry evs w f : channel_ok evs w -> channel_ok evs (set_retry_floor w f).
Proof. intros []. by constructor. Qed.
Lemma channel_ok_checkpoint evs w n : channel_ok evs w -> channel_ok evs (set_checkpoint_floor w n).
Proof. intros []. by constructor. Qed.
Lemma channel_ok_reject evs w : channel_ok evs w -> channel_ok evs (reject_report w).
Proof. intros []. by constructor. Qed.

Lemma ident_ok o : ref_ok (_ident o) = true.
Proof. destruct o as [s|]; [|done]. unfold _ident. apply approve_ref_ok. Qed.

Lemma located_ok a b r : post_init_v1 (located a b r) = Ok tt.
Proof. unfold post_init_v1, located. cbn [sequence bytes_done bytes_total_estimate byte_basis v_object_ref v_phase _check_count]. by rewrite !ident_ok. Qed.

Lemma post_phase name st table ri ro el ec v :
  post_init_v1 v = Ok tt -> _check_count ri = true -> _check_count ro = true -> _check_seconds el = true ->
  post (MkEvent (PhaseEvent name st table ri ro el ec) v) =
  Ok (MkEvent (PhaseEvent (_fixed_or name "unknown") st (_sanitize_name isprintable table) ri ro el (safe_error_class builtin_names error_names ec)) v).
Proof. intros Hv H1 H2 H3. unfold post_init. cbn [e_v1 e_body]. by rewrite Hv, H1, H2, H3. Qed.

(** ** Phases *)

Lemma od_set_Forall {X Y} `{EqDecision X} (Q : X * Y -> Prop) (d : odict X Y) k v : Q (k, v) -> Forall Q d -> Forall Q (od_set d k v).
Proof.
  intros Hq. induction 1 as [|[k' v'] d Hx Hd IH]; cbn; [by repeat constructor|]. case_bool_decide as E; by constructor.
Qed.

Lemma od_del_Forall {X Y} `{EqDecision X} (Q : X * Y -> Prop) (d : odict X Y) k : Forall Q d -> Forall Q (od_del d k).
Proof. induction 1 as [|[k' v'] d Hx Hd IH]; cbn; [constructor|]. case_bool_decide; [done|by constructor]. Qed.

Lemma od_set_keys_in {X Y} `{EqDecision X} (d : odict X Y) k v k' : k' ∈ od_keys d \/ k' = k -> k' ∈ od_keys (od_set d k v).
Proof.
  unfold od_keys. induction d as [|[k1 v1] d IH]; cbn; [set_solver|]. case_bool_decide as E; cbn; [subst; set_solver|].
  intros Hk. apply elem_of_cons. destruct (decide (k' = k1)) as [->|Hn]; [by left|right]. apply IH.
  destruct Hk as [Hk|Hk]; [left; set_solver|by right].
Qed.

Lemma od_del_keys_in {X Y} `{EqDecision X} (d : odict X Y) k k' : k' ∈ od_keys d -> k' <> k -> k' ∈ od_keys (od_del d k).
Proof. unfold od_keys. induction d as [|[k1 v1] d IH]; cbn; [done|]. case_bool_decide as E; cbn; set_solver. Qed.

Abbreviation runs m o := (forall evs w, channel_ok evs w ->
  exists evs' w', m w = (w', match o with Some e => Raise e | None => Val tt end) /\ channel_ok evs' w' /\ (ticks w <= ticks w')%nat).

Abbreviation phase_start' := (phase_start (K:=recording fails) g isprintable builtin_names error_names).
Abbreviation phase_finish' := (phase_finish (K:=recording fails) g isprintable builtin_names error_names).

(** The phases change with the event that opens or closes one. *)
Lemma emitted_phases evs w ks evs' w1 w2 ps :
  channel_ok evs w -> emitted w ks evs' w1 -> chan w2 = chan (set_phases w1 ps) -> (ticks w <= ticks w2)%nat ->
  Forall (fun kt => known_reading (ticks w2) kt.2) ps -> (forall k, k ∈ ks -> k ∈ shown <$> od_keys ps) -> channel_ok evs' w2.
Proof.
  intros [_ _ _ _ _ Hst Hr _ _] [H1 H2 H3 H4 H5 H6 (Er & Eo & Es & Et & _)] Ec Ht Hps Hks.
  constructor; rewrite ?Ec; cbn; try done.
  - rewrite Es. by eapply reading_mono.
  - rewrite Er. eapply Forall_impl; [|exact Hr]. intros kr [? ? ? Hk]. constructor; try done. by eapply reading_mono.
  - by eapply pending_mono.
Qed.

Lemma phase_start_ok name table ri evs w :
  _check_count ri = true -> channel_ok evs w ->
  exists evs' w' t, phase_start' name table ri w = (w', Val t) /\ channel_ok evs' w' /\ known_reading (ticks w') t /\ (ticks w <= ticks w')%nat.
Proof.
  intros Hri Hc. pose proof (co_open _ _ Hc) as Ho.
  pose proof (post_phase name p_start table ri None None None _ (located_ok (Some name) table None) Hri eq_refl eq_refl) as Hp.
  destruct (emit_keys evs w _ (located (Some name) table None) _ (shown (name, table) :: (shown <$> od_keys (_open_phases (chan w)))) Hc eq_refl Hp eq_refl)
    as (evs' & w1 & He & Hem).
  { intros k Hk. cbn in Hk. rewrite <- Hk. left. }
  { intros k Hk. right. by right. }
  pose proof (em_rest _ _ _ _ Hem) as (Er & Eo & Es & Et & _).
  eexists evs', _, _. split; [unfold phase_start, mbind, prog_bind at 1; rewrite He; reflexivity|].
  split; [|split; [apply reading_now|cbn; lia]]. rewrite <- Eo in Ho.
  eapply (emitted_phases evs w _ evs' w1 _ (od_set (_open_phases (chan w1)) (name, table) (perf (ticks w1)))); [done|exact Hem|done|cbn; lia| |].
  - apply od_set_Forall; [apply reading_now|]. eapply Forall_impl; [|exact Ho]. intros kt Hk. cbn. eapply reading_mono; [|exact Hk]. lia.
  - rewrite Eo. intros k [->|Hk]%elem_of_cons; [apply list_elem_of_fmap_2, od_set_keys_in; by right|].
    apply list_elem_of_fmap in Hk as (k' & -> & Hk). apply list_elem_of_fmap_2, od_set_keys_in. by left.
Qed.

(** Any event that closes a phase, followed by its removal. *)
Lemma phase_close name table st ri ro t ec v evs w :
  st <> p_start -> post_init_v1 v = Ok tt -> sequence v = None -> _check_count ri = true -> _check_count ro = true ->
  is_seconds t = true -> channel_ok evs w ->
  exists evs' w', (_ ← emit_new (PhaseEvent name st table ri ro (Some t) ec) v; pop_phase (name, table)) w = (w', Val tt) /\
    channel_ok evs' w' /\ (ticks w <= ticks w')%nat.
Proof.
  intros Hst Hv Hsv Hri Hro Ht Hc. pose proof (co_open _ _ Hc) as Ho.
  pose proof (post_phase name st table ri ro (Some t) ec v Hv Hri Hro Ht) as Hp.
  set (ks := List.filter (fun k => negb (bool_decide (k = shown (name, table)))) (shown <$> od_keys (_open_phases (chan w)))).
  destruct (emit_keys evs w _ v _ ks Hc Hsv Hp) as (evs' & w1 & He & Hem); [done| | |].
  { intros k Hk. cbn in Hk. by destruct st. }
  { intros k Hk. destruct (decide (k = shown (name, table))) as [->|Hne]; [by left|]. right. unfold ks.
    apply list_elem_of_In, filter_In. split; [by apply list_elem_of_In|]. by rewrite bool_decide_eq_false_2. }
  pose proof (em_rest _ _ _ _ Hem) as (Er & Eo & Es & Et & _).
  eexists evs', _. split; [unfold mbind, prog_bind at 1; rewrite He; reflexivity|]. split; [|cbn; lia]. rewrite <- Eo, <- Et in Ho.
  eapply (emitted_phases evs w _ evs' w1 _ (od_del (_open_phases (chan w1)) (name, table))); [done|exact Hem|done|cbn; lia| |].
  - by apply od_del_Forall.
  - rewrite Eo. intros k Hk. unfold ks in Hk. apply list_elem_of_In, filter_In in Hk as [Hk Hne].
    apply list_elem_of_In, list_elem_of_fmap in Hk as (k' & -> & Hk). apply list_elem_of_fmap_2, od_del_keys_in; [done|].
    intros ->. apply negb_true_iff, bool_decide_eq_false in Hne. done.
Qed.

Lemma phase_finish_ok name t table ri ro stored evs w :
  _check_count ri = true -> _check_count ro = true -> _check_count stored = true -> known_reading (ticks w) t -> channel_ok evs w ->
  exists evs' w', phase_finish' name t table ri ro stored w = (w', Val tt) /\ channel_ok evs' w' /\ (ticks w <= ticks w')%nat.
Proof.
  intros Hri Hro Hst Ht Hc. set (w1 := MkWorld (chan w) (S (ticks w)) (adapter w)).
  assert (Hc1 : channel_ok evs w1) by (apply (channel_ok_world _ w); [done|cbn; lia|done]).
  set (v := MkV1 None (_ident (Some name)) (_ident table) stored None (match stored with Some _ => Some stored_output | None => None end) None None None None).
  assert (Hv : post_init_v1 v = Ok tt).
  { unfold post_init_v1, v. cbn [sequence bytes_done bytes_total_estimate byte_basis v_object_ref v_phase].
    rewrite !ident_ok, Hst. by destruct stored. }
  destruct (phase_close name table p_finish ri ro (tsub (perf (ticks w)) t) None v evs w1) as (evs' & w' & H & Hc' & Htk); try done;
    [by apply reading_elapsed|].
  exists evs', w'. split; [exact H|]. split; [done|]. cbn in Htk. lia.
Qed.

Lemma capture_world e n (w : World) : exists a r, _capture g e n w = (set_adapter w a, Val r).
Proof.
  unfold _capture. destruct (capture_failure _ _ _ _ _ _ _) as [[a r]|x]; [by exists a, (Some r)|].
  exists (adapter w), None. by destruct w.
Qed.

Abbreviation phase' := (phase (K:=recording fails) g isprintable builtin_names error_names class_name).

Lemma phase_ok name table ri work o : _check_count ri = true -> runs work o -> runs (phase' name table ri work) o.
Proof.
  intros Hri Hw evs w Hc. destruct (phase_start_ok name table ri evs w Hri Hc) as (evs1 & w1 & t & Hs & Hc1 & Ht & Htk1).
  destruct (Hw evs1 w1 Hc1) as (evs2 & w2 & Hwk & Hc2 & Htk2).
  assert (Ht2 : known_reading (ticks w2) t) by (by eapply reading_mono).
  unfold phase, mbind, prog_bind at 1. rewrite Hs. unfold step. rewrite Hwk. destruct o as [e|].
  - unfold prog_bind at 1, perf_counter at 1. set (w3 := MkWorld (chan w2) (S (ticks w2)) (adapter w2)).
    assert (Hc3 : channel_ok evs2 w3) by (apply (channel_ok_world _ w2); [done|cbn; lia|done]).
    unfold prog_bind at 1. destruct (capture_world e (Some name) w3) as (a & r & ->).
    destruct (phase_close name table p_error None None (tsub (perf (ticks w2)) t) (Some (class_name e)) (located (Some name) table r) evs2 (set_adapter w3 a))
      as (evs4 & w4 & H4 & Hc4 & Htk4); try done; [apply located_ok|by apply reading_elapsed|by apply (channel_ok_world _ w3)|].
    unfold mbind, prog_bind in H4. unfold prog_bind.
    destruct (emit_new _ _ (set_adapter w3 a)) as [w5 [u|x]] eqn:E5; [|discriminate]. rewrite H4.
    exists evs4, w4. split; [done|]. split; [done|]. cbn in Htk4. lia.
  - destruct (phase_finish_ok name t table ri None None evs2 w2) as (evs3 & w3 & -> & Hc3 & Htk3); try done.
    exists evs3, w3. split; [done|]. split; [done|lia].
Qed.

Lemma runs_seq (m k : Prog World unit) o : runs m None -> runs k o -> runs (_ ← m; k) o.
Proof.
  intros Hm Hk evs w Hc. destruct (Hm evs w Hc) as (evs1 & w1 & E1 & Hc1 & Ht1). destruct (Hk evs1 w1 Hc1) as (evs2 & w2 & E2 & Hc2 & Ht2).
  exists evs2, w2. unfold mbind, prog_bind. rewrite E1. split; [done|]. split; [done|lia].
Qed.

Lemma runs_stop (m k : Prog World unit) e : runs m (Some e) -> runs (_ ← m; k) (Some e).
Proof. intros Hm evs w Hc. destruct (Hm evs w Hc) as (evs1 & w1 & E1 & Hc1 & Ht1). exists evs1, w1. unfold mbind, prog_bind. by rewrite E1. Qed.

Lemma runs_skip : runs (mret tt : Prog World unit) None.
Proof. intros evs w Hc. by exists evs, w. Qed.

(** The first exception of a sequence. *)
Fixpoint first_raise {X} (f : X -> option pyexn) (l : list X) : option pyexn :=
  match l with [] => None | x :: l' => match f x with Some e => Some e | None => first_raise f l' end end.

Lemma runs_each {X} (f : X -> Prog World unit) (o : X -> option pyexn) l :
  Forall (fun x => runs (f x) (o x)) l -> runs (for_prog f l) (first_raise o l).
Proof.
  induction 1 as [|x l Hx Hl IH]; [apply runs_skip|]. cbn [for_prog first_raise]. destruct (o x) as [e|]; [by apply runs_stop|by apply runs_seq].
Qed.

Lemma first_raise_none {X} (l : list X) : first_raise (fun _ => None) l = None.
Proof. by induction l. Qed.

(** ** Rates *)

Abbreviation emit_rate' := (_emit_rate (K:=recording fails) g isprintable builtin_names error_names).
Abbreviation rows' := (rows (K:=recording fails) g isprintable builtin_names error_names).
Abbreviation flush' := (flush (K:=recording fails) g isprintable builtin_names error_names).

Lemma emit_rate_ok table r n final evs w :
  rate_ok n r -> channel_ok evs w -> exists evs' w', emit_rate' table r (perf n) final w = (w', Val tt) /\ channel_ok evs' w' /\ ticks w' = ticks w.
Proof.
  intros [Hr Hb Ht Hs] Hc. pose proof (reading_elapsed _ _ Hs) as Hel.
  set (el := at_least_tiny (tsub (perf n) (ra_started r))).
  set (v := MkV1 None (_ident (ra_phase r)) (_ident (Some table)) (ra_bytes r) None
       (match ra_bytes r with Some _ => Some arrow_logical | None => None end) None None None None).
  assert (Hv : post_init_v1 v = Ok tt).
  { unfold post_init_v1, v. cbn [sequence bytes_done bytes_total_estimate byte_basis v_object_ref v_phase]. rewrite !ident_ok, Hb. by destruct (ra_bytes r). }
  assert (Hp : post (MkEvent (RateSample table (ra_rows r) (rate_of (ra_rows r) el) el (ra_total r) final) v) =
    Ok (MkEvent (RateSample (match approve_name isprintable table with Some _ => table | None => py "unknown" end)
          (ra_rows r) (rate_of (ra_rows r) el) el (ra_total r) final) v)).
  { unfold post_init. cbn [e_v1 e_body]. rewrite Hv, Ht. unfold el. rewrite tiny_seconds, rate_seconds by done.
    by replace (0 <=? ra_rows r) with true by lia. }
  unfold _emit_rate. fold el v. eapply emit_plain; [done|done|exact Hp|done|intros k Hk; exact Hk].
Qed.

Lemma rate_ok_mono n m r : (n <= m)%nat -> rate_ok n r -> rate_ok m r.
Proof. intros H [? ? ? Hk]. constructor; try done. by eapply reading_mono. Qed.

Lemma rows_ok table n total nbytes ph :
  0 <= n -> _check_count total = true -> _check_count nbytes = true -> runs (rows' table n total nbytes ph) None.
Proof.
  intros Hn Ht Hb evs w Hc. unfold rows. rewrite (co_sink _ _ Hc). unfold mbind, prog_bind at 1, perf_counter, step. cbn [chan].
  set (w1 := MkWorld (chan w) (S (ticks w)) (adapter w)).
  assert (Hc1 : channel_ok evs w1) by (apply (channel_ok_world _ w); [done|cbn; lia|done]).
  set (r0 := default _ (od_get _ table)). assert (Hr0 : rate_ok (ticks w) r0).
  { unfold r0. destruct (od_get (_rates (chan w)) table) as [r|] eqn:Er; cbn.
    - apply od_get_elem in Er. pose proof (co_rates _ _ Hc) as Hr. rewrite list.Forall_forall in Hr. by apply Hr in Er.
    - constructor; cbn; try done. by exists (ticks w). }
  set (r := MkRate _ _ _ _ _ _). assert (Hr : rate_ok (ticks w) r).
  { destruct Hr0 as [H1 H2 H3 H4]. constructor; cbn; [lia| | |done].
    - destruct nbytes as [b|]; [|done]. cbn in *. destruct (ra_bytes r0); cbn in *; lia.
    - by destruct total. }
  assert (Hup : forall r', rate_ok (ticks w) r' -> rate_ok (S (ticks w)) r') by (intros r'; apply rate_ok_mono; lia).
  set (w2 := set_rates w1 _). assert (Hc2 : channel_ok evs w2).
  { apply channel_ok_rates; [done|]. apply od_set_Forall; [by apply Hup|]. apply (co_rates _ _ Hc1). }
  destruct (tgeb _ _); [|exists evs, w2; split; [done|]; split; [done|cbn; lia]].
  destruct (emit_rate_ok table r (ticks w) false evs w2 Hr Hc2) as (evs3 & w3 & H3 & Hc3 & Ht3).
  unfold prog_bind. rewrite H3. eexists evs3, _. split; [reflexivity|]. split; [|cbn; rewrite Ht3; cbn; lia].
  apply channel_ok_rates; [done|]. apply od_set_Forall; [|apply (co_rates _ _ Hc3)]. rewrite Ht3. apply Hup.
  destruct Hr as [? ? ? ?]. by constructor.
Qed.

Lemma flush_ok table : runs (flush' table) None.
Proof.
  intros evs w Hc. unfold flush. destruct (od_get (_rates (chan w)) table) as [r|] eqn:Er; [|by exists evs, w].
  assert (Hr : rate_ok (ticks w) r).
  { apply od_get_elem in Er. pose proof (co_rates _ _ Hc) as H. rewrite list.Forall_forall in H. by apply H in Er. }
  set (w1 := set_rates w _). assert (Hc1 : channel_ok evs w1) by (apply channel_ok_rates; [done|apply od_del_Forall, Hc]).
  rewrite (co_sink _ _ Hc1). unfold mbind, prog_bind, perf_counter. set (w2 := MkWorld _ _ _).
  assert (Hc2 : channel_ok evs w2) by (apply (channel_ok_world _ w1); [done|cbn; lia|done]).
  destruct (emit_rate_ok table r (ticks w) true evs w2 Hr Hc2) as (evs3 & w3 & H3 & Hc3 & Ht3).
  exists evs3, w3. split; [exact H3|]. split; [done|]. rewrite Ht3. cbn. lia.
Qed.

Lemma work_ok (o : option pyexn) : runs (step (fun w : World => (w, match o with Some e => Raise e | None => Val tt end))) o.
Proof. intros evs w Hc. exists evs, w. by destruct o. Qed.

Lemma count_rows_ok table chunks total ph ended :
  Forall (fun ch : Z * option Z => 0 <= ch.1 /\ _check_count ch.2 = true) chunks -> _check_count total = true ->
  runs (count_rows (K:=recording fails) g isprintable builtin_names error_names table chunks total ph ended) ended.
Proof.
  intros Hch Ht evs w Hc. unfold count_rows. rewrite (co_sink _ _ Hc).
  assert (Hall : runs (_ ← for_prog (fun ch => rows' table ch.1 total ch.2 ph) chunks;
                       step (fun w : World => (w, match ended with Some e => Raise e | None => Val tt end))) ended).
  { assert (Hr : Forall (fun ch : Z * option Z => runs (rows' table ch.1 total ch.2 ph) None) chunks)
      by (eapply Forall_impl; [|exact Hch]; intros ch [H1 H2]; by apply rows_ok).
    pose proof (runs_each _ (fun _ => None) chunks Hr) as He. rewrite first_raise_none in He. apply runs_seq; [exact He|apply work_ok]. }
  destruct (Hall evs w Hc) as (evs1 & w1 & E1 & Hc1 & Ht1). unfold mbind in E1. unfold mbind. rewrite E1.
  destruct (flush_ok table evs1 w1 Hc1) as (evs2 & w2 & E2 & Hc2 & Ht2). cbn beta iota in E2. rewrite E2.
  exists evs2, w2. split; [done|]. split; [done|lia].
Qed.

(** ** Routes, warnings and reports *)

Lemma plain_ok b v e :
  sequence v = None -> post (MkEvent b v) = Ok e -> is_terminal e = false -> (forall k, ~ starts k e) -> runs (emit_new b v) None.
Proof.
  intros Hv Hp Ht Hs evs w Hc. destruct (emit_plain evs w b v e Hc Hv Hp Ht Hs) as (evs' & w' & H & Hc' & Htk).
  exists evs', w'. split; [done|]. split; [done|lia].
Qed.

(** Evaluates the construction of an event of fixed shape. *)
Ltac post_plain :=
  repeat match goal with v := _ : V1Fields |- _ => subst v end;
  unfold post_init, post_init_v1, located;
  cbn [e_v1 e_body sequence bytes_done bytes_total_estimate byte_basis v_object_ref v_phase _check_count];
  rewrite ?ident_ok; reflexivity.
Ltac plain_event := eapply plain_ok; [done|post_plain|reflexivity|intros k Hk; exact Hk].

Lemma route_ok r lane code table : runs (route (K:=recording fails) g isprintable builtin_names error_names r lane code table) None.
Proof. unfold route. plain_event. Qed.

Lemma warning_ok code table column : runs (warning (K:=recording fails) g isprintable builtin_names error_names code table column) None.
Proof. unfold warning. plain_event. Qed.

Lemma retry_ok r table why :
  runs (_ ← retry_report (K:=recording fails) g isprintable builtin_names error_names r table why; mret tt) None.
Proof.
  intros evs w Hc. unfold retry_report, mbind, prog_bind at 1. rewrite (co_sink _ _ Hc). destruct (attempt r <? _).
  { exists evs, (reject_report w). split; [done|]. split; [by apply channel_ok_reject|done]. }
  set (v := MkV1 None None _ _ _ _ _ _ _ _). set (w1 := set_retry_floor w _).
  assert (Hp : runs (emit_new (RetryEvent table) v) None) by plain_event.
  destruct (Hp evs w1) as (evs2 & w2 & E & Hc2 & Ht2); [by apply channel_ok_retry|]. exists evs2, w2. unfold prog_bind. rewrite E. done.
Qed.

Lemma checkpoint_ok cp table why :
  runs (_ ← checkpoint_report (K:=recording fails) g isprintable builtin_names error_names cp table why; mret tt) None.
Proof.
  intros evs w Hc. unfold checkpoint_report, mbind, prog_bind at 1. rewrite (co_sink _ _ Hc).
  set (v := MkV1 None None _ _ _ _ _ _ _ _). assert (Hp : runs (emit_new (CheckpointEvent table) v) None) by plain_event.
  destruct (cp_sequence cp) as [n|]; [destruct (n <? _)|].
  - exists evs, (reject_report w). split; [done|]. split; [by apply channel_ok_reject|done].
  - destruct (Hp evs (set_checkpoint_floor w n)) as (evs2 & w2 & E & Hc2 & Ht2); [by apply channel_ok_checkpoint|].
    exists evs2, w2. unfold prog_bind. by rewrite E.
  - destruct (Hp evs w Hc) as (evs2 & w2 & E & Hc2 & Ht2). exists evs2, w2. unfold prog_bind. by rewrite E.
Qed.

(** ** Programs *)

(** The exception a program ends with: its work's, nothing else's. *)
Fixpoint raises (a : act) : option pyexn :=
  match a with
  | APhase _ _ _ inner | AManual _ _ _ inner _ _ => first_raise raises inner
  | ACount _ _ _ _ ended => ended
  | AWork fails => fails
  | _ => None
  end.

(** Counts are counts. *)
Fixpoint act_ok (a : act) : bool :=
  match a with
  | APhase _ _ rows_in inner => _check_count rows_in && forallb act_ok inner
  | AManual _ _ rows_in inner rows_out stored =>
      _check_count rows_in && _check_count rows_out && _check_count stored && forallb act_ok inner
  | APublish _ n => 0 <=? n
  | ARows _ n total nbytes _ => (0 <=? n) && _check_count total && _check_count nbytes
  | ACount _ chunks total _ _ => forallb (fun ch => (0 <=? ch.1) && _check_count ch.2) chunks && _check_count total
  | _ => true
  end.

Lemma act_induction (Q : act -> Prop) :
  (forall a, match a with APhase _ _ _ inner | AManual _ _ _ inner _ _ => Forall Q inner | _ => True end -> Q a) -> forall a, Q a.
Proof.
  intros H. fix IH 1. intros a. apply H. destruct a; try exact I; induction inner as [|x l IHl]; constructor; auto.
Qed.

Abbreviation perform' := (perform (K:=recording fails) g isprintable builtin_names error_names class_name).

Lemma inner_ok inner : Forall (fun a => act_ok a = true -> runs (perform' a) (raises a)) inner -> forallb act_ok inner = true ->
  runs (for_prog perform' inner) (first_raise raises inner).
Proof.
  intros Hi Hok. apply runs_each. rewrite forallb_forall in Hok. apply List.Forall_forall. intros a Ha.
  rewrite Stdlib.Lists.List.Forall_forall in Hi. by apply Hi; [|apply Hok].
Qed.

Lemma perform_ok a : act_ok a = true -> runs (perform' a) (raises a).
Proof.
  induction a as [a IH] using act_induction. destruct a as [name table ri inner|name table ri inner ro stored|table n|r lane code table|code table column|
    r table why|cp table why|table n total nbytes ph|table|table chunks total ph ended|f]; cbn [act_ok raises perform]; intros Hok.
  - bool_prop. apply phase_ok; [done|]. by apply inner_ok.
  - apply andb_true_iff in Hok as [Hok Hin]. bool_prop. pose proof (inner_ok inner IH Hin) as Hinner. intros evs w Hc.
    destruct (phase_start_ok name table ri evs w) as (evs1 & w1 & t & Hs & Hc1 & Ht & Htk1); [done|done|].
    destruct (Hinner evs1 w1 Hc1) as (evs2 & w2 & Hw & Hc2 & Htk2). unfold mbind, prog_bind. rewrite Hs, Hw.
    destruct (first_raise raises inner) as [e|]; [exists evs2, w2; split; [done|]; split; [done|lia]|].
    destruct (phase_finish_ok name t table ri ro stored evs2 w2) as (evs3 & w3 & -> & Hc3 & Htk3); try done; [by eapply reading_mono|].
    exists evs3, w3. split; [done|]. split; [done|lia].
  - intros evs w Hc. destruct (phase_start_ok (py "publish") (Some table) None evs w) as (evs1 & w1 & t & Hs & Hc1 & Ht & Htk1); [done|done|].
    unfold publish_stored, mbind, prog_bind. rewrite Hs.
    destruct (phase_finish_ok (py "publish") t (Some table) None None (Some n) evs1 w1) as (evs2 & w2 & -> & Hc2 & Htk2); try done.
    exists evs2, w2. split; [done|]. split; [done|lia].
  - apply route_ok.
  - apply warning_ok.
  - apply retry_ok.
  - apply checkpoint_ok.
  - bool_prop. by apply rows_ok.
  - apply flush_ok.
  - apply andb_true_iff in Hok as [Hch Ht]. apply count_rows_ok; [|done]. rewrite forallb_forall in Hch. apply List.Forall_forall.
    intros ch Hin. apply Hch in Hin. bool_prop. by split; [lia|].
  - apply work_ok.
Qed.

(** ** The end of a run *)

Lemma emit_new_rates b v w : _rates (chan (emit_new b v w).1) = _rates (chan w).
Proof.
  unfold Progress.emit_new, mbind, prog_bind, construct. destruct (post _) as [e|x]; [|done]. unfold emit. destruct (_sink (chan w)) as [s|]; [|done].
  destruct (match sequence _ with Some _ => _ | None => _ end) as [q numbered]. by destruct (match numbered with Ok _ => _ | Err _ => _ end).
Qed.

Lemma flush_rates table (w : World) : _rates (chan (flush' table w).1) = od_del (_rates (chan w)) table.
Proof.
  unfold flush. destruct (od_get (_rates (chan w)) table) as [r|] eqn:E.
  - cbn [chan set_rates set_chan _sink]. destruct (_sink (chan w)); [|done]. unfold mbind, prog_bind, perf_counter, _emit_rate. by rewrite emit_new_rates.
  - apply od_get_none in E. cbn. clear -E. unfold od_keys in E. induction (_rates (chan w)) as [|[k v] d IH]; [done|]. cbn in *.
    rewrite bool_decide_eq_false_2 by set_solver. f_equal. apply IH. set_solver.
Qed.

Lemma flush_all ks evs w :
  channel_ok evs w -> exists evs' w', for_prog flush' ks w = (w', Val tt) /\ channel_ok evs' w' /\
    _rates (chan w') = fold_left (fun d k => od_del d k) ks (_rates (chan w)).
Proof.
  revert evs w. induction ks as [|k ks IH]; intros evs w Hc; [by exists evs, w|].
  destruct (flush_ok k evs w Hc) as (evs1 & w1 & E & Hc1 & _). pose proof (flush_rates k w) as Hr. rewrite E in Hr. cbn [fst] in Hr.
  destruct (IH evs1 w1 Hc1) as (evs2 & w2 & E2 & Hc2 & Hr2). exists evs2, w2. cbn [for_prog fold_left].
  unfold mbind, prog_bind. rewrite E, E2, Hr2, Hr. done.
Qed.

Lemma del_keys (d : odict pystr _Rate) k k' : k' ∈ od_keys (od_del d k) -> k' ∈ od_keys d /\ k' <> k.
Proof.
  unfold od_keys. induction d as [|[k0 v] d IH]; cbn; [by intros ?%elem_of_nil|]. case_bool_decide as E; intros H.
  - apply IH in H as [H ?]. split; [by right|done].
  - cbn in H. apply elem_of_cons in H as [->|H]; [split; [by left|done]|]. apply IH in H as [H ?]. split; [by right|done].
Qed.

Lemma del_all (d : odict pystr _Rate) : fold_left (fun d k => od_del d k) (od_keys d) d = [].
Proof.
  enough (H : forall ks (d' : odict pystr _Rate), (forall k, k ∈ od_keys d' -> k ∈ ks) -> fold_left (fun d k => od_del d k) ks d' = []) by (by apply H).
  induction ks as [|k ks IH]; intros d' Hd; cbn.
  - destruct d' as [|[k v] d']; [done|]. destruct (not_elem_of_nil k). apply Hd. by left.
  - apply IH. intros k' [Hk Hne]%del_keys. apply Hd in Hk. by apply elem_of_cons in Hk as [->|].
Qed.

Abbreviation terminal' := (terminal (K:=recording fails) g isprintable builtin_names error_names).

(** The last event of a run. *)
Definition ends (st : RunStatus) (evs : list event) : Prop :=
  exists init t ec el sf, evs = init ++ [t] /\ numbered evs /\ Forall (fun e => is_terminal e = false) init /\ e_body t = TerminalEvent st ec el sf.

Lemma terminal_ok st ec record evs w :
  channel_ok evs w -> exists e w', terminal' st ec record w = (w', Val tt) /\ _sink (chan w') = Some (evs ++ [e]) /\ ends st (evs ++ [e]) /\
    _rates (chan w') = _rates (chan w) /\ (forall ks, pending evs ks -> pending (evs ++ [e]) ks).
Proof.
  intros [Hs Hq Hn Hte Hf Hst Hr Ho Hp]. unfold terminal, mbind, prog_bind, perf_counter, step. cbn [chan].
  set (w1 := MkWorld (chan w) (S (ticks w)) (adapter w)). set (v := MkV1 _ _ _ _ _ _ _ _ _ _).
  set (el := tsub (perf (ticks w)) (_started (chan w))).
  set (e := MkEvent (TerminalEvent st (safe_error_class builtin_names error_names ec) (Some el) (sink_failures (chan w))) v).
  assert (Hpost : post (MkEvent (TerminalEvent st ec (Some el) (sink_failures (chan w))) v) = Ok e).
  { unfold post_init. cbn [e_v1 e_body]. change (post_init_v1 v) with (Ok tt : result unit). cbn [mbind result_bind _check_seconds].
    unfold el. rewrite reading_elapsed by done. by replace (0 <=? sink_failures (chan w)) with true by lia. }
  rewrite (emit_new_ok evs w1 _ v e Hs ltac:(unfold w1; cbn; rewrite Hq; unfold zlen; lia) eq_refl Hpost).
  set (e' := set_sequence e (_sequence (chan w1) + 1)). exists e', (delivered w1 e'). split; [done|].
  split; [unfold delivered; cbn; by rewrite Hs|]. split; [|split; [done|]].
  - exists evs, e', (safe_error_class builtin_names error_names ec), (Some el), (sink_failures (chan w)). split_and!; [done| |done|done].
    apply numbered_snoc; [done|]. cbn. by rewrite Hq.
  - intros ks Hks. eapply pending_snoc; [| |exact Hks]; [intros k Hk; by destruct Hk|intros k Hk; by right].
Qed.

(** Closing what the failed work left open. *)
Lemma close_all record e (rest : list (phase_key * time)) evs w :
  channel_ok evs w -> Forall (fun kt => known_reading (ticks w) kt.2) rest -> pending evs (shown <$> rest.*1) ->
  exists evs' w', for_prog (close_error (K:=recording fails) g isprintable builtin_names error_names class_name record e) rest w = (w', Val tt) /\
    channel_ok evs' w' /\ pending evs' [] /\ (ticks w <= ticks w')%nat.
Proof.
  revert evs w. induction rest as [|[[name table] t] rest IH]; intros evs w Hc Hr Hp; [by exists evs, w|].
  apply Forall_cons_iff in Hr as [Ht Hr]. 
  set (w1 := MkWorld (chan w) (S (ticks w)) (adapter w)).
  assert (Hc1 : channel_ok evs w1) by (apply (channel_ok_world _ w); [done|cbn; lia|done]).
  pose proof (post_phase name p_error table None None (Some (tsub (perf (ticks w)) t)) (Some (class_name e)) _ (located_ok (Some name) table record)
    eq_refl eq_refl (reading_elapsed _ _ Ht)) as Hpost.
  destruct (emit_plain evs w1 _ (located (Some name) table record) _ Hc1 eq_refl Hpost) as (evs2 & w2 & E & Hc2 & Htk2); [done|intros k Hk; exact Hk|].
  pose proof (emit_new_ok evs w1 _ (located (Some name) table record) _ (co_sink _ _ Hc1)
    ltac:(rewrite (co_seq _ _ Hc1); unfold zlen; lia) eq_refl Hpost) as E'.
  assert (Hevs : exists e2, evs2 = evs ++ [e2] /\ closes (shown (name, table)) e2 /\ forall k, ~ starts k e2).
  { rewrite E in E'. injection E' as ->. pose proof (co_sink _ _ Hc2) as Hs2. unfold delivered in Hs2. cbn in Hs2. rewrite (co_sink _ _ Hc) in Hs2.
    injection Hs2 as <-. eexists. split; [reflexivity|]. split; [done|]. intros k Hk. exact Hk. }
  destruct Hevs as (e2 & -> & Hcl & Hns).
  destruct (IH (evs ++ [e2]) w2 Hc2) as (evs3 & w3 & E3 & Hc3 & Hp3 & Ht3).
  - rewrite Htk2. eapply Forall_impl; [|exact Hr]. intros kt Hk. eapply reading_mono; [|exact Hk]. cbn. lia.
  - eapply pending_snoc; [| |exact Hp]; [intros k Hk; by destruct (Hns k)|].
    intros k Hk. cbn in Hk. apply elem_of_cons in Hk as [->|Hk]; [by left|by right].
  - exists evs3, w3. cbn [for_prog]. unfold mbind, prog_bind.
    change (close_error _ _ _ _ _ record e (name, table, t) w) with
      (emit_new (PhaseEvent name p_error table None None (Some (tsub (perf (ticks w)) t)) (Some (class_name e))) (located (Some name) table record) w1).
    rewrite E, E3. split_and!; try done. rewrite Htk2 in Ht3. cbn in Ht3. lia.
Qed.

Abbreviation run_scope' := (run_scope (K:=recording fails) g isprintable builtin_names error_names class_name).

Lemma run_failed_ok e evs w :
  channel_ok evs w -> exists evs' w', run_failed (K:=recording fails) g isprintable builtin_names error_names class_name e w = (w', Raise e) /\
    _sink (chan w') = Some evs' /\ ends t_error evs' /\ pending evs' [].
Proof.
  intros Hc. unfold run_failed, mbind, prog_bind at 1. destruct (capture_world e (match list.last (_open_phases (chan w)) with Some kv => Some kv.1.1 | None => None end) w) as (a & r & ->).
  set (w1 := set_adapter w a). assert (Hc1 : channel_ok evs w1) by (by apply (channel_ok_world _ w)).
  destruct (close_all r e (_open_phases (chan w)) evs w1 Hc1 (co_open _ _ Hc) (co_pending _ _ Hc)) as (evs2 & w2 & E2 & Hc2 & Hp2 & _).
  unfold prog_bind at 1. rewrite E2. unfold prog_bind at 1, step at 1.
  assert (Hc3 : channel_ok evs2 (set_phases w2 [])) by (by apply channel_ok_phases).
  destruct (terminal_ok t_error (Some (class_name e)) r evs2 (set_phases w2 []) Hc3) as (t & w4 & E4 & Hs4 & He4 & _ & Hp4).
  unfold prog_bind. rewrite E4. exists (evs2 ++ [t]), w4. split_and!; try done. by apply Hp4.
Qed.

Lemma run_finished_ok evs w :
  channel_ok evs w -> exists evs' w', run_finished (K:=recording fails) g isprintable builtin_names error_names w = (w', Val tt) /\
    _sink (chan w') = Some evs' /\ ends t_ok evs' /\ _rates (chan w') = [].
Proof.
  intros Hc. unfold run_finished, mbind, prog_bind. destruct (flush_all (od_keys (_rates (chan w))) evs w Hc) as (evs1 & w1 & -> & Hc1 & Hr1).
  rewrite del_all in Hr1. destruct (terminal_ok t_ok None None evs1 w1 Hc1) as (t & w2 & E2 & Hs2 & He2 & Hr2 & _).
  exists (evs1 ++ [t]), w2. rewrite E2. split_and!; try done. by rewrite Hr2.
Qed.

(** C9: every run ends once and truthfully. On a fresh channel whose sink may raise an
    ordinary exception at any event, a run of any program of channel operations, given
    counts that are not negative (others are a ValueError to the caller), returns or
    raises exactly what its own work does; the sink is given events numbered from one, the
    last of which, and no other, is the terminal event, [ok] if and only if the work
    succeeded; after a failure every phase ever started has been closed by a later
    event; and after a success no table's final sample is owed. *)
Theorem run_ends_once acts interval n ad :
  forallb act_ok acts = true ->
  let run := run_scope' (for_prog perform' acts) (new_channel (K:=recording fails) (Some []) interval n ad) in
  run.2 = match first_raise raises acts with Some e => Raise e | None => Val tt end /\
  exists evs, _sink (chan run.1) = Some evs /\
    ends (match first_raise raises acts with Some _ => t_error | None => t_ok end) evs /\
    match first_raise raises acts with Some _ => pending evs [] | None => _rates (chan run.1) = [] end.
Proof.
  intros Hok. cbv zeta. unfold run_scope. set (w0 := set_adapter _ _).
  assert (Hc : channel_ok [] w0).
  { constructor; cbn; try done; try constructor. exists n. split; [lia|done]. }
  assert (Hrun : runs (for_prog perform' acts) (first_raise raises acts)).
  { apply runs_each. rewrite forallb_forall in Hok. apply List.Forall_forall. intros a Ha. by apply perform_ok, Hok. }
  destruct (Hrun [] w0 Hc) as (evs1 & w1 & -> & Hc1 & _). destruct (first_raise raises acts) as [e|].
  - destruct (run_failed_ok e evs1 w1 Hc1) as (evs2 & w2 & -> & Hs2 & He2 & Hp2). cbn. split; [done|]. by exists evs2.
  - destruct (run_finished_ok evs1 w1 Hc1) as (evs2 & w2 & -> & Hs2 & He2 & Hr2). cbn. split; [done|]. by exists evs2.
Qed.
End Theory.

(** ** Witness *)

(** A clock that advances by one second at each reading. *)
#[local] Instance steady : Clock := {|
  time := Z; perf := Z.of_nat; tsub := Z.sub; tgeb := Z.geb; at_least_tiny := Z.max 1; rate_of := Z.div; is_seconds := Z.leb 0
|}.

#[local] Instance steady_laws : ClockLaws steady.
Proof.
  split; cbn.
  - intros i j H. lia.
  - intros t H. lia.
  - intros n t Hn Ht. apply Z.leb_le, Z.div_pos; lia.
Qed.

Definition boom : pyexn := MkExn 7 [builtin "ValueError"; builtin "Exception"] None None true None.

(** A phase that emits rows and a warning, opens a phase by hand, and fails inside it, on a sink that refuses every event. *)
Definition failing_run : list act :=
  [AFlush (py "orders");
   APhase (py "mask") (Some (py "orders")) (Some 3)
     [ARows (py "orders") 2 (Some 3) None (Some (py "mask")); AWarning (py "no_such_code") (Some (py "orders")) None;
      AManual (py "write") (Some (py "orders")) None [AWork (Some boom)] None None];
   APublish (py "orders") 10].

Lemma run_ends_once_witness :
  let run := run_scope (K:=recording (fun _ _ => true)) the_registry (fun _ => true) [py "Exception"] [] (fun _ => py "ValueError")
    (for_prog (perform (K:=recording (fun _ _ => true)) the_registry (fun _ => true) [py "Exception"] [] (fun _ => py "ValueError")) failing_run)
    (new_channel (K:=recording (fun _ _ => true)) (Some []) (5 : time) 0 (MkAdapter ∅ [])) in
  run.2 = Raise boom /\ exists evs, _sink (chan run.1) = Some evs /\ ends t_error evs /\ pending evs [].
Proof.
  refine (run_ends_once (fun _ _ => true) the_registry (fun _ => true) [py "Exception"] [] (fun _ => py "ValueError") _ _ failing_run 5 0 (MkAdapter ∅ []) _).
  - vm_compute. reflexivity.
  - by left.
  - vm_compute. reflexivity.
Defined.
