(* ===== verification/Walks.v ===== *)
(** * Walks: relationship inference, schema drift and hazards (walks/)

    The schema walker: the entity graph of a snapshot (graph.py), the two inference
    rules (inference.py, cross_file.py), the drift comparator (diff.py) and the six
    hazard detectors (hazards.py). Case mapping and [isalnum] come from the Unicode
    tables behind [UnicodeOps]. *)

From Stdlib Require Import SpecFloat.
From S2P Require Import Prelude PyText PyData.

(** ** What is used of the Unicode tables *)

Class UnicodeOps := {
  py_lower : pystr -> pystr;      (* [s.lower()] *)
  isalnum : pystr -> bool;        (* [s.isalnum()] *)
}.

(** ** Text *)

Definition ends_with (s p : pystr) : bool :=
  (zlen p <=? zlen s) && bool_decide (zdrop (zlen s - zlen p) s = p).

(** [s[:-k]] for a positive [k]. *)
Definition chop (k : Z) (s : pystr) : pystr := ztake (zlen s - k) s.

(** [s.rsplit(c, 1)]: the text before and after the last [c], when there is one. *)
Fixpoint rsplit1 (c : Z) (s : pystr) : option (pystr * pystr) :=
  match s with
  | [] => None
  | x :: s' =>
      match rsplit1 c s' with
      | Some (l, r) => Some (x :: l, r)
      | None => if x =? c then Some ([], s') else None
      end
  end.

(** [s.rsplit(c, 1)[-1]] *)
Definition last_part (c : Z) (s : pystr) : pystr :=
  match rsplit1 c s with Some (_, r) => r | None => s end.

(** [sep.join(parts)] *)
Fixpoint join (sep : pystr) (parts : list pystr) : pystr :=
  match parts with
  | [] => []
  | [p] => p
  | p :: ps => p ++ sep ++ join sep ps
  end.

(** [sorted(set(l))] *)
Definition sorted_names (l : list pystr) : list pystr := sorted (fromkeys l).

(** ** Types (types.py) *)

Record Column := MkColumn {
  col_name : pystr;
  data_type : pystr;
  nullable : bool;
  is_primary_key : bool;
}.

Record Table := MkTable {
  tbl_name : pystr;
  tbl_schema : pystr;
  columns : list Column;
}.

Record Edge := MkEdge {
  source_table : pystr;
  source_column : pystr;
  target_table : pystr;
  target_column : pystr;
  declared : bool;
  polymorphic : bool;
}.

#[global] Instance Edge_eq_dec : EqDecision Edge.
Proof. solve_decision. Defined.

Record SchemaSnapshot := MkSnapshot {
  db_kind : pystr;
  schema_name : pystr;
  tables : list Table;
  declared_edges : list Edge;
  connector_id : option Z;
}.

Record Hazard := MkHazard {
  kind : pystr;
  hazard_table : option pystr;
  description : pystr;
  details : list (pystr * pyval);
}.

Record DriftResult := MkDrift {
  added_tables : list pystr;
  removed_tables : list pystr;
  changed_columns : list (list (pystr * pyval));
  new_pii : list (list (pystr * pyval));
}.

(** [key=lambda e: (e.source_table, e.source_column, e.target_table)] *)
Definition edge_order (e : Edge) : pystr * pystr * pystr :=
  (source_table e, source_column e, target_table e).

(** [{t.name: t for t in snapshot.tables}] and [{c.name: c for c in table.columns}] *)
Definition by_name (ts : list Table) : odict pystr Table := od_of ((fun t => (tbl_name t, t)) <$> ts).
Definition cols_by_name (t : Table) : odict pystr Column :=
  od_of ((fun c => (col_name c, c)) <$> columns t).

(** ** The entity graph (graph.py) *)

Record ERGraph := MkERGraph {
  er_tables : list pystr;
  er_edges : list Edge;
  incoming_edge_count : odict pystr Z;
  outgoing_edge_count : odict pystr Z;
  adjacency : odict pystr (list pystr);
}.

Record er_state := MkER {
  incoming : odict pystr Z;
  outgoing : odict pystr Z;
  adj : odict pystr (list pystr);
}.

(** [if t not in incoming: incoming[t] = 0; outgoing[t] = 0; adjacency[t] = []] *)
Definition er_known (t : pystr) (s : er_state) : er_state :=
  if od_has (incoming s) t then s
  else MkER (od_set (incoming s) t 0) (od_set (outgoing s) t 0) (od_set (adj s) t []).

(** [d[k] = f(d[k])], a [KeyError] when there is no [d[k]]. *)
Definition od_update {V} (d : odict pystr V) (k : pystr) (f : V -> V) : result (odict pystr V) :=
  v ← of_option (exc "KeyError") (od_get d k); Ok (od_set d k (f v)).

Definition er_edge (s : er_state) (e : Edge) : result er_state :=
  let s := er_known (target_table e) (er_known (source_table e) s) in
  o ← od_update (outgoing s) (source_table e) (Z.add 1);
  i ← od_update (incoming s) (target_table e) (Z.add 1);
  a ← od_update (adj s) (source_table e) (fun l => l ++ [target_table e]);
  Ok (MkER i o a).

Definition er_start (ts : list pystr) : er_state :=
  MkER (od_of ((fun t => (t, 0)) <$> ts)) (od_of ((fun t => (t, 0)) <$> ts))
       (od_of ((fun t => (t, [])) <$> ts)).

Definition build_er_graph (snapshot : SchemaSnapshot) (extra_edges : list Edge) : result ERGraph :=
  let edges_list := declared_edges snapshot ++ extra_edges in
  let ts := tbl_name <$> tables snapshot in
  s ← for_each er_edge edges_list (er_start ts);
  Ok (MkERGraph ts edges_list (incoming s) (outgoing s) (adj s)).

(** ** Drift (diff.py) *)

(** [d.keys() - e.keys()], [d.keys() & e.keys()], sorted. *)
Definition keys_minus {V W} (d : odict pystr V) (e : odict pystr W) : list pystr :=
  sorted (List.filter (fun k => negb (od_has e k)) (od_keys d)).
Definition keys_both {V W} (d : odict pystr V) (e : odict pystr W) : list pystr :=
  sorted (List.filter (od_has e) (od_keys d)).

Definition change (table column change_kind : pystr) (more : list (pystr * pyval))
  : list (pystr * pyval) :=
  [(py "table", PStr table); (py "column", PStr column); (py "change_kind", PStr change_kind)] ++ more.

Definition from_to (before after : pyval) : list (pystr * pyval) :=
  [(py "from", before); (py "to", after)].

(** The body of the loop over the columns of both tables. *)
Definition diff_column (table name : pystr) (before after : Column) : list (list (pystr * pyval)) :=
  (if bool_decide (data_type before = data_type after) then []
   else [change table name (py "type_changed") (from_to (PStr (data_type before)) (PStr (data_type after)))])
  ++ (if Bool.eqb (nullable before) (nullable after) then []
      else [change table name (py "nullability_changed")
              (from_to (PBool (nullable before)) (PBool (nullable after)))])
  ++ (if Bool.eqb (is_primary_key before) (is_primary_key after) then []
      else [change table name (py "pk_changed")
              (from_to (PBool (is_primary_key before)) (PBool (is_primary_key after)))]).

Definition diff_common (table : pystr) (a_cols b_cols : odict pystr Column) (name : pystr)
  : result (list (list (pystr * pyval))) :=
  before_col ← of_option (exc "KeyError") (od_get a_cols name);
  after_col ← of_option (exc "KeyError") (od_get b_cols name);
  Ok (diff_column table name before_col after_col).

Definition _diff_columns (before after : Table) : result (list (list (pystr * pyval))) :=
  let a_cols := cols_by_name before in
  let b_cols := cols_by_name after in
  let added := (fun n => change (tbl_name before) n (py "added") []) <$> keys_minus b_cols a_cols in
  let removed := (fun n => change (tbl_name before) n (py "removed") []) <$> keys_minus a_cols b_cols in
  changed ← map_res (diff_common (tbl_name before) a_cols b_cols) (keys_both a_cols b_cols);
  Ok (added ++ removed ++ concat changed).

Definition diff_table (a_tables b_tables : odict pystr Table) (name : pystr)
  : result (list (list (pystr * pyval))) :=
  before ← of_option (exc "KeyError") (od_get a_tables name);
  after ← of_option (exc "KeyError") (od_get b_tables name);
  _diff_columns before after.

Definition compare (a b : SchemaSnapshot) : result DriftResult :=
  let a_tables := by_name (tables a) in
  let b_tables := by_name (tables b) in
  changed ← map_res (diff_table a_tables b_tables) (keys_both a_tables b_tables);
  Ok (MkDrift (keys_minus b_tables a_tables) (keys_minus a_tables b_tables) (concat changed) []).

(** ** Inference (inference.py) *)

Section Inference.
Context `{U : UnicodeOps}.

(** The first of the names that is a table. *)
Definition first_table (tabs : odict pystr Table) (names : list pystr) : option pystr :=
  find (od_has tabs) names.

Definition _candidate_target (column_name : pystr) (tabs : odict pystr Table) : option pystr :=
  if negb (ends_with (py_lower column_name) (py "_id")) then None else
  let stem := chop 3 column_name in
  if bool_decide (stem = []) then None else
  match first_table tabs [stem; stem ++ py "s"] with
  | Some t => Some t
  | None =>
      if bool_decide (95 ∈ stem)
      then let last := last_part 95 stem in first_table tabs [last; last ++ py "s"]
      else None
  end.

Definition _has_id_pk (t : Table) : bool :=
  existsb (fun c => bool_decide (py_lower (col_name c) = py "id") && is_primary_key c) (columns t).

Definition infer_column (tabs : odict pystr Table) (declared_pairs : list (pystr * pystr))
    (t : Table) (c : Column) : result (list Edge) :=
  match _candidate_target (col_name c) tabs with
  | None => Ok []
  | Some target_name =>
      target ← of_option (exc "KeyError") (od_get tabs target_name);
      if negb (_has_id_pk target) then Ok []
      else if bool_decide ((tbl_name t, col_name c) ∈ declared_pairs) then Ok []
      else Ok [MkEdge (tbl_name t) (col_name c) target_name (py "id") false false]
  end.

Definition each_column {A} (f : Table -> Column -> result (list A)) (ts : list Table)
  : result (list A) :=
  l ← map_res (fun t => fs ← map_res (f t) (columns t); Ok (concat fs)) ts; Ok (concat l).

Definition infer_edges (snapshot : SchemaSnapshot) : result (list Edge) :=
  let tabs := by_name (tables snapshot) in
  let declared_pairs := (fun e => (source_table e, source_column e)) <$> declared_edges snapshot in
  inferred ← each_column (infer_column tabs declared_pairs) (tables snapshot);
  Ok (sorted_by edge_order inferred).

(** ** Files (cross_file.py) *)

(** The fields of a [FieldStats] and a [ColumnProfile] that are read. *)
Record FieldStats := MkField {
  fs_name : pystr;
  inferred_type : pystr;
  null_rate : spec_float;
  is_likely_unique : bool;
}.

Record ColumnProfile := MkProfile {
  source_label : pystr;
  fields : list FieldStats;
}.

Record CrossFileWalkResult := MkWalk {
  snapshot_summary : list (pystr * pyval);
  walk_edges : list Edge;
}.

(** The last path component, without a short alphanumeric extension. *)
Definition strip_extension (name : pystr) : pystr :=
  match rsplit1 46 name with
  | None => name
  | Some (stem, ext) =>
      if (1 <=? zlen ext) && (zlen ext <=? 5) && isalnum ext then stem else name
  end.

Definition _table_name_from_source_label (label : pystr) : pystr :=
  let name := strip_extension (last_part 92 (last_part 47 label)) in
  if bool_decide (name = []) then label else name.

Definition profile_column (fs : FieldStats) : Column :=
  MkColumn (fs_name fs) (inferred_type fs) (SFltb (S754_zero false) (null_rate fs)) (is_likely_unique fs).

Definition profiles_to_snapshot (profiles : list ColumnProfile) : SchemaSnapshot :=
  MkSnapshot (py "file") []
    ((fun p => MkTable (_table_name_from_source_label (source_label p)) []
                 (profile_column <$> fields p)) <$> profiles) [] None.

(** [pk_tables_by_col.setdefault(col.name, []).append(table.name)] *)
Definition pk_columns (ts : list Table) : list (pystr * pystr) :=
  concat ((fun t => (fun c => (col_name c, tbl_name t)) <$> List.filter is_primary_key (columns t)) <$> ts).
Definition pk_tables_by_col (ts : list Table) : odict pystr (list pystr) :=
  fold_left (fun d p => od_push d p.1 p.2) (pk_columns ts) [].

Definition _pk_table_for_id_column (column_name : pystr) (table_names : list pystr) : option pystr :=
  let name := py_lower column_name in
  if negb (ends_with name (py "_id")) then None else
  let stem := chop 3 name in
  if bool_decide (stem = []) then None else
  let candidates := [stem; stem ++ py "s"] in
  let sorted_tables := sorted table_names in
  match find (fun t => bool_decide (py_lower t ∈ candidates)) sorted_tables with
  | Some t => Some t
  | None =>
      find (fun t => existsb (fun c => ends_with (py_lower t) c || ends_with (py_lower t) (95 :: c)) candidates)
        sorted_tables
  end.

Definition canonical_owner (table_names : list pystr) (col : pystr) (ts : list pystr) : option pystr :=
  match ts with
  | [t] => Some t
  | _ => match _pk_table_for_id_column col table_names with
         | Some m => if bool_decide (m ∈ ts) then Some m else None
         | None => None
         end
  end.

Definition canonical_pk_table (snapshot : SchemaSnapshot) : odict pystr (option pystr) :=
  let table_names := fromkeys (tbl_name <$> tables snapshot) in
  (fun p => (p.1, canonical_owner table_names p.1 p.2)) <$> pk_tables_by_col (tables snapshot).

Definition cross_column (owners : odict pystr (option pystr)) (t : Table) (c : Column) : list Edge :=
  match od_get owners (col_name c) with
  | Some (Some pk_owner) =>
      if bool_decide (tbl_name t = pk_owner) then []
      else [MkEdge (tbl_name t) (col_name c) pk_owner (col_name c) false false]
  | _ => []
  end.

Definition infer_cross_file_edges (snapshot : SchemaSnapshot) : list Edge :=
  let owners := canonical_pk_table snapshot in
  sorted_by edge_order
    (concat ((fun t => concat (cross_column owners t <$> columns t)) <$> tables snapshot)).

(** [merged.setdefault(key, e)] *)
Definition edge_ends (e : Edge) : pystr * pystr * pystr * pystr :=
  (source_table e, source_column e, target_table e, target_column e).
Definition od_setdefault {K V} `{EqDecision K} (d : odict K V) (k : K) (v : V) : odict K V :=
  if od_has d k then d else od_set d k v.
Definition merge_edges (es : list Edge) : odict (pystr * pystr * pystr * pystr) Edge :=
  fold_left (fun d e => od_setdefault d (edge_ends e) e) es [].

Definition run_cross_file_walk (profiles : list ColumnProfile) : result CrossFileWalkResult :=
  let snapshot := profiles_to_snapshot profiles in
  let file_style := infer_cross_file_edges snapshot in
  sql_style ← infer_edges snapshot;
  let es := sorted_by edge_order (snd <$> merge_edges (file_style ++ sql_style)) in
  Ok (MkWalk
    [(py "table_count", PInt (zlen (tables snapshot)));
     (py "column_count", PInt (foldr Z.add 0 ((fun t => zlen (columns t)) <$> tables snapshot)));
     (py "edge_count", PInt (zlen es))] es).

(** ** Hazards (hazards.py) *)

Definition _HUB_INCOMING_THRESHOLD : Z := 5.

Definition _detect_hub (g : ERGraph) : list Hazard :=
  concat ((fun kv =>
    if _HUB_INCOMING_THRESHOLD <=? kv.2
    then [MkHazard (py "HUB") (Some kv.1)
            (kv.1 ++ py " is referenced by " ++ str_int kv.2 ++ py " other tables")
            [(py "incoming_edge_count", PInt kv.2)]]
    else []) <$> incoming_edge_count g).

(** The loop over the edges, with the set [seen]. *)
Fixpoint self_references (seen : list (pystr * pystr)) (es : list Edge) : list Hazard :=
  match es with
  | [] => []
  | e :: es' =>
      if bool_decide (source_table e = target_table e) then
        let key := (source_table e, source_column e) in
        if bool_decide (key ∈ seen) then self_references seen es'
        else MkHazard (py "SR") (Some (source_table e))
               (source_table e ++ py "." ++ source_column e ++ py " references " ++ source_table e ++ py "."
                 ++ target_column e ++ py " (self-reference)")
               [(py "column", PStr (source_column e))]
             :: self_references (key :: seen) es'
      else self_references seen es'
  end.

Definition _detect_self_reference (g : ERGraph) : list Hazard := self_references [] (er_edges g).

Definition table_pairs (es : list Edge) : odict (pystr * pystr) (list Edge) :=
  fold_left (fun d e =>
    if bool_decide (source_table e = target_table e) then d
    else od_push d (source_table e, target_table e) e) es [].

Definition parallel_hazard (p : (pystr * pystr) * list Edge) : list Hazard :=
  let '((source, target), es) := p in
  if 1 <? zlen es then
    let cols := sorted_names (source_column <$> es) in
    [MkHazard (py "PE") (Some source)
       (source ++ py " has " ++ str_int (zlen es) ++ py " FKs to " ++ target ++ py " (columns: "
         ++ join (py ", ") cols ++ py ")")
       [(py "target_table", PStr target); (py "source_columns", PList (PStr <$> cols))]]
  else [].

Definition _detect_parallel_edges (g : ERGraph) : list Hazard :=
  concat (parallel_hazard <$> table_pairs (er_edges g)).

Definition polymorphic_column (declared_pairs : list (pystr * pystr)) (t : Table) (c : Column) : list Hazard :=
  let name := py_lower (col_name c) in
  if negb (ends_with name (py "_type")) then [] else
  let id_col := chop 5 name ++ py "_id" in
  if negb (bool_decide (id_col ∈ (fun c => py_lower (col_name c)) <$> columns t)) then []
  else if bool_decide ((tbl_name t, id_col) ∈ declared_pairs) then []
  else [MkHazard (py "PM") (Some (tbl_name t))
          (tbl_name t ++ py "." ++ id_col ++ py " is polymorphic - target depends on " ++ tbl_name t
            ++ py "." ++ col_name c)
          [(py "type_column", PStr (col_name c)); (py "id_column", PStr id_col)]].

Definition _detect_polymorphic_fk (snapshot : SchemaSnapshot) : list Hazard :=
  let declared_pairs := (fun e => (source_table e, source_column e)) <$> declared_edges snapshot in
  concat ((fun t => concat (polymorphic_column declared_pairs t <$> columns t)) <$> tables snapshot).

Definition edges_by_source (es : list Edge) : odict pystr (list Edge) :=
  fold_left (fun d e => od_push d (source_table e) e) es [].

(** The edges whose source column is known and nullable. *)
Definition nullable_singletons (cols : odict pystr Column) (es : list Edge) : list Edge :=
  List.filter (fun e => match od_get cols (source_column e) with
                        | Some col => nullable col
                        | None => false
                        end) es.

Definition alternative_hazard (cols_by_table : odict pystr (odict pystr Column)) (p : pystr * list Edge)
  : list Hazard :=
  let single := nullable_singletons (default [] (od_get cols_by_table p.1)) p.2 in
  let targets := sorted_names (target_table <$> single) in
  if 2 <=? zlen targets then
    [MkHazard (py "ALT") (Some p.1)
       (p.1 ++ py " has nullable FKs to " ++ str_int (zlen targets) ++ py " different parents: "
         ++ join (py ", ") targets)
       [(py "parent_tables", PList (PStr <$> targets));
        (py "source_columns", PList (PStr <$> sorted_names (source_column <$> single)))]]
  else [].

Definition _detect_alternative_parents (snapshot : SchemaSnapshot) : list Hazard :=
  let cols_by_table := od_of ((fun t => (tbl_name t, cols_by_name t)) <$> tables snapshot) in
  concat (alternative_hazard cols_by_table <$> edges_by_source (declared_edges snapshot)).

(** *** Cycles: depth-first search with an explicit stack *)

Inductive colour := WHITE | GRAY | BLACK.

#[global] Instance colour_eq_dec : EqDecision colour.
Proof. solve_decision. Defined.

(** The search: the colours, the frames of the stack (top first, each a node and the
    neighbours its iterator has left), the path and the cycles found. *)
Record search := MkSearch {
  color : gmap pystr colour;
  stack : list (pystr * list pystr);
  path : list pystr;
  cycles : gset (list pystr);
}.

(** [min(range(len(cycle)), key=lambda i: cycle[i])]: the first least position. *)
Fixpoint smallest_from (best : pystr) (at_ i : nat) (l : list pystr) : nat :=
  match l with
  | [] => at_
  | x :: l' =>
      match py_cmp x best with
      | Lt => smallest_from x i (S i) l'
      | _ => smallest_from best at_ (S i) l'
      end
  end.
Definition smallest_idx (l : list pystr) : nat :=
  match l with [] => O | x :: l' => smallest_from x O 1%nat l' end.

Definition _canonical_cycle (cycle : list pystr) : list pystr :=
  match cycle with
  | [] => []
  | _ => drop (smallest_idx cycle) cycle ++ take (smallest_idx cycle) cycle
  end.

(** [path.index(x)] *)
Definition index (l : list pystr) (x : pystr) : result nat :=
  of_option (exc "ValueError") (fst <$> list_find (x =.) l).

(** [iter(graph.adjacency.get(node, ()))] *)
Definition neighbours (g : ERGraph) (n : pystr) : list pystr := default [] (od_get (adjacency g) n).

Definition visit (g : ERGraph) (n : pystr) (s : search) : search :=
  MkSearch (<[n := GRAY]> (color s)) ((n, neighbours g n) :: stack s) (path s ++ [n]) (cycles s).

(** One pass of [while stack]; [None] when the stack is empty. *)
Definition search_pass (g : ERGraph) (s : search) : result (option search) :=
  match stack s with
  | [] => Ok None
  | (node, []) :: rest =>
      Ok (Some (MkSearch (<[node := BLACK]> (color s)) rest (removelast (path s)) (cycles s)))
  | (node, neighbor :: more) :: rest =>
      let s := MkSearch (color s) ((node, more) :: rest) (path s) (cycles s) in
      match default WHITE (color s !! neighbor) with
      | GRAY =>
          idx ← index (path s) neighbor;
          Ok (Some (MkSearch (color s) (stack s) (path s)
            ({[ _canonical_cycle (drop idx (path s)) ]} ∪ cycles s)))
      | WHITE => Ok (Some (visit g neighbor s))
      | BLACK => Ok (Some s)
      end
  end.

(** [while stack], within [fuel] passes. *)
Fixpoint search_loop (fuel : nat) (g : ERGraph) (s : search) : option (result search) :=
  match fuel with
  | O => None
  | S fuel' =>
      match search_pass g s with
      | Err e => Some (Err e)
      | Ok None => Some (Ok s)
      | Ok (Some s') => search_loop fuel' g s'
      end
  end.

(** Passes one search takes at most: one for every edge and node, and the last. *)
Definition search_fuel (g : ERGraph) : nat :=
  S (foldr Nat.add O ((fun kv => S (length kv.2)) <$> adjacency g)).

(** The loop over the start nodes. *)
Fixpoint search_all (g : ERGraph) (starts : list pystr) (s : search) : option (result search) :=
  match starts with
  | [] => Some (Ok s)
  | start :: starts' =>
      match color s !! start with
      | None => Some (Err (exc "KeyError"))
      | Some WHITE =>
          match search_loop (search_fuel g) g (visit g start (MkSearch (color s) [] [] (cycles s))) with
          | Some (Ok s') => search_all g starts' s'
          | r => r
          end
      | Some _ => search_all g starts' s
      end
  end.

Definition search_start (g : ERGraph) : search :=
  MkSearch (list_to_map ((fun t => (t, WHITE)) <$> od_keys (adjacency g))) [] [] ∅.

Definition cycle_hazard (cycle : list pystr) : Hazard :=
  MkHazard (py "CIR") None
    (py "Cycle: " ++ join (py " -> ") cycle ++ py " -> " ++ default [] (head cycle))
    [(py "cycle", PList (PStr <$> cycle))].

Definition _detect_cycles (g : ERGraph) : option (result (list Hazard)) :=
  match search_all g (od_keys (adjacency g)) (search_start g) with
  | Some (Ok s) => Some (Ok (cycle_hazard <$> sorted (elements (cycles s))))
  | Some (Err e) => Some (Err e)
  | None => None
  end.

(** [key=lambda h: (h.kind, h.table or "", h.description)] *)
Definition hazard_order (h : Hazard) : pystr * pystr * pystr :=
  (kind h, default [] (hazard_table h), description h).

Definition detect_hazards (snapshot : SchemaSnapshot) (extra_edges : list Edge) : option (result (list Hazard)) :=
  match build_er_graph snapshot extra_edges with
  | Err e => Some (Err e)
  | Ok g =>
      match _detect_cycles g with
      | Some (Ok cs) => Some (Ok (sorted_by hazard_order
          (_detect_hub g ++ _detect_self_reference g ++ _detect_parallel_edges g
            ++ _detect_polymorphic_fk snapshot ++ _detect_alternative_parents snapshot ++ cs)))
      | r => r
      end
  end.
End Inference.
