(* ===== verification/WalkGraph.v ===== *)
(** * The entity graph: counts, adjacency and keys (walks/graph.py)

    The three dictionaries of [build_er_graph] have the same keys, in the same order,
    and hold exactly the edges' degrees and successors. *)

From S2P Require Import Prelude PyText PyData Walks.

(** ** Dictionaries *)

Lemma fromkeys_from_app {A} `{EqDecision A} (seen l k : list A) :
  fromkeys_from seen (l ++ k) = fromkeys_from seen l ++ fromkeys_from (rev l ++ seen) k.
Proof.
  revert seen. induction l as [|x l IH]; intros seen; [done|]. cbn [app fromkeys_from rev].
  assert (Heq : forall a b : list A, (forall z, z ∈ a <-> z ∈ b) -> fromkeys_from a k = fromkeys_from b k).
  { clear. induction k as [|y k IH]; intros a b Hab; [done|]. cbn.
    rewrite (bool_decide_ext _ _ (Hab y)). case_bool_decide; [by apply IH|]. f_equal. apply IH.
    intros z. rewrite !elem_of_cons. by rewrite (Hab z). }
  case_bool_decide as Hx; rewrite IH; [|cbn [app]; f_equal]; f_equal; apply Heq; intros z;
    rewrite !elem_of_app, !elem_of_cons, ?elem_of_nil; intuition congruence.
Qed.

Lemma fromkeys_snoc {A} `{EqDecision A} (l : list A) x :
  fromkeys (l ++ [x]) = if bool_decide (x ∈ l) then fromkeys l else fromkeys l ++ [x].
Proof.
  unfold fromkeys. rewrite fromkeys_from_app. cbn.
  rewrite (bool_decide_ext (x ∈ rev l ++ []) (x ∈ l)) by (by rewrite app_nil_r, !list_elem_of_In, <- in_rev).
  case_bool_decide; [by rewrite app_nil_r|done].
Qed.

Lemma od_keys_of {V} (l : list (pystr * V)) : od_keys (od_of l) = fromkeys (l.*1).
Proof.
  unfold od_of. induction l as [|[k v] l IH] using rev_ind; [done|].
  rewrite fold_left_app, fmap_app. cbn [fold_left fmap list_fmap fst snd]. rewrite od_keys_set, fromkeys_snoc, IH.
  unfold od_has. rewrite (bool_decide_ext _ (k ∈ l.*1)); [done|].
  rewrite <- elem_of_fromkeys, <- IH. destruct (od_get _ k) eqn:Hk.
  - split; [intros _|done]. destruct (decide (k ∈ od_keys (fold_left (fun d kv => od_set d kv.1 kv.2) l []))) as [|Hn]; [done|].
    apply od_get_none in Hn. congruence.
  - apply od_get_none in Hk. split; [by intros []|done].
Qed.

Lemma od_has_keys {V} (d : odict pystr V) k : od_has d k = bool_decide (k ∈ od_keys d).
Proof.
  unfold od_has. apply bool_decide_ext. destruct (od_get d k) eqn:E.
  - split; [intros _|done]. apply od_get_elem in E. apply list_elem_of_fmap. by eexists (_, _).
  - apply od_get_none in E. split; [by intros []|done].
Qed.

(** ** What the graph holds *)

Definition endpoints (es : list Edge) : list pystr := concat ((fun e => [source_table e; target_table e]) <$> es).

Definition out_degree (es : list Edge) (t : pystr) : Z := zlen (List.filter (fun e => bool_decide (source_table e = t)) es).
Definition in_degree (es : list Edge) (t : pystr) : Z := zlen (List.filter (fun e => bool_decide (target_table e = t)) es).
Definition successors (es : list Edge) (t : pystr) : list pystr :=
  target_table <$> List.filter (fun e => bool_decide (source_table e = t)) es.

(** The dictionaries hold the degrees and successors of [es] at the keys [ks], in order. *)
Record er_holds (ks : list pystr) (es : list Edge) (s : er_state) : Prop := {
  eh_in : incoming s = (fun t => (t, in_degree es t)) <$> ks;
  eh_out : outgoing s = (fun t => (t, out_degree es t)) <$> ks;
  eh_adj : adj s = (fun t => (t, successors es t)) <$> ks;
}.

Section Tabulated.
Implicit Types ks : list pystr.
Context {V : Type} (f : pystr -> V).

Lemma tab_keys ks : od_keys ((fun t => (t, f t)) <$> ks) = ks.
Proof. unfold od_keys. rewrite <- list_fmap_compose. by apply list_fmap_id. Qed.

Lemma tab_get ks t : od_get ((fun t => (t, f t)) <$> ks) t = if bool_decide (t ∈ ks) then Some (f t) else None.
Proof.
  induction ks as [|k ks IH]; cbn; [done|]. rewrite IH. destruct (decide (k = t)) as [->|Hk].
  - rewrite bool_decide_eq_true_2 by done. by rewrite bool_decide_eq_true_2 by left.
  - rewrite (bool_decide_eq_false_2 (k = t)) by done. rewrite (bool_decide_ext (t ∈ k :: ks) (t ∈ ks)); [done|].
    rewrite elem_of_cons. intuition congruence.
Qed.

(** Setting one entry of a tabulated dictionary tabulates the updated function. *)
Lemma tab_set ks t v :
  NoDup ks -> t ∈ ks ->
  od_set ((fun t => (t, f t)) <$> ks) t v = (fun u => (u, if bool_decide (u = t) then v else f u)) <$> ks.
Proof.
  intros Hks Ht. induction Hks as [|k ks Hk Hks IH]; [by apply elem_of_nil in Ht|]. cbn.
  destruct (decide (k = t)) as [->|Hne].
  - rewrite !bool_decide_eq_true_2 by done. f_equal. apply list_fmap_ext. intros i u Hu.
    rewrite bool_decide_eq_false_2; [done|]. intros ->. apply Hk. by eapply list_elem_of_lookup_2.
  - rewrite !bool_decide_eq_false_2 by done. f_equal. apply IH. by apply elem_of_cons in Ht as [->|].
Qed.

Lemma tab_new ks t : t ∉ ks -> od_set ((fun t => (t, f t)) <$> ks) t (f t) = (fun t => (t, f t)) <$> (ks ++ [t]).
Proof. intros. rewrite od_set_new by (by rewrite tab_keys). by rewrite fmap_app. Qed.

Lemma tab_update ks t g :
  NoDup ks -> t ∈ ks ->
  od_update ((fun t => (t, f t)) <$> ks) t g = Ok ((fun u => (u, if bool_decide (u = t) then g (f t) else f u)) <$> ks).
Proof.
  intros. unfold od_update. rewrite tab_get, bool_decide_eq_true_2 by done. cbn. by rewrite tab_set.
Qed.
End Tabulated.

Lemma filter_absent {A} (p : A -> bool) l : (forall x, x ∈ l -> p x = false) -> List.filter p l = [].
Proof. induction l as [|x l IH]; intros H; [done|]. cbn. rewrite H by left. apply IH. intros. apply H. by right. Qed.

Lemma elem_of_endpoints es t : t ∈ endpoints es <-> exists e, e ∈ es /\ (t = source_table e \/ t = target_table e).
Proof.
  unfold endpoints. induction es as [|e es IH]; cbn.
  - rewrite elem_of_nil. split; [done|]. intros (e & He & _). by apply elem_of_nil in He.
  - rewrite !elem_of_cons, IH. split.
    + intros [->|[->|(e' & He & Ht)]]; [exists e|exists e|exists e']; rewrite elem_of_cons; auto.
    + intros (e' & [->|He]%elem_of_cons & Ht); [tauto|]. right. right. eauto.
Qed.

(** A table no edge mentions has no edges. *)
Lemma absent_degrees es t :
  t ∉ endpoints es -> in_degree es t = 0 /\ out_degree es t = 0 /\ successors es t = [].
Proof.
  rewrite elem_of_endpoints. intros H. unfold in_degree, out_degree, successors.
  rewrite !filter_absent; [done| |]; intros e He; apply bool_decide_eq_false_2; intros <-; apply H; eauto.
Qed.

Lemma fromkeys_snoc_known {A} `{EqDecision A} (l : list A) x :
  x ∈ l -> fromkeys (l ++ [x]) = fromkeys l.
Proof. intros. rewrite fromkeys_snoc. by rewrite bool_decide_eq_true_2. Qed.

Lemma er_known_holds l es s t :
  incl (endpoints es) l -> er_holds (fromkeys l) es s -> er_holds (fromkeys (l ++ [t])) es (er_known t s).
Proof.
  intros Hl [Hi Ho Ha]. unfold er_known. rewrite od_has_keys, Hi, tab_keys, fromkeys_snoc.
  rewrite (bool_decide_ext (t ∈ fromkeys l) (t ∈ l)) by apply elem_of_fromkeys. case_bool_decide as Ht; [by constructor|].
  destruct (absent_degrees es t) as (Zi & Zo & Za).
  { intros Hin. apply Ht. apply list_elem_of_In, Hl, list_elem_of_In, Hin. }
  assert (Hn : t ∉ fromkeys l) by (by rewrite elem_of_fromkeys).
  pose proof (tab_new (in_degree es) _ _ Hn) as Ei. pose proof (tab_new (out_degree es) _ _ Hn) as Eo.
  pose proof (tab_new (successors es) _ _ Hn) as Ea. rewrite Zi in Ei. rewrite Zo in Eo. rewrite Za in Ea.
  constructor; cbn [incoming outgoing adj]; [|rewrite Ho|rewrite Ha]; done.
Qed.

Lemma endpoints_snoc es e : endpoints (es ++ [e]) = endpoints es ++ [source_table e] ++ [target_table e].
Proof. unfold endpoints. rewrite fmap_app, concat_app. done. Qed.

Lemma in_degree_snoc es e t :
  in_degree (es ++ [e]) t = if bool_decide (t = target_table e) then 1 + in_degree es t else in_degree es t.
Proof.
  unfold in_degree. rewrite filter_app, zlen_app. cbn.
  rewrite (bool_decide_ext (target_table e = t) (t = target_table e)) by (split; congruence).
  case_bool_decide; unfold zlen; cbn; lia.
Qed.

Lemma out_degree_snoc es e t :
  out_degree (es ++ [e]) t = if bool_decide (t = source_table e) then 1 + out_degree es t else out_degree es t.
Proof.
  unfold out_degree. rewrite filter_app, zlen_app. cbn.
  rewrite (bool_decide_ext (source_table e = t) (t = source_table e)) by (split; congruence).
  case_bool_decide; unfold zlen; cbn; lia.
Qed.

Lemma successors_snoc es e t :
  successors (es ++ [e]) t =
  if bool_decide (t = source_table e) then successors es t ++ [target_table e] else successors es t.
Proof.
  unfold successors. rewrite filter_app, fmap_app. cbn.
  rewrite (bool_decide_ext (source_table e = t) (t = source_table e)) by (split; congruence).
  case_bool_decide; [done|]. by rewrite app_nil_r.
Qed.

Lemma er_edge_holds ts es s e :
  er_holds (fromkeys (ts ++ endpoints es)) es s ->
  exists s', er_edge s e = Ok s' /\ er_holds (fromkeys (ts ++ endpoints (es ++ [e]))) (es ++ [e]) s'.
Proof.
  intros Hs. unfold er_edge. set (s1 := er_known (target_table e) (er_known (source_table e) s)).
  assert (H1 : er_holds (fromkeys (ts ++ endpoints (es ++ [e]))) es s1).
  { rewrite endpoints_snoc, !app_assoc. apply er_known_holds; [|apply er_known_holds; [|done]];
      intros x Hx; rewrite !in_app_iff; auto. }
  clearbody s1. destruct H1 as [Hi Ho Ha].
  assert (Hin : forall t, t ∈ endpoints (es ++ [e]) -> t ∈ fromkeys (ts ++ endpoints (es ++ [e])))
    by (intros; rewrite elem_of_fromkeys, elem_of_app; auto).
  assert (Hsrc : source_table e ∈ endpoints (es ++ [e])) by (rewrite endpoints_snoc; set_solver).
  assert (Htgt : target_table e ∈ endpoints (es ++ [e])) by (rewrite endpoints_snoc; set_solver).
  pose proof (fromkeys_nodup (ts ++ endpoints (es ++ [e]))) as Hnd.
  rewrite Hi, Ho, Ha. rewrite !tab_update by auto. cbn [mbind result_bind]. eexists. split; [done|].
  constructor; cbn [incoming outgoing adj]; apply list_fmap_ext; intros i u Hu; f_equal.
  - rewrite in_degree_snoc. by case_bool_decide; subst.
  - rewrite out_degree_snoc. by case_bool_decide; subst.
  - rewrite successors_snoc. by case_bool_decide; subst.
Qed.

Lemma er_start_holds ts : er_holds (fromkeys ts) [] (er_start ts).
Proof.
  assert (Hgen : forall V (v : V), od_of ((fun t => (t, v)) <$> ts) = (fun t : pystr => (t, v)) <$> fromkeys ts).
  { intros V v. induction ts as [|t ts IH] using rev_ind; [done|].
    unfold od_of in *. rewrite fmap_app, fold_left_app, IH. cbn [fold_left fmap list_fmap fst snd].
    rewrite fromkeys_snoc. rewrite <- (bool_decide_ext _ _ (elem_of_fromkeys t ts)). case_bool_decide as Ht.
    - rewrite (tab_set (fun _ => v)) by (done || apply fromkeys_nodup). apply list_fmap_ext. intros. by case_bool_decide.
    - rewrite (tab_new (fun _ => v)) by done. done. }
  constructor; apply Hgen.
Qed.

Lemma er_edges_hold ts es done_ s :
  er_holds (fromkeys (ts ++ endpoints done_)) done_ s ->
  exists s', for_each er_edge es s = Ok s' /\ er_holds (fromkeys (ts ++ endpoints (done_ ++ es))) (done_ ++ es) s'.
Proof.
  revert done_ s. induction es as [|e es IH]; intros done_ s Hs; cbn [for_each].
  - exists s. by rewrite app_nil_r.
  - destruct (er_edge_holds ts done_ s e Hs) as (s1 & -> & H1). cbn [mbind result_bind].
    destruct (IH (done_ ++ [e]) s1 H1) as (s2 & -> & H2). exists s2. rewrite <- app_assoc in H2. done.
Qed.

(** ** The graph of a snapshot *)

(** The tables of the snapshot and those its edges mention, in order of appearance. *)
Definition er_nodes (snapshot : SchemaSnapshot) (extra : list Edge) : list pystr :=
  fromkeys ((tbl_name <$> tables snapshot) ++ endpoints (declared_edges snapshot ++ extra)).

Lemma build_er_graph_holds snapshot extra :
  let es := declared_edges snapshot ++ extra in
  let ks := er_nodes snapshot extra in
  build_er_graph snapshot extra = Ok (MkERGraph (tbl_name <$> tables snapshot) es
    ((fun t => (t, in_degree es t)) <$> ks) ((fun t => (t, out_degree es t)) <$> ks)
    ((fun t => (t, successors es t)) <$> ks)).
Proof.
  cbn zeta. unfold build_er_graph.
  destruct (er_edges_hold (tbl_name <$> tables snapshot) (declared_edges snapshot ++ extra) []
    (er_start (tbl_name <$> tables snapshot))) as (s & -> & [Hi Ho Ha]).
  { cbn. rewrite app_nil_r. apply er_start_holds. }
  cbn [mbind result_bind app] in *. by rewrite Hi, Ho, Ha.
Qed.

(** Every edge is counted once on each side. *)
Lemma degree_sum (f : list Edge -> pystr -> Z) (end_of : Edge -> pystr) (ks : list pystr) es :
  (forall es t, f es t = zlen (List.filter (fun e => bool_decide (end_of e = t)) es)) ->
  NoDup ks -> (forall e, e ∈ es -> end_of e ∈ ks) ->
  foldr Z.add 0 (f es <$> ks) = zlen es.
Proof.
  intros Hf Hks. induction es as [|e es IH]; intros He.
  - replace (f [] <$> ks) with ((fun _ => 0) <$> ks); [|apply list_fmap_ext; intros; by rewrite Hf].
    clear. induction ks; cbn; [done|]. cbn in IHks. lia.
  - rewrite zlen_cons, <- IH by (intros; apply He; by right).
    assert (Hin : end_of e ∈ ks) by (apply He; left). clear IH He.
    assert (Hx : forall t, f (e :: es) t = (if bool_decide (t = end_of e) then 1 else 0) + f es t).
    { intros t. rewrite !Hf. cbn. rewrite (bool_decide_ext (end_of e = t) (t = end_of e)) by (split; congruence).
      case_bool_decide; [by rewrite zlen_cons|done]. }
    assert (Hsum : forall l, foldr Z.add 0 (f (e :: es) <$> l)
      = zlen (List.filter (fun t => bool_decide (t = end_of e)) l) + foldr Z.add 0 (f es <$> l)).
    { induction l as [|t l IHl]; [done|]. cbn. rewrite IHl, Hx. case_bool_decide; [rewrite zlen_cons|]; lia. }
    rewrite Hsum. f_equal.
    clear Hsum Hx. induction Hks as [|k ks Hk Hks IH]; [by apply elem_of_nil in Hin|]. cbn.
    destruct (decide (k = end_of e)) as [->|Hne].
    + rewrite bool_decide_eq_true_2 by done. rewrite filter_absent; [done|]. intros x Hx.
      apply bool_decide_eq_false_2. by intros ->.
    + rewrite bool_decide_eq_false_2 by done. apply IH. apply elem_of_cons in Hin as [Heq|?]; [by subst|done].
Qed.
