(* ===== verification/WalkCycles.v ===== *)
(** * The cycle detector (walks/hazards.py, [_detect_cycles])

    The depth-first search with an explicit stack: it ends within its fuel, raises
    nothing, reports simple cycles of the graph in canonical form, and every cycle of
    the graph shares an edge with a reported one. *)

From S2P Require Import Prelude PyText PyData Walks WalkGraph.

(** ** Closed walks as lists of nodes *)

(** The consecutive pairs of [l], the last node paired with [z]. *)
Fixpoint arcs (l : list pystr) (z : pystr) : list (pystr * pystr) :=
  match l with
  | [] => []
  | x :: l' => (x, default z (head l')) :: arcs l' z
  end.

Definition cycle_arcs (c : list pystr) : list (pystr * pystr) := arcs c (default [] (head c)).

Lemma arcs_app l m z : arcs (l ++ m) z = arcs l (default z (head m)) ++ arcs m z.
Proof. induction l as [|x l IH]; [done|]. cbn. rewrite IH. by destruct l. Qed.

Lemma arcs_fst l z : (arcs l z).*1 = l.
Proof. induction l as [|x l IH]; [done|]. cbn. by rewrite IH. Qed.

Lemma arcs_snd l z : (arcs l z).*2 = tail l ++ (match l with [] => [] | _ => [z] end).
Proof. induction l as [|x l IH]; [done|]. cbn. rewrite IH. by destruct l. Qed.

Lemma cycle_arcs_rotate l m : cycle_arcs (m ++ l) ≡ₚ cycle_arcs (l ++ m).
Proof.
  unfold cycle_arcs. destruct l as [|x l]; [by rewrite app_nil_r|]. destruct m as [|y m]; [by rewrite app_nil_r|].
  rewrite !arcs_app. cbn [app head default]. apply Permutation_app_comm.
Qed.

(** Every node of a closed walk is entered by one of its arcs. *)
Lemma cycle_arcs_enter c x : x ∈ c -> exists p, (p, x) ∈ cycle_arcs c.
Proof.
  intros Hx. assert (H : x ∈ (cycle_arcs c).*2).
  { unfold cycle_arcs. rewrite arcs_snd. destruct c as [|y c]; [by apply elem_of_nil in Hx|].
    cbn. apply elem_of_cons in Hx. rewrite elem_of_app, list_elem_of_singleton. tauto. }
  apply list_elem_of_fmap in H as ([p x'] & -> & Hp). by exists p.
Qed.

Lemma cycle_arcs_leave c x y : (x, y) ∈ cycle_arcs c -> x ∈ c.
Proof.
  intros H. unfold cycle_arcs in H. erewrite <- (arcs_fst c). apply list_elem_of_fmap. by exists (x, y).
Qed.

(** ** The canonical rotation *)

Lemma smallest_from_spec best at_ i l (pre : list pystr) :
  length pre = i -> pre !! at_ = Some best -> Forall (fun y => py_leb best y = true) pre ->
  exists x, (pre ++ l) !! smallest_from best at_ i l = Some x /\ Forall (fun y => py_leb x y = true) (pre ++ l).
Proof.
  revert best at_ i pre. induction l as [|y l IH]; intros best at_ i pre Hi Hat Hbest; cbn [smallest_from].
  - exists best. by rewrite app_nil_r.
  - rewrite cons_middle, app_assoc.
    assert (Hlt : (at_ < length pre)%nat) by (by apply lookup_lt_Some in Hat).
    destruct (py_cmp y best) eqn:E; (apply IH; [rewrite length_app; cbn; lia|..]).
    + by rewrite lookup_app_l.
    + apply Forall_app. split; [done|]. repeat constructor. apply py_cmp_eq in E as ->. apply py_leb_refl.
    + rewrite lookup_app_r by lia. by replace (i - length pre)%nat with O by lia.
    + apply Forall_app. split; [|repeat constructor; apply py_leb_refl]. revert Hbest. apply Forall_impl.
      intros z Hz. eapply py_leb_trans; [|done]. apply py_leb_cases. by right.
    + by rewrite lookup_app_l.
    + apply Forall_app. split; [done|]. repeat constructor. unfold py_leb. by rewrite (py_cmp_sym y best), E.
Qed.

(** A cycle is in canonical form when it starts at its least node. *)
Definition least_first (c : list pystr) : Prop :=
  exists x c', c = x :: c' /\ Forall (fun y => py_leb x y = true) c.

Lemma canonical_spec c :
  c <> [] -> exists l m, c = l ++ m /\ _canonical_cycle c = m ++ l /\ least_first (_canonical_cycle c).
Proof.
  intros Hc. destruct c as [|x c]; [done|]. set (k := smallest_idx (x :: c)).
  exists (take k (x :: c)), (drop k (x :: c)). split; [by rewrite take_drop|]. split; [done|].
  destruct (smallest_from_spec x O 1 c [x]) as (y & Hy & Hall); [done|done|repeat constructor; apply py_leb_refl|].
  change ([x] ++ c) with (x :: c) in *. change (smallest_from x 0 1 c) with k in Hy.
  change (_canonical_cycle (x :: c)) with (drop k (x :: c) ++ take k (x :: c)).
  apply drop_S in Hy. rewrite Hy. exists y, (drop (S k) (x :: c) ++ take k (x :: c)). split; [done|].
  rewrite <- (take_drop k (x :: c)), Hy in Hall. rewrite Forall_app in Hall |- *. tauto.
Qed.

(** The canonical form of a simple cycle is the only one of its rotations. *)
Lemma least_first_unique l m :
  NoDup (l ++ m) -> least_first (l ++ m) -> least_first (m ++ l) -> m ++ l = l ++ m.
Proof.
  intros Hnd (x & c & Hc & Hx) (y & d & Hd & Hy).
  assert (Hxy : x = y).
  { apply py_leb_antisym.
    - apply (proj1 (list.Forall_forall _ _) Hx). rewrite (Permutation_app_comm l m), Hd. left.
    - apply (proj1 (list.Forall_forall _ _) Hy). rewrite (Permutation_app_comm m l), Hc. left. }
  subst y. destruct l as [|a l]; [by rewrite app_nil_r|]. destruct m as [|b m]; [by rewrite app_nil_r|].
  injection Hc as -> _. injection Hd as -> _. cbn in Hnd. apply list.NoDup_cons in Hnd as [Hn _].
  exfalso. apply Hn. rewrite elem_of_app. right. left.
Qed.

(** ** The search *)

Section Search.
Context (g : ERGraph).
Abbreviation ks := (od_keys (adjacency g)).
Abbreviation nb := (neighbours g).
Context (Hclosed : forall n m, m ∈ nb n -> m ∈ ks) (Hks : NoDup ks).

Definition graph_cycle (c : list pystr) : Prop := c <> [] /\ Forall (fun a => a.2 ∈ nb a.1) (cycle_arcs c).

Definition reported (c : list pystr) : Prop := graph_cycle c /\ NoDup c /\ least_first c.

(** An edge that lies on a cycle found. *)
Definition covered (C : gset (list pystr)) (x y : pystr) : Prop := exists c, c ∈ C /\ (x, y) ∈ cycle_arcs c.

(** Every frame has used up a prefix of its node's neighbours: each of those is
    finished, on a found cycle with the node, or the node of the frame above. *)
Fixpoint frames_ok (F : list pystr) (C : gset (list pystr)) (above : option pystr)
    (st : list (pystr * list pystr)) : Prop :=
  match st with
  | [] => True
  | (n, rest) :: st' =>
      (exists used, nb n = used ++ rest /\
         forall m, m ∈ used -> m ∈ F \/ covered C n m \/ above = Some m) /\
      frames_ok F C (Some n) st'
  end.

(** The path is a chain of arcs. *)
Definition chain (p : list pystr) : Prop :=
  forall q n, p = q ++ [n] -> Forall (fun a => a.2 ∈ nb a.1) (arcs q n).

(** The invariant of the search; [F] lists the finished nodes in finishing order, and
    [above] is the node about to be put on the stack, if any. *)
Record searching_at (above : option pystr) (s : search) (F : list pystr) : Prop := {
  sg_path : path s = rev (stack s).*1;
  sg_dom : forall n, n ∈ ks <-> is_Some (color s !! n);
  sg_gray : forall n, color s !! n = Some GRAY <-> n ∈ path s;
  sg_black : forall n, color s !! n = Some BLACK <-> n ∈ F;
  sg_nodup : NoDup (path s);
  sg_nodupF : NoDup F;
  sg_chain : chain (path s);
  sg_frames : frames_ok F (cycles s) above (stack s);
  sg_done : forall F1 x F2, F = F1 ++ x :: F2 -> forall m, m ∈ nb x -> m ∈ F1 \/ covered (cycles s) x m;
  sg_cycles : forall c, c ∈ cycles s -> reported c;
}.

Abbreviation searching := (searching_at None).

Lemma covered_mono C C' x y : C ⊆ C' -> covered C x y -> covered C' x y.
Proof. intros HC (c & Hc & Ha). exists c. set_solver. Qed.

(** More finished nodes and cycles keep the frames; a node that was above may be finished. *)
Lemma frames_mono F F' C C' above above' st :
  (forall m, m ∈ F -> m ∈ F') -> C ⊆ C' -> (forall m, above = Some m -> m ∈ F' \/ above' = Some m) ->
  frames_ok F C above st -> frames_ok F' C' above' st.
Proof.
  intros HF HC. revert above above'. induction st as [|[n rest] st IH]; intros above above' Hab; [done|].
  intros [(used & Hn & Hu) Hst]. split; [|by apply (IH (Some n)); [auto|]].
  exists used. split; [done|]. intros m Hm. destruct (Hu m Hm) as [H|[H|H]].
  - left. auto.
  - right. left. by eapply covered_mono.
  - destruct (Hab m H); auto.
Qed.

(** Using up one more neighbour of the top frame. *)
Lemma frames_use F C C' above n x more st :
  C ⊆ C' -> frames_ok F C None ((n, x :: more) :: st) ->
  (x ∈ F \/ covered C' n x \/ above = Some x) -> frames_ok F C' above ((n, more) :: st).
Proof.
  intros HC [(used & Hn & Hu) Hst] Hx. split.
  - exists (used ++ [x]). split; [by rewrite <- app_assoc|].
    intros m [Hm| ->%list_elem_of_singleton]%elem_of_app; [|done].
    destruct (Hu m Hm) as [H|[H|H]]; [by left|right; left; by eapply covered_mono|done].
  - eapply frames_mono; [| | |exact Hst]; auto.
Qed.

Lemma chain_snoc p n x : chain (p ++ [n]) -> x ∈ nb n -> chain ((p ++ [n]) ++ [x]).
Proof.
  intros Hp Hx q m Heq. apply app_inj_tail in Heq as [<- <-]. rewrite arcs_app. cbn.
  apply Forall_app. split; [by apply Hp|]. by repeat constructor.
Qed.

Lemma chain_init p n : chain (p ++ [n]) -> chain p.
Proof.
  intros Hp q m ->. specialize (Hp (q ++ [m]) n eq_refl). rewrite arcs_app in Hp.
  by apply Forall_app in Hp as [Hp _].
Qed.

Lemma stack_top s F n rest st :
  searching s F -> stack s = (n, rest) :: st -> path s = rev st.*1 ++ [n].
Proof. intros Hs Hst. rewrite (sg_path _ s F Hs), Hst. done. Qed.

(** *** A back edge closes a simple cycle *)

Lemma index_spec l x : x ∈ l -> exists p q, l = p ++ x :: q /\ index l x = Ok (length p).
Proof.
  intros Hx. unfold index.
  destruct (list_find (x =.) l) as [[i y]|] eqn:E.
  - apply list_find_Some in E as (Hi & -> & _). apply list_elem_of_split_length in Hi as (p & q & -> & ->).
    by exists p, q.
  - exfalso. apply list_find_None in E. eapply list.Forall_forall in E; [|exact Hx]. by apply E.
Qed.

Lemma back_edge_cycle p n x q :
  chain (p ++ [n]) -> NoDup (p ++ [n]) -> x ∈ nb n -> p ++ [n] = q ++ x :: drop (S (length q)) (p ++ [n]) ->
  let c := _canonical_cycle (x :: drop (S (length q)) (p ++ [n])) in
  reported c /\ (n, x) ∈ cycle_arcs c.
Proof.
  intros Hch Hnd Hx Heq. set (r := drop (S (length q)) (p ++ [n])) in *. cbn zeta.
  assert (Hr : exists r', x :: r = r' ++ [n] /\ p = q ++ r').
  { destruct (exists_last (l := x :: r)) as (r' & m & Hr'); [done|]. exists r'.
    rewrite Hr', app_assoc in Heq. apply app_inj_tail in Heq as [-> ->]. done. }
  destruct Hr as (r' & Hr & ->). specialize (Hch _ _ eq_refl). rewrite arcs_app in Hch.
  apply Forall_app in Hch as [_ Hch].
  assert (Harcs : cycle_arcs (x :: r) = arcs r' n ++ [(n, x)]).
  { unfold cycle_arcs. cbn [head default]. by rewrite Hr, arcs_app. }
  destruct (canonical_spec (x :: r)) as (l & m & Hlm & Hcan & Hleast); [done|].
  assert (Hperm : cycle_arcs (_canonical_cycle (x :: r)) ≡ₚ arcs r' n ++ [(n, x)]).
  { by rewrite Hcan, cycle_arcs_rotate, <- Hlm, Harcs. }
  split; [split; [split|split; [|done]]|].
  - rewrite Hcan. intros [-> ->]%app_eq_nil. done.
  - rewrite Hperm. apply Forall_app. split; [done|]. by repeat constructor.
  - rewrite Hcan, Permutation_app_comm, <- Hlm. rewrite Heq in Hnd. by apply list.NoDup_app in Hnd as (_ & _ & Hnd).
  - rewrite Hperm. rewrite elem_of_app. right. left.
Qed.
(** *** One pass *)

(** What is left to do: the neighbours and frames on the stack, and the unvisited nodes. *)
Definition white_work (c : gmap pystr colour) (l : list pystr) : nat :=
  foldr Nat.add O ((fun k => if bool_decide (c !! k = Some WHITE) then S (length (nb k)) else O) <$> l).
Definition stack_work (st : list (pystr * list pystr)) : nat :=
  foldr Nat.add O ((fun f : pystr * list pystr => S (length f.2)) <$> st).
Definition work (s : search) : nat := (stack_work (stack s) + white_work (color s) ks)%nat.

Lemma white_work_same c n a l :
  a <> WHITE -> c !! n <> Some WHITE -> white_work (<[n := a]> c) l = white_work c l.
Proof.
  intros Ha Hc. unfold white_work. f_equal. apply list_fmap_ext. intros i k _.
  destruct (decide (n = k)) as [->|Hk]; [|by rewrite lookup_insert_ne].
  rewrite lookup_insert_eq, !bool_decide_eq_false_2; congruence.
Qed.

Lemma white_work_visit c n l :
  NoDup l -> n ∈ l -> c !! n = Some WHITE ->
  (S (length (nb n)) + white_work (<[n := GRAY]> c) l = white_work c l)%nat.
Proof.
  intros Hl Hn Hc. induction Hl as [|k l Hk Hl IH]; [by apply elem_of_nil in Hn|].
  unfold white_work in *. cbn [fmap list_fmap foldr]. destruct (decide (n = k)) as [->|Hne].
  - rewrite lookup_insert_eq, Hc. rewrite (bool_decide_eq_false_2 (Some GRAY = Some WHITE)), bool_decide_eq_true_2 by done.
    cbn [plus]. do 2 f_equal. f_equal. apply list_fmap_ext. intros i x Hx.
    rewrite lookup_insert_ne; [done|]. intros ->. apply Hk. by eapply list_elem_of_lookup_2.
  - rewrite lookup_insert_ne by done. apply elem_of_cons in Hn as [->|Hn]; [done|]. specialize (IH Hn). lia.
Qed.

(** A node that is not white stays so. *)
Definition only_darker (s s' : search) : Prop :=
  forall n, color s !! n <> Some WHITE -> color s' !! n <> Some WHITE.

Lemma visit_ok s F n :
  searching_at (Some n) s F -> color s !! n = Some WHITE -> (forall p m, path s = p ++ [m] -> n ∈ nb m) ->
  searching (visit g n s) F /\ work (visit g n s) = work s /\ only_darker s (visit g n s).
Proof.
  intros Hs Hw Hn. assert (Hk : n ∈ ks) by (apply (sg_dom _ s F Hs); eauto).
  assert (Hng : n ∉ path s) by (rewrite <- (sg_gray _ s F Hs), Hw; done).
  split; [constructor; cbn [visit path stack color cycles]|split].
  - by rewrite (sg_path _ s F Hs).
  - intros m. rewrite lookup_insert. case_decide as Hm; [subst; split; [eauto|done]|apply Hs].
  - intros m. rewrite lookup_insert, elem_of_app, list_elem_of_singleton, <- (sg_gray _ s F Hs).
    case_decide; subst; [tauto|]. intuition congruence.
  - intros m. rewrite lookup_insert, <- (sg_black _ s F Hs). case_decide; subst; [|done]. rewrite Hw. done.
  - apply list.NoDup_app. split; [apply Hs|]. split; [|apply NoDup_singleton].
    by intros m Hm ->%list_elem_of_singleton.
  - apply Hs.
  - pose proof (sg_chain _ s F Hs) as Hch. revert Hch Hn. clear. destruct (path s) as [|m p] using rev_ind.
    { intros _ _ q m Heq. by apply (app_inj_tail [] q) in Heq as [<- _]. }
    intros Hch Hn. apply chain_snoc; [done|]. by eapply Hn.
  - split; [|apply Hs]. exists []. split; [done|]. by intros m Hm%elem_of_nil.
  - apply Hs.
  - apply Hs.
  - unfold work. cbn [visit stack color stack_work fmap list_fmap foldr]. unfold stack_work. cbn.
    pose proof (white_work_visit (color s) n ks Hks Hk Hw). lia.
  - intros m Hm. cbn. rewrite lookup_insert. by case_decide.
Qed.

Lemma finish_node s F n st :
  searching s F -> stack s = (n, []) :: st ->
  let s' := MkSearch (<[n := BLACK]> (color s)) st (removelast (path s)) (cycles s) in
  searching s' (F ++ [n]) /\ S (work s') = work s /\ only_darker s s'.
Proof.
  intros Hs Hst. pose proof (stack_top s F n [] st Hs Hst) as Hp. cbn zeta.
  assert (Hg : color s !! n = Some GRAY) by (apply (sg_gray _ s F Hs); rewrite Hp, elem_of_app; right; left).
  assert (HnF : n ∉ F) by (rewrite <- (sg_black _ s F Hs), Hg; done).
  pose proof (sg_nodup _ s F Hs) as Hnd. pose proof (sg_chain _ s F Hs) as Hch. pose proof (sg_frames _ s F Hs) as Hfr.
  rewrite Hp in Hnd, Hch. rewrite Hst in Hfr. destruct Hfr as [(used & Hused & Hu) Hfr].
  rewrite app_nil_r in Hused. subst used.
  rewrite Hp, removelast_last. apply list.NoDup_app in Hnd as (Hnd & Hnot & _).
  split; [constructor; cbn [path stack color cycles]|split].
  - done.
  - intros m. rewrite lookup_insert. case_decide as Hm; [|apply Hs]. subst.
    split; [eauto|]. intros _. apply (sg_dom _ s F Hs). eauto.
  - intros m. rewrite lookup_insert. pose proof (sg_gray _ s F Hs m) as Hm. rewrite Hp, elem_of_app, list_elem_of_singleton in Hm.
    case_decide; [subst|]; [|by rewrite Hm; intuition congruence]. split; [done|]. intros H. exfalso. apply (Hnot _ H). left.
  - intros m. rewrite lookup_insert, elem_of_app, list_elem_of_singleton, <- (sg_black _ s F Hs).
    case_decide; subst; intuition congruence.
  - done.
  - apply list.NoDup_app. split; [apply Hs|]. split; [|apply NoDup_singleton]. by intros m Hm ->%list_elem_of_singleton.
  - by eapply chain_init.
  - eapply frames_mono; [| | |exact Hfr]; [intros m; rewrite elem_of_app; auto|done|].
    intros m [= <-]. left. rewrite elem_of_app. right. left.
  - intros F1 x F2 Heq m Hm. destruct F2 as [|y F2 _] using rev_ind.
    + apply app_inj_tail in Heq as [<- <-]. destruct (Hu m Hm) as [|[|]]; [auto..|done].
    + rewrite app_comm_cons, app_assoc in Heq. apply app_inj_tail in Heq as [-> ->].
      by apply (sg_done _ s _ Hs F1 x F2).
  - apply Hs.
  - unfold work. rewrite Hst. cbn [stack color]. rewrite white_work_same by (rewrite ?Hg; done). done.
  - intros m Hm. cbn. rewrite lookup_insert. by case_decide.
Qed.

(** Using a neighbour that is finished or closes a cycle found. *)
Lemma use_neighbour s F n x more st C :
  searching s F -> stack s = (n, x :: more) :: st ->
  cycles s ⊆ C -> (forall c, c ∈ C -> reported c) -> (x ∈ F \/ covered C n x) ->
  let s' := MkSearch (color s) ((n, more) :: st) (path s) C in
  searching s' F /\ S (work s') = work s /\ only_darker s s'.
Proof.
  intros Hs Hst HC Hrep Hx. pose proof (sg_frames _ s F Hs) as Hfr. rewrite Hst in Hfr. cbn zeta.
  split; [constructor; cbn [path stack color cycles]; try apply Hs|split].
  - rewrite (sg_path _ s F Hs), Hst. done.
  - eapply frames_use; [exact HC|exact Hfr|]. tauto.
  - intros F1 y F2 Heq m Hm. destruct (sg_done _ s F Hs F1 y F2 Heq m Hm); [auto|].
    right. by eapply covered_mono.
  - done.
  - unfold work. rewrite Hst. cbn [stack color]. unfold stack_work. cbn. lia.
  - by intros m Hm.
Qed.

Lemma top_neighbour s F n x more st : searching s F -> stack s = (n, x :: more) :: st -> x ∈ nb n.
Proof.
  intros Hs Hst. pose proof (sg_frames _ s F Hs) as Hfr. rewrite Hst in Hfr. destruct Hfr as [(used & -> & _) _].
  rewrite elem_of_app. right. left.
Qed.

Lemma use_top s F n x more st :
  searching s F -> stack s = (n, x :: more) :: st ->
  let s' := MkSearch (color s) ((n, more) :: st) (path s) (cycles s) in
  searching_at (Some x) s' F /\ S (work s') = work s.
Proof.
  intros Hs Hst. pose proof (sg_frames _ s F Hs) as Hfr. rewrite Hst in Hfr. cbn zeta.
  split; [constructor; cbn [path stack color cycles]; try apply Hs|].
  - rewrite (sg_path _ s F Hs), Hst. done.
  - eapply frames_use; [done|exact Hfr|]. auto.
  - unfold work. rewrite Hst. cbn [stack color]. unfold stack_work. cbn. lia.
Qed.

Lemma search_pass_ok s F :
  searching s F -> stack s <> [] ->
  exists s' F', search_pass g s = Ok (Some s') /\ searching s' F' /\ S (work s') = work s /\ only_darker s s'.
Proof.
  intros Hs Hne. unfold search_pass. destruct (stack s) as [|[n [|x more]] st] eqn:Hst; [done| |].
  { eexists _, _. split; [done|]. by apply finish_node. }
  pose proof (top_neighbour s F n x more st Hs Hst) as Hnx. cbn [color path stack cycles].
  assert (Hsx : is_Some (color s !! x)) by (apply (sg_dom _ s F Hs); by eapply Hclosed).
  destruct Hsx as [cx Hcx]. rewrite Hcx. cbn [default from_option]. pose proof (stack_top s F n _ st Hs Hst) as Hp. destruct cx.
  - destruct (use_top s F n x more st Hs Hst) as [H1 H2]. set (s1 := MkSearch _ _ _ _) in *.
    destruct (visit_ok s1 F x H1 Hcx) as (H3 & H4 & H5).
    { cbn. intros p m. rewrite Hp. by intros [_ <-]%app_inj_tail. }
    exists (visit g x s1), F. split; [done|]. split; [done|]. split; [by rewrite H4|done].
  - destruct (index_spec (path s) x) as (q & r & Hq & ->); [by apply (sg_gray _ s F Hs)|]. cbn [mbind result_bind].
    assert (Hd : drop (length q) (path s) = x :: drop (S (length q)) (path s)).
    { rewrite Hq at 1 2. rewrite drop_app_length. by rewrite (cons_middle x), app_assoc, drop_app_length' by (rewrite length_app; cbn; lia). }
    pose proof (sg_chain _ s F Hs) as Hch. pose proof (sg_nodup _ s F Hs) as Hnd. rewrite Hp in Hch, Hnd.
    destruct (back_edge_cycle (rev st.*1) n x q Hch Hnd Hnx) as [Hrep Hcov].
    { rewrite <- Hp, <- Hd. by rewrite Hq at 1 2; rewrite drop_app_length. }
    rewrite <- Hp, <- Hd in Hrep, Hcov.
    edestruct (use_neighbour s F n x more st) as (H1 & H2 & H3); [done|done| | | |eexists _, _; split; [done|]; eauto].
    + set_solver.
    + intros c [->%elem_of_singleton|Hc]%elem_of_union; [done|by apply Hs].
    + right. eexists. split; [|exact Hcov]. set_solver.
  - destruct (use_neighbour s F n x more st (cycles s) Hs Hst) as (H1 & H2 & H3); [done|apply Hs| |eauto 10].
    left. by apply (sg_black _ s F Hs).
Qed.
(** *** The loops *)

Lemma search_loop_ok fuel s F :
  (work s < fuel)%nat -> searching s F ->
  exists s' F', search_loop fuel g s = Some (Ok s') /\ searching s' F' /\ stack s' = [] /\ only_darker s s'.
Proof.
  revert s F. induction fuel as [|fuel IH]; intros s F Hfuel Hs; [lia|]. cbn [search_loop].
  destruct (decide (stack s = [])) as [Hst|Hst].
  - exists s, F. unfold search_pass. rewrite Hst. split; [done|]. split; [done|]. split; [done|]. by intros n.
  - destruct (search_pass_ok s F Hs Hst) as (s1 & F1 & -> & Hs1 & Hw & Hd1).
    destruct (IH s1 F1) as (s2 & F2 & -> & Hs2 & Hst2 & Hd2); [lia|done|].
    exists s2, F2. split; [done|]. split; [done|]. split; [done|]. intros n Hn. by apply Hd2, Hd1.
Qed.

Lemma white_work_bound c l : NoDup l ->
  (white_work c l <= foldr Nat.add O ((fun k => S (length (nb k))) <$> l))%nat.
Proof.
  intros _. unfold white_work. induction l as [|k l IH]; [done|]. cbn in *. case_bool_decide; lia.
Qed.

Lemma adjacency_fuel : S (foldr Nat.add O ((fun k => S (length (nb k))) <$> ks)) = search_fuel g.
Proof.
  unfold search_fuel, od_keys. f_equal. f_equal. rewrite <- list_fmap_compose. apply list_fmap_ext.
  intros i [k l] Hi. unfold compose, neighbours. cbn. rewrite (od_get_unique _ k l); [done|done|].
  by eapply list_elem_of_lookup_2.
Qed.

Lemma search_idle s F n : searching s F -> stack s = [] -> color s !! n <> Some WHITE -> n ∈ ks -> n ∈ F.
Proof.
  intros Hs Hst Hn Hk. apply (sg_dom _ s F Hs) in Hk as [a Ha]. apply (sg_black _ s F Hs).
  destruct a; [by destruct Hn| |done]. apply (sg_gray _ s F Hs) in Ha.
  rewrite (sg_path _ s F Hs), Hst in Ha. by apply elem_of_nil in Ha.
Qed.

Lemma search_all_ok starts s F :
  (forall n, n ∈ starts -> n ∈ ks) -> searching s F -> stack s = [] ->
  exists s' F', search_all g starts s = Some (Ok s') /\ searching s' F' /\ stack s' = [] /\
    only_darker s s' /\ forall n, n ∈ starts -> color s' !! n <> Some WHITE.
Proof.
  revert s F. induction starts as [|n starts IH]; intros s F Hin Hs Hst; cbn [search_all].
  { exists s, F. split; [done|]. split; [done|]. split; [done|]. split; [by intros m|]. by intros m Hm%elem_of_nil. }
  assert (Hk : n ∈ ks) by (apply Hin; left).
  assert (Hrest : forall s1 F1, searching s1 F1 -> stack s1 = [] -> only_darker s s1 -> color s1 !! n <> Some WHITE ->
    exists s' F', search_all g starts s1 = Some (Ok s') /\ searching s' F' /\ stack s' = [] /\
      only_darker s s' /\ forall m, m ∈ n :: starts -> color s' !! m <> Some WHITE).
  { intros s1 F1 H1 H2 H3 H4. destruct (IH s1 F1) as (s' & F' & -> & Hs' & Hst' & Hd & Hw); [|done|done|].
    { intros m Hm. apply Hin. by right. }
    exists s', F'. split; [done|]. split; [done|]. split; [done|]. split; [intros m Hm; by apply Hd, H3|].
    intros m [->|Hm]%elem_of_cons; [by apply Hd|by apply Hw]. }
  pose proof (proj1 (sg_dom _ s F Hs n) Hk) as [a Ha]. rewrite Ha.
  destruct a; [|apply (Hrest s F); [done|done|by intros m|by rewrite Ha]..].
  assert (Hp : path s = []) by (by rewrite (sg_path _ s F Hs), Hst).
  set (s0 := MkSearch (color s) [] [] (cycles s)).
  assert (Hs0 : searching_at (Some n) s0 F).
  { destruct Hs as [H1 H2 H3 H4 H5 H6 H7 H8 H9 H10]. rewrite Hp in H3, H5, H7. by constructor. }
  destruct (visit_ok s0 F n Hs0 Ha) as (H1 & H2 & H3). { intros p m Hpm. by apply app_cons_not_nil in Hpm. }
  destruct (search_loop_ok (search_fuel g) (visit g n s0) F) as (s1 & F1 & -> & H4 & H5 & H6); [|done|].
  { rewrite H2, <- adjacency_fuel. unfold work. cbn. pose proof (white_work_bound (color s) ks Hks). lia. }
  apply (Hrest s1 F1); [done|done| |].
  - intros m Hm. by apply H6, H3.
  - apply H6. cbn. by rewrite lookup_insert_eq.
Qed.

(** *** What a finished search means *)

(** Among nodes finished in order, a cycle uses an edge of a found cycle. *)
Lemma finished_covered F C w :
  NoDup F -> (forall F1 x F2, F = F1 ++ x :: F2 -> forall m, m ∈ nb x -> m ∈ F1 \/ covered C x m) ->
  graph_cycle w -> (forall n, n ∈ w -> n ∈ F) -> exists a, a ∈ cycle_arcs w /\ covered C a.1 a.2.
Proof.
  induction F as [|x F IH] using rev_ind; intros Hnd Hdone [Hw Harcs] Hin.
  { destruct w as [|n w]; [done|]. exfalso. eapply elem_of_nil. apply (Hin n). left. }
  apply list.NoDup_app in Hnd as (Hnd & Hnot & _).
  destruct (decide (x ∈ w)) as [Hx|Hx].
  - destruct (cycle_arcs_enter w x Hx) as [p Hp].
    assert (Hpx : x ∈ nb p) by (by apply (proj1 (list.Forall_forall _ _) Harcs (p, x))).
    assert (HpF : p ∈ F ++ [x]) by (apply Hin; by eapply cycle_arcs_leave).
    apply list_elem_of_split in HpF as (F1 & F2 & Heq).
    destruct (Hdone F1 p F2 Heq x Hpx) as [HxF|Hc]; [|by exists (p, x)].
    exfalso. destruct F2 as [|y F2 _] using rev_ind.
    + apply app_inj_tail in Heq as [-> ->]. apply (Hnot _ HxF). left.
    + rewrite app_comm_cons, app_assoc in Heq. apply app_inj_tail in Heq as [-> ->].
      apply (Hnot y); [|left]. rewrite elem_of_app. by left.
  - apply IH; [done| |done|].
    + intros F1 y F2 -> m Hm. eapply (Hdone F1 y (F2 ++ [x])); [|done]. by rewrite <- app_assoc.
    + intros n Hn. destruct (proj1 (elem_of_app _ _ _) (Hin n Hn)) as [|Hxn]; [done|].
      apply list_elem_of_singleton in Hxn as ->. done.
Qed.

Lemma search_start_ok : searching (search_start g) [].
Proof.
  assert (Hget : forall n a, color (search_start g) !! n = Some a <-> n ∈ ks /\ a = WHITE).
  { intros n a. cbn. rewrite <- elem_of_list_to_map.
    - rewrite list_elem_of_fmap. split; [intros (k & [= -> ->] & Hk); done|intros [Hk ->]; by exists n].
    - rewrite <- list_fmap_compose. unfold compose. cbn. by rewrite list_fmap_id. }
  constructor; try done.
  - intros n. split; [intros Hn; exists WHITE; by apply Hget|intros [a Ha]; by apply Hget in Ha as [? _]].
  - intros n. rewrite Hget. split; [by intros [_ ?]|]. by intros Hn%elem_of_nil.
  - intros n. rewrite Hget. split; [by intros [_ ?]|]. by intros Hn%elem_of_nil.
  - constructor.
  - constructor.
  - intros q n Heq. by apply app_cons_not_nil in Heq.
  - intros F1 x F2 Heq. by apply app_cons_not_nil in Heq.
Qed.

(** The search ends, and its cycles are reported ones that every cycle meets. *)
Lemma search_all_cycles :
  exists s, search_all g ks (search_start g) = Some (Ok s) /\ (forall c, c ∈ cycles s -> reported c) /\
    forall w, graph_cycle w -> exists a, a ∈ cycle_arcs w /\ covered (cycles s) a.1 a.2.
Proof.
  destruct (search_all_ok ks (search_start g) []) as (s & F & Hrun & Hs & Hst & _ & Hw); [done|apply search_start_ok|done|].
  exists s. split; [done|]. split; [apply Hs|]. intros w Hgw.
  apply (finished_covered F); [apply Hs|apply Hs|done|].
  intros n Hn. assert (Hk : n ∈ ks).
  { destruct (cycle_arcs_enter w n Hn) as [p Hp]. apply (Hclosed p).
    by apply (proj1 (list.Forall_forall _ _) (proj2 Hgw) (p, n)). }
  eapply search_idle; [done|done|by apply Hw|done].
Qed.
End Search.

(** ** The detector on the graph of a snapshot *)

Lemma neighbours_built snapshot extra g n :
  build_er_graph snapshot extra = Ok g ->
  neighbours g n = successors (declared_edges snapshot ++ extra) n.
Proof.
  rewrite build_er_graph_holds. intros [= <-]. unfold neighbours. cbn [adjacency]. rewrite tab_get.
  case_bool_decide as Hn; [done|]. cbn. symmetry. apply absent_degrees. intros Hin. apply Hn.
  unfold er_nodes. rewrite elem_of_fromkeys, elem_of_app. by right.
Qed.

Lemma elem_of_successors es x y :
  y ∈ successors es x <-> exists e, e ∈ es /\ source_table e = x /\ target_table e = y.
Proof.
  unfold successors. rewrite list_elem_of_fmap. split.
  - intros (e & -> & He%list_elem_of_In%filter_In). destruct He as [He Hb]. bool_prop.
    exists e. split; [by apply list_elem_of_In|done].
  - intros (e & He & <- & <-). exists e. split; [done|]. apply list_elem_of_In, filter_In.
    split; [by apply list_elem_of_In|]. by apply bool_decide_eq_true_2.
Qed.

(** A closed walk along the foreign keys [es], as the list of its tables. *)
Definition edge_cycle (es : list Edge) (c : list pystr) : Prop :=
  c <> [] /\ forall a, a ∈ cycle_arcs c -> exists e, e ∈ es /\ source_table e = a.1 /\ target_table e = a.2.

Lemma graph_cycle_edges snapshot extra g c :
  build_er_graph snapshot extra = Ok g ->
  graph_cycle g c <-> edge_cycle (declared_edges snapshot ++ extra) c.
Proof.
  intros Hg. unfold graph_cycle, edge_cycle. rewrite list.Forall_forall.
  setoid_rewrite (neighbours_built snapshot extra g _ Hg). by setoid_rewrite elem_of_successors.
Qed.

(** The search on the graph of a snapshot. *)
Lemma built_search snapshot extra g :
  build_er_graph snapshot extra = Ok g ->
  exists s, search_all g (od_keys (adjacency g)) (search_start g) = Some (Ok s) /\ (forall c, c ∈ cycles s -> reported g c) /\
    forall w, graph_cycle g w -> exists a, a ∈ cycle_arcs w /\ covered (cycles s) a.1 a.2.
Proof.
  intros Hg. apply search_all_cycles.
  - intros n m. rewrite (neighbours_built _ _ g n Hg), elem_of_successors. intros (e & He & <- & <-).
    rewrite build_er_graph_holds in Hg. injection Hg as <-. cbn [adjacency]. rewrite tab_keys.
    unfold er_nodes. rewrite elem_of_fromkeys, elem_of_app, elem_of_endpoints. eauto.
  - rewrite build_er_graph_holds in Hg. injection Hg as <-. cbn [adjacency]. rewrite tab_keys. apply fromkeys_nodup.
Qed.

(** C33: Cycle detection always ends, within the passes allowed, without an error. The
    hazards it gives are those of a sorted list of different cycles; each is a cycle of
    the foreign keys, visits no table twice and starts at its least table, and no two
    are rotations of each other. Every cycle of the foreign keys uses an edge of a
    reported one, so nothing is reported exactly when there is no cycle. *)
Theorem detect_cycles_exact snapshot extra :
  let es := declared_edges snapshot ++ extra in
  exists g cs,
    build_er_graph snapshot extra = Ok g /\ _detect_cycles g = Some (Ok (cycle_hazard <$> cs)) /\
    Sorted_by id cs /\ NoDup cs /\
    (forall c, c ∈ cs -> edge_cycle es c /\ NoDup c /\ least_first c) /\
    (forall l m, l ++ m ∈ cs -> m ++ l ∈ cs -> m ++ l = l ++ m) /\
    (forall w, edge_cycle es w -> exists c a, c ∈ cs /\ a ∈ cycle_arcs c /\ a ∈ cycle_arcs w) /\
    (cs = [] <-> forall w, ~ edge_cycle es w).
Proof.
  pose proof (build_er_graph_holds snapshot extra) as Hg. cbn zeta in *. set (g := MkERGraph _ _ _ _ _) in Hg.
  destruct (built_search snapshot extra g Hg) as (s & Hrun & Hrep & Hmeet).
  assert (Hin : forall c, c ∈ sorted (elements (cycles s)) <-> c ∈ cycles s)
    by (intros; by rewrite elem_of_sorted, elem_of_elements).
  assert (Hr : forall c, c ∈ sorted (elements (cycles s)) -> reported g c) by (intros c Hc; by apply Hrep, Hin).
  exists g, (sorted (elements (cycles s))). split; [done|]. split; [unfold _detect_cycles; by rewrite Hrun|].
  split; [apply sorted_by_sorted|]. split; [rewrite sorted_perm; apply NoDup_elements|].
  assert (Hcov : forall w, edge_cycle (declared_edges snapshot ++ extra) w ->
    exists c a, c ∈ sorted (elements (cycles s)) /\ a ∈ cycle_arcs c /\ a ∈ cycle_arcs w).
  { intros w Hw. apply (graph_cycle_edges _ _ g w Hg) in Hw.
    destruct (Hmeet w Hw) as (a & Ha & c & Hc & Hac). exists c, a. rewrite Hin. by destruct a. }
  split; [intros c Hc; destruct (Hr c Hc); by rewrite <- (graph_cycle_edges _ _ g c Hg)|].
  split; [|split; [done|split]].
  - intros l m H1 H2. apply least_first_unique; apply Hr; done.
  - intros Hnil w Hw. destruct (Hcov w Hw) as (c & _ & Hc & _). rewrite Hnil in Hc. by apply elem_of_nil in Hc.
  - intros Hnone. destruct (sorted (elements (cycles s))) as [|c cs]; [done|]. exfalso.
    apply (Hnone c), (graph_cycle_edges _ _ g c Hg), Hr. left.
Qed.

(** Two tables that refer to each other, through a third: one cycle, once. *)
Definition fk (a b : string) : Edge := MkEdge (py a) (py "id") (py b) (py "id") true false.
Definition sample_schema : SchemaSnapshot :=
  MkSnapshot (py "postgres") (py "public") [] [fk "b" "c"; fk "c" "a"; fk "a" "b"; fk "d" "a"] None.

Example sample_cycle :
  (g ← build_er_graph sample_schema []; match _detect_cycles g with Some r => r | None => Err (exc "fuel") end)
  = Ok [cycle_hazard [py "a"; py "b"; py "c"]].
Proof. vm_compute. reflexivity. Qed.
