(* ===== verification/WalkDrift.v ===== *)
(** * Drift (walks/diff.py)

    The comparator reports exactly the differences of shape of two snapshots. *)

From S2P Require Import Prelude PyText PyData Walks WalkGraph.

(** ** Keys of dictionaries *)

Lemma od_get_of_last {V} (l : list (pystr * V)) k :
  od_get (od_of l) k = snd <$> list.last (List.filter (fun kv => bool_decide (kv.1 = k)) l).
Proof.
  unfold od_of. induction l as [|[k' v] l IH] using rev_ind; [done|].
  rewrite fold_left_app, filter_app. cbn [fold_left fst snd List.filter]. rewrite od_get_set.
  case_bool_decide; [by rewrite last_snoc|]. by rewrite app_nil_r.
Qed.

Lemma od_get_keys {V} (d : odict pystr V) k : is_Some (od_get d k) <-> k ∈ od_keys d.
Proof.
  pose proof (od_has_keys d k) as H. unfold od_has in H.
  split; intros Hk; [apply (bool_decide_eq_true_1 (k ∈ od_keys d))|apply (bool_decide_eq_true_1 (is_Some (od_get d k)))].
  - rewrite <- H. by apply bool_decide_eq_true_2.
  - rewrite H. by apply bool_decide_eq_true_2.
Qed.

Lemma elem_of_minus {V W} (d : odict pystr V) (e : odict pystr W) k :
  k ∈ keys_minus d e <-> is_Some (od_get d k) /\ od_get e k = None.
Proof.
  unfold keys_minus. rewrite elem_of_sorted, elem_of_filter_b, od_get_keys, od_has_keys, negb_true_iff, bool_decide_eq_false.
  by rewrite od_get_none.
Qed.

Lemma elem_of_both {V W} (d : odict pystr V) (e : odict pystr W) k :
  k ∈ keys_both d e <-> is_Some (od_get d k) /\ is_Some (od_get e k).
Proof. unfold keys_both. rewrite elem_of_sorted, elem_of_filter_b, !od_get_keys, od_has_keys, bool_decide_eq_true. done. Qed.

Lemma od_of_nodup {V} (l : list (pystr * V)) : NoDup (od_keys (od_of l)).
Proof. rewrite od_keys_of. apply fromkeys_nodup. Qed.

(** Duplicate-free lists with the same elements are sorted alike. *)
Lemma sorted_same {A} `{PyOrdLaws A} (l k : list A) :
  NoDup l -> NoDup k -> (forall x, x ∈ l <-> x ∈ k) -> sorted l = sorted k.
Proof. intros Hl Hk Hlk. apply sorted_by_perm_eq; [by intros x y _ _|]. by apply NoDup_Permutation. Qed.

Lemma nodup_filter {A} (p : A -> bool) (l : list A) : NoDup l -> NoDup (List.filter p l).
Proof. intros Hl. apply NoDup_ListNoDup, NoDup_filter, NoDup_ListNoDup, Hl. Qed.

Section SameKeys.
Context {V V' W W' : Type}.
Context (d : odict pystr V) (d' : odict pystr V') (e : odict pystr W) (e' : odict pystr W').
Context (Hd : NoDup (od_keys d)) (Hd' : NoDup (od_keys d')).
Context (Hsd : forall k, is_Some (od_get d k) <-> is_Some (od_get d' k)).
Context (Hse : forall k, is_Some (od_get e k) <-> is_Some (od_get e' k)).

Lemma same_keys (p p' : pystr -> bool) :
  (forall k, p k = true <-> p' k = true) ->
  sorted (List.filter p (od_keys d)) = sorted (List.filter p' (od_keys d')).
Proof.
  intros Hp. apply sorted_same; [by apply nodup_filter..|].
  intros k. by rewrite !elem_of_filter_b, <- !od_get_keys, Hsd, Hp.
Qed.

Lemma has_same k : od_has e k = true <-> od_has e' k = true.
Proof. unfold od_has. rewrite !bool_decide_eq_true. apply Hse. Qed.

Lemma keys_minus_same : keys_minus d e = keys_minus d' e'.
Proof. apply same_keys. intros k. pose proof (has_same k) as H. destruct (od_has e k), (od_has e' k); cbn; intuition congruence. Qed.

Lemma keys_both_same : keys_both d e = keys_both d' e'.
Proof. apply same_keys, has_same. Qed.
End SameKeys.

(** ** The shape of a snapshot *)

(** The table of that name, and its column of that name: the last one given. *)
Definition table_of (s : SchemaSnapshot) (name : pystr) : option Table := od_get (by_name (tables s)) name.
Definition column_of (t : Table) (name : pystr) : option Column := od_get (cols_by_name t) name.

Definition same_columns (t u : Table) : Prop := tbl_name t = tbl_name u /\ forall n, column_of t n = column_of u n.
Definition same_shape (a b : SchemaSnapshot) : Prop :=
  forall n, option_Forall2 same_columns (table_of a n) (table_of b n).

(** A dictionary of things by name gives a thing of that name. *)
Lemma named_get {A} (name : A -> pystr) (l : list A) n x :
  od_get (od_of ((fun x => (name x, x)) <$> l)) n = Some x -> name x = n /\ x ∈ l.
Proof.
  rewrite od_get_of_last. destruct (list.last _) as [[k u]|] eqn:E; [|done]. intros [= ->].
  apply last_Some in E as (l' & E). assert (Hin : (k, x) ∈ List.filter (fun kv => bool_decide (kv.1 = n)) ((fun x => (name x, x)) <$> l))
    by (rewrite E, elem_of_app; right; left).
  apply elem_of_filter_b in Hin as [Hin Hb]. bool_prop. by apply list_elem_of_fmap in Hin as (u & [= -> ->] & Hu).
Qed.

(** ** What the comparator must report *)

(** A change of a column of a table both snapshots have. *)
Inductive column_drift (ta tb : Table) (n : pystr) : list (pystr * pyval) -> Prop :=
| drift_added cb :
    column_of ta n = None -> column_of tb n = Some cb -> column_drift ta tb n (change (tbl_name ta) n (py "added") [])
| drift_removed ca :
    column_of ta n = Some ca -> column_of tb n = None -> column_drift ta tb n (change (tbl_name ta) n (py "removed") [])
| drift_type ca cb :
    column_of ta n = Some ca -> column_of tb n = Some cb -> data_type ca <> data_type cb ->
    column_drift ta tb n (change (tbl_name ta) n (py "type_changed") (from_to (PStr (data_type ca)) (PStr (data_type cb))))
| drift_nullable ca cb :
    column_of ta n = Some ca -> column_of tb n = Some cb -> nullable ca <> nullable cb ->
    column_drift ta tb n (change (tbl_name ta) n (py "nullability_changed") (from_to (PBool (nullable ca)) (PBool (nullable cb))))
| drift_pk ca cb :
    column_of ta n = Some ca -> column_of tb n = Some cb -> is_primary_key ca <> is_primary_key cb ->
    column_drift ta tb n (change (tbl_name ta) n (py "pk_changed") (from_to (PBool (is_primary_key ca)) (PBool (is_primary_key cb)))).

Definition drifted (a b : SchemaSnapshot) (r : list (pystr * pyval)) : Prop :=
  exists t ta tb n, table_of a t = Some ta /\ table_of b t = Some tb /\ column_drift ta tb n r.

Lemma eqb_neq (x y : bool) : x <> y -> Bool.eqb x y = false.
Proof. intros. by apply eqb_false_iff. Qed.

Lemma elem_of_diff_column ta tb n ca cb r :
  column_of ta n = Some ca -> column_of tb n = Some cb ->
  r ∈ diff_column (tbl_name ta) n ca cb <-> column_drift ta tb n r.
Proof.
  intros Ha Hb. unfold diff_column. rewrite !elem_of_app. split.
  - intros [H|[H|H]].
    + case_bool_decide; [by apply elem_of_nil in H|]. apply list_elem_of_singleton in H as ->. by eapply drift_type.
    + destruct (Bool.eqb _ _) eqn:E; [by apply elem_of_nil in H|]. apply list_elem_of_singleton in H as ->.
      apply eqb_false_iff in E. by eapply drift_nullable.
    + destruct (Bool.eqb _ _) eqn:E; [by apply elem_of_nil in H|]. apply list_elem_of_singleton in H as ->.
      apply eqb_false_iff in E. by eapply drift_pk.
  - intros Hd. destruct Hd as [|ca' H1 H2|ca' cb' H1 H2 H3|ca' cb' H1 H2 H3|ca' cb' H1 H2 H3]; [congruence..| | |];
      rewrite Ha in H1; rewrite Hb in H2; injection H1 as <-; injection H2 as <-.
    + left. rewrite bool_decide_eq_false_2 by done. left.
    + right. left. rewrite eqb_neq by done. left.
    + right. right. rewrite eqb_neq by done. left.
Qed.

Definition common_diff (ta tb : Table) (n : pystr) : list (list (pystr * pyval)) :=
  match column_of ta n, column_of tb n with
  | Some ca, Some cb => diff_column (tbl_name ta) n ca cb
  | _, _ => []
  end.

Lemma diff_common_ok ta tb n :
  n ∈ keys_both (cols_by_name ta) (cols_by_name tb) ->
  diff_common (tbl_name ta) (cols_by_name ta) (cols_by_name tb) n = Ok (common_diff ta tb n).
Proof. rewrite elem_of_both. unfold diff_common, common_diff, column_of. by intros [[ca ->] [cb ->]]. Qed.

Lemma diff_columns_ok ta tb :
  exists rs, _diff_columns ta tb = Ok rs /\ forall r, r ∈ rs <-> exists n, column_drift ta tb n r.
Proof.
  unfold _diff_columns.
  rewrite (map_res_total _ (common_diff ta tb)) by (intros; by apply diff_common_ok).
  eexists. split; [done|]. intros r. rewrite !elem_of_app, !list_elem_of_fmap, list_elem_of_In, in_concat.
  setoid_rewrite elem_of_minus. split.
  - intros [(n & -> & [cb Hb] & Ha)|[(n & -> & [ca Ha] & Hb)|(k & Hk & Hr)]].
    + exists n. by eapply drift_added.
    + exists n. by eapply drift_removed.
    + apply list_elem_of_In, list_elem_of_fmap in Hk as (n & -> & Hn). apply list_elem_of_In in Hr.
      apply elem_of_both in Hn as [[ca Ha] [cb Hb]]. exists n. unfold common_diff, column_of in Hr. rewrite Ha, Hb in Hr.
      by apply (elem_of_diff_column ta tb n ca cb).
  - intros [n Hd]. destruct (column_of ta n) as [ca|] eqn:Ha, (column_of tb n) as [cb|] eqn:Hb.
    + right. right. exists (common_diff ta tb n). rewrite <- !list_elem_of_In. split.
      * apply list_elem_of_fmap. exists n. split; [done|]. apply elem_of_both. unfold column_of in *. rewrite Ha, Hb. eauto.
      * unfold common_diff. rewrite Ha, Hb. by apply (elem_of_diff_column ta tb n ca cb r Ha Hb).
    + right. left. exists n. inversion Hd; subst; try congruence. unfold column_of in *. eauto.
    + left. exists n. inversion Hd; subst; try congruence. unfold column_of in *. eauto.
    + inversion Hd; congruence.
Qed.

(** ** The whole comparison *)

Lemma compare_unfold a b :
  exists d, compare a b = Ok d /\
    added_tables d = keys_minus (by_name (tables b)) (by_name (tables a)) /\
    removed_tables d = keys_minus (by_name (tables a)) (by_name (tables b)) /\ new_pii d = [] /\
    forall r, r ∈ changed_columns d <-> drifted a b r.
Proof.
  unfold compare. set (at_ := by_name (tables a)). set (bt := by_name (tables b)).
  set (g := fun n => match diff_table at_ bt n with Ok rs => rs | Err _ => [] end).
  assert (Hg : forall n, n ∈ keys_both at_ bt -> diff_table at_ bt n = Ok (g n)).
  { intros n Hn. apply elem_of_both in Hn as [[ta Ha] [tb Hb]]. unfold g, diff_table. rewrite Ha, Hb. cbn.
    by destruct (diff_columns_ok ta tb) as (rs & -> & _). }
  rewrite (map_res_total _ g _ Hg). eexists. split; [done|]. do 3 (split; [done|]). cbn [changed_columns].
  intros r. rewrite list_elem_of_In, in_concat. split.
  - intros (k & Hk & Hr). apply list_elem_of_In, list_elem_of_fmap in Hk as (n & -> & Hn). apply list_elem_of_In in Hr.
    apply elem_of_both in Hn as [[ta Ha] [tb Hb]]. unfold g, diff_table in Hr. rewrite Ha, Hb in Hr. cbn in Hr.
    destruct (diff_columns_ok ta tb) as (rs & Hrs & Hspec). rewrite Hrs in Hr. apply Hspec in Hr as [c Hc].
    exists n, ta, tb, c. done.
  - intros (n & ta & tb & c & Ha & Hb & Hc). exists (g n). rewrite <- !list_elem_of_In. split.
    + apply list_elem_of_fmap. exists n. split; [done|]. apply elem_of_both. split; [by exists ta|by exists tb].
    + unfold g, diff_table. unfold table_of, at_, bt in *. rewrite Ha, Hb. cbn.
      destruct (diff_columns_ok ta tb) as (rs & -> & Hspec). apply Hspec. eauto.
Qed.

Lemma column_eq c d :
  col_name c = col_name d -> data_type c = data_type d -> nullable c = nullable d ->
  is_primary_key c = is_primary_key d -> c = d.
Proof. destruct c, d. cbn. congruence. Qed.

(** Two tables without drift have the same columns. *)
Lemma no_column_drift ta tb :
  (forall n r, ~ column_drift ta tb n r) -> forall n, column_of ta n = column_of tb n.
Proof.
  intros H n. destruct (column_of ta n) as [ca|] eqn:Ha, (column_of tb n) as [cb|] eqn:Hb; [|exfalso; eapply H..|done].
  - f_equal. apply column_eq.
    + apply named_get in Ha as [-> _]. by apply named_get in Hb as [-> _].
    + destruct (decide (data_type ca = data_type cb)); [done|]. exfalso. by eapply H, drift_type.
    + destruct (decide (nullable ca = nullable cb)); [done|]. exfalso. by eapply H, drift_nullable.
    + destruct (decide (is_primary_key ca = is_primary_key cb)); [done|]. exfalso. by eapply H, drift_pk.
  - by eapply drift_removed.
  - by eapply drift_added.
Qed.

Lemma minus_nil {V W} (d : odict pystr V) (e : odict pystr W) :
  keys_minus d e = [] <-> forall k, is_Some (od_get d k) -> is_Some (od_get e k).
Proof.
  split.
  - intros H k Hk. destruct (od_get e k) eqn:E; [eauto|]. exfalso. eapply elem_of_nil. rewrite <- H. by apply elem_of_minus.
  - intros H. destruct (keys_minus d e) as [|k l] eqn:E; [done|].
    assert (Hk : k ∈ keys_minus d e) by (rewrite E; left). apply elem_of_minus in Hk as [Hk Hn].
    destruct (H k Hk). congruence.
Qed.

Lemma no_drift_shape a b d :
  compare a b = Ok d ->
  (added_tables d = [] /\ removed_tables d = [] /\ changed_columns d = [] <-> same_shape a b).
Proof.
  destruct (compare_unfold a b) as (d' & -> & Hadd & Hrem & _ & Hch). intros [= ->]. rewrite Hadd, Hrem, !minus_nil.
  split.
  - intros (H1 & H2 & H3) n. destruct (table_of a n) as [ta|] eqn:Ha, (table_of b n) as [tb|] eqn:Hb.
    + constructor. split.
      * apply named_get in Ha as [-> _]. by apply named_get in Hb as [-> _].
      * apply no_column_drift. intros c r Hr. eapply elem_of_nil. rewrite <- H3. apply Hch.
        exists n, ta, tb, c. done.
    + exfalso. destruct (H2 n) as [x Hx]; [by exists ta|]. unfold table_of in Hb. congruence.
    + exfalso. destruct (H1 n) as [x Hx]; [by exists tb|]. unfold table_of in Ha. congruence.
    + constructor.
  - intros Hs. unfold same_shape, table_of in Hs. split; [|split].
    + intros k Hk. pose proof (Hs k) as H. destruct H; [eauto|by destruct Hk].
    + intros k Hk. pose proof (Hs k) as H. destruct H; [eauto|by destruct Hk].
    + destruct (changed_columns d) as [|r rs] eqn:E; [done|]. exfalso.
      assert (Hr : r ∈ changed_columns d) by (rewrite E; left). rewrite E in Hr. apply Hch in Hr as (n & ta & tb & c & Ha & Hb & Hc).
      pose proof (Hs n) as H. unfold table_of in *. rewrite Ha, Hb in H. inversion H as [? ? [_ Hcols]|]; subst.
      specialize (Hcols c). inversion Hc; subst; congruence.
Qed.

(** *** Only the shape matters *)

Lemma diff_columns_same ta ta' tb tb' :
  same_columns ta ta' -> same_columns tb tb' -> _diff_columns ta tb = _diff_columns ta' tb'.
Proof.
  intros [Hna Ha] [_ Hb]. unfold column_of in *. unfold _diff_columns.
  assert (Ka : forall k, is_Some (od_get (cols_by_name ta) k) <-> is_Some (od_get (cols_by_name ta') k)) by (intros; by rewrite Ha).
  assert (Kb : forall k, is_Some (od_get (cols_by_name tb) k) <-> is_Some (od_get (cols_by_name tb') k)) by (intros; by rewrite Hb).
  rewrite (keys_minus_same (cols_by_name tb) (cols_by_name tb') (cols_by_name ta) (cols_by_name ta')) by (done || apply od_of_nodup).
  rewrite (keys_minus_same (cols_by_name ta) (cols_by_name ta') (cols_by_name tb) (cols_by_name tb')) by (done || apply od_of_nodup).
  rewrite (keys_both_same (cols_by_name ta) (cols_by_name ta') (cols_by_name tb) (cols_by_name tb')) by (done || apply od_of_nodup).
  rewrite Hna. rewrite (map_res_ext _ (diff_common (tbl_name ta') (cols_by_name ta') (cols_by_name tb'))); [done|].
  intros n _. unfold diff_common. by rewrite Ha, Hb.
Qed.

Lemma compare_same a a' b b' : same_shape a a' -> same_shape b b' -> compare a b = compare a' b'.
Proof.
  intros Ha Hb. unfold compare. unfold same_shape, table_of in *.
  assert (Ka : forall k, is_Some (od_get (by_name (tables a)) k) <-> is_Some (od_get (by_name (tables a')) k))
    by (intros k; destruct (Ha k); split; eauto; by intros []).
  assert (Kb : forall k, is_Some (od_get (by_name (tables b)) k) <-> is_Some (od_get (by_name (tables b')) k))
    by (intros k; destruct (Hb k); split; eauto; by intros []).
  rewrite (keys_minus_same (by_name (tables b)) (by_name (tables b')) (by_name (tables a)) (by_name (tables a'))) by (done || apply od_of_nodup).
  rewrite (keys_minus_same (by_name (tables a)) (by_name (tables a')) (by_name (tables b)) (by_name (tables b'))) by (done || apply od_of_nodup).
  rewrite (keys_both_same (by_name (tables a)) (by_name (tables a')) (by_name (tables b)) (by_name (tables b'))) by (done || apply od_of_nodup).
  rewrite (map_res_ext _ (diff_table (by_name (tables a')) (by_name (tables b')))); [done|].
  intros n _. unfold diff_table. destruct (Ha n) as [ta ta' Hta|]; [|done]. destruct (Hb n) as [tb tb' Htb|]; [|done].
  by apply diff_columns_same.
Qed.

(** Comparing two snapshots always succeeds. It reports, sorted, exactly the tables
    only one of them has, and exactly the columns of common tables that one lacks or that
    differ in type, nullability or key; nothing is reported exactly when the snapshots
    have the same shape, and only their shapes matter: neither the order of tables and
    columns nor what is not compared. *)
Theorem drift_exact a b :
  exists d,
    compare a b = Ok d /\
    (forall n, n ∈ added_tables d <-> is_Some (table_of b n) /\ table_of a n = None) /\
    (forall n, n ∈ removed_tables d <-> is_Some (table_of a n) /\ table_of b n = None) /\
    Sorted_by id (added_tables d) /\ Sorted_by id (removed_tables d) /\
    (forall r, r ∈ changed_columns d <-> drifted a b r) /\
    (added_tables d = [] /\ removed_tables d = [] /\ changed_columns d = [] <-> same_shape a b) /\
    (forall a' b', same_shape a a' -> same_shape b b' -> compare a' b' = Ok d).
Proof.
  destruct (compare_unfold a b) as (d & Hd & Hadd & Hrem & _ & Hch). exists d. split; [done|].
  rewrite Hadd, Hrem. split; [intros n; by rewrite elem_of_minus|]. split; [intros n; by rewrite elem_of_minus|].
  split; [apply sorted_by_sorted|]. split; [apply sorted_by_sorted|]. split; [done|].
  rewrite <- Hadd, <- Hrem. split; [by apply no_drift_shape|].
  intros a' b' Ha Hb. by rewrite <- (compare_same a a' b b').
Qed.
