(* ===== verification/WalkInference.v ===== *)
(** * Inference (walks/inference.py, walks/cross_file.py)

    What the two inference rules find, and that neither depends on the order in which
    tables or files are given. *)

From Stdlib Require Import SpecFloat.
From S2P Require Import Prelude PyText PyData Walks WalkGraph WalkDrift.

(** ** Dictionaries and permutations *)

Lemma concat_fmap_perm {A B} (f : A -> list B) l k : l ≡ₚ k -> concat (f <$> l) ≡ₚ concat (f <$> k).
Proof.
  induction 1 as [|x l k _ IH|x y l|l k m _ IH1 _ IH2]; cbn; [done|by rewrite IH| |by etransitivity].
  rewrite !app_assoc. by rewrite (Permutation_app_comm (f y)).
Qed.

Lemma od_get_perm {V} (l k : list (pystr * V)) n :
  NoDup l.*1 -> l ≡ₚ k -> od_get (od_of l) n = od_get (od_of k) n.
Proof.
  intros Hl Hp. assert (Hk : NoDup k.*1) by (by rewrite <- Hp).
  rewrite !od_of_distinct by done. destruct (od_get l n) as [v|] eqn:E.
  - symmetry. apply od_get_unique; [done|]. rewrite <- Hp. by apply od_get_elem.
  - symmetry. apply od_get_none. apply od_get_none in E. unfold od_keys in *. by rewrite <- Hp.
Qed.

Lemma by_name_perm ts us n :
  NoDup (tbl_name <$> ts) -> ts ≡ₚ us -> od_get (by_name ts) n = od_get (by_name us) n.
Proof.
  intros Hts Hp. unfold by_name. apply od_get_perm; [|by rewrite Hp].
  by rewrite <- list_fmap_compose.
Qed.

Lemma od_get_push {V} (d : odict pystr (list V)) k k' v :
  od_get (od_push d k v) k' = if bool_decide (k = k') then Some (default [] (od_get d k) ++ [v]) else od_get d k'.
Proof. apply od_get_set. Qed.

(** [d.setdefault(k, []).append(v)] over a list of pairs groups it. *)
Lemma push_get {V} (l : list (pystr * V)) k :
  od_get (fold_left (fun d p => od_push d p.1 p.2) l []) k =
  match snd <$> List.filter (fun p => bool_decide (p.1 = k)) l with [] => None | vs => Some vs end.
Proof.
  induction l as [|[k' v] l IH] using rev_ind; [done|].
  rewrite fold_left_app, filter_app, fmap_app. cbn [fold_left fst snd List.filter].
  rewrite od_get_push. case_bool_decide as Hk.
  - subst. rewrite IH. cbn. by destruct (snd <$> _).
  - cbn. by rewrite app_nil_r.
Qed.

Lemma od_get_map {V W} (f : pystr -> V -> W) (d : odict pystr V) k :
  od_get ((fun p => (p.1, f p.1 p.2)) <$> d) k = f k <$> od_get d k.
Proof. induction d as [|[k' v] d IH]; [done|]. cbn. case_bool_decide; [by subst|done]. Qed.

Lemma has_perm ts us n :
  NoDup (tbl_name <$> ts) -> ts ≡ₚ us -> od_has (by_name ts) n = od_has (by_name us) n.
Proof. intros. unfold od_has. by rewrite (by_name_perm ts us). Qed.

Section Inference.
Context `{U : UnicodeOps}.

(** ** The SQL rule *)

(** The edge one column gives. *)
Definition column_edge (s : SchemaSnapshot) (t : Table) (c : Column) : list Edge :=
  match _candidate_target (col_name c) (by_name (tables s)) with
  | Some n =>
      if match table_of s n with Some target => _has_id_pk target | None => false end
         && negb (bool_decide ((tbl_name t, col_name c) ∈ (fun e => (source_table e, source_column e)) <$> declared_edges s))
      then [MkEdge (tbl_name t) (col_name c) n (py "id") false false] else []
  | None => []
  end.

Lemma first_table_some tabs names n : first_table tabs names = Some n -> is_Some (od_get tabs n) /\ n ∈ names.
Proof.
  unfold first_table. intros H. apply find_some in H as [Hin Hb]. unfold od_has in Hb. bool_prop.
  split; [done|by apply list_elem_of_In].
Qed.

Lemma candidate_is_table c tabs n : _candidate_target c tabs = Some n -> is_Some (od_get tabs n).
Proof.
  unfold _candidate_target. destruct (negb _); [done|]. cbn zeta. case_bool_decide; [done|].
  destruct (first_table tabs [_; _]) eqn:E1; [intros [= <-]; by eapply first_table_some|].
  case_bool_decide; [|done]. intros. by eapply first_table_some.
Qed.

Lemma infer_column_ok s t c :
  infer_column (by_name (tables s)) ((fun e => (source_table e, source_column e)) <$> declared_edges s) t c
  = Ok (column_edge s t c).
Proof.
  unfold infer_column, column_edge. destruct (_candidate_target _ _) as [n|] eqn:E; [|done].
  apply candidate_is_table in E as [target E]. unfold table_of. rewrite E. cbn.
  destruct (_has_id_pk target); [|done]. cbn. by case_bool_decide.
Qed.

Definition column_edges (s : SchemaSnapshot) : list Edge :=
  concat ((fun t => concat (column_edge s t <$> columns t)) <$> tables s).

Lemma infer_edges_ok s : infer_edges s = Ok (sorted_by edge_order (column_edges s)).
Proof.
  unfold infer_edges, each_column, column_edges.
  rewrite (map_res_total _ (fun t => concat (column_edge s t <$> columns t))); [done|].
  intros t _. by rewrite (map_res_total _ (column_edge s t)) by (intros; apply infer_column_ok).
Qed.

Lemma elem_of_concat_fmap {A B} (f : A -> list B) l y : y ∈ concat (f <$> l) <-> exists x, x ∈ l /\ y ∈ f x.
Proof.
  rewrite list_elem_of_In, in_concat. split.
  - intros (k & Hk & Hy). apply list_elem_of_In, list_elem_of_fmap in Hk as (x & -> & Hx).
    exists x. split; [done|]. by apply list_elem_of_In.
  - intros (x & Hx & Hy). exists (f x). rewrite <- !list_elem_of_In. split; [|done]. apply list_elem_of_fmap. eauto.
Qed.

(** What it takes for the SQL rule to draw an edge. *)
Record sql_edge (s : SchemaSnapshot) (e : Edge) : Prop := {
  se_source : exists t c, t ∈ tables s /\ c ∈ columns t /\ tbl_name t = source_table e /\ col_name c = source_column e;
  se_target : _candidate_target (source_column e) (by_name (tables s)) = Some (target_table e);
  se_pk : exists t, table_of s (target_table e) = Some t /\ _has_id_pk t = true;
  se_free : forall d, d ∈ declared_edges s -> (source_table d, source_column d) <> (source_table e, source_column e);
  se_form : e = MkEdge (source_table e) (source_column e) (target_table e) (py "id") false false;
}.

Lemma elem_of_column_edge s t c e :
  t ∈ tables s -> c ∈ columns t ->
  e ∈ column_edge s t c <-> sql_edge s e /\ source_table e = tbl_name t /\ source_column e = col_name c.
Proof.
  intros Ht Hc. unfold column_edge. split.
  - destruct (_candidate_target _ _) as [n|] eqn:En; [|by intros ?%elem_of_nil].
    destruct (_ && _) eqn:Eb; [|by intros ?%elem_of_nil]. intros ->%list_elem_of_singleton. bool_prop.
    split; [|done]. constructor; cbn; [by exists t, c|done| | |done].
    + destruct (table_of s n) as [target|]; [by exists target|done].
    + intros d Hd Heq. match goal with H : _ ∉ _ |- _ => apply H end. apply list_elem_of_fmap. by exists d.
  - intros ([_ Htgt (tt & Htt & Hpk) Hfree Hform] & Hs & Hcol). rewrite <- Hcol, <- Hs. rewrite Htgt, Htt, Hpk.
    rewrite bool_decide_eq_false_2; [by rewrite Hform; left|].
    intros Hin. apply list_elem_of_fmap in Hin as (d & Heq & Hd). by apply (Hfree d Hd).
Qed.

Lemma elem_of_infer s es e : infer_edges s = Ok es -> e ∈ es <-> sql_edge s e.
Proof.
  rewrite infer_edges_ok. intros [= <-]. rewrite elem_of_sorted_by. unfold column_edges.
  rewrite elem_of_concat_fmap. setoid_rewrite elem_of_concat_fmap. split.
  - intros (t & Ht & c & Hc & He). by apply (elem_of_column_edge s t c e Ht Hc) in He as [? _].
  - intros He. destruct (se_source s e He) as (t & c & Ht & Hc & Hn & Hcn). exists t. split; [done|]. exists c. split; [done|].
    by apply elem_of_column_edge.
Qed.

Lemma sql_order_inj s d e : sql_edge s d -> sql_edge s e -> edge_order d = edge_order e -> d = e.
Proof.
  intros [_ _ _ _ Hd] [_ _ _ _ He] [= H1 H2 H3]. rewrite Hd, He. congruence.
Qed.

(** ** The file rule *)

Definition owner_of (s : SchemaSnapshot) (col : pystr) : option pystr :=
  match od_get (canonical_pk_table s) col with Some (Some t) => Some t | _ => None end.

Definition pk_tables (s : SchemaSnapshot) (col : pystr) : list pystr :=
  snd <$> List.filter (fun p => bool_decide (p.1 = col)) (pk_columns (tables s)).

Lemma owner_of_eq s col :
  owner_of s col = match pk_tables s col with
                   | [] => None
                   | ts => canonical_owner (fromkeys (tbl_name <$> tables s)) col ts
                   end.
Proof.
  unfold owner_of, canonical_pk_table, pk_tables_by_col.
  rewrite (od_get_map (canonical_owner (fromkeys (tbl_name <$> tables s)))), push_get. fold (pk_tables s col).
  destruct (pk_tables s col); [done|]. cbn [fmap option_fmap option_map]. by destruct (canonical_owner _ _ _).
Qed.

Lemma elem_of_pk_tables s col n :
  n ∈ pk_tables s col <-> exists t c, t ∈ tables s /\ c ∈ columns t /\ tbl_name t = n /\ col_name c = col /\ is_primary_key c = true.
Proof.
  unfold pk_tables, pk_columns. rewrite list_elem_of_fmap. split.
  - intros ([k n'] & -> & Hin). apply elem_of_filter_b in Hin as [Hin Hb]. bool_prop. cbn in *. subst k.
    apply elem_of_concat_fmap in Hin as (t & Ht & Hin). apply list_elem_of_fmap in Hin as (c & [= -> ->] & Hc).
    apply elem_of_filter_b in Hc as [Hc Hpk]. by exists t, c.
  - intros (t & c & Ht & Hc & <- & <- & Hpk). exists (col_name c, tbl_name t). split; [done|].
    apply elem_of_filter_b. split; [|by apply bool_decide_eq_true_2]. apply elem_of_concat_fmap. exists t. split; [done|].
    apply list_elem_of_fmap. exists c. split; [done|]. by apply elem_of_filter_b.
Qed.

Lemma canonical_owner_in names col ts n : canonical_owner names col ts = Some n -> n ∈ ts.
Proof.
  unfold canonical_owner. destruct ts as [|a [|b ts]].
  - destruct (_pk_table_for_id_column col names); [|done]. case_bool_decide; [|done]. by intros [= <-].
  - intros [= ->]. left.
  - destruct (_pk_table_for_id_column col names); [|done]. case_bool_decide; [|done]. by intros [= <-].
Qed.

(** What it takes for the file rule to draw an edge. *)
Record file_edge (s : SchemaSnapshot) (e : Edge) : Prop := {
  fe_source : exists t c, t ∈ tables s /\ c ∈ columns t /\ tbl_name t = source_table e /\ col_name c = source_column e;
  fe_owner : owner_of s (source_column e) = Some (target_table e);
  fe_other : source_table e <> target_table e;
  fe_form : e = MkEdge (source_table e) (source_column e) (target_table e) (source_column e) false false;
}.

(** The table an edge points to has the column, flagged as a key. *)
Lemma file_edge_target s e :
  file_edge s e ->
  exists t c, t ∈ tables s /\ c ∈ columns t /\ tbl_name t = target_table e /\ col_name c = target_column e /\ is_primary_key c = true.
Proof.
  intros [_ Hown _ Hform]. rewrite Hform. cbn. apply elem_of_pk_tables. rewrite owner_of_eq in Hown.
  destruct (pk_tables s (source_column e)) eqn:E; [done|]. by eapply canonical_owner_in.
Qed.

Lemma elem_of_cross s e : e ∈ infer_cross_file_edges s <-> file_edge s e.
Proof.
  unfold infer_cross_file_edges. rewrite elem_of_sorted_by, elem_of_concat_fmap. setoid_rewrite elem_of_concat_fmap. split.
  - intros (t & Ht & c & Hc & He). unfold cross_column in He.
    destruct (od_get (canonical_pk_table s) (col_name c)) as [[o|]|] eqn:Eo; [|by apply elem_of_nil in He..].
    case_bool_decide as Hne; [by apply elem_of_nil in He|]. apply list_elem_of_singleton in He as ->.
    constructor; cbn; [by exists t, c| |done|done]. unfold owner_of. by rewrite Eo.
  - intros [(t & c & Ht & Hc & Htn & Hcn) Hown Hne Hform]. exists t. split; [done|]. exists c. split; [done|].
    unfold cross_column. rewrite Hcn, Htn. unfold owner_of in Hown.
    destruct (od_get (canonical_pk_table s) (source_column e)) as [[o|]|]; [|done..]. injection Hown as ->.
    rewrite bool_decide_eq_false_2 by done. rewrite Hform. left.
Qed.

Lemma file_order_inj s d e : file_edge s d -> file_edge s e -> edge_order d = edge_order e -> d = e.
Proof.
  intros [_ _ _ Hd] [_ _ _ He] [= H1 H2 H3]. rewrite Hd, He. congruence.
Qed.

(** ** The order of tables does not matter *)

Section Reordered.
Context (s s' : SchemaSnapshot).
Context (Hnames : NoDup (tbl_name <$> tables s)) (Htabs : tables s ≡ₚ tables s').
Context (Hdecl : declared_edges s = declared_edges s').

Lemma first_table_perm names : first_table (by_name (tables s)) names = first_table (by_name (tables s')) names.
Proof.
  unfold first_table. induction names as [|n names IH]; [done|]. cbn. by rewrite (has_perm (tables s) (tables s')), IH.
Qed.

Lemma column_edge_perm t c : column_edge s t c = column_edge s' t c.
Proof.
  unfold column_edge, _candidate_target, table_of. cbn zeta. rewrite !first_table_perm, Hdecl.
  destruct (if negb _ then _ else _); [|done]. by rewrite (by_name_perm (tables s) (tables s')).
Qed.

Lemma infer_edges_perm : infer_edges s = infer_edges s'.
Proof.
  rewrite !infer_edges_ok. f_equal. apply sorted_by_perm_eq.
  - intros d e Hd He. apply (sql_order_inj s);
      (eapply elem_of_infer; [apply infer_edges_ok|by apply elem_of_sorted_by]).
  - unfold column_edges. rewrite (concat_fmap_perm _ _ _ Htabs). match goal with |- ?a ≡ₚ ?b => enough (a = b) as -> by done end. f_equal.
    apply list_fmap_ext. intros i t _. f_equal. apply list_fmap_ext. intros j c _. apply column_edge_perm.
Qed.

Lemma pk_tables_perm col : pk_tables s col ≡ₚ pk_tables s' col.
Proof.
  assert (Hpk : pk_columns (tables s) ≡ₚ pk_columns (tables s')) by apply (concat_fmap_perm _ _ _ Htabs).
  unfold pk_tables. apply Permutation_map. induction Hpk as [|p l k _ IH|p q l|]; cbn; [done| | |by etransitivity].
  - case_bool_decide; [by constructor|done].
  - case_bool_decide; case_bool_decide; done || constructor.
Qed.

Lemma owner_table_perm col :
  _pk_table_for_id_column col (fromkeys (tbl_name <$> tables s))
  = _pk_table_for_id_column col (fromkeys (tbl_name <$> tables s')).
Proof.
  unfold _pk_table_for_id_column. rewrite (sorted_same _ (fromkeys (tbl_name <$> tables s'))); [done|apply fromkeys_nodup..|].
  intros n. by rewrite !elem_of_fromkeys, Htabs.
Qed.

Lemma owner_of_perm col : owner_of s col = owner_of s' col.
Proof.
  rewrite !owner_of_eq. pose proof (pk_tables_perm col) as Hp. pose proof (owner_table_perm col) as Ho.
  destruct (pk_tables s col) as [|a [|b ts]].
  - by apply Permutation_nil_l in Hp as <-.
  - by apply Permutation_singleton_l in Hp as <-.
  - destruct (pk_tables s' col) as [|a' [|b' ts']]; [by apply Permutation_length in Hp..|].
    unfold canonical_owner. rewrite Ho. destruct (_pk_table_for_id_column col (fromkeys (tbl_name <$> tables s'))) as [m|]; [|done].
    rewrite (bool_decide_ext (m ∈ a :: b :: ts) (m ∈ a' :: b' :: ts')); [done|]. by rewrite Hp.
Qed.

Lemma infer_cross_perm : infer_cross_file_edges s = infer_cross_file_edges s'.
Proof.
  assert (Hin : forall (u : SchemaSnapshot) e, e ∈ infer_cross_file_edges u -> file_edge u e) by (intros; by apply elem_of_cross).
  unfold infer_cross_file_edges in *. apply sorted_by_perm_eq.
  - intros d e Hd He. apply (file_order_inj s); apply Hin; by apply elem_of_sorted_by.
  - rewrite (concat_fmap_perm _ _ _ Htabs). match goal with |- ?a ≡ₚ ?b => enough (a = b) as -> by done end. f_equal.
    apply list_fmap_ext. intros i t _. f_equal. apply list_fmap_ext. intros j c _. unfold cross_column.
    pose proof (owner_of_perm (col_name c)) as Ho. unfold owner_of in Ho.
    by destruct (od_get (canonical_pk_table s) (col_name c)) as [[|]|],
      (od_get (canonical_pk_table s') (col_name c)) as [[|]|]; simplify_eq.
Qed.
End Reordered.

(** ** Merging the two rules *)

Record merged_from (es : list Edge) (d : odict (pystr * pystr * pystr * pystr) Edge) : Prop := {
  mf_nodup : NoDup (od_keys d);
  mf_ends : forall k e, (k, e) ∈ d -> k = edge_ends e /\ e ∈ es;
  mf_all : forall e, e ∈ es -> edge_ends e ∈ od_keys d;
}.

Lemma merge_edges_spec es : merged_from es (merge_edges es).
Proof.
  unfold merge_edges. induction es as [|e es IH] using rev_ind.
  { constructor; [constructor|by intros k e ?%elem_of_nil..|]. by intros e ?%elem_of_nil. }
  rewrite fold_left_app. cbn [fold_left]. revert IH.
  generalize (fold_left (fun (d : odict (pystr * pystr * pystr * pystr) Edge) e => od_setdefault d (edge_ends e) e) es []).
  intros d [Hnd Hends Hall]. unfold od_setdefault, od_has. case_bool_decide as Hk.
  - constructor; [done| |].
    + intros k e' He. destruct (Hends k e' He). rewrite elem_of_app. auto.
    + intros e' [He| ->%list_elem_of_singleton]%elem_of_app; [by apply Hall|].
      destruct Hk as [v Hv]. apply od_get_elem in Hv. apply list_elem_of_fmap. by eexists (_, _).
  - apply eq_None_not_Some in Hk. apply od_get_none in Hk. rewrite od_set_new by done. constructor.
    + unfold od_keys in *. rewrite fmap_app. apply list.NoDup_app. split; [done|]. split; [|apply NoDup_singleton].
      by intros x Hx ->%list_elem_of_singleton.
    + intros k e' [He|He]%elem_of_app.
      * destruct (Hends k e' He). rewrite elem_of_app. auto.
      * apply list_elem_of_singleton in He as [= -> ->]. split; [done|]. rewrite elem_of_app. right. left.
    + intros e' He. unfold od_keys. rewrite fmap_app, elem_of_app. apply elem_of_app in He as [He|He].
      * left. by apply Hall.
      * apply list_elem_of_singleton in He as ->. right. left.
Qed.

Lemma ends_determine s d e :
  file_edge s d \/ sql_edge s d -> file_edge s e \/ sql_edge s e -> edge_ends d = edge_ends e -> d = e.
Proof.
  assert (Hform : forall e, file_edge s e \/ sql_edge s e -> exists tc, e = MkEdge (source_table e) (source_column e) (target_table e) tc false false)
    by (intros e0 [He|He]; [pose proof (fe_form s e0 He)|pose proof (se_form s e0 He)]; eauto).
  intros Hd He. destruct (Hform d Hd) as [tc ->], (Hform e He) as [tc' ->]. cbn. by intros [= -> -> -> ->].
Qed.

Definition summary (ts : list Table) (es : list Edge) : list (pystr * pyval) :=
  [(py "table_count", PInt (zlen ts));
   (py "column_count", PInt (foldr Z.add 0 ((fun t => zlen (columns t)) <$> ts))); (py "edge_count", PInt (zlen es))].

(** A cross-file walk always succeeds, and its edges are exactly those of the two
    rules, each once and in order: an identically named column of another table than the
    one that owns the key, or an [_id] column whose stem names a table with an [id] key. *)
Theorem cross_file_walk_exact profiles :
  let s := profiles_to_snapshot profiles in
  exists es,
    run_cross_file_walk profiles = Ok (MkWalk (summary (tables s) es) es) /\
    NoDup (edge_ends <$> es) /\ Sorted_by edge_order es /\
    (forall e, e ∈ es <-> file_edge s e \/ sql_edge s e) /\
    (forall e, e ∈ es -> exists t c, t ∈ tables s /\ c ∈ columns t /\ tbl_name t = source_table e /\ col_name c = source_column e) /\
    (forall e, file_edge s e -> source_table e <> target_table e /\
       exists t c, t ∈ tables s /\ c ∈ columns t /\ tbl_name t = target_table e /\ col_name c = target_column e /\
                   is_primary_key c = true).
Proof.
  cbn zeta. set (s := profiles_to_snapshot profiles). unfold run_cross_file_walk. fold s.
  pose proof (elem_of_infer s) as Hsql. rewrite infer_edges_ok in *. cbn [mbind result_bind].
  specialize (fun e => Hsql _ e eq_refl). set (F := infer_cross_file_edges s) in *. set (Q := sorted_by edge_order (column_edges s)) in *.
  assert (Hall : forall e, e ∈ F ++ Q <-> file_edge s e \/ sql_edge s e)
    by (intros e; rewrite elem_of_app; unfold F; by rewrite elem_of_cross, Hsql).
  destruct (merge_edges_spec (F ++ Q)) as [Hnd Hends Hkeys].
  assert (Hin : forall e, e ∈ sorted_by edge_order (snd <$> merge_edges (F ++ Q)) <-> file_edge s e \/ sql_edge s e).
  { intros e. rewrite elem_of_sorted_by, list_elem_of_fmap, <- Hall. split.
    - intros ([k e'] & -> & He). by destruct (Hends k e' He).
    - intros He. pose proof (Hkeys e He) as Hk. apply list_elem_of_fmap in Hk as ([k e'] & Heq & He').
      exists (k, e'). split; [|done]. destruct (Hends k e' He') as [-> Hin']. cbn in *.
      apply (ends_determine s); [by apply Hall..|done]. }
  eexists. split; [reflexivity|]. split; [|split; [apply sorted_by_sorted|split; [done|split]]].
  - rewrite sorted_by_perm. replace (edge_ends <$> (merge_edges (F ++ Q)).*2) with (od_keys (merge_edges (F ++ Q))); [done|].
    unfold od_keys. rewrite <- list_fmap_compose. apply list_fmap_ext. intros i [k e] Hi.
    by apply list_elem_of_lookup_2, Hends in Hi as [-> _].
  - intros e He. by apply Hin in He as [[]|[]].
  - intros e He. split; [apply He|by apply file_edge_target].
Qed.

(** The order in which files are given does not matter, when their tables have
    different names: a walk over the same profiles in another order gives the same edges
    in the same order and the same counts. *)
Theorem cross_file_order_independent profiles profiles' :
  profiles ≡ₚ profiles' ->
  NoDup ((fun p => _table_name_from_source_label (source_label p)) <$> profiles) ->
  run_cross_file_walk profiles = run_cross_file_walk profiles'.
Proof.
  intros Hp Hnd. set (s := profiles_to_snapshot profiles). set (s' := profiles_to_snapshot profiles').
  assert (Htabs : tables s ≡ₚ tables s') by (unfold s, s'; cbn; by rewrite Hp).
  assert (Hnames : NoDup (tbl_name <$> tables s)) by (unfold s; cbn; by rewrite <- list_fmap_compose).
  unfold run_cross_file_walk. fold s s'. rewrite (infer_edges_perm s s'), (infer_cross_perm s s') by done.
  assert (Hlen : zlen (tables s) = zlen (tables s')) by (unfold zlen; by rewrite (Permutation_length Htabs)).
  assert (Hcols : foldr Z.add 0 ((fun t => zlen (columns t)) <$> tables s) = foldr Z.add 0 ((fun t => zlen (columns t)) <$> tables s')).
  { clear -Htabs. induction Htabs; cbn in *; lia. }
  by rewrite Hlen, Hcols.
Qed.
End Inference.

(** ** A concrete walk *)

(** Case mapping of ASCII text. *)
Definition ascii_unicode : UnicodeOps := {|
  py_lower s := (fun c => if (65 <=? c) && (c <=? 90) then c + 32 else c) <$> s;
  isalnum s := negb (bool_decide (s = [])) && forallb (fun c =>
    ((48 <=? c) && (c <=? 57)) || ((65 <=? c) && (c <=? 90)) || ((97 <=? c) && (c <=? 122))) s;
|}.
#[local] Existing Instance ascii_unicode.

Definition sample_field (n : string) (unique : bool) : FieldStats := MkField (py n) (py "integer") (S754_zero false) unique.
Definition sample_profiles : list ColumnProfile :=
  [MkProfile (py "data/orders.csv") [sample_field "order_id" true; sample_field "customer_id" true];
   MkProfile (py "data/acme_customers.csv") [sample_field "Customer_Note" false; sample_field "customer_id" true]].

(** Both tables flag [customer_id]; its owner is the table named after it. *)
Example sample_walk :
  (walk_edges <$> run_cross_file_walk sample_profiles)
  = Ok [MkEdge (py "orders") (py "customer_id") (py "acme_customers") (py "customer_id") false false].
Proof. vm_compute. reflexivity. Qed.

Lemma cross_file_order_independent_witness :
  NoDup ((fun p => _table_name_from_source_label (source_label p)) <$> sample_profiles) /\
  run_cross_file_walk sample_profiles = run_cross_file_walk (rev sample_profiles).
Proof.
  assert (H : NoDup ((fun p => _table_name_from_source_label (source_label p)) <$> sample_profiles))
    by (apply (bool_decide_eq_true_1 (NoDup _)); vm_compute; reflexivity).
  split; [exact H|]. apply cross_file_order_independent; [|exact H]. apply Permutation_rev.
Defined.
