(* ===== verification/WalkHazards.v ===== *)
(** * Hazards: when each kind is flagged (walks/hazards.py)

    The five detectors besides the cycle search, and the exact condition under which
    [detect_hazards] flags a table with each kind. *)

From S2P Require Import Prelude PyText PyData Walks WalkGraph WalkDrift WalkInference WalkCycles.

Lemma py_inj a b : py a = py b -> a = b.
Proof.
  unfold py. intros H. rewrite <- (String.string_of_list_ascii_of_string a), <- (String.string_of_list_ascii_of_string b).
  f_equal. revert H. generalize (String.list_ascii_of_string a) (String.list_ascii_of_string b).
  intros l. induction l as [|x l IH]; intros [|y k]; cbn; try done. intros [= Hxy Hlk]. f_equal; [|by apply IH].
  apply N2Z.inj, (f_equal Ascii.ascii_of_N) in Hxy. by rewrite !Ascii.ascii_N_embedding in Hxy.
Qed.

Section Hazards.
Context `{U : UnicodeOps}.

(** Some hazard of the list has the kind and the table. *)
Definition flagged (hs : list Hazard) (k : string) (t : option pystr) : Prop :=
  exists h, h ∈ hs /\ kind h = py k /\ hazard_table h = t.

Lemma flagged_app hs hs' k t : flagged (hs ++ hs') k t <-> flagged hs k t \/ flagged hs' k t.
Proof.
  unfold flagged. setoid_rewrite elem_of_app. split.
  - intros (h & [H|H] & Hh); [left|right]; by exists h.
  - intros [(h & H & Hh)|(h & H & Hh)]; exists h; tauto.
Qed.

Lemma flagged_concat {A} (f : A -> list Hazard) l k t :
  flagged (concat (f <$> l)) k t <-> exists x, x ∈ l /\ flagged (f x) k t.
Proof.
  unfold flagged. setoid_rewrite elem_of_concat_fmap. split.
  - intros (h & (x & Hx & Hh) & Hk). exists x. split; [done|]. by exists h.
  - intros (x & Hx & h & Hh & Hk). exists h. split; [by exists x|done].
Qed.

Lemma flagged_one (b : bool) h k t :
  flagged (if b then [h] else []) k t <-> b = true /\ kind h = py k /\ hazard_table h = t.
Proof.
  unfold flagged. destruct b; split.
  - intros (h' & ->%list_elem_of_singleton & H). done.
  - intros [_ H]. exists h. split; [left|done].
  - intros (h' & H & _). by apply elem_of_nil in H.
  - by intros [? _].
Qed.

Lemma flagged_nil k t : flagged [] k t <-> False.
Proof. split; [|done]. intros (h & H & _). by apply elem_of_nil in H. Qed.

(** All hazards of a list have the kind [k0]. *)
Definition of_kind (k0 : string) (hs : list Hazard) : Prop := Forall (fun h => kind h = py k0) hs.

Lemma of_kind_concat {A} k0 (f : A -> list Hazard) l : (forall x, of_kind k0 (f x)) -> of_kind k0 (concat (f <$> l)).
Proof. intros Hf. apply Forall_concat, Forall_fmap, list.Forall_forall. intros x _. apply Hf. Qed.

(** ** Hubs *)

Lemma hub_kind g : of_kind "HUB" (_detect_hub g).
Proof. apply of_kind_concat. intros kv. destruct (_ <=? _); repeat constructor. Qed.

Lemma in_degree_pos es t : 0 < in_degree es t -> t ∈ endpoints es.
Proof.
  unfold in_degree. intros H. destruct (List.filter _ es) as [|e l] eqn:E; [done|].
  assert (He : e ∈ List.filter (fun e => bool_decide (target_table e = t)) es) by (rewrite E; left).
  apply elem_of_filter_b in He as [He Hb]. bool_prop. apply elem_of_endpoints. exists e. split; [done|]. by right.
Qed.

Lemma hub_exact snapshot extra g t :
  build_er_graph snapshot extra = Ok g ->
  flagged (_detect_hub g) "HUB" (Some t) <-> _HUB_INCOMING_THRESHOLD <= in_degree (declared_edges snapshot ++ extra) t.
Proof.
  rewrite build_er_graph_holds. intros [= <-]. unfold _detect_hub. cbn [incoming_edge_count].
  rewrite flagged_concat. setoid_rewrite flagged_one. split.
  - intros (kv & Hkv & Hb & _ & Ht). apply list_elem_of_fmap in Hkv as (u & -> & _). cbn in *. injection Ht as ->. by apply Z.leb_le.
  - intros H. eexists (t, _). split; [|split; [by apply Z.leb_le|done]]. apply list_elem_of_fmap. exists t. split; [done|].
    unfold er_nodes. rewrite elem_of_fromkeys, elem_of_app. right. apply in_degree_pos. unfold _HUB_INCOMING_THRESHOLD in H. lia.
Qed.

(** ** Self references *)

Lemma self_kind seen es : of_kind "SR" (self_references seen es).
Proof.
  revert seen. induction es as [|e es IH]; intros seen; cbn; [constructor|].
  case_bool_decide; [|apply IH]. case_bool_decide; [apply IH|]. constructor; [done|apply IH].
Qed.

Lemma self_references_spec seen es t :
  flagged (self_references seen es) "SR" (Some t) <->
  exists e, e ∈ es /\ source_table e = t /\ target_table e = t /\ (source_table e, source_column e) ∉ seen.
Proof.
  revert seen. induction es as [|e es IH]; intros seen; cbn.
  { rewrite flagged_nil. split; [done|]. intros (e & He & _). by apply elem_of_nil in He. }
  setoid_rewrite elem_of_cons. case_bool_decide as Hst.
  - case_bool_decide as Hseen.
    + rewrite IH. split; [intros (e' & He & H); exists e'; tauto|].
      intros (e' & [->|He] & H1 & H2 & H3); [done|]. exists e'. tauto.
    + unfold flagged at 1. setoid_rewrite elem_of_cons. split.
      * intros (h & [->|Hh] & Hk & Ht).
        { cbn in Ht. injection Ht as Ht. exists e. split; [by left|]. split; [done|]. split; [congruence|done]. }
        destruct (proj1 (IH ((source_table e, source_column e) :: seen))) as (e' & He & H1 & H2 & H3); [by exists h|].
        apply not_elem_of_cons in H3 as [_ H3]. exists e'. tauto.
      * intros (e' & He & H1 & H2 & H3). destruct (decide ((source_table e', source_column e') = (source_table e, source_column e))) as [Heq|Hne].
        { eexists. split; [by left|]. split; [done|]. cbn. f_equal. congruence. }
        destruct He as [->|He]; [done|].
        destruct (proj2 (IH ((source_table e, source_column e) :: seen))) as (h & Hh & Hkt); [|exists h; split; [by right|done]].
        exists e'. split; [done|]. split; [done|]. split; [done|]. by apply not_elem_of_cons.
  - rewrite IH. split; [intros (e' & He & H); exists e'; tauto|].
    intros (e' & [->|He] & H1 & H2 & H3); [congruence|]. exists e'. tauto.
Qed.

(** ** Parallel edges *)

Definition between (a b : pystr) (es : list Edge) : list Edge :=
  List.filter (fun e => bool_decide (source_table e = a) && bool_decide (target_table e = b)) es.

Lemma od_push_nodup {K V} `{EqDecision K} (d : odict K (list V)) k v : NoDup (od_keys d) -> NoDup (od_keys (od_push d k v)).
Proof. apply od_set_nodup. Qed.

(** A dictionary of lists, each entry the non-empty selection its key makes of [es]. *)
Record groups {K V} `{EqDecision K} (sel : K -> list V -> list V) (es : list V) (d : odict K (list V)) : Prop := {
  gr_nodup : NoDup (od_keys d);
  gr_get : forall k, od_get d k = match sel k es with [] => None | l => Some l end;
}.

Lemma groups_elem {K V} `{EqDecision K} (sel : K -> list V -> list V) es d k l :
  groups sel es d -> (k, l) ∈ d <-> l = sel k es /\ l <> [].
Proof.
  intros [Hnd Hget]. split.
  - intros H. apply od_get_unique in H; [|done]. rewrite Hget in H. destruct (sel k es) eqn:E; [done|]. by injection H as <-.
  - intros [-> Hl]. apply od_get_elem. rewrite Hget. by destruct (sel k es).
Qed.

Lemma groups_push {K V} `{EqDecision K} (sel : K -> list V -> list V) es d k v :
  groups sel es d -> (forall k', sel k' (es ++ [v]) = sel k' es ++ (if bool_decide (k' = k) then [v] else [])) ->
  groups sel (es ++ [v]) (od_push d k v).
Proof.
  intros [Hnd Hget] Hsel. split; [by apply od_push_nodup|]. intros k'. unfold od_push. rewrite od_get_set, !Hget, Hsel.
  destruct (decide (k = k')) as [->|Hne].
  - rewrite !bool_decide_eq_true_2 by done. by destruct (sel k' es).
  - rewrite !bool_decide_eq_false_2 by congruence. by rewrite app_nil_r.
Qed.

(** The edges of [es] between two different tables. *)
Definition pair_sel (p : pystr * pystr) (es : list Edge) : list Edge :=
  if bool_decide (p.1 = p.2) then [] else between p.1 p.2 es.

Lemma table_pairs_groups es : groups pair_sel es (table_pairs es).
Proof.
  unfold table_pairs. induction es as [|e es IH] using rev_ind.
  { split; [constructor|]. intros [a b]. unfold pair_sel. by case_bool_decide. }
  rewrite fold_left_app. cbn [fold_left].
  assert (Hsel : forall p, pair_sel p (es ++ [e]) = pair_sel p es ++
    (if bool_decide (p = (source_table e, target_table e)) && negb (bool_decide (source_table e = target_table e)) then [e] else [])).
  { intros [a b]. unfold pair_sel, between. cbn [fst snd]. rewrite filter_app. cbn [List.filter].
    repeat case_bool_decide; simplify_eq; cbn; by rewrite ?app_nil_r. }
  case_bool_decide as Hst.
  - split; [apply IH|]. intros p. rewrite Hsel, andb_false_r, app_nil_r. apply IH.
  - apply groups_push; [done|]. intros p. by rewrite Hsel, andb_true_r.
Qed.

Lemma parallel_kind es : of_kind "PE" (concat (parallel_hazard <$> es)).
Proof. apply of_kind_concat. intros [[a b] l]. cbn. destruct (1 <? zlen l); repeat constructor. Qed.

Lemma parallel_exact g t :
  flagged (_detect_parallel_edges g) "PE" (Some t) <-> exists u, u <> t /\ 2 <= zlen (between t u (er_edges g)).
Proof.
  unfold _detect_parallel_edges. rewrite flagged_concat. pose proof (table_pairs_groups (er_edges g)) as Hg. split.
  - intros ([[a b] l] & Hin & Hf). apply (groups_elem _ _ _ _ _ Hg) in Hin as [-> Hne]. cbn in Hf.
    apply flagged_one in Hf as (Hb & _ & Ht). injection Ht as ->. bool_prop. unfold pair_sel in *. cbn in *.
    case_bool_decide; [done|]. exists b. split; [congruence|lia].
  - intros (u & Hu & Hl). exists ((t, u), between t u (er_edges g)). split.
    + apply (groups_elem _ _ _ _ _ Hg). unfold pair_sel. cbn. rewrite bool_decide_eq_false_2 by congruence.
      split; [done|]. intros E. rewrite E in Hl. done.
    + cbn. apply flagged_one. split; [by apply Z.ltb_lt; lia|done].
Qed.

(** ** Alternative parents *)

Lemma by_source_groups es : groups (fun t => List.filter (fun e => bool_decide (source_table e = t))) es (edges_by_source es).
Proof.
  unfold edges_by_source. induction es as [|e es IH] using rev_ind; [by split; [constructor|]|].
  rewrite fold_left_app. cbn [fold_left]. apply groups_push; [done|]. intros t. rewrite filter_app. cbn [List.filter].
  rewrite (bool_decide_ext (source_table e = t) (t = source_table e)) by (split; congruence). by case_bool_decide.
Qed.

(** A declared foreign key whose column is known and nullable. *)
Definition optional_fk (s : SchemaSnapshot) (e : Edge) : Prop :=
  e ∈ declared_edges s /\ exists t c, table_of s (source_table e) = Some t /\ column_of t (source_column e) = Some c /\ nullable c = true.

Lemma od_get_of_fmap {A B} (f : A -> B) (l : list (pystr * A)) k :
  od_get (od_of ((fun p => (p.1, f p.2)) <$> l)) k = f <$> od_get (od_of l) k.
Proof.
  unfold od_of. induction l as [|[k' v] l IH] using rev_ind; [done|].
  rewrite fmap_app, !fold_left_app. cbn [fold_left fmap list_fmap fst snd]. rewrite !od_get_set. by case_bool_decide.
Qed.

Lemma cols_by_table_get s t :
  od_get (od_of ((fun t => (tbl_name t, cols_by_name t)) <$> tables s)) t = cols_by_name <$> table_of s t.
Proof.
  unfold table_of, by_name. rewrite <- od_get_of_fmap. f_equal. f_equal. by rewrite <- list_fmap_compose.
Qed.

Lemma elem_of_nullable s t e :
  e ∈ nullable_singletons (default [] (cols_by_name <$> table_of s t))
        (List.filter (fun e => bool_decide (source_table e = t)) (declared_edges s))
  <-> optional_fk s e /\ source_table e = t.
Proof.
  unfold nullable_singletons, optional_fk. rewrite !elem_of_filter_b, bool_decide_eq_true. split.
  - intros [[He <-] Hn]. split; [split; [done|]|done]. destruct (table_of s (source_table e)) as [tt|]; [|done].
    cbn in Hn. destruct (od_get (cols_by_name tt) (source_column e)) as [c|] eqn:E; [|done]. by exists tt, c.
  - intros [(He & tt & c & Ht & Hc & Hn) <-]. split; [done|]. rewrite Ht. cbn. unfold column_of in Hc. by rewrite Hc.
Qed.

Lemma elem_of_sorted_names x l : x ∈ sorted_names l <-> x ∈ l.
Proof. unfold sorted_names. by rewrite elem_of_sorted, elem_of_fromkeys. Qed.

(** At least two elements of a set are two different elements of the list. *)
Lemma two_in_set l : 2 <= zlen (sorted_names l) <-> exists x y, x ∈ l /\ y ∈ l /\ x <> y.
Proof.
  assert (Hnd : NoDup (sorted_names l)) by (unfold sorted_names; rewrite sorted_perm; apply fromkeys_nodup).
  setoid_rewrite <- (elem_of_sorted_names _ l). destruct (sorted_names l) as [|a [|b r]].
  - split; [done|]. intros (x & _ & Hx & _). by apply elem_of_nil in Hx.
  - split; [done|]. intros (x & y & ->%list_elem_of_singleton & ->%list_elem_of_singleton & H). done.
  - split; [intros _|unfold zlen; cbn; lia]. exists a, b. split; [left|]. split; [right; left|].
    intros ->. apply list.NoDup_cons in Hnd as [Hn _]. apply Hn. left.
Qed.

Lemma alternative_kind d es : of_kind "ALT" (concat (alternative_hazard d <$> es)).
Proof. apply of_kind_concat. intros p. unfold alternative_hazard. destruct (2 <=? _); repeat constructor. Qed.

Lemma alternative_exact s t :
  flagged (_detect_alternative_parents s) "ALT" (Some t) <->
  exists d e, optional_fk s d /\ optional_fk s e /\ source_table d = t /\ source_table e = t /\ target_table d <> target_table e.
Proof.
  unfold _detect_alternative_parents. rewrite flagged_concat.
  pose proof (by_source_groups (declared_edges s)) as Hg. split.
  - intros ([t' l] & Hin & Hf). apply (groups_elem _ _ _ _ _ Hg) in Hin as [-> _]. unfold alternative_hazard in Hf. cbn [fst snd] in Hf.
    rewrite cols_by_table_get in Hf. apply flagged_one in Hf as (Hb & _ & Ht). injection Ht as ->. apply Z.leb_le, two_in_set in Hb.
    destruct Hb as (x & y & (d & -> & Hd)%list_elem_of_fmap & (e & -> & He)%list_elem_of_fmap & Hxy).
    apply elem_of_nullable in Hd as [Hd Hds]. apply elem_of_nullable in He as [He Hes]. by exists d, e.
  - intros (d & e & Hd & He & Hds & Hes & Hne). eexists (t, _). split.
    + apply (groups_elem _ _ _ _ _ Hg). split; [done|]. intros E. apply (elem_of_nil d). rewrite <- E.
      apply elem_of_filter_b. split; [apply Hd|by apply bool_decide_eq_true_2].
    + unfold alternative_hazard. cbn [fst snd]. rewrite cols_by_table_get. apply flagged_one. split; [|done].
      apply Z.leb_le, two_in_set. exists (target_table d), (target_table e). split; [|split; [|done]];
        apply list_elem_of_fmap; eexists; (split; [done|]); by apply elem_of_nullable.
Qed.

(** ** Polymorphic references *)

(** A [_type] column next to an [_id] column of the same stem that no declared foreign
    key is spelled like, in lower case. *)
Definition discriminated (s : SchemaSnapshot) (t : pystr) : Prop :=
  exists tb c d, tb ∈ tables s /\ tbl_name tb = t /\ c ∈ columns tb /\ d ∈ columns tb /\
    ends_with (py_lower (col_name c)) (py "_type") = true /\
    py_lower (col_name d) = chop 5 (py_lower (col_name c)) ++ py "_id" /\
    forall e, e ∈ declared_edges s -> (source_table e, source_column e) <> (t, py_lower (col_name d)).

Lemma polymorphic_kind s : of_kind "PM" (_detect_polymorphic_fk s).
Proof.
  apply of_kind_concat. intros t. apply of_kind_concat. intros c. unfold polymorphic_column. cbn zeta.
  repeat (case_match; try apply Forall_nil_2). by repeat constructor.
Qed.

Lemma polymorphic_exact s t : flagged (_detect_polymorphic_fk s) "PM" (Some t) <-> discriminated s t.
Proof.
  unfold _detect_polymorphic_fk. rewrite flagged_concat. setoid_rewrite flagged_concat. split.
  - intros (tb & Htb & c & Hc & Hf). unfold polymorphic_column in Hf. cbn zeta in Hf.
    destruct (ends_with _ _) eqn:Hend; [|by apply flagged_nil in Hf]. cbn [negb] in Hf.
    case_bool_decide as Hid; [|by apply flagged_nil in Hf]. cbn [negb] in Hf.
    case_bool_decide as Hfree; [by apply flagged_nil in Hf|].
    destruct Hf as (h & ->%list_elem_of_singleton & _ & [= <-]).
    apply list_elem_of_fmap in Hid as (d & Hd & Hin). exists tb, c, d. do 5 (split; [done|]). split; [by symmetry|].
    intros e He Heq. apply Hfree. apply list_elem_of_fmap. exists e. rewrite Hd. done.
  - intros (tb & c & d & Htb & <- & Hc & Hd & Hend & Hid & Hfree). exists tb. split; [done|]. exists c. split; [done|].
    unfold polymorphic_column. cbn zeta. rewrite Hend. cbn [negb]. rewrite <- Hid.
    rewrite bool_decide_eq_true_2 by (apply list_elem_of_fmap; by exists d). cbn [negb].
    rewrite bool_decide_eq_false_2; [eexists; split; [by left|done]|].
    intros Hin. apply list_elem_of_fmap in Hin as (e & Heq & He). by apply (Hfree e He).
Qed.

(** ** All detectors together *)

(** The hazards before sorting. *)
Definition all_hazards (s : SchemaSnapshot) (g : ERGraph) (cs : list (list pystr)) : list Hazard :=
  _detect_hub g ++ _detect_self_reference g ++ _detect_parallel_edges g ++ _detect_polymorphic_fk s
    ++ _detect_alternative_parents s ++ (cycle_hazard <$> cs).

Lemma cycle_kind cs : of_kind "CIR" (cycle_hazard <$> cs).
Proof. apply Forall_fmap, list.Forall_forall. by intros c _. Qed.

Lemma flagged_kind k0 hs k t : of_kind k0 hs -> flagged hs k t <-> (if String.eqb k k0 then flagged hs k t else False).
Proof.
  intros Hall. destruct (String.eqb_spec k k0) as [->|Hk]; [done|]. split; [|done].
  intros (h & Hh & Hkind & _). apply Hk. apply py_inj. rewrite <- Hkind.
  by apply (proj1 (list.Forall_forall _ _) Hall).
Qed.

(** Of the six lists only the one of the kind counts. *)
Lemma flagged_all s g cs k t :
  flagged (all_hazards s g cs) k t <->
  (if String.eqb k "HUB" then flagged (_detect_hub g) k t else False) \/
  (if String.eqb k "SR" then flagged (_detect_self_reference g) k t else False) \/
  (if String.eqb k "PE" then flagged (_detect_parallel_edges g) k t else False) \/
  (if String.eqb k "PM" then flagged (_detect_polymorphic_fk s) k t else False) \/
  (if String.eqb k "ALT" then flagged (_detect_alternative_parents s) k t else False) \/
  (if String.eqb k "CIR" then flagged (cycle_hazard <$> cs) k t else False).
Proof.
  unfold all_hazards. rewrite !flagged_app.
  pose proof (flagged_kind "HUB" _ k t (hub_kind g)). pose proof (flagged_kind "SR" _ k t (self_kind [] (er_edges g))).
  pose proof (flagged_kind "PE" _ k t (parallel_kind (table_pairs (er_edges g)))).
  pose proof (flagged_kind "PM" _ k t (polymorphic_kind s)).
  pose proof (flagged_kind "ALT" _ k t (alternative_kind (od_of ((fun t => (tbl_name t, cols_by_name t)) <$> tables s)) (edges_by_source (declared_edges s)))).
  pose proof (flagged_kind "CIR" _ k t (cycle_kind cs)).
  unfold _detect_self_reference, _detect_parallel_edges, _detect_alternative_parents in *. tauto.
Qed.

Lemma flagged_sorted hs k t : flagged (sorted_by hazard_order hs) k t <-> flagged hs k t.
Proof. unfold flagged. by setoid_rewrite elem_of_sorted_by. Qed.

(** Hazard detection always succeeds, and its hazards are sorted. A table is flagged
    as a hub exactly when at least five foreign keys refer to it, as self-referencing
    when one of its own does, for parallel edges when two of its foreign keys refer to
    the same other table, as polymorphic when it has a discriminator column without a
    declared key, and for alternative parents when two optional foreign keys refer to
    different tables; a cycle is flagged exactly when the foreign keys have one. *)
Theorem hazards_exact snapshot extra :
  let es := declared_edges snapshot ++ extra in
  exists hs,
    detect_hazards snapshot extra = Some (Ok hs) /\ Sorted_by hazard_order hs /\
    (forall t, flagged hs "HUB" (Some t) <-> 5 <= in_degree es t) /\
    (forall t, flagged hs "SR" (Some t) <-> exists e, e ∈ es /\ source_table e = t /\ target_table e = t) /\
    (forall t, flagged hs "PE" (Some t) <-> exists u, u <> t /\ 2 <= zlen (between t u es)) /\
    (forall t, flagged hs "PM" (Some t) <-> discriminated snapshot t) /\
    (forall t, flagged hs "ALT" (Some t) <->
       exists d e, optional_fk snapshot d /\ optional_fk snapshot e /\ source_table d = t /\ source_table e = t /\
                   target_table d <> target_table e) /\
    (flagged hs "CIR" None <-> exists w, edge_cycle es w).
Proof.
  pose proof (build_er_graph_holds snapshot extra) as Hg. cbn zeta in *. set (g := MkERGraph _ _ _ _ _) in Hg.
  destruct (built_search snapshot extra g Hg) as (s & Hrun & Hrep & Hmeet).
  exists (sorted_by hazard_order (all_hazards snapshot g (sorted (elements (cycles s))))).
  split; [unfold detect_hazards, _detect_cycles; by rewrite Hg, Hrun|]. split; [apply sorted_by_sorted|].
  setoid_rewrite flagged_sorted. setoid_rewrite flagged_all. cbn [String.eqb Ascii.eqb Bool.eqb].
  split; [intros t; pose proof (hub_exact snapshot extra g t Hg); tauto|].
  split; [intros t|split; [intros t|split; [intros t|split; [intros t|]]]].
  - destruct (self_references_spec [] (er_edges g) t) as [H1 H2]. split.
    + intros Hf. destruct H1 as (e & He & Hs & Ht & _); [|by exists e]. unfold _detect_self_reference in Hf. tauto.
    + intros (e & He & Hs & Ht). right. left. apply H2. exists e. do 3 (split; [done|]). apply not_elem_of_nil.
  - pose proof (parallel_exact g t). unfold g in *. cbn [er_edges] in *. tauto.
  - pose proof (polymorphic_exact snapshot t). tauto.
  - pose proof (alternative_exact snapshot t). tauto.
  - setoid_rewrite <- (graph_cycle_edges snapshot extra g _ Hg). split.
    + intros [[]|[[]|[[]|[[]|[[]|(h & Hh & _)]]]]]. apply list_elem_of_fmap in Hh as (c & _ & Hc).
      exists c. apply Hrep. by rewrite elem_of_sorted, elem_of_elements in Hc.
    + intros [w Hw]. do 5 right. destruct (Hmeet w Hw) as (a & _ & c & Hc & _).
      exists (cycle_hazard c). split; [|done]. apply list_elem_of_fmap. exists c. split; [done|]. by rewrite elem_of_sorted, elem_of_elements.
Qed.
End Hazards.

(** ** A declared key the polymorphic detector does not see

    The detector looks up the lower-case name of the [_id] column among the declared
    keys, which are spelled as the schema spells them: with an upper-case name the
    declared key is not found and the column is flagged. *)

#[local] Existing Instance ascii_unicode.

Definition sample_events (id_name : string) : SchemaSnapshot :=
  MkSnapshot (py "postgres") (py "public")
    [MkTable (py "events") (py "public")
       [MkColumn (py "Entity_Type") (py "text") false false; MkColumn (py id_name) (py "integer") false false]]
    [MkEdge (py "events") (py id_name) (py "users") (py "id") true false] None.

Lemma declared_key_missed :
  let flags s := match detect_hazards s [] with Some (Ok hs) => kind <$> hs | _ => [] end in
  flags (sample_events "Entity_ID") = [py "PM"] /\ flags (sample_events "entity_id") = [].
Proof. vm_compute. done. Qed.
