(* ===== verification/Phase.v ===== *)
(** * Phase envelopes (phase.py)

    The values the phases report through: freezing of plain data, the frozen map, the
    coverage, result and event envelopes, their one serializer and the gate. A value that
    comes from outside is a [dyn]: its exact type, and what the checks read of it. *)

From S2P Require Import Prelude Numerals PyText PyData Reasons Json.

(** ** Values *)

Section Phase.
Context {F : PyFloat}.

(** [exact] says that a sequence is of type [list] or [tuple] itself, not of a subclass;
    [DMap] is any mapping, [DSet] any set, [DOther] anything not listed. *)
Inductive dyn :=
| DNone
| DBool (b : bool)
| DInt (n : Z)
| DFloat (f : pyfloat)
| DStr (s : pystr)
| DList (exact : bool) (l : list dyn)
| DTuple (exact : bool) (l : list dyn)
| DFrozenMap (d : list (pystr * dyn))
| DMap (d : list (dyn * dyn))
| DSet (l : list dyn)
| DReason (namespace code : dyn)
| DCoverage (requested_scope observed_scope rows_examined exact sampling_method limits omissions : dyn)
| DOther.

(** The position of a float among the floats: its value times a power of two that makes
    every finite float an integer. *)
Class FloatOrder := float_scaled : ffloat -> Z.
Context {FO : FloatOrder}.

(** ** Constants and errors *)

Definition INT_MIN : Z := - 2 ^ 63.
Definition INT_MAX : Z := 2 ^ 63 - 1.
Definition MAX_DEPTH : Z := 64.
Definition RESULT_SCHEMA : pystr := py "phase-result/v1".
Definition EVENT_SCHEMA : pystr := py "phase-event/v1".
Definition PHASES : list pystr := py <$> ["pre_scan"; "transform"; "post_scan"]%string.
Definition STATUSES : list pystr :=
  py <$> ["completed"; "passed"; "failed"; "error"; "unavailable"; "skipped"; "not_applicable"]%string.

(** The error with its text. *)
Definition PhaseContractError (text : string) : exn := Exn "PhaseContractError" text.
Definition _MALFORMED : string := "malformed phase evidence".
Definition _SCOPE_FIELDS : list string := ["requested_scope"; "observed_scope"; "limits"; "omissions"]%string.
Definition _STR_FIELDS : list string :=
  ["phase"; "check_id"; "status"; "method"; "method_version"; "schema_version"; "event"; "sampling_method";
   "reason namespace"; "reason code"]%string.

Definition tuple_text (name : string) : string := String.append name " must be a tuple of str".
Definition only_text (name : string) : string := String.append name " must contain only str".
Definition str_text (name : string) : string := String.append name " must be str".

Definition _FIXED_TEXTS : list string :=
  [_MALFORMED; "FrozenMap entries must be (key, value) pairs"; "FrozenMap keys must be str"; "duplicate key in FrozenMap";
    "integer outside the 64-bit canonical range"; "phase evidence nested too deeply"; "non-finite number in phase evidence";
    "unfrozen value in FrozenMap"; "identity must be a mapping or a tuple of (str, str) pairs";
    "identity entries must be (str, str) pairs"; "identity keys and values must be str"; "duplicate identity key";
    "reasons must be ReasonRef"; "reasons must be a tuple of ReasonRef"; "set elements must be None, bool, int, float or str";
    "phase evidence mapping keys must be str"; "cannot freeze this type into phase evidence"; "unsafe value in phase evidence";
    "coverage must be PhaseCoverage"; "rows_examined must be int or None"; "exact must be bool";
    "identity must be a tuple of (str, str) pairs"; "unknown schema_version"; "unknown phase"; "unknown status";
    "unknown reason identity"; "phase envelope has no canonical encoding"; "not a phase envelope"]%string
   ++ map tuple_text _SCOPE_FIELDS ++ map only_text _SCOPE_FIELDS ++ map str_text _STR_FIELDS.

Definition _fixed_text (e : exn) : string :=
  if (String.eqb (exc_class e) "PhaseContractError") && existsb (String.eqb (exc_code e)) _FIXED_TEXTS
  then exc_code e else _MALFORMED.

Definition _contained {A} (m : result A) : result A :=
  match m with Ok a => Ok a | Err e => Err (PhaseContractError (_fixed_text e)) end.

Definition refuse {A} (text : string) : result A := Err (PhaseContractError text).
Definition refuse_if (b : bool) (text : string) : result unit := raise_if b (PhaseContractError text).

(** ** Checks *)

Definition _check_int (n : Z) : result unit :=
  refuse_if (negb ((INT_MIN <=? n) && (n <=? INT_MAX))) "integer outside the 64-bit canonical range".
Definition _check_depth (depth : Z) : result unit :=
  refuse_if (depth >? MAX_DEPTH) "phase evidence nested too deeply".

Definition finite (f : pyfloat) : bool := match f with Finite _ => true | _ => false end.

Definition _is_scalar (v : dyn) : result bool :=
  match v with
  | DNone | DStr _ | DBool _ => Ok true
  | DInt n => _ ← _check_int n; Ok true
  | DFloat f => _ ← refuse_if (negb (finite f)) "non-finite number in phase evidence"; Ok true
  | _ => Ok false
  end.

Fixpoint _require_frozen (v : dyn) (depth : Z) : result unit :=
  _ ← _check_depth depth;
  scalar ← _is_scalar v;
  if (scalar : bool) then Ok tt else
  match v with
  | DFrozenMap d => for_each (fun _ kv => _require_frozen kv.2 (depth + 1)) d tt
  | DTuple true l => for_each (fun _ x => _require_frozen x (depth + 1)) l tt
  | _ => refuse "unfrozen value in FrozenMap"
  end.

(** *** [FrozenMap(pairs)] *)

(** [tuple(v)] *)
Definition tuple_of (v : dyn) : result (list dyn) :=
  match v with
  | DList _ l | DTuple _ l | DSet l => Ok l
  | DFrozenMap d => Ok ((fun kv => DTuple true [DStr kv.1; kv.2]) <$> d)
  | DMap d => Ok (fst <$> d)
  | DStr s => Ok ((fun c => DStr [c]) <$> s)
  | _ => Err (exc "TypeError")
  end.

(** The loop of [__new__]: the keys seen, and the pairs. *)
Definition frozen_entry (acc : list (pystr * dyn)) (item : dyn) : result (list (pystr * dyn)) :=
  match item with
  | DTuple true [key; value] =>
      match key with
      | DStr k =>
          _ ← refuse_if (bool_decide (k ∈ acc.*1)) "duplicate key in FrozenMap";
          _ ← _require_frozen value 0;
          Ok (acc ++ [(k, value)])
      | _ => refuse "FrozenMap keys must be str"
      end
  | _ => refuse "FrozenMap entries must be (key, value) pairs"
  end.

Definition frozen_map (items : list dyn) : result dyn :=
  pairs ← for_each frozen_entry items [];
  Ok (DFrozenMap (sorted_by fst pairs)).

Definition FrozenMap (pairs : dyn) : result dyn := _contained (items ← tuple_of pairs; frozen_map items).

(** *** Freezing *)

Definition is_str (v : dyn) : bool := match v with DStr _ => true | _ => false end.
Definition str_of (v : dyn) : pystr := match v with DStr s => s | _ => [] end.

(** [(_SET_RANK[type(value)], value)]: the rank, then the number or the text. *)
Definition _set_sort_key (v : dyn) : result (Z * Z * pystr) :=
  scalar ← _is_scalar v;
  _ ← refuse_if (negb scalar) "set elements must be None, bool, int, float or str";
  Ok match v with
     | DBool b => (1, if b then 1 else 0, [])
     | DInt n => (2, n, [])
     | DFloat (Finite f) => (3, float_scaled f, [])
     | DStr s => (4, 0, s)
     | _ => (0, 0, [])
     end.

(** The values of a list of named computations, in order. *)
Definition named_all {A} (l : list (pystr * result A)) : result (list (pystr * A)) :=
  map_res (fun p => a ← p.2; Ok (p.1, a)) l.

Definition pair_dyn (p : pystr * dyn) : dyn := DTuple true [DStr p.1; p.2].

Fixpoint _freeze (v : dyn) (depth : Z) : result dyn :=
  _ ← _check_depth depth;
  scalar ← _is_scalar v;
  if (scalar : bool) then Ok v else
  match v with
  | DFrozenMap d =>
      _contained (
        items ← named_all (map (fun kv => (kv.1, _freeze kv.2 (depth + 1))) d);
        frozen_map (pair_dyn <$> items))
  | DMap d =>
      _ ← refuse_if (negb (forallb (fun kv => is_str kv.1) d)) "phase evidence mapping keys must be str";
      _contained (
        items ← named_all (sorted_by fst (map (fun kv => (str_of kv.1, _freeze kv.2 (depth + 1))) d));
        frozen_map (pair_dyn <$> items))
  | DSet l =>
      keyed ← map_res (fun x => k ← _set_sort_key x; Ok (k, x)) l;
      Ok (DTuple true (snd <$> sorted_by fst keyed))
  | DList true l | DTuple true l =>
      frozen ← map_res (fun x => _freeze x (depth + 1)) l;
      Ok (DTuple true frozen)
  | _ => refuse "cannot freeze this type into phase evidence"
  end.

Definition freeze (v : dyn) : result dyn := _contained (_freeze v 0).

Definition scalar_json (v : dyn) : json :=
  match v with
  | DBool b => JBool b
  | DInt n => JInt n
  | DFloat f => JFloat f
  | DStr s => JStr s
  | _ => JNull
  end.

Fixpoint _thaw (v : dyn) (depth : Z) : result json :=
  _ ← _check_depth depth;
  scalar ← _is_scalar v;
  if (scalar : bool) then Ok (scalar_json v) else
  match v with
  | DFrozenMap d =>
      items ← named_all (map (fun kv => (kv.1, _thaw kv.2 (depth + 1))) d);
      Ok (JObj (od_of items))
  | DTuple true l => items ← map_res (fun x => _thaw x (depth + 1)) l; Ok (JArr items)
  | _ => refuse "unsafe value in phase evidence"
  end.

(** ** Coercions of the envelopes' fields *)

(** The entries of a mapping, a tuple or a list; a frozen map is a tuple of pairs. *)
Definition identity_items (v : dyn) : option (list dyn) :=
  match v with
  | DMap d => Some ((fun kv => DTuple true [kv.1; kv.2]) <$> d)
  | DFrozenMap d => Some (pair_dyn <$> d)
  | DTuple _ l | DList _ l => Some l
  | _ => None
  end.

Definition identity_entry (acc : list (pystr * pystr)) (item : dyn) : result (list (pystr * pystr)) :=
  match item with
  | DTuple true [key; val] =>
      match key, val with
      | DStr k, DStr v =>
          _ ← refuse_if (bool_decide (k ∈ acc.*1)) "duplicate identity key"; Ok (acc ++ [(k, v)])
      | _, _ => refuse "identity keys and values must be str"
      end
  | _ => refuse "identity entries must be (str, str) pairs"
  end.

Definition _identity_pairs (v : dyn) : result (list (pystr * pystr)) :=
  match identity_items v with
  | None => refuse "identity must be a mapping or a tuple of (str, str) pairs"
  | Some items => for_each identity_entry items []
  end.

(** The items of a list or a tuple. *)
Definition sequence_items (v : dyn) : option (list dyn) :=
  match v with
  | DFrozenMap d => Some (pair_dyn <$> d)
  | DTuple _ l | DList _ l => Some l
  | _ => None
  end.

Definition _str_tuple (v : dyn) (name : string) : result (list dyn) :=
  match sequence_items v with
  | None => refuse (tuple_text name)
  | Some items => _ ← refuse_if (negb (forallb is_str items)) (only_text name); Ok items
  end.

Definition _require_str (v : dyn) (name : string) : result unit := refuse_if (negb (is_str v)) (str_text name).
Definition _require_opt_str (v : dyn) (name : string) : result unit :=
  match v with DNone => Ok tt | _ => _require_str v name end.

Definition _require_reason (v : dyn) : result unit :=
  match v with
  | DReason namespace code => _ ← _require_str namespace "reason namespace"; _require_str code "reason code"
  | _ => refuse "reasons must be ReasonRef"
  end.

Definition _reason_tuple (v : dyn) : result (list dyn) :=
  match sequence_items v with
  | None => refuse "reasons must be a tuple of ReasonRef"
  | Some items => _ ← for_each (fun _ ref => _require_reason ref) items tt; Ok items
  end.

(** ** Envelopes *)

Definition is_str_tuple (v : dyn) : bool :=
  match v with DTuple true l => forallb is_str l | _ => false end.

Definition _check_scope (name : string) (v : dyn) : result unit := refuse_if (negb (is_str_tuple v)) (tuple_text name).

Definition _check_coverage (cov : dyn) : result unit :=
  match cov with
  | DCoverage requested observed rows exact sampling limits omissions =>
      _ ← _check_scope "requested_scope" requested;
      _ ← _check_scope "observed_scope" observed;
      _ ← _check_scope "limits" limits;
      _ ← _check_scope "omissions" omissions;
      _ ← match rows with
          | DNone => Ok tt
          | DInt n => _check_int n
          | _ => refuse "rows_examined must be int or None"
          end;
      _ ← refuse_if (match exact with DBool _ => false | _ => true end) "exact must be bool";
      _require_opt_str sampling "sampling_method"
  | _ => refuse "coverage must be PhaseCoverage"
  end.

Definition PhaseCoverage (requested observed rows exact sampling limits omissions : dyn) : result dyn :=
  _contained (
    requested ← _str_tuple requested "requested_scope";
    observed ← _str_tuple observed "observed_scope";
    limits ← _str_tuple limits "limits";
    omissions ← _str_tuple omissions "omissions";
    let cov := DCoverage (DTuple true requested) (DTuple true observed) rows exact sampling
                 (DTuple true limits) (DTuple true omissions) in
    _ ← _check_coverage cov; Ok cov).

Record PhaseResult := MkResult {
  pr_phase : dyn;
  pr_check_id : dyn;
  pr_status : dyn;
  pr_method : dyn;
  pr_method_version : dyn;
  pr_coverage : dyn;
  pr_reasons : dyn;
  pr_identity : dyn;
  pr_payload : dyn;
  pr_schema_version : dyn;
}.

Definition _check_result_fields (r : PhaseResult) : result unit :=
  _ ← _require_str (pr_phase r) "phase";
  _ ← _require_str (pr_check_id r) "check_id";
  _ ← _require_str (pr_status r) "status";
  _ ← _require_str (pr_method r) "method";
  _ ← _require_str (pr_method_version r) "method_version";
  _ ← _require_str (pr_schema_version r) "schema_version";
  _ ← _check_coverage (pr_coverage r);
  _ ← match pr_reasons r with
      | DTuple true refs => for_each (fun _ ref => _require_reason ref) refs tt
      | _ => refuse "reasons must be a tuple of ReasonRef"
      end;
  match pr_identity r with
  | DTuple true _ => _ ← _identity_pairs (pr_identity r); Ok tt
  | _ => refuse "identity must be a tuple of (str, str) pairs"
  end.

(** [PhaseResult(...)]: the fields as given, coerced and checked. *)
Definition new_result (r : PhaseResult) : result PhaseResult :=
  _contained (
    reasons ← _reason_tuple (pr_reasons r);
    identity ← _identity_pairs (pr_identity r);
    payload ← freeze (pr_payload r);
    let r' := MkResult (pr_phase r) (pr_check_id r) (pr_status r) (pr_method r) (pr_method_version r) (pr_coverage r)
                (DTuple true reasons) (DTuple true ((fun kv => DTuple true [DStr kv.1; DStr kv.2]) <$> identity))
                payload (pr_schema_version r) in
    _ ← _check_result_fields r'; Ok r').

Record PhaseEvent := MkEvent {
  pe_phase : dyn;
  pe_event : dyn;
  pe_status : dyn;
  pe_reason : dyn;
  pe_schema_version : dyn;
}.

Definition _check_event_fields (e : PhaseEvent) : result unit :=
  _ ← _require_str (pe_phase e) "phase";
  _ ← _require_str (pe_event e) "event";
  _ ← _require_str (pe_status e) "status";
  _ ← _require_str (pe_schema_version e) "schema_version";
  match pe_reason e with DNone => Ok tt | ref => _require_reason ref end.

Definition new_event (e : PhaseEvent) : result PhaseEvent := _contained (_ ← _check_event_fields e; Ok e).

(** What a serializer is given: an envelope of the exact type, or something else. *)
Inductive envelope := Result (r : PhaseResult) | Event (e : PhaseEvent) | NotEnvelope.

Definition _check_header (phase status schema expected : pystr) : result unit :=
  _ ← refuse_if (negb (bool_decide (schema = expected))) "unknown schema_version";
  _ ← refuse_if (negb (bool_decide (phase ∈ PHASES))) "unknown phase";
  refuse_if (negb (bool_decide (status ∈ STATUSES))) "unknown status".

(** ** The serializer *)

Context (g : Registry).

Definition require_known (namespace code : pystr) : result ReasonSpec :=
  match get g namespace code with Ok s => Ok s | Err _ => Err (exc "UnknownReasonError") end.

Definition _reason_wire (ref : dyn) : result json :=
  match ref with
  | DReason namespace code =>
      match require_known (str_of namespace) (str_of code) with
      | Ok spec => Ok (JObj [(py "namespace", JStr (s_namespace spec)); (py "code", JStr (s_code spec))])
      | Err _ => refuse "unknown reason identity"
      end
  | _ => Err (exc "AttributeError")
  end.

(** [json.dumps(wire, sort_keys=True, separators=(",", ":")).encode()] *)
Definition _encode (wire : json) : result bytes :=
  match dumps_bytes (sp := compact) wire with
  | Ok b => Ok b
  | Err _ => refuse "phase envelope has no canonical encoding"
  end.

Definition items_of (v : dyn) : list dyn := match v with DTuple _ l => l | _ => [] end.

(** [list(scope)], [rows_examined], ... as JSON. *)
Definition scope_json (v : dyn) : json := JArr (scalar_json <$> items_of v).

Definition coverage_json (cov : dyn) : json :=
  match cov with
  | DCoverage requested observed rows exact sampling limits omissions =>
      JObj [(py "requested_scope", scope_json requested); (py "observed_scope", scope_json observed);
            (py "rows_examined", scalar_json rows); (py "exact", scalar_json exact);
            (py "sampling_method", scalar_json sampling); (py "limits", scope_json limits);
            (py "omissions", scope_json omissions)]
  | _ => JNull
  end.

Definition result_wire (r : PhaseResult) : result json :=
  _ ← _check_result_fields r;
  _ ← _check_header (str_of (pr_phase r)) (str_of (pr_status r)) (str_of (pr_schema_version r)) RESULT_SCHEMA;
  pairs ← _identity_pairs (pr_identity r);
  reasons ← map_res _reason_wire (items_of (pr_reasons r));
  payload ← _thaw (pr_payload r) 0;
  Ok (JObj
    [(py "schema_version", scalar_json (pr_schema_version r)); (py "phase", scalar_json (pr_phase r));
     (py "check_id", scalar_json (pr_check_id r)); (py "status", scalar_json (pr_status r));
     (py "method", scalar_json (pr_method r)); (py "method_version", scalar_json (pr_method_version r));
     (py "identity", JObj (od_of ((fun kv => (kv.1, JStr kv.2)) <$> pairs)));
     (py "coverage", coverage_json (pr_coverage r)); (py "reasons", JArr reasons); (py "payload", payload)]).

Definition event_wire (e : PhaseEvent) : result json :=
  _ ← _check_event_fields e;
  _ ← _check_header (str_of (pe_phase e)) (str_of (pe_status e)) (str_of (pe_schema_version e)) EVENT_SCHEMA;
  reason ← match pe_reason e with DNone => Ok JNull | ref => _reason_wire ref end;
  Ok (JObj
    [(py "schema_version", scalar_json (pe_schema_version e)); (py "phase", scalar_json (pe_phase e));
     (py "event", scalar_json (pe_event e)); (py "status", scalar_json (pe_status e)); (py "reason", reason)]).

Definition _wire (item : envelope) : result json :=
  match item with
  | Result r => result_wire r
  | Event e => event_wire e
  | NotEnvelope => refuse "not a phase envelope"
  end.

Definition to_wire (item : envelope) : result json := _contained (wire ← _wire item; _ ← _encode wire; Ok wire).

Definition canonical_bytes (item : envelope) : result bytes := _contained (wire ← _wire item; _encode wire).

Definition satisfies_required_gate (item : envelope) : result bool :=
  _contained
    match item with
    | Result r =>
        match canonical_bytes item with
        | Ok _ => Ok (bool_decide (str_of (pr_status r) = py "passed"))
        | Err _ => Ok false
        end
    | _ => Ok false
    end.

(** [error_result], given the closed label of the exception's class. *)
Definition error_result (phase check_id method method_version reason : dyn) (label : pystr) : result PhaseResult :=
  _contained (
    payload ← freeze (DMap [(DStr (py "error_type"), DStr label)]);
    new_result (MkResult phase check_id (DStr (py "error")) method method_version
      (DCoverage (DTuple true []) (DTuple true []) DNone (DBool true) DNone (DTuple true []) (DTuple true []))
      (DTuple true [reason]) (DTuple true []) payload (DStr RESULT_SCHEMA))).
End Phase.
