(* ===== verification/PhaseTheory.v ===== *)
(** * Phase envelopes: freezing, canonical bytes and the gate

    Frozen values are a fixed point of [freeze]; JSON data survives freezing and thawing;
    two constructed results have the same canonical bytes exactly when they carry the same
    evidence; the gate is closed unless every condition holds, and never raises. *)

From S2P Require Import Prelude Numerals PyText PyData WalkDrift Reasons Json Phase.

(** ** Lists and sorting *)

Lemma map_res_Forall2 {A B} (f : A -> result B) l bs : map_res f l = Ok bs <-> Forall2 (fun a b => f a = Ok b) l bs.
Proof.
  revert bs. induction l as [|a l IH]; intros bs; cbn.
  - split; [intros [= <-]; constructor|]. by intros ->%Forall2_nil_inv_l.
  - split.
    + destruct (f a) as [b|] eqn:E; [|done]. cbn. destruct (map_res f l) as [bs'|] eqn:E'; [|done]. cbn. intros [= <-].
      constructor; [done|]. by apply IH.
    + intros H. apply Forall2_cons_inv_l in H as (b & bs' & Hb & Hbs & ->). rewrite Hb. cbn. by rewrite (proj2 (IH bs') Hbs).
Qed.

(** A list sorted by distinct keys is its own sorted list. *)
Lemma sorted_by_id {A K} `{PyOrdLaws K} (key : A -> K) l :
  NoDup (key <$> l) -> Sorted_by key l -> sorted_by key l = l.
Proof.
  intros Hnd Hs. symmetry. apply (Sorted_by_unique key); [|done|apply sorted_by_sorted|by rewrite sorted_by_perm].
  intros x y Hx Hy Hk. apply list_elem_of_lookup in Hx as [i Hi], Hy as [j Hj].
  assert (i = j) as ->; [|congruence]. eapply NoDup_lookup; [exact Hnd| |]; rewrite list_lookup_fmap.
  - by rewrite Hi.
  - rewrite Hj. cbn. by rewrite Hk.
Qed.

(** Pairs with distinct first components that agree on them are equal. *)
Lemma fst_determines {A B} (l : list (A * B)) x y : NoDup l.*1 -> x ∈ l -> y ∈ l -> x.1 = y.1 -> x = y.
Proof.
  intros Hnd Hx Hy Hk. apply list_elem_of_lookup in Hx as [i Hi], Hy as [j Hj].
  assert (i = j) as ->; [|congruence]. eapply NoDup_lookup; [exact Hnd| |]; rewrite list_lookup_fmap.
  - by rewrite Hi.
  - rewrite Hj. cbn. by rewrite Hk.
Qed.

Section Theory.
Context {F : PyFloat} {L : PyFloatLaws F} {FO : FloatOrder}.

(** ** Induction on values *)

Section DynInd.
Context (P : dyn -> Prop).
Context (Hnone : P DNone) (Hbool : forall b, P (DBool b)) (Hint : forall n, P (DInt n)) (Hfloat : forall f, P (DFloat f))
  (Hstr : forall s, P (DStr s)) (Hlist : forall e l, Forall P l -> P (DList e l)) (Htuple : forall e l, Forall P l -> P (DTuple e l))
  (Hfrozen : forall d, Forall (fun kv => P kv.2) d -> P (DFrozenMap d))
  (Hmap : forall d, Forall (fun kv => P kv.2) d -> P (DMap d)) (Hset : forall l, Forall P l -> P (DSet l))
  (Hreason : forall n c, P (DReason n c)) (Hcov : forall a b c d e f h, P (DCoverage a b c d e f h)) (Hother : P DOther).
Lemma dyn_induction v : P v.
Proof.
  revert v. fix IH 1. intros [|b|n|f|s|e l|e l|d|d|l|n c|a b c d e f h|].
  1-5, 11-13: clear IH; auto.
  - apply Hlist. induction l as [|x l IHl]; constructor; [apply IH|exact IHl].
  - apply Htuple. induction l as [|x l IHl]; constructor; [apply IH|exact IHl].
  - apply Hfrozen. induction d as [|x d IHd]; constructor; [apply IH|exact IHd].
  - apply Hmap. induction d as [|x d IHd]; constructor; [apply IH|exact IHd].
  - apply Hset. induction l as [|x l IHl]; constructor; [apply IH|exact IHl].
Qed.
End DynInd.

(** ** Frozen values *)

Definition scalar_ok (v : dyn) : Prop :=
  match v with
  | DNone | DBool _ | DStr _ => True
  | DInt n => INT_MIN <= n <= INT_MAX
  | DFloat f => finite f = true
  | _ => False
  end.

(** Immutable values no deeper than the limit, starting at [depth]. *)
Fixpoint frozen (depth : Z) (v : dyn) : Prop :=
  depth <= MAX_DEPTH /\
  match v with
  | DTuple true l => foldr and True (map (frozen (depth + 1)) l)
  | DFrozenMap d => NoDup d.*1 /\ Sorted_by fst d /\ foldr and True (map (fun kv => frozen (depth + 1) kv.2) d)
  | _ => scalar_ok v
  end.

(** The invariant of the class [FrozenMap]: sorted, distinct keys. *)
Fixpoint maps_ok (v : dyn) : Prop :=
  match v with
  | DTuple _ l => foldr and True (map maps_ok l)
  | DFrozenMap d => NoDup d.*1 /\ Sorted_by fst d /\ foldr and True (map (fun kv => maps_ok kv.2) d)
  | _ => True
  end.

(** No set with elements lies at the deepest level. *)
Fixpoint sets_shallow (depth : Z) (v : dyn) : Prop :=
  match v with
  | DList _ l | DTuple _ l => foldr and True (map (sets_shallow (depth + 1)) l)
  | DFrozenMap d => foldr and True (map (fun kv => sets_shallow (depth + 1) kv.2) d)
  | DMap d => foldr and True (map (fun kv => sets_shallow (depth + 1) kv.2) d)
  | DSet l => l = [] \/ depth < MAX_DEPTH
  | _ => True
  end.

Definition container (v : dyn) : bool :=
  match v with DNone | DBool _ | DInt _ | DFloat _ | DStr _ => false | _ => true end.

Lemma scalar_spec v : _is_scalar v = Ok (negb (container v)) \/ (container v = false /\ ~ scalar_ok v /\ exists e, _is_scalar v = Err e).
Proof.
  destruct v; try by left.
  - unfold _is_scalar, _check_int, refuse_if. destruct ((INT_MIN <=? n) && (n <=? INT_MAX)) eqn:E; [by left|].
    right. split; [done|]. split; [|cbn; eauto]. cbn. intros H. apply andb_false_iff in E. destruct E as [E|E]; apply Z.leb_gt in E; lia.
  - unfold _is_scalar, refuse_if. destruct (finite f) eqn:E; [by left|]. right. split; [done|]. split; [|cbn; eauto]. cbn. by rewrite E.
Qed.

Lemma is_scalar_true v : _is_scalar v = Ok true <-> scalar_ok v.
Proof.
  destruct v; cbn; try done.
  - unfold _check_int, refuse_if. destruct ((INT_MIN <=? n) && (n <=? INT_MAX)) eqn:E; cbn.
    + split; [|done]. intros _. lia.
    + split; [done|]. intros H. apply andb_false_iff in E. destruct E as [E|E]; apply Z.leb_gt in E; lia.
  - unfold refuse_if. by destruct (finite f).
Qed.

Lemma is_scalar_false v : _is_scalar v = Ok false <-> container v = true.
Proof.
  destruct v; cbn; try done.
  - unfold _check_int, refuse_if. by destruct ((INT_MIN <=? n) && (n <=? INT_MAX)).
  - unfold refuse_if. by destruct (finite f).
Qed.

Lemma check_depth_ok depth : _check_depth depth = Ok tt <-> depth <= MAX_DEPTH.
Proof. unfold _check_depth, refuse_if. destruct (Z.gtb_spec depth MAX_DEPTH); cbn; split; (done || lia). Qed.

Lemma frozen_scalar depth v : depth <= MAX_DEPTH -> scalar_ok v -> frozen depth v.
Proof. intros Hd Hs. by destruct v. Qed.

(** *** The frozen-map constructor *)

Lemma require_frozen_ok v : forall depth, frozen depth v -> forall d, d <= depth -> _require_frozen v d = Ok tt.
Proof.
  assert (Hsc : forall v, scalar_ok v -> forall depth, depth <= MAX_DEPTH -> forall d, d <= depth -> _require_frozen v d = Ok tt).
  { intros w Hw depth Hd d Hle. assert (E : _check_depth d = Ok tt) by (apply check_depth_ok; lia).
    apply is_scalar_true in Hw. destruct w; cbn [_require_frozen]; rewrite E; cbn [mbind result_bind]; rewrite Hw; done. }
  induction v as [|b|n|f|s|e l _|e l IH|d IH|d _|l _|n c|a b c d e f h|] using dyn_induction; intros depth [Hd Hv] dd Hle;
    try (exact (Hsc _ Hv depth Hd dd Hle)).
  - destruct e; [|done]. cbn [_require_frozen]. rewrite (proj2 (check_depth_ok dd)) by lia. cbn [mbind result_bind _is_scalar].
    apply foldr_and in Hv. induction l as [|x l IHl]; [done|]. cbn [for_each].
    apply Forall_cons_iff in IH as [Hx IH], Hv as [Hvx Hv]. rewrite (Hx (depth + 1)) by (done || lia). by apply IHl.
  - cbn [_require_frozen]. rewrite (proj2 (check_depth_ok dd)) by lia. cbn [mbind result_bind _is_scalar].
    destruct Hv as (_ & _ & Hv). apply foldr_and in Hv. induction d as [|x l IHl]; [done|]. cbn [for_each].
    apply Forall_cons_iff in IH as [Hx IH], Hv as [Hvx Hv]. rewrite (Hx (depth + 1)) by (done || lia). by apply IHl.
Qed.

Lemma frozen_entry_pair acc k v :
  frozen_entry acc (pair_dyn (k, v)) =
  if bool_decide (k ∈ acc.*1) then refuse "duplicate key in FrozenMap" else _ ← _require_frozen v 0; Ok (acc ++ [(k, v)]).
Proof. cbn. by case_bool_decide. Qed.

Lemma frozen_entries items acc out :
  for_each frozen_entry (pair_dyn <$> items) acc = Ok out -> NoDup acc.*1 -> out = acc ++ items /\ NoDup out.*1.
Proof.
  revert acc. induction items as [|[k v] items IH]; intros acc; cbn [fmap list_fmap for_each].
  - intros [= <-]. by rewrite app_nil_r.
  - rewrite frozen_entry_pair. case_bool_decide as Hk; [done|].
    destruct (_require_frozen v 0) as [[]|]; [|done]. cbn. intros H Hacc. destruct (IH _ H) as [-> Hnd].
    + rewrite fmap_app. apply list.NoDup_app. split; [done|]. split; [|apply NoDup_singleton]. by intros x Hx ->%list_elem_of_singleton.
    + by rewrite <- app_assoc in *.
Qed.

Lemma frozen_map_inv items w :
  frozen_map (pair_dyn <$> items) = Ok w -> NoDup items.*1 /\ w = DFrozenMap (sorted_by fst items).
Proof.
  unfold frozen_map. destruct (for_each _ _ _) as [out|] eqn:E; [|done]. cbn. intros [= <-].
  apply frozen_entries in E as [-> Hnd]; [done|constructor].
Qed.

Lemma frozen_entries_ok items acc :
  NoDup (acc ++ items).*1 -> Forall (fun kv => _require_frozen kv.2 0 = Ok tt) items ->
  for_each frozen_entry (pair_dyn <$> items) acc = Ok (acc ++ items).
Proof.
  revert acc. induction items as [|[k v] items IH]; intros acc Hnd Hv; cbn [fmap list_fmap for_each]; [by rewrite app_nil_r|].
  apply Forall_cons_iff in Hv as [Hx Hv]. rewrite frozen_entry_pair. cbn [fst snd] in *.
  rewrite bool_decide_eq_false_2.
  - rewrite Hx. cbn [mbind result_bind].
    rewrite (IH (acc ++ [(k, v)])); [by rewrite <- app_assoc|by rewrite <- app_assoc|done].
  - intros Hin. rewrite fmap_app in Hnd. apply list.NoDup_app in Hnd as (_ & Hnd & _). apply (Hnd k Hin). left.
Qed.

Lemma frozen_map_ok items :
  NoDup items.*1 -> Forall (fun kv => _require_frozen kv.2 0 = Ok tt) items ->
  frozen_map (pair_dyn <$> items) = Ok (DFrozenMap (sorted_by fst items)).
Proof. intros Hnd Hv. unfold frozen_map. by rewrite (frozen_entries_ok items []). Qed.

Lemma contained_ok {A} (m : result A) a : _contained m = Ok a <-> m = Ok a.
Proof. by destruct m. Qed.

Lemma contained_inv {A} (m : result A) a : _contained m = Ok a -> m = Ok a.
Proof. apply contained_ok. Qed.

Lemma named_all_inv {A B} (f : A -> result B) (l : list (pystr * A)) items :
  named_all (map (fun kv => (kv.1, f kv.2)) l) = Ok items -> Forall2 (fun kv kw => kw.1 = kv.1 /\ f kv.2 = Ok kw.2) l items.
Proof.
  unfold named_all. revert items. induction l as [|[k a] l IH]; intros items; cbn; [intros [= <-]; constructor|].
  destruct (f a) as [b|] eqn:E; [|done]. cbn. destruct (map_res _ _) as [bs|] eqn:E'; [|done]. cbn. intros [= <-].
  constructor; [done|by apply IH].
Qed.

Lemma named_all_ok {A B} (f : A -> result B) (h : A -> B) (l : list (pystr * A)) :
  Forall (fun kv => f kv.2 = Ok (h kv.2)) l -> named_all (map (fun kv => (kv.1, f kv.2)) l) = Ok (map (fun kv => (kv.1, h kv.2)) l).
Proof. unfold named_all. induction 1 as [|[k a] l Ha _ IH]; [done|]. cbn in *. rewrite Ha. cbn. by rewrite IH. Qed.

(** *** Freezing gives frozen values *)

Lemma set_key_scalar v k : _set_sort_key v = Ok k -> scalar_ok v.
Proof.
  unfold _set_sort_key. destruct (_is_scalar v) as [[]|] eqn:E; [|done..]. intros _. by apply is_scalar_true.
Qed.

Lemma scalar_maps_ok v : scalar_ok v -> maps_ok v.
Proof. by destruct v. Qed.

Lemma Forall2_right {A B} (R : A -> B -> Prop) (P : A -> Prop) (Q : B -> Prop) l k :
  Forall2 R l k -> Forall P l -> (forall a b, P a -> R a b -> Q b) -> Forall Q k.
Proof. intros H HP Himp. induction H as [|a b l k Hab _ IH]; [constructor|]. apply Forall_cons_iff in HP as [Ha HP]. constructor; eauto. Qed.

Lemma sorted_by_keys {A B} `{PyOrdLaws A} (l : list (A * B)) :
  NoDup l.*1 -> NoDup (sorted_by fst l).*1 /\ Sorted_by fst (sorted_by fst l).
Proof. intros Hnd. split; [by rewrite sorted_by_perm|apply sorted_by_sorted]. Qed.

(** A frozen map of good values, from its items. *)
Lemma frozen_map_good items w (P : dyn -> Prop) :
  frozen_map (pair_dyn <$> items) = Ok w -> Forall (fun kv => P kv.2) items ->
  exists d, w = DFrozenMap d /\ NoDup d.*1 /\ Sorted_by fst d /\ Forall (fun kv => P kv.2) d.
Proof.
  intros [Hnd ->]%frozen_map_inv HP. exists (sorted_by fst items). split; [done|].
  destruct (sorted_by_keys items Hnd) as [H1 H2]. split; [done|]. split; [done|]. by rewrite sorted_by_perm.
Qed.

Definition freeze_good (v : dyn) : Prop := forall depth w,
  _freeze v depth = Ok w -> maps_ok w /\ (sets_shallow depth v -> frozen depth w).

Lemma freeze_scalar_case v depth w :
  scalar_ok v -> depth <= MAX_DEPTH -> Ok v = Ok w -> maps_ok w /\ (sets_shallow depth v -> frozen depth w).
Proof. intros Hs Hd [= <-]. split; [by apply scalar_maps_ok|]. intros _. by apply frozen_scalar. Qed.

Lemma freeze_items_good l depth out :
  Forall freeze_good l -> map_res (fun x => _freeze x (depth + 1)) l = Ok out ->
  depth <= MAX_DEPTH ->
  maps_ok (DTuple true out) /\ (foldr and True (map (sets_shallow (depth + 1)) l) -> frozen depth (DTuple true out)).
Proof.
  intros Hl H%map_res_Forall2 Hd. cbn [maps_ok frozen]. rewrite !foldr_and. split.
  - eapply Forall2_right; [exact H|exact Hl|]. intros a b Ha Hab. by apply (Ha _ _ Hab).
  - intros Hs. split; [done|]. assert (HP : Forall (fun x => freeze_good x /\ sets_shallow (depth + 1) x) l) by (by apply Forall_and).
    eapply Forall2_right; [exact H|exact HP|]. intros a b [Ha Hsa] Hab. by apply (Ha _ _ Hab).
Qed.

Lemma freeze_pairs_good (l : list (pystr * dyn)) depth items w :
  Forall (fun kv => freeze_good kv.2) l -> Forall2 (fun kv kw => kw.1 = kv.1 /\ _freeze kv.2 (depth + 1) = Ok kw.2) l items ->
  frozen_map (pair_dyn <$> items) = Ok w -> depth <= MAX_DEPTH ->
  maps_ok w /\ (Forall (fun kv => sets_shallow (depth + 1) kv.2) l -> frozen depth w).
Proof.
  intros Hl H Hw Hd. split.
  - destruct (frozen_map_good items w maps_ok Hw) as (d & -> & H1 & H2 & H3).
    + eapply Forall2_right; [exact H|exact Hl|]. intros a b Ha [_ Hab]. by apply (Ha _ _ Hab).
    + cbn [maps_ok]. by rewrite foldr_and.
  - intros Hs. assert (HP : Forall (fun kv => freeze_good kv.2 /\ sets_shallow (depth + 1) kv.2) l) by (by apply Forall_and).
    destruct (frozen_map_good items w (frozen (depth + 1)) Hw) as (d & -> & H1 & H2 & H3).
    + eapply Forall2_right; [exact H|exact HP|]. intros a b [Ha Hsa] [_ Hab]. by apply (Ha _ _ Hab).
    + cbn [frozen]. by rewrite foldr_and.
Qed.

Lemma named_map_inv (l : list (dyn * dyn)) depth items :
  named_all (sorted_by fst (map (fun kv => (str_of kv.1, _freeze kv.2 (depth + 1))) l)) = Ok items ->
  Forall2 (fun kv kw => kw.1 = kv.1 /\ _freeze kv.2 (depth + 1) = Ok kw.2) (sorted_by fst (map (fun kv => (str_of kv.1, kv.2)) l)) items.
Proof.
  intros H. apply (named_all_inv (fun x => _freeze x (depth + 1))).
  rewrite <- (sorted_by_map fst fst (fun kv : pystr * dyn => (kv.1, _freeze kv.2 (depth + 1)))) by done.
  by rewrite map_map.
Qed.

Lemma freeze_spec v : freeze_good v.
Proof.
  induction v as [|b|n|f|s|e l IH|e l IH|d IH|d IH|l _|n c|a b c d e f h|] using dyn_induction; intros depth w;
    cbn [_freeze]; destruct (_check_depth depth) as [[]|] eqn:Ed; cbn [mbind result_bind _is_scalar]; try done; apply check_depth_ok in Ed;
    try (by apply freeze_scalar_case).
  - destruct (_check_int n) as [[]|] eqn:E; [|done]. apply freeze_scalar_case; [|done]. apply is_scalar_true. cbn [_is_scalar]. by rewrite E.
  - destruct (refuse_if _ _) as [[]|] eqn:E; [|done]. apply freeze_scalar_case; [|done]. apply is_scalar_true. cbn [_is_scalar]. by rewrite E.
  - destruct e; [|done]. destruct (map_res _ l) as [out|] eqn:E; [|done]. cbn. intros [= <-]. by apply freeze_items_good.
  - destruct e; [|done]. destruct (map_res _ l) as [out|] eqn:E; [|done]. cbn. intros [= <-]. by apply freeze_items_good.
  - intros H%contained_inv. destruct (named_all _) as [items|] eqn:E; [|done]. cbn [mbind result_bind] in H.
    apply (named_all_inv (fun x => _freeze x (depth + 1))) in E.
    destruct (freeze_pairs_good d depth items w IH E H Ed) as [H1 H2]. split; [done|]. cbn [sets_shallow]. by rewrite foldr_and.
  - destruct (refuse_if _ _) as [[]|]; [|done]. cbn [mbind result_bind]. intros H%contained_inv.
    destruct (named_all _) as [items|] eqn:E; [|done]. cbn [mbind result_bind] in H. apply named_map_inv in E.
    edestruct (fun X => freeze_pairs_good _ depth items w X E H Ed) as [H1 H2].
    + rewrite sorted_by_perm. change (@map) with (@fmap list _). apply Forall_fmap. done.
    + split; [done|]. cbn [sets_shallow]. rewrite foldr_and. intros Hs. apply H2. rewrite sorted_by_perm.
      change (@map) with (@fmap list _). by apply Forall_fmap.
  - destruct (map_res _ l) as [keyed|] eqn:E; [|done]. cbn. intros [= <-]. apply map_res_Forall2 in E.
    assert (Hsc : Forall (fun kx : (Z * Z * pystr) * dyn => scalar_ok kx.2) (sorted_by fst keyed)).
    { rewrite sorted_by_perm. eapply (Forall2_right _ (fun _ => True)); [exact E|by apply Forall_true|]. intros x [k y] _ H. cbn in H.
      destruct (_set_sort_key x) eqn:Ek; [|done]. injection H as <- <-. by eapply set_key_scalar. }
    cbn [maps_ok frozen]. rewrite !foldr_and. split.
    + apply Forall_fmap. revert Hsc. apply Forall_impl. intros x. apply scalar_maps_ok.
    + intros [->|Hd]; [apply Forall2_nil_inv_l in E as ->; by split|]. split; [done|]. apply Forall_fmap. revert Hsc.
      apply Forall_impl. intros x. apply frozen_scalar. lia.
Qed.

(** *** Frozen values are a fixed point *)

Lemma freeze_frozen v : forall depth, 0 <= depth -> frozen depth v -> _freeze v depth = Ok v.
Proof.
  induction v as [|b|n|f|s|e l _|e l IH|d IH|d _|l _|n c|a b c d e f h|] using dyn_induction; intros depth H0 [Hd Hv];
    try (apply is_scalar_true in Hv; cbn [_freeze]; rewrite (proj2 (check_depth_ok depth) Hd); cbn [mbind result_bind]; by rewrite Hv);
    try done.
  - destruct e; [|done]. cbn [_freeze]. rewrite (proj2 (check_depth_ok depth) Hd). cbn [mbind result_bind _is_scalar].
    apply foldr_and in Hv. rewrite (map_res_total _ id); [by rewrite list_fmap_id|].
    intros x Hx. rewrite list.Forall_forall in IH, Hv. apply IH; [done|lia|by apply Hv].
  - destruct Hv as (Hnd & Hs & Hv). apply foldr_and in Hv. cbn [_freeze]. rewrite (proj2 (check_depth_ok depth) Hd).
    cbn [mbind result_bind _is_scalar]. apply contained_ok. rewrite (named_all_ok (fun x => _freeze x (depth + 1)) id).
    + cbn [mbind result_bind]. replace (map (fun kv => (kv.1, id kv.2)) d) with d by (symmetry; etransitivity; [|apply List.map_id]; apply List.map_ext; by intros []).
      rewrite frozen_map_ok; [|done|].
      * by rewrite sorted_by_id.
      * revert Hv. apply Forall_impl. intros kv Hkv. eapply require_frozen_ok; [exact Hkv|lia].
    + rewrite list.Forall_forall in *. intros kv Hkv. apply IH; [done|lia|by apply Hv].
Qed.

(** ** Thawing *)

Fixpoint thawed (v : dyn) : json :=
  match v with
  | DTuple _ l => JArr (map thawed l)
  | DFrozenMap d => JObj (map (fun kv => (kv.1, thawed kv.2)) d)
  | _ => scalar_json v
  end.

Lemma thawed_keys (d : list (pystr * dyn)) : (map (fun kv => (kv.1, thawed kv.2)) d).*1 = d.*1.
Proof. change (@map) with (@fmap list _). rewrite <- list_fmap_compose. done. Qed.

Lemma thaw_frozen v : forall depth, frozen depth v -> _thaw v depth = Ok (thawed v).
Proof.
  induction v as [|b|n|f|s|e l _|e l IH|d IH|d _|l _|n c|a b c d e f h|] using dyn_induction; intros depth [Hd Hv];
    try (apply is_scalar_true in Hv; cbn [_thaw]; rewrite (proj2 (check_depth_ok depth) Hd); cbn [mbind result_bind]; by rewrite Hv);
    try done.
  - destruct e; [|done]. cbn [_thaw]. rewrite (proj2 (check_depth_ok depth) Hd). cbn [mbind result_bind _is_scalar].
    apply foldr_and in Hv. rewrite (map_res_total _ thawed); [done|].
    intros x Hx. rewrite list.Forall_forall in IH, Hv. apply IH; [done|by apply Hv].
  - destruct Hv as (Hnd & Hs & Hv). apply foldr_and in Hv. cbn [_thaw]. rewrite (proj2 (check_depth_ok depth) Hd).
    cbn [mbind result_bind _is_scalar]. rewrite (named_all_ok (fun x => _thaw x (depth + 1)) thawed).
    + cbn [mbind result_bind thawed]. rewrite od_of_distinct; [done|]. unfold od_keys. by rewrite thawed_keys.
    + rewrite list.Forall_forall in *. intros kv Hkv. apply IH; [done|by apply Hv].
Qed.

(** A value whose maps are good and that thaws is frozen. *)
Lemma thaw_inv v : forall depth j, maps_ok v -> _thaw v depth = Ok j -> frozen depth v.
Proof.
  induction v as [|b|n|f|s|e l _|e l IH|d IH|d _|l _|n c|a b c d e f h|] using dyn_induction; intros depth j Hm;
    cbn [_thaw]; destruct (_check_depth depth) as [[]|] eqn:Ed; cbn [mbind result_bind _is_scalar]; try done; apply check_depth_ok in Ed;
    try (by intros _).
  - destruct (_check_int n) as [[]|] eqn:E; [|done]. intros _. apply frozen_scalar; [done|]. apply is_scalar_true. cbn [_is_scalar]. by rewrite E.
  - destruct (refuse_if _ _) as [[]|] eqn:E; [|done]. intros _. apply frozen_scalar; [done|]. apply is_scalar_true. cbn [_is_scalar]. by rewrite E.
  - destruct e; [|done]. destruct (map_res _ l) as [out|] eqn:E; [|done]. intros _. apply map_res_Forall2 in E.
    cbn [maps_ok frozen] in *. split; [done|]. apply foldr_and. apply foldr_and in Hm. clear Ed. induction E as [|x j' l out Hx E IHl]; [constructor|].
    apply Forall_cons_iff in IH as [IHx IH], Hm as [Hmx Hm]. constructor; [by eapply IHx|by apply IHl].
  - destruct (named_all _) as [items|] eqn:E; [|done]. intros _. apply (named_all_inv (fun x => _thaw x (depth + 1))) in E.
    cbn [maps_ok frozen] in *. destruct Hm as (H1 & H2 & Hm). split; [done|]. split; [done|]. split; [done|]. apply foldr_and. apply foldr_and in Hm.
    clear Ed H1 H2. induction E as [|x j' l out [_ Hx] E IHl]; [constructor|].
    apply Forall_cons_iff in IH as [IHx IH], Hm as [Hmx Hm]. constructor; [by eapply IHx|by apply IHl].
Qed.

(** Thawing forgets nothing, and its objects are sorted. *)
Lemma thawed_inj v : forall w depth depth', frozen depth v -> frozen depth' w -> thawed v = thawed w -> v = w.
Proof.
  induction v as [|b|n|f|s|e l _|e l IH|d IH|d _|l _|n c|a b c d e f h|] using dyn_induction; intros w depth depth' [_ Hv] Hw;
    try done; try (destruct w as [| | | | | |[]| | | | | |]; destruct Hw as [_ Hw]; cbn in Hw; cbn; try done; intros Heq; congruence).
  - destruct e; [|done]. destruct w as [| | | | | |[] k| | | | | |]; destruct Hw as [_ Hw]; cbn in Hw; cbn [thawed scalar_json]; try done. intros [= E]. f_equal.
    apply foldr_and in Hv, Hw. revert k Hw E. induction l as [|x l IHl]; intros [|y k] Hw E; try done. cbn in E. injection E as E1 E2.
    apply Forall_cons_iff in IH as [IHx IH], Hv as [Hvx Hv], Hw as [Hwy Hw]. f_equal; [by eapply IHx|by apply IHl].
  - destruct w as [| | | | | |[] k|k| | | | |]; destruct Hw as [_ Hw]; cbn in Hw; cbn [thawed scalar_json]; try done. intros [= E]. f_equal.
    destruct Hv as (_ & _ & Hv), Hw as (_ & _ & Hw). apply foldr_and in Hv, Hw.
    revert k Hw E. induction d as [|[a x] l IHl]; intros [|[b y] k] Hw E; try done. cbn in E. injection E as -> E1 E2.
    apply Forall_cons_iff in IH as [IHx IH], Hv as [Hvx Hv], Hw as [Hwy Hw]. f_equal; [f_equal; by eapply IHx|by apply IHl].
Qed.

Lemma thawed_norm v : forall depth, frozen depth v -> norm (thawed v) = thawed v.
Proof.
  induction v as [|b|n|f|s|e l _|e l IH|d IH|d _|l _|n c|a b c d e f h|] using dyn_induction; intros depth [_ Hv]; try done.
  - destruct e; [|done]. cbn [thawed norm]. f_equal. rewrite map_map. apply foldr_and in Hv. apply List.map_ext_in. intros x Hx%list_elem_of_In.
    rewrite list.Forall_forall in IH, Hv. by eapply IH; [|apply Hv].
  - destruct Hv as (Hnd & Hs & Hv). apply foldr_and in Hv. cbn [thawed norm]. f_equal. rewrite map_map.
    replace (map (fun x => ((x.1, thawed x.2).1, norm (x.1, thawed x.2).2)) d) with (map (fun kv => (kv.1, thawed kv.2)) d).
    + rewrite (sorted_by_map fst fst) by done. by rewrite sorted_by_id.
    + apply List.map_ext_in. intros x Hx%list_elem_of_In. cbn. f_equal. symmetry. rewrite list.Forall_forall in IH, Hv. by eapply IH; [|apply Hv].
Qed.
End Theory.
