(* ===== verification/PhaseContract.v ===== *)
(** * Phase envelopes: what constructing, encoding and gating promise

    A checked result is the image of typed [evidence]; its wire form is that of the
    evidence. Hence canonical bytes identify evidence, and the gate is a plain condition. *)

From S2P Require Import Prelude Numerals PyText PyData WalkDrift Reasons ReasonsTheory Json Phase PhaseTheory.

(** ** Typed evidence *)

Record coverage_of := MkCov {
  c_requested : list pystr;
  c_observed : list pystr;
  c_rows : option Z;
  c_exact : bool;
  c_sampling : option pystr;
  c_limits : list pystr;
  c_omissions : list pystr;
}.

Section Contract.
Context {F : PyFloat} {L : PyFloatLaws F} {FO : FloatOrder}.

Record evidence := MkEv {
  ev_phase : pystr;
  ev_check_id : pystr;
  ev_status : pystr;
  ev_method : pystr;
  ev_method_version : pystr;
  ev_coverage : coverage_of;
  ev_reasons : list (pystr * pystr);
  ev_identity : list (pystr * pystr);
  ev_payload : dyn;
  ev_schema : pystr;
}.

Definition scope_of (l : list pystr) : dyn := DTuple true (DStr <$> l).
Definition opt_dyn {A} (f : A -> dyn) (o : option A) : dyn := match o with Some a => f a | None => DNone end.

Definition cov_dyn (c : coverage_of) : dyn :=
  DCoverage (scope_of (c_requested c)) (scope_of (c_observed c)) (opt_dyn DInt (c_rows c)) (DBool (c_exact c))
    (opt_dyn DStr (c_sampling c)) (scope_of (c_limits c)) (scope_of (c_omissions c)).
Definition ref_dyn (p : pystr * pystr) : dyn := DReason (DStr p.1) (DStr p.2).
Definition id_dyn (p : pystr * pystr) : dyn := DTuple true [DStr p.1; DStr p.2].

Definition of_evidence (e : evidence) : PhaseResult :=
  MkResult (DStr (ev_phase e)) (DStr (ev_check_id e)) (DStr (ev_status e)) (DStr (ev_method e)) (DStr (ev_method_version e))
    (cov_dyn (ev_coverage e)) (DTuple true (ref_dyn <$> ev_reasons e)) (DTuple true (id_dyn <$> ev_identity e))
    (ev_payload e) (DStr (ev_schema e)).

Record evidence_ok (e : evidence) : Prop := {
  eo_rows n : c_rows (ev_coverage e) = Some n -> INT_MIN <= n <= INT_MAX;
  eo_identity : NoDup (ev_identity e).*1;
}.

(** *** The checks accept exactly typed evidence *)

Lemma refuse_if_ok b t : refuse_if b t = Ok tt <-> b = false.
Proof. by destruct b. Qed.

Lemma check_int_ok n : _check_int n = Ok tt <-> INT_MIN <= n <= INT_MAX.
Proof. unfold _check_int. rewrite refuse_if_ok, negb_false_iff, andb_true_iff, !Z.leb_le. done. Qed.

Lemma all_strs_dyn l : forallb is_str l = true -> exists ss, l = (DStr <$> ss).
Proof.
  induction l as [|v l IH]; [by exists []|]. cbn. intros [Hv Hl]%andb_true_iff. destruct (IH Hl) as [ss ->].
  destruct v; try done. by exists (s :: ss).
Qed.

Lemma strs_are_str ss : forallb is_str (DStr <$> ss) = true.
Proof. by induction ss. Qed.

Lemma check_scope_ok name v : _check_scope name v = Ok tt <-> exists ss, v = scope_of ss.
Proof.
  unfold _check_scope. rewrite refuse_if_ok, negb_false_iff. split.
  - destruct v; try done. destruct exact; [|done]. cbn. intros (ss & ->)%all_strs_dyn. by exists ss.
  - intros (ss & ->). apply strs_are_str.
Qed.

Lemma require_str_ok v name : _require_str v name = Ok tt <-> exists s, v = DStr s.
Proof. unfold _require_str. rewrite refuse_if_ok, negb_false_iff. destruct v; cbn; split; (by intros [? ?]) || (done || eauto). Qed.

Lemma require_opt_str_ok v name : _require_opt_str v name = Ok tt <-> exists o, v = opt_dyn DStr o.
Proof.
  split.
  - intros H. destruct v; try (by exists None); try (by apply (proj1 (require_str_ok _ name)) in H as [s' [= ->]]; exists (Some s')); done.
  - by intros [[s|] ->].
Qed.

Lemma unit_bind {A} (m : result unit) (k : unit -> result A) a : (m ≫= k) = Ok a <-> m = Ok tt /\ k tt = Ok a.
Proof. destruct m as [[]|]; cbn; naive_solver. Qed.

Lemma check_coverage_ok v : _check_coverage v = Ok tt <->
  exists c, v = cov_dyn c /\ forall n, c_rows c = Some n -> INT_MIN <= n <= INT_MAX.
Proof.
  split.
  - destruct v; try done. unfold _check_coverage. rewrite !unit_bind, !check_scope_ok, refuse_if_ok, require_opt_str_ok.
    intros ([a ->] & [b ->] & [d ->] & [e ->] & Hrows & Hexact & [o ->]).
    assert (Hx : exists x, v4 = DBool x) by (destruct v4; try done; eauto). destruct Hx as [x ->].
    assert (Hr : exists r, v3 = opt_dyn DInt r /\ forall n, r = Some n -> INT_MIN <= n <= INT_MAX).
    { destruct v3; try done; [by exists None|]. exists (Some n). split; [done|]. intros m [= <-]. by apply check_int_ok. }
    destruct Hr as (r & -> & Hr). by exists (MkCov a b r x o d e).
  - intros (c & -> & Hr). unfold cov_dyn, _check_coverage. rewrite !unit_bind, !check_scope_ok, refuse_if_ok, require_opt_str_ok.
    do 4 (split; [by eexists|]). split; [|split; [done|by eexists]].
    destruct (c_rows c) as [n|]; [|done]. apply check_int_ok. by apply Hr.
Qed.

Lemma require_reason_ok v : _require_reason v = Ok tt <-> exists p, v = ref_dyn p.
Proof.
  split.
  - destruct v; try done. cbn [_require_reason]. rewrite unit_bind, !require_str_ok. intros [[n ->] [c ->]]. by exists (n, c).
  - by intros [[n c] ->].
Qed.

Lemma for_each_unit {A} (f : A -> result unit) l : for_each (fun _ a => f a) l tt = Ok tt <-> Forall (fun a => f a = Ok tt) l.
Proof.
  induction l as [|a l IH]; cbn; [split; constructor|]. rewrite Forall_cons_iff. destruct (f a) as [[]|]; cbn; [|naive_solver].
  rewrite IH. naive_solver.
Qed.

Lemma reasons_dyn l : Forall (fun a => _require_reason a = Ok tt) l <-> exists ps, l = (ref_dyn <$> ps).
Proof.
  split.
  - induction 1 as [|a l Ha _ [ps ->]]; [by exists []|]. apply require_reason_ok in Ha as [p ->]. by exists (p :: ps).
  - intros [ps ->]. apply Forall_fmap, list.Forall_forall. intros p _. apply require_reason_ok. by exists p.
Qed.

Lemma identity_entry_ok acc item out :
  identity_entry acc item = Ok out <-> exists p, item = id_dyn p /\ (p.1 ∉ acc.*1) /\ out = acc ++ [p].
Proof.
  split.
  - destruct item; try done. destruct exact; [|done]. destruct l as [|k [|v [|]]]; try done. destruct k; try done. destruct v; try done.
    cbn. unfold refuse_if. case_bool_decide; [done|]. cbn. intros [= <-]. by exists (s, s0).
  - intros ([k v] & -> & Hk & ->). cbn. unfold refuse_if. by rewrite bool_decide_eq_false_2.
Qed.

Lemma identity_loop items acc out :
  NoDup acc.*1 -> for_each identity_entry items acc = Ok out <->
  exists ps, items = (id_dyn <$> ps) /\ out = acc ++ ps /\ NoDup out.*1.
Proof.
  revert acc. induction items as [|item items IH]; intros acc Hacc; cbn [for_each].
  - split.
    + intros [= <-]. exists []. by rewrite app_nil_r.
    + intros (ps & Heq & -> & _). destruct ps; [by rewrite app_nil_r|done].
  - split.
    + destruct (identity_entry acc item) as [acc'|] eqn:E; [|done]. cbn. apply identity_entry_ok in E as (p & -> & Hp & ->).
      intros (ps & -> & -> & Hnd)%IH.
      * exists (p :: ps). rewrite <- app_assoc in *. done.
      * rewrite fmap_app. apply list.NoDup_app. split; [done|]. split; [|apply NoDup_singleton]. by intros x Hx ->%list_elem_of_singleton.
    + intros (ps & Heq & -> & Hnd). destruct ps as [|p ps]; [done|]. injection Heq as -> ->.
      assert (Hp : p.1 ∉ acc.*1).
      { intros Hin. rewrite fmap_app in Hnd. apply list.NoDup_app in Hnd as (_ & Hn & _). apply (Hn _ Hin). left. }
      rewrite (proj2 (identity_entry_ok acc (id_dyn p) (acc ++ [p]))) by eauto. cbn [mbind result_bind]. apply IH.
      * rewrite fmap_app. apply list.NoDup_app. split; [done|]. split; [|apply NoDup_singleton]. by intros x Hx ->%list_elem_of_singleton.
      * exists ps. by rewrite <- app_assoc in *.
Qed.

Lemma identity_tuple_ok l ps : _identity_pairs (DTuple true l) = Ok ps <-> l = (id_dyn <$> ps) /\ NoDup ps.*1.
Proof.
  unfold _identity_pairs. cbn [identity_items]. rewrite identity_loop by constructor. split.
  - by intros (ps' & -> & -> & H).
  - intros [-> H]. by exists ps.
Qed.

Lemma identity_pairs_nodup v ps : _identity_pairs v = Ok ps -> NoDup ps.*1.
Proof.
  unfold _identity_pairs. destruct (identity_items v); [|done]. intros (? & _ & -> & H)%identity_loop; [done|constructor].
Qed.

Lemma result_eta r : r = MkResult (pr_phase r) (pr_check_id r) (pr_status r) (pr_method r) (pr_method_version r) (pr_coverage r)
  (pr_reasons r) (pr_identity r) (pr_payload r) (pr_schema_version r).
Proof. by destruct r. Qed.

Lemma checked_evidence r : _check_result_fields r = Ok tt <-> exists e, r = of_evidence e /\ evidence_ok e.
Proof.
  unfold _check_result_fields. rewrite !unit_bind, !require_str_ok, check_coverage_ok. split.
  - intros ([a Ea] & [b Eb] & [c Ec] & [d Ed] & [f Ef] & [h Eh] & (cov & Ecov & Hrows) & Hreasons & Hid).
    destruct (pr_reasons r) as [| | | | | |[] refs| | | | | |] eqn:Er; try done. apply for_each_unit, reasons_dyn in Hreasons as [ps ->].
    destruct (pr_identity r) as [| | | | | |[] ids| | | | | |] eqn:Ei; try done.
    destruct (_identity_pairs (DTuple true ids)) as [idps|] eqn:Eids; [|done]. apply identity_tuple_ok in Eids as [-> Hnd].
    exists (MkEv a b c d f cov ps idps (pr_payload r) h). split; [|by constructor].
    rewrite (result_eta r), Ea, Eb, Ec, Ed, Ef, Eh, Ecov, Er, Ei. done.
  - intros (e & -> & [Hr Hi]).
    cbn [of_evidence pr_phase pr_check_id pr_status pr_method pr_method_version pr_schema_version pr_coverage pr_reasons pr_identity].
    do 6 (split; [by eexists|]). split; [by eexists|]. split.
    + apply for_each_unit, reasons_dyn. by eexists.
    + by rewrite (proj2 (identity_tuple_ok _ (ev_identity e))).
Qed.

(** A constructed result is typed evidence whose payload is the frozen one. *)
Lemma new_result_evidence r0 r :
  new_result r0 = Ok r -> exists e, r = of_evidence e /\ evidence_ok e /\ freeze (pr_payload r0) = Ok (ev_payload e).
Proof.
  unfold new_result. intros H%contained_inv.
  destruct (_reason_tuple _) as [reasons|]; [|done]. cbn [mbind result_bind] in H.
  destruct (_identity_pairs _) as [ids|]; [|done]. cbn [mbind result_bind] in H.
  destruct (freeze (pr_payload r0)) as [payload|] eqn:Ef; [|done]. cbn [mbind result_bind] in H.
  destruct (_check_result_fields _) as [[]|] eqn:Ec; [|done]. cbn in H. injection H as <-.
  apply checked_evidence in Ec as (e & He & Hok). exists e. split; [done|]. split; [done|].
  unfold of_evidence in He. injection He. intros. subst. done.
Qed.

(** ** The wire form of evidence *)

Definition opt_json {A} (f : A -> json) (o : option A) : json := match o with Some a => f a | None => JNull end.

Definition cov_json (c : coverage_of) : json :=
  JObj [(py "requested_scope", JArr (JStr <$> c_requested c)); (py "observed_scope", JArr (JStr <$> c_observed c));
        (py "rows_examined", opt_json JInt (c_rows c)); (py "exact", JBool (c_exact c));
        (py "sampling_method", opt_json JStr (c_sampling c)); (py "limits", JArr (JStr <$> c_limits c));
        (py "omissions", JArr (JStr <$> c_omissions c))].
Definition ref_json (p : pystr * pystr) : json := JObj [(py "namespace", JStr p.1); (py "code", JStr p.2)].
Definition id_json (p : pystr * pystr) : pystr * json := (p.1, JStr p.2).

Definition evidence_json (e : evidence) : json :=
  JObj [(py "schema_version", JStr (ev_schema e)); (py "phase", JStr (ev_phase e)); (py "check_id", JStr (ev_check_id e));
        (py "status", JStr (ev_status e)); (py "method", JStr (ev_method e)); (py "method_version", JStr (ev_method_version e));
        (py "identity", JObj (id_json <$> ev_identity e)); (py "coverage", cov_json (ev_coverage e));
        (py "reasons", JArr (ref_json <$> ev_reasons e)); (py "payload", thawed (ev_payload e))].

Context (g : Registry).

Definition known_reason (p : pystr * pystr) : bool := od_has (_SPECS g) p.
Definition header_ok (e : evidence) : bool :=
  bool_decide (ev_schema e = RESULT_SCHEMA) && bool_decide (ev_phase e ∈ PHASES) && bool_decide (ev_status e ∈ STATUSES).

Lemma scope_json_of l : scope_json (scope_of l) = JArr (JStr <$> l).
Proof. unfold scope_json, scope_of. cbn [items_of]. f_equal. by rewrite <- list_fmap_compose. Qed.

Lemma cov_json_of c : coverage_json (cov_dyn c) = cov_json c.
Proof.
  unfold coverage_json, cov_dyn, cov_json. rewrite !scope_json_of. by destruct (c_rows c), (c_sampling c).
Qed.

Lemma check_header_ok phase status schema :
  _check_header phase status schema RESULT_SCHEMA = Ok tt <->
  schema = RESULT_SCHEMA /\ (phase ∈ PHASES) /\ status ∈ STATUSES.
Proof. unfold _check_header. rewrite !unit_bind, !refuse_if_ok, !negb_false_iff, !bool_decide_eq_true. done. Qed.

Lemma reason_wire_known p :
  registry_ok g -> known_reason p = true -> _reason_wire g (ref_dyn p) = Ok (ref_json p).
Proof.
  intros Hk Hp. destruct p as [n c]. unfold _reason_wire, ref_dyn, require_known, get, known_reason, od_has in *. cbn [fst snd str_of] in *.
  apply bool_decide_eq_true in Hp as [s Hs]. rewrite Hs. cbn. apply (ro_identity g Hk) in Hs. unfold spec_identity in Hs. by injection Hs as -> ->.
Qed.

Lemma reason_wire_unknown p : known_reason p = false -> exists e, _reason_wire g (ref_dyn p) = Err e.
Proof.
  intros Hp. destruct p as [n c]. unfold _reason_wire, ref_dyn, require_known, get, known_reason, od_has in *. cbn [fst snd str_of] in *.
  apply bool_decide_eq_false, eq_None_not_Some in Hp. rewrite Hp. cbn. by eexists.
Qed.

Lemma reasons_wire ps :
  registry_ok g ->
  map_res (_reason_wire g) (ref_dyn <$> ps) = if forallb known_reason ps then Ok (ref_json <$> ps) else
    match map_res (_reason_wire g) (ref_dyn <$> ps) with Ok _ => Err (exc "") | Err e => Err e end.
Proof.
  intros Hk. induction ps as [|p ps IH]; [done|]. cbn [fmap list_fmap map_res forallb].
  destruct (known_reason p) eqn:Ep; cbn [andb].
  - rewrite (reason_wire_known p Hk Ep). cbn [mbind result_bind]. destruct (forallb known_reason ps).
    + by rewrite IH.
    + destruct (map_res _ _) as [js|] eqn:E; [|done]. by rewrite IH in E.
  - destruct (reason_wire_unknown p Ep) as [e ->]. done.
Qed.

Lemma id_keys (ids : list (pystr * pystr)) : (id_json <$> ids).*1 = ids.*1.
Proof. by rewrite <- list_fmap_compose. Qed.

(** The wire form exists exactly when the header and the reasons are known and the
    payload thaws, and is then the evidence's. *)
Lemma evidence_wire e :
  registry_ok g -> evidence_ok e -> maps_ok (ev_payload e) ->
  (header_ok e = true -> forallb known_reason (ev_reasons e) = true -> frozen 0 (ev_payload e) ->
     _wire g (Result (of_evidence e)) = Ok (evidence_json e)) /\
  (forall j, _wire g (Result (of_evidence e)) = Ok j ->
     header_ok e = true /\ forallb known_reason (ev_reasons e) = true /\ frozen 0 (ev_payload e)).
Proof.
  intros Hk Hok Hm. unfold header_ok. cbn [_wire]. unfold result_wire. rewrite (proj2 (checked_evidence _)) by eauto. cbn [mbind result_bind].
  cbn [of_evidence pr_phase pr_check_id pr_status pr_method pr_method_version pr_schema_version pr_coverage pr_reasons pr_identity pr_payload str_of items_of].
  rewrite (proj2 (identity_tuple_ok _ (ev_identity e))) by (split; [done|apply Hok]). split.
  - intros Hh Hr Hf. bool_prop. rewrite (proj2 (check_header_ok _ _ _)) by done. cbn [mbind result_bind].
    rewrite (reasons_wire _ Hk), Hr. cbn [mbind result_bind]. rewrite (thaw_frozen _ _ Hf). cbn [mbind result_bind scalar_json].
    rewrite cov_json_of, od_of_distinct; [done|]. unfold od_keys. change (fun kv : pystr * pystr => (kv.1, JStr kv.2)) with id_json.
    rewrite id_keys. apply Hok.
  - intros j. destruct (_check_header _ _ _ _) as [[]|] eqn:Eh; [|done]. apply check_header_ok in Eh as (-> & Hp & Hst).
    cbn [mbind result_bind]. destruct (map_res _ _) as [rs|] eqn:Er; [|done]. cbn [mbind result_bind].
    destruct (_thaw (ev_payload e) 0) as [pj|] eqn:Et; [|done]. intros _.
    rewrite !bool_decide_eq_true_2 by done. split; [done|]. split; [|by eapply thaw_inv].
    rewrite (reasons_wire _ Hk) in Er. destruct (forallb known_reason (ev_reasons e)); [done|].
    by destruct (map_res _ _).
Qed.

Lemma encode_ok j : _encode j = Ok (dumps (sp := compact) j).
Proof. unfold _encode. by rewrite dumps_encodes. Qed.

(** ** Texts that can be read back *)

Fixpoint textual (v : dyn) : Prop :=
  match v with
  | DStr s => Forall text_char s
  | DTuple _ l => foldr and True (map textual l)
  | DFrozenMap d => Forall (Forall text_char) d.*1 /\ foldr and True (map (fun kv => textual kv.2) d)
  | DReason n c => textual n /\ textual c
  | DCoverage a b c d e f h => textual a /\ textual b /\ textual e /\ textual f /\ textual h
  | _ => True
  end.

(** No surrogates in any text of a result. *)
Definition textual_result (r : PhaseResult) : Prop :=
  textual (pr_phase r) /\ textual (pr_check_id r) /\ textual (pr_status r) /\ textual (pr_method r) /\
  textual (pr_method_version r) /\ textual (pr_coverage r) /\ textual (pr_reasons r) /\ textual (pr_identity r) /\
  textual (pr_payload r) /\ textual (pr_schema_version r).

Lemma scalar_json_ok v : textual v -> json_ok (scalar_json v).
Proof. by destruct v. Qed.

Lemma thawed_ok v : forall depth, frozen depth v -> textual v -> json_ok (thawed v).
Proof.
  induction v as [|b|n|f|s|e l _|e l IH|d IH|d _|l _|n c|a b c d e f h|] using dyn_induction; intros depth [_ Hv] Ht; try done.
  - destruct e; [|done]. cbn [thawed json_ok textual] in *. rewrite map_map. apply foldr_and in Hv, Ht. apply foldr_and.
    rewrite list.Forall_forall in *. intros x Hx. eapply IH; [done|by apply Hv|by apply Ht].
  - destruct Hv as (Hnd & _ & Hv), Ht as [Hk Ht]. cbn [thawed json_ok] in *. rewrite thawed_keys, map_map. split; [done|]. split; [done|].
    apply foldr_and in Hv, Ht. apply foldr_and. rewrite list.Forall_forall in *. intros x Hx. cbn. eapply IH; [done|by apply Hv|by apply Ht].
Qed.

Lemma json_ok_obj d : json_ok (JObj d) <-> NoDup d.*1 /\ Forall (Forall text_char) d.*1 /\ Forall (fun kv => json_ok kv.2) d.
Proof. cbn [json_ok]. by rewrite foldr_and. Qed.
Lemma json_ok_strs l : json_ok (JArr (JStr <$> l)) <-> Forall (Forall text_char) l.
Proof. cbn [json_ok]. rewrite foldr_and. apply Forall_fmap. Qed.

Lemma textual_scope l : textual (scope_of l) <-> Forall (Forall text_char) l.
Proof. cbn [textual scope_of]. rewrite foldr_and. apply Forall_fmap. Qed.

(** Keys spelled in ASCII are text, and the fixed ones are distinct. *)
Definition ascii_text (s : pystr) : bool := forallb (fun c => (0 <=? c) && (c <? 128)) s.
Lemma ascii_text_ok s : ascii_text s = true -> Forall text_char s.
Proof.
  unfold ascii_text. rewrite forallb_forall, list.Forall_forall. intros H c Hc%list_elem_of_In. apply H in Hc. bool_prop. unfold text_char. lia.
Qed.

Lemma fixed_keys_ok (ks : list pystr) :
  bool_decide (NoDup ks) && forallb ascii_text ks = true -> NoDup ks /\ Forall (Forall text_char) ks.
Proof.
  intros H. bool_prop. split; [done|]. rewrite list.Forall_forall. intros k Hk%list_elem_of_In. apply ascii_text_ok.
  match goal with H : forallb _ _ = true |- _ => rewrite forallb_forall in H; by apply H end.
Qed.

Lemma cov_json_ok c : textual (cov_dyn c) -> json_ok (cov_json c).
Proof.
  intros (Ha & Hb & He & Hf & Hh). rewrite textual_scope in *. apply json_ok_obj. cbn [fmap list_fmap fst].
  split; [|split]; [apply fixed_keys_ok; vm_compute; reflexivity..|].
  repeat apply List.Forall_cons; cbn [snd]; try apply List.Forall_nil; try by apply json_ok_strs.
  - by destruct (c_rows c).
  - done.
  - by destruct (c_sampling c).
Qed.

Lemma ref_json_ok p : textual (ref_dyn p) -> json_ok (ref_json p).
Proof.
  intros [Hn Hc]. apply json_ok_obj. cbn [fmap list_fmap fst]. split; [|split]; [apply fixed_keys_ok; vm_compute; reflexivity..|].
  by repeat apply List.Forall_cons.
Qed.

Lemma evidence_json_ok e :
  evidence_ok e -> frozen 0 (ev_payload e) -> textual_result (of_evidence e) -> json_ok (evidence_json e).
Proof.
  intros Hok Hf (H1 & H2 & H3 & H4 & H5 & H6 & H7 & H8 & H9 & H10). apply json_ok_obj. cbn [fmap list_fmap fst].
  split; [|split]; [apply fixed_keys_ok; vm_compute; reflexivity..|].
  repeat apply List.Forall_cons; cbn [snd]; try apply List.Forall_nil; try done.
  - apply json_ok_obj. change (list_fmap _ _ id_json (ev_identity e)) with (id_json <$> ev_identity e).
    rewrite id_keys. cbn [of_evidence pr_identity textual] in H8. apply foldr_and in H8. rewrite Forall_fmap in H8.
    split; [apply Hok|]. rewrite !Forall_fmap. split; revert H8; apply Forall_impl; intros [k v] (Hk & Hv & _); done.
  - by apply cov_json_ok.
  - cbn [json_ok]. apply foldr_and. cbn [of_evidence pr_reasons textual] in H7. rewrite foldr_and, Forall_fmap in H7. rewrite Forall_fmap.
    revert H7. apply Forall_impl. intros p. apply ref_json_ok.
  - by eapply thawed_ok.
Qed.

(** ** Canonical bytes *)

Lemma norm_strs l : norm (JArr (JStr <$> l)) = JArr (JStr <$> l).
Proof. cbn [norm]. f_equal. change (@map) with (@fmap list _). by rewrite <- list_fmap_compose. Qed.

Lemma norm_opt_int o : norm (opt_json JInt o) = opt_json JInt o.
Proof. by destruct o. Qed.
Lemma norm_opt_str o : norm (opt_json JStr o) = opt_json JStr o.
Proof. by destruct o. Qed.

Lemma opt_json_inj {A} (f : A -> json) o o' :
  (forall a, f a <> JNull) -> (forall a b, f a = f b -> a = b) -> opt_json f o = opt_json f o' -> o = o'.
Proof. intros Hn Hi. destruct o, o'; cbn; intros H; try done; [f_equal; by apply Hi|by apply Hn in H|by symmetry in H; apply Hn in H]. Qed.

Lemma strs_inj l l' : JArr (JStr <$> l) = JArr (JStr <$> l') -> l = l'.
Proof. intros [= H]. revert H. apply list_fmap_eq_inj. by intros a b [= ->]. Qed.

(** The members of a written object, in the order of their keys. *)
Lemma norm_cov c : norm (cov_json c) =
  JObj [(py "exact", JBool (c_exact c)); (py "limits", JArr (JStr <$> c_limits c)); (py "observed_scope", JArr (JStr <$> c_observed c));
        (py "omissions", JArr (JStr <$> c_omissions c)); (py "requested_scope", JArr (JStr <$> c_requested c));
        (py "rows_examined", opt_json JInt (c_rows c)); (py "sampling_method", opt_json JStr (c_sampling c))].
Proof.
  assert (Hs : forall a b d e f h i : json, sorted_by fst [(py "requested_scope", a); (py "observed_scope", b); (py "rows_examined", d);
      (py "exact", e); (py "sampling_method", f); (py "limits", h); (py "omissions", i)]
    = [(py "exact", e); (py "limits", h); (py "observed_scope", b); (py "omissions", i); (py "requested_scope", a);
       (py "rows_examined", d); (py "sampling_method", f)]) by done.
  unfold cov_json. rewrite norm_obj, Hs. cbn [map fst snd]. rewrite !norm_strs, norm_opt_int, norm_opt_str. done.
Qed.

Lemma norm_ref p : norm (ref_json p) = JObj [(py "code", JStr p.2); (py "namespace", JStr p.1)].
Proof.
  assert (Hs : forall a b : json, sorted_by fst [(py "namespace", a); (py "code", b)] = [(py "code", b); (py "namespace", a)]) by done.
  unfold ref_json. rewrite norm_obj, Hs. done.
Qed.

Lemma norm_ids ids : norm (JObj (id_json <$> ids)) = JObj (id_json <$> sorted_by fst ids).
Proof.
  rewrite norm_obj. f_equal. change (@fmap list list_fmap) with (@map). rewrite (sorted_by_map fst fst) by done. rewrite map_map. done.
Qed.

Lemma norm_evidence e : frozen 0 (ev_payload e) -> norm (evidence_json e) =
  JObj [(py "check_id", JStr (ev_check_id e)); (py "coverage", norm (cov_json (ev_coverage e)));
        (py "identity", JObj (id_json <$> sorted_by fst (ev_identity e))); (py "method", JStr (ev_method e));
        (py "method_version", JStr (ev_method_version e)); (py "payload", thawed (ev_payload e)); (py "phase", JStr (ev_phase e));
        (py "reasons", JArr ((fun p => norm (ref_json p)) <$> ev_reasons e)); (py "schema_version", JStr (ev_schema e));
        (py "status", JStr (ev_status e))].
Proof.
  intros Hf.
  assert (Hs : forall a b c d f h i j k l : json, sorted_by fst [(py "schema_version", a); (py "phase", b); (py "check_id", c);
      (py "status", d); (py "method", f); (py "method_version", h); (py "identity", i); (py "coverage", j); (py "reasons", k); (py "payload", l)]
    = [(py "check_id", c); (py "coverage", j); (py "identity", i); (py "method", f); (py "method_version", h); (py "payload", l);
       (py "phase", b); (py "reasons", k); (py "schema_version", a); (py "status", d)]) by done.
  unfold evidence_json. rewrite norm_obj, Hs. cbn [map fst snd]. rewrite norm_ids, (thawed_norm _ 0 Hf).
  assert (Hr : norm (JArr (ref_json <$> ev_reasons e)) = JArr ((fun p => norm (ref_json p)) <$> ev_reasons e)).
  { cbn [norm]. f_equal. change (@map) with (@fmap list _). by rewrite <- list_fmap_compose. }
  rewrite Hr. done.
Qed.

(** Evidence up to the order of its identity. *)
Definition same_evidence (e f : evidence) : Prop :=
  ev_phase e = ev_phase f /\ ev_check_id e = ev_check_id f /\ ev_status e = ev_status f /\ ev_method e = ev_method f /\
  ev_method_version e = ev_method_version f /\ ev_coverage e = ev_coverage f /\ ev_reasons e = ev_reasons f /\
  ev_identity e ≡ₚ ev_identity f /\ ev_payload e = ev_payload f /\ ev_schema e = ev_schema f.

Lemma cov_inj c d : norm (cov_json c) = norm (cov_json d) -> c = d.
Proof.
  rewrite !norm_cov. intros H. destruct c as [a1 b1 c1 d1 e1 f1 h1], d as [a2 b2 c2 d2 e2 f2 h2]. cbn in H.
  injection H as E1 E2 E3 E4 E5 E6 E7.
  assert (Hstrs : forall l k : list pystr, list_fmap _ _ JStr l = list_fmap _ _ JStr k -> l = k) by (intros l k E; apply strs_inj; by f_equal).
  f_equal; try (by apply Hstrs); try done.
  - apply (opt_json_inj JInt); [done|by intros a b [= ->]|done].
  - apply (opt_json_inj JStr); [done|by intros a b [= ->]|done].
Qed.

Lemma refs_inj (l k : list (pystr * pystr)) :
  (fun p => norm (ref_json p)) <$> l = (fun p => norm (ref_json p)) <$> k -> l = k.
Proof. apply list_fmap_eq_inj. intros [n c] [n' c']. rewrite !norm_ref. cbn. intros H. injection H. by intros -> ->. Qed.

Lemma norm_same_evidence e f :
  evidence_ok e -> evidence_ok f -> frozen 0 (ev_payload e) -> frozen 0 (ev_payload f) ->
  norm (evidence_json e) = norm (evidence_json f) <-> same_evidence e f.
Proof.
  intros He Hf Fe Ff. rewrite !norm_evidence by done. unfold same_evidence. split.
  - pose proof (cov_inj (ev_coverage e) (ev_coverage f)) as Hc. pose proof (refs_inj (ev_reasons e) (ev_reasons f)) as Hr.
    revert Hc Hr. generalize (norm (cov_json (ev_coverage e))) (norm (cov_json (ev_coverage f)))
      ((fun p => norm (ref_json p)) <$> ev_reasons e) ((fun p => norm (ref_json p)) <$> ev_reasons f).
    intros X Y R S Hc Hr H. injection H as E1 E2 E3 E4 E5 E6 E7 E8 E9 E10. split_and!; auto.
    + rewrite <- (sorted_by_perm fst (ev_identity e)), <- (sorted_by_perm fst (ev_identity f)).
      enough (sorted_by fst (ev_identity e) = sorted_by fst (ev_identity f)) as -> by done.
      revert E3. apply list_fmap_eq_inj. intros [k v] [k' v']. cbn. intros E. injection E. by intros -> ->.
    + by eapply thawed_inj.
  - intros (-> & -> & -> & -> & -> & -> & -> & Hi & -> & ->).
    rewrite (sorted_by_perm_eq fst (ev_identity e) (ev_identity f)); [done| |done].
    intros x y Hx Hy. apply (fst_determines (ev_identity e)); [apply He|done..].
Qed.

(** Objects with the same norm are written alike. *)
Lemma dumps_norm_inj {sp : spacing} u v : json_ok u -> json_ok v -> dumps u = dumps v -> norm u = norm v.
Proof.
  intros Hu Hv E. pose proof (loads_dumps u Hu) as H1. pose proof (loads_dumps v Hv) as H2. rewrite E in H1. congruence.
Qed.

Lemma dumps_norm {sp : spacing} v : json_ok v -> dumps (norm v) = dumps v.
Proof.
  induction v as [|b|n|f|s|l IH|d IH] using json_induction; intros Hok; try done.
  - cbn [norm dumps]. do 3 f_equal. rewrite map_map. cbn [json_ok] in Hok. apply foldr_and in Hok.
    apply List.map_ext_in. intros x Hx%list_elem_of_In. rewrite list.Forall_forall in *. auto.
  - apply json_ok_obj in Hok as (Hnd & _ & Hok). rewrite norm_obj, !dumps_obj. do 3 f_equal.
    rewrite (sorted_by_map fst fst) by done. rewrite (sorted_by_id fst (sorted_by fst d)), map_map.
    + apply List.map_ext_in. intros x Hx%list_elem_of_In. rewrite elem_of_sorted_by in Hx. unfold item. cbn [fst snd].
      rewrite list.Forall_forall in *. rewrite IH; auto.
    + by rewrite sorted_by_perm.
    + apply sorted_by_sorted.
Qed.

(** ** Freezing plain data *)

(** A JSON value as the lists and dictionaries a program holds it in. *)
Fixpoint json_dyn (j : json) : dyn :=
  match j with
  | JNull => DNone
  | JBool b => DBool b
  | JInt n => DInt n
  | JFloat f => DFloat f
  | JStr s => DStr s
  | JArr l => DList true (map json_dyn l)
  | JObj d => DMap (map (fun kv => (DStr kv.1, json_dyn kv.2)) d)
  end.

(** Within the limits: 64-bit integers, finite floats, bounded depth, distinct keys. *)
Fixpoint fits (depth : Z) (j : json) : Prop :=
  depth <= MAX_DEPTH /\
  match j with
  | JInt n => INT_MIN <= n <= INT_MAX
  | JFloat f => finite f = true
  | JArr l => foldr and True (map (fits (depth + 1)) l)
  | JObj d => NoDup d.*1 /\ foldr and True (map (fun kv => fits (depth + 1) kv.2) d)
  | _ => True
  end.

Fixpoint frozen_form (j : json) : dyn :=
  match j with
  | JNull => DNone
  | JBool b => DBool b
  | JInt n => DInt n
  | JFloat f => DFloat f
  | JStr s => DStr s
  | JArr l => DTuple true (map frozen_form l)
  | JObj d => DFrozenMap (sorted_by fst (map (fun kv => (kv.1, frozen_form kv.2)) d))
  end.

Lemma thawed_form j : thawed (frozen_form j) = norm j.
Proof.
  induction j as [|b|n|f|s|l IH|d IH] using json_induction; try done.
  - cbn [frozen_form thawed norm]. f_equal. rewrite map_map. apply List.map_ext_in. intros x Hx%list_elem_of_In.
    rewrite list.Forall_forall in IH. auto.
  - cbn [frozen_form thawed]. rewrite norm_obj. f_equal. rewrite (sorted_by_map fst fst) by done. rewrite map_map.
    apply List.map_ext_in. intros x Hx%list_elem_of_In. rewrite elem_of_sorted_by in Hx. rewrite list.Forall_forall in IH. cbn. f_equal. auto.
Qed.

Lemma frozen_form_frozen j : forall depth, fits depth j -> frozen depth (frozen_form j).
Proof.
  induction j as [|b|n|f|s|l IH|d IH] using json_induction; intros depth [Hd Hj]; try done.
  - cbn [frozen_form frozen]. split; [done|]. apply foldr_and in Hj. apply foldr_and. change (@map) with (@fmap list _). apply Forall_fmap.
    rewrite list.Forall_forall in *. intros x Hx. apply IH; [done|by apply Hj].
  - destruct Hj as [Hnd Hj]. cbn [frozen_form frozen]. split; [done|]. rewrite (sorted_by_map fst fst) by done.
    apply foldr_and in Hj. split; [|split].
    + change (@map) with (@fmap list _). rewrite <- list_fmap_compose. change (fst ∘ _) with (@fst pystr json). by rewrite sorted_by_perm.
    + rewrite <- (sorted_by_map fst fst) by done. apply sorted_by_sorted.
    + apply foldr_and. change (@map) with (@fmap list _). apply Forall_fmap. rewrite sorted_by_perm.
      rewrite list.Forall_forall in *. intros x Hx. apply IH; [done|by apply Hj].
Qed.

Lemma freeze_json j : forall depth, 0 <= depth -> fits depth j -> _freeze (json_dyn j) depth = Ok (frozen_form j).
Proof.
  induction j as [|b|n|f|s|l IH|d IH] using json_induction; intros depth H0 Hf; pose proof (frozen_form_frozen _ _ Hf) as Hfr; destruct Hf as [Hd Hj];
    try (cbn [json_dyn frozen_form] in *; by apply freeze_frozen).
  - cbn [json_dyn frozen_form _freeze]. rewrite (proj2 (check_depth_ok depth) Hd). cbn [mbind result_bind _is_scalar].
    apply foldr_and in Hj. rewrite (proj2 (map_res_Forall2 _ _ (map frozen_form l))); [done|].
    change (@map) with (@fmap list _). apply Forall2_fmap. rewrite Forall2_same_length_lookup. split; [done|]. intros i x y Hx Hy.
    assert (x = y) as -> by congruence. rewrite list.Forall_forall in *. apply list_elem_of_lookup_2 in Hx. apply IH; [done|lia|by apply Hj].
  - destruct Hj as [Hnd Hj]. apply foldr_and in Hj. cbn [json_dyn _freeze]. rewrite (proj2 (check_depth_ok depth) Hd). cbn [mbind result_bind _is_scalar].
    rewrite (proj2 (refuse_if_ok _ _)).
    2:{ apply negb_false_iff, forallb_forall. intros kv Hkv. apply List.in_map_iff in Hkv as (x & <- & _). done. }
    cbn [mbind result_bind]. apply contained_ok. rewrite map_map. cbn [fst snd str_of].
    rewrite (sorted_by_map fst fst (fun kv : pystr * json => (kv.1, _freeze (json_dyn kv.2) (depth + 1)))) by done.
    rewrite (named_all_ok (fun j => _freeze (json_dyn j) (depth + 1)) frozen_form).
    + cbn [mbind result_bind]. rewrite frozen_map_ok.
      * cbn [frozen_form]. f_equal. f_equal. rewrite <- (sorted_by_map fst fst (fun kv : pystr * json => (kv.1, frozen_form kv.2))) by done.
        apply sorted_by_id; [|apply sorted_by_sorted]. rewrite sorted_by_perm. change (@map) with (@fmap list _). by rewrite <- list_fmap_compose.
      * change (@map) with (@fmap list _). rewrite <- list_fmap_compose. change (fst ∘ _) with (@fst pystr json). by rewrite sorted_by_perm.
      * change (@map) with (@fmap list _). apply Forall_fmap. rewrite sorted_by_perm. rewrite list.Forall_forall in *. intros x Hx. cbn.
        eapply require_frozen_ok; [apply frozen_form_frozen, Hj, Hx|lia].
    + rewrite sorted_by_perm. rewrite list.Forall_forall in *. intros x Hx. apply IH; [done|lia|by apply Hj].
Qed.

Lemma fixed_text_in e : _fixed_text e ∈ _FIXED_TEXTS.
Proof.
  unfold _fixed_text. destruct (_ && existsb _ _) eqn:E; [|by_decide].
  apply andb_true_iff in E as [_ (t & Ht & Heq)%existsb_exists]. apply String.eqb_eq in Heq as ->. by apply list_elem_of_In.
Qed.

Lemma contained_fixed {A} (m : result A) e :
  _contained m = Err e -> exists t, e = PhaseContractError t /\ t ∈ _FIXED_TEXTS.
Proof. destruct m as [a|e']; [done|]. intros [= <-]. eexists. split; [done|apply fixed_text_in]. Qed.

(** A set is frozen without looking at the depth of its elements: one that lies at the
    limit is accepted, and the frozen value cannot be thawed. *)
Definition buried (wrap : dyn -> dyn) (v : dyn) : dyn := Nat.iter 64 wrap v.

Lemma buried_set :
  let w := buried (fun x => DTuple true [x]) (DTuple true [DInt 1]) in
  freeze (buried (fun x => DList true [x]) (DSet [DInt 1])) = Ok w /\ _thaw w 0 = refuse "phase evidence nested too deeply".
Proof. split; vm_compute; reflexivity. Qed.

(** C34: Freezing keeps JSON data: within the limits it always succeeds, the value it
    gives is immutable and frozen again is itself, and thawing gives the data back,
    objects sorted. The order of a mapping's entries does not matter, and whatever is
    refused is refused with one of the module's fixed texts. *)
Theorem freeze_lossless :
  (forall j, fits 0 j ->
     exists w, freeze (json_dyn j) = Ok w /\ frozen 0 w /\ freeze w = Ok w /\ _thaw w 0 = Ok (norm j)) /\
  (forall d d', d ≡ₚ d' -> NoDup d.*1 -> freeze (DMap d) = freeze (DMap d')) /\
  (forall v w, freeze v = Ok w -> sets_shallow 0 v -> frozen 0 w) /\
  (forall v e, freeze v = Err e -> exists t, e = PhaseContractError t /\ t ∈ _FIXED_TEXTS).
Proof.
  split; [|split; [|split]].
  - intros j Hj. pose proof (frozen_form_frozen j 0 Hj) as Hf. exists (frozen_form j). split; [|split; [done|split]].
    + apply contained_ok. by apply freeze_json.
    + apply contained_ok. by apply freeze_frozen.
    + rewrite (thaw_frozen _ _ Hf). by rewrite thawed_form.
  - intros d d' Hp Hnd. unfold freeze. f_equal. cbn [_freeze]. destruct (_check_depth 0); [|done]. cbn [mbind result_bind _is_scalar].
    assert (Hall : forallb (fun kv : dyn * dyn => is_str kv.1) d = forallb (fun kv => is_str kv.1) d').
    { apply eq_true_iff_eq. rewrite !forallb_forall. split; intros H x Hx; apply H; [by rewrite Hp|by rewrite <- Hp]. }
    rewrite <- Hall. destruct (forallb _ d) eqn:Es; [|done]. cbn [negb refuse_if raise_if mbind result_bind]. f_equal. f_equal. f_equal.
    apply sorted_by_perm_eq; [|change (@map) with (@fmap list _); by rewrite Hp].
    intros x y Hx Hy Hxy. apply list_elem_of_In in Hx, Hy.
    apply List.in_map_iff in Hx as (p & <- & Hp1). apply List.in_map_iff in Hy as (q & <- & Hq). cbn [fst] in Hxy.
    rewrite forallb_forall in Es. pose proof (Es p Hp1) as Ep. pose proof (Es q Hq) as Eq. apply list_elem_of_In in Hp1, Hq.
    assert (p = q) as ->; [|done]. apply (fst_determines d); [done..|]. destruct p as [[] ?], q as [[] ?]; try done. cbn in *. by subst.
  - intros v w H%contained_inv Hs. by apply (freeze_spec v 0 w H).
  - intros v e. apply contained_fixed.
Qed.

(** ** Canonical bytes and the gate *)

Lemma canonical_evidence e b :
  registry_ok g -> evidence_ok e -> maps_ok (ev_payload e) ->
  canonical_bytes g (Result (of_evidence e)) = Ok b ->
  frozen 0 (ev_payload e) /\ b = dumps (sp := compact) (evidence_json e).
Proof.
  intros Hk Hok Hm H%contained_inv. destruct (_wire g _) as [j|] eqn:Ew; [|done].
  destruct (proj2 (evidence_wire e Hk Hok Hm) j Ew) as (H1 & H2 & H3). split; [done|].
  rewrite (proj1 (evidence_wire e Hk Hok Hm) H1 H2 H3) in Ew. injection Ew as <-.
  cbn [mbind result_bind] in H. rewrite encode_ok in H. congruence.
Qed.

(** Two results carry the same evidence: the same fields, the identity in any order. *)
Definition same_result (r r' : PhaseResult) : Prop :=
  pr_phase r = pr_phase r' /\ pr_check_id r = pr_check_id r' /\ pr_status r = pr_status r' /\ pr_method r = pr_method r' /\
  pr_method_version r = pr_method_version r' /\ pr_coverage r = pr_coverage r' /\ pr_reasons r = pr_reasons r' /\
  items_of (pr_identity r) ≡ₚ items_of (pr_identity r') /\ pr_payload r = pr_payload r' /\
  pr_schema_version r = pr_schema_version r'.

Lemma dyn_strs_inj (l k : list pystr) : list_fmap _ _ DStr l = list_fmap _ _ DStr k -> l = k.
Proof. apply (list_fmap_eq_inj DStr). by intros a b [= ->]. Qed.

Lemma cov_dyn_inj c d : cov_dyn c = cov_dyn d -> c = d.
Proof.
  destruct c as [a1 b1 [c1|] d1 [e1|] f1 h1], d as [a2 b2 [c2|] d2 [e2|] f2 h2]; unfold cov_dyn; cbn; intros H; try discriminate;
    injection H; intros; subst; f_equal; by apply dyn_strs_inj.
Qed.

Lemma id_dyn_perm l k : id_dyn <$> l ≡ₚ id_dyn <$> k -> l ≡ₚ k.
Proof.
  intros H. set (f := fun v => match v with DTuple _ [DStr a; DStr b] => (a, b) | _ => ([], []) end).
  assert (Hf : forall l : list (pystr * pystr), f <$> (id_dyn <$> l) = l).
  { intros m. rewrite <- list_fmap_compose. etransitivity; [|apply list_fmap_id]. apply list_fmap_ext. by intros i [a b] _. }
  rewrite <- (Hf l), <- (Hf k). by rewrite H.
Qed.

Lemma same_result_evidence e f : same_result (of_evidence e) (of_evidence f) <-> same_evidence e f.
Proof.
  unfold same_result, same_evidence.
  cbn [of_evidence pr_phase pr_check_id pr_status pr_method pr_method_version pr_schema_version pr_coverage pr_reasons pr_identity pr_payload items_of].
  split.
  - intros (H1 & H2 & H3 & H4 & H5 & H6 & H7 & H8 & H9 & H10).
    split_and!; try congruence; [by apply cov_dyn_inj| |by apply id_dyn_perm].
    injection H7. apply (list_fmap_eq_inj ref_dyn). intros [a b] [c d] H. injection H. by intros -> ->.
  - intros (-> & -> & -> & -> & -> & -> & -> & H8 & -> & ->). split_and!; try done. by rewrite H8.
Qed.

(** C35: Canonical bytes identify the evidence: of two constructed results whose texts can
    be written, the bytes are equal exactly when every field agrees, coverage, reasons and
    payload included, and the identities are the same pairs in some order. *)
Theorem canonical_bytes_exact r0 r0' r r' b b' :
  registry_ok g ->
  new_result r0 = Ok r -> new_result r0' = Ok r' -> textual_result r -> textual_result r' ->
  canonical_bytes g (Result r) = Ok b -> canonical_bytes g (Result r') = Ok b' ->
  (b = b' <-> same_result r r').
Proof.
  intros Hk (e & -> & He & Fe)%new_result_evidence (f & -> & Hf & Ff)%new_result_evidence Te Tf Hb Hb'.
  apply contained_inv, freeze_spec in Fe as [Me _], Ff as [Mf _].
  apply canonical_evidence in Hb as [Fe ->], Hb' as [Ff ->]; try done.
  rewrite same_result_evidence, <- norm_same_evidence by done.
  pose proof (evidence_json_ok e He Fe Te) as Je. pose proof (evidence_json_ok f Hf Ff Tf) as Jf. split.
  - by apply dumps_norm_inj.
  - intros H. rewrite <- (dumps_norm (sp := compact) _ Je), <- (dumps_norm (sp := compact) _ Jf). by rewrite H.
Qed.

(** C36: The gate fails closed and never raises: it opens for a constructed result exactly
    when its status is [passed], its schema and phase are the known ones, every reason is
    registered and its payload keeps to the depth limit; a constructed result's payload
    does, unless it was given with a non-empty set at the limit. For anything that is not
    a result, or cannot be encoded, the gate is shut. *)
Theorem gate_exact :
  (forall item, exists open, satisfies_required_gate g item = Ok open /\
     (open = true -> exists r b, item = Result r /\ canonical_bytes g item = Ok b /\ pr_status r = DStr (py "passed"))) /\
  (registry_ok g -> forall r0 r, new_result r0 = Ok r ->
     (sets_shallow 0 (pr_payload r0) -> frozen 0 (pr_payload r)) /\
     (satisfies_required_gate g (Result r) = Ok true <->
      frozen 0 (pr_payload r) /\
      pr_status r = DStr (py "passed") /\ pr_schema_version r = DStr RESULT_SCHEMA /\
      (exists p, p ∈ PHASES /\ pr_phase r = DStr p) /\
      Forall (fun ref => exists n c, ref = DReason (DStr n) (DStr c) /\ is_Some (od_get (_SPECS g) (n, c))) (items_of (pr_reasons r)))).
Proof.
  split.
  - intros [r|e|]; unfold satisfies_required_gate; [|by exists false..].
    destruct (canonical_bytes g (Result r)) as [b|] eqn:E; [|by exists false]. eexists. split; [done|]. intros Hst%bool_decide_eq_true.
    exists r, b. split; [done|]. split; [done|]. apply contained_inv in E. cbn [_wire] in E. unfold result_wire in E.
    destruct (_check_result_fields r) as [[]|] eqn:Ec; [|done]. apply checked_evidence in Ec as (e & -> & _). cbn in *. by rewrite Hst.
  - intros Hk r0 r (e & -> & He & Fe)%new_result_evidence. apply contained_inv in Fe.
    destruct (freeze_spec _ _ _ Fe) as [Me Hfz]. split; [exact Hfz|]. clear Hfz. unfold satisfies_required_gate.
    change (pr_payload (of_evidence e)) with (ev_payload e).
    cbn [of_evidence pr_phase pr_status pr_schema_version pr_reasons items_of str_of]. fold (of_evidence e).
    assert (Hreasons : forallb known_reason (ev_reasons e) = true <->
      Forall (fun ref => exists n c, ref = DReason (DStr n) (DStr c) /\ is_Some (od_get (_SPECS g) (n, c))) (ref_dyn <$> ev_reasons e)).
    { rewrite forallb_forall, Forall_fmap, list.Forall_forall. unfold known_reason, od_has. split.
      - intros H [n c] Hx%list_elem_of_In. apply H in Hx. bool_prop. by exists n, c.
      - intros H [n c] Hx%list_elem_of_In. apply H in Hx as (n' & c' & Heq & Hs'). injection Heq as <- <-. by apply bool_decide_eq_true_2. }
    split.
    + destruct (canonical_bytes g _) as [b|] eqn:Eb; [|done]. intros H. injection H as Hst%bool_decide_eq_true.
      apply contained_inv in Eb. destruct (_wire g _) as [j|] eqn:Ew; [|done].
      destruct (proj2 (evidence_wire e Hk He Me) j Ew) as (H1 & H2 & H3). unfold header_ok in H1. bool_prop.
      split; [done|]. split; [congruence|]. split; [congruence|]. split; [by eexists|]. by apply Hreasons.
    + intros (Hfz & H1 & H2 & (p & Hp & H3) & H4). injection H1 as H1. injection H2 as H2. injection H3 as H3. apply Hreasons in H4.
      assert (Hw : _wire g (Result (of_evidence e)) = Ok (evidence_json e)).
      { apply (evidence_wire e Hk He Me); [|done..]. unfold header_ok. rewrite H1, H2, H3. rewrite (bool_decide_eq_true_2 (RESULT_SCHEMA = RESULT_SCHEMA)), (bool_decide_eq_true_2 (p ∈ PHASES)) by done. by_decide. }
      unfold canonical_bytes at 1. rewrite Hw. cbn [mbind result_bind]. rewrite encode_ok. cbn [_contained].
      by rewrite bool_decide_eq_true_2.
Qed.
End Contract.

(** ** A concrete instance *)

(** The two floats of the toy instance, [0.0] and [1.0]. *)
Definition toy_order : @FloatOrder toy_float := fun f : bool => if f then 1 else 0.

#[local] Existing Instances toy_float toy_float_laws toy_order.

(** A passed check with a registered reason, its identity given in one order or the other. *)
Definition sample (identity : list (dyn * dyn)) : PhaseResult :=
  MkResult (DStr (py "pre_scan")) (DStr (py "disk")) (DStr (py "passed")) (DStr (py "statvfs")) (DStr (py "1"))
    (DCoverage (DTuple true [DStr (py "out")]) (DTuple true []) (DInt 4) (DBool true) DNone (DTuple true []) (DTuple true []))
    (DList true [DReason (DStr (py "decoy")) (DStr (py "storage_capacity_exhausted"))])
    (DMap identity) (DMap [(DStr (py "free"), DInt 7); (DStr (py "big"), DSet [DStr (py "b"); DInt 2])])
    (DStr RESULT_SCHEMA).

Definition ev_sample (identity : list (pystr * pystr)) : evidence :=
  MkEv (py "pre_scan") (py "disk") (py "passed") (py "statvfs") (py "1") (MkCov [py "out"] [] (Some 4) true None [] [])
    [(py "decoy", py "storage_capacity_exhausted")] identity
    (DFrozenMap [(py "big", DTuple true [DInt 2; DStr (py "b")]); (py "free", DInt 7)]) RESULT_SCHEMA.
Definition one_way : list (pystr * pystr) := [(py "job", py "7"); (py "host", py "a")].
Definition other_way : list (pystr * pystr) := [(py "host", py "a"); (py "job", py "7")].
Definition given (identity : list (pystr * pystr)) : PhaseResult :=
  sample ((fun kv => (DStr kv.1, DStr kv.2)) <$> identity).
Definition sample_bytes : bytes := dumps (sp := compact) (evidence_json (ev_sample one_way)).

Lemma sample_made : new_result (given one_way) = Ok (of_evidence (ev_sample one_way)) /\
  new_result (given other_way) = Ok (of_evidence (ev_sample other_way)).
Proof. by split; vm_compute. Qed.

Lemma sample_written : canonical_bytes the_registry (Result (of_evidence (ev_sample one_way))) = Ok sample_bytes /\
  canonical_bytes the_registry (Result (of_evidence (ev_sample other_way))) = Ok sample_bytes.
Proof. by split; vm_compute. Qed.

Lemma sample_textual identity :
  forallb (fun kv => ascii_text kv.1 && ascii_text kv.2) identity = true -> textual_result (of_evidence (ev_sample identity)).
Proof.
  intros H. unfold textual_result. cbn [of_evidence ev_sample pr_phase pr_check_id pr_status pr_method pr_method_version pr_coverage
    pr_reasons pr_identity pr_payload pr_schema_version ev_phase ev_check_id ev_status ev_method ev_method_version ev_coverage
    ev_reasons ev_identity ev_payload ev_schema].
  assert (Hi : textual (DTuple true (id_dyn <$> identity))).
  { cbn [textual]. rewrite foldr_and, Forall_fmap. rewrite forallb_forall in H. apply list.Forall_forall. intros [k v] Hkv%list_elem_of_In%H.
    bool_prop. cbn. split_and!; by (done || apply ascii_text_ok). }
  split_and!; try exact Hi; cbn [textual map foldr fst snd cov_dyn scope_of ref_dyn opt_dyn c_requested c_observed c_limits c_omissions c_sampling fmap list_fmap];
    repeat first [exact I | apply List.Forall_nil | apply ascii_text_ok; vm_compute; reflexivity | apply List.Forall_cons | split].
Qed.

(** The two orders of the identity are the same evidence. *)
Lemma canonical_bytes_exact_witness :
  sample_bytes = sample_bytes <-> same_result (of_evidence (ev_sample one_way)) (of_evidence (ev_sample other_way)).
Proof.
  apply (canonical_bytes_exact the_registry (given one_way) (given other_way) _ _ _ _ (proj1 the_registry_ok)
    (proj1 sample_made) (proj2 sample_made)); [by apply sample_textual..|apply sample_written|apply sample_written].
Defined.

(** The sample passes the gate. *)
Lemma gate_exact_witness : satisfies_required_gate the_registry (Result (of_evidence (ev_sample one_way))) = Ok true.
Proof.
  destruct (proj2 (gate_exact the_registry) (proj1 the_registry_ok) (given one_way) _ (proj1 sample_made)) as [Hdepth Hopen].
  refine (proj2 Hopen _). split; [apply Hdepth; cbn; split_and!; try done; by right|].
  split; [done|]. split; [done|]. split; [exists (py "pre_scan"); split; [by left|done]|].
  apply List.Forall_cons; [|apply List.Forall_nil]. exists (py "decoy"), (py "storage_capacity_exhausted"). split; [done|]. by_decide.
Defined.
