(* ===== verification/Floats.v ===== *)
(** * Binary floating-point formats

    A finite float is the integer it is in units of its format's smallest subnormal, so
    order, rounding to nearest and [nextafter] are integer arithmetic. The sign of a zero
    is not kept: no comparison sees it. Used by subset/_seed.py for [float] and
    [numpy.float32]. *)

From S2P Require Import Prelude.
From Stdlib Require Import QArith Qround.
#[local] Open Scope Z_scope.

(** ** Formats and their values *)

(** [precision] bits, units of [2^-tiny], finite values below [2^huge]. *)
Record fformat := MkFormat { precision : Z; tiny : Z; huge : Z }.
Definition float64 : fformat := MkFormat 53 1074 1024.
Definition float32 : fformat := MkFormat 24 149 128.

Record format_ok (f : fformat) : Prop := {
  fo_precision : 1 <= precision f;
  fo_tiny : 0 <= tiny f;
  fo_huge : precision f <= huge f + tiny f;
}.

Inductive flt := FFin (z : Z) | FInf (negative : bool) | FNan.

#[global] Instance flt_eq_dec : EqDecision flt.
Proof. solve_decision. Defined.

Section Format.
Context (f : fformat).

Definition top : Z := 2 ^ (huge f + tiny f).
Definition unit_den : positive := Z.to_pos (2 ^ tiny f).
Definition fin_value (z : Z) : Q := z # unit_den.

(** [m * 2^j] units, [m] of at most [precision] bits. *)
Definition representable (z : Z) : Prop :=
  exists m j, 0 <= j /\ Z.abs m < 2 ^ precision f /\ z = m * 2 ^ j /\ Z.abs z < top.

Definition flt_ok (x : flt) : Prop := match x with FFin z => representable z | _ => True end.

(** The distance to the next value above a magnitude. *)
Definition gap (a : Z) : Z := 2 ^ Z.max 0 (Z.log2 a + 1 - precision f).

Definition maxfin : Z := top - 2 ^ (huge f + tiny f - precision f).

(** ** Neighbours *)

Definition next_unit (z : Z) : Z := if z <? 0 then z + gap (- z - 1) else z + gap z.

Definition flip (x : flt) : flt :=
  match x with FFin z => FFin (- z) | FInf neg => FInf (negb neg) | FNan => FNan end.

(** [nextafter(x, inf)] *)
Definition next_up (x : flt) : flt :=
  match x with
  | FFin z => if next_unit z <? top then FFin (next_unit z) else FInf false
  | FInf true => FFin (- maxfin)
  | _ => x
  end.

Definition nextafter (x : flt) (down : bool) : flt := if down then flip (next_up (flip x)) else next_up x.

(** ** Rounding to nearest, ties to even *)

Definition round_half_even (n d : Z) : Z :=
  let q := n / d in
  let r := n mod d in
  if 2 * r <? d then q else if d <? 2 * r then q + 1 else if Z.even q then q else q + 1.

Definition round_mag (n d : Z) : Z := let g := gap (n / d) in g * round_half_even n (d * g).
Definition round_units (n d : Z) : Z := if n <? 0 then - round_mag (- n) d else round_mag n d.

(** The float nearest to [n/d] units; beyond the finite ones, infinity. *)
Definition nearest (n d : Z) : flt :=
  let z := round_units n d in if Z.abs z <? top then FFin z else FInf (z <? 0).
End Format.

(** [float(q)] of a fraction: OverflowError is [None]. *)
Definition float_of (q : Q) : option flt :=
  match nearest float64 (Qnum q * 2 ^ tiny float64) (Z.pos (Qden q)) with FFin z => Some (FFin z) | _ => None end.

(** [ftype(x)] of a Python float: the same value, rounded to the format. *)
Definition np_cast (f : fformat) (x : flt) : flt :=
  match x with FFin z => nearest f (z * 2 ^ tiny f) (2 ^ tiny float64) | _ => x end.

(** The float next to a fraction from one side: the loop moves a first guess until it
    lies on that side. *)
Definition on_side (f : fformat) (b : Q) (down : bool) (x : flt) : result bool :=
  match x with
  | FInf neg => Ok (if down then neg else negb neg)
  | FFin z => Ok (if down then Qle_bool (fin_value f z) b else Qle_bool b (fin_value f z))
  | FNan => Err (exc "ValueError")
  end.

Fixpoint edge_loop (fuel : nat) (f : fformat) (b : Q) (down : bool) (x : flt) : result flt :=
  ok ← on_side f b down x;
  if (ok : bool) then Ok x else
  match fuel with
  | O => Err (exc "RecursionError")
  | S fuel' => edge_loop fuel' f b down (nextafter f x down)
  end.

(** ** Order *)

(** [x <= y] of floats that are not NaN. *)
Definition fle (x y : flt) : Prop :=
  match x, y with
  | FFin a, FFin b => a <= b
  | FInf true, _ | _, FInf false => x <> FNan /\ y <> FNan
  | _, _ => False
  end.

(** [x <= q] and [q <= x] against a rational, exactly. *)
Definition fle_q (f : fformat) (x : flt) (q : Q) : Prop :=
  match x with FFin z => fin_value f z <= q | FInf neg => neg = true | FNan => False end%Q.
Definition qle_f (f : fformat) (q : Q) (x : flt) : Prop :=
  match x with FFin z => q <= fin_value f z | FInf neg => neg = false | FNan => False end%Q.

Lemma format_float64 : format_ok float64.
Proof. by constructor. Qed.
Lemma format_float32 : format_ok float32.
Proof. by constructor. Qed.

(** ** Lemmas on one format *)

Section Theory.
Context (f : fformat) (Hf : format_ok f).

Lemma gap_exp a : exists j, 0 <= j /\ gap f a = 2 ^ j /\ j = Z.max 0 (Z.log2 a + 1 - precision f).
Proof. unfold gap. eexists. split; [|split; [done|done]]. lia. Qed.

Lemma gap_pos a : 0 < gap f a.
Proof. unfold gap. apply Z.pow_pos_nonneg; lia. Qed.

Lemma pow2_divide i j : 0 <= i <= j -> (2 ^ i | 2 ^ j).
Proof. intros H. exists (2 ^ (j - i)). rewrite <- Z.pow_add_r by lia. f_equal. lia. Qed.

(** A representable value is a multiple of the gap at any magnitude not above its own
    binade. *)
Lemma repr_multiple z a : representable f z -> 0 <= a -> Z.log2 a <= Z.log2 (Z.abs z) -> (gap f a | z).
Proof.
  intros (m & j & Hj & Hm & -> & _) Ha Hl. destruct (gap_exp a) as (i & Hi & -> & Ei).
  destruct (decide (m = 0)) as [->|Hm0]; [apply Z.divide_0_r|].
  apply Z.divide_mul_r, pow2_divide. split; [done|].
  assert (H2 : 0 < 2 ^ j) by (apply Z.pow_pos_nonneg; lia).
  assert (Z.log2 (Z.abs (m * 2 ^ j)) < precision f + j).
  { apply Z.log2_lt_pow2; [nia|]. rewrite Z.abs_mul, (Z.abs_eq (2 ^ j)), Z.pow_add_r by (destruct Hf; lia). nia. }
  lia.
Qed.

Lemma repr_above z a : representable f z -> 0 <= a <= Z.abs z -> (gap f a | z).
Proof. intros H Ha. apply repr_multiple; [done|lia|]. apply Z.log2_le_mono. lia. Qed.

Lemma multiples_apart g a b : 0 < g -> (g | a) -> (g | b) -> a < b -> a + g <= b.
Proof. intros Hg (x & ->) (y & ->) H. assert (x < y) by nia. nia. Qed.

(** The binade of a magnitude is a multiple of its gap. *)
Lemma gap_binade a : 0 < a -> (gap f a | 2 ^ Z.log2 a).
Proof.
  intros Ha. destruct (gap_exp a) as (i & Hi & -> & Ei). apply pow2_divide. pose proof (Z.log2_nonneg a). destruct Hf. lia.
Qed.

Lemma gap_one a : 0 <= a -> gap f a = 1 \/ (0 < a /\ gap f a = 2 ^ (Z.log2 a + 1 - precision f) /\ 0 < Z.log2 a + 1 - precision f).
Proof.
  intros Ha. unfold gap. destruct (decide (0 < Z.log2 a + 1 - precision f)) as [H|H].
  - right. split; [|split; [f_equal; lia|done]]. destruct (decide (a = 0)) as [->|]; [|lia]. cbn in H. destruct Hf. lia.
  - left. rewrite Z.max_l by lia. done.
Qed.

(** Nothing representable lies between a value and the one above it. *)
Lemma above_next z w : representable f z -> representable f w -> z < w -> next_unit f z <= w.
Proof.
  intros Hz Hw Hlt. unfold next_unit. destruct (z <? 0) eqn:Es; bool_prop.
  2:{ apply multiples_apart; [apply gap_pos|apply repr_above; [done|lia]..|done]. }
  set (a := - z - 1). assert (Ha : 0 <= a) by lia. pose proof (gap_pos a) as Hg.
  destruct (gap_one a Ha) as [->|(Ha0 & Eg & Hp)]; [lia|].
  assert (Hdz : (gap f a | z)) by (apply repr_above; [done|lia]).
  pose proof (Z.log2_spec a Ha0) as [HL _]. pose proof (gap_binade a Ha0) as Hb.
  assert (Hz' : 2 ^ Z.log2 a + gap f a <= - z) by (apply multiples_apart; [done|done|by apply Z.divide_opp_r|lia]).
  destruct (Z.le_gt_cases (z + gap f a) w) as [|Hgt]; [done|]. exfalso.
  assert (Hdw : (gap f a | w)).
  { apply repr_multiple; [done|lia|]. rewrite <- (Z.log2_pow2 (Z.log2 a)) by apply Z.log2_nonneg. apply Z.log2_le_mono. lia. }
  pose proof (multiples_apart (gap f a) z w Hg Hdz Hdw Hlt). lia.
Qed.

Lemma above_gt z : z < next_unit f z.
Proof. unfold next_unit. pose proof (gap_pos z). pose proof (gap_pos (- z - 1)). destruct (z <? 0); lia. Qed.

(** A short multiple of a gap is representable. *)
Lemma repr_of_multiple k j : 0 <= j -> Z.abs k <= 2 ^ precision f -> Z.abs (k * 2 ^ j) < top f -> representable f (k * 2 ^ j).
Proof.
  intros Hj Hk Ht. destruct (decide (Z.abs k < 2 ^ precision f)) as [|He]; [by exists k, j|].
  assert (Hp : 2 ^ precision f = 2 * 2 ^ (precision f - 1)).
  { rewrite <- Z.pow_succ_r by (destruct Hf; lia). f_equal. lia. }
  assert (0 < 2 ^ (precision f - 1)) by (apply Z.pow_pos_nonneg; destruct Hf; lia).
  exists (Z.sgn k * 2 ^ (precision f - 1)), (j + 1). split; [lia|]. split; [|split; [|done]].
  - rewrite Z.abs_mul, (Z.abs_eq (2 ^ _)) by lia. destruct k; cbn [Z.sgn Z.abs]; lia.
  - assert (Ek : k = Z.sgn k * (2 * 2 ^ (precision f - 1))) by (destruct k; cbn [Z.sgn Z.abs] in *; lia).
    rewrite Ek at 1. rewrite Z.pow_add_r by lia. lia.
Qed.

Lemma repr_opp z : representable f z -> representable f (- z).
Proof. intros (m & j & Hj & Hm & -> & Ht). exists (- m), j. rewrite !Z.abs_opp. split_and!; [done|lia|lia|done]. Qed.

Lemma repr_0 : representable f 0.
Proof. exists 0, 0. destruct Hf. split_and!; try done; cbn; apply Z.pow_pos_nonneg; lia. Qed.

Lemma above_opp z : z < 0 -> next_unit f z = - (- z - gap f (- z - 1)).
Proof. intros H. unfold next_unit. replace (z <? 0) with true by lia. lia. Qed.

Lemma quotient_short a : 0 <= a -> a / gap f a < 2 ^ precision f.
Proof.
  intros Ha. apply Z.div_lt_upper_bound; [apply gap_pos|]. destruct (gap_exp a) as (j & Hj & -> & Ej).
  rewrite <- Z.pow_add_r by (destruct Hf; lia). destruct (decide (a = 0)) as [->|]; [apply Z.pow_pos_nonneg; destruct Hf; lia|].
  pose proof (Z.log2_spec a ltac:(lia)) as [_ H]. eapply Z.lt_le_trans; [exact H|]. apply Z.pow_le_mono_r; lia.
Qed.

(** The value above is representable, up to overflow. *)
Lemma above_repr z : representable f z -> next_unit f z < top f -> representable f (next_unit f z).
Proof.
  intros Hz Ht. destruct (Z.lt_ge_cases z 0) as [Hs|Hs].
  - rewrite above_opp in * by done. apply repr_opp. set (a := - z - 1) in *.
    assert (Hd : (gap f a | - z)) by (apply Z.divide_opp_r, repr_above; [done|lia]). destruct Hd as [k Hk].
    pose proof (quotient_short a ltac:(lia)) as Hq. pose proof (gap_pos a) as Hg. destruct (gap_exp a) as (j & Hj & Eg & _).
    assert (Ek : k - 1 = a / gap f a) by (apply Z.div_unique with (gap f a - 1); lia).
    assert (Hzt : Z.abs z < top f) by (by destruct Hz as (? & ? & ? & ? & ? & ?)).
    replace (- z - gap f a) with ((k - 1) * 2 ^ j) by (rewrite <- Eg; lia). apply repr_of_multiple; [done| |]; [nia|]. rewrite <- Eg. nia.
  - unfold next_unit in *. replace (z <? 0) with false in * by lia.
    assert (Hd : (gap f z | z)) by (apply repr_above; [done|lia]). destruct Hd as [k Hk].
    pose proof (quotient_short z ltac:(lia)) as Hq. pose proof (gap_pos z) as Hg. destruct (gap_exp z) as (j & Hj & Eg & _).
    assert (Ek : k = z / gap f z) by (apply Z.div_unique with 0; lia).
    replace (z + gap f z) with ((k + 1) * 2 ^ j) in * by (rewrite <- Eg; lia). apply repr_of_multiple; [done| |]; nia.
Qed.

(** *** Rounding *)

Lemma half_even_bounds n d k : 0 < d ->
  (k * d <= n -> k <= round_half_even n d) /\ (n <= k * d -> round_half_even n d <= k).
Proof.
  intros Hd. unfold round_half_even. pose proof (Z.div_mod n d ltac:(lia)) as E. pose proof (Z.mod_pos_bound n d Hd) as Hr.
  set (q := n / d) in *. set (r := n mod d) in *. split; intros H.
  - assert (k <= q) by nia. destruct (2 * r <? d), (d <? 2 * r), (Z.even q); lia.
  - destruct (decide (r = 0)) as [Hr0|Hr0]; [rewrite Hr0; replace (2 * 0 <? d) with true by lia; nia|].
    assert (q + 1 <= k) by nia. destruct (2 * r <? d), (d <? 2 * r), (Z.even q); lia.
Qed.

(** Rounding a magnitude never crosses a representable one. *)
Lemma round_mag_low n d r : 0 <= n -> 0 < d -> representable f r -> r * d <= n -> r <= round_mag f n d.
Proof.
  intros Hn Hd Hr H. unfold round_mag. set (a := n / d). pose proof (gap_pos a) as Hg.
  assert (Hra : r <= a) by (apply Z.div_le_lower_bound; lia).
  assert (Ha : 0 <= a) by (apply Z.div_pos; lia).
  assert (Hdg : 0 < d * gap f a) by lia.
  assert (Hkey : forall m, (gap f a | m) -> m <= a -> m <= gap f a * round_half_even n (d * gap f a)).
  { intros m [k ->] Hm. rewrite Z.mul_comm. apply Z.mul_le_mono_nonneg_l; [lia|]. apply half_even_bounds; [done|].
    pose proof (Z.mul_div_le n d Hd). fold a in H0. nia. }
  destruct (Z.le_gt_cases r 0) as [Hr0|Hr0].
  { pose proof (Hkey 0 (Z.divide_0_r _) Ha). lia. }
  destruct (Z.le_gt_cases (Z.log2 a) (Z.log2 r)) as [Hl|Hl].
  - apply Hkey; [|done]. apply repr_multiple; [done|done|]. by rewrite Z.abs_eq by lia.
  - assert (Ha0 : 0 < a) by lia. pose proof (Z.log2_spec a Ha0) as [HL _]. pose proof (Hkey _ (gap_binade a Ha0) HL).
    assert (r < 2 ^ Z.log2 a) by (apply Z.log2_lt_pow2; lia). lia.
Qed.

Lemma round_mag_high n d r : 0 <= n -> 0 < d -> representable f r -> n <= r * d -> round_mag f n d <= r.
Proof.
  intros Hn Hd Hr H. unfold round_mag. set (a := n / d). pose proof (gap_pos a) as Hg.
  assert (Ha : 0 <= a) by (apply Z.div_pos; lia).
  assert (Har : a <= r) by (apply Z.div_le_upper_bound; lia).
  destruct (repr_above r a Hr) as [k ->]; [lia|]. rewrite (Z.mul_comm k). apply Z.mul_le_mono_nonneg_l; [lia|].
  apply half_even_bounds; nia.
Qed.

Lemma round_mag_nonneg n d : 0 <= n -> 0 < d -> 0 <= round_mag f n d.
Proof. intros Hn Hd. apply round_mag_low; [done|done|apply repr_0|lia]. Qed.

Lemma round_low n d r : 0 < d -> representable f r -> r * d <= n -> r <= round_units f n d.
Proof.
  intros Hd Hr H. unfold round_units. destruct (n <? 0) eqn:E; bool_prop; [|by apply round_mag_low].
  apply repr_opp in Hr. pose proof (round_mag_high (- n) d (- r) ltac:(lia) Hd Hr ltac:(lia)). lia.
Qed.

Lemma round_high n d r : 0 < d -> representable f r -> n <= r * d -> round_units f n d <= r.
Proof.
  intros Hd Hr H. unfold round_units. destruct (n <? 0) eqn:E; bool_prop; [|by apply round_mag_high].
  apply repr_opp in Hr. pose proof (round_mag_low (- n) d (- r) ltac:(lia) Hd Hr ltac:(lia)). lia.
Qed.

Lemma round_sign n d : 0 < d -> (n < 0 -> round_units f n d <= 0) /\ (0 <= n -> 0 <= round_units f n d).
Proof. intros Hd. split; intros H; [apply round_high|apply round_low]; try done; try apply repr_0; lia. Qed.

Lemma round_repr n d : 0 < d -> Z.abs (round_units f n d) < top f -> representable f (round_units f n d).
Proof.
  intros Hd. assert (Hm : forall n, 0 <= n -> round_mag f n d < top f -> representable f (round_mag f n d)).
  { intros m Hn Ht. pose proof (round_mag_nonneg m d Hn Hd) as H0. unfold round_mag in *. set (a := m / d) in *.
    assert (Ha : 0 <= a) by (apply Z.div_pos; lia). pose proof (quotient_short a Ha) as Hq. pose proof (gap_pos a) as Hg.
    destruct (gap_exp a) as (j & Hj & Eg & _). assert (Hdg : 0 < d * gap f a) by lia.
    rewrite (Z.mul_comm (gap f a)) in *. set (k := round_half_even m (d * gap f a)) in *. rewrite Eg. rewrite Eg in Ht, H0.
    assert (Hk : k <= 2 ^ precision f).
    { apply half_even_bounds; [done|]. assert (a < 2 ^ precision f * gap f a) by (apply Z.div_lt_upper_bound in Hq || (pose proof (Z.div_mod a (gap f a)); pose proof (Z.mod_pos_bound a (gap f a) Hg); nia); lia).
      assert (m < (a + 1) * d) by (unfold a; pose proof (Z.div_mod m d); pose proof (Z.mod_pos_bound m d Hd); nia). nia. }
    apply repr_of_multiple; [done|nia|rewrite Z.abs_eq; lia]. }
  unfold round_units. destruct (n <? 0) eqn:E; bool_prop; intros Ht.
  - apply repr_opp, Hm; [lia|]. pose proof (round_mag_nonneg (- n) d). lia.
  - apply Hm; [done|]. pose proof (round_mag_nonneg n d). lia.
Qed.

(** *** The largest value, and neighbours *)

Lemma top_split : top f = 2 ^ precision f * 2 ^ (huge f + tiny f - precision f).
Proof. unfold top. rewrite <- Z.pow_add_r by (destruct Hf; lia). f_equal. lia. Qed.

Lemma maxfin_repr : representable f (maxfin f).
Proof.
  unfold maxfin. rewrite top_split. set (u := huge f + tiny f - precision f). assert (Hu : 0 <= u) by (unfold u; destruct Hf; lia).
  assert (0 < 2 ^ u) by (by apply Z.pow_pos_nonneg). assert (0 < 2 ^ precision f) by (apply Z.pow_pos_nonneg; destruct Hf; lia).
  replace (2 ^ precision f * 2 ^ u - 2 ^ u) with ((2 ^ precision f - 1) * 2 ^ u) by lia.
  apply repr_of_multiple; [done|lia|]. rewrite top_split. fold u. rewrite Z.abs_eq by nia. nia.
Qed.

Lemma repr_max z : representable f z -> Z.abs z <= maxfin f.
Proof.
  intros Hz. assert (Hz' : representable f (Z.abs z)).
  { destruct (Z.abs_eq_or_opp z) as [->| ->]; [done|by apply repr_opp]. }
  assert (Ht : Z.abs z < top f) by (by destruct Hz as (? & ? & ? & ? & ? & ?)).
  destruct (Z.le_gt_cases (Z.abs z) (maxfin f)) as [|Hgt]; [done|]. exfalso.
  pose proof (above_next (maxfin f) (Z.abs z) maxfin_repr Hz' Hgt) as H. unfold next_unit in H.
  assert (Hm : 2 ^ (huge f + tiny f - 1) <= maxfin f).
  { unfold maxfin, top. destruct Hf. replace (huge f + tiny f) with (Z.succ (huge f + tiny f - 1)) at 2 by lia. rewrite Z.pow_succ_r by lia.
    enough (2 ^ (huge f + tiny f - precision f) <= 2 ^ (huge f + tiny f - 1)) by lia. apply Z.pow_le_mono_r; lia. }
  assert (Hp : 0 < 2 ^ (huge f + tiny f - 1)) by (apply Z.pow_pos_nonneg; destruct Hf; lia).
  replace (maxfin f <? 0) with false in H by lia.
  assert (Hl : huge f + tiny f - 1 <= Z.log2 (maxfin f)) by (apply Z.log2_le_pow2; lia).
  assert (2 ^ (huge f + tiny f - precision f) <= gap f (maxfin f)) by (unfold gap; apply Z.pow_le_mono_r; lia).
  unfold maxfin in *. lia.
Qed.

Lemma fin_value_le a b : (fin_value f a <= fin_value f b)%Q <-> a <= b.
Proof. unfold Qle, fin_value. cbn. pose proof (Pos2Z.is_pos (unit_den f)). nia. Qed.

Lemma next_up_ok x : flt_ok f x -> flt_ok f (next_up f x).
Proof.
  destruct x as [z|[]|]; cbn; try done; intros H.
  - destruct (next_unit f z <? top f) eqn:E; [|done]. bool_prop. by apply above_repr.
  - apply repr_opp, maxfin_repr.
Qed.

Lemma flip_ok x : flt_ok f x -> flt_ok f (flip x).
Proof. destruct x; cbn; try done. apply repr_opp. Qed.
Lemma flip_flip x : flip (flip x) = x.
Proof. destruct x as [|[]|]; cbn; f_equal; lia. Qed.
Lemma fle_flip x y : fle (flip x) (flip y) <-> fle y x.
Proof. destruct x as [|[]|], y as [|[]|]; cbn; try naive_solver. lia. Qed.

(** *** The edge on one side of a fraction *)

(** A guess that no value separates from the fraction. *)
Record near (b : Q) (x : flt) : Prop := {
  near_ok : flt_ok f x;
  near_num : x <> FNan;
  near_low z : representable f z -> (fin_value f z <= b)%Q -> fle (FFin z) x;
  near_high z : representable f z -> (b <= fin_value f z)%Q -> fle x (FFin z);
}.

(** The greatest value not above the fraction. *)
Record floor_of (b : Q) (x : flt) : Prop := {
  fl_ok : flt_ok f x;
  fl_le : fle_q f x b;
  fl_greatest y : flt_ok f y -> fle_q f y b -> fle y x;
}.

Lemma Qle_total_lt (a b : Q) : ~ (a <= b)%Q -> (b <= a)%Q /\ ~ (a <= b)%Q.
Proof. intros H. split; [|done]. apply Qlt_le_weak. by apply Qnot_le_lt. Qed.

Lemma floor_edge fuel b x : (0 < fuel)%nat -> near b x -> exists w, edge_loop fuel f b true x = Ok w /\ floor_of b w.
Proof.
  intros Hfuel [Hok Hn Hlow Hhigh]. destruct fuel as [|fuel]; [lia|].
  assert (Hstop : forall fuel w, fle_q f w b -> edge_loop fuel f b true w = Ok w).
  { intros k [z|[]|] Hw; try done; [|by destruct k]. destruct k; cbn; by rewrite (proj2 (Qle_bool_iff _ _) Hw). }
  destruct x as [z|[]|]; try done.
  - destruct (Qle_bool (fin_value f z) b) eqn:E.
    + apply Qle_bool_iff in E. exists (FFin z). split; [by apply Hstop|]. split; [done|done|]. intros [u|[]|] Hu Hle; try done. by apply Hlow.
    + assert (Hzb : ~ (fin_value f z <= b)%Q) by (intros H; apply Qle_bool_iff in H; congruence).
      cbn [edge_loop on_side mbind result_bind]. rewrite E.
      assert (Hbelow : forall u, representable f u -> (fin_value f u <= b)%Q -> next_unit f (- z) <= - u).
      { intros u Hu Hle. pose proof (Hlow u Hu Hle) as H. cbn in H. apply above_next; [by apply repr_opp..|].
        assert (u <> z) by (by intros ->). lia. }
      unfold nextafter, flip, next_up. pose proof (above_gt (- z)) as Hgt. destruct (next_unit f (- z) <? top f) eqn:Et; bool_prop.
      * assert (Hr : representable f (- next_unit f (- z))) by (apply repr_opp, above_repr; [by apply repr_opp|done]).
        assert (Hle : fle_q f (FFin (- next_unit f (- z))) b).
        { cbn. destruct (Qlt_le_dec b (fin_value f (- next_unit f (- z)))) as [H|H]; [|done]. exfalso.
          pose proof (Hhigh _ Hr (Qlt_le_weak _ _ H)) as Hz. cbn in Hz. lia. }
        eexists. split; [by apply Hstop|]. split; [done|done|]. intros [u|[]|] Hu Hub; try done. cbn. pose proof (Hbelow u Hu Hub). lia.
      * eexists. split; [by apply Hstop|]. split; [done|done|]. intros [u|[]|] Hu Hub; try done. exfalso.
        pose proof (Hbelow u Hu Hub). pose proof (repr_max u Hu). unfold maxfin in *. assert (0 < 2 ^ (huge f + tiny f - precision f)) by (apply Z.pow_pos_nonneg; destruct Hf; lia). lia.
  - exists (FInf true). split; [by apply Hstop|]. split; [done|done|]. intros [u|[]|] Hu Hub; try done. exact (Hlow u Hu Hub).
  - cbn [edge_loop on_side mbind result_bind nextafter flip negb next_up]. rewrite Z.opp_involutive. exists (FFin (maxfin f)). 
    assert (Hle : fle_q f (FFin (maxfin f)) b).
    { cbn. destruct (Qlt_le_dec b (fin_value f (maxfin f))) as [H|H]; [|done]. exfalso. by destruct (Hhigh _ maxfin_repr (Qlt_le_weak _ _ H)). }
    split; [by apply Hstop|]. split; [apply maxfin_repr|done|]. intros [u|[]|] Hu Hub; try done. cbn. pose proof (repr_max u Hu). lia.
Qed.

(** The least value not below the fraction. *)
Record ceiling_of (b : Q) (x : flt) : Prop := {
  ce_ok : flt_ok f x;
  ce_ge : qle_f f b x;
  ce_least y : flt_ok f y -> qle_f f b y -> fle x y;
}.

Lemma fin_value_opp z : (fin_value f (- z) == - fin_value f z)%Q.
Proof. unfold fin_value, Qeq. cbn. lia. Qed.

Lemma fin_opp_le z b : (fin_value f (- z) <= - b)%Q <-> (b <= fin_value f z)%Q.
Proof. rewrite fin_value_opp. unfold Qle, fin_value. cbn. split; lia. Qed.
Lemma opp_fin_le z b : (- b <= fin_value f (- z))%Q <-> (fin_value f z <= b)%Q.
Proof. rewrite fin_value_opp. unfold Qle, fin_value. cbn. split; lia. Qed.

Lemma near_flip b x : near b x -> near (- b) (flip x).
Proof.
  intros [Hok Hn Hl Hh]. constructor; [by apply flip_ok|by destruct x|..]; intros z Hz Hle.
  - rewrite <- (Z.opp_involutive z). change (FFin (- - z)) with (flip (FFin (- z))). apply fle_flip, Hh; [by apply repr_opp|].
    apply fin_opp_le. by rewrite Z.opp_involutive.
  - rewrite <- (Z.opp_involutive z). change (FFin (- - z)) with (flip (FFin (- z))). apply fle_flip, Hl; [by apply repr_opp|].
    apply opp_fin_le. by rewrite Z.opp_involutive.
Qed.

Lemma Qle_bool_iff_eq a b c d : ((a <= b)%Q <-> (c <= d)%Q) -> Qle_bool a b = Qle_bool c d.
Proof. intros H. apply eq_true_iff_eq. by rewrite !Qle_bool_iff. Qed.

Lemma side_flip b x : on_side f (- b) true (flip x) = on_side f b false x.
Proof. destruct x as [z|[]|]; try done. cbn. f_equal. apply Qle_bool_iff_eq. apply fin_opp_le. Qed.

Lemma edge_flip fuel b x : edge_loop fuel f b false x = (w ← edge_loop fuel f (- b) true (flip x); Ok (flip w)).
Proof.
  revert x. induction fuel as [|fuel IH]; intros x; cbn [edge_loop]; rewrite side_flip; destruct (on_side f b false x) as [[]|];
    cbn [mbind result_bind]; rewrite ?flip_flip; try done.
  rewrite IH. unfold nextafter. by rewrite flip_flip.
Qed.

Lemma qle_flip b x : fle_q f x (- b) <-> qle_f f b (flip x).
Proof.
  destruct x as [z|[]|]; try done. cbn. rewrite <- (Z.opp_involutive z) at 1. apply fin_opp_le.
Qed.

Lemma ceiling_edge fuel b x : (0 < fuel)%nat -> near b x -> exists w, edge_loop fuel f b false x = Ok w /\ ceiling_of b w.
Proof.
  intros Hfuel H. destruct (floor_edge fuel (- b) (flip x) Hfuel (near_flip b x H)) as (w & Hw & [H1 H2 H3]).
  exists (flip w). rewrite edge_flip, Hw. split; [done|]. split; [by apply flip_ok|by apply qle_flip|].
  intros y Hy Hb. rewrite <- (flip_flip y). apply fle_flip, H3; [by apply flip_ok|]. apply qle_flip. by rewrite flip_flip.
Qed.

(** *** Rounding gives such a guess *)

Lemma unit_den_val : Z.pos (unit_den f) = 2 ^ tiny f.
Proof. unfold unit_den. rewrite Z2Pos.id; [done|]. apply Z.pow_pos_nonneg; [lia|apply Hf]. Qed.

Lemma fin_value_below z b : (fin_value f z <= b)%Q <-> z * Z.pos (Qden b) <= Qnum b * 2 ^ tiny f.
Proof. unfold Qle, fin_value. cbn [Qnum Qden]. by rewrite unit_den_val. Qed.
Lemma fin_value_above z b : (b <= fin_value f z)%Q <-> Qnum b * 2 ^ tiny f <= z * Z.pos (Qden b).
Proof. unfold Qle, fin_value. cbn [Qnum Qden]. by rewrite unit_den_val. Qed.

Lemma top_gt_max z : representable f z -> Z.abs z < top f.
Proof. by intros (? & ? & ? & ? & ? & ?). Qed.

Lemma nearest_near b n d : 0 < d ->
  (forall z, representable f z -> (fin_value f z <= b)%Q -> z * d <= n) ->
  (forall z, representable f z -> (b <= fin_value f z)%Q -> n <= z * d) -> near b (nearest f n d).
Proof.
  intros Hd Hlow Hhigh. unfold nearest. set (z := round_units f n d). destruct (Z.abs z <? top f) eqn:Et; bool_prop.
  - constructor; [by apply round_repr|done|..]; intros u Hu Hub; cbn; [apply round_low|apply round_high]; auto.
  - assert (0 < top f) by (unfold top; apply Z.pow_pos_nonneg; destruct Hf; lia).
    constructor; [done|done|..]; intros u Hu Hub; pose proof (top_gt_max u Hu).
    + pose proof (round_low n d u Hd Hu (Hlow u Hu Hub)) as H'. fold z in H'. destruct (Z.ltb_spec z 0); [|done]. exfalso. lia.
    + pose proof (round_high n d u Hd Hu (Hhigh u Hu Hub)) as H'. fold z in H'. destruct (Z.ltb_spec z 0); [done|]. exfalso. lia.
Qed.

Lemma nearest_q b : near b (nearest f (Qnum b * 2 ^ tiny f) (Z.pos (Qden b))).
Proof. apply nearest_near; [done|intros z _; apply fin_value_below|intros z _; apply fin_value_above]. Qed.
End Theory.

(** *** Through the wider format *)

(** The finite values of [f] are [float64]s. *)
Record within64 (f : fformat) : Prop := {
  w_ok : format_ok f;
  w_precision : precision f <= 53;
  w_tiny : tiny f <= 1074;
  w_huge : huge f <= 1024;
}.

Lemma within64_float64 : within64 float64.
Proof. by constructor. Qed.
Lemma within64_float32 : within64 float32.
Proof. by constructor. Qed.

Lemma widen f z : within64 f -> representable f z -> representable float64 (z * 2 ^ (1074 - tiny f)).
Proof.
  intros [Hf Hp Ht Hh] (m & j & Hj & Hm & -> & Hz). exists m, (j + (1074 - tiny f)). split; [lia|]. split; [|split].
  - eapply Z.lt_le_trans; [exact Hm|]. apply Z.pow_le_mono_r; [lia|done].
  - rewrite Z.pow_add_r by lia. lia.
  - rewrite Z.abs_mul, (Z.abs_eq (2 ^ _)) by (apply Z.pow_nonneg; lia). unfold top in *. cbn [huge tiny float64].
    eapply Z.lt_le_trans; [apply Z.mul_lt_mono_pos_r; [apply Z.pow_pos_nonneg; lia|exact Hz]|].
    rewrite <- Z.pow_add_r by (destruct Hf; lia). apply Z.pow_le_mono_r; lia.
Qed.

Lemma widen_value f z : within64 f -> (fin_value float64 (z * 2 ^ (1074 - tiny f)) == fin_value f z)%Q.
Proof.
  intros [Hf Hp Ht Hh]. unfold Qeq, fin_value. cbn [Qnum Qden]. rewrite !unit_den_val by done || apply format_float64.
  cbn [tiny float64]. rewrite <- Z.mul_assoc, <- Z.pow_add_r by (destruct Hf; lia). f_equal. f_equal. lia.
Qed.

Lemma cast_near f b x : within64 f -> near float64 b x -> near f b (np_cast f x).
Proof.
  intros Hw [Hok Hn Hl Hh]. pose proof (w_ok f Hw) as Hf.
  assert (E : 2 ^ tiny float64 = 2 ^ (1074 - tiny f) * 2 ^ tiny f).
  { cbn [tiny float64]. rewrite <- Z.pow_add_r; [f_equal; lia|destruct Hw; lia|apply Hf]. }
  assert (Hp : 0 < 2 ^ tiny f) by (apply Z.pow_pos_nonneg; [lia|apply Hf]).
  assert (Hlow : forall u, representable f u -> (fin_value f u <= b)%Q -> fle (FFin (u * 2 ^ (1074 - tiny f))) x).
  { intros u Hu Hub. apply Hl; [by apply widen|]. by rewrite widen_value. }
  assert (Hhigh : forall u, representable f u -> (b <= fin_value f u)%Q -> fle x (FFin (u * 2 ^ (1074 - tiny f)))).
  { intros u Hu Hub. apply Hh; [by apply widen|]. by rewrite widen_value. }
  destruct x as [z|neg|]; [|constructor; [done|done|..]; intros u Hu Hub|done].
  - cbn [np_cast]. apply nearest_near; [done|by apply Z.pow_pos_nonneg| |].
    + intros u Hu Hub. pose proof (Hlow u Hu Hub) as H. cbn [fle] in H. rewrite E. nia.
    + intros u Hu Hub. pose proof (Hhigh u Hu Hub) as H. cbn [fle] in H. rewrite E. nia.
  - specialize (Hlow u Hu Hub). by destruct neg.
  - specialize (Hhigh u Hu Hub). by destruct neg.
Qed.

(** An overflowing fraction is replaced by the infinity of its sign. *)
Lemma float_of_near b :
  near float64 b (match float_of b with Some x => x | None => FInf (Qle_bool b 0) end).
Proof.
  pose proof (nearest_q float64 format_float64 b) as H. unfold float_of.
  remember (nearest float64 (Qnum b * 2 ^ tiny float64) (Z.pos (Qden b))) as x eqn:Ex. destruct x as [z|neg|]; [done| |by destruct H].
  enough (Qle_bool b 0 = neg) as -> by done. unfold nearest in Ex.
  destruct (round_sign float64 format_float64 (Qnum b * 2 ^ tiny float64) (Z.pos (Qden b)) ltac:(done)) as [Hneg Hpos].
  set (z := round_units _ _ _) in *. destruct (Z.abs z <? top float64) eqn:Et; [done|]. bool_prop. injection Ex as ->.
  assert (0 < top float64) by (unfold top; by apply Z.pow_pos_nonneg). assert (Hp : 0 < 2 ^ tiny float64) by (by apply Z.pow_pos_nonneg).
  apply eq_true_iff_eq. rewrite Qle_bool_iff, Z.ltb_lt. unfold Qle. cbn [Qnum Qden]. split.
  - intros Hb. destruct (Z.lt_ge_cases z 0) as [|Hz]; [done|]. exfalso. destruct (Z.lt_ge_cases (Qnum b * 2 ^ tiny float64) 0) as [Hs|Hs].
    + specialize (Hneg Hs). lia.
    + assert (Qnum b = 0) as E0 by nia. assert (z = 0) as ->; [|lia]. unfold z. rewrite E0. vm_compute. done.
  - intros Hz. destruct (Z.le_gt_cases (Qnum b) 0) as [|Hb]; [lia|]. exfalso. specialize (Hpos ltac:(nia)). lia.
Qed.
