(* ===== verification/Canonicalize.v ===== *)
(** * Source values as octets (generation/pool/_canonicalize.py)

    Python values as the engine meets them in cells and literals, and their canonical
    octets, which feed every keyed derivation. Unicode normalisation is the class
    [UnicodeForms]; an aware date-time is its fields and its offset. *)

From S2P Require Import Prelude Numerals PyText PyData CastNumeric CastDate Json PyRepr Floats.

Inductive decimal := DecFin (negative : bool) (coefficient exponent : Z) | DecInf (negative : bool) | DecNan.

(** [VOther] is any other object, with its [str]. *)
Inductive value :=
| VNone
| VBool (b : bool)
| VInt (n : Z)
| VFloat (x : flt)
| VDecimal (d : decimal)
| VStr (s : pystr)
| VDate (y m d : Z)
| VDatetime (y m d : Z) (t : clock)
| VTuple (l : list value)
| VOther (text : pystr).

(** [unicodedata.normalize("NFC", s)] *)
Class UnicodeForms := { nfc : pystr -> pystr; nfc_ascii s : Forall (fun c => 0 <= c < 128) s -> nfc s = s }.

Definition GenerationError (code : string) : exn := Exn "GenerationError" code.
Definition NULL_CANONICALIZATION_UNREACHABLE : string := "null_canonicalization_unreachable".
Definition FLOAT_CANONICALIZATION_UNSUPPORTED : string := "float_canonicalization_unsupported".
Definition TIMEZONE_NAIVE_DATETIME : string := "timezone_naive_datetime".

(** [n.to_bytes(k, "big", signed=True)] *)
Definition to_bytes_signed (n k : Z) : result bytes :=
  if (- 256 ^ k <=? 2 * n) && (2 * n <? 256 ^ k) then to_bytes (n mod 256 ^ k) k else Err (exc "OverflowError").

Definition _encode_int (n : Z) : result bytes :=
  let nbytes := (bit_length n + 8) / 8 in
  body ← to_bytes_signed n nbytes;
  len ← to_bytes (zlen body) 4;
  Ok (len ++ body).

(** [str(d)] *)
Definition str_decimal (d : decimal) : pystr :=
  match d with
  | DecFin negative c e => dec_str negative c e
  | DecInf negative => py (if negative then "-Infinity" else "Infinity")
  | DecNan => py "NaN"
  end.

(** *** [dt.astimezone(utc)]: an offset is less than a day, so the date moves by one at most. *)

Definition prev_day (y m d : Z) : Z * Z * Z :=
  if 1 <? d then (y, m, d - 1) else if 1 <? m then (y, m - 1, days_in_month y (m - 1)) else (y - 1, 12, 31).
Definition next_day (y m d : Z) : Z * Z * Z :=
  if d <? days_in_month y m then (y, m, d + 1) else if m <? 12 then (y, m + 1, 1) else (y + 1, 1, 1).

Definition clock_us (t : clock) : Z := ((t_hour t * 60 + t_minute t) * 60 + t_second t) * 1000000 + t_micro t.
Definition utc_clock (us : Z) : clock :=
  MkClock (us / 3600000000) (us / 60000000 mod 60) (us / 1000000 mod 60) (us mod 1000000) (Some 0).

Definition to_utc (y m d : Z) (t : clock) (offset : Z) : result (Z * Z * Z * clock) :=
  let us := clock_us t - offset in
  let '(y, m, d) := if us <? 0 then prev_day y m d else if us <? DAY_US then (y, m, d) else next_day y m d in
  if (1 <=? y) && (y <=? 9999) then Ok (y, m, d, utc_clock (us mod DAY_US)) else Err (exc "OverflowError").

Section Canonicalize.
Context {U : UnicodeForms}.

(** [str(value)] of a value that reaches the fallback. *)
Definition str_value (v : value) : pystr :=
  match v with VStr s | VOther s => s | _ => [] end.

Definition _canonicalize_source (v : value) : result bytes :=
  match v with
  | VNone => Err (GenerationError NULL_CANONICALIZATION_UNREACHABLE)
  | VBool b => Ok [if b then 1 else 0]
  | VInt n => _encode_int n
  | VFloat _ => Err (GenerationError FLOAT_CANONICALIZATION_UNSUPPORTED)
  | VDecimal d => utf8_encode (str_decimal d)
  | VDatetime y m d t =>
      match t_offset t with
      | None => Err (GenerationError TIMEZONE_NAIVE_DATETIME)
      | Some offset => '(y, m, d, t) ← to_utc y m d t offset; utf8_encode (iso_datetime y m d t)
      end
  | VDate y m d => utf8_encode (iso_date y m d)
  | _ => utf8_encode (nfc (str_value v))
  end.
End Canonicalize.

(** ** Lemmas *)

(** Reads back an encoded integer. *)
Definition read_int (b : bytes) : option (Z * bytes) :=
  let n := from_bytes (ztake 4 b) in
  let body := ztake n (zdrop 4 b) in
  let x := from_bytes body in
  Some (if 2 * x <? 256 ^ n then x else x - 256 ^ n, zdrop n (zdrop 4 b)).

Lemma pow256 k : 0 <= k -> 256 ^ k = 2 ^ (8 * k).
Proof. intros. change 256 with (2 ^ 8). by rewrite <- Z.pow_mul_r by lia. Qed.

Lemma bit_length_abs n : 0 <= bit_length n /\ Z.abs n < 2 ^ bit_length n.
Proof.
  unfold bit_length. destruct (Z.eqb_spec n 0) as [->|Hn]; [by cbn|]. pose proof (Z.log2_nonneg (Z.abs n)). split; [lia|].
  pose proof (Z.log2_spec (Z.abs n) ltac:(lia)) as [_ H']. by rewrite Z.add_1_r.
Qed.

Lemma signed_fits n k : 2 * Z.abs n < 256 ^ k -> 0 <= k ->
  exists b, to_bytes_signed n k = Ok b /\ zlen b = k /\ Forall is_byte b /\
    (if 2 * from_bytes b <? 256 ^ k then from_bytes b else from_bytes b - 256 ^ k) = n.
Proof.
  intros Hn Hk. unfold to_bytes_signed. replace (- 256 ^ k <=? 2 * n) with true by lia. replace (2 * n <? 256 ^ k) with true by lia.
  cbn [andb]. assert (Hp : 0 < 256 ^ k) by (apply Z.pow_pos_nonneg; lia).
  destruct (to_bytes_ok (n mod 256 ^ k) k Hk (Z.mod_pos_bound n (256 ^ k) Hp)) as (b & Hb & Hl & Hbb & Hv).
  exists b. split_and!; [done..|]. rewrite Hv. destruct (Z.lt_ge_cases n 0).
  - replace (n mod 256 ^ k) with (n + 256 ^ k); [replace (2 * (n + 256 ^ k) <? 256 ^ k) with false by lia; lia|].
    apply Z.mod_unique_pos with (-1); lia.
  - rewrite Z.mod_small by lia. by replace (2 * n <? 256 ^ k) with true by lia.
Qed.

Lemma body_width n : let k := (bit_length n + 8) / 8 in 2 * Z.abs n < 256 ^ k /\ 1 <= k.
Proof.
  cbn. destruct (bit_length_abs n) as [H0 H1]. set (b := bit_length n) in *.
  assert (b + 1 <= 8 * ((b + 8) / 8)) by (pose proof (Z.div_mod (b + 8) 8); pose proof (Z.mod_pos_bound (b + 8) 8); lia).
  split; [|apply Z.div_le_lower_bound; lia]. rewrite pow256 by (apply Z.div_pos; lia).
  eapply Z.lt_le_trans; [|apply Z.pow_le_mono_r; [lia|exact H]]. rewrite Z.pow_add_r by lia. lia.
Qed.

Lemma ztake_exact {A} (l k : list A) n : zlen l = n -> ztake n (l ++ k) = l /\ zdrop n (l ++ k) = k.
Proof.
  unfold zlen, ztake, zdrop. intros <-. rewrite Nat2Z.id. split; [by apply take_app_length|by apply drop_app_length].
Qed.

(** An integer of fewer than [2^34] bits is read back, whatever follows. *)
Lemma read_encoded n rest : bit_length n < 2 ^ 34 ->
  exists b, _encode_int n = Ok b /\ read_int (b ++ rest) = Some (n, rest) /\ Forall is_byte b.
Proof.
  intros Hn. destruct (body_width n) as [Hw Hk]. unfold _encode_int. set (k := (bit_length n + 8) / 8) in *.
  assert (Hk4 : k < 256 ^ 4).
  { unfold k. apply Z.div_lt_upper_bound; [lia|]. change (256 ^ 4) with (2 ^ 32). lia. }
  destruct (signed_fits n k Hw ltac:(lia)) as (body & -> & Hl & Hb & Hv). cbn [mbind result_bind].
  destruct (to_bytes_ok (zlen body) 4 ltac:(lia)) as (len & -> & Hl4 & Hb4 & Hv4); [rewrite Hl; lia|]. cbn [mbind result_bind].
  eexists. split; [done|]. split; [|by apply Forall_app]. unfold read_int. rewrite <- app_assoc.
  destruct (ztake_exact len (body ++ rest) 4 Hl4) as [-> ->]. rewrite Hv4, Hl.
  destruct (ztake_exact body rest k Hl) as [-> ->]. by rewrite Hv.
Qed.

(** The canonical octets of integers tell them apart. *)
Lemma encode_int_inj n m b : bit_length n < 2 ^ 34 -> bit_length m < 2 ^ 34 -> _encode_int n = Ok b -> _encode_int m = Ok b -> n = m.
Proof.
  intros Hn Hm H1 H2. destruct (read_encoded n [] Hn) as (b1 & E1 & R1 & _). destruct (read_encoded m [] Hm) as (b2 & E2 & R2 & _).
  assert (b1 = b2) as -> by congruence. rewrite R1 in R2. by injection R2.
Qed.

(** A date-time and the same instant in UTC have the same octets. *)
Lemma to_utc_zero y m d t : valid_date y m d = true -> valid_clock t = true ->
  exists t', to_utc y m d t 0 = Ok (y, m, d, t') /\ clock_us t' = clock_us t /\ t_offset t' = Some 0.
Proof.
  intros Hd Ht. unfold valid_clock in Ht. unfold valid_date in Hd. bool_prop. unfold to_utc.
  assert (Hr : 0 <= clock_us t < DAY_US) by (unfold clock_us, DAY_US; lia).
  rewrite Z.sub_0_r. replace (clock_us t <? 0) with false by lia. replace (clock_us t <? DAY_US) with true by lia.
  replace (1 <=? y) with true by lia. replace (y <=? 9999) with true by lia. cbn [andb]. rewrite Z.mod_small by done.
  eexists. split; [done|]. split; [|done]. unfold utc_clock, clock_us at 1. cbn [t_hour t_minute t_second t_micro].
  set (us := clock_us t) in *. unfold DAY_US in Hr. clearbody us. Z.to_euclidean_division_equations. lia.
Qed.
