(* ===== verification/SubsetRange.v ===== *)
(** * Exact range bounds for seed filters (subset/_seed.py)

    Column types, the comparisons a filter is built from, and the bounds a column's type
    cannot hold: [_range_expr] moves such a bound to the nearest value of the type on the
    correct side. The theorem is that the comparison so built is the exact one, for every
    integer, float and decimal type. *)

From S2P Require Import Prelude Numerals PyText PyData Floats Canonicalize.
From Stdlib Require Import QArith Qround.
#[local] Open Scope Z_scope.

(** ** Types and comparisons *)

Inductive dtype :=
| TBool
| TInt (bits : Z) (signed : bool)
| TFloat (wide : bool)
| TDecimal (precision : option Z) (scale : Z)
| TString
| TCategorical
| TEnum
| TDate
| TDatetime (time_zone : option pystr)
| TOther (base : string).

#[global] Instance dtype_eq_dec : EqDecision dtype.
Proof. solve_decision. Defined.

Inductive cmp_op := CEq | CNe | CLt | CLe | CGt | CGe.

#[global] Instance cmp_op_eq_dec : EqDecision cmp_op.
Proof. solve_decision. Defined.

(** [op in ("lt", "le")], [op in _ORDERING] *)
Definition upper_bound (op : cmp_op) : bool := bool_decide (op ∈ [CLt; CLe]).
Definition _ORDERING : list cmp_op := [CLt; CLe; CGt; CGe].

(** *** Expressions over a column, as the code builds them *)

Section Expr.
Context {Series : Type}.

(** [pl.lit(series).first()], or [pl.lit(k, dtype=target)] of a computed edge. *)
Inductive literal :=
| LSeries (s : Series)
| LFloat (x : flt) (wide : bool)
| LInt (k : Z)
| LDecimal (k scale : Z).

Inductive expr :=
| EIsNull (c : pystr)
| EIsNotNull (c : pystr)
| EFalse
| ECmp (op : cmp_op) (c : pystr) (l : literal)
| ECmpMicros (op : cmp_op) (c : pystr) (v : value)
| EIsIn (c : pystr) (s : Series)
| EAnd (e e' : expr).

(** ** The bound as an exact number *)

Definition _EXP_CLAMP : Z := 400.

Definition dec_value (negative : bool) (c e : Z) : Q :=
  let c := if negative then - c else c in
  if 0 <=? e then (c * 10 ^ e) # 1 else c # Z.to_pos (10 ^ (- e)).

(** [d.adjusted()] of a non-zero decimal. *)
Definition adjusted (c e : Z) : Z := e + zlen (str_int c) - 1.

Definition _exact_bound (v : value) : result Q :=
  match v with
  | VBool b => Ok (inject_Z (if b then 1 else 0))
  | VInt n => Ok (inject_Z n)
  | VFloat (FFin z) => Ok (fin_value float64 z)
  | VFloat (FInf _) | VDecimal (DecInf _) => Err (exc "OverflowError")
  | VFloat FNan | VDecimal DecNan => Err (exc "ValueError")
  | VDecimal (DecFin negative c e) =>
      if negb (c =? 0) && (Z.abs (adjusted c e) >? _EXP_CLAMP) then
        let sign := if negative then -1 else 1 in
        if adjusted c e >? 0 then Ok (inject_Z (sign * 10 ^ _EXP_CLAMP)) else Ok (sign # Z.to_pos (10 ^ _EXP_CLAMP))
      else Ok (dec_value negative c e)
  | _ => Err (exc "TypeError")
  end.

Definition _INT_BITS : list Z := [8; 16; 32; 64].
Definition float_format (wide : bool) : fformat := if wide then float64 else float32.

(** (scale, lowest k, highest k): an integer or decimal type holds the [k / 10^scale]. *)
Definition _grid (target : dtype) : result (Z * Z * Z) :=
  match target with
  | TInt bits signed =>
      if bool_decide (bits ∈ _INT_BITS) then
        if signed then Ok (0, - 2 ^ (bits - 1), 2 ^ (bits - 1) - 1) else Ok (0, 0, 2 ^ bits - 1)
      else Err (exc "TypeError")
  | TDecimal (Some precision) scale => let top := 10 ^ precision - 1 in Ok (scale, - top, top)
  | _ => Err (exc "TypeError")
  end.

Definition _grid_lit (k scale : Z) (target : dtype) : literal :=
  match target with TDecimal _ _ => LDecimal k scale | _ => LInt k end.

(** The largest float not above the bound ([down]), else the smallest not below it. The
    first guess is one of the two, so the loop moves it once at most. *)
Definition _float_edge (bound : Q) (f : fformat) (down : bool) : result flt :=
  let start := match float_of bound with Some x => np_cast f x | None => FInf (Qle_bool bound 0) end in
  edge_loop 2 f bound down start.

Definition edge_exact (f : fformat) (x : flt) (bound : Q) : bool :=
  match x with FFin z => Qeq_bool (fin_value f z) bound | _ => false end.

Definition _range_expr (c : pystr) (op : cmp_op) (v : value) (target : dtype) : result expr :=
  let upper := upper_bound op in
  match v with
  | VFloat FNan | VDecimal DecNan => Err (exc "ValueError")
  | VFloat (FInf below_all) => Ok (if xorb upper below_all then EIsNotNull c else EFalse)
  | _ =>
      bound ← _exact_bound v;
      match target with
      | TFloat wide =>
          edge ← _float_edge bound (float_format wide) upper;
          Ok (ECmp (if edge_exact (float_format wide) edge bound then op else if upper then CLe else CGe) c (LFloat edge wide))
      | _ =>
          '(scale, lo, hi) ← _grid target;
          let scaled := Qmult bound (inject_Z (10 ^ scale)) in
          if upper then
            let edge := if bool_decide (op = CLt) then Qceiling scaled - 1 else Qfloor scaled in
            Ok (if edge <? lo then EFalse else if hi <=? edge then EIsNotNull c else ECmp CLe c (_grid_lit edge scale target))
          else
            let edge := if bool_decide (op = CGt) then Qfloor scaled + 1 else Qceiling scaled in
            Ok (if hi <? edge then EFalse else if edge <=? lo then EIsNotNull c else ECmp CGe c (_grid_lit edge scale target))
      end
  end.

Definition decimal_finite (d : decimal) : bool := match d with DecFin _ _ _ => true | _ => false end.

(** An int, float or finite Decimal literal against an int, float or Decimal column. *)
Definition _is_real_bound (v : value) (target : dtype) : bool :=
  match v with VInt _ | VFloat _ => true | VDecimal d => decimal_finite d | _ => false end &&
  match target with TInt bits _ => bool_decide (bits ∈ _INT_BITS) | TFloat _ | TDecimal _ _ => true | _ => false end.

Definition _is_decimal_on_float (v : value) (target : dtype) : bool :=
  match v, target with VDecimal d, TFloat _ => decimal_finite d | _, _ => false end.
End Expr.

Arguments literal : clear implicits.
Arguments expr : clear implicits.

(** ** Numbers and their order *)

(** A number as a column holds it; NaN is the greatest, as polars orders it. *)
Inductive xnum := XFin (q : Q) | XInf (negative : bool) | XNan.

Definition rank (a : xnum) : Z := match a with XInf true => 0 | XFin _ => 1 | XInf false => 2 | XNan => 3 end.
Definition xleb (a b : xnum) : bool :=
  match a, b with XFin p, XFin q => Qle_bool p q | _, _ => rank a <=? rank b end.

(** [a op b] *)
Definition xcmp (op : cmp_op) (a b : xnum) : bool :=
  match op with
  | CEq => xleb a b && xleb b a
  | CNe => negb (xleb a b && xleb b a)
  | CLt => negb (xleb b a)
  | CLe => xleb a b
  | CGt => negb (xleb a b)
  | CGe => xleb b a
  end.

Definition xnum_of (f : fformat) (x : flt) : xnum :=
  match x with FFin z => XFin (fin_value f z) | FInf neg => XInf neg | FNan => XNan end.
Definition grid_value (k scale : Z) : Q := k # Z.to_pos (10 ^ scale).

(** The number a literal denotes. *)
Definition exact_value (v : value) : option xnum :=
  match v with
  | VInt n => Some (XFin (inject_Z n))
  | VFloat x => Some (xnum_of float64 x)
  | VDecimal (DecFin negative c e) => Some (XFin (dec_value negative c e))
  | _ => None
  end.

(** The numbers a column type holds. *)
Definition num_typed (target : dtype) (a : xnum) : Prop :=
  match target with
  | TInt bits signed =>
      exists k, a = XFin (inject_Z k) /\ (if signed : bool then - 2 ^ (bits - 1) <= k < 2 ^ (bits - 1) else 0 <= k < 2 ^ bits)
  | TFloat wide => exists x, flt_ok (float_format wide) x /\ a = xnum_of (float_format wide) x
  | TDecimal (Some precision) scale => exists k, a = XFin (grid_value k scale) /\ Z.abs k < 10 ^ precision
  | _ => False
  end.

(** Types as polars has them: at most 38 digits, the scale among them. *)
Definition dtype_ok (target : dtype) : Prop :=
  match target with
  | TInt bits _ => bits ∈ _INT_BITS
  | TDecimal (Some precision) scale => 0 <= scale <= precision /\ 1 <= precision <= 38
  | TFloat _ => True
  | _ => False
  end.

(** The value of a decimal literal is its digits and exponent; the coefficient is not
    negative. *)
Definition value_ok (v : value) : Prop :=
  match v with VDecimal (DecFin _ c _) => 0 <= c | VFloat x => flt_ok float64 x | _ => True end.

Section Eval.
Context {Series : Type} (series_num : Series -> option xnum).

Definition lit_num (l : literal Series) : option xnum :=
  match l with
  | LSeries s => series_num s
  | LFloat x wide => Some (xnum_of (float_format wide) x)
  | LInt k => Some (XFin (inject_Z k))
  | LDecimal k scale => Some (XFin (grid_value k scale))
  end.

(** Whether a row with the number [a] in the column is kept. *)
Definition num_holds (e : expr Series) (a : option xnum) : bool :=
  match e with
  | EIsNotNull _ => bool_decide (is_Some a)
  | EIsNull _ => bool_decide (a = None)
  | ECmp op _ l => match a, lit_num l with Some a, Some b => xcmp op a b | _, _ => false end
  | _ => false
  end.
End Eval.

(** *** Rational comparisons *)

Lemma Qle_bool_false a b : Qle_bool a b = false <-> (b < a)%Q.
Proof.
  rewrite <- not_true_iff_false, Qle_bool_iff. split; [apply Qnot_le_lt|]. intros H Hn. by apply (Qlt_not_le _ _ H).
Qed.

Lemma xcmp_lt a b : xcmp CLt (XFin a) (XFin b) = true <-> (a < b)%Q.
Proof. cbn. rewrite negb_true_iff. apply Qle_bool_false. Qed.

(** Two bounds on the same side of a number. *)
Lemma xcmp_same op a b b' : Qle_bool a b = Qle_bool a b' -> Qle_bool b a = Qle_bool b' a ->
  xcmp op (XFin a) (XFin b) = xcmp op (XFin a) (XFin b').
Proof. intros H1 H2. destruct op; cbn; by rewrite ?H1, ?H2. Qed.

Lemma xcmp_eqv op a b b' : (b == b')%Q -> xcmp op (XFin a) (XFin b) = xcmp op (XFin a) (XFin b').
Proof. intros E. apply xcmp_same; apply eq_true_iff_eq; rewrite !Qle_bool_iff; by rewrite E. Qed.

Lemma Zpos_pow10 s : 0 <= s -> Z.pos (Z.to_pos (10 ^ s)) = 10 ^ s.
Proof. intros. rewrite Z2Pos.id; [done|]. by apply Z.pow_pos_nonneg. Qed.

(** *** The clamp on huge exponents *)

Lemma digits_bound c : 0 < c -> 10 ^ (zlen (str_int c) - 1) <= c < 10 ^ zlen (str_int c).
Proof.
  intros Hc. unfold str_int. replace (c <? 0) with false by lia. unfold digit_chars, zlen. rewrite length_fmap. fold (zlen (dec_digits c)).
  destruct (dec_digits_spec c) as [Hv Hr Hp Hm]; [lia|]. pose proof (pos_val_bound 10 _ ltac:(lia) Hr) as Hb. rewrite Hv in Hb. split; [|lia].
  destruct Hm as [->|]; [cbn; lia|done].
Qed.

Lemma digits_pos c : 0 < c -> 1 <= zlen (str_int c).
Proof.
  intros Hc. destruct (digits_bound c Hc) as [_ H]. pose proof (zlen_nonneg (str_int c)).
  destruct (decide (zlen (str_int c) = 0)) as [E|]; [|lia]. rewrite E in H. cbn in H. lia.
Qed.

(** [m] is below the clamp and, unless it is zero, above its inverse. *)
Definition tame (q : Q) : Prop :=
  (- inject_Z (10 ^ _EXP_CLAMP) < q)%Q /\ (q < inject_Z (10 ^ _EXP_CLAMP))%Q /\
  ((q == 0)%Q \/ (q < - (1 # Z.to_pos (10 ^ _EXP_CLAMP)))%Q \/ ((1 # Z.to_pos (10 ^ _EXP_CLAMP)) < q)%Q).

Lemma clamp_den : Z.pos (Z.to_pos (10 ^ _EXP_CLAMP)) = 10 ^ _EXP_CLAMP.
Proof. by apply Zpos_pow10. Qed.

(** A number with a short numerator and a short denominator is tame. *)
Lemma tame_fraction n d : Z.abs n < 10 ^ _EXP_CLAMP -> Z.pos d < 10 ^ _EXP_CLAMP -> tame (n # d).
Proof.
  intros Hn Hd. unfold tame, Qlt, Qle, Qeq, Qopp, inject_Z. cbn [Qnum Qden]. rewrite clamp_den. generalize dependent (10 ^ _EXP_CLAMP). intros C Hn Hd.
  split; [nia|]. split; [nia|]. destruct (Z.lt_trichotomy n 0) as [|[->|]]; [right; left; nia|by left|right; right; nia].
Qed.

Lemma tame_typed target q : dtype_ok target -> num_typed target (XFin q) -> tame q.
Proof.
  destruct target as [|bits signed|wide|[p|] s| | | | | |]; cbn; try done.
  - intros Hb (k & [= ->] & Hk). apply tame_fraction; [|done].
    assert (Hbits : 0 <= bits <= 64) by (apply list_elem_of_In in Hb; cbn in Hb; lia).
    assert (H64 : 2 ^ bits <= 2 ^ 64) by (apply Z.pow_le_mono_r; lia).
    assert (Hs : 2 ^ (bits - 1) <= 2 ^ 64) by (apply Z.pow_le_mono_r; lia).
    assert (Hc : 2 ^ 64 < 10 ^ _EXP_CLAMP) by done. destruct signed; lia.
  - intros _ (x & Hx & E). destruct x as [z|n|]; try done. cbn in E. injection E as ->.
    assert (Hw : within64 (float_format wide)) by (destruct wide; [apply within64_float64|apply within64_float32]).
    assert (E : (fin_value (float_format wide) z == fin_value float64 (z * 2 ^ (1074 - tiny (float_format wide))))%Q) by (symmetry; by apply widen_value).
    pose proof (widen _ _ Hw Hx) as Hr. set (w := z * _) in *.
    enough (tame (fin_value float64 w)) as (H1 & H2 & H3) by (unfold tame; rewrite E; done).
    (* the finite float64 are multiples of 2^-1074 below 2^1024 *)
    destruct Hr as (m & j & _ & _ & _ & Ht). unfold tame, fin_value, Qlt, Qle, Qeq, Qopp, inject_Z. cbn [Qnum Qden].
    rewrite clamp_den, unit_den_val by apply format_float64. unfold top in Ht. cbn [tiny huge float64] in *.
    assert (Hc1 : 2 ^ (1024 + 1074) <= 10 ^ _EXP_CLAMP * 2 ^ 1074) by (by apply Z.leb_le; vm_compute).
    assert (Hc2 : 2 ^ 1074 < 10 ^ _EXP_CLAMP) by (by apply Z.ltb_lt; vm_compute).
    generalize dependent (10 ^ _EXP_CLAMP). generalize dependent (2 ^ (1024 + 1074)). assert (0 < 2 ^ 1074) by done. generalize dependent (2 ^ 1074).
    intros T HT B HB C HC1 HC2. split; [nia|]. split; [nia|]. destruct (Z.lt_trichotomy w 0) as [|[->|]]; [right; left; nia|by left|right; right; nia].
  - intros [Hs Hp] (k & [= ->] & Hk). apply tame_fraction.
    + eapply Z.lt_le_trans; [exact Hk|]. apply Z.pow_le_mono_r; unfold _EXP_CLAMP; lia.
    + rewrite Zpos_pow10 by lia. apply Z.pow_lt_mono_r; unfold _EXP_CLAMP; lia.
Qed.

Lemma dec_large c e : 0 < c -> _EXP_CLAMP <= adjusted c e -> (inject_Z (10 ^ _EXP_CLAMP) <= dec_value false c e)%Q.
Proof.
  intros Hc. unfold adjusted. pose proof (digits_bound c Hc) as [Hlow _]. set (n := zlen (str_int c)) in *. intros Ha.
  assert (HC : 0 <= _EXP_CLAMP) by done. generalize dependent _EXP_CLAMP. intros C Ha HC.
  pose proof (digits_pos c Hc) as Hn. fold n in Hn.
  unfold dec_value. destruct (0 <=? e) eqn:E; bool_prop; unfold Qle, inject_Z; cbn [Qnum Qden].
  - transitivity (10 ^ (n - 1) * 10 ^ e * 1); [|assert (0 < 10 ^ e) by (by apply Z.pow_pos_nonneg); nia].
    rewrite Z.mul_1_r, <- Z.pow_add_r by lia. rewrite Z.mul_1_r. apply Z.pow_le_mono_r; lia.
  - rewrite Zpos_pow10 by lia. rewrite <- Z.pow_add_r by lia. rewrite Z.mul_1_r. etransitivity; [|exact Hlow]. apply Z.pow_le_mono_r; lia.
Qed.

Lemma dec_small c e : 0 < c -> adjusted c e < - _EXP_CLAMP -> (dec_value false c e <= 1 # Z.to_pos (10 ^ _EXP_CLAMP))%Q.
Proof.
  intros Hc. unfold adjusted. pose proof (digits_bound c Hc) as [_ Hhigh]. set (n := zlen (str_int c)) in *. intros Ha.
  pose proof (digits_pos c Hc) as Hn. fold n in Hn. assert (HC : 0 <= _EXP_CLAMP) by done. generalize dependent _EXP_CLAMP. intros C Ha HC.
  unfold dec_value. replace (0 <=? e) with false by lia. unfold Qle. cbn [Qnum Qden]. rewrite !Zpos_pow10 by lia. rewrite Z.mul_1_l.
  transitivity (10 ^ n * 10 ^ C); [apply Z.mul_le_mono_nonneg_r; [by apply Z.pow_nonneg|lia]|].
  rewrite <- Z.pow_add_r by lia. apply Z.pow_le_mono_r; lia.
Qed.

Lemma inverse_pos d : (0 < 1 # d)%Q.
Proof. done. Qed.

Lemma dec_positive c e : 0 < c -> (0 < dec_value false c e)%Q.
Proof.
  intros Hc. unfold dec_value, Qlt. destruct (0 <=? e) eqn:E; bool_prop; cbn [Qnum Qden]; [|lia].
  assert (0 < 10 ^ e) by (by apply Z.pow_pos_nonneg). nia.
Qed.

Lemma dec_negative c e : (dec_value true c e == - dec_value false c e)%Q.
Proof. unfold dec_value, Qeq. destruct (0 <=? e); cbn [Qnum Qden Qopp]; lia. Qed.

Definition same_side (q b b' : Q) : Prop := Qle_bool q b = Qle_bool q b' /\ Qle_bool b q = Qle_bool b' q.

Lemma same_side_lt q b b' : (q < b)%Q -> (q < b')%Q -> same_side q b b'.
Proof.
  intros H H'. unfold same_side. rewrite (proj2 (Qle_bool_false b q) H), (proj2 (Qle_bool_false b' q) H').
  by rewrite (proj2 (Qle_bool_iff q b) (Qlt_le_weak _ _ H)), (proj2 (Qle_bool_iff q b') (Qlt_le_weak _ _ H')).
Qed.
Lemma same_side_gt q b b' : (b < q)%Q -> (b' < q)%Q -> same_side q b b'.
Proof.
  intros H H'. unfold same_side. rewrite (proj2 (Qle_bool_false q b) H), (proj2 (Qle_bool_false q b') H').
  by rewrite (proj2 (Qle_bool_iff b q) (Qlt_le_weak _ _ H)), (proj2 (Qle_bool_iff b' q) (Qlt_le_weak _ _ H')).
Qed.

Lemma same_side_signed (negative : bool) q a C : (q < inject_Z C)%Q -> (- inject_Z C < q)%Q -> (q < a)%Q -> (- a < q)%Q ->
  same_side q (inject_Z ((if negative then -1 else 1) * C)) (if negative then - a else a)%Q.
Proof.
  intros H1 H2 H3 H4. destruct negative; [|rewrite Z.mul_1_l; by apply same_side_lt].
  apply same_side_gt; [|done]. eapply Qle_lt_trans; [|exact H2]. unfold Qle, inject_Z. cbn [Qnum Qden Qopp]. lia.
Qed.

Lemma tame_large q b : tame q -> (inject_Z (10 ^ _EXP_CLAMP) <= b)%Q -> (q < b)%Q /\ (- b < q)%Q.
Proof.
  intros (H1 & H2 & _) Hb. split; [by eapply Qlt_le_trans|]. eapply Qle_lt_trans; [|exact H1]. by apply Qopp_le_compat.
Qed.

(** Two small positive bounds, or their opposites, are on one side of a tame number. *)
Lemma tame_small q b b' : tame q -> (0 < b)%Q -> (0 < b')%Q ->
  (b <= 1 # Z.to_pos (10 ^ _EXP_CLAMP))%Q -> (b' <= 1 # Z.to_pos (10 ^ _EXP_CLAMP))%Q ->
  same_side q b b' /\ same_side q (- b) (- b').
Proof.
  intros (_ & _ & H) Hb Hb' Hs Hs'. set (u := 1 # _) in *.
  assert (Hopp : forall x, (0 < x)%Q -> (- x < 0)%Q) by (intros x Hx; by apply (Qopp_lt_compat 0 x)).
  assert (Hu : (0 < u)%Q) by done.
  destruct H as [H|[H|H]]; split.
  - apply same_side_lt; by rewrite H.
  - apply same_side_gt; rewrite H; by apply Hopp.
  - assert (q < 0)%Q by (eapply Qlt_trans; [exact H|by apply Hopp]). apply same_side_lt; by eapply Qlt_trans.
  - apply same_side_lt; (eapply Qlt_le_trans; [exact H|]; by apply Qopp_le_compat).
  - apply same_side_gt; by eapply Qle_lt_trans.
  - assert (0 < q)%Q by (by eapply Qlt_trans). apply same_side_gt; (eapply Qlt_trans; [by apply Hopp|done]).
Qed.

(** The clamp changes no comparison with a number a column holds. *)
Lemma Ok_inj {A} (x y : A) : Ok x = Ok y -> x = y.
Proof. by injection 1. Qed.

Lemma exact_bound_sound v b q' q : value_ok v -> _exact_bound v = Ok b -> exact_value v = Some (XFin q') -> tame q -> same_side q b q'.
Proof.
  intros Hv Hb He Ht. destruct v as [|?|n|[z|?|]|[negative c e|?|]|?|? ? ?|? ? ? ?|?|?]; try done.
  1,2: injection Hb as <-; injection He as <-; done.
  cbn in Hv, He. injection He as <-. cbn [_exact_bound] in Hb. destruct (negb (c =? 0) && _) eqn:E; [|by injection Hb as <-].
  bool_prop. assert (Hc : 0 < c) by lia.
  set (a := dec_value false c e). assert (Ha : (0 < a)%Q) by by apply dec_positive.
  assert (Hneg : same_side q b (if negative then - a else a)%Q -> same_side q b (dec_value negative c e)).
  { destruct negative; [|done]. intros [H1 H2]. unfold same_side. rewrite H1, H2.
    split; apply eq_true_iff_eq; rewrite !Qle_bool_iff; unfold a; by rewrite dec_negative. }
  apply Hneg. destruct (adjusted c e >? 0) eqn:Ea; bool_prop.
  - assert (Hl : (inject_Z (10 ^ _EXP_CLAMP) <= a)%Q) by (apply dec_large; lia).
    destruct (tame_large q a Ht Hl) as [H1 H2], (tame_large q _ Ht (Qle_refl _)) as [H3 H4].
    apply Ok_inj in Hb as <-. by apply same_side_signed.
  - assert (Hs : (a <= 1 # Z.to_pos (10 ^ _EXP_CLAMP))%Q) by (apply dec_small; lia).
    destruct (tame_small q (1 # Z.to_pos (10 ^ _EXP_CLAMP)) a Ht) as [H1 H2]; [apply inverse_pos|exact Ha|apply Qle_refl|exact Hs|].
    apply Ok_inj in Hb as <-. destruct negative; [exact H2|exact H1].
Qed.

(** *** Floats *)

Lemma xcmp_eqv_any op a b b' : (b == b')%Q -> xcmp op a (XFin b) = xcmp op a (XFin b').
Proof. intros E. destruct a as [q|[]|]; [by apply xcmp_eqv|by destruct op..]. Qed.

Lemma xle_fle f x y : x <> FNan -> y <> FNan -> xleb (xnum_of f x) (xnum_of f y) = true <-> fle x y.
Proof.
  intros Hx Hy. destruct x as [z|[]|], y as [w|[]|]; try done; cbn; try (by split).
  rewrite Qle_bool_iff. apply fin_value_le.
Qed.
Lemma xle_q f x b : xleb (xnum_of f x) (XFin b) = true <-> fle_q f x b.
Proof. destruct x as [z|[]|]; cbn; try (by split). apply Qle_bool_iff. Qed.
Lemma q_xle f x b : x <> FNan -> xleb (XFin b) (xnum_of f x) = true <-> qle_f f b x.
Proof. intros Hx. destruct x as [z|[]|]; cbn; try done; try (by split). apply Qle_bool_iff. Qed.

Lemma fle_trans x y z : fle x y -> fle y z -> fle x z.
Proof. destruct x as [?|[]|], y as [?|[]|], z as [?|[]|]; cbn; try naive_solver. lia. Qed.
Lemma fle_q_trans f x y b : fle x y -> fle_q f y b -> fle_q f x b.
Proof.
  destruct x as [z|[]|], y as [w|[]|]; cbn; try naive_solver. intros H. apply Qle_trans. by apply fin_value_le.
Qed.
Lemma qle_f_trans f x y b : fle x y -> qle_f f b x -> qle_f f b y.
Proof.
  destruct x as [z|[]|], y as [w|[]|]; cbn; try naive_solver. intros H H'. eapply Qle_trans; [exact H'|]. by apply fin_value_le.
Qed.

Lemma not_nan_below f x b : fle_q f x b -> x <> FNan.
Proof. by destruct x. Qed.
Lemma not_nan_above f x b : qle_f f b x -> x <> FNan.
Proof. by destruct x. Qed.

(** No float is a fraction its edge is not. *)
Lemma edge_not_exact f (up : bool) b w z : edge_exact f w b = false ->
  (if up then fle (FFin z) w /\ fle_q f w b else fle w (FFin z) /\ qle_f f b w) -> ~ (fin_value f z == b)%Q.
Proof.
  intros He Hw Hz. destruct up, w as [u|[]|]; cbn in Hw; try naive_solver; destruct Hw as [H1 H2]; cbn in He;
    apply (proj2 (fin_value_le f _ _)) in H1; rewrite Hz in H1; rewrite (proj2 (Qeq_bool_iff _ _)) in He by (by apply Qle_antisym); done.
Qed.

Lemma xcmp_floor f op b w x : upper_bound op = true -> floor_of f b w -> flt_ok f x -> edge_exact f w b = false ->
  xcmp CLe (xnum_of f x) (xnum_of f w) = xcmp op (xnum_of f x) (XFin b).
Proof.
  intros Hop [Hw1 Hw2 Hw3] Hx He. assert (Hle : xcmp CLe (xnum_of f x) (xnum_of f w) = xcmp CLe (xnum_of f x) (XFin b)).
  { cbn [xcmp]. pose proof (not_nan_below f w b Hw2) as Hn. apply eq_true_iff_eq. destruct (decide (x = FNan)) as [->|Hxn]; [by destruct w as [?|[]|]|].
    rewrite xle_fle, xle_q by done. split; [intros H; by eapply fle_q_trans|by apply Hw3]. }
  rewrite Hle. destruct op; try done. cbn [xcmp]. apply eq_true_iff_eq. rewrite negb_true_iff.
  destruct x as [z|[]|]; try done. cbn [xnum_of xleb]. rewrite Qle_bool_iff, Qle_bool_false. split; [|apply Qlt_le_weak].
  intros H. apply Qle_lteq in H as [|H]; [done|]. exfalso. refine (edge_not_exact f true b w z He _ H). split; [|done]. apply Hw3; [done|]. cbn. rewrite H. apply Qle_refl.
Qed.

Lemma xcmp_ceiling f op b w x : op = CGt \/ op = CGe -> ceiling_of f b w -> flt_ok f x -> edge_exact f w b = false ->
  xcmp CGe (xnum_of f x) (xnum_of f w) = xcmp op (xnum_of f x) (XFin b).
Proof.
  intros Hop [Hw1 Hw2 Hw3] Hx He. assert (Hle : xcmp CGe (xnum_of f x) (xnum_of f w) = xcmp CGe (xnum_of f x) (XFin b)).
  { cbn [xcmp]. pose proof (not_nan_above f w b Hw2) as Hn. apply eq_true_iff_eq. destruct (decide (x = FNan)) as [->|Hxn]; [by destruct w as [?|[]|]|].
    rewrite xle_fle, q_xle by done. split; [intros H; by eapply qle_f_trans|by apply Hw3]. }
  rewrite Hle. destruct Hop as [-> | ->]; [|done]. cbn [xcmp]. apply eq_true_iff_eq. rewrite negb_true_iff.
  destruct x as [z|[]|]; try done. cbn [xnum_of xleb]. rewrite Qle_bool_iff, Qle_bool_false. split; [|apply Qlt_le_weak].
  intros H. apply Qle_lteq in H as [|H]; [done|]. exfalso. symmetry in H. refine (edge_not_exact f false b w z He _ H). split; [|done]. apply Hw3; [done|]. cbn. rewrite H. apply Qle_refl.
Qed.

Lemma float_format_ok wide : within64 (float_format wide).
Proof. destruct wide; [apply within64_float64|apply within64_float32]. Qed.

Lemma start_near f b : within64 f ->
  near f b (match float_of b with Some x => np_cast f x | None => FInf (Qle_bool b 0) end).
Proof.
  intros Hf. pose proof (float_of_near b) as H. destruct (float_of b) as [x|]; [by apply cast_near|].
  by apply (cast_near f b (FInf (Qle_bool b 0))).
Qed.

(** *** Grids *)

Lemma pow10_Q s : 0 <= s -> (0 < inject_Z (10 ^ s))%Q.
Proof. intros Hs. unfold Qlt, inject_Z. cbn [Qnum Qden]. assert (0 < 10 ^ s) by (by apply Z.pow_pos_nonneg). lia. Qed.

Lemma grid_le k s b : 0 <= s -> Qle_bool (grid_value k s) b = (k <=? Qfloor (b * inject_Z (10 ^ s))).
Proof.
  intros Hs. apply eq_true_iff_eq. rewrite Qle_bool_iff, Z.leb_le.
  assert (E : (grid_value k s <= b)%Q <-> (inject_Z k <= b * inject_Z (10 ^ s))%Q).
  { unfold grid_value, Qle, Qmult, inject_Z. cbn [Qnum Qden]. rewrite Zpos_pow10 by done. rewrite Pos.mul_1_r. lia. }
  rewrite E. split; intros H.
  - rewrite <- (Qfloor_Z k). by apply Qfloor_resp_le.
  - eapply Qle_trans; [|apply Qfloor_le]. by rewrite <- Zle_Qle.
Qed.

Lemma grid_ge k s b : 0 <= s -> Qle_bool b (grid_value k s) = (Qceiling (b * inject_Z (10 ^ s)) <=? k).
Proof.
  intros Hs. apply eq_true_iff_eq. rewrite Qle_bool_iff, Z.leb_le.
  assert (E : (b <= grid_value k s)%Q <-> (b * inject_Z (10 ^ s) <= inject_Z k)%Q).
  { unfold grid_value, Qle, Qmult, inject_Z. cbn [Qnum Qden]. rewrite Zpos_pow10 by done. rewrite Pos.mul_1_r. lia. }
  rewrite E. split; intros H.
  - rewrite <- (Qceiling_Z k). by apply Qceiling_resp_le.
  - eapply Qle_trans; [apply Qle_ceiling|]. by rewrite <- Zle_Qle.
Qed.

Lemma grid_value_le k k' s : 0 <= s -> Qle_bool (grid_value k s) (grid_value k' s) = (k <=? k').
Proof.
  intros Hs. apply eq_true_iff_eq. rewrite Qle_bool_iff, Z.leb_le. unfold grid_value, Qle. cbn [Qnum Qden].
  rewrite Zpos_pow10 by done. assert (0 < 10 ^ s) by (by apply Z.pow_pos_nonneg). nia.
Qed.

(** The numbers of an integer or decimal type are its grid. *)
Lemma grid_typed target : dtype_ok target -> (forall wide, target <> TFloat wide) ->
  exists s lo hi, _grid target = Ok (s, lo, hi) /\ 0 <= s /\ (forall k, lit_num (Series:=unit) (fun _ => None) (_grid_lit k s target) = Some (XFin (grid_value k s))) /\
    forall a, num_typed target a -> exists k, a = XFin (grid_value k s) /\ lo <= k <= hi.
Proof.
  intros Hok Hf. destruct target as [|bits signed|wide|[p|] s| | | | | |]; try done; [|by destruct (Hf wide)|].
  - cbn in Hok. unfold _grid. rewrite (bool_decide_eq_true_2 _ Hok). destruct signed; do 3 eexists; (split; [done|]); (split; [lia|]); (split; [done|]);
      intros a (k & -> & Hk); exists k; (split; [done|lia]).
  - destruct Hok as [Hs Hp]. do 3 eexists. split; [done|]. split; [lia|]. split; [done|]. intros a (k & -> & Hk). exists k. split; [done|lia].
Qed.

(** *** The range expression *)

Section RangeExact.
Context {Series : Type} (series_num : Series -> option xnum).

(** A comparison of one column with a computed edge. *)
Definition edge_expr (c : pystr) (e : expr Series) : Prop :=
  match e with EIsNotNull c' | ECmp _ c' (LFloat _ _ | LInt _ | LDecimal _ _) => c' = c | EFalse => True | _ => False end.

Record exact_for (c : pystr) (op : cmp_op) (target : dtype) (x : xnum) (e : expr Series) : Prop := {
  ex_shape : edge_expr c e;
  ex_null : num_holds series_num e None = false;
  ex_cell a : num_typed target a -> num_holds series_num e (Some a) = xcmp op a x;
}.

Lemma range_float c op b wide : op ∈ _ORDERING ->
  exists e, (edge ← _float_edge b (float_format wide) (upper_bound op);
             Ok (ECmp (if edge_exact (float_format wide) edge b then op else if upper_bound op then CLe else CGe) c (LFloat edge wide))) = Ok e /\
    exact_for c op (TFloat wide) (XFin b) e.
Proof.
  intros Hop. set (f := float_format wide). pose proof (float_format_ok wide) as Hw. fold f in Hw. pose proof (w_ok f Hw) as Hf.
  pose proof (start_near f b Hw) as Hn. unfold _float_edge.
  assert (Hexact : forall w, edge_exact f w b = true -> forall a, xcmp op a (xnum_of f w) = xcmp op a (XFin b)).
  { intros w He a. destruct w as [z|[]|]; try done. cbn in He. apply Qeq_bool_iff in He. by apply xcmp_eqv_any. }
  destruct (upper_bound op) eqn:Hu.
  - destruct (floor_edge f Hf 2 b _ ltac:(lia) Hn) as (w & -> & Hfl). cbn [mbind result_bind]. eexists. split; [done|].
    constructor; [done|done|]. intros a (x & Hx & ->). cbn [num_holds lit_num]. fold f in Hx |- *.
    destruct (edge_exact f w b) eqn:He; [by apply Hexact|by apply xcmp_floor].
  - destruct (ceiling_edge f Hf 2 b _ ltac:(lia) Hn) as (w & -> & Hce). cbn [mbind result_bind]. eexists. split; [done|].
    constructor; [done|done|]. intros a (x & Hx & ->). cbn [num_holds lit_num]. fold f in Hx |- *.
    destruct (edge_exact f w b) eqn:He; [by apply Hexact|]. apply xcmp_ceiling; try done.
    destruct op; try done; [apply list_elem_of_In in Hop; cbn in Hop; naive_solver..|by left|by right].
Qed.

Lemma grid_lit_num k s target : lit_num (Series:=unit) (fun _ => None) (_grid_lit k s target) = lit_num series_num (_grid_lit k s target).
Proof. by destruct target. Qed.

Lemma grid_lit_edge c op k s target : edge_expr c (ECmp op c (_grid_lit k s target)).
Proof. by destruct target. Qed.

Lemma range_grid c op b target : op ∈ _ORDERING -> dtype_ok target -> (forall wide, target <> TFloat wide) ->
  exists e, ('(scale, lo, hi) ← _grid target;
    let scaled := Qmult b (inject_Z (10 ^ scale)) in
    if upper_bound op then
      let edge := if bool_decide (op = CLt) then Qceiling scaled - 1 else Qfloor scaled in
      Ok (if edge <? lo then EFalse else if hi <=? edge then EIsNotNull c else ECmp CLe c (_grid_lit edge scale target))
    else
      let edge := if bool_decide (op = CGt) then Qfloor scaled + 1 else Qceiling scaled in
      Ok (if hi <? edge then EFalse else if edge <=? lo then EIsNotNull c else ECmp CGe c (_grid_lit edge scale target))) = Ok e /\
    exact_for c op target (XFin b) e.
Proof.
  intros Hop Hok Hf. destruct (grid_typed target Hok Hf) as (s & lo & hi & -> & Hs & Hl & Ht). cbn [mbind result_bind].
  assert (Hcell : forall k, xcmp op (XFin (grid_value k s)) (XFin b) =
    match op with CLt => k <=? Qceiling (b * inject_Z (10 ^ s)) - 1 | CLe => k <=? Qfloor (b * inject_Z (10 ^ s))
    | CGt => Qfloor (b * inject_Z (10 ^ s)) + 1 <=? k | _ => Qceiling (b * inject_Z (10 ^ s)) <=? k end \/ op = CEq \/ op = CNe).
  { intros k. destruct op; auto; left; cbn [xcmp xleb]; rewrite ?grid_le, ?grid_ge by done; lia. }
  assert (Hlit : forall k, lit_num series_num (_grid_lit k s target) = Some (XFin (grid_value k s))) by (intros k; by rewrite <- grid_lit_num).
  assert (Hne : op <> CEq /\ op <> CNe) by (apply list_elem_of_In in Hop; cbn in Hop; naive_solver).
  set (ce := Qceiling _) in *. set (fl := Qfloor _) in *.
  destruct (upper_bound op) eqn:Hu.
  - set (edge := if bool_decide _ then _ else _). assert (Hedge : forall k, xcmp op (XFin (grid_value k s)) (XFin b) = (k <=? edge)).
    { intros k. destruct (Hcell k) as [->|]; [|naive_solver]. unfold edge. by destruct op. }
    eexists. split; [done|]. destruct (edge <? lo) eqn:E1; [|destruct (hi <=? edge) eqn:E2]; bool_prop.
    + constructor; [done|done|]. intros a (k & -> & Hk)%Ht. rewrite Hedge. cbn. lia.
    + constructor; [done|done|]. intros a (k & -> & Hk)%Ht. rewrite Hedge. cbn. lia.
    + constructor; [apply grid_lit_edge|done|]. intros a (k & -> & Hk)%Ht. rewrite Hedge. cbn [num_holds]. rewrite Hlit. cbn [xcmp xleb]. by apply grid_value_le.
  - set (edge := if bool_decide _ then _ else _). assert (Hedge : forall k, xcmp op (XFin (grid_value k s)) (XFin b) = (edge <=? k)).
    { intros k. destruct (Hcell k) as [->|]; [|naive_solver]. unfold edge. destruct op; naive_solver. }
    eexists. split; [done|]. destruct (hi <? edge) eqn:E1; [|destruct (edge <=? lo) eqn:E2]; bool_prop.
    + constructor; [done|done|]. intros a (k & -> & Hk)%Ht. rewrite Hedge. cbn. lia.
    + constructor; [done|done|]. intros a (k & -> & Hk)%Ht. rewrite Hedge. cbn. lia.
    + constructor; [apply grid_lit_edge|done|]. intros a (k & -> & Hk)%Ht. rewrite Hedge. cbn [num_holds]. rewrite Hlit. cbn [xcmp xleb]. by apply grid_value_le.
Qed.

(** Literals the range path takes: never NaN, and an infinity only against a type that
    does not hold it. *)
Definition bound_ok (v : value) (target : dtype) : Prop :=
  value_ok v /\ match v with
  | VInt _ | VDecimal (DecFin _ _ _) | VFloat (FFin _) => True
  | VFloat (FInf _) => forall wide, target <> TFloat wide
  | _ => False
  end.

Lemma exact_for_transfer c op target b q e : dtype_ok target ->
  exact_for c op target (XFin b) e -> (forall r, tame r -> same_side r b q) -> exact_for c op target (XFin q) e.
Proof.
  intros Hok [H1 H2 H3] Hs. constructor; [done|done|]. intros a Ha. rewrite (H3 a Ha). destruct a as [r|[]|]; [|by destruct op..].
  destruct (Hs r) as [E1 E2]; [by eapply tame_typed|]. by apply xcmp_same.
Qed.

Lemma infinite_exact c op neg target : op ∈ _ORDERING -> dtype_ok target -> (forall wide, target <> TFloat wide) ->
  exact_for c op target (XInf neg) (if xorb (upper_bound op) neg then EIsNotNull c else EFalse).
Proof.
  intros Hop Hok Hf. constructor; [by destruct (xorb _ _)|by destruct (xorb _ _)|].
  intros a Ha. destruct (grid_typed target Hok Hf) as (s & lo & hi & Hg & Hs & Hl & Ht). destruct (Ht a Ha) as (k & Ek & _). subst a.
  apply list_elem_of_In in Hop. cbn in Hop. destruct Hop as [<-|[<-|[<-|[<-|[]]]]]; by destruct neg.
Qed.

(** The expression is always built, never keeps a null, and compares every number of the
    column with the literal exactly. *)
Lemma range_exact c op v target : op ∈ _ORDERING -> dtype_ok target -> bound_ok v target ->
  exists e x, exact_value v = Some x /\ _range_expr c op v target = Ok e /\ exact_for c op target x e.
Proof.
  intros Hop Hok [Hv Hb].
  assert (Hfin : forall q b, exact_value v = Some (XFin q) -> _exact_bound v = Ok b -> (forall n, v <> VFloat (FInf n)) -> v <> VFloat FNan -> v <> VDecimal DecNan ->
    exists e x, exact_value v = Some x /\ _range_expr c op v target = Ok e /\ exact_for c op target x e).
  { intros q b Hq Eb Hni Hnn Hdn.
    assert (Hbody : exists e, _range_expr c op v target = Ok e /\ exact_for c op target (XFin b) e).
    { unfold _range_expr. rewrite Eb. cbn [mbind result_bind]. destruct (decide (exists wide, target = TFloat wide)) as [(wide & ->)|Hn].
      - pose proof (range_float c op b wide Hop). destruct v as [|?|?|[?|n|]|[? ? ?|?|]|?|? ? ?|? ? ? ?|?|?]; done.
      - assert (Hf : forall wide, target <> TFloat wide) by naive_solver. pose proof (range_grid c op b target Hop Hok Hf) as H.
        destruct v as [|?|?|[?|n|]|[? ? ?|?|]|?|? ? ?|? ? ? ?|?|?]; try done; try (by destruct (Hni n)); destruct target; try done; by destruct (Hf wide). }
    destruct Hbody as (e & He & Hex). exists e, (XFin q). split; [done|]. split; [done|]. eapply exact_for_transfer; [done|exact Hex|].
    intros r Hr. by apply (exact_bound_sound v). }
  destruct v as [|?|n|[z|neg|]|[negative cf e|?|]|?|? ? ?|? ? ? ?|?|?]; try done.
  - by eapply Hfin.
  - by eapply Hfin.
  - do 2 eexists. split; [done|]. split; [done|]. by apply infinite_exact.
  - cbn [_exact_bound] in Hfin. destruct (_exact_bound (VDecimal (DecFin negative cf e))) as [b|] eqn:Eb.
    + by eapply (Hfin _ b).
    + exfalso. cbn [_exact_bound] in Eb. destruct (negb (cf =? 0) && _); [destruct (adjusted cf e >? 0)|]; done.
Qed.
End RangeExact.
