(* ===== verification/SubsetSeed.v ===== *)
(** * Seed selection (subset/_seed.py, with the records of subset/_types.py)

    Which rows a subset starts from: a keyed bottom-k sample, a filter of structured
    predicates, or an explicit key list. Frames are the closure's [PolarsOps]; what else
    polars does for seeding (types, series, casts, filtering by an expression) is the
    interface [SeedOps]. *)

From S2P Require Import Prelude Numerals PyText PyData Floats Canonicalize SubsetRange Derive PlanTypes Closure.

Class SeedOps {P : PolarsOps} := {
  Series : Type;
  (** [f.schema.get(c)] *)
  frame_dtype : Frame -> pystr -> option dtype;
  (** a cell as [iter_rows] gives it *)
  py_cell : cell -> value;
  (** [f.drop_nulls(subset=cols)] *)
  drop_nulls_in : Frame -> list pystr -> Frame;
  (** [f.filter(e)] *)
  filter_expr : Frame -> expr Series -> Frame;
  (** [pl.DataFrame(columns)] *)
  key_frame : list (pystr * Series) -> Frame;
  (** [pl.Series([v], strict=True)], [pl.Series([None], dtype=t)], [pl.Series([], dtype=t)] *)
  series_of : value -> result Series;
  null_series : dtype -> Series;
  empty_series : dtype -> Series;
  series_dtype : Series -> dtype;
  (** [s.cast(t, strict=True)] *)
  cast : Series -> dtype -> result Series;
  (** [s.eq_missing(s').all()] *)
  same_values : Series -> Series -> bool;
  concat_series : list Series -> Series;
}.

(** ** Seed specifications *)

Inductive SeedMode := Sample | Filter | Keys.

Inductive PredicateOp := Compare (op : cmp_op) | In | IsNull | IsNotNull.

Record Predicate := MkPredicate { p_column : pystr; p_op : PredicateOp; p_value : value }.

Record SeedSpec := MkSeed {
  ss_table : pystr;
  ss_mode : SeedMode;
  key_columns : list pystr;
  fraction : option flt;
  count : option Z;
  predicates : list Predicate;
  keys : list (list value);
}.

(** [0 < x <= 1] of a float, or of the 0 that stands for a missing or zero one. *)
Definition proper_fraction (x : flt) : bool :=
  match x with FFin z => (0 <? z) && (z <=? 2 ^ tiny float64) | _ => false end.

(** [SeedSpec(...)] *)
Definition new_seed (s : SeedSpec) : result SeedSpec :=
  _ ← match ss_mode s with
      | Sample =>
          _ ← raise_if (bool_decide (key_columns s = [])) (exc "ValueError");
          _ ← raise_if (Bool.eqb (bool_decide (is_Some (fraction s))) (bool_decide (is_Some (count s)))) (exc "ValueError");
          _ ← raise_if (match fraction s with Some x => negb (proper_fraction x) | None => false end) (exc "ValueError");
          raise_if (match count s with Some n => n <? 1 | None => false end) (exc "ValueError")
      | Filter => raise_if (bool_decide (predicates s = [])) (exc "ValueError")
      | Keys =>
          _ ← raise_if (bool_decide (key_columns s = []) || bool_decide (keys s = [])) (exc "ValueError");
          for_each (fun _ tup => raise_if (negb (zlen tup =? zlen (key_columns s))) (exc "ValueError")) (keys s) tt
      end;
  Ok s.

Definition SUBSET_SEED_KEY_TYPE : string := "subset_seed_key_type".
Definition SUBSET_SEED_KEY_UNCANONICALIZABLE : string := "subset_seed_key_uncanonicalizable".
Definition SUBSET_DUPLICATE_SEED_TABLE : string := "subset_duplicate_seed_table".

(** The sorted union of the columns a table's frame is loaded with. *)
Definition key_columns_needed (table : pystr) (edges : list SubsetEdge) (seeds : list SeedSpec) : list pystr :=
  let of_edge e := (if bool_decide (se_parent_table e = table) then se_parent_columns e else []) ++
                   (if bool_decide (se_child_table e = table) then se_child_columns e else []) in
  let of_seed s := if bool_decide (ss_table s = table) then key_columns s ++ (p_column <$> predicates s) else [] in
  sorted (fromkeys ((edges ≫= of_edge) ++ (seeds ≫= of_seed))).

(** The family of a literal. *)
Inductive kind := KBool | KInt | KFloat | KStr | KDatetime | KBase (name : string).
#[global] Instance kind_eq_dec : EqDecision kind.
Proof. solve_decision. Defined.

Section Seed.
Context `{S : SeedOps} {U : UnicodeForms}.

(** ** Literals *)

Definition base_name (t : dtype) : string :=
  match t with
  | TBool => "Boolean" | TInt _ _ => "Int" | TFloat _ => "Float" | TDecimal _ _ => "Decimal" | TString => "String"
  | TCategorical => "Categorical" | TEnum => "Enum" | TDate => "Date" | TDatetime _ => "Datetime" | TOther name => name
  end.

Definition _value_family (t : dtype) : kind * option pystr :=
  match t with
  | TBool => (KBool, None)
  | TInt _ _ => (KInt, None)
  | TFloat _ => (KFloat, None)
  | TString => (KStr, None)
  | TDatetime time_zone => (KDatetime, time_zone)
  | _ => (KBase (base_name t), None)
  end.

Definition _column_accepts (target : dtype) (family : kind * option pystr) : bool :=
  let '(k, tz) := family in
  match target with
  | TBool => bool_decide (k = KBool)
  | TInt _ _ | TFloat _ | TDecimal _ _ => bool_decide (k ∈ [KInt; KFloat; KBase "Decimal"])
  | TString | TCategorical | TEnum => bool_decide (k = KStr)
  | TDatetime time_zone => bool_decide (k = KDatetime) && bool_decide (tz = time_zone)
  | _ => bool_decide (k = KBase (base_name target))
  end.

Definition _LITERAL_ERRORS : list string := ["PolarsError"; "TypeError"; "ValueError"; "OverflowError"].
Definition literal_error (e : exn) : bool := bool_decide (exc_class e ∈ _LITERAL_ERRORS).

(** [except _LITERAL_ERRORS as exc: raise SubsetConfigError(...)] *)
Definition typed {A} (m : result A) : result A :=
  match m with Err e => if literal_error e then Err (SubsetConfigError SUBSET_SEED_KEY_TYPE) else Err e | Ok a => Ok a end.

Definition _literal_series (v : value) : result Series :=
  match v with
  | VDecimal d => if decimal_finite d then Ok tt else Err (exc "ValueError")
  | _ => Ok tt
  end ≫= fun _ =>
  match series_of v with
  | Err e => if String.eqb (exc_class e) "RuntimeError" then Err (exc "ValueError") else Err e
  | Ok s => Ok s
  end.

Definition exact_part (target : dtype) (src : Series) : result Series :=
  converted ← cast src target;
  back ← cast converted (series_dtype src);
  _ ← raise_if (negb (same_values back src)) (exc "ValueError");
  Ok converted.

(** The family of the values so far, and their parts. *)
Definition add_literal (target : dtype) (acc : option (kind * option pystr) * list Series) (v : value)
  : result (option (kind * option pystr) * list Series) :=
  match v with
  | VNone => Ok (acc.1, acc.2 ++ [null_series target])
  | _ =>
      src ← _literal_series v;
      let value_family := _value_family (series_dtype src) in
      let family := default value_family acc.1 in
      _ ← raise_if (negb (bool_decide (value_family = family)) || negb (_column_accepts target value_family)) (exc "TypeError");
      part ← exact_part target src;
      Ok (Some family, acc.2 ++ [part])
  end.

Definition _literals_exact (values : list value) (target : dtype) : result Series :=
  '(_, parts) ← for_each (add_literal target) values (None, []);
  Ok (if bool_decide (length parts = 0%nat) then empty_series target else concat_series parts).

(** ** Predicates *)

Definition midnight : PyRepr.clock := PyRepr.MkClock 0 0 0 0 None.

(** A naive date-time against a date column, or a date against a naive date-time one. *)
Definition _naive_temporal_range (c : pystr) (op : cmp_op) (v : value) (target : dtype) : result (option (expr Series)) :=
  match target, v with
  | TDate, VDatetime _ _ _ t => Ok (if bool_decide (PyRepr.t_offset t = None) then Some (ECmpMicros op c v) else None)
  | TDatetime None, VDate y m d =>
      bound ← _literals_exact [VDatetime y m d midnight] target; Ok (Some (ECmp op c (LSeries bound)))
  | _, _ => Ok None
  end.

(** [list(p.value)] *)
Definition list_of (v : value) : result (list value) :=
  match v with
  | VTuple l => Ok l
  | VStr s => Ok ((fun c => VStr [c]) <$> s)
  | _ => Err (exc "TypeError")
  end.

Definition is_ordering (op : PredicateOp) : option cmp_op :=
  match op with Compare op => if bool_decide (op ∈ _ORDERING) then Some op else None | _ => None end.

(** The [try] of [_predicate_expr]: a literal of the column's type, or a whole expression. *)
Definition bound_of (c : pystr) (op : PredicateOp) (v : value) (values : list value) (target : dtype)
  : result (Series + expr Series) :=
  match is_ordering op with
  | None => inl <$> _literals_exact values target
  | Some o =>
      if _is_decimal_on_float v target then inr <$> _range_expr c o v target else
      match _literals_exact values target with
      | Ok s => Ok (inl s)
      | Err e =>
          if negb (literal_error e) then Err e else
          bridged ← _naive_temporal_range c o v target;
          match bridged with
          | Some b => Ok (inr b)
          | None => if _is_real_bound v target then inr <$> _range_expr c o v target else Err e
          end
      end
  end.

Definition _predicate_expr (p : Predicate) (kf : Frame) : result (expr Series) :=
  let c := p_column p in
  match p_op p with
  | IsNull => Ok (EIsNull c)
  | IsNotNull => Ok (EIsNotNull c)
  | op =>
      target ← of_option (exc "KeyError") (frame_dtype kf c);
      values ← match op with In => list_of (p_value p) | _ => Ok [p_value p] end;
      bound ← typed (bound_of c op (p_value p) values target);
      match bound, op with
      | inr e, _ => Ok e
      | inl s, Compare o => Ok (ECmp o c (LSeries s))
      | inl s, _ => Ok (EIsIn c s)
      end
  end.

(** [reduce(operator.and_, ...)] *)
Definition _select_filter (spec : SeedSpec) (kf : Frame) : result (gset Z) :=
  es ← map_res (fun p => _predicate_expr p kf) (predicates spec);
  match es with
  | [] => Err (exc "TypeError")
  | e :: es => Ok (list_to_set (int_column (filter_expr kf (fold_left EAnd es e)) RI))
  end.

(** ** Samples *)

(** [floor(x * n)] *)
Definition floor_mul (x : flt) (n : Z) : result Z :=
  match nearest float64 (n * 2 ^ tiny float64) 1, x with
  | FFin w, FFin z =>
      match nearest float64 (z * w) (2 ^ tiny float64) with
      | FFin p => Ok (p / 2 ^ tiny float64)
      | FInf _ => Err (exc "OverflowError")
      | FNan => Err (exc "ValueError")
      end
  | FFin _, FNan => Err (exc "ValueError")
  | _, _ => Err (exc "OverflowError")
  end.

Definition sample_size (spec : SeedSpec) (n : Z) : result Z :=
  k ← match count spec with
      | Some k => Ok k
      | None =>
          m ← match fraction spec with
              | None => Ok 0
              | Some x => if bool_decide (x = FFin 0) then Ok 0 else floor_mul x n
              end;
          Ok (Z.max 1 m)
      end;
  Ok (Z.min k n).

(** One component of a key: its length, then its octets. *)
Definition key_part (v : value) : result bytes :=
  part ← _canonicalize_source v; len ← to_bytes (zlen part) 4; Ok (len ++ part).

Definition key_source (key : list value) : result bytes := parts ← map_res key_part key; Ok (concat parts).

Definition row_key (cols : list pystr) (r : row) : list value :=
  (fun c => match r !! c with Some x => py_cell x | None => VNone end) <$> cols.

(** The row index is a column of its own and never null. *)
Definition row_index (r : row) : result Z :=
  match r !! RI with Some (CInt i) => Ok i | _ => Err (exc "TypeError") end.

Definition digest_of (ctx : DeriveContext) (ns : pystr) (cols : list pystr) (r : row) : result (bytes * Z) :=
  i ← row_index r;
  source ← match key_source (row_key cols r) with
           | Err e => if String.eqb (exc_class e) "GenerationError"
                      then Err (SubsetConfigError SUBSET_SEED_KEY_UNCANONICALIZABLE) else Err e
           | Ok b => Ok b
           end;
  d ← derive_source ctx ns source;
  Ok (d, i).

Definition sample_ns (spec : SeedSpec) : pystr := py "subset/sample/" ++ ss_table spec.

Definition _select_sample (spec : SeedSpec) (kf : Frame) (job_seed : bytes) : result (gset Z * Z) :=
  let ns := sample_ns spec in
  ctx ← for_column job_seed ns;
  let kf := select kf (RI :: key_columns spec) in
  let non_null := drop_nulls_in kf (key_columns spec) in
  let seed_null_excluded := height kf - height non_null in
  let n := height non_null in
  if n =? 0 then Ok (∅, seed_null_excluded) else
  k ← sample_size spec n;
  digests ← map_res (digest_of ctx ns (key_columns spec)) (frame_rows non_null);
  Ok (list_to_set (snd <$> ztake k (sorted digests)), seed_null_excluded).

(** ** Explicit keys *)

Definition key_column (spec : SeedSpec) (kf : Frame) (i : nat) (c : pystr) : result (pystr * Series) :=
  values ← map_res (fun tup => of_option (exc "IndexError") (tup !! i)) (keys spec);
  target ← of_option (exc "KeyError") (frame_dtype kf c);
  col ← typed (_literals_exact values target);
  Ok (c, col).

Definition _select_keys (spec : SeedSpec) (kf : Frame) : result (gset Z) :=
  columns ← map_res (fun ic => key_column spec kf ic.1 ic.2) (imap pair (key_columns spec));
  let key_df := drop_nulls (key_frame columns) in
  Ok (list_to_set (int_column (join_semi kf key_df (key_columns spec) (key_columns spec)) RI)).

(** ** All specifications *)

Record Seeds := MkSeeds { seed_rows : gmap pystr (gset Z); seed_null_excluded : gmap pystr Z }.

Definition select_one (spec : SeedSpec) (kf : Frame) (job_seed : bytes) : result (gset Z * Z) :=
  match ss_mode spec with
  | Sample => _select_sample spec kf job_seed
  | Filter => s ← _select_filter spec kf; Ok (s, 0)
  | Keys => s ← _select_keys spec kf; Ok (s, 0)
  end.

Definition seed_step (key_frames : gmap pystr Frame) (job_seed : bytes) (acc : Seeds) (spec : SeedSpec) : result Seeds :=
  _ ← raise_if (bool_decide (is_Some (seed_rows acc !! ss_table spec))) (SubsetConfigError SUBSET_DUPLICATE_SEED_TABLE);
  kf ← item key_frames (ss_table spec);
  '(selected, excluded) ← select_one spec kf job_seed;
  Ok (MkSeeds (<[ss_table spec := selected]> (seed_rows acc)) (<[ss_table spec := excluded]> (seed_null_excluded acc))).

Definition seed_counts (s : Seeds) : gmap pystr Z := (fun rows => Z.of_nat (size rows)) <$> seed_rows s.

Definition select_seed_rows (seeds : list SeedSpec) (key_frames : gmap pystr Frame) (job_seed : bytes)
  : result (gmap pystr (gset Z) * gmap pystr Z * gmap pystr Z) :=
  s ← for_each (seed_step key_frames job_seed) seeds (MkSeeds ∅ ∅);
  Ok (seed_rows s, seed_counts s, seed_null_excluded s).
End Seed.
