(* ===== verification/SubsetSeedTheory.v ===== *)
(** * Seed selection: what each mode selects

    Filters of ordering predicates select by exact comparison, whatever the column type
    can hold, except for float literals on decimal columns. A sample is the bottom of a keyed order, so it depends on the set of rows
    only and is consistent when rows are added. *)

From S2P Require Import Prelude Numerals PyText PyData Floats Canonicalize SubsetRange Derive Graph PlanTypes Closure SubsetSeed.

(** What the code relies on polars for: the order of rows, filtering by an expression,
    typed cells, numeric comparison (NaN greatest), and strict casts that keep a value or
    fail, or give another one that does not cast back. A float against a decimal column
    is the exception: it may round-trip through the decimal it prints as. *)
Class SeedLaws {P : PolarsOps} {L : PolarsLaws P} (S : SeedOps) := {
  cell_num : dtype -> cell -> xnum;
  series_num : Series -> option xnum;
  expr_holds : Frame -> expr Series -> row -> bool;
  select_list f cols : frame_rows (select f cols) = (restrict_row cols <$> frame_rows f);
  drop_nulls_in_list f cols :
    frame_rows (drop_nulls_in f cols) = List.filter (fun r => forallb (fun c => bool_decide (is_Some (r !! c))) cols) (frame_rows f);
  filter_expr_rows f e r : r ∈ frame_rows (filter_expr f e) <-> r ∈ frame_rows f /\ expr_holds f e r = true;
  and_holds f e e' r : expr_holds f (EAnd e e') r = expr_holds f e r && expr_holds f e' r;
  edge_holds f c t e r :
    frame_dtype f c = Some t -> dtype_ok t -> edge_expr c e -> expr_holds f e r = num_holds series_num e (cell_num t <$> r !! c);
  series_holds f c t op s x r :
    frame_dtype f c = Some t -> dtype_ok t -> series_num s = Some x ->
    expr_holds f (ECmp op c (LSeries s)) r = match r !! c with Some a => xcmp op (cell_num t a) x | None => false end;
  cell_typed f c t r a :
    r ∈ frame_rows f -> frame_dtype f c = Some t -> dtype_ok t -> r !! c = Some a -> num_typed t (cell_num t a);
  series_errors v e : series_of v = Err e -> literal_error e = true \/ exc_class e = "RuntimeError"%string;
  cast_errors s t e : cast s t = Err e -> literal_error e = true;
  cast_exact v t s s' s'' x :
    exact_value v = Some x -> (forall y p q, v = VFloat y -> t <> TDecimal p q) -> dtype_ok t ->
    series_of v = Ok s -> cast s t = Ok s' -> cast s' (series_dtype s) = Ok s'' -> same_values s'' s = true ->
    series_num (concat_series [s']) = Some x;
}.

Section Theory.
Context `{S : SeedOps} {L : PolarsLaws P} {SL : SeedLaws S} {U : UnicodeForms}.

(** ** Filters *)

Lemma literal_series_errors v e : _literal_series v = Err e -> literal_error e = true.
Proof.
  unfold _literal_series. destruct (match v with VDecimal d => _ | _ => _ end) as [[]|e'] eqn:E.
  - cbn [mbind result_bind]. destruct (series_of v) as [s|e'] eqn:Es; [done|]. intros H. destruct (String.eqb _ _) eqn:Er.
    + injection H as <-. by_decide.
    + injection H as <-. destruct (series_errors v e' Es) as [|Hr]; [done|]. rewrite Hr in Er. done.
  - cbn [mbind result_bind]. intros [= <-]. destruct v as [| | | |d| | | | |]; try done. destruct (decimal_finite d); [done|]. injection E as <-. by_decide.
Qed.

(** A single number either converts exactly or raises one of the literal errors. *)
Lemma literal_exact v t x : exact_value v = Some x -> (forall y p q, v = VFloat y -> t <> TDecimal p q) -> dtype_ok t ->
  (exists s, _literals_exact [v] t = Ok s /\ series_num s = Some x) \/ (exists e, _literals_exact [v] t = Err e /\ literal_error e = true).
Proof.
  intros Hx Hp Ht.
  assert (Hv : add_literal t (None, []) v = (src ← _literal_series v;
    _ ← raise_if (negb (bool_decide (_value_family (series_dtype src) = _value_family (series_dtype src))) || negb (_column_accepts t (_value_family (series_dtype src)))) (exc "TypeError");
    part ← exact_part t src; Ok (Some (_value_family (series_dtype src)), [part]))) by (by destruct v).
  unfold _literals_exact. cbn [for_each]. rewrite Hv. destruct (_literal_series v) as [src|e] eqn:Es.
  2:{ right. exists e. split; [done|]. by eapply literal_series_errors. }
  cbn [mbind result_bind]. destruct (_ || _); cbn [raise_if mbind result_bind]; [right; eexists; split; [done|]; by_decide|].
  unfold exact_part. destruct (cast src t) as [s'|e] eqn:Ec; [|right; exists e; split; [done|by eapply cast_errors]].
  cbn [mbind result_bind]. destruct (cast s' (series_dtype src)) as [s''|e] eqn:Eb; [|right; exists e; split; [done|by eapply cast_errors]].
  cbn [mbind result_bind]. destruct (same_values s'' src) eqn:Em; cbn [negb raise_if mbind result_bind]; [|right; eexists; split; [done|]; by_decide].
  left. eexists. split; [done|]. cbn. eapply cast_exact; try done.
  unfold _literal_series in Es. destruct (match v with VDecimal d => _ | _ => _ end) as [[]|]; [|done]. cbn [mbind result_bind] in Es.
  destruct (series_of v) as [s|e']; [congruence|]. by destruct (String.eqb _ _).
Qed.

(** A predicate that orders a numeric column against a number. *)
Record ordering_predicate (kf : Frame) (p : Predicate) (op : cmp_op) (t : dtype) : Prop := {
  op_op : p_op p = Compare op;
  op_ordering : op ∈ _ORDERING;
  op_type : frame_dtype kf (p_column p) = Some t;
  op_numeric : dtype_ok t;
  op_bound : bound_ok (p_value p) t;
  op_float y q s : p_value p = VFloat y -> t <> TDecimal q s;
}.

(** The row's number, compared exactly with the literal. *)
Definition satisfies (kf : Frame) (r : row) (p : Predicate) : bool :=
  match p_op p, frame_dtype kf (p_column p), r !! p_column p, exact_value (p_value p) with
  | Compare op, Some t, Some a, Some x => xcmp op (cell_num t a) x
  | _, _, _, _ => false
  end.

Lemma real_bound v t : bound_ok v t -> dtype_ok t -> _is_real_bound v t = true.
Proof.
  intros [_ Hb] Ht. unfold _is_real_bound. apply andb_true_iff. split.
  - by destruct v as [| | |[]|[]| | | | |].
  - destruct t as [|bits sg|w|[p|] s| | | | | |]; try done. by apply bool_decide_eq_true_2.
Qed.

Lemma naive_none c op v t : bound_ok v t -> dtype_ok t -> _naive_temporal_range c op v t = Ok None.
Proof. intros _ Ht. by destruct t as [|bits sg|w|[p|] s| | | | | |]. Qed.

Lemma range_holds kf p op t : ordering_predicate kf p op t ->
  exists e, _range_expr (p_column p) op (p_value p) t = Ok e /\
    forall r, r ∈ frame_rows kf -> expr_holds kf e r = satisfies kf r p.
Proof.
  intros [Ho Hord Ht Hok Hb Hf]. destruct (range_exact series_num (p_column p) op (p_value p) t Hord Hok Hb) as (e & x & Hx & He & [H1 H2 H3]).
  exists e. split; [done|]. intros r Hr. rewrite (edge_holds kf (p_column p) t) by done. unfold satisfies. rewrite Ho, Ht, Hx.
  destruct (r !! p_column p) as [a|] eqn:Er; cbn [fmap option_fmap option_map]; [|done]. apply H3. by eapply cell_typed.
Qed.

Lemma predicate_exact kf p op t : ordering_predicate kf p op t ->
  exists e, _predicate_expr p kf = Ok e /\ forall r, r ∈ frame_rows kf -> expr_holds kf e r = satisfies kf r p.
Proof.
  intros Hp. pose proof Hp as [Ho Hord Ht Hok Hb Hf]. destruct (range_holds kf p op t Hp) as (e & He & Hr).
  assert (Hx : exists x, exact_value (p_value p) = Some x).
  { destruct Hb as [_ Hb]. destruct (p_value p) as [| | |[]|[]| | | | |]; try done; by eexists. }
  destruct Hx as [x Hx]. unfold _predicate_expr. rewrite Ho, Ht. cbn [of_option mbind result_bind].
  unfold bound_of, is_ordering. rewrite bool_decide_eq_true_2 by done.
  destruct (_is_decimal_on_float _ _); [rewrite He; cbn; by exists e|].
  destruct (literal_exact (p_value p) t x Hx Hf Hok) as [(s & -> & Hs)|(er & -> & Her)].
  - cbn. eexists. split; [done|]. intros r _. rewrite (series_holds kf (p_column p) t op s x) by done. unfold satisfies. by rewrite Ho, Ht, Hx; destruct (r !! p_column p).
  - rewrite Her. cbn [negb]. rewrite naive_none by done. cbn [mbind result_bind]. rewrite real_bound, He by done. cbn. by exists e.
Qed.

Definition ordering_filter (kf : Frame) (ps : list Predicate) : Prop := Forall (fun p => exists op t, ordering_predicate kf p op t) ps.

Lemma fold_and_holds kf es e r : expr_holds kf (fold_left EAnd es e) r = expr_holds kf e r && forallb (fun e => expr_holds kf e r) es.
Proof.
  revert e. induction es as [|e' es IH]; intros e; cbn; [by rewrite andb_true_r|]. by rewrite IH, and_holds, andb_assoc.
Qed.

Lemma filter_exprs kf ps : ordering_filter kf ps -> exists es, map_res (fun p => _predicate_expr p kf) ps = Ok es /\ length es = length ps /\
  forall r, r ∈ frame_rows kf -> forallb (fun e => expr_holds kf e r) es = forallb (satisfies kf r) ps.
Proof.
  induction 1 as [|p ps (op & t & Hp) _ (es & He & Hlen & Hr)]; [by exists []|].
  destruct (predicate_exact kf p op t Hp) as (e & Ee & Hh). exists (e :: es). cbn [map_res]. rewrite Ee. cbn [mbind result_bind]. rewrite He.
  split; [done|]. split; [cbn; lia|]. intros r Hrow. cbn. by rewrite Hh, Hr.
Qed.

(** C37: A filter selects exactly: for predicates that order an integer, float or decimal
    column against an integer or a finite decimal, or an integer or float column against
    a finite float, selection always succeeds, and a row is selected exactly when none of
    its compared cells is null and each, as an exact number, stands in the stated order to
    the literal, also where the column's type cannot hold the literal. (A float literal
    on a decimal column is not compared by its exact value: it is taken as the decimal it
    prints as at the column's scale.) An infinite literal on an integer column selects
    every non-null cell or none. *)
Theorem filter_seeds_exact spec kf :
  predicates spec <> [] -> ordering_filter kf (predicates spec) ->
  exists s, _select_filter spec kf = Ok s /\
    forall i, i ∈ s <-> exists r, r ∈ frame_rows kf /\ r !! RI = Some (CInt i) /\ forallb (satisfies kf r) (predicates spec) = true.
Proof.
  intros Hne Hf. destruct (filter_exprs kf _ Hf) as (es & He & Hlen & Hr). unfold _select_filter. rewrite He. cbn [mbind result_bind].
  destruct es as [|e es]; [by destruct (predicates spec)|]. eexists. split; [done|]. intros i. rewrite elem_of_list_to_set, int_column_rows.
  setoid_rewrite filter_expr_rows. setoid_rewrite fold_and_holds.
  split; [intros (r & [Hin Hh] & Hi)|intros (r & Hin & Hi & Hs)]; exists r; [split; [done|split; [done|]]|split; [split; [done|]|done]].
  - rewrite <- Hr by done. exact Hh.
  - rewrite <- Hr in Hs by done. exact Hs.
Qed.

(** ** Samples *)

Definition has_key (cols : list pystr) (r : row) : bool := forallb (fun c => bool_decide (is_Some (r !! c))) cols.

(** The rows that can be sampled: no null in the key. *)
Definition candidates (spec : SeedSpec) (kf : Frame) : list row := List.filter (has_key (key_columns spec)) (frame_rows kf).

(** A row's place in the keyed order: its digest, then its index. *)
Definition ticket (seed : bytes) (spec : SeedSpec) (r : row) : result (bytes * Z) :=
  ctx ← for_column seed (sample_ns spec); digest_of ctx (sample_ns spec) (key_columns spec) r.

Definition tickets (seed : bytes) (spec : SeedSpec) (kf : Frame) : result (list (bytes * Z)) :=
  map_res (ticket seed spec) (candidates spec kf).

Lemma restrict_lookup cols r c : c ∈ cols -> restrict_row cols r !! c = r !! c.
Proof.
  intros Hc. unfold restrict_row. destruct (r !! c) as [x|] eqn:E.
  - by apply map_lookup_filter_Some.
  - apply map_lookup_filter_None. by left.
Qed.

Lemma restricted_key cols r : has_key cols (restrict_row (RI :: cols) r) = has_key cols r.
Proof.
  unfold has_key. apply eq_true_iff_eq. rewrite !forallb_forall. split; intros H c Hc; specialize (H c Hc);
    [rewrite restrict_lookup in H by (right; by apply list_elem_of_In)|rewrite restrict_lookup by (right; by apply list_elem_of_In)]; done.
Qed.

Lemma restricted_digest ctx ns cols r : digest_of ctx ns cols (restrict_row (RI :: cols) r) = digest_of ctx ns cols r.
Proof.
  unfold digest_of, row_index, row_key. rewrite restrict_lookup by by left.
  replace ((fun c => match restrict_row (RI :: cols) r !! c with Some x => py_cell x | None => VNone end) <$> cols)
    with ((fun c => match r !! c with Some x => py_cell x | None => VNone end) <$> cols); [done|].
  apply list_fmap_ext. intros i c Hc. rewrite restrict_lookup; [done|]. right. by eapply list_elem_of_lookup_2.
Qed.

Lemma filter_fmap {A B} (f : A -> B) (p : B -> bool) l : List.filter p (f <$> l) = f <$> List.filter (fun a => p (f a)) l.
Proof. induction l as [|a l IH]; [done|]. cbn. destruct (p (f a)); cbn; by rewrite IH. Qed.

Lemma map_res_fmap {A B C} (f : A -> B) (g : B -> result C) l : map_res g (f <$> l) = map_res (fun a => g (f a)) l.
Proof. induction l as [|a l IH]; [done|]. cbn. by rewrite IH. Qed.

Lemma non_null_rows spec kf :
  frame_rows (drop_nulls_in (select kf (RI :: key_columns spec)) (key_columns spec)) =
  restrict_row (RI :: key_columns spec) <$> candidates spec kf.
Proof.
  rewrite drop_nulls_in_list, select_list. change (fun r : row => forallb _ (key_columns spec)) with (has_key (key_columns spec)).
  rewrite filter_fmap. unfold candidates. f_equal. apply filter_ext. intros r. apply restricted_key.
Qed.

(** The code's computation, over the rows of the frame itself. *)
Lemma sample_eq spec kf seed :
  _select_sample spec kf seed =
  (_ ← for_column seed (sample_ns spec);
   let excluded := zlen (frame_rows kf) - zlen (candidates spec kf) in
   if bool_decide (candidates spec kf = []) then Ok (∅, excluded) else
   k ← sample_size spec (zlen (candidates spec kf));
   ts ← tickets seed spec kf;
   Ok (list_to_set (snd <$> ztake k (sorted ts)), excluded)).
Proof.
  unfold _select_sample. destruct (for_column seed (sample_ns spec)) as [ctx|e] eqn:Ec; [|done]. cbn [mbind result_bind].
  rewrite !height_rows, non_null_rows, select_list. unfold zlen. rewrite !length_fmap.
  destruct (candidates spec kf) as [|r rs] eqn:Er.
  - rewrite bool_decide_eq_true_2 by done. done.
  - rewrite bool_decide_eq_false_2 by done. replace (Z.of_nat (length (r :: rs)) =? 0) with false by done.
    destruct (sample_size spec _) as [k|]; [|done]. cbn [mbind result_bind]. rewrite <- Er.
    rewrite map_res_fmap. unfold tickets. rewrite (map_res_ext _ (ticket seed spec)); [done|].
    intros a _. rewrite restricted_digest. unfold ticket. by rewrite Ec.
Qed.

(** *** The least tickets *)

Definition bottom (k : Z) (ts : list (bytes * Z)) : gset Z := list_to_set (snd <$> ztake k (sorted ts)).

Lemma sorted_take_drop {A} `{PyOrdLaws A} (l : list A) k x y : Sorted_by id l -> x ∈ take k l -> y ∈ drop k l -> py_leb x y = true.
Proof.
  intros Hs. revert k. induction Hs as [|a l Hs IH Ha]; intros k Hx Hy; [by rewrite take_nil in Hx; apply elem_of_nil in Hx|].
  destruct k as [|k]; [by apply elem_of_nil in Hx|]. cbn in Hx, Hy. apply elem_of_cons in Hx as [->|Hx]; [|by eapply IH].
  rewrite list.Forall_forall in Ha. apply Ha. rewrite <- (take_drop k l). apply elem_of_app. by right.
Qed.

Lemma elem_of_bottom k ts i : i ∈ bottom k ts <-> exists t, t ∈ ztake k (sorted ts) /\ t.2 = i.
Proof.
  unfold bottom. rewrite elem_of_list_to_set, list_elem_of_fmap. split; intros (t & H1 & H2); exists t; by subst.
Qed.

Lemma bottom_size k ts : NoDup ts.*2 -> 0 <= k <= zlen ts -> Z.of_nat (size (bottom k ts)) = k.
Proof.
  intros Hn Hk. unfold bottom. rewrite size_list_to_set.
  - rewrite length_fmap. change (Z.of_nat (length ?l)) with (zlen l). apply zlen_ztake. unfold zlen, sorted. by rewrite sorted_by_perm.
  - assert (Hs : NoDup (sorted ts).*2) by (unfold sorted; by rewrite sorted_by_perm). unfold ztake.
    rewrite fmap_take. rewrite <- (take_drop (Z.to_nat k) (sorted ts).*2) in Hs. by apply list.NoDup_app in Hs as [Hs _].
Qed.

Lemma bottom_least k ts t t' : t ∈ ts -> t' ∈ ts -> NoDup ts.*2 -> t.2 ∈ bottom k ts -> t'.2 ∉ bottom k ts -> py_cmp t t' = Lt.
Proof.
  intros Ht Ht' Hn (u & Hu & E)%elem_of_bottom Hnot.
  assert (Hin : u ∈ ts) by (rewrite <- (sorted_by_perm id ts); rewrite <- (take_drop (Z.to_nat k) (sorted_by id ts)); apply elem_of_app; by left).
  assert (u = t) as ->.
  { apply list_elem_of_lookup in Hin as [a Ha], Ht as [b Hb]. assert (a = b) as ->; [|congruence].
    eapply (proj1 (NoDup_alt _) Hn); rewrite list_lookup_fmap; [by rewrite Ha|rewrite Hb; cbn; by rewrite E]. }
  assert (Hd : t' ∈ drop (Z.to_nat k) (sorted ts)).
  { rewrite <- (sorted_by_perm id ts), <- (take_drop (Z.to_nat k) (sorted_by id ts)) in Ht'. apply elem_of_app in Ht' as [H|H]; [|done].
    destruct Hnot. apply elem_of_bottom. by exists t'. }
  pose proof (sorted_take_drop (sorted ts) (Z.to_nat k) t t' (sorted_by_sorted id ts) Hu Hd) as Hle.
  unfold py_leb in Hle. destruct (py_cmp t t') eqn:Ec; [|done..]. apply py_cmp_eq in Ec as ->. destruct Hnot. apply elem_of_bottom. by exists t'.
Qed.

(** *** Tickets and rows *)

Definition index_cell (r : row) : option cell := r !! RI.
#[local] Arguments index_cell : simpl never.

(** Every row carries its own index, as the loader makes them. *)
Record indexed (kf : Frame) : Prop := {
  ix_some r : r ∈ frame_rows kf -> exists i, r !! RI = Some (CInt i);
  ix_unique : NoDup (index_cell <$> frame_rows kf);
}.

Lemma ticket_index seed spec r t : ticket seed spec r = Ok t -> r !! RI = Some (CInt t.2).
Proof.
  unfold ticket, digest_of, row_index. intros H. destruct (r !! RI) as [[n|]|] eqn:E; ok_inv; done.
Qed.

Lemma candidates_indices spec kf : indexed kf -> NoDup (index_cell <$> candidates spec kf).
Proof.
  intros [_ Hu]. unfold candidates. revert Hu. induction (frame_rows kf) as [|r l IH]; [done|]. cbn. rewrite list.NoDup_cons. intros [Hr Hl].
  destruct (has_key _ r); cbn; [|by apply IH]. apply list.NoDup_cons. split; [|by apply IH]. intros (r' & E & Hin)%list_elem_of_fmap.
  destruct Hr. apply list_elem_of_fmap. exists r'. split; [done|]. by apply elem_of_filter_b in Hin as [Hin _].
Qed.

Lemma tickets_rows seed spec rows ts : map_res (ticket seed spec) rows = Ok ts -> Forall2 (fun r t => ticket seed spec r = Ok t) rows ts.
Proof.
  revert ts. induction rows as [|r rows IH]; intros ts H; cbn in H; ok_inv; constructor; [done|by apply IH].
Qed.

Lemma tickets_indices seed spec kf ts : indexed kf -> tickets seed spec kf = Ok ts -> NoDup ts.*2.
Proof.
  intros Hi H%tickets_rows. apply (NoDup_fmap_1 (fun i => Some (CInt i))). pose proof (candidates_indices spec kf Hi) as Hn.
  replace ((fun i => Some (CInt i)) <$> ts.*2) with (index_cell <$> candidates spec kf); [done|].
  induction H as [|r t rows ts Ht _ IH]; [done|]. cbn. f_equal; [by eapply ticket_index|]. cbn in Hn. apply list.NoDup_cons in Hn as [_ Hn]. by apply IH.
Qed.

Lemma ticket_in seed spec kf ts r t : tickets seed spec kf = Ok ts -> r ∈ candidates spec kf -> ticket seed spec r = Ok t -> t ∈ ts.
Proof.
  intros H%tickets_rows Hr Ht. induction H as [|r' t' rows ts Ht' _ IH]; [by apply elem_of_nil in Hr|].
  apply elem_of_cons in Hr as [->|Hr]; [rewrite Ht in Ht'; injection Ht' as ->; by left|right; by apply IH].
Qed.

Lemma row_ticket seed spec kf ts r : tickets seed spec kf = Ok ts -> r ∈ candidates spec kf -> exists t, ticket seed spec r = Ok t.
Proof.
  intros H%tickets_rows Hr. induction H as [|r' t' rows ts Ht' _ IH]; [by apply elem_of_nil in Hr|].
  apply elem_of_cons in Hr as [->|Hr]; [by exists t'|by apply IH].
Qed.

Lemma ticket_row seed spec kf ts t : tickets seed spec kf = Ok ts -> t ∈ ts -> exists r, (r ∈ candidates spec kf) /\ ticket seed spec r = Ok t.
Proof.
  intros H%tickets_rows Ht. induction H as [|r' t' rows ts Ht' _ IH]; [by apply elem_of_nil in Ht|].
  apply elem_of_cons in Ht as [->|Ht]; [exists r'; split; [by left|done]|]. destruct IH as (r & Hr & H'); [done|]. exists r. split; [by right|done].
Qed.

(** [r] comes before [r'] in the keyed order. *)
Definition before (seed : bytes) (spec : SeedSpec) (r r' : row) : Prop :=
  exists t t', ticket seed spec r = Ok t /\ ticket seed spec r' = Ok t' /\ py_cmp t t' = Lt.

(** A successful sample: nothing to choose from, or the bottom of the tickets. *)
Lemma sample_inv spec kf seed s excluded : _select_sample spec kf seed = Ok (s, excluded) ->
  excluded = zlen (frame_rows kf) - zlen (candidates spec kf) /\
  (candidates spec kf = [] /\ s = ∅ \/
   exists k ts, candidates spec kf <> [] /\ sample_size spec (zlen (candidates spec kf)) = Ok k /\ tickets seed spec kf = Ok ts /\ s = bottom k ts).
Proof.
  rewrite sample_eq. intros H. ok_step. cbn zeta in H. case_bool_decide as Ec.
  - injection H as <- <-. split; [done|]. by left.
  - ok_step. ok_step. injection H as <- <-. split; [done|]. right. by exists a0, a1.
Qed.

Lemma size_bounds spec0 spec n k : new_seed spec0 = Ok spec -> ss_mode spec = Sample -> 0 < n -> sample_size spec n = Ok k -> 1 <= k <= n.
Proof.
  intros H Hm Hn Hk. unfold new_seed in H. ok_step. ok_step. subst spec0. rewrite Hm in E. unfold sample_size in Hk.
  destruct (count spec) as [c|]; ok_inv; bool_prop; lia.
Qed.

Lemma filter_b_perm {A} (p : A -> bool) l l' : l ≡ₚ l' -> List.filter p l ≡ₚ List.filter p l'.
Proof.
  induction 1 as [|a l l' _ IH|a b l|l l' l'' _ IH1 _ IH2]; cbn; [done| | |by etrans].
  - destruct (p a); [by constructor|done].
  - destruct (p a), (p b); try done. constructor.
Qed.

Lemma candidate_of spec kf r : r ∈ candidates spec kf <-> r ∈ frame_rows kf /\ has_key (key_columns spec) r = true.
Proof. apply elem_of_filter_b. Qed.

(** The sampled set of a seed specification, in terms of rows. *)
Lemma sample_rows spec kf seed k ts i : tickets seed spec kf = Ok ts -> i ∈ bottom k ts ->
  exists r, (r ∈ candidates spec kf) /\ r !! RI = Some (CInt i).
Proof.
  intros Hts (t & Ht & <-)%elem_of_bottom.
  assert (Hin : t ∈ ts) by (rewrite <- (sorted_by_perm id ts), <- (take_drop (Z.to_nat k) (sorted_by id ts)); apply elem_of_app; by left).
  destruct (ticket_row _ _ _ _ _ Hts Hin) as (r & Hr & Hrt). exists r. split; [done|]. by eapply ticket_index.
Qed.

Lemma sample_before spec kf seed k ts r r' i j : indexed kf -> tickets seed spec kf = Ok ts ->
  r ∈ candidates spec kf -> r' ∈ candidates spec kf -> r !! RI = Some (CInt i) -> r' !! RI = Some (CInt j) ->
  i ∈ bottom k ts -> j ∉ bottom k ts -> before seed spec r r'.
Proof.
  intros Hi Hts Hr Hr' Ei Ej Hin Hout. destruct (row_ticket _ _ _ _ _ Hts Hr) as [t Ht], (row_ticket _ _ _ _ _ Hts Hr') as [t' Ht'].
  pose proof (ticket_index _ _ _ _ Ht) as E. rewrite Ei in E. injection E as ->. pose proof (ticket_index _ _ _ _ Ht') as E. rewrite Ej in E. injection E as ->.
  exists t, t'. split; [done|]. split; [done|]. apply (bottom_least k ts); try done; [exact (ticket_in _ _ _ _ _ _ Hts Hr Ht)|exact (ticket_in _ _ _ _ _ _ Hts Hr' Ht')|exact (tickets_indices _ _ _ _ Hi Hts)].
Qed.

Lemma sample_nonempty spec kf : candidates spec kf <> [] -> 0 < zlen (candidates spec kf).
Proof. unfold zlen. destruct (candidates spec kf); [done|cbn; lia]. Qed.

(** C38: A sample is the bottom of the keyed order: rows with a null in their key are only
    counted, exactly the requested number of the others is selected (the count, or the
    fraction of them and at least one, but no more than there are), and every selected
    row comes before every other one in the order of their digests. *)
Theorem sample_bottom_k spec0 spec kf seed s excluded :
  new_seed spec0 = Ok spec -> ss_mode spec = Sample -> indexed kf -> _select_sample spec kf seed = Ok (s, excluded) ->
  excluded = zlen (frame_rows kf) - zlen (candidates spec kf) /\
  (candidates spec kf = [] /\ s = ∅ \/
   exists k, sample_size spec (zlen (candidates spec kf)) = Ok k /\ 1 <= k <= zlen (candidates spec kf) /\ Z.of_nat (size s) = k) /\
  (forall i, i ∈ s -> exists r, (r ∈ candidates spec kf) /\ r !! RI = Some (CInt i)) /\
  (forall r r' i j, r ∈ candidates spec kf -> r' ∈ candidates spec kf -> r !! RI = Some (CInt i) -> r' !! RI = Some (CInt j) ->
     i ∈ s -> j ∉ s -> before seed spec r r').
Proof.
  intros Hspec Hmode Hi [Hx H]%sample_inv. split; [done|]. destruct H as [[Hc ->]|(k & ts & Hc & Hk & Hts & ->)].
  - split; [by left|]. split; [by intros i ?%elem_of_empty|]. by intros r r' i j _ _ _ _ ?%elem_of_empty.
  - pose proof (size_bounds _ _ _ _ Hspec Hmode (sample_nonempty _ _ Hc) Hk) as Hb. split; [right; exists k; split; [done|split; [done|]]|split].
    + apply bottom_size; [exact (tickets_indices _ _ _ _ Hi Hts)|]. apply tickets_rows, Forall2_length in Hts. unfold zlen in *. lia.
    + intros i. by apply (sample_rows spec kf seed k ts).
    + intros r r' i j Hr Hr' Ei Ej. by apply (sample_before spec kf seed k ts).
Qed.

(** Samples are consistent: the order of a table's rows does not matter, and with a
    fixed count, a row of a smaller table that is sampled from a larger one containing it
    is also sampled from the smaller one. *)
Theorem sample_consistent spec0 spec kf kf' seed s x s' x' :
  new_seed spec0 = Ok spec -> ss_mode spec = Sample -> indexed kf -> indexed kf' ->
  _select_sample spec kf seed = Ok (s, x) -> _select_sample spec kf' seed = Ok (s', x') ->
  (frame_rows kf ≡ₚ frame_rows kf' -> s = s' /\ x = x') /\
  (is_Some (count spec) -> (forall r, r ∈ frame_rows kf -> r ∈ frame_rows kf') ->
   forall r i, r ∈ frame_rows kf -> r !! RI = Some (CInt i) -> i ∈ s' -> i ∈ s).
Proof.
  intros Hspec Hmode Hi Hi' [Hx H]%sample_inv [Hx' H']%sample_inv. split.
  - intros Hp. assert (Hc : candidates spec kf ≡ₚ candidates spec kf') by (unfold candidates; by apply filter_b_perm).
    assert (Hz : zlen (candidates spec kf) = zlen (candidates spec kf')) by (unfold zlen; by rewrite Hc).
    split; [|subst; rewrite Hz; unfold zlen; by rewrite Hp].
    destruct H as [[Hn ->]|(k & ts & Hn & Hk & Hts & ->)], H' as [[Hn' ->]|(k' & ts' & Hn' & Hk' & Hts' & ->)].
    + done.
    + rewrite Hn in Hc. by apply Permutation_nil_l in Hc.
    + rewrite Hn' in Hc. by apply Permutation_nil_r in Hc.
    + rewrite Hz, Hk' in Hk. injection Hk as ->. destruct (map_res_perm _ _ _ _ Hc Hts) as (us & Hus & Hpu).
      unfold tickets in Hts'. rewrite Hts' in Hus. injection Hus as ->. unfold bottom, sorted. by rewrite (sorted_by_perm_eq id ts us).
  - intros [n Hcount] Hsub r i Hr Ei Hin.
    destruct H' as [[Hn' ->]|(k' & ts' & Hn' & Hk' & Hts' & ->)]; [by apply elem_of_empty in Hin|].
    destruct (sample_rows _ _ _ _ _ _ Hts' Hin) as (r0 & Hr0 & Ei0).
    assert (Hmem : forall a b, a ∈ frame_rows kf' -> b ∈ frame_rows kf' -> a !! RI = b !! RI -> a = b).
    { intros a b [p Ha]%list_elem_of_lookup [q Hb]%list_elem_of_lookup E. assert (p = q) as ->; [|congruence].
      eapply (proj1 (NoDup_alt _) (ix_unique _ Hi')); rewrite list_lookup_fmap; [by rewrite Ha|rewrite Hb; cbn; unfold index_cell; by rewrite E]. }
    assert (r0 = r) as ->. { apply Hmem; [by apply candidate_of in Hr0 as [? _]|by apply Hsub|congruence]. }
    assert (Hcand : r ∈ candidates spec kf) by (apply candidate_of; apply candidate_of in Hr0 as [_ ?]; done).
    destruct H as [[Hn ->]|(k & ts & Hn & Hk & Hts & ->)]; [by rewrite Hn in Hcand; apply elem_of_nil in Hcand|].
    destruct (decide (i ∈ bottom k ts)) as [|Hout]; [done|]. exfalso.
    assert (Hlt : bottom k ts ⊆ bottom k' ts').
    { intros j Hj. destruct (decide (j ∈ bottom k' ts')) as [|Hj']; [done|]. exfalso.
      destruct (sample_rows _ _ _ _ _ _ Hts Hj) as (q & Hq & Eq).
      assert (Hq' : q ∈ candidates spec kf') by (apply candidate_of in Hq as [Hq1 Hq2]; apply candidate_of; split; [by apply Hsub|done]).
      destruct (sample_before _ _ _ _ _ q r j i Hi Hts Hq Hcand Eq Ei Hj Hout) as (t & t' & T1 & T2 & T3).
      destruct (sample_before _ _ _ _ _ r q i j Hi' Hts' Hr0 Hq' Ei Eq Hin Hj') as (u & u' & U1 & U2 & U3).
      rewrite T1 in U2. rewrite T2 in U1. injection U1 as <-. injection U2 as <-. rewrite py_cmp_sym, T3 in U3. done. }
    assert (Hss : (size (bottom k ts) < size (bottom k' ts'))%nat).
    { apply subset_size. split; [done|]. intros Hrev. by apply Hout, Hrev. }
    assert (Hk1 : Z.of_nat (size (bottom k ts)) = k).
    { apply bottom_size; [exact (tickets_indices _ _ _ _ Hi Hts)|]. pose proof (size_bounds _ _ _ _ Hspec Hmode (sample_nonempty _ _ Hn) Hk).
      apply tickets_rows, Forall2_length in Hts. unfold zlen in *. lia. }
    assert (Hk2 : Z.of_nat (size (bottom k' ts')) = k').
    { apply bottom_size; [exact (tickets_indices _ _ _ _ Hi' Hts')|]. pose proof (size_bounds _ _ _ _ Hspec Hmode (sample_nonempty _ _ Hn') Hk').
      apply tickets_rows, Forall2_length in Hts'. unfold zlen in *. lia. }
    assert (Hcard : zlen ts = k \/ k = n /\ k' <= n).
    { unfold sample_size in Hk, Hk'. rewrite Hcount in Hk, Hk'. cbn in Hk, Hk'. injection Hk as Hk. injection Hk' as Hk'.
      apply tickets_rows, Forall2_length in Hts. unfold zlen in *. lia. }
    destruct Hcard as [Hall|[-> Hle]]; [|lia]. destruct Hout.
    destruct (row_ticket _ _ _ _ _ Hts Hcand) as [t Ht]. pose proof (ticket_index _ _ _ _ Ht) as E. rewrite Ei in E. injection E as ->.
    apply elem_of_bottom. exists t. split; [|done]. unfold ztake. rewrite take_ge by (unfold sorted; rewrite sorted_by_perm; unfold zlen in *; lia).
    apply elem_of_sorted. by eapply ticket_in.
Qed.

(** ** Whatever the mode, rows of the table *)

Definition row_of (kf : Frame) (i : Z) : Prop := exists r, r ∈ frame_rows kf /\ r !! RI = Some (CInt i).

Lemma select_one_rows spec kf seed s x i : select_one spec kf seed = Ok (s, x) -> i ∈ s -> row_of kf i.
Proof.
  unfold select_one. destruct (ss_mode spec); intros H Hi.
  - apply sample_inv in H as [_ [[_ ->]|(k & ts & _ & _ & Hts & ->)]]; [by apply elem_of_empty in Hi|].
    destruct (sample_rows _ _ _ _ _ _ Hts Hi) as (r & Hr & E). exists r. split; [by apply candidate_of in Hr as [? _]|done].
  - unfold _select_filter in H. ok_inv. destruct a0 as [|e es]; [done|]. injection E as <-.
    apply elem_of_list_to_set, int_column_rows in Hi as (r & Hr & Er). apply filter_expr_rows in Hr as [Hr _]. by exists r.
  - unfold _select_keys in H. ok_inv. apply elem_of_list_to_set, int_column_rows in Hi as (r & Hr & Er).
    apply join_semi_rows in Hr as [Hr _]. by exists r.
Qed.

(** After some specifications: their tables are distinct and hold rows of theirs. *)
Record seeded (key_frames : gmap pystr Frame) (specs : list SeedSpec) (acc : Seeds) : Prop := {
  sd_distinct : NoDup (ss_table <$> specs);
  sd_tables t : is_Some (seed_rows acc !! t) <-> t ∈ (ss_table <$> specs);
  sd_known t : is_Some (seed_rows acc !! t) -> is_Some (key_frames !! t);
  sd_rows t s i : seed_rows acc !! t = Some s -> i ∈ s -> exists kf, key_frames !! t = Some kf /\ row_of kf i;
}.

Lemma seeds_seeded key_frames seed specs acc : for_each (seed_step key_frames seed) specs (MkSeeds ∅ ∅) = Ok acc -> seeded key_frames specs acc.
Proof.
  revert acc. induction specs as [|spec specs IH] using rev_ind; intros acc H.
  - injection H as <-. constructor; [constructor| |by intros t [? ?]|done]. intros t. cbn. rewrite lookup_empty. split; [by intros [? ?]|by intros ?%elem_of_nil].
  - rewrite for_each_app in H. destruct (for_each _ specs _) as [a|] eqn:E; [|done]. destruct (IH _ eq_refl) as [Hd Ht Hk Hr]. clear IH.
    cbn [for_each mbind result_bind] in H. destruct (seed_step _ _ a spec) as [a'|] eqn:E0; [|done]. injection H as ->.
    unfold seed_step, item in E0. destruct (bool_decide (is_Some (seed_rows a !! ss_table spec))) eqn:Hnew; [done|]. apply bool_decide_eq_false in Hnew.
    destruct (key_frames !! ss_table spec) as [f|] eqn:Ef; [|done]. cbn [raise_if of_option mbind result_bind] in E0.
    destruct (select_one spec f seed) as [[s x]|] eqn:Es; [|done]. injection E0 as <-.
    assert (Eapp : ss_table <$> (specs ++ [spec]) = (ss_table <$> specs) ++ [ss_table spec]) by (unfold fmap; apply map_app).
    constructor; rewrite ?Eapp; cbn [seed_rows].
    + apply list.NoDup_app. split; [done|]. split; [|apply NoDup_singleton]. intros t Hin ->%list_elem_of_singleton. by apply Hnew, Ht.
    + intros t. rewrite elem_of_app, <- Ht, list_elem_of_singleton. destruct (decide (t = ss_table spec)) as [->|Hn].
      * rewrite lookup_insert_eq. split; [by right|by eexists].
      * rewrite lookup_insert_ne by done. naive_solver.
    + intros t. destruct (decide (t = ss_table spec)) as [->|Hn]; [by eexists|]. rewrite lookup_insert_ne by done. apply Hk.
    + intros t u i. destruct (decide (t = ss_table spec)) as [->|Hn].
      * rewrite lookup_insert_eq. intros [= <-] Hi. exists f. split; [done|]. by eapply select_one_rows.
      * rewrite lookup_insert_ne by done. apply Hr.
Qed.

(** A subset grown from its seeds: seed selection that succeeds gives every specified
    table one set, and only those, and closing these sets keeps all seeds and holds
    nothing but rows of the tables, for any closure that succeeds. *)
Theorem subset_from_seeds seeds edges directions key_frames budget_check job_seed rows counts nulls r :
  inputs_ok edges directions key_frames ->
  select_seed_rows seeds key_frames job_seed = Ok (rows, counts, nulls) ->
  compute_closure edges directions key_frames rows budget_check = Ok r ->
  NoDup (ss_table <$> seeds) /\
  (forall t, is_Some (rows !! t) <-> t ∈ (ss_table <$> seeds)) /\
  (forall t s, rows !! t = Some s -> counts !! t = Some (Z.of_nat (size s)) /\
     exists c, cr_survivors r !! t = Some c /\ s ⊆ c) /\
  (forall t c i, cr_survivors r !! t = Some c -> i ∈ c -> exists kf, key_frames !! t = Some kf /\ row_of kf i).
Proof.
  intros Hin Hs Hc. unfold select_seed_rows in Hs. destruct (for_each _ seeds _) as [acc|] eqn:E; [|done]. injection Hs as <- <- <-.
  destruct (seeds_seeded _ _ _ _ E) as [Hd Ht Hk Hr]. split; [done|]. split; [done|].
  destruct (compute_closure_spec edges directions key_frames (seed_rows acc) Hin budget_check)
    as [(r' & Hr' & [Hg _])|(surv & stats & e & _ & He)]; [|rewrite Hc in He; discriminate].
  rewrite Hc in Hr'. injection Hr' as <-. split.
  - intros t s Hs. split; [unfold seed_counts; by rewrite lookup_fmap, Hs|].
    destruct (g_seed _ _ _ _ _ Hg t s) as (c & Hcs & Hsub); [|by exists c].
    rewrite seed_survivors_lookup. destruct (Hk t) as [kf ->]; [by eexists|]. cbn. by rewrite Hs.
  - intros t c i Hcs Hi. destruct (proj1 (g_dom _ _ _ _ _ Hg t)) as [kf Hkf]; [by eexists|].
    pose proof (g_bound _ _ _ _ _ Hg t c kf Hcs Hkf i Hi) as [Hseed|Hrow]%elem_of_union.
    + destruct (seed_rows acc !! t) as [s|] eqn:Es; [by apply (Hr t s)|by apply elem_of_empty in Hseed].
    + exists kf. split; [done|]. by apply elem_of_list_to_set, int_column_rows in Hrow.
Qed.
End Theory.

(** ** Key octets *)

Section KeySource.
Context {U : UnicodeForms}.

Lemma key_part_inv v b : key_part v = Ok b ->
  exists part len, _canonicalize_source v = Ok part /\ b = len ++ part /\ zlen len = 4 /\ from_bytes len = zlen part.
Proof.
  unfold key_part. intros H. ok_inv. apply to_bytes_inv in E0 as (_ & H1 & _ & H2); [|lia]. by exists a, a0.
Qed.

(** The octets of a key determine the octets of each component: components cannot be
    shifted into one another. *)
Lemma key_source_inj k k' b : length k = length k' -> key_source k = Ok b -> key_source k' = Ok b ->
  map_res _canonicalize_source k = map_res _canonicalize_source k'.
Proof.
  unfold key_source. revert k' b. induction k as [|v k IH]; intros [|v' k'] b Hl H H'; try done. cbn [map_res] in *.
  destruct (key_part v) as [p|] eqn:E; [|done]. destruct (key_part v') as [p'|] eqn:E'; [|done]. cbn [mbind result_bind] in H, H'.
  destruct (map_res key_part k) as [ps|] eqn:Ek; [|done]. destruct (map_res key_part k') as [ps'|] eqn:Ek'; [|done]. cbn [mbind result_bind concat] in H, H'.
  injection H as <-. injection H' as H'.
  apply key_part_inv in E as (a & n & Ha & -> & Hn & Hna), E' as (a' & n' & Ha' & -> & Hn' & Hna').
  rewrite <- !app_assoc in H'. apply app_inj_1 in H' as [-> H']; [|unfold zlen in *; lia]. rewrite Hna' in Hna.
  apply app_inj_1 in H' as [-> H']; [|unfold zlen in *; lia]. rewrite Ha, Ha'. cbn [mbind result_bind].
  rewrite (IH k' (concat ps)); [done|by injection Hl|done|]. rewrite Ek'. cbn. by rewrite H'.
Qed.
End KeySource.

(** ** A reference instance and one input for each theorem

    Frames of the closure's reference instance whose columns are all 64-bit integers, with
    the laws of [SeedLaws]. *)

Definition int64 : dtype := TInt 64 true.
Definition in_int64 (n : Z) : bool := (- 2 ^ 63 <=? n) && (n <? 2 ^ 63).

(** A cell read as a 64-bit integer. *)
Definition int_of_cell (a : cell) : Z := match a with CInt n => (n + 2 ^ 63) mod 2 ^ 64 - 2 ^ 63 | COther _ => 0 end.
Definition ref_num (_ : dtype) (a : cell) : xnum := XFin (QArith_base.inject_Z (int_of_cell a)).

(** A series is its cells, null where there is none. *)
Definition ref_series_num (s : list (option Z)) : option xnum :=
  match s with [Some n] => Some (XFin (QArith_base.inject_Z n)) | _ => None end.

Fixpoint ref_holds (e : expr (list (option Z))) (r : row) : bool :=
  match e with
  | EAnd e e' => ref_holds e r && ref_holds e' r
  | EIsNull c | EIsNotNull c | ECmp _ c _ => num_holds ref_series_num e (ref_num int64 <$> r !! c)
  | EIsIn c s => match r !! c with Some a => bool_decide (Some (int_of_cell a) ∈ s) | None => false end
  | EFalse | ECmpMicros _ _ _ => false
  end.

Definition ref_key_frame (columns : list (pystr * list (option Z))) : list pystr * list row :=
  let cell_at (i : nat) (cs : pystr * list (option Z)) : option (pystr * cell) :=
    match cs.2 !! i with Some (Some n) => Some (cs.1, CInt n) | _ => None end in
  (columns.*1, (fun i => list_to_map (omap (cell_at i) columns)) <$> seq 0 (length (default [] (columns.*2 !! 0%nat)))).

#[local] Existing Instances ref_polars ref_polars_laws.

Definition ref_seed : @SeedOps ref_polars :=
  @Build_SeedOps ref_polars (list (option Z))
    (fun f c => if bool_decide (c ∈ f.1) then Some int64 else None)
    (fun a => match a with CInt n => VInt n | COther s => VStr s end)
    (fun f cols => (f.1, List.filter (fun r => forallb (fun c => bool_decide (is_Some (r !! c))) cols) f.2))
    (fun f e => (f.1, List.filter (ref_holds e) f.2))
    ref_key_frame
    (fun v => match v with VInt n => if in_int64 n then Ok [Some n] else Err (exc "OverflowError") | _ => Err (exc "TypeError") end)
    (fun _ => [None]) (fun _ => []) (fun _ => int64)
    (fun s t => if bool_decide (t = int64) then Ok s else Err (exc "TypeError"))
    (fun s s' => bool_decide (s = s'))
    (@concat _).
#[local] Existing Instance ref_seed.

Lemma ref_typed t a : num_typed int64 (ref_num t a).
Proof.
  exists (int_of_cell a). split; [done|]. destruct a as [n|s]; cbn [int_of_cell]; [|lia].
  pose proof (Z.mod_pos_bound (n + 2 ^ 63) (2 ^ 64)). lia.
Qed.

Definition ref_seed_laws : @SeedLaws ref_polars ref_polars_laws ref_seed.
Proof.
  refine (@Build_SeedLaws ref_polars ref_polars_laws ref_seed ref_num ref_series_num (fun _ => ref_holds) _ _ _ _ _ _ _ _ _ _); cbn -[num_holds].
  - done.
  - done.
  - intros f e r. apply elem_of_filter_b.
  - done.
  - intros f c t e r Ht _ He. case_bool_decide; [|done]. injection Ht as <-. by destruct e as [| | |? ? []| | |]; cbn in He; subst.
  - intros f c t op s x r _ _ Hs. cbn. destruct (r !! c); cbn; [by rewrite Hs|done].
  - intros f c t r a _ Ht _ _. case_bool_decide; [|done]. injection Ht as <-. apply ref_typed.
  - intros v e. left. destruct v; try (injection H as <-; by_decide). destruct (in_int64 n); [done|]. injection H as <-. by_decide.
  - intros s t e. case_bool_decide; [done|]. intros [= <-]. by_decide.
  - intros v t s s' s'' x Hx _ _ Hv Hc _ _. destruct v; try done. destruct (in_int64 n); [|done]. injection Hv as <-.
    case_bool_decide; [|done]. injection Hc as <-. injection Hx as <-. done.
Qed.
#[local] Existing Instance ref_seed_laws.

Definition plain_unicode : UnicodeForms := {| nfc := id; nfc_ascii s _ := eq_refl |}.
#[local] Existing Instance plain_unicode.

(** ** Samples *)

Definition is_ok_seed {A} (m : result A) : bool := match m with Ok _ => true | Err _ => false end.

Definition person (i id : Z) : row := sample_row i [(py "id", id)].
Definition small : Frame := ([RI; py "id"], [person 0 10; person 1 (-11); sample_row 2 []]).
Definition large : Frame := ([RI; py "id"], [person 0 10; person 1 (-11); sample_row 2 []; person 3 77; person 4 300]).

(** [id > 10.5] and [id <= 2 ** 70], which no 64-bit column holds. *)
Definition between : SeedSpec :=
  MkSeed (py "people") Filter [] None None
    [MkPredicate (py "id") (Compare CGt) (VFloat (FFin (21 * 2 ^ 1073))); MkPredicate (py "id") (Compare CLe) (VInt (2 ^ 70))] [].

Definition one_of : SeedSpec := MkSeed (py "people") Sample [py "id"] None (Some 1) [] [].
Definition job_seed : bytes := replicate 32 7.

Lemma int64_predicate f p op : bool_decide (py "id" ∈ f.1) = true -> p_column p = py "id" -> p_op p = Compare op -> op ∈ _ORDERING ->
  match p_value p with VInt _ => True | VFloat (FFin z) => representable float64 z | _ => False end -> @ordering_predicate ref_polars ref_seed f p op int64.
Proof.
  intros Hc Hp Ho Hop Hv. constructor; try done.
  - cbn. by rewrite Hp, Hc.
  - by_decide.
  - split; by destruct (p_value p) as [| | |[]|[]| | | | |].
Qed.

Lemma between_ok : @ordering_filter ref_polars ref_seed large (predicates between).
Proof.
  constructor; [|constructor; [|constructor]].
  - exists CGt, int64. apply int64_predicate; try done; [by_decide|].
    exists 21, 1073. split; [lia|]. split; [done|]. split; [done|]. unfold top. cbn [tiny huge float64]. vm_compute. reflexivity.
  - exists CLe, int64. by apply int64_predicate; try by_decide.
Qed.

Lemma filter_seeds_exact_witness : exists s, _select_filter between large = Ok s /\
  forall i, i ∈ s <-> exists r, r ∈ frame_rows large /\ r !! RI = Some (CInt i) /\ forallb (satisfies large r) (predicates between) = true.
Proof. apply (filter_seeds_exact between large); [done|exact between_ok]. Defined.

Example between_rows : (fun s => sorted_set s) <$> _select_filter between large = Ok [3; 4].
Proof. vm_compute. reflexivity. Qed.

Lemma indexed_check f :
  forallb (fun r : row => match r !! RI with Some (CInt _) => true | _ => false end) f.2 && bool_decide (NoDup (index_cell <$> f.2)) = true -> indexed f.
Proof.
  intros [H Hn]%andb_true_iff. apply bool_decide_eq_true in Hn. constructor; [|done]. intros r Hr%list_elem_of_In.
  rewrite forallb_forall in H. specialize (H r Hr). destruct (r !! RI) as [[n|]|]; try done. by exists n.
Qed.

Lemma small_indexed : indexed small.
Proof. apply indexed_check. vm_compute. reflexivity. Qed.
Lemma large_indexed : indexed large.
Proof. apply indexed_check. vm_compute. reflexivity. Qed.

Definition sampled (f : Frame) : gset Z * Z := match _select_sample one_of f job_seed with Ok p => p | Err _ => (∅, 0) end.

Lemma sampled_ok f : is_ok_seed (_select_sample one_of f job_seed) = true -> _select_sample one_of f job_seed = Ok ((sampled f).1, (sampled f).2).
Proof. unfold sampled. destruct (_select_sample _ _ _) as [[s x]|]; done. Qed.
Lemma small_sampled : _select_sample one_of small job_seed = Ok ((sampled small).1, (sampled small).2).
Proof. apply sampled_ok. vm_compute. reflexivity. Qed.
Lemma large_sampled : _select_sample one_of large job_seed = Ok ((sampled large).1, (sampled large).2).
Proof. apply sampled_ok. vm_compute. reflexivity. Qed.

(** One row of [large] is sampled, and its row without an id is counted. *)
Lemma sample_bottom_k_witness : (sampled large).2 = zlen (frame_rows large) - zlen (candidates one_of large).
Proof. apply (sample_bottom_k one_of one_of large job_seed (sampled large).1 (sampled large).2 eq_refl eq_refl large_indexed large_sampled). Defined.

Lemma sample_consistent_witness : is_Some (count one_of) /\ forall r i, r ∈ frame_rows small -> r !! RI = Some (CInt i) -> i ∈ (sampled large).1 -> i ∈ (sampled small).1.
Proof.
  split; [by eexists|].
  apply (sample_consistent one_of one_of small large job_seed _ _ _ _ eq_refl eq_refl small_indexed large_indexed small_sampled large_sampled); [by eexists|].
  intros r. cbn [frame_rows ref_polars small large snd]. rewrite !elem_of_cons. tauto.
Defined.

(** Seeds of the closure's sample: a filter on its orders. *)
Definition order_seed : SeedSpec :=
  MkSeed (py "orders") Filter [] None None [MkPredicate (py "person") (Compare CLt) (VInt 11)] [].
Definition seeded_orders : result (survivor_map * gmap pystr Z * gmap pystr Z) := select_seed_rows [order_seed] sample_frames job_seed.

Example seeded_orders_rows : (fun s => sorted_set <$> s.1.1 !! py "orders") <$> seeded_orders = Ok (Some [0]).
Proof. vm_compute. reflexivity. Qed.

Definition order_rows : survivor_map := match seeded_orders with Ok s => s.1.1 | Err _ => ∅ end.
Definition order_closure : result ClosureResult :=
  compute_closure sample_edges sample_directions sample_frames order_rows (make_budget_check (fp_budget sample_policy) 1).

Lemma order_closure_ok : exists r, order_closure = Ok r.
Proof.
  assert (H : is_ok_seed order_closure = true) by (vm_compute; reflexivity). destruct order_closure as [r|]; [by exists r|done].
Qed.

Lemma seeded_orders_ok : exists c n, seeded_orders = Ok (order_rows, c, n).
Proof.
  assert (H : is_ok_seed seeded_orders = true) by (vm_compute; reflexivity). unfold order_rows. destruct seeded_orders as [[[s c] n]|]; [|done]. by exists c, n.
Qed.

Lemma subset_from_seeds_witness : exists r, order_closure = Ok r /\
  forall t c i, cr_survivors r !! t = Some c -> i ∈ c -> exists kf, sample_frames !! t = Some kf /\ row_of kf i.
Proof.
  destruct order_closure_ok as [r H]. destruct seeded_orders_ok as (c & n & Hs). exists r. split; [exact H|].
  apply (subset_from_seeds [order_seed] sample_edges sample_directions sample_frames (make_budget_check (fp_budget sample_policy) 1)
    job_seed order_rows c n r sample_inputs Hs H).
Defined.
