(* ===== verification/FileSystem.v ===== *)
(** * The operating system's files

    The system calls the file policy makes (the [os] module over POSIX files): inodes,
    directories of named inodes, descriptors that refer to inodes. Each call may fail
    with any error, and other processes may change the tree between any two calls: the
    class [SysEnv]. Permissions are among the failures; times and owners are left out. *)

From S2P Require Import Prelude Numerals PyText.

(** A device and an inode number. *)
Abbreviation ino := (Z * Z)%type.

Inductive node :=
| NFile (data : bytes) (mode : Z)
| NDir (entries : gmap pystr ino)
| NLink (target : pystr)
| NSpecial.                                              (* a fifo, a device, a socket *)

Abbreviation tree := (gmap ino node).

(** The nodes, the open descriptors with their inodes, and the calls made so far. *)
Record sys := MkSys { nodes : tree; fds : gmap Z ino; tick : nat }.

Inductive errno :=
| ENOENT | EIO | EBADF | EEXIST | EXDEV | ENOTDIR | EISDIR | EINVAL | ENAMETOOLONG | ENOTEMPTY | ELOOP | EOTHER (n : Z).
#[global] Instance errno_eq_dec : EqDecision errno.
Proof. solve_decision. Defined.

(** What the file layer raises; [Raised] is any exception of another package. *)
Inductive error :=
| OSError (e : errno)
| FileAccessDenied (field_key : pystr)
| FileAccessReadError (field_key : pystr)
| FileAccessUnavailable
| UnicodeEncodeError
| ValueError
| Raised (e : exn).
#[global] Instance error_eq_dec : EqDecision error.
Proof. solve_decision. Defined.

(** Failures of the calls (of [close] apart), the changes others make before each, how
    many of [n] octets a write lands, and the mask of created modes. *)
Class SysEnv := {
  fault : nat -> option errno;
  close_fault : nat -> option errno;
  others : nat -> tree -> tree;
  landed : nat -> Z -> Z;
  umask : Z;
}.

(** ** Computations that call the system *)

Definition Run (W A : Type) : Type := W -> W * (A + error).
Abbreviation Sys := (Run sys).
#[global] Instance run_ret W : MRet (Run W) := fun A a w => (w, inl a).
#[global] Instance run_bind W : MBind (Run W) := fun A B f m w =>
  match m w with (w', inl a) => f a w' | (w', inr e) => (w', inr e) end.

Definition throw {W A} (e : error) : Run W A := fun w => (w, inr e).
Definition throw_if {W} (b : bool) (e : error) : Run W unit := if b then throw e else mret tt.

(** [try: m except E: h] *)
Definition catch {W A} (caught : error -> bool) (m : Run W A) (h : error -> Run W A) : Run W A := fun w =>
  match m w with (w', inr e) => if caught e then h e w' else (w', inr e) | out => out end.

(** [try: m finally: h] *)
Definition ensuring {W A} (m : Run W A) (h : Run W unit) : Run W A := fun w =>
  let '(w1, out) := m w in
  match h w1 with (w2, inl _) => (w2, out) | (w2, inr e) => (w2, inr e) end.

Definition is_os_error (e : error) : bool := match e with OSError _ => true | _ => false end.
Definition is_errno (n : errno) (e : error) : bool := bool_decide (e = OSError n).
Definition any_error (e : error) : bool := true.

(** ** Names *)

(** [os.fsencode]: UTF-8 with [surrogateescape]. *)
Definition fs_char (c : Z) : result bytes :=
  if (56448 <=? c) && (c <? 56576) then Ok [c - 56320] else utf8_char c.
Definition fsencode (s : pystr) : result bytes := bs ← map_res fs_char s; Ok (concat bs).

(** [rel.split("/")] *)
Fixpoint split_slash (s : pystr) : list pystr :=
  match s with
  | [] => [[]]
  | c :: s =>
      if c =? 47 then [] :: split_slash s
      else match split_slash s with p :: ps => (c :: p) :: ps | [] => [[c]] end
  end.

Definition dot_name : pystr := py ".".
Definition dotdot : pystr := py "..".

Definition name_fits (s : pystr) : bool := match fsencode s with Ok b => zlen b <=? 255 | Err _ => false end.
Definition path_fits (s : pystr) : bool := match fsencode s with Ok b => zlen b <? 4096 | Err _ => false end.

(** ** System calls *)

Section Calls.
Context {V : SysEnv}.

Definition syscall {A} (f : sys -> sys * (A + error)) : Sys A := fun w =>
  let w' := MkSys (others (tick w) (nodes w)) (fds w) (S (tick w)) in
  match fault (tick w) with Some e => (w', inr (OSError e)) | None => f w' end.

Definition sys_fail {A} (e : errno) : sys -> sys * (A + error) := fun w => (w, inr (OSError e)).

(** A descriptor's inode. *)
Definition with_fd {A} (fd : Z) (f : ino -> sys -> sys * (A + error)) : sys -> sys * (A + error) := fun w =>
  match fds w !! fd with Some i => f i w | None => sys_fail EBADF w end.

Definition new_fd (i : ino) : sys -> sys * (Z + error) := fun w =>
  let fd := fresh (dom (fds w)) in (MkSys (nodes w) (<[fd := i]> (fds w)) (tick w), inl fd).

Definition set_node (i : ino) (n : node) (w : sys) : sys := MkSys (<[i := n]> (nodes w)) (fds w) (tick w).

(** The inode a directory holds under a name. *)
Definition entry (t : tree) (d : ino) (name : pystr) : option ino :=
  match t !! d with Some (NDir es) => es !! name | _ => None end.

Definition is_dir (t : tree) (i : ino) : bool := match t !! i with Some (NDir _) => true | _ => false end.
Definition is_link (t : tree) (i : ino) : bool := match t !! i with Some (NLink _) => true | _ => false end.

(** One name looked up without following a link. *)
Definition step_name (t : tree) (d : ino) (name : pystr) : ino + errno :=
  if negb (is_dir t d) then inr ENOTDIR else
  if negb (name_fits name) then inr ENAMETOOLONG else
  match entry t d name with None => inr ENOENT | Some i => if is_link t i then inr ELOOP else inl i end.

(** Resolution beneath a directory ([RESOLVE_BENEATH | RESOLVE_NO_SYMLINKS |
    RESOLVE_NO_MAGICLINKS]): [stack] is the current directory and those above it, up to
    the root that [..] may not leave. *)
Fixpoint beneath (t : tree) (stack : list ino) (parts : list pystr) : ino + errno :=
  match parts, stack with
  | _, [] => inr EXDEV
  | [], i :: _ => inl i
  | p :: ps, i :: above =>
      if bool_decide (p = [] \/ p = dot_name) then (if is_dir t i then beneath t stack ps else inr ENOTDIR)
      else if bool_decide (p = dotdot) then (if is_dir t i then beneath t above ps else inr ENOTDIR)
      else match step_name t i p with inl j => beneath t (j :: stack) ps | inr e => inr e end
  end.

(** Opening what a lookup found: [O_DIRECTORY] wants a directory. *)
Definition open_found (directory : bool) (found : tree -> ino -> ino + errno) (i : ino) : sys -> sys * (Z + error) := fun w =>
  match found (nodes w) i with
  | inr e => sys_fail e w
  | inl j => if directory && negb (is_dir (nodes w) j) then sys_fail ENOTDIR w else new_fd j w
  end.

(** [openat2(fd, rel, O_RDONLY, RESOLVE_...)] of an encoded path. *)
Definition sys_openat2 (fd : Z) (rel : pystr) (directory : bool) : Sys Z :=
  syscall (with_fd fd (open_found directory (fun t i =>
    match rel with
    | [] => inr ENOENT
    | 47 :: _ => inr EXDEV
    | _ => if path_fits rel then beneath t [i] (split_slash rel) else inr ENAMETOOLONG
    end))).

(** [os.open(name, O_RDONLY | O_NOFOLLOW, dir_fd=fd)] of one component. *)
Definition sys_openat (fd : Z) (name : pystr) (directory : bool) : Sys Z :=
  syscall (with_fd fd (open_found directory (fun t i => step_name t i name))).

Definition sys_dup (fd : Z) : Sys Z := syscall (with_fd fd new_fd).

(** [os.close]: the descriptor is gone whether or not an error is reported. *)
Definition sys_close (fd : Z) : Sys unit := fun w =>
  let w' := MkSys (others (tick w) (nodes w)) (delete fd (fds w)) (S (tick w)) in
  match fds w !! fd, close_fault (tick w) with
  | None, _ => (w', inr (OSError EBADF))
  | Some _, Some e => (w', inr (OSError e))
  | Some _, None => (w', inl tt)
  end.

Definition sys_fstat (fd : Z) : Sys (ino * node) :=
  syscall (with_fd fd (fun i w => match nodes w !! i with Some n => (w, inl (i, n)) | None => sys_fail EIO w end)).

Definition fresh_ino (d : ino) (t : tree) : ino := (d.1, fresh (set_map (D := gset Z) snd (dom t))).

(** A new entry of a directory, for a new node. *)
Definition add_entry (d : ino) (name : pystr) (i : ino) (w : sys) : sys * (unit + error) :=
  match nodes w !! d with
  | Some (NDir es) =>
      if negb (name_fits name) then sys_fail ENAMETOOLONG w else
      match es !! name with
      | Some _ => sys_fail EEXIST w
      | None => (set_node d (NDir (<[name := i]> es)) w, inl tt)
      end
  | _ => sys_fail ENOTDIR w
  end.

Definition add_node (d : ino) (name : pystr) (n : node) (w : sys) : sys * (ino + error) :=
  let i := fresh_ino d (nodes w) in
  match add_entry d name i w with (w', inl _) => (set_node i n w', inl i) | (w', inr e) => (w', inr e) end.

(** [os.mkdir(name, dir_fd=fd)]; modes of directories are not kept. *)
Definition sys_mkdir (fd : Z) (name : pystr) : Sys unit :=
  syscall (with_fd fd (fun d w => match add_node d name (NDir ∅) w with (w', inl _) => (w', inl tt) | (w', inr e) => (w', inr e) end)).

(** [os.open(name, O_WRONLY | O_CREAT | O_EXCL | O_NOFOLLOW, mode, dir_fd=fd)] *)
Definition sys_open_new (fd : Z) (name : pystr) (mode : Z) : Sys Z :=
  syscall (with_fd fd (fun d w =>
    match add_node d name (NFile [] (Z.land mode (Z.lnot umask))) w with (w', inl i) => new_fd i w' | (w', inr e) => (w', inr e) end)).

(** [os.write(fd, data)]: how many octets landed. *)
Definition sys_append (fd : Z) (data : bytes) (n : Z) : Sys Z :=
  syscall (with_fd fd (fun i w =>
    match nodes w !! i with
    | Some (NFile b m) => (set_node i (NFile (b ++ ztake n data) m) w, inl n)
    | _ => sys_fail EBADF w
    end)).
Definition sys_write (fd : Z) (data : bytes) : Sys Z := fun w =>
  sys_append fd data (Z.max 0 (Z.min (landed (tick w) (zlen data)) (zlen data))) w.

Definition sys_fchmod (fd : Z) (mode : Z) : Sys unit :=
  syscall (with_fd fd (fun i w =>
    match nodes w !! i with Some (NFile b _) => (set_node i (NFile b mode) w, inl tt) | _ => (w, inl tt) end)).

Definition sys_fsync (fd : Z) : Sys unit := syscall (with_fd fd (fun _ w => (w, inl tt))).

(** [os.unlink(name, dir_fd=fd)] *)
Definition sys_unlink (fd : Z) (name : pystr) : Sys unit :=
  syscall (with_fd fd (fun d w =>
    match entry (nodes w) d name, nodes w !! d with
    | Some i, Some (NDir es) => if is_dir (nodes w) i then sys_fail EISDIR w else (set_node d (NDir (delete name es)) w, inl tt)
    | _, _ => sys_fail ENOENT w
    end)).

Definition empty_dir (t : tree) (i : ino) : bool := match t !! i with Some (NDir es) => bool_decide (es = ∅) | _ => false end.

(** [os.rmdir(name, dir_fd=fd)] *)
Definition sys_rmdir (fd : Z) (name : pystr) : Sys unit :=
  syscall (with_fd fd (fun d w =>
    match entry (nodes w) d name, nodes w !! d with
    | Some i, Some (NDir es) =>
        if negb (is_dir (nodes w) i) then sys_fail ENOTDIR w
        else if negb (empty_dir (nodes w) i) then sys_fail ENOTEMPTY w
        else (set_node d (NDir (delete name es)) w, inl tt)
    | _, _ => sys_fail ENOENT w
    end)).

(** Whether [rename] may put [i] in the place of [j]. *)
Definition replaceable (t : tree) (i j : ino) : option errno :=
  if is_dir t i then (if negb (is_dir t j) then Some ENOTDIR else if empty_dir t j then None else Some ENOTEMPTY)
  else if is_dir t j then Some EISDIR else None.

(** [os.rename(a, b, src_dir_fd=fd, dst_dir_fd=fd)] within one directory. *)
Definition sys_rename (fd : Z) (a b : pystr) : Sys unit :=
  syscall (with_fd fd (fun d w =>
    match entry (nodes w) d a, nodes w !! d with
    | Some i, Some (NDir es) =>
        if negb (name_fits b) then sys_fail ENAMETOOLONG w else
        match es !! b with
        | Some j =>
            if bool_decide (i = j) then (w, inl tt) else
            match replaceable (nodes w) i j with
            | Some e => sys_fail e w
            | None => (set_node d (NDir (<[b := i]> (delete a es))) w, inl tt)
            end
        | None => (set_node d (NDir (<[b := i]> (delete a es))) w, inl tt)
        end
    | _, _ => sys_fail ENOENT w
    end)).

(** [os.link(a, b, src_dir_fd=fd, dst_dir_fd=fd, follow_symlinks=False)] *)
Definition sys_link (fd : Z) (a b : pystr) : Sys unit :=
  syscall (with_fd fd (fun d w =>
    match entry (nodes w) d a with
    | Some i => if is_dir (nodes w) i then sys_fail (EOTHER 1) w else add_entry d b i w
    | None => sys_fail ENOENT w
    end)).

(** [os.scandir(fd)]: names, and whether each is a directory itself. *)
Definition sys_scandir (fd : Z) : Sys (list (pystr * bool)) :=
  syscall (with_fd fd (fun d w =>
    match nodes w !! d with
    | Some (NDir es) => (w, inl ((fun e : pystr * ino => (e.1, is_dir (nodes w) e.2)) <$> map_to_list es))
    | _ => sys_fail ENOTDIR w
    end)).
End Calls.

(** ** Weakest preconditions *)

Definition rwp {W A} (m : Run W A) (Q : W -> A + error -> Prop) (w : W) : Prop := Q (m w).1 (m w).2.

Section Rules.
Context {W : Type}.
Implicit Types w : W.

Lemma run_wp {A} (m : Run W A) (Q : W -> A + error -> Prop) w w' out : rwp m Q w -> m w = (w', out) -> Q w' out.
Proof. unfold rwp. intros H E. by rewrite E in H. Qed.

Lemma rwp_ret {A} (a : A) (Q : W -> A + error -> Prop) w : Q w (inl a) -> rwp (mret a) Q w.
Proof. done. Qed.

Lemma rwp_throw {A} e (Q : W -> A + error -> Prop) w : Q w (inr e) -> rwp (throw e) Q w.
Proof. done. Qed.

Lemma rwp_bind {A B} (m : Run W A) (f : A -> Run W B) (Q : W -> B + error -> Prop) w :
  rwp m (fun w' out => match out with inl a => rwp (f a) Q w' | inr e => Q w' (inr e) end) w -> rwp (m ≫= f) Q w.
Proof. unfold rwp, mbind, run_bind. by destruct (m w) as [w' [a|e]]. Qed.

Lemma rwp_catch {A} (caught : error -> bool) (m : Run W A) (h : error -> Run W A) (Q : W -> A + error -> Prop) w :
  rwp m (fun w' out => match out with inl a => Q w' (inl a) | inr e => if caught e then rwp (h e) Q w' else Q w' (inr e) end) w ->
  rwp (catch caught m h) Q w.
Proof. unfold rwp, catch. destruct (m w) as [w' [a|e]]; cbn; [done|]. by destruct (caught e). Qed.

Lemma rwp_ensuring {A} (m : Run W A) (h : Run W unit) (Q : W -> A + error -> Prop) w :
  rwp m (fun w1 out => rwp h (fun w2 out2 => match out2 with inl _ => Q w2 out | inr e => Q w2 (inr e) end) w1) w -> rwp (ensuring m h) Q w.
Proof. unfold rwp, ensuring. destruct (m w) as [w1 out]. cbn. by destruct (h w1) as [w2 [u|e]]. Qed.

Lemma rwp_throw_if b e (Q : W -> unit + error -> Prop) w : (b = false -> Q w (inl tt)) -> (b = true -> Q w (inr e)) -> rwp (throw_if b e) Q w.
Proof. unfold throw_if. destruct b; intros H1 H2; [by apply H2|by apply H1]. Qed.

Lemma rwp_and {A} (m : Run W A) (P Q : W -> A + error -> Prop) w : rwp m P w -> rwp m Q w -> rwp m (fun w' out => P w' out /\ Q w' out) w.
Proof. done. Qed.

Lemma rwp_conseq {A} (m : Run W A) (P Q : W -> A + error -> Prop) w : rwp m P w -> (forall w' out, P w' out -> Q w' out) -> rwp m Q w.
Proof. intros H HPQ. by apply HPQ. Qed.
End Rules.

(** ** A quiet system, for examples *)

Definition no_faults : SysEnv := {| fault _ := None; close_fault _ := None; others _ t := t; landed _ n := n; umask := 18 |}.
