(* ===== verification/FileAccess.v ===== *)
(** * The file access policy (fileaccess/)

    Requests, denials and the deny-by-default policies: [RootedFileAccess] serves a
    request only beneath a pre-opened root (_rooted.py), [PreopenedFileAccess] only from
    descriptors passed in (_preopened.py); _openat2.py confines a lookup with one system
    call or with a walk over descriptors; _errors.py words a denial; _component.py
    validates a name. *)

From S2P Require Import Prelude Numerals PyText Json FileSystem.

(** [str.isprintable] of one character; the language fixes it on ASCII. *)
Class Printable := { isprintable : Z -> bool; isprintable_ascii c : 0 <= c < 128 -> isprintable c = (32 <=? c) && (c <=? 126) }.

(** ** Requests *)

Inductive FileRole :=
| SOURCE | SUBSET_INPUT | REFERENCE | CORPUS | SNAPSHOT | SECRET | VAULT | CONFIG | FIXED_WIDTH_LAYOUT
| QUARANTINE_OUTPUT | TARGET_OUTPUT | SPILL_HINT | JOB_OUTPUT | CUSTOM_PROVIDER_ROOT | MODEL_PACK_ROOT | DISGUISE_ROOT | LOG_OUTPUT.
#[global] Instance FileRole_eq_dec : EqDecision FileRole.
Proof. solve_decision. Defined.

Inductive Access := read | stat | read_dir | write.
#[global] Instance Access_eq_dec : EqDecision Access.
Proof. solve_decision. Defined.

Record FileRequest := MkRequest { role : FileRole; access : Access; locator : pystr; field_key : pystr }.

(** ** Denials *)

Definition _MAX_KEY : Z := 256.
Definition _TRUNCATED : pystr := py "...[truncated]".

(** [ch.encode("unicode_escape")] of a character that is not printable, or a backslash. *)
Definition _escape (c : Z) : pystr :=
  if c =? 92 then py "\\" else if c =? 9 then py "\t" else if c =? 10 then py "\n" else if c =? 13 then py "\r"
  else if c <? 256 then py "\x" ++ (hex_char <$> pos_digits 16 2 c)
  else if c <? 65536 then u_escape c
  else py "\U" ++ (hex_char <$> pos_digits 16 8 c).

Section Policy.
Context {V : SysEnv} {P : Printable}.
(** Whether the process can call [openat2]. *)
Context (usable : bool).

Definition encode_field_key (key : pystr) : pystr :=
  let escaped := key ≫= fun c => if isprintable c && negb (c =? 92) then [c] else _escape c in
  if zlen escaped >? _MAX_KEY then ztake (_MAX_KEY - zlen _TRUNCATED) escaped ++ _TRUNCATED else escaped.

Definition deny (key : pystr) : error := FileAccessDenied (encode_field_key key).
Definition read_error (key : pystr) : error := FileAccessReadError (encode_field_key key).

(** ** Names *)

Definition MAX_COMPONENT_BYTES : Z := 255.
Definition is_valid_component (c : pystr) : bool :=
  negb (bool_decide (c = [])) && negb (bool_decide (c = dot_name \/ c = dotdot)) &&
  negb (bool_decide (47 ∈ c)) && negb (bool_decide (0 ∈ c)) &&
  match fsencode c with Ok b => zlen b <=? MAX_COMPONENT_BYTES | Err _ => false end.

Definition validate_component (c key : pystr) : Sys unit := throw_if (negb (is_valid_component c)) (deny key).

(** ** Confined lookups *)

(** [openat2(dir_fd, rel, flags)] with every confinement flag; a call interrupted by a
    signal is made again, so [EINTR] is not among its failures. *)
Definition openat2 (dir_fd : Z) (rel : pystr) (directory : bool) : Sys Z :=
  if bool_decide (0 ∈ rel) then throw (OSError EINVAL)
  else if is_ok (fsencode rel) then sys_openat2 dir_fd rel directory else throw UnicodeEncodeError.

(** The walk of the portable fallback: each directory is opened beneath the one before,
    and the descriptor held last is closed in the end. *)
Definition closing {A} (fd : Z) (m : Sys A) : Sys A := catch any_error m (fun e => _ ← sys_close fd; throw e).

Fixpoint walk (fd : Z) (directories : list pystr) (leaf : pystr) (directory : bool) : Sys Z :=
  match directories with
  | [] => ensuring (sys_openat fd leaf directory) (sys_close fd)
  | part :: ds =>
      child ← closing fd (sys_openat fd part true);
      _ ← closing fd (sys_close fd);
      walk child ds leaf directory
  end.

Definition portable_open (dir_fd : Z) (rel : pystr) (directory : bool) : Sys Z :=
  let parts := split_slash rel in
  let leaf := List.last parts [] in
  let directories := removelast parts in
  if negb (is_valid_component leaf) || negb (forallb is_valid_component directories) then throw (OSError EXDEV) else
  fd ← sys_dup dir_fd;
  walk fd directories leaf directory.

Definition _confined_open (dir_fd : Z) (rel : pystr) (directory : bool) : Sys Z :=
  if usable then openat2 dir_fd rel directory else portable_open dir_fd rel directory.

(** What a caller wants to have opened. *)
Inductive wanted := want_file | want_dir | want_any.
#[global] Instance wanted_eq_dec : EqDecision wanted.
Proof. solve_decision. Defined.

Definition kind_ok (want : wanted) (n : node) : bool :=
  match want, n with
  | want_dir, NDir _ => true
  | want_dir, _ => false
  | _, NFile _ _ => true
  | want_any, NDir _ => true
  | _, _ => false
  end.

Definition _close_quietly (fd : Z) : Sys unit := catch is_os_error (sys_close fd) (fun _ => mret tt).

(** Clearing [O_NONBLOCK] on a descriptor that is open, the last step, always succeeds. *)
Definition open_checked (dir_fd : Z) (rel key : pystr) (want : wanted) (deny_inodes : gset ino) : Sys Z :=
  fd ← catch is_os_error (fd ← _confined_open dir_fd rel (bool_decide (want = want_dir)); mret (Some fd)) (fun _ => mret None);
  match fd with
  | None => throw (deny key)
  | Some fd =>
      ok ← catch is_os_error ('(i, n) ← sys_fstat fd; mret (kind_ok want n && negb (bool_decide (i ∈ deny_inodes)))) (fun _ => mret false);
      if ok : bool then mret fd else _ ← _close_quietly fd; throw (deny key)
  end.

(** ** Handles *)

Record FdHandle := MkHandle { handle_fd : Z; handle_display : pystr }.
Record FdDirHandle := MkDirHandle { dir_handle_fd : Z; dir_display : pystr; dir_deny : gset ino }.

Definition dir_open_file (h : FdDirHandle) (rel : pystr) : Sys FdHandle :=
  fd ← open_checked (dir_handle_fd h) rel (dir_display h) want_file (dir_deny h); mret (MkHandle fd (dir_display h)).
Definition dir_open_dir (h : FdDirHandle) (rel : pystr) : Sys FdDirHandle :=
  fd ← open_checked (dir_handle_fd h) rel (dir_display h) want_dir (dir_deny h); mret (MkDirHandle fd (dir_display h) (dir_deny h)).
Definition close_handle (h : FdHandle) : Sys unit := _close_quietly (handle_fd h).

(** ** Rooted access *)

Record Root := MkRoot { root_name : pystr; dir_fd : Z; roles : list FileRole; accesses : list Access; prefix : pystr }.

Definition _MAX_LOCATOR : Z := 4096.
Definition lexical_ok (l : pystr) : bool := (0 <? zlen l) && (zlen l <=? _MAX_LOCATOR) && negb (bool_decide (0 ∈ l)).

Record RootedFileAccess := MkRooted { roots : list Root; deny_inodes : gset ino }.

Definition new_rooted (rs : list Root) (inodes : gset ino) (allow_portable_fallback : bool) : RootedFileAccess + error :=
  if negb usable && negb allow_portable_fallback then inr FileAccessUnavailable else inl (MkRooted rs inodes).

(** [s.rstrip("/")] *)
Definition rstrip_slash (s : pystr) : pystr :=
  rev ((fix strip l := match l with 47 :: l' => strip l' | _ => l end) (rev s)).

Definition lead (r : Root) : pystr := rstrip_slash (prefix r) ++ [47].

(** The path a root serves a request from, if it serves it. *)
Definition served (r : Root) (q : FileRequest) : option pystr :=
  if negb (bool_decide (role q ∈ roles r)) || negb (bool_decide (access q ∈ accesses r)) then None
  else if bool_decide (prefix r = []) then Some (locator q)
  else if bool_decide (ztake (zlen (lead r)) (locator q) = lead r) && (zlen (lead r) <? zlen (locator q))
       then Some (zdrop (zlen (lead r)) (locator q)) else None.

Fixpoint first_served (rs : list Root) (q : FileRequest) : option (Root * pystr) :=
  match rs with
  | [] => None
  | r :: rs => match served r q with Some rel => Some (r, rel) | None => first_served rs q end
  end.

Definition select (a : RootedFileAccess) (q : FileRequest) : Sys (Root * pystr) :=
  if negb (lexical_ok (locator q)) then throw (deny (field_key q)) else
  match first_served (roots a) q with Some s => mret s | None => throw (deny (field_key q)) end.

Definition open_beneath (a : RootedFileAccess) (r : Root) (rel key : pystr) (want : wanted) : Sys Z :=
  if negb (lexical_ok rel) then throw (deny key) else open_checked (dir_fd r) rel key want (deny_inodes a).

Definition serve (a : RootedFileAccess) (q : FileRequest) (allowed : list Access) (want : wanted) : Sys Z :=
  _ ← throw_if (negb (bool_decide (access q ∈ allowed))) (deny (field_key q));
  '(r, rel) ← select a q;
  open_beneath a r rel (field_key q) want.

Definition open_read (a : RootedFileAccess) (q : FileRequest) : Sys FdHandle :=
  fd ← serve a q [read; stat] want_file; mret (MkHandle fd (field_key q)).
Definition open_dir (a : RootedFileAccess) (q : FileRequest) : Sys FdDirHandle :=
  fd ← serve a q [read_dir; read] want_dir; mret (MkDirHandle fd (field_key q) (deny_inodes a)).
Definition rooted_stat (a : RootedFileAccess) (q : FileRequest) : Sys (ino * node) :=
  fd ← serve a q [stat; read_dir; read] want_any;
  ensuring (sys_fstat fd) (sys_close fd).

(** ** Preopened access *)

Record PreopenedFileAccess := MkPreopened { pre_files : list (FileRole * pystr * Z); pre_dirs : list (FileRole * pystr * Z) }.

Definition grant (l : list (FileRole * pystr * Z)) (q : FileRequest) : option Z :=
  snd <$> find (fun g => bool_decide (g.1 = (role q, field_key q))) l.

Definition pre_open_read (a : PreopenedFileAccess) (q : FileRequest) : Sys FdHandle :=
  match grant (pre_files a) q with
  | Some fd => if bool_decide (access q ∈ [read; stat]) then fd ← sys_dup fd; mret (MkHandle fd (field_key q)) else throw (deny (field_key q))
  | None => throw (deny (field_key q))
  end.
Definition pre_open_dir (a : PreopenedFileAccess) (q : FileRequest) : Sys FdDirHandle :=
  match grant (pre_dirs a) q with
  | Some fd => fd ← sys_dup fd; mret (MkDirHandle fd (field_key q) ∅)
  | None => throw (deny (field_key q))
  end.
Definition pre_stat (a : PreopenedFileAccess) (q : FileRequest) : Sys (ino * node) :=
  match grant (pre_files a) q with
  | Some fd => sys_fstat fd
  | None => match grant (pre_dirs a) q with Some fd => sys_fstat fd | None => throw (deny (field_key q)) end
  end.
Definition pre_output_dir (q : FileRequest) : error := deny (field_key q).
End Policy.

(** ** Examples: printable ASCII, and a root with one file *)

Definition printable_ascii_only : Printable := {| isprintable c := (32 <=? c) && (c <=? 126); isprintable_ascii c _ := eq_refl |}.

Definition sample_tree : tree := {[ (1, 1) := NDir {[ py "a.csv" := (1, 2) ]}; (1, 2) := NFile [65] 420 ]}.
Definition sample_sys : sys := MkSys sample_tree {[ 3 := (1, 1) ]} 0.
Definition sample_access : RootedFileAccess := MkRooted [MkRoot (py "data") 3 [SOURCE] [read] []] ∅.
Definition sample_request : FileRequest := MkRequest SOURCE read (py "a.csv") (py "source.path").
