(* ===== verification/FileAccessTheory.v ===== *)
(** * File access: confinement

    Whatever calls fail and whatever other processes do to the tree meanwhile, a rooted
    policy opens only what lies beneath a root that serves the request, by names that
    directories held, never through a link; a refusal says nothing but the config
    position. The descriptor walk opens what the system call opens, up to the latter's
    limit on the length of a path. *)

From S2P Require Import Prelude Numerals PyText Json FileSystem FileAccess.

(** ** Reading a tree that others change *)

Section Reading.
Context {V : SysEnv} {P : Printable} (usable : bool).

(** The tree as the k-th call sees it, when nobody but others writes. *)
Context (seen : nat -> tree) (Hseen : forall k, seen (S k) = others k (seen k)).

(** [w] is after [w0], with the same descriptors but for those said. *)
Record reads (w0 w : sys) (fds' : gmap Z ino) : Prop := {
  rd_nodes : nodes w = seen (tick w);
  rd_tick : (tick w0 <= tick w)%nat;
  rd_fds : fds w = fds';
}.

Lemma reads_refl w : nodes w = seen (tick w) -> reads w w (fds w).
Proof. intros H. by constructor. Qed.

Lemma reads_trans w0 w1 w2 f1 f2 : reads w0 w1 f1 -> reads w1 w2 f2 -> reads w0 w2 f2.
Proof. intros [] []. constructor; [done|lia|done]. Qed.

(** A call that leaves the tree alone. *)
Lemma rwp_syscall {A} (f : sys -> sys * (A + error)) (Q : sys -> A + error -> Prop) w :
  nodes w = seen (tick w) ->
  (forall w1, reads w w1 (fds w) -> tick w1 = S (tick w) -> rwp f Q w1) ->
  (forall w1 e, reads w w1 (fds w) -> Q w1 (inr (OSError e))) ->
  rwp (syscall f) Q w.
Proof.
  intros Hn H1 H2. unfold rwp, syscall. set (w1 := MkSys _ _ _).
  assert (Hr : reads w w1 (fds w)) by (constructor; cbn; [by rewrite Hseen, Hn|lia|done]).
  destruct (fault (tick w)); cbn; [by apply H2|]. by apply H1.
Qed.

Lemma rwp_with_fd {A} fd (f : ino -> sys -> sys * (A + error)) (Q : sys -> A + error -> Prop) w :
  (forall i, fds w !! fd = Some i -> rwp (f i) Q w) -> Q w (inr (OSError EBADF)) -> rwp (with_fd fd f) Q w.
Proof. intros H1 H2. unfold rwp, with_fd. destruct (fds w !! fd); [by apply H1|done]. Qed.

(** Closing: the descriptor is gone, and the error, if any, is the system's. *)
Definition closed (fd : Z) (w0 w : sys) (out : unit + error) : Prop :=
  reads w0 w (delete fd (fds w0)) /\
  match out with inl _ => True | inr e => is_os_error e = true /\ ((forall k, close_fault k = None) -> fds w0 !! fd = None) end.

Lemma sys_close_ok fd w : nodes w = seen (tick w) -> rwp (sys_close fd) (closed fd w) w.
Proof.
  intros Hn. unfold rwp, sys_close. set (w1 := MkSys _ _ _).
  assert (Hr : reads w w1 (delete fd (fds w))) by (constructor; cbn; [by rewrite Hseen, Hn|lia|done]).
  destruct (fds w !! fd) as [i|] eqn:E; [destruct (close_fault (tick w)) eqn:Ec|]; cbn; (split; [done|]); try done.
  - split; [done|]. intros H. by rewrite H in Ec.
Qed.

(** A directory held this name for this inode, no link, when the k-th call looked. *)
Definition under (k0 k1 : nat) (d i : ino) : Prop :=
  exists k name, (k0 < k <= k1)%nat /\ entry (seen k) d name = Some i /\ is_link (seen k) i = false.
(** Beneath: by a chain of such names. *)
Definition beneath_of (k0 k1 : nat) : ino -> ino -> Prop := rtc (under k0 k1).

Lemma beneath_mono k0 k1 k0' k1' d i : (k0' <= k0)%nat -> (k1 <= k1')%nat -> beneath_of k0 k1 d i -> beneath_of k0' k1' d i.
Proof. intros H0 H1. apply rtc_subrel. intros x y (k & name & Hk & H). exists k, name. split; [lia|done]. Qed.

Lemma beneath_steps k0 k k1 k2 root d j :
  (k0 <= k)%nat -> (k <= k1)%nat -> (k1 <= k2)%nat -> beneath_of k0 k root d -> beneath_of k k1 d j -> beneath_of k0 k2 root j.
Proof.
  intros ? ? ? H1 H2. etrans; [eapply (beneath_mono k0 k); [done| |exact H1]; lia|].
  eapply (beneath_mono k k1); [done| |exact H2]; lia.
Qed.

Lemma step_name_under k0 k1 k d name i : (k0 < k <= k1)%nat -> step_name (seen k) d name = inl i -> under k0 k1 d i.
Proof.
  intros Hk H. unfold step_name in H. destruct (negb (is_dir _ _)); [done|]. destruct (negb (name_fits _)); [done|].
  destruct (entry (seen k) d name) as [j|] eqn:E; [|done]. destruct (is_link _ j) eqn:El; [done|]. injection H as <-. by exists k, name.
Qed.

(** Resolution stays beneath the bottom of its stack. *)
Lemma beneath_confined k0 k1 k root parts stack i :
  (k0 < k <= k1)%nat -> Forall (beneath_of k0 k1 root) stack -> beneath (seen k) stack parts = inl i -> beneath_of k0 k1 root i.
Proof.
  intros Hk. revert stack. induction parts as [|p ps IH]; intros [|d above] Hs H; try done; cbn [beneath] in H.
  - injection H as ->. by inversion Hs.
  - inversion Hs as [|? ? Hd Ha]; subst. destruct (bool_decide (p = [] \/ p = dot_name)); [destruct (is_dir _ d); [|done]; by apply (IH (d :: above))|].
    destruct (bool_decide (p = dotdot)); [destruct (is_dir _ d); [|done]; by apply (IH above)|].
    destruct (step_name (seen k) d p) as [j|] eqn:E; [|done]. apply (IH (j :: d :: above)); [|done]. constructor; [|done].
    eapply rtc_r; [exact Hd|]. by eapply step_name_under.
Qed.

(** ** Opening beneath a directory *)

Definition no_close_fault : Prop := forall k, close_fault k = None.

(** Refused: the descriptors [base] are still there, and no other unless a close failed. *)
Definition refused (base : gmap Z ino) (w0 w : sys) : Prop :=
  reads w0 w (fds w) /\ base ⊆ fds w /\ (no_close_fault -> fds w = base).

Definition opened (base : gmap Z ino) (root : ino) (w0 w : sys) (out : Z + error) : Prop :=
  match out with
  | inl fd => base !! fd = None /\ exists i, beneath_of (tick w0) (tick w) root i /\ reads w0 w (<[fd := i]> base)
  | inr e => is_os_error e = true /\ refused base w0 w
  end.

Lemma refused_same w0 w : reads w0 w (fds w0) -> refused (fds w0) w0 w.
Proof. intros [Hn Ht Hf]. split; [by constructor|]. by rewrite Hf. Qed.

Lemma fresh_none (m : gmap Z ino) : m !! (fresh (dom m) : Z) = None.
Proof. apply not_elem_of_dom, is_fresh. Qed.

Lemma open_found_ok directory found root w0 w1 :
  reads w0 w1 (fds w0) -> (forall j, found (nodes w1) root = inl j -> beneath_of (tick w0) (tick w1) root j) ->
  rwp (open_found directory found root) (opened (fds w0) root w0) w1.
Proof.
  intros Hr Hj. unfold rwp, open_found. destruct (found (nodes w1) root) as [j|e] eqn:E; [|split; [done|by apply refused_same]].
  destruct (directory && _); [split; [done|by apply refused_same]|]. destruct Hr as [Hn Ht Hf]. unfold new_fd. rewrite Hf. cbn.
  split; [apply fresh_none|]. exists j. split; [by apply Hj|]. by constructor.
Qed.

Lemma openat2_ok fd rel directory root w : nodes w = seen (tick w) -> fds w !! fd = Some root ->
  rwp (sys_openat2 fd rel directory) (opened (fds w) root w) w.
Proof.
  intros Hn Hfd. apply rwp_syscall; [done| |].
  - intros w1 Hr Ht. apply rwp_with_fd; [|split; [done|by apply refused_same]]. intros i Hi. assert (i = root) as -> by (destruct Hr; congruence).
    apply open_found_ok; [done|]. intros j. destruct rel as [|c rel]; [done|]. intros Hj.
    assert (Hj' : beneath (nodes w1) [root] (split_slash (c :: rel)) = inl j) by
      (destruct c as [|c|c]; try (by destruct (path_fits _)); repeat (destruct c as [c|c|]; try done; try (by destruct (path_fits _)))).
    rewrite (rd_nodes _ _ _ Hr) in Hj'. eapply beneath_confined; [|constructor; [apply rtc_refl|constructor]|exact Hj']. lia.
  - intros w1 e Hr. split; [done|by apply refused_same].
Qed.

Lemma openat_ok fd name directory root w : nodes w = seen (tick w) -> fds w !! fd = Some root ->
  rwp (sys_openat fd name directory) (opened (fds w) root w) w.
Proof.
  intros Hn Hfd. apply rwp_syscall; [done| |].
  - intros w1 Hr Ht. apply rwp_with_fd; [|split; [done|by apply refused_same]]. intros i Hi. assert (i = root) as -> by (destruct Hr; congruence).
    apply open_found_ok; [done|]. intros j Hj. rewrite (rd_nodes _ _ _ Hr) in Hj. apply rtc_once. eapply step_name_under; [|exact Hj]. lia.
  - intros w1 e Hr. split; [done|by apply refused_same].
Qed.

(** Giving a descriptor of one's own back. *)
Lemma close_own base fd i w0 w (Q : unit + error -> Prop) :
  reads w0 w (<[fd := i]> base) -> base !! fd = None -> Q (inl tt) -> (forall e, is_os_error e = true -> ~ no_close_fault -> Q (inr e)) ->
  rwp (sys_close fd) (fun w' out => reads w0 w' base /\ (tick w <= tick w')%nat /\ Q out) w.
Proof.
  intros Hr Hb H1 H2. eapply rwp_conseq; [apply sys_close_ok; by destruct Hr|]. intros w' out [Hc Ho].
  assert (Hd : delete fd (fds w) = base) by (rewrite (rd_fds _ _ _ Hr); by apply delete_insert_id).
  rewrite Hd in Hc. split; [by eapply reads_trans|]. split; [by destruct Hc|]. destruct out as [[]|e]; [done|]. destruct Ho as [He Ho]. apply H2; [done|].
  intros Hf. specialize (Ho Hf). rewrite (rd_fds _ _ _ Hr), lookup_insert_eq in Ho. done.
Qed.

Lemma rwp_closing {A} fd (m : Sys A) (Q : sys -> A + error -> Prop) w :
  rwp m (fun w' out => match out with
    | inl a => Q w' (inl a)
    | inr e => rwp (sys_close fd) (fun w'' o => match o with inl _ => Q w'' (inr e) | inr e' => Q w'' (inr e') end) w' end) w ->
  rwp (closing fd m) Q w.
Proof. intros H. apply rwp_catch. eapply rwp_conseq; [exact H|]. intros w' [a|e]; [done|]. intros Hc. cbn. by apply rwp_bind. Qed.

(** [fd] is held besides [base], unless a close failed. *)
Definition holding (base : gmap Z ino) (fd : Z) (w0 w : sys) : Prop :=
  reads w0 w (fds w) /\ base ⊆ fds w /\ base !! fd = None /\ (no_close_fault -> delete fd (fds w) = base).

Lemma holding_owned base fd d w0 w : reads w0 w (<[fd := d]> base) -> base !! fd = None -> holding base fd w0 w.
Proof.
  intros [Hn Ht Hf] Hb. split; [by constructor|]. rewrite Hf. split; [by apply insert_subseteq|]. split; [done|].
  intros _. by apply delete_insert_id.
Qed.

Lemma holding_refused base fd d w0 w1 w : reads w0 w1 (<[fd := d]> base) -> base !! fd = None -> refused (<[fd := d]> base) w1 w -> holding base fd w0 w.
Proof.
  intros Hr Hb (Hr1 & Hs & Hc). split; [by eapply reads_trans|]. split; [etrans; [|exact Hs]; by apply insert_subseteq|]. split; [done|].
  intros H. rewrite (Hc H). by apply delete_insert_id.
Qed.

(** Refused once the descriptor is given back, whatever the close reports. *)
Lemma close_refused base fd root w0 w e : holding base fd w0 w -> is_os_error e = true ->
  rwp (sys_close fd) (fun w' o => match o with inl _ => opened base root w0 w' (inr e) | inr e' => opened base root w0 w' (inr e') end) w.
Proof.
  intros (Hr & Hs & Hb & Hd) He. eapply rwp_conseq; [apply sys_close_ok; by destruct Hr|]. intros w' o [Hc Ho].
  assert (Href : refused base w0 w').
  { destruct (reads_trans _ _ _ _ _ Hr Hc) as [Hn Ht Hf]. split; [by constructor|]. rewrite Hf. split.
    - apply map_subseteq_spec. intros k i Hk. rewrite lookup_delete_ne by congruence. eapply lookup_weaken; [exact Hk|done].
    - intros Hn'. by apply Hd. }
  destruct o; [by split|]. destruct Ho as [? _]. by split.
Qed.

Lemma opened_later base root w0 w1 w out :
  reads w0 w1 (fds w1) -> opened base root w1 w out -> opened base root w0 w out.
Proof.
  intros Hr. destruct out as [fd|e]; cbn.
  - intros (Hb & i & Hi & Hr1). split; [done|]. exists i. split; [|by eapply reads_trans].
    eapply beneath_mono; [| |exact Hi]; [by destruct Hr|done].
  - intros (He & Hr1 & H). split; [done|]. split; [by eapply reads_trans|done].
Qed.

Lemma walk_ok directories leaf directory base root w0 fd d w :
  reads w0 w (<[fd := d]> base) -> base !! fd = None -> beneath_of (tick w0) (tick w) root d ->
  rwp (walk fd directories leaf directory) (opened base root w0) w.
Proof.
  assert (Hlook : forall fd d w, reads w0 w (<[fd := d]> base) -> fds w !! fd = Some d)
    by (intros ? ? ? Hr; rewrite (rd_fds _ _ _ Hr); apply lookup_insert_eq).
  revert fd d w. induction directories as [|part ds IH]; intros fd d w Hr Hb Hd; cbn [walk].
  - apply rwp_ensuring. eapply rwp_conseq; [apply openat_ok; [by destruct Hr|by apply Hlook]|].
    intros w1 [fd1|e]; rewrite (rd_fds _ _ _ Hr).
    + intros (Hf1 & j & Hj & Hr1). apply lookup_insert_None in Hf1 as [Hf1 Hne].
      assert (Hr01 : reads w0 w1 (<[fd := d]> (<[fd1 := j]> base))) by (rewrite insert_insert_ne by done; by eapply reads_trans).
      eapply rwp_conseq; [apply (close_own (<[fd1 := j]> base) fd d w0 w1
        (fun o => match o with inl _ => True | inr e => is_os_error e = true /\ ~ no_close_fault end)); auto; by rewrite lookup_insert_ne|].
      intros w2 o (Hr2 & Ht2 & Ho). destruct o as [[]|e].
      * split; [done|]. exists j. split; [|done]. apply (beneath_steps (tick w0) (tick w) (tick w1) (tick w2) root d j); [by destruct Hr|by destruct Hr1|done..].
      * destruct Ho as [He Hc]. split; [done|]. destruct Hr2 as [? ? Hf2]. split; [by constructor|]. rewrite Hf2. split; [by apply insert_subseteq|done].
    + intros [He Href]. apply close_refused; [|done]. by eapply holding_refused.
  - apply rwp_bind, rwp_closing. eapply rwp_conseq; [apply openat_ok; [by destruct Hr|by apply Hlook]|].
    intros w1 [child|e]; rewrite (rd_fds _ _ _ Hr).
    + intros (Hf1 & j & Hj & Hr1). apply lookup_insert_None in Hf1 as [Hf1 Hne].
      assert (Hr01 : reads w0 w1 (<[fd := d]> (<[child := j]> base))) by (rewrite insert_insert_ne by done; by eapply reads_trans).
      apply rwp_bind, rwp_closing. eapply rwp_conseq; [apply (close_own (<[child := j]> base) fd d w0 w1
        (fun o => match o with inl _ => True | inr e => is_os_error e = true /\ ~ no_close_fault end)); auto; by rewrite lookup_insert_ne|].
      intros w2 o (Hr2 & Ht2 & Ho). destruct o as [[]|e].
      * apply (IH child j); [done|done|]. apply (beneath_steps (tick w0) (tick w) (tick w1) (tick w2) root d j); [by destruct Hr|by destruct Hr1|done..].
      * destruct Ho as [He Hc]. apply close_refused; [|done]. destruct Hr2 as [? ? Hf2]. split; [by constructor|]. rewrite Hf2. split; [by apply insert_subseteq|done].
    + intros [He Href]. apply close_refused; [|done]. by eapply holding_refused.
Qed.

Definition unencodable (rel : pystr) (e : error) : Prop := e = UnicodeEncodeError /\ is_ok (fsencode rel) = false.

(** What a lookup from the descriptor [d] does. *)
Definition looked_up (d : Z) (rel : pystr) (w0 w : sys) (out : Z + error) : Prop :=
  match out with
  | inl fd => exists root, fds w0 !! d = Some root /\ opened (fds w0) root w0 w (inl fd)
  | inr e => refused (fds w0) w0 w /\ (is_os_error e = true \/ unencodable rel e)
  end.

Lemma refused_refl w : nodes w = seen (tick w) -> refused (fds w) w w.
Proof. intros H. split; [by apply reads_refl|done]. Qed.

Lemma opened_looked_up d rel root w0 w out : fds w0 !! d = Some root -> opened (fds w0) root w0 w out -> looked_up d rel w0 w out.
Proof. destruct out as [fd|e]; [by exists root|]. intros _ [? ?]. split; [done|by left]. Qed.

Lemma rwp_bad_fd {A} d (f : ino -> sys -> sys * (A + error)) w (Q : sys -> A + error -> Prop) :
  nodes w = seen (tick w) -> fds w !! d = None -> (forall w' e, refused (fds w) w w' -> is_os_error e = true -> Q w' (inr e)) ->
  rwp (syscall (with_fd d f)) Q w.
Proof.
  intros Hn Hd HQ. apply rwp_syscall; [done| |].
  - intros w1 Hr _. apply rwp_with_fd; [intros i; destruct Hr; congruence|]. apply HQ; [by apply refused_same|done].
  - intros w1 e Hr. apply HQ; [by apply refused_same|done].
Qed.

Lemma dup_ok d root w : nodes w = seen (tick w) -> fds w !! d = Some root ->
  rwp (sys_dup d) (fun w' out => match out with
    | inl fd => fds w !! fd = None /\ reads w w' (<[fd := root]> (fds w))
    | inr e => is_os_error e = true /\ refused (fds w) w w' end) w.
Proof.
  intros Hn Hd. apply rwp_syscall; [done| |].
  - intros w1 Hr _. apply rwp_with_fd; [|split; [done|by apply refused_same]]. intros i Hi. assert (i = root) as -> by (destruct Hr; congruence).
    unfold rwp, new_fd. destruct Hr as [? ? Hf]. rewrite Hf. cbn. split; [apply fresh_none|by constructor].
  - intros w1 e Hr. split; [done|by apply refused_same].
Qed.

Lemma portable_ok d rel directory w : nodes w = seen (tick w) -> rwp (portable_open d rel directory) (looked_up d rel w) w.
Proof.
  intros Hn. unfold portable_open. destruct (_ || _); [split; [by apply refused_refl|by left]|]. apply rwp_bind.
  destruct (fds w !! d) as [root|] eqn:Ed; [|apply rwp_bad_fd; [done..|]; intros w' e H1 H2; split; [done|by left]].
  eapply rwp_conseq; [by apply (dup_ok d root)|]. intros w1 [fd|e].
  - intros [Hfd Hr]. eapply rwp_conseq; [eapply (walk_ok _ _ _ (fds w) root w fd root); [done|done|apply rtc_refl]|].
    intros w2 out. by apply opened_looked_up.
  - intros [He Href]. split; [done|by left].
Qed.

Lemma confined_open_ok d rel directory w : nodes w = seen (tick w) -> rwp (_confined_open usable d rel directory) (looked_up d rel w) w.
Proof.
  intros Hn. unfold _confined_open. destruct usable; [|by apply portable_ok]. unfold openat2.
  destruct (bool_decide (0 ∈ rel)); [split; [by apply refused_refl|by left]|].
  destruct (is_ok (fsencode rel)) eqn:Ee; [|split; [by apply refused_refl|by right]].
  destruct (fds w !! d) as [root|] eqn:Ed; [|apply rwp_bad_fd; [done..|]; intros w' e H1 H2; split; [done|by left]].
  eapply rwp_conseq; [by apply openat2_ok|]. intros w2 out. by apply opened_looked_up.
Qed.

(** An inode of the wanted kind, beneath the descriptor [d] and not denied, under a new descriptor. *)
Definition authorized (d : Z) (want : wanted) (denied : gset ino) (w0 w : sys) (fd : Z) : Prop :=
  exists root i, fds w0 !! d = Some root /\ beneath_of (tick w0) (tick w) root i /\ (i ∉ denied) /\
    fds w0 !! fd = None /\ reads w0 w (<[fd := i]> (fds w0)) /\
    exists k n, (tick w0 < k <= tick w)%nat /\ seen k !! i = Some n /\ kind_ok want n = true.

Definition checked (d : Z) (rel key : pystr) (want : wanted) (denied : gset ino) (w0 w : sys) (out : Z + error) : Prop :=
  match out with
  | inl fd => authorized d want denied w0 w fd
  | inr e => refused (fds w0) w0 w /\ (e = deny key \/ unencodable rel e)
  end.

Lemma fstat_ok fd i w : nodes w = seen (tick w) -> fds w !! fd = Some i ->
  rwp (sys_fstat fd) (fun w' out => reads w w' (fds w) /\ match out with
    | inl jn => jn.1 = i /\ tick w' = S (tick w) /\ seen (tick w') !! i = Some jn.2
    | inr e => is_os_error e = true end) w.
Proof.
  intros Hn Hi. apply rwp_syscall; [done| |done]. intros w1 Hr Ht. apply rwp_with_fd; [|done].
  intros j Hj. assert (j = i) as -> by (destruct Hr; congruence). unfold rwp. destruct (nodes w1 !! i) as [n|] eqn:E; [|done].
  split; [done|]. split; [done|]. split; [done|]. cbn. by rewrite <- (rd_nodes _ _ _ Hr).
Qed.

Lemma close_quietly_ok base fd w0 w e (Q : sys -> Z + error -> Prop) : holding base fd w0 w ->
  (forall w', refused base w0 w' -> Q w' (inr e)) -> rwp (mbind (fun _ => throw e) (_close_quietly fd)) Q w.
Proof.
  intros Hh HQ. apply rwp_bind, rwp_catch. eapply rwp_conseq; [apply (close_refused base fd (0, 0) w0 w (OSError EIO)); done|].
  intros w' [u|e']; intros [? Href]; [by apply HQ|]. replace (is_os_error e') with true by done. cbn. by apply HQ.
Qed.

Lemma open_checked_ok d rel key want denied w : nodes w = seen (tick w) ->
  rwp (open_checked usable d rel key want denied) (checked d rel key want denied w) w.
Proof.
  intros Hn. unfold open_checked. apply rwp_bind, rwp_catch, rwp_bind. eapply rwp_conseq; [by apply confined_open_ok|].
  intros w1 [fd|e]; cbn [looked_up].
  - intros (root & Hroot & Hfd & i & Hi & Hr). apply rwp_ret. apply rwp_bind, rwp_catch, rwp_bind.
    eapply rwp_conseq; [apply fstat_ok; [by destruct Hr|rewrite (rd_fds _ _ _ Hr); apply lookup_insert_eq]|].
    intros w2 out [Hr2 Ho]. rewrite (rd_fds _ _ _ Hr) in Hr2. assert (Hr02 := reads_trans _ _ _ _ _ Hr Hr2).
    assert (Hrefuse : forall w3, reads w w3 (<[fd := i]> (fds w)) -> rwp (mbind (fun _ => throw (deny key)) (_close_quietly fd)) (checked d rel key want denied w) w3).
    { intros w3 Hr3. eapply close_quietly_ok; [by eapply holding_owned|]. intros w' ?. split; [done|by left]. }
    destruct out as [[j n]|e]; [|rewrite Ho; by apply Hrefuse]. cbn in Ho. destruct Ho as (-> & Ht & Hs). apply rwp_ret.
    destruct (kind_ok want n && _) eqn:Ek; [|by apply Hrefuse]. bool_prop. apply rwp_ret. exists root, i. split; [done|]. split; [by eapply beneath_mono; [| |exact Hi]; [done|destruct Hr2]|]. do 2 (split; [done|]).
    split; [done|]. exists (tick w2), n. split; [|done]. destruct Hr; lia.
  - intros [Href He]. destruct (is_os_error e) eqn:Ee; [by split; [|left]|]. destruct He as [|He]; [done|]. split; [done|by right].
Qed.

(** ** What a rooted policy serves *)

(** Granted: some root serves the request, and what was opened is authorized under it. *)
Definition granted (a : RootedFileAccess) (q : FileRequest) (allowed : list Access) (want : wanted) (w0 w : sys) (fd : Z) : Prop :=
  access q ∈ allowed /\ exists r rel, (r ∈ roots a) /\ (role q ∈ roles r) /\ (access q ∈ accesses r) /\ served r q = Some rel /\
    authorized (dir_fd r) want (deny_inodes a) w0 w fd.

(** Refused: the one denial, or an encoding error for a locator that no file name can be. *)
Definition denied_for (q : FileRequest) (w0 w : sys) (e : error) : Prop :=
  refused (fds w0) w0 w /\ (e = deny (field_key q) \/ unencodable (locator q) e).

Lemma fsencode_suffix a b : is_ok (fsencode b) = false -> is_ok (fsencode (a ++ b)) = false.
Proof.
  unfold fsencode. intros H. induction a as [|c a IH]; [done|]. cbn [app map_res]. destruct (fs_char c) as [x|]; [|done].
  cbn [mbind result_bind]. destruct (map_res fs_char (a ++ b)) as [y|]; done.
Qed.

Lemma served_suffix r q rel : served r q = Some rel -> exists before, locator q = before ++ rel.
Proof.
  unfold served. destruct (_ || _); [done|]. destruct (bool_decide _); [intros [= <-]; by exists []|].
  destruct (_ && _); [|done]. intros [= <-]. eexists. symmetry. apply ztake_zdrop.
Qed.

Lemma first_served_ok rs q r rel : first_served rs q = Some (r, rel) -> (r ∈ rs) /\ served r q = Some rel.
Proof.
  induction rs as [|r' rs IH]; [done|]. cbn. destruct (served r' q) as [rel'|] eqn:E.
  - intros [= -> ->]. split; [left|done].
  - intros [H1 H2]%IH. split; [by right|done].
Qed.

Lemma served_roles r q rel : served r q = Some rel -> (role q ∈ roles r) /\ (access q ∈ accesses r).
Proof. unfold served. destruct (_ || _) eqn:E; [done|]. intros _. apply orb_false_iff in E as [E1 E2]. bool_prop. done. Qed.

Lemma serve_ok a q allowed want w : nodes w = seen (tick w) ->
  rwp (serve usable a q allowed want) (fun w' out => match out with
    | inl fd => granted a q allowed want w w' fd | inr e => denied_for q w w' e end) w.
Proof.
  intros Hn. assert (Hdeny : denied_for q w w (deny (field_key q))) by (split; [by apply refused_refl|by left]).
  unfold serve. apply rwp_bind, rwp_throw_if; [|done]. intros Ha. bool_prop. apply rwp_bind. unfold select.
  destruct (negb _); [done|]. destruct (first_served (roots a) q) as [[r rel]|] eqn:E; [|done]. apply rwp_ret.
  apply first_served_ok in E as [Hr Hs]. unfold open_beneath. destruct (negb _); [done|].
  eapply rwp_conseq; [by apply open_checked_ok|]. intros w' [fd|e].
  - intros H. split; [done|]. exists r, rel. destruct (served_roles _ _ _ Hs). done.
  - intros [Href He]. split; [done|]. destruct He as [->|[-> He]]; [by left|]. right. split; [done|].
    destruct (served_suffix _ _ _ Hs) as [before ->]. by apply fsencode_suffix.
Qed.

(** C17: A rooted policy confines: whatever calls fail and however other processes change
    the tree meanwhile, a handle is given only for a request a root serves, and it is open
    on a regular file (or directory) that is not denied and was reached from that root by
    names its directories held, never through a link, with no other descriptor opened; the
    same holds for what a directory handle opens. Everything else is the one denial of the
    config position, or an encoding error for a locator no file name can be, and leaves
    the descriptors as they were unless a close failed. *)
Theorem rooted_read_confined a q w : nodes w = seen (tick w) ->
  (forall w' out, open_read usable a q w = (w', out) -> match out with
     | inl h => handle_display h = field_key q /\ granted a q [read; stat] want_file w w' (handle_fd h)
     | inr e => denied_for q w w' e end) /\
  (forall w' out, open_dir usable a q w = (w', out) -> match out with
     | inl h => dir_display h = field_key q /\ dir_deny h = deny_inodes a /\ granted a q [read_dir; read] want_dir w w' (dir_handle_fd h)
     | inr e => denied_for q w w' e end) /\
  (forall h rel w' out, dir_open_file usable h rel w = (w', out) -> match out with
     | inl f => authorized (dir_handle_fd h) want_file (dir_deny h) w w' (handle_fd f)
     | inr e => refused (fds w) w w' /\ (e = deny (dir_display h) \/ unencodable rel e) end).
Proof.
  intros Hn. split; [|split].
  - intros w' out H. pose proof (serve_ok a q [read; stat] want_file w Hn) as Hs. unfold rwp in Hs.
    unfold open_read, mbind, run_bind in H. destruct (serve _ _ _ _ _ w) as [w1 [fd|e]]; injection H as <- <-; [by split|done].
  - intros w' out H. pose proof (serve_ok a q [read_dir; read] want_dir w Hn) as Hs. unfold rwp in Hs.
    unfold open_dir, mbind, run_bind in H. destruct (serve _ _ _ _ _ w) as [w1 [fd|e]]; injection H as <- <-; [by split|done].
  - intros h rel w' out H. pose proof (open_checked_ok (dir_handle_fd h) rel (dir_display h) want_file (dir_deny h) w Hn) as Hs. unfold rwp in Hs.
    unfold dir_open_file, mbind, run_bind in H. destruct (open_checked _ _ _ _ _ _ w) as [w1 [fd|e]]; injection H as <- <-; exact Hs.
Qed.
End Reading.

Lemma rooted_read_confined_witness :
  nodes sample_sys = sample_tree /\
  match @open_read no_faults printable_ascii_only true sample_access sample_request sample_sys with
  | (w', inl h) => granted (fun _ => sample_tree) sample_access sample_request [read; stat] want_file sample_sys w' (handle_fd h)
  | (_, inr _) => False
  end.
Proof.
  split; [reflexivity|].
  destruct (@open_read no_faults printable_ascii_only true sample_access sample_request sample_sys) as [w' [h|e]] eqn:E.
  - exact (proj2 (proj1 (@rooted_read_confined no_faults printable_ascii_only true (fun _ => sample_tree) (fun _ => eq_refl) sample_access sample_request sample_sys eq_refl) w' (inl h) E)).
  - exfalso. assert (H : match (@open_read no_faults printable_ascii_only true sample_access sample_request sample_sys).2 with inl _ => True | inr _ => False end) by (vm_compute; exact I).
    rewrite E in H. exact H.
Defined.

(** ** The walk and the system call *)

(** The inode a list of names leads to, no link followed. *)
Fixpoint find_path (t : tree) (d : ino) (names : list pystr) : ino + errno :=
  match names with
  | [] => inl d
  | name :: names => match step_name t d name with inl i => find_path t i names | inr e => inr e end
  end.

Definition openable (t : tree) (d : ino) (names : list pystr) (directory : bool) : ino + errno :=
  match find_path t d names with
  | inl i => if directory && negb (is_dir t i) then inr ENOTDIR else inl i
  | inr e => inr e
  end.

(** A path of valid names that the kernel takes. *)
Definition plain_path (rel : pystr) : bool := forallb is_valid_component (split_slash rel) && path_fits rel.

Section Quiet.
Context {V : SysEnv} {P : Printable}.
(** No call fails and nobody else writes. *)
Context (Hfault : forall k, fault k = None) (Hclose : forall k, close_fault k = None) (Hothers : forall k t, others k t = t).

(** The effect of opening [i] on top of [base], at some time. *)
Definition opens (t : tree) (base : gmap Z ino) (found : ino + errno) (w' : sys) (out : Z + error) : Prop :=
  match found, out with
  | inl i, inl fd => base !! fd = None /\ nodes w' = t /\ fds w' = <[fd := i]> base
  | inr e, inr e' => e' = OSError e /\ nodes w' = t /\ fds w' = base
  | _, _ => False
  end.

Lemma quiet_call {A} (f : sys -> sys * (A + error)) w : exists k, syscall f w = f (MkSys (nodes w) (fds w) k).
Proof. exists (S (tick w)). unfold syscall. by rewrite Hfault, Hothers. Qed.

Lemma quiet_close fd w i : fds w !! fd = Some i -> exists k, sys_close fd w = (MkSys (nodes w) (delete fd (fds w)) k, inl tt).
Proof. intros H. exists (S (tick w)). unfold sys_close. by rewrite H, Hclose, Hothers. Qed.

Lemma quiet_open directory found d i w :
  fds w !! d = Some i ->
  rwp (syscall (with_fd d (open_found directory found)))
     (opens (nodes w) (fds w) (match found (nodes w) i with inl j => if directory && negb (is_dir (nodes w) j) then inr ENOTDIR else inl j | inr e => inr e end)) w.
Proof.
  intros Hd. unfold rwp. destruct (quiet_call (with_fd d (open_found directory found)) w) as [k ->]. unfold with_fd. cbn [fds]. rewrite Hd. unfold open_found. cbn [nodes].
  destruct (found (nodes w) i) as [j|e]; [|done]. destruct (directory && _); [done|]. cbn. split; [apply fresh_none|done].
Qed.

Lemma beneath_plain t names d above : forallb is_valid_component names = true -> beneath t (d :: above) names = find_path t d names.
Proof.
  revert d above. induction names as [|name names IH]; intros d above H; [done|]. cbn [forallb] in H. apply andb_true_iff in H as [Hv Hn].
  cbn [beneath find_path]. unfold is_valid_component in Hv. bool_prop.
  rewrite (bool_decide_eq_false_2 (name = [] \/ name = dot_name)) by naive_solver. rewrite (bool_decide_eq_false_2 (name = dotdot)) by naive_solver.
  destruct (step_name t d name) as [j|]; [by apply IH|done].
Qed.

Lemma find_path_dirs t d part ds : find_path t d (part :: ds) =
  match step_name t d part with inl i => find_path t i ds | inr e => inr e end.
Proof. done. Qed.

Lemma step_not_dir t i name : is_dir t i = false -> step_name t i name = inr ENOTDIR.
Proof. intros H. unfold step_name. by rewrite H. Qed.

(** What an open found on top of a descriptor of one's own, once that one is closed. *)
Lemma quiet_given_back t base fd d found w1 out :
  base !! fd = None -> opens t (<[fd := d]> base) found w1 out ->
  rwp (sys_close fd) (fun w2 out2 => match out2 with inl _ => opens t base found w2 out | inr _ => False end) w1.
Proof.
  intros Hb Ho. assert (Hfd : exists j, fds w1 !! fd = Some j).
  { destruct found, out; cbn in Ho; try done; destruct Ho as (Hx & _ & ->); [|by rewrite lookup_insert_eq; eexists].
    apply lookup_insert_None in Hx as [_ ?]. rewrite lookup_insert_ne by done. rewrite lookup_insert_eq. by eexists. }
  destruct Hfd as [j Hj]. unfold rwp. destruct (quiet_close _ _ _ Hj) as [k ->]. cbn [fst snd].
  destruct found, out; cbn in *; try done; destruct Ho as (Hx & Hn & ->); rewrite Hn.
  - apply lookup_insert_None in Hx as [Hx Hne]. split; [done|]. split; [done|].
    rewrite delete_insert_ne by done. by rewrite delete_insert_id.
  - split; [done|]. split; [done|]. by apply delete_insert_id.
Qed.

Lemma quiet_walk directories leaf directory base w fd d :
  fds w = <[fd := d]> base -> base !! fd = None ->
  rwp (walk fd directories leaf directory) (opens (nodes w) base (openable (nodes w) d (directories ++ [leaf]) directory)) w.
Proof.
  revert w fd d. induction directories as [|part ds IH]; intros w fd d Hf Hb; cbn [walk].
  - apply rwp_ensuring. eapply rwp_conseq; [apply (quiet_open _ _ _ d); rewrite Hf; apply lookup_insert_eq|].
    intros w1 out Ho. rewrite Hf in Ho.
    assert (Hfound : openable (nodes w) d ([] ++ [leaf]) directory = match step_name (nodes w) d leaf with
      | inl j => if directory && negb (is_dir (nodes w) j) then inr ENOTDIR else inl j | inr e => inr e end)
      by (unfold openable; cbn; by destruct (step_name (nodes w) d leaf)).
    rewrite Hfound. eapply rwp_conseq; [by eapply quiet_given_back|]. by intros w2 [[]|e].
  - apply rwp_bind, rwp_closing. eapply rwp_conseq; [apply (quiet_open _ _ _ d); rewrite Hf; apply lookup_insert_eq|].
    intros w1 out Ho. rewrite Hf in Ho. cbn [app]. unfold openable. rewrite find_path_dirs.
    destruct (step_name (nodes w) d part) as [j|e].
    + destruct (is_dir (nodes w) j) eqn:Ej; cbn [andb negb] in Ho.
      * destruct out as [child|e]; [|done]. destruct Ho as (Hx & Hn & Hf1). pose proof Hx as Hx'. apply lookup_insert_None in Hx' as [Hx1 Hne].
        apply rwp_bind, rwp_closing. rewrite <- Hn. 
        pose proof (quiet_given_back (nodes w) base fd d (inl j) w1 (inl child) Hb ltac:(done)) as Hc.
        eapply rwp_conseq; [exact Hc|]. intros w2 [[]|e]; [|done]. intros (H1 & H2 & H3). rewrite Hn, <- H2. by apply IH.
      * destruct out as [child|e]; [done|].
        assert (Hfind : find_path (nodes w) j (ds ++ [leaf]) = inr ENOTDIR) by (destruct ds; cbn [app find_path]; by rewrite step_not_dir).
        rewrite Hfind. eapply rwp_conseq; [by apply (quiet_given_back _ _ _ _ _ _ _ Hb Ho)|]. by intros w2 [[]|e2].
    + destruct out as [child|e1]; [done|]. eapply rwp_conseq; [by apply (quiet_given_back _ _ _ _ _ _ _ Hb Ho)|]. by intros w2 [[]|e2].
Qed.

Lemma split_slash_cons s : split_slash s <> [].
Proof. destruct s as [|c s]; cbn; [done|]. destruct (c =? 47); [done|]. by destruct (split_slash s). Qed.

Lemma split_slash_zero s : 0 ∈ s -> exists p, (p ∈ split_slash s) /\ 0 ∈ p.
Proof.
  induction s as [|c s IH]; [by intros ?%elem_of_nil|]. intros H. cbn [split_slash].
  destruct (Z.eqb_spec c 47) as [->|Hc].
  - apply elem_of_cons in H as [|H]; [done|]. destruct (IH H) as (p & Hp & H0). exists p. split; [by right|done].
  - pose proof (split_slash_cons s) as Hne. destruct (split_slash s) as [|p ps]; [done|].
    apply elem_of_cons in H as [<-|H]; [exists (0 :: p); split; left|]. destruct (IH H) as (q & Hq & H0).
    apply elem_of_cons in Hq as [->|Hq]; [exists (c :: p); split; [left|by right]|exists q; split; [by right|done]].
Qed.

Lemma split_slash_elem s c : c ∈ s -> c = 47 \/ exists p, (p ∈ split_slash s) /\ c ∈ p.
Proof.
  induction s as [|x s IH]; [by intros ?%elem_of_nil|]. intros H. cbn [split_slash].
  destruct (Z.eqb_spec x 47) as [->|Hx].
  - apply elem_of_cons in H as [|H]; [by left|]. destruct (IH H) as [|(p & Hp & Hc)]; [by left|]. right. exists p. split; [by right|done].
  - pose proof (split_slash_cons s) as Hne. apply elem_of_cons in H as [->|H].
    + right. destruct (split_slash s) as [|p ps]; [done|]. exists (x :: p). split; left.
    + destruct (IH H) as [|(q & Hq & Hc)]; [by left|]. right. destruct (split_slash s) as [|p ps]; [done|].
      apply elem_of_cons in Hq as [->|Hq]; [exists (x :: p); split; [left|by right]|exists q; split; [by right|done]].
Qed.

Lemma fsencode_chars s : is_ok (fsencode s) = true <-> Forall (fun c => is_ok (fs_char c) = true) s.
Proof.
  assert (Hs : is_ok (fsencode s) = is_ok (map_res fs_char s)) by (unfold fsencode; by destruct (map_res fs_char s)).
  rewrite Hs. clear Hs. induction s as [|c s IH]; [split; [constructor|done]|]. rewrite list.Forall_cons. cbn [map_res].
  destruct (fs_char c) as [x|e]; [|by split; [|intros [? _]]]. cbn. destruct (map_res fs_char s); cbn in *; naive_solver.
Qed.

Definition valid_path (rel : pystr) : bool := forallb is_valid_component (split_slash rel).

(** A path of valid names is a relative path without NUL, and the kernel has bytes for it. *)
Lemma valid_shape rel : valid_path rel = true ->
  (0 ∉ rel) /\ is_ok (fsencode rel) = true /\ exists c rest, rel = c :: rest /\ c <> 47.
Proof.
  unfold valid_path. intros Hv. rewrite forallb_forall in Hv.
  assert (Hp : forall p, (p ∈ split_slash rel) -> (0 ∉ p) /\ is_ok (fsencode p) = true).
  { intros p Hin. specialize (Hv p (proj1 (list_elem_of_In _ _) Hin)). unfold is_valid_component in Hv. bool_prop.
    split; [done|]. by destruct (fsencode p). }
  split; [intros H0; destruct (split_slash_zero _ H0) as (p & Hin & Hz); by destruct (Hp p Hin)|]. split.
  - apply fsencode_chars, list.Forall_forall. intros c Hc. destruct (split_slash_elem _ _ Hc) as [->|(p & Hin & Hcp)]; [done|].
    destruct (Hp p Hin) as [_ Hok]. apply fsencode_chars in Hok. rewrite list.Forall_forall in Hok. by apply Hok.
  - destruct rel as [|c rest]; [by specialize (Hv [] (or_introl eq_refl))|]. exists c, rest. split; [done|]. intros ->.
    by specialize (Hv [] (or_introl eq_refl)).
Qed.

Lemma plain_shape rel : plain_path rel = true ->
  (0 ∉ rel) /\ is_ok (fsencode rel) = true /\ path_fits rel = true /\ forallb is_valid_component (split_slash rel) = true /\
  exists c rest, rel = c :: rest /\ c <> 47.
Proof.
  unfold plain_path. intros H. apply andb_true_iff in H as [Hv Hp]. destruct (valid_shape _ Hv) as (? & ? & ?). done.
Qed.

(** What an open beneath [root] finds: the one system call also has the kernel's limit on
    the length of a path, which the walk, name by name, does not meet. *)
Definition confined_found (usable : bool) (t : tree) (root : ino) (rel : pystr) (directory : bool) : ino + errno :=
  if usable && negb (path_fits rel) then inr ENAMETOOLONG else openable t root (split_slash rel) directory.

End Quiet.


(** ** What a denial says *)

Section Denials.
Context {P : Printable}.

Definition encode_char (c : Z) : pystr := if isprintable c && negb (c =? 92) then [c] else _escape c.
Definition escaped_key (key : pystr) : pystr := key ≫= encode_char.

Lemma ascii_printable s : forallb (fun c => (32 <=? c) && (c <=? 126)) s = true -> Forall (fun c => isprintable c = true) s.
Proof.
  rewrite forallb_forall. intros H. apply list.Forall_forall. intros c Hc%list_elem_of_In%H.
  rewrite isprintable_ascii; [done|]. bool_prop. lia.
Qed.

Lemma hex_chars_ascii l : Forall (in_radix 16) l -> forallb (fun c => (32 <=? c) && (c <=? 126)) (hex_char <$> l) = true.
Proof.
  induction 1 as [|d l Hd _ IH]; [done|]. cbn. rewrite IH, andb_true_r. unfold in_radix, hex_char in *. destruct (Z.ltb_spec d 10); lia.
Qed.

Lemma escape_printable c : Forall (fun c => isprintable c = true) (_escape c).
Proof.
  apply ascii_printable. unfold _escape, u_escape.
  repeat match goal with |- context [if ?b then _ else _] => destruct b; [try done|] end; rewrite ?forallb_app; cbn [forallb];
    rewrite ?hex_chars_ascii by (by apply pos_digits_range); done.
Qed.

Lemma escaped_printable key : Forall (fun c => isprintable c = true) (escaped_key key).
Proof.
  unfold escaped_key. induction key as [|c key IH]; [constructor|]. rewrite bind_cons. apply Forall_app. split; [|done].
  unfold encode_char. destruct (isprintable c) eqn:E; [|apply escape_printable]. destruct (negb _); [by constructor|apply escape_printable].
Qed.

Lemma hex_chars_inj l l' : Forall (in_radix 16) l -> Forall (in_radix 16) l' -> hex_char <$> l = hex_char <$> l' -> l = l'.
Proof.
  intros H. revert l'. induction H as [|d l Hd _ IH]; intros l' H' E; [by destruct l'|]. destruct H' as [|d' l' Hd' Hl']; [done|].
  cbn in E. injection E as Ec El. f_equal; [|by apply IH]. unfold in_radix, hex_char in *.
  destruct (Z.ltb_spec d 10), (Z.ltb_spec d' 10); lia.
Qed.

(** Fixed-width hexadecimal is read back, whatever follows it. *)
Lemma hex_prefix m x y r s : 0 <= x < 16 ^ Z.of_nat m -> 0 <= y < 16 ^ Z.of_nat m ->
  (hex_char <$> pos_digits 16 m x) ++ r = (hex_char <$> pos_digits 16 m y) ++ s -> x = y /\ r = s.
Proof.
  intros Hx Hy H. apply app_inj_1 in H as [H ->]; [|by rewrite !length_fmap, !length_pos_digits]. split; [|done].
  apply hex_chars_inj in H; [|by apply pos_digits_range..]. apply (f_equal (pos_val 16)) in H.
  rewrite !pos_val_digits, !Z.mod_small in H by lia. done.
Qed.

(** The shape of an escape, by the size of its character. *)
Lemma escape_cases c : code_point c ->
  (exists k, (c, k) ∈ [(92, 92); (9, 116); (10, 110); (13, 114)] /\ _escape c = [92; k]) \/
  (0 <= c < 16 ^ 2 /\ _escape c = 92 :: 120 :: (hex_char <$> pos_digits 16 2 c)) \/
  (0 <= c < 16 ^ 4 /\ _escape c = 92 :: 117 :: (hex_char <$> pos_digits 16 4 c)) \/
  (0 <= c < 16 ^ 8 /\ _escape c = 92 :: 85 :: (hex_char <$> pos_digits 16 8 c)).
Proof.
  unfold code_point, _escape. intros Hc.
  destruct (Z.eqb_spec c 92) as [->|]; [left; exists 92; split; [left|done]|].
  destruct (Z.eqb_spec c 9) as [->|]; [left; exists 116; split; [do 1 right; left|done]|].
  destruct (Z.eqb_spec c 10) as [->|]; [left; exists 110; split; [do 2 right; left|done]|].
  destruct (Z.eqb_spec c 13) as [->|]; [left; exists 114; split; [do 3 right; left|done]|].
  right. destruct (Z.ltb_spec c 256); [left; split; [lia|done]|]. right. destruct (Z.ltb_spec c 65536); [left; split; [lia|done]|]. right. split; [lia|done].
Qed.

Lemma escape_prefix c d r s : code_point c -> code_point d -> _escape c ++ r = _escape d ++ s -> c = d /\ r = s.
Proof.
  intros Hc Hd.
  destruct (escape_cases c Hc) as [(k & Hk & ->)|[[Hx ->]|[[Hx ->]|[Hx ->]]]], (escape_cases d Hd) as [(k' & Hk' & ->)|[[Hy ->]|[[Hy ->]|[Hy ->]]]];
    cbn [app]; intros H; try first [exact (hex_prefix 2 c d r s Hx Hy (f_equal (drop 2) H))|exact (hex_prefix 4 c d r s Hx Hy (f_equal (drop 2) H))|exact (hex_prefix 8 c d r s Hx Hy (f_equal (drop 2) H))];
    try discriminate H;
    injection H as Hkk Hr; repeat match goal with Hin : (_, _) ∈ _ |- _ => rewrite !elem_of_cons, elem_of_nil in Hin end;
    intuition congruence.
Qed.

Lemma escape_head c : code_point c -> exists t, _escape c = 92 :: t.
Proof. intros H. destruct (escape_cases c H) as [(k & _ & ->)|[[_ ->]|[[_ ->]|[_ ->]]]]; by eexists. Qed.

Lemma encode_char_prefix c d r s : code_point c -> code_point d -> encode_char c ++ r = encode_char d ++ s -> c = d /\ r = s.
Proof.
  intros Hc Hd. unfold encode_char. destruct (escape_head c Hc) as [tc Ec], (escape_head d Hd) as [td Ed].
  destruct (isprintable c && negb (c =? 92)) eqn:E1, (isprintable d && negb (d =? 92)) eqn:E2.
  - by intros [= -> ->].
  - rewrite Ed. intros [= -> _]. bool_prop. done.
  - rewrite Ec. intros [= <- _]. bool_prop. done.
  - by apply escape_prefix.
Qed.

Lemma encode_char_nonempty c : code_point c -> encode_char c <> [].
Proof. intros Hc. unfold encode_char. destruct (_ && _); [done|]. by destruct (escape_head c Hc) as [t ->]. Qed.

Lemma escaped_inj k k' : Forall code_point k -> Forall code_point k' -> escaped_key k = escaped_key k' -> k = k'.
Proof.
  unfold escaped_key. intros H. revert k'. induction H as [|c k Hc _ IH]; intros k' H' E; destruct H' as [|d k2 Hd Hk2]; [done|..]; rewrite ?bind_cons in E.
  - symmetry in E. apply app_eq_nil in E as [E _]. by apply encode_char_nonempty in E.
  - apply app_eq_nil in E as [E _]. by apply encode_char_nonempty in E.
  - apply encode_char_prefix in E as [-> E]; [|done..]. f_equal. by apply IH.
Qed.

(** What a denial says is bounded and cannot forge: it is a config position of at most
    256 characters, all printable; a position of printable characters without backslashes
    that fits is shown as it is; and two positions that fit once escaped are never shown
    alike. *)
Theorem denial_text_safe key key' :
  zlen (encode_field_key key) <= 256 /\
  Forall (fun c => isprintable c = true) (encode_field_key key) /\
  (Forall (fun c => isprintable c = true /\ c <> 92) key -> zlen key <= 256 -> encode_field_key key = key) /\
  (Forall code_point key -> Forall code_point key' -> zlen (escaped_key key) <= 256 -> zlen (escaped_key key') <= 256 ->
     encode_field_key key = encode_field_key key' -> key = key').
Proof.
  change (encode_field_key key) with (if zlen (escaped_key key) >? _MAX_KEY then ztake (_MAX_KEY - zlen _TRUNCATED) (escaped_key key) ++ _TRUNCATED else escaped_key key).
  change (encode_field_key key') with (if zlen (escaped_key key') >? _MAX_KEY then ztake (_MAX_KEY - zlen _TRUNCATED) (escaped_key key') ++ _TRUNCATED else escaped_key key').
  unfold _MAX_KEY. change (zlen _TRUNCATED) with 14. split; [|split; [|split]].
  - destruct (zlen (escaped_key key) >? 256) eqn:E; rewrite Z.gtb_ltb in E; [|bool_prop; lia]. bool_prop.
    rewrite zlen_app, zlen_ztake by lia. change (zlen _TRUNCATED) with 14. lia.
  - destruct (_ >? _); [|apply escaped_printable]. apply Forall_app. split; [apply Forall_ztake, escaped_printable|by apply ascii_printable].
  - intros Hk Hl. assert (Hsame : escaped_key key = key).
    { clear Hl. unfold escaped_key. induction Hk as [|c key [Hp Hc] _ IH]; [done|]. rewrite bind_cons, IH. unfold encode_char.
      rewrite Hp. by replace (c =? 92) with false by lia. }
    rewrite Hsame. by replace (zlen key >? 256) with false by lia.
  - intros Hk Hk' Hl Hl'. replace (zlen (escaped_key key) >? 256) with false by lia. replace (zlen (escaped_key key') >? 256) with false by lia.
    by apply escaped_inj.
Qed.
End Denials.

Lemma denial_text_safe_witness :
  @encode_field_key printable_ascii_only (py "source.path") = py "source.path" /\
  (@encode_field_key printable_ascii_only [10] = @encode_field_key printable_ascii_only [9] -> [10] = [9]).
Proof.
  split.
  - apply (@denial_text_safe printable_ascii_only (py "source.path") []); [|vm_compute; discriminate].
    apply (bool_decide_unpack (Forall _ _)). vm_compute. reflexivity.
  - apply (@denial_text_safe printable_ascii_only [10] [9]); [apply (bool_decide_unpack (Forall _ _)); vm_compute; reflexivity..|vm_compute; discriminate|vm_compute; discriminate].
Defined.
