(* ===== verification/FilePolicy.v ===== *)
(** * Which file policy is in force (fileaccess/_entry.py)

    The policy installed in each execution context, the process-wide latches, and the
    objects that keep the policy they were created under. The operations of any threads
    interleave; whatever they do, an installed policy is not widened, and a process that
    forbade the ambient policy, or used a strict one, does not fall back to it. *)

From S2P Require Import Prelude FileSystem.

(** A policy: the ambient one of the command line, or a strict one by its identity. *)
Inductive policy := LocalFileAccess | StrictAccess (id : Z).
#[global] Instance policy_eq_dec : EqDecision policy.
Proof. solve_decision. Defined.

Definition is_local (p : policy) : bool := match p with LocalFileAccess => true | StrictAccess _ => false end.

(** The latches, [_CURRENT] in each context (the values it will be reset to below), and
    the policies bound to iterators, sinks and writers. *)
Record process := MkProcess {
  _ambient_forbidden : bool;
  _strict_in_use : bool;
  _CURRENT : gmap Z (list policy);
  bound : list policy;
}.
Definition initial : process := MkProcess false false ∅ [].

(** [_CURRENT.get()] in a context *)
Definition installed (s : process) (t : Z) : option policy := head (default [] (_CURRENT s !! t)).

Definition set_installed (s : process) (t : Z) (l : list policy) : process :=
  MkProcess (_ambient_forbidden s) (_strict_in_use s) (<[t := l]> (_CURRENT s)) (bound s).
Definition push (s : process) (t : Z) (p : policy) : process := set_installed s t (p :: default [] (_CURRENT s !! t)).
Definition pop (s : process) (t : Z) : process := set_installed s t (tail (default [] (_CURRENT s !! t))).
Definition bind_object (s : process) (p : policy) : process :=
  MkProcess (_ambient_forbidden s) (_strict_in_use s) (_CURRENT s) (bound s ++ [p]).

Definition forbid_ambient (s : process) : process := MkProcess true (_strict_in_use s) (_CURRENT s) (bound s).
Definition ambient_forbidden (s : process) : bool := _ambient_forbidden s.

(** Reading files: the installed policy, else the ambient one while it may be used. *)
Definition current (s : process) (t : Z) : policy + error :=
  match installed s t with
  | Some p => inl p
  | None => if _ambient_forbidden s || _strict_in_use s then inr FileAccessUnavailable else inl LocalFileAccess
  end.

Definition is_ambient (s : process) (t : Z) (p : option policy) : bool :=
  match p with
  | Some p => is_local p
  | None => match installed s t with Some p => is_local p | None => negb (_ambient_forbidden s || _strict_in_use s) end
  end.

Definition require_ambient (s : process) (t : Z) : unit + error :=
  if is_ambient s t None then inl tt else inr FileAccessUnavailable.

Definition _note (s : process) (p : policy) : process :=
  MkProcess (_ambient_forbidden s) (_strict_in_use s || negb (is_local p)) (_CURRENT s) (bound s).

Definition _not_broader (explicit there : policy) : bool := bool_decide (explicit = there) || is_local there.

Definition _resolve (s : process) (t : Z) (explicit : option policy) : process * (policy + error) :=
  match explicit, installed s t with
  | Some p, existing =>
      if _ambient_forbidden s && is_local p then (s, inr FileAccessUnavailable)
      else if match existing with Some q => negb (_not_broader p q) | None => false end then (s, inr FileAccessUnavailable)
      else (_note s p, inl p)
  | None, Some q => (s, inl q)
  | None, None => if _ambient_forbidden s || _strict_in_use s then (s, inr FileAccessUnavailable) else (s, inl LocalFileAccess)
  end.

(** ** What threads do *)

(** [Enter] begins a [scope] or an entry point's call, [Leave] ends the innermost one of
    its thread; [Capture] creates an object bound to the resolved policy (a lazy source, a
    sink, a generator's iterator), [Advance] begins a step of the i-th such iterator;
    [Spawn] submits a task in a copy of the context; [Read] reads a file. *)
Inductive operation :=
| Forbid
| Enter (t : Z) (explicit : option policy)
| Leave (t : Z)
| Capture (t : Z) (explicit : option policy)
| Advance (t : Z) (i : nat)
| Spawn (t task : Z)
| ReadFile (t : Z).

(** The policy an operation is decided by, or a refusal; none where none is asked for. *)
Definition outcome := option (policy + error).

Definition perform (s : process) (o : operation) : process * outcome :=
  match o with
  | Forbid => (forbid_ambient s, None)
  | Enter t explicit =>
      match _resolve s t explicit with (s', inl p) => (push s' t p, Some (inl p)) | (s', inr e) => (s', Some (inr e)) end
  | Leave t => (pop s t, None)
  | Capture t explicit =>
      match _resolve s t explicit with (s', inl p) => (bind_object s' p, Some (inl p)) | (s', inr e) => (s', Some (inr e)) end
  | Advance t i => (match bound s !! i with Some p => push s t p | None => s end, None)
  | Spawn t task => (set_installed s task (match installed s t with Some p => [p] | None => [] end), None)
  | ReadFile t => (s, Some (current s t))
  end.

Fixpoint perform_all (s : process) (os : list operation) : process * list outcome :=
  match os with
  | [] => (s, [])
  | o :: os => let '(s1, out) := perform s o in let '(s2, outs) := perform_all s1 os in (s2, out :: outs)
  end.

(** ** No widening *)

Definition by_thread (o : operation) : option Z :=
  match o with Enter t _ | Capture t _ | ReadFile t => Some t | _ => None end.

(** A context or an object holds the policy. *)
Definition held (s : process) (p : policy) : Prop :=
  (exists t l, _CURRENT s !! t = Some l /\ p ∈ l) \/ p ∈ bound s.

Definition is_strict (out : outcome) : bool := match out with Some (inl p) => negb (is_local p) | _ => false end.

Lemma installed_held s t p : installed s t = Some p -> held s p.
Proof.
  unfold installed. destruct (_CURRENT s !! t) as [l|] eqn:E; [|done]. cbn. intros H. left. exists t, l. split; [done|].
  destruct l; [done|]. injection H as ->. left.
Qed.

Lemma set_installed_held s t l p : held (set_installed s t l) p -> held s p \/ p ∈ l.
Proof.
  intros [(t' & l' & Hl & Hp)|Hp]; [|by left; right]. cbn in Hl. destruct (decide (t' = t)) as [->|Hne].
  - rewrite lookup_insert_eq in Hl. injection Hl as ->. by right.
  - rewrite lookup_insert_ne in Hl by done. left. left. by exists t', l'.
Qed.

Lemma stack_held s t p : p ∈ default [] (_CURRENT s !! t) -> held s p.
Proof. destruct (_CURRENT s !! t) as [l|] eqn:E; [intros H; left; by exists t, l|by intros ?%elem_of_nil]. Qed.

Lemma push_held s t q p : held (push s t q) p -> held s p \/ p = q.
Proof. intros [H|H]%set_installed_held; [by left|]. apply elem_of_cons in H as [->|H]; [by right|left; by eapply stack_held]. Qed.

Lemma bind_held s q p : held (bind_object s q) p -> held s p \/ p = q.
Proof. intros [H|H]; [by left; left|]. cbn in H. apply elem_of_app in H as [H|H%list_elem_of_singleton]; [left; by right|by right]. Qed.

Lemma resolve_spec s t e s' out : _resolve s t e = (s', out) ->
  _CURRENT s' = _CURRENT s /\ bound s' = bound s /\ _ambient_forbidden s' = _ambient_forbidden s /\
  match out with
  | inl p =>
      (installed s t = Some p /\ (_strict_in_use s = true -> _strict_in_use s' = true) \/ _strict_in_use s' = _strict_in_use s || negb (is_local p)) /\
      (_ambient_forbidden s = true -> is_local p = true -> installed s t = Some p) /\
      (forall q, installed s t = Some q -> is_local q = false -> p = q)
  | inr e' => s' = s /\ e' = FileAccessUnavailable
  end.
Proof.
  unfold _resolve. destruct e as [p|], (installed s t) as [q|] eqn:Eq.
  - destruct (_ambient_forbidden s) eqn:Ef, (is_local p) eqn:Ep; cbn [andb].
    1: by intros [= <- <-].
    all: unfold _not_broader; destruct (bool_decide (p = q)) eqn:Ed, (is_local q) eqn:El; cbn [orb negb]; intros [= <- <-]; try done;
      bool_prop; subst; (split; [done|split; [done|split; [done|]]]); (split; [by right; cbn; rewrite ?Ep, ?El|split; [congruence|]]); congruence.
  - destruct (_ambient_forbidden s) eqn:Ef, (is_local p) eqn:Ep; cbn [andb]; intros [= <- <-]; try done;
      (split; [done|split; [done|split; [done|]]]); (split; [by right; cbn; rewrite ?Ep|split; [congruence|done]]).
  - intros [= <- <-]. do 3 (split; [done|]). split; [by left|]. split; [done|congruence].
  - destruct (_ambient_forbidden s) eqn:Ef, (_strict_in_use s) eqn:Es; cbn [orb]; intros [= <- <-]; try done.
    do 3 (split; [done|]). split; [right; cbn; by rewrite Es|]. split; congruence.
Qed.

(** What is held was held, or was just issued. *)
Lemma perform_held s o s' out p : perform s o = (s', out) -> held s' p -> held s p \/ out = Some (inl p).
Proof.
  destruct o as [|t e|t|t e|t i|t t'|t]; cbn [perform].
  - intros [= <- <-]. by left.
  - destruct (_resolve s t e) as [s1 [q|x]] eqn:E; intros [= <- <-]; destruct (resolve_spec _ _ _ _ _ E) as (Hc & Hb & _ & H).
    + intros [Hh| ->]%push_held; [|by right]. left. unfold held in *. by rewrite Hc, Hb in Hh.
    + destruct H as [-> _]. by left.
  - intros [= <- <-] [H|H]%set_installed_held; [by left|]. left. apply (stack_held s t). destruct (default [] _); [done|by right].
  - destruct (_resolve s t e) as [s1 [q|x]] eqn:E; intros [= <- <-]; destruct (resolve_spec _ _ _ _ _ E) as (Hc & Hb & _ & H).
    + intros [Hh| ->]%bind_held; [|by right]. left. unfold held in *. by rewrite Hc, Hb in Hh.
    + destruct H as [-> _]. by left.
  - destruct (bound s !! i) as [q|] eqn:E; intros [= <- <-]; [|by left]. intros [H| ->]%push_held; [by left|]. left. right. by eapply list_elem_of_lookup_2.
  - intros [= <- <-] [H|H]%set_installed_held; [by left|]. left. destruct (installed s t) as [q|] eqn:E; [|by apply elem_of_nil in H].
    apply list_elem_of_singleton in H as ->. by eapply installed_held.
  - intros [= <- <-]. by left.
Qed.

(** A strict policy that is held has set its latch. *)
Definition latched (s : process) : Prop := forall p, held s p -> is_local p = false -> _strict_in_use s = true.

Lemma perform_latches s o s' out : latched s -> perform s o = (s', out) ->
  latched s' /\
  (_ambient_forbidden s = true \/ o = Forbid -> _ambient_forbidden s' = true) /\
  (_strict_in_use s = true \/ is_strict out = true -> _strict_in_use s' = true) /\
  (_ambient_forbidden s = true -> out = Some (inl LocalFileAccess) -> held s LocalFileAccess).
Proof.
  intros Hl H. 
  assert (Hk : (_ambient_forbidden s = true \/ o = Forbid -> _ambient_forbidden s' = true) /\
    (_strict_in_use s = true \/ is_strict out = true -> _strict_in_use s' = true) /\
    (_ambient_forbidden s = true -> out = Some (inl LocalFileAccess) -> held s LocalFileAccess)).
  { assert (Hres : forall t e s1 q, _resolve s t e = (s1, inl q) ->
      (_ambient_forbidden s = true -> _ambient_forbidden s1 = true) /\ (_strict_in_use s = true \/ negb (is_local q) = true -> _strict_in_use s1 = true) /\
      (_ambient_forbidden s = true -> q = LocalFileAccess -> held s LocalFileAccess)).
    { intros t e s1 q E. destruct (resolve_spec _ _ _ _ _ E) as (_ & _ & Hf & Hn & Ha & _). split; [by rewrite Hf|]. split.
      - intros Hs. destruct Hn as [[Hi Hn]| ->]; [|by destruct Hs as [-> | ->]; rewrite ?orb_true_r]. apply Hn. destruct Hs as [|Hs]; [done|].
        apply (Hl q); [by eapply installed_held|by apply negb_true_iff].
      - intros Hfb ->. by apply (installed_held s t), Ha. }
    destruct o as [|t e|t|t e|t i|t t'|t]; cbn [perform] in H.
    - injection H as <- <-. cbn. naive_solver.
    - destruct (_resolve s t e) as [s1 [q|x]] eqn:E; injection H as <- <-.
      + destruct (Hres _ _ _ _ E) as (H1 & H2 & H3). cbn. naive_solver.
      + destruct (resolve_spec _ _ _ _ _ E) as (_ & _ & _ & -> & _). naive_solver.
    - injection H as <- <-. naive_solver.
    - destruct (_resolve s t e) as [s1 [q|x]] eqn:E; injection H as <- <-.
      + destruct (Hres _ _ _ _ E) as (H1 & H2 & H3). cbn. naive_solver.
      + destruct (resolve_spec _ _ _ _ _ E) as (_ & _ & _ & -> & _). naive_solver.
    - destruct (bound s !! i); injection H as <- <-; naive_solver.
    - injection H as <- <-. naive_solver.
    - injection H as <- <-. split; [naive_solver|]. unfold current. destruct (installed s t) as [q|] eqn:E; cbn.
      + split; [|intros _ [= ->]; by eapply installed_held]. intros [|Hs]; [done|]. apply (Hl q); [by eapply installed_held|by apply negb_true_iff].
      + destruct (_ambient_forbidden s) eqn:Ef, (_strict_in_use s); cbn; naive_solver. }
  split; [|exact Hk]. intros p Hp Hloc. destruct Hk as (_ & Hs & _). apply Hs.
  destruct (perform_held _ _ _ _ _ H Hp) as [Hold| ->]; [left; by apply (Hl p)|right; cbn; by rewrite Hloc].
Qed.

Lemma initial_latched : latched initial.
Proof. intros p [(t & l & Hl & _)|Hp]; [done|by apply elem_of_nil in Hp]. Qed.

Lemma perform_all_latches s os s' outs : latched s -> perform_all s os = (s', outs) ->
  latched s' /\ (_ambient_forbidden s = true \/ Forbid ∈ os -> _ambient_forbidden s' = true) /\
  (_strict_in_use s = true \/ existsb is_strict outs = true -> _strict_in_use s' = true).
Proof.
  revert s outs. induction os as [|o os IH]; intros s outs Hl H; cbn in H.
  - injection H as <- <-. split; [done|]. split; (intros [|Hx]; [done|]); [by apply elem_of_nil in Hx|done].
  - destruct (perform s o) as [s1 out] eqn:E1. destruct (perform_all s1 os) as [s2 outs2] eqn:E2. injection H as <- <-.
    destruct (perform_latches _ _ _ _ Hl E1) as (Hl1 & Hf1 & Hs1 & _). destruct (IH _ _ Hl1 E2) as (Hl2 & Hf2 & Hs2).
    split; [done|]. split.
    + rewrite elem_of_cons. intros [H|[H|H]]; apply Hf2; [left; auto|left; auto|by right].
    + cbn [existsb]. rewrite orb_true_iff. intros [H|[H|H]]; apply Hs2; [left; auto|left; auto|by right].
Qed.

Lemma never_ambient s os s' outs : latched s -> _ambient_forbidden s = true -> ~ held s LocalFileAccess -> perform_all s os = (s', outs) ->
  (Some (inl LocalFileAccess) ∉ outs) /\ ~ held s' LocalFileAccess.
Proof.
  revert s outs. induction os as [|o os IH]; intros s outs Hl Hf Hh H; cbn in H.
  - injection H as <- <-. split; [by intros ?%elem_of_nil|done].
  - destruct (perform s o) as [s1 out] eqn:E1. destruct (perform_all s1 os) as [s2 outs2] eqn:E2. injection H as <- <-.
    destruct (perform_latches _ _ _ _ Hl E1) as (Hl1 & Hf1 & _ & Ha). assert (Hout : out <> Some (inl LocalFileAccess)) by (intros ->; by apply Hh, Ha).
    assert (Hh1 : ~ held s1 LocalFileAccess) by (intros Hx; by destruct (perform_held _ _ _ _ _ E1 Hx)).
    destruct (IH _ _ Hl1 ltac:(auto) Hh1 E2) as [Hn Hh2]. split; [|done]. intros [Hx|Hx]%elem_of_cons; [by symmetry in Hx|done].
Qed.

(** C40: A policy is never widened. However threads interleave: under an installed strict
    policy every call, object and read of that context is decided by that same policy or
    refused; once a strict policy was used anywhere or the ambient one forbidden, a context
    with nothing installed gets no policy and no route that needs the ambient one; and once
    the ambient policy is forbidden and nothing holds it any more, no later operation is
    ever decided by it. *)
Theorem policy_never_widens os s outs : perform_all initial os = (s, outs) ->
  (forall t p o s' out, installed s t = Some p -> is_local p = false -> by_thread o = Some t -> perform s o = (s', Some out) ->
     out = inl p \/ out = inr FileAccessUnavailable) /\
  (forall t, Forbid ∈ os \/ existsb is_strict outs = true -> installed s t = None ->
     current s t = inr FileAccessUnavailable /\ (_resolve s t None).2 = inr FileAccessUnavailable /\ require_ambient s t = inr FileAccessUnavailable) /\
  (forall more s' outs', Forbid ∈ os -> ~ held s LocalFileAccess -> perform_all s more = (s', outs') ->
     Some (inl LocalFileAccess) ∉ outs').
Proof.
  intros H. destruct (perform_all_latches _ _ _ _ initial_latched H) as (Hl & Hf & Hs). split; [|split].
  - intros t p o s' out Hi Hp Ho Hx.
    assert (Hres : forall e s1 r, _resolve s t e = (s1, r) -> r = inl p \/ r = inr FileAccessUnavailable).
    { intros e s1 [q|x] E; destruct (resolve_spec _ _ _ _ _ E) as (_ & _ & _ & Hr); [left|right; by destruct Hr as [_ ->]].
      destruct Hr as (_ & _ & Hq). by rewrite (Hq p Hi Hp). }
    destruct o as [|u e|u|u e|u i|u u'|u]; cbn in Ho; try done; injection Ho as ->; cbn in Hx.
    + destruct (_resolve s t e) as [s1 [q|x]] eqn:E; injection Hx as <- <-; by apply (Hres e s1).
    + destruct (_resolve s t e) as [s1 [q|x]] eqn:E; injection Hx as <- <-; by apply (Hres e s1).
    + injection Hx as <- <-. left. unfold current. by rewrite Hi.
  - intros t Hlatch Hi. assert (Hor : _ambient_forbidden s || _strict_in_use s = true)
      by (apply orb_true_iff; destruct Hlatch; [left; apply Hf|right; apply Hs]; by right).
    unfold current, require_ambient, is_ambient, _resolve. by rewrite Hi, Hor.
  - intros more s' outs' Hforbid Hh Hm. by destruct (never_ambient _ _ _ _ Hl (Hf (or_intror Hforbid)) Hh Hm).
Qed.

Definition sample_ops : list operation := [Enter 1 (Some (StrictAccess 7)); ReadFile 1; Forbid; Leave 1].

Lemma policy_never_widens_witness :
  Forbid ∈ sample_ops /\ installed (perform_all initial sample_ops).1 1 = None /\
  current (perform_all initial sample_ops).1 1 = inr FileAccessUnavailable /\
  Some (inl LocalFileAccess) ∉ (perform_all (perform_all initial sample_ops).1 [ReadFile 1; Enter 2 (Some LocalFileAccess)]).2.
Proof.
  assert (Hf : Forbid ∈ sample_ops) by (do 2 right; left).
  pose proof (policy_never_widens sample_ops (perform_all initial sample_ops).1 (perform_all initial sample_ops).2 eq_refl) as (_ & H2 & H3).
  split; [exact Hf|split; [reflexivity|split]].
  - exact (proj1 (H2 1 (or_introl Hf) eq_refl)).
  - eapply (H3 [ReadFile 1; Enter 2 (Some LocalFileAccess)] _ _ Hf); [|reflexivity].
    intros [(t & l & Hl & Hp)|Hp]; [|by apply elem_of_nil in Hp].
    assert (Hc : _CURRENT (perform_all initial sample_ops).1 = {[ 1 := [] ]}) by (vm_compute; reflexivity).
    rewrite Hc in Hl. apply lookup_singleton_Some in Hl as [_ <-]. by apply elem_of_nil in Hp.
Defined.
