(* ===== verification/FileOutput.v ===== *)
(** * Output transactions of a strict policy (fileaccess/_output.py)

    A stage beside the final leaf, written by names relative to its descriptor, published
    by one rename or link or discarded. A transaction is an object with state: an operation
    is a computation on that state and the system. *)

From S2P Require Import Prelude Numerals PyText FileSystem FileAccess.

(** ** Labels *)

Inductive StageLabel := table_sink | quarantine | quarantine_direct | isolated | hold | subset | vault | vault_direct | pack.
#[global] Instance StageLabel_eq_dec : EqDecision StageLabel.
Proof. solve_decision. Defined.

(** A label of the ambient policy alone has no prefix here. *)
Definition STAGE_PREFIX (l : StageLabel) : option pystr :=
  match l with
  | table_sink => Some (py "_decoy_stage_")
  | quarantine | quarantine_direct => Some (py "_decoy_quarantine_stage_")
  | isolated => Some (py "_decoy_isolated_stage_")
  | hold => Some (py "_decoy_hold_")
  | subset => Some (py "_decoy_subset_stage_")
  | vault => Some (py "_decoy_vault_stage_")
  | pack => Some (py "_decoy_pack_stage_")
  | vault_direct => None
  end.
Definition STAGE_SUFFIX (l : StageLabel) : pystr := match l with quarantine | quarantine_direct => py ".jsonl" | _ => [] end.
Definition PRIVATE_LABELS : list StageLabel := [quarantine; isolated].
Definition CREATES_PARENTS (l : StageLabel) : bool := bool_decide (is_Some (STAGE_PREFIX l)) && negb (bool_decide (l = vault)).

Inductive stage_kind := file_stage | dir_stage.
#[global] Instance stage_kind_eq_dec : EqDecision stage_kind.
Proof. solve_decision. Defined.
Inductive publish_mode := exclusive | replace_leaf.
#[global] Instance publish_mode_eq_dec : EqDecision publish_mode.
Proof. solve_decision. Defined.

Section Output.
Context {V : SysEnv} {P : Printable}.
Context (usable : bool).
(** [secrets.token_hex(6)], by the calls made before it. *)
Context (token_hex : nat -> pystr).

(** ** State *)

Record _State := MkState {
  parent_fd : Z; stage_name : pystr; kind : stage_kind; stage_fd : option Z; finished : bool; file_created : bool; child_fds : list Z;
}.

(** What a transaction is besides its state. *)
Record txn_spec := MkTxn { t_leaf : pystr; t_mode : publish_mode; t_private : bool; t_display : pystr }.
Definition mode_bits (t : txn_spec) : Z := if t_private t then 384 else 438.        (* 0o600, 0o666 *)

Definition OutputTxn : Type := txn_spec * _State.

(** A transaction's operations change its state and the system. *)
Definition Txn (A : Type) : Type := Run (_State * sys) A.
Definition on_sys {A} (m : Sys A) : Txn A := fun '(s, w) => let '(w', out) := m w in ((s, w'), out).
Definition get_state : Txn _State := fun '(s, w) => ((s, w), inl s).
Definition put_state (s : _State) : Txn unit := fun '(_, w) => ((s, w), inl tt).

Definition finish (s : _State) : _State :=
  MkState (parent_fd s) (stage_name s) (kind s) (stage_fd s) true (file_created s) (child_fds s).
Definition created (s : _State) : _State :=
  MkState (parent_fd s) (stage_name s) (kind s) (stage_fd s) (finished s) true (child_fds s).
Definition closed_fds (s : _State) : _State :=
  MkState (parent_fd s) (stage_name s) (kind s) None (finished s) (file_created s) [].

(** ** Discarding *)

(** The entries of a directory removed, subdirectories by [rec] first. *)
Fixpoint rm_entries (rec : Z -> Sys unit) (fd : Z) (l : list (pystr * bool)) : Sys unit :=
  match l with
  | [] => mret tt
  | (name, true) :: l =>
      child ← sys_openat fd name true;
      _ ← ensuring (rec child) (_close_quietly child);
      _ ← sys_rmdir fd name;
      rm_entries rec fd l
  | (name, false) :: l => _ ← sys_unlink fd name; rm_entries rec fd l
  end.

(** Everything beneath a directory, no link followed; the fuel is the depth of the tree. *)
Fixpoint _rmtree_fd (fuel : nat) (fd : Z) : Sys unit :=
  match fuel with
  | O => throw (OSError ENAMETOOLONG)
  | S fuel => entries ← sys_scandir fd; rm_entries (_rmtree_fd fuel) fd entries
  end.

Definition quietly (m : Sys unit) : Sys unit := catch is_os_error m (fun _ => mret tt).

Fixpoint close_all (l : list Z) : Sys unit := match l with [] => mret tt | fd :: l => _ ← _close_quietly fd; close_all l end.

(** The tree's depth is less than the number of nodes. *)
Definition rmtree (fd : Z) : Sys unit := fun w => _rmtree_fd (S (size (nodes w))) fd w.

Definition discard_sys (s : _State) : Sys unit :=
  _ ← match kind s with
      | dir_stage =>
          _ ← match stage_fd s with Some fd => _ ← quietly (rmtree fd); _close_quietly fd | None => mret tt end;
          quietly (sys_rmdir (parent_fd s) (stage_name s))
      | file_stage => quietly (sys_unlink (parent_fd s) (stage_name s))
      end;
  _ ← close_all (rev (child_fds s));
  _close_quietly (parent_fd s).

Definition _discard : Txn unit :=
  s ← get_state;
  if finished s then mret tt else
  _ ← put_state (finish s);
  ensuring (on_sys (discard_sys s)) (s ← get_state; put_state (closed_fds s)).

(** ** Names in a stage directory *)

(** [_check] *)
Definition _check (display : pystr) (components : list pystr) : Txn unit :=
  s ← get_state;
  _ ← throw_if (finished s) FileAccessUnavailable;
  on_sys (fold_right (fun c k => _ ← validate_component c display; k) (mret tt) components).

Section Stage.
(** The stage directory's descriptor. *)
Context (display : pystr) (bits : Z) (fd : Z).

Definition stage_create_file (component : pystr) : Txn Z := _ ← _check display [component]; on_sys (sys_open_new fd component bits).
Definition stage_open_file (component : pystr) : Txn Z := _ ← _check display [component]; on_sys (sys_openat fd component false).
Definition stage_create_dir (component : pystr) : Txn Z :=
  _ ← _check display [component];
  _ ← on_sys (sys_mkdir fd component);
  child ← on_sys (sys_openat fd component true);
  s ← get_state;
  _ ← put_state (MkState (parent_fd s) (stage_name s) (kind s) (stage_fd s) (finished s) (file_created s) (child_fds s ++ [child]));
  mret child.
Definition stage_remove (component : pystr) : Txn unit :=
  _ ← _check display [component];
  catch (is_errno EISDIR) (on_sys (sys_unlink fd component)) (fun _ => on_sys (sys_rmdir fd component)).
Definition stage_rename (src dst : pystr) : Txn unit := _ ← _check display [src; dst]; on_sys (sys_rename fd src dst).
Definition local_stage_path : unit + error := inr FileAccessUnavailable.
End Stage.

(** The top-level stage's descriptor; a file stage has none, and any call with it fails. *)
Definition top_fd (s : _State) : Z := default (-1) (stage_fd s).

Definition txn_open_file (t : txn_spec) (component : pystr) : Txn Z := s ← get_state; stage_open_file (t_display t) (top_fd s) component.
Definition txn_remove (t : txn_spec) (component : pystr) : Txn unit := s ← get_state; stage_remove (t_display t) (top_fd s) component.

(** [RootedOutputTxn.create_file] *)
Definition create_file (t : txn_spec) (component : pystr) : Txn Z :=
  s ← get_state;
  match kind s with
  | dir_stage => stage_create_file (t_display t) (mode_bits t) (top_fd s) component
  | file_stage =>
      _ ← _check (t_display t) [component];
      _ ← throw_if (file_created s) FileAccessUnavailable;
      _ ← put_state (created s);
      fd ← on_sys (sys_open_new (parent_fd s) (stage_name s) (mode_bits t));
      _ ← (if t_private t
           then catch is_os_error (on_sys (sys_fchmod fd 384)) (fun e => _ ← on_sys (_close_quietly fd); throw e)
           else mret tt);
      mret fd
  end.

(** ** Publication *)

Definition publish (t : txn_spec) : Txn unit :=
  s ← get_state;
  _ ← throw_if (finished s) FileAccessUnavailable;
  _ ← throw_if (bool_decide (kind s = file_stage) && negb (file_created s)) FileAccessUnavailable;
  _ ← (if bool_decide (kind s = file_stage) && bool_decide (t_mode t = exclusive) then
         _ ← catch (is_errno EEXIST) (on_sys (sys_link (parent_fd s) (stage_name s) (t_leaf t))) (fun e => _ ← _discard; throw e);
         on_sys (quietly (sys_unlink (parent_fd s) (stage_name s)))
       else
         _ ← on_sys (sys_rename (parent_fd s) (stage_name s) (t_leaf t));
         if bool_decide (kind s = file_stage) then on_sys (quietly (sys_fsync (parent_fd s))) else mret tt);
  _ ← put_state (finish s);
  _ ← on_sys (match stage_fd s with Some fd => _close_quietly fd | None => mret tt end);
  _ ← on_sys (close_all (rev (child_fds s)));
  _ ← put_state (closed_fds (finish s));
  on_sys (_close_quietly (parent_fd s)).

(** ** Output directories *)

Record RootedOutputDir := MkOutputDir { _root_fd : Z; _parents : list pystr; _leaf : pystr; o_display : pystr; o_locator : pystr }.

Definition new_output_dir (root_fd : Z) (rel : pystr) (q : FileRequest) : RootedOutputDir + error :=
  let parts := split_slash rel in
  if existsb (fun p => bool_decide (p = [] \/ p = dot_name)) (removelast parts) || negb (forallb is_valid_component parts)
  then inr (deny (field_key q))
  else inl (MkOutputDir root_fd (removelast parts) (List.last parts []) (field_key q) (locator q)).

(** [RootedFileAccess.output_dir] *)
Definition output_dir (a : RootedFileAccess) (q : FileRequest) : Sys RootedOutputDir :=
  _ ← throw_if (negb (bool_decide (access q = write))) (deny (field_key q));
  '(r, rel) ← select a q;
  match new_output_dir (dir_fd r) rel q with inl o => mret o | inr e => throw e end.

Fixpoint open_parents (create : bool) (fd : Z) (parents : list pystr) : Sys Z :=
  match parents with
  | [] => mret fd
  | part :: ps =>
      let giving_up {A} (m : Sys A) : Sys A := catch is_os_error m (fun e => _ ← _close_quietly fd; throw e) in
      _ ← (if create then giving_up (catch (is_errno EEXIST) (sys_mkdir fd part) (fun _ => mret tt)) else mret tt);
      child ← giving_up (_confined_open usable fd part true);
      _ ← _close_quietly fd;
      open_parents create child ps
  end.

Definition _open_parent (o : RootedOutputDir) (create : bool) : Sys Z := fd ← sys_dup (_root_fd o); open_parents create fd (_parents o).

(** [RootedOutputTxn(...)]: a failure after the duplicate leaves it, and the stage, behind. *)
Definition new_txn (parent : Z) (leaf : pystr) (k : stage_kind) (m : publish_mode) (l : StageLabel) (display : pystr) (drawn : nat) : Sys OutputTxn :=
  _ ← validate_component leaf display;
  match STAGE_PREFIX l with
  | None => throw (deny display)
  | Some before =>
      let name := before ++ token_hex drawn ++ STAGE_SUFFIX l in
      dup ← sys_dup parent;
      fd ← match k with
           | dir_stage => _ ← sys_mkdir dup name; fd ← sys_openat dup name true; mret (Some fd)
           | file_stage => mret None
           end;
      mret (MkTxn leaf m (bool_decide (l ∈ PRIVATE_LABELS)) display, MkState dup name k fd false false [])
  end.

(** [begin] *)
Definition begin_txn (o : RootedOutputDir) (k : stage_kind) (m : publish_mode) (l : StageLabel) (drawn : nat) : Sys OutputTxn :=
  parent ← catch is_os_error (_open_parent o (CREATES_PARENTS l)) (fun _ => throw (deny (o_display o)));
  ensuring (new_txn parent (_leaf o) k m l (o_display o) drawn) (_close_quietly parent).

Definition ensure_dir (o : RootedOutputDir) : Sys unit :=
  catch is_os_error
    (parent ← _open_parent o true;
     ensuring (catch (is_errno EEXIST) (sys_mkdir parent (_leaf o)) (fun _ => child ← _confined_open usable parent (_leaf o) true; _close_quietly child))
              (_close_quietly parent))
    (fun _ => throw (deny (o_display o))).

Definition is_empty_or_absent (o : RootedOutputDir) : Sys bool :=
  child ← catch is_os_error
    (parent ← _open_parent o false;
     child ← ensuring (_confined_open usable parent (_leaf o) true) (_close_quietly parent);
     mret (Some child))
    (fun e => if is_errno ENOENT e then mret None else throw (deny (o_display o)));
  match child with
  | None => mret true
  | Some child => ensuring (l ← sys_scandir child; mret (bool_decide (length l = 0%nat))) (_close_quietly child)
  end.
End Output.
