(* ===== verification/TableSink.v ===== *)
(** * The transactional table sink (execution/_transactional_sink.py)

    [ParquetTransactionalSink] over a strict policy's output transaction, the Arrow adapter
    it writes through (fileaccess/adapters/arrow.py, with [guarded] of
    fileaccess/_errors.py) and the evidence it keeps of its publication
    (execution/_publication_observer.py). What a Parquet file holds is Arrow's; the file
    buffer is written through at once. *)

From S2P Require Import Prelude Numerals PyText PyData Reasons FileSystem FileAccess FileOutput.

(** What Arrow writes to the file for a table, a new writer, one more batch and the
    footer, in pieces, and the exception it raises after them, if it does. *)
Class ParquetOps := {
  Table : Type;
  Schema : Type;
  Batch : Type;
  pq_table : Table -> list bytes * option exn;
  pq_open : Schema -> list bytes * option exn;
  pq_batch : Schema -> list Batch -> Batch -> list bytes * option exn;
  pq_footer : Schema -> list Batch -> list bytes * option exn;
}.

Definition STORAGE_REF : pystr := py "output".

(** ** Evidence *)

Record PublicationEvidence := MkEvidence {
  state : PublicationState; cleanup : CleanupState; last_operation : option Operation; stored_bytes : gmap pystr Z;
}.
Definition no_evidence : PublicationEvidence := MkEvidence NOT_PUBLISHED NOT_NEEDED None ∅.
Definition set_state (e : PublicationEvidence) (st : PublicationState) (c : CleanupState) : PublicationEvidence :=
  MkEvidence st c (last_operation e) (stored_bytes e).
Definition set_cleanup (e : PublicationEvidence) (c : CleanupState) : PublicationEvidence := set_state e (state e) c.
Definition set_operation (e : PublicationEvidence) (o : Operation) : PublicationEvidence :=
  MkEvidence (state e) (cleanup e) (Some o) (stored_bytes e).

(** [PublicationEvidence.context] *)
Definition evidence_context (e : PublicationEvidence) (o : Operation) (table : option pystr) : result ReasonContext :=
  new_context (MkContext (match table with Some (_ :: _ as t) => approve_ref (PStr t) | _ => None end)
    (Some o) (Some STORAGE_REF) (Some (state e)) (Some (cleanup e)) [] false None).

Section Sink.
Context {V : SysEnv} {P : Printable} {Q : ParquetOps}.
Context (usable : bool) (token_hex : nat -> pystr).
(** A failure known only by its text to be one of memory. *)
Context (memory_text : exn -> bool).

(** ** Library calls *)

Definition _RESOURCE_ERRNOS : list errno := [EOTHER 28; EOTHER 122; EOTHER 12].      (* ENOSPC, EDQUOT, ENOMEM *)
Definition passes_by_type (e : error) : bool :=
  match e with
  | OSError n => bool_decide (n ∈ _RESOURCE_ERRNOS)
  | Raised x => bool_decide (exc_class x ∈ ["MemoryError"; "OutOfMemoryException"]%string)
  | _ => false
  end.
Definition is_policy_error (e : error) : bool :=
  match e with FileAccessDenied _ | FileAccessReadError _ | FileAccessUnavailable => true | _ => false end.

(** [guarded(display, True, fn)] *)
Definition guarded {W A} (display : pystr) (m : Run W A) : Run W A :=
  catch any_error m (fun e =>
    if is_policy_error e || passes_by_type e || match e with Raised x => memory_text x | _ => false end then throw e
    else throw (read_error display)).

(** [fh.write(data)]: all of it, or an error. *)
Fixpoint fh_loop (fuel : nat) (fd : Z) (data : bytes) : Sys unit :=
  match data with
  | [] => mret tt
  | _ =>
      match fuel with
      | O => throw (OSError EIO)
      | S fuel => n ← sys_write fd data; if n <=? 0 then throw (OSError EIO) else fh_loop fuel fd (zdrop n data)
      end
  end.
Definition fh_write (fd : Z) (data : bytes) : Sys unit := fh_loop (length data) fd data.

(** The pieces a library call writes, then what it raises. *)
Fixpoint fh_writes (fd : Z) (pieces : list bytes) (e : option exn) : Sys unit :=
  match pieces with
  | [] => match e with Some x => throw (Raised x) | None => mret tt end
  | p :: ps => _ ← fh_write fd p; fh_writes fd ps e
  end.
Definition library (fd : Z) (call : list bytes * option exn) : Sys unit := fh_writes fd call.1 call.2.

(** [arrow_adapter.write_table] *)
Definition write_table (t : txn_spec) (data : Table) (component : pystr) : Txn unit :=
  fd ← create_file t component;
  ensuring (on_sys (guarded (t_display t) (library fd (pq_table data)))) (on_sys (sys_close fd)).

(** A writer and its file; [written] is what it has been given. *)
Record writer := MkWriter { w_fd : Z; w_schema : Schema; written : list Batch }.

Definition parquet_writer (t : txn_spec) (component : pystr) (schema : Schema) : Txn writer :=
  fd ← create_file t component;
  _ ← catch any_error (on_sys (guarded (t_display t) (library fd (pq_open schema)))) (fun e => _ ← on_sys (sys_close fd); throw e);
  mret (MkWriter fd schema []).
Definition write_batch (t : txn_spec) (w : writer) (b : Batch) : Txn writer :=
  _ ← on_sys (guarded (t_display t) (library (w_fd w) (pq_batch (w_schema w) (written w) b)));
  mret (MkWriter (w_fd w) (w_schema w) (written w ++ [b])).
Definition close_writer (t : txn_spec) (w : writer) : Txn unit :=
  ensuring (on_sys (guarded (t_display t) (library (w_fd w) (pq_footer (w_schema w) (written w))))) (on_sys (sys_close (w_fd w))).

(** ** The sink *)

(** [captured] are the failures handed to the reason adapter; [draws] counts the stages. *)
Record ParquetTransactionalSink := MkSink {
  _out : RootedOutputDir; _txn : option OutputTxn; publication_evidence : PublicationEvidence;
  captured : list (error * ReasonContext * bool); draws : nat; reports : list (pystr * Z);
}.
Definition new_sink (o : RootedOutputDir) (n : nat) : ParquetTransactionalSink := MkSink o None no_evidence [] n [].

Definition SinkM (A : Type) : Type := Run (ParquetTransactionalSink * sys) A.
Definition get_sink : SinkM ParquetTransactionalSink := fun '(k, w) => ((k, w), inl k).
Definition set_txn (k : ParquetTransactionalSink) (t : option OutputTxn) : ParquetTransactionalSink :=
  MkSink (_out k) t (publication_evidence k) (captured k) (draws k) (reports k).
Definition set_evidence (k : ParquetTransactionalSink) (e : PublicationEvidence) : ParquetTransactionalSink :=
  MkSink (_out k) (_txn k) e (captured k) (draws k) (reports k).
Definition modify (f : ParquetTransactionalSink -> ParquetTransactionalSink) : SinkM unit := fun '(k, w) => ((f k, w), inl tt).
Definition evidence (f : PublicationEvidence -> PublicationEvidence) : SinkM unit :=
  modify (fun k => set_evidence k (f (publication_evidence k))).
Definition sys_do {A} (m : Sys A) : SinkM A := fun '(k, w) => let '(w', out) := m w in ((k, w'), out).

(** An operation of the sink's transaction, which keeps its new state. *)
Definition in_txn {A} (m : txn_spec -> Txn A) : SinkM A := fun '(k, w) =>
  match _txn k with
  | Some (t, s) => let '((s', w'), out) := m t (s, w) in ((set_txn k (Some (t, s')), w'), out)
  | None => ((k, w), inr FileAccessUnavailable)
  end.

Definition capture_publication_failure (e : error) (o : Operation) (table : option pystr) (secondary : bool) : SinkM unit :=
  modify (fun k => match evidence_context (publication_evidence k) o table with
    | Ok c => MkSink (_out k) (_txn k) (publication_evidence k) (captured k ++ [(e, c, secondary)]) (draws k) (reports k)
    | Err _ => k end).

(** [try: m except BaseException as exc: capture_publication_failure(exc, ...); raise] *)
Definition observing {A} (o : Operation) (table : option pystr) (m : SinkM A) : SinkM A :=
  catch any_error m (fun e => _ ← capture_publication_failure e o table false; throw e).

(** ".." in table *)
Fixpoint has_dotdot (s : pystr) : bool :=
  match s with 46 :: (46 :: _) => true | _ :: s => has_dotdot s | [] => false end.
Definition table_name_ok (table : pystr) : bool := negb (bool_decide (47 ∈ table)) && negb (has_dotdot table) && negb (bool_decide (table = dot_name)).
Definition _validate_table_name (table : pystr) : SinkM unit := throw_if (negb (table_name_ok table)) ValueError.

Definition component_of (table : pystr) : pystr := table ++ py ".parquet".
Definition committed_name (table : pystr) : pystr + error := if table_name_ok table then inl (component_of table) else inr ValueError.

Definition _stage : SinkM unit :=
  k ← get_sink;
  match _txn k with
  | Some _ => mret tt
  | None =>
      _ ← modify (fun k => MkSink (_out k) (_txn k) (publication_evidence k) (captured k) (S (draws k)) (reports k));
      t ← sys_do (begin_txn usable token_hex (_out k) dir_stage exclusive table_sink (draws k));
      _ ← modify (fun k => set_txn k (Some t));
      evidence (fun e => set_cleanup e CUNKNOWN)
  end.

Definition _replace_staged (component : pystr) : SinkM unit :=
  catch (is_errno ENOENT) (in_txn (fun t => txn_remove t component)) (fun _ => mret tt).

(** The size of a closed staged file, from its own descriptor. *)
Definition _stored (channel_active : bool) (table component : pystr) : SinkM unit :=
  fd ← catch is_os_error (fd ← in_txn (fun t => txn_open_file t component); mret (Some fd)) (fun _ => mret None);
  match fd with
  | None => mret tt
  | Some fd =>
      size ← ensuring (catch is_os_error ('(_, n) ← sys_do (sys_fstat fd); mret (Some (match n with NFile b _ => zlen b | _ => 0 end))) (fun _ => mret None))
                      (sys_do (sys_close fd));
      match size with
      | None => mret tt
      | Some n =>
          _ ← evidence (fun e => MkEvidence (state e) (cleanup e) (last_operation e) (<[table := n]> (stored_bytes e)));
          if channel_active
          then modify (fun k => MkSink (_out k) (_txn k) (publication_evidence k) (captured k) (draws k) (reports k ++ [(table, n)]))
          else mret tt
      end
  end.

Definition sink_write (channel_active : bool) (table : pystr) (data : Table) : SinkM unit :=
  _ ← _validate_table_name table;
  _ ← _stage;
  let component := component_of table in
  _ ← _replace_staged component;
  _ ← evidence (fun e => set_operation e WRITE);
  _ ← observing WRITE (Some table) (in_txn (fun t => write_table t data component));
  _stored channel_active table component.

(** The failing end of a batch stream: observed, the writer closed as well as may be. *)
Definition stream_failed {A} (table : pystr) (w : writer) (e : error) : SinkM A :=
  _ ← capture_publication_failure e WRITE (Some table) false;
  _ ← catch any_error (in_txn (fun t => close_writer t w)) (fun _ => mret tt);
  throw e.

(** The batches an iterator gives, and what it raises in the end, if it does. *)
Fixpoint write_each (table : pystr) (w : writer) (batches : list Batch) (raised : option error) : SinkM writer :=
  match batches with
  | [] => match raised with None => mret w | Some e => stream_failed table w e end
  | b :: bs =>
      w' ← catch any_error (in_txn (fun t => write_batch t w b)) (stream_failed table w);
      write_each table w' bs raised
  end.

Definition sink_write_batches (channel_active : bool) (table : pystr) (batches : list Batch) (raised : option error) (schema : Schema) : SinkM unit :=
  _ ← _validate_table_name table;
  _ ← _stage;
  let component := component_of table in
  _ ← _replace_staged component;
  _ ← evidence (fun e => set_operation e WRITE);
  w ← in_txn (fun t => parquet_writer t component schema);
  w ← write_each table w batches raised;
  _ ← evidence (fun e => set_operation e CLOSE);
  _ ← observing CLOSE (Some table) (in_txn (fun t => close_writer t w));
  _stored channel_active table component.

Definition sink_commit : SinkM unit :=
  _ ← evidence (fun e => set_operation e COMMIT);
  k ← get_sink;
  catch any_error
    match _txn k with
    | None =>
        _ ← sys_do (ensure_dir usable (_out k));
        evidence (fun e => set_state e PUBLISHED (cleanup e))
    | Some _ =>
        _ ← in_txn publish;
        _ ← modify (fun k => set_txn k None);
        evidence (fun e => set_state e PUBLISHED NOT_NEEDED)
    end
    (fun e =>
       _ ← evidence (fun ev => set_state ev NOT_PUBLISHED NOT_NEEDED);
       _ ← capture_publication_failure e COMMIT None false;
       throw e).

(** [_cleanup_staging]: a strict stage has no path to look at, so its removal is attempted
    but never confirmed. *)
Definition sink_abort : SinkM unit :=
  k ← get_sink;
  match _txn k with
  | None => mret tt
  | Some _ =>
      done ← catch any_error (_ ← in_txn (fun _ => _discard); mret true) (fun _ => mret false);
      _ ← modify (fun k => set_txn k None);
      evidence (fun e => set_cleanup e (if done : bool then ATTEMPTED else FAILED))
  end.

(** ** Observed publication *)

Definition observed_commit : SinkM unit :=
  _ ← catch any_error sink_commit (fun e => _ ← capture_publication_failure e COMMIT None false; throw e);
  evidence (fun e => set_operation (set_state e PUBLISHED (cleanup e)) COMMIT).

(** The cleanup state amended onto the failure that is unwinding. *)
Definition observed_abort : SinkM CleanupState :=
  _ ← evidence (fun e => set_operation e ABORT);
  catch any_error
    (_ ← sink_abort; k ← get_sink; mret (cleanup (publication_evidence k)))
    (fun e =>
       _ ← evidence (fun ev => set_cleanup ev FAILED);
       _ ← capture_publication_failure e ABORT None true;
       mret FAILED).
(** ** A run that publishes *)

Inductive table_op :=
| WriteTable (table : pystr) (data : Table)
| WriteBatches (table : pystr) (batches : list Batch) (raised : option error) (schema : Schema).

Definition perform_op (channel_active : bool) (o : table_op) : SinkM unit :=
  match o with
  | WriteTable table data => sink_write channel_active table data
  | WriteBatches table batches raised schema => sink_write_batches channel_active table batches raised schema
  end.

Fixpoint write_tables (channel_active : bool) (ops : list table_op) : SinkM unit :=
  match ops with [] => mret tt | o :: ops => _ ← perform_op channel_active o; write_tables channel_active ops end.

(** The tables are written and committed; whatever raises before that aborts the sink. *)
Definition run_published (channel_active : bool) (ops : list table_op) : SinkM unit :=
  catch any_error (_ ← write_tables channel_active ops; observed_commit) (fun e => _ ← observed_abort; throw e).
End Sink.
