(* ===== verification/FileOutputTheory.v ===== *)
(** * Output transactions: what a stage changes

    Whatever calls fail, a transaction over a stage directory touches nothing but its
    stage until it is published: the tree keeps every node, and the parent directory every
    entry, it had when the stage was made. Nobody else is taken to write there. *)

From S2P Require Import Prelude Numerals PyText FileSystem FileAccess FileAccessTheory FileOutput.

Section Stage.
Context {V : SysEnv} {P : Printable} (usable : bool) (token_hex : nat -> pystr).
Context (Hothers : forall k t, others k t = t).

(** ** Rules for calls in a tree nobody else changes *)

Definition at_tick (w : sys) (k : nat) : sys := MkSys (nodes w) (fds w) k.

Lemma calm_syscall {A} (f : sys -> sys * (A + error)) (Q : sys -> A + error -> Prop) w :
  (forall k, rwp f Q (at_tick w k)) -> (forall k e, Q (at_tick w k) (inr (OSError e))) -> rwp (syscall f) Q w.
Proof. intros H1 H2. unfold rwp, syscall. rewrite Hothers. destruct (fault (tick w)); [apply H2|apply H1]. Qed.

Lemma calm_with_fd {A} fd (f : ino -> sys -> sys * (A + error)) (Q : sys -> A + error -> Prop) w i :
  fds w !! fd = Some i -> rwp (f i) Q w -> rwp (with_fd fd f) Q w.
Proof. intros H1 H2. unfold rwp, with_fd. by rewrite H1. Qed.

Lemma calm_close fd (Q : sys -> unit + error -> Prop) w :
  (forall k out, match out with inl _ => True | inr e => is_os_error e = true end -> Q (MkSys (nodes w) (delete fd (fds w)) k) out) ->
  rwp (sys_close fd) Q w.
Proof. intros H. unfold rwp, sys_close. rewrite Hothers. destruct (fds w !! fd); [destruct (close_fault _)|]; by apply H. Qed.

Lemma rwp_on_sys {A} (m : Sys A) (Q : _State * sys -> A + error -> Prop) s w :
  rwp m (fun w' out => Q (s, w') out) w -> rwp (on_sys m) Q (s, w).
Proof. unfold rwp, on_sys. by destruct (m w). Qed.

Lemma rwp_state (Q : _State * sys -> _State + error -> Prop) s w : Q (s, w) (inl s) -> rwp get_state Q (s, w).
Proof. done. Qed.

Lemma rwp_put (s' : _State) (Q : _State * sys -> unit + error -> Prop) s w : Q (s', w) (inl tt) -> rwp (put_state s') Q (s, w).
Proof. done. Qed.

(** ** The stage *)

(** The tree [t0] before the stage [name] was made in the directory [p], whose entries
    were [es]; [s] is the stage. *)
Context (t0 : tree) (p s : ino) (es : gmap pystr ino) (name : pystr).

Definition is_file (t : tree) (i : ino) : Prop := exists b m, t !! i = Some (NFile b m).

(** The tree while the stage holds [files], each its own. *)
Record staged (files : gmap pystr ino) (t : tree) : Prop := {
  sg_parent : t !! p = Some (NDir (<[name := s]> es));
  sg_stage : t !! s = Some (NDir files);
  sg_files c i : files !! c = Some i -> is_file t i /\ t0 !! i = None;
  sg_inj c c' i : files !! c = Some i -> files !! c' = Some i -> c = c';
  sg_rest i n : t0 !! i = Some n -> i <> p -> t !! i = Some n;
}.

Context (Hp : t0 !! p = Some (NDir es)) (Hs : t0 !! s = None) (Hname : es !! name = None).

Definition file_bytes (t : tree) (i : ino) : option bytes := match t !! i with Some (NFile b _) => Some b | _ => None end.
Definition contents (t : tree) (files : gmap pystr ino) : gmap pystr bytes := omap (file_bytes t) files.

Lemma stage_not_parent : s <> p.
Proof. congruence. Qed.

Lemma staged_not_file files t c i : staged files t -> files !! c = Some i -> i <> p /\ i <> s.
Proof.
  intros Hg Hc. destruct (sg_files _ _ Hg c i Hc) as [(b & m & Hf) Hn]. split; intros ->; [congruence|].
  rewrite (sg_stage _ _ Hg) in Hf. done.
Qed.

(** A file's bytes change. *)
Lemma staged_write files t c i b m : staged files t -> files !! c = Some i -> staged files (<[i := NFile b m]> t).
Proof.
  intros Hg Hc. destruct (staged_not_file _ _ _ _ Hg Hc) as [Hip His]. destruct (sg_files _ _ Hg c i Hc) as [_ Hn]. constructor.
  - rewrite lookup_insert_ne by done. apply Hg.
  - rewrite lookup_insert_ne by done. apply Hg.
  - intros c' j Hj. destruct (sg_files _ _ Hg c' j Hj) as [(b' & m' & Hf) Hnj]. split; [|done].
    destruct (decide (i = j)) as [->|]; [exists b, m; apply lookup_insert_eq|exists b', m'; by rewrite lookup_insert_ne].
  - apply Hg.
  - intros j n Hj Hjp. rewrite lookup_insert_ne by congruence. by apply Hg.
Qed.

Lemma contents_write files t c i b m : staged files t -> files !! c = Some i ->
  contents (<[i := NFile b m]> t) files = <[c := b]> (contents t files).
Proof.
  intros Hg Hc. apply map_eq. intros c'. unfold contents. rewrite lookup_omap. destruct (decide (c = c')) as [<-|Hne].
  - rewrite lookup_insert_eq, Hc. cbn. unfold file_bytes. by rewrite lookup_insert_eq.
  - rewrite lookup_insert_ne, lookup_omap by done. destruct (files !! c') as [j|] eqn:Ej; [|done]. cbn. unfold file_bytes.
    rewrite lookup_insert_ne; [done|]. intros ->. by apply Hne, (sg_inj _ _ Hg c c' j).
Qed.

(** A new file of the stage. *)
Lemma staged_create files t c i m : staged files t -> files !! c = None -> t !! i = None ->
  staged (<[c := i]> files) (<[i := NFile [] m]> (<[s := NDir (<[c := i]> files)]> t)).
Proof.
  intros Hg Hc Hi.
  assert (Hip : i <> p) by (intros ->; by rewrite (sg_parent _ _ Hg) in Hi).
  assert (His : i <> s) by (intros ->; by rewrite (sg_stage _ _ Hg) in Hi).
  assert (Hi0 : t0 !! i = None) by (destruct (t0 !! i) as [n|] eqn:E; [|done]; by rewrite (sg_rest _ _ Hg i n E Hip) in Hi).
  pose proof stage_not_parent as Hsp.
  constructor.
  - rewrite !lookup_insert_ne by done. apply Hg.
  - rewrite lookup_insert_ne, lookup_insert_eq by done. done.
  - intros c' j Hj. destruct (decide (c = c')) as [<-|Hne].
    + rewrite lookup_insert_eq in Hj. injection Hj as <-. split; [|done]. exists [], m. apply lookup_insert_eq.
    + rewrite lookup_insert_ne in Hj by done. destruct (sg_files _ _ Hg c' j Hj) as [(b & m' & Hf) Hn]. split; [|done].
      exists b, m'. destruct (staged_not_file _ _ _ _ Hg Hj). rewrite !lookup_insert_ne by congruence. done.
  - intros c1 c2 j H1 H2. destruct (decide (c = c1)) as [<-|H1n], (decide (c = c2)) as [<-|H2n]; [done| | |].
    + rewrite lookup_insert_eq in H1. injection H1 as <-. rewrite lookup_insert_ne in H2 by done.
      destruct (sg_files _ _ Hg c2 i H2) as [(b & m' & Hf) _]. congruence.
    + rewrite lookup_insert_eq in H2. injection H2 as <-. rewrite lookup_insert_ne in H1 by done.
      destruct (sg_files _ _ Hg c1 i H1) as [(b & m' & Hf) _]. congruence.
    + rewrite lookup_insert_ne in H1, H2 by done. by apply (sg_inj _ _ Hg c1 c2 j).
  - intros j n Hj Hjp. rewrite !lookup_insert_ne by congruence. by apply Hg.
Qed.

Lemma contents_create files t c i m : staged files t -> files !! c = None -> t !! i = None ->
  contents (<[i := NFile [] m]> (<[s := NDir (<[c := i]> files)]> t)) (<[c := i]> files) = <[c := []]> (contents t files).
Proof.
  intros Hg Hc Hi. apply map_eq. intros c'. unfold contents. rewrite lookup_omap. destruct (decide (c = c')) as [<-|Hne].
  - rewrite !lookup_insert_eq. cbn. unfold file_bytes. by rewrite lookup_insert_eq.
  - rewrite !lookup_insert_ne, lookup_omap by done. destruct (files !! c') as [j|] eqn:Ej; [|done]. cbn. unfold file_bytes.
    destruct (sg_files _ _ Hg c' j Ej) as [(b & m' & Hf) _]. destruct (staged_not_file _ _ _ _ Hg Ej).
    rewrite !lookup_insert_ne by congruence. done.
Qed.

(** A file leaves the stage. *)
Lemma staged_remove files t c : staged files t -> staged (delete c files) (<[s := NDir (delete c files)]> t).
Proof.
  intros Hg. pose proof stage_not_parent as Hsp. constructor.
  - rewrite lookup_insert_ne by done. apply Hg.
  - apply lookup_insert_eq.
  - intros c' j Hj. apply lookup_delete_Some in Hj as [_ Hj]. destruct (sg_files _ _ Hg c' j Hj) as [(b & m & Hf) Hn]. split; [|done].
    exists b, m. destruct (staged_not_file _ _ _ _ Hg Hj). by rewrite lookup_insert_ne.
  - intros c1 c2 j H1 H2. apply lookup_delete_Some in H1 as [_ H1], H2 as [_ H2]. by apply (sg_inj _ _ Hg c1 c2 j).
  - intros j n Hj Hjp. rewrite lookup_insert_ne by congruence. by apply Hg.
Qed.

Lemma contents_remove files t c : staged files t -> contents (<[s := NDir (delete c files)]> t) (delete c files) = delete c (contents t files).
Proof.
  intros Hg. apply map_eq. intros c'. unfold contents. rewrite lookup_omap. destruct (decide (c = c')) as [<-|Hne].
  - by rewrite !lookup_delete_eq.
  - rewrite !lookup_delete_ne, lookup_omap by done. destruct (files !! c') as [j|] eqn:Ej; [|done]. cbn. unfold file_bytes.
    destruct (staged_not_file _ _ _ _ Hg Ej). by rewrite lookup_insert_ne.
Qed.

(** ** Operations on a live stage *)

Record live (files : gmap pystr ino) (st : _State) (w : sys) : Prop := {
  lv_staged : staged files (nodes w);
  lv_open : finished st = false;
  lv_kind : kind st = dir_stage;
  lv_parent : fds w !! parent_fd st = Some p;
  lv_name : stage_name st = name;
  lv_stage : fds w !! top_fd st = Some s;
}.

(** The same stage later: other descriptors and other contents. *)
Lemma live_later files files' st w w' :
  live files st w -> staged files' (nodes w') -> fds w' !! parent_fd st = fds w !! parent_fd st -> fds w' !! top_fd st = fds w !! top_fd st -> live files' st w'.
Proof. intros [] Hg H1 H2. constructor; congruence. Qed.

Lemma live_tick files st w k : live files st w -> live files st (at_tick w k).
Proof. intros H. eapply live_later; [exact H|apply H|done..]. Qed.

Lemma live_fds files st w : live files st w -> parent_fd st <> top_fd st.
Proof. intros Hl E. pose proof (lv_parent _ _ _ Hl) as H1. rewrite E, (lv_stage _ _ _ Hl) in H1. injection H1 as H1. by apply stage_not_parent. Qed.

(** A descriptor that is neither the stage's nor its parent's. *)
Definition own_fd (st : _State) (fd : Z) : Prop := fd <> parent_fd st /\ fd <> top_fd st.

Lemma live_insert_fd files st w fd i : live files st w -> own_fd st fd -> live files st (MkSys (nodes w) (<[fd := i]> (fds w)) (tick w)).
Proof. intros H [H1 H2]. eapply live_later; [exact H|apply H|cbn; by rewrite lookup_insert_ne..]. Qed.

Lemma fresh_own files st w : live files st w -> own_fd st (fresh (dom (fds w))).
Proof. intros []. pose proof (fresh_none (fds w)) as Hf. split; intros E; rewrite E in Hf; congruence. Qed.

Lemma check_ok display cs files st w (Q : _State * sys -> unit + error -> Prop) : live files st w ->
  Q (st, w) (inl tt) -> (forall e, is_os_error e = false -> Q (st, w) (inr e)) -> rwp (_check display cs) Q (st, w).
Proof.
  intros Hl H1 H2. apply rwp_bind, rwp_state, rwp_bind. rewrite (lv_open _ _ _ Hl). apply rwp_ret, rwp_on_sys.
  induction cs as [|c cs IH]; [exact H1|]. cbn [fold_right]. apply rwp_bind, rwp_throw_if; [by intros _; apply IH|]. intros _. by apply H2.
Qed.

Lemma fresh_ino_none d t : t !! fresh_ino d t = None.
Proof.
  apply not_elem_of_dom. intros H. unfold fresh_ino in H. apply (is_fresh (set_map (D := gset Z) snd (dom t))).
  apply elem_of_map. eexists. split; [|exact H]. done.
Qed.

(** The file just made in the stage, under a descriptor of its own. *)
Definition made (files : gmap pystr ino) (st : _State) (w : sys) (c : pystr) (w' : sys) (fd : Z) : Prop :=
  exists i, own_fd st fd /\ fds w' = <[fd := i]> (fds w) /\ live (<[c := i]> files) st w' /\ files !! c = None /\
    contents (nodes w') (<[c := i]> files) = <[c := []]> (contents (nodes w) files).

Lemma create_ok t c files st w : live files st w ->
  rwp (create_file t c) (fun sw out => sw.1 = st /\ match out with
    | inl fd => made files st w c sw.2 fd
    | inr e => live files st sw.2 /\ contents (nodes sw.2) files = contents (nodes w) files end) (st, w).
Proof.
  intros Hl. unfold create_file. apply rwp_bind, rwp_state. rewrite (lv_kind _ _ _ Hl). unfold stage_create_file.
  apply rwp_bind. eapply check_ok; [done| |by intros e _]. apply rwp_on_sys, calm_syscall; [|intros k e; split; [done|]; split; [by apply live_tick|done]].
  intros k. assert (Hlk := live_tick _ _ _ k Hl). eapply calm_with_fd; [exact (lv_stage _ _ _ Hlk)|]. unfold rwp, add_node, add_entry, at_tick. cbn [nodes fds tick].
  rewrite (sg_stage _ _ (lv_staged _ _ _ Hl)).
  destruct (negb (name_fits c)); [by split|]. destruct (files !! c) as [j|] eqn:Ec; [by split|].
  set (i := fresh_ino s (nodes w)). assert (Hi : nodes w !! i = None) by apply fresh_ino_none.
  cbn. split; [done|]. exists i. pose proof (fresh_own _ _ _ Hl) as Hown. split; [done|]. split; [done|]. split.
  - eapply live_later; [exact Hl|by apply staged_create; [apply Hl|..]|cbn; destruct Hown; by rewrite lookup_insert_ne..].
  - split; [done|]. by apply contents_create; [apply Hl|..].
Qed.

Lemma openat_live fd c dir files st w : live files st w -> fds w !! fd = Some s ->
  rwp (sys_openat fd c dir) (fun w' out => live files st w' /\ nodes w' = nodes w /\ match out with
    | inl fd' => own_fd st fd' /\ exists i, fds w' = <[fd' := i]> (fds w) | inr e => fds w' = fds w end) w.
Proof.
  intros Hl Hfd. apply calm_syscall; [|intros k e; split; [by apply live_tick|done]]. intros k. eapply calm_with_fd; [exact Hfd|].
  unfold rwp, open_found. destruct (step_name _ _ _) as [j|e]; [|by split; [apply live_tick|]]. destruct (dir && _); [by split; [apply live_tick|]|].
  cbn. pose proof (fresh_own _ _ _ Hl) as Hown. split; [by apply (live_insert_fd _ _ (at_tick w k)); [apply live_tick|]|]. split; [done|]. split; [done|by eexists].
Qed.

Lemma close_live fd files st w : live files st w -> own_fd st fd ->
  rwp (sys_close fd) (fun w' _ => live files st w' /\ nodes w' = nodes w /\ fds w' = delete fd (fds w)) w.
Proof.
  intros Hl [H1 H2]. apply calm_close. intros k out _. split; [|done]. eapply live_later; [exact Hl|apply Hl|cbn; by rewrite lookup_delete_ne..].
Qed.

(** Removing a name: it is gone, or nothing changed. *)
Definition removed (c : pystr) (files : gmap pystr ino) (st : _State) (w w' : sys) (out : unit + error) : Prop :=
  fds w' = fds w /\
  match out with
  | inl _ => live (delete c files) st w' /\ contents (nodes w') (delete c files) = delete c (contents (nodes w) files)
  | inr e => live files st w' /\ contents (nodes w') files = contents (nodes w) files
  end.

Lemma not_removed c files st w k e : live files st w -> removed c files st w (at_tick w k) (inr e).
Proof. intros Hl. split; [done|]. split; [by apply live_tick|done]. Qed.

Lemma stage_file_not_dir files st w c i : live files st w -> files !! c = Some i -> is_dir (nodes w) i = false.
Proof. intros Hl Hc. destruct (sg_files _ _ (lv_staged _ _ _ Hl) c i Hc) as [(b & m & Hf) _]. unfold is_dir. by rewrite Hf. Qed.

Lemma unlink_live c files st w fd : live files st w -> fds w !! fd = Some s -> rwp (sys_unlink fd c) (removed c files st w) w.
Proof.
  intros Hl Hfd. apply calm_syscall; [|intros; by apply not_removed]. intros k. eapply calm_with_fd; [exact Hfd|].
  unfold rwp, entry, at_tick. cbn [nodes fds tick]. rewrite (sg_stage _ _ (lv_staged _ _ _ Hl)).
  destruct (files !! c) as [i|] eqn:Ec; [|by apply (not_removed c files st w k)].
  rewrite (stage_file_not_dir _ _ _ _ _ Hl Ec). split; [done|]. split; [|apply contents_remove, Hl].
  eapply live_later; [exact Hl|apply staged_remove, Hl|done..].
Qed.

Lemma rmdir_live c files st w fd : live files st w -> fds w !! fd = Some s -> rwp (sys_rmdir fd c) (removed c files st w) w.
Proof.
  intros Hl Hfd. apply calm_syscall; [|intros; by apply not_removed]. intros k. eapply calm_with_fd; [exact Hfd|].
  unfold rwp, entry, at_tick. cbn [nodes fds tick]. rewrite (sg_stage _ _ (lv_staged _ _ _ Hl)).
  destruct (files !! c) as [i|] eqn:Ec; [|by apply (not_removed c files st w k)].
  rewrite (stage_file_not_dir _ _ _ _ _ Hl Ec). by apply (not_removed c files st w k).
Qed.

Lemma live_same files st w w' : live files st w -> nodes w' = nodes w -> fds w' = fds w -> live files st w'.
Proof. intros Hl Hn Hf. eapply live_later; [exact Hl|rewrite Hn; apply Hl|by rewrite Hf..]. Qed.

Lemma removed_later c files st w w1 w' out : live files st w -> nodes w1 = nodes w -> fds w1 = fds w -> removed c files st w1 w' out -> removed c files st w w' out.
Proof. intros Hl Hn Hf [H1 H2]. split; [congruence|]. by destruct out; rewrite <- Hn. Qed.

Lemma remove_ok t c files st w : live files st w ->
  rwp (txn_remove t c) (fun sw out => sw.1 = st /\ removed c files st w sw.2 out) (st, w).
Proof.
  intros Hl. unfold txn_remove. apply rwp_bind, rwp_state. unfold stage_remove. apply rwp_bind.
  eapply check_ok; [done| |intros e _; by split]. apply rwp_catch, rwp_on_sys.
  eapply rwp_conseq; [apply unlink_live; [exact Hl|apply Hl]|]. intros w' [u|e] Hr; [by split|].
  destruct (is_errno EISDIR e); [|by split]. destruct Hr as (Hf & Hl' & Hc). apply rwp_on_sys.
  eapply rwp_conseq; [apply rmdir_live; [exact Hl'|rewrite Hf; apply Hl]|]. intros w2 [u|e2] (Hf2 & Hl2 & Hc2); (split; [done|]; split; [cbn in *; congruence|]);
    (split; [done|]; cbn in *; congruence).
Qed.

(** Reading a staged file's size changes nothing. *)
Lemma open_file_ok t c files st w : live files st w ->
  rwp (txn_open_file t c) (fun sw out => sw.1 = st /\ live files st sw.2 /\ nodes sw.2 = nodes w /\ match out with
    | inl fd => own_fd st fd | inr e => True end) (st, w).
Proof.
  intros Hl. unfold txn_open_file. apply rwp_bind, rwp_state. unfold stage_open_file. apply rwp_bind.
  eapply check_ok; [done| |intros e _; by split]. apply rwp_on_sys. eapply rwp_conseq; [apply openat_live; [exact Hl|apply Hl]|].
  intros w' out (Hl' & Hn & Ho). split; [done|]. split; [done|]. split; [done|]. destruct out; [by destruct Ho|done].
Qed.

Lemma fstat_calm fd w : rwp (sys_fstat fd) (fun w' out => nodes w' = nodes w /\ fds w' = fds w) w.
Proof.
  apply calm_syscall; [|done]. intros k. unfold rwp, with_fd. destruct (fds _ !! fd) as [i|]; [|done]. by destruct (nodes (at_tick w k) !! i).
Qed.

(** ** Writing *)

(** A descriptor of a staged file, with the bytes it has. *)
Definition writing (files : gmap pystr ino) (st : _State) (c : pystr) (b : bytes) (fd : Z) (w : sys) : Prop :=
  live files st w /\ own_fd st fd /\ exists i, fds w !! fd = Some i /\ files !! c = Some i /\ file_bytes (nodes w) i = Some b.

(** What a write did: the file [c] has other bytes, nothing else changed. *)
Definition wrote (files : gmap pystr ino) (st : _State) (c : pystr) (b : bytes) (fd : Z) (w0 w : sys) : Prop :=
  writing files st c b fd w /\ fds w = fds w0 /\ contents (nodes w) files = <[c := b]> (contents (nodes w0) files).

Lemma writing_contents files st c b fd w : writing files st c b fd w -> contents (nodes w) files !! c = Some b.
Proof. intros (_ & _ & i & _ & Hc & Hb). unfold contents. rewrite lookup_omap, Hc. exact Hb. Qed.

Lemma wrote_same files st c b fd w k : writing files st c b fd w -> wrote files st c b fd w (at_tick w k).
Proof.
  intros H. pose proof (writing_contents _ _ _ _ _ _ H) as Hc. destruct H as (Hl & Ho & H). split; [|split; [done|]].
  - split; [by apply live_tick|done].
  - symmetry. by apply insert_id.
Qed.

Lemma wrote_trans files st c b b' fd w0 w1 w : wrote files st c b fd w0 w1 -> wrote files st c b' fd w1 w -> wrote files st c b' fd w0 w.
Proof. intros (_ & Hf & Hc) (Hw & Hf' & Hc'). split; [done|]. split; [congruence|]. by rewrite Hc', Hc, insert_insert_eq. Qed.

Lemma write_once fd data files st c b w : writing files st c b fd w ->
  rwp (sys_write fd data) (fun w' out => match out with
    | inl n => 0 <= n <= zlen data /\ wrote files st c (b ++ ztake n data) fd w w'
    | inr e => wrote files st c b fd w w' end) w.
Proof.
  intros Hw. pose proof Hw as (Hl & Hown & i & Hfd & Hc & Hb). set (n := Z.max 0 (Z.min (landed (tick w) (zlen data)) (zlen data))).
  match goal with |- rwp _ ?Q w => change (rwp (sys_append fd data n) Q w) end.
  assert (Hn : 0 <= n <= zlen data) by (pose proof (zlen_nonneg data); lia).
  apply calm_syscall; [|intros; by apply wrote_same]. intros k. eapply calm_with_fd; [exact Hfd|]. unfold rwp, at_tick. cbn [nodes fds tick].
  unfold file_bytes in Hb. destruct (nodes w !! i) as [[b' m| | |]|] eqn:En; try done. injection Hb as ->. cbn.
  split; [done|]. unfold set_node. cbn [nodes fds tick]. split; [|split; [done|]].
  - split; [eapply live_later; [exact Hl|eapply staged_write; [apply Hl|exact Hc]|done..]|]. split; [done|]. exists i. split; [done|]. split; [done|].
    unfold file_bytes. cbn. by rewrite lookup_insert_eq.
  - apply contents_write; [apply Hl|done].
Qed.

(** ** Discarding *)

(** Not published: the parent has at most the stage besides its entries, and the rest of
    the tree is as it was. *)
Record unpublished (t : tree) : Prop := {
  up_parent : t !! p = Some (NDir es) \/ t !! p = Some (NDir (<[name := s]> es));
  up_rest i n : t0 !! i = Some n -> i <> p -> t !! i = Some n;
}.

Lemma staged_unpublished files t : staged files t -> unpublished t.
Proof. intros []. constructor; [by right|done]. Qed.

Lemma rwp_quietly (m : Sys unit) (Q : sys -> unit + error -> Prop) w :
  rwp m (fun w' out => Q w' (inl tt) /\ match out with inl _ => True | inr e => is_os_error e = true end) w -> rwp (quietly m) Q w.
Proof.
  intros H. apply rwp_catch. eapply rwp_conseq; [exact H|]. intros w' [[]|e] [HQ He]; [done|]. by rewrite He.
Qed.

Definition os_only {A} (_ : sys) (out : A + error) : Prop := match out with inl _ => True | inr e => is_os_error e = true end.

Lemma unlink_os fd c w : rwp (sys_unlink fd c) os_only w.
Proof.
  apply calm_syscall; [|done]. intros k. unfold rwp, with_fd. destruct (fds _ !! fd) as [d|]; [|done].
  destruct (entry _ d c) as [i|], (nodes (at_tick w k) !! d) as [[| | |]|]; try done. by destruct (is_dir _ i).
Qed.

Lemma rmdir_os fd c w : rwp (sys_rmdir fd c) os_only w.
Proof.
  apply calm_syscall; [|done]. intros k. unfold rwp, with_fd. destruct (fds _ !! fd) as [d|]; [|done].
  destruct (entry _ d c) as [i|], (nodes (at_tick w k) !! d) as [[| | |]|]; try done. destruct (negb (is_dir _ i)); [done|]. by destruct (negb (empty_dir _ i)).
Qed.

(** The stage emptied, as far as it went. *)
Definition emptying (st : _State) (w w' : sys) (out : unit + error) : Prop :=
  (exists files', live files' st w') /\ fds w' = fds w /\ os_only w' out.

Lemma rm_files_ok rec l files st w fd : live files st w -> fds w !! fd = Some s -> Forall (fun e : pystr * bool => e.2 = false) l ->
  rwp (rm_entries rec fd l) (emptying st w) w.
Proof.
  intros Hl Hfd H. revert files w Hl Hfd. induction H as [|[c b] l Hb _ IH]; intros files w Hl Hfd; cbn [rm_entries]; [by split; [exists files|]|].
  cbn in Hb. subst b. apply rwp_bind. eapply rwp_conseq; [apply rwp_and; [by apply (unlink_live c files st w fd)|apply unlink_os]|].
  intros w' [u|e] [(Hf & Hl' & _) Ho].
  - eapply rwp_conseq; [eapply IH; [apply Hl'|by rewrite Hf]|]. intros w2 out (He & Hf2 & Ho2). split; [done|]. split; [congruence|done].
  - split; [by eexists|done].
Qed.

Lemma rmtree_ok files st w fd : live files st w -> fds w !! fd = Some s -> rwp (rmtree fd) (emptying st w) w.
Proof.
  intros Hl Hfd. unfold rmtree. change (rwp (_rmtree_fd (S (size (nodes w))) fd) (emptying st w) w). cbn [_rmtree_fd]. apply rwp_bind.
  apply calm_syscall; [|intros k e; split; [exists files; by apply live_tick|done]]. intros k. eapply calm_with_fd; [exact Hfd|].
  unfold rwp. cbn [at_tick nodes]. rewrite (sg_stage _ _ (lv_staged _ _ _ Hl)). cbn [fst snd].
  eapply (rm_files_ok _ _ files st (at_tick w k)); [by apply live_tick|exact Hfd|].
  apply Forall_fmap, list.Forall_forall. intros [c i] Hc%elem_of_map_to_list. cbn. by eapply stage_file_not_dir.
Qed.

(** Removing the stage's own name: it goes only when the stage is empty. *)
Lemma rmdir_stage_ok files st w : staged files (nodes w) -> fds w !! parent_fd st = Some p -> stage_name st = name ->
  rwp (sys_rmdir (parent_fd st) (stage_name st)) (fun w' out => unpublished (nodes w') /\ fds w' = fds w /\ os_only w' out) w.
Proof.
  intros Hg Hfd Hn. assert (Hu := staged_unpublished _ _ Hg). apply calm_syscall; [|by intros]. intros k. eapply calm_with_fd; [exact Hfd|].
  unfold rwp, entry, at_tick. cbn [nodes fds tick]. rewrite (sg_parent _ _ Hg), Hn, lookup_insert_eq.
  destruct (negb (is_dir _ _)); [done|]. destruct (negb (empty_dir _ _)); [done|]. cbn. split; [|done].
  assert (Hd : delete name (<[name := s]> es) = es) by (by apply delete_insert_id). rewrite Hd. constructor.
  - left. apply lookup_insert_eq.
  - intros i n Hi Hip. rewrite lookup_insert_ne by done. by apply Hg.
Qed.

Lemma close_quietly_calm fd w (Q : sys -> unit + error -> Prop) : (forall k, Q (MkSys (nodes w) (delete fd (fds w)) k) (inl tt)) -> rwp (_close_quietly fd) Q w.
Proof.
  intros H. apply rwp_catch. unfold rwp, sys_close. rewrite Hothers.
  destruct (fds w !! fd); [destruct (close_fault _)|]; cbn; apply H.
Qed.

Lemma close_all_calm l w (Q : sys -> unit + error -> Prop) : (forall w', nodes w' = nodes w -> Q w' (inl tt)) -> rwp (close_all l) Q w.
Proof.
  revert w. induction l as [|fd l IH]; intros w H; cbn; [by apply H|]. apply rwp_bind, close_quietly_calm. intros k. apply IH.
  intros w' Hn. apply H. by rewrite Hn.
Qed.

(** Discarding a live stage never raises, and leaves it unpublished. *)
Lemma discard_stage_ok files st w : live files st w ->
  rwp _discard (fun sw out => out = inl tt /\ unpublished (nodes sw.2)) (st, w).
Proof.
  intros Hl. pose proof (live_fds _ _ _ Hl) as Hne. assert (Htop : stage_fd st = Some (top_fd st) \/ stage_fd st = None) by (unfold top_fd; destruct (stage_fd st); [by left|by right]).
  apply rwp_bind, rwp_state. rewrite (lv_open _ _ _ Hl). apply rwp_bind, rwp_put, rwp_ensuring, rwp_on_sys.
  eapply rwp_conseq with (P := fun w' out => out = inl tt /\ unpublished (nodes w')); [|by intros w' out [-> Hu]].
  unfold discard_sys. apply rwp_bind. cbn [finish kind stage_fd parent_fd stage_name child_fds]. rewrite (lv_kind _ _ _ Hl).
  assert (Hrest : forall w', (exists files', staged files' (nodes w')) -> fds w' !! parent_fd st = Some p ->
    rwp (quietly (sys_rmdir (parent_fd st) (stage_name st))) (fun w1 out => match out with
       | inl _ => rwp (_ ← close_all (rev (child_fds st)); _close_quietly (parent_fd st)) (fun w2 o2 => o2 = inl tt /\ unpublished (nodes w2)) w1
       | inr e => (inr e : unit + error) = inl tt /\ unpublished (nodes w1) end) w').
  { intros w' [files' Hg] Hf. apply rwp_quietly. eapply rwp_conseq; [eapply rmdir_stage_ok; [exact Hg|exact Hf|apply Hl]|].
    intros w1 out (Hu & _ & Ho). split; [|by destruct out]. apply rwp_bind, close_all_calm. intros w2 Hn2. apply close_quietly_calm. intros k. cbn. by rewrite Hn2. }
  apply rwp_bind. destruct Htop as [Htop|Htop]; rewrite Htop.
  - apply rwp_bind, rwp_quietly. eapply rwp_conseq; [eapply rmtree_ok; [exact Hl|apply Hl]|].
    intros w1 out ((files' & Hl') & Hf & Ho). split; [|by destruct out]. apply close_quietly_calm. intros k. apply Hrest; cbn.
    + exists files'. apply Hl'.
    + rewrite lookup_delete_ne by done. apply Hl'.
  - apply rwp_ret, Hrest; [exists files; apply Hl|apply Hl].
Qed.

(** ** Publication *)

(** Published under [leaf], which was free or an empty directory: the parent's other
    entries and the rest of the tree are as they were. *)
Record published (leaf : pystr) (files : gmap pystr ino) (t : tree) : Prop := {
  pb_parent : t !! p = Some (NDir (<[leaf := s]> es));
  pb_before : es !! leaf = None \/ exists j, es !! leaf = Some j /\ t0 !! j = Some (NDir ∅);
  pb_stage : t !! s = Some (NDir files);
  pb_files c i : files !! c = Some i -> is_file t i;
  pb_rest i n : t0 !! i = Some n -> i <> p -> t !! i = Some n;
}.

(** The entries of the parent lead to nodes. *)
Context (Hes : forall c i, es !! c = Some i -> is_Some (t0 !! i)).

Lemma empty_before files t j : staged files t -> is_Some (t0 !! j) -> empty_dir t j = true -> t0 !! j = Some (NDir ∅).
Proof.
  intros Hg [n Hj] He. destruct (decide (j = p)) as [->|Hjp].
  - unfold empty_dir in He. rewrite (sg_parent _ _ Hg) in He. bool_prop. exfalso.
    assert (Hx : (<[name := s]> es) !! name = Some s) by apply lookup_insert_eq. rewrite He in Hx. done.
  - unfold empty_dir in He. rewrite (sg_rest _ _ Hg j n Hj Hjp) in He. destruct n as [| l | |]; try done. bool_prop. by subst l.
Qed.

Lemma rename_ok leaf files st w : live files st w -> leaf <> name ->
  rwp (sys_rename (parent_fd st) (stage_name st) leaf) (fun w' out => fds w' = fds w /\ match out with
    | inl _ => published leaf files (nodes w') /\ contents (nodes w') files = contents (nodes w) files
    | inr e => nodes w' = nodes w end) w.
Proof.
  intros Hl Hleaf. pose proof (lv_staged _ _ _ Hl) as Hg. pose proof stage_not_parent as Hsp.
  apply calm_syscall; [|done]. intros k. eapply calm_with_fd; [apply Hl|].
  unfold rwp, entry, at_tick. cbn [nodes fds tick]. rewrite (sg_parent _ _ Hg), (lv_name _ _ _ Hl), lookup_insert_eq.
  destruct (negb (name_fits leaf)); [done|]. rewrite lookup_insert_ne, delete_insert_id by done.
  assert (Hpub : (es !! leaf = None \/ exists j, es !! leaf = Some j /\ t0 !! j = Some (NDir ∅)) ->
    published leaf files (<[p := NDir (<[leaf := s]> es)]> (nodes w)) /\
    contents (<[p := NDir (<[leaf := s]> es)]> (nodes w)) files = contents (nodes w) files).
  { intros Hb. split.
    - constructor; [apply lookup_insert_eq|done|rewrite lookup_insert_ne by done; apply Hg| |].
      + intros c i Hc. destruct (staged_not_file _ _ _ _ Hg Hc). destruct (sg_files _ _ Hg c i Hc) as [(b & m & Hf) _].
        exists b, m. by rewrite lookup_insert_ne.
      + intros i n Hi Hip. rewrite lookup_insert_ne by done. by apply Hg.
    - apply map_eq. intros c. unfold contents. rewrite !lookup_omap. destruct (files !! c) as [i|] eqn:Ec; [|done]. cbn. unfold file_bytes.
      destruct (staged_not_file _ _ _ _ Hg Ec). by rewrite lookup_insert_ne. }
  destruct (es !! leaf) as [j|] eqn:Ej; [|split; [done|]; apply Hpub; by left].
  assert (Hj : is_Some (t0 !! j)) by (by apply (Hes leaf)).
  rewrite bool_decide_eq_false_2 by (intros <-; rewrite Hs in Hj; by destruct Hj). unfold replaceable.
  assert (Hd : is_dir (nodes w) s = true) by (unfold is_dir; by rewrite (sg_stage _ _ Hg)). rewrite Hd.
  destruct (negb (is_dir (nodes w) j)); [done|]. destruct (empty_dir (nodes w) j) eqn:Ee; [|done]. split; [done|]. apply Hpub. right.
  exists j. split; [done|]. by apply (empty_before _ _ _ Hg).
Qed.

Lemma publish_stage_ok t files st w : live files st w -> t_leaf t <> name ->
  rwp (publish t) (fun sw out => match out with
    | inl _ => published (t_leaf t) files (nodes sw.2) /\ contents (nodes sw.2) files = contents (nodes w) files
    | inr e => sw.1 = st /\ live files st sw.2 /\ contents (nodes sw.2) files = contents (nodes w) files end) (st, w).
Proof.
  intros Hl Hleaf. unfold publish. apply rwp_bind, rwp_state, rwp_bind. rewrite (lv_open _ _ _ Hl), (lv_kind _ _ _ Hl). apply rwp_ret, rwp_bind, rwp_ret.
  apply rwp_bind. change (bool_decide (dir_stage = file_stage)) with false. cbn [andb]. apply rwp_bind, rwp_on_sys.
  eapply rwp_conseq; [by apply (rename_ok (t_leaf t) files st w)|]. intros w1 [u|e] [Hf H].
  - apply rwp_ret. apply rwp_bind, rwp_put, rwp_bind, rwp_on_sys.
    assert (Hrest : forall w2, nodes w2 = nodes w1 -> rwp (_ ← on_sys (close_all (rev (child_fds st))); _ ← put_state (closed_fds (finish st)); on_sys (_close_quietly (parent_fd st)))
      (fun sw out => match out with
        | inl _ => published (t_leaf t) files (nodes sw.2) /\ contents (nodes sw.2) files = contents (nodes w) files
        | inr e => sw.1 = st /\ live files st sw.2 /\ contents (nodes sw.2) files = contents (nodes w) files end) (finish st, w2)).
    { intros w2 Hn. apply rwp_bind, rwp_on_sys, close_all_calm. intros w3 Hn3. apply rwp_bind, rwp_put, rwp_on_sys, close_quietly_calm. intros k. cbn.
      by rewrite Hn3, Hn. }
    destruct (stage_fd st) as [fd|]; [apply close_quietly_calm; intros k; by apply Hrest|apply rwp_ret; by apply Hrest].
  - split; [done|]. cbn. split; [by eapply live_same|by rewrite H].
Qed.
End Stage.

(** ** Beginning a stage *)

Section Begin.
Context {V : SysEnv} {P : Printable} (usable : bool) (token_hex : nat -> pystr).
Context (Hothers : forall k t, others k t = t).

(** One missing directory made, under one of the names. *)
Definition made_dir (names : list pystr) (t t' : tree) : Prop :=
  exists d es c i, c ∈ names /\ t !! d = Some (NDir es) /\ es !! c = None /\ t !! i = None /\
    t' = <[i := NDir ∅]> (<[d := NDir (<[c := i]> es)]> t).
Definition made_dirs (names : list pystr) : tree -> tree -> Prop := rtc (made_dir names).

(** Every entry leads to a node. *)
Definition no_dangling (t : tree) : Prop := forall d es c i, t !! d = Some (NDir es) -> es !! c = Some i -> is_Some (t !! i).

Lemma made_dir_no_dangling names t t' : made_dir names t t' -> no_dangling t -> no_dangling t'.
Proof.
  intros (d & es & c & i & _ & Hd & Hc & Hi & ->) Hw d' es' c' j Hd' Hj.
  destruct (decide (j = i)) as [->|Hji]; [by rewrite lookup_insert_eq|]. rewrite lookup_insert_ne by done.
  destruct (decide (j = d)) as [->|Hjd]; [by rewrite lookup_insert_eq|]. rewrite lookup_insert_ne by done.
  destruct (decide (d' = i)) as [->|Hdi]; [rewrite lookup_insert_eq in Hd'; injection Hd' as <-; by rewrite lookup_empty in Hj|].
  rewrite lookup_insert_ne in Hd' by done. destruct (decide (d' = d)) as [->|Hdd].
  - rewrite lookup_insert_eq in Hd'. injection Hd' as <-. destruct (decide (c' = c)) as [->|Hcc].
    + rewrite lookup_insert_eq in Hj. congruence.
    + rewrite lookup_insert_ne in Hj by done. by apply (Hw d es c').
  - rewrite lookup_insert_ne in Hd' by done. by apply (Hw d' es' c').
Qed.

Lemma made_dirs_no_dangling names t t' : made_dirs names t t' -> no_dangling t -> no_dangling t'.
Proof. induction 1 as [|? ? ? H _ IH]; [done|]. intros Hw. apply IH. by eapply made_dir_no_dangling. Qed.

Lemma dir_not_link t i : is_dir t i = true -> is_link t i = false.
Proof. unfold is_dir, is_link. by destruct (t !! i) as [[]|]. Qed.

(** A path of directories stays one. *)
Lemma made_dir_step names t t' d c j : made_dir names t t' -> step_name t d c = inl j -> is_dir t j = true -> step_name t' d c = inl j /\ is_dir t' j = true.
Proof.
  intros (d0 & es & c0 & i & _ & Hd0 & Hc0 & Hi & ->) Hs Hj. unfold step_name in *.
  destruct (is_dir t d) eqn:Ed; [|done]. cbn [negb] in *. destruct (negb (name_fits c)); [done|].
  destruct (entry t d c) as [j'|] eqn:Ee; [|done]. destruct (is_link t j') eqn:El; [done|]. injection Hs as ->.
  assert (Hdir : forall x, is_dir t x = true -> is_dir (<[i := NDir ∅]> (<[d0 := NDir (<[c0 := i]> es)]> t)) x = true).
  { intros x Hx. unfold is_dir in *. destruct (decide (x = i)) as [->|]; [by rewrite lookup_insert_eq|]. rewrite lookup_insert_ne by done.
    destruct (decide (x = d0)) as [->|]; [by rewrite lookup_insert_eq|]. by rewrite lookup_insert_ne. }
  rewrite (Hdir d Ed). cbn [negb]. assert (He : entry (<[i := NDir ∅]> (<[d0 := NDir (<[c0 := i]> es)]> t)) d c = Some j).
  { unfold entry in *. destruct (decide (d = i)) as [->|]; [by rewrite Hi in Ee|]. rewrite lookup_insert_ne by done.
    destruct (decide (d = d0)) as [->|]; [|by rewrite lookup_insert_ne]. rewrite lookup_insert_eq. rewrite Hd0 in Ee.
    rewrite lookup_insert_ne; [done|]. intros ->. by rewrite Hc0 in Ee. }
  rewrite He. pose proof (Hdir j Hj) as Hj'. by rewrite (dir_not_link _ _ Hj').
Qed.

(** A path through directories that ends in one. *)
Fixpoint dir_path (t : tree) (d : ino) (names : list pystr) (p : ino) : Prop :=
  match names with
  | [] => d = p
  | c :: cs => exists j, step_name t d c = inl j /\ is_dir t j = true /\ dir_path t j cs p
  end.

Lemma made_dirs_path names t t' d cs p : made_dirs names t t' -> dir_path t d cs p -> dir_path t' d cs p.
Proof.
  intros H. revert d. induction cs as [|c cs IH]; intros d; [done|]. cbn. intros (j & Hs & Hj & Hp). exists j.
  assert (Hsj : step_name t' d c = inl j /\ is_dir t' j = true).
  { clear Hp IH. revert Hs Hj. induction H as [|? ? ? H1 _ IH1]; [done|]. intros Hs Hj. destruct (made_dir_step _ _ _ _ _ _ H1 Hs Hj). by apply IH1. }
  destruct Hsj. split; [done|]. split; [done|]. by apply IH.
Qed.
Lemma split_slash_valid c : is_valid_component c = true -> split_slash c = [c].
Proof.
  unfold is_valid_component. intros H. bool_prop. assert (Hn : 47 ∉ c) by done. clear -Hn.
  induction c as [|x d IH]; [done|]. apply not_elem_of_cons in Hn as [Hx Hd]. cbn. replace (x =? 47) with false by lia. by rewrite IH.
Qed.

(** What one confined open of a directory found, in a tree nobody changes. *)
Definition entered (w : sys) (d : ino) (c : pystr) (w' : sys) (out : Z + error) : Prop :=
  nodes w' = nodes w /\ match out with
  | inl fd => exists j, step_name (nodes w) d c = inl j /\ is_dir (nodes w) j = true /\ fds w !! fd = None /\ fds w' = <[fd := j]> (fds w)
  | inr e => is_os_error e = true end.

Lemma open_found_entered found d c w w1 : nodes w1 = nodes w -> fds w1 = fds w ->
  found (nodes w) d = step_name (nodes w) d c -> rwp (open_found true found d) (entered w d c) w1.
Proof.
  intros Hn Hfd Hf. unfold rwp, open_found. rewrite Hn, Hf. destruct (step_name (nodes w) d c) as [j|e] eqn:E; [|by split].
  destruct (is_dir (nodes w) j) eqn:Ed; [|by split]. unfold new_fd. cbn. rewrite Hfd. split; [done|]. exists j. split; [done|]. split; [done|]. split; [apply fresh_none|done].
Qed.

Lemma valid_component_plain c : is_valid_component c = true -> plain_path c = true.
Proof.
  intros Hc. unfold plain_path. rewrite split_slash_valid by done. cbn [forallb]. rewrite Hc. unfold is_valid_component in Hc. unfold path_fits.
  apply andb_true_iff in Hc as [_ Hc]. destruct (fsencode c); [|done]. unfold MAX_COMPONENT_BYTES in Hc. cbn. lia.
Qed.

Lemma openat2_entered fd c d w : fds w !! fd = Some d -> is_valid_component c = true -> rwp (openat2 fd c true) (entered w d c) w.
Proof.
  intros Hfd Hc. pose proof (split_slash_valid c Hc) as Hsp.
  destruct (plain_shape _ (valid_component_plain c Hc)) as (H0 & He & Hfit & Hv & x & rest & Hrel & Hx). unfold openat2. rewrite bool_decide_eq_false_2 by done. rewrite He.
  apply (calm_syscall Hothers); [|by intros]. intros k. eapply calm_with_fd; [exact Hfd|]. apply open_found_entered; [done..|].
  pose proof (beneath_plain (nodes w) (split_slash c) d [] Hv) as Hb. rewrite Hsp in Hb. cbn [find_path] in Hb.
  assert (Hfp : (match step_name (nodes w) d c with inl i => inl i | inr e => inr e end : ino + errno) = step_name (nodes w) d c) by (by destruct (step_name _ _ _)).
  rewrite Hfp in Hb. rewrite Hfit, Hsp, Hb. subst c. destruct x as [|x|x]; try done; repeat (destruct x as [x|x|]; try done).
Qed.

Lemma portable_entered fd c d w : fds w !! fd = Some d -> is_valid_component c = true -> rwp (portable_open fd c true) (entered w d c) w.
Proof.
  intros Hfd Hc. unfold portable_open. rewrite split_slash_valid by done. cbn [List.last removelast forallb]. rewrite Hc. cbn [negb orb]. apply rwp_bind.
  apply (calm_syscall Hothers); [|by intros]. intros k. eapply calm_with_fd; [exact Hfd|]. unfold rwp at 1. cbn [at_tick new_fd fds nodes fst snd walk].
  set (dup := fresh (dom (fds w))). assert (Hdup : fds w !! dup = None) by apply fresh_none. apply rwp_ensuring.
  apply (calm_syscall Hothers); [|intros k' e; apply (calm_close Hothers); intros k2 [[]|e2] Ho; by split].
  intros k'. eapply calm_with_fd; [apply lookup_insert_eq|]. set (w1 := at_tick _ k').
  eapply rwp_conseq; [apply (open_found_entered _ d c w1 w1); done|].
  intros w2 out [Hn Ho]. apply (calm_close Hothers). intros k2 [[]|e2] Ho2; [|by split]. split; [done|].
  destruct out as [fd'|e]; [|done]. destruct Ho as (j & Hs & Hj & Hf' & Hf). cbn in Hf'. apply lookup_insert_None in Hf' as [Hf' Hne].
  exists j. split; [done|]. split; [done|]. split; [done|]. cbn. rewrite Hf. cbn. rewrite delete_insert_ne by done. by rewrite delete_insert_id.
Qed.

Lemma enter_ok fd c d w : fds w !! fd = Some d -> is_valid_component c = true -> rwp (_confined_open usable fd c true) (entered w d c) w.
Proof. intros. unfold _confined_open. destruct usable; [by apply openat2_entered|by apply portable_entered]. Qed.

Lemma mkdir_ok names fd c d w : fds w !! fd = Some d -> c ∈ names ->
  rwp (sys_mkdir fd c) (fun w' out => fds w' = fds w /\ match out with
    | inl _ => exists es i, nodes w !! d = Some (NDir es) /\ es !! c = None /\ nodes w !! i = None /\
        nodes w' = <[i := NDir ∅]> (<[d := NDir (<[c := i]> es)]> (nodes w)) /\ made_dir names (nodes w) (nodes w')
    | inr e => is_os_error e = true /\ nodes w' = nodes w end) w.
Proof.
  intros Hfd Hc. apply (calm_syscall Hothers); [|done]. intros k. eapply calm_with_fd; [exact Hfd|].
  unfold rwp, add_node, add_entry, at_tick. cbn [nodes fds tick]. destruct (nodes w !! d) as [[| es | |]|] eqn:Ed; try done.
  destruct (negb (name_fits c)); [done|]. destruct (es !! c) as [j|] eqn:Ec; [done|]. cbn. split; [done|].
  exists es, (fresh_ino d (nodes w)). pose proof (fresh_ino_none d (nodes w)) as Hi. do 3 (split; [done|]). split; [done|].
  exists d, es, c, (fresh_ino d (nodes w)). done.
Qed.

Lemma made_dirs_one names t t' : made_dir names t t' -> made_dirs names t t'.
Proof. apply rtc_once. Qed.

(** Walking down, making what is missing. *)
Definition descended (names : list pystr) (w0 : sys) (d : ino) (cs : list pystr) (w : sys) (out : Z + error) : Prop :=
  made_dirs names (nodes w0) (nodes w) /\ match out with
  | inl fd => exists p, dir_path (nodes w) d cs p /\ fds w !! fd = Some p
  | inr e => is_os_error e = true end.

Lemma giving_up_ok {A} fd (m : Sys A) names w0 d cs w (Q : sys -> A + error -> Prop) :
  rwp m (fun w' out => match out with inl a => Q w' (inl a) | inr e => is_os_error e = true /\ made_dirs names (nodes w0) (nodes w') end) w ->
  (forall w' e, descended names w0 d cs w' (inr e) -> Q w' (inr e)) ->
  rwp (catch is_os_error m (fun e => _ ← _close_quietly fd; throw e)) Q w.
Proof.
  intros Hm HQ. apply rwp_catch. eapply rwp_conseq; [exact Hm|]. intros w' [a|e]; [done|]. intros [He Hd]. rewrite He.
  apply rwp_bind, (close_quietly_calm Hothers). intros k. by apply HQ.
Qed.

Lemma open_parents_ok names cs fd d w : fds w !! fd = Some d -> Forall (fun c => is_valid_component c = true) cs -> (forall c, c ∈ cs -> c ∈ names) ->
  rwp (open_parents usable true fd cs) (descended names w d cs) w.
Proof.
  revert fd d w. induction cs as [|c cs IH]; intros fd d w Hfd Hv Hin; cbn [open_parents]; [split; [apply rtc_refl|by exists d]|].
  inversion Hv as [|? ? Hc Hv']; subst. apply rwp_bind. eapply (giving_up_ok fd _ names w d (c :: cs)); [|by intros].
  apply rwp_catch. eapply rwp_conseq; [apply (mkdir_ok names fd c d w Hfd); apply Hin; left|].
  assert (Hgo : forall w1, fds w1 = fds w -> made_dirs names (nodes w) (nodes w1) ->
    rwp (child ← catch is_os_error (_confined_open usable fd c true) (fun e => _ ← _close_quietly fd; throw e); _ ← _close_quietly fd; open_parents usable true child cs)
        (descended names w d (c :: cs)) w1).
  { intros w1 Hf1 Hm1. apply rwp_bind. eapply (giving_up_ok fd _ names w d (c :: cs)); [|by intros].
    eapply rwp_conseq; [apply (enter_ok fd c d); [by rewrite Hf1|done]|]. intros w2 out [Hn2 Ho].
    destruct out as [child|e]; [|split; [done|by rewrite Hn2]]. destruct Ho as (j & Hs & Hj & Hnew & Hf2).
    apply rwp_bind, (close_quietly_calm Hothers). intros k.
    assert (Hne : child <> fd) by (intros ->; rewrite Hf1, Hfd in Hnew; done).
    eapply rwp_conseq; [apply (IH child j); [cbn; rewrite lookup_delete_ne by done; rewrite Hf2; apply lookup_insert_eq|done|intros c' Hc'; apply Hin; by right]|].
    intros w3 out3 [Hm3 Ho3]. cbn in Hm3. rewrite Hn2 in Hm3. split; [by etrans|]. destruct out3 as [fd3|e]; [|done].
    destruct Ho3 as (q & Hq & Hf3). exists q. split; [|done].
    assert (H1 : dir_path (nodes w3) d [c] j) by (eapply made_dirs_path; [exact Hm3|]; by exists j).
    destruct H1 as (j' & Hs' & Hj' & ->). by exists j. }
  intros w1 [u|e] [Hf1 H1].
  - destruct H1 as (es & i & _ & _ & _ & _ & Hm). apply Hgo; [done|by apply made_dirs_one].
  - destruct H1 as [He Hn1]. destruct (is_errno EEXIST e); [apply rwp_ret, Hgo; [done|by rewrite Hn1; apply rtc_refl]|].
    split; [done|by rewrite Hn1; apply rtc_refl].
Qed.

Lemma open_parent_ok o root w : fds w !! _root_fd o = Some root -> Forall (fun c => is_valid_component c = true) (_parents o) ->
  rwp (_open_parent usable o true) (descended (_parents o) w root (_parents o)) w.
Proof.
  intros Hfd Hv. apply rwp_bind. apply (calm_syscall Hothers); [|intros k e; split; [apply rtc_refl|done]]. intros k.
  eapply calm_with_fd; [exact Hfd|]. unfold rwp at 1. cbn [at_tick new_fd fds nodes fst snd].
  eapply rwp_conseq; [apply (open_parents_ok (_parents o) _ _ root); [apply lookup_insert_eq|done|done]|]. done.
Qed.

(** ** The stage of an output directory *)

Definition stage_of (n : nat) : pystr := py "_decoy_stage_" ++ token_hex n.

(** The tree [t0] with the missing parents made, the parent and its entries. *)
Definition beside (o : RootedOutputDir) (root : ino) (before t0 : tree) (p : ino) (es : gmap pystr ino) (s : ino) (name : pystr) : Prop :=
  made_dirs (_parents o) before t0 /\ dir_path t0 root (_parents o) p /\ t0 !! p = Some (NDir es) /\ t0 !! s = None /\ es !! name = None.

Definition begun (o : RootedOutputDir) (root : ino) (before : tree) (n : nat) (w : sys) (out : OutputTxn + error) : Prop :=
  match out with
  | inl ts => exists t0 p es s, beside o root before t0 p es s (stage_of n) /\ live t0 p s es (stage_of n) ∅ ts.2 w /\ t_leaf ts.1 = _leaf o
  | inr e => made_dirs (_parents o) before (nodes w) \/
      exists t0 p es s, beside o root before t0 p es s (stage_of n) /\ unpublished t0 p s es (stage_of n) (nodes w)
  end.

Lemma staged_empty t0 p s es name : t0 !! p = Some (NDir es) -> t0 !! s = None ->
  staged t0 p s es name ∅ (<[s := NDir ∅]> (<[p := NDir (<[name := s]> es)]> t0)).
Proof.
  intros Hp Hs. assert (Hsp : s <> p) by congruence. constructor.
  - rewrite lookup_insert_ne, lookup_insert_eq by done. done.
  - apply lookup_insert_eq.
  - by intros c i Hc.
  - by intros c c' i Hc.
  - intros i n Hi Hip. rewrite !lookup_insert_ne by congruence. done.
Qed.

Lemma new_txn_ok o root parent p w0 n w :
  made_dirs (_parents o) (nodes w0) (nodes w) -> dir_path (nodes w) root (_parents o) p -> fds w !! parent = Some p ->
  rwp (new_txn token_hex parent (_leaf o) dir_stage exclusive table_sink (o_display o) n)
    (fun w' out => begun o root (nodes w0) n w' out /\ fds w' !! parent = Some p /\ match out with
       | inl ts => parent <> parent_fd ts.2 /\ parent <> top_fd ts.2 | inr _ => True end) w.
Proof.
  intros Hm Hpath Hfd. unfold new_txn. apply rwp_bind, rwp_throw_if; [intros _|intros _; split; [by left|done]].
  cbn [STAGE_PREFIX STAGE_SUFFIX]. rewrite app_nil_r. fold (stage_of n). set (name := stage_of n). apply rwp_bind.
  apply (calm_syscall Hothers); [|intros k e; split; [by left|done]]. intros k. eapply calm_with_fd; [exact Hfd|]. unfold rwp at 1. cbn [at_tick new_fd fds nodes tick fst snd].
  set (dup := fresh (dom (fds w))). assert (Hdup : fds w !! dup = None) by apply fresh_none.
  assert (Hpd : parent <> dup) by congruence. set (w1 := MkSys _ _ k).
  apply rwp_bind, rwp_bind. eapply rwp_conseq; [apply (mkdir_ok [name] dup name p w1); [apply lookup_insert_eq|left]|].
  intros w2 [u|e] [Hf2 H2]; [|destruct H2 as [_ Hn2]; split; [by left; rewrite Hn2|]; split; [|done]; rewrite Hf2; cbn; by rewrite lookup_insert_ne].
  destruct H2 as (es & s & Hp & Hname & Hs & Hn2 & _). cbn [nodes w1] in Hp, Hs, Hn2.
  assert (Hb : beside o root (nodes w0) (nodes w) p es s name) by done.
  pose proof (staged_empty (nodes w) p s es name Hp Hs) as Hg. rewrite <- Hn2 in Hg.
  assert (Hpar : fds w2 !! parent = Some p) by (rewrite Hf2; cbn; by rewrite lookup_insert_ne).
  apply rwp_bind. apply (calm_syscall Hothers); [|intros k2 e; split; [|done]; right; exists (nodes w), p, es, s; split; [done|]; by eapply staged_unpublished].
  intros k2. eapply calm_with_fd; [cbn; rewrite Hf2; apply lookup_insert_eq|]. unfold rwp at 1, open_found. cbn [at_tick nodes fds].
  assert (Hstep : step_name (nodes w2) p name = inl s \/ exists e, step_name (nodes w2) p name = inr e).
  { unfold step_name, is_dir, entry, is_link. rewrite (sg_parent _ _ _ _ _ _ _ Hg). cbn [negb]. destruct (negb (name_fits name)); [right; by eexists|].
    rewrite lookup_insert_eq, (sg_stage _ _ _ _ _ _ _ Hg). by left. }
  destruct Hstep as [Hstep|[e Hstep]]; rewrite Hstep; cbn [fst snd sys_fail].
  2: { split; [|done]. right. exists (nodes w), p, es, s. split; [done|]. by eapply staged_unpublished. }
  assert (Hd : is_dir (nodes w2) s = true) by (unfold is_dir; by rewrite (sg_stage _ _ _ _ _ _ _ Hg)). rewrite Hd. cbn [andb negb new_fd fst snd fds nodes tick].
  set (sf := fresh (dom (fds w2))). assert (Hsf : fds w2 !! sf = None) by apply fresh_none.
  assert (Hps : parent <> sf) by congruence.
  assert (Hds : dup <> sf) by (intros E; rewrite <- E, Hf2 in Hsf; cbn in Hsf; by rewrite lookup_insert_eq in Hsf).
  apply rwp_ret, rwp_ret. split; [|split; [cbn; by rewrite lookup_insert_ne|done]].
  exists (nodes w), p, es, s. split; [done|]. split; [|done]. constructor; cbn; try done.
  - rewrite lookup_insert_ne by done. rewrite Hf2. apply lookup_insert_eq.
  - apply lookup_insert_eq.
Qed.

Lemma begin_txn_ok o root n w : fds w !! _root_fd o = Some root -> Forall (fun c => is_valid_component c = true) (_parents o) ->
  rwp (begin_txn usable token_hex o dir_stage exclusive table_sink n) (begun o root (nodes w) n) w.
Proof.
  intros Hfd Hv. unfold begin_txn. apply rwp_bind, rwp_catch. change (CREATES_PARENTS table_sink) with true.
  eapply rwp_conseq; [by apply (open_parent_ok o root)|]. intros w1 [parent|e] [Hm Ho]; [|rewrite Ho; by left].
  destruct Ho as (p & Hp & Hfp). apply rwp_ensuring. eapply rwp_conseq; [by apply (new_txn_ok o root parent p w n w1)|].
  intros w2 out (Hb & Hf2 & Ho). apply (close_quietly_calm Hothers). intros k. destruct out as [ts|e]; [|exact Hb].
  destruct Hb as (t0 & q & es & s & Hbe & Hl & Hleaf). exists t0, q, es, s. split; [done|]. split; [|done]. destruct Ho as [H1 H2].
  eapply live_later; [exact Hl|apply Hl|cbn; by rewrite lookup_delete_ne..].
Qed.
End Begin.
