(* ===== verification/TableSinkTheory.v ===== *)
(** * The table sink: all or nothing

    A run that writes tables and commits publishes exactly their files, or leaves the
    target as it was; what the sink says of it is true. Any system call may fail. *)

From S2P Require Import Prelude Numerals PyText PyData Reasons FileSystem FileAccess FileAccessTheory FileOutput FileOutputTheory TableSink.

Section Theory.
Context {V : SysEnv} {P : Printable} {PQ : ParquetOps} (usable : bool) (token_hex : nat -> pystr) (memory_text : exn -> bool).
Context (Hothers : forall k t, others k t = t).

(** ** What a library call writes *)

Section Stage.
Context (t0 : tree) (p s : ino) (es : gmap pystr ino) (name : pystr).
Context (Hp : t0 !! p = Some (NDir es)) (Hs : t0 !! s = None) (Hname : es !! name = None) (Hes : forall c i, es !! c = Some i -> is_Some (t0 !! i)).

Abbreviation live := (live t0 p s es name).
Abbreviation writing := (writing t0 p s es name).
Abbreviation wrote := (wrote t0 p s es name).

Lemma rwp_guarded {W A} display (m : Run W A) (Q : W -> A + error -> Prop) w :
  rwp m (fun w' out => match out with inl a => Q w' (inl a) | inr _ => forall e, Q w' (inr e) end) w -> rwp (guarded memory_text display m) Q w.
Proof.
  intros H. apply rwp_catch. eapply rwp_conseq; [exact H|]. intros w' [a|e] HQ; [done|]. cbn.
  destruct (_ || _); apply HQ.
Qed.

(** All of the data follows what was there, or some other bytes are there. *)
Definition appended (files : gmap pystr ino) (st : _State) (c : pystr) (b data : bytes) (fd : Z) (w0 w : sys) (out : unit + error) : Prop :=
  match out with
  | inl _ => wrote files st c (b ++ data) fd w0 w
  | inr _ => exists b', wrote files st c b' fd w0 w
  end.

Lemma wrote_refl files st c b fd w : writing files st c b fd w -> wrote files st c b fd w w.
Proof. intros H. destruct w as [nd f k]. by apply (wrote_same t0 p s es name files st c b fd (MkSys nd f k) k). Qed.

Lemma fh_loop_appends fuel fd data files st c b w : (length data <= fuel)%nat -> writing files st c b fd w ->
  rwp (fh_loop fuel fd data) (appended files st c b data fd w) w.
Proof.
  revert data b w. induction fuel as [|fuel IH]; intros [|x data] b w Hlen Hw; try (cbn in Hlen; lia).
  1,2: cbn [fh_loop]; apply rwp_ret; cbn; rewrite app_nil_r; by apply wrote_refl.
  cbn [fh_loop]. set (d := x :: data) in *. apply rwp_bind. eapply rwp_conseq; [by apply (write_once Hothers t0 p s es name Hp Hs)|].
  intros w1 [n|e]; [|intros H; by exists b]. intros [Hn H]. destruct (Z.leb_spec n 0) as [Hz|Hz]; [by exists (b ++ ztake n d)|].
  eapply rwp_conseq; [apply (IH (zdrop n d) (b ++ ztake n d)); [|apply H]|].
  - unfold zdrop. rewrite length_drop. unfold d, zlen in *. cbn [length] in *. lia.
  - intros w2 [u|e] H2; cbn in *.
    + eapply wrote_trans; [exact H|]. by rewrite <- app_assoc, ztake_zdrop in H2.
    + destruct H2 as [b' H2]. exists b'. by eapply wrote_trans.
Qed.

Lemma library_appends call fd files st c b w : writing files st c b fd w ->
  rwp (library fd call) (appended files st c b (concat call.1) fd w) w.
Proof.
  unfold library. destruct call as [pieces e]. cbn [fst snd]. revert b w. induction pieces as [|d ps IH]; intros b w Hw; cbn [fh_writes concat].
  - destruct e as [x|]; [exists b; by apply wrote_refl|]. apply rwp_ret. cbn. rewrite app_nil_r. by apply wrote_refl.
  - apply rwp_bind. eapply rwp_conseq; [by apply fh_loop_appends|]. intros w1 [u|x] H; [|exact H]. cbn in H.
    eapply rwp_conseq; [apply IH, H|]. intros w2 [u2|x] H2; cbn in *.
    + eapply wrote_trans; [exact H|]. by rewrite <- app_assoc in H2.
    + destruct H2 as [b' H2]. exists b'. by eapply wrote_trans.
Qed.

Lemma guarded_appends display call fd files st c b w : writing files st c b fd w ->
  rwp (guarded memory_text display (library fd call)) (appended files st c b (concat call.1) fd w) w.
Proof. intros Hw. apply rwp_guarded. eapply rwp_conseq; [by apply library_appends|]. by intros w' [u|e] H. Qed.

(** ** Transactions *)

(** The file [c] has these bytes besides the others; or the stage is live, whatever it holds. *)
Definition wrote_file (files : gmap pystr ino) (st : _State) (c : pystr) (data : bytes) (w0 : sys) (sw : _State * sys) (out : unit + error) : Prop :=
  sw.1 = st /\ exists files', live files' st sw.2 /\
    match out with inl _ => contents (nodes sw.2) files' = <[c := data]> (contents (nodes w0) files) | inr _ => True end.

Lemma made_writing files st w c w' fd : made t0 p s es name files st w c w' fd ->
  exists files', writing files' st c [] fd w' /\ contents (nodes w') files' = <[c := []]> (contents (nodes w) files).
Proof.
  intros (i & Hown & Hf & Hl & Hc & Hcont). exists (<[c := i]> files). split; [|done]. split; [done|]. split; [done|].
  exists i. rewrite Hf, !lookup_insert_eq. split; [done|]. split; [done|]. pose proof (f_equal (fun m => m !! c) Hcont) as H. cbn in H.
  unfold contents in H. by rewrite lookup_omap, !lookup_insert_eq in H.
Qed.

Lemma close_any files st fd w (Q : sys -> unit + error -> Prop) : live files st w -> own_fd st fd ->
  (forall w' out, live files st w' -> nodes w' = nodes w -> Q w' out) -> rwp (sys_close fd) Q w.
Proof. intros Hl Ho HQ. eapply rwp_conseq; [by eapply close_live|]. intros w' out (H1 & H2 & _). by apply HQ. Qed.

Lemma write_table_ok t data c files st w : live files st w ->
  rwp (write_table memory_text t data c) (wrote_file files st c (concat (pq_table data).1) w) (st, w).
Proof.
  intros Hl. unfold write_table. apply rwp_bind. eapply rwp_conseq; [by apply (create_ok Hothers t0 p s es name Hp Hs)|].
  intros [st1 w1] [fd|e] [Hst H]; cbn [fst snd] in *; subst st1; [|split; [done|]; destruct H; by exists files].
  destruct (made_writing _ _ _ _ _ _ H) as (files' & Hw & Hc). apply rwp_ensuring, rwp_on_sys.
  eapply rwp_conseq; [by apply guarded_appends|]. intros w2 out Ho. apply rwp_on_sys.
  assert (Hwr : exists b, wrote files' st c b fd w1 w2 /\ match out with inl _ => b = concat (pq_table data).1 | inr _ => True end)
    by (destruct out; [by eexists|destruct Ho as [b Hb]; by exists b]).
  destruct Hwr as (b & (Hw2 & _ & Hc2) & Hb). eapply close_any; [apply Hw2..|]. intros w3 out3 Hl3 Hn3.
  destruct out3 as [[]|e3]; (split; [done|]); exists files'; (split; [done|]); [|done]. destruct out as [u|e]; [|done]. cbn in *. by rewrite Hn3, Hc2, Hc, insert_insert_eq, Hb.
Qed.

(** A writer in the middle of its file. *)
Definition written_to (files0 : gmap pystr ino) (st : _State) (c : pystr) (b : bytes) (w0 : sys) (fd : Z) (w : sys) : Prop :=
  exists files, writing files st c b fd w /\ contents (nodes w) files = <[c := b]> (contents (nodes w0) files0).

Lemma written_further files0 st c b b' w0 fd w files w' : contents (nodes w) files = <[c := b]> (contents (nodes w0) files0) ->
  wrote files st c b' fd w w' -> written_to files0 st c b' w0 fd w'.
Proof. intros Hc (Hw & _ & Hc'). exists files. split; [done|]. by rewrite Hc', Hc, insert_insert_eq. Qed.

Lemma written_live files0 st c b w0 fd w : written_to files0 st c b w0 fd w -> exists files, live files st w.
Proof. intros (files & (Hl & _) & _). by exists files. Qed.

Lemma parquet_writer_ok t c schema files st w : live files st w ->
  rwp (parquet_writer memory_text t c schema) (fun sw out => sw.1 = st /\ match out with
    | inl wr => wr = MkWriter (w_fd wr) schema [] /\ written_to files st c (concat (pq_open schema).1) w (w_fd wr) sw.2
    | inr _ => exists files', live files' st sw.2 end) (st, w).
Proof.
  intros Hl. unfold parquet_writer. apply rwp_bind. eapply rwp_conseq; [by apply (create_ok Hothers t0 p s es name Hp Hs)|].
  intros [st1 w1] [fd|e] [Hst H]; cbn [fst snd] in *; subst st1; [|split; [done|]; destruct H; by exists files].
  destruct (made_writing _ _ _ _ _ _ H) as (files' & Hw & Hc). apply rwp_bind, rwp_catch, rwp_on_sys.
  eapply rwp_conseq; [by apply guarded_appends|]. intros w2 [u|e] Ho; cbn in Ho.
  - apply rwp_ret. split; [done|]. split; [done|]. cbn. by eapply written_further.
  - destruct Ho as (b & Hw2 & _). apply rwp_bind, rwp_on_sys. eapply close_any; [apply Hw2..|]. intros w3 [u|e3] Hl3 Hn3; (split; [done|]); by exists files'.
Qed.

Lemma write_batch_ok t wr batch files0 st c b w0 w : written_to files0 st c b w0 (w_fd wr) w ->
  rwp (write_batch memory_text t wr batch) (fun sw out => sw.1 = st /\ match out with
    | inl wr' => wr' = MkWriter (w_fd wr) (w_schema wr) (written wr ++ [batch]) /\
                 written_to files0 st c (b ++ concat (pq_batch (w_schema wr) (written wr) batch).1) w0 (w_fd wr) sw.2
    | inr _ => exists b', written_to files0 st c b' w0 (w_fd wr) sw.2 end) (st, w).
Proof.
  intros (files & Hw & Hc). unfold write_batch. apply rwp_bind, rwp_on_sys. eapply rwp_conseq; [by apply guarded_appends|].
  intros w1 [u|e] Ho; cbn in Ho; [apply rwp_ret|]; (split; [done|]).
  - split; [done|]. by eapply written_further.
  - destruct Ho as (b' & Ho). exists b'. by eapply written_further.
Qed.

Lemma close_writer_ok t wr files0 st c b w0 w : written_to files0 st c b w0 (w_fd wr) w ->
  rwp (close_writer memory_text t wr) (wrote_file files0 st c (b ++ concat (pq_footer (w_schema wr) (written wr)).1) w0) (st, w).
Proof.
  intros (files & Hw & Hc). unfold close_writer. apply rwp_ensuring, rwp_on_sys. eapply rwp_conseq; [by apply guarded_appends|].
  intros w1 out Ho. apply rwp_on_sys. set (data := b ++ _) in *.
  assert (Hwr : exists b', wrote files st c b' (w_fd wr) w w1 /\ match out with inl _ => b' = data | inr _ => True end)
    by (destruct out; [by eexists|destruct Ho as [b' Hb]; by exists b']).
  destruct Hwr as (b' & (Hw2 & _ & Hc2) & Hb). eapply close_any; [apply Hw2..|]. intros w3 out3 Hl3 Hn3.
  destruct out3 as [[]|e3]; (split; [done|]); exists files; (split; [done|]); [|done]. destruct out as [u|e]; [|done]. cbn in *. by rewrite Hn3, Hc2, Hc, insert_insert_eq, Hb.
Qed.

(** ** The sink over a live stage *)

(** What the sink says is true: nothing is published, no cleanup confirmed. *)
Definition honest (k : ParquetTransactionalSink) : Prop :=
  state (publication_evidence k) = NOT_PUBLISHED /\ cleanup (publication_evidence k) <> CONFIRMED.

Record at_stage (t : txn_spec) (files : gmap pystr ino) (kw : ParquetTransactionalSink * sys) : Prop := {
  as_live : exists st, _txn kw.1 = Some (t, st) /\ live files st kw.2;
  as_honest : honest kw.1;
}.

(** The stage holds exactly these files after success, and is there in any case. *)
Definition holds (t : txn_spec) (m : gmap pystr bytes) {A} (kw : ParquetTransactionalSink * sys) (out : A + error) : Prop :=
  exists files, at_stage t files kw /\ match out with inl _ => contents (nodes kw.2) files = m | inr _ => True end.

(** A sink with the same transaction and evidence as good. *)
Definition like (k k' : ParquetTransactionalSink) : Prop := _txn k' = _txn k /\ (honest k -> honest k').

Lemma at_stage_like t files k k' w : like k k' -> at_stage t files (k, w) -> at_stage t files (k', w).
Proof. intros [H1 H2] [(st & H & Hl) Hh]. constructor; [exists st; cbn in *; by rewrite H1|by apply H2]. Qed.

Lemma holds_like t m k k' w {A} (out : A + error) : like k k' -> holds t m (k, w) out -> holds t m (k', w) out.
Proof. intros Hk (files & Ha & H). exists files. split; [by eapply at_stage_like|done]. Qed.

Lemma rwp_in_txn {A} (m : txn_spec -> Txn A) (Q : ParquetTransactionalSink * sys -> A + error -> Prop) k w t st :
  _txn k = Some (t, st) -> rwp (m t) (fun sw out => Q (set_txn k (Some (t, sw.1)), sw.2) out) (st, w) -> rwp (in_txn m) Q (k, w).
Proof. intros Ht H. unfold rwp, in_txn in *. rewrite Ht. destruct (m t (st, w)) as [[st' w'] out]. exact H. Qed.

Lemma rwp_modify f (Q : ParquetTransactionalSink * sys -> unit + error -> Prop) k w : Q (f k, w) (inl tt) -> rwp (modify f) Q (k, w).
Proof. done. Qed.

Lemma rwp_sys_do {A} (m : Sys A) (Q : ParquetTransactionalSink * sys -> A + error -> Prop) k w :
  rwp m (fun w' out => Q (k, w') out) w -> rwp (sys_do m) Q (k, w).
Proof. unfold rwp, sys_do. by destruct (m w). Qed.

Lemma rwp_capture e o table sec (Q : ParquetTransactionalSink * sys -> unit + error -> Prop) k w :
  (forall k', like k k' -> Q (k', w) (inl tt)) -> rwp (capture_publication_failure e o table sec) Q (k, w).
Proof. intros H. apply rwp_modify, H. by destruct (evidence_context _ _ _). Qed.

Lemma rwp_evidence f (Q : ParquetTransactionalSink * sys -> unit + error -> Prop) k w :
  state (f (publication_evidence k)) = state (publication_evidence k) -> cleanup (f (publication_evidence k)) = cleanup (publication_evidence k) ->
  (forall k', like k k' -> Q (k', w) (inl tt)) -> rwp (evidence f) Q (k, w).
Proof. intros H1 H2 H. apply rwp_modify, H. split; [done|]. unfold honest. cbn. by rewrite H1, H2. Qed.

Lemma observing_holds {A} t m o table (act : SinkM A) kw : rwp act (holds t m) kw -> rwp (observing o table act) (holds t m) kw.
Proof.
  intros H. apply rwp_catch. eapply rwp_conseq; [exact H|]. intros [k w] [a|e] Hh; [done|]. cbn [any_error].
  apply rwp_bind, rwp_capture. intros k' Hk. by eapply holds_like.
Qed.

(** An operation of the transaction that leaves the files it says. *)
Lemma in_txn_holds {A} (m : txn_spec -> Txn A) t files0 files k w (c : pystr) (data : bytes) :
  at_stage t files (k, w) ->
  (forall st, live files st w -> rwp (m t) (fun sw out => sw.1 = st /\ exists files', live files' st sw.2 /\
     match out with inl _ => contents (nodes sw.2) files' = <[c := data]> files0 | inr _ => True end) (st, w)) ->
  rwp (in_txn m) (holds t (<[c := data]> files0)) (k, w).
Proof.
  intros [(st & Ht & Hl) Hh] Hm. cbn in *. eapply rwp_in_txn; [exact Ht|]. eapply rwp_conseq; [by apply Hm|].
  intros [st' w'] out [Hst (files' & Hl' & Ho)]. cbn in *. subst st'. exists files'. split; [|done]. constructor; [by exists st|done].
Qed.

Lemma replace_staged_ok t c files k w : at_stage t files (k, w) ->
  rwp (_replace_staged c) (fun kw out => exists files', at_stage t files' kw /\ match out with
    | inl _ => contents (nodes kw.2) files' = delete c (contents (nodes w) files) \/ contents (nodes kw.2) files' = contents (nodes w) files
    | inr _ => True end) (k, w).
Proof.
  intros [(st & Ht & Hl) Hh]. cbn in *. apply rwp_catch. eapply rwp_in_txn; [exact Ht|].
  eapply rwp_conseq; [by apply (remove_ok Hothers t0 p s es name Hp Hs)|]. intros [st' w'] out [Hst [_ Ho]]. cbn in *. subst st'.
  destruct out as [u|e].
  - destruct Ho as [Hl' Hc]. exists (delete c files). split; [constructor; [by exists st|done]|by left].
  - destruct Ho as [Hl' Hc]. destruct (is_errno ENOENT e); [apply rwp_ret|]; (exists files; split; [constructor; [by exists st|done]|]); [by right|done].
Qed.

Lemma at_stage_world t files k w w' : at_stage t files (k, w) -> nodes w' = nodes w -> fds w' = fds w -> at_stage t files (k, w').
Proof. intros [(st & Ht & Hl) Hh] Hn Hf. constructor; [exists st; split; [done|]; by eapply live_same|done]. Qed.

(** The same files, by other descriptors. *)
Definition calm (files : gmap pystr ino) (st : _State) (w : sys) (k : ParquetTransactionalSink) (kw : ParquetTransactionalSink * sys) : Prop :=
  kw.1 = k /\ live files st kw.2 /\ nodes kw.2 = nodes w.

Lemma staged_size_ok fd files st k w : live files st w -> own_fd st fd ->
  rwp (ensuring (catch is_os_error ('(_, n) ← sys_do (sys_fstat fd); mret (Some (match n with NFile b _ => zlen b | _ => 0 end))) (fun _ => mret None))
                (sys_do (sys_close fd))) (fun kw (_ : option Z + error) => calm files st w k kw) (k, w).
Proof.
  intros Hl Ho. apply rwp_ensuring, rwp_catch, rwp_bind, rwp_sys_do. eapply rwp_conseq; [by apply (fstat_calm Hothers)|].
  assert (Hclose : forall w2 (r : option Z + error), nodes w2 = nodes w /\ fds w2 = fds w ->
    rwp (sys_do (sys_close fd)) (fun kw out => match out with inl _ => calm files st w k kw | inr _ => calm files st w k kw end) (k, w2)).
  { intros w2 r [Hn2 Hf2]. apply rwp_sys_do. eapply (close_any files st); [by eapply live_same|done|]. intros w3 [u|e] Hl3 Hn3; (split; [done|]; split; [done|cbn; congruence]). }
  intros w2 [[i n]|e] H; [apply rwp_ret; by apply (Hclose w2 (inr FileAccessUnavailable))|].
  destruct (is_os_error e); [apply rwp_ret|]; by apply (Hclose w2 (inr FileAccessUnavailable)).
Qed.

Lemma calm_holds files st w t k kw {A} (out : A + error) : _txn k = Some (t, st) -> honest k -> calm files st w k kw -> holds t (contents (nodes w) files) kw out.
Proof.
  destruct kw as [k' w']. intros Ht Hh (H1 & Hl & Hn). cbn in *. subst k'. exists files. split; [constructor; [by exists st|done]|]. cbn. rewrite Hn. by destruct out.
Qed.

Lemma stored_ok active table c t files k w :
  at_stage t files (k, w) -> rwp (_stored active table c) (holds t (contents (nodes w) files)) (k, w).
Proof.
  intros [(st & Ht & Hl) Hh]. cbn in Ht, Hl, Hh. unfold _stored. apply rwp_bind, rwp_catch, rwp_bind. set (k1 := set_txn k (Some (t, st))).
  eapply rwp_in_txn; [exact Ht|]. eapply rwp_conseq; [by apply (open_file_ok Hothers t0 p s es name)|].
  intros [st' w1] [fd|e] (Hst & Hl1 & Hn1 & Ho); cbn [fst snd] in *; subst st'; fold k1.
  - apply rwp_ret, rwp_bind. eapply rwp_conseq; [by apply staged_size_ok|]. intros [k' w2] out (Hk & Hl2 & Hn2). cbn in Hk, Hl2, Hn2. subst k'.
    assert (Hc : forall k2 {A} (o : A + error), like k1 k2 -> holds t (contents (nodes w) files) (k2, w2) o)
      by (intros k2 A o Hk; eapply holds_like; [exact Hk|]; apply (calm_holds files st w t k1); [done|done|]; split; [done|]; split; [done|cbn; congruence]).
    assert (Hr : like k1 k1) by done. destruct out as [[n|]|e]; [|apply rwp_ret; by apply Hc|by apply Hc].
    apply rwp_bind, rwp_evidence; [done..|]. intros k2 Hk2. destruct active; [|by apply rwp_ret, Hc]. apply rwp_modify, Hc.
    destruct Hk2. by split.
  - assert (Hc : forall {A} (o : A + error), holds t (contents (nodes w) files) (k1, w1) o) by (intros A o; by apply (calm_holds files st w t k1)).
    destruct (is_os_error e); [apply rwp_ret, rwp_ret|]; by apply Hc.
Qed.

(** ** Writing a table over a live stage *)

Lemma holds_error t m m' kw {A B} e : holds t m kw (inr e : A + error) -> holds t m' kw (inr e : B + error).
Proof. intros (files & H & _). by exists files. Qed.

Lemma holds_at t m kw {A} (out : A + error) : holds t m kw out -> exists files, at_stage t files kw /\ match out with inl _ => contents (nodes kw.2) files = m | inr _ => True end.
Proof. done. Qed.

(** The component free again, and the operation noted. *)
Lemma replaced_ok t c files k w m o (rest : SinkM unit) (Q : ParquetTransactionalSink * sys -> unit + error -> Prop) :
  at_stage t files (k, w) -> (forall kw e, holds t m kw (inr e : unit + error) -> Q kw (inr e)) ->
  (forall files1 k1 w1, at_stage t files1 (k1, w1) ->
     (forall d : bytes, <[c := d]> (contents (nodes w1) files1) = <[c := d]> (contents (nodes w) files)) -> rwp rest Q (k1, w1)) ->
  rwp (_ ← _replace_staged c; _ ← evidence (fun e => set_operation e o); rest) Q (k, w).
Proof.
  intros Ha He Hr. apply rwp_bind. eapply rwp_conseq; [by apply replace_staged_ok|]. intros [k1 w1] [u|e] (files1 & Ha1 & Hc1); cbn [snd] in *.
  - apply rwp_bind, rwp_evidence; [done..|]. intros k2 Hk2. apply (Hr files1); [by eapply at_stage_like|].
    intros d. destruct Hc1 as [-> | ->]; [apply insert_delete_eq|done].
  - apply He. by exists files1.
Qed.

Definition write_rest (active : bool) (table : pystr) (data : Table) : SinkM unit :=
  _ ← observing WRITE (Some table) (in_txn (fun t => write_table memory_text t data (component_of table)));
  _stored active table (component_of table).

Lemma write_rest_ok active table data t files m k w : at_stage t files (k, w) ->
  (forall d : bytes, <[component_of table := d]> (contents (nodes w) files) = <[component_of table := d]> m) ->
  rwp (write_rest active table data) (holds t (<[component_of table := concat (pq_table data).1]> m)) (k, w).
Proof.
  intros Ha Hm. rewrite <- Hm. apply rwp_bind. eapply rwp_conseq.
  - apply (observing_holds t). eapply in_txn_holds; [exact Ha|]. intros st Hl. by apply write_table_ok.
  - intros [k1 w1] [u|e] (files1 & Ha1 & Hc1); [|by exists files1]. cbn in Hc1. rewrite <- Hc1. by apply stored_ok.
Qed.

(** A sink in the middle of a batch stream. *)
Definition at_writer (t : txn_spec) (files0 : gmap pystr ino) (c : pystr) (b : bytes) (w0 : sys) (wr : writer) (kw : ParquetTransactionalSink * sys) : Prop :=
  honest kw.1 /\ exists st, _txn kw.1 = Some (t, st) /\ written_to files0 st c b w0 (w_fd wr) kw.2.

Lemma at_writer_like t files0 c b w0 wr k k' w : like k k' -> at_writer t files0 c b w0 wr (k, w) -> at_writer t files0 c b w0 wr (k', w).
Proof. intros [H1 H2] (Hh & st & Ht & Hw). split; [by apply H2|]. exists st. cbn in *. by rewrite H1. Qed.

Lemma at_writer_holds t files0 c b w0 wr kw m {A} e : at_writer t files0 c b w0 wr kw -> holds t m kw (inr e : A + error).
Proof. intros (Hh & st & Ht & Hw). destruct (written_live _ _ _ _ _ _ _ Hw) as [files Hl]. exists files. split; [|done]. constructor; [by exists st|done]. Qed.

Lemma stream_failed_ok {A} t files0 c b w0 table wr wr' e m kw : at_writer t files0 c b w0 wr' kw -> w_fd wr' = w_fd wr -> w_schema wr' = w_schema wr ->
  rwp (stream_failed memory_text table wr e : SinkM A) (fun kw out => match out with inl _ => False | inr e => holds t m kw (inr e : unit + error) end) kw.
Proof.
  destruct kw as [k w]. intros Ha Hfd Hsc. apply rwp_bind, rwp_capture. intros k1 Hk1. apply (at_writer_like _ _ _ _ _ _ _ _ _ Hk1) in Ha.
  destruct Ha as (Hh & st & Ht & Hw). rewrite Hfd in Hw. cbn in *. apply rwp_bind, rwp_catch. eapply rwp_in_txn; [exact Ht|].
  eapply rwp_conseq; [by apply (close_writer_ok t wr files0 st c b w0)|]. intros [st' w'] out [Hst (files' & Hl & _)]. cbn in Hst, Hl. subst st'.
  destruct out as [u|e2]; apply rwp_throw; (exists files'; split; [constructor; [by exists st|done]|done]).
Qed.

(** The bytes of a stream of batches. *)
Fixpoint batches_bytes (schema : Schema) (before batches : list Batch) : bytes :=
  match batches with [] => [] | b :: bs => concat (pq_batch schema before b).1 ++ batches_bytes schema (before ++ [b]) bs end.

Lemma write_each_ok table batches raised t files0 c w0 m wr b kw : at_writer t files0 c b w0 wr kw ->
  rwp (write_each memory_text table wr batches raised) (fun kw out => match out with
    | inl wr' => at_writer t files0 c (b ++ batches_bytes (w_schema wr) (written wr) batches) w0 wr' kw /\
                 w_schema wr' = w_schema wr /\ written wr' = written wr ++ batches
    | inr e => holds t m kw (inr e : unit + error) end) kw.
Proof.
  revert wr b kw. induction batches as [|x xs IH]; intros wr b kw Ha; cbn [write_each batches_bytes].
  - destruct raised as [e|]; [|apply rwp_ret; rewrite !app_nil_r; done].
    eapply rwp_conseq; [by apply (stream_failed_ok t files0 c b w0 table wr wr e m kw)|]. by intros kw' [wr'|e'] H.
  - apply rwp_bind, rwp_catch. destruct kw as [k w]. pose proof Ha as (Hh & st & Ht & Hw). cbn in Hh, Ht, Hw. eapply rwp_in_txn; [exact Ht|].
    eapply rwp_conseq; [by apply write_batch_ok|]. intros [st' w'] [wr'|e] [Hst Ho]; cbn in Hst, Ho; subst st'.
    + destruct Ho as [-> Hw']. eapply rwp_conseq; [eapply IH; split; [exact Hh|by exists st]|]. cbn [w_schema written].
      intros kw' [wr2|e2]; [|done]. by rewrite <- !app_assoc.
    + destruct Ho as [b' Hw']. cbn [any_error]. eapply rwp_conseq; [eapply (stream_failed_ok t files0 c b' w0 table wr wr e m); [split; [exact Hh|by exists st]|done..]|].
      by intros kw' [wr'|e'] H.
Qed.

Definition batches_rest (active : bool) (table : pystr) (batches : list Batch) (raised : option error) (schema : Schema) : SinkM unit :=
  w ← in_txn (fun t => parquet_writer memory_text t (component_of table) schema);
  w ← write_each memory_text table w batches raised;
  _ ← evidence (fun e => set_operation e CLOSE);
  _ ← observing CLOSE (Some table) (in_txn (fun t => close_writer memory_text t w));
  _stored active table (component_of table).

(** The bytes of the file an operation makes. *)
Definition op_bytes (o : table_op) : bytes :=
  match o with
  | WriteTable _ data => concat (pq_table data).1
  | WriteBatches _ batches _ schema => concat (pq_open schema).1 ++ batches_bytes schema [] batches ++ concat (pq_footer schema batches).1
  end.
Definition op_table (o : table_op) : pystr := match o with WriteTable table _ | WriteBatches table _ _ _ => table end.

Lemma batches_rest_ok active table batches raised schema t files m k w : at_stage t files (k, w) ->
  (forall d : bytes, <[component_of table := d]> (contents (nodes w) files) = <[component_of table := d]> m) ->
  rwp (batches_rest active table batches raised schema) (holds t (<[component_of table := op_bytes (WriteBatches table batches raised schema)]> m)) (k, w).
Proof.
  intros [(st & Ht & Hl) Hh] Hm. rewrite <- Hm. set (c := component_of table). set (m1 := <[c := _]> (contents (nodes w) files)). cbn in Ht, Hl, Hh.
  apply rwp_bind. eapply rwp_in_txn; [exact Ht|]. eapply rwp_conseq; [by apply parquet_writer_ok|].
  intros [st' w1] [wr|e] [Hst Ho]; cbn in Hst, Ho; subst st'; [|destruct Ho as [files' Hl']; exists files'; split; [constructor; [by exists st|done]|done]].
  destruct Ho as [Hwr Hw1]. apply rwp_bind. eapply rwp_conseq; [eapply (write_each_ok table batches raised t files c w m1); split; [exact Hh|by exists st]|].
  rewrite Hwr. cbn [w_schema written app]. intros [k2 w2] [wr2|e]; [|apply holds_error]. intros (Ha & Hs2 & Hb2). apply rwp_bind, rwp_evidence; [done..|].
  intros k3 Hk3. apply (at_writer_like _ _ _ _ _ _ _ _ _ Hk3) in Ha. destruct Ha as (Hh3 & st3 & Ht3 & Hw3). cbn in Hh3, Ht3, Hw3.
  apply rwp_bind. eapply rwp_conseq.
  - apply (observing_holds t m1). eapply rwp_in_txn; [exact Ht3|]. eapply rwp_conseq; [by eapply close_writer_ok|].
    intros [st' w4] out [Hst (files' & Hl' & Ho)]. cbn in Hst, Hl', Ho. subst st'. exists files'. split; [constructor; [by exists st3|done]|].
    destruct out; [|done]. cbn. rewrite Ho, Hs2, Hb2. unfold m1, op_bytes. by rewrite <- app_assoc.
  - intros [k4 w4] [u|e] (files4 & Ha4 & Hc4); [|by exists files4]. cbn in Hc4. rewrite <- Hc4. by apply stored_ok.
Qed.

(** What an operation does once there is a stage. *)
Definition op_rest (active : bool) (o : table_op) : SinkM unit :=
  _ ← _replace_staged (component_of (op_table o));
  _ ← evidence (fun e => set_operation e WRITE);
  match o with
  | WriteTable table data => write_rest active table data
  | WriteBatches table batches raised schema => batches_rest active table batches raised schema
  end.

Definition with_op (m : gmap pystr bytes) (o : table_op) : gmap pystr bytes := <[component_of (op_table o) := op_bytes o]> m.

Lemma op_rest_ok active o t files k w : at_stage t files (k, w) ->
  rwp (op_rest active o) (holds t (with_op (contents (nodes w) files) o)) (k, w).
Proof.
  intros Ha. apply (replaced_ok t (component_of (op_table o)) files k w ∅ WRITE); [done|intros kw e; apply holds_error|].
  intros files1 k1 w1 Ha1 Hd. destruct o; [by eapply write_rest_ok|by eapply batches_rest_ok].
Qed.
End Stage.

(** ** A run of the sink *)

Section Whole.
Context (o : RootedOutputDir) (root : ino) (before : tree) (n : nat).
Abbreviation name := (stage_of token_hex n).

(** Nothing published and no transaction left. *)
Definition settled (kw : ParquetTransactionalSink * sys) : Prop :=
  _txn kw.1 = None /\ honest kw.1 /\
  (made_dirs (_parents o) before (nodes kw.2) \/ exists t0 p es s, beside o root before t0 p es s name /\ unpublished t0 p s es name (nodes kw.2)).

(** A live stage with these files. *)
Definition staging (m : gmap pystr bytes) (kw : ParquetTransactionalSink * sys) : Prop :=
  exists t0 p es s t files, beside o root before t0 p es s name /\ at_stage t0 p s es name t files kw /\ t_leaf t = _leaf o /\ contents (nodes kw.2) files = m.

Definition failing (kw : ParquetTransactionalSink * sys) : Prop := settled kw \/ exists m, staging m kw.

(** A new sink, or a live stage. *)
Definition ready (m : gmap pystr bytes) (kw : ParquetTransactionalSink * sys) : Prop :=
  (m = ∅ /\ kw.1 = new_sink o n /\ nodes kw.2 = before /\ fds kw.2 !! _root_fd o = Some root) \/ staging m kw.

Context (Hv : Forall (fun c => is_valid_component c = true) (_parents o)).

Lemma ready_failing m kw : ready m kw -> failing kw.
Proof.
  intros [(-> & H1 & H2 & H3)|H]; [left|right; by exists m]. unfold settled. rewrite H1, H2. split; [done|]. split; [done|]. left. apply rtc_refl.
Qed.

Lemma stage_ok m kw : ready m kw ->
  rwp (_stage usable token_hex) (fun kw out => match out with inl _ => staging m kw | inr _ => failing kw end) kw.
Proof.
  destruct kw as [k w]. intros [(-> & Hk & Hn & Hfd)|Hs].
  - cbn in Hk, Hn, Hfd. subst k. unfold _stage. apply rwp_bind. unfold rwp at 1, get_sink. cbn [fst snd new_sink _txn].
    apply rwp_bind, rwp_modify, rwp_bind, rwp_sys_do. cbn [_out draws]. eapply rwp_conseq; [by apply begin_txn_ok|]. rewrite Hn. intros w1 [[t st]|e] Hb.
    + destruct Hb as (t0 & p & es & s & Hbe & Hl & Hleaf). apply rwp_bind, rwp_modify, rwp_modify.
      exists t0, p, es, s, t, ∅. split; [done|]. split; [constructor; [by exists st|done]|]. split; [done|]. apply omap_empty.
    + left. split; [done|]. by split.
  - pose proof Hs as (t0 & p & es & s & t & files & _ & Ha & _). destruct (as_live _ _ _ _ _ _ _ _ Ha) as (st & Ht & _).
    apply rwp_bind. unfold rwp, get_sink. cbn [fst snd] in *. by rewrite Ht.
Qed.

Lemma perform_op_eq active op :
  perform_op usable token_hex memory_text active op = (_ ← _validate_table_name (op_table op); _ ← _stage usable token_hex; op_rest active op).
Proof. by destruct op. Qed.

Lemma perform_op_ok active op m kw : ready m kw ->
  rwp (perform_op usable token_hex memory_text active op) (fun kw out => match out with inl _ => staging (with_op m op) kw | inr _ => failing kw end) kw.
Proof.
  intros Hr. rewrite perform_op_eq. apply rwp_bind, rwp_throw_if; intros _; [|by eapply ready_failing].
  apply rwp_bind. eapply rwp_conseq; [by apply stage_ok|]. intros [k w] [u|e]; [|done]. intros (t0 & p & es & s & t & files & Hb & Ha & Hleaf & <-).
  pose proof Hb as (_ & _ & Hp & Hs & Hname). eapply rwp_conseq; [by eapply op_rest_ok|]. intros kw' out (files' & Ha' & Ho).
  destruct out as [v|e].
  - exists t0, p, es, s, t, files'. done.
  - right. eexists. exists t0, p, es, s, t, files'. done.
Qed.

Lemma write_tables_ok active ops m kw : staging m kw ->
  rwp (write_tables usable token_hex memory_text active ops) (fun kw out => match out with inl _ => staging (foldl with_op m ops) kw | inr _ => failing kw end) kw.
Proof.
  revert m kw. induction ops as [|op ops IH]; intros m kw Hs; [done|]. apply rwp_bind.
  eapply rwp_conseq; [apply perform_op_ok; by right|]. intros kw1 [u|e] H; [|done]. by apply IH.
Qed.

Lemma rwp_like f (Q : ParquetTransactionalSink * sys -> unit + error -> Prop) kw : Q (f kw.1, kw.2) (inl tt) -> rwp (modify f) Q kw.
Proof. by destruct kw. Qed.

(** The commit publishes, or leaves the stage. *)
Definition committed (m : gmap pystr bytes) (kw : ParquetTransactionalSink * sys) : Prop :=
  exists t0 p es s files, beside o root before t0 p es s name /\ published t0 p s es (_leaf o) files (nodes kw.2) /\
    contents (nodes kw.2) files = m /\ state (publication_evidence kw.1) = PUBLISHED /\ _txn kw.1 = None.

Context (Hdangling : no_dangling before) (Hleaf : _leaf o <> name).

Lemma commit_ok m kw : staging m kw ->
  rwp (sink_commit usable) (fun kw out => match out with inl _ => committed m kw | inr _ => failing kw end) kw.
Proof.
  destruct kw as [k w]. intros (t0 & p & es & s & t & files & Hb & Ha & Ht & Hm). pose proof Hb as (Hmade & _ & Hp & Hs & Hname).
  destruct Ha as [(st & Hk & Hl) Hh]. cbn in Hk, Hl, Hh, Hm.
  apply rwp_bind, rwp_modify, rwp_bind. unfold rwp at 1, get_sink. cbn [fst snd set_evidence _txn]. rewrite Hk. apply rwp_catch, rwp_bind.
  eapply rwp_in_txn; [exact Hk|]. eapply rwp_conseq; [eapply (publish_stage_ok Hothers); [exact Hp|exact Hs|exact Hname| |exact Hl|by rewrite Ht]|].
  { intros c i. eapply made_dirs_no_dangling; [exact Hmade|exact Hdangling|exact Hp]. }
  intros [st' w'] [u|e] Ho; cbn [fst snd] in *.
  - destruct Ho as [Hpub Hc]. apply rwp_bind, rwp_modify, rwp_modify. exists t0, p, es, s, files. rewrite Ht in Hpub. split; [done|]. cbn. by rewrite Hc.
  - destruct Ho as (Hst & Hl' & Hc). subst st'. cbn [any_error]. apply rwp_bind, rwp_modify, rwp_bind, rwp_capture. intros k' [Hk1 Hk2]. apply rwp_throw.
    right. exists m, t0, p, es, s, t, files. split; [done|]. split; [|split; [done|cbn; congruence]]. constructor; [|by apply Hk2].
    exists st. split; [|done]. cbn. by rewrite Hk1.
Qed.

Lemma failing_like k k' w : like k k' -> failing (k, w) -> failing (k', w).
Proof.
  intros Hk [(H1 & H2 & H3)|(m & t0 & p & es & s & t & files & Hb & Ha & H)].
  - destruct Hk as [Hk1 Hk2]. left. split; [cbn in *; by rewrite Hk1|]. split; [by apply Hk2|done].
  - right. exists m, t0, p, es, s, t, files. split; [done|]. split; [by eapply at_stage_like|done].
Qed.

Lemma observed_commit_ok m kw : staging m kw ->
  rwp (observed_commit usable) (fun kw out => match out with inl _ => committed m kw | inr _ => failing kw end) kw.
Proof.
  intros Hs. apply rwp_bind, rwp_catch. eapply rwp_conseq; [by apply commit_ok|]. intros [k w] [u|e] H.
  - apply rwp_modify. destruct H as (t0 & p & es & s & files & H). exists t0, p, es, s, files. cbn in *. naive_solver.
  - cbn [any_error]. apply rwp_bind, rwp_capture. intros k' Hk. apply rwp_throw. by eapply failing_like.
Qed.

(** Abort never raises, and settles. *)
Lemma observed_abort_ok kw : failing kw -> rwp observed_abort (fun kw out => settled kw /\ exists c, out = inl c) kw.
Proof.
  destruct kw as [k w]. intros Hf. apply rwp_bind, rwp_modify.
  assert (Hf1 : failing (set_evidence k (set_operation (publication_evidence k) ABORT), w)) by (eapply failing_like; [|exact Hf]; by split; [|intros]).
  clear Hf. set (k1 := set_evidence _ _) in *. clearbody k1. clear k. apply rwp_catch, rwp_bind, rwp_bind. unfold rwp at 1, get_sink. cbn [fst snd].
  destruct Hf1 as [Hs|(m & t0 & p & es & s & t & files & Hb & [(st & Hk & Hl) Hh] & _)].
  - pose proof Hs as (H1 & _). cbn in H1. rewrite H1. apply rwp_ret, rwp_bind. unfold rwp at 1, get_sink. cbn [fst snd]. apply rwp_ret. split; [done|by eexists].
  - cbn in Hk, Hl, Hh. rewrite Hk. pose proof Hb as (_ & _ & Hp & Hs & Hname). apply rwp_bind, rwp_catch, rwp_bind. eapply rwp_in_txn; [exact Hk|].
    eapply rwp_conseq; [eapply (discard_stage_ok Hothers); [exact Hp|exact Hs|exact Hname|exact Hl]|]. intros [st' w'] out [-> Hu]. cbn in Hu.
    apply rwp_ret, rwp_bind, rwp_modify, rwp_modify, rwp_bind. unfold rwp at 1, get_sink. cbn [fst snd]. apply rwp_ret. split; [|by eexists].
    split; [done|]. split; [split; [apply Hh|done]|]. right. by exists t0, p, es, s.
Qed.
End Whole.

(** C16: all or nothing, whatever calls fail when nobody else writes there: a run that
    writes tables and commits either publishes under the leaf exactly the files of its
    tables, and says so, or raises, has published nothing (at most missing parents and the
    stage itself are left beside what was there), says that it did not and claims no
    cleanup it has not done. *)
Theorem sink_all_or_nothing active ops (o : RootedOutputDir) root n w :
  ops <> [] -> Forall (fun c => is_valid_component c = true) (_parents o) -> fds w !! _root_fd o = Some root ->
  no_dangling (nodes w) -> _leaf o <> stage_of token_hex n ->
  match run_published usable token_hex memory_text active ops (new_sink o n, w) with
  | (kw, inl _) => committed o root (nodes w) n (foldl with_op ∅ ops) kw
  | (kw, inr _) => settled o root (nodes w) n kw
  end.
Proof.
  intros Hops Hv Hfd Hd Hl.
  assert (H : rwp (run_published usable token_hex memory_text active ops) (fun kw out => match out with
    | inl _ => committed o root (nodes w) n (foldl with_op ∅ ops) kw | inr _ => settled o root (nodes w) n kw end) (new_sink o n, w)).
  2: { unfold rwp in H. by destruct (run_published _ _ _ _ _ _) as [kw [u|e]]. }
  assert (Habort : forall kw e, failing o root (nodes w) n kw -> rwp (_ ← observed_abort; throw e : SinkM unit)
    (fun kw out => match out with inl _ => committed o root (nodes w) n (foldl with_op ∅ ops) kw | inr _ => settled o root (nodes w) n kw end) kw).
  { intros kw e Hf. apply rwp_bind. eapply rwp_conseq; [by apply (observed_abort_ok o root (nodes w) n)|]. intros kw' out [Hs [c ->]]. exact Hs. }
  apply rwp_catch, rwp_bind. destruct ops as [|op ops]; [done|]. apply rwp_bind.
  eapply rwp_conseq; [apply (perform_op_ok o root (nodes w) n Hv active op ∅); by left|]. intros kw1 [u|e] H1; [|by apply Habort].
  eapply rwp_conseq; [by apply (write_tables_ok o root (nodes w) n Hv active ops)|]. intros kw2 [u2|e] H2; [|by apply Habort].
  eapply rwp_conseq; [by apply (observed_commit_ok o root (nodes w) n Hd Hl)|]. intros kw3 [u3|e] H3; [done|by apply Habort].
Qed.
End Theory.

(** One table whose Arrow file is a header and its row. *)
Definition sample_arrow : ParquetOps := {|
  Table := bytes; Schema := unit; Batch := bytes; pq_table d := ([py "PAR1"; d], None);
  pq_open _ := ([py "PAR1"], None); pq_batch _ _ b := ([b], None); pq_footer _ _ := ([py "PAR1"], None) |}.
Definition sample_out : RootedOutputDir := MkOutputDir 3 [] (py "out") (py "target.path") (py "out").
Definition sample_hex (n : nat) : pystr := py "0123456789ab".

Lemma sink_all_or_nothing_witness :
  _leaf sample_out <> stage_of sample_hex 0 /\
  match @run_published no_faults printable_ascii_only sample_arrow false sample_hex (fun _ => false) true
          [@WriteTable sample_arrow (py "users") (py "row")] (new_sink sample_out 0, sample_sys) with
  | (kw, inl _) => committed sample_hex sample_out (1, 1) sample_tree 0 {[ py "users.parquet" := py "PAR1row" ]} kw
  | (_, inr _) => False
  end.
Proof.
  assert (Hl : _leaf sample_out <> stage_of sample_hex 0) by discriminate. split; [exact Hl|].
  assert (Hd : no_dangling (nodes sample_sys)).
  { intros d es c i Hd Hc. apply elem_of_dom. cbn [nodes sample_sys] in Hd. unfold sample_tree in Hd. apply lookup_insert_Some in Hd as [[_ Hd]|[_ Hd]].
    - injection Hd as <-. apply lookup_singleton_Some in Hc as [_ <-]. vm_compute. reflexivity.
    - apply lookup_singleton_Some in Hd as [_ Hd]. discriminate Hd. }
  pose proof (@sink_all_or_nothing no_faults printable_ascii_only sample_arrow false sample_hex (fun _ => false) (fun _ _ => eq_refl) true
    [@WriteTable sample_arrow (py "users") (py "row")] sample_out (1, 1) 0 sample_sys ltac:(discriminate) (List.Forall_nil _) eq_refl Hd Hl) as H.
  destruct (run_published _ _ _ _ _ _) as [kw [u|e]] eqn:E; [exact H|].
  exfalso. assert (Hr : match (@run_published no_faults printable_ascii_only sample_arrow false sample_hex (fun _ => false) true
          [@WriteTable sample_arrow (py "users") (py "row")] (new_sink sample_out 0, sample_sys)).2 with inl _ => True | inr _ => False end) by (vm_compute; exact I).
  rewrite E in Hr. exact Hr.
Defined.
