(* ===== verification/When.v ===== *)
(** * The predicate of a masked column (expressions/_when_parser.py)

    A column's [when] is a predicate in a closed grammar (expressions/when_grammar.lark).
    The grammar's rules are the relation [derives] over its terminals; Lark's parser is the
    class [LarkOps] with its documented contract [LarkLaws]: the tree of a sentence, and
    nothing for any other text. What the module adds (limits, names, numbers, size) is
    written out, with the two compile-time checks of plan/_checks_when.py and the other
    places that ask for the same grammar. *)

From S2P Require Import Prelude Numerals PyText PyData Floats.

(** ** The grammar *)

(** The terminals; a string keeps its quotes. *)
Inductive lexeme :=
| K_or | K_and | K_not | K_in | K_true | K_false
| LPAR | RPAR | LSQB | RSQB | COMMA
| CMP (op : pystr) | IDENT (name : pystr) | NUMBER (text : pystr) | STRING (text : pystr).

(** The nodes of the parse tree, by the aliases of the rules. *)
Inductive when_literal := number_lit (text : pystr) | str_lit (text : pystr) | true_lit | false_lit.
Inductive ptree :=
| or_expr (items : list ptree)
| and_expr (items : list ptree)
| not_op (item : ptree)
| col_first (name op : pystr) (l : when_literal)
| lit_first (l : when_literal) (op name : pystr)
| in_op (name : pystr) (ls : list when_literal)
| not_in_op (name : pystr) (ls : list when_literal).

(** [?rule]: a node with one child is that child. *)
Definition inlined (node : list ptree -> ptree) (items : list ptree) : ptree :=
  match items with [t] => t | _ => node items end.

Definition literal_of (t : lexeme) : option when_literal :=
  match t with
  | NUMBER s => Some (number_lit s) | STRING s => Some (str_lit s)
  | K_true => Some true_lit | K_false => Some false_lit
  | _ => None
  end.

(** [literal ("," literal)*] *)
Inductive literal_list : list lexeme -> list when_literal -> Prop :=
| literals_one t l : literal_of t = Some l -> literal_list [t] [l]
| literals_more t l ts ls : literal_of t = Some l -> literal_list ts ls -> literal_list (t :: COMMA :: ts) (l :: ls).

(** [or_expr], [and_expr] with their items, [not_expr] with its one tree. *)
Inductive rule := Or | And | NotExpr.
Inductive derives : rule -> list lexeme -> list ptree -> Prop :=
| D_or_one ts l : derives And ts l -> derives Or ts [inlined and_expr l]
| D_or ts ts' l l' : derives And ts l -> derives Or ts' l' -> derives Or (ts ++ K_or :: ts') (inlined and_expr l :: l')
| D_and_one ts t : derives NotExpr ts [t] -> derives And ts [t]
| D_and ts ts' t l : derives NotExpr ts [t] -> derives And ts' l -> derives And (ts ++ K_and :: ts') (t :: l)
| D_not ts t : derives NotExpr ts [t] -> derives NotExpr (K_not :: ts) [not_op t]
| D_col name op x l : literal_of x = Some l -> derives NotExpr [IDENT name; CMP op; x] [col_first name op l]
| D_lit x l op name : literal_of x = Some l -> derives NotExpr [x; CMP op; IDENT name] [lit_first l op name]
| D_in name ts ls : literal_list ts ls -> derives NotExpr (IDENT name :: K_in :: LSQB :: ts ++ [RSQB]) [in_op name ls]
| D_not_in name ts ls : literal_list ts ls -> derives NotExpr (IDENT name :: K_not :: K_in :: LSQB :: ts ++ [RSQB]) [not_in_op name ls]
| D_par ts l : derives Or ts l -> derives NotExpr (LPAR :: ts ++ [RPAR]) [inlined or_expr l].

(** *** Terminals of a text: the basic lexer takes the longest, and a name that spells a
    keyword is that keyword. *)

Definition ident_start (c : Z) : bool := ((65 <=? c) && (c <=? 90)) || ((97 <=? c) && (c <=? 122)) || (c =? 95).
Definition digit_char (c : Z) : bool := (48 <=? c) && (c <=? 57).
Definition ident_char (c : Z) : bool := ident_start c || digit_char c.

(** No quote, backslash, control character or line separator. *)
Definition string_char (c : Z) : bool :=
  negb (bool_decide (c ∈ [34; 39; 92; 8232; 8233])) && (32 <=? c) && negb ((127 <=? c) && (c <=? 159)).

Fixpoint span_of (p : Z -> bool) (s : pystr) : pystr * pystr :=
  match s with
  | c :: s' => if p c then let '(a, b) := span_of p s' in (c :: a, b) else ([], s)
  | [] => ([], [])
  end.

Definition keyword (name : pystr) : lexeme :=
  if bool_decide (name = py "or") then K_or else if bool_decide (name = py "and") then K_and
  else if bool_decide (name = py "not") then K_not else if bool_decide (name = py "in") then K_in
  else if bool_decide (name = py "True") then K_true else if bool_decide (name = py "False") then K_false
  else IDENT name.

(** [(\.[0-9]+)?] and [([eE][+-]?[0-9]+)?] *)
Definition fraction_part (s : pystr) : pystr * pystr :=
  match s with
  | 46 :: s' => match span_of digit_char s' with ([], _) => ([], s) | (ds, rest) => (46 :: ds, rest) end
  | _ => ([], s)
  end.
Definition sign_part (s : pystr) : pystr * pystr :=
  match s with c :: s' => if (c =? 43) || (c =? 45) then ([c], s') else ([], s) | [] => ([], []) end.
Definition exponent_part (s : pystr) : pystr * pystr :=
  match s with
  | c :: s' =>
      if (c =? 101) || (c =? 69) then
        let '(sg, s2) := sign_part s' in
        match span_of digit_char s2 with ([], _) => ([], s) | (ds, rest) => (c :: sg ++ ds, rest) end
      else ([], s)
  | [] => ([], [])
  end.
(** [0|[1-9][0-9]*] *)
Definition integer_part (s : pystr) : option (pystr * pystr) :=
  match s with
  | c :: s' => if c =? 48 then Some ([c], s') else if digit_char c then Some (span_of digit_char s) else None
  | [] => None
  end.
(** [-?] *)
Definition minus_part (s : pystr) : bool * pystr :=
  match s with c :: s' => if c =? 45 then (true, s') else (false, s) | [] => (false, []) end.
Definition minus (neg : bool) : pystr := if neg then [45] else [].
Definition number_text (s : pystr) : option (pystr * pystr) :=
  let '(neg, s1) := minus_part s in
  match integer_part s1 with
  | None => None
  | Some (ds, s2) =>
      let '(fr, s3) := fraction_part s2 in let '(ex, s4) := exponent_part s3 in Some (minus neg ++ ds ++ fr ++ ex, s4)
  end.

Definition comparison (s : pystr) : option (pystr * pystr) :=
  match s with
  | c :: 61 :: s' => if bool_decide (c ∈ [61; 33; 60; 62]) then Some ([c; 61], s') else None
  | c :: s' => if (c =? 60) || (c =? 62) then Some ([c], s') else None
  | [] => None
  end.

Definition punctuation (c : Z) : option lexeme :=
  if c =? 40 then Some LPAR else if c =? 41 then Some RPAR else if c =? 91 then Some LSQB
  else if c =? 93 then Some RSQB else if c =? 44 then Some COMMA else None.

(** The first terminal of a text that does not begin with a blank. *)
Definition first_terminal (s : pystr) : option (lexeme * pystr) :=
  match s with
  | [] => None
  | c :: s' =>
      if ident_start c then let '(name, rest) := span_of ident_char s in Some (keyword name, rest)
      else if (c =? 39) || (c =? 34) then
        match span_of string_char s' with (body, q :: rest) => if q =? c then Some (STRING (c :: body ++ [q]), rest) else None | _ => None end
      else match punctuation c with
           | Some t => Some (t, s')
           | None =>
               match comparison s with
               | Some (op, rest) => Some (CMP op, rest)
               | None => match number_text s with Some (text, rest) => Some (NUMBER text, rest) | None => None end
               end
           end
  end.

Definition blank (c : Z) : bool := (c =? 32) || (c =? 9).

Fixpoint terminals (fuel : nat) (s : pystr) : option (list lexeme) :=
  match fuel, s with
  | _, [] => Some []
  | O, _ => None
  | S fuel, c :: s' =>
      if blank c then terminals fuel s' else
      match first_terminal s with Some (t, rest) => cons t <$> terminals fuel rest | None => None end
  end.
Definition tokens (s : pystr) : option (list lexeme) := terminals (length s) s.

(** A sentence with its tree. *)
Definition sentence (s : pystr) (t : ptree) : Prop :=
  exists ts l, tokens s = Some ts /\ derives Or ts l /\ t = inlined or_expr l.

(** [lark.Lark(grammar, parser="lalr", lexer="basic").parse] *)
Class LarkOps := { lark_parse : pystr -> option ptree }.
Class LarkLaws `{LarkOps} : Prop := lark_exact s t : lark_parse s = Some t <-> sentence s t.

(** ** Predicates *)

Inductive Scalar := SInt (n : Z) | SFloat (x : flt) | SStr (s : pystr) | SBool (b : bool).
Inductive bool_op := op_and | op_or.
Inductive WhenExpr :=
| Compare (ref op : pystr) (value : Scalar) (literal_first : bool)
| InList (ref : pystr) (values : list Scalar) (negated : bool)
| Not (operand : WhenExpr)
| BoolOp (op : bool_op) (operands : list WhenExpr).

Definition WHEN_OUTSIDE_GRAMMAR_CODE : string := "when_outside_closed_grammar".
Definition _reject : exn := Exn "ValidationError" WHEN_OUTSIDE_GRAMMAR_CODE.
Definition _RejectError : exn := exc "_RejectError".

Definition _MAX_EXPR_LENGTH : Z := 4096.
Definition _MAX_NESTING_DEPTH : Z := 50.
Definition _MAX_COMPARISONS : Z := 32.
Definition _MAX_TREE_DEPTH : Z := 50.
Definition _INT64_MIN : Z := - 2 ^ 63.
Definition _INT64_MAX : Z := 2 ^ 63 - 1.

Definition RESERVED_NAMES : list pystr :=
  py <$> [
    "abs"; "arccos"; "arccosh"; "arcsin"; "arcsinh"; "arctan"; "arctan2"; "arctanh"; "ceil";
    "complex"; "conj"; "contains"; "copy"; "copysign"; "cos"; "cosh"; "exp"; "expm1"; "floor";
    "fmod"; "hypot"; "imag"; "isfinite"; "isinf"; "isnan"; "log"; "log10"; "log1p"; "log2"; "max";
    "maximum"; "min"; "minimum"; "nextafter"; "ones_like"; "prod"; "real"; "round"; "sign";
    "signbit"; "sin"; "sinh"; "sqrt"; "sum"; "tan"; "tanh"; "trunc"; "where"; "Timestamp";
    "datetime"; "True"; "False"; "list"; "tuple"; "inf"; "Inf"; "nan"; "NaN"; "NaT"; "index";
    "columns"; "None"; "and"; "as"; "assert"; "async"; "await"; "break"; "class"; "continue"; "def";
    "del"; "elif"; "else"; "except"; "finally"; "for"; "from"; "global"; "if"; "import"; "in"; "is";
    "lambda"; "nonlocal"; "not"; "or"; "pass"; "raise"; "return"; "try"; "while"; "with"; "yield";
    "match"; "case"; "_"; "type"]%string.

(** [name.startswith("__") or name.endswith("__")] *)
Definition dunder (name : pystr) : bool :=
  bool_decide (ztake 2 name = py "__") || bool_decide (ztake 2 (rev name) = py "__").

Definition _name (name : pystr) : result pystr :=
  _ ← raise_if (dunder name) _RejectError;
  _ ← raise_if (bool_decide (name ∈ RESERVED_NAMES)) _RejectError;
  Ok name.

(** [set(text) <= _INTEGER_CHARS] *)
Definition integer_text (text : pystr) : bool := forallb (fun c => (c =? 45) || digit_char c) text.

(** [int(text)] of a NUMBER without fraction and exponent *)
Definition int_of_text (text : pystr) : Z := let '(neg, ds) := minus_part text in if neg then - int_digits ds else int_digits ds.

(** A decimal text as [m * 10 ^ e]. *)
Definition decimal_parts (text : pystr) : Z * Z :=
  let '(neg, s) := minus_part text in
  let '(ds, s1) := span_of digit_char s in
  let '(fr, s2) := match s1 with 46 :: s' => span_of digit_char s' | _ => ([], s1) end in
  let e := match s2 with
           | _ :: 45 :: s' => - int_digits s' | _ :: 43 :: s' => int_digits s' | _ :: s' => int_digits s' | [] => 0
           end in
  ((if neg : bool then -1 else 1) * int_digits (ds ++ fr), e - zlen fr).

(** [float(text)]: the float nearest to the decimal. *)
Definition float_of_text (text : pystr) : flt :=
  let '(m, e) := decimal_parts text in
  nearest float64 (m * 10 ^ Z.max 0 e * 2 ^ tiny float64) (10 ^ Z.max 0 (- e)).

Definition isfinite (x : flt) : bool := match x with FFin _ => true | _ => false end.

Definition _number (text : pystr) : result Scalar :=
  if integer_text text then
    let value := int_of_text text in
    _ ← raise_if (negb ((_INT64_MIN <=? value) && (value <=? _INT64_MAX))) _RejectError;
    Ok (SInt value)
  else
    let number := float_of_text text in
    _ ← raise_if (negb (isfinite number)) _RejectError;
    Ok (SFloat number).

(** ** The transformer *)

Definition build_literal (l : when_literal) : result Scalar :=
  match l with
  | number_lit text => _number text
  | str_lit text => Ok (SStr (removelast (tail text)))
  | true_lit => Ok (SBool true)
  | false_lit => Ok (SBool false)
  end.

Fixpoint _Build (t : ptree) : result WhenExpr :=
  let fix all (l : list ptree) : result (list WhenExpr) :=
    match l with [] => Ok [] | t :: l => e ← _Build t; es ← all l; Ok (e :: es) end in
  match t with
  | or_expr items => es ← all items; Ok (BoolOp op_or es)
  | and_expr items => es ← all items; Ok (BoolOp op_and es)
  | not_op t => e ← _Build t; Ok (Not e)
  | col_first name op l => v ← build_literal l; n ← _name name; Ok (Compare n op v false)
  | lit_first l op name => v ← build_literal l; n ← _name name; Ok (Compare n op v true)
  | in_op name ls => vs ← map_res build_literal ls; n ← _name name; Ok (InList n vs false)
  | not_in_op name ls => vs ← map_res build_literal ls; n ← _name name; Ok (InList n vs true)
  end.

(** ** Size and references: walks with a stack, whose top is the head *)

Fixpoint nodes_in (e : WhenExpr) : nat :=
  match e with
  | Compare _ _ _ _ | InList _ _ _ => 1
  | Not e => S (nodes_in e)
  | BoolOp _ es => S ((fix sum l := match l with [] => O | e :: l => (nodes_in e + sum l)%nat end) es)
  end.

Definition pushed {A} (items stack : list A) : list A := rev items ++ stack.

Fixpoint size_loop (fuel : nat) (comparisons : Z) (stack : list (WhenExpr * Z)) : result unit :=
  match stack with
  | [] => Ok tt
  | (node, depth) :: stack =>
      match fuel with
      | O => Err (exc "RecursionError")
      | S fuel =>
          _ ← raise_if (depth >? _MAX_TREE_DEPTH) _reject;
          match node with
          | Compare _ _ _ _ | InList _ _ _ =>
              _ ← raise_if (comparisons + 1 >? _MAX_COMPARISONS) _reject;
              size_loop fuel (comparisons + 1) stack
          | Not operand => size_loop fuel comparisons ((operand, depth + 1) :: stack)
          | BoolOp _ operands => size_loop fuel comparisons (pushed ((fun e => (e, depth + 1)) <$> operands) stack)
          end
      end
  end.
Definition _check_size (ast : WhenExpr) : result unit := size_loop (nodes_in ast) 0 [(ast, 1)].

Fixpoint refs_loop (fuel : nat) (found : gset pystr) (stack : list WhenExpr) : gset pystr :=
  match stack, fuel with
  | [], _ | _, O => found
  | Compare ref _ _ _ :: stack, S fuel | InList ref _ _ :: stack, S fuel => refs_loop fuel ({[ ref ]} ∪ found) stack
  | Not operand :: stack, S fuel => refs_loop fuel found (operand :: stack)
  | BoolOp _ operands :: stack, S fuel => refs_loop fuel found (pushed operands stack)
  end.
Definition when_column_refs (ast : WhenExpr) : list pystr := sorted (elements (refs_loop (nodes_in ast) ∅ [ast])).

(** ** Parsing *)

Section Parsing.
Context `{LarkOps}.

(** Every failure of the parser, the transformer and the size check is the one rejection. *)
Definition parse_text (text : pystr) : result WhenExpr :=
  match lark_parse text with
  | Some tree => match (built ← _Build tree; _ ← _check_size built; Ok built) with Ok built => Ok built | Err _ => Err _reject end
  | None => Err _reject
  end.

Definition parse_when (expr : pyval) : result WhenExpr :=
  match expr with
  | PStr s =>
      let text := strip s in
      _ ← raise_if (bool_decide (text = [])) _reject;
      _ ← raise_if (bool_decide (10 ∈ text \/ 13 ∈ text)) _reject;
      _ ← raise_if (zlen text >? _MAX_EXPR_LENGTH) _reject;
      _ ← raise_if (zlen (filter (fun c => c = 40) text) >? _MAX_NESTING_DEPTH) _reject;
      parse_text text
  | _ => Err _reject
  end.

(** [functools.lru_cache(maxsize=1024)]: successes only, the last used first. *)
Definition when_cache := list (pystr * WhenExpr).
Definition CACHE_SIZE : nat := 1024.
Definition parse_when_cached (expr : pystr) (c : when_cache) : when_cache * result WhenExpr :=
  match od_get c expr with
  | Some e => ((expr, e) :: od_del c expr, Ok e)
  | None =>
      match parse_when (PStr expr) with
      | Ok e => (take CACHE_SIZE ((expr, e) :: c), Ok e)
      | Err x => (c, Err x)
      end
  end.

(** ** Who asks for the grammar *)

(** A seed's [when]: a string is parsed through the cache, anything else is refused. *)
Definition gate_parse (when : pyval) (c : when_cache) : when_cache * result WhenExpr :=
  match when with PStr s => parse_when_cached s c | _ => (c, parse_when when) end.

(** The seeds of a plan by table and column; [None] is no gate. *)
Fixpoint validate_seeds (columns : list (pystr * pyval)) (c : when_cache) : when_cache * result unit :=
  match columns with
  | [] => (c, Ok tt)
  | (_, PNone) :: columns => validate_seeds columns c
  | (_, when) :: columns => match gate_parse when c with (c', Ok _) => validate_seeds columns c' | (c', Err _) => (c', Err _reject) end
  end.
Fixpoint validate_envelope_when (per_table : list (pystr * list (pystr * pyval))) (c : when_cache) : when_cache * result unit :=
  match per_table with
  | [] => (c, Ok tt)
  | (_, columns) :: rest => match validate_seeds columns c with (c', Ok _) => validate_envelope_when rest c' | out => out end
  end.

(** [_require_closed_grammar]: the backstop before evaluation. *)
Definition _require_closed_grammar (expression : pyval) (c : when_cache) : when_cache * result unit :=
  match gate_parse expression c with
  | (c', Ok _) => (c', Ok tt)
  | (c', Err _) => (c', Err (Exn "StrategyError" WHEN_OUTSIDE_GRAMMAR_CODE))
  end.

Definition closed_grammar_when (when : pystr) : bool := is_ok (parse_when (PStr when)).

(** The field validator of a column's configuration. *)
Definition _when_closed_grammar (value : option pystr) : result (option pystr) :=
  match value with
  | None => Ok None
  | Some value =>
      let stripped := strip value in
      if bool_decide (stripped = []) then Ok None else
      match parse_when (PStr stripped) with
      | Ok _ => Ok (Some stripped)
      | Err _ => Err (Exn "PydanticCustomError" WHEN_OUTSIDE_GRAMMAR_CODE)
      end
  end.

(** *** Compile-time checks over a configuration *)

Definition outside_error : exn := Exn "PlanCompileError" WHEN_OUTSIDE_GRAMMAR_CODE.
Definition coherent_error : exn := Exn "PlanCompileError" "when_with_coherent_with_unsupported".

Definition check_column_when (col : pyval) : result unit :=
  match col with
  | PDict d =>
      match dget d "when" PNone with
      | PNone => Ok tt
      | PStr s => if bool_decide (strip s = []) then Ok tt else match parse_when (PStr (strip s)) with Ok _ => Ok tt | Err _ => Err outside_error end
      | _ => Err outside_error
      end
  | _ => Ok tt
  end.

(** [for table in config.get("tables", []) or []: for col in table.get("columns", []) or []] *)
Definition every_column (config : list (pystr * pyval)) (check : pyval -> result unit) : result unit :=
  tables ← py_iter (or_empty (dget config "tables" (PList [])));
  for_each (fun _ table =>
    match table with
    | PDict d => columns ← py_iter (or_empty (dget d "columns" (PList []))); for_each (fun _ col => check col) columns tt
    | _ => Ok tt
    end) tables tt.

Definition check_when_grammar (config : list (pystr * pyval)) : result unit := every_column config check_column_when.

Definition check_coherent_when (col : pyval) : result unit :=
  match col with
  | PDict d =>
      match dget d "when" PNone, or_empty (dget d "coherent_with" PNone) with
      | PStr s, PList (_ :: _) => raise_if (negb (bool_decide (strip s = []))) coherent_error
      | _, _ => Ok tt
      end
  | _ => Ok tt
  end.
Definition check_when_with_coherent_with (config : list (pystr * pyval)) : result unit := every_column config check_coherent_when.

(** The gate a compiled column carries (plan/_seed_envelope.py). *)
Definition seed_when (when_raw : pyval) : pyval :=
  match when_raw with PStr s => if bool_decide (strip s = []) then PNone else PStr s | _ => PNone end.
End Parsing.
