(* ===== verification/WhenGrammar.v ===== *)
(** * The grammar of predicates decided

    A recursive descent over the terminals, with one symbol of lookahead, that finds the
    tree of exactly the sentences: the grammar is unambiguous and its language decidable,
    and a function of these laws exists. *)

From S2P Require Import Prelude PyText PyData When.

(** ** The descent *)

Definition literals_at : list lexeme -> option (list when_literal * list lexeme) :=
  fix go ts :=
    match ts with
    | t :: rest =>
        match literal_of t with
        | None => None
        | Some l =>
            match rest with
            | COMMA :: more => match go more with Some (ls, r) => Some (l :: ls, r) | None => None end
            | _ => Some ([l], rest)
            end
        end
    | [] => None
    end.

(** A bracketed list of literals. *)
Definition list_at (ts : list lexeme) : option (list when_literal * list lexeme) :=
  match ts with
  | LSQB :: rest => match literals_at rest with Some (ls, RSQB :: r) => Some (ls, r) | _ => None end
  | _ => None
  end.

Definition atom_at (ts : list lexeme) : option (ptree * list lexeme) :=
  match ts with
  | IDENT name :: CMP op :: x :: r => l ← literal_of x; Some (col_first name op l, r)
  | IDENT name :: K_in :: r => '(ls, r) ← list_at r; Some (in_op name ls, r)
  | IDENT name :: K_not :: K_in :: r => '(ls, r) ← list_at r; Some (not_in_op name ls, r)
  | x :: CMP op :: IDENT name :: r => l ← literal_of x; Some (lit_first l op name, r)
  | _ => None
  end.

Fixpoint descend (fuel : nat) (n : rule) (ts : list lexeme) : option (list ptree * list lexeme) :=
  match fuel with
  | O => None
  | S fuel =>
      match n with
      | Or =>
          match descend fuel And ts with
          | Some (l, K_or :: r) => '(l', r') ← descend fuel Or r; Some (inlined and_expr l :: l', r')
          | Some (l, r) => Some ([inlined and_expr l], r)
          | None => None
          end
      | And =>
          match descend fuel NotExpr ts with
          | Some (l, K_and :: r) => '(l', r') ← descend fuel And r; Some (l ++ l', r')
          | Some (l, r) => Some (l, r)
          | None => None
          end
      | NotExpr =>
          match ts with
          | K_not :: r => '(l, r') ← descend fuel NotExpr r; match l with [t] => Some ([not_op t], r') | _ => None end
          | LPAR :: r => match descend fuel Or r with Some (l, RPAR :: r') => Some ([inlined or_expr l], r') | _ => None end
          | _ => '(t, r) ← atom_at ts; Some ([t], r)
          end
      end
  end.

Definition parse_terminals (ts : list lexeme) : option ptree :=
  match descend (3 * length ts + 3) Or ts with Some (l, []) => Some (inlined or_expr l) | _ => None end.

Definition descent_parse (s : pystr) : option ptree := tokens s ≫= parse_terminals.

(** ** What it finds is derived *)

Lemma literals_sound n ts ls r : (length ts <= n)%nat -> literals_at ts = Some (ls, r) -> exists us, ts = us ++ r /\ literal_list us ls.
Proof.
  revert ts ls r. induction n as [|n IH]; intros [|t ts] ls r Hn H; cbn in Hn; try lia; try done.
  cbn [literals_at] in H. destruct (literal_of t) as [l|] eqn:El; [|done].
  assert (Hone : Some ([l], ts) = Some (ls, r) -> exists us, t :: ts = us ++ r /\ literal_list us ls)
    by (intros [= <- <-]; exists [t]; split; [done|by constructor]).
  destruct ts as [|u more]; [by apply Hone|]. destruct u; try (by apply Hone). clear Hone.
  fold literals_at in H. destruct (literals_at more) as [[ls' r']|] eqn:E; [|done]. injection H as <- <-.
  destruct (IH more ls' r') as (us & -> & Hu); [cbn in Hn; lia|done|]. exists (t :: COMMA :: us). split; [done|by constructor].
Qed.

Lemma list_sound ts ls r : list_at ts = Some (ls, r) -> exists us, ts = LSQB :: us ++ RSQB :: r /\ literal_list us ls.
Proof.
  destruct ts as [|t ts]; [done|]. destruct t; try done. cbn. destruct (literals_at ts) as [[ls' r']|] eqn:E; [|done].
  destruct r' as [|u r']; [done|]. destruct u; try done. intros [= <- <-].
  destruct (literals_sound _ ts ls' _ (le_n _) E) as (us & -> & Hu). by exists us.
Qed.

Lemma atom_sound ts t r : atom_at ts = Some (t, r) -> exists us, ts = us ++ r /\ derives NotExpr us [t].
Proof.
  intros H.
  assert (Hcol : forall name op x more, ts = IDENT name :: CMP op :: x :: more -> (l ← literal_of x; Some (col_first name op l, more)) = Some (t, r) ->
    exists us, ts = us ++ r /\ derives NotExpr us [t]).
  { intros name op x more -> Hx. destruct (literal_of x) as [l|] eqn:El; [|done]. injection Hx as <- <-. exists [IDENT name; CMP op; x]. split; [done|by constructor]. }
  assert (Hlit : forall name op x more, ts = x :: CMP op :: IDENT name :: more -> (l ← literal_of x; Some (lit_first l op name, more)) = Some (t, r) ->
    exists us, ts = us ++ r /\ derives NotExpr us [t]).
  { intros name op x more -> Hx. destruct (literal_of x) as [l|] eqn:El; [|done]. injection Hx as <- <-. exists [x; CMP op; IDENT name]. split; [done|by constructor]. }
  destruct ts as [|a [|b ts]]; [done|by destruct a|].
  destruct b; try (by destruct a).
  - destruct a; try done. destruct ts as [|c ts]; [done|]. destruct c; try done. cbn in H.
    destruct (list_at ts) as [[ls r']|] eqn:E; [|done]. injection H as <- <-. destruct (list_sound _ _ _ E) as (us & -> & Hu).
    exists (IDENT name :: K_not :: K_in :: LSQB :: us ++ [RSQB]). split; [by rewrite <- !app_comm_cons, <- app_assoc|by constructor].
  - destruct a; try done. cbn in H. destruct (list_at ts) as [[ls r']|] eqn:E; [|done]. injection H as <- <-. destruct (list_sound _ _ _ E) as (us & -> & Hu).
    exists (IDENT name :: K_in :: LSQB :: us ++ [RSQB]). split; [by rewrite <- !app_comm_cons, <- app_assoc|by constructor].
  - destruct ts as [|c ts]; [by destruct a|]. destruct a; try (by eapply Hcol); destruct c; try done; by eapply Hlit.
Qed.

Lemma descend_sound fuel n ts l r : descend fuel n ts = Some (l, r) -> exists us, ts = us ++ r /\ derives n us l.
Proof.
  revert n ts l r. induction fuel as [|fuel IH]; intros n ts l r H; [done|]. destruct n; cbn [descend] in H.
  - destruct (descend fuel And ts) as [[la ra]|] eqn:Ea; [|done]. destruct (IH _ _ _ _ Ea) as (us & -> & Ha).
    assert (Hone : Some ([inlined and_expr la], ra) = Some (l, r) -> exists us0, us ++ ra = us0 ++ r /\ derives Or us0 l)
      by (intros [= <- <-]; exists us; split; [done|by constructor]).
    destruct ra as [|u ra]; [by apply Hone|]. destruct u; try (by apply Hone). clear Hone.
    destruct (descend fuel Or ra) as [[lo ro]|] eqn:Eo; [|done]. injection H as <- <-. destruct (IH _ _ _ _ Eo) as (vs & -> & Ho).
    exists (us ++ K_or :: vs). split; [by rewrite <- app_assoc|by constructor].
  - destruct (descend fuel NotExpr ts) as [[la ra]|] eqn:Ea; [|done]. destruct (IH _ _ _ _ Ea) as (us & -> & Ha).
    assert (Hs : exists t, la = [t]) by (inversion Ha; subst; by eexists). destruct Hs as [t ->].
    assert (Hone : Some ([t], ra) = Some (l, r) -> exists us0, us ++ ra = us0 ++ r /\ derives And us0 l)
      by (intros [= <- <-]; exists us; split; [done|by constructor]).
    destruct ra as [|u ra]; [by apply Hone|]. destruct u; try (by apply Hone). clear Hone.
    destruct (descend fuel And ra) as [[lo ro]|] eqn:Eo; [|done]. injection H as <- <-. destruct (IH _ _ _ _ Eo) as (vs & -> & Ho).
    exists (us ++ K_and :: vs). split; [by rewrite <- app_assoc|by constructor].
  - assert (Hatom : ('(t, r) ← atom_at ts; Some ([t], r)) = Some (l, r) -> exists us, ts = us ++ r /\ derives NotExpr us l).
    { destruct (atom_at ts) as [[t r']|] eqn:E; [|done]. intros [= <- <-]. by apply atom_sound. }
    destruct ts as [|u ts]; [done|]. destruct u; try (by apply Hatom); clear Hatom.
    + destruct (descend fuel NotExpr ts) as [[la ra]|] eqn:Ea; [|done]. destruct (IH _ _ _ _ Ea) as (us & -> & Ha). cbn in H.
      destruct la as [|t [|]]; try done. injection H as <- <-. exists (K_not :: us). split; [done|by constructor].
    + destruct (descend fuel Or ts) as [[la ra]|] eqn:Ea; [|done]. destruct (IH _ _ _ _ Ea) as (us & -> & Ha).
      destruct ra as [|v ra]; [done|]. destruct v; try done. injection H as <- <-. exists (LPAR :: us ++ [RPAR]). split; [by cbn; rewrite <- app_assoc|by constructor].
Qed.

(** ** What is derived it finds *)

(** What may follow a phrase: not the operator that would continue it. *)
Definition follows (n : rule) (rest : list lexeme) : Prop :=
  match n, rest with
  | Or, (K_or | K_and) :: _ | And, K_and :: _ => False
  | _, _ => True
  end.

Lemma literals_complete ts ls rest : literal_list ts ls -> literals_at (ts ++ RSQB :: rest) = Some (ls, RSQB :: rest).
Proof.
  induction 1 as [t l H|t l ts ls H _ IH]; cbn [app literals_at]; rewrite H; [done|]. fold literals_at. by rewrite IH.
Qed.

Lemma list_complete ts ls rest : literal_list ts ls -> list_at (LSQB :: (ts ++ [RSQB]) ++ rest) = Some (ls, rest).
Proof. intros H. unfold list_at. rewrite <- app_assoc. cbn [app]. by rewrite (literals_complete ts ls). Qed.

Lemma literal_not_name x l : literal_of x = Some l -> match x with IDENT _ | K_not | LPAR => False | _ => True end.
Proof. by destruct x. Qed.

Definition rule_rank (n : rule) : nat := match n with NotExpr => 1 | And => 2 | Or => 3 end.

Lemma derive_nonempty n ts l : derives n ts l -> (0 < length ts)%nat.
Proof. induction 1; rewrite ?length_app; cbn; lia. Qed.

Lemma descend_complete n ts l : derives n ts l ->
  forall fuel rest, (3 * length ts + rule_rank n <= fuel)%nat -> follows n rest -> descend fuel n (ts ++ rest) = Some (l, rest).
Proof.
  induction 1 as [ts l Ha IH|ts ts' l l' Ha IHa Ho IHo|ts t Ha IH|ts ts' t l Ha IHa Ho IHo|ts t Ha IH|name op x l Hx|x l op name Hx|name ts ls Hl|name ts ls Hl|ts l Ho IH];
    intros [|fuel] rest Hf Hr; cbn [rule_rank] in Hf; try lia; cbn [descend].
  - rewrite IH; [|cbn [rule_rank]; lia|by destruct rest as [|[]]]. by destruct rest as [|[]].
  - rewrite length_app in Hf. cbn [length] in Hf. pose proof (derive_nonempty _ _ _ Ha). rewrite <- app_assoc. cbn [app].
    rewrite IHa; [|cbn [rule_rank]; lia|done]. rewrite IHo; [done|cbn [rule_rank]; lia|done].
  - rewrite IH; [|cbn [rule_rank]; lia|done]. by destruct rest as [|[]].
  - rewrite length_app in Hf. cbn [length] in Hf. pose proof (derive_nonempty _ _ _ Ha). rewrite <- app_assoc. cbn [app].
    rewrite IHa; [|cbn [rule_rank]; lia|done]. rewrite IHo; [done|cbn [rule_rank]; lia|done].
  - cbn [app length] in *. rewrite IH; [done|cbn [rule_rank]; lia|done].
  - cbn. by rewrite Hx.
  - pose proof (literal_not_name _ _ Hx). cbn [app]. assert (Hat : atom_at (x :: CMP op :: IDENT name :: rest) = Some (lit_first l op name, rest)) by (destruct x; try done; by injection Hx as <-).
    rewrite Hat. by destruct x.
  - cbn [app]. change (atom_at (IDENT name :: K_in :: LSQB :: (ts ++ [RSQB]) ++ rest)) with ('(ls, r) ← list_at (LSQB :: (ts ++ [RSQB]) ++ rest); Some (in_op name ls, r)).
    by rewrite (list_complete ts ls).
  - cbn [app]. change (atom_at (IDENT name :: K_not :: K_in :: LSQB :: (ts ++ [RSQB]) ++ rest)) with ('(ls, r) ← list_at (LSQB :: (ts ++ [RSQB]) ++ rest); Some (not_in_op name ls, r)).
    by rewrite (list_complete ts ls).
  - cbn [app length] in *. rewrite length_app in Hf. cbn [length] in Hf. rewrite <- app_assoc. cbn [app]. rewrite IH; [done|cbn [rule_rank]; lia|done].
Qed.

(** ** The grammar is unambiguous, and the descent decides it *)

Lemma parse_terminals_exact ts t : parse_terminals ts = Some t <-> exists l, derives Or ts l /\ t = inlined or_expr l.
Proof.
  unfold parse_terminals. split.
  - destruct (descend _ Or ts) as [[l [|u r]]|] eqn:E; try done. intros [= <-]. destruct (descend_sound _ _ _ _ _ E) as (us & -> & H).
    exists l. by rewrite app_nil_r.
  - intros (l & H & ->). pose proof (descend_complete _ _ _ H (3 * length ts + 3) [] ltac:(cbn [rule_rank]; lia) I) as E. rewrite app_nil_r in E. by rewrite E.
Qed.

Lemma derive_unambiguous ts l l' : derives Or ts l -> derives Or ts l' -> l = l'.
Proof.
  intros H H'. pose proof (descend_complete _ _ _ H (3 * length ts + 3) [] ltac:(cbn [rule_rank]; lia) I) as E.
  pose proof (descend_complete _ _ _ H' (3 * length ts + 3) [] ltac:(cbn [rule_rank]; lia) I) as E'. congruence.
Qed.

Lemma descent_exact s t : descent_parse s = Some t <-> sentence s t.
Proof.
  unfold descent_parse, sentence. split.
  - destruct (tokens s) as [ts|] eqn:E; [|done]. cbn. intros H%parse_terminals_exact. destruct H as (l & H & ->). by exists ts, l.
  - intros (ts & l & -> & H & ->). cbn. apply parse_terminals_exact. by exists l.
Qed.

(** A parser with Lark's contract. *)
Definition descent_lark : LarkOps := {| lark_parse := descent_parse |}.
Lemma descent_laws : @LarkLaws descent_lark.
Proof. exact descent_exact. Qed.
