(* ===== verification/WhenTheory.v ===== *)
(** * What predicates are accepted

    The accepted predicates are exactly the well-formed ones: nothing else comes out of
    the parser, and each of those has a text that gives it back. The places that ask for
    the grammar agree. *)

From S2P Require Import Prelude Numerals PyText PyData Floats When WhenGrammar.

(** ** Induction on predicates *)

Section Induction.
Context (Q : WhenExpr -> Prop).
Context (Hc : forall ref op v b, Q (Compare ref op v b)) (Hi : forall ref vs b, Q (InList ref vs b))
  (Hn : forall e, Q e -> Q (Not e)) (Ho : forall op es, Forall Q es -> Q (BoolOp op es)).
Lemma predicate_ind : forall e, Q e.
Proof.
  fix IH 1. intros [ref op v b|ref vs b|e|op es]; [apply Hc|apply Hi|apply Hn, IH|apply Ho].
  induction es as [|e es IHes]; constructor; [apply IH|exact IHes].
Qed.
End Induction.

(** ** Size *)

Abbreviation max_all := (foldr Z.max 0).
Fixpoint nesting (e : WhenExpr) : Z :=
  match e with
  | Compare _ _ _ _ | InList _ _ _ => 1
  | Not e => 1 + nesting e
  | BoolOp _ es => 1 + max_all (nesting <$> es)
  end.
Abbreviation sum_all := (foldr Z.add 0).
Fixpoint comparisons_in (e : WhenExpr) : Z :=
  match e with
  | Compare _ _ _ _ | InList _ _ _ => 1
  | Not e => comparisons_in e
  | BoolOp _ es => sum_all (comparisons_in <$> es)
  end.

Fixpoint nodes_all (l : list WhenExpr) : nat := match l with [] => O | e :: l => (nodes_in e + nodes_all l)%nat end.
Lemma nodes_op op es : nodes_in (BoolOp op es) = S (nodes_all es).
Proof. done. Qed.

Lemma nodes_all_app a b : nodes_all (a ++ b) = (nodes_all a + nodes_all b)%nat.
Proof. induction a as [|e a IH]; cbn; lia. Qed.
Lemma nodes_all_rev a : nodes_all (rev a) = nodes_all a.
Proof. induction a as [|e a IH]; cbn; [done|]. rewrite nodes_all_app, IH. cbn. lia. Qed.

Lemma comparisons_nonneg e : 0 <= comparisons_in e.
Proof.
  induction e as [| |e IH|op es IH] using predicate_ind; cbn; try lia.
  induction IH as [|e es He _ IHes]; cbn; lia.
Qed.
Lemma sum_nonneg es : 0 <= sum_all (comparisons_in <$> es).
Proof. induction es as [|e es IH]; cbn; [lia|]. pose proof (comparisons_nonneg e). lia. Qed.
Lemma depth_pos e : 1 <= nesting e.
Proof.
  induction e as [| |e IH|op es IH] using predicate_ind; cbn; try lia.
  assert (0 <= max_all (nesting <$> es)) by (clear; induction es; cbn; lia). lia.
Qed.

Lemma max_all_le l k : 0 <= k -> max_all l <= k <-> Forall (fun x => x <= k) l.
Proof.
  intros Hk. induction l as [|x l IH]; cbn; [split; [by constructor|lia]|]. rewrite list.Forall_cons, <- IH. lia.
Qed.

Lemma sum_all_app a b : sum_all (a ++ b) = sum_all a + sum_all b.
Proof. induction a as [|x a IH]; cbn; [done|]. lia. Qed.
Lemma sum_all_rev a : sum_all (rev a) = sum_all a.
Proof. induction a as [|x a IH]; cbn; [done|]. rewrite sum_all_app, IH. cbn. lia. Qed.

Lemma forall_rev_iff {A} (R : A -> Prop) l : Forall R (rev l) <-> Forall R l.
Proof. rewrite !list.Forall_forall. split; intros H x Hx; apply H; apply list_elem_of_In; apply list_elem_of_In in Hx; by apply in_rev in Hx || rewrite <- in_rev. Qed.

(** The walk accepts exactly what is small enough. *)
Definition stack_fits (stack : list (WhenExpr * Z)) : Prop := Forall (fun x : WhenExpr * Z => x.2 - 1 + nesting x.1 <= _MAX_TREE_DEPTH) stack.
Definition comparisons_of (stack : list (WhenExpr * Z)) : Z := sum_all ((fun x : WhenExpr * Z => comparisons_in x.1) <$> stack).
Definition nodes_of (stack : list (WhenExpr * Z)) : nat := nodes_all (fst <$> stack).

Lemma stacked_nonneg stack : 0 <= comparisons_of stack.
Proof. unfold comparisons_of. induction stack as [|[e d] s IH]; cbn; [lia|]. pose proof (comparisons_nonneg e). lia. Qed.

Lemma size_loop_exact fuel c stack : (nodes_of stack <= fuel)%nat -> c <= _MAX_COMPARISONS ->
  is_ok (size_loop fuel c stack) = true <-> stack_fits stack /\ c + comparisons_of stack <= _MAX_COMPARISONS.
Proof.
  revert c stack. induction fuel as [|fuel IH]; intros c [|[e d] stack] Hf Hc; try (split; [intros _; split; [by constructor|cbn; lia]|done]).
  - exfalso. unfold nodes_of in Hf. cbn in Hf. destruct e; cbn in Hf; lia.
  - unfold stack_fits. rewrite list.Forall_cons. change (fst <$> (e, d) :: stack) with (e :: (fst <$> stack)) in *. unfold nodes_of in Hf. cbn [fst snd] in *.
    change (nodes_all (fst <$> (e, d) :: stack)) with (nodes_in e + nodes_all (fst <$> stack))%nat in Hf.
    assert (Ht : comparisons_of ((e, d) :: stack) = comparisons_in e + comparisons_of stack) by done. rewrite Ht.
    pose proof (stacked_nonneg stack). pose proof (depth_pos e). cbn [size_loop].
    destruct (d >? _MAX_TREE_DEPTH) eqn:Ed; bool_prop; cbn [raise_if mbind result_bind].
    { split; [done|]. intros [[H1 _] _]. lia. }
    assert (Hleaf : nesting e = 1 -> comparisons_in e = 1 -> (nodes_all (fst <$> stack) <= fuel)%nat ->
      is_ok (_ ← raise_if (c + 1 >? _MAX_COMPARISONS) _reject; size_loop fuel (c + 1) stack) = true <->
      (d - 1 + nesting e <= _MAX_TREE_DEPTH /\ stack_fits stack) /\ c + (comparisons_in e + comparisons_of stack) <= _MAX_COMPARISONS).
    { intros -> -> Hn. destruct (c + 1 >? _MAX_COMPARISONS) eqn:E; bool_prop; cbn [raise_if mbind result_bind].
      - split; [done|]. lia.
      - rewrite IH by (done || lia). unfold stack_fits. intuition lia. }
    destruct e as [ref op v b|ref vs b|e|op es].
    + apply Hleaf; [done|done|]. cbn in Hf. lia.
    + apply Hleaf; [done|done|]. cbn in Hf. lia.
    + clear Hleaf. cbn in Hf. rewrite IH; [|unfold nodes_of; cbn; lia|done]. unfold stack_fits. rewrite list.Forall_cons. cbn [fst snd nesting].
      assert (Ht2 : comparisons_of ((e, d + 1) :: stack) = comparisons_in e + comparisons_of stack) by done. rewrite Ht2. cbn [comparisons_in]. intuition lia.
    + clear Hleaf. rewrite nodes_op in Hf. set (items := (fun e => (e, d + 1)) <$> es).
      assert (Hn : nodes_of (pushed items stack) = (nodes_all es + nodes_all (fst <$> stack))%nat).
      { unfold nodes_of, pushed, items. rewrite fmap_app, nodes_all_app. f_equal. rewrite <- (nodes_all_rev es). f_equal.
        rewrite <- map_rev. clear. induction (rev es) as [|e l IH]; cbn; [done|]. by f_equal. }
      rewrite IH; [|lia|done].
      assert (Htot : comparisons_of (pushed items stack) = sum_all (comparisons_in <$> es) + comparisons_of stack).
      { unfold comparisons_of, pushed, items. rewrite fmap_app, sum_all_app. f_equal. rewrite <- (sum_all_rev (comparisons_in <$> es)). f_equal.
        rewrite <- !map_rev. clear. induction (rev es) as [|e l IH]; cbn; [done|]. by f_equal. }
      rewrite Htot. cbn [comparisons_in nesting].
      assert (Hfit : stack_fits (pushed items stack) <-> d - 1 + (1 + max_all (nesting <$> es)) <= _MAX_TREE_DEPTH /\ stack_fits stack).
      { unfold stack_fits, pushed. rewrite Forall_app. assert (Hr : Forall (fun x : WhenExpr * Z => x.2 - 1 + nesting x.1 <= _MAX_TREE_DEPTH) (rev items) <-> max_all (nesting <$> es) <= _MAX_TREE_DEPTH - d).
        { rewrite max_all_le by lia. rewrite forall_rev_iff. unfold items. rewrite !Forall_fmap. apply list.Forall_iff. intros x. cbn. lia. }
        rewrite Hr. intuition lia. }
      rewrite Hfit. unfold stack_fits. intuition lia.
Qed.

Lemma check_size_exact e : is_ok (_check_size e) = true <-> nesting e <= _MAX_TREE_DEPTH /\ comparisons_in e <= _MAX_COMPARISONS.
Proof.
  unfold _check_size. rewrite size_loop_exact; [|unfold nodes_of; cbn; lia|done]. unfold stack_fits. rewrite Forall_singleton. cbn [fst snd].
  assert (Ht : comparisons_of [(e, 1)] = comparisons_in e) by (unfold comparisons_of; cbn; lia). rewrite Ht. intuition lia.
Qed.

(** ** References *)

(** The columns a predicate reads. *)
Inductive mentions : WhenExpr -> pystr -> Prop :=
| reads_compare ref op v b : mentions (Compare ref op v b) ref
| reads_in ref vs b : mentions (InList ref vs b) ref
| reads_not e r : mentions e r -> mentions (Not e) r
| reads_op op es e r : e ∈ es -> mentions e r -> mentions (BoolOp op es) r.

Lemma refs_loop_exact fuel found stack r : (nodes_all stack <= fuel)%nat ->
  r ∈ refs_loop fuel found stack <-> r ∈ found \/ exists e, e ∈ stack /\ mentions e r.
Proof.
  revert found stack. induction fuel as [|fuel IH]; intros found [|e stack] Hf.
  1,3: (cbn; split; [by left|intros [H|(e & He%elem_of_nil & _)]; done]).
  { exfalso. cbn in Hf. destruct e; cbn in Hf; lia. }
  cbn [nodes_all] in Hf.
  assert (Hcons : forall (X : Prop), (X <-> mentions e r) -> r ∈ found \/ (X \/ exists e', e' ∈ stack /\ mentions e' r) <-> r ∈ found \/ exists e', e' ∈ e :: stack /\ mentions e' r).
  { intros X HX. rewrite HX. split; [intros [H|[H|(e' & H & H')]]; [by left|right; exists e; split; [left|done]|right; exists e'; split; [by right|done]]|].
    intros [H|(e' & He'%elem_of_cons & H')]; [by left|right]. destruct He' as [->|He']; [by left|right; by exists e']. }
  destruct e as [ref op v b|ref vs b|e|op es]; cbn [refs_loop].
  - rewrite IH by (cbn in Hf; lia). rewrite elem_of_union, elem_of_singleton, <- (Hcons (r = ref)); [tauto|].
    split; [intros ->; constructor|by inversion 1].
  - rewrite IH by (cbn in Hf; lia). rewrite elem_of_union, elem_of_singleton, <- (Hcons (r = ref)); [tauto|].
    split; [intros ->; constructor|by inversion 1].
  - rewrite IH by (cbn in *; lia). rewrite <- (Hcons (mentions e r)); [|split; [by constructor|by inversion 1]].
    split; (intros [H|H]; [by left|right]).
    + destruct H as (e' & He'%elem_of_cons & H'). destruct He' as [->|He']; [by left|right; by exists e'].
    + destruct H as [H|(e' & H & H')]; [exists e; split; [left|done]|exists e'; split; [by right|done]].
  - rewrite nodes_op in Hf. rewrite IH by (unfold pushed; rewrite nodes_all_app, nodes_all_rev; lia).
    rewrite <- (Hcons (exists e, e ∈ es /\ mentions e r)); [|split; [intros (e & H & H'); by eapply reads_op|inversion 1; subst; by eexists]].
    assert (Hin : forall e', e' ∈ pushed es stack <-> e' ∈ es \/ e' ∈ stack)
      by (intros e'; unfold pushed; rewrite elem_of_app, !list_elem_of_In, <- in_rev; done).
    split; (intros [H|H]; [by left|right]).
    + destruct H as (e' & He'%Hin & H'). destruct He'; [left; by exists e'|right; by exists e'].
    + destruct H as [(e' & H & H')|(e' & H & H')]; exists e'; rewrite Hin; auto.
Qed.

Lemma refs_exact e r : r ∈ when_column_refs e <-> mentions e r.
Proof.
  unfold when_column_refs. rewrite elem_of_sorted, elem_of_elements, refs_loop_exact by (cbn; lia). split.
  - intros [H|(e' & ->%list_elem_of_singleton & H)]; [by apply elem_of_empty in H|done].
  - intros H. right. exists e. split; [left|done].
Qed.

Lemma refs_nodup e : NoDup (when_column_refs e).
Proof. unfold when_column_refs. rewrite sorted_perm. apply NoDup_elements. Qed.

(** ** What a sentence holds *)

Definition identifier (s : pystr) : Prop := exists c cs, s = c :: cs /\ ident_start c = true /\ forallb ident_char cs = true.
Definition OPERATORS : list pystr := py <$> ["=="; "!="; "<="; ">="; "<"; ">"]%string.
Definition quoted (text : pystr) : Prop := exists q body, text = q :: body ++ [q] /\ (q = 39 \/ q = 34) /\ forallb string_char body = true.

Definition terminal_ok (t : lexeme) : Prop :=
  match t with
  | IDENT name => identifier name /\ keyword name = IDENT name
  | CMP op => op ∈ OPERATORS
  | STRING text => quoted text
  | _ => True
  end.

Lemma span_exact p s a b : span_of p s = (a, b) -> s = a ++ b /\ forallb p a = true /\ match b with c :: _ => p c = false | [] => True end.
Proof.
  revert a b. induction s as [|c s IH]; intros a b H; cbn in H; [by injection H as <- <-|].
  destruct (p c) eqn:Ep.
  - destruct (span_of p s) as [a' b'] eqn:E. injection H as <- <-. destruct (IH a' b' eq_refl) as (-> & Ha & Hb). cbn. by rewrite Ep.
  - injection H as <- <-. done.
Qed.

Lemma keyword_cases name : keyword name = IDENT name \/ keyword name ∈ [K_or; K_and; K_not; K_in; K_true; K_false].
Proof. unfold keyword. repeat (destruct (bool_decide _); [right; set_solver|]). by left. Qed.

Lemma keyword_ok name : identifier name -> terminal_ok (keyword name).
Proof.
  intros H. destruct (keyword_cases name) as [E|E]; [rewrite E; by split|].
  repeat (apply elem_of_cons in E as [->|E]; [done|]). by apply elem_of_nil in E.
Qed.

Lemma first_terminal_ok s t rest : first_terminal s = Some (t, rest) -> terminal_ok t.
Proof.
  destruct s as [|c s]; [done|]. cbn [first_terminal]. destruct (ident_start c) eqn:Es.
  - cbn [span_of]. assert (Hc : ident_char c = true) by (unfold ident_char; by rewrite Es). rewrite Hc.
    destruct (span_of ident_char s) as [a b] eqn:E. intros [= <- _]. apply keyword_ok. destruct (span_exact _ _ _ _ E) as (_ & Ha & _). by exists c, a.
  - destruct ((c =? 39) || (c =? 34)) eqn:Eq.
    + destruct (span_of string_char s) as [body [|q r]] eqn:E; [done|]. destruct (q =? c) eqn:Ec; [|done]. bool_prop. subst q. intros [= <- _].
      destruct (span_exact _ _ _ _ E) as (_ & Ha & _). exists c, body. split; [done|]. split; [apply orb_true_iff in Eq as [H|H]; bool_prop; auto|done].
    + destruct (punctuation c) as [u|] eqn:Ep.
      { intros [= <- _]. revert Ep. unfold punctuation. by repeat case_match; intros; simplify_eq. }
      destruct (comparison (c :: s)) as [[op r]|] eqn:Ec.
      { intros [= <- _]. cbn. unfold comparison in Ec. 
        assert (H1 : (if (c =? 60) || (c =? 62) then Some ([c], s) else None) = Some (op, r) -> op ∈ OPERATORS).
        { destruct ((c =? 60) || (c =? 62)) eqn:E; [|done]. intros [= <- _]. apply orb_true_iff in E as [E|E]; bool_prop; subst c; by_decide. }
        destruct s as [|d s]; [by apply H1|]. destruct (decide (d = 61)) as [->|Hd].
        - destruct (bool_decide (c ∈ [61; 33; 60; 62])) eqn:E; [|done]. injection Ec as <- _. bool_prop.
          repeat (apply elem_of_cons in E as [->|E]; [by_decide|]). by apply elem_of_nil in E.
        - apply H1. destruct d as [|d|d]; try done; repeat (destruct d as [d|d|]; try done). }
      destruct (number_text (c :: s)) as [[x r]|]; [|done]. by intros [= <- _].
Qed.

Lemma tokens_ok s ts : tokens s = Some ts -> Forall terminal_ok ts.
Proof.
  unfold tokens. generalize (length s). intros fuel. revert s ts. induction fuel as [|fuel IH]; intros [|c s] ts H; cbn [terminals] in H; try (by injection H as <-); [done|].
  destruct (blank c); [by eapply IH|]. destruct (first_terminal (c :: s)) as [[t rest]|] eqn:E; [|done].
  destruct (terminals fuel rest) as [us|] eqn:Eu; [|done]. injection H as <-. constructor; [by eapply first_terminal_ok|by eapply IH].
Qed.

(** ** What is accepted is well-formed *)

Definition column_name (name : pystr) : Prop :=
  identifier name /\ dunder name = false /\ (name ∉ RESERVED_NAMES).
Definition literal_value_ok (v : Scalar) : Prop :=
  match v with
  | SInt n => _INT64_MIN <= n <= _INT64_MAX
  | SFloat x => exists z, x = FFin z /\ representable float64 z
  | SStr s => forallb string_char s = true
  | SBool _ => True
  end.

Inductive predicate_ok : WhenExpr -> Prop :=
| ok_compare ref op v b : column_name ref -> op ∈ OPERATORS -> literal_value_ok v -> predicate_ok (Compare ref op v b)
| ok_in ref vs b : column_name ref -> vs <> [] -> Forall literal_value_ok vs -> predicate_ok (InList ref vs b)
| ok_not e : predicate_ok e -> predicate_ok (Not e)
| ok_op op es : (2 <= length es)%nat -> Forall predicate_ok es -> predicate_ok (BoolOp op es).

Definition literal_ok (l : when_literal) : Prop := match l with str_lit text => quoted text | _ => True end.
Inductive tree_ok : ptree -> Prop :=
| t_or items : (2 <= length items)%nat -> Forall tree_ok items -> tree_ok (or_expr items)
| t_and items : (2 <= length items)%nat -> Forall tree_ok items -> tree_ok (and_expr items)
| t_not t : tree_ok t -> tree_ok (not_op t)
| t_col name op l : identifier name -> op ∈ OPERATORS -> literal_ok l -> tree_ok (col_first name op l)
| t_lit name op l : identifier name -> op ∈ OPERATORS -> literal_ok l -> tree_ok (lit_first l op name)
| t_in name ls : identifier name -> ls <> [] -> Forall literal_ok ls -> tree_ok (in_op name ls)
| t_not_in name ls : identifier name -> ls <> [] -> Forall literal_ok ls -> tree_ok (not_in_op name ls).

Lemma literal_of_ok t l : literal_of t = Some l -> terminal_ok t -> literal_ok l.
Proof. destruct t; intros [= <-]; done. Qed.

Lemma literals_ok ts ls : literal_list ts ls -> Forall terminal_ok ts -> ls <> [] /\ Forall literal_ok ls.
Proof.
  induction 1 as [t l H|t l ts ls H _ IH]; intros Hts; inversion Hts as [|? ? Ht Hts']; subst.
  - split; [done|]. constructor; [by eapply literal_of_ok|done].
  - inversion Hts'; subst. destruct IH as [_ IH]; [done|]. split; [done|]. constructor; [by eapply literal_of_ok|done].
Qed.

Lemma inlined_ok node l : l <> [] -> Forall tree_ok l -> (forall items, (2 <= length items)%nat -> Forall tree_ok items -> tree_ok (node items)) -> tree_ok (inlined node l).
Proof. intros Hne H Hn. destruct l as [|t [|u l]]; [done|by inversion H|]. apply Hn; [cbn; lia|done]. Qed.

Lemma ident_terminal name : terminal_ok (IDENT name) -> identifier name.
Proof. by intros [H _]. Qed.

Lemma derive_ok n ts l : derives n ts l -> Forall terminal_ok ts -> l <> [] /\ Forall tree_ok l.
Proof.
  induction 1 as [ts l Ha IH|ts ts' l l' Ha IHa Ho IHo|ts t Ha IH|ts ts' t l Ha IHa Ho IHo|ts t Ha IH|name op x l Hx|x l op name Hx|name ts ls Hl|name ts ls Hl|ts l Ho IH]; intros Hts.
  - destruct (IH Hts) as [Hne H]. split; [done|]. constructor; [|done]. apply inlined_ok; [done..|by constructor].
  - apply Forall_app in Hts as [H1 H2]. inversion H2; subst. destruct IHa as [Hne H]; [done|]. destruct IHo as [_ H']; [done|]. split; [done|].
    constructor; [|done]. apply inlined_ok; [done..|by constructor].
  - by apply IH.
  - apply Forall_app in Hts as [H1 H2]. inversion H2; subst. destruct IHa as [_ H]; [done|]. destruct IHo as [_ H']; [done|]. split; [done|].
    inversion H; subst. by constructor.
  - inversion Hts; subst. destruct IH as [_ H]; [done|]. split; [done|]. inversion H; subst. constructor; [by constructor|done].
  - inversion Hts as [|? ? Hn H2]; subst. apply ident_terminal in Hn. inversion H2 as [|? ? Hop H3]; subst. inversion H3; subst. split; [done|]. constructor; [|done].
    constructor; [done..|by eapply literal_of_ok].
  - inversion Hts as [|? ? Hl H2]; subst. inversion H2 as [|? ? Hop H3]; subst. inversion H3 as [|? ? Hn H4]; subst. apply ident_terminal in Hn. split; [done|]. constructor; [|done].
    constructor; [done..|by eapply literal_of_ok].
  - inversion Hts as [|? ? Hn H2]; subst. apply ident_terminal in Hn. inversion H2 as [|? ? _ H3]; subst. inversion H3 as [|? ? _ H4]; subst. apply Forall_app in H4 as [H4 _].
    destruct (literals_ok _ _ Hl H4). split; [done|]. constructor; [by constructor|done].
  - inversion Hts as [|? ? Hn H2]; subst. apply ident_terminal in Hn. inversion H2 as [|? ? _ H3]; subst. inversion H3 as [|? ? _ H4]; subst. inversion H4 as [|? ? _ H5]; subst. apply Forall_app in H5 as [H5 _].
    destruct (literals_ok _ _ Hl H5). split; [done|]. constructor; [by constructor|done].
  - inversion Hts as [|? ? _ H2]; subst. apply Forall_app in H2 as [H2 _]. destruct (IH H2). split; [done|]. constructor; [|done]. apply inlined_ok; [done..|by constructor].
Qed.

Lemma name_ok name n : identifier name -> _name name = Ok n -> n = name /\ column_name name.
Proof.
  intros Hid H. unfold _name in H. destruct (dunder name) eqn:Ed; [done|]. cbn [raise_if mbind result_bind] in H.
  destruct (bool_decide (name ∈ RESERVED_NAMES)) eqn:Er; [done|]. cbn [raise_if mbind result_bind] in H. injection H as <-. bool_prop. done.
Qed.

Lemma nearest_finite n d z : 0 < d -> nearest float64 n d = FFin z -> representable float64 z.
Proof.
  intros Hd H. unfold nearest in H. destruct (Z.abs (round_units float64 n d) <? top float64) eqn:E; [|done]. injection H as <-. bool_prop.
  by apply round_repr; [apply format_float64| |].
Qed.

Lemma number_ok text v : _number text = Ok v -> literal_value_ok v.
Proof.
  unfold _number. destruct (integer_text text).
  - destruct (negb _) eqn:E; [done|]. cbn [raise_if mbind result_bind]. intros [= <-]. bool_prop. done.
  - destruct (isfinite (float_of_text text)) eqn:E; [|done]. cbn [negb raise_if mbind result_bind]. intros [= <-]. destruct (float_of_text text) as [z| |] eqn:Ef; try done.
    exists z. split; [done|]. unfold float_of_text in Ef. destruct (decimal_parts text) as [m e]. eapply nearest_finite; [|exact Ef]. apply Z.pow_pos_nonneg; lia.
Qed.

Lemma build_literal_ok l v : literal_ok l -> build_literal l = Ok v -> literal_value_ok v.
Proof.
  destruct l as [text|text| |]; cbn; intros Hl H; [by eapply number_ok| |by injection H as <-..]. injection H as <-.
  destruct Hl as (q & body & -> & _ & Hb). cbn. by rewrite removelast_last.
Qed.

Lemma build_literals_ok ls vs : ls <> [] -> Forall literal_ok ls -> map_res build_literal ls = Ok vs -> vs <> [] /\ Forall literal_value_ok vs.
Proof.
  intros Hne Hl H. split.
  - destruct ls as [|l ls]; [done|]. cbn in H. destruct (build_literal l); [|done]. cbn in H. destruct (map_res _ ls); [|done]. by injection H as <-.
  - clear Hne. revert vs H. induction Hl as [|l ls Hl _ IH]; intros vs H; cbn in H; [by injection H as <-|].
    destruct (build_literal l) as [v|] eqn:Ev; [|done]. cbn in H. destruct (map_res _ ls) as [vs'|] eqn:Es; [|done]. injection H as <-.
    constructor; [by eapply build_literal_ok|by apply IH].
Qed.

Lemma reads_column e r : predicate_ok e -> mentions e r -> column_name r.
Proof.
  intros Hok Hr. revert Hok. induction Hr as [ref op v b|ref vs b|e r _ IH|op es e r He _ IH]; intros Hok; inversion Hok; subst; [done|done|by apply IH|].
  apply IH. by eapply (proj1 (list.Forall_forall _ _)).
Qed.

Section TreeInduction.
Context (Q : ptree -> Prop).
Context (Hor : forall l, Forall Q l -> Q (or_expr l)) (Hand : forall l, Forall Q l -> Q (and_expr l)) (Hnot : forall t, Q t -> Q (not_op t))
  (Hcol : forall n op l, Q (col_first n op l)) (Hlit : forall l op n, Q (lit_first l op n))
  (Hin : forall n ls, Q (in_op n ls)) (Hnin : forall n ls, Q (not_in_op n ls)).
Lemma ptree_induction : forall t, Q t.
Proof.
  fix IH 1. intros [l|l|t|n op l|l op n|n ls|n ls]; [apply Hor|apply Hand|apply Hnot, IH|apply Hcol|apply Hlit|apply Hin|apply Hnin];
    induction l as [|t l IHl]; constructor; [apply IH|exact IHl|apply IH|exact IHl].
Qed.
End TreeInduction.

Fixpoint build_all (l : list ptree) : result (list WhenExpr) := match l with [] => Ok [] | t :: l => e ← _Build t; es ← build_all l; Ok (e :: es) end.
Lemma build_or l : _Build (or_expr l) = (es ← build_all l; Ok (BoolOp op_or es)).
Proof. done. Qed.
Lemma build_and l : _Build (and_expr l) = (es ← build_all l; Ok (BoolOp op_and es)).
Proof. done. Qed.

Lemma build_all_ok l es : Forall (fun t => forall e, tree_ok t -> _Build t = Ok e -> predicate_ok e) l -> Forall tree_ok l -> build_all l = Ok es ->
  length es = length l /\ Forall predicate_ok es.
Proof.
  revert es. induction l as [|t l IHl]; intros es HQ Hl H; cbn in H; [by injection H as <-|].
  inversion HQ; inversion Hl; subst. destruct (_Build t) as [e|] eqn:E; [|done]. cbn in H. destruct (build_all l) as [es'|] eqn:Es; [|done]. injection H as <-.
  destruct (IHl es') as [Hlen Hok]; [done..|]. cbn. split; [by f_equal|]. constructor; [eauto|done].
Qed.

Lemma build_ok t e : tree_ok t -> _Build t = Ok e -> predicate_ok e.
Proof.
  revert e. induction t as [l IH|l IH|t IH|n op l|l op n|n ls|n ls] using ptree_induction; intros e Ht H; inversion Ht; subst.
  - rewrite build_or in H. destruct (build_all l) as [es|] eqn:E; [|done]. injection H as <-. destruct (build_all_ok _ _ IH ltac:(done) E) as [Hlen Hok]. constructor; [lia|done].
  - rewrite build_and in H. destruct (build_all l) as [es|] eqn:E; [|done]. injection H as <-. destruct (build_all_ok _ _ IH ltac:(done) E) as [Hlen Hok]. constructor; [lia|done].
  - cbn in H. destruct (_Build t) as [e'|] eqn:E; [|done]. injection H as <-. constructor. by apply IH.
  - cbn in H. destruct (build_literal l) as [v|] eqn:Ev; [|done]. cbn in H. destruct (_name n) as [m|] eqn:En; [|done]. injection H as <-.
    destruct (name_ok n m) as [-> Hn]; [done..|]. constructor; [done..|by eapply build_literal_ok].
  - cbn in H. destruct (build_literal l) as [v|] eqn:Ev; [|done]. cbn in H. destruct (_name n) as [m|] eqn:En; [|done]. injection H as <-.
    destruct (name_ok n m) as [-> Hn]; [done..|]. constructor; [done..|by eapply build_literal_ok].
  - cbn in H. destruct (map_res build_literal ls) as [vs|] eqn:Ev; [|done]. cbn in H. destruct (_name n) as [m|] eqn:En; [|done]. injection H as <-.
    destruct (name_ok n m) as [-> Hn]; [done..|]. destruct (build_literals_ok ls vs) as [Hne Hvs]; [done..|]. by constructor.
  - cbn in H. destruct (map_res build_literal ls) as [vs|] eqn:Ev; [|done]. cbn in H. destruct (_name n) as [m|] eqn:En; [|done]. injection H as <-.
    destruct (name_ok n m) as [-> Hn]; [done..|]. destruct (build_literals_ok ls vs) as [Hne Hvs]; [done..|]. by constructor.
Qed.

(** ** Acceptance *)

Section Accepted.
Context `{LarkLaws}.

(** A text within the limits on its characters. *)
Definition text_ok (text : pystr) : Prop :=
  text <> [] /\ (10 ∉ text) /\ (13 ∉ text) /\ zlen text <= _MAX_EXPR_LENGTH /\ zlen (filter (fun c => c = 40) text) <= _MAX_NESTING_DEPTH.

Lemma parse_when_spec s e : parse_when (PStr s) = Ok e <->
  text_ok (strip s) /\ exists t, sentence (strip s) t /\ _Build t = Ok e /\ nesting e <= _MAX_TREE_DEPTH /\ comparisons_in e <= _MAX_COMPARISONS.
Proof.
  unfold parse_when, text_ok. set (text := strip s).
  destruct (bool_decide (text = [])) eqn:E1; bool_prop; cbn [raise_if mbind result_bind]; [split; [done|tauto]|].
  destruct (bool_decide (10 ∈ text \/ 13 ∈ text)) eqn:E2; bool_prop; cbn [raise_if mbind result_bind]; [split; [done|tauto]|].
  destruct (zlen text >? _MAX_EXPR_LENGTH) eqn:E3; bool_prop; cbn [raise_if mbind result_bind]; [split; [done|lia]|].
  destruct (zlen (filter _ text) >? _MAX_NESTING_DEPTH) eqn:E4; bool_prop; cbn [raise_if mbind result_bind]; [split; [done|lia]|].
  unfold parse_text. destruct (lark_parse text) as [t|] eqn:El.
  - apply lark_exact in El. destruct (_Build t) as [b|] eqn:Eb; cbn.
    + pose proof (check_size_exact b) as Hsize. destruct (_check_size b) as [[]|]; cbn in *.
      * destruct Hsize as [Hsize _]. destruct Hsize as [Hd Hcomp]; [done|]. split.
        -- intros [= <-]. split; [tauto|]. by exists t.
        -- intros [_ (t' & Ht' & Hb & _)]. apply lark_exact in El, Ht'. congruence.
      * split; [done|]. intros [_ (t' & Ht' & Hb & Hd & Hcomp)]. apply lark_exact in El, Ht'. assert (t' = t) by congruence. subst t'. assert (b = e) by congruence. subst b.
        destruct Hsize as [_ Hsize]. discriminate Hsize. done.
    + split; [done|]. intros [_ (t' & Ht' & Hb & _)]. apply lark_exact in El, Ht'. congruence.
  - split; [done|]. intros [_ (t' & Ht' & _)]. apply lark_exact in Ht'. congruence.
Qed.

Lemma parse_text_error text x : parse_text text = Err x -> x = _reject.
Proof.
  unfold parse_text. destruct (lark_parse text) as [t|]; [|by intros [= <-]]. destruct (_Build t) as [b|]; cbn; [|by intros [= <-]].
  destruct (_check_size b); cbn; [done|by intros [= <-]].
Qed.

Lemma guard_error {A} b e (m : result A) x : (_ ← raise_if b e; m) = Err x -> x = e \/ m = Err x.
Proof. destruct b; cbn; [intros [= <-]; by left|by right]. Qed.

Lemma parse_when_error v x : parse_when v = Err x -> x = _reject.
Proof.
  destruct v as [| | |s| | |]; try (by intros [= <-]).
  intros [?|[?|[?|[?|?%parse_text_error]%guard_error]%guard_error]%guard_error]%guard_error; done.
Qed.

(** C18: Whatever is given as a predicate, it is refused with the one code, or it is
    well-formed: comparisons of a column with a literal and memberships in non-empty lists,
    combined by at most fifty levels of not, and, or, thirty-two comparisons in all; every
    column it reads, and it lists exactly those, is an identifier that pandas reads as a
    column, and every literal is a plain string, a truth value, a 64-bit integer or a finite
    float. *)
Theorem accepted_predicates_safe v :
  match parse_when v with
  | Ok e =>
      predicate_ok e /\ nesting e <= 50 /\ comparisons_in e <= 32 /\
      NoDup (when_column_refs e) /\ (forall r, r ∈ when_column_refs e <-> mentions e r) /\ Forall column_name (when_column_refs e)
  | Err x => x = _reject
  end.
Proof.
  destruct (parse_when v) as [e|x] eqn:E; [|by eapply parse_when_error].
  destruct v as [| | |s| | |]; try done. apply parse_when_spec in E as (_ & t & (ts & l & Hts & Hd & ->) & Hb & Hdepth & Hcomp).
  apply tokens_ok in Hts. destruct (derive_ok _ _ _ Hd Hts) as [Hne Hl].
  assert (Hok : predicate_ok e) by (eapply build_ok; [apply inlined_ok; [exact Hne|exact Hl|by constructor]|exact Hb]).
  split; [done|]. split; [done|]. split; [done|]. split; [apply refs_nodup|]. split; [apply refs_exact|].
  apply list.Forall_forall. intros r Hr%refs_exact. by eapply reads_column.
Qed.
End Accepted.

Lemma accepted_predicates_safe_witness :
  @parse_when descent_lark (PStr (py " a == 1.5 and not b in ['x', 'y'] ")) =
    Ok (BoolOp op_and [Compare (py "a") (py "==") (SFloat (FFin (3 * 2 ^ 1073))) false; Not (InList (py "b") [SStr (py "x"); SStr (py "y")] false)]) /\
  @parse_when descent_lark (PStr (py "index == 1")) = Err _reject /\
  match @parse_when descent_lark (PStr (py " a == 1.5 and not b in ['x', 'y'] ")) with
  | Ok e =>
      predicate_ok e /\ nesting e <= 50 /\ comparisons_in e <= 32 /\
      NoDup (when_column_refs e) /\ (forall r, r ∈ when_column_refs e <-> mentions e r) /\ Forall column_name (when_column_refs e)
  | Err x => x = _reject
  end.
Proof.
  split; [by vm_compute|]. split; [by vm_compute|].
  exact (@accepted_predicates_safe descent_lark descent_laws (PStr (py " a == 1.5 and not b in ['x', 'y'] "))).
Defined.
