(* ===== verification/WhenText.v ===== *)
(** * The text of a predicate

    Every well-formed predicate can be written: its text, if it keeps to the parser's
    limits, is parsed back to it. Floats are written exactly, as an integer and the least power of ten they
    have. *)

From S2P Require Import Prelude Numerals PyText PyData Floats When WhenGrammar WhenTheory.

(** ** Writing *)

Definition is_boolop (e : WhenExpr) : bool := match e with BoolOp _ _ => true | _ => false end.

(** The factors of two taken out of a number of [2^-n] units: what is left, in units of
    [2^-k]. *)
Fixpoint reduced (n : nat) (z : Z) : Z * nat :=
  match n with
  | S n' => if Z.even z then reduced n' (z / 2) else (z, n)
  | O => (z, O)
  end.

(** A finite float is [z * 2^-1074], which is [m * 2^-k], which is [m * 5^k * 10^-k]. *)
Definition float_literal (z : Z) : pystr :=
  let '(m, k) := reduced 1074 z in str_int (m * 5 ^ Z.of_nat k) ++ py "e-" ++ str_int (Z.of_nat k).

Definition literal_terminal (v : Scalar) : lexeme :=
  match v with
  | SInt n => NUMBER (str_int n)
  | SFloat (FFin z) => NUMBER (float_literal z)
  | SFloat _ => COMMA
  | SStr s => STRING (39 :: s ++ [39])
  | SBool b => if b then K_true else K_false
  end.

Fixpoint list_terminals (vs : list Scalar) : list lexeme :=
  match vs with [] => [] | [v] => [literal_terminal v] | v :: vs => literal_terminal v :: COMMA :: list_terminals vs end.

(** The operands of and, or and not in parentheses when they are and, or. *)
Fixpoint written (e : WhenExpr) : list lexeme :=
  let operand e := if is_boolop e then LPAR :: written e ++ [RPAR] else written e in
  match e with
  | Compare ref op v false => [IDENT ref; CMP op; literal_terminal v]
  | Compare ref op v true => [literal_terminal v; CMP op; IDENT ref]
  | InList ref vs negated => IDENT ref :: (if negated then [K_not] else []) ++ K_in :: LSQB :: list_terminals vs ++ [RSQB]
  | Not e => K_not :: operand e
  | BoolOp op es =>
      (fix go es := match es with
        | [] => []
        | [e] => operand e
        | e :: es => operand e ++ (match op with op_and => K_and | op_or => K_or end) :: go es end) es
  end.
Definition operand (e : WhenExpr) : list lexeme := if is_boolop e then LPAR :: written e ++ [RPAR] else written e.
Definition operands (op : bool_op) : list WhenExpr -> list lexeme :=
  fix go es := match es with [] => [] | [e] => operand e | e :: es => operand e ++ (match op with op_and => K_and | op_or => K_or end) :: go es end.

Definition terminal_text (t : lexeme) : pystr :=
  match t with
  | K_or => py "or" | K_and => py "and" | K_not => py "not" | K_in => py "in" | K_true => py "True" | K_false => py "False"
  | LPAR => [40] | RPAR => [41] | LSQB => [91] | RSQB => [93] | COMMA => [44]
  | CMP op => op | IDENT name => name | NUMBER text => text | STRING text => text
  end.
Fixpoint spaced (ts : list lexeme) : pystr :=
  match ts with [] => [] | [t] => terminal_text t | t :: ts => terminal_text t ++ 32 :: spaced ts end.

(** The text of a predicate. *)
Definition show (e : WhenExpr) : pystr := spaced (written e).

(** ** The text is read as its terminals *)

Definition stops (p : Z -> bool) (rest : pystr) : Prop := match rest with c :: _ => p c = false | [] => True end.
Definition separated (rest : pystr) : Prop := match rest with c :: _ => c = 32 | [] => True end.

Lemma separated_stops p rest : p 32 = false -> separated rest -> stops p rest.
Proof. destruct rest as [|c rest]; [done|]. cbn. by intros H ->. Qed.

Lemma span_stop p a rest : forallb p a = true -> stops p rest -> span_of p (a ++ rest) = (a, rest).
Proof.
  intros Ha Hr. induction a as [|c a IH]; cbn in *.
  - destruct rest as [|c rest]; [done|]. cbn in *. by rewrite Hr.
  - apply andb_true_iff in Ha as [Hc Ha]. by rewrite Hc, IH.
Qed.

(** A text that is read as a number wherever it ends. *)
Definition reads_number (text : pystr) : Prop :=
  (exists c cs, text = c :: cs /\ (c = 45 \/ digit_char c = true)) /\ (exists c cs, text = cs ++ [c] /\ digit_char c = true) /\
  Forall (fun c => c = 45 \/ c = 101 \/ digit_char c = true) text /\
  forall rest, separated rest -> number_text (text ++ rest) = Some (text, rest).

Definition readable (t : lexeme) : Prop := terminal_ok t /\ match t with NUMBER text => reads_number text | _ => True end.

Lemma dec_head x : 0 <= x -> exists d ds, dec_digits x = d :: ds /\ 0 <= d < 10 /\ (d = 0 -> ds = []) /\ Forall (in_radix 10) ds.
Proof.
  intros Hx. destruct (dec_digits_spec x Hx) as [Hv Hr Hp Hm]. destruct (dec_digits x) as [|d ds]; [done|]. inversion Hr as [|? ? Hd Hds]; subst.
  exists d, ds. split; [done|]. split; [exact Hd|]. split; [|done]. intros ->. destruct Hm as [Hm|Hm].
  - destruct ds; [done|]. unfold zlen in Hm. cbn in Hm. lia.
  - exfalso. pose proof (pos_val_bound 10 ds ltac:(lia) Hds) as Hb. unfold pos_val in Hm, Hb. cbn in Hm. unfold zlen in *. cbn [length] in *.
    replace (Z.of_nat (S (length ds)) - 1) with (Z.of_nat (length ds)) in Hm by lia.
    change (0 * 10 + 0) with 0 in Hm. lia.
Qed.

Lemma digit_chars_all l : Forall (in_radix 10) l -> forallb digit_char (digit_chars l) = true.
Proof.
  intros H. apply forallb_forall. intros c Hc%list_elem_of_In. apply list_elem_of_fmap in Hc as (d & -> & Hd).
  pose proof (proj1 (list.Forall_forall _ _) H d Hd) as Hr. unfold in_radix in Hr. unfold digit_char. lia.
Qed.

Lemma integer_part_digits x rest : 0 <= x -> stops digit_char rest ->
  integer_part (digit_chars (dec_digits x) ++ rest) = Some (digit_chars (dec_digits x), rest).
Proof.
  intros Hx Hr. destruct (dec_head x Hx) as (d & ds & -> & Hd & H0 & Hds). cbn [digit_chars fmap list_fmap app integer_part].
  destruct (Z.eqb_spec (48 + d) 48) as [E|E].
  - rewrite (H0 ltac:(lia)). replace d with 0 by lia. done.
  - replace (digit_char (48 + d)) with true by (unfold digit_char; lia).
    change (48 + d :: (Z.add 48 <$> ds) ++ rest) with (digit_chars (d :: ds) ++ rest). rewrite span_stop; [done| |done].
    apply digit_chars_all. constructor; [exact Hd|done].
Qed.

Lemma digits_not_sign x rest : 0 <= x -> exists c cs, digit_chars (dec_digits x) ++ rest = c :: cs /\ 48 <= c < 58.
Proof. intros Hx. destruct (dec_head x Hx) as (d & ds & -> & Hd & _). exists (48 + d), ((Z.add 48 <$> ds) ++ rest). split; [done|lia]. Qed.

(** A sign and the digits of the absolute value. *)
Lemma str_int_sign n : str_int n = minus (n <? 0) ++ digit_chars (dec_digits (Z.abs n)).
Proof. unfold str_int. destruct (Z.ltb_spec n 0); cbn; by rewrite ?Z.abs_neq, ?Z.abs_eq by lia. Qed.

Lemma minus_split n rest : minus_part (str_int n ++ rest) = (n <? 0, digit_chars (dec_digits (Z.abs n)) ++ rest).
Proof.
  rewrite str_int_sign. destruct (n <? 0); [done|]. cbn [minus app]. destruct (digits_not_sign (Z.abs n) rest) as (c & cs & -> & Hc); [lia|].
  cbn. by replace (c =? 45) with false by lia.
Qed.

(** A sign, digits without a leading zero and what may come after them. *)
Lemma number_text_int n rest rest' after : stops digit_char rest -> fraction_part rest = ([], rest) -> exponent_part rest = (rest', after) ->
  number_text (str_int n ++ rest) = Some (str_int n ++ rest', after).
Proof.
  intros Hr Hf He. unfold number_text. rewrite minus_split, integer_part_digits by (done || lia).
  rewrite Hf, He. by rewrite (str_int_sign n), <- app_assoc.
Qed.

Lemma separated_plain rest : separated rest ->
  stops digit_char rest /\ stops ident_char rest /\ fraction_part rest = ([], rest) /\ exponent_part rest = ([], rest).
Proof. destruct rest as [|c rest]; [done|]. by cbn; intros ->. Qed.

(** How an integer's text begins, ends and what it is made of. *)
Definition numeral_char (c : Z) : Prop := c = 45 \/ c = 101 \/ digit_char c = true.
Lemma str_int_ends n :
  (exists c cs, str_int n = c :: cs /\ (c = 45 \/ digit_char c = true)) /\ (exists c cs, str_int n = cs ++ [c] /\ digit_char c = true) /\
  Forall (fun c => c = 45 \/ digit_char c = true) (str_int n).
Proof.
  rewrite str_int_sign. set (x := Z.abs n). assert (Hx : 0 <= x) by lia. destruct (digits_not_sign x [] Hx) as (c & cs & Hc & Hd). rewrite app_nil_r in Hc.
  assert (Hall : forallb digit_char (digit_chars (dec_digits x)) = true) by (apply digit_chars_all; by destruct (dec_digits_spec x Hx)).
  assert (Hsign : Forall (fun c => c = 45 \/ digit_char c = true) (minus (n <? 0))) by (destruct (n <? 0); repeat constructor).
  rewrite Hc in *. split; [|split].
  - destruct (n <? 0); cbn; do 2 eexists; (split; [done|]); [by left|right; unfold digit_char; lia].
  - destruct (exists_last (l := c :: cs) ltac:(done)) as (a & d & E). exists d, (minus (n <? 0) ++ a). rewrite E, <- app_assoc. split; [done|].
    rewrite E, forallb_app in Hall. cbn in Hall. by destruct (digit_char d); [|rewrite andb_false_r in Hall].
  - apply Forall_app. split; [done|]. apply list.Forall_forall. intros d Hd'%list_elem_of_In. right. by eapply (proj1 (forallb_forall _ _) Hall).
Qed.

Lemma reads_int n : reads_number (str_int n).
Proof.
  destruct (str_int_ends n) as (H1 & H2 & H3). split; [done|]. split; [done|]. split; [eapply list.Forall_impl; [exact H3|]; cbn; tauto|].
  intros rest Hr. destruct (separated_plain rest Hr) as (Hd & _ & Hf & He). rewrite (number_text_int n rest [] rest) by done. by rewrite app_nil_r.
Qed.

Lemma str_int_nat k : str_int (Z.of_nat k) = digit_chars (dec_digits (Z.of_nat k)).
Proof. rewrite str_int_sign, Z.abs_eq by lia. by destruct (Z.ltb_spec (Z.of_nat k) 0); [lia|]. Qed.

Lemma nat_digits k : forallb digit_char (digit_chars (dec_digits (Z.of_nat k))) = true.
Proof. apply digit_chars_all. destruct (dec_digits_spec (Z.of_nat k)); [lia|done]. Qed.

Lemma exponent_read k rest : stops digit_char rest ->
  exponent_part (py "e-" ++ str_int (Z.of_nat k) ++ rest) = (py "e-" ++ str_int (Z.of_nat k), rest).
Proof.
  intros Hr. change (py "e-" ++ str_int (Z.of_nat k) ++ rest) with (101 :: 45 :: str_int (Z.of_nat k) ++ rest).
  destruct (str_int_ends (Z.of_nat k)) as ((c & cs & E & _) & _). unfold exponent_part, sign_part. cbn [Z.eqb orb Pos.eqb].
  rewrite (span_stop digit_char); [by rewrite E|rewrite str_int_nat; apply nat_digits|done].
Qed.

Lemma reads_float z : reads_number (float_literal z).
Proof.
  unfold float_literal. destruct (reduced 1074 z) as [m k].
  destruct (str_int_ends (m * 5 ^ Z.of_nat k)) as ((c & cs & E & Hc) & _ & H3).
  destruct (str_int_ends (Z.of_nat k)) as (_ & (d & ds & Ek & Hd) & Hk). split; [|split; [|split]].
  - rewrite E. by exists c, (cs ++ py "e-" ++ str_int (Z.of_nat k)).
  - exists d, (str_int (m * 5 ^ Z.of_nat k) ++ py "e-" ++ ds). split; [by rewrite Ek, !app_assoc|done].
  - rewrite !Forall_app. split; [|split]; [| |]; try (eapply list.Forall_impl; [eassumption|]; unfold numeral_char; cbn; tauto).
    by repeat constructor; auto.
  - intros rest Hr. destruct (separated_plain rest Hr) as (Hd' & _). rewrite <- !app_assoc.
    apply number_text_int; [done|done|]. by apply exponent_read.
Qed.

(** *** One terminal *)

Lemma digit_first c s : c = 45 \/ digit_char c = true ->
  first_terminal (c :: s) = match number_text (c :: s) with Some (text, rest) => Some (NUMBER text, rest) | None => None end.
Proof.
  intros H. assert (E : ident_start c = false /\ (c =? 39) || (c =? 34) = false /\ punctuation c = None /\ bool_decide (c ∈ [61; 33; 60; 62]) = false /\ (c =? 60) || (c =? 62) = false).
  { destruct H as [->|H]; [by_decide|]. unfold digit_char in H. unfold ident_start, punctuation. repeat split; [lia|lia| | |lia].
    - by repeat (case_match; bool_prop; [lia|]).
    - apply bool_decide_eq_false_2. rewrite !elem_of_cons, elem_of_nil. lia. }
  destruct E as (E1 & E2 & E3 & E4 & E5). cbn [first_terminal]. rewrite E1, E2, E3.
  assert (Hcmp : comparison (c :: s) = None).
  { unfold comparison. destruct s as [|d s]; [by rewrite E5|]. destruct (Z.eq_dec d 61) as [->|Hd]; [by rewrite E4|].
    destruct d as [|d|d]; try by rewrite E5. by repeat (destruct d as [d|d|]; try by rewrite E5). }
  by rewrite Hcmp.
Qed.

Lemma name_read name rest : identifier name -> separated rest -> first_terminal (name ++ rest) = Some (keyword name, rest).
Proof.
  intros (c & cs & -> & Hc & Hcs) Hr. cbn [app first_terminal]. rewrite Hc.
  change (c :: cs ++ rest) with ((c :: cs) ++ rest). rewrite span_stop; [done| |by apply separated_plain].
  cbn [forallb]. unfold ident_char at 1. by rewrite Hc.
Qed.

Lemma operator_read op rest : op ∈ OPERATORS -> separated rest -> first_terminal (op ++ rest) = Some (CMP op, rest).
Proof.
  intros H Hr. unfold OPERATORS in H. cbn in H.
  repeat (apply elem_of_cons in H as [->|H]; [destruct rest as [|c rest]; [done|cbn in Hr; by subst c]|]). by apply elem_of_nil in H.
Qed.

Lemma string_read q body rest : q = 39 \/ q = 34 -> forallb string_char body = true -> first_terminal ((q :: body ++ [q]) ++ rest) = Some (STRING (q :: body ++ [q]), rest).
Proof.
  intros Hq Hb. cbn [app first_terminal]. rewrite <- app_assoc. cbn [app].
  rewrite (span_stop string_char body (q :: rest)); [|done|by destruct Hq as [-> | ->]].
  by destruct Hq as [-> | ->].
Qed.

Lemma terminal_read t rest : readable t -> separated rest -> first_terminal (terminal_text t ++ rest) = Some (t, rest).
Proof.
  intros [Hok Hnum] Hr.
  assert (Hword : forall word, (exists c cs, py word = c :: cs /\ ident_start c = true /\ forallb ident_char cs = true) -> keyword (py word) = t ->
    first_terminal (py word ++ rest) = Some (t, rest)) by (intros word Hw <-; by apply name_read).
  destruct t as [| | | | | | | | | | |op|name|text|text]; try (apply Hword; [by do 2 eexists|done]); try done; cbn [terminal_text].
  - by apply operator_read.
  - destruct Hok as [Hid Hk]. rewrite name_read by done. by rewrite Hk.
  - destruct Hnum as ((c & cs & E & Hc) & _ & _ & Hread). specialize (Hread rest Hr). rewrite E in *. cbn [app] in *. rewrite digit_first by done. by rewrite Hread.
  - destruct Hok as (q & body & -> & Hq & Hb). by apply string_read.
Qed.

(** *** A whole text *)

Definition solid (s : pystr) : Prop :=
  (exists c cs, s = c :: cs /\ py_space c = false) /\ (exists c cs, s = cs ++ [c] /\ py_space c = false) /\ Forall (fun c => c <> 10 /\ c <> 13) s.

Lemma plain_char c : 33 <= c < 127 -> py_space c = false /\ c <> 10 /\ c <> 13.
Proof. intros H. split; [|lia]. apply bool_decide_eq_false_2. rewrite !elem_of_cons, elem_of_nil. lia. Qed.

Lemma solid_plain s : s <> [] -> Forall (fun c => 33 <= c < 127) s -> solid s.
Proof.
  intros Hne H. split; [|split].
  - destruct H as [|c cs Hc _]; [done|]. exists c, cs. split; [done|by apply plain_char].
  - destruct (exists_last Hne) as (cs & c & ->). exists c, cs. split; [done|]. apply Forall_app in H as [_ H]. inversion H; subst. by apply plain_char.
  - eapply list.Forall_impl; [exact H|]. intros c Hc. by apply plain_char.
Qed.

Lemma ident_plain name : identifier name -> solid name.
Proof.
  intros (c & cs & -> & Hc & Hcs). apply solid_plain; [done|]. assert (Hr : forall d, ident_char d = true -> 33 <= d < 127).
  { intros d H. unfold ident_char, ident_start, digit_char in H. lia. }
  constructor; [apply Hr; unfold ident_char; by rewrite Hc|]. apply list.Forall_forall. intros d Hd%list_elem_of_In. apply Hr. by eapply (proj1 (forallb_forall _ _) Hcs).
Qed.

Lemma quoted_solid text : quoted text -> solid text.
Proof.
  intros (q & body & -> & Hq & Hb). assert (Hs : py_space q = false /\ q <> 10 /\ q <> 13) by (apply plain_char; lia). split; [|split].
  - exists q, (body ++ [q]). tauto.
  - exists q, (q :: body). tauto.
  - constructor; [tauto|]. apply Forall_app. split; [|by repeat constructor; tauto]. apply list.Forall_forall. intros c Hc%list_elem_of_In.
    apply (proj1 (forallb_forall _ _) Hb) in Hc. unfold string_char in Hc. lia.
Qed.

Lemma terminal_solid t : readable t -> solid (terminal_text t).
Proof.
  intros [Hok Hnum]. destruct t as [| | | | | | | | | | |op|name|text|text]; try (apply solid_plain; [done|by repeat constructor; cbn; lia]); cbn [terminal_text].
  - cbn in Hok. unfold OPERATORS in Hok. cbn in Hok. 
    repeat (apply elem_of_cons in Hok as [->|Hok]; [apply solid_plain; [done|by repeat constructor; cbn; lia]|]). by apply elem_of_nil in Hok.
  - apply ident_plain, Hok.
  - destruct Hnum as ((c & cs & E & _) & _ & H & _). apply solid_plain; [by rewrite E|]. eapply list.Forall_impl; [exact H|]. intros d Hd. unfold digit_char in Hd. lia.
  - by apply quoted_solid.
Qed.

Lemma blank_space c : py_space c = false -> blank c = false.
Proof. intros H. unfold blank. destruct (Z.eqb_spec c 32) as [->|]; [done|]. destruct (Z.eqb_spec c 9) as [->|]; done. Qed.

Lemma spaced_cons t ts : spaced (t :: ts) = terminal_text t ++ (if ts is [] then [] else 32 :: spaced ts).
Proof. destruct ts; [by rewrite app_nil_r|done]. Qed.

Lemma terminals_spaced fuel ts : Forall readable ts -> (length (spaced ts) <= fuel)%nat -> terminals fuel (spaced ts) = Some ts.
Proof.
  revert fuel. induction ts as [|t ts IH]; intros fuel Hts Hf; [by destruct fuel|]. inversion Hts as [|? ? Ht Hts']; subst.
  rewrite spaced_cons in *. set (rest := match ts with [] => [] | _ => 32 :: spaced ts end) in *.
  destruct (terminal_solid t Ht) as [(c & cs & E & Hc) _]. pose proof (terminal_read t rest Ht) as Hread. rewrite E in *. cbn [app] in *.
  destruct fuel as [|fuel]; [cbn in Hf; lia|]. cbn [terminals]. rewrite (blank_space c Hc), Hread by (by destruct ts). cbn [length] in Hf. rewrite length_app in Hf.
  assert (Hrest : terminals fuel rest = Some ts); [|by rewrite Hrest].
  subst rest. destruct ts as [|u ts]; [by destruct fuel|]. cbn [length] in Hf. destruct fuel as [|fuel]; [lia|]. cbn [terminals]. apply IH; [done|lia].
Qed.

Lemma tokens_spaced ts : Forall readable ts -> tokens (spaced ts) = Some ts.
Proof. intros H. by apply terminals_spaced. Qed.

Lemma spaced_solid ts : ts <> [] -> Forall readable ts -> solid (spaced ts).
Proof.
  intros Hne H. induction H as [|t ts Ht Hts IH]; [done|]. rewrite spaced_cons. destruct (terminal_solid t Ht) as ((c & cs & E & Hc) & (d & ds & E' & Hd) & Hall).
  destruct ts as [|u ts]; [rewrite app_nil_r; by apply terminal_solid|]. destruct IH as (_ & (b & bs & Eb & Hb) & Hall'); [done|]. split; [|split].
  - rewrite E. by do 2 eexists.
  - exists b, (terminal_text t ++ 32 :: bs). rewrite Eb, <- app_assoc. done.
  - apply Forall_app. split; [done|]. by constructor.
Qed.

Lemma strip_solid s : solid s -> strip s = s.
Proof.
  intros ((c & cs & E & Hc) & (d & ds & E' & Hd) & _). unfold strip. assert (Hl : lstrip s = s) by (rewrite E; cbn; by rewrite Hc).
  rewrite Hl, E', rev_app_distr. cbn. rewrite Hd. cbn. by rewrite rev_involutive.
Qed.

(** ** Literals are read back *)

Lemma int_text_digits x : 0 <= x -> int_digits (digit_chars (dec_digits x)) = x.
Proof. intros Hx. rewrite int_digits_chars. by destruct (dec_digits_spec x Hx). Qed.

Lemma int_text_str n : int_of_text (str_int n) = n.
Proof.
  unfold int_of_text. pose proof (minus_split n []) as H. rewrite !app_nil_r in H. rewrite H, int_text_digits by lia. destruct (Z.ltb_spec n 0); lia.
Qed.

Lemma int_read n : _INT64_MIN <= n <= _INT64_MAX -> _number (str_int n) = Ok (SInt n).
Proof.
  intros Hn. unfold _number. replace (integer_text (str_int n)) with true.
  - rewrite int_text_str. by replace ((_INT64_MIN <=? n) && (n <=? _INT64_MAX)) with true by lia.
  - symmetry. apply forallb_forall. intros c Hc%list_elem_of_In. destruct (str_int_ends n) as (_ & _ & H).
    pose proof (proj1 (list.Forall_forall _ _) H c Hc) as Hd. cbn in Hd. destruct Hd as [-> | ->]; [done|]. apply orb_true_r.
Qed.

Lemma decimal_float m k : decimal_parts (str_int m ++ py "e-" ++ str_int (Z.of_nat k)) = (m, - Z.of_nat k).
Proof.
  unfold decimal_parts. rewrite minus_split.
  rewrite (span_stop digit_char); [|apply digit_chars_all; destruct (dec_digits_spec (Z.abs m)); [lia|done]|done].
  change (match py "e-" ++ str_int (Z.of_nat k) with 46 :: s' => span_of digit_char s' | _ => ([], py "e-" ++ str_int (Z.of_nat k)) end)
    with (@nil Z, py "e-" ++ str_int (Z.of_nat k)).
  cbv iota beta. rewrite app_nil_r, int_text_digits by lia.
  change (match py "e-" ++ str_int (Z.of_nat k) with
          | _ :: 45 :: s' => - int_digits s' | _ :: 43 :: s' => int_digits s' | _ :: s' => int_digits s' | [] => 0 end)
    with (- int_digits (str_int (Z.of_nat k))).
  rewrite str_int_nat, int_text_digits by lia. f_equal; [destruct (Z.ltb_spec m 0); lia|change (zlen []) with 0; lia].
Qed.

Lemma reduced_spec n z : exists m k, reduced n z = (m, k) /\ (k <= n)%nat /\ z = m * 2 ^ Z.of_nat (n - k).
Proof.
  revert z. induction n as [|n IH]; intros z; cbn [reduced].
  { exists z, O. split; [done|]. split; [lia|]. cbn. lia. }
  destruct (Z.even z) eqn:E.
  - destruct (IH (z / 2)) as (m & k & H & Hk & Hz). exists m, k. split; [done|]. split; [lia|].
    replace (S n - k)%nat with (S (n - k)) by lia. rewrite Nat2Z.inj_succ, Z.pow_succ_r by lia.
    apply Z.even_spec in E as [q ->]. replace (2 * q) with (q * 2) in * by lia. rewrite Z.div_mul in Hz by lia. lia.
  - exists z, (S n). split; [done|]. split; [lia|]. rewrite Nat.sub_diag. cbn. lia.
Qed.

Lemma nearest_exact n d z : 0 < d -> representable float64 z -> n = z * d -> nearest float64 n d = FFin z.
Proof.
  intros Hd Hz ->. pose proof (round_low float64 format_float64 (z * d) d z Hd Hz ltac:(lia)) as H1. pose proof (round_high float64 format_float64 (z * d) d z Hd Hz ltac:(lia)) as H2.
  unfold nearest. replace (round_units float64 (z * d) d) with z by lia. pose proof (top_gt_max _ _ Hz). by replace (Z.abs z <? top float64) with true by lia.
Qed.

Lemma float_read z : representable float64 z -> _number (float_literal z) = Ok (SFloat (FFin z)).
Proof.
  intros Hz. unfold float_literal. destruct (reduced_spec 1074 z) as (m & k & -> & Hk & Em). unfold _number.
  replace (integer_text _) with false.
  2: { unfold integer_text. rewrite forallb_app. symmetry. apply andb_false_iff. by right. }
  unfold float_of_text. rewrite decimal_float. rewrite (nearest_exact _ _ z); [done|apply Z.pow_pos_nonneg; lia|done|].
  replace (Z.max 0 (- Z.of_nat k)) with 0 by lia. replace (Z.max 0 (- - Z.of_nat k)) with (Z.of_nat k) by lia.
  rewrite Z.pow_0_r, Z.mul_1_r. change (tiny float64) with 1074. change 10 with (5 * 2). rewrite Z.pow_mul_l, Em.
  replace 1074 with (Z.of_nat (1074 - k) + Z.of_nat k) at 1 by lia. rewrite Z.pow_add_r by lia. ring.
Qed.

(** ** Predicates are read back *)

Definition literal_tree (v : Scalar) : when_literal := match literal_of (literal_terminal v) with Some l => l | None => true_lit end.
Fixpoint tree (e : WhenExpr) : ptree :=
  match e with
  | Compare ref op v false => col_first ref op (literal_tree v)
  | Compare ref op v true => lit_first (literal_tree v) op ref
  | InList ref vs false => in_op ref (literal_tree <$> vs)
  | InList ref vs true => not_in_op ref (literal_tree <$> vs)
  | Not e => not_op (tree e)
  | BoolOp op_and es => and_expr (tree <$> es)
  | BoolOp op_or es => or_expr (tree <$> es)
  end.

Lemma written_not e : written (Not e) = K_not :: operand e.
Proof. done. Qed.
Lemma written_op op es : written (BoolOp op es) = operands op es.
Proof. done. Qed.
Lemma operands_cons op e es : es <> [] -> operands op (e :: es) = operand e ++ (match op with op_and => K_and | op_or => K_or end) :: operands op es.
Proof. by destruct es. Qed.

Lemma scalar_literal v : literal_value_ok v -> literal_of (literal_terminal v) = Some (literal_tree v).
Proof. unfold literal_tree. destruct v as [n|x|s|b]; cbn; try done; [by intros (z & -> & _)|by destruct b]. Qed.

Lemma list_literals vs : vs <> [] -> Forall literal_value_ok vs -> literal_list (list_terminals vs) (literal_tree <$> vs).
Proof.
  intros Hne H. induction H as [|v vs Hv Hvs IH]; [done|]. destruct vs as [|w vs]; [constructor; by apply scalar_literal|].
  change (list_terminals (v :: w :: vs)) with (literal_terminal v :: COMMA :: list_terminals (w :: vs)). constructor; [by apply scalar_literal|by apply IH].
Qed.

(** What is written alone, and what stands between and, or, not. *)
Definition derived (e : WhenExpr) : Prop :=
  (exists l, derives Or (written e) l /\ inlined or_expr l = tree e) /\ derives NotExpr (operand e) [tree e].

Lemma derived_simple e : is_boolop e = false -> derives NotExpr (written e) [tree e] -> derived e.
Proof.
  intros He H. split; [|unfold operand; by rewrite He]. exists [inlined and_expr [tree e]]. split; [|done]. by do 2 constructor.
Qed.
Lemma derived_boolop e : is_boolop e = true -> (exists l, derives Or (written e) l /\ inlined or_expr l = tree e) -> derived e.
Proof. intros He (l & H & El). split; [by exists l|]. unfold operand. rewrite He, <- El. by constructor. Qed.

Lemma all_or es : es <> [] -> Forall derived es -> derives Or (operands op_or es) (tree <$> es).
Proof.
  intros Hne H. induction H as [|e es [_ He] Hes IH]; [done|]. assert (Ha : derives And (operand e) [tree e]) by by constructor.
  destruct es as [|e' es]; [by apply (D_or_one _ [tree e])|]. rewrite operands_cons by done. apply (D_or _ _ [tree e]); [done|by apply IH].
Qed.
Lemma all_and es : es <> [] -> Forall derived es -> derives And (operands op_and es) (tree <$> es).
Proof.
  intros Hne H. induction H as [|e es [_ He] Hes IH]; [done|].
  destruct es as [|e' es]; [by constructor|]. rewrite operands_cons by done. constructor; [done|by apply IH].
Qed.

Lemma written_derived e : predicate_ok e -> derived e.
Proof.
  induction e as [ref op v b|ref vs b|e IH|op es IH] using predicate_ind; intros Hok; inversion Hok; subst.
  - apply derived_simple; [done|]. destruct b; constructor; by apply scalar_literal.
  - apply derived_simple; [done|]. destruct b; constructor; by apply list_literals.
  - apply derived_simple; [done|]. rewrite written_not. constructor. by apply IH.
  - apply derived_boolop; [done|]. rewrite written_op. assert (Hes : Forall derived es) by (rewrite list.Forall_forall in *; auto).
    destruct es as [|e [|e' es]]; cbn [length] in *; try lia. destruct op.
    + exists [inlined and_expr (tree <$> e :: e' :: es)]. split; [|done]. constructor. by apply all_and.
    + exists (tree <$> e :: e' :: es). split; [|done]. by apply all_or.
Qed.

Lemma readable_simple t : terminal_ok t -> (if t is NUMBER _ then False else True) -> readable t.
Proof. intros H Hn. split; [done|by destruct t]. Qed.

Lemma column_readable ref : column_name ref -> readable (IDENT ref).
Proof.
  intros (Hid & _ & Hres). apply readable_simple; [|done]. split; [done|]. unfold keyword.
  assert (Hne : forall word, py word ∈ RESERVED_NAMES -> bool_decide (ref = py word) = false) by (intros word Hw; apply bool_decide_eq_false_2; by intros ->).
  rewrite !Hne; [done|apply (bool_decide_unpack _); vm_compute; exact I..].
Qed.

Lemma scalar_readable v : literal_value_ok v -> readable (literal_terminal v).
Proof.
  destruct v as [n|x|s|b]; cbn.
  - intros _. split; [done|apply reads_int].
  - intros (z & -> & _). split; [done|apply reads_float].
  - intros Hs. apply readable_simple; [|done]. exists 39, s. auto.
  - intros _. by destruct b.
Qed.

Lemma list_readable vs : Forall literal_value_ok vs -> Forall readable (list_terminals vs).
Proof.
  induction 1 as [|v vs Hv Hvs IH]; [constructor|]. destruct vs as [|w vs]; [repeat constructor; by apply scalar_readable|].
  change (list_terminals (v :: w :: vs)) with (literal_terminal v :: COMMA :: list_terminals (w :: vs)).
  constructor; [by apply scalar_readable|]. constructor; [by apply readable_simple|done].
Qed.

Lemma operand_readable e : Forall readable (written e) -> Forall readable (operand e).
Proof.
  intros H. unfold operand. destruct (is_boolop e); [|done]. constructor; [by apply readable_simple|].
  apply Forall_app. split; [done|]. constructor; [by apply readable_simple|constructor].
Qed.

Lemma operands_readable op es : Forall (fun e => Forall readable (written e)) es -> Forall readable (operands op es).
Proof.
  induction 1 as [|e es He Hes IH]; [constructor|]. apply operand_readable in He. destruct es as [|e' es]; [done|]. rewrite operands_cons by done.
  apply Forall_app. split; [done|]. constructor; [by destruct op; apply readable_simple|done].
Qed.

Lemma written_readable e : predicate_ok e -> Forall readable (written e) /\ written e <> [].
Proof.
  induction e as [ref op v b|ref vs b|e IH|op es IH] using predicate_ind; intros Hok; inversion Hok; subst.
  - assert (Hop : readable (CMP op)) by by apply readable_simple.
    split; [|by destruct b]. pose proof (column_readable ref ltac:(done)). pose proof (scalar_readable v ltac:(done)). by destruct b; cbn [written]; rewrite !list.Forall_cons.
  - split; [|done]. cbn [written]. constructor; [by apply column_readable|]. apply Forall_app. split; [destruct b; repeat constructor|].
    constructor; [by apply readable_simple|]. constructor; [by apply readable_simple|]. apply Forall_app. split; [by apply list_readable|].
    constructor; [by apply readable_simple|constructor].
  - rewrite written_not. split; [|done]. constructor; [by apply readable_simple|]. apply operand_readable. by apply IH.
  - rewrite written_op. split.
    + apply operands_readable. rewrite list.Forall_forall in *. intros e He. by apply IH; [|eauto].
    + destruct es as [|e [|e' es]]; cbn [length] in *; try lia. rewrite operands_cons by done. by destruct (operand e).
Qed.

(** *** The transformer *)

Lemma scalar_built v : literal_value_ok v -> build_literal (literal_tree v) = Ok v.
Proof.
  unfold literal_tree. destruct v as [n|x|s|b]; cbn -[_number float_literal str_int].
  - apply int_read.
  - intros (z & -> & Hz). by apply float_read.
  - intros _. by rewrite removelast_last.
  - by destruct b.
Qed.
Lemma scalars_built vs : Forall literal_value_ok vs -> map_res build_literal (literal_tree <$> vs) = Ok vs.
Proof. induction 1 as [|v vs Hv _ IH]; [done|]. cbn [fmap list_fmap map_res]. rewrite scalar_built by done. cbn. by rewrite IH. Qed.
Lemma column_built ref : column_name ref -> _name ref = Ok ref.
Proof. intros (_ & Hd & Hr). unfold _name. rewrite Hd. by rewrite bool_decide_eq_false_2. Qed.

Lemma trees_built es : Forall (fun e => _Build (tree e) = Ok e) es -> build_all (tree <$> es) = Ok es.
Proof. induction 1 as [|e es He _ IH]; [done|]. cbn [fmap list_fmap build_all]. rewrite He. cbn. by rewrite IH. Qed.

Lemma tree_built e : predicate_ok e -> _Build (tree e) = Ok e.
Proof.
  induction e as [ref op v b|ref vs b|e IH|op es IH] using predicate_ind; intros Hok; inversion Hok; subst.
  - destruct b; cbn [tree _Build]; rewrite scalar_built by done; cbn; by rewrite column_built.
  - destruct b; cbn [tree _Build]; rewrite scalars_built by done; cbn; by rewrite column_built.
  - cbn [tree _Build]. by rewrite IH.
  - assert (Hes : Forall (fun e => _Build (tree e) = Ok e) es) by (rewrite list.Forall_forall in *; auto).
    destruct op; cbn [tree]; [rewrite build_and|rewrite build_or]; by rewrite trees_built.
Qed.

(** C19: A predicate can be written: any well-formed predicate within the parser's limits
    (on its nesting, on the number of its comparisons, and on the parentheses and the
    length of its text) has a text that is parsed to that predicate, every literal
    included: integers of 64 bits, floats to the last bit, strings with any characters
    the grammar has. *)
Theorem predicate_text_round_trip `{LarkLaws} e :
  predicate_ok e -> nesting e <= _MAX_TREE_DEPTH -> comparisons_in e <= _MAX_COMPARISONS ->
  zlen (show e) <= _MAX_EXPR_LENGTH -> zlen (filter (fun c => c = 40) (show e)) <= _MAX_NESTING_DEPTH ->
  parse_when (PStr (show e)) = Ok e.
Proof.
  intros Hok Hd Hc Hlen Hpar. destruct (written_readable e Hok) as [Hr Hne]. pose proof (spaced_solid _ Hne Hr) as Hs. fold (show e) in Hs.
  apply parse_when_spec. rewrite strip_solid by done. split.
  - destruct Hs as ((c & cs & E & _) & _ & Hchars). rewrite list.Forall_forall in Hchars.
    split; [by rewrite E|]. split; [by intros [? _]%Hchars|]. split; [by intros [_ ?]%Hchars|done].
  - exists (tree e). split; [|by split; [apply tree_built|]].
    destruct (written_derived e Hok) as [(l & Hl & El) _]. exists (written e), l. split; [by apply tokens_spaced|by rewrite El].
Qed.

(** *** At a predicate with every kind of literal *)

Definition sample_predicate : WhenExpr :=
  BoolOp op_or
    [BoolOp op_and [Compare (py "age") (py ">=") (SInt 18) false; Not (InList (py "country") [SStr (py "US"); SStr (py "a b")] true)];
     Not (BoolOp op_and [Compare (py "active") (py "==") (SBool true) true; Compare (py "x") (py "<") (SInt (-5)) false])].

Example sample_text : show sample_predicate =
  py "( age >= 18 and not country not in [ 'US' , 'a b' ] ) or not ( True == active and x < -5 )".
Proof. by vm_compute. Qed.

(** Floats are as long as they must be to be exact. *)
Definition float_predicate : WhenExpr :=
  BoolOp op_and ((fun '(name, n) => Compare (py name) (py "==") (SFloat (FFin (n * 2 ^ 1073))) false)
    <$> [("a", 3); ("b", 5); ("c", 7); ("d", 9)]%string).

Example float_predicate_text : show float_predicate = py "a == 15e-1 and b == 25e-1 and c == 35e-1 and d == 45e-1" /\
  @parse_when descent_lark (PStr (show float_predicate)) = Ok float_predicate.
Proof. by vm_compute. Qed.

Lemma name_decided name : (match name with c :: cs => ident_start c && forallb ident_char cs | [] => false end) && negb (dunder name) && negb (bool_decide (name ∈ RESERVED_NAMES)) = true ->
  column_name name.
Proof.
  destruct name as [|c cs]; [done|]. intros H. apply andb_true_iff in H as [H H3]. apply andb_true_iff in H as [H H2]. apply andb_true_iff in H as [H H1]. bool_prop.
  split; [by exists c, cs|]. done.
Qed.

Lemma sample_predicate_ok : predicate_ok sample_predicate.
Proof.
  constructor; [cbn; lia|]. repeat constructor; cbn; try lia; try done; try (by apply name_decided; vm_compute); by_decide.
Qed.

Lemma predicate_text_round_trip_witness :
  predicate_ok sample_predicate /\ @parse_when descent_lark (PStr (show sample_predicate)) = Ok sample_predicate.
Proof.
  split; [exact sample_predicate_ok|].
  apply (@predicate_text_round_trip descent_lark descent_laws sample_predicate);
    [exact sample_predicate_ok|by vm_compute..].
Defined.
