(* ===== verification/WhenGates.v ===== *)
(** * The places that ask for the grammar agree

    A predicate is asked about when a configuration is validated, when a plan is compiled,
    when a plan is loaded and before it is evaluated, with blanks around it removed or not,
    through a cache or not. All of them give the parser's answer. *)

From S2P Require Import Prelude Numerals PyText PyData Floats When WhenGrammar WhenTheory.

(** ** Blanks *)

Lemma lstrip_shape s : lstrip s = [] \/ exists c cs, lstrip s = c :: cs /\ py_space c = false.
Proof. induction s as [|c s IH]; cbn; [by left|]. destruct (py_space c) eqn:E; [done|]. right. by exists c, s. Qed.

Lemma lstrip_last s c : py_space c = false -> exists s', lstrip (s ++ [c]) = s' ++ [c].
Proof. intros Hc. induction s as [|d s IH]; cbn; [rewrite Hc; by exists []|]. destruct (py_space d); [done|]. by exists (d :: s). Qed.

Lemma strip_strip s : strip (strip s) = strip s.
Proof.
  unfold strip at 2 3. destruct (lstrip_shape s) as [E|(c & cs & E & Hc)]; [by rewrite E|]. rewrite E. cbn [rev].
  destruct (lstrip_last (rev cs) c Hc) as [s' Es]. rewrite Es, rev_app_distr. cbn [rev app].
  unfold strip. cbn [lstrip]. rewrite Hc. cbn [rev]. rewrite rev_involutive.
  destruct (lstrip_shape (rev cs ++ [c])) as [E'|(d & ds & E' & Hd)]; [rewrite E' in Es; by destruct s'|]. rewrite <- Es, E'. cbn [lstrip]. rewrite Hd.
  rewrite <- E', Es, rev_app_distr. done.
Qed.

Section Gates.
Context `{LarkOps}.

Lemma parse_strip s : parse_when (PStr (strip s)) = parse_when (PStr s).
Proof. unfold parse_when. by rewrite strip_strip. Qed.

(** ** The cache *)

(** At most a thousand and twenty-four successes. *)
Definition cache_ok (c : when_cache) : Prop :=
  (length c <= CACHE_SIZE)%nat /\ Forall (fun entry => parse_when (PStr entry.1) = Ok entry.2) c.

Lemma del_length {K V} `{EqDecision K} (d : odict K V) k : (length (od_del d k) <= length d)%nat.
Proof. induction d as [|[k' v] d IH]; cbn; [lia|]. case_bool_decide; cbn; lia. Qed.
Lemma del_shorter {K V} `{EqDecision K} (d : odict K V) k v : od_get d k = Some v -> (length (od_del d k) < length d)%nat.
Proof.
  induction d as [|[k' v'] d IH]; cbn; [done|]. case_bool_decide; cbn; [intros _; pose proof (del_length d k); lia|]. intros Hd%IH. lia.
Qed.
Lemma del_forall {K V} `{EqDecision K} (R : K * V -> Prop) (d : odict K V) k : Forall R d -> Forall R (od_del d k).
Proof. induction 1 as [|[k' v] d Hv _ IH]; cbn; [constructor|]. case_bool_decide; [done|]. by constructor. Qed.

Lemma cached_exact s c : cache_ok c -> exists c', parse_when_cached s c = (c', parse_when (PStr s)) /\ cache_ok c'.
Proof.
  intros [Hlen Hc]. unfold parse_when_cached. destruct (od_get c s) as [e|] eqn:E.
  - pose proof (od_get_elem _ _ _ E) as Hin. pose proof (proj1 (list.Forall_forall _ _) Hc _ Hin) as He. cbn [fst snd] in He. rewrite He.
    eexists. split; [done|]. split; [cbn [length]; pose proof (del_shorter _ _ _ E); lia|]. constructor; [done|by apply del_forall].
  - destruct (parse_when (PStr s)) as [e|x] eqn:Ep; eexists; (split; [done|]); [|done].
    split; [rewrite length_take; lia|]. apply Forall_take. by constructor.
Qed.

Lemma gate_parse_exact v c : cache_ok c -> exists c', gate_parse v c = (c', parse_when v) /\ cache_ok c'.
Proof. intros Hc. destruct v as [| | |s| | |]; try (by exists c). by apply cached_exact. Qed.

(** ** The gates of a plan *)

Definition gate_open (when : pyval) : Prop := when = PNone \/ is_ok (parse_when when) = true.

Lemma gate_step when c : gate_open when -> when <> PNone -> cache_ok c -> exists e c', gate_parse when c = (c', Ok e) /\ cache_ok c'.
Proof.
  intros [->|Hw] Hne Hc; [done|]. destruct (gate_parse_exact when c Hc) as (c' & E & Hc'). destruct (parse_when when) as [e|]; [|done]. by exists e, c'.
Qed.

Lemma seeds_valid columns c : Forall gate_open columns.*2 -> cache_ok c -> exists c', validate_seeds columns c = (c', Ok tt) /\ cache_ok c'.
Proof.
  revert c. induction columns as [|[k when] columns IH]; intros c Hw Hc; [by exists c|]. inversion Hw as [|? ? Hg Hw']; subst. cbn [snd] in Hg.
  assert (Hstep : when <> PNone -> exists c', match gate_parse when c with (c', Ok _) => validate_seeds columns c' | (c', Err _) => (c', Err _reject) end = (c', Ok tt) /\ cache_ok c').
  { intros Hne. destruct (gate_step when c Hg Hne Hc) as (e & c' & -> & Hc'). by apply IH. }
  destruct when; try (by apply Hstep). by apply IH.
Qed.

Lemma envelope_valid per_table c : Forall (fun t => Forall gate_open t.2.*2) per_table -> cache_ok c ->
  exists c', validate_envelope_when per_table c = (c', Ok tt) /\ cache_ok c'.
Proof.
  revert c. induction per_table as [|[t columns] rest IH]; intros c Hw Hc; [by exists c|]. inversion Hw as [|? ? Hg Hw']; subst.
  cbn [validate_envelope_when]. destruct (seeds_valid columns c Hg Hc) as (c' & -> & Hc'). by apply IH.
Qed.

(** ** The columns of a configuration *)

Definition has_column (config : list (pystr * pyval)) (col : pyval) : Prop :=
  exists tables d columns, py_iter (or_empty (dget config "tables" (PList []))) = Ok tables /\ PDict d ∈ tables /\
    py_iter (or_empty (dget d "columns" (PList []))) = Ok columns /\ col ∈ columns.

Lemma for_each_all {A} (f : A -> result unit) l : for_each (fun _ => f) l tt = Ok tt -> forall a, a ∈ l -> f a = Ok tt.
Proof.
  induction l as [|b l IH]; cbn; intros E a Ha; [by apply elem_of_nil in Ha|]. destruct (f b) as [[]|] eqn:Eb; [|done].
  apply elem_of_cons in Ha as [->|Ha]; [done|]. by apply IH.
Qed.

Lemma each_column_all config check col : every_column config check = Ok tt -> has_column config col -> check col = Ok tt.
Proof.
  intros E (tables & d & columns & Et & Hd & Ec & Hcol). unfold every_column in E. rewrite Et in E. cbn in E.
  apply for_each_all with (a := PDict d) in E; [|done]. cbn in E. rewrite Ec in E. cbn in E. by apply for_each_all with (a := col) in E.
Qed.

Lemma checked_gate d : check_column_when (PDict d) = Ok tt -> gate_open (seed_when (dget d "when" PNone)).
Proof.
  unfold check_column_when, gate_open. destruct (dget d "when" PNone) as [| | |s| | |]; cbn [seed_when]; try (by left).
  destruct (bool_decide (strip s = [])) eqn:E; [by left|]. rewrite parse_strip. intros Hp. right. by destruct (parse_when (PStr s)).
Qed.

(** What the validator of a column's field returns is read as before. *)
Lemma validated_gate s : _when_closed_grammar (Some s) =
  match seed_when (PStr s) with
  | PNone => Ok None
  | when => if is_ok (parse_when when) then Ok (Some (strip s)) else Err (Exn "PydanticCustomError" WHEN_OUTSIDE_GRAMMAR_CODE)
  end.
Proof.
  unfold _when_closed_grammar. cbn [seed_when]. destruct (bool_decide (strip s = [])); [done|]. rewrite parse_strip. by destruct (parse_when (PStr s)).
Qed.

(** The gates agree. A configuration that the compile-time check accepts never fails
    later: whatever gates a plan carries for its columns, the check of the whole plan
    accepts them, the backstop before evaluation accepts each of them, whatever the cache
    holds then, and the validator of the field keeps it; and the cache changes no answer
    and never holds more than its limit. *)
Theorem when_gates_agree config per_table c :
  cache_ok c -> check_when_grammar config = Ok tt ->
  (forall t columns k when, (t, columns) ∈ per_table -> (k, when) ∈ columns ->
    exists d, has_column config (PDict d) /\ when = seed_when (dget d "when" PNone)) ->
  (exists c', validate_envelope_when per_table c = (c', Ok tt) /\ cache_ok c') /\
  forall t columns k when c, (t, columns) ∈ per_table -> (k, when) ∈ columns -> cache_ok c ->
    match when with
    | PNone => True
    | PStr s =>
        (exists c', _require_closed_grammar when c = (c', Ok tt) /\ cache_ok c') /\
        _when_closed_grammar (Some s) = Ok (Some (strip s)) /\ closed_grammar_when s = true
    | _ => False
    end.
Proof.
  intros Hc Hcheck Hplan.
  assert (Hopen : forall t columns k when, (t, columns) ∈ per_table -> (k, when) ∈ columns -> gate_open when).
  { intros t columns k when Ht Hk. destruct (Hplan t columns k when Ht Hk) as (d & Hd & ->). apply checked_gate. by apply (each_column_all config). }
  split.
  - apply envelope_valid; [|done]. apply list.Forall_forall. intros [t columns] Ht. apply list.Forall_forall. intros when ([k w] & -> & Hk)%list_elem_of_fmap. by eapply Hopen.
  - intros t columns k when c1 Ht Hk Hc1. pose proof (Hopen _ _ _ _ Ht Hk) as Hw. destruct (Hplan _ _ _ _ Ht Hk) as (d & _ & Ewhen).
    destruct (dget d "when" PNone) as [| | |s| | |]; cbn [seed_when] in Ewhen; try (by subst when).
    destruct (bool_decide (strip s = [])) eqn:Es; subst when; [done|]. split; [|split].
    + unfold _require_closed_grammar. destruct (gate_step (PStr s) c1 Hw ltac:(done) Hc1) as (e & c' & -> & Hc'). by exists c'.
    + destruct Hw as [|Hw]; [done|]. rewrite validated_gate. cbn [seed_when]. by rewrite Es, Hw.
    + by destruct Hw as [|Hw].
Qed.
End Gates.

Definition sample_column : list (pystr * pyval) := [(py "name", PStr (py "ssn")); (py "when", PStr (py " country == 'US' "))].
Definition when_config : list (pystr * pyval) :=
  [(py "tables", PList [PDict [(py "name", PStr (py "people")); (py "columns", PList [PDict sample_column; PDict [(py "name", PStr (py "id"))]])]])].

Lemma when_gates_agree_witness :
  @check_when_grammar descent_lark when_config = Ok tt /\
  exists c', @validate_envelope_when descent_lark [(py "people", [(py "ssn", PStr (py " country == 'US' "))])] [] = (c', Ok tt) /\ @cache_ok descent_lark c'.
Proof.
  split; [by vm_compute|].
  apply (@when_gates_agree descent_lark when_config [(py "people", [(py "ssn", PStr (py " country == 'US' "))])] []); [by split; [vm_compute; lia|constructor]|by vm_compute|].
  intros t columns k when Ht Hk. apply list_elem_of_singleton in Ht. injection Ht as -> ->. apply list_elem_of_singleton in Hk. injection Hk as -> ->.
  exists sample_column. split; [|by vm_compute].
  exists [PDict [(py "name", PStr (py "people")); (py "columns", PList [PDict sample_column; PDict [(py "name", PStr (py "id"))]])]],
    [(py "name", PStr (py "people")); (py "columns", PList [PDict sample_column; PDict [(py "name", PStr (py "id"))]])],
    [PDict sample_column; PDict [(py "name", PStr (py "id"))]].
  split; [by vm_compute|]. split; [left|]. split; [by vm_compute|]. left.
Defined.
