(* ===== verification/DpCarriers.v ===== *)
(** * Typed carriers of a private fit (quality/carriers.py, dp_fit_schema.py)

    What a cell becomes before it enters a private mechanism: a number clamped into its
    declared domain, a flag, or a text kept verbatim, or nothing. A cell is any Python
    object and anything it is asked may raise: the class [CellOps] is what the codecs ask
    it. Tables of carriers are checked against the declared schema and sanitised. *)

From S2P Require Import Prelude PyText PyData Floats.

(** ** Floats as the codecs see them: with the sign of a zero *)

Inductive f64 := Num (x : flt) | NegZero.
Definition magnitude (x : f64) : flt := match x with Num x => x | NegZero => FFin 0 end.

#[global] Instance f64_eq_dec : EqDecision f64.
Proof. solve_decision. Defined.

(** Python's [x <= y] and [x < y]: false of NaN. *)
Definition flt_leb (x y : flt) : bool :=
  match x, y with
  | FNan, _ | _, FNan => false
  | FFin a, FFin b => a <=? b
  | FInf true, _ | _, FInf false => true
  | _, _ => false
  end.
Definition flt_ltb (x y : flt) : bool := match x, y with FNan, _ | _, FNan => false | _, _ => negb (flt_leb y x) end.
Definition f64_lt (x y : f64) : bool := flt_ltb (magnitude x) (magnitude y).
(** [x == y] *)
Definition f64_eqb (x y : f64) : bool := flt_leb (magnitude x) (magnitude y) && flt_leb (magnitude y) (magnitude x).

Definition is_finite (x : flt) : bool := match x with FFin _ => true | _ => false end.

(** [max(x, y)] and [min(x, y)] keep the first of two that compare equal. *)
Definition py_max (x y : f64) : f64 := if f64_lt x y then y else x.
Definition py_min (x y : f64) : f64 := if f64_lt y x then y else x.

(** The value of an integer, and [float(n)] of one, which overflows. *)
Definition int_units (n : Z) : flt := FFin (n * 2 ^ tiny float64).
Definition py_float_of_int (n : Z) : result f64 :=
  match nearest float64 (n * 2 ^ tiny float64) 1 with FFin z => Ok (Num (FFin z)) | _ => Err (exc "OverflowError") end.

(** ** Cells *)

(** The two exceptions that stop a program and are not swallowed. *)
Definition interrupts (e : exn) : bool :=
  bool_decide (exc_class e = "KeyboardInterrupt"%string) || bool_decide (exc_class e = "SystemExit"%string).

Class CellOps := {
  cell : Type;
  (** [np.ndim(v)] *)
  np_ndim : cell -> result Z;
  (** [isinstance(v, (date, time, timedelta))], [isinstance(v, complex)],
      [isinstance(v, (str, bytes, bytearray))], [isinstance(v, np.generic)] *)
  is_time : cell -> result bool;
  is_complex_object : cell -> result bool;
  is_textual : cell -> result bool;
  is_np_generic : cell -> result bool;
  (** [getattr(getattr(v, "dtype", None), "kind", None)] *)
  dtype_kind : cell -> result (option pystr);
  (** [v.imag != 0], [v.real], [v.item()], [float(v)] *)
  imag_nonzero : cell -> result bool;
  real_part : cell -> result cell;
  np_item : cell -> result cell;
  py_float : cell -> result f64;
  (** [v] when its type is exactly [str] *)
  exact_str : cell -> option pystr;
  (** elements of float64 and bool arrays *)
  of_float64 : f64 -> cell;
  of_bool : bool -> cell;
}.

(** What NumPy's own scalars answer. *)
Class CellLaws `{CellOps} : Prop := {
  float64_scalar x : np_ndim (of_float64 x) = Ok 0 /\ is_time (of_float64 x) = Ok false /\ dtype_kind (of_float64 x) = Ok (Some (py "f")) /\
    is_complex_object (of_float64 x) = Ok false /\ py_float (of_float64 x) = Ok x;
  bool_scalar b : np_ndim (of_bool b) = Ok 0 /\ is_time (of_bool b) = Ok false /\ dtype_kind (of_bool b) = Ok (Some (py "b")) /\
    is_textual (of_bool b) = Ok false /\ is_complex_object (of_bool b) = Ok false /\ py_float (of_bool b) = Ok (Num (int_units (if b then 1 else 0)));
}.

Definition CarrierError (code : string) : exn := Exn "CarrierError" code.

(** The body of a codec: [except (KeyboardInterrupt, SystemExit): raise], any other
    exception makes the cell invalid. *)
Definition total_cell {A} (body : result (option A)) : result (option A) :=
  match body with Err e => if interrupts e then Err e else Ok None | _ => body end.

Section Codecs.
Context `{CellOps}.

Definition _is_datetimelike (raw : cell) : result bool :=
  t ← is_time raw;
  if (t : bool) then Ok true else
  kind ← dtype_kind raw;
  Ok (bool_decide (kind = Some (py "M") \/ kind = Some (py "m"))).

Definition _is_complex (raw : cell) : result bool :=
  c ← is_complex_object raw;
  if (c : bool) then Ok true else
  kind ← dtype_kind raw;
  Ok (bool_decide (kind = Some (py "c"))).

Definition _is_container (raw : cell) : result bool := n ← np_ndim raw; Ok (negb (n =? 0)).

(** The number of a scalar: a complex value with no imaginary part is its real part. *)
Definition scalar_float (value : cell) : result (option f64) :=
  c ← _is_complex value;
  if (c : bool) then
    nonzero ← imag_nonzero value;
    if (nonzero : bool) then Ok None else (v ← real_part value; f ← py_float v; Ok (Some f))
  else (f ← py_float value; Ok (Some f)).

Definition _INVALID_NUMBER : f64 * bool := (Num (FFin 0), false).
Definition _INVALID_FLAG : bool * bool := (false, false).
Definition _INVALID_TEXT : pystr * bool := ([], false).

(** The clamp of a number that is not NaN, with a zero of positive sign. *)
Definition clamp (lower upper f : f64) : f64 :=
  let f :=
    match magnitude f with
    | FInf neg => if (neg : bool) then lower else upper
    | _ => py_min (py_max f lower) upper
    end in
  if f64_eqb f (Num (FFin 0)) then Num (FFin 0) else f.

Definition decode_number (value : cell) (lower upper : f64) : result (f64 * bool) :=
  r ← total_cell (
    c ← _is_container value;
    if (c : bool) then Ok None else
    t ← _is_datetimelike value;
    if (t : bool) then Ok None else scalar_float value);
  match r with
  | None => Ok _INVALID_NUMBER
  | Some f => match magnitude f with FNan => Ok _INVALID_NUMBER | _ => Ok (clamp lower upper f, true) end
  end.

Definition decode_flag (value : cell) : result (bool * bool) :=
  r ← total_cell (
    c ← _is_container value;
    if (c : bool) then Ok None else
    t ← _is_datetimelike value;
    if (t : bool) then Ok None else
    s ← is_textual value;
    if (s : bool) then Ok None else scalar_float value);
  match r with
  | None => Ok _INVALID_FLAG
  | Some f =>
      if f64_eqb f (Num (FFin 0)) then Ok (false, true)
      else if f64_eqb f (Num (int_units 1)) then Ok (true, true)
      else Ok _INVALID_FLAG
  end.

(** [v.encode("utf-8")] fails at a surrogate. *)
Definition surrogate (c : Z) : bool := (55296 <=? c) && (c <=? 57343).

Definition decode_text (value : cell) : result (pystr * bool) :=
  r ← total_cell (
    c ← _is_container value;
    if (c : bool) then Ok None else
    generic ← is_np_generic value;
    v ← (if (generic : bool) then np_item value else Ok value);
    match exact_str v with
    | None => Ok None
    | Some s => if bool_decide (0 ∈ s) then Ok None else if existsb surrogate s then Err (exc "UnicodeEncodeError") else Ok (Some s)
    end);
  match r with None => Ok _INVALID_TEXT | Some s => Ok (s, true) end.
End Codecs.

(** ** The declared schema *)

(** A value of a declaration. A real number that is neither an int nor a float, and any
    other object, carry what [float()] makes of them. *)
Inductive sval :=
| VNone
| VBool (b : bool)
| VInt (n : Z)
| VFloat (x : f64)
| VReal (r : result f64)
| VStr (s : pystr)
| VSeq (tuple : bool) (l : list sval)
| VDict (d : list (pystr * sval))
| VOther (r : result f64).

Definition vget (d : list (pystr * sval)) (k : string) : sval := default VNone (od_get d (py k)).

Definition _VALID_CARRIERS : list pystr := py <$> ["number"; "flag"; "text"]%string.

(** A clamp bound: a finite real. *)
Definition _validate_bound (b : sval) : result f64 :=
  fb ← match b with
       | VInt n => match py_float_of_int n with Ok f => Ok f | Err e => if interrupts e then Err e else Err (CarrierError "dp_carrier_bounds_type") end
       | VFloat x => Ok x
       | VReal (Ok f) => Ok f
       | VReal (Err e) => if interrupts e then Err e else Err (CarrierError "dp_carrier_bounds_type")
       | _ => Err (CarrierError "dp_carrier_bounds_type")
       end;
  _ ← raise_if (negb (is_finite (magnitude fb))) (CarrierError "dp_carrier_bounds_nonfinite");
  Ok fb.

Definition checked_bounds (lower upper : sval) : result (f64 * f64) :=
  lower ← _validate_bound lower;
  upper ← _validate_bound upper;
  _ ← raise_if (negb (f64_lt lower upper)) (CarrierError "dp_carrier_bounds_order");
  Ok (lower, upper).

Definition _KIND_TO_CARRIERS : list (pystr * list pystr) :=
  [(py "numeric", [py "number"]); (py "categorical", [py "text"; py "flag"])].

(** A copy in which the bounds are a tuple. *)
Definition freeze_one (spec : sval) : sval :=
  match spec with
  | VDict d => VDict (match vget d "bounds" with VSeq _ l => od_set d (py "bounds") (VSeq true l) | _ => d end)
  | _ => spec
  end.
Definition freeze_column_schema (column_schema : sval) : sval :=
  match column_schema with VDict d => VDict (prod_map id freeze_one <$> d) | _ => column_schema end.

(** The carrier of a declaration, checked against its kind. *)
Definition parse_carrier (spec : list (pystr * sval)) : result pystr :=
  carrier ← match vget spec "carrier" with
            | VStr c => if bool_decide (c ∈ _VALID_CARRIERS) then Ok c else Err (CarrierError "dp_carrier_unknown")
            | _ => Err (CarrierError "dp_carrier_unknown")
            end;
  match vget spec "kind" with
  | VNone => Ok carrier
  | VStr kind =>
      match od_get _KIND_TO_CARRIERS kind with
      | None => Err (CarrierError "dp_kind_unknown")
      | Some allowed => if bool_decide (carrier ∈ allowed) then Ok carrier else Err (CarrierError "dp_kind_carrier_mismatch")
      end
  | _ => Err (CarrierError "dp_kind_unknown")
  end.

Definition parsed_schema := (odict pystr (f64 * f64) * odict pystr pystr)%type.

Definition parse_column (acc : parsed_schema) (entry : pystr * sval) : result parsed_schema :=
  let '(numeric_bounds, categorical_carriers) := acc in
  match entry.2 with
  | VDict spec =>
      carrier ← parse_carrier spec;
      if bool_decide (carrier = py "number") then
        match vget spec "bounds" with
        | VSeq _ [lower; upper] => b ← checked_bounds lower upper; Ok (od_set numeric_bounds entry.1 b, categorical_carriers)
        | _ => Err (CarrierError "dp_carrier_bounds_missing")
        end
      else Ok (numeric_bounds, od_set categorical_carriers entry.1 carrier)
  | _ => Err (CarrierError "dp_schema_column_type")
  end.
Definition parse_column_schema (column_schema : sval) : result parsed_schema :=
  match column_schema with
  | VDict d => for_each parse_column d ([], [])
  | _ => Err (CarrierError "dp_schema_type")
  end.

(** ** Tables *)

(** A NumPy array by its element type; anything else, or of other dimensions, is neither. *)
Inductive nparray := BoolArray (l : list bool) | FloatArray (l : list f64) | OtherArray.

Section Tables.
Context `{CellOps}.

(** [values] of a text column is a tuple of anything, or no tuple. *)
Inductive CarrierColumn :=
| NumberColumn (values validity : nparray)
| FlagColumn (values validity : nparray)
| TextColumn (values : option (list cell)) (validity : nparray).

Record CarrierTable := { row_count : pyval; columns : odict pystr CarrierColumn }.

(** A sanitised column. *)
Inductive SaneColumn :=
| SaneNumber (values : list f64) (validity : list bool)
| SaneFlag (values : list bool) (validity : list bool)
| SaneText (values : list pystr) (validity : list bool).

Definition _check_validity (validity : nparray) (row_count : Z) : result (list bool) :=
  match validity with
  | BoolArray l => _ ← raise_if (negb (zlen l =? row_count)) (CarrierError "dp_carrier_validity_length"); Ok l
  | _ => Err (CarrierError "dp_carrier_validity_shape")
  end.

(** The loop over the rows: a cell that is not valid is skipped and keeps the default. *)
Fixpoint sanitize_cells {A B} (decode : A -> result (B * bool)) (dflt : B) (values : list A) (validity : list bool) : result (list B * list bool) :=
  match values, validity with
  | v :: values, ok :: validity =>
      d ← (if (ok : bool) then decode v else Ok (dflt, false));
      rest ← sanitize_cells decode dflt values validity;
      Ok (d.1 :: rest.1, d.2 :: rest.2)
  | _, _ => Ok ([], [])
  end.

(** [lower, upper = spec["bounds"]] *)
Definition unpack_two (v : sval) : option (sval * sval) :=
  match v with
  | VSeq _ [a; b] => Some (a, b)
  | VStr [a; b] => Some (VStr [a], VStr [b])
  | VDict [(a, _); (b, _)] => Some (VStr a, VStr b)
  | _ => None
  end.

Definition _sanitize_number (col : CarrierColumn) (spec : list (pystr * sval)) (row_count : Z) : result SaneColumn :=
  match col with
  | NumberColumn values validity =>
      validity ← _check_validity validity row_count;
      match values with
      | FloatArray values =>
          _ ← raise_if (negb (zlen values =? row_count)) (CarrierError "dp_carrier_number_length");
          match od_get spec (py "bounds") ≫= unpack_two with
          | None => Err (CarrierError "dp_carrier_bounds_missing")
          | Some (lower, upper) =>
              b ← checked_bounds lower upper;
              out ← sanitize_cells (fun x => decode_number (of_float64 x) b.1 b.2) (Num (FFin 0)) values validity;
              Ok (SaneNumber out.1 out.2)
          end
      | _ => Err (CarrierError "dp_carrier_number_dtype")
      end
  | _ => Err (CarrierError "dp_carrier_type_mismatch")
  end.

Definition _sanitize_flag (col : CarrierColumn) (row_count : Z) : result SaneColumn :=
  match col with
  | FlagColumn values validity =>
      validity ← _check_validity validity row_count;
      match values with
      | BoolArray values =>
          _ ← raise_if (negb (zlen values =? row_count)) (CarrierError "dp_carrier_flag_length");
          out ← sanitize_cells (fun b => decode_flag (of_bool b)) false values validity;
          Ok (SaneFlag out.1 out.2)
      | _ => Err (CarrierError "dp_carrier_flag_dtype")
      end
  | _ => Err (CarrierError "dp_carrier_type_mismatch")
  end.

Definition _sanitize_text (col : CarrierColumn) (row_count : Z) : result SaneColumn :=
  match col with
  | TextColumn values validity =>
      validity ← _check_validity validity row_count;
      match values with
      | Some values =>
          _ ← raise_if (negb (zlen values =? row_count)) (CarrierError "dp_carrier_text_shape");
          out ← sanitize_cells decode_text [] values validity;
          Ok (SaneText out.1 out.2)
      | None => Err (CarrierError "dp_carrier_text_shape")
      end
  | _ => Err (CarrierError "dp_carrier_type_mismatch")
  end.

Definition sanitize_column (rc : Z) (columns : odict pystr CarrierColumn) (acc : odict pystr SaneColumn) (entry : pystr * sval) : result (odict pystr SaneColumn) :=
  match entry.2 with
  | VDict spec =>
      match od_get columns entry.1 with
      | None => Err (exc "KeyError")
      | Some col =>
          s ← match vget spec "carrier" with
              | VStr c =>
                  if bool_decide (c = py "number") then _sanitize_number col spec rc
                  else if bool_decide (c = py "flag") then _sanitize_flag col rc
                  else if bool_decide (c = py "text") then _sanitize_text col rc
                  else Err (CarrierError "dp_carrier_unknown")
              | _ => Err (CarrierError "dp_carrier_unknown")
              end;
          Ok (od_set acc entry.1 s)
      end
  | _ => Err (exc "AttributeError")
  end.

Record SaneTable := { sane_count : Z; sane_columns : odict pystr SaneColumn }.

Definition sanitize_carrier_table (table : CarrierTable) (column_schema : list (pystr * sval)) : result SaneTable :=
  match row_count table with
  | PInt rc =>
      _ ← raise_if (rc <? 0) (CarrierError "dp_carrier_row_count_negative");
      _ ← raise_if (negb (bool_decide ((list_to_set (od_keys (columns table)) : gset pystr) = list_to_set (od_keys column_schema))))
            (CarrierError "dp_carrier_schema_mismatch");
      sanitized ← for_each (sanitize_column rc (columns table)) column_schema [];
      Ok {| sane_count := rc; sane_columns := sanitized |}
  | _ => Err (CarrierError "dp_carrier_row_count_type")
  end.

(** ** What enters the mechanisms *)

(** A recordwise vector; the row count is that of a vector of empty texts. *)
Inductive vector := Numbers (l : list f64) | Flags (l : list bool) | Texts (l : list pystr).

(** [[values[i] for i in range(row_count) if bool(validity[i])]] *)
Fixpoint valid_only {A} (values : list A) (validity : list bool) : list A :=
  match values, validity with
  | v :: values, ok :: validity => if ok : bool then v :: valid_only values validity else valid_only values validity
  | _, _ => []
  end.

Definition released_column (c : SaneColumn) : vector :=
  match c with
  | SaneNumber values validity => Numbers (valid_only values validity)
  | SaneFlag values validity => Flags (valid_only values validity)
  | SaneText values validity => Texts (valid_only values validity)
  end.
Definition released_values (table : SaneTable) : odict pystr vector := prod_map id released_column <$> sane_columns table.
End Tables.
