(* ===== verification/DpSession.v ===== *)
(** * The release session of a private fit (quality/dp_budget.py, dp_session.py, dp_schedule.py, dp_ledger.py)

    One fit owns a fixed schedule of queries and a request for epsilon and delta. It looks
    for the largest loss per query whose composition keeps to the request, builds each
    measurement at that loss, reads its certificate, invokes it once, and reports the
    composition of the certificates. OpenDP's measurements are the class [Mechanisms],
    their construction [OpenDpOps], dp_accounting is [Accounting]. What a release returns
    is not determined: a computation that invokes measurements is a tree of its
    invocations, with a branch for every answer. *)

From S2P Require Import Prelude PyText PyData Floats DpCarriers.

(** ** Arithmetic of floats *)

Definition fadd (x y : flt) : flt :=
  match x, y with
  | FFin a, FFin b => nearest float64 (a + b) 1
  | FNan, _ | _, FNan => FNan
  | FInf s, FInf t => if Bool.eqb s t then x else FNan
  | FInf _, _ => x
  | _, FInf _ => y
  end.
Definition fsub (x y : flt) : flt := fadd x (flip y).
Definition fmul (x y : flt) : flt :=
  match x, y with
  | FFin a, FFin b => nearest float64 (a * b) (2 ^ tiny float64)
  | FNan, _ | _, FNan => FNan
  | FInf s, FInf t => FInf (xorb s t)
  | FInf s, FFin b | FFin b, FInf s => if b =? 0 then FNan else FInf (xorb s (b <? 0))
  end.
(** Division by a positive number. *)
Definition fdiv (x y : flt) : flt :=
  match x, y with
  | FFin a, FFin b => nearest float64 (a * 2 ^ tiny float64) b
  | FInf s, FFin _ => FInf s
  | FFin _, FInf _ => FFin 0
  | _, _ => FNan
  end.
(** An int operand becomes a float. *)
Definition to_float (n : Z) : flt := nearest float64 (n * 2 ^ tiny float64) 1.

(** A float literal [n / d]. *)
Definition literal_float (n d : Z) : flt := nearest float64 (n * 2 ^ tiny float64) d.
Definition midpoint (lo hi : flt) : flt := fdiv (fadd lo hi) (to_float 2).

(** [math.fsum]: the exact sum, rounded once. *)
Definition fsum (l : list flt) : result flt :=
  match mapM (fun x => match x with FFin z => Some z | _ => None end) l with
  | Some zs => match nearest float64 (foldr Z.add 0 zs) 1 with FFin z => Ok (FFin z) | _ => Err (exc "OverflowError") end
  | None => Ok (fold_left fadd l (FFin 0))
  end.

(** ** The schedule *)

Record NumericQuerySpec := { nq_name : pystr; interior_edges : list flt }.
Definition numeric_bins (q : NumericQuerySpec) : Z := zlen (interior_edges q) + 1.
Record CategoricalQuerySpec := { grouped_name : pystr; total_name : pystr; cq_carrier : pystr }.
Record Schedule := { row_count_name : pystr; numeric : list NumericQuerySpec; categorical : list CategoricalQuerySpec }.

Definition query_count (s : Schedule) : Z := 1 + zlen (numeric s) + 2 * zlen (categorical s).
Definition query_names (s : Schedule) : list pystr :=
  row_count_name s :: (nq_name <$> numeric s) ++ concat ((fun q => [grouped_name q; total_name q]) <$> categorical s).
Definition delta_per_categorical (s : Schedule) (delta : flt) : flt :=
  match categorical s with [] => FFin 0 | _ => fdiv (fdiv delta (to_float 2)) (to_float (zlen (categorical s))) end.

Definition schedule_signature := (pystr * list (pystr * list flt) * list (pystr * pystr * pystr))%type.
Definition signature (s : Schedule) : schedule_signature :=
  (row_count_name s, (fun q => (nq_name q, interior_edges q)) <$> numeric s, (fun q => (grouped_name q, total_name q, cq_carrier q)) <$> categorical s).

(** ** The compile-time ledger *)

Record _LedgerCharge := { charge_label : pystr; charge_epsilon : flt; charge_delta : flt }.
Definition ReleaseLedger := list _LedgerCharge.
Definition charge (l : ReleaseLedger) (label : pystr) (epsilon delta : flt) : result ReleaseLedger :=
  _ ← raise_if (flt_ltb epsilon (FFin 0)) (exc "ValueError");
  _ ← raise_if (flt_ltb delta (FFin 0)) (exc "ValueError");
  Ok (l ++ [{| charge_label := label; charge_epsilon := epsilon; charge_delta := delta |}]).
Definition total_epsilon (l : ReleaseLedger) : result flt := fsum (charge_epsilon <$> l).
Definition total_delta (l : ReleaseLedger) : result flt := fsum (charge_delta <$> l).

(** ** Measurements and their composition *)

(** A certified loss: epsilon alone, or with delta. *)
Inductive certificate := PureLoss (epsilon : flt) | ApproxLoss (epsilon delta : flt).

(** [m.map(1)] of a measurement [m]. *)
Class Mechanisms := { measurement : Type; measurement_map : measurement -> result certificate }.

Class Accounting := {
  pld : Type;
  from_privacy_parameters : flt -> flt -> result pld;
  pld_compose : pld -> pld -> pld;
  get_epsilon_for_delta : pld -> flt -> flt;
}.

Definition DpBudgetError (code : string) : exn := Exn "DpBudgetError" code.
Definition ValueErr : exn := exc "ValueError".
Definition _InfeasibleAtEpsQError : exn := exc "_InfeasibleAtEpsQError".
Definition infeasible : exn := DpBudgetError "dp_budget_infeasible".

Definition _DP_EPSILON_CEILING : flt := int_units 700.
Definition _EPS_Q_FLOOR : flt := literal_float 1 (10 ^ 9).
Definition _PLD_SEARCH_ITERATIONS : nat := 40.
Definition _I32_MAX : Z := 2 ^ 31 - 1.
Definition _SCALE_SEARCH_BOUNDS : flt * flt := (literal_float 1 (10 ^ 12), int_units (10 ^ 12)).

(** Also refuses NaN, of which every comparison is false. *)
Definition check_epsilon_supported (epsilon : flt) : result unit :=
  raise_if (negb (flt_leb epsilon _DP_EPSILON_CEILING)) (DpBudgetError "dp_epsilon_unsupported").

Definition _certificate_to_pld `{Accounting} (c : certificate) : result pld :=
  match c with PureLoss e => from_privacy_parameters e (FFin 0) | ApproxLoss e d => from_privacy_parameters e d end.
Definition _compose `{Accounting} (certificates : list certificate) : result pld :=
  plds ← map_res _certificate_to_pld certificates;
  match plds with [] => Err (exc "IndexError") | p :: ps => Ok (fold_left pld_compose ps p) end.

(** Bisection for the largest [x] at which a decreasing predicate holds. *)
Fixpoint bisect_largest (iterations : nat) (predicate : flt -> result bool) (lo hi : flt) : result flt :=
  match iterations with
  | O => Ok lo
  | S n =>
      let mid := midpoint lo hi in
      p ← predicate mid;
      if (p : bool) then bisect_largest n predicate mid hi else bisect_largest n predicate lo mid
  end.
Definition _search_largest (predicate : flt -> result bool) (lower upper : flt) : result flt :=
  p ← predicate lower;
  if (p : bool) then bisect_largest _PLD_SEARCH_ITERATIONS predicate lower upper else Ok lower.

(** A search that finds no crossing is decided at the end points. *)
Definition _binary_search_endpoint_aware {T} (search : (T -> result bool) -> T * T -> result T) (predicate : T -> result bool) (bounds : T * T) : result T :=
  match search predicate bounds with
  | Err e =>
      if bool_decide (exc_class e = "ValueError"%string) then
        l ← predicate bounds.1;
        if (l : bool) then Ok bounds.1 else
        u ← predicate bounds.2;
        if (u : bool) then Ok bounds.2 else Err e
      else Err e
  | found => found
  end.

(** ** Backends *)

Record backend `{Mechanisms} := {
  count_measurement : flt -> result measurement;
  numeric_measurement : flt -> list flt -> result measurement;
  categorical_measurements : flt -> flt -> result (measurement * measurement);
  (** the extra capability of a [_FlagCapableBackend] *)
  categorical_measurements_flag : option (flt -> flt -> result (measurement * measurement));
  cache_namespace : option pystr;
}.

(** The element domain of a vector. *)
Inductive atom := TStr | TBool.

(** The constructors that OpenDP's chains are built with, and its parameter search. *)
Class OpenDpOps `{Mechanisms} := {
  (** [make_count(vector_domain(atom)) >> then_laplace(scale)] *)
  count_laplace : atom -> flt -> result measurement;
  (** [make_find_bin(edges) >> then_count_by_categories(range(bins)) >> then_laplace(scale)] *)
  bins_laplace : list flt -> Z -> flt -> result measurement;
  (** [make_count_by(vector_domain(atom)) >> then_laplace_threshold(scale, threshold)] *)
  grouped_laplace : atom -> flt -> Z -> result measurement;
  (** [binary_search(predicate, bounds)] over floats and with [T=int] *)
  search_float : (flt -> result bool) -> flt * flt -> result flt;
  search_int : (Z -> result bool) -> Z * Z -> result Z;
}.

Section RealBackend.
Context `{OpenDpOps}.

(** [m.map(1) <= bound], [m.map(1)[0] <= bound], [m.map(1)[1] <= bound] *)
Definition pure_within (bound : flt) (m : result measurement) : result bool :=
  m ← m; c ← measurement_map m; match c with PureLoss e => Ok (flt_leb e bound) | ApproxLoss _ _ => Err (exc "TypeError") end.
Definition epsilon_within (bound : flt) (m : result measurement) : result bool :=
  m ← m; c ← measurement_map m; match c with ApproxLoss e _ => Ok (flt_leb e bound) | PureLoss _ => Err (exc "TypeError") end.
Definition delta_within (bound : flt) (m : result measurement) : result bool :=
  m ← m; c ← measurement_map m; match c with ApproxLoss _ d => Ok (flt_leb d bound) | PureLoss _ => Err (exc "TypeError") end.

Definition _count_over_domain (eps_q : flt) (domain : atom) : result measurement :=
  scale ← _binary_search_endpoint_aware search_float (fun s => pure_within eps_q (count_laplace domain s)) _SCALE_SEARCH_BOUNDS;
  count_laplace domain scale.

Definition real_numeric_measurement (eps_q : flt) (interior_edges : list flt) : result measurement :=
  let numeric_bins := zlen interior_edges + 1 in
  scale ← _binary_search_endpoint_aware search_float (fun s => pure_within eps_q (bins_laplace interior_edges numeric_bins s)) _SCALE_SEARCH_BOUNDS;
  bins_laplace interior_edges numeric_bins scale.

Definition _grouped_over_domain (eps_q delta_alloc : flt) (domain : atom) : result measurement :=
  scale ← _binary_search_endpoint_aware search_float (fun s => epsilon_within eps_q (grouped_laplace domain s _I32_MAX)) _SCALE_SEARCH_BOUNDS;
  threshold ← _binary_search_endpoint_aware search_int (fun t => delta_within delta_alloc (grouped_laplace domain scale t)) (1, _I32_MAX);
  grouped_laplace domain scale threshold.

Definition categorical_over (domain : atom) (eps_q delta_alloc : flt) : result (measurement * measurement) :=
  grouped ← _grouped_over_domain eps_q delta_alloc domain;
  total ← _count_over_domain eps_q domain;
  Ok (grouped, total).

Definition _REAL_BACKEND_CACHE_NAMESPACE : pystr := py "real-opendp-contrib".

Definition _RealOpenDpBackend : backend := {|
  count_measurement := fun eps_q => _count_over_domain eps_q TStr;
  numeric_measurement := real_numeric_measurement;
  categorical_measurements := categorical_over TStr;
  categorical_measurements_flag := Some (categorical_over TBool);
  cache_namespace := Some _REAL_BACKEND_CACHE_NAMESPACE;
|}.
End RealBackend.

(** ** Computations that invoke measurements *)

Inductive label := LText (s : pystr) | LFlag (b : bool).
Inductive released := Count (n : Z) | Counts (l : list Z) | Groups (l : list (label * Z)).

Inductive interaction `{Mechanisms} (A : Type) : Type :=
| Done (a : A)
| Invoke (m : measurement) (data : vector) (k : result released -> interaction A).
Arguments Done {_ A} _.
Arguments Invoke {_ A} _ _ _.

Fixpoint ibind `{Mechanisms} {A B} (f : A -> interaction B) (t : interaction A) : interaction B :=
  match t with Done a => f a | Invoke m d k => Invoke m d (fun r => ibind f (k r)) end.
#[global] Instance interaction_bind `{Mechanisms} : MBind interaction := @ibind _.
#[global] Instance interaction_ret `{Mechanisms} : MRet interaction := @Done _.

(** *** The session *)

Record _Release := { certified : certificate; value : released }.

Record release_session := {
  _schedule : Schedule;
  _epsilon : flt;
  _delta : flt;
  _delta_per_categorical : flt;
  _releases : odict pystr _Release;
  _reserved : gset pystr;
  _eps_q : flt;
}.

Section Session.
Context `{Mechanisms} `{Accounting} (bk : backend).

(** The pair for a carrier: the flag pair needs the extra capability. *)
Definition _categorical_measurements (eps_q delta_alloc : flt) (carrier : pystr) : result (measurement * measurement) :=
  if bool_decide (carrier = py "text") then categorical_measurements bk eps_q delta_alloc
  else if bool_decide (carrier = py "flag") then
    match categorical_measurements_flag bk with
    | None => Err (DpBudgetError "dp_carrier_backend_unsupported")
    | Some build => build eps_q delta_alloc
    end
  else Err (DpBudgetError "dp_carrier_invalid").

(** Every scheduled measurement's certificate, without touching data. *)
Definition certify_all (s : Schedule) (delta_alloc eps_q : flt) : result (list certificate) :=
  m ← count_measurement bk eps_q;
  c ← measurement_map m;
  ns ← map_res (fun q => m ← numeric_measurement bk eps_q (interior_edges q); measurement_map m) (numeric s);
  cs ← map_res (fun q =>
         p ← _categorical_measurements eps_q delta_alloc (cq_carrier q);
         g ← measurement_map p.1; t ← measurement_map p.2; Ok [g; t]) (categorical s);
  Ok (c :: ns ++ concat cs).
Definition _certify_schedule (s : Schedule) (delta_alloc eps_q : flt) : result (list certificate) :=
  match certify_all s delta_alloc eps_q with
  | Err e => if bool_decide (exc_class e = "ValueError"%string) then Err _InfeasibleAtEpsQError else Err e
  | certificates => certificates
  end.

Section Allocation.
Context (s : Schedule) (epsilon delta : flt).
Definition composed_epsilon_or_none (eps_q : flt) : result (option flt) :=
  match _certify_schedule s (delta_per_categorical s delta) eps_q with
  | Ok certificates => p ← _compose certificates; Ok (Some (get_epsilon_for_delta p delta))
  | Err e => if bool_decide (exc_class e = "_InfeasibleAtEpsQError"%string) then Ok None else Err e
  end.

(** Phase 1: the least feasible loss per query. *)
Fixpoint feasible_floor (iterations : nat) (lo hi : flt) : result flt :=
  match iterations with
  | O => Ok hi
  | S n =>
      let mid := midpoint lo hi in
      c ← composed_epsilon_or_none mid;
      match c with Some _ => feasible_floor n lo mid | None => feasible_floor n mid hi end
  end.

Definition _within_request (e : flt) : result bool :=
  c ← composed_epsilon_or_none e; Ok match c with Some c => flt_leb c epsilon | None => false end.

(** Refuse what does not compose, or composes above the request. *)
Definition require_within (e : flt) : result unit :=
  c ← composed_epsilon_or_none e;
  match c with Some c => raise_if (flt_ltb epsilon c) infeasible | None => Err infeasible end.

Definition _allocate_epsilon : result flt :=
  top ← composed_epsilon_or_none epsilon;
  match top with
  | None => Err infeasible
  | Some _ =>
      floor ← feasible_floor _PLD_SEARCH_ITERATIONS _EPS_Q_FLOOR epsilon;
      _ ← require_within floor;
      eps_q ← _search_largest _within_request floor epsilon;
      _ ← require_within eps_q;
      Ok eps_q
  end.
End Allocation.

(** *** The cache of allocations: a success under a key of everything it depends on *)

Definition budget_key := (schedule_signature * flt * flt * pystr * pystr * pystr)%type.
Definition allocation_cache := odict budget_key flt.
Context (_OPENDP_VERSION _DP_ACCOUNTING_VERSION : pystr).
Definition _budget_cache_key (s : Schedule) (epsilon delta : flt) (namespace : pystr) : budget_key :=
  (signature s, epsilon, delta, _OPENDP_VERSION, _DP_ACCOUNTING_VERSION, namespace).

Definition _allocate_epsilon_cached (s : Schedule) (epsilon delta : flt) (cache : allocation_cache) : allocation_cache * result flt :=
  match cache_namespace bk with
  | None => (cache, _allocate_epsilon s epsilon delta)
  | Some namespace =>
      let key := _budget_cache_key s epsilon delta namespace in
      match od_get cache key with
      | Some cached => (cache, Ok cached)
      | None =>
          match _allocate_epsilon s epsilon delta with
          | Ok eps_q => (od_set cache key eps_q, Ok eps_q)
          | Err e => (cache, Err e)
          end
      end
  end.

(** [OpenDpReleaseSession(schedule, epsilon, delta, backend)] *)
Definition new_session (s : Schedule) (epsilon delta : flt) (cache : allocation_cache) : allocation_cache * result release_session :=
  match check_epsilon_supported epsilon with
  | Err e => (cache, Err e)
  | Ok _ =>
      let '(cache, r) := _allocate_epsilon_cached s epsilon delta cache in
      (cache, eps_q ← r;
        Ok {| _schedule := s; _epsilon := epsilon; _delta := delta; _delta_per_categorical := delta_per_categorical s delta;
              _releases := []; _reserved := ∅; _eps_q := eps_q |})
  end.

(** *** Releases *)

Definition set_reserved (r : gset pystr) (x : release_session) : release_session :=
  {| _schedule := _schedule x; _epsilon := _epsilon x; _delta := _delta x; _delta_per_categorical := _delta_per_categorical x;
     _releases := _releases x; _reserved := r; _eps_q := _eps_q x |}.
Definition set_releases (r : odict pystr _Release) (x : release_session) : release_session :=
  {| _schedule := _schedule x; _epsilon := _epsilon x; _delta := _delta x; _delta_per_categorical := _delta_per_categorical x;
     _releases := r; _reserved := _reserved x; _eps_q := _eps_q x |}.

(** A method: it changes the session and invokes measurements. *)
Definition method (A : Type) := release_session -> interaction (release_session * result A).
Definition pass {A} (a : A) : method A := fun x => Done (x, Ok a).
Definition raise_error {A} (e : exn) : method A := fun x => Done (x, Err e).
Definition andthen {A B} (m : method A) (f : A -> method B) : method B :=
  fun x => r ← m x; match r with (x', Ok a) => f a x' | (x', Err e) => Done (x', Err e) end.
Definition lift_result {A} (r : result A) : method A := match r with Ok a => pass a | Err e => raise_error e end.
Definition invoke (m : measurement) (data : vector) : method released := fun x => Invoke m data (fun r => Done (x, r)).

Definition _admit (name : pystr) : method unit := fun x =>
  if negb (bool_decide (name ∈ query_names (_schedule x))) then Done (x, Err (DpBudgetError "dp_unscheduled_release"))
  else if od_has (_releases x) name || bool_decide (name ∈ _reserved x) then Done (x, Err (DpBudgetError "dp_duplicate_release"))
  else Done (set_reserved ({[ name ]} ∪ _reserved x) x, Ok tt).

Definition _record_release (name : pystr) (c : certificate) (v : released) : method unit := fun x =>
  let x := set_reserved (_reserved x ∖ {[ name ]}) x in
  Done (set_releases (od_set (_releases x) name {| certified := c; value := v |}) x, Ok tt).

(** Certificate first, then the invocation, then the record. *)
Definition release_one (name : pystr) (m : measurement) (data : vector) : method released :=
  andthen (lift_result (measurement_map m)) (fun c =>
  andthen (invoke m data) (fun v =>
  andthen (_record_release name c v) (fun _ => pass v))).

Definition TypeErr : exn := exc "TypeError".
Definition as_count (v : released) : result Z := match v with Count n => Ok n | _ => Err TypeErr end.
Definition as_counts (v : released) : result (list Z) := match v with Counts l => Ok l | _ => Err TypeErr end.
Definition as_groups (v : released) : result (list (label * Z)) := match v with Groups l => Ok l | _ => Err TypeErr end.

Definition release_row_count (row_count : Z) : method Z := fun x =>
  let name := row_count_name (_schedule x) in
  andthen (_admit name) (fun _ =>
  andthen (lift_result (count_measurement bk (_eps_q x))) (fun m =>
  andthen (release_one name m (Texts (replicate (Z.to_nat row_count) []))) (fun v => lift_result (as_count v)))) x.

Definition release_numeric (name : pystr) (values : list f64) : method (list Z) := fun x =>
  match find (fun q => bool_decide (nq_name q = name)) (numeric (_schedule x)) with
  | None => Done (x, Err (DpBudgetError "dp_unscheduled_release"))
  | Some spec =>
      andthen (_admit name) (fun _ =>
      andthen (lift_result (numeric_measurement bk (_eps_q x) (interior_edges spec))) (fun m =>
      andthen (release_one name m (Numbers values)) (fun v => lift_result (as_counts v)))) x
  end.

Definition release_categorical (grouped total : pystr) (values : vector) : method (list (label * Z) * Z) := fun x =>
  andthen (_admit grouped) (fun _ =>
  andthen (_admit total) (fun _ =>
  match find (fun q => bool_decide (grouped_name q = grouped) && bool_decide (total_name q = total)) (categorical (_schedule x)) with
  | None => raise_error (DpBudgetError "dp_budget_categorical_pair_unscheduled")
  | Some spec =>
      andthen (lift_result (_categorical_measurements (_eps_q x) (_delta_per_categorical x) (cq_carrier spec))) (fun p =>
      andthen (release_one grouped p.1 values) (fun g =>
      andthen (release_one total p.2 values) (fun t =>
      lift_result (gs ← as_groups g; n ← as_count t; Ok (gs, n)))))
  end)) x.

Definition certificate_count (x : release_session) : Z := zlen (_releases x).

Definition composed_loss (x : release_session) : result (flt * flt) :=
  _ ← raise_if (negb (forallb (od_has (_releases x)) (query_names (_schedule x)))) (DpBudgetError "dp_schedule_incomplete");
  certificates ← map_res (fun n => match od_get (_releases x) n with Some r => Ok (certified r) | None => Err (exc "KeyError") end) (query_names (_schedule x));
  composed ← _compose certificates;
  let epsilon_total := get_epsilon_for_delta composed (_delta x) in
  _ ← raise_if (negb (is_finite epsilon_total)) infeasible;
  _ ← raise_if (flt_ltb (_epsilon x) epsilon_total) infeasible;
  Ok (epsilon_total, _delta x).
End Session.
