(* ===== verification/DpProvenance.v ===== *)
(** * The certified stack of a private fit (quality/dp_provenance.py)

    A fit runs only on a certified stack: a platform, a full interpreter version, and a
    fingerprint of everything installed. The artifact records the three, and generation
    asks the same of the record. Artifacts are JSON values, declared here. *)

From S2P Require Import Prelude PyText PyData Floats DpCarriers.

(** ** JSON values, as Python builds and loads them *)

Inductive art :=
| ANone | ABool (b : bool) | AInt (n : Z) | AFloat (x : f64) | AStr (s : pystr) | AList (l : list art) | ADict (d : list (pystr * art)).
Definition obj (fields : list (string * art)) : art := ADict ((fun kv => (py kv.1, kv.2)) <$> fields).
Definition text (s : string) : art := AStr (py s).

(** ** Identities *)

Definition ProvenanceError (code : string) : exn := Exn "ProvenanceError" code.

Record PlatformTriple := { system : pystr; machine : pystr; implementation : pystr; libc : pystr }.
#[global] Instance triple_eq_dec : EqDecision PlatformTriple.
Proof. solve_decision. Defined.

Record Provenance := { platform : PlatformTriple; cpython : pystr; fingerprint : pystr }.

(** What a host answers: its distributions as they are found, by raw name and version; its
    platform and interpreter. [canonicalize_name] is packaging's, [sha256_hex] hashlib's. *)
Class HostEnv := {
  distributions : list (option pystr * pystr);
  canonicalize_name : pystr -> pystr;
  sha256_hex : bytes -> pystr;
  sys_platform : pystr;
  machine_name : pystr;
  python_implementation : pystr;
  libc_ver : pystr;
  version_info : Z * Z * Z * pystr;
}.

Section Host.
Context `{HostEnv}.

(** One canonical name at two versions is refused; the same again is dropped. *)
Definition see_distribution (seen : odict pystr pystr) (dist : option pystr * pystr) : result (odict pystr pystr) :=
  match dist.1 with
  | None => Err (ProvenanceError "dp_provenance_distribution_unnamed")
  | Some raw_name =>
      let name := canonicalize_name raw_name in
      match od_get seen name with
      | Some version => _ ← raise_if (negb (bool_decide (version = dist.2))) (ProvenanceError "dp_provenance_duplicate_distribution"); Ok seen
      | None => Ok (od_set seen name dist.2)
      end
  end.
Definition canonical_set (found : list (option pystr * pystr)) : result (list (pystr * pystr)) :=
  seen ← for_each see_distribution found []; Ok (sorted seen).
Definition installed_distribution_set : result (list (pystr * pystr)) := canonical_set distributions.

Definition pin_line (d : pystr * pystr) : pystr := d.1 ++ py "==" ++ d.2.
Fixpoint newline_join (lines : list pystr) : pystr :=
  match lines with [] => [] | [l] => l | l :: lines => l ++ [10] ++ newline_join lines end.
Definition _canonical_serialization (dist_set : list (pystr * pystr)) : pystr := newline_join (pin_line <$> sorted dist_set).
Definition compute_lock_fingerprint (dist_set : list (pystr * pystr)) : result pystr :=
  b ← utf8_encode (_canonical_serialization dist_set); Ok (sha256_hex b).

Definition current_platform : PlatformTriple := {|
  system := sys_platform; machine := machine_name; implementation := python_implementation;
  libc := if bool_decide (libc_ver = []) then py "unknown" else libc_ver;
|}.
Definition current_cpython : pystr :=
  let '(major, minor, micro, level) := version_info in str_int major ++ py "." ++ str_int minor ++ py "." ++ str_int micro ++ py "." ++ level.
Definition current_provenance : result Provenance :=
  dists ← installed_distribution_set;
  f ← compute_lock_fingerprint dists;
  Ok {| platform := current_platform; cpython := current_cpython; fingerprint := f |}.
End Host.

(** ** The certified rows *)

Definition CERTIFIED_PLATFORM : PlatformTriple := {| system := py "linux"; machine := py "x86_64"; implementation := py "CPython"; libc := py "glibc" |}.

Definition _CERTIFIED_STACKS : list ((PlatformTriple * pystr) * list pystr) :=
  [((CERTIFIED_PLATFORM, py "3.10.20.final"),
    py <$> ["7d1c1a2a2be450a59fa17d810663a7bfe5e825204cca99bfe039ba12b6226aed";
            "b9b42047dc09ce89593e0be2dc6f7125a91af661bbb644b3a27342c84fd44ab0";
            "31ecf94503eff107631191426072eee757af72a2229ab594d2fc2e8e6bfac7b1";
            "5a76ea92769d62cb0124d89d24c2ec0e4116828e34e0611d80bf5e36edef1a23";
            "795732eb0808001d9c4591f3693637187637bb383a87b8caa95b8f2f269f9211";
            "b643894ded2ab84c4a0a9d9032a1de3d2330db89161f231e509024428b7533f3";
            "a7b40d54f68488ecbcc253c35a03517eefc456625a9b0240470e765e2bbc4476"]%string)].

(** Is an identity a certified row? *)
Definition certified_row (p : PlatformTriple) (cp : pystr) (f : pystr) : bool :=
  match od_get _CERTIFIED_STACKS (p, cp) with Some prints => bool_decide (f ∈ prints) | None => false end.

(** ** The gates *)

Definition check_fit_environment `{HostEnv} : result unit :=
  _ ← raise_if (negb (bool_decide (current_platform = CERTIFIED_PLATFORM))) (ProvenanceError "dp_platform_uncertified");
  dists ← installed_distribution_set;
  f ← compute_lock_fingerprint dists;
  raise_if (negb (certified_row current_platform current_cpython f)) (ProvenanceError "dp_stack_uncertified").

Definition malformed : exn := ProvenanceError "dp_provenance_record_malformed".
(** [d[k]] *)
Definition art_item (d : list (pystr * art)) (k : string) : result art := match od_get d (py k) with Some v => Ok v | None => Err malformed end.

(** Of JSON, a platform is a mapping of its fields or a sequence of four. *)
Definition _coerce_platform (value : art) : result PlatformTriple :=
  fields ← match value with
           | ADict d => a ← art_item d "system"; b ← art_item d "machine"; c ← art_item d "implementation"; l ← art_item d "libc"; Ok [a; b; c; l]
           | AList l => _ ← raise_if (negb (bool_decide (length l = 4%nat))) malformed; Ok l
           | _ => Err malformed
           end;
  match fields with
  | [AStr a; AStr b; AStr c; AStr l] => Ok {| system := a; machine := b; implementation := c; libc := l |}
  | _ => Err malformed
  end.
Definition _coerce_recorded (recorded : art) : result Provenance :=
  match recorded with
  | ADict d =>
      p ← art_item d "platform";
      plat ← _coerce_platform p;
      c ← art_item d "cpython";
      f ← art_item d "fingerprint";
      match c, f with
      | AStr c, AStr f => Ok {| platform := plat; cpython := c; fingerprint := f |}
      | _, _ => Err malformed
      end
  | _ => Err malformed
  end.
Definition validate_recorded_provenance (recorded : art) : result unit :=
  prov ← _coerce_recorded recorded;
  _ ← raise_if (negb (bool_decide (platform prov = CERTIFIED_PLATFORM))) (ProvenanceError "dp_platform_uncertified");
  raise_if (negb (certified_row (platform prov) (cpython prov) (fingerprint prov))) (ProvenanceError "dp_stack_uncertified").

(** What an artifact records of an identity. *)
Definition provenance_record (p : Provenance) : art :=
  obj [("platform", obj [("system", AStr (system (platform p))); ("machine", AStr (machine (platform p)));
                         ("implementation", AStr (implementation (platform p))); ("libc", AStr (libc (platform p)))]);
       ("cpython", AStr (cpython p)); ("fingerprint", AStr (fingerprint p))]%string.

(** ** Properties *)

Section Gates.
Context `{HostEnv}.

Lemma record_coerced p : _coerce_recorded (provenance_record p) = Ok p.
Proof. by destruct p as [[]]. Qed.

(** A host that may fit records an identity that generation accepts. *)
Lemma recorded_stack_accepted p : check_fit_environment = Ok tt -> current_provenance = Ok p -> validate_recorded_provenance (provenance_record p) = Ok tt.
Proof.
  unfold check_fit_environment, current_provenance, validate_recorded_provenance. rewrite record_coerced. cbn [mbind result_bind].
  destruct (bool_decide (current_platform = CERTIFIED_PLATFORM)) eqn:Ep; [|done]. cbn [negb raise_if mbind result_bind].
  destruct installed_distribution_set as [d|]; [|done]. cbn [mbind result_bind]. destruct (compute_lock_fingerprint d) as [f|]; [|done]. cbn [mbind result_bind].
  intros Hrow [= <-]. cbn [platform cpython fingerprint]. by rewrite Ep.
Qed.

Lemma fit_environment_identity : check_fit_environment = Ok tt -> exists p, current_provenance = Ok p.
Proof.
  unfold check_fit_environment, current_provenance. destruct (negb _); [done|]. cbn [raise_if mbind result_bind].
  destruct installed_distribution_set as [d|]; [|done]. cbn [mbind result_bind]. destruct (compute_lock_fingerprint d) as [f|]; [|done]. by eexists.
Qed.
End Gates.

(** *** The order in which distributions are found does not matter *)

Section Order.
Context `{HostEnv}.

(** Every distribution is named, and a canonical name has one version. *)
Definition unambiguous (found : list (option pystr * pystr)) : Prop :=
  (forall d, d ∈ found -> is_Some d.1) /\
  forall a b v w, (Some a, v) ∈ found -> (Some b, w) ∈ found -> canonicalize_name a = canonicalize_name b -> v = w.

(** The entries of the dictionary that is built. *)
Definition holds_exactly (seen : odict pystr pystr) (found : list (option pystr * pystr)) : Prop :=
  NoDup (od_keys seen) /\ forall k v, (k, v) ∈ seen <-> exists raw, (Some raw, v) ∈ found /\ canonicalize_name raw = k.

Lemma seen_step before seen d : holds_exactly seen before -> unambiguous before ->
  match see_distribution seen d with
  | Ok seen' => holds_exactly seen' (before ++ [d]) /\ unambiguous (before ++ [d])
  | Err _ => ~ unambiguous (before ++ [d])
  end.
Proof.
  intros [Hnd Hs] [U1 U2]. destruct d as [[raw|] v]; unfold see_distribution; cbn [fst snd].
  2: { intros [U _]. destruct (U (None, v)) as [? ?]; [apply elem_of_app; right; left|done]. }
  destruct (od_get seen (canonicalize_name raw)) as [w|] eqn:E.
  - apply od_get_elem, Hs in E as (raw0 & Hin0 & E0).
    destruct (bool_decide (w = v)) eqn:Ev; cbn [negb raise_if mbind result_bind]; bool_prop.
    + subst w. split; [split; [done|]|split].
      * intros k u. rewrite Hs. split; [intros (r & ? & ?); exists r; split; [apply elem_of_app; by left|done]|].
        intros (r & [?|[= -> ->]%list_elem_of_singleton]%elem_of_app & <-); [by exists r|by exists raw0].
      * intros d [?| ->%list_elem_of_singleton]%elem_of_app; [by apply U1|by eexists].
      * intros a b x y [Ha|[= -> ->]%list_elem_of_singleton]%elem_of_app [Hb|[= -> ->]%list_elem_of_singleton]%elem_of_app Hab; [by eapply U2| | |done].
        -- eapply U2; [exact Ha|exact Hin0|congruence].
        -- eapply U2; [exact Hin0|exact Hb|congruence].
    + intros [_ U]. apply Ev, (U raw0 raw); [apply elem_of_app; by left|apply elem_of_app; right; left|done].
  - assert (Hfresh : forall u, (canonicalize_name raw, u) ∉ seen) by (intros u Hu; apply (od_get_unique _ _ _ Hnd) in Hu; congruence).
    apply od_get_none in E. split; [split; [by apply od_set_nodup|]|split].
    + rewrite od_set_new by done. intros k u. rewrite elem_of_app, list_elem_of_singleton, Hs. split.
      * intros [(r & ? & ?)|[= -> ->]]; [exists r; split; [apply elem_of_app; by left|done]|exists raw; split; [apply elem_of_app; right; left|done]].
      * intros (r & [?|[= -> ->]%list_elem_of_singleton]%elem_of_app & <-); [left; by exists r|by right].
    + intros d [?| ->%list_elem_of_singleton]%elem_of_app; [by apply U1|by eexists].
    + intros a b x y [Ha|[= -> ->]%list_elem_of_singleton]%elem_of_app [Hb|[= -> ->]%list_elem_of_singleton]%elem_of_app Hab; [by eapply U2| | |done].
      * exfalso. apply (Hfresh x), Hs. by exists a.
      * exfalso. apply (Hfresh y), Hs. by exists b.
Qed.

Lemma seen_all found : forall before seen, holds_exactly seen before -> unambiguous before ->
  match for_each see_distribution found seen with
  | Ok seen' => holds_exactly seen' (before ++ found) /\ unambiguous (before ++ found)
  | Err _ => ~ unambiguous (before ++ found)
  end.
Proof.
  induction found as [|d found IH]; intros before seen Hs Hu; cbn [for_each]; [by rewrite app_nil_r|].
  pose proof (seen_step before seen d Hs Hu) as Hd. destruct (see_distribution seen d) as [seen'|e]; cbn [mbind result_bind].
  - destruct Hd as [Hs' Hu']. specialize (IH _ _ Hs' Hu'). by rewrite <- app_assoc in IH.
  - intros [U1 U2]. assert (Hsub : forall x, x ∈ before ++ [d] -> x ∈ before ++ d :: found) by set_solver.
    apply Hd. split; [intros x Hx; by apply U1, Hsub|]. intros a b x y Ha Hb. apply U2; by apply Hsub.
Qed.

(** Found in another order, the same set comes out. *)
Lemma canonical_set_order found found' s : found ≡ₚ found' -> canonical_set found = Ok s -> canonical_set found' = Ok s.
Proof.
  intros Hp. unfold canonical_set. assert (H0 : holds_exactly [] []) by (split; [constructor|]; intros k v; split; [by intros ?%elem_of_nil|by intros (r & ?%elem_of_nil & _)]).
  assert (U0 : unambiguous []) by (split; [by intros d ?%elem_of_nil|by intros a b v w ?%elem_of_nil]).
  pose proof (seen_all found [] [] H0 U0) as H1. pose proof (seen_all found' [] [] H0 U0) as H2. cbn [app] in *.
  assert (Hu : unambiguous found -> unambiguous found') by (intros [U1 U2]; split; [intros d; rewrite <- Hp; apply U1|intros a b v w; rewrite <- Hp; apply U2]).
  destruct (for_each see_distribution found []) as [seen|]; [|done]. destruct H1 as [[N1 S1] U]. destruct (for_each see_distribution found' []) as [seen'|]; [|by destruct H2; apply Hu].
  destruct H2 as [[N2 S2] _]. cbn [mbind result_bind]. intros [= <-]. f_equal. symmetry. apply sorted_by_perm_eq; [done|].
  apply NoDup_Permutation; [by eapply NoDup_fmap_1|by eapply NoDup_fmap_1|]. intros [k v]. rewrite S1, S2. by setoid_rewrite Hp.
Qed.
End Order.
