(* ===== verification/DpFit.v ===== *)
(** * A private fit (quality/dp.py, dp_policy.py, dp_schema.py)

    From a table of carriers, its declared schema and a request for epsilon and delta to an
    artifact: check what is public, fix the schedule, open the session, only then sanitise
    the table and release every scheduled query once. Source frames of pandas go through an
    adapter that is not modelled; tables of carriers go straight in. *)

From S2P Require Import Prelude PyText PyData Floats DpCarriers DpSession DpProvenance.

(** ** Artifacts *)

Definition DP_SNAPSHOT_SCHEMA_VERSION : string := "dps-marginal/v3".
Definition DISTRIBUTION_SNAPSHOT_SCHEMA_VERSION : string := "distribution-snapshot/v1".
Definition DP_CODEC_ID : string := "decoy-carrier-codec".
Definition DP_CODEC_VERSION : string := "1".
Definition DP_RELEASE_SCOPE : string := "single-column-marginals".
Definition DP_ADJACENCY : string := "add-remove-one-row".
Definition DP_BOUNDARY_VALUES : list string := ["adapter"; "direct"]%string.
Definition DP_ACCOUNTANT_LABEL : string := "dp_accounting PLD composition over OpenDP privacy maps".
Definition _DP_NUMERIC_DTYPE_LABEL : string := "float64".
Definition _DP_CATEGORICAL_DTYPE_LABEL : string := "object".
Definition _DP_FLAG_DTYPE_LABEL : string := "bool".

Definition DpError (code : string) : exn := Exn "DpError" code.

(** The fixed text of what is released. *)
Definition _DP_NORMALIZATION_POLICY : art := obj [
  ("categorical_labels", text "a declared text column releases only genuine str cells, kept verbatim unless the value AS RECEIVED contains NUL or cannot be encoded as UTF-8 (numpy fixed-width string storage strips a trailing NUL before the fit sees it); a declared flag column releases the two canonical tokens 'true' and 'false'. The carrier declared for the column drives this, not how pandas happens to store the column");
  ("categorical_unsupported", text "released as null: in a text column every non-str cell (a boolean, any number, decimal or complex value, a datetime or timedelta, a container, and any other type); in a flag column every string or bytes value (even '1' or '0') and every other cell that does not convert to an exact real 0 or 1 (a 2 or a 0.5, a nonzero-imaginary complex, a datetime or timedelta, a container); and in either, text whose value AS RECEIVED carries NUL or is not UTF-8 encodable");
  ("numeric_values", text "float64, values outside the declared domain clamped to it, infinities clamped to the nearer bound, NaN released as null");
  ("numeric_unsupported", text "released as null (a list, tuple or array cell; a datetime or timedelta; a complex value with a nonzero imaginary part; and any value that cannot be converted to a float)")]%string.

(** What a fit reads of its surroundings: the host, parsing of a float's text, the
    versions it annotates, a fresh identifier. *)
Class FitEnv := {
  fit_host :: HostEnv;
  float_of_string : pystr -> option flt;
  opendp_version : pystr;
  dp_accounting_version : pystr;
  fresh_release_id : pystr;
}.

Section Public.
Context `{FitEnv}.

(** [float(v)] *)
Definition float_value (v : sval) : result f64 :=
  match v with
  | VBool b => Ok (Num (int_units (if b then 1 else 0)))
  | VInt n => py_float_of_int n
  | VFloat x => Ok x
  | VReal r | VOther r => r
  | VStr s => match float_of_string s with Some x => Ok (Num x) | None => Err ValueErr end
  | VNone | VSeq _ _ | VDict _ => Err TypeErr
  end.
Definition float_or (code : string) (v : sval) : result flt :=
  match float_value v with
  | Ok f => Ok (magnitude f)
  | Err e => if bool_decide (exc_class e = "TypeError"%string) || bool_decide (exc_class e = "ValueError"%string) then Err (DpError code) else Err e
  end.

Definition is_positive (x : flt) : bool := is_finite x && flt_ltb (FFin 0) x.

(** The knobs of a fit: epsilon finite and positive, delta between 0 and 1, at least two
    bins. *)
Definition _validate_fit_params (epsilon delta numeric_bins : sval) : result (flt * flt * Z) :=
  epsilon ← float_or "dp_epsilon_invalid" epsilon;
  _ ← raise_if (negb (is_positive epsilon)) (DpError "dp_epsilon_invalid");
  delta ← float_or "dp_delta_invalid" delta;
  _ ← raise_if (negb (is_positive delta && flt_ltb delta (int_units 1))) (DpError "dp_delta_invalid");
  match numeric_bins with
  | VInt n => _ ← raise_if (n <? 2) (DpError "dp_numeric_bins_invalid"); Ok (epsilon, delta, n)
  | _ => Err (DpError "dp_numeric_bins_invalid")
  end.

(** [lower + (upper - lower) * i / numeric_bins] for the inner cut points *)
Definition _interior_edges (lower upper : f64) (numeric_bins : Z) : list flt :=
  (fun i => fadd (magnitude lower) (fdiv (fmul (fsub (magnitude upper) (magnitude lower)) (to_float i)) (to_float numeric_bins)))
    <$> irange 1 (Z.to_nat (numeric_bins - 1)).

Fixpoint strictly_increasing (l : list flt) : bool :=
  match l with a :: (b :: _) as l' => negb (flt_leb b a) && strictly_increasing l' | _ => true end.
Definition _check_derived_edges (lower upper : f64) (numeric_bins : Z) : result unit :=
  let full := magnitude lower :: _interior_edges lower upper numeric_bins ++ [magnitude upper] in
  raise_if (negb (forallb is_finite full) || negb (strictly_increasing full)) (DpError "dp_numeric_domain_invalid").

Definition _flag_token (l : label) : pystr :=
  if match l with LFlag b => b | LText s => negb (bool_decide (s = [])) end then py "true" else py "false".

(** [max(0, round(float(v)))] *)
Definition _serialize_count (n : Z) : result Z :=
  f ← py_float_of_int n;
  match magnitude f with FFin z => Ok (Z.max 0 (round_half_even z (2 ^ tiny float64))) | _ => Err (exc "OverflowError") end.

(** *** The public part: what is fixed before any cell is read *)

Record fit_plan := {
  fit_epsilon : flt;
  fit_delta : flt;
  fit_bins : Z;
  fit_schema : list (pystr * sval);
  numeric_bounds : odict pystr (f64 * f64);
  categorical_carriers : odict pystr pystr;
  fit_provenance : Provenance;
}.
Definition numeric_cols (p : fit_plan) : list pystr := sorted (od_keys (numeric_bounds p)).
Definition categorical_cols (p : fit_plan) : list pystr := sorted (od_keys (categorical_carriers p)).
(** [numeric_bounds[c]] of a declared column *)
Definition bounds_in (numeric_bounds : odict pystr (f64 * f64)) (c : pystr) : f64 * f64 := default (Num (FFin 0), Num (FFin 0)) (od_get numeric_bounds c).
Definition bounds_of (p : fit_plan) (c : pystr) : f64 * f64 := bounds_in (numeric_bounds p) c.
Definition carrier_of (p : fit_plan) (c : pystr) : pystr := default [] (od_get (categorical_carriers p) c).

Definition numeric_query (c : pystr) : pystr := py "numeric:" ++ c.
Definition grouped_query (c : pystr) : pystr := py "categorical_grouped:" ++ c.
Definition total_query (c : pystr) : pystr := py "categorical_total:" ++ c.

Definition plan_schedule (p : fit_plan) : Schedule := {|
  row_count_name := py "row_count";
  numeric := (fun c => {| nq_name := numeric_query c; interior_edges := _interior_edges (bounds_of p c).1 (bounds_of p c).2 (fit_bins p) |}) <$> numeric_cols p;
  categorical := (fun c => {| grouped_name := grouped_query c; total_name := total_query c; cq_carrier := carrier_of p c |}) <$> categorical_cols p;
|}.

Definition plan_fit (column_schema epsilon delta numeric_bins : sval) : result fit_plan :=
  knobs ← _validate_fit_params epsilon delta numeric_bins;
  let '(epsilon, delta, bins) := knobs in
  let frozen := freeze_column_schema column_schema in
  parsed ← parse_column_schema frozen;
  let '(numeric_bounds, categorical_carriers) := parsed in
  _ ← for_each (fun _ c => let b := bounds_in numeric_bounds c in _check_derived_edges b.1 b.2 bins) (sorted (od_keys numeric_bounds)) tt;
  _ ← check_fit_environment;
  provenance ← current_provenance;
  Ok {| fit_epsilon := epsilon; fit_delta := delta; fit_bins := bins; fit_schema := match frozen with VDict d => d | _ => [] end;
        numeric_bounds := numeric_bounds; categorical_carriers := categorical_carriers; fit_provenance := provenance |}.
End Public.

(** ** Releases *)

Section Fit.
Context `{CellOps} `{FitEnv} `{Mechanisms} `{Accounting} (bk : backend).

Definition floats_of (v : option vector) : result (list f64) :=
  match v with Some (Numbers l) => Ok l | Some _ => Err TypeErr | None => Err (exc "KeyError") end.
Definition some_vector (v : option vector) : result vector := match v with Some v => Ok v | None => Err (exc "KeyError") end.

Definition num (x : flt) : art := AFloat (Num x).

(** One numeric marginal. *)
Definition numeric_block (p : fit_plan) (row_count : Z) (c : pystr) (raw_counts : list Z) : result art :=
  let '(lower, upper) := bounds_of p c in
  bin_counts ← map_res _serialize_count raw_counts;
  let non_null_count := foldr Z.add 0 bin_counts in
  Ok (obj [
    ("dtype", text _DP_NUMERIC_DTYPE_LABEL); ("kind", text "numeric"); ("carrier", text "number");
    ("null_count", AInt (Z.max 0 (row_count - non_null_count))); ("non_null_count", AInt non_null_count);
    ("distinct_count", AInt (zlen (filter (fun n => 0 < n)%Z bin_counts)));
    ("stats", obj [
      ("bin_edges", AList (AFloat lower :: (num <$> _interior_edges lower upper (fit_bins p)) ++ [AFloat upper]));
      ("bin_counts", AList (AInt <$> bin_counts));
      ("min", AFloat lower); ("max", AFloat upper); ("mean", ANone); ("std", ANone); ("quantiles", ADict [])])])%string.

Definition retained_label (carrier : pystr) (l : label) : result pystr :=
  if bool_decide (carrier = py "flag") then Ok (_flag_token l)
  else match l with LText s => Ok s | LFlag _ => Err TypeErr end.

(** One categorical marginal: the labels the mechanism kept, most frequent first. *)
Definition categorical_block (p : fit_plan) (row_count : Z) (c : pystr) (grouped : list (label * Z)) (total : Z) : result art :=
  let carrier := carrier_of p c in
  retained ← map_res (fun lc : label * Z => token ← retained_label carrier lc.1; n ← _serialize_count lc.2; Ok (token, n)) grouped;
  let retained := sorted_by (fun tn : pystr * Z => (- tn.2, tn.1)) retained in
  non_null_total ← _serialize_count total;
  let other_count := Z.max 0 (non_null_total - foldr Z.add 0 (snd <$> retained)) in
  Ok (obj [
    ("dtype", text (if bool_decide (carrier = py "flag") then _DP_FLAG_DTYPE_LABEL else _DP_CATEGORICAL_DTYPE_LABEL));
    ("kind", text "categorical"); ("carrier", AStr carrier);
    ("null_count", AInt (Z.max 0 (row_count - non_null_total))); ("non_null_count", AInt non_null_total);
    ("distinct_count", AInt (zlen retained + (if 0 <? other_count then 1 else 0))%Z);
    ("stats", obj [
      ("top_values", AList ((fun tn : pystr * Z => obj [("value", AStr tn.1); ("count", AInt tn.2)]%string) <$> retained));
      ("other_count", AInt other_count)])])%string.

(** The artifact of a finished fit. *)
Definition recorded_schema (p : fit_plan) : art :=
  ADict (((fun c => (c, obj [("kind", text "numeric"); ("carrier", text "number"); ("bounds", AList [AFloat (bounds_of p c).1; AFloat (bounds_of p c).2])]%string)) <$> numeric_cols p) ++
         ((fun c => (c, obj [("kind", text "categorical"); ("carrier", AStr (carrier_of p c))]%string)) <$> categorical_cols p)).

Definition dp_block (p : fit_plan) (epsilon_total delta_total : flt) : art :=
  obj [
    ("schema", text DP_SNAPSHOT_SCHEMA_VERSION); ("release_id", AStr fresh_release_id);
    ("scope", text DP_RELEASE_SCOPE); ("adjacency", text DP_ADJACENCY); ("normalization_policy", _DP_NORMALIZATION_POLICY);
    ("epsilon_total", num epsilon_total); ("delta_total", num delta_total); ("accountant", text DP_ACCOUNTANT_LABEL);
    ("opendp_version", AStr opendp_version); ("dp_accounting_version", AStr dp_accounting_version);
    ("query_count", AInt (query_count (plan_schedule p))); ("numeric_bins", AInt (fit_bins p));
    ("categorical_columns", AList (AStr <$> categorical_cols p));
    ("numeric_domains", ADict ((fun c => (c, AList [AFloat (bounds_of p c).1; AFloat (bounds_of p c).2])) <$> numeric_cols p));
    ("column_schema", recorded_schema p);
    ("codec", obj [("id", text DP_CODEC_ID); ("version", text DP_CODEC_VERSION)]);
    ("boundary", text "direct"); ("provenance", provenance_record (fit_provenance p))]%string.

Definition fit_artifact (p : fit_plan) (row_count : Z) (blocks : list (pystr * art)) (epsilon_total delta_total : flt) : art :=
  obj [
    ("schema_version", text DISTRIBUTION_SNAPSHOT_SCHEMA_VERSION); ("row_count", AInt row_count);
    ("columns", ADict blocks); ("joints", AList []); ("dp", dp_block p epsilon_total delta_total)]%string.

(** *** The loops over the columns *)

Fixpoint each {A B} (f : A -> method B) (l : list A) : method (list B) :=
  match l with [] => pass [] | a :: l => andthen (f a) (fun b => andthen (each f l) (fun bs => pass (b :: bs))) end.

Definition release_numeric_column (p : fit_plan) (table : odict pystr vector) (row_count : Z) (c : pystr) : method (pystr * art) :=
  andthen (lift_result (floats_of (od_get table c))) (fun values =>
  andthen (release_numeric bk (numeric_query c) values) (fun raw =>
  lift_result (b ← numeric_block p row_count c raw; Ok (c, b)))).

Definition release_categorical_column (p : fit_plan) (table : odict pystr vector) (row_count : Z) (c : pystr) : method (pystr * art) :=
  andthen (lift_result (some_vector (od_get table c))) (fun values =>
  andthen (release_categorical bk (grouped_query c) (total_query c) values) (fun gt =>
  lift_result (b ← categorical_block p row_count c gt.1 gt.2; Ok (c, b)))).

Definition of_session {A} (f : release_session -> result A) : method A := fun x => Done (x, f x).

Definition release_everything (p : fit_plan) (table : SaneTable) : method art :=
  let vectors := released_values table in
  andthen (release_row_count bk (sane_count table)) (fun n =>
  andthen (lift_result (_serialize_count n)) (fun row_count =>
  andthen (each (release_numeric_column p vectors row_count) (numeric_cols p)) (fun numbers =>
  andthen (each (release_categorical_column p vectors row_count) (categorical_cols p)) (fun categories =>
  andthen (of_session (fun x => raise_if (negb (certificate_count x =? query_count (plan_schedule p))) (DpBudgetError "dp_schedule_mismatch"))) (fun _ =>
  andthen (of_session composed_loss) (fun loss =>
  pass (fit_artifact p row_count (numbers ++ categories) loss.1 loss.2))))))).

(** [fit_dp_snapshot] of a table of carriers, with the process's allocation cache: what it
    invokes and the artifact, or the error it raises. *)
Definition fit_dp_snapshot (source : CarrierTable) (column_schema epsilon delta numeric_bins : sval) (cache : allocation_cache)
  : allocation_cache * interaction (result art) :=
  match plan_fit column_schema epsilon delta numeric_bins with
  | Err e => (cache, Done (Err e))
  | Ok p =>
      let '(cache, session_open) := new_session bk opendp_version dp_accounting_version (plan_schedule p) (fit_epsilon p) (fit_delta p) cache in
      (cache, match session_open with
              | Err e => Done (Err e)
              | Ok x =>
                  match sanitize_carrier_table source (fit_schema p) with
                  | Err e => Done (Err e)
                  | Ok table => r ← release_everything p table x; mret (r.2)
                  end
              end)
  end.
End Fit.

(** ** A small private fit

    Concrete cells, measurements of a constant cost, accounting by addition, and a table of
    two columns: what the theorems about private fits are tried on. Floats are a few of the
    least units, so that everything evaluates quickly. *)

(** ** Cells *)

Inductive plain_cell := CFloat (x : f64) | CBool (b : bool) | CText (s : pystr) | CDate | CList.

#[global] Instance plain_cells : CellOps := {|
  cell := plain_cell;
  np_ndim c := Ok match c with CList => 1 | _ => 0 end;
  is_time c := Ok match c with CDate => true | _ => false end;
  is_complex_object _ := Ok false;
  is_textual c := Ok match c with CText _ => true | _ => false end;
  is_np_generic c := Ok match c with CFloat _ | CBool _ => true | _ => false end;
  dtype_kind c := Ok match c with CFloat _ => Some (py "f") | CBool _ => Some (py "b") | _ => None end;
  imag_nonzero _ := Ok false;
  real_part c := Ok c;
  np_item c := Ok c;
  py_float c := match c with
    | CFloat x => Ok x
    | CBool b => Ok (Num (int_units (if b then 1 else 0)))
    | CText _ => Err ValueErr
    | CDate | CList => Err TypeErr
    end;
  exact_str c := match c with CText s => Some s | _ => None end;
  of_float64 := CFloat;
  of_bool := CBool;
|}.

#[global] Instance plain_cell_laws : CellLaws.
Proof. by split. Qed.

(** ** Measurements *)

Inductive exact_measurement := ExactCount (e : flt) | ExactBins (e : flt) (bins : nat) | ExactGroups (e d : flt).

#[global] Instance exact_mechanisms : Mechanisms := {|
  measurement := exact_measurement;
  measurement_map m := Ok match m with ExactCount e | ExactBins e _ => PureLoss e | ExactGroups e d => ApproxLoss e d end;
|}.

#[global] Instance additive_accounting : Accounting := {|
  pld := flt;
  from_privacy_parameters e _ := Ok e;
  pld_compose := fadd;
  get_epsilon_for_delta p _ := if flt_leb (FFin 0) p then p else FFin 0;
|}.

Definition units (n : Z) : f64 := Num (FFin n).
Definition cost : flt := FFin 10.
(** A backend whose measurements do not get cheaper. *)
Definition exact_backend : backend := {|
  count_measurement _ := Ok (ExactCount cost);
  numeric_measurement _ edges := Ok (ExactBins cost (S (length edges)));
  categorical_measurements _ d := Ok (ExactGroups cost d, ExactCount cost);
  categorical_measurements_flag := None;
  cache_namespace := Some (py "exact");
|}.

#[global] Instance bare_host : HostEnv := {|
  distributions := [];
  canonicalize_name n := n;
  sha256_hex _ := py "7d1c1a2a2be450a59fa17d810663a7bfe5e825204cca99bfe039ba12b6226aed";
  sys_platform := py "linux";
  machine_name := py "x86_64";
  python_implementation := py "CPython";
  libc_ver := py "glibc";
  version_info := (3, 10, 20, py "final");
|}.

#[global] Instance small_environment : FitEnv := {|
  fit_host := bare_host;
  float_of_string _ := None;
  opendp_version := py "0.12";
  dp_accounting_version := py "0.4";
  fresh_release_id := py "r1";
|}.

(** ** A table and its declaration *)

Definition schema_entry (k : string) (v : sval) : pystr * sval := (py k, v).
Definition example_schema : sval := VDict [
  schema_entry "age" (VDict [schema_entry "kind" (VStr (py "numeric")); schema_entry "carrier" (VStr (py "number")); schema_entry "bounds" (VSeq false [VFloat (units 0); VFloat (units 100)])]);
  schema_entry "city" (VDict [schema_entry "carrier" (VStr (py "text"))])].

Definition example_table : CarrierTable := {|
  row_count := PInt 2;
  columns := [(py "age", NumberColumn (FloatArray [units 30; Num FNan]) (BoolArray [true; true]));
              (py "city", TextColumn (Some [CText (py "Oslo"); CDate]) (BoolArray [true; true]))];
|}.
(** The same with a row more, in the middle. *)
Definition longer_table : CarrierTable := {|
  row_count := PInt 3;
  columns := [(py "age", NumberColumn (FloatArray [units 30; units 140; Num FNan]) (BoolArray [true; true; true]));
              (py "city", TextColumn (Some [CText (py "Oslo"); CText (py "Rome"); CDate]) (BoolArray [true; true; true]))];
|}.

Definition example_epsilon : sval := VFloat (units 100).
Definition example_delta : sval := VFloat (units 4).
Definition ok_or {A} (other : A) (r : result A) : A := match r with Ok a => a | Err _ => other end.
Definition no_plan : fit_plan := {| fit_epsilon := FNan; fit_delta := FNan; fit_bins := 0; fit_schema := []; numeric_bounds := []; categorical_carriers := [];
  fit_provenance := {| platform := CERTIFIED_PLATFORM; cpython := []; fingerprint := [] |} |}.
Definition example_plan : fit_plan := Eval vm_compute in ok_or no_plan (plan_fit example_schema example_epsilon example_delta (VInt 2)).

(** ** A session of a schedule with one query of each kind *)

Definition example_schedule : Schedule := {|
  row_count_name := py "rows";
  numeric := [{| nq_name := py "age"; interior_edges := [FFin 50] |}];
  categorical := [{| grouped_name := py "cities"; total_name := py "city total"; cq_carrier := py "text" |}];
|}.
(** A session as opened, by the loss per query that was found. *)
Definition session_at (s : Schedule) (epsilon delta q : flt) : release_session := {|
  _schedule := s; _epsilon := epsilon; _delta := delta; _delta_per_categorical := delta_per_categorical s delta;
  _releases := []; _reserved := ∅; _eps_q := q
|}.
Definition example_key (s : Schedule) (epsilon delta : flt) : budget_key := _budget_cache_key opendp_version dp_accounting_version s epsilon delta (py "exact").

(** Every query answered once: rows, bins, groups, total. *)
Definition example_answers : list (result released) := [Ok (Count 2); Ok (Counts [1; 0]); Ok (Groups [(LText (py "Oslo"), 1)]); Ok (Count 1)].

Definition example_sanitized : SaneTable := {|
  sane_count := 2;
  sane_columns := [(py "age", SaneNumber [units 30; Num (FFin 0)] [true; false]); (py "city", SaneText [py "Oslo"; []] [true; false])];
|}.
Example example_sanitizes : sanitize_carrier_table example_table (fit_schema example_plan) = Ok example_sanitized.
Proof. by vm_compute. Qed.

Example example_plans : plan_fit example_schema example_epsilon example_delta (VInt 2) = Ok example_plan.
Proof. by vm_compute. Qed.

Example example_planned : query_names (plan_schedule example_plan) = py <$> ["row_count"; "numeric:age"; "categorical_grouped:city"; "categorical_total:city"]%string.
Proof. by vm_compute. Qed.
