(* ===== verification/DpCarriersTheory.v ===== *)
(** * What a row can change

    The codecs answer for every cell; sanitising is recordwise. So two tables that differ
    in one row are refused alike, or release vectors that differ in at most one element:
    the stability that the mechanisms' guarantee is stated for. *)

From S2P Require Import Prelude PyText PyData Floats DpCarriers.

(** ** One row more *)

Definition insert_at {A} (i : nat) (x : A) (l : list A) : list A := take i l ++ x :: drop i l.

Lemma insert_at_length {A} i (x : A) l : zlen (insert_at i x l) = zlen l + 1.
Proof. unfold insert_at, zlen. rewrite length_app. cbn [length]. rewrite length_take, length_drop. lia. Qed.

Lemma insert_at_elem {A} i (x y : A) l : y ∈ insert_at i x l <-> y = x \/ y ∈ l.
Proof. unfold insert_at. rewrite elem_of_app, elem_of_cons. rewrite <- (take_drop i l) at 3. rewrite elem_of_app. tauto. Qed.

Lemma zip_insert {A B} i (a : A) (b : B) l k : length l = length k -> zip (insert_at i a l) (insert_at i b k) = insert_at i (a, b) (zip l k).
Proof.
  unfold insert_at. revert l k. induction i as [|i IH]; intros [|x l] [|y k] H; try done. cbn in *. f_equal. apply IH. lia.
Qed.

(** At most one element more. *)
Definition one_more {A} (l l' : list A) : Prop := l' = l \/ exists i x, l' = insert_at i x l.

Lemma omap_insert {A B} (f : A -> option B) i x l : one_more (omap f l) (omap f (insert_at i x l)).
Proof.
  unfold insert_at. rewrite omap_app. rewrite <- (take_drop i l) at 1. rewrite omap_app. cbn. destruct (f x) as [b|]; [right|by left].
  exists (length (omap f (take i l))), b. unfold insert_at. by rewrite take_app_length, drop_app_length.
Qed.

Section Stability.
Context `{CellLaws}.

(** ** The codecs are total *)

(** No hook of a cell stops the program. *)
Definition calm_cell (c : cell) : Prop :=
  (forall e, np_ndim c = Err e -> interrupts e = false) /\ (forall e, is_np_generic c = Err e -> interrupts e = false) /\
  (forall e, np_item c = Err e -> interrupts e = false).

Lemma total_cell_ok {A} (r : result (option A)) : (forall e, r = Err e -> interrupts e = false) -> exists o, total_cell r = Ok o.
Proof. intros Hr. destruct r as [o|e]; [by exists o|]. cbn. rewrite (Hr e eq_refl). by exists None. Qed.

Lemma decode_text_calm c : calm_cell c -> exists d, decode_text c = Ok d.
Proof.
  intros (Hn & Hg & Hi). unfold decode_text.
  match goal with |- context [total_cell ?b] => destruct (total_cell_ok b) as [o Ho] end; [|rewrite Ho; cbn; by destruct o; eexists].
  intros e. unfold _is_container. destruct (np_ndim c) as [n|x] eqn:En; cbn; [|intros [= <-]; by apply Hn].
  destruct (negb (n =? 0)); [done|]. destruct (is_np_generic c) as [g|x] eqn:Eg; cbn; [|intros [= <-]; by apply Hg].
  assert (Hitem : forall e, (if (g : bool) then np_item c else Ok c) = Err e -> interrupts e = false) by (destruct g; [apply Hi|done]).
  destruct (if g then np_item c else Ok c) as [v|x] eqn:Ev; cbn; [|intros [= <-]; by apply Hitem].
  destruct (exact_str v) as [s|]; [|done]. destruct (bool_decide (0 ∈ s)); [done|]. destruct (existsb surrogate s); [by intros [= <-]|done].
Qed.

(** Text is kept as it is, without NUL and surrogates. *)
Definition text_safe (s : pystr) : Prop := (0 ∉ s) /\ forall c, c ∈ s -> surrogate c = false.
Lemma decode_text_safe c s : decode_text c = Ok (s, true) -> text_safe s /\ exists v, exact_str v = Some s.
Proof.
  unfold decode_text. match goal with |- context [total_cell ?b] => destruct b as [o|e] eqn:Eb end; cbn; [|by destruct (interrupts e)].
  destruct o as [t|]; [|done]. intros [= <-]. unfold _is_container in Eb. destruct (np_ndim c) as [n|]; [|done]. cbn in Eb.
  destruct (negb (n =? 0)); [done|]. destruct (is_np_generic c) as [g|]; [|done]. cbn in Eb.
  destruct (if g then np_item c else Ok c) as [v|] eqn:Ev; cbn in Eb; [|done]. destruct (exact_str v) as [u|] eqn:Es; [|done].
  destruct (bool_decide (0 ∈ u)) eqn:E0; [done|]. destruct (existsb surrogate u) eqn:Es'; [done|]. injection Eb as <-. bool_prop.
  split; [split; [done|]|by exists v]. intros x Hx%list_elem_of_In. destruct (surrogate x) eqn:Ex; [|done].
  assert (existsb surrogate u = true) by (apply existsb_exists; by exists x). congruence.
Qed.

(** The number and the flag of an array's element. *)
Definition number_cell (lower upper x : f64) : f64 * bool := match magnitude x with FNan => _INVALID_NUMBER | _ => (clamp lower upper x, true) end.

Lemma plain_kinds : bool_decide (Some (py "f") = Some (py "M") \/ Some (py "f") = Some (py "m")) = false /\ bool_decide (Some (py "f") = Some (py "c")) = false /\
  bool_decide (Some (py "b") = Some (py "M") \/ Some (py "b") = Some (py "m")) = false /\ bool_decide (Some (py "b") = Some (py "c")) = false.
Proof. by vm_compute. Qed.

Lemma decode_float64 lower upper x : decode_number (of_float64 x) lower upper = Ok (number_cell lower upper x).
Proof.
  destruct (float64_scalar x) as (Hn & Ht & Hk & Hc & Hf). unfold decode_number, _is_container, _is_datetimelike, scalar_float, _is_complex.
  destruct plain_kinds as (K1 & K2 & _). rewrite Hn, Ht, Hk, Hc, Hf. cbn [mbind result_bind Z.eqb negb]. rewrite K1, K2. cbn. unfold number_cell. by destruct (magnitude x).
Qed.

Lemma decode_bool b : decode_flag (of_bool b) = Ok (b, true).
Proof.
  destruct (bool_scalar b) as (Hn & Ht & Hk & Hs & Hc & Hf). unfold decode_flag, _is_container, _is_datetimelike, scalar_float, _is_complex.
  destruct plain_kinds as (_ & _ & K1 & K2). rewrite Hn, Ht, Hk, Hs, Hc, Hf. cbn [mbind result_bind Z.eqb negb]. rewrite K1, K2. by destruct b; vm_compute.
Qed.

(** ** Cells row by row *)

(** The elements that are released of a column whose cells decode to [g]. *)
Definition decoded {A B} (g : A -> B * bool) (cells : list (bool * A)) : list B :=
  omap (fun p : bool * A => if p.1 then (if (g p.2).2 then Some (g p.2).1 else None) else None) cells.

Lemma sanitize_cells_decoded {A B} (decode : A -> result (B * bool)) (g : A -> B * bool) dflt values validity :
  length values = length validity -> (forall v, v ∈ values -> decode v = Ok (g v)) ->
  exists out, sanitize_cells decode dflt values validity = Ok out /\ valid_only out.1 out.2 = decoded g (zip validity values).
Proof.
  revert validity. induction values as [|v values IH]; intros [|ok validity] Hl Hg; try done; [by exists ([], [])|].
  destruct (IH validity) as ([vs oks] & E & Hout); [by injection Hl|intros; apply Hg; by right|]. cbn [sanitize_cells]. rewrite E.
  destruct ok; cbn; [|by eexists; split; [done|]].
  rewrite (Hg v) by left. cbn. eexists. split; [done|]. cbn in *. rewrite Hout. destruct (g v) as [b k]. by destruct k.
Qed.

(** ** One row more in a table *)

Inductive array_more (i : nat) : nparray -> nparray -> Prop :=
| more_bools l b : array_more i (BoolArray l) (BoolArray (insert_at i b l))
| more_floats l x : array_more i (FloatArray l) (FloatArray (insert_at i x l))
| more_other : array_more i OtherArray OtherArray.

Inductive column_more (i : nat) : CarrierColumn -> CarrierColumn -> Prop :=
| more_number v v' w w' : array_more i v v' -> array_more i w w' -> column_more i (NumberColumn v w) (NumberColumn v' w')
| more_flag v v' w w' : array_more i v v' -> array_more i w w' -> column_more i (FlagColumn v w) (FlagColumn v' w')
| more_text l c w w' : array_more i w w' -> column_more i (TextColumn (Some l) w) (TextColumn (Some (insert_at i c l)) w')
| more_no_text w w' : array_more i w w' -> column_more i (TextColumn None w) (TextColumn None w').

(** [t'] is [t] with a row more: one cell in every column, at the same place. *)
Definition row_more (t t' : CarrierTable) : Prop :=
  exists i n, 0 <= n /\ row_count t = PInt n /\ row_count t' = PInt (n + 1) /\
    Forall2 (fun p q => p.1 = q.1 /\ column_more i p.2 q.2) (columns t) (columns t').

Definition calm_column (c : CarrierColumn) : Prop := match c with TextColumn (Some l) _ => Forall calm_cell l | _ => True end.
Definition calm_table (t : CarrierTable) : Prop := Forall (fun p => calm_column p.2) (columns t).

Inductive vector_more : vector -> vector -> Prop :=
| vm_numbers l l' : one_more l l' -> vector_more (Numbers l) (Numbers l')
| vm_flags l l' : one_more l l' -> vector_more (Flags l) (Flags l')
| vm_texts l l' : one_more l l' -> vector_more (Texts l) (Texts l').

(** Both fail alike, or both succeed with related values. *)
Definition alike {A B} (R : A -> B -> Prop) (r : result A) (r' : result B) : Prop :=
  match r, r' with Ok a, Ok b => R a b | Err e, Err e' => e = e' | _, _ => False end.

Lemma alike_bind {A B C D} (R : A -> B -> Prop) (S : C -> D -> Prop) r r' (f : A -> result C) (f' : B -> result D) :
  alike R r r' -> (forall a b, R a b -> alike S (f a) (f' b)) -> alike S (a ← r; f a) (b ← r'; f' b).
Proof. destruct r, r'; cbn; intros H1 H2; try done. by apply H2. Qed.

Lemma alike_refl {A} (r : result A) : alike eq r r.
Proof. by destruct r. Qed.
Lemma alike_guard {C D} (S : C -> D -> Prop) b e r r' : alike S r r' -> alike S (_ ← raise_if b e; r) (_ ← raise_if b e; r').
Proof. by destruct b. Qed.

(** Decoding a column whose cells are all decoded, with and without the row. *)
Lemma cells_more {A B} (decode : A -> result (B * bool)) (g : A -> B * bool) dflt i v b values validity (make : list B -> list bool -> SaneColumn) (wrap : list B -> vector) :
  length values = length validity -> (forall x, x ∈ insert_at i v values -> decode x = Ok (g x)) ->
  (forall vs oks, released_column (make vs oks) = wrap (valid_only vs oks)) -> (forall l l', one_more l l' -> vector_more (wrap l) (wrap l')) ->
  alike (fun s s' => vector_more (released_column s) (released_column s'))
    (out ← sanitize_cells decode dflt values validity; Ok (make out.1 out.2))
    (out ← sanitize_cells decode dflt (insert_at i v values) (insert_at i b validity); Ok (make out.1 out.2)).
Proof.
  intros Hl Hg Hmake Hwrap.
  destruct (sanitize_cells_decoded decode g dflt values validity) as (out & -> & Hout); [done|intros x Hx; apply Hg, insert_at_elem; by right|].
  destruct (sanitize_cells_decoded decode g dflt (insert_at i v values) (insert_at i b validity)) as (out' & -> & Hout').
  { pose proof (insert_at_length i v values) as L1. pose proof (insert_at_length i b validity) as L2. unfold zlen in *. lia. }
  { done. }
  cbn. rewrite !Hmake, Hout, Hout'. apply Hwrap. rewrite zip_insert by done. apply omap_insert.
Qed.

Definition text_cell (c : cell) : pystr * bool := match decode_text c with Ok d => d | Err _ => _INVALID_TEXT end.

Lemma zlen_same {A B} (l : list A) (k : list B) n : zlen l = n -> zlen k = n -> length l = length k.
Proof. unfold zlen. lia. Qed.

(** The checks of lengths come out alike. *)
Lemma length_more {A C D} (S : C -> D -> Prop) i (x : A) l n e r r' : (zlen l = n -> alike S r r') ->
  alike S (_ ← raise_if (negb (zlen l =? n)) e; r) (_ ← raise_if (negb (zlen (insert_at i x l) =? n + 1)) e; r').
Proof.
  intros Hr. rewrite insert_at_length. replace (zlen l + 1 =? n + 1) with (zlen l =? n) by lia.
  destruct (Z.eqb_spec (zlen l) n); cbn; [by apply Hr|done].
Qed.

Lemma validity_more {C D} (S : C -> D -> Prop) i w w' n f f' : array_more i w w' ->
  (forall l b, zlen l = n -> alike S (f l) (f' (insert_at i b l))) ->
  alike S (v ← _check_validity w n; f v) (v ← _check_validity w' (n + 1); f' v).
Proof.
  intros Hw Hf. destruct Hw as [l b|l x|]; try done. cbn. rewrite insert_at_length. replace (zlen l + 1 =? n + 1) with (zlen l =? n) by lia.
  destruct (Z.eqb_spec (zlen l) n); cbn; [by apply Hf|done].
Qed.

Definition column_alike : result SaneColumn -> result SaneColumn -> Prop := alike (fun s s' => vector_more (released_column s) (released_column s')).

Lemma number_more i c c' spec n : column_more i c c' -> column_alike (_sanitize_number c spec n) (_sanitize_number c' spec (n + 1)).
Proof.
  intros Hc. destruct Hc as [v v' w w' Hv Hw| | |]; try done. unfold column_alike, _sanitize_number. apply (validity_more _ i); [done|]. intros l b Hl.
  destruct Hv as [k x|k x|]; try done. apply length_more. intros Hk.
  destruct (od_get spec (py "bounds") ≫= unpack_two) as [[lower upper]|]; [|done].
  apply (alike_bind eq); [apply alike_refl|]. intros bounds ? <-.
  apply (cells_more _ (number_cell bounds.1 bounds.2) _ _ _ _ _ _ SaneNumber Numbers); [by eapply zlen_same|intros; apply decode_float64|done|by constructor].
Qed.

Lemma flag_more i c c' n : column_more i c c' -> column_alike (_sanitize_flag c n) (_sanitize_flag c' (n + 1)).
Proof.
  intros Hc. destruct Hc as [|v v' w w' Hv Hw| |]; try done. unfold column_alike, _sanitize_flag. apply (validity_more _ i); [done|]. intros l b Hl.
  destruct Hv as [k x|k x|]; try done. apply length_more. intros Hk.
  apply (cells_more _ (fun b => (b, true)) _ _ _ _ _ _ SaneFlag Flags); [by eapply zlen_same|intros; apply decode_bool|done|by constructor].
Qed.

Lemma text_more i c c' n : column_more i c c' -> calm_column c' -> column_alike (_sanitize_text c n) (_sanitize_text c' (n + 1)).
Proof.
  intros Hc Hcalm. destruct Hc as [| |k x w w' Hw|w w' Hw]; try done; unfold column_alike, _sanitize_text; (apply (validity_more _ i); [done|]); intros l b Hl; [|done].
  apply length_more. intros Hk.
  apply (cells_more _ text_cell _ _ _ _ _ _ SaneText Texts); [by eapply zlen_same| |done|by constructor].
  intros y Hy. cbn in Hcalm. rewrite list.Forall_forall in Hcalm. destruct (decode_text_calm y (Hcalm y Hy)) as [d Hd]. unfold text_cell. by rewrite Hd.
Qed.

(** *** All columns *)

Definition columns_alike : odict pystr SaneColumn -> odict pystr SaneColumn -> Prop :=
  Forall2 (fun p q => p.1 = q.1 /\ vector_more (released_column p.2) (released_column q.2)).

Lemma set_more acc acc' k s s' : columns_alike acc acc' -> vector_more (released_column s) (released_column s') -> columns_alike (od_set acc k s) (od_set acc' k s').
Proof.
  intros Hacc Hs. induction Hacc as [|[k1 s1] [k2 s2] acc acc' [E Hv] Hrest IH]; cbn in *; [by constructor|]. subst k2.
  by destruct (bool_decide (k1 = k)); constructor.
Qed.

Lemma columns_get {A B} (R : A -> B -> Prop) (d : odict pystr A) (d' : odict pystr B) k : Forall2 (fun p q => p.1 = q.1 /\ R p.2 q.2) d d' ->
  match od_get d k, od_get d' k with Some a, Some b => R a b | None, None => True | _, _ => False end.
Proof. induction 1 as [|[k1 a] [k2 b] d d' [E Hab] _ IH]; cbn in *; [done|]. subst k2. by destruct (bool_decide (k1 = k)). Qed.

Lemma columns_keys {A B} (R : A -> B -> Prop) (d : odict pystr A) (d' : odict pystr B) : Forall2 (fun p q => p.1 = q.1 /\ R p.2 q.2) d d' -> od_keys d = od_keys d'.
Proof. unfold od_keys. induction 1 as [|[k1 a] [k2 b] d d' [E _] _ IH]; cbn in *; congruence. Qed.

Lemma column_entry_more i n cols cols' acc acc' entry :
  Forall2 (fun p q => p.1 = q.1 /\ column_more i p.2 q.2) cols cols' -> Forall (fun p => calm_column p.2) cols' -> columns_alike acc acc' ->
  alike columns_alike (sanitize_column n cols acc entry) (sanitize_column (n + 1) cols' acc' entry).
Proof.
  intros Hcols Hcalm Hacc. unfold sanitize_column. destruct entry.2 as [| | | | | | |spec|]; try done.
  pose proof (columns_get _ _ _ entry.1 Hcols) as Hget. destruct (od_get cols entry.1) as [c|]; destruct (od_get cols' entry.1) as [c'|] eqn:Ec; try done.
  assert (Hc : calm_column c') by (apply od_get_elem in Ec; rewrite list.Forall_forall in Hcalm; by apply (Hcalm _ Ec)).
  apply (alike_bind (fun s s' => vector_more (released_column s) (released_column s'))); [|intros s s' Hs; cbn; by apply set_more].
  destruct (vget spec "carrier") as [| | | | |k| | |]; try done. repeat case_match; [by eapply number_more|by eapply flag_more|by eapply text_more|done].
Qed.

Lemma for_each_more i n cols cols' schema acc acc' :
  Forall2 (fun p q => p.1 = q.1 /\ column_more i p.2 q.2) cols cols' -> Forall (fun p => calm_column p.2) cols' -> columns_alike acc acc' ->
  alike columns_alike (for_each (sanitize_column n cols) schema acc) (for_each (sanitize_column (n + 1) cols') schema acc').
Proof.
  intros Hcols Hcalm. revert acc acc'. induction schema as [|entry schema IH]; intros acc acc' Hacc; [done|]. cbn [for_each].
  apply (alike_bind columns_alike); [by eapply column_entry_more|]. intros a b Hab. by apply IH.
Qed.

Definition table_step (s s' : SaneTable) : Prop :=
  0 <= sane_count s /\ sane_count s' = sane_count s + 1 /\ Forall2 (fun p q => p.1 = q.1 /\ vector_more p.2 q.2) (released_values s) (released_values s').

Lemma sanitize_more t t' schema : row_more t t' -> calm_table t' -> alike table_step (sanitize_carrier_table t schema) (sanitize_carrier_table t' schema).
Proof.
  intros (i & n & Hn & Hc & Hc' & Hcols) Hcalm. unfold sanitize_carrier_table. rewrite Hc, Hc', (columns_keys _ _ _ Hcols).
  replace (n + 1 <? 0) with false by lia. replace (n <? 0) with false by lia. cbn [raise_if mbind result_bind].
  apply alike_guard. apply (alike_bind columns_alike); [by eapply for_each_more; [done|done|constructor]|].
  intros cols cols' Hs. cbn. split; [done|]. split; [done|]. unfold released_values. cbn [sane_columns]. apply Forall2_fmap.
  eapply Forall2_impl; [|exact Hs]. intros [k a] [k2 b] [E1 E2]. by split.
Qed.
End Stability.
