(* ===== verification/DpSessionTheory.v ===== *)
(** * What a session spends

    Along every path of answers, a session invokes each scheduled measurement at most once
    and nothing else, whatever its client asks; what it reports is the composition of the
    certificates of exactly what it invoked, and keeps to the request. *)

From S2P Require Import Prelude PyText PyData Floats DpCarriers DpSession DpProvenance DpFit.

(** ** Paths *)

Section Paths.
Context `{Mechanisms}.

(** A computation on a path of answers: what was invoked, and the result. *)
Definition trace := list (measurement * vector).
Inductive plays {A} : interaction A -> trace -> A -> Prop :=
| plays_done a : plays (Done a) [] a
| plays_invoke m d k r tr a : plays (k r) tr a -> plays (Invoke m d k) ((m, d) :: tr) a.

Lemma plays_bind {A B} (f : A -> interaction B) t tr b : plays (ibind f t) tr b -> exists tr1 a tr2, tr = tr1 ++ tr2 /\ plays t tr1 a /\ plays (f a) tr2 b.
Proof.
  revert tr. induction t as [a|m d k IH]; intros tr Hp; cbn in Hp; [by exists [], a, tr; repeat constructor|].
  inversion Hp as [|? ? ? r tr' ? Hr]; subst. apply IH in Hr as (tr1 & a & tr2 & -> & H1 & H2). exists ((m, d) :: tr1), a, tr2. split; [done|]. split; [by econstructor|done].
Qed.

Lemma plays_andthen {A B} (f : method A) (g : A -> method B) x tr x' r : plays (andthen f g x) tr (x', r) ->
  (exists e, r = Err e /\ plays (f x) tr (x', Err e)) \/
  exists tr1 a x1 tr2, tr = tr1 ++ tr2 /\ plays (f x) tr1 (x1, Ok a) /\ plays (g a x1) tr2 (x', r).
Proof.
  intros Hp. apply plays_bind in Hp as (tr1 & [x1 [a|e]] & tr2 & -> & H1 & H2); [by right; exists tr1, a, x1, tr2|].
  left. inversion H2; subst. exists e. by rewrite app_nil_r.
Qed.

Lemma plays_result {A} (r : result A) x tr x' o : plays (lift_result r x) tr (x', o) -> tr = [] /\ x' = x /\ o = r.
Proof. destruct r; cbn; intros Hp; by inversion Hp. Qed.

(** The path of given answers. *)
Fixpoint follow {A} (t : interaction A) (answers : list (result released)) : option (trace * A) :=
  match t, answers with
  | Done a, [] => Some ([], a)
  | Invoke m d k, r :: answers => prod_map (cons (m, d)) id <$> follow (k r) answers
  | _, _ => None
  end.
Lemma follow_plays {A} (t : interaction A) answers tr a : follow t answers = Some (tr, a) -> plays t tr a.
Proof.
  revert answers tr. induction t as [b|m d k IH]; intros [|r answers] tr E; try discriminate; cbn in E; [injection E as <- <-; constructor|].
  destruct (follow (k r) answers) as [[tr' b]|] eqn:Ek; [|discriminate]. injection E as <- <-. econstructor. by eapply IH.
Qed.
End Paths.

Section Spending.
Context `{Mechanisms} `{Accounting} (bk : backend) (s : Schedule) (epsilon delta q : flt).
Abbreviation d_alloc := (delta_per_categorical s delta).

(** The measurement of a scheduled query. *)
Inductive scheduled : pystr -> measurement -> Prop :=
| scheduled_rows m : count_measurement bk q = Ok m -> scheduled (row_count_name s) m
| scheduled_numeric spec m : spec ∈ numeric s -> numeric_measurement bk q (interior_edges spec) = Ok m -> scheduled (nq_name spec) m
| scheduled_grouped spec p : spec ∈ categorical s -> _categorical_measurements bk q d_alloc (cq_carrier spec) = Ok p -> scheduled (grouped_name spec) p.1
| scheduled_total spec p : spec ∈ categorical s -> _categorical_measurements bk q d_alloc (cq_carrier spec) = Ok p -> scheduled (total_name spec) p.2.

Definition session_open (x : release_session) : Prop :=
  _schedule x = s /\ _epsilon x = epsilon /\ _delta x = delta /\ _delta_per_categorical x = d_alloc /\ _eps_q x = q.

(** What was invoked, by query. *)
Definition spending := list (pystr * (measurement * vector)).

Record accounted (x : release_session) (sp : spending) : Prop := {
  ac_opened : session_open x;
  ac_once : NoDup sp.*1;
  ac_known : forall n, n ∈ sp.*1 -> n ∈ od_keys (_releases x) \/ n ∈ _reserved x;
  ac_scheduled : Forall (fun e => scheduled e.1 e.2.1 /\ e.1 ∈ query_names s) sp;
  ac_certified : forall n r, od_get (_releases x) n = Some r -> exists m d, (n, (m, d)) ∈ sp /\ measurement_map m = Ok (certified r);
}.

(** Queries admitted and not yet invoked. *)
Definition admitted_only (S : gset pystr) (x : release_session) (sp : spending) : Prop :=
  accounted x sp /\ forall n, n ∈ S -> n ∈ _reserved x /\ (n ∉ sp.*1) /\ n ∈ query_names s.

Definition triple {A} (P : release_session -> spending -> Prop) (f : method A) (Q : A -> release_session -> spending -> Prop) : Prop :=
  forall x sp, P x sp -> forall tr x' r, plays (f x) tr (x', r) ->
    exists more, more.*2 = tr /\ accounted x' (sp ++ more) /\ forall a, r = Ok a -> Q a x' (sp ++ more).

Lemma triple_andthen {A B} P (f : method A) Q (g : A -> method B) R : triple P f Q -> (forall a, triple (Q a) (g a) R) -> triple P (andthen f g) R.
Proof.
  intros Hf Hg x sp HP tr x' r Hp. apply plays_andthen in Hp as [(e & -> & Hp)|(tr1 & a & x1 & tr2 & -> & H1 & H2)].
  - destruct (Hf _ _ HP _ _ _ Hp) as (more & <- & Hac & _). by exists more.
  - destruct (Hf _ _ HP _ _ _ H1) as (more & <- & Hac & HQ). destruct (Hg a _ _ (HQ a eq_refl) _ _ _ H2) as (more' & <- & Hac' & HR).
    exists (more ++ more'). rewrite fmap_app, app_assoc. done.
Qed.

Lemma triple_result {A} (r : result A) P : (forall x sp, P x sp -> accounted x sp) -> triple P (lift_result r) (fun a x sp => r = Ok a /\ P x sp).
Proof.
  intros HP x sp Hx tr x' o Hp. apply plays_result in Hp as (-> & -> & ->). exists []. rewrite app_nil_r. split; [done|]. split; [by apply HP|done].
Qed.

Lemma triple_throw {A} e P (Q : A -> release_session -> spending -> Prop) : (forall x sp, P x sp -> accounted x sp) -> triple P (raise_error e) Q.
Proof. intros HP x sp Hx tr x' o Hp. inversion Hp; subst. exists []. rewrite app_nil_r. split; [done|]. split; [by apply HP|done]. Qed.

Lemma pending_accounted S x sp : admitted_only S x sp -> accounted x sp.
Proof. by intros []. Qed.

Lemma has_key (d : odict pystr _Release) n : od_has d n = true <-> n ∈ od_keys d.
Proof.
  unfold od_has. rewrite bool_decide_eq_true. split.
  - intros [r Hr]. destruct (decide (n ∈ od_keys d)) as [|Hn]; [done|]. apply od_get_none in Hn. congruence.
  - intros Hn. destruct (od_get d n) eqn:E; [by eexists|]. by apply od_get_none in E.
Qed.

Lemma triple_admit S n : triple (admitted_only S) (_admit n) (fun _ x sp => admitted_only ({[ n ]} ∪ S) x sp /\ (n ∉ S)).
Proof.
  intros x sp [Hac HS] tr x' r Hp. unfold _admit in Hp. pose proof (ac_opened _ _ Hac) as (Es & _). rewrite Es in Hp.
  destruct (bool_decide (n ∈ query_names s)) eqn:En; cbn [negb] in Hp; [|inversion Hp; subst; exists []; by rewrite app_nil_r].
  destruct (od_has (_releases x) n || bool_decide (n ∈ _reserved x)) eqn:Ed; [inversion Hp; subst; exists []; by rewrite app_nil_r|].
  inversion Hp; subst. apply orb_false_iff in Ed as [E1 E2]. bool_prop. assert (Hk : n ∉ od_keys (_releases x)) by (intros Hk%has_key; congruence).
  assert (Hfresh : n ∉ sp.*1) by (intros [?|?]%(ac_known _ _ Hac); done).
  exists []. rewrite app_nil_r. split; [done|]. 
  assert (Hac' : accounted (set_reserved ({[n]} ∪ _reserved x) x) sp).
  { destruct Hac as [Ho H1 H2 H3 H4]. constructor; try done. intros k Hk'. cbn. destruct (H2 k Hk'); [by left|right; set_solver]. }
  split; [done|]. intros _ _. split; [split; [done|]|intros HnS; by apply HS in HnS as (? & _)].
  intros k [->%elem_of_singleton|Hk']%elem_of_union; cbn; [set_solver|]. destruct (HS k Hk') as (? & ? & ?). set_solver.
Qed.

Lemma set_keys {V} (d : odict pystr V) k v n : n ∈ od_keys (od_set d k v) <-> n = k \/ n ∈ od_keys d.
Proof.
  rewrite od_keys_set. destruct (od_has d k) eqn:E.
  - split; [by right|]. intros [->|]; [|done]. unfold od_has in E. bool_prop. destruct E as [w Hw]. destruct (decide (k ∈ od_keys d)) as [|Hn]; [done|].
    apply od_get_none in Hn. congruence.
  - rewrite elem_of_app, list_elem_of_singleton. tauto.
Qed.

Lemma triple_release S n m data : scheduled n m -> (n ∉ S) ->
  triple (admitted_only ({[ n ]} ∪ S)) (release_one n m data) (fun _ => admitted_only S).
Proof.
  intros Hm HnS x sp [Hac HS] tr x' r Hp. destruct (HS n ltac:(set_solver)) as (Hres & Hfresh & Hq).
  assert (Hkeep : accounted x sp) by done.
  unfold release_one in Hp. apply plays_andthen in Hp as [(e & -> & Hp)|(tr1 & c & x1 & tr2 & -> & H1 & H2)].
  { apply plays_result in Hp as (-> & -> & _). exists []. by rewrite app_nil_r. }
  apply plays_result in H1 as (-> & -> & Hc). cbn [app].
  assert (Hspent : accounted x (sp ++ [(n, (m, data))])).
  { destruct Hac as [Ho H1 H3 H4 H5]. constructor; [done| | | |].
    - rewrite fmap_app. apply list.NoDup_app. split; [done|]. split; [|apply list.NoDup_singleton]. intros k Hk ->%list_elem_of_singleton. done.
    - intros k. rewrite fmap_app, elem_of_app. intros [Hk| ->%list_elem_of_singleton]; [by apply H3|by right].
    - apply Forall_app. split; [done|]. constructor; [by split|constructor].
    - intros k r' Hr. destruct (H5 k r' Hr) as (m' & d' & Hin & Hmap). exists m', d'. split; [apply elem_of_app; by left|done]. }
  apply plays_andthen in H2 as [(e & -> & Hp)|(tr3 & v & x2 & tr4 & -> & H2 & H3)].
  { inversion Hp as [|? ? ? ? tr' ? Hr]; subst. inversion Hr; subst. by exists [(n, (m, data))]. }
  inversion H2 as [|? ? ? ? tr' ? Hr]; subst. inversion Hr; subst.
  apply plays_andthen in H3 as [(e & -> & Hp)|(tr5 & [] & x3 & tr6 & -> & H3 & H4)]; [by inversion Hp|].
  inversion H3; subst. inversion H4; subst. exists [(n, (m, data))]. split; [done|].
  destruct Hspent as [Ho K1 K2 K3 K4].
  assert (Hac' : accounted (set_releases (od_set (_releases x2) n {| certified := c; value := v |}) (set_reserved (_reserved x2 ∖ {[n]}) x2)) (sp ++ [(n, (m, data))])).
  { constructor; try done.
    - intros k Hk. cbn [_releases _reserved set_releases set_reserved]. rewrite set_keys. destruct (decide (k = n)) as [->|Hne]; [by left; left|]. destruct (K2 k Hk); [by left; right|right; set_solver].
    - intros k r' Hr'. cbn in Hr'. rewrite od_get_set in Hr'. case_bool_decide; subst.
      + injection Hr' as <-. exists m, data. split; [apply elem_of_app; right; left|done].
      + destruct (K4 k r' Hr') as (m' & d' & Hin & Hmap). by exists m', d'. }
  split; [done|]. intros a _. split; [done|]. intros k Hk. cbn. destruct (HS k ltac:(set_solver)) as (? & Hf & ?). split; [set_solver|]. split; [|done].
  rewrite fmap_app, elem_of_app. intros [?| ->%list_elem_of_singleton]; done.
Qed.

(** ** The methods *)

Lemma numeric_name spec : spec ∈ numeric s -> nq_name spec ∈ query_names s.
Proof. intros Hin. right. apply elem_of_app. left. apply list_elem_of_fmap. by exists spec. Qed.

Lemma triple_weaken {A} (P P' : release_session -> spending -> Prop) (f : method A) Q Q' :
  (forall x sp, P x sp -> P' x sp) -> triple P' f Q -> (forall a x sp, Q a x sp -> Q' a x sp) -> triple P f Q'.
Proof. intros HP Hf HQ x sp Hx tr x' r Hp. destruct (Hf x sp (HP _ _ Hx) tr x' r Hp) as (more & ? & ? & Hr). exists more. eauto 6. Qed.

Lemma find_spec {A} (P : A -> bool) l a : find P l = Some a -> a ∈ l /\ P a = true.
Proof. intros Hf. apply find_some in Hf as [Hin HP]. by rewrite list_elem_of_In. Qed.

(** A query admitted, measured and released alone. *)
Lemma triple_single {A} n (build : result measurement) data (f : released -> result A) : (forall m, build = Ok m -> scheduled n m) ->
  triple (admitted_only ∅)
    (andthen (_admit n) (fun _ => andthen (lift_result build) (fun m => andthen (release_one n m data) (fun v => lift_result (f v)))))
    (fun _ => admitted_only ∅).
Proof.
  intros Hm. eapply triple_andthen; [apply triple_admit|]. intros [].
  eapply triple_andthen; [apply triple_result; by intros x sp [[Hp _] _]|]. intros m.
  intros x sp [Eb [Hp Hn]]. revert x sp Hp. change (triple (admitted_only ({[n]} ∪ ∅)) (andthen (release_one n m data) (fun v => lift_result (f v))) (fun _ => admitted_only ∅)).
  eapply triple_andthen; [apply triple_release; [by apply Hm|done]|]. intros v.
  eapply triple_weaken; [done|apply triple_result; by intros x sp [Hp _]|]. by intros a x sp [_ Hp].
Qed.

(** A body that depends on the session uses what no method changes. *)
Lemma triple_opened {A} P (f : release_session -> method A) (g : method A) Q :
  (forall x sp, P x sp -> accounted x sp) -> (forall x, session_open x -> f x x = g x) -> triple P g Q -> triple P (fun x => f x x) Q.
Proof. intros HP Hfg Hg x sp Hx tr x' r Hp. rewrite Hfg in Hp by apply (ac_opened _ _ (HP _ _ Hx)). exact (Hg _ _ Hx _ _ _ Hp). Qed.

Lemma row_count_spends n : triple (admitted_only ∅) (release_row_count bk n) (fun _ => admitted_only ∅).
Proof.
  unfold release_row_count. eapply triple_opened; [apply pending_accounted| |].
  - intros x (Es & _ & _ & _ & Eq). rewrite Es, Eq. reflexivity.
  - apply triple_single. intros m Hm. by constructor.
Qed.

Lemma numeric_spends name values : triple (admitted_only ∅) (release_numeric bk name values) (fun _ => admitted_only ∅).
Proof.
  assert (Hbody : triple (admitted_only ∅)
    match find (fun q => bool_decide (nq_name q = name)) (numeric s) with
    | None => raise_error (DpBudgetError "dp_unscheduled_release")
    | Some spec => andthen (_admit name) (fun _ => andthen (lift_result (numeric_measurement bk q (interior_edges spec))) (fun m =>
        andthen (release_one name m (Numbers values)) (fun v => lift_result (as_counts v))))
    end (fun _ => admitted_only ∅)).
  { destruct (find _ (numeric s)) as [spec|] eqn:E; [|by apply triple_throw; intros x sp [? _]]. apply find_spec in E as [Hin Hname]. bool_prop. subst name.
    apply triple_single. intros m Hm. by constructor. }
  intros x sp Hx tr x' r Hp. destruct (ac_opened _ _ (pending_accounted _ _ _ Hx)) as (Es & _ & _ & _ & Eq).
  apply (Hbody x sp Hx tr x' r). unfold release_numeric in Hp. rewrite Es, Eq in Hp. by destruct (find _ (numeric s)).
Qed.

Lemma categorical_spends grouped total values : triple (admitted_only ∅) (release_categorical bk grouped total values) (fun _ => admitted_only ∅).
Proof.
  assert (Hbody : triple (admitted_only ∅)
    (andthen (_admit grouped) (fun _ => andthen (_admit total) (fun _ =>
     match find (fun q => bool_decide (grouped_name q = grouped) && bool_decide (total_name q = total)) (categorical s) with
     | None => raise_error (DpBudgetError "dp_budget_categorical_pair_unscheduled")
     | Some spec =>
         andthen (lift_result (_categorical_measurements bk q d_alloc (cq_carrier spec))) (fun p =>
         andthen (release_one grouped p.1 values) (fun g =>
         andthen (release_one total p.2 values) (fun t =>
         lift_result (gs ← as_groups g; n ← as_count t; Ok (gs, n)))))
     end))) (fun _ => admitted_only ∅)).
  { eapply triple_andthen; [apply triple_admit|]. intros []. eapply triple_weaken; [by intros x sp [Hp _]|eapply triple_andthen; [apply triple_admit|]|by intros ? ? ? HQ; exact HQ]. intros [].
    destruct (find _ (categorical s)) as [spec|] eqn:E; [|by apply triple_throw; intros x sp [[? _] _]].
    apply find_spec in E as [Hin Hname]. apply andb_true_iff in Hname as [E1 E2]. bool_prop. subst grouped total.
    eapply triple_andthen; [apply triple_result; by intros x sp [[? _] _]|]. intros p x sp [Ep [Hp Hn]].
    assert (Hg : triple (admitted_only ({[total_name spec]} ∪ ({[grouped_name spec]} ∪ ∅)))
      (andthen (release_one (grouped_name spec) p.1 values) (fun g => andthen (release_one (total_name spec) p.2 values) (fun t => lift_result (gs ← as_groups g; n ← as_count t; Ok (gs, n)))))
      (fun _ => admitted_only ∅)).
    { replace ({[total_name spec]} ∪ ({[grouped_name spec]} ∪ ∅) : gset pystr) with ({[grouped_name spec]} ∪ ({[total_name spec]} ∪ ∅) : gset pystr) by set_solver.
      eapply triple_andthen; [apply triple_release; [by econstructor|set_solver]|]. intros g.
      eapply triple_andthen; [apply triple_release; [by econstructor|set_solver]|]. intros t.
      eapply triple_weaken; [done|apply triple_result; by intros ? ? [? _]|]. by intros ? ? ? [_ ?]. }
    intros tr x' r Hr. exact (Hg x sp Hp tr x' r Hr). }
  intros x sp Hx tr x' r Hp. destruct (ac_opened _ _ (pending_accounted _ _ _ Hx)) as (Es & _ & _ & Ed & Eq).
  apply (Hbody x sp Hx tr x' r). unfold release_categorical in Hp. by rewrite Es, Ed, Eq in Hp.
Qed.

(** ** Clients *)

Inductive request := AskRows (n : Z) | AskNumeric (name : pystr) (values : list f64) | AskCategorical (grouped total : pystr) (values : vector).

(** A client asks one thing after another, whatever it was answered, errors included. *)
Inductive client : release_session -> trace -> release_session -> Prop :=
| client_done x : client x [] x
| client_rows x n tr r x1 tr' x' : plays (release_row_count bk n x) tr (x1, r) -> client x1 tr' x' -> client x (tr ++ tr') x'
| client_numeric x name values tr r x1 tr' x' : plays (release_numeric bk name values x) tr (x1, r) -> client x1 tr' x' -> client x (tr ++ tr') x'
| client_categorical x grouped total values tr r x1 tr' x' :
    plays (release_categorical bk grouped total values x) tr (x1, r) -> client x1 tr' x' -> client x (tr ++ tr') x'.

Lemma accounted_pending x sp : accounted x sp -> admitted_only ∅ x sp.
Proof. intros Hac. split; [done|]. set_solver. Qed.

Lemma client_accounted x tr x' sp : client x tr x' -> accounted x sp -> exists more, more.*2 = tr /\ accounted x' (sp ++ more).
Proof.
  intros Hc. revert sp. induction Hc as [x|x n tr r x1 tr' x' Hp _ IH|x name values tr r x1 tr' x' Hp _ IH|x g t values tr r x1 tr' x' Hp _ IH]; intros sp Hac;
    [exists []; by rewrite app_nil_r|..];
    [destruct (row_count_spends n x sp (accounted_pending _ _ Hac) _ _ _ Hp) as (more & <- & Hac1 & _)
    |destruct (numeric_spends name values x sp (accounted_pending _ _ Hac) _ _ _ Hp) as (more & <- & Hac1 & _)
    |destruct (categorical_spends g t values x sp (accounted_pending _ _ Hac) _ _ _ Hp) as (more & <- & Hac1 & _)];
    destruct (IH _ Hac1) as (more' & <- & Hac'); exists (more ++ more'); by rewrite fmap_app, app_assoc.
Qed.

(** A client's requests, each with its answers, one after the other. *)
Definition ask (r : request) (answers : list (result released)) (x : release_session) : option (trace * release_session) :=
  match r with
  | AskRows n => prod_map id fst <$> follow (release_row_count bk n x) answers
  | AskNumeric name values => prod_map id fst <$> follow (release_numeric bk name values x) answers
  | AskCategorical grouped total values => prod_map id fst <$> follow (release_categorical bk grouped total values x) answers
  end.
Fixpoint serve_requests (requests : list (request * list (result released))) (x : release_session) : option (trace * release_session) :=
  match requests with
  | [] => Some ([], x)
  | (r, answers) :: requests => first ← ask r answers x; prod_map (app first.1) id <$> serve_requests requests first.2
  end.
Lemma serve_client requests x tr x' : serve_requests requests x = Some (tr, x') -> client x tr x'.
Proof.
  revert x tr. induction requests as [|[r answers] requests IH]; intros x tr E; cbn in E; [injection E as <- <-; constructor|].
  destruct (ask r answers x) as [[tr1 x1]|] eqn:Ea; [|discriminate]. cbn in E. destruct (serve_requests requests x1) as [[tr2 x2]|] eqn:Es; [|discriminate]. injection E as <- <-. apply IH in Es.
  destruct r; cbn in Ea; (destruct (follow _ answers) as [[tr0 [x0 a]]|] eqn:Ef; [|discriminate]); injection Ea as <- <-; apply follow_plays in Ef; [by eapply client_rows|by eapply client_numeric|by eapply client_categorical].
Qed.

(** ** The report *)

(** The measurement of every query, in the order of the schedule. *)
Definition schedule_table : list (pystr * result measurement) :=
  (row_count_name s, count_measurement bk q) ::
  ((fun spec => (nq_name spec, numeric_measurement bk q (interior_edges spec))) <$> numeric s) ++
  concat ((fun spec => let p := _categorical_measurements bk q d_alloc (cq_carrier spec) in
             [(grouped_name spec, (p ← p; Ok p.1)); (total_name spec, (p ← p; Ok p.2))]) <$> categorical s).

Lemma table_names : schedule_table.*1 = query_names s.
Proof.
  unfold schedule_table, query_names. rewrite fmap_cons, fmap_app. cbn [fst]. f_equal. f_equal; [by rewrite <- list_fmap_compose|].
  induction (categorical s) as [|spec l IH]; [done|]. cbn. by f_equal; f_equal.
Qed.

Lemma scheduled_table n m : scheduled n m -> (n, Ok m) ∈ schedule_table.
Proof.
  unfold schedule_table. intros Hs. destruct Hs as [m Hm|spec m Hin Hm|spec p Hin Hp|spec p Hin Hp]; rewrite elem_of_cons, elem_of_app; [left; by rewrite Hm|right; left|right; right..].
  - apply list_elem_of_fmap. exists spec. by rewrite Hm.
  - apply list_elem_of_In, in_concat. eexists. split; [apply in_map_iff; exists spec; split; [done|by apply list_elem_of_In]|]. rewrite Hp. by left.
  - apply list_elem_of_In, in_concat. eexists. split; [apply in_map_iff; exists spec; split; [done|by apply list_elem_of_In]|]. rewrite Hp. right. by left.
Qed.

Lemma pair_unique {A B} (d : list (A * B)) k a b : NoDup d.*1 -> (k, a) ∈ d -> (k, b) ∈ d -> a = b.
Proof.
  induction d as [|[k1 v] d IH]; cbn; [by intros _ ?%elem_of_nil|]. rewrite list.NoDup_cons. intros [Hk Hd] Ha Hb.
  assert (Hin : forall v, (k1, v) ∈ d -> False) by (intros w Hw; apply Hk, list_elem_of_fmap; by exists (k1, w)).
  apply elem_of_cons in Ha as [Ha|Ha], Hb as [Hb|Hb]; simplify_eq; [done|by apply Hin in Hb|by apply Hin in Ha|by apply IH].
Qed.

Lemma scheduled_functional n m m' : NoDup (query_names s) -> scheduled n m -> scheduled n m' -> m = m'.
Proof. rewrite <- table_names. intros Hnd H1%scheduled_table H2%scheduled_table. assert (Ok m = Ok m') as [= ->]; [|done]. by eapply pair_unique. Qed.

Lemma map_res_forall2 {A B} (f : A -> result B) l bs : map_res f l = Ok bs -> Forall2 (fun a b => f a = Ok b) l bs.
Proof.
  revert bs. induction l as [|a l IH]; intros bs E; cbn in E; [injection E as <-; constructor|].
  destruct (f a) as [b|] eqn:Ea; [|done]. cbn in E. destruct (map_res f l) as [bs'|] eqn:El; [|done]. injection E as <-. constructor; [done|by apply IH].
Qed.

Lemma certified_all_table certs : certify_all bk s d_alloc q = Ok certs ->
  Forall2 (fun e c => exists m, e.2 = Ok m /\ measurement_map m = Ok c) schedule_table certs.
Proof.
  unfold certify_all, schedule_table. destruct (count_measurement bk q) as [m|] eqn:Em; [|done]. cbn [mbind result_bind]. destruct (measurement_map m) as [c|] eqn:Ec; [|done]. cbn [mbind result_bind].
  destruct (map_res _ (numeric s)) as [ns|] eqn:En; [|done]. cbn [mbind result_bind]. destruct (map_res _ (categorical s)) as [cs|] eqn:Eg; [|done]. cbn [mbind result_bind]. intros [= <-].
  constructor; [by exists m|]. apply Forall2_app.
  - apply map_res_forall2 in En. apply Forall2_fmap_l. eapply Forall2_impl; [|exact En]. intros spec c' E. cbn in *. destruct (numeric_measurement _ _ _) as [m'|]; [|done]. by exists m'.
  - apply map_res_forall2 in Eg. induction Eg as [|spec gt l cs E _ IH]; [constructor|]. cbn [concat fmap list_fmap]. apply Forall2_app; [|done].
    destruct (_categorical_measurements bk q d_alloc (cq_carrier spec)) as [p|]; [|done]. cbn in E. destruct (measurement_map p.1) as [g|] eqn:E1; [|done]. cbn in E.
    destruct (measurement_map p.2) as [t|] eqn:E2; [|done]. cbn in E. injection E as <-. constructor; [by exists p.1|]. constructor; [by exists p.2|constructor].
Qed.

(** What a report says: every scheduled query was invoked, and the loss is the
    composition of their certificates. *)
Definition loss_report (e : flt) : Prop :=
  exists certs p, Forall2 (fun n c => exists m, scheduled n m /\ measurement_map m = Ok c) (query_names s) certs /\
    _compose certs = Ok p /\ e = get_epsilon_for_delta p delta.

Lemma release_certs x sp l certs : accounted x sp -> map_res (fun n => match od_get (_releases x) n with Some r => Ok (certified r) | None => Err (exc "KeyError") end) l = Ok certs ->
  Forall2 (fun n c => exists m, scheduled n m /\ (n ∈ sp.*1) /\ measurement_map m = Ok c) l certs.
Proof.
  intros Hac E. apply map_res_forall2 in E. eapply Forall2_impl; [|exact E]. intros n c Ec. cbn in Ec. destruct (od_get (_releases x) n) as [r|] eqn:Er; [|done]. injection Ec as <-.
  destruct (ac_certified _ _ Hac n r Er) as (m & d & Hin & Hm). pose proof (proj1 (list.Forall_forall _ _) (ac_scheduled _ _ Hac) _ Hin) as [Hs _].
  exists m. split; [done|]. split; [|done]. apply list_elem_of_fmap. by exists (n, (m, d)).
Qed.

Lemma loss_reported x sp e d : accounted x sp -> composed_loss x = Ok (e, d) ->
  loss_report e /\ d = delta /\ is_finite e = true /\ flt_ltb epsilon e = false /\ (forall n, n ∈ query_names s -> n ∈ sp.*1).
Proof.
  intros Hac E. destruct (ac_opened _ _ Hac) as (Es & Ee & Ed & _). unfold composed_loss in E. rewrite Es, Ee, Ed in E.
  destruct (forallb _ _); [|done]. cbn [negb raise_if mbind result_bind] in E. destruct (map_res _ _) as [certs|] eqn:Ec; [|done]. cbn [mbind result_bind] in E.
  destruct (_compose certs) as [p|] eqn:Ep; [|done]. cbn [mbind result_bind] in E. destruct (is_finite _) eqn:Ef; [|done]. cbn [negb raise_if mbind result_bind] in E.
  destruct (flt_ltb _ _) eqn:El; [done|]. injection E as <- <-. pose proof (release_certs x sp _ _ Hac Ec) as Hall.
  split; [|split_and!; [done..|]].
  - exists certs, p. split; [|done]. eapply Forall2_impl; [|exact Hall]. intros n c (m & ? & _ & ?). by exists m.
  - intros n Hn. apply list_elem_of_lookup in Hn as [i Hi]. destruct (Forall2_lookup_l _ _ _ _ _ Hall Hi) as (c & _ & m & _ & ? & _). done.
Qed.

(** Every record's certificate is that of its query's measurement. *)
Definition certified_right (x : release_session) : Prop :=
  forall n r, od_get (_releases x) n = Some r -> exists m, scheduled n m /\ measurement_map m = Ok (certified r).

Lemma accounted_certified x sp : accounted x sp -> certified_right x.
Proof.
  intros Hac n r Hr. destruct (ac_certified _ _ Hac n r Hr) as (m & d & Hin & Hm). pose proof (proj1 (list.Forall_forall _ _) (ac_scheduled _ _ Hac) _ Hin) as [Hs _].
  by exists m.
Qed.

Lemma certs_of_releases x l certs : certified_right x -> NoDup (query_names s) ->
  (forall e, e ∈ l -> e ∈ schedule_table /\ e.1 ∈ od_keys (_releases x)) ->
  Forall2 (fun e c => exists m, e.2 = Ok m /\ measurement_map m = Ok c) l certs ->
  map_res (fun n => match od_get (_releases x) n with Some r => Ok (certified r) | None => Err (exc "KeyError") end) l.*1 = Ok certs.
Proof.
  intros Hac Hnd Hl Hall. induction Hall as [|[n b] c l certs (m & Em & Ec) _ IH]; [done|]. cbn [fmap list_fmap map_res fst snd] in *. subst b.
  destruct (Hl (n, Ok m)) as [Hin Hk]; [left|]. destruct (od_get (_releases x) n) as [r|] eqn:Er; [|by apply od_get_none in Er].
  destruct (Hac n r Er) as (m' & Hs%scheduled_table & Hm').
  rewrite <- table_names in Hnd. assert (m' = m) as -> by (assert (Ok m' = Ok m) as [= ->]; [by eapply pair_unique|done]).
  assert (c = certified r) as -> by congruence. cbn [mbind result_bind]. by rewrite IH by (intros e He; apply Hl; by right).
Qed.

(** Once everything has been released, the report is what was composed before the first
    release. *)
Lemma all_released x certs p : session_open x -> certified_right x -> (forall n, n ∈ query_names s -> n ∈ od_keys (_releases x)) -> NoDup (query_names s) ->
  certify_all bk s d_alloc q = Ok certs -> _compose certs = Ok p ->
  flt_ltb epsilon (get_epsilon_for_delta p delta) = false -> is_finite (get_epsilon_for_delta p delta) = true ->
  composed_loss x = Ok (get_epsilon_for_delta p delta, delta).
Proof.
  intros (Es & Ee & Ed & _) Hac Hall Hnd Hcert Hp Hle Hfin. unfold composed_loss. rewrite Es, Ee, Ed.
  replace (forallb (od_has (_releases x)) (query_names s)) with true by (symmetry; apply forallb_forall; intros n Hn%list_elem_of_In; by apply has_key, Hall).
  cbn [negb raise_if mbind result_bind]. rewrite <- table_names at 1. rewrite (certs_of_releases x schedule_table certs Hac Hnd).
  - cbn [mbind result_bind]. rewrite Hp. cbn [mbind result_bind]. by rewrite Hfin, Hle.
  - intros e He. split; [done|]. apply Hall. rewrite <- table_names. apply list_elem_of_fmap. by exists e.
  - by apply certified_all_table.
Qed.
End Spending.

(** ** Opening a session *)

Section Opening.
Context `{Mechanisms} `{Accounting} (bk : backend) (opendp accounting : pystr).

(** What was composed at a loss per query, and found to keep to the request. *)
Definition funded (s : Schedule) (epsilon delta q : flt) : Prop :=
  exists certs p, certify_all bk s (delta_per_categorical s delta) q = Ok certs /\ _compose certs = Ok p /\
    flt_ltb epsilon (get_epsilon_for_delta p delta) = false.

Lemma require_funded s epsilon delta e : require_within bk s epsilon delta e = Ok tt -> funded s epsilon delta e.
Proof.
  unfold require_within, composed_epsilon_or_none, _certify_schedule. destruct (certify_all bk s _ e) as [certs|x] eqn:Ec.
  - destruct (_compose certs) as [p|] eqn:Ep; [|done]. cbn. destruct (flt_ltb _ _) eqn:El; [done|]. intros _. by exists certs, p.
  - destruct (bool_decide (exc_class x = "ValueError"%string)); cbn; [done|]. by destruct (bool_decide _).
Qed.

Lemma bind_inv {A B} (r : result A) (f : A -> result B) b : (a ← r; f a) = Ok b -> exists a, r = Ok a /\ f a = Ok b.
Proof. destruct r as [a|]; [by exists a|done]. Qed.

Lemma allocation_funded s epsilon delta q : _allocate_epsilon bk s epsilon delta = Ok q -> funded s epsilon delta q.
Proof.
  unfold _allocate_epsilon. intros E. apply bind_inv in E as (top & _ & E). destruct top as [c|]; [|discriminate].
  apply bind_inv in E as (floor & _ & E). apply bind_inv in E as ([] & _ & E). apply bind_inv in E as (e & _ & E).
  apply bind_inv in E as ([] & Er & E). injection E as <-. by apply require_funded.
Qed.

(** The bisection stays where the predicate holds. *)
Lemma bisect_holds n predicate lo hi x : predicate lo = Ok true -> bisect_largest n predicate lo hi = Ok x -> predicate x = Ok true.
Proof.
  revert lo hi. induction n as [|n IH]; intros lo hi Hlo E; cbn in E; [by injection E as <-|].
  destruct (predicate (midpoint lo hi)) as [[]|] eqn:Ep; cbn in E; [by eapply IH|by eapply IH|done].
Qed.

Lemma signature_inj s s' : signature s = signature s' -> s = s'.
Proof.
  unfold signature. destruct s as [r ns cs], s' as [r' ns' cs']. cbn. intros [= -> Hn Hc]. f_equal.
  - revert ns' Hn. induction ns as [|[n e] ns IH]; intros [|[n' e'] ns'] Hn; try done. cbn in Hn. injection Hn as -> -> Hn. f_equal. by apply IH.
  - revert cs' Hc. induction cs as [|[g t c] cs IH]; intros [|[g' t' c'] cs'] Hc; try done. cbn in Hc. injection Hc as -> -> -> Hc. f_equal. by apply IH.
Qed.

(** Every entry is what the allocation gives. *)
Definition cache_sound (cache : allocation_cache) : Prop :=
  forall s epsilon delta namespace q, cache_namespace bk = Some namespace ->
    od_get cache (_budget_cache_key opendp accounting s epsilon delta namespace) = Some q -> _allocate_epsilon bk s epsilon delta = Ok q.

Lemma cached_allocation s epsilon delta cache : cache_sound cache ->
  exists cache', _allocate_epsilon_cached bk opendp accounting s epsilon delta cache = (cache', _allocate_epsilon bk s epsilon delta) /\ cache_sound cache'.
Proof.
  intros Hc. unfold _allocate_epsilon_cached. destruct (cache_namespace bk) as [namespace|] eqn:En; [|by exists cache].
  set (key := _budget_cache_key opendp accounting s epsilon delta namespace). destruct (od_get cache key) as [q|] eqn:E.
  - exists cache. split; [|done]. by rewrite (Hc _ _ _ _ _ En E).
  - destruct (_allocate_epsilon bk s epsilon delta) as [q|e] eqn:Ea; [|by exists cache]. eexists. split; [done|].
    intros s' epsilon' delta' namespace' q' Hn Hq. rewrite En in Hn. injection Hn as <-. rewrite od_get_set in Hq. case_bool_decide as Hk; [|by eapply Hc].
    injection Hq as <-. pose proof (f_equal (fun k : budget_key => k.1.1.1.1.1) Hk) as Hs. pose proof (f_equal (fun k : budget_key => k.1.1.1.1.2) Hk) as He.
    pose proof (f_equal (fun k : budget_key => k.1.1.1.2) Hk) as Hd. cbn [fst snd key _budget_cache_key] in Hs, He, Hd. apply signature_inj in Hs. by subst.
Qed.

Lemma session_opened s epsilon delta cache : cache_sound cache ->
  exists cache' r, new_session bk opendp accounting s epsilon delta cache = (cache', r) /\ cache_sound cache' /\
    forall x, r = Ok x -> flt_leb epsilon _DP_EPSILON_CEILING = true /\ funded s epsilon delta (_eps_q x) /\
      session_open s epsilon delta (_eps_q x) x /\ _releases x = [] /\ _reserved x = ∅.
Proof.
  intros Hc. unfold new_session, check_epsilon_supported. destruct (flt_leb epsilon _DP_EPSILON_CEILING) eqn:El; cbn [negb raise_if]; [|eexists _, _; split; [reflexivity|split; [exact Hc|discriminate]]].
  destruct (cached_allocation s epsilon delta cache Hc) as (cache' & -> & Hc'). eexists _, _. split; [done|]. split; [done|].
  intros x. destruct (_allocate_epsilon bk s epsilon delta) as [q|] eqn:Ea; cbn [mbind result_bind]; [|discriminate]. intros [= <-]. cbn [_eps_q _releases _reserved]. split; [done|]. split; [by apply allocation_funded|]. done.
Qed.

Lemma opened_accounted s epsilon delta q x : session_open s epsilon delta q x -> _releases x = [] -> accounted bk s epsilon delta q x [].
Proof.
  intros Ho Hr. constructor; [done|constructor|by intros ? ?%elem_of_nil|constructor|]. intros n r. by rewrite Hr.
Qed.

Lemma not_above epsilon e : flt_leb epsilon _DP_EPSILON_CEILING = true -> is_finite e = true -> flt_ltb epsilon e = false -> flt_leb e epsilon = true.
Proof. destruct e, epsilon as [| |]; cbn; try done; [|by destruct negative]. intros _ _ Hn. by destruct (_ <=? _). Qed.

(** C4: Whatever a client asks of a session, and whatever the mechanisms answer, the
    session invokes only measurements of its schedule, each query's at most once, its
    certificate read beforehand, however often and in whatever order it is
    asked; and if it reports a loss, every scheduled query was invoked, the loss is the
    composition of the certificates of exactly those measurements at the requested delta,
    finite and at most the requested epsilon. The allocation cache changes nothing of this. *)
Theorem session_spends_once s epsilon delta cache cache' x0 tr x :
  cache_sound cache -> new_session bk opendp accounting s epsilon delta cache = (cache', Ok x0) -> client bk x0 tr x ->
  cache_sound cache' /\
  exists names, NoDup names /\ (forall n, n ∈ names -> n ∈ query_names s) /\
    Forall2 (fun n call => scheduled bk s delta (_eps_q x0) n call.1) names tr /\
    forall e d, composed_loss x = Ok (e, d) ->
      d = delta /\ is_finite e = true /\ flt_leb e epsilon = true /\ (forall n, n ∈ query_names s -> n ∈ names) /\ loss_report bk s delta (_eps_q x0) e.
Proof.
  intros Hc Hnew Hclient. destruct (session_opened s epsilon delta cache Hc) as (c & r & E & Hc' & Hopen). rewrite Hnew in E. injection E as <- <-.
  destruct (Hopen x0 eq_refl) as (Hceil & _ & Ho & Hr & _). split; [done|].
  destruct (client_accounted bk s epsilon delta (_eps_q x0) x0 tr x [] Hclient (opened_accounted _ _ _ _ _ Ho Hr)) as (sp & <- & Hac). cbn [app] in Hac.
  exists sp.*1. split; [apply (ac_once _ _ _ _ _ _ _ Hac)|]. pose proof (ac_scheduled _ _ _ _ _ _ _ Hac) as Hall. split; [|split].
  - intros n (e & -> & He)%list_elem_of_fmap. rewrite list.Forall_forall in Hall. by apply Hall.
  - apply Forall2_fmap, Forall_Forall2_diag. eapply list.Forall_impl; [exact Hall|]. by intros e [He _].
  - intros e d Hl. destruct (loss_reported _ _ _ _ _ _ _ _ _ Hac Hl) as (Hrep & -> & Hfin & Hle & Hn). split_and!; [done|done|by apply not_above|done|done].
Qed.
End Opening.

Lemma empty_cache_sound `{Mechanisms} `{Accounting} bk opendp accounting : cache_sound bk opendp accounting [].
Proof. by intros s epsilon delta namespace q _ E. Qed.

Lemma bind_total {A B} (r : result A) (f : A -> result B) a : r = Ok a -> (exists b, f a = Ok b) -> exists b, (a ← r; f a) = Ok b.
Proof. by intros ->. Qed.

(** A composition that does not depend on the loss per query is affordable at any. *)
Lemma allocation_constant `{Mechanisms} `{Accounting} bk s epsilon delta c :
  (forall e, composed_epsilon_or_none bk s delta e = Ok (Some c)) -> flt_ltb epsilon c = false -> exists q, _allocate_epsilon bk s epsilon delta = Ok q.
Proof.
  intros Hc Hle.
  assert (Hfloor : forall n lo hi, exists f, feasible_floor bk s delta n lo hi = Ok f).
  { induction n as [|n IH]; intros lo hi; [by exists hi|]. cbn [feasible_floor]. rewrite Hc. cbn [mbind result_bind]. apply IH. }
  assert (Hwithin : forall e, _within_request bk s epsilon delta e = Ok (flt_leb c epsilon)) by (intros e; unfold _within_request; by rewrite Hc).
  assert (Hbisect : forall n lo hi, exists f, bisect_largest n (_within_request bk s epsilon delta) lo hi = Ok f).
  { induction n as [|n IH]; intros lo hi; [by exists lo|]. cbn [bisect_largest]. rewrite Hwithin. cbn [mbind result_bind]. destruct (flt_leb c epsilon); apply IH. }
  assert (Hreq : forall e, require_within bk s epsilon delta e = Ok tt) by (intros e; unfold require_within; rewrite Hc; cbn [mbind result_bind]; by rewrite Hle).
  assert (Hsearch : forall f, exists q, _search_largest (_within_request bk s epsilon delta) f epsilon = Ok q).
  { intros f. unfold _search_largest. eapply bind_total; [apply Hwithin|]. destruct (flt_leb c epsilon); [apply Hbisect|by exists f]. }
  unfold _allocate_epsilon. eapply bind_total; [apply Hc|]. destruct (Hfloor _PLD_SEARCH_ITERATIONS _EPS_Q_FLOOR epsilon) as [f Hf]. eapply bind_total; [exact Hf|].
  eapply bind_total; [apply Hreq|]. destruct (Hsearch f) as [q Hq]. eapply bind_total; [exact Hq|]. eapply bind_total; [apply Hreq|]. by exists q.
Qed.

Lemma constant_opens s epsilon delta c : (forall e, composed_epsilon_or_none exact_backend s delta e = Ok (Some c)) ->
  flt_ltb epsilon c = false -> flt_leb epsilon _DP_EPSILON_CEILING = true ->
  exists q, new_session exact_backend opendp_version dp_accounting_version s epsilon delta [] = ([(example_key s epsilon delta, q)], Ok (session_at s epsilon delta q)).
Proof.
  intros Hc Hle Hceil. destruct (allocation_constant exact_backend s epsilon delta c Hc Hle) as [q Hq].
  exists q. unfold new_session, check_epsilon_supported. rewrite Hceil.
  cbn [negb raise_if]. unfold _allocate_epsilon_cached. cbn [cache_namespace exact_backend od_get]. rewrite Hq. reflexivity.
Qed.

(** A client that asks for the rows twice, is refused once, and finishes the schedule. *)
Definition example_requests : list (request * list (result released)) := [
  (AskRows 2, [Ok (Count 2)]); (AskRows 2, []);
  (AskCategorical (py "cities") (py "city total") (Texts [py "Oslo"]), [Ok (Groups []); Ok (Count 1)]);
  (AskNumeric (py "age") [units 30], [Ok (Counts [1; 0])])].
Definition example_served (q : flt) : trace * release_session := default ([], session_at example_schedule (FFin 100) (FFin 4) q) (serve_requests exact_backend example_requests (session_at example_schedule (FFin 100) (FFin 4) q)).

Lemma session_spends_once_witness : exists q,
  length (example_served q).1 = 4%nat /\ (exists e, composed_loss (example_served q).2 = Ok (e, FFin 4) /\ flt_leb e (FFin 100) = true) /\
  exists names, NoDup names /\
    Forall2 (fun n call => scheduled exact_backend example_schedule (FFin 4) q n call.1) names (example_served q).1.
Proof.
  destruct (constant_opens example_schedule (FFin 100) (FFin 4) (FFin 40)) as [q Hq]; [intros e; vm_compute; reflexivity|reflexivity|vm_compute; reflexivity|]. exists q.
  destruct (session_spends_once exact_backend opendp_version dp_accounting_version example_schedule (FFin 100) (FFin 4) []
    [(example_key example_schedule (FFin 100) (FFin 4), q)] (session_at example_schedule (FFin 100) (FFin 4) q) (example_served q).1 (example_served q).2) as (_ & names & Hnd & _ & Hall & Hloss).
  - apply empty_cache_sound.
  - exact Hq.
  - apply (serve_client _ example_requests). vm_compute. reflexivity.
  - split; [vm_compute; reflexivity|]. split; [|exists names; split; [exact Hnd|exact Hall]].
    destruct (composed_loss (example_served q).2) as [[e d]|x] eqn:E; [|vm_compute in E; discriminate]. destruct (Hloss e d eq_refl) as (-> & _ & Hle & _). exists e. split; [reflexivity|exact Hle].
Defined.

(** ** The production backend calibrates

    The production backend searches for the least noise whose certificate keeps to a loss
    per query. Whatever the search returns, endpoints included, the measurement it is used
    for keeps to the loss asked for. *)

(** OpenDP's parameter search returns a value on the passing side of the boundary; the
    epsilon of a thresholded count does not depend on its threshold. *)
Class SearchLaws `{OpenDpOps} : Prop := {
  search_float_passes p b x : search_float p b = Ok x -> p x = Ok true;
  search_int_passes p b x : search_int p b = Ok x -> p x = Ok true;
  threshold_keeps_epsilon atom scale t t' m m' e d e' d' :
    grouped_laplace atom scale t = Ok m -> grouped_laplace atom scale t' = Ok m' ->
    measurement_map m = Ok (ApproxLoss e d) -> measurement_map m' = Ok (ApproxLoss e' d') -> e = e';
}.

Section Calibration.
Context `{OpenDpOps}.

(** A search that finds no crossing is decided at the end points: what is found passes. *)
Lemma endpoint_aware_passes {T} (search : (T -> result bool) -> T * T -> result T) p b x :
  (forall p b x, search p b = Ok x -> p x = Ok true) -> _binary_search_endpoint_aware search p b = Ok x -> p x = Ok true.
Proof.
  intros Hs. unfold _binary_search_endpoint_aware. destruct (search p b) as [y|e] eqn:E; [intros [= <-]; by eapply Hs|].
  destruct (bool_decide _); [|done]. intros Ex. apply bind_inv in Ex as ([] & Hl & Ex); [by injection Ex as <-|].
  apply bind_inv in Ex as ([] & Hu & Ex); [by injection Ex as <-|done].
Qed.

Lemma pure_within_inv bound r : pure_within bound r = Ok true -> exists m e, r = Ok m /\ measurement_map m = Ok (PureLoss e) /\ flt_leb e bound = true.
Proof.
  unfold pure_within. intros E. apply bind_inv in E as (m & -> & E). apply bind_inv in E as (c & Ec & E). destruct c as [e|]; [|done].
  exists m, e. split; [done|]. split; [done|]. by injection E.
Qed.
Lemma epsilon_within_inv bound r : epsilon_within bound r = Ok true -> exists m e d, r = Ok m /\ measurement_map m = Ok (ApproxLoss e d) /\ flt_leb e bound = true.
Proof.
  unfold epsilon_within. intros E. apply bind_inv in E as (m & -> & E). apply bind_inv in E as (c & Ec & E). destruct c as [|e d]; [done|].
  exists m, e, d. split; [done|]. split; [done|]. by injection E.
Qed.
Lemma delta_within_inv bound r : delta_within bound r = Ok true -> exists m e d, r = Ok m /\ measurement_map m = Ok (ApproxLoss e d) /\ flt_leb d bound = true.
Proof.
  unfold delta_within. intros E. apply bind_inv in E as (m & -> & E). apply bind_inv in E as (c & Ec & E). destruct c as [|e d]; [done|].
  exists m, e, d. split; [done|]. split; [done|]. by injection E.
Qed.

(** A certificate within a loss, and within a loss and a delta. *)
Definition pure_at_most (q : flt) (m : measurement) : Prop := exists e, measurement_map m = Ok (PureLoss e) /\ flt_leb e q = true.
Definition approx_at_most (q d : flt) (m : measurement) : Prop :=
  exists e d', measurement_map m = Ok (ApproxLoss e d') /\ flt_leb e q = true /\ flt_leb d' d = true.

Context `{!SearchLaws}.

Lemma calibrated_pure q b make m : (scale ← _binary_search_endpoint_aware search_float (fun s => pure_within q (make s)) b; make scale) = Ok m -> pure_at_most q m.
Proof.
  intros E. apply bind_inv in E as (scale & Hs & E). apply (endpoint_aware_passes _ _ _ _ search_float_passes) in Hs.
  apply pure_within_inv in Hs as (m' & e & Em & Hmap & Hle). exists e. split; [congruence|done].
Qed.

Lemma calibrated_grouped q d atom m : _grouped_over_domain q d atom = Ok m -> approx_at_most q d m.
Proof.
  intros E. apply bind_inv in E as (scale & Hs & E). apply bind_inv in E as (t & Ht & E).
  apply (endpoint_aware_passes _ _ _ _ search_float_passes), epsilon_within_inv in Hs as (m1 & e1 & d1 & Em1 & Hm1 & He).
  apply (endpoint_aware_passes _ _ _ _ search_int_passes), delta_within_inv in Ht as (m2 & e2 & d2 & Em2 & Hm2 & Hd).
  assert (m2 = m) as -> by congruence. exists e2, d2. split; [done|]. split; [|done]. by rewrite <- (threshold_keeps_epsilon _ _ _ _ _ _ _ _ _ _ Em1 Em2 Hm1 Hm2).
Qed.

(** Every measurement of the production backend keeps to what it was asked for: a count
    and a histogram certify no more than the loss per query, a pair for a categorical
    column certifies for its groups no more than the loss per query and the column's share
    of delta, and for its total no more than the loss per query, whether the search found a
    crossing or was decided at an end of its bounds. *)
Theorem real_backend_calibrated q :
  (forall m, count_measurement _RealOpenDpBackend q = Ok m -> pure_at_most q m) /\
  (forall edges m, numeric_measurement _RealOpenDpBackend q edges = Ok m -> pure_at_most q m) /\
  (forall d carrier p, _categorical_measurements _RealOpenDpBackend q d carrier = Ok p -> approx_at_most q d p.1 /\ pure_at_most q p.2).
Proof.
  assert (Hpair : forall atom d p, categorical_over atom q d = Ok p -> approx_at_most q d p.1 /\ pure_at_most q p.2).
  { intros atom d p E. apply bind_inv in E as (g & Hg & E). apply bind_inv in E as (t & Ht & E). injection E as <-. split; [by eapply calibrated_grouped|by eapply calibrated_pure]. }
  split; [intros m; apply calibrated_pure|]. split; [intros edges m; apply calibrated_pure|].
  intros d carrier p. unfold _categorical_measurements. destruct (bool_decide _); [apply Hpair|]. destruct (bool_decide _); [apply Hpair|done].
Qed.
End Calibration.

(** ** An example: a loss that is high at small scales, a search that fails at once *)

Definition loss_at (scale : flt) : flt := if flt_leb (int_units 1) scale then FFin 10 else FFin 1000.
Definition example_opendp : OpenDpOps := {|
  count_laplace _ s := Ok (ExactCount (loss_at s));
  bins_laplace _ n s := Ok (ExactBins (loss_at s) (Z.to_nat n));
  grouped_laplace _ s t := Ok (ExactGroups (loss_at s) (if 1000 <? t then FFin 1 else FFin 100));
  search_float _ _ := Err ValueErr;
  search_int _ _ := Err ValueErr;
|}.
#[local] Existing Instance example_opendp.

Lemma example_search : SearchLaws.
Proof. constructor; [done..|]. intros atom scale t t' m m' e d e' d' [= <-] [= <-] [= <- _] [= <- _]. done. Qed.

Lemma real_backend_calibrated_witness :
  exists m p, count_measurement _RealOpenDpBackend (FFin 20) = Ok m /\ pure_at_most (FFin 20) m /\
    _categorical_measurements _RealOpenDpBackend (FFin 20) (FFin 5) (py "flag") = Ok p /\ approx_at_most (FFin 20) (FFin 5) p.1 /\ pure_at_most (FFin 20) p.2.
Proof.
  destruct (@real_backend_calibrated _ _ example_search (FFin 20)) as (Hc & _ & Hp).
  exists (ExactCount (FFin 10)), (ExactGroups (FFin 10) (FFin 1), ExactCount (FFin 10)).
  assert (E1 : count_measurement _RealOpenDpBackend (FFin 20) = Ok (ExactCount (FFin 10))) by (vm_compute; reflexivity).
  assert (E2 : _categorical_measurements _RealOpenDpBackend (FFin 20) (FFin 5) (py "flag") = Ok (ExactGroups (FFin 10) (FFin 1), ExactCount (FFin 10))) by (vm_compute; reflexivity).
  split; [exact E1|]. split; [exact (Hc _ E1)|]. split; [exact E2|]. exact (Hp _ _ _ E2).
Defined.
