(* ===== verification/DpFitTheory.v ===== *)
(** * A fit is private

    Two tables that differ in one row are fitted in lockstep: the same errors, the same
    measurements in the same order, on vectors that differ in at most one element, and the
    same artifact for the same answers. An artifact comes only after every scheduled query
    was invoked exactly once, and states the composition of their certificates, within the
    request. *)

From S2P Require Import Prelude PyText PyData Floats DpCarriers DpSession DpProvenance DpFit DpCarriersTheory DpSessionTheory.

(** ** Lockstep *)

Section Lockstep.
Context `{Mechanisms}.

Inductive lockstep {A} : interaction A -> interaction A -> Prop :=
| lockstep_done a : lockstep (Done a) (Done a)
| lockstep_invoke m d d' k k' : vector_more d d' -> (forall r, lockstep (k r) (k' r)) -> lockstep (Invoke m d k) (Invoke m d' k').

Lemma lockstep_bind {A B} (f f' : A -> interaction B) t t' : lockstep t t' -> (forall a, lockstep (f a) (f' a)) -> lockstep (ibind f t) (ibind f' t').
Proof. intros Ht Hf. induction Ht as [a|m d d' k k' Hd _ IH]; cbn; [apply Hf|]. constructor; [done|exact IH]. Qed.

Lemma lockstep_refl {A} (t : interaction A) : (forall d, vector_more d d) -> lockstep t t.
Proof. intros Hd. induction t as [a|m d k IH]; constructor; auto. Qed.

Lemma vector_more_refl d : vector_more d d.
Proof. destruct d; constructor; by left. Qed.

(** Methods in lockstep from the same session. *)
Definition in_step {A} (f f' : method A) : Prop := forall x, lockstep (f x) (f' x).

Lemma in_step_refl {A} (f : method A) : in_step f f.
Proof. intros x. apply lockstep_refl, vector_more_refl. Qed.

Lemma in_step_andthen {A B} (f f' : method A) (g g' : A -> method B) : in_step f f' -> (forall a, in_step (g a) (g' a)) -> in_step (andthen f g) (andthen f' g').
Proof.
  intros Hf Hg x. unfold andthen. apply (lockstep_bind _ _ _ _ (Hf x)). intros [x1 [a|e]]; [apply Hg|constructor].
Qed.

Lemma in_step_release n m d d' : vector_more d d' -> in_step (release_one n m d) (release_one n m d').
Proof.
  intros Hd. unfold release_one. apply in_step_andthen; [apply in_step_refl|]. intros c. apply in_step_andthen; [|intros v; apply in_step_refl].
  intros x. constructor; [done|]. intros r. constructor.
Qed.

Lemma in_step_each {A B} (f f' : A -> method B) l : (forall a, a ∈ l -> in_step (f a) (f' a)) -> in_step (each f l) (each f' l).
Proof.
  induction l as [|a l IH]; intros Hf; [apply in_step_refl|]. cbn [each]. apply in_step_andthen; [apply Hf; by left|]. intros b.
  apply in_step_andthen; [apply IH; intros; apply Hf; by right|]. intros bs. apply in_step_refl.
Qed.
End Lockstep.

Section Private.
Context `{CellLaws} `{FitEnv} `{Mechanisms} `{Accounting} (bk : backend).

Lemma rows_in_step n : 0 <= n -> in_step (release_row_count bk n) (release_row_count bk (n + 1)).
Proof.
  intros Hn x. unfold release_row_count. apply in_step_andthen; [apply in_step_refl|]. intros []. apply in_step_andthen; [apply in_step_refl|]. intros m.
  apply in_step_andthen; [|intros v; apply in_step_refl]. apply in_step_release. constructor. right. exists O, [].
  unfold insert_at. cbn. by replace (Z.to_nat (n + 1)) with (S (Z.to_nat n)) by lia.
Qed.

Lemma numeric_in_step name l l' : one_more l l' -> in_step (release_numeric bk name l) (release_numeric bk name l').
Proof.
  intros Hl x. unfold release_numeric. destruct (find _ _) as [spec|]; [|constructor].
  apply in_step_andthen; [apply in_step_refl|]. intros []. apply in_step_andthen; [apply in_step_refl|]. intros m.
  apply in_step_andthen; [|intros v; apply in_step_refl]. apply in_step_release. by constructor.
Qed.

Lemma categorical_in_step g t v v' : vector_more v v' -> in_step (release_categorical bk g t v) (release_categorical bk g t v').
Proof.
  intros Hv x. unfold release_categorical. apply in_step_andthen; [apply in_step_refl|]. intros []. apply in_step_andthen; [apply in_step_refl|]. intros [].
  destruct (find _ _) as [spec|]; [|apply in_step_refl]. apply in_step_andthen; [apply in_step_refl|]. intros p.
  apply in_step_andthen; [by apply in_step_release|]. intros a. apply in_step_andthen; [by apply in_step_release|]. intros b. apply in_step_refl.
Qed.

Lemma in_step_pass {A B} a a' (f f' : A -> method B) : in_step (f a) (f' a') -> in_step (andthen (pass a) f) (andthen (pass a') f').
Proof. intros Hf x. exact (Hf x). Qed.

Abbreviation vectors_more := (Forall2 (fun a b : pystr * vector => a.1 = b.1 /\ vector_more a.2 b.2)).

Lemma numeric_column_in_step p d d' n c : vectors_more d d' -> in_step (release_numeric_column bk p d n c) (release_numeric_column bk p d' n c).
Proof.
  intros Hd. unfold release_numeric_column. pose proof (columns_get _ _ _ c Hd) as Hg.
  destruct (od_get d c) as [v|], (od_get d' c) as [v'|]; try done; [|apply in_step_refl].
  destruct Hg as [l l' Hl|l l' Hl|l l' Hl]; cbn [floats_of lift_result]; [|apply in_step_refl..].
  apply in_step_pass, in_step_andthen; [by apply numeric_in_step|]. intros raw. apply in_step_refl.
Qed.

Lemma categorical_column_in_step p d d' n c : vectors_more d d' -> in_step (release_categorical_column bk p d n c) (release_categorical_column bk p d' n c).
Proof.
  intros Hd. unfold release_categorical_column. pose proof (columns_get _ _ _ c Hd) as Hg.
  destruct (od_get d c) as [v|], (od_get d' c) as [v'|]; try done; [|apply in_step_refl]. cbn [some_vector lift_result].
  apply in_step_pass, in_step_andthen; [by apply categorical_in_step|]. intros raw. apply in_step_refl.
Qed.

Lemma release_all_in_step p t t' : table_step t t' -> in_step (release_everything bk p t) (release_everything bk p t').
Proof.
  intros (Hn & Hc & Hv). unfold release_everything. rewrite Hc. apply in_step_andthen; [by apply rows_in_step|]. intros n.
  apply in_step_andthen; [apply in_step_refl|]. intros row_count. apply in_step_andthen; [apply in_step_each; intros c _; by apply numeric_column_in_step|]. intros numbers.
  apply in_step_andthen; [apply in_step_each; intros c _; by apply categorical_column_in_step|]. intros categories. apply in_step_refl.
Qed.

(** C5: Add a row to a table, or take one away, and a fit does the same: it is refused
    with the same error, before any measurement, or it invokes the same measurements in
    the same order, each on a vector that differs in at most one element, and whatever
    they answer, fails alike or ends with the same artifact; the allocation cache is left
    the same. What an observer sees depends on the row through the measurements' answers
    alone. *)
Theorem fit_lockstep t t' column_schema epsilon delta bins cache :
  row_more t t' -> calm_table t' ->
  (fit_dp_snapshot bk t column_schema epsilon delta bins cache).1 = (fit_dp_snapshot bk t' column_schema epsilon delta bins cache).1 /\
  lockstep (fit_dp_snapshot bk t column_schema epsilon delta bins cache).2 (fit_dp_snapshot bk t' column_schema epsilon delta bins cache).2.
Proof.
  intros Ht Hcalm. unfold fit_dp_snapshot. destruct (plan_fit column_schema epsilon delta bins) as [p|e]; [|split; [done|constructor]].
  destruct (new_session bk opendp_version dp_accounting_version (plan_schedule p) (fit_epsilon p) (fit_delta p) cache) as [cache' [x|e]]; cbn [fst snd]; [|split; [done|constructor]].
  split; [done|]. pose proof (sanitize_more t t' (fit_schema p) Ht Hcalm) as Hs.
  destruct (sanitize_carrier_table t _) as [s|e], (sanitize_carrier_table t' _) as [s'|e']; cbn [alike] in Hs; try done; [|subst; constructor].
  apply lockstep_bind; [by apply release_all_in_step|]. intros r. constructor.
Qed.

(** ** What a finished fit spent *)

Section Spent.
Context (p : fit_plan) (q : flt).
Abbreviation tri := (triple bk (plan_schedule p) (fit_epsilon p) (fit_delta p) q).
Abbreviation idle := (admitted_only bk (plan_schedule p) (fit_epsilon p) (fit_delta p) q ∅).

Lemma idle_result {A} (r : result A) : tri idle (lift_result r) (fun _ => idle).
Proof. eapply triple_weaken; [done|apply triple_result; by intros ? ? [? _]|]. by intros ? ? ? [_ ?]. Qed.

Lemma idle_each {A B} (f : A -> method B) l : (forall a, tri idle (f a) (fun _ => idle)) -> tri idle (each f l) (fun _ => idle).
Proof.
  intros Hf. induction l as [|a l IH]; [apply (idle_result (Ok []))|]. cbn [each]. eapply triple_andthen; [apply Hf|]. intros b.
  eapply triple_andthen; [apply IH|]. intros bs. apply (idle_result (Ok (b :: bs))).
Qed.

Lemma triple_current {A} (f : release_session -> result A) : tri idle (of_session f) (fun a x sp => f x = Ok a /\ idle x sp).
Proof.
  intros x sp Hx tr x' r Hp. inversion Hp; subst. exists []. rewrite app_nil_r. split; [done|]. split; [by destruct Hx|done].
Qed.

Lemma idle_current {A} (f : release_session -> result A) : tri idle (of_session f) (fun _ => idle).
Proof. eapply triple_weaken; [done|apply triple_current|]. by intros ? ? ? [_ ?]. Qed.

Lemma release_all_spends table : tri idle (release_everything bk p table)
  (fun a x sp => idle x sp /\ exists n blocks e d, a = fit_artifact p n blocks e d /\ composed_loss x = Ok (e, d)).
Proof.
  unfold release_everything. eapply triple_andthen; [apply row_count_spends|]. intros n. eapply triple_andthen; [apply idle_result|]. intros row_count.
  eapply triple_andthen; [apply idle_each; intros c; eapply triple_andthen; [apply idle_result|]; intros values; eapply triple_andthen; [apply numeric_spends|]; intros raw; apply idle_result|]. intros numbers.
  eapply triple_andthen; [apply idle_each; intros c; eapply triple_andthen; [apply idle_result|]; intros values; eapply triple_andthen; [apply categorical_spends|]; intros raw; apply idle_result|]. intros categories.
  eapply triple_andthen; [apply idle_current|]. intros [].
  eapply triple_andthen; [apply triple_current|]. intros loss x sp Hx tr x' r Hp. apply (plays_result (Ok _)) in Hp as (-> & -> & ->). destruct Hx as [El Hx].
  exists []. rewrite app_nil_r. split; [done|]. split; [by destruct Hx|]. intros a Ha. injection Ha as Ha. split; [done|].
  exists row_count, (numbers ++ categories), loss.1, loss.2. split; [by symmetry|]. by destruct loss.
Qed.
End Spent.

(** C15: An artifact is never dearer than it says. On every path of answers on which a fit
    returns an artifact, every query of the public schedule was invoked exactly once and
    nothing else was; the artifact's epsilon is the composition of the certificates of
    those very measurements at the requested delta, finite and at most what was requested. *)
Theorem fit_within_request t column_schema epsilon delta bins cache tr a :
  cache_sound bk opendp_version dp_accounting_version cache ->
  plays (fit_dp_snapshot bk t column_schema epsilon delta bins cache).2 tr (Ok a) ->
  exists p q names n blocks e,
    plan_fit column_schema epsilon delta bins = Ok p /\
    NoDup names /\ (forall k, k ∈ names <-> k ∈ query_names (plan_schedule p)) /\
    Forall2 (fun k call => scheduled bk (plan_schedule p) (fit_delta p) q k call.1) names tr /\
    a = fit_artifact p n blocks e (fit_delta p) /\
    loss_report bk (plan_schedule p) (fit_delta p) q e /\ is_finite e = true /\ flt_leb e (fit_epsilon p) = true.
Proof.
  intros Hc Hp. unfold fit_dp_snapshot in Hp. destruct (plan_fit column_schema epsilon delta bins) as [p|] eqn:Eplan; [|by inversion Hp].
  destruct (session_opened bk opendp_version dp_accounting_version (plan_schedule p) (fit_epsilon p) (fit_delta p) cache Hc) as (cache' & r & E & _ & Hopen).
  rewrite E in Hp. destruct r as [x|]; [|by inversion Hp]. destruct (Hopen x eq_refl) as (Hceil & _ & Ho & Hr & _). cbn [snd] in Hp.
  destruct (sanitize_carrier_table t (fit_schema p)) as [table|]; [|by inversion Hp].
  apply plays_bind in Hp as (tr1 & [x' r] & tr2 & -> & Hr1 & Hr2). inversion Hr2; subst. rewrite app_nil_r.
  destruct (release_all_spends p (_eps_q x) table x [] (accounted_pending _ _ _ _ _ _ _ (opened_accounted _ _ _ _ _ _ Ho Hr)) _ _ _ Hr1) as (sp & <- & Hac & HQ).
  cbn [app snd] in *. destruct (HQ a eq_refl) as (_ & n & blocks & e & d & -> & Hl). clear HQ.
  destruct (loss_reported _ _ _ _ _ _ _ _ _ Hac Hl) as (Hrep & -> & Hfin & Hle & Hall). pose proof (ac_scheduled _ _ _ _ _ _ _ Hac) as Hsch.
  exists p, (_eps_q x), sp.*1, n, blocks, e. split; [done|]. split; [apply (ac_once _ _ _ _ _ _ _ Hac)|]. split; [|split; [|split_and!; [done|done|done|by apply not_above]]].
  - intros k. split; [|apply Hall]. intros (en & -> & He)%list_elem_of_fmap. rewrite list.Forall_forall in Hsch. by apply Hsch.
  - apply Forall2_fmap, Forall_Forall2_diag. eapply list.Forall_impl; [exact Hsch|]. by intros en [He _].
Qed.
End Private.

(** ** The example *)

Lemma longer_more : row_more example_table longer_table.
Proof.
  exists 1%nat, 2. split; [lia|]. split; [done|]. split; [done|]. constructor; [split; [done|]|constructor; [split; [done|]|constructor]].
  - apply (more_number 1 _ _ _ _ (more_floats 1 [units 30; Num FNan] (units 140)) (more_bools 1 [true; true] true)).
  - apply (@more_text plain_cells 1 [CText (py "Oslo"); CDate] (CText (py "Rome")) _ _ (more_bools 1 [true; true] true)).
Qed.

Lemma longer_calm : calm_table longer_table.
Proof. repeat constructor; cbn; intros; discriminate. Qed.

Lemma fit_lockstep_witness : plan_fit example_schema example_epsilon example_delta (VInt 2) = Ok example_plan /\
  lockstep (fit_dp_snapshot exact_backend example_table example_schema example_epsilon example_delta (VInt 2) []).2
           (fit_dp_snapshot exact_backend longer_table example_schema example_epsilon example_delta (VInt 2) []).2.
Proof. split; [exact example_plans|]. apply (fit_lockstep exact_backend _ _ _ _ _ _ _ longer_more longer_calm). Defined.

Lemma example_opens : exists q, new_session exact_backend opendp_version dp_accounting_version (plan_schedule example_plan) (fit_epsilon example_plan) (fit_delta example_plan) []
  = ([(example_key (plan_schedule example_plan) (fit_epsilon example_plan) (fit_delta example_plan), q)],
     Ok (session_at (plan_schedule example_plan) (fit_epsilon example_plan) (fit_delta example_plan) q)).
Proof. apply (constant_opens _ _ _ (FFin 40)); [intros e; vm_compute; reflexivity|vm_compute; reflexivity..]. Qed.

Lemma example_fit : exists q, (fit_dp_snapshot exact_backend example_table example_schema example_epsilon example_delta (VInt 2) []).2
  = (r ← release_everything exact_backend example_plan example_sanitized (session_at (plan_schedule example_plan) (fit_epsilon example_plan) (fit_delta example_plan) q); mret r.2).
Proof. destruct example_opens as [q Hq]. exists q. unfold fit_dp_snapshot. rewrite example_plans, Hq. cbn [snd]. by rewrite example_sanitizes. Qed.

(** On the path of the example's answers it comes to an artifact. *)
Lemma example_ends q : exists tr a,
  follow (r ← release_everything exact_backend example_plan example_sanitized (session_at (plan_schedule example_plan) (fit_epsilon example_plan) (fit_delta example_plan) q); mret r.2)
    example_answers = Some (tr, Ok a).
Proof.
  match goal with |- exists tr a, ?t = _ =>
    assert (E : match t with Some (_, Ok _) => true | _ => false end = true) by (vm_compute; reflexivity); destruct t as [[tr [a|e]]|]; [|discriminate..] end.
  by exists tr, a.
Qed.

Lemma ok_equal {A} (a b : A) : Ok a = Ok b -> a = b.
Proof. by intros [= ->]. Qed.

Lemma fit_within_request_witness : exists tr a,
  plays (fit_dp_snapshot exact_backend example_table example_schema example_epsilon example_delta (VInt 2) []).2 tr (Ok a) /\
  exists q names n blocks e, NoDup names /\ (forall k, k ∈ names <-> k ∈ query_names (plan_schedule example_plan)) /\
    Forall2 (fun k call => scheduled exact_backend (plan_schedule example_plan) (fit_delta example_plan) q k call.1) names tr /\
    a = fit_artifact example_plan n blocks e (fit_delta example_plan) /\ flt_leb e (fit_epsilon example_plan) = true.
Proof.
  destruct example_fit as [q0 E]. destruct (example_ends q0) as (tr & a & Hf). apply follow_plays in Hf. rewrite <- E in Hf. exists tr, a. split; [exact Hf|].
  destruct (fit_within_request exact_backend _ _ _ _ _ _ tr a (empty_cache_sound _ _ _) Hf) as (p & q & names & n & blocks & e & Hp & Hnd & Hall & Hsch & Ha & _ & _ & Hle).
  rewrite example_plans in Hp. apply ok_equal in Hp. subst p. exists q, names, n, blocks, e. split; [exact Hnd|]. split; [exact Hall|]. split; [exact Hsch|]. split; [exact Ha|exact Hle].
Defined.

(** ** A fit finishes

    Once its session is open and its table is sanitised, a fit comes to its artifact
    whatever the mechanisms answer, as long as they answer in their kinds: no check of the
    session's own refuses a release, and the budget found at the start is never exceeded
    at the end. *)

(** ** Computations that end well *)

Section Completes.
Context `{Mechanisms}.

(** What a measurement may answer. *)
Class Answers := { answers : measurement -> released -> Prop }.
Context `{Answers}.

Inductive completes {A} (P : A -> Prop) : interaction A -> Prop :=
| completes_done a : P a -> completes P (Done a)
| completes_invoke m d k : (forall r, answers m r -> completes P (k (Ok r))) -> completes P (Invoke m d k).

Lemma completes_bind {A B} (P : A -> Prop) (Q : B -> Prop) (f : A -> interaction B) t : completes P t -> (forall a, P a -> completes Q (f a)) -> completes Q (ibind f t).
Proof. intros Ht Hf. induction Ht as [a Ha|m d k _ IH]; cbn; [by apply Hf|by constructor]. Qed.

(** A method that succeeds from [P] with [Q]. *)
Definition succeeds {A} (P : release_session -> Prop) (f : method A) (Q : A -> release_session -> Prop) : Prop :=
  forall x, P x -> completes (fun xr : release_session * result A => exists a, xr.2 = Ok a /\ Q a xr.1) (f x).

Lemma runs_andthen {A B} P (f : method A) Q (g : A -> method B) R : succeeds P f Q -> (forall a, succeeds (Q a) (g a) R) -> succeeds P (andthen f g) R.
Proof.
  intros Hf Hg x HP. unfold andthen. eapply completes_bind; [by apply Hf|]. intros [x' r] (a & Hr & HQ). cbn in Hr, HQ. rewrite Hr. by apply Hg.
Qed.

Lemma runs_pass {A} (a : A) P : succeeds P (pass a) (fun b x => b = a /\ P x).
Proof. intros x HP. constructor. by exists a. Qed.

Lemma runs_result {A} (r : result A) a P : r = Ok a -> succeeds P (lift_result r) (fun b x => b = a /\ P x).
Proof. intros ->. apply runs_pass. Qed.

Lemma runs_weaken {A} (P P' : release_session -> Prop) (f : method A) Q Q' : (forall x, P x -> P' x) -> succeeds P' f Q -> (forall a x, Q a x -> Q' a x) -> succeeds P f Q'.
Proof.
  intros HP Hf HQ x Hx. apply HP, Hf in Hx. induction Hx as [[x' r] (a & Hr & Ha)|m d k _ IH]; [constructor; exists a; auto|by constructor].
Qed.

(** What does not depend on the session can be put aside. *)
Lemma runs_split {A} (C : Prop) P (f : method A) Q : (C -> succeeds P f Q) -> succeeds (fun x => C /\ P x) f Q.
Proof. intros Hf x [HC HP]. by apply Hf. Qed.
End Completes.

(** ** The session's side *)

Section Live.
Context `{Mechanisms} `{Accounting} `{!Answers} (bk : backend) (s : Schedule) (epsilon delta q : flt).
Abbreviation sched := (scheduled bk s delta q).

Record live_session (L : list pystr) (S : gset pystr) (x : release_session) : Prop := {
  rd_opened : session_open s epsilon delta q x;
  rd_keys : od_keys (_releases x) = L;
  rd_reserved : _reserved x = S;
  rd_certified : certified_right bk s delta q x;
}.

Lemma runs_admit n L S : n ∈ query_names s -> (n ∉ L) -> (n ∉ S) -> succeeds (live_session L S) (_admit n) (fun _ => live_session L ({[ n ]} ∪ S)).
Proof.
  intros Hn HL HS x [Ho Hk Hr Hc]. pose proof Ho as (Es & _). unfold _admit. rewrite Es, (bool_decide_eq_true_2 _ Hn). cbn [negb].
  destruct (od_has (_releases x) n) eqn:E; [apply has_key in E; congruence|]. rewrite Hr, (bool_decide_eq_false_2 _ HS). cbn.
  constructor. exists tt. split; [done|]. by constructor.
Qed.

Lemma runs_release n m c data L S (P : released -> Prop) : sched n m -> measurement_map m = Ok c -> (n ∉ L) -> (n ∉ S) -> (forall r, answers m r -> P r) ->
  succeeds (live_session L ({[ n ]} ∪ S)) (release_one n m data) (fun v x => P v /\ live_session (L ++ [n]) S x).
Proof.
  intros Hs Hc HL HS HP. unfold release_one. eapply runs_andthen; [by apply runs_result|]. intros c'.
  intros x [-> [Ho Hk Hr Hcert]]. constructor. intros r Hr'. cbn. constructor. exists r. split; [done|]. split; [by apply HP|]. constructor; [done| |cbn; rewrite Hr; set_solver|].
  - change (od_keys (od_set (_releases x) n {| certified := c; value := r |}) = L ++ [n]). rewrite od_keys_set. destruct (od_has (_releases x) n) eqn:E; [apply has_key in E; congruence|]. by rewrite Hk.
  - intros k r2 Hr2. cbn in Hr2. rewrite od_get_set in Hr2. case_bool_decide; [|by apply Hcert]. subst k. injection Hr2 as <-. by exists m.
Qed.

Lemma runs_single {A} n (build : result measurement) m c data (f : released -> result A) L (P : A -> Prop) :
  n ∈ query_names s -> (n ∉ L) -> build = Ok m -> sched n m -> measurement_map m = Ok c -> (forall r, answers m r -> exists a, f r = Ok a /\ P a) ->
  succeeds (live_session L ∅) (andthen (_admit n) (fun _ => andthen (lift_result build) (fun m => andthen (release_one n m data) (fun v => lift_result (f v)))))
    (fun a x => P a /\ live_session (L ++ [n]) ∅ x).
Proof.
  intros Hn HL -> Hs Hc Hf. eapply runs_andthen; [by apply runs_admit|]. intros []. cbn [lift_result].
  eapply (runs_andthen _ (pass m)); [apply runs_pass|]. intros m' x [-> Hx]. revert x Hx.
  change (succeeds (live_session L ({[n]} ∪ ∅)) (andthen (release_one n m data) (fun v => lift_result (f v))) (fun a x => P a /\ live_session (L ++ [n]) ∅ x)).
  eapply runs_andthen; [by apply (runs_release n m c data L ∅ (fun r => exists a, f r = Ok a /\ P a))|]. intros v x [(a & Ha & HP) Hx]. rewrite Ha. constructor. by exists a.
Qed.

Lemma runs_opened {A} L (f : release_session -> method A) (g : method A) Q : (forall x, session_open s epsilon delta q x -> f x x = g x) -> succeeds (live_session L ∅) g Q -> succeeds (live_session L ∅) (fun x => f x x) Q.
Proof. intros Hfg Hg x Hx. rewrite Hfg by apply Hx. by apply Hg. Qed.

Lemma rows_run n L (P : Z -> Prop) m c : (row_count_name s ∉ L) -> count_measurement bk q = Ok m -> measurement_map m = Ok c ->
  (forall r, answers m r -> exists a, as_count r = Ok a /\ P a) ->
  succeeds (live_session L ∅) (release_row_count bk n) (fun a x => P a /\ live_session (L ++ [row_count_name s]) ∅ x).
Proof.
  intros HL Hm Hc HP. unfold release_row_count. eapply runs_opened.
  - intros x (Es & _ & _ & _ & Eq). rewrite Es, Eq. reflexivity.
  - eapply runs_single; [left|done|done|by constructor|done|done].
Qed.

Lemma find_unique {A} (P : A -> bool) l a : a ∈ l -> P a = true -> (forall b, b ∈ l -> P b = true -> b = a) -> find P l = Some a.
Proof.
  intros Hin Ha Hu. destruct (find P l) as [b|] eqn:E; [apply find_spec in E as [? ?]; f_equal; auto|].
  apply list_elem_of_In in Hin. by rewrite (find_none _ _ E a Hin) in Ha.
Qed.

Lemma numeric_run spec values L (P : list Z -> Prop) m c : spec ∈ numeric s -> (forall spec', spec' ∈ numeric s -> nq_name spec' = nq_name spec -> spec' = spec) ->
  (nq_name spec ∉ L) -> numeric_measurement bk q (interior_edges spec) = Ok m -> measurement_map m = Ok c ->
  (forall r, answers m r -> exists a, as_counts r = Ok a /\ P a) ->
  succeeds (live_session L ∅) (release_numeric bk (nq_name spec) values) (fun a x => P a /\ live_session (L ++ [nq_name spec]) ∅ x).
Proof.
  intros Hin Hu HL Hm Hc HP x Hx. pose proof (rd_opened _ _ _ Hx) as (Es & _ & _ & _ & Eq). unfold release_numeric. rewrite Es, Eq.
  rewrite (find_unique _ _ spec); [|done|by apply bool_decide_eq_true_2|intros b Hb Hn; bool_prop; auto].
  revert x Hx Es Eq. intros x Hx _ _. revert x Hx. eapply runs_single; [by apply numeric_name|done|done|by econstructor|done|done].
Qed.

Lemma categorical_names spec : spec ∈ categorical s -> grouped_name spec ∈ query_names s /\ total_name spec ∈ query_names s.
Proof.
  intros Hin. assert (Hc : forall n, n ∈ [grouped_name spec; total_name spec] -> n ∈ query_names s); [|split; apply Hc; [left|right; left]].
  intros n Hn. right. apply elem_of_app. right. apply list_elem_of_In, in_concat. eexists. split; [|by apply list_elem_of_In].
  apply list_elem_of_In, list_elem_of_fmap. by exists spec.
Qed.

Lemma categorical_run spec values L (P : list (label * Z) -> Prop) (Q : Z -> Prop) pr cg ct : spec ∈ categorical s ->
  (forall spec', spec' ∈ categorical s -> grouped_name spec' = grouped_name spec -> spec' = spec) ->
  NoDup (L ++ [grouped_name spec; total_name spec]) ->
  _categorical_measurements bk q (delta_per_categorical s delta) (cq_carrier spec) = Ok pr -> measurement_map pr.1 = Ok cg -> measurement_map pr.2 = Ok ct ->
  (forall r, answers pr.1 r -> exists a, as_groups r = Ok a /\ P a) -> (forall r, answers pr.2 r -> exists a, as_count r = Ok a /\ Q a) ->
  succeeds (live_session L ∅) (release_categorical bk (grouped_name spec) (total_name spec) values)
    (fun gt x => (P gt.1 /\ Q gt.2) /\ live_session (L ++ [grouped_name spec; total_name spec]) ∅ x).
Proof.
  intros Hin Hu Hnd Hpr Hg Ht HP HQ x Hx. pose proof (rd_opened _ _ _ Hx) as (Es & _ & _ & Ed & Eq). unfold release_categorical. rewrite Es, Ed, Eq.
  rewrite (find_unique _ _ spec); [|done|by rewrite !bool_decide_eq_true_2|intros b Hb [Hn _]%andb_true_iff; bool_prop; auto].
  rewrite Hpr. revert x Hx Es Ed Eq. intros x Hx _ _ _. revert x Hx. set (g := grouped_name spec) in *. set (t := total_name spec) in *.
  assert (Hfresh : (g ∉ L) /\ (t ∉ L) /\ g <> t).
  { apply list.NoDup_app in Hnd as (_ & Hn1 & Hn2). apply list.NoDup_cons in Hn2 as [Hgt _]. rewrite list_elem_of_singleton in Hgt.
    split_and!; [intros Hx; eapply Hn1; [done|by left]|intros Hx; eapply Hn1; [done|right; by left]|done]. }
  destruct Hfresh as (HgL & HtL & Hgt). destruct (categorical_names spec Hin) as [Ng Nt].
  set (R := fun (gt : list (label * Z) * Z) x => (P gt.1 /\ Q gt.2) /\ live_session (L ++ [g; t]) ∅ x).
  change (succeeds (live_session L ∅) (andthen (_admit g) (fun _ => andthen (_admit t) (fun _ => andthen (pass pr) (fun p => andthen (release_one g p.1 values) (fun gs =>
    andthen (release_one t p.2 values) (fun n => lift_result (gs ← as_groups gs; n ← as_count n; Ok (gs, n)))))))) R).
  eapply runs_andthen; [apply runs_admit; [done|done|set_solver]|]. intros []. eapply runs_andthen; [apply runs_admit; [done|done|set_solver]|]. intros [].
  eapply runs_andthen; [apply (runs_pass pr)|]. intros p'.
  replace ({[t]} ∪ ({[g]} ∪ ∅) : gset pystr) with ({[g]} ∪ ({[t]} ∪ ∅) : gset pystr) by set_solver.
  apply runs_split. intros ->.
  eapply runs_andthen; [apply (runs_release g pr.1 cg values L ({[t]} ∪ ∅) _ ltac:(by econstructor) Hg HgL ltac:(set_solver) HP)|]. intros rg.
  apply runs_split. intros (gs & Egs & HPg).
  eapply runs_andthen; [apply (runs_release t pr.2 ct values (L ++ [g]) ∅ _ ltac:(by econstructor) Ht ltac:(set_solver) ltac:(set_solver) HQ)|].
  intros rt x [(n & En & HQn) Hx]. rewrite Egs, En. constructor. exists (gs, n). split; [done|]. split; [done|]. by rewrite <- app_assoc in Hx.
Qed.

(** A loop whose every turn releases queries of its own. *)
Lemma each_succeeds {A B} (f : A -> method B) (names : A -> list pystr) (R : A -> B -> Prop) l L :
  (forall a L', a ∈ l -> NoDup (L' ++ names a) -> succeeds (live_session L' ∅) (f a) (fun b x => R a b /\ live_session (L' ++ names a) ∅ x)) ->
  NoDup (L ++ concat (names <$> l)) -> succeeds (live_session L ∅) (each f l) (fun bs x => Forall2 R l bs /\ live_session (L ++ concat (names <$> l)) ∅ x).
Proof.
  revert L. induction l as [|a l IH]; intros L Hf Hnd; cbn [each fmap list_fmap concat] in *.
  - rewrite app_nil_r. intros x Hx. constructor. exists []. split; [done|]. by split; [constructor|].
  - rewrite app_assoc in Hnd |- *. eapply runs_andthen; [apply Hf; [by left|by apply list.NoDup_app in Hnd as (? & _)]|]. intros b. apply runs_split. intros Hb.
    eapply runs_andthen; [apply IH; [intros; apply Hf; [by right|done]|done]|]. intros bs. apply runs_split. intros Hbs x Hx. constructor. exists (b :: bs). split; [done|]. split; [by constructor|done].
Qed.
End Live.

(** ** Counts are written down *)

Definition plausible (n : Z) : Prop := Z.abs n <= 2 ^ 63.

Lemma plausible_float n : plausible n -> exists z, py_float_of_int n = Ok (Num (FFin z)).
Proof.
  unfold plausible, py_float_of_int, nearest. intros Hn.
  assert (Hr : representable float64 (1 * 2 ^ (63 + tiny float64))) by (apply repr_of_multiple; by vm_compute).
  rewrite Z.mul_1_l, Z.pow_add_r in Hr by (cbn; lia). set (u := 2 ^ tiny float64) in *. assert (Hu : 0 < u) by (by vm_compute).
  assert (Hlow : - (2 ^ 63 * u) <= round_units float64 (n * u) 1) by (apply round_low; [apply format_float64|lia|by apply repr_opp|nia]).
  assert (Hhigh : round_units float64 (n * u) 1 <= 2 ^ 63 * u) by (apply round_high; [apply format_float64|lia|done|nia]).
  assert (Htop : 2 ^ 63 * u < top float64) by (by vm_compute).
  destruct (Z.ltb_spec (Z.abs (round_units float64 (n * u) 1)) (top float64)); [by eexists|lia].
Qed.

Lemma plausible_serialized n : plausible n -> exists k, _serialize_count n = Ok k.
Proof. intros [z Hz]%plausible_float. unfold _serialize_count. rewrite Hz. cbn [mbind result_bind magnitude]. by eexists. Qed.

Lemma all_mapped {A B} (f : A -> result B) l : (forall a, a ∈ l -> exists b, f a = Ok b) -> exists bs, map_res f l = Ok bs.
Proof.
  induction l as [|a l IH]; intros Hf; [by exists []|]. destruct (Hf a) as [b Hb]; [left|]. destruct IH as [bs Hbs]; [intros; apply Hf; by right|].
  exists (b :: bs). cbn. by rewrite Hb, Hbs.
Qed.

(** ** The plan *)

Section Planned.
Context `{FitEnv}.

Lemma parse_keys d acc out : for_each parse_column d acc = Ok out -> NoDup (od_keys acc.1) /\ NoDup (od_keys acc.2) -> NoDup (od_keys out.1) /\ NoDup (od_keys out.2).
Proof.
  revert acc. induction d as [|[k v] d IH]; intros acc E Hacc; cbn [for_each] in E; [by injection E as <-|].
  apply bind_inv in E as (acc' & Ec & E). apply (IH _ E). unfold parse_column in Ec. destruct acc as [nb cc], v as [| | | | | | |spec|]; cbn [fst snd] in *; try discriminate.
  apply bind_inv in Ec as (carrier & _ & Ec). destruct (bool_decide _).
  - destruct (vget spec "bounds") as [| | | | | |tu [|lo [|hi [|]]]| |]; try discriminate. apply bind_inv in Ec as (b & _ & [= <-]). cbn. split; [apply od_set_nodup, Hacc|apply Hacc].
  - injection Ec as <-. cbn. split; [apply Hacc|apply od_set_nodup, Hacc].
Qed.

Lemma query_names_plan p : query_names (plan_schedule p) =
  py "row_count" :: (numeric_query <$> numeric_cols p) ++ concat ((fun c => [grouped_query c; total_query c]) <$> categorical_cols p).
Proof. unfold query_names, plan_schedule. cbn [row_count_name numeric categorical]. by rewrite <- !list_fmap_compose. Qed.

(** The names of queries start differently by kind. *)
Lemma pair_names l n : n ∈ concat ((fun c => [grouped_query c; total_query c]) <$> l) -> exists c, c ∈ l /\ (n = grouped_query c \/ n = total_query c).
Proof.
  intros (ns & Hns & Hn)%list_elem_of_In%in_concat. apply list_elem_of_In, list_elem_of_fmap in Hns as (c & -> & Hc). apply list_elem_of_In in Hn.
  exists c. split; [done|]. apply elem_of_cons in Hn as [->|Hn]; [by left|right]. by apply list_elem_of_singleton.
Qed.

Lemma pairs_nodup l : NoDup l -> NoDup (concat ((fun c => [grouped_query c; total_query c]) <$> l)).
Proof.
  induction 1 as [|c l Hc _ IH]; [constructor|]. cbn [fmap list_fmap concat app]. rewrite !list.NoDup_cons, elem_of_cons.
  split_and!; [|intros (d & Hd & [E|E])%pair_names; [discriminate|injection E as ->; done]|done].
  intros [E|(d & Hd & [E|E])%pair_names]; [discriminate|injection E as ->; done|discriminate].
Qed.

Lemma names_nodup p : NoDup (od_keys (numeric_bounds p)) -> NoDup (od_keys (categorical_carriers p)) -> NoDup (query_names (plan_schedule p)).
Proof.
  intros H1 H2. rewrite query_names_plan.
  assert (N1 : NoDup (numeric_cols p)) by (unfold numeric_cols; by rewrite sorted_perm).
  assert (N2 : NoDup (categorical_cols p)) by (unfold categorical_cols; by rewrite sorted_perm).
  apply list.NoDup_cons. split; [|apply list.NoDup_app; split; [|split]].
  - intros [(c & E & _)%list_elem_of_fmap|(c & _ & [E|E])%pair_names]%elem_of_app; discriminate.
  - apply NoDup_fmap_2; [|done]. intros c d E. by injection E.
  - intros n (c & -> & _)%list_elem_of_fmap (d & _ & [E|E])%pair_names; discriminate.
  - by apply pairs_nodup.
Qed.
End Planned.

(** ** Declared columns reach the mechanisms *)

Section Declared.
Context `{CellOps}.

Lemma parse_carrier_declared spec carrier : parse_carrier spec = Ok carrier -> vget spec "carrier" = VStr carrier.
Proof.
  unfold parse_carrier. intros E. apply bind_inv in E as (c & Ec & E). assert (c = carrier) as <-.
  { destruct (vget spec "kind") as [| | | | |k| | |]; try discriminate; [by injection E|]. destruct (od_get _ k) as [allowed|]; [|discriminate]. destruct (bool_decide _); [by injection E|discriminate]. }
  destruct (vget spec "carrier") as [| | | | |k| | |]; try discriminate. destruct (bool_decide _); [by injection Ec as ->|discriminate].
Qed.

Lemma parsed_declared d acc out c : for_each parse_column d acc = Ok out ->
  (c ∈ od_keys out.1 -> c ∈ od_keys acc.1 \/ exists spec, (c, VDict spec) ∈ d /\ vget spec "carrier" = VStr (py "number")) /\
  (c ∈ od_keys out.2 -> c ∈ od_keys acc.2 \/ c ∈ od_keys d).
Proof.
  revert acc. induction d as [|[k v] d IH]; intros acc E; cbn [for_each] in E; [injection E as <-; tauto|].
  apply bind_inv in E as (acc' & Ec & E). destruct (IH _ E) as [IH1 IH2]. clear IH E.
  assert (Hc : (c ∈ od_keys acc'.1 -> c ∈ od_keys acc.1 \/ exists spec, (c, VDict spec) ∈ (k, v) :: d /\ vget spec "carrier" = VStr (py "number")) /\
    (c ∈ od_keys acc'.2 -> c ∈ od_keys acc.2 \/ c = k)).
  { unfold parse_column in Ec. destruct acc as [nb cc], v as [| | | | | | |spec|]; cbn [fst snd] in *; try discriminate.
    apply bind_inv in Ec as (carrier & Hcar%parse_carrier_declared & Ec). destruct (bool_decide _) eqn:En.
    - destruct (vget spec "bounds") as [| | | | | |tu [|lo [|hi [|]]]| |]; try discriminate. apply bind_inv in Ec as (b & _ & [= <-]). bool_prop. subst carrier. cbn [fst snd].
      split; [|tauto]. rewrite set_keys. intros [->|?]; [|by left]. right. exists spec. split; [left|done].
    - injection Ec as <-. cbn [fst snd]. split; [tauto|]. rewrite set_keys. tauto. }
  split; intros Hk.
  - destruct (IH1 Hk) as [Hk'|(spec & ? & ?)]; [by apply Hc|]. right. exists spec. split; [by right|done].
  - change (od_keys ((k, v) :: d)) with (k :: od_keys d). rewrite elem_of_cons. destruct (IH2 Hk) as [Hk'|?]; [|tauto]. apply Hc in Hk'. tauto.
Qed.

(** What one entry does to the sanitised columns. *)
Lemma sanitized_entry n cols acc acc' k v : sanitize_column n cols acc (k, v) = Ok acc' ->
  exists spec s, v = VDict spec /\ acc' = od_set acc k s /\ (vget spec "carrier" = VStr (py "number") -> exists l w, s = SaneNumber l w).
Proof.
  unfold sanitize_column. cbn [fst snd]. destruct v as [| | | | | | |spec|]; try discriminate. destruct (od_get cols k) as [col|]; [|discriminate]. intros E.
  apply bind_inv in E as (s & Es & [= <-]). exists spec, s. split; [done|]. split; [done|]. intros Hk. rewrite Hk in Es. cbn in Es.
  destruct col as [vs w| |]; try discriminate. apply bind_inv in Es as (w' & _ & Es). destruct vs as [|vs|]; try discriminate. apply bind_inv in Es as ([] & _ & Es).
  destruct (od_get spec (py "bounds") ≫= unpack_two) as [[lo hi]|]; [|discriminate]. apply bind_inv in Es as (b & _ & Es). apply bind_inv in Es as (o & _ & [= <-]). by eexists _, _.
Qed.

Lemma sanitized_keep n cols d acc out c : for_each (sanitize_column n cols) d acc = Ok out -> (c ∉ od_keys d) -> od_get out c = od_get acc c.
Proof.
  revert acc. induction d as [|[k v] d IH]; intros acc E Hc; cbn [for_each] in E; [by injection E as <-|].
  apply bind_inv in E as (acc' & (spec & s & -> & -> & _)%sanitized_entry & E). change (od_keys ((k, VDict spec) :: d)) with (k :: od_keys d) in Hc.
  rewrite elem_of_cons in Hc. rewrite (IH _ E) by tauto. rewrite od_get_set. case_bool_decide; [subst; tauto|done].
Qed.

Lemma sanitized_present n cols d acc out c v : for_each (sanitize_column n cols) d acc = Ok out -> NoDup (od_keys d) -> (c, v) ∈ d ->
  exists spec s, v = VDict spec /\ od_get out c = Some s /\ (vget spec "carrier" = VStr (py "number") -> exists l w, s = SaneNumber l w).
Proof.
  revert acc. induction d as [|[k v1] d IH]; intros acc E Hnd Hin; cbn [for_each] in E; [by apply elem_of_nil in Hin|].
  apply bind_inv in E as (acc' & Ea & E). change (od_keys ((k, v1) :: d)) with (k :: od_keys d) in Hnd. apply list.NoDup_cons in Hnd as [Hk Hnd].
  apply elem_of_cons in Hin as [[= -> ->]|Hin]; [|by eapply IH]. apply sanitized_entry in Ea as (spec & s & -> & -> & Hs). exists spec, s.
  split; [done|]. split; [|done]. by rewrite (sanitized_keep _ _ _ _ _ _ E Hk), od_get_set_eq.
Qed.
End Declared.

(** ** The fit *)

(** The label of a group in a column of a carrier. *)
Definition label_fits (carrier : pystr) (l : label) : Prop := carrier = py "flag" \/ exists s, l = LText s.

(** Measurements answer in their kinds, with counts of machine integers, a histogram with
    one for every bin; a composed loss is not negative. *)
Class AnswerLaws `{Mechanisms} `{!Answers} (bk : backend) : Prop := {
  count_answers q m r : count_measurement bk q = Ok m -> answers m r -> exists n, r = Count n /\ plausible n;
  bins_answers q e m r : numeric_measurement bk q e = Ok m -> answers m r -> exists l, r = Counts l /\ Forall plausible l /\ length l = S (length e);
  groups_answers q d carrier p r : _categorical_measurements bk q d carrier = Ok p -> answers p.1 r ->
    exists l, r = Groups l /\ Forall (fun lc : label * Z => plausible lc.2 /\ label_fits carrier lc.1) l;
  total_answers q d carrier p r : _categorical_measurements bk q d carrier = Ok p -> answers p.2 r -> exists n, r = Count n /\ plausible n;
}.
Class LossLaws `{Accounting} : Prop := { loss_nonneg p delta : flt_leb (FFin 0) (get_epsilon_for_delta p delta) = true }.

(** A finished artifact: a block for every declared column, in order, each of what its
    query answered, and a loss that keeps to the request. *)
Definition numeric_made `{FitEnv} (p : fit_plan) (n : Z) (c : pystr) (block : pystr * art) : Prop :=
  block.1 = c /\ exists raw, numeric_block p n c raw = Ok block.2 /\ length raw = S (length (_interior_edges (bounds_of p c).1 (bounds_of p c).2 (fit_bins p))).
Definition categorical_made `{FitEnv} (p : fit_plan) (n : Z) (c : pystr) (block : pystr * art) : Prop :=
  block.1 = c /\ exists groups total, categorical_block p n c groups total = Ok block.2.
Definition finished `{FitEnv} (p : fit_plan) (a : art) : Prop :=
  exists n numbers categories e, a = fit_artifact p n (numbers ++ categories) e (fit_delta p) /\
    Forall2 (numeric_made p n) (numeric_cols p) numbers /\ Forall2 (categorical_made p n) (categorical_cols p) categories /\
    is_finite e = true /\ flt_leb (FFin 0) e = true /\ flt_leb e (fit_epsilon p) = true.

(** The loss that an artifact states. *)
Definition states_loss `{FitEnv} (p : fit_plan) (a : art) (e : flt) : Prop :=
  exists n blocks, a = fit_artifact p n blocks e (fit_delta p).

Section Finishing.
Context `{CellOps} `{FitEnv} `{Mechanisms} `{Accounting} `{!Answers} (bk : backend) `{!AnswerLaws bk}.

Section OfPlan.
Context (p : fit_plan) (q : flt).
Abbreviation s := (plan_schedule p).
Abbreviation rdy := (live_session bk s (fit_epsilon p) (fit_delta p) q).
Hypothesis Hcert : exists certs, certify_all bk s (delta_per_categorical s (fit_delta p)) q = Ok certs.

Lemma table_measured n b : (n, b) ∈ schedule_table bk s (fit_delta p) q -> exists m c, b = Ok m /\ measurement_map m = Ok c.
Proof.
  destruct Hcert as [certs Hc]. intros Hin. apply certified_all_table in Hc. apply list_elem_of_lookup in Hin as [i Hi].
  destruct (Forall2_lookup_l _ _ _ _ _ Hc Hi) as (c & _ & m & Em & Ec). by exists m, c.
Qed.

Lemma block_made n c l : Forall plausible l -> exists b, numeric_block p n c l = Ok b.
Proof.
  intros Hl. unfold numeric_block. destruct (bounds_of p c) as [lo hi]. destruct (all_mapped _serialize_count l) as [k Hk]; [|rewrite Hk; by eexists].
  intros x Hx. rewrite list.Forall_forall in Hl. by apply plausible_serialized, Hl.
Qed.

Lemma categories_made n c gs t : Forall (fun lc : label * Z => plausible lc.2 /\ label_fits (carrier_of p c) lc.1) gs -> plausible t -> exists b, categorical_block p n c gs t = Ok b.
Proof.
  intros Hl [k Hk]%plausible_serialized. unfold categorical_block.
  match goal with |- context [map_res ?f gs] => destruct (all_mapped f gs) as [r Hr] end; [|rewrite Hr; cbn [mbind result_bind]; rewrite Hk; by eexists].
  intros [lab x] Hx. rewrite list.Forall_forall in Hl. destruct (Hl _ Hx) as [[y Hy]%plausible_serialized Hf]. cbn [fst snd] in *. unfold retained_label.
  destruct (bool_decide _) eqn:E; cbn [mbind result_bind]; [rewrite Hy; by eexists|]. bool_prop. destruct Hf as [?|[st ->]]; [done|]. cbn [mbind result_bind]. rewrite Hy. by eexists.
Qed.

Lemma numeric_column_run vectors n c v L : c ∈ numeric_cols p -> od_get vectors c = Some (Numbers v) -> NoDup (L ++ [numeric_query c]) ->
  succeeds (rdy L ∅) (release_numeric_column bk p vectors n c) (fun b x => numeric_made p n c b /\ rdy (L ++ [numeric_query c]) ∅ x).
Proof.
  intros Hc Hv Hnd. unfold release_numeric_column. rewrite Hv. eapply runs_andthen; [apply (runs_pass v)|]. intros v'. apply runs_split. intros ->.
  pose (spec := {| nq_name := numeric_query c; interior_edges := _interior_edges (bounds_of p c).1 (bounds_of p c).2 (fit_bins p) |}).
  assert (Hspec : spec ∈ numeric s) by (apply list_elem_of_fmap; by exists c).
  destruct (table_measured (nq_name spec) (numeric_measurement bk q (interior_edges spec))) as (m & ce & Em & Ec); [right; apply elem_of_app; left; apply list_elem_of_fmap; by exists spec|].
  eapply runs_andthen.
  - apply (numeric_run bk s (fit_epsilon p) (fit_delta p) q spec v L (fun l => Forall plausible l /\ length l = S (length (interior_edges spec))) m ce); [done| |apply list.NoDup_app in Hnd as (_ & Hn & _); intros Hx; eapply Hn; [exact Hx|left]|done|done|].
    + intros spec' (d & -> & _)%list_elem_of_fmap E. cbn [nq_name] in E. injection E as ->. done.
    + intros r Hr. destruct (bins_answers _ _ _ _ Em Hr) as (l & -> & Hl). by exists l.
  - intros raw. apply runs_split. intros [Hraw Hlen]. destruct (block_made n c raw Hraw) as [b Hb]. rewrite Hb. intros x Hx. constructor. exists (c, b). split; [done|]. split; [|done].
    split; [done|]. by exists raw.
Qed.

Lemma categorical_column_run vectors n c v L : c ∈ categorical_cols p -> od_get vectors c = Some v -> NoDup (L ++ [grouped_query c; total_query c]) ->
  succeeds (rdy L ∅) (release_categorical_column bk p vectors n c) (fun b x => categorical_made p n c b /\ rdy (L ++ [grouped_query c; total_query c]) ∅ x).
Proof.
  intros Hc Hv Hnd. unfold release_categorical_column. rewrite Hv. eapply runs_andthen; [apply (runs_pass v)|]. intros v'. apply runs_split. intros ->.
  pose (spec := {| grouped_name := grouped_query c; total_name := total_query c; cq_carrier := carrier_of p c |}).
  assert (Hspec : spec ∈ categorical s) by (apply list_elem_of_fmap; by exists c).
  pose (b := _categorical_measurements bk q (delta_per_categorical s (fit_delta p)) (carrier_of p c)).
  assert (Htab : forall e, e ∈ [(grouped_name spec, (p ← b; Ok p.1)); (total_name spec, (p ← b; Ok p.2))] -> e ∈ schedule_table bk s (fit_delta p) q).
  { intros e He. right. apply elem_of_app. right. apply list_elem_of_In, in_concat. eexists. split; [|by apply list_elem_of_In; exact He]. apply list_elem_of_In, list_elem_of_fmap. by exists spec. }
  destruct (table_measured _ _ (Htab _ ltac:(left))) as (mg & cg & Eg & Ecg). destruct (table_measured _ _ (Htab _ ltac:(right; left))) as (mt & ct & Et & Ect).
  destruct b as [pr|] eqn:Eb; [|done]. injection Eg as <-. injection Et as <-.
  eapply runs_andthen.
  - apply (categorical_run bk s (fit_epsilon p) (fit_delta p) q spec v L (Forall (fun lc : label * Z => plausible lc.2 /\ label_fits (carrier_of p c) lc.1)) plausible pr cg ct); [done| |done|done|done|done| |].
    + intros spec' (d & -> & _)%list_elem_of_fmap E. cbn [grouped_name] in E. injection E as ->. done.
    + intros r Hr. destruct (groups_answers _ _ _ _ _ Eb Hr) as (l & -> & Hl). by exists l.
    + intros r Hr. destruct (total_answers _ _ _ _ _ Eb Hr) as (k & -> & Hk). by exists k.
  - intros gt. apply runs_split. intros [Hgs Ht]. destruct (categories_made n c gt.1 gt.2 Hgs Ht) as [a Ha]. rewrite Ha. intros x Hx. constructor. exists (c, a). split; [done|]. split; [|done].
    split; [done|]. by exists gt.1, gt.2.
Qed.

Lemma query_total : zlen (query_names s) = query_count s.
Proof.
  unfold query_names, query_count, zlen. cbn [length]. rewrite length_app, length_fmap.
  assert (Hc : forall l : list CategoricalQuerySpec, length (concat ((fun k => [grouped_name k; total_name k]) <$> l)) = (2 * length l)%nat) by (induction l as [|a l IH]; [done|cbn in *; lia]).
  rewrite Hc. lia.
Qed.

Context `{!LossLaws}.

Lemma finite_loss pl : is_finite (fit_epsilon p) = true -> flt_ltb (fit_epsilon p) (get_epsilon_for_delta pl (fit_delta p)) = false -> is_finite (get_epsilon_for_delta pl (fit_delta p)) = true.
Proof. pose proof (loss_nonneg pl (fit_delta p)) as Hn. destruct (get_epsilon_for_delta pl (fit_delta p)) as [z|[]|], (fit_epsilon p) as [w|[]|]; try done. Qed.

Lemma release_all_run table : is_finite (fit_epsilon p) = true -> flt_leb (fit_epsilon p) _DP_EPSILON_CEILING = true -> funded bk s (fit_epsilon p) (fit_delta p) q -> NoDup (query_names s) ->
  plausible (sane_count table) ->
  (forall c, c ∈ numeric_cols p -> exists v, od_get (released_values table) c = Some (Numbers v)) ->
  (forall c, c ∈ categorical_cols p -> exists v, od_get (released_values table) c = Some v) ->
  succeeds (rdy [] ∅) (release_everything bk p table) (fun a _ => finished p a /\ exists e, states_loss p a e /\ composed_epsilon_or_none bk s (fit_delta p) q = Ok (Some e)).
Proof.
  intros Hfin Hceil (certs & pl & Hcs & Hpl & Hle) Hnd Hplaus Hnum Hcat. unfold release_everything.
  destruct (table_measured (row_count_name s) (count_measurement bk q)) as (m & ce & Em & Ec); [left|].
  eapply runs_andthen.
  { apply (rows_run bk s (fit_epsilon p) (fit_delta p) q _ [] plausible m ce); [by intros ?%elem_of_nil|done|done|]. intros r Hr. destruct (count_answers _ _ _ Em Hr) as (k & -> & Hk). by exists k. }
  intros n. apply runs_split. intros [rc Hrc]%plausible_serialized. rewrite Hrc. eapply runs_andthen; [apply (runs_pass rc)|]. intros rc'. apply runs_split. intros ->.
  rewrite query_names_plan in Hnd. cbn [app]. change (py "row_count" :: ?l) with ([py "row_count"] ++ l) in Hnd. rewrite app_assoc in Hnd.
  assert (Hflat : concat ((fun c => [numeric_query c]) <$> numeric_cols p) = numeric_query <$> numeric_cols p) by (generalize (numeric_cols p); intros l; clear; induction l as [|c l IH]; [done|cbn [fmap list_fmap concat app]; by f_equal]).
  eapply runs_andthen.
  { apply (each_succeeds bk s (fit_epsilon p) (fit_delta p) q _ (fun c => [numeric_query c]) (numeric_made p rc) (numeric_cols p) [py "row_count"]); [|rewrite Hflat; by apply list.NoDup_app in Hnd as (? & _)].
    intros c L Hc HL. destruct (Hnum c Hc) as [v Hv]. by eapply numeric_column_run. }
  intros numbers. rewrite Hflat. apply runs_split. intros Hnumbers. eapply runs_andthen.
  { apply (each_succeeds bk s (fit_epsilon p) (fit_delta p) q _ (fun c => [grouped_query c; total_query c]) (categorical_made p rc) (categorical_cols p)); [|done].
    intros c L Hc HL. destruct (Hcat c Hc) as [v Hv]. by eapply categorical_column_run. }
  intros categories. apply runs_split. intros Hcategories x Hx. pose proof (rd_keys _ _ _ _ _ _ _ _ Hx) as Hkeys. rewrite <- app_assoc in Hkeys. change ([py "row_count"] ++ ?l) with (py "row_count" :: l) in Hkeys. rewrite <- query_names_plan in Hkeys.
  assert (Hcount : certificate_count x = query_count s) by (rewrite <- query_total, <- Hkeys; unfold certificate_count, od_keys, zlen; by rewrite length_fmap).
  assert (Hl : composed_loss x = Ok (get_epsilon_for_delta pl (fit_delta p), fit_delta p)).
  { apply (all_released bk s (fit_epsilon p) (fit_delta p) q x certs pl); [by apply Hx|by apply Hx|by rewrite Hkeys| |done|done|done|by apply finite_loss].
    rewrite query_names_plan. change (py "row_count" :: ?l) with ([py "row_count"] ++ l). by rewrite app_assoc. }
  unfold andthen, of_session. cbn [mbind interaction_bind ibind]. rewrite Hcount, Z.eqb_refl. cbn [negb raise_if ibind]. rewrite Hl. constructor. eexists. split; [done|].
  split; [|exists (get_epsilon_for_delta pl (fit_delta p)); split; [by eexists _, _|]; unfold composed_epsilon_or_none, _certify_schedule; rewrite Hcs; cbn [mbind result_bind]; by rewrite Hpl].
  exists rc, numbers, categories, (get_epsilon_for_delta pl (fit_delta p)). split; [done|]. split; [done|]. split; [done|]. split; [by apply finite_loss|]. split; [apply loss_nonneg|].
  apply not_above; [done|by apply finite_loss|done].
Qed.
End OfPlan.

Lemma plan_declared column_schema epsilon delta bins p : plan_fit column_schema epsilon delta bins = Ok p ->
  is_finite (fit_epsilon p) = true /\ for_each parse_column (fit_schema p) ([], []) = Ok (numeric_bounds p, categorical_carriers p) /\
  exists d, column_schema = VDict d /\ od_keys (fit_schema p) = od_keys d.
Proof.
  unfold plan_fit. intros E. apply bind_inv in E as ([[e d] n] & Hk & E). apply bind_inv in E as ([nb cc] & Hparse & E). apply bind_inv in E as ([] & _ & E). apply bind_inv in E as ([] & _ & E).
  apply bind_inv in E as (pr & _ & [= <-]).
  cbn [fit_epsilon fit_schema numeric_bounds categorical_carriers fst snd]. split; [|destruct column_schema as [| | | | | | |d'|]; try discriminate; split; [exact Hparse|exists d'; split; [done|]]].
  - unfold _validate_fit_params in Hk. apply bind_inv in Hk as (e' & _ & Hk). apply bind_inv in Hk as ([] & He & Hk). apply bind_inv in Hk as (d' & _ & Hk). apply bind_inv in Hk as ([] & _ & Hk).
    destruct bins; try discriminate. apply bind_inv in Hk as ([] & _ & [= <- <- <-]). destruct (is_positive e') eqn:Ep; [|discriminate]. by apply andb_true_iff in Ep as [? _].
  - unfold od_keys. cbn. rewrite <- list_fmap_compose. done.
Qed.

(** C13: A fit finishes. Once the plan is made, the session opened and the table sanitised,
    the fit ends with an artifact on every path of answers, as long as the measurements
    answer in their kinds: it asks for no query twice and for none that is not scheduled,
    every count is written down, there is a block for every declared column, and the loss
    that the artifact states is the one that the search found to keep to the request when
    the session was opened, at the loss per query it settled on. *)
Theorem fit_completes t column_schema epsilon delta bins cache cache' p x table :
  (forall d, column_schema = VDict d -> NoDup (od_keys d)) -> cache_sound bk opendp_version dp_accounting_version cache ->
  plan_fit column_schema epsilon delta bins = Ok p ->
  new_session bk opendp_version dp_accounting_version (plan_schedule p) (fit_epsilon p) (fit_delta p) cache = (cache', Ok x) ->
  sanitize_carrier_table t (fit_schema p) = Ok table -> plausible (sane_count table) -> LossLaws ->
  completes (fun r => exists a e, r = Ok a /\ finished p a /\ states_loss p a e /\
      composed_epsilon_or_none bk (plan_schedule p) (fit_delta p) (_eps_q x) = Ok (Some e) /\ flt_leb e (fit_epsilon p) = true)
    (fit_dp_snapshot bk t column_schema epsilon delta bins cache).2.
Proof.
  intros Hdict Hc Hp Hx Ht Hplaus Hloss. unfold fit_dp_snapshot. rewrite Hp, Hx, Ht. cbn [snd].
  destruct (plan_declared _ _ _ _ _ Hp) as (Hfin & Hparse & d & -> & Hkeys). specialize (Hdict d eq_refl). rewrite <- Hkeys in Hdict.
  destruct (session_opened bk _ _ (plan_schedule p) (fit_epsilon p) (fit_delta p) _ Hc) as (c & r & E & _ & Hopen). rewrite Hx in E. injection E as <- <-. destruct (Hopen x eq_refl) as (Hceil & Hfund & Ho & Hr & Hres).
  destruct (parse_keys _ _ _ Hparse) as [N1 N2]; [split; constructor|]. unfold sanitize_carrier_table in Ht. destruct (row_count t) as [| |rc| | | |]; try discriminate.
  apply bind_inv in Ht as ([] & _ & Ht). apply bind_inv in Ht as ([] & _ & Ht). apply bind_inv in Ht as (cols & Hcols & [= <-]).
  assert (Hget : forall c, od_get (released_values {| sane_count := rc; sane_columns := cols |}) c = released_column <$> od_get cols c).
  { intros c. unfold released_values. cbn [sane_columns]. clear. induction cols as [|[k s] cols IH]; [done|]. cbn. by destruct (bool_decide _). }
  eapply completes_bind.
  - apply (release_all_run p (_eps_q x)); [by destruct Hfund as (certs & ? & ? & _); exists certs|done|done|done|done|by apply names_nodup|done| | |].
    + intros c Hin. apply (elem_of_sorted c (od_keys (numeric_bounds p))) in Hin. destruct (parsed_declared _ _ _ c Hparse) as [Hd _]. destruct (Hd Hin) as [?%elem_of_nil|(spec & Hspec & Hcar)]; [done|].
      destruct (sanitized_present _ _ _ _ _ _ _ Hcols Hdict Hspec) as (spec' & s & [= <-] & Hs & Hnum). destruct (Hnum Hcar) as (l & w & ->). rewrite Hget, Hs. by eexists.
    + intros c Hin. apply (elem_of_sorted c (od_keys (categorical_carriers p))) in Hin. destruct (parsed_declared _ _ _ c Hparse) as [_ Hd]. destruct (Hd Hin) as [?%elem_of_nil|Hin']; [done|].
      apply list_elem_of_fmap in Hin' as ([k v] & -> & Hin'). destruct (sanitized_present _ _ _ _ _ _ _ Hcols Hdict Hin') as (spec & s & _ & Hs & _). rewrite Hget. cbn [fst]. rewrite Hs. by eexists.
    + constructor; [done|by rewrite Hr|done|]. intros k rl. by rewrite Hr.
  - intros [x' r] (a & -> & Ha & e & Hs & He). constructor. exists a, e. split_and!; try done.
    destruct Hfund as (certs & pl & Hcs & Hpl & Hle). unfold composed_epsilon_or_none, _certify_schedule in He. rewrite Hcs in He. cbn [mbind result_bind] in He. rewrite Hpl in He. injection He as <-.
    apply not_above; [done|by apply finite_loss|done].
Qed.
End Finishing.

(** ** The example *)

#[global] Instance exact_answers : Answers := {|
  answers m r := match m with
    | ExactCount _ => exists n, r = Count n /\ plausible n
    | ExactBins _ n => exists l, r = Counts l /\ Forall plausible l /\ length l = n
    | ExactGroups _ _ => exists l, r = Groups l /\ Forall (fun lc : label * Z => plausible lc.2 /\ exists s, lc.1 = LText s) l
    end
|}.

#[global] Instance exact_laws : AnswerLaws exact_backend.
Proof.
  assert (Hp : forall q d carrier p, _categorical_measurements exact_backend q d carrier = Ok p -> p = (ExactGroups cost d, ExactCount cost)).
  { intros q d carrier p. unfold _categorical_measurements. cbn [categorical_measurements categorical_measurements_flag exact_backend]. destruct (bool_decide _); [by intros [= <-]|]. by destruct (bool_decide _). }
  constructor.
  - intros q m r E. cbn in E. by injection E as <-.
  - intros q e m r E. cbn in E. by injection E as <-.
  - intros q d carrier p r ->%Hp (l & -> & Hl). exists l. split; [done|]. eapply list.Forall_impl; [exact Hl|]. intros [lab n] [? ?]. split; [done|by right].
  - by intros q d carrier p r ->%Hp.
Qed.

#[global] Instance additive_laws : LossLaws.
Proof. constructor. intros p delta. cbn [get_epsilon_for_delta additive_accounting]. destruct (flt_leb (FFin 0) p) eqn:E; [exact E|reflexivity]. Qed.

Lemma fit_completes_witness :
  exists q, completes (fun r => exists a e, r = Ok a /\ finished example_plan a /\ states_loss example_plan a e /\
      composed_epsilon_or_none exact_backend (plan_schedule example_plan) (fit_delta example_plan) q = Ok (Some e) /\ flt_leb e (fit_epsilon example_plan) = true)
    (fit_dp_snapshot exact_backend example_table example_schema example_epsilon example_delta (VInt 2) []).2.
Proof.
  destruct example_opens as [q Hq]. exists q.
  apply (fit_completes exact_backend example_table example_schema example_epsilon example_delta (VInt 2) []
    [(example_key (plan_schedule example_plan) (fit_epsilon example_plan) (fit_delta example_plan), q)] example_plan
    (session_at (plan_schedule example_plan) (fit_epsilon example_plan) (fit_delta example_plan) q) example_sanitized).
  - intros d [= <-]. apply (bool_decide_unpack _). vm_compute. exact I.
  - apply empty_cache_sound.
  - exact example_plans.
  - exact Hq.
  - exact example_sanitizes.
  - unfold plausible. cbn. lia.
  - exact additive_laws.
Defined.
