(* ===== verification/DpVerify.v ===== *)
(** * Verifying private snapshots at compile time (plan/_checks_dp.py, _checks_dp_carrier.py)

    A pipeline that declares a privacy budget may only generate from snapshots whose
    artifacts say, consistently and in the shape of a fit, what they release; what distinct
    releases cost is summed against the declared ceiling. Snapshots are read once,
    elsewhere, and come here with the digest of their bytes. *)

From S2P Require Import Prelude PyText PyData Floats DpCarriers DpSession DpProvenance DpFit.

Definition CompileError (code : string) : exn := Exn "PlanCompileError" code.

(** ** Python on JSON values *)

(** [d.get(k)] *)
Definition aget (d : list (pystr * art)) (k : string) : art := default ANone (od_get d (py k)).
Definition is_token (v : art) (s : string) : bool := match v with AStr t => bool_decide (t = py s) | _ => false end.

Definition art_number (v : art) : option f64 :=
  match v with
  | ABool b => Some (Num (int_units (if b then 1 else 0)))
  | AInt n => Some (Num (int_units n))
  | AFloat x => Some x
  | _ => None
  end.

(** [a == b] *)
Fixpoint art_eqb (a b : art) {struct a} : bool :=
  match a, b with
  | ANone, ANone => true
  | AStr s, AStr t => bool_decide (s = t)
  | AList l, AList k =>
      (fix go l k := match l, k with [], [] => true | x :: l, y :: k => art_eqb x y && go l k | _, _ => false end) l k
  | ADict d, ADict e =>
      bool_decide (length d = length e) &&
      (fix go d := match d with [] => true | (k, v) :: d => match od_get e k with Some w => art_eqb v w | None => false end && go d end) d
  | _, _ => match art_number a, art_number b with Some x, Some y => f64_eqb x y | _, _ => false end
  end.

(** [bool(v)] *)
Definition art_truthy (v : art) : bool :=
  match v with
  | ANone => false
  | ABool b => b
  | AInt n => negb (n =? 0)
  | AFloat x => negb (f64_eqb x (Num (FFin 0)))
  | AStr s => negb (bool_decide (s = []))
  | AList l => negb (bool_decide (length l = O))
  | ADict d => negb (bool_decide (length d = O))
  end.

(** [list(v)] *)
Definition art_items (v : art) : result (list art) :=
  match v with
  | AList l => Ok l
  | AStr s => Ok ((fun c => AStr [c]) <$> s)
  | ADict d => Ok (AStr <$> od_keys d)
  | _ => Err TypeErr
  end.

Definition hashable (v : art) : bool := match v with AList _ | ADict _ => false | _ => true end.

(** [str(v)]; of floats and containers it is a parameter. *)
Class Reprs := { art_repr : art -> pystr }.
Definition art_str `{Reprs} (v : art) : pystr :=
  match v with
  | AStr s => s
  | AInt n => str_int n
  | ABool b => if b then py "True" else py "False"
  | ANone => py "None"
  | _ => art_repr v
  end.

(** [isinstance(v, (int, float)) and not isinstance(v, bool) and math.isfinite(v)]: an int
    beyond the floats makes [isfinite] raise. *)
Definition _is_finite_real (v : art) : result bool :=
  match v with AInt n => f ← py_float_of_int n; Ok true | AFloat x => Ok (is_finite (magnitude x)) | _ => Ok false end.
(** [float(v)] of a real *)
Definition art_float (v : art) : result f64 := match v with AInt n => py_float_of_int n | AFloat x => Ok x | _ => Err TypeErr end.
(** [... and v > 0], [... and v >= 0], [... and v < 1]: a real compared exactly *)
Definition above_zero (v : art) : bool := match art_number v with Some x => f64_lt (Num (FFin 0)) x | None => false end.
Definition at_least_zero (v : art) : bool := match art_number v with Some x => flt_leb (FFin 0) (magnitude x) | None => false end.
Definition below_one (v : art) : bool := match art_number v with Some x => f64_lt x (Num (int_units 1)) | None => false end.

(** ** The declaration *)

Definition pipeline_config := list (pystr * art).

Definition dp_declared (c : pipeline_config) : option art :=
  match aget c "global_settings" with ADict g => od_get g (py "dp") | _ => None end.
Definition _dp_declared (c : pipeline_config) : bool := bool_decide (is_Some (dp_declared c)).

Definition malformed_declaration : exn := CompileError "dp_budget_declaration_malformed".
Definition default_delta : art := AFloat (Num (literal_float 1 (10 ^ 6))).

Definition parse_dp_ceiling (c : pipeline_config) : result (option (f64 * f64)) :=
  match dp_declared c with
  | None => Ok None
  | Some (ADict d) =>
      _ ← raise_if (bool_decide (d = [])) malformed_declaration;
      let epsilon := aget d "epsilon" in
      let delta := default default_delta (od_get d (py "delta")) in
      e ← _is_finite_real epsilon;
      let eps_ok := (e : bool) && above_zero epsilon in
      f ← _is_finite_real delta;
      let delta_ok := (f : bool) && at_least_zero delta && below_one delta in
      _ ← raise_if (negb (eps_ok && delta_ok)) malformed_declaration;
      e ← art_float epsilon;
      d ← art_float delta;
      Ok (Some (e, d))
  | Some _ => Err malformed_declaration
  end.

(** ** Loops over the generated columns *)

Definition config_tables (c : pipeline_config) : list art := match aget c "tables" with AList l => l | _ => [] end.
(** [col_entry.get("type") != "statistical"] *)
Definition statistical_entry (col : art) : option (list (pystr * art)) :=
  match col with ADict d => if is_token (aget d "type") "statistical" then Some d else None | _ => None end.
(** [table_entry.get("generate_columns", []) or []], iterated *)
Definition generated_columns (table : list (pystr * art)) : result (list art) :=
  let v := aget table "generate_columns" in if art_truthy v then art_items v else Ok [].
Definition entry_name (d : list (pystr * art)) : art := default (AStr (py "?")) (od_get d (py "name")).

Definition over_statistical {S} (f : S -> art -> list (pystr * art) -> result S) (c : pipeline_config) (s : S) : result S :=
  for_each (fun s table =>
    match table with
    | ADict t =>
        cols ← generated_columns t;
        for_each (fun s col => match statistical_entry col with Some d => f s (entry_name t) d | None => Ok s end) cols s
    | _ => Ok s
    end) (config_tables c) s.

(** Knobs that would void the guarantee. *)
Definition check_anti_dp (col : list (pystr * art)) : result unit :=
  _ ← raise_if (match aget col "condition_on" with ANone => false | _ => true end) (CompileError "dp_joint_unsupported");
  _ ← raise_if (match aget col "high_cardinality" with ABool true => true | _ => false end) (CompileError "dp_generate_high_cardinality_unsupported");
  raise_if (match aget col "allow_real_categories" with ABool true => true | _ => false end) (CompileError "dp_generate_allow_real_categories_unsupported").
Definition check_dp_generate_contract (c : pipeline_config) : result unit :=
  if _dp_declared c then over_statistical (fun _ _ col => check_anti_dp col) c tt else Ok tt.

(** ** The shape of a release *)

Definition carrier_weight (spec : art) : option Z :=
  match spec with
  | ADict d =>
      if is_token (aget d "carrier") "number" then Some 1
      else if is_token (aget d "carrier") "text" || is_token (aget d "carrier") "flag" then Some 2
      else None
  | _ => None
  end.
Definition carrier_aware_query_count (dp_block : list (pystr * art)) : option Z :=
  match aget dp_block "column_schema" with
  | ADict schema => ws ← mapM (fun kv : pystr * art => carrier_weight kv.2) schema; Some (1 + foldr Z.add 0 ws)
  | _ => None
  end.

(** [name in categorical_cols] *)
Definition listed (cats : list art) (name : pystr) : bool := existsb (art_eqb (AStr name)) cats.

Definition entry_matches (cats : list art) (domains : list (pystr * art)) (entry : pystr * art) : result bool :=
  let '(name, spec) := entry in
  match spec with
  | ADict d =>
      if is_token (aget d "carrier") "number" then
        if negb (od_has domains name) || listed cats name || negb (is_token (aget d "kind") "numeric") then Ok false else
        match aget d "bounds" with
        | AList bounds => domain ← art_items (default ANone (od_get domains name)); Ok (art_eqb (AList bounds) (AList domain))
        | _ => Ok false
        end
      else if is_token (aget d "carrier") "text" || is_token (aget d "carrier") "flag" then
        Ok (listed cats name && negb (od_has domains name) && is_token (aget d "kind") "categorical")
      else Ok false
  | _ => Ok false
  end.
Fixpoint entries_match (cats : list art) (domains : list (pystr * art)) (schema : list (pystr * art)) : result bool :=
  match schema with
  | [] => Ok true
  | e :: schema => b ← entry_matches cats domains e; if (b : bool) then entries_match cats domains schema else Ok false
  end.
Definition schema_matches_legacy (schema : list (pystr * art)) (cats : list art) (domains : list (pystr * art)) : result bool :=
  _ ← raise_if (negb (forallb hashable cats)) TypeErr;
  if forallb (fun k => listed cats k || od_has domains k) (od_keys schema) &&
     forallb (fun c => match c with AStr s => od_has schema s | _ => false end) cats && forallb (od_has schema) (od_keys domains)
  then entries_match cats domains schema else Ok false.

(** The message of a mismatch sorts the declared names: names of several kinds do not
    compare. *)
Definition sorts (cats : list art) (domains : list (pystr * art)) : bool :=
  let texts := existsb (fun c => match c with AStr _ => true | _ => false end) cats || negb (bool_decide (domains = [])) in
  let numbers := existsb (fun c => bool_decide (is_Some (art_number c))) cats in
  let nones := existsb (fun c => match c with ANone => true | _ => false end) cats in
  negb ((texts && numbers) || (texts && nones) || (numbers && nones)).

Definition column_block_matches_schema (col_snap column_schema : list (pystr * art)) (source_column : pystr) : bool :=
  match od_get column_schema source_column with
  | Some (ADict spec) => art_eqb (aget col_snap "carrier") (aget spec "carrier") && art_eqb (aget col_snap "kind") (aget spec "kind")
  | _ => false
  end.

Definition _flag_tokens_are_canonical (col_snap : list (pystr * art)) : bool :=
  match aget col_snap "stats" with
  | ADict stats =>
      match aget stats "top_values" with
      | AList l => forallb (fun e => match e with ADict d => is_token (aget d "value") "true" || is_token (aget d "value") "false" | _ => false end) l
      | _ => false
      end
  | _ => false
  end.
Definition check_flag_tokens_canonical (col_snap : list (pystr * art)) (kind carrier : art) : result unit :=
  raise_if (is_token kind "categorical" && is_token carrier "flag" && negb (_flag_tokens_are_canonical col_snap)) (CompileError "dp_flag_token_invalid").

Definition numeric_shape_matches_a_dp_release (col_snap : list (pystr * art)) (lower upper : f64) (numeric_bins : Z) : bool :=
  match aget col_snap "stats" with
  | ADict stats =>
      art_eqb (aget stats "min") (AFloat lower) && art_eqb (aget stats "max") (AFloat upper) &&
      art_eqb (aget stats "mean") ANone && art_eqb (aget stats "std") ANone && art_eqb (aget stats "quantiles") (ADict []) &&
      match aget stats "bin_counts" with AList l => zlen l =? numeric_bins | _ => false end
  | _ => false
  end.

Definition _canonical_bin_edges (lower upper : f64) (numeric_bins : Z) : list f64 :=
  lower :: ((fun i => Num (fadd (magnitude lower) (fdiv (fmul (fsub (magnitude upper) (magnitude lower)) (to_float i)) (to_float numeric_bins))))
    <$> irange 1 (Z.to_nat (numeric_bins - 1))) ++ [upper].

(** [all(f(e) for e in l)] *)
Fixpoint all_res {A} (f : A -> result bool) (l : list A) : result bool :=
  match l with [] => Ok true | a :: l => b ← f a; if (b : bool) then all_res f l else Ok false end.

Definition edges_match (edges : art) (canonical : list f64) : result bool :=
  match edges with
  | AList l =>
      if negb (bool_decide (length l = length canonical)) then Ok false else
      finite ← all_res _is_finite_real l;
      if (finite : bool) then (fs ← map_res art_float l; Ok (forallb (fun p : f64 * f64 => f64_eqb p.1 p.2) (zip fs canonical))) else Ok false
  | _ => Ok false
  end.

Definition shape_mismatch : exn := CompileError "dp_snapshot_numeric_shape_mismatch".
Definition check_numeric_release_shape (col_snap dp_block : list (pystr * art)) (source_column : pystr) (domains : list (pystr * art)) : result unit :=
  match od_get domains source_column with
  | Some (AList [lo; hi]) =>
      a ← _is_finite_real lo;
      b ← (if (a : bool) then _is_finite_real hi else Ok false);
      match (b : bool), aget dp_block "numeric_bins" with
      | true, AInt numeric_bins =>
          _ ← raise_if (numeric_bins <? 1) shape_mismatch;
          lower ← art_float lo;
          upper ← art_float hi;
          _ ← raise_if (negb (f64_lt lower upper && numeric_shape_matches_a_dp_release col_snap lower upper numeric_bins)) shape_mismatch;
          ok ← edges_match (match aget col_snap "stats" with ADict stats => aget stats "bin_edges" | _ => ANone end) (_canonical_bin_edges lower upper numeric_bins);
          raise_if (negb ok) (CompileError "dp_snapshot_numeric_edges_mismatch")
      | _, _ => Err shape_mismatch
      end
  | _ => Err shape_mismatch
  end.

Definition check_release_compatibility (dp_block : list (pystr * art)) : result unit :=
  _ ← raise_if (negb match aget dp_block "codec" with
                     | ADict codec => is_token (aget codec "id") DP_CODEC_ID && is_token (aget codec "version") DP_CODEC_VERSION
                     | _ => false
                     end) (CompileError "dp_snapshot_codec_unsupported");
  raise_if (negb (is_token (aget dp_block "scope") DP_RELEASE_SCOPE && is_token (aget dp_block "adjacency") DP_ADJACENCY &&
                  existsb (is_token (aget dp_block "boundary")) DP_BOUNDARY_VALUES)) (CompileError "dp_snapshot_release_shape_unsupported").

(** ** Verification *)

(** A pinned snapshot: the digest of its bytes, and what they parse to. *)
Record ReadSnapshot := { sha256 : pystr; parsed : list (pystr * art) }.

Record DpVerification := { scope : string; release_ids : list pystr; epsilon_total : flt; delta_total : flt }.

(** What is seen so far: verified columns, each release's digest, what was charged. *)
Record vstate := { verified : list (art * art); release_id_to_digest : odict pystr pystr; ledger : ReleaseLedger }.

Section Verify.
Context `{Reprs}.

(** The snapshot that a column generates from, with the column of it; without one the
    verdict is another check's. *)
Definition column_snapshot (pinned : odict pystr ReadSnapshot) (col : list (pystr * art)) : result (option (ReadSnapshot * pystr * list (pystr * art))) :=
  let col_name := entry_name col in
  if negb (art_truthy (aget col "snapshot_file")) then Ok None else
  match od_get pinned (art_str (aget col "snapshot_file")) with
  | None => Ok None
  | Some read =>
      let source_column := art_str (if art_truthy (aget col "source_column") then aget col "source_column" else col_name) in
      let columns := aget (parsed read) "columns" in
      columns ← (if art_truthy columns then match columns with ADict d => Ok d | _ => Err (exc "AttributeError") end else Ok []);
      match od_get columns source_column with
      | Some (ADict col_snap) => Ok (Some (read, source_column, col_snap))
      | _ => Ok None
      end
  end.

(** The block of a private fit. *)
Definition dp_block_of (snap : list (pystr * art)) : result (list (pystr * art)) :=
  match aget snap "dp" with
  | ADict d => _ ← raise_if (negb (is_token (aget d "schema") DP_SNAPSHOT_SCHEMA_VERSION)) (CompileError "dp_snapshot_not_dp_fit"); Ok d
  | _ => Err (CompileError "dp_snapshot_not_dp_fit")
  end.

(** [try: ... except ProvenanceError] *)
Definition certified_provenance (dp_block : list (pystr * art)) : result unit :=
  match validate_recorded_provenance (aget dp_block "provenance") with
  | Err e => if bool_decide (exc_class e = "ProvenanceError"%string) then Err (CompileError "dp_snapshot_provenance_uncertified") else Err e
  | ok => ok
  end.

(** The columns that the block declares, which must agree with its own schema. *)
Definition declared_columns (dp_block : list (pystr * art)) : result (list (pystr * art) * list art * list (pystr * art)) :=
  match aget dp_block "categorical_columns", aget dp_block "numeric_domains" with
  | AList cats, ADict domains =>
      let expected := 1 + zlen domains + 2 * zlen cats in
      _ ← raise_if (negb (bool_decide (carrier_aware_query_count dp_block = Some expected))) (CompileError "dp_snapshot_query_count_mismatch");
      _ ← raise_if (negb (art_eqb (aget dp_block "query_count") (AInt expected))) (CompileError "dp_snapshot_query_count_mismatch");
      match aget dp_block "column_schema" with
      | ADict schema =>
          consistent ← schema_matches_legacy schema cats domains;
          _ ← raise_if (negb consistent) (if sorts cats domains then CompileError "dp_snapshot_column_schema_mismatch" else TypeErr);
          Ok (schema, cats, domains)
      | _ => Err (exc "KeyError")
      end
  | _, _ => Err (CompileError "dp_snapshot_not_dp_fit")
  end.

Definition carrier_pair (kind carrier : art) : bool :=
  (is_token kind "numeric" && is_token carrier "number") || (is_token kind "categorical" && (is_token carrier "text" || is_token carrier "flag")).

(** The column's own block, against the declarations. *)
Definition check_column_block (dp_block col_snap : list (pystr * art)) (source_column : pystr)
    (schema : list (pystr * art)) (cats : list art) (domains : list (pystr * art)) : result unit :=
  let kind := aget col_snap "kind" in
  let carrier := aget col_snap "carrier" in
  _ ← raise_if (negb (carrier_pair kind carrier)) (CompileError "dp_snapshot_carrier_invalid");
  _ ← raise_if (negb (column_block_matches_schema col_snap schema source_column)) (CompileError "dp_snapshot_column_block_schema_mismatch");
  _ ← raise_if (negb ((is_token kind "numeric" && od_has domains source_column) || (is_token kind "categorical" && listed cats source_column)))
        (CompileError "dp_snapshot_kind_not_dp_eligible");
  _ ← (if is_token kind "numeric" then check_numeric_release_shape col_snap dp_block source_column domains else Ok tt);
  check_flag_tokens_canonical col_snap kind carrier.

(** What the release says it cost. *)
Definition release_charge (dp_block : list (pystr * art)) : result (pystr * f64 * f64) :=
  match aget dp_block "release_id" with
  | AStr release_id =>
      _ ← raise_if (bool_decide (release_id = [])) (CompileError "dp_snapshot_missing_release_id");
      let epsilon := aget dp_block "epsilon_total" in
      let delta := aget dp_block "delta_total" in
      e ← _is_finite_real epsilon;
      let eps_ok := (e : bool) && at_least_zero epsilon in
      d ← _is_finite_real delta;
      let delta_ok := (d : bool) && at_least_zero delta in
      _ ← raise_if (negb (eps_ok && delta_ok)) (CompileError "dp_snapshot_budget_malformed");
      epsilon ← art_float epsilon;
      delta ← art_float delta;
      Ok (release_id, epsilon, delta)
  | _ => Err (CompileError "dp_snapshot_missing_release_id")
  end.

(** Every check of one column's snapshot, in the order of the code. *)
Definition check_release (snap : list (pystr * art)) (source_column : pystr) (col_snap : list (pystr * art)) : result (pystr * f64 * f64) :=
  dp_block ← dp_block_of snap;
  _ ← certified_provenance dp_block;
  _ ← check_release_compatibility dp_block;
  declared ← declared_columns dp_block;
  let '(schema, cats, domains) := declared in
  _ ← check_column_block dp_block col_snap source_column schema cats domains;
  release_charge dp_block.

(** A release is charged when it is first seen; its identifier stays with its bytes. *)
Definition charge_release (st : vstate) (digest : pystr) (c : pystr * f64 * f64) : result vstate :=
  let '(release_id, epsilon, delta) := c in
  match od_get (release_id_to_digest st) release_id with
  | Some d => _ ← raise_if (negb (bool_decide (d = digest))) (CompileError "dp_release_id_conflict"); Ok st
  | None =>
      l ← charge (ledger st) (py "release:" ++ take 12 release_id) (magnitude epsilon) (magnitude delta);
      Ok {| verified := verified st; release_id_to_digest := od_set (release_id_to_digest st) release_id digest; ledger := l |}
  end.

(** [verified.add((table_name, col_name))] *)
Definition add_verified (st : vstate) (table_name col_name : art) : result vstate :=
  _ ← raise_if (negb (hashable table_name && hashable col_name)) TypeErr;
  Ok {| verified := verified st ++ [(table_name, col_name)]; release_id_to_digest := release_id_to_digest st; ledger := ledger st |}.

Definition verify_column (pinned : odict pystr ReadSnapshot) (st : vstate) (table_name : art) (col : list (pystr * art)) : result vstate :=
  s ← column_snapshot pinned col;
  match s with
  | None => Ok st
  | Some (read, source_column, col_snap) =>
      c ← check_release (parsed read) source_column col_snap;
      st ← charge_release st (sha256 read) c;
      add_verified st table_name (entry_name col)
  end.

Definition no_releases : vstate := {| verified := []; release_id_to_digest := []; ledger := [] |}.

(** [verify_dp_snapshots(config, pinned)]: the verified columns, as they were added, and the
    receipt. *)
Definition verify_dp_snapshots (c : pipeline_config) (pinned : odict pystr ReadSnapshot) : result (list (art * art) * option DpVerification) :=
  ceiling ← parse_dp_ceiling c;
  match ceiling with
  | None => Ok ([], None)
  | Some (declared_epsilon, declared_delta) =>
      st ← over_statistical (verify_column pinned) c no_releases;
      match release_id_to_digest st with
      | [] => Ok (verified st, None)
      | _ =>
          eps_used ← total_epsilon (ledger st);
          delta_used ← total_delta (ledger st);
          _ ← raise_if (flt_ltb (magnitude declared_epsilon) eps_used || flt_ltb (magnitude declared_delta) delta_used) (CompileError "dp_budget_exceeded");
          Ok (verified st, Some {| scope := DP_RELEASE_SCOPE; release_ids := sorted (od_keys (release_id_to_digest st)); epsilon_total := eps_used; delta_total := delta_used |})
      end
  end.
End Verify.
