(* ===== verification/DpVerifyTheory.v ===== *)
(** * What verification vouches for

    The artifact of a finished fit verifies for every column it declares. A verified
    pipeline generates only from snapshots that passed every check, each release is charged
    once however many columns use it, and what is charged keeps to the declared ceiling. *)

From S2P Require Import Prelude PyText PyData Floats DpCarriers DpSession DpProvenance DpFit DpCarriersTheory DpSessionTheory DpFitTheory DpVerify.

(** ** Values and dictionaries *)

Lemma od_get_mapped {V} (f : pystr -> V) (l : list pystr) c : od_get ((fun c => (c, f c)) <$> l) c = if bool_decide (c ∈ l) then Some (f c) else None.
Proof.
  induction l as [|d l IH]; [done|]. cbn [fmap list_fmap od_get]. destruct (decide (d = c)) as [->|Hne].
  - rewrite bool_decide_eq_true_2 by done. by rewrite bool_decide_eq_true_2 by left.
  - rewrite bool_decide_eq_false_2 by done. rewrite IH. by rewrite (bool_decide_ext (c ∈ d :: l) (c ∈ l)) by (rewrite elem_of_cons; naive_solver).
Qed.

Lemma od_get_app {V} (d e : odict pystr V) c : od_get (d ++ e) c = match od_get d c with Some v => Some v | None => od_get e c end.
Proof. induction d as [|[k v] d IH]; [done|]. cbn. by destruct (bool_decide _). Qed.

Lemma od_has_map {V} (f : pystr -> V) (l : list pystr) c : od_has ((fun c => (c, f c)) <$> l) c = bool_decide (c ∈ l).
Proof. unfold od_has. rewrite od_get_mapped. destruct (bool_decide (c ∈ l)); [apply bool_decide_eq_true_2; by eexists|]. apply bool_decide_eq_false_2. by intros [? ?]. Qed.

Lemma flt_leb_refl x : is_finite x = true -> flt_leb x x = true.
Proof. destruct x; [|done..]. intros _. apply Z.leb_refl. Qed.
Lemma f64_eqb_refl x : is_finite (magnitude x) = true -> f64_eqb x x = true.
Proof. intros Hx. unfold f64_eqb. by rewrite flt_leb_refl. Qed.
Lemma art_eqb_float x : is_finite (magnitude x) = true -> art_eqb (AFloat x) (AFloat x) = true.
Proof. apply f64_eqb_refl. Qed.
Lemma art_eqb_int n : art_eqb (AInt n) (AInt n) = true.
Proof. by apply f64_eqb_refl. Qed.
Lemma art_eqb_str s : art_eqb (AStr s) (AStr s) = true.
Proof. by apply bool_decide_eq_true. Qed.

Lemma listed_strs l c : listed (AStr <$> l) c = bool_decide (c ∈ l).
Proof.
  unfold listed. induction l as [|d l IH]; [done|]. change (existsb (art_eqb (AStr c)) (AStr <$> d :: l)) with (bool_decide (c = d) || existsb (art_eqb (AStr c)) (AStr <$> l)). rewrite IH. destruct (decide (c = d)) as [->|Hne].
  - rewrite bool_decide_eq_true_2 by done. cbn. symmetry. apply bool_decide_eq_true_2. by left.
  - rewrite bool_decide_eq_false_2 by done. cbn. apply bool_decide_ext. rewrite elem_of_cons. naive_solver.
Qed.

Lemma all_res_true {A} (f : A -> result bool) l : (forall a, a ∈ l -> f a = Ok true) -> all_res f l = Ok true.
Proof. induction l as [|a l IH]; intros Hf; [done|]. cbn. rewrite Hf by left. cbn. apply IH. intros; apply Hf; by right. Qed.

Lemma map_res_ok {A B} (f : A -> result B) (g : A -> B) l : (forall a, a ∈ l -> f a = Ok (g a)) -> map_res f l = Ok (g <$> l).
Proof. induction l as [|a l IH]; intros Hf; [done|]. cbn. rewrite Hf by left. cbn. rewrite IH; [done|]. intros; apply Hf; by right. Qed.

(** ** What a plan fixes *)

Section Plan.
Context `{FitEnv}.

Definition good_bounds (b : f64 * f64) : Prop := is_finite (magnitude b.1) = true /\ is_finite (magnitude b.2) = true /\ f64_lt b.1 b.2 = true.

Lemma checked_bounds_good lo hi b : checked_bounds lo hi = Ok b -> good_bounds b.
Proof.
  assert (Hv : forall v x, _validate_bound v = Ok x -> is_finite (magnitude x) = true).
  { intros v x E. apply bind_inv in E as (y & _ & E). destruct (is_finite (magnitude y)) eqn:Ef; [|done]. by injection E as <-. }
  intros E. apply bind_inv in E as (x & Ex & E). apply bind_inv in E as (y & Ey & E). destruct (f64_lt x y) eqn:El; [|done]. injection E as <-.
  split; [by eapply Hv|]. split; [by eapply Hv|done].
Qed.

Definition label_carrier (k : pystr) : Prop := k = py "text" \/ k = py "flag".

(** An invariant of the parsed declarations. *)
Lemma parse_steps (I : parsed_schema -> Prop) d acc out : for_each parse_column d acc = Ok out -> NoDup (od_keys d) ->
  (forall k, k ∈ od_keys d -> (k ∉ od_keys acc.1) /\ (k ∉ od_keys acc.2)) -> I acc ->
  (forall nb cc k b, good_bounds b -> (k ∉ od_keys nb) -> (k ∉ od_keys cc) -> I (nb, cc) -> I (od_set nb k b, cc)) ->
  (forall nb cc k c, label_carrier c -> (k ∉ od_keys nb) -> (k ∉ od_keys cc) -> I (nb, cc) -> I (nb, od_set cc k c)) -> I out.
Proof.
  intros E Hnd Hfresh Hacc Hnum Hcat. revert acc E Hfresh Hacc. induction d as [|[k v] d IH]; intros acc E Hfresh Hacc; cbn [for_each] in E; [by injection E as <-|].
  change (od_keys ((k, v) :: d)) with (k :: od_keys d) in Hnd, Hfresh. apply list.NoDup_cons in Hnd as [Hk Hnd].
  apply bind_inv in E as (acc' & Ec & E). destruct acc as [nb cc]. destruct (Hfresh k) as [F1 F2]; [by left|]. cbn [fst snd] in *.
  assert (Hrest : forall j, j ∈ od_keys d -> j <> k) by (intros j Hj ->; done).
  unfold parse_column in Ec. destruct v as [| | | | | | |spec|]; cbn [fst snd] in Ec; try discriminate. apply bind_inv in Ec as (carrier & Hcar & Ec).
  destruct (bool_decide (carrier = py "number")) eqn:En.
  - destruct (vget spec "bounds") as [| | | | | |tu [|lo [|hi [|]]]| |]; try discriminate. apply bind_inv in Ec as (b & Hb%checked_bounds_good & [= <-]).
    apply (IH Hnd _ E); [|by apply Hnum]. cbn [fst snd]. intros j Hj. rewrite set_keys. destruct (Hfresh j) as [? ?]; [by right|]. specialize (Hrest j Hj). tauto.
  - injection Ec as <-. apply (IH Hnd _ E); [cbn [fst snd]; intros j Hj; rewrite set_keys; destruct (Hfresh j) as [? ?]; [by right|]; specialize (Hrest j Hj); tauto|].
    apply Hcat; [|done..]. bool_prop. unfold parse_carrier in Hcar. apply bind_inv in Hcar as (c0 & Hc0 & Hcar).
    assert (c0 = carrier) as -> by (destruct (vget spec "kind") as [| | | | |kk| | |]; try discriminate; [by injection Hcar|]; destruct (od_get _ kk); [|discriminate]; by destruct (bool_decide _); [injection Hcar|]).
    destruct (vget spec "carrier") as [| | | | |kk| | |]; try discriminate. destruct (bool_decide (kk ∈ _VALID_CARRIERS)) eqn:Ev; [|discriminate]. injection Hc0 as ->. bool_prop.
    apply list_elem_of_fmap in Ev as (nm & -> & Hin). repeat (apply elem_of_cons in Hin as [->|Hin]; [try done; try (by left); try (by right)|]). by apply elem_of_nil in Hin.
Qed.

Record planned (p : fit_plan) : Prop := {
  pl_bins : 2 <= fit_bins p;
  pl_numeric : forall c, c ∈ numeric_cols p -> good_bounds (bounds_of p c);
  pl_edges : forall c e, c ∈ numeric_cols p -> e ∈ _interior_edges (bounds_of p c).1 (bounds_of p c).2 (fit_bins p) -> is_finite e = true;
  pl_categorical : forall c, c ∈ categorical_cols p -> label_carrier (carrier_of p c);
  pl_apart : forall c, c ∈ numeric_cols p -> c ∈ categorical_cols p -> False;
  pl_provenance : validate_recorded_provenance (provenance_record (fit_provenance p)) = Ok tt;
  pl_delta : is_finite (fit_delta p) = true /\ flt_leb (FFin 0) (fit_delta p) = true;
}.

Lemma for_each_tt {A} (f : A -> result unit) l : for_each (fun _ a => f a) l tt = Ok tt -> forall a, a ∈ l -> f a = Ok tt.
Proof.
  induction l as [|b l IH]; intros E a Ha; [by apply elem_of_nil in Ha|]. cbn in E. apply bind_inv in E as ([] & Eb & E).
  apply elem_of_cons in Ha as [->|Ha]; [done|by apply IH].
Qed.

Lemma positive_nonneg x : is_positive x = true -> is_finite x = true /\ flt_leb (FFin 0) x = true.
Proof. destruct x; try done. unfold is_positive. cbn. lia. Qed.

Lemma plan_facts column_schema epsilon delta bins p : (forall d, column_schema = VDict d -> NoDup (od_keys d)) ->
  plan_fit column_schema epsilon delta bins = Ok p -> planned p.
Proof.
  intros Hdict E. destruct (plan_declared _ _ _ _ _ E) as (_ & Hparse & d & -> & Hkeys). specialize (Hdict d eq_refl). rewrite <- Hkeys in Hdict.
  unfold plan_fit in E. apply bind_inv in E as ([[e dl] n] & Hk & E). apply bind_inv in E as ([nb cc] & _ & E). apply bind_inv in E as ([] & Hedges & E).
  apply bind_inv in E as ([] & Henv & E). apply bind_inv in E as (pr & Hpr & E). injection E as <-. cbn [fit_bins numeric_bounds categorical_carriers fit_schema fit_delta fit_provenance] in *.
  unfold _validate_fit_params in Hk. apply bind_inv in Hk as (e' & _ & Hk). apply bind_inv in Hk as ([] & He & Hk). apply bind_inv in Hk as (dl' & _ & Hk).
  apply bind_inv in Hk as ([] & Hdl & Hk). destruct bins; try discriminate. apply bind_inv in Hk as ([] & Hn & Hk). injection Hk as <- <- <-.
  assert (HI : (forall c b, od_get nb c = Some b -> good_bounds b) /\ (forall c k, od_get cc c = Some k -> label_carrier k) /\ (forall c, c ∈ od_keys nb -> c ∈ od_keys cc -> False)).
  { apply (parse_steps (fun acc => (forall c b, od_get acc.1 c = Some b -> good_bounds b) /\ (forall c k, od_get acc.2 c = Some k -> label_carrier k) /\ (forall c, c ∈ od_keys acc.1 -> c ∈ od_keys acc.2 -> False)) _ _ _ Hparse Hdict).
    - intros k _. split; by intros ?%elem_of_nil.
    - split; [done|]. split; [done|]. by intros c ?%elem_of_nil.
    - intros nb' cc' k b Hb K1 K2 (I1 & I2 & I3). cbn [fst snd] in *. split; [|split; [done|]].
      + intros c b'. rewrite od_get_set. case_bool_decide; [by intros [= <-]|apply I1].
      + intros c. rewrite set_keys. intros [->|Hc] Hc'; [done|by eapply I3].
    - intros nb' cc' k b Hb K1 K2 (I1 & I2 & I3). cbn [fst snd] in *. split; [done|]. split.
      + intros c b'. rewrite od_get_set. case_bool_decide; [by intros [= <-]|apply I2].
      + intros c Hc. rewrite set_keys. intros [->|Hc']; [done|by eapply I3]. }
  destruct HI as (HI1 & HI2 & HI3).
  assert (Hsome : forall V (m : odict pystr V) c, c ∈ od_keys m -> exists v, od_get m c = Some v) by (intros V m c Hc; destruct (od_get m c) eqn:Em; [by eexists|by apply od_get_none in Em]).
  assert (Hnum : forall c, c ∈ sorted (od_keys nb) -> exists b, od_get nb c = Some b /\ good_bounds b).
  { intros c Hc. apply (elem_of_sorted c (od_keys nb)) in Hc. destruct (Hsome _ nb c Hc) as [b Hb]. exists b. split; [done|by eapply HI1]. }
  constructor; cbn [fit_bins fit_provenance fit_delta].
  - destruct (Z.ltb_spec n0 2); [done|lia].
  - intros c Hc. destruct (Hnum c Hc) as (b & Hb & Hg). unfold bounds_of, bounds_in. cbn [numeric_bounds]. by rewrite Hb.
  - intros c x Hc Hx. unfold bounds_of in Hx. cbn [numeric_bounds] in Hx. pose proof (for_each_tt _ _ Hedges c Hc) as Hd. unfold _check_derived_edges in Hd.
    destruct (forallb is_finite _) eqn:Hall; [|done]. rewrite forallb_forall in Hall. apply Hall. right. apply in_app_iff. left. by apply list_elem_of_In.
  - intros c Hc. apply (elem_of_sorted c (od_keys cc)) in Hc. destruct (Hsome _ cc c Hc) as [k Hk]. unfold carrier_of. cbn [categorical_carriers]. rewrite Hk. by eapply HI2.
  - intros c Hc Hc'. apply (elem_of_sorted c (od_keys nb)) in Hc. apply (elem_of_sorted c (od_keys cc)) in Hc'. by eapply HI3.
  - exact (recorded_stack_accepted pr Henv Hpr).
  - apply positive_nonneg. destruct (is_positive dl'); [done|by cbn in Hdl].
Qed.
End Plan.

(** ** The artifact of a fit verifies *)

Section Accepted.
Context `{FitEnv} (p : fit_plan) (Hp : planned p).

Definition fields_of (a : art) : list (pystr * art) := match a with ADict d => d | _ => [] end.
Definition plan_cats : list art := AStr <$> categorical_cols p.
Definition plan_domains : list (pystr * art) := (fun c => (c, AList [AFloat (bounds_of p c).1; AFloat (bounds_of p c).2])) <$> numeric_cols p.
Definition numeric_entry (c : pystr) : art := obj [("kind", text "numeric"); ("carrier", text "number"); ("bounds", AList [AFloat (bounds_of p c).1; AFloat (bounds_of p c).2])]%string.
Definition category_entry (c : pystr) : art := obj [("kind", text "categorical"); ("carrier", AStr (carrier_of p c))]%string.
Definition plan_columns : list (pystr * art) := ((fun c => (c, numeric_entry c)) <$> numeric_cols p) ++ ((fun c => (c, category_entry c)) <$> categorical_cols p).

Lemma carrier_text k : label_carrier k -> is_token (AStr k) "number" = false /\ is_token (AStr k) "text" || is_token (AStr k) "flag" = true.
Proof. by intros [->| ->]. Qed.

Lemma weights : mapM (fun kv : pystr * art => carrier_weight kv.2) plan_columns = Some (replicate (length (numeric_cols p)) 1 ++ replicate (length (categorical_cols p)) 2).
Proof.
  assert (H1 : forall f (l : list pystr) n, (forall c, c ∈ l -> carrier_weight (f c) = Some n) -> mapM (fun kv : pystr * art => carrier_weight kv.2) ((fun c => (c, f c)) <$> l) = Some (replicate (length l) n)).
  { intros f l n Hf. induction l as [|c l IH]; [done|]. cbn. rewrite Hf by left. cbn. rewrite IH; [done|]. intros; apply Hf; by right. }
  assert (H2 : forall (l k : list (pystr * art)) a b, mapM (fun kv : pystr * art => carrier_weight kv.2) l = Some a -> mapM (fun kv : pystr * art => carrier_weight kv.2) k = Some b ->
    mapM (fun kv : pystr * art => carrier_weight kv.2) (l ++ k) = Some (a ++ b)).
  { induction l as [|x l IH]; intros k a b Ha Hb; cbn in *; [by injection Ha as <-|]. destruct (carrier_weight x.2) as [w|]; [|done]. cbn in *.
    destruct (mapM _ l) as [ws|] eqn:El; [|done]. injection Ha as <-. cbn. by rewrite (IH k ws b). }
  apply H2; apply H1; [done|]. intros c Hc. destruct (carrier_text _ (pl_categorical p Hp c Hc)) as [E1 E2].
  unfold carrier_weight, category_entry, obj. change (aget _ "carrier") with (AStr (carrier_of p c)). by rewrite E1, E2.
Qed.

Lemma sum_replicate n (x : Z) : foldr Z.add 0 (replicate n x) = Z.of_nat n * x.
Proof. induction n as [|n IH]; [done|]. cbn [replicate foldr]. rewrite IH. lia. Qed.
Lemma sum_app (l k : list Z) : foldr Z.add 0 (l ++ k) = foldr Z.add 0 l + foldr Z.add 0 k.
Proof. induction l as [|x l IH]; [done|]. cbn [app foldr]. rewrite IH. lia. Qed.

Lemma domain_of c : c ∈ numeric_cols p -> od_get plan_domains c = Some (AList [AFloat (bounds_of p c).1; AFloat (bounds_of p c).2]).
Proof. intros Hc. unfold plan_domains. rewrite (od_get_mapped (fun c => AList _)). by rewrite bool_decide_eq_true_2. Qed.

Lemma entry_ok e : e ∈ plan_columns -> entry_matches plan_cats plan_domains e = Ok true.
Proof.
  unfold plan_columns. rewrite elem_of_app. intros [(c & -> & Hc)%list_elem_of_fmap|(c & -> & Hc)%list_elem_of_fmap].
  - unfold entry_matches, numeric_entry, obj. change (is_token (aget _ "carrier") "number") with true. change (is_token (aget _ "kind") "numeric") with true.
    change (aget _ "bounds") with (AList [AFloat (bounds_of p c).1; AFloat (bounds_of p c).2]). rewrite domain_of by done. unfold od_has. rewrite domain_of by done.
    unfold plan_cats. rewrite listed_strs, (bool_decide_eq_false_2 (c ∈ _)) by (intros ?; by eapply pl_apart).
    destruct (pl_numeric p Hp c Hc) as (F1 & F2 & _). rewrite bool_decide_eq_true_2 by done. cbn [negb orb default from_option id art_items mbind result_bind].
    change (art_eqb (AList [?x; ?y]) (AList [?z; ?w])) with (art_eqb x z && (art_eqb y w && true)).
    by rewrite !art_eqb_float.
  - destruct (carrier_text _ (pl_categorical p Hp c Hc)) as [E1 E2]. unfold entry_matches, category_entry, obj. change (aget _ "carrier") with (AStr (carrier_of p c)). rewrite E1, E2.
    change (is_token (aget _ "kind") "categorical") with true. unfold plan_cats, plan_domains. rewrite listed_strs, (od_has_map (fun c => AList _)), (bool_decide_eq_true_2 (c ∈ _)) by done.
    rewrite bool_decide_eq_false_2; [done|]. intros ?. by eapply pl_apart.
Qed.

Lemma entries_ok l : (forall e, e ∈ l -> e ∈ plan_columns) -> entries_match plan_cats plan_domains l = Ok true.
Proof. induction l as [|e l IH]; intros Hl; [done|]. cbn [entries_match]. rewrite entry_ok by (apply Hl; left). cbn [mbind result_bind]. apply IH. intros; apply Hl; by right. Qed.

Lemma plan_columns_has c : od_has plan_columns c = bool_decide (c ∈ numeric_cols p) || bool_decide (c ∈ categorical_cols p).
Proof.
  unfold plan_columns, od_has. rewrite od_get_app, !od_get_mapped.
  destruct (bool_decide (c ∈ numeric_cols p)), (bool_decide (c ∈ categorical_cols p)); cbn [orb]; [apply bool_decide_eq_true_2; by eexists..|].
  apply bool_decide_eq_false_2. by intros [? ?].
Qed.

Lemma schema_ok : schema_matches_legacy plan_columns plan_cats plan_domains = Ok true.
Proof.
  unfold schema_matches_legacy. replace (forallb hashable plan_cats) with true by (symmetry; apply forallb_forall; intros v (c & -> & _)%list_elem_of_In%list_elem_of_fmap; done).
  cbn [negb raise_if mbind result_bind].
  replace (forallb _ (od_keys plan_columns)) with true; [replace (forallb _ plan_cats) with true; [replace (forallb _ (od_keys plan_domains)) with true|]|].
  - cbn [andb]. by apply entries_ok.
  - symmetry. apply forallb_forall. unfold plan_domains, od_keys. rewrite <- list_fmap_compose. intros k (c & -> & Hc)%list_elem_of_In%list_elem_of_fmap. cbn. rewrite plan_columns_has, bool_decide_eq_true_2 by done. done.
  - symmetry. apply forallb_forall. intros v (c & -> & Hc)%list_elem_of_In%list_elem_of_fmap. rewrite plan_columns_has, (bool_decide_eq_true_2 (c ∈ categorical_cols p)) by done. by rewrite orb_true_r.
  - symmetry. apply forallb_forall. unfold plan_columns, od_keys. rewrite fmap_app, <- !list_fmap_compose. unfold plan_cats, plan_domains.
    intros k [(c & -> & Hc)%list_elem_of_fmap|(c & -> & Hc)%list_elem_of_fmap]%list_elem_of_In%elem_of_app; cbn; rewrite listed_strs, (od_has_map (fun c => AList _)).
    + rewrite (bool_decide_eq_true_2 (c ∈ numeric_cols p)) by done. by rewrite orb_true_r.
    + by rewrite (bool_decide_eq_true_2 (c ∈ categorical_cols p)) by done.
Qed.

Section Blocks.
Context (e : flt) (He : is_finite e = true) (He0 : flt_leb (FFin 0) e = true).
Abbreviation block := (fields_of (dp_block p e (fit_delta p))).

Lemma block_found n blocks : dp_block_of (fields_of (fit_artifact p n blocks e (fit_delta p))) = Ok block.
Proof. reflexivity. Qed.

Lemma block_certified : certified_provenance block = Ok tt.
Proof. unfold certified_provenance. change (aget block "provenance") with (provenance_record (fit_provenance p)). by rewrite (pl_provenance p Hp). Qed.

Lemma block_compatible : check_release_compatibility block = Ok tt.
Proof. reflexivity. Qed.

Lemma block_declared : declared_columns block = Ok (plan_columns, plan_cats, plan_domains).
Proof.
  unfold declared_columns. change (aget block "categorical_columns") with (AList plan_cats). change (aget block "numeric_domains") with (ADict plan_domains).
  change (aget block "query_count") with (AInt (query_count (plan_schedule p))). unfold carrier_aware_query_count. change (aget block "column_schema") with (ADict plan_columns).
  cbv beta iota. rewrite weights. cbn [mbind option_bind]. rewrite sum_app, !sum_replicate.
  assert (Hq : 1 + zlen plan_domains + 2 * zlen plan_cats = query_count (plan_schedule p)).
  { unfold query_count, plan_domains, plan_cats, plan_schedule, zlen. cbn [numeric categorical]. by rewrite !length_fmap. }
  rewrite Hq, bool_decide_eq_true_2.
  - cbn [negb raise_if mbind result_bind]. rewrite art_eqb_int. cbn [negb raise_if mbind result_bind]. by rewrite schema_ok.
  - f_equal. rewrite <- Hq. unfold plan_domains, plan_cats, zlen. rewrite !length_fmap. lia.
Qed.

Lemma block_charge : fresh_release_id <> [] -> release_charge block = Ok (fresh_release_id, Num e, Num (fit_delta p)).
Proof.
  intros Hid. unfold release_charge. change (aget block "release_id") with (AStr fresh_release_id). change (aget block "epsilon_total") with (AFloat (Num e)).
  change (aget block "delta_total") with (AFloat (Num (fit_delta p))). cbv beta iota zeta. rewrite bool_decide_eq_false_2 by done. destruct (pl_delta p Hp) as [Hd Hd0].
  cbn [raise_if mbind result_bind _is_finite_real magnitude]. rewrite He, Hd. cbn [andb mbind result_bind]. unfold at_least_zero, art_number. cbn [magnitude]. by rewrite He0, Hd0.
Qed.

Lemma mapped_length {A B} (f : A -> result B) l bs : map_res f l = Ok bs -> length bs = length l.
Proof. intros E%map_res_forall2. symmetry. by eapply Forall2_length. Qed.

Lemma edges_accept l : (forall x, x ∈ l -> is_finite (magnitude x) = true) -> edges_match (AList (AFloat <$> l)) l = Ok true.
Proof.
  intros Hl. unfold edges_match. rewrite length_fmap, bool_decide_eq_true_2 by done. cbn [negb].
  rewrite all_res_true by (intros v (x & -> & Hx)%list_elem_of_fmap; cbn; by rewrite Hl). cbn [mbind result_bind].
  rewrite (map_res_ok _ (fun v => match v with AFloat x => x | _ => NegZero end)) by (by intros v (x & -> & Hx)%list_elem_of_fmap).
  cbn [mbind result_bind]. f_equal. apply forallb_forall. rewrite <- list_fmap_compose. cbn [compose]. intros [a b] Hab%list_elem_of_In.
  apply list_elem_of_lookup in Hab as [i Hi]. rewrite lookup_zip_with in Hi. rewrite list_lookup_fmap in Hi. destruct (l !! i) as [x|] eqn:Ex; [|done]. cbn in Hi. injection Hi as <- <-.
  apply f64_eqb_refl, Hl, list_elem_of_lookup. by exists i.
Qed.

Lemma numeric_accepted n c b : c ∈ numeric_cols p -> numeric_made p n c (c, b) ->
  exists d, b = ADict d /\ check_column_block block d c plan_columns plan_cats plan_domains = Ok tt.
Proof.
  intros Hc (_ & raw & E & Hlen). cbn [snd] in E. unfold numeric_block in E. destruct (bounds_of p c) as [lo hi] eqn:Eb. apply bind_inv in E as (counts & Ec & E). injection E as <-.
  eexists. split; [reflexivity|]. unfold check_column_block. match goal with |- context [column_block_matches_schema ?d _ _] => set (D := d) end.
  change (aget D "kind") with (AStr (py "numeric")). change (aget D "carrier") with (AStr (py "number")).
  replace (column_block_matches_schema D plan_columns c) with true.
  2: { unfold column_block_matches_schema, plan_columns. rewrite od_get_app, od_get_mapped, bool_decide_eq_true_2 by done. reflexivity. }
  change (carrier_pair (AStr (py "numeric")) (AStr (py "number"))) with true. change (is_token (AStr (py "numeric")) "numeric") with true.
  unfold od_has. rewrite domain_of by done. rewrite (bool_decide_eq_true_2 (is_Some _)) by by eexists. cbn [negb andb orb raise_if mbind result_bind].
  destruct (pl_numeric p Hp c Hc) as (F1 & F2 & F3). rewrite Eb in F1, F2, F3. cbn [fst snd] in F1, F2, F3.
  unfold check_numeric_release_shape. rewrite domain_of, Eb by done. cbn [fst snd _is_finite_real]. rewrite F1, F2. cbn [mbind result_bind].
  change (aget block "numeric_bins") with (AInt (fit_bins p)). pose proof (pl_bins p Hp) as Hbins. cbv beta iota.
  replace (fit_bins p <? 1) with false by lia. cbn [raise_if mbind result_bind art_float]. rewrite F3.
  replace (numeric_shape_matches_a_dp_release D lo hi (fit_bins p)) with true.
  - cbn [negb andb raise_if mbind result_bind].
    match goal with |- context [edges_match ?v ?k] => replace (edges_match v k) with (Ok true) end; [reflexivity|]. symmetry.
    etrans; [|apply (edges_accept (_canonical_bin_edges lo hi (fit_bins p)))].
    + change (aget D "stats") with (obj [("bin_edges", AList (AFloat lo :: (num <$> _interior_edges lo hi (fit_bins p)) ++ [AFloat hi]));
        ("bin_counts", AList (AInt <$> counts)); ("min", AFloat lo); ("max", AFloat hi); ("mean", ANone); ("std", ANone); ("quantiles", ADict [])]%string).
      f_equal. unfold _canonical_bin_edges, _interior_edges. cbn [fmap list_fmap]. rewrite fmap_app, <- !list_fmap_compose. reflexivity.
    + intros x. unfold _canonical_bin_edges. rewrite elem_of_cons, elem_of_app, list_elem_of_singleton. intros [->|[(i & -> & Hi)%list_elem_of_fmap| ->]]; [done| |done].
      apply (pl_edges p Hp c); [done|]. rewrite Eb. apply list_elem_of_fmap. by exists i.
  - symmetry. unfold numeric_shape_matches_a_dp_release. change (aget D "stats") with (obj [("bin_edges", AList (AFloat lo :: (num <$> _interior_edges lo hi (fit_bins p)) ++ [AFloat hi]));
        ("bin_counts", AList (AInt <$> counts)); ("min", AFloat lo); ("max", AFloat hi); ("mean", ANone); ("std", ANone); ("quantiles", ADict [])]%string). cbn [obj].
    change (aget _ "min") with (AFloat lo). change (aget _ "max") with (AFloat hi). change (aget _ "mean") with ANone. change (aget _ "std") with ANone. change (aget _ "quantiles") with (ADict []).
    change (aget _ "bin_counts") with (AList (AInt <$> counts)). rewrite !art_eqb_float by done. cbn [art_eqb andb]. unfold zlen. rewrite length_fmap, (mapped_length _ _ _ Ec), Hlen. cbn [fst snd].
    unfold _interior_edges, irange. rewrite !length_fmap, length_seq. apply Z.eqb_eq. lia.
Qed.

Lemma flag_tokens (l : list (label * Z)) retained : map_res (fun lc : label * Z => token ← retained_label (py "flag") lc.1; n ← _serialize_count lc.2; Ok (token, n)) l = Ok retained ->
  forall tn, tn ∈ retained -> tn.1 = py "true" \/ tn.1 = py "false".
Proof.
  intros E%map_res_forall2 tn Hin. apply list_elem_of_lookup in Hin as [i Hi]. destruct (Forall2_lookup_r _ _ _ _ _ E Hi) as (lc & _ & Elc).
  change (retained_label (py "flag") lc.1) with (Ok (_flag_token lc.1)) in Elc. cbn [mbind result_bind] in Elc. apply bind_inv in Elc as (m & _ & [= <-]). cbn [fst].
  unfold _flag_token. destruct lc.1 as [s|[]]; [destruct (negb _)|..]; tauto.
Qed.

Lemma categorical_accepted n c b : c ∈ categorical_cols p -> categorical_made p n c (c, b) ->
  exists d, b = ADict d /\ check_column_block block d c plan_columns plan_cats plan_domains = Ok tt.
Proof.
  intros Hc (_ & gs & t & E). cbn [snd] in E. unfold categorical_block in E. apply bind_inv in E as (retained & Er & E). apply bind_inv in E as (total & Et & E). injection E as <-.
  eexists. split; [reflexivity|]. unfold check_column_block. match goal with |- context [column_block_matches_schema ?d _ _] => set (D := d) end.
  change (aget D "kind") with (AStr (py "categorical")). change (aget D "carrier") with (AStr (carrier_of p c)).
  pose proof (pl_categorical p Hp c Hc) as Hlab. destruct (carrier_text _ Hlab) as [_ E2].
  unfold carrier_pair. change (is_token (AStr (py "categorical")) "numeric") with false. change (is_token (AStr (py "categorical")) "categorical") with true. rewrite E2.
  replace (column_block_matches_schema D plan_columns c) with true.
  2: { unfold column_block_matches_schema, plan_columns. rewrite od_get_app, !od_get_mapped, (bool_decide_eq_false_2 (c ∈ numeric_cols p)), bool_decide_eq_true_2 by (done || (intros ?; by eapply pl_apart)).
       unfold category_entry, obj. change (aget D "carrier") with (AStr (carrier_of p c)). change (aget D "kind") with (text "categorical").
       change (aget _ "carrier") with (AStr (carrier_of p c)). by rewrite art_eqb_str. }
  unfold plan_cats. rewrite listed_strs, bool_decide_eq_true_2 by done. cbn [negb andb orb raise_if mbind result_bind].
  unfold check_flag_tokens_canonical. change (is_token (AStr (py "categorical")) "categorical") with true. destruct (is_token (AStr (carrier_of p c)) "flag") eqn:Ef; [|done].
  replace (_flag_tokens_are_canonical D) with true; [done|]. symmetry. cbn in Ef. bool_prop. rewrite Ef in Er.
  unfold _flag_tokens_are_canonical.
  change (aget D "stats") with (obj [("top_values", AList ((fun tn : pystr * Z => obj [("value", AStr tn.1); ("count", AInt tn.2)]%string) <$> sorted_by (fun tn : pystr * Z => (- tn.2, tn.1)) retained));
    ("other_count", AInt (Z.max 0 (total - foldr Z.add 0 (snd <$> sorted_by (fun tn : pystr * Z => (- tn.2, tn.1)) retained))))]%string). cbn [obj].
  change (aget _ "top_values") with (AList ((fun tn : pystr * Z => obj [("value", AStr tn.1); ("count", AInt tn.2)]%string) <$> sorted_by (fun tn : pystr * Z => (- tn.2, tn.1)) retained)).
  apply forallb_forall. intros v (tn & -> & Htn)%list_elem_of_In%list_elem_of_fmap. apply elem_of_sorted_by in Htn. cbn [obj].
  change (aget _ "value") with (AStr tn.1). destruct (flag_tokens _ _ Er tn Htn) as [-> | ->]; reflexivity.
Qed.
End Blocks.
End Accepted.

(** ** The loop over the columns *)

(** The statistical columns of a configuration, with the names of their tables. *)
Definition named_entry (table_name col : art) : option (art * list (pystr * art)) :=
  match statistical_entry col with Some d => Some (table_name, d) | None => None end.
Definition table_columns (table : art) : result (list (art * list (pystr * art))) :=
  match table with
  | ADict t => cols ← generated_columns t; Ok (omap (M:=list) (named_entry (entry_name t)) cols)
  | _ => Ok []
  end.
Definition statistical_columns (c : pipeline_config) : result (list (art * list (pystr * art))) := ls ← map_res table_columns (config_tables c); Ok (concat ls).

Lemma over_columns {S} (f : S -> art -> list (pystr * art) -> result S) c s s' :
  over_statistical f c s = Ok s' <-> exists l, statistical_columns c = Ok l /\ for_each (fun s tc => f s tc.1 tc.2) l s = Ok s'.
Proof.
  unfold over_statistical, statistical_columns. generalize (config_tables c). clear c. intros tables. revert s. induction tables as [|t tables IH]; intros s.
  - cbn. split; [intros E; by exists []|]. by intros (l & [= <-] & E).
  - cbn [for_each map_res].
    assert (Ht : forall s s1, match t with
        | ADict t => cols ← generated_columns t; for_each (fun s col => match statistical_entry col with Some d => f s (entry_name t) d | None => Ok s end) cols s
        | _ => Ok s end = Ok s1 <-> exists l, table_columns t = Ok l /\ for_each (fun s tc => f s tc.1 tc.2) l s = Ok s1).
    { intros s0 s1. unfold table_columns. destruct t as [| | | | | |d]; try (split; [intros [= <-]; by exists []|by intros (l0 & [= <-] & [= <-])]).
      destruct (generated_columns d) as [cols|]; cbn [mbind result_bind]; [|split; [done|by intros (l0 & ? & _)]].
      assert (Hc : for_each (fun s col => match statistical_entry col with Some d0 => f s (entry_name d) d0 | None => Ok s end) cols s0 =
        for_each (fun s tc => f s tc.1 tc.2) (omap (named_entry (entry_name d)) cols) s0).
      { revert s0. induction cols as [|col cols IHc]; intros s0; [done|]. cbn. unfold named_entry at 1. destruct (statistical_entry col) as [d0|]; cbn; [|by rewrite IHc].
        destruct (f s0 (entry_name d) d0); cbn; [by rewrite IHc|done]. }
      rewrite Hc. split; [intros E; by eexists|by intros (l0 & [= <-] & E)]. }
    split.
    + intros E. apply bind_inv in E as (s1 & E1 & E). apply Ht in E1 as (l1 & E1 & F1). apply IH in E as (l2 & E2 & F2).
      apply bind_inv in E2 as (ls & E2 & [= <-]). exists (l1 ++ concat ls). rewrite E1. cbn [mbind result_bind]. rewrite E2. split; [done|]. rewrite for_each_app, F1. done.
    + intros (l & E & F). apply bind_inv in E as (ls & E & [= <-]). apply bind_inv in E as (l1 & E1 & E). apply bind_inv in E as (ls2 & E2 & [= <-]).
      cbn [concat] in F. rewrite for_each_app in F. apply bind_inv in F as (s1 & F1 & F). 
      rewrite (proj2 (Ht s s1)) by (by exists l1). cbn [mbind result_bind]. apply IH. exists (concat ls2). rewrite E2. done.
Qed.

(** ** What a verified pipeline is charged *)

Section Verified.
Context `{Reprs} (pinned : odict pystr ReadSnapshot).

(** A release: its identifier, the digest of its bytes, and what it says it cost. *)
Record charged := { ch_id : pystr; ch_digest : pystr; ch_epsilon : f64; ch_delta : f64 }.
Definition ledger_entry (r : charged) : _LedgerCharge :=
  {| charge_label := py "release:" ++ take 12 (ch_id r); charge_epsilon := magnitude (ch_epsilon r); charge_delta := magnitude (ch_delta r) |}.

(** A column whose snapshot passes every check, as a certain release. *)
Definition vouched (col : list (pystr * art)) (r : charged) : Prop :=
  exists read source col_snap, column_snapshot pinned col = Ok (Some (read, source, col_snap)) /\ sha256 read = ch_digest r /\
    check_release (parsed read) source col_snap = Ok (ch_id r, ch_epsilon r, ch_delta r).

(** The state after the columns of [l]: what was charged is a list of distinct releases. *)
Record charge_tally (l : list (art * list (pystr * art))) (st : vstate) (rs : list charged) : Prop := {
  ta_digests : release_id_to_digest st = (fun r => (ch_id r, ch_digest r)) <$> rs;
  ta_ledger : ledger st = ledger_entry <$> rs;
  ta_distinct : NoDup (ch_id <$> rs);
  ta_charged : forall r, r ∈ rs -> exists tc, tc ∈ l /\ vouched tc.2 r;
  ta_verified : forall t n, (t, n) ∈ verified st <-> exists tc, tc ∈ l /\ tc.1 = t /\ entry_name tc.2 = n /\ exists s, column_snapshot pinned tc.2 = Ok (Some s);
  ta_sound : forall tc s, tc ∈ l -> column_snapshot pinned tc.2 = Ok (Some s) ->
    exists r r', vouched tc.2 r /\ r' ∈ rs /\ ch_id r' = ch_id r /\ ch_digest r' = ch_digest r;
}.

Lemma tally_step l st rs tc st' : charge_tally l st rs -> verify_column pinned st tc.1 tc.2 = Ok st' -> exists rs', charge_tally (l ++ [tc]) st' rs'.
Proof.
  intros [T1 T2 T3 T4 T5 T6] E. unfold verify_column in E. apply bind_inv in E as (s & Es & E). destruct s as [[[read source] col_snap]|].
  2: { injection E as <-. exists rs. constructor; try done.
       - intros r Hr. destruct (T4 r Hr) as (tc' & ? & ?). exists tc'. split; [apply elem_of_app; by left|done].
       - intros t n. rewrite T5. split; [intros (tc' & ? & ?); exists tc'; split; [apply elem_of_app; by left|done]|].
         intros (tc' & [?| ->%list_elem_of_singleton]%elem_of_app & ? & ? & s & Hs); [exists tc'; split_and!; [done..|by exists s]|congruence].
       - intros tc' s [?| ->%list_elem_of_singleton]%elem_of_app Hs; [by eapply T6|congruence]. }
  apply bind_inv in E as ([[id e] d] & Ec & E). apply bind_inv in E as (st1 & Ech & E). unfold add_verified in E. apply bind_inv in E as ([] & _ & [= <-]).
  set (r := {| ch_id := id; ch_digest := sha256 read; ch_epsilon := e; ch_delta := d |}).
  assert (Hv : vouched tc.2 r) by (by exists read, source, col_snap).
  assert (Hst : verified st1 = verified st /\ exists rs', release_id_to_digest st1 = (fun r => (ch_id r, ch_digest r)) <$> rs' /\ ledger st1 = ledger_entry <$> rs' /\ NoDup (ch_id <$> rs') /\
    (forall x, x ∈ rs' -> x ∈ rs \/ x = r) /\ (forall x, x ∈ rs -> x ∈ rs') /\ exists r', r' ∈ rs' /\ ch_id r' = id /\ ch_digest r' = sha256 read).
  { unfold charge_release in Ech. destruct (od_get (release_id_to_digest st) id) as [dg|] eqn:Ed.
    - destruct (bool_decide (dg = sha256 read)) eqn:Edg; [|done]. injection Ech as <-. bool_prop. subst dg. split; [done|]. exists rs. split_and!; [done..|by left|done|].
      rewrite T1 in Ed. apply od_get_elem, list_elem_of_fmap in Ed as (r' & [= ? ?] & Hr'). by exists r'.
    - apply bind_inv in Ech as (lg & El & [= <-]). split; [done|]. exists (rs ++ [r]). cbn [release_id_to_digest ledger]. unfold charge in El.
      apply bind_inv in El as ([] & _ & El). apply bind_inv in El as ([] & _ & [= <-]). apply od_get_none in Ed.
      assert (Hid : id ∉ ch_id <$> rs) by (intros Hin; apply Ed; rewrite T1; unfold od_keys; by rewrite <- list_fmap_compose).
      split_and!.
      + rewrite od_set_new by done. by rewrite T1, fmap_app.
      + by rewrite T2, fmap_app.
      + rewrite fmap_app. apply list.NoDup_app. split; [done|]. split; [|apply list.NoDup_singleton]. by intros x Hx ->%list_elem_of_singleton.
      + intros x [?| ->%list_elem_of_singleton]%elem_of_app; [by left|by right].
      + intros x Hx. apply elem_of_app. by left.
      + exists r. split; [apply elem_of_app; right; left|done]. }
  destruct Hst as (Hver & rs' & H1 & H2 & H3 & H4 & H5 & r' & Hr' & Hid' & Hdg'). exists rs'. constructor; cbn [release_id_to_digest ledger verified]; try done.
  - intros x Hx. destruct (H4 x Hx) as [Hx'| ->]; [destruct (T4 x Hx') as (tc' & ? & ?); exists tc'; split; [apply elem_of_app; by left|done]|exists tc; split; [apply elem_of_app; right; left|done]].
  - intros t n. rewrite Hver, elem_of_app, list_elem_of_singleton, T5. split.
    + intros [(tc' & ? & ?)|[= -> ->]]; [exists tc'; split; [apply elem_of_app; by left|done]|]. exists tc. split; [apply elem_of_app; right; left|]. split_and!; [done..|by eexists].
    + intros (tc' & [?| ->%list_elem_of_singleton]%elem_of_app & <- & <- & s & Hs); [left; exists tc'; split_and!; [done..|by exists s]|by right].
  - intros tc' s [Hin| ->%list_elem_of_singleton]%elem_of_app Hs; [|exists r, r'; done].
    destruct (T6 tc' s Hin Hs) as (x & x' & ? & ? & ? & ?). exists x, x'. split_and!; [done|by apply H5|done..].
Qed.

Lemma tally_all l : forall done_l st rs st', charge_tally done_l st rs -> for_each (fun s tc => verify_column pinned s tc.1 tc.2) l st = Ok st' -> exists rs', charge_tally (done_l ++ l) st' rs'.
Proof.
  induction l as [|tc l IH]; intros done_l st rs st' Ht E; cbn [for_each] in E; [injection E as <-; exists rs; by rewrite app_nil_r|].
  apply bind_inv in E as (st1 & E1 & E). destruct (tally_step _ _ _ _ _ Ht E1) as [rs1 Ht1]. destruct (IH _ _ _ _ Ht1 E) as [rs' Ht']. exists rs'. by rewrite <- app_assoc in Ht'.
Qed.

Lemma tally_nothing : charge_tally [] no_releases [].
Proof.
  constructor; try done; [constructor|by intros r ?%elem_of_nil| |by intros tc s ?%elem_of_nil].
  intros t n. split; [by intros ?%elem_of_nil|by intros (tc & ?%elem_of_nil & _)].
Qed.

(** C14: A pipeline that declares a budget and is verified consumes no more than it declares.
    The statistical columns that have a snapshot are exactly the ones verified, each
    snapshot passed every check, and all that they release comes from distinct releases,
    each charged once however many columns draw on it, an identifier standing for one
    file's bytes only; the receipt names these releases and the exact sums of what they say
    they cost, and neither sum is above its declared ceiling. *)
Theorem verified_within_ceiling c cols receipt : verify_dp_snapshots c pinned = Ok (cols, receipt) -> _dp_declared c = true ->
  exists epsilon delta l rs, parse_dp_ceiling c = Ok (Some (epsilon, delta)) /\ statistical_columns c = Ok l /\
    (forall t n, (t, n) ∈ cols <-> exists tc, tc ∈ l /\ tc.1 = t /\ entry_name tc.2 = n /\ exists s, column_snapshot pinned tc.2 = Ok (Some s)) /\
    (forall tc s, tc ∈ l -> column_snapshot pinned tc.2 = Ok (Some s) -> exists r r', vouched tc.2 r /\ r' ∈ rs /\ ch_id r' = ch_id r /\ ch_digest r' = ch_digest r) /\
    (forall r, r ∈ rs -> exists tc, tc ∈ l /\ vouched tc.2 r) /\ NoDup (ch_id <$> rs) /\
    match receipt with
    | None => rs = []
    | Some v =>
        release_ids v = sorted (ch_id <$> rs) /\
        fsum ((fun r => magnitude (ch_epsilon r)) <$> rs) = Ok (epsilon_total v) /\ fsum ((fun r => magnitude (ch_delta r)) <$> rs) = Ok (delta_total v) /\
        flt_ltb (magnitude epsilon) (epsilon_total v) = false /\ flt_ltb (magnitude delta) (delta_total v) = false
    end.
Proof.
  intros E Hdecl. unfold verify_dp_snapshots in E. apply bind_inv in E as (ceiling & Hceil & E).
  assert (Hsome : exists x, ceiling = Some x).
  { unfold _dp_declared in Hdecl. unfold parse_dp_ceiling in Hceil. destruct (dp_declared c) as [v|]; [|by apply bool_decide_eq_true in Hdecl as [? ?]].
    destruct v; try discriminate. repeat (apply bind_inv in Hceil as (? & _ & Hceil)). injection Hceil as <-. by eexists. }
  destruct Hsome as [[epsilon delta] ->]. apply bind_inv in E as (st & Est & E). apply over_columns in Est as (l & El & Fl).
  destruct (tally_all l [] _ _ _ tally_nothing Fl) as [rs [T1 T2 T3 T4 T5 T6]]. cbn [app] in *. exists epsilon, delta, l, rs.
  split; [done|]. split; [done|]. destruct (release_id_to_digest st) as [|e0 ds] eqn:Ed.
  - injection E as <- <-. split_and!; [done..|]. by destruct rs.
  - apply bind_inv in E as (eu & He & E). apply bind_inv in E as (du & Hd & E). apply bind_inv in E as ([] & Hle & [= <- <-]). do 4 (split; [done|]).
    assert (Hs : sorted (od_keys (e0 :: ds)) = sorted (ch_id <$> rs)) by (rewrite T1; unfold od_keys; by rewrite <- list_fmap_compose).
    split; [exact Hs|]. cbn [epsilon_total delta_total]. unfold total_epsilon, total_delta in *. rewrite T2 in He, Hd. rewrite <- list_fmap_compose in He, Hd.
    destruct (flt_ltb (magnitude epsilon) eu || flt_ltb (magnitude delta) du) eqn:Eo; [done|]. apply orb_false_iff in Eo as [? ?]. by split_and!.
Qed.
End Verified.

(** ** From a fit to its verification *)

Lemma nearest_itself z : representable float64 z -> nearest float64 z 1 = FFin z.
Proof.
  intros Hz. unfold nearest. assert (Hr : round_units float64 z 1 = z).
  { apply Z.le_antisymm; [apply round_high|apply round_low]; first [done|lia|apply format_float64]. }
  rewrite Hr. destruct Hz as (m & j & _ & _ & _ & Hz). destruct (Z.ltb_spec (Z.abs z) (top float64)); [done|lia].
Qed.

Lemma fsum_one x : is_finite x = true -> flt_ok float64 x -> fsum [x] = Ok x.
Proof. destruct x as [z| |]; [|done..]. intros _ Hz. unfold fsum. cbn [mapM mbind option_bind mret option_ret foldr]. by rewrite Z.add_0_r, nearest_itself. Qed.

(** The loss that an artifact states. *)
Definition artifact_loss (a : art) : flt :=
  match aget (fields_of (aget (fields_of a) "dp")) "epsilon_total" with AFloat x => magnitude x | _ => FNan end.

Section RoundTrip.
Context `{Reprs} `{FitEnv}.

Lemma snapshot_column pinned col read source d : column_snapshot pinned col = Ok (Some (read, source, d)) -> od_get (fields_of (aget (parsed read) "columns")) source = Some (ADict d).
Proof.
  unfold column_snapshot. destruct (negb _); [done|]. destruct (od_get pinned _) as [r|]; [|done]. set (src := art_str _).
  destruct (art_truthy (aget (parsed r) "columns")).
  - destruct (aget (parsed r) "columns") as [| | | | | |cols] eqn:Ec; try done. cbn [mbind result_bind]. destruct (od_get cols src) as [[| | | | | |d']|] eqn:Es; try done.
    intros [= <- <- <-]. by rewrite Ec.
  - done.
Qed.

Lemma made_names (R : pystr -> pystr * art -> Prop) l bs : (forall c b, R c b -> b.1 = c) -> Forall2 R l bs -> forall k v, (k, v) ∈ bs -> k ∈ l /\ R k (k, v).
Proof.
  intros HR Hall k v Hin. apply list_elem_of_lookup in Hin as [i Hi]. destruct (Forall2_lookup_r _ _ _ _ _ Hall Hi) as (c & Hc & Hb).
  pose proof (HR _ _ Hb) as E. cbn in E. subst c. split; [|done]. apply list_elem_of_lookup. by exists i.
Qed.

Lemma artifact_accepted p a source d : planned p -> finished p a -> fresh_release_id <> [] -> od_get (fields_of (aget (fields_of a) "columns")) source = Some (ADict d) ->
  check_release (fields_of a) source d = Ok (fresh_release_id, Num (artifact_loss a), Num (fit_delta p)).
Proof.
  intros Hp (n & numbers & categories & e & -> & Hn & Hc & He & He0 & _) Hid Hget.
  change (artifact_loss _) with e. change (aget (fields_of _) "columns") with (ADict (numbers ++ categories)) in Hget. cbn [fields_of] in Hget.
  assert (Hcol : check_column_block (fields_of (dp_block p e (fit_delta p))) d source (plan_columns p) (plan_cats p) (plan_domains p) = Ok tt).
  { rewrite od_get_app in Hget. destruct (od_get numbers source) as [b|] eqn:En.
    - injection Hget as ->. apply od_get_elem in En. destruct (made_names _ _ _ (fun _ _ H => proj1 H) Hn _ _ En) as [Hin Hmade].
      destruct (numeric_accepted p Hp e n source (ADict d) Hin Hmade) as (d' & [= <-] & ?). done.
    - apply od_get_elem in Hget. destruct (made_names _ _ _ (fun _ _ H => proj1 H) Hc _ _ Hget) as [Hin Hmade].
      destruct (categorical_accepted p Hp e n source (ADict d) Hin Hmade) as (d' & [= <-] & ?). done. }
  unfold check_release. rewrite block_found. cbn [mbind result_bind]. rewrite block_certified by done. cbn [mbind result_bind]. rewrite block_compatible. cbn [mbind result_bind].
  rewrite block_declared by done. cbn [mbind result_bind]. rewrite Hcol. cbn [mbind result_bind]. by apply block_charge.
Qed.

(** Every statistical column of a configuration draws on one artifact. *)
Definition draws_on (pinned : odict pystr ReadSnapshot) (read : ReadSnapshot) (tc : art * list (pystr * art)) : Prop :=
  hashable tc.1 = true /\ hashable (entry_name tc.2) = true /\ exists source d, column_snapshot pinned tc.2 = Ok (Some (read, source, d)).

(** One such column: the release is charged, or was already. *)
Lemma verify_drawn p a pinned digest st tc : planned p -> finished p a -> fresh_release_id <> [] -> draws_on pinned {| sha256 := digest; parsed := fields_of a |} tc ->
  verify_column pinned st tc.1 tc.2 = (st ← charge_release st digest (fresh_release_id, Num (artifact_loss a), Num (fit_delta p));
    Ok {| verified := verified st ++ [(tc.1, entry_name tc.2)]; release_id_to_digest := release_id_to_digest st; ledger := ledger st |}).
Proof.
  intros Hp Ha Hid (H1 & H2 & source & d & Hs). unfold verify_column. rewrite Hs. cbn [mbind result_bind]. pose proof (snapshot_column _ _ _ _ _ Hs) as Hg. cbn [parsed sha256] in *.
  rewrite (artifact_accepted p a source d Hp Ha Hid Hg). cbn [mbind result_bind]. destruct (charge_release _ _ _) as [st'|]; cbn [mbind result_bind]; [|done].
  unfold add_verified. by rewrite H1, H2.
Qed.

Lemma verify_loop p a pinned digest l st : planned p -> finished p a -> fresh_release_id <> [] ->
  (forall tc, tc ∈ l -> draws_on pinned {| sha256 := digest; parsed := fields_of a |} tc) ->
  od_get (release_id_to_digest st) fresh_release_id = Some digest ->
  for_each (fun s tc => verify_column pinned s tc.1 tc.2) l st = Ok {| verified := verified st ++ ((fun tc => (tc.1, entry_name tc.2)) <$> l); release_id_to_digest := release_id_to_digest st; ledger := ledger st |}.
Proof.
  intros Hp Ha Hid. revert st. induction l as [|tc l IH]; intros st Hl Hst; cbn [for_each fmap list_fmap]; [rewrite app_nil_r; by destruct st|].
  rewrite (verify_drawn p a pinned digest st tc Hp Ha Hid) by (apply Hl; by left). unfold charge_release. rewrite Hst, bool_decide_eq_true_2 by done. cbn [negb raise_if mbind result_bind].
  rewrite IH; [|intros; apply Hl; by right|done]. cbn [verified release_id_to_digest ledger]. by rewrite <- app_assoc.
Qed.

(** C6: What a fit makes, generation accepts. A pipeline whose statistical columns all draw
    on the artifact of a finished fit, under a ceiling that covers the loss it states and
    the delta it was asked for, verifies: every column, with one charge for the release, of
    exactly the epsilon and delta that the artifact states. *)
Theorem fit_verifies column_schema epsilon delta bins p a c ceiling_epsilon ceiling_delta pinned digest l :
  (forall d, column_schema = VDict d -> NoDup (od_keys d)) -> plan_fit column_schema epsilon delta bins = Ok p -> finished p a -> fresh_release_id <> [] ->
  parse_dp_ceiling c = Ok (Some (ceiling_epsilon, ceiling_delta)) -> statistical_columns c = Ok l -> l <> [] ->
  (forall tc, tc ∈ l -> draws_on pinned {| sha256 := digest; parsed := fields_of a |} tc) ->
  flt_ok float64 (artifact_loss a) -> flt_ok float64 (fit_delta p) ->
  flt_leb (artifact_loss a) (magnitude ceiling_epsilon) = true -> flt_leb (fit_delta p) (magnitude ceiling_delta) = true ->
  verify_dp_snapshots c pinned = Ok ((fun tc => (tc.1, entry_name tc.2)) <$> l,
    Some {| scope := DP_RELEASE_SCOPE; release_ids := [fresh_release_id]; epsilon_total := artifact_loss a; delta_total := fit_delta p |}).
Proof.
  intros Hdict Hplan Ha Hid Hceil Hl Hne Hdraw Hre Hrd Hle Hld. pose proof (plan_facts _ _ _ _ _ Hdict Hplan) as Hp.
  assert (Hfin : is_finite (artifact_loss a) = true /\ flt_leb (FFin 0) (artifact_loss a) = true) by (destruct Ha as (n & numbers & categories & e & -> & _ & _ & He & He0 & _); by split).
  destruct Hfin as [Hfin Hpos]. destruct (pl_delta p Hp) as [Hdfin Hdpos]. destruct l as [|tc l]; [done|].
  set (entry := {| charge_label := py "release:" ++ take 12 fresh_release_id; charge_epsilon := artifact_loss a; charge_delta := fit_delta p |}).
  assert (Hover : over_statistical (verify_column pinned) c no_releases = Ok {| verified := (fun tc => (tc.1, entry_name tc.2)) <$> tc :: l; release_id_to_digest := [(fresh_release_id, digest)]; ledger := [entry] |}).
  { apply over_columns. exists (tc :: l). split; [done|]. cbn [for_each]. rewrite (verify_drawn p a pinned digest no_releases tc Hp Ha Hid) by (apply Hdraw; by left).
    unfold charge_release, charge. cbn [no_releases release_id_to_digest od_get magnitude].
    assert (Hlt : forall x, is_finite x = true -> flt_leb (FFin 0) x = true -> flt_ltb x (FFin 0) = false) by (intros [z| |] ? Hx; try done; cbn in *; by rewrite Hx).
    rewrite !Hlt by done. cbn [raise_if mbind result_bind od_set ledger no_releases app verified release_id_to_digest].
    rewrite (verify_loop p a pinned digest l) by (done || (intros; apply Hdraw; by right) || (cbn; by rewrite bool_decide_eq_true_2)). reflexivity. }
  unfold verify_dp_snapshots. rewrite Hceil. cbn [mbind result_bind]. rewrite Hover. cbn [mbind result_bind release_id_to_digest ledger verified]. unfold total_epsilon, total_delta. cbn [fmap list_fmap charge_epsilon charge_delta entry].
  rewrite !fsum_one by done. cbn [mbind result_bind].
  assert (Hnlt : forall x y, flt_leb x y = true -> flt_ltb y x = false) by (intros [x|[]|] [y|[]|]; cbn; try done; intros ->; done).
  rewrite !Hnlt by done. reflexivity.
Qed.
End RoundTrip.

(** ** The example *)

#[local] Instance no_reprs : Reprs := {| art_repr _ := [] |}.

Definition example_age : art := Eval vm_compute in ok_or ANone (numeric_block example_plan 2 (py "age") [1; 0]).
Definition example_city : art := Eval vm_compute in ok_or ANone (categorical_block example_plan 2 (py "city") [(LText (py "Oslo"), 1)] 1).
Definition example_artifact : art := fit_artifact example_plan 2 ([(py "age", example_age)] ++ [(py "city", example_city)]) (FFin 40) (fit_delta example_plan).
Definition example_read : ReadSnapshot := {| sha256 := py "ab12"; parsed := fields_of example_artifact |}.

Definition drawn_column (name source : string) : art :=
  obj [("type", text "statistical"); ("name", text name); ("source_column", text source); ("snapshot_file", text "people.json")]%string.
Definition example_config : pipeline_config := fields_of (obj [
  ("global_settings", obj [("dp", obj [("epsilon", AFloat (units 100)); ("delta", AFloat (units 4))])]);
  ("tables", AList [obj [("name", text "people"); ("generate_columns", AList [drawn_column "age" "age"; obj [("type", text "sequence")]; drawn_column "town" "city"])]])]%string).
Definition example_pinned : odict pystr ReadSnapshot := [(py "people.json", example_read)].
Definition example_columns : list (art * list (pystr * art)) :=
  [(text "people", fields_of (drawn_column "age" "age")); (text "people", fields_of (drawn_column "town" "city"))].

Lemma example_finished : finished example_plan example_artifact.
Proof.
  exists 2, [(py "age", example_age)], [(py "city", example_city)], (FFin 40). split; [reflexivity|].
  split; [|split; [|split; [|split; vm_compute; reflexivity]]]; [| |vm_compute; reflexivity].
  - replace (numeric_cols example_plan) with [py "age"] by (vm_compute; reflexivity). constructor; [|constructor]. split; [reflexivity|]. exists [1; 0]. split; vm_compute; reflexivity.
  - replace (categorical_cols example_plan) with [py "city"] by (vm_compute; reflexivity). constructor; [|constructor]. split; [reflexivity|]. exists [(LText (py "Oslo"), 1)], 1. vm_compute; reflexivity.
Qed.

Lemma small_representable z : Z.abs z < 2 ^ 53 -> representable float64 z.
Proof. intros Hz. exists z, 0. split; [done|]. split; [exact Hz|]. split; [lia|]. etrans; [exact Hz|]. by vm_compute. Qed.

Lemma example_dicts : example_age = ADict (fields_of example_age) /\ example_city = ADict (fields_of example_city).
Proof. split; reflexivity. Qed.

Lemma draws_from `{Reprs} pinned read col file source cols b : aget col "snapshot_file" = AStr file -> file <> [] -> od_get pinned file = Some read ->
  aget col "source_column" = AStr source -> source <> [] -> aget (parsed read) "columns" = ADict cols -> od_get cols source = Some (ADict b) ->
  column_snapshot pinned col = Ok (Some (read, source, b)).
Proof.
  intros Hf Hfn Hread Hs Hsn Hcols Hget. unfold column_snapshot. rewrite Hf, Hs. cbn [art_truthy art_str]. rewrite !bool_decide_eq_false_2 by done. cbn [negb].
  rewrite Hread, Hcols. cbn [art_truthy]. rewrite bool_decide_eq_false_2 by (by destruct cols). cbn [negb mbind result_bind].
  change (art_str (AStr source)) with source. by rewrite Hget.
Qed.

Lemma example_draws : Forall (draws_on example_pinned example_read) example_columns.
Proof.
  destruct example_dicts as [E1 E2]. constructor; [|constructor; [|constructor]]; (split; [reflexivity|]; split; [reflexivity|]); cbn [snd].
  - exists (py "age"), (fields_of example_age). apply (draws_from _ _ _ (py "people.json") _ [(py "age", example_age); (py "city", example_city)]); [reflexivity|done|reflexivity|reflexivity|done|reflexivity|].
    exact (f_equal Some E1).
  - exists (py "city"), (fields_of example_city). apply (draws_from _ _ _ (py "people.json") _ [(py "age", example_age); (py "city", example_city)]); [reflexivity|done|reflexivity|reflexivity|done|reflexivity|].
    exact (f_equal Some E2).
Qed.

Lemma fit_verifies_witness : verify_dp_snapshots example_config example_pinned =
  Ok ([(text "people", text "age"); (text "people", text "town")],
      Some {| scope := DP_RELEASE_SCOPE; release_ids := [py "r1"]; epsilon_total := FFin 40; delta_total := FFin 4 |}).
Proof.
  assert (Hd : fit_delta example_plan = FFin 4) by (vm_compute; reflexivity).
  rewrite (fit_verifies example_schema example_epsilon example_delta (VInt 2) example_plan example_artifact example_config (units 100) (units 4) example_pinned (py "ab12") example_columns).
  - rewrite Hd. reflexivity.
  - intros d [= <-]. apply (bool_decide_unpack _). vm_compute. exact I.
  - exact example_plans.
  - exact example_finished.
  - discriminate.
  - vm_compute. reflexivity.
  - vm_compute. reflexivity.
  - discriminate.
  - exact (proj1 (list.Forall_forall _ _) example_draws).
  - by apply small_representable.
  - rewrite Hd. by apply small_representable.
  - vm_compute. reflexivity.
  - rewrite Hd. vm_compute. reflexivity.
Defined.

(** Two columns draw on one release: it is charged once. *)
Lemma verified_within_ceiling_witness :
  exists rs, NoDup (ch_id <$> rs) /\ [py "r1"] = sorted (ch_id <$> rs) /\ fsum ((fun r => magnitude (ch_epsilon r)) <$> rs) = Ok (FFin 40) /\
    (forall r, r ∈ rs -> exists tc, tc ∈ example_columns /\ vouched example_pinned tc.2 r).
Proof.
  assert (E : verify_dp_snapshots example_config example_pinned = Ok ([(text "people", text "age"); (text "people", text "town")],
      Some {| scope := DP_RELEASE_SCOPE; release_ids := [py "r1"]; epsilon_total := FFin 40; delta_total := FFin 4 |})) by (vm_compute; reflexivity).
  assert (Hd : _dp_declared example_config = true) by (vm_compute; reflexivity).
  destruct (verified_within_ceiling example_pinned example_config _ _ E Hd) as (e & d & l & rs & _ & El & _ & _ & Hr & Hnd & Hids & Hsum & _).
  assert (Hl : statistical_columns example_config = Ok example_columns) by (vm_compute; reflexivity). rewrite Hl in El. apply ok_equal in El. subst l.
  exists rs. split; [exact Hnd|]. split; [exact Hids|]. split; [exact Hsum|exact Hr].
Defined.

(** ** Malformed artifacts that are not refused with a code *)

Definition nested_block : list (pystr * art) := fields_of (obj [
  ("categorical_columns", AList [AList [text "city"]]); ("numeric_domains", ADict []); ("query_count", AInt 3);
  ("column_schema", obj [("city", obj [("kind", text "categorical"); ("carrier", text "text")])])]%string).
(** A list among the categorical columns cannot be put in a set. *)
Example nested_category_uncaught : declared_columns nested_block = Err TypeErr.
Proof. vm_compute. reflexivity. Qed.

(** An integer beyond the floats makes the finiteness test raise. *)
Example huge_total_uncaught : release_charge (fields_of (obj [("release_id", text "r"); ("epsilon_total", AInt (10 ^ 400)); ("delta_total", AInt 0)]%string)) = Err (exc "OverflowError").
Proof. vm_compute. reflexivity. Qed.
